(* ===== verification/_CoqProject ===== *)
-Q . S2P
Prelude.v
Edgeric.v
EdgericExport.v
EdgericRuns.v
EdgericProps.v
RlcConfig.v
RlcAmPdu.v
RlcAmPduProps.v
SduWindow.v
RlcSegments.v
RlcRxAm.v
RlcRxAmProps.v
RlcRxAmDelivery.v
RlcRxAmRuns.v
RlcUmPdu.v
RlcRxUm.v
RlcRxUmProps.v
RlcRxUmRuns.v
RlcRetxQueue.v
RlcSduQueue.v
PdcpSn.v
RlcTxBase.v
RlcTxAm.v
RlcAmEntity.v
RlcTxAmFrames.v
RlcTxAmProps.v
RlcTxAmStatus.v
RlcTxAmRuns.v
RlcTxAmRetx.v
RlcTxAmMac.v
RlcAmLink.v
RlcTxUm.v
RlcTxUmProps.v
RlcTxUmRuns.v
RlcUmLink.v
RlcTm.v
BitEncoding.v
SecurityEngine.v
PdcpPdu.v
PdcpCryptoToken.v
PdcpRx.v
PdcpRxProps.v
PdcpRxSteps.v
PdcpRxRuns.v
PdcpRxExamples.v
PdcpTxWindow.v
PdcpTx.v
PdcpTxProps.v
PdcpTxReports.v
PdcpTxSteps.v
PdcpTxRuns.v
PdcpLink.v
PdcpTxExamples.v
BitBytes.v
GtpuPdu.v
GtpuPduProps.v
PsupPacking.v
GtpuNguRx.v
GtpuReorder.v
GtpuNguRxProps.v
GtpuNguRxRuns.v
GtpuNguRxSdus.v
GtpuNguExamples.v
GtpuNguTx.v
GtpuEcho.v
Sdap.v
DispatchQueue.v
DispatchQueueProps.v
DispatchQueueRuns.v
GtpuDemux.v
GtpuTeidPool.v
NruPacking.v
GtpuNru.v
F1uDu.v
F1uCuUp.v
F1uLink.v
F1uReports.v
F1uExamples.v
