(* ===== verification/Prelude.v ===== *)
(** * Verification of the user plane of the EdgeRIC gNB

    The repository is the srsRAN gNB with an agent, EdgeRIC, that exports its metrics
    every TTI and takes scheduling weights and MCS from outside.  This library models
    the agent and the layers of the user plane it measures: RLC in its three modes,
    the PDCP entities with their security engine, SDAP, GTP-U towards the core network, the
    F1-U bearers between DU and CU-UP, and the data structures these are built on.  Paths are relative to [src/].

    ** The parts and how they interact

    A downlink packet arrives as a GTP-U PDU at the demultiplexer, which finds the tunnel
    of its TEID and passes the PDU to it through a dispatch queue.  The NG-U tunnel
    dissects it, puts it in order and hands it on with its QoS flow; SDAP maps the flow to
    a bearer.  The SDU enters PDCP, which numbers, protects and hands it to the F1-U bearer
    of the CU-UP; an NR-U frame in GTP-U takes it to the F1-U bearer of the DU and from
    there to the RLC transmitter.  What the RLC transmitted and had acknowledged goes back
    the same way, as delivery status frames, to the window of PDCP.
    The RLC keeps it in a queue with discard until the MAC pulls PDUs of the size of its
    grants; the peer RLC reassembles and PDCP of the peer checks, reorders and delivers.
    In acknowledged mode the two directions of an entity are connected: the
    receiving one builds the status reports that the transmitting one of the same side
    sends, and hands it those of the peer.  All these layers report to the agent, which
    indexes the reports by UE and publishes one message per TTI.

    ** Conventions

    A machine integer of width w is a [Z] with its wrap written out ([u8] to [u64]); a
    byte buffer is a list of bytes as [Z].  An operation that may fail an assertion of
    the code returns [checked]: [Panic] is the abort.  The state of a component is a
    record, an operation a function of it that also returns the list of its outputs
    (calls to other layers, metrics); [emit_bind] concatenates outputs in the order of
    the calls.  An operation list ([*_op], [*_step], [*_run]) gives the events that the
    environment causes; what is decided outside, such as whether memory is
    available or an executor takes a task, is an argument of the event.  Tasks that the code
    defers to another executor wait in the state until an event runs them, so the
    interleavings of the executors are sequences of events; one operation is one step.
    Where threads share a component without a common executor the step is smaller: in the
    dispatch queue every access of a thread to shared memory is a step of its own (the
    MPMC queue inside is a list), at the F1-U bearer of the DU a store of the RLC may fall
    between any two loads, and an operation of the demultiplexer is what its mutex guards.

    ** Files

    Shared: this file (integers, [checked], field updates, list and map lemmas, the
    tactics [zbool], [bits], [dlia]); [SduWindow] ([include/srsran/adt/circular_map.h],
    [include/srsran/support/sdu_window.h]): the class [SduWindow] with its laws, against
    which the RLC and PDCP entities are proved, and its instance, the circular map;
    [BitEncoding] and [BitBytes] ([lib/support/bit_encoding.cpp]: bit fields, byte ranges).

    EdgeRIC agent, [lib/edgeric]: [Edgeric] (the static members of the class, the reporting and
    registration operations), [EdgericExport] ([send_tti_metrics], the reception of
    weights and MCS), [EdgericRuns] (operations and runs), [EdgericProps].

    RLC data, [include/srsran/rlc], [lib/rlc]: [RlcConfig] (types and modular
    arithmetic), [RlcAmPdu] ([rlc_am_pdu.cpp]: AMD header, status PDU), [RlcUmPdu]
    ([rlc_um_pdu.h]), [RlcSegments] (reassembly, common to the two receivers),
    [RlcRetxQueue] ([rlc_retx_queue.h]), [RlcSduQueue]
    ([rlc_sdu_queue_lockfree.h]), with their properties ([RlcAmPduProps]).

    RLC entities, [lib/rlc]: [RlcRxAm] ([rlc_rx_am_entity.cpp]) with [RlcRxAmProps],
    [RlcRxAmDelivery], [RlcRxAmRuns]; [RlcTxAm] ([rlc_tx_am_entity.cpp]) with
    [RlcTxAmFrames], [RlcTxAmProps], [RlcTxAmStatus], [RlcTxAmRuns], [RlcTxAmRetx],
    [RlcTxAmMac]; [RlcAmEntity] ([rlc_am_entity.h]); [RlcRxUm] and [RlcTxUm]
    ([rlc_rx_um_entity.cpp], [rlc_tx_um_entity.cpp]) with their [Props] and [Runs];
    [RlcTm] (both directions of transparent mode); [RlcTxBase], [PdcpSn] (what the
    transmitters share and read of PDCP).  [RlcAmLink] and [RlcUmLink] compose two ends.

    PDCP, [lib/pdcp]: [PdcpPdu] ([pdcp_pdu.h], [pdcp_sn.h], headers), [PdcpCryptoToken]
    ([pdcp_crypto_token.h]), [PdcpRx] ([pdcp_entity_rx.cpp]) with [PdcpRxProps],
    [PdcpRxSteps], [PdcpRxRuns], [PdcpRxExamples]; [PdcpTxWindow] ([pdcp_tx_window.cpp]),
    [PdcpTx] ([pdcp_entity_tx.cpp]) with [PdcpTxProps] (the window, the timers, the
    operations on them), [PdcpTxReports] (status reports), [PdcpTxSteps] (every operation
    preserves the invariant; where PDUs come from), [PdcpTxRuns] (executions),
    [PdcpTxExamples]; [PdcpLink] composes two ends.  [SecurityEngine]
    ([lib/security/security_engine_impl.cpp] and the engines): the class
    [SecurityAlgorithms] stands for the MAC and key stream functions, [SecurityLaws]
    for their two laws; [xor_algorithms] is an instance that evaluates.

    GTP-U, [lib/gtpu]: [GtpuPdu] ([gtpu_pdu.cpp]: header, extension headers, information
    elements) with [GtpuPduProps]; [PsupPacking] ([lib/psup/psup_packing.cpp]: the PDU
    session container); [GtpuNguRx] ([gtpu_tunnel_ngu_rx_impl.h]: the receiving tunnel);
    [GtpuReorder] (the queue it implements: a list of places, each filled or not, from
    the next number to deliver on), [GtpuNguRxProps], [GtpuNguRxRuns] (refinement),
    [GtpuNguRxSdus] (SDUs, order, reports to EdgeRIC), [GtpuNguExamples];
    [GtpuNguTx] ([gtpu_tunnel_ngu_tx_impl.h]: the transmitting tunnel), [GtpuEcho] (the
    echo endpoint), [GtpuTeidPool] (allocation of TEIDs), [GtpuDemux]
    ([gtpu_demux_impl.cpp]) over [DispatchQueue]
    ([include/srsran/adt/batched_dispatch_queue.h], with [DispatchQueueProps] and
    [DispatchQueueRuns]).  [Sdap] ([lib/sdap]): the entity and the map of flows to bearers.

    F1-U: [NruPacking] ([lib/nru/nru_packing.cpp]: the frames of NR-U), [GtpuNru] (the
    NR-U tunnels), [F1uDu] ([lib/f1u/du/f1u_bearer_impl.cpp]), [F1uCuUp]
    ([lib/f1u/cu_up/f1u_bearer_impl.cpp]); [F1uLink] and [F1uReports] connect the two
    bearers by the tunnels and prove what crosses, [F1uExamples] has their executions.

    ** What the theorems show

    - No assertion fails: every event that the environment of an entity may cause (below)
      succeeds in any reachable state
      ([rx_am_never_panics], [tx_am_never_panics], [rx_um_never_panics],
      [pdcp_rx_never_panics], [pdcp_tx_never_panics]).  Loops of the code have fuel and exhausting it is
      [Panic], so these theorems also show termination.
    - What is delivered is what was sent: reassembly ([segments_reassembly]), delivery
      and integrity of each entity ([rx_am_reliable_delivery], [tx_am_integrity],
      [tx_um_integrity], [rx_um_integrity], [pdcp_rx_in_order], [pdcp_tx_in_order]), and of two ends
      connected by a lower layer that loses, duplicates and reorders
      ([am_link_integrity], [um_link_integrity], [tm_link_fifo], [pdcp_end_to_end]); the security engine
      accepts exactly what a sender with the same keys makes ([security_exact]).
    - Status reports are exact and are acted on exactly ([status_report_exact],
      [status_report_applied], [pdcp_status_report_exact], [pdcp_status_report_applied]).
    - The window of the transmitting PDCP entity: its account of bytes, by which SDUs are
      dropped early, is exact ([pdcp_tx_window_account]), notifications take out what
      they report ([pdcp_tx_notified]), and the discard timer empties it
      ([pdcp_tx_discard_expiry]).
    - Progress: polls and their timer ([tx_am_polling], [poll_expiry_retransmits]),
      t-Reassembly and t-Reordering ([reassembly_expiry], [pdcp_reordering_expiry]), the
      queues drain ([tx_um_drains]).
    - GTP-U: what is written is dissected, whatever the bytes the dissection ends and is
      safe ([gtpu_header_roundtrip], [gtpu_dissect_safe]); the receiving tunnel refines a
      reordering queue without numbers modulo 2^16 ([ngu_rx_refines]), loses no SDU
      ([ngu_rx_conserves]), delivers in order ([ngu_rx_in_order]), and EdgeRIC counts
      exactly what it delivers ([ngu_telemetry]); what the transmitting tunnel sends, a
      receiver dissects ([ngu_tx_sends]); an echo request is answered with its sequence
      number ([echo_answered]).  No two allocated TEIDs are equal ([teid_unique], for any
      queue with the laws [TeidQueueLaws]).
    - The dispatch queue, for any number of producers and all interleavings: what waits
      has a consumer on its way ([dq_no_lost_wakeup]), is consumed at most once and in order
      ([dq_once_in_order]), and the queue drains when the executor takes its tasks
      ([dq_drains]).  On it, the demultiplexer hands PDUs to the tunnel of their TEID in
      order ([dx_routes]), and does not abort when tunnels are removed before their queues
      end ([dx_never_panics]).
    - SDAP is a one-to-one map between flows and bearers ([sdap_refines_bijection]).
    - F1-U: the RLC of the DU gets exactly the SDUs and discards that the CU-UP sent, as
      long as no 256 consecutive discards fall into one message ([f1u_downlink_exact]);
      when the executor takes its tasks, PDCP gets exactly the SDUs that the DU sent
      ([f1u_uplink_exact]) and is notified of the latest values of the RLC
      ([f1u_reports_arrive]).
    - Refinement: the lock-free queue of SDUs and the queue of retransmissions implement
      lists ([sdu_queue_refines_list], [retx_queue_refines_list]).
    - Formats: round trips of every header and of status PDUs, sizes within the grants.
    - The agent: its state stays well formed, the counters exported account for every
      report between two exports, weights live as long as configured.
    - Departures of the code from its intent are theorems too, or examples in the file
      of their component.

    ** Bounds and fuel

    [Fixpoint]s that are not structural take fuel: the number of elements of the list
    walked over, or for loops over sequence numbers and COUNTs the distance to the end
    in the arithmetic of the code ([count_turns], [ngu_turns], [retx_fuel]), or one more
    than the extension headers that fit their list ([gtpu_ext_fuel]); the theorems above show
    that it does not run out.  The hypotheses on configurations ([prx_cfg_ok] and its
    like) are those the theorems need: supported sequence number sizes, timers that are
    not zero where the code gives them no callback, a COUNT limit a window below 2^32.
    The transmitting AM entity takes SDUs that are not empty ([empty_sdu_panics]) and
    reports that acknowledge beyond TX_Next only with what they miss of the SDU under
    segmentation ([tx_op_ok]).
    What the environment of the transmitting PDCP entity has to keep to is [ptx_op_ok]: no SDU
    leaves the window before its PDU was submitted, and no notification or retransmission
    meets a hole in it; the code does not see to that, and [PdcpTxExamples] has the
    executions that then abort.
    A property of an entity that has to trust its peer says so ([carries], a lower layer that is not
    a window late); those that do not hold for any bytes.

    ** Not modelled

    Generated code (ASN.1, protobuf) and its parsers, which are parameters; sockets,
    logs, PCAP, latency metrics and the recycling of memory; the interleavings inside
    one operation of the components not named under Conventions (each is atomic: the
    mutexes and atomics of the code are taken at their word); the GTP-U gateway and the
    F1-U connectors that wire tunnels to sockets; the token bucket that limits
    the rate of a UE, whose answers are arguments; the ciphers themselves
    (SNOW 3G, ZUC and the AES of a library outside the repository); MAC scheduling, the physical layer and the
    control plane, which are separate subsystems of the repository. *)
From stdpp Require Import base numbers gmap list sorting.
From Stdlib Require Import ZArith Lia.

Set Default Goal Selector "!".

Declare Scope ran_scope.
Delimit Scope ran_scope with ran.
Open Scope Z_scope.
Open Scope ran_scope.

(** ** Machine integers

    A C++ unsigned integer of width [w] is a [Z] in [0, 2^w); every operation
    that can leave the range is followed by the wrap of its result type. *)

Definition wrap (w z : Z) : Z := z mod 2 ^ w.
Abbreviation u8 := (wrap 8).
Abbreviation u16 := (wrap 16).
Abbreviation u32 := (wrap 32).
Abbreviation u64 := (wrap 64).

Definition in_range (w z : Z) : Prop := 0 <= z < 2 ^ w.
Abbreviation is_u8 := (in_range 8).
Abbreviation is_u16 := (in_range 16).
Abbreviation is_u32 := (in_range 32).
Abbreviation is_u64 := (in_range 64).

(** A C++ conversion of a boolean condition. *)
Notation "x <? y" := (Z.ltb x y) : ran_scope.
Notation "x <=? y" := (Z.leb x y) : ran_scope.
Notation "x =? y" := (Z.eqb x y) : ran_scope.

(** ** Arithmetic automation *)

(** Evaluates the powers of two with a constant exponent. *)
Ltac pow_consts :=
  repeat match goal with
  | |- context [2 ^ Z.pos ?p] =>
      let v := eval vm_compute in (2 ^ Z.pos p) in change (2 ^ Z.pos p) with v
  | H : context [2 ^ Z.pos ?p] |- _ =>
      let v := eval vm_compute in (2 ^ Z.pos p) in change (2 ^ Z.pos p) with v in H
  end.

(** [lia] after division and modulo have been turned into equations. *)
Ltac dlia := pow_consts; Z.to_euclidean_division_equations; lia.

(** Turns every boolean comparison of the context and the goal into its
    proposition. *)
Ltac zbool :=
  repeat match goal with
  | H : (_ <? _)%Z = true |- _ => apply Z.ltb_lt in H
  | H : (_ <? _)%Z = false |- _ => apply Z.ltb_ge in H
  | H : (_ <=? _)%Z = true |- _ => apply Z.leb_le in H
  | H : (_ <=? _)%Z = false |- _ => apply Z.leb_gt in H
  | H : (_ =? _)%Z = true |- _ => apply Z.eqb_eq in H
  | H : (_ =? _)%Z = false |- _ => apply Z.eqb_neq in H
  | H : andb _ _ = true |- _ => apply andb_true_iff in H as [? ?]
  | H : orb _ _ = false |- _ => apply orb_false_iff in H as [? ?]
  | H : negb _ = true |- _ => apply negb_true_iff in H
  | H : negb _ = false |- _ => apply negb_false_iff in H
  end.

(** Destructs the condition of the first [if] of the goal. *)
Ltac case_if :=
  match goal with
  | |- context [if ?b then _ else _] => destruct b eqn:?
  end; zbool.

Lemma wrap_range w z : 0 <= w -> in_range w (wrap w z).
Proof. intros Hw. unfold in_range, wrap. apply Z.mod_pos_bound. lia. Qed.

Lemma wrap_small w z : in_range w z -> wrap w z = z.
Proof. intros H. unfold wrap. by apply Z.mod_small. Qed.

Lemma wrap_wrap w z : 0 <= w -> wrap w (wrap w z) = wrap w z.
Proof. intros Hw. apply wrap_small. by apply wrap_range. Qed.

Lemma wrap_add_l w a b : 0 <= w -> wrap w (wrap w a + b) = wrap w (a + b).
Proof. intros Hw. unfold wrap. rewrite Zplus_mod_idemp_l. done. Qed.

Lemma wrap_add_r w a b : 0 <= w -> wrap w (a + wrap w b) = wrap w (a + b).
Proof. intros Hw. unfold wrap. rewrite Zplus_mod_idemp_r. done. Qed.

(** ** Checked results

    [srsran_assert] and [srsran_assertion_failure] abort the process: a
    computation that may reach one returns a [checked] value. *)

Inductive checked (A : Type) : Type :=
| Ok (a : A)
| Panic.
Arguments Ok {_} _.
Arguments Panic {_}.

Definition checked_bind {A B} (m : checked A) (k : A -> checked B) : checked B :=
  match m with Ok a => k a | Panic => Panic end.

Notation "'let?' x ':=' m 'in' k" := (checked_bind m (fun x => k))
  (at level 10, x pattern, m at level 100, k at level 200) : ran_scope.

(** [srsran_assert(c)] followed by [k]. *)
Notation "'assert?' c ';' k" := (if c then k else Panic)
  (at level 10, c at level 100, k at level 200) : ran_scope.

Lemma checked_bind_ok {A B} (m : checked A) (k : A -> checked B) b :
  checked_bind m k = Ok b <-> exists a, m = Ok a /\ k a = Ok b.
Proof.
  destruct m as [a|]; cbn.
  - split; [by exists a|]. by intros (a' & [= ->] & H).
  - split; [done|]. by intros (? & ? & _).
Qed.

(** Computations that also emit outputs: the outputs follow each other. *)
Definition emit_bind {S T O} (m : checked (S * list O)) (k : S -> checked (T * list O)) :
    checked (T * list O) :=
  let? (s, out) := m in let? (t, out') := k s in Ok (t, out ++ out').

Notation "'emit?' x ':=' m 'in' k" := (emit_bind m (fun x => k))
  (at level 10, x pattern, m at level 100, k at level 200) : ran_scope.

Lemma emit_bind_ok {S T O} (m : checked (S * list O)) (k : S -> checked (T * list O)) t out :
  emit_bind m k = Ok (t, out) <->
  exists s out1 out2, m = Ok (s, out1) /\ k s = Ok (t, out2) /\ out = out1 ++ out2.
Proof.
  unfold emit_bind. rewrite checked_bind_ok. split.
  - intros ([s out1] & -> & ([t' out2] & Hk & [= -> <-])%checked_bind_ok). by exists s, out1, out2.
  - intros (s & out1 & out2 & -> & Hk & ->). exists (s, out1). by rewrite Hk.
Qed.

(** ** Record update

    [r <| f := v |>] assigns field [f]; [r <| f ::= g |>] updates it.  A record
    type declares its eta expansion once, the setter of every field is derived
    from it by abstracting the projection. *)

Class RecordEta (R : Type) := record_eta : R -> R.
Class FieldUpdate {R F : Type} (proj : R -> F) :=
  field_update : (F -> F) -> R -> R.

Ltac derive_field_update :=
  lazymatch goal with
  | |- @FieldUpdate ?R ?F ?proj =>
      let i := constr:(_ : RecordEta R) in
      let e := eval red in i in
      lazymatch eval pattern proj in e with
      | ?g _ => let u := eval cbv beta in
                  (fun (f : F -> F) (r : R) => g (fun r => f (proj r)) r) in
                exact u
      end
  end.
#[export] Hint Extern 0 (FieldUpdate _) => derive_field_update : typeclass_instances.

Arguments field_update {R F} proj {_} f r.

#[warnings="-postfix-notation-not-level-1"]
Notation "r <| f := v |>" := (field_update f (fun _ => v) r)
  (at level 12, left associativity, f at level 11, v at level 200,
   format "r <| f  :=  v |>") : ran_scope.
#[warnings="-postfix-notation-not-level-1"]
Notation "r <| f ::= g |>" := (field_update f g r)
  (at level 12, left associativity, f at level 11, g at level 200,
   format "r <| f  ::=  g |>") : ran_scope.

(** ** Ordered maps

    A [std::map] is a [gmap]; iterating over it visits its items in the order
    of their keys. *)

Class OrderedKey (K : Type) : Type := {
  key_le : relation K;
  key_le_dec :: RelDecision key_le;
  key_le_total :: Total key_le;
  key_le_trans :: Transitive key_le;
  key_le_antisymm :: AntiSymm (=) key_le;
}.

#[export] Instance Z_ordered : OrderedKey Z.
Proof.
  refine {| key_le := Z.le |}.
Defined.

Definition pair_le (x y : Z * Z) : Prop :=
  x.1 < y.1 \/ (x.1 = y.1 /\ x.2 <= y.2).

#[export] Instance pair_ordered : OrderedKey (Z * Z).
Proof.
  refine {| key_le := pair_le |}.
  - intros x y. unfold pair_le. apply _.
  - intros [a b] [c d]. unfold pair_le; cbn. lia.
  - intros [a b] [c d] [e f]. unfold pair_le; cbn. lia.
  - intros [a b] [c d]. unfold pair_le; cbn. intros. f_equal; lia.
Defined.

Section map_items.
Context `{Countable K} `{!OrderedKey K} {V : Type}.
Implicit Types m : gmap K V.

Definition item_le (x y : K * V) : Prop := key_le x.1 y.1.

#[local] Instance item_le_dec : RelDecision item_le.
Proof. intros x y. unfold item_le. apply _. Defined.

(** The items of a map in the order [std::map] iterates over them. *)
Definition map_items m : list (K * V) := merge_sort item_le (map_to_list m).

#[local] Instance item_le_total : Total item_le.
Proof. intros x y. unfold item_le. apply (total key_le). Qed.
#[local] Instance item_le_trans : Transitive item_le.
Proof. intros x y z. unfold item_le. apply transitivity. Qed.

Lemma map_items_perm m : map_items m ≡ₚ map_to_list m.
Proof. apply merge_sort_Permutation. Qed.

Lemma elem_of_map_items m k v : (k, v) ∈ map_items m <-> m !! k = Some v.
Proof. rewrite map_items_perm. apply elem_of_map_to_list. Qed.

Lemma NoDup_map_items m : NoDup (map_items m).*1.
Proof. rewrite map_items_perm. apply NoDup_fst_map_to_list. Qed.

Lemma elem_of_map_keys m k : k ∈ (map_items m).*1 <-> is_Some (m !! k).
Proof.
  rewrite list_elem_of_fmap. split.
  - intros ([k' v] & -> & Hin). apply elem_of_map_items in Hin. by exists v.
  - intros [v Hv]. exists (k, v). by rewrite elem_of_map_items.
Qed.

Lemma length_map_items m : length (map_items m) = size m.
Proof. rewrite map_items_perm. apply length_map_to_list. Qed.

Lemma StronglySorted_map_keys m : StronglySorted key_le (map_items m).*1.
Proof.
  pose proof (StronglySorted_merge_sort item_le (map_to_list m)) as HS.
  unfold map_items. induction HS as [|[k v] l HS IH HF]; cbn; constructor; [done|].
  rewrite Forall_fmap. done.
Qed.
End map_items.

(** [m[k]] of a [std::map] used as an assignable place: a missing key is first
    inserted with the default value [d]. *)
Definition map_at `{Countable K} {V} (d : V) (k : K) (f : V -> V)
    (m : gmap K V) : gmap K V := <[k := f (default d (m !! k))]> m.

Lemma lookup_map_at `{Countable K} {V} (d : V) k f (m : gmap K V) :
  map_at d k f m !! k = Some (f (default d (m !! k))).
Proof. apply lookup_insert_eq. Qed.

Lemma lookup_map_at_ne `{Countable K} {V} (d : V) k k' f (m : gmap K V) :
  k <> k' -> map_at d k f m !! k' = m !! k'.
Proof. apply lookup_insert_ne. Qed.

(** The erase loop of an iterator over a [std::map] that removes the items
    satisfying [p]. *)
Definition erase_if `{Countable K} {V} (p : K -> V -> bool) (m : gmap K V) :
    gmap K V := filter (fun kv => p kv.1 kv.2 = false) m.

Lemma lookup_erase_if `{Countable K} {V} (p : K -> V -> bool) (m : gmap K V) k v :
  erase_if p m !! k = Some v <-> m !! k = Some v /\ p k v = false.
Proof. unfold erase_if. apply map_lookup_filter_Some. Qed.

(** Length as an integer. *)
Definition zlen {A} (l : list A) : Z := Z.of_nat (length l).

Lemma zlen_app {A} (l1 l2 : list A) : zlen (l1 ++ l2) = zlen l1 + zlen l2.
Proof. unfold zlen. rewrite length_app. lia. Qed.

Lemma zlen_nonneg {A} (l : list A) : 0 <= zlen l.
Proof. unfold zlen. lia. Qed.

Lemma zlen_drop {A} (l : list A) n : 0 <= n <= zlen l -> zlen (drop (Z.to_nat n) l) = zlen l - n.
Proof. unfold zlen. rewrite length_drop. lia. Qed.

Lemma zlen_cons {A} (x : A) l : zlen (x :: l) = zlen l + 1.
Proof. unfold zlen. cbn [length]. lia. Qed.

Create HintDb ran.
Create Rewrite HintDb ran.
(** The union of two numbers of [k] bits has [k] bits. *)
Lemma lor_range k a b :
  0 <= k -> 0 <= a < 2 ^ k -> 0 <= b < 2 ^ k -> 0 <= Z.lor a b < 2 ^ k.
Proof.
  intros Hk Ha Hb.
  assert (Z.lor a b = Z.lor a b mod 2 ^ k) as ->.
  { rewrite <- Z.land_ones, Z.land_lor_distr_l, !Z.land_ones by lia. by rewrite !Z.mod_small. }
  apply Z.mod_pos_bound. lia.
Qed.

Create Rewrite HintDb bits.
#[export] Hint Rewrite @lookup_map_at : ran.
#[export] Hint Resolve wrap_range : ran.

Lemma map_Forall_map_at `{Countable K} {V} (P : K -> V -> Prop) d k f (m : gmap K V) :
  map_Forall P m -> P k (f (default d (m !! k))) -> map_Forall P (map_at d k f m).
Proof. intros Hm Hk. unfold map_at. by apply map_Forall_insert_2. Qed.

Lemma map_Forall_erase_if `{Countable K} {V} (P : K -> V -> Prop) p (m : gmap K V) :
  map_Forall P m -> map_Forall P (erase_if p m).
Proof. intros Hm k v [Hk _]%lookup_erase_if. by apply Hm. Qed.

Lemma lookup_foldl_delete `{Countable K} {V} (l : list K) (m : gmap K V) k :
  foldl (fun m k => delete k m) m l !! k = if decide (k ∈ l) then None else m !! k.
Proof.
  revert m. induction l as [|a l IH]; intros m; cbn.
  { case_decide as Hd; [|done]. by apply elem_of_nil in Hd. }
  rewrite IH. destruct (decide (k = a)) as [->|Hne].
  - rewrite lookup_delete_eq. rewrite (decide_True (P := a ∈ a :: l)); [|set_solver].
    by case_decide.
  - rewrite lookup_delete_ne by done. do 2 case_decide; set_solver.
Qed.

Lemma map_Forall_default `{Countable K} {V} (P : V -> Prop) (d : V) (m : gmap K V) k :
  P d -> map_Forall (fun _ v => P v) m -> P (default d (m !! k)).
Proof. intros Hd Hm. destruct (m !! k) as [v|] eqn:E; cbn; [|done]. by eapply Hm. Qed.

Lemma default_map_at `{Countable K} {V} (d : V) k k' f (m : gmap K V) :
  default d (map_at d k f m !! k') =
  if decide (k = k') then f (default d (m !! k')) else default d (m !! k').
Proof.
  case_decide as Hd; [subst; by rewrite lookup_map_at|by rewrite lookup_map_at_ne].
Qed.

(** The strict order of the keys visited by the iteration. *)
Lemma map_keys_strict {V} (m : gmap Z V) : StronglySorted Z.lt (map_items m).*1.
Proof.
  pose proof (StronglySorted_map_keys m) as HS.
  pose proof (NoDup_map_items m) as HN.
  induction HS as [|k l HS IH HF]; [constructor|].
  apply NoDup_cons in HN as [Hk HN]. constructor; [by apply IH|].
  rewrite Forall_forall in HF |- *. intros x Hx. specialize (HF x Hx).
  cbn in HF. assert (x <> k) by (by intros ->). lia.
Qed.

Lemma map_keys_le {V} (m : gmap Z V) : StronglySorted Z.le (map_items m).*1.
Proof.
  pose proof (map_keys_strict m) as HS. induction HS as [|k l HS IH HF]; constructor; [done|].
  eapply Forall_impl; [exact HF|]. cbn. lia.
Qed.

(** Two increasing enumerations of the same keys are equal. *)
Lemma map_keys_unique {V} (m : gmap Z V) (l : list Z) :
  StronglySorted Z.lt l -> (forall k, is_Some (m !! k) <-> k ∈ l) -> (map_items m).*1 = l.
Proof.
  intros HS Hl. apply (StronglySorted_unique Z.le).
  - apply map_keys_le.
  - clear Hl. induction HS as [|k l HS IH HF]; constructor; [done|].
    eapply Forall_impl; [exact HF|]. cbn. lia.
  - apply NoDup_Permutation; [apply NoDup_map_items| |].
    + clear Hl. induction HS as [|k l HS IH HF]; constructor; [|done].
      rewrite Forall_forall in HF. intros Hk%HF. lia.
    + intros k. by rewrite elem_of_map_keys, Hl.
Qed.

Lemma StronglySorted_seqZ a n : StronglySorted Z.lt (seqZ a n).
Proof.
  destruct (decide (0 <= n)); [|by rewrite seqZ_nil by lia; constructor].
  revert a. pattern n. apply natlike_ind; [|clear n l; intros n Hn IH a|done].
  - intros a. rewrite seqZ_nil by lia. constructor.
  - rewrite seqZ_cons, Z.pred_succ by lia. constructor; [apply IH|].
    apply Forall_forall. intros x Hx%elem_of_seqZ. lia.
Qed.

Lemma flat_map_ext_elem {A B} (f g : A -> list B) l :
  (forall x, x ∈ l -> f x = g x) -> flat_map f l = flat_map g l.
Proof.
  intros Hfg. induction l as [|x l IH]; cbn; [done|].
  rewrite (Hfg x) by set_solver. f_equal. apply IH. intros y Hy. apply Hfg. set_solver.
Qed.

(** ** Bit fields

    Masks and shifts by constants become divisions and remainders, after which
    [dlia] decides the equations of the packers. *)

Lemma land_field x k n :
  0 <= k -> 0 <= n -> Z.land x (Z.shiftl (Z.ones n) k) = (x / 2 ^ k) mod 2 ^ n * 2 ^ k.
Proof.
  intros Hk Hn. rewrite <- Z.shiftr_div_pow2, <- Z.shiftl_mul_pow2, <- Z.land_ones by lia.
  apply Z.bits_inj'. intros i Hi.
  rewrite Z.land_spec, !Z.shiftl_spec, Z.land_spec by lia.
  destruct (decide (i < k)).
  - by rewrite !(Z.testbit_neg_r _ (i - k)), !andb_false_r by lia.
  - rewrite Z.shiftr_spec by lia. by replace (i - k + k) with i by lia.
Qed.

Lemma lor_disjoint k a c :
  0 <= k -> a mod 2 ^ k = 0 -> 0 <= c < 2 ^ k -> Z.lor a c = a + c.
Proof.
  intros Hk Ha Hc. symmetry. apply Z.add_nocarry_lor. apply Z.bits_inj'. intros i Hi.
  rewrite Z.land_spec, Z.bits_0. destruct (decide (i < k)).
  - rewrite (Z.div_mod a (2 ^ k)) by lia. rewrite Ha, Z.add_0_r, Z.mul_comm.
    by rewrite Z.mul_pow2_bits_low.
  - destruct (decide (c = 0)) as [->|]; [by rewrite Z.bits_0, andb_false_r|].
    rewrite (Z.bits_above_log2 c i); [by rewrite andb_false_r|lia|].
    assert (Z.log2 c < k) by (apply Z.log2_lt_pow2; lia). lia.
Qed.

(** The masks of the packers. *)
Lemma land_mask_1 x : Z.land x 1 = x mod 2.
Proof. apply (Z.land_ones x 1); lia. Qed.
Lemma land_mask_3 x : Z.land x 3 = x mod 4.
Proof. apply (Z.land_ones x 2); lia. Qed.
Lemma land_mask_7 x : Z.land x 7 = x mod 8.
Proof. apply (Z.land_ones x 3); lia. Qed.
Lemma land_mask_15 x : Z.land x 15 = x mod 16.
Proof. apply (Z.land_ones x 4); lia. Qed.
Lemma land_mask_63 x : Z.land x 63 = x mod 64.
Proof. apply (Z.land_ones x 6); lia. Qed.
Lemma land_mask_127 x : Z.land x 127 = x mod 128.
Proof. apply (Z.land_ones x 7); lia. Qed.
Lemma land_mask_255 x : Z.land x 255 = x mod 256.
Proof. apply (Z.land_ones x 8); lia. Qed.
Lemma land_mask_2 x : Z.land x 2 = (x / 2) mod 2 * 2.
Proof. apply (land_field x 1 1); lia. Qed.
Lemma land_mask_4 x : Z.land x 4 = (x / 4) mod 2 * 4.
Proof. apply (land_field x 2 1); lia. Qed.
Lemma land_mask_8 x : Z.land x 8 = (x / 8) mod 2 * 8.
Proof. apply (land_field x 3 1); lia. Qed.
Lemma land_mask_16 x : Z.land x 16 = (x / 16) mod 2 * 16.
Proof. apply (land_field x 4 1); lia. Qed.
Lemma land_mask_32 x : Z.land x 32 = (x / 32) mod 2 * 32.
Proof. apply (land_field x 5 1); lia. Qed.
Lemma land_mask_128 x : Z.land x 128 = (x / 128) mod 2 * 128.
Proof. apply (land_field x 7 1); lia. Qed.
Lemma land_mask_12 x : Z.land x 12 = (x / 4) mod 4 * 4.
Proof. apply (land_field x 2 2); lia. Qed.
Lemma land_mask_240 x : Z.land x 240 = (x / 16) mod 16 * 16.
Proof. apply (land_field x 4 4); lia. Qed.
Lemma land_mask_192 x : Z.land x 192 = (x / 64) mod 4 * 64.
Proof. apply (land_field x 6 2); lia. Qed.
Lemma land_mask_252 x : Z.land x 252 = (x / 4) mod 64 * 4.
Proof. apply (land_field x 2 6); lia. Qed.

#[export] Hint Rewrite land_mask_1 land_mask_3 land_mask_7 land_mask_15
  land_mask_63 land_mask_127 land_mask_255 land_mask_2
  land_mask_4 land_mask_8 land_mask_16 land_mask_32
  land_mask_128 land_mask_12 land_mask_240 land_mask_192
  land_mask_252 : bits.

Lemma shiftr_const x k : 0 <= k -> Z.shiftr x k = x / 2 ^ k.
Proof. apply Z.shiftr_div_pow2. Qed.
Lemma shiftl_const x k : 0 <= k -> Z.shiftl x k = x * 2 ^ k.
Proof. apply Z.shiftl_mul_pow2. Qed.

(** Turns masks, shifts and wraps by constants into arithmetic; [dlia] closes
    what is left once the disjunctions are sums. *)
Ltac bits :=
  unfold wrap in *;
  rewrite ?shiftr_const, ?shiftl_const by lia;
  autorewrite with bits; rewrite ?shiftr_const, ?shiftl_const by lia;
  autorewrite with bits; pow_consts.
