(* ===== verification/Edgeric.v ===== *)
(** * EdgeRIC agent: state and metric reporters

    Models the static class [edgeric] of [src/lib/edgeric/edgeric.h] and
    [src/lib/edgeric/edgeric.cpp]: the per-TTI metric maps, the UE identity
    correlation maps and every function that reports a metric or registers an
    identity.  The static data members are the fields of [er_state]; a
    [std::map] is a [gmap], [m[k]] is [map_at]. *)
From stdpp Require Import base numbers gmap list sorting.
From Stdlib Require Import ZArith Lia SpecFloat.
From S2P Require Import Prelude.

Set Default Goal Selector "!".
Open Scope Z_scope.
Open Scope ran_scope.

(** ** Single precision floats (IEEE binary32) *)

Abbreviation float32 := spec_float.
Definition f32_zero : float32 := S754_zero false.
Definition f32_add (x y : float32) : float32 := SFadd 24 128 x y.

(** [static_cast<uint32_t>(x)]: truncation toward zero; [None] when the result
    is not representable, where the conversion has undefined behaviour. *)
Definition f32_to_u32 (x : float32) : option Z :=
  match x with
  | S754_zero _ => Some 0
  | S754_finite s m e =>
      let t := if 0 <=? e then Z.shiftl (Zpos m) e else Z.shiftr (Zpos m) (- e) in
      if s then if t =? 0 then Some 0 else None
      else if t <? 2 ^ 32 then Some t else None
  | S754_infinity _ | S754_nan => None
  end.

(** ** Metric records (edgeric.h) *)

(** Per-DRB MAC metrics. *)
Record mac_drb_metrics := mk_mac_drb_metrics {
  md_dl_buffer : Z;
  md_ul_buffer : Z;
  md_dl_bytes : Z;
  md_ul_bytes : Z;
}.
#[export] Instance mac_drb_metrics_eta : RecordEta mac_drb_metrics := fun r =>
  mk_mac_drb_metrics (md_dl_buffer r) (md_ul_buffer r) (md_dl_bytes r)
    (md_ul_bytes r).
Definition mac_drb_metrics_default : mac_drb_metrics :=
  mk_mac_drb_metrics 0 0 0 0.

(** Per-UE aggregate MAC metrics. *)
Record mac_ue_metrics := mk_mac_ue_metrics {
  mu_cqi : Z;
  mu_snr : float32;
  mu_dl_buffer : Z;
  mu_ul_buffer : Z;
  mu_dl_tbs : Z;
  mu_ul_tbs : Z;
  mu_dl_acked_bytes : Z;
  mu_ul_ok_bytes : Z;
  mu_dl_mcs : Z;
  mu_ul_mcs : Z;
  mu_dl_prbs : Z;
  mu_ul_prbs : Z;
  mu_dl_harq_ack : Z;
  mu_dl_harq_nack : Z;
  mu_ul_crc_ok : Z;
  mu_ul_crc_fail : Z;
  mu_avg_ce_delay_ms : float32;
  mu_avg_crc_delay_ms : float32;
  mu_avg_pucch_harq_delay_ms : float32;
  mu_avg_pusch_harq_delay_ms : float32;
  mu_avg_sr_to_pusch_delay_ms : float32;
  mu_avg_sum_mac_delay_ms : float32;
}.
#[export] Instance mac_ue_metrics_eta : RecordEta mac_ue_metrics := fun r =>
  mk_mac_ue_metrics (mu_cqi r) (mu_snr r) (mu_dl_buffer r) (mu_ul_buffer r)
    (mu_dl_tbs r) (mu_ul_tbs r) (mu_dl_acked_bytes r) (mu_ul_ok_bytes r)
    (mu_dl_mcs r) (mu_ul_mcs r) (mu_dl_prbs r) (mu_ul_prbs r)
    (mu_dl_harq_ack r) (mu_dl_harq_nack r) (mu_ul_crc_ok r) (mu_ul_crc_fail r)
    (mu_avg_ce_delay_ms r) (mu_avg_crc_delay_ms r)
    (mu_avg_pucch_harq_delay_ms r) (mu_avg_pusch_harq_delay_ms r)
    (mu_avg_sr_to_pusch_delay_ms r) (mu_avg_sum_mac_delay_ms r).
Definition mac_ue_metrics_default : mac_ue_metrics :=
  mk_mac_ue_metrics 0 f32_zero 0 0 0 0 0 0 0 0 0 0 0 0 0 0 f32_zero f32_zero f32_zero f32_zero f32_zero f32_zero.

(** Per-DRB RLC metrics, accumulated by the RLC entity. *)
Record rlc_drb_metrics := mk_rlc_drb_metrics {
  rd_dl_buffer : Z;
  rd_ul_buffer : Z;
  rd_tx_sdus : Z;
  rd_tx_sdu_bytes : Z;
  rd_tx_pdus : Z;
  rd_tx_pdu_bytes : Z;
  rd_tx_dropped_sdus : Z;
  rd_tx_retx_pdus : Z;
  rd_tx_sdu_latency_us : Z;
  rd_rx_sdus : Z;
  rd_rx_sdu_bytes : Z;
  rd_rx_pdus : Z;
  rd_rx_pdu_bytes : Z;
  rd_rx_lost_pdus : Z;
  rd_rx_sdu_latency_us : Z;
}.
#[export] Instance rlc_drb_metrics_eta : RecordEta rlc_drb_metrics := fun r =>
  mk_rlc_drb_metrics (rd_dl_buffer r) (rd_ul_buffer r) (rd_tx_sdus r)
    (rd_tx_sdu_bytes r) (rd_tx_pdus r) (rd_tx_pdu_bytes r)
    (rd_tx_dropped_sdus r) (rd_tx_retx_pdus r) (rd_tx_sdu_latency_us r)
    (rd_rx_sdus r) (rd_rx_sdu_bytes r) (rd_rx_pdus r) (rd_rx_pdu_bytes r)
    (rd_rx_lost_pdus r) (rd_rx_sdu_latency_us r).
Definition rlc_drb_metrics_default : rlc_drb_metrics :=
  mk_rlc_drb_metrics 0 0 0 0 0 0 0 0 0 0 0 0 0 0 0.

(** Per-DRB PDCP metrics, accumulated by the CU-UP. *)
Record pdcp_drb_metrics := mk_pdcp_drb_metrics {
  pd_tx_pdus : Z;
  pd_tx_pdu_bytes : Z;
  pd_tx_sdus : Z;
  pd_tx_dropped_sdus : Z;
  pd_tx_discard_timeouts : Z;
  pd_tx_pdu_latency_ns : Z;
  pd_rx_pdus : Z;
  pd_rx_pdu_bytes : Z;
  pd_rx_delivered_sdus : Z;
  pd_rx_dropped_pdus : Z;
  pd_rx_sdu_latency_ns : Z;
}.

(** Per-UE GTP-U counters. *)
Record gtp_ue_metrics := mk_gtp_ue_metrics {
  gu_dl_pkts : Z;
  gu_dl_bytes : Z;
  gu_ul_pkts : Z;
  gu_ul_bytes : Z;
}.
#[export] Instance gtp_ue_metrics_eta : RecordEta gtp_ue_metrics := fun r =>
  mk_gtp_ue_metrics (gu_dl_pkts r) (gu_dl_bytes r) (gu_ul_pkts r)
    (gu_ul_bytes r).
Definition gtp_ue_metrics_default : gtp_ue_metrics :=
  mk_gtp_ue_metrics 0 0 0 0.

(** ** The state of the agent

    Keys: RNTI for [mac_ue], [weights_recved] and [mcs_recved]; (RNTI, LCID) for
    [mac_drb] and [rlc_drb]; (CU-UP UE index, DRB id) for [pdcp_drb]; CU-UP UE
    index for [gtp_ue]. *)
(** Static data members of the class. *)
Record er_state := mk_er_state {
  tti_cnt : Z;
  er_ran_index_weights : Z;
  er_ran_index_mcs : Z;
  er_weights_tti : Z;
  er_mcs_tti : Z;
  enable_logging : bool;
  initialized : bool;
  weights_recved : gmap Z float32;
  mcs_recved : gmap Z Z;
  mac_ue : gmap Z mac_ue_metrics;
  mac_drb : gmap (Z * Z) mac_drb_metrics;
  rlc_drb : gmap (Z * Z) rlc_drb_metrics;
  pdcp_drb : gmap (Z * Z) pdcp_drb_metrics;
  gtp_ue : gmap Z gtp_ue_metrics;
  ue_index_to_rnti : gmap Z Z;
  e1ap_id_to_rnti : gmap Z Z;
  cu_up_ue_to_e1ap_id : gmap Z Z;
  du_ue_to_rnti : gmap Z Z;
}.
#[export] Instance er_state_eta : RecordEta er_state := fun r =>
  mk_er_state (tti_cnt r) (er_ran_index_weights r) (er_ran_index_mcs r)
    (er_weights_tti r) (er_mcs_tti r) (enable_logging r) (initialized r)
    (weights_recved r) (mcs_recved r) (mac_ue r) (mac_drb r) (rlc_drb r)
    (pdcp_drb r) (gtp_ue r) (ue_index_to_rnti r) (e1ap_id_to_rnti r)
    (cu_up_ue_to_e1ap_id r) (du_ue_to_rnti r).

(** The values the static members are defined with. *)
Definition er_state_init : er_state :=
  mk_er_state 0 0 0 0 0 false false ∅ ∅ ∅ ∅ ∅ ∅ ∅ ∅ ∅ ∅ ∅.

Definition TTI_ROLLOVER : Z := 10000.
Definition STALENESS_THRESHOLD : Z := 2.

(** ** Initialization, logging switch and TTI *)

(** Binding and connecting the sockets is outside the model: only the guard and
    the flag are. *)
Definition init (s : er_state) : er_state :=
  if initialized s then s else s <| initialized := true |>.

Definition ensure_initialized (s : er_state) : er_state :=
  if initialized s then s else init s.

Definition setLogging (enabled : bool) (s : er_state) : er_state :=
  s <| enable_logging := enabled |>.
Definition isLoggingEnabled (s : er_state) : bool := enable_logging s.

Definition setTTI (tti_count : Z) (s : er_state) : er_state :=
  s <| tti_cnt := tti_count |>.
Definition getTtiIndex (s : er_state) : Z := tti_cnt s mod TTI_ROLLOVER.

(** ** MAC metrics *)

(** [mac_ue[rnti]] and [mac_drb[{rnti, lcid}]] used as places. *)
Definition mac_ue_at (rnti : Z) (f : mac_ue_metrics -> mac_ue_metrics)
    (s : er_state) : er_state :=
  s <| mac_ue ::= map_at mac_ue_metrics_default rnti f |>.

Definition mac_drb_at (rnti lcid : Z) (f : mac_drb_metrics -> mac_drb_metrics)
    (s : er_state) : er_state :=
  s <| mac_drb ::= map_at mac_drb_metrics_default (rnti, lcid) f |>.

Definition set_mac_ue (rnti cqi : Z) (snr : float32)
    (dl_buffer ul_buffer dl_tbs ul_tbs : Z) : er_state -> er_state :=
  mac_ue_at rnti (fun m =>
    m <| mu_cqi := cqi |> <| mu_snr := snr |>
      <| mu_dl_buffer := dl_buffer |> <| mu_ul_buffer := ul_buffer |>
      <| mu_dl_tbs := dl_tbs |> <| mu_ul_tbs := ul_tbs |>).

Definition set_mac_drb (rnti lcid dl_buffer ul_buffer dl_bytes ul_bytes : Z) :
    er_state -> er_state :=
  mac_drb_at rnti lcid (fun m =>
    m <| md_dl_buffer := dl_buffer |> <| md_ul_buffer := ul_buffer |>
      <| md_dl_bytes := dl_bytes |> <| md_ul_bytes := ul_bytes |>).

Definition add_mac_drb_dl_bytes (rnti lcid bytes : Z) : er_state -> er_state :=
  mac_drb_at rnti lcid (fun m => m <| md_dl_bytes ::= fun x => u32 (x + bytes) |>).

Definition add_mac_drb_ul_bytes (rnti lcid bytes : Z) : er_state -> er_state :=
  mac_drb_at rnti lcid (fun m => m <| md_ul_bytes ::= fun x => u32 (x + bytes) |>).

(** The float variants convert first; they are undefined when the conversion
    is. *)
Definition set_tx_bytes (rnti : Z) (tbs : float32) (s : er_state) :
    option er_state :=
  n ← f32_to_u32 tbs;
  Some (mac_ue_at rnti (fun m => m <| mu_dl_tbs ::= fun x => u32 (x + n) |>) s).

Definition set_rx_bytes (rnti : Z) (tbs : float32) (s : er_state) :
    option er_state :=
  n ← f32_to_u32 tbs;
  Some (mac_ue_at rnti (fun m => m <| mu_ul_tbs ::= fun x => u32 (x + n) |>) s).

Definition set_dl_tbs (rnti tbs : Z) : er_state -> er_state :=
  mac_ue_at rnti (fun m => m <| mu_dl_tbs ::= fun x => u32 (x + tbs) |>).

Definition set_ul_tbs (rnti tbs : Z) : er_state -> er_state :=
  mac_ue_at rnti (fun m => m <| mu_ul_tbs ::= fun x => u32 (x + tbs) |>).

Definition set_dl_mcs (rnti mcs : Z) : er_state -> er_state :=
  mac_ue_at rnti (fun m =>
    if mu_dl_mcs m <? mcs then m <| mu_dl_mcs := mcs |> else m).

Definition set_ul_mcs (rnti mcs : Z) : er_state -> er_state :=
  mac_ue_at rnti (fun m =>
    if mu_ul_mcs m <? mcs then m <| mu_ul_mcs := mcs |> else m).

Definition set_dl_prbs (rnti prbs : Z) : er_state -> er_state :=
  mac_ue_at rnti (fun m => m <| mu_dl_prbs ::= fun x => u32 (x + prbs) |>).

Definition set_ul_prbs (rnti prbs : Z) : er_state -> er_state :=
  mac_ue_at rnti (fun m => m <| mu_ul_prbs ::= fun x => u32 (x + prbs) |>).

(** The sum associates to the left, in single precision. *)
Definition report_mac_delays (rnti : Z)
    (avg_ce_delay_ms avg_crc_delay_ms avg_pucch_harq_delay_ms
     avg_pusch_harq_delay_ms avg_sr_to_pusch_delay_ms : float32) :
    er_state -> er_state :=
  mac_ue_at rnti (fun m =>
    m <| mu_avg_ce_delay_ms := avg_ce_delay_ms |>
      <| mu_avg_crc_delay_ms := avg_crc_delay_ms |>
      <| mu_avg_pucch_harq_delay_ms := avg_pucch_harq_delay_ms |>
      <| mu_avg_pusch_harq_delay_ms := avg_pusch_harq_delay_ms |>
      <| mu_avg_sr_to_pusch_delay_ms := avg_sr_to_pusch_delay_ms |>
      <| mu_avg_sum_mac_delay_ms :=
           f32_add (f32_add (f32_add (f32_add avg_ce_delay_ms avg_crc_delay_ms)
             avg_pucch_harq_delay_ms) avg_pusch_harq_delay_ms)
             avg_sr_to_pusch_delay_ms |>).

Definition inc_dl_harq_ack (rnti tbs : Z) (s : er_state) : er_state :=
  let s := mac_ue_at rnti (fun m => m <| mu_dl_harq_ack ::= fun x => u32 (x + 1) |>) s in
  mac_ue_at rnti (fun m => m <| mu_dl_acked_bytes ::= fun x => u32 (x + tbs) |>) s.

Definition inc_dl_harq_nack (rnti : Z) : er_state -> er_state :=
  mac_ue_at rnti (fun m => m <| mu_dl_harq_nack ::= fun x => u32 (x + 1) |>).

Definition inc_ul_crc_ok (rnti tbs : Z) (s : er_state) : er_state :=
  let s := mac_ue_at rnti (fun m => m <| mu_ul_crc_ok ::= fun x => u32 (x + 1) |>) s in
  mac_ue_at rnti (fun m => m <| mu_ul_ok_bytes ::= fun x => u32 (x + tbs) |>) s.

Definition inc_ul_crc_fail (rnti : Z) : er_state -> er_state :=
  mac_ue_at rnti (fun m => m <| mu_ul_crc_fail ::= fun x => u32 (x + 1) |>).

Definition inc_dl_ok := inc_dl_harq_ack.
Definition inc_dl_nok := inc_dl_harq_nack.
Definition inc_ul_ok := inc_ul_crc_ok.
Definition inc_ul_nok := inc_ul_crc_fail.

Definition set_cqi (rnti : Z) (cqi : float32) (s : er_state) : option er_state :=
  n ← f32_to_u32 cqi; Some (mac_ue_at rnti (fun m => m <| mu_cqi := n |>) s).

Definition set_snr (rnti : Z) (snr : float32) : er_state -> er_state :=
  mac_ue_at rnti (fun m => m <| mu_snr := snr |>).

Definition set_ul_buffer (rnti ul_buffer : Z) : er_state -> er_state :=
  mac_ue_at rnti (fun m => m <| mu_ul_buffer := ul_buffer |>).

Definition set_dl_buffer (rnti dl_buffer : Z) : er_state -> er_state :=
  mac_ue_at rnti (fun m => m <| mu_dl_buffer := dl_buffer |>).

Definition add_drb_tx_bytes (rnti lcid : Z) (bytes : float32) (s : er_state) :
    option er_state :=
  n ← f32_to_u32 bytes;
  Some (mac_drb_at rnti lcid (fun m => m <| md_dl_bytes ::= fun x => u32 (x + n) |>) s).

Definition add_drb_rx_bytes (rnti lcid : Z) (bytes : float32) (s : er_state) :
    option er_state :=
  n ← f32_to_u32 bytes;
  Some (mac_drb_at rnti lcid (fun m => m <| md_ul_bytes ::= fun x => u32 (x + n) |>) s).

(** Only CQI, SNR and the buffers: TBS, PRBs and MCS of the slot are kept. *)
Definition collect_ue_telemetry (rnti : Z) (cqi snr : float32)
    (dl_buffer_bytes ul_buffer_bytes : Z) (s : er_state) : option er_state :=
  n ← f32_to_u32 cqi;
  Some (mac_ue_at rnti (fun m =>
    m <| mu_cqi := n |> <| mu_snr := snr |>
      <| mu_dl_buffer := dl_buffer_bytes |>
      <| mu_ul_buffer := ul_buffer_bytes |>) s).

(** ** RLC, PDCP and GTP-U metrics *)

Definition report_rlc_metrics (du_ue_index lcid : Z) (metrics : rlc_drb_metrics)
    (s : er_state) : er_state :=
  match du_ue_to_rnti s !! du_ue_index with
  | None => s
  | Some rnti => s <| rlc_drb ::= <[(rnti, lcid) := metrics]> |>
  end.

Definition register_du_ue (du_ue_index rnti : Z) (s : er_state) : er_state :=
  s <| du_ue_to_rnti ::= <[du_ue_index := rnti]> |>.

Definition set_rlc_dl_buffer (rnti lcid dl_buffer : Z) (s : er_state) : er_state :=
  s <| rlc_drb ::= map_at rlc_drb_metrics_default (rnti, lcid)
                     (fun m => m <| rd_dl_buffer := dl_buffer |>) |>.

(** The uplink buffer is per LCG; the function ignores its arguments. *)
Definition set_rlc_ul_buffer (rnti lcg ul_buffer : Z) (s : er_state) : er_state := s.

Definition set_drb_dl_buffer := set_rlc_dl_buffer.
Definition set_drb_ul_buffer := set_rlc_ul_buffer.

Definition report_pdcp_metrics (cu_up_ue_index drb_id : Z)
    (metrics : pdcp_drb_metrics) (s : er_state) : er_state :=
  s <| pdcp_drb ::= <[(cu_up_ue_index, drb_id) := metrics]> |>.

Definition report_gtp_dl_pkt (cu_up_ue_index pdu_len : Z) (s : er_state) : er_state :=
  s <| gtp_ue ::= map_at gtp_ue_metrics_default cu_up_ue_index (fun m =>
         m <| gu_dl_pkts ::= fun x => u64 (x + 1) |>
           <| gu_dl_bytes ::= fun x => u64 (x + pdu_len) |>) |>.

Definition report_gtp_ul_pkt (cu_up_ue_index pdu_len : Z) (s : er_state) : er_state :=
  s <| gtp_ue ::= map_at gtp_ue_metrics_default cu_up_ue_index (fun m =>
         m <| gu_ul_pkts ::= fun x => u64 (x + 1) |>
           <| gu_ul_bytes ::= fun x => u64 (x + pdu_len) |>) |>.

(** ** UE identity correlation *)

Definition register_ue (ue_index rnti : Z) (s : er_state) : er_state :=
  s <| ue_index_to_rnti ::= <[ue_index := rnti]> |>.

Definition unregister_ue (ue_index : Z) (s : er_state) : er_state :=
  s <| ue_index_to_rnti ::= delete ue_index |>.

Definition get_rnti_from_ue_index (ue_index : Z) (s : er_state) : Z :=
  match ue_index_to_rnti s !! ue_index with Some rnti => rnti | None => 0 end.

Definition register_e1ap_rnti (e1ap_id rnti : Z) (s : er_state) : er_state :=
  s <| e1ap_id_to_rnti ::= <[e1ap_id := rnti]> |>.

Definition register_cu_up_ue_e1ap (cu_up_ue_index e1ap_id : Z) (s : er_state) :
    er_state :=
  s <| cu_up_ue_to_e1ap_id ::= <[cu_up_ue_index := e1ap_id]> |>.

(** The CU-UP index is resolved through the E1AP id; otherwise it is used as a
    position in the ordered CU-CP registrations, then in the ordered RNTIs the
    scheduler reported; 0 when nothing matches.  A [std::map] iterates in key
    order, so the [std::sort] of its items changes nothing. *)
Definition get_rnti_from_cu_up_ue_index (cu_up_ue_index : Z) (s : er_state) : Z :=
  match (e1ap_id ← cu_up_ue_to_e1ap_id s !! cu_up_ue_index;
         e1ap_id_to_rnti s !! e1ap_id) with
  | Some rnti => rnti
  | None =>
      let sorted_ues := map_items (ue_index_to_rnti s) in
      match sorted_ues !! Z.to_nat cu_up_ue_index with
      | Some (_, rnti) => rnti
      | None =>
          let sorted_rntis := (map_items (mac_ue s)).*1 in
          match sorted_rntis !! Z.to_nat cu_up_ue_index with
          | Some rnti => rnti
          | None => 0
          end
      end
  end.

(** [erase_if] is the iterator loop that erases matching items; the erased keys
    are collected in key order. *)
Definition unregister_ue_by_rnti (rnti : Z) (s : er_state) : er_state :=
  let s := s <| mac_ue ::= delete rnti |> in
  let s := s <| mac_drb ::= erase_if (fun k _ => k.1 =? rnti) |> in
  let s := s <| rlc_drb ::= erase_if (fun k _ => k.1 =? rnti) |> in
  let s := s <| ue_index_to_rnti ::= erase_if (fun _ r => r =? rnti) |> in
  let s := s <| du_ue_to_rnti ::= erase_if (fun _ r => r =? rnti) |> in
  let e1ap_ids_to_remove :=
    (filter (fun kv => kv.2 = rnti) (map_items (e1ap_id_to_rnti s))).*1 in
  let s := s <| e1ap_id_to_rnti ::= erase_if (fun _ r => r =? rnti) |> in
  let removed (v : Z) : bool := bool_decide (v ∈ e1ap_ids_to_remove) in
  let cu_up_indices_to_remove :=
    (filter (fun kv => removed kv.2 = true) (map_items (cu_up_ue_to_e1ap_id s))).*1 in
  let s := s <| cu_up_ue_to_e1ap_id ::= erase_if (fun _ e => removed e) |> in
  let s := s <| pdcp_drb ::=
    erase_if (fun k _ => bool_decide (k.1 ∈ cu_up_indices_to_remove)) |> in
  s <| gtp_ue ::= fun m => foldl (fun m k => delete k m) m cu_up_indices_to_remove |>.

(** ** Queries used by the telemetry clients *)

(** A [std::set] of the matching identifiers, read in increasing order; the keys
    of the map are visited in (first, second) order already. *)
Definition get_drb_lcids (rnti : Z) (s : er_state) : list Z :=
  (filter (fun k => k.1 = rnti) (map_items (mac_drb s)).*1).*2.

Definition get_pdcp_drb_ids (rnti : Z) (s : er_state) : list Z := [].

Definition get_pdcp_drb_ids_by_ue_index (ue_index : Z) (s : er_state) : list Z :=
  (filter (fun k => k.1 = ue_index) (map_items (pdcp_drb s)).*1).*2.

Definition get_gtp_metrics (rnti : Z) (s : er_state) : option gtp_ue_metrics :=
  head (filter (fun kv => get_rnti_from_cu_up_ue_index kv.1 s = rnti)
               (map_items (gtp_ue s))).*2.
