(* ===== verification/EdgericExport.v ===== *)
(** * EdgeRIC agent: telemetry export and control reception

    Models [send_tti_metrics], [get_weights_from_er], [get_mcs_from_er] and the
    control getters of [src/lib/edgeric/edgeric.cpp].  The protobuf messages of
    [src/lib/protobufs] are records; the generated parsers are parameters of the
    receivers, and the published message is the value the sender returns (its
    serialization and the ZMQ transport are outside the model). *)
From stdpp Require Import base numbers gmap list sorting.
From Stdlib Require Import ZArith Lia SpecFloat.
From S2P Require Import Prelude.
From S2P Require Import Edgeric.

Set Default Goal Selector "!".
Open Scope Z_scope.
Open Scope ran_scope.

(** ** Messages (metrics.proto) *)

(** MAC metrics of a DRB. *)
Record MacDrbMetrics := mk_MacDrbMetrics {
  dm_lcid : Z;
  dm_dl_buffer : Z;
  dm_ul_buffer : Z;
  dm_dl_bytes : Z;
  dm_ul_bytes : Z;
}.

(** RLC metrics of a DRB. *)
Record RlcDrbMetrics := mk_RlcDrbMetrics {
  rm_lcid : Z;
  rm_dl_buffer : Z;
  rm_ul_buffer : Z;
  rm_tx_sdus : Z;
  rm_tx_sdu_bytes : Z;
  rm_tx_pdus : Z;
  rm_tx_pdu_bytes : Z;
  rm_tx_dropped_sdus : Z;
  rm_tx_retx_pdus : Z;
  rm_tx_sdu_latency_us : Z;
  rm_rx_sdus : Z;
  rm_rx_sdu_bytes : Z;
  rm_rx_pdus : Z;
  rm_rx_pdu_bytes : Z;
  rm_rx_lost_pdus : Z;
  rm_rx_sdu_latency_us : Z;
}.

(** PDCP metrics of a DRB. *)
Record PdcpDrbMetrics := mk_PdcpDrbMetrics {
  pm_drb_id : Z;
  pm_lcid : Z;
  pm_tx_pdus : Z;
  pm_tx_pdu_bytes : Z;
  pm_tx_sdus : Z;
  pm_tx_dropped_sdus : Z;
  pm_tx_discard_timeouts : Z;
  pm_tx_pdu_latency_ns : Z;
  pm_rx_pdus : Z;
  pm_rx_pdu_bytes : Z;
  pm_rx_delivered_sdus : Z;
  pm_rx_dropped_pdus : Z;
  pm_rx_sdu_latency_ns : Z;
}.

(** GTP-U counters of a UE. *)
Record GtpMetrics := mk_GtpMetrics {
  gm_dl_pkts : Z;
  gm_dl_bytes : Z;
  gm_ul_pkts : Z;
  gm_ul_bytes : Z;
}.

(** MAC metrics of a UE. *)
Record MacUeMetrics := mk_MacUeMetrics {
  mm_cqi : Z;
  mm_snr : float32;
  mm_dl_buffer : Z;
  mm_ul_buffer : Z;
  mm_dl_tbs : Z;
  mm_ul_tbs : Z;
  mm_dl_acked_bytes : Z;
  mm_ul_ok_bytes : Z;
  mm_dl_mcs : Z;
  mm_ul_mcs : Z;
  mm_dl_prbs : Z;
  mm_ul_prbs : Z;
  mm_dl_harq_ack : Z;
  mm_dl_harq_nack : Z;
  mm_ul_crc_ok : Z;
  mm_ul_crc_fail : Z;
  mm_avg_ce_delay_ms : float32;
  mm_avg_crc_delay_ms : float32;
  mm_avg_pucch_harq_delay_ms : float32;
  mm_avg_pusch_harq_delay_ms : float32;
  mm_avg_sr_to_pusch_delay_ms : float32;
  mm_avg_sum_mac_delay_ms : float32;
}.

(** Metrics of a UE: singular message fields are optional. *)
Record UeMetrics := mk_UeMetrics {
  um_rnti : Z;
  um_mac : option MacUeMetrics;
  um_mac_drb : list MacDrbMetrics;
  um_rlc_drb : list RlcDrbMetrics;
  um_pdcp_drb : list PdcpDrbMetrics;
  um_gtp : option GtpMetrics;
}.

(** The message of a TTI. *)
Record TtiMetrics := mk_TtiMetrics {
  tm_tti_index : Z;
  tm_timestamp_us : Z;
  tm_ues : list UeMetrics;
}.

(** ** Building the message of a TTI *)

Definition mac_ue_msg (m : mac_ue_metrics) : MacUeMetrics :=
  mk_MacUeMetrics (mu_cqi m) (mu_snr m) (mu_dl_buffer m) (mu_ul_buffer m)
    (mu_dl_tbs m) (mu_ul_tbs m) (mu_dl_acked_bytes m) (mu_ul_ok_bytes m)
    (mu_dl_mcs m) (mu_ul_mcs m) (mu_dl_prbs m) (mu_ul_prbs m)
    (mu_dl_harq_ack m) (mu_dl_harq_nack m) (mu_ul_crc_ok m) (mu_ul_crc_fail m)
    (mu_avg_ce_delay_ms m) (mu_avg_crc_delay_ms m)
    (mu_avg_pucch_harq_delay_ms m) (mu_avg_pusch_harq_delay_ms m)
    (mu_avg_sr_to_pusch_delay_ms m) (mu_avg_sum_mac_delay_ms m).

Definition mac_drb_msg (lcid : Z) (m : mac_drb_metrics) : MacDrbMetrics :=
  mk_MacDrbMetrics lcid (md_dl_buffer m) (md_ul_buffer m) (md_dl_bytes m)
    (md_ul_bytes m).

Definition rlc_drb_msg (lcid : Z) (m : rlc_drb_metrics) : RlcDrbMetrics :=
  mk_RlcDrbMetrics lcid (rd_dl_buffer m) (rd_ul_buffer m) (rd_tx_sdus m)
    (rd_tx_sdu_bytes m) (rd_tx_pdus m) (rd_tx_pdu_bytes m)
    (rd_tx_dropped_sdus m) (rd_tx_retx_pdus m) (rd_tx_sdu_latency_us m)
    (rd_rx_sdus m) (rd_rx_sdu_bytes m) (rd_rx_pdus m) (rd_rx_pdu_bytes m)
    (rd_rx_lost_pdus m) (rd_rx_sdu_latency_us m).

(** LCID = DRB_ID + 3, computed in [int]. *)
Definition pdcp_drb_msg (drb_id : Z) (m : pdcp_drb_metrics) : PdcpDrbMetrics :=
  mk_PdcpDrbMetrics drb_id (drb_id + 3) (pd_tx_pdus m) (pd_tx_pdu_bytes m)
    (pd_tx_sdus m) (pd_tx_dropped_sdus m) (pd_tx_discard_timeouts m)
    (pd_tx_pdu_latency_ns m) (pd_rx_pdus m) (pd_rx_pdu_bytes m)
    (pd_rx_delivered_sdus m) (pd_rx_dropped_pdus m) (pd_rx_sdu_latency_ns m).

Definition gtp_msg (m : gtp_ue_metrics) : GtpMetrics :=
  mk_GtpMetrics (gu_dl_pkts m) (gu_dl_bytes m) (gu_ul_pkts m) (gu_ul_bytes m).

(** The loop body of one active RNTI: the loops over the DRB maps [continue] on
    the items of other UEs, the GTP loop stops at its first match. *)
Definition build_ue (s : er_state) (rnti : Z) : UeMetrics :=
  {| um_rnti := rnti;
     um_mac := mac_ue_msg <$> (mac_ue s !! rnti);
     um_mac_drb :=
       omap (fun '(key, drb) =>
               if negb (key.1 =? rnti) then None
               else Some (mac_drb_msg key.2 drb)) (map_items (mac_drb s));
     um_rlc_drb :=
       omap (fun '(key, rlc) =>
               if negb (key.1 =? rnti) then None
               else Some (rlc_drb_msg key.2 rlc)) (map_items (rlc_drb s));
     um_pdcp_drb :=
       omap (fun '(key, pdcp) =>
               let pdcp_rnti := get_rnti_from_cu_up_ue_index key.1 s in
               if negb (pdcp_rnti =? rnti) then None
               else Some (pdcp_drb_msg key.2 pdcp)) (map_items (pdcp_drb s));
     um_gtp :=
       head (omap (fun '(cu_up_idx, gtp) =>
               let gtp_rnti := get_rnti_from_cu_up_ue_index cu_up_idx s in
               if negb (gtp_rnti =? rnti) then None
               else Some (gtp_msg gtp)) (map_items (gtp_ue s))) |}.

(** The per-TTI counters cleared after the message is sent; buffers, CQI, SNR
    and delays are kept. *)
Definition reset_mac_ue (m : mac_ue_metrics) : mac_ue_metrics :=
  m <| mu_dl_harq_ack := 0 |> <| mu_dl_harq_nack := 0 |>
    <| mu_ul_crc_ok := 0 |> <| mu_ul_crc_fail := 0 |>
    <| mu_dl_tbs := 0 |> <| mu_ul_tbs := 0 |>
    <| mu_dl_acked_bytes := 0 |> <| mu_ul_ok_bytes := 0 |>
    <| mu_dl_mcs := 0 |> <| mu_ul_mcs := 0 |>
    <| mu_dl_prbs := 0 |> <| mu_ul_prbs := 0 |>.

Definition reset_mac_drb (m : mac_drb_metrics) : mac_drb_metrics :=
  m <| md_dl_bytes := 0 |> <| md_ul_bytes := 0 |>.

(** [now] is the clock reading in microseconds. *)
Definition send_tti_metrics (now : Z) (s : er_state) : er_state * TtiMetrics :=
  let s := ensure_initialized s in
  let active_rntis := (map_items (mac_ue s)).*1 in
  let tti_msg :=
    {| tm_tti_index := tti_cnt s;
       tm_timestamp_us := u64 now;
       tm_ues := build_ue s <$> active_rntis |} in
  let s := s <| mac_ue ::= fmap reset_mac_ue |> in
  let s := s <| mac_drb ::= fmap reset_mac_drb |> in
  (s, tti_msg).

Definition send_to_er := send_tti_metrics.

(** ** Control messages (control_weights.proto, control_mcs.proto) *)

Record UeWeight := mk_UeWeight { uw_rnti : Z; uw_weight : float32 }.
Record SchedulingWeights := mk_SchedulingWeights {
  sw_ran_index : Z; sw_tti_index : Z; sw_ue_weights : list UeWeight }.
Record UeMcs := mk_UeMcs { uc_rnti : Z; uc_mcs : Z }.
Record McsControl := mk_McsControl {
  mc_ran_index : Z; mc_tti_index : Z; mc_ue_mcs : list UeMcs }.

Section control.
(** The generated [ParseFromArray] of the two messages. *)
Variable parse_weights : list Z -> option SchedulingWeights.
Variable parse_mcs : list Z -> option McsControl.

Definition store_weight (m : gmap Z float32) (w : UeWeight) : gmap Z float32 :=
  <[u16 (uw_rnti w) := uw_weight w]> m.

(** [recv] is what the non-blocking receive returned: [None] when no message
    is pending. *)
Definition get_weights_from_er (recv : option (list Z)) (s : er_state) : er_state :=
  let s := ensure_initialized s in
  match recv with
  | None => s
  | Some data =>
      match parse_weights data with
      | None => s
      | Some weights_msg =>
          s <| er_ran_index_weights := sw_ran_index weights_msg |>
            <| er_weights_tti := sw_tti_index weights_msg |>
            <| weights_recved := foldl store_weight ∅ (sw_ue_weights weights_msg) |>
      end
  end.

(** An MCS of 255 after the narrowing to 8 bits means no override. *)
Definition store_mcs (m : gmap Z Z) (c : UeMcs) : gmap Z Z :=
  let rnti := u16 (uc_rnti c) in
  let mcs_val := u8 (uc_mcs c) in
  if mcs_val <? 255 then <[rnti := mcs_val]> m else m.

Definition get_mcs_from_er (recv : option (list Z)) (s : er_state) : er_state :=
  let s := ensure_initialized s in
  match recv with
  | None => s
  | Some data =>
      match parse_mcs data with
      | None => s
      | Some mcs_msg =>
          s <| er_ran_index_mcs := mc_ran_index mcs_msg |>
            <| er_mcs_tti := mc_tti_index mcs_msg |>
            <| mcs_recved := foldl store_mcs ∅ (mc_ue_mcs mcs_msg) |>
      end
  end.
End control.

(** ** Control getters *)

Definition are_weights_fresh (s : er_state) : bool :=
  let current_tti := tti_cnt s in
  let received_tti := er_weights_tti s in
  let age := if received_tti <=? current_tti then u32 (current_tti - received_tti)
             else STALENESS_THRESHOLD + 1 in
  age <=? STALENESS_THRESHOLD.

Definition get_weights_tti (s : er_state) : Z := er_weights_tti s.

Definition get_weights (rnti : Z) (s : er_state) : option float32 :=
  if negb (are_weights_fresh s) then None else weights_recved s !! rnti.

Definition get_weights_unchecked (rnti : Z) (s : er_state) : option float32 :=
  weights_recved s !! rnti.

Definition are_mcs_fresh (s : er_state) : bool :=
  let current_tti := tti_cnt s in
  let received_tti := er_mcs_tti s in
  let age := if received_tti <=? current_tti then u32 (current_tti - received_tti)
             else STALENESS_THRESHOLD + 1 in
  age <=? STALENESS_THRESHOLD.

Definition get_mcs (rnti : Z) (s : er_state) : option Z :=
  if negb (are_mcs_fresh s) then None else mcs_recved s !! rnti.
