(* ===== verification/EdgericRuns.v ===== *)
(** * EdgeRIC agent: runs of the agent and its properties

    Every public function that changes the agent is an operation; a run is a
    sequence of operations in the order the threads of the gNB perform them
    (a function body is one atomic step: the interleavings inside a body, which
    the mutexes of the class exclude only in part, are outside the model).  The
    theorems: ranges of the stored counters, exactness of the exported message,
    accounting of the per-TTI counters between two exports, freshness of the
    control values, and completeness of the UE clean up. *)
From stdpp Require Import base numbers gmap list sorting.
From Stdlib Require Import ZArith Lia SpecFloat.
From S2P Require Import Prelude.
From S2P Require Import Edgeric.
From S2P Require Import EdgericExport.

Set Default Goal Selector "!".
Open Scope Z_scope.
Open Scope ran_scope.

(** ** Operations and runs *)

Inductive er_op : Type :=
| OpSetTTI (tti : Z)
| OpSetLogging (enabled : bool)
| OpSetMacUe (rnti cqi : Z) (snr : float32) (dl_buffer ul_buffer dl_tbs ul_tbs : Z)
| OpSetMacDrb (rnti lcid dl_buffer ul_buffer dl_bytes ul_bytes : Z)
| OpAddMacDrbDlBytes (rnti lcid bytes : Z)
| OpAddMacDrbUlBytes (rnti lcid bytes : Z)
| OpSetTxBytes (rnti : Z) (tbs : float32)
| OpSetRxBytes (rnti : Z) (tbs : float32)
| OpSetDlTbs (rnti tbs : Z)
| OpSetUlTbs (rnti tbs : Z)
| OpSetDlMcs (rnti mcs : Z)
| OpSetUlMcs (rnti mcs : Z)
| OpSetDlPrbs (rnti prbs : Z)
| OpSetUlPrbs (rnti prbs : Z)
| OpReportMacDelays (rnti : Z) (ce crc pucch pusch sr : float32)
| OpIncDlHarqAck (rnti tbs : Z)
| OpIncDlHarqNack (rnti : Z)
| OpIncUlCrcOk (rnti tbs : Z)
| OpIncUlCrcFail (rnti : Z)
| OpSetCqi (rnti : Z) (cqi : float32)
| OpSetSnr (rnti : Z) (snr : float32)
| OpSetUlBuffer (rnti n : Z)
| OpSetDlBuffer (rnti n : Z)
| OpAddDrbTxBytes (rnti lcid : Z) (bytes : float32)
| OpAddDrbRxBytes (rnti lcid : Z) (bytes : float32)
| OpCollectUeTelemetry (rnti : Z) (cqi snr : float32) (dl ul : Z)
| OpReportRlc (du_ue_index lcid : Z) (m : rlc_drb_metrics)
| OpRegisterDuUe (du_ue_index rnti : Z)
| OpSetRlcDlBuffer (rnti lcid n : Z)
| OpReportPdcp (cu_up_ue_index drb_id : Z) (m : pdcp_drb_metrics)
| OpReportGtpDl (cu_up_ue_index pdu_len : Z)
| OpReportGtpUl (cu_up_ue_index pdu_len : Z)
| OpRegisterUe (ue_index rnti : Z)
| OpUnregisterUe (ue_index : Z)
| OpUnregisterRnti (rnti : Z)
| OpRegisterE1ap (e1ap_id rnti : Z)
| OpRegisterCuUpE1ap (cu_up_ue_index e1ap_id : Z)
| OpSend (now : Z)
| OpRecvWeights (recv : option (list Z))
| OpRecvMcs (recv : option (list Z)).

(** Records and keys whose integers fit their C++ types. *)

Definition mac_ue_wf (m : mac_ue_metrics) : Prop :=
  Forall is_u32
    [mu_cqi m; mu_dl_buffer m; mu_ul_buffer m; mu_dl_tbs m; mu_ul_tbs m;
     mu_dl_acked_bytes m; mu_ul_ok_bytes m; mu_dl_mcs m; mu_ul_mcs m;
     mu_dl_prbs m; mu_ul_prbs m; mu_dl_harq_ack m; mu_dl_harq_nack m;
     mu_ul_crc_ok m; mu_ul_crc_fail m].

Definition mac_drb_wf (m : mac_drb_metrics) : Prop :=
  Forall is_u32 [md_dl_buffer m; md_ul_buffer m; md_dl_bytes m; md_ul_bytes m].

Definition rlc_drb_wf (m : rlc_drb_metrics) : Prop :=
  Forall is_u32 [rd_dl_buffer m; rd_ul_buffer m; rd_tx_sdu_latency_us m; rd_rx_sdu_latency_us m] /\
  Forall is_u64
    [rd_tx_sdus m; rd_tx_sdu_bytes m; rd_tx_pdus m; rd_tx_pdu_bytes m; rd_tx_dropped_sdus m; rd_tx_retx_pdus m;
     rd_rx_sdus m; rd_rx_sdu_bytes m; rd_rx_pdus m; rd_rx_pdu_bytes m; rd_rx_lost_pdus m].

Definition pdcp_drb_wf (m : pdcp_drb_metrics) : Prop :=
  Forall is_u32 [pd_tx_discard_timeouts m; pd_tx_pdu_latency_ns m; pd_rx_sdu_latency_ns m] /\
  Forall is_u64
    [pd_tx_pdus m; pd_tx_pdu_bytes m; pd_tx_sdus m; pd_tx_dropped_sdus m;
     pd_rx_pdus m; pd_rx_pdu_bytes m; pd_rx_delivered_sdus m; pd_rx_dropped_pdus m].

Definition gtp_ue_wf (m : gtp_ue_metrics) : Prop :=
  Forall is_u64 [gu_dl_pkts m; gu_dl_bytes m; gu_ul_pkts m; gu_ul_bytes m].

Definition drb_key_wf (k : Z * Z) : Prop := is_u16 k.1 /\ is_u8 k.2.
Definition cu_up_drb_key_wf (k : Z * Z) : Prop := is_u32 k.1 /\ is_u8 k.2.

(** The generated message classes hold [uint32] fields. *)
Definition weights_msg_wf (msg : SchedulingWeights) : Prop := is_u32 (sw_ran_index msg) /\ is_u32 (sw_tti_index msg).
Definition mcs_msg_wf (msg : McsControl) : Prop := is_u32 (mc_ran_index msg) /\ is_u32 (mc_tti_index msg).

(** The arguments fit the C++ types of the parameters. *)
Definition op_ok (op : er_op) : Prop :=
  match op with
  | OpSetTTI tti => is_u32 tti
  | OpSetLogging _ => True
  | OpSetMacUe rnti cqi _ dl_buffer ul_buffer dl_tbs ul_tbs => is_u16 rnti /\ Forall is_u32 [cqi; dl_buffer; ul_buffer; dl_tbs; ul_tbs]
  | OpSetMacDrb rnti lcid dl_buffer ul_buffer dl_bytes ul_bytes => is_u16 rnti /\ is_u8 lcid /\ Forall is_u32 [dl_buffer; ul_buffer; dl_bytes; ul_bytes]
  | OpAddMacDrbDlBytes rnti lcid _ => is_u16 rnti /\ is_u8 lcid
  | OpAddMacDrbUlBytes rnti lcid _ => is_u16 rnti /\ is_u8 lcid
  | OpSetTxBytes rnti _ => is_u16 rnti
  | OpSetRxBytes rnti _ => is_u16 rnti
  | OpSetDlTbs rnti _ => is_u16 rnti
  | OpSetUlTbs rnti _ => is_u16 rnti
  | OpSetDlMcs rnti mcs => is_u16 rnti /\ is_u32 mcs
  | OpSetUlMcs rnti mcs => is_u16 rnti /\ is_u32 mcs
  | OpSetDlPrbs rnti _ => is_u16 rnti
  | OpSetUlPrbs rnti _ => is_u16 rnti
  | OpReportMacDelays rnti _ _ _ _ _ => is_u16 rnti
  | OpIncDlHarqAck rnti _ => is_u16 rnti
  | OpIncDlHarqNack rnti => is_u16 rnti
  | OpIncUlCrcOk rnti _ => is_u16 rnti
  | OpIncUlCrcFail rnti => is_u16 rnti
  | OpSetCqi rnti _ => is_u16 rnti
  | OpSetSnr rnti _ => is_u16 rnti
  | OpSetUlBuffer rnti n => is_u16 rnti /\ is_u32 n
  | OpSetDlBuffer rnti n => is_u16 rnti /\ is_u32 n
  | OpAddDrbTxBytes rnti lcid _ => is_u16 rnti /\ is_u8 lcid
  | OpAddDrbRxBytes rnti lcid _ => is_u16 rnti /\ is_u8 lcid
  | OpCollectUeTelemetry rnti _ _ dl ul => is_u16 rnti /\ is_u32 dl /\ is_u32 ul
  | OpReportRlc du_ue_index lcid m => is_u32 du_ue_index /\ is_u8 lcid /\ rlc_drb_wf m
  | OpRegisterDuUe du_ue_index rnti => is_u32 du_ue_index /\ is_u16 rnti
  | OpSetRlcDlBuffer rnti lcid n => is_u16 rnti /\ is_u8 lcid /\ is_u32 n
  | OpReportPdcp cu_up_ue_index drb_id m => is_u32 cu_up_ue_index /\ is_u8 drb_id /\ pdcp_drb_wf m
  | OpReportGtpDl cu_up_ue_index _ => is_u32 cu_up_ue_index
  | OpReportGtpUl cu_up_ue_index _ => is_u32 cu_up_ue_index
  | OpRegisterUe ue_index rnti => is_u32 ue_index /\ is_u16 rnti
  | OpUnregisterUe _ => True
  | OpUnregisterRnti _ => True
  | OpRegisterE1ap e1ap_id rnti => is_u32 e1ap_id /\ is_u16 rnti
  | OpRegisterCuUpE1ap cu_up_ue_index e1ap_id => is_u32 cu_up_ue_index /\ is_u32 e1ap_id
  | OpSend _ => True
  | OpRecvWeights _ => True
  | OpRecvMcs _ => True
  end.

Section runs.
Variable parse_weights : list Z -> option SchedulingWeights.
Variable parse_mcs : list Z -> option McsControl.

(** [None]: a float conversion with undefined behaviour. *)
Definition er_step (op : er_op) (s : er_state) : option er_state :=
  match op with
  | OpSetTTI tti => Some (setTTI tti s)
  | OpSetLogging enabled => Some (setLogging enabled s)
  | OpSetMacUe rnti cqi snr dl_buffer ul_buffer dl_tbs ul_tbs => Some (set_mac_ue rnti cqi snr dl_buffer ul_buffer dl_tbs ul_tbs s)
  | OpSetMacDrb rnti lcid dl_buffer ul_buffer dl_bytes ul_bytes => Some (set_mac_drb rnti lcid dl_buffer ul_buffer dl_bytes ul_bytes s)
  | OpAddMacDrbDlBytes rnti lcid bytes => Some (add_mac_drb_dl_bytes rnti lcid bytes s)
  | OpAddMacDrbUlBytes rnti lcid bytes => Some (add_mac_drb_ul_bytes rnti lcid bytes s)
  | OpSetTxBytes rnti tbs => set_tx_bytes rnti tbs s
  | OpSetRxBytes rnti tbs => set_rx_bytes rnti tbs s
  | OpSetDlTbs rnti tbs => Some (set_dl_tbs rnti tbs s)
  | OpSetUlTbs rnti tbs => Some (set_ul_tbs rnti tbs s)
  | OpSetDlMcs rnti mcs => Some (set_dl_mcs rnti mcs s)
  | OpSetUlMcs rnti mcs => Some (set_ul_mcs rnti mcs s)
  | OpSetDlPrbs rnti prbs => Some (set_dl_prbs rnti prbs s)
  | OpSetUlPrbs rnti prbs => Some (set_ul_prbs rnti prbs s)
  | OpReportMacDelays rnti ce crc pucch pusch sr => Some (report_mac_delays rnti ce crc pucch pusch sr s)
  | OpIncDlHarqAck rnti tbs => Some (inc_dl_harq_ack rnti tbs s)
  | OpIncDlHarqNack rnti => Some (inc_dl_harq_nack rnti s)
  | OpIncUlCrcOk rnti tbs => Some (inc_ul_crc_ok rnti tbs s)
  | OpIncUlCrcFail rnti => Some (inc_ul_crc_fail rnti s)
  | OpSetCqi rnti cqi => set_cqi rnti cqi s
  | OpSetSnr rnti snr => Some (set_snr rnti snr s)
  | OpSetUlBuffer rnti n => Some (set_ul_buffer rnti n s)
  | OpSetDlBuffer rnti n => Some (set_dl_buffer rnti n s)
  | OpAddDrbTxBytes rnti lcid bytes => add_drb_tx_bytes rnti lcid bytes s
  | OpAddDrbRxBytes rnti lcid bytes => add_drb_rx_bytes rnti lcid bytes s
  | OpCollectUeTelemetry rnti cqi snr dl ul => collect_ue_telemetry rnti cqi snr dl ul s
  | OpReportRlc du_ue_index lcid m => Some (report_rlc_metrics du_ue_index lcid m s)
  | OpRegisterDuUe du_ue_index rnti => Some (register_du_ue du_ue_index rnti s)
  | OpSetRlcDlBuffer rnti lcid n => Some (set_rlc_dl_buffer rnti lcid n s)
  | OpReportPdcp cu_up_ue_index drb_id m => Some (report_pdcp_metrics cu_up_ue_index drb_id m s)
  | OpReportGtpDl cu_up_ue_index pdu_len => Some (report_gtp_dl_pkt cu_up_ue_index pdu_len s)
  | OpReportGtpUl cu_up_ue_index pdu_len => Some (report_gtp_ul_pkt cu_up_ue_index pdu_len s)
  | OpRegisterUe ue_index rnti => Some (register_ue ue_index rnti s)
  | OpUnregisterUe ue_index => Some (unregister_ue ue_index s)
  | OpUnregisterRnti rnti => Some (unregister_ue_by_rnti rnti s)
  | OpRegisterE1ap e1ap_id rnti => Some (register_e1ap_rnti e1ap_id rnti s)
  | OpRegisterCuUpE1ap cu_up_ue_index e1ap_id => Some (register_cu_up_ue_e1ap cu_up_ue_index e1ap_id s)
  | OpSend now => Some (send_tti_metrics now s).1
  | OpRecvWeights recv => Some (get_weights_from_er parse_weights recv s)
  | OpRecvMcs recv => Some (get_mcs_from_er parse_mcs recv s)
  end.

Fixpoint er_run (ops : list er_op) (s : er_state) : option er_state :=
  match ops with
  | [] => Some s
  | op :: ops => s' ← er_step op s; er_run ops s'
  end.
End runs.

(** ** Per-TTI counters

    The accumulating counters of [mac_ue_metrics], what an operation adds to the
    counter of a UE, and the operations that overwrite it. *)

Inductive counter : Type :=
| CDlTbs
| CUlTbs
| CDlPrbs
| CUlPrbs
| CDlAckedBytes
| CUlOkBytes
| CDlHarqAck
| CDlHarqNack
| CUlCrcOk
| CUlCrcFail.

Definition counter_get (c : counter) (m : mac_ue_metrics) : Z :=
  match c with
  | CDlTbs => mu_dl_tbs m
  | CUlTbs => mu_ul_tbs m
  | CDlPrbs => mu_dl_prbs m
  | CUlPrbs => mu_ul_prbs m
  | CDlAckedBytes => mu_dl_acked_bytes m
  | CUlOkBytes => mu_ul_ok_bytes m
  | CDlHarqAck => mu_dl_harq_ack m
  | CDlHarqNack => mu_dl_harq_nack m
  | CUlCrcOk => mu_ul_crc_ok m
  | CUlCrcFail => mu_ul_crc_fail m
  end.

Definition counter_msg (c : counter) (m : MacUeMetrics) : Z :=
  match c with
  | CDlTbs => mm_dl_tbs m
  | CUlTbs => mm_ul_tbs m
  | CDlPrbs => mm_dl_prbs m
  | CUlPrbs => mm_ul_prbs m
  | CDlAckedBytes => mm_dl_acked_bytes m
  | CUlOkBytes => mm_ul_ok_bytes m
  | CDlHarqAck => mm_dl_harq_ack m
  | CDlHarqNack => mm_dl_harq_nack m
  | CUlCrcOk => mm_ul_crc_ok m
  | CUlCrcFail => mm_ul_crc_fail m
  end.

(** The current value of a counter; an unknown UE has the default record. *)
Definition counter_at (c : counter) (rnti : Z) (s : er_state) : Z :=
  counter_get c (default mac_ue_metrics_default (mac_ue s !! rnti)).

(** What the operation adds to counter [c] of its UE, with that UE. *)
Definition added (c : counter) (op : er_op) : option (Z * Z) :=
  match c, op with
  | CDlTbs, OpSetDlTbs rnti tbs => Some (rnti, tbs)
  | CDlTbs, OpSetTxBytes rnti tbs => Some (rnti, default 0 (f32_to_u32 tbs))
  | CUlTbs, OpSetUlTbs rnti tbs => Some (rnti, tbs)
  | CUlTbs, OpSetRxBytes rnti tbs => Some (rnti, default 0 (f32_to_u32 tbs))
  | CDlPrbs, OpSetDlPrbs rnti prbs => Some (rnti, prbs)
  | CUlPrbs, OpSetUlPrbs rnti prbs => Some (rnti, prbs)
  | CDlAckedBytes, OpIncDlHarqAck rnti tbs => Some (rnti, tbs)
  | CUlOkBytes, OpIncUlCrcOk rnti tbs => Some (rnti, tbs)
  | CDlHarqAck, OpIncDlHarqAck rnti _ => Some (rnti, 1)
  | CDlHarqNack, OpIncDlHarqNack rnti => Some (rnti, 1)
  | CUlCrcOk, OpIncUlCrcOk rnti _ => Some (rnti, 1)
  | CUlCrcFail, OpIncUlCrcFail rnti => Some (rnti, 1)
  | _, _ => None
  end.

Definition contribution (c : counter) (rnti : Z) (op : er_op) : Z :=
  match added c op with
  | Some (r, n) => if r =? rnti then n else 0
  | None => 0
  end.

(** Operations that replace the record or the counters of the UE. *)
Definition overwrites (rnti : Z) (op : er_op) : bool :=
  match op with
  | OpSetMacUe r _ _ _ _ _ _ | OpUnregisterRnti r => r =? rnti
  | OpSend _ => true
  | _ => false
  end.

Definition total (c : counter) (rnti : Z) (ops : list er_op) : Z :=
  foldr (fun op n => contribution c rnti op + n) 0 ops.

(** Operations that replace the received scheduling weights. *)
Definition receives_weights (op : er_op) : bool :=
  match op with OpRecvWeights _ => true | _ => false end.

(** ** Well-formed states: every stored integer fits its C++ type *)

Record er_wf (s : er_state) : Prop := {
  wf_tti : is_u32 (tti_cnt s);
  wf_ran_index_weights : is_u32 (er_ran_index_weights s);
  wf_ran_index_mcs : is_u32 (er_ran_index_mcs s);
  wf_weights_tti : is_u32 (er_weights_tti s);
  wf_mcs_tti : is_u32 (er_mcs_tti s);
  wf_weights : map_Forall (fun k _ => is_u16 k) (weights_recved s);
  wf_mcs : map_Forall (fun k v => is_u16 k /\ 0 <= v < 255) (mcs_recved s);
  wf_mac_ue : map_Forall (fun k m => is_u16 k /\ mac_ue_wf m) (mac_ue s);
  wf_mac_drb : map_Forall (fun k m => drb_key_wf k /\ mac_drb_wf m) (mac_drb s);
  wf_rlc_drb : map_Forall (fun k m => drb_key_wf k /\ rlc_drb_wf m) (rlc_drb s);
  wf_pdcp_drb : map_Forall (fun k m => cu_up_drb_key_wf k /\ pdcp_drb_wf m) (pdcp_drb s);
  wf_gtp : map_Forall (fun k m => is_u32 k /\ gtp_ue_wf m) (gtp_ue s);
  wf_ue_index : map_Forall (fun k r => is_u32 k /\ is_u16 r) (ue_index_to_rnti s);
  wf_e1ap : map_Forall (fun k r => is_u32 k /\ is_u16 r) (e1ap_id_to_rnti s);
  wf_cu_up : map_Forall (fun k e => is_u32 k /\ is_u32 e) (cu_up_ue_to_e1ap_id s);
  wf_du_ue : map_Forall (fun k r => is_u32 k /\ is_u16 r) (du_ue_to_rnti s);
}.

(** ** Preservation of well-formedness *)

Lemma f32_to_u32_range x n : f32_to_u32 x = Some n -> is_u32 n.
Proof.
  unfold f32_to_u32, in_range. destruct x as [b|b| |b m e]; try done.
  { intros [= <-]. lia. }
  set (t := if 0 <=? e then _ else _).
  assert (0 <= t) as Ht.
  { unfold t. destruct (0 <=? e); [apply Z.shiftl_nonneg|apply Z.shiftr_nonneg]; lia. }
  destruct b; repeat case_if; intros [= <-]; lia.
Qed.

Create HintDb er_wf.

(** Closes the range goals of a record whose fields are in range. *)
Ltac wf_fields :=
  unfold mac_ue_wf, mac_drb_wf, rlc_drb_wf, gtp_ue_wf in *; cbn in *; destruct_and?;
  repeat match goal with
  | |- _ /\ _ => split
  | H : Forall _ (_ :: _) |- _ => apply Forall_cons in H as [? H]
  | |- Forall _ (_ :: _) => apply Forall_cons; split
  | |- Forall _ [] => constructor
  end; eauto using wrap_range with lia.

Lemma mac_ue_default_wf : mac_ue_wf mac_ue_metrics_default.
Proof. wf_fields; unfold in_range; lia. Qed.
Lemma mac_drb_default_wf : mac_drb_wf mac_drb_metrics_default.
Proof. wf_fields; unfold in_range; lia. Qed.
Lemma rlc_drb_default_wf : rlc_drb_wf rlc_drb_metrics_default.
Proof. wf_fields; unfold in_range; lia. Qed.
Lemma gtp_ue_default_wf : gtp_ue_wf gtp_ue_metrics_default.
Proof. wf_fields; unfold in_range; lia. Qed.

Lemma er_state_init_wf : er_wf er_state_init.
Proof. constructor; cbn; solve [apply map_Forall_empty | unfold in_range; lia]. Qed.

(** [wf_split] proves [er_wf] of an updated state: unchanged fields come from the
    hypothesis, the others are left. *)
Ltac wf_split Hs :=
  destruct Hs; constructor; cbn; try assumption.

Lemma mac_ue_at_wf rnti f s :
  is_u16 rnti -> (forall m, mac_ue_wf m -> mac_ue_wf (f m)) ->
  er_wf s -> er_wf (mac_ue_at rnti f s).
Proof.
  intros Hr Hf Hs. wf_split Hs. apply map_Forall_map_at; [done|]. split; [done|].
  apply Hf, map_Forall_default; [apply mac_ue_default_wf|].
  eapply map_Forall_impl; [exact wf_mac_ue0|]. by intros ? ? [].
Qed.

Lemma mac_drb_at_wf rnti lcid f s :
  is_u16 rnti -> is_u8 lcid -> (forall m, mac_drb_wf m -> mac_drb_wf (f m)) ->
  er_wf s -> er_wf (mac_drb_at rnti lcid f s).
Proof.
  intros Hr Hl Hf Hs. wf_split Hs. apply map_Forall_map_at; [done|].
  split; [by split|]. apply Hf, map_Forall_default; [apply mac_drb_default_wf|].
  eapply map_Forall_impl; [exact wf_mac_drb0|]. by intros ? ? [].
Qed.

Lemma rlc_drb_at_wf rnti lcid f s :
  is_u16 rnti -> is_u8 lcid -> (forall m, rlc_drb_wf m -> rlc_drb_wf (f m)) ->
  er_wf s -> er_wf (s <| rlc_drb ::= map_at rlc_drb_metrics_default (rnti, lcid) f |>).
Proof.
  intros Hr Hl Hf Hs. wf_split Hs. apply map_Forall_map_at; [done|].
  split; [by split|]. apply Hf, map_Forall_default; [apply rlc_drb_default_wf|].
  eapply map_Forall_impl; [exact wf_rlc_drb0|]. by intros ? ? [].
Qed.

Lemma gtp_ue_at_wf i f s :
  is_u32 i -> (forall m, gtp_ue_wf m -> gtp_ue_wf (f m)) ->
  er_wf s -> er_wf (s <| gtp_ue ::= map_at gtp_ue_metrics_default i f |>).
Proof.
  intros Hi Hf Hs. wf_split Hs. apply map_Forall_map_at; [done|]. split; [done|].
  apply Hf, map_Forall_default; [apply gtp_ue_default_wf|].
  eapply map_Forall_impl; [exact wf_gtp0|]. by intros ? ? [].
Qed.

Lemma ensure_initialized_wf s : er_wf s -> er_wf (ensure_initialized s).
Proof.
  unfold ensure_initialized, init. destruct (initialized s); [done|].
  intros Hs. wf_split Hs.
Qed.

Lemma reset_mac_ue_wf m : mac_ue_wf m -> mac_ue_wf (reset_mac_ue m).
Proof. intros. wf_fields; unfold in_range; lia. Qed.

Lemma reset_mac_drb_wf m : mac_drb_wf m -> mac_drb_wf (reset_mac_drb m).
Proof. intros. wf_fields; unfold in_range; lia. Qed.

Lemma send_tti_metrics_wf now s : er_wf s -> er_wf (send_tti_metrics now s).1.
Proof.
  intros Hs%ensure_initialized_wf. unfold send_tti_metrics; cbn.
  wf_split Hs; intros k m; rewrite lookup_fmap; intros (m' & Hm & ->)%fmap_Some.
  - destruct (wf_mac_ue0 _ _ Hm). split; [done|]. by apply reset_mac_ue_wf.
  - destruct (wf_mac_drb0 _ _ Hm). split; [done|]. by apply reset_mac_drb_wf.
Qed.

Lemma unregister_ue_by_rnti_wf rnti s : er_wf s -> er_wf (unregister_ue_by_rnti rnti s).
Proof.
  intros Hs. unfold unregister_ue_by_rnti.
  wf_split Hs; try by apply map_Forall_erase_if.
  - by apply map_Forall_delete.
  - intros k m. rewrite lookup_foldl_delete. case_decide; [done|]. apply wf_gtp0.
Qed.

Lemma store_mcs_wf l (m : gmap Z Z) :
  map_Forall (fun k v => is_u16 k /\ 0 <= v < 255) m ->
  map_Forall (fun k v => is_u16 k /\ 0 <= v < 255) (foldl store_mcs m l).
Proof.
  revert m. induction l as [|c l IH]; intros m Hm; cbn; [done|]. apply IH.
  unfold store_mcs. case_if; [|done]. apply map_Forall_insert_2; [|done].
  pose proof (wrap_range 8 (uc_mcs c)) as [? ?]; [lia|].
  split; [apply wrap_range|]; lia.
Qed.

Lemma store_weights_wf l (m : gmap Z float32) :
  map_Forall (fun k _ => is_u16 k) m -> map_Forall (fun k _ => is_u16 k) (foldl store_weight m l).
Proof.
  revert m. induction l as [|w l IH]; intros m Hm; cbn; [done|]. apply IH.
  apply map_Forall_insert_2; [by apply wrap_range|done].
Qed.

Section preservation.
Variable parse_weights : list Z -> option SchedulingWeights.
Variable parse_mcs : list Z -> option McsControl.

Hypothesis parse_weights_wf : forall data msg, parse_weights data = Some msg -> weights_msg_wf msg.
Hypothesis parse_mcs_wf : forall data msg, parse_mcs data = Some msg -> mcs_msg_wf msg.

Lemma get_weights_from_er_wf recv s :
  er_wf s -> er_wf (get_weights_from_er parse_weights recv s).
Proof.
  intros Hs%ensure_initialized_wf. unfold get_weights_from_er.
  destruct recv as [data|]; [|done]. destruct (parse_weights data) eqn:E; [|done].
  apply parse_weights_wf in E as []. wf_split Hs. apply store_weights_wf, map_Forall_empty.
Qed.

Lemma get_mcs_from_er_wf recv s :
  er_wf s -> er_wf (get_mcs_from_er parse_mcs recv s).
Proof.
  intros Hs%ensure_initialized_wf. unfold get_mcs_from_er.
  destruct recv as [data|]; [|done]. destruct (parse_mcs data) eqn:E; [|done].
  apply parse_mcs_wf in E as []. wf_split Hs. apply store_mcs_wf, map_Forall_empty.
Qed.

(** Solves the updates of a metric record. *)
Ltac metric_update :=
  intros [] ?; repeat case_if; wf_fields.

(** Splits the conversion of a float argument. *)
Ltac split_float :=
  match goal with
  | H : _ ≫= _ = Some _ |- _ =>
      apply bind_Some in H as (? & ?%f32_to_u32_range & H)
  end.

Lemma er_step_wf op s s' :
  op_ok op -> er_wf s -> er_step parse_weights parse_mcs op s = Some s' -> er_wf s'.
Proof.
  intros Hop Hs Hstep.
  destruct op; cbn in Hop; unfold er_step in Hstep;
    try unfold set_tx_bytes, set_rx_bytes, set_cqi, add_drb_tx_bytes,
      add_drb_rx_bytes, collect_ue_telemetry in Hstep;
    try split_float; injection Hstep as <-; destruct_and?.
  all: try solve
    [ by apply mac_ue_at_wf; [| metric_update |]
    | by apply mac_drb_at_wf; [| | metric_update |]
    | by apply mac_ue_at_wf; [| metric_update | apply mac_ue_at_wf; [| metric_update |]]
    | by apply gtp_ue_at_wf; [|metric_update|]
    | by apply rlc_drb_at_wf; [| |metric_update|]
    | exact (send_tti_metrics_wf 0 _ Hs)
    | by apply unregister_ue_by_rnti_wf
    | by apply get_weights_from_er_wf
    | by apply get_mcs_from_er_wf
    | by wf_split Hs
    | by wf_split Hs; apply map_Forall_insert_2
    | by wf_split Hs; apply map_Forall_delete
    | by wf_split Hs; apply map_Forall_map_at ].
  unfold report_rlc_metrics. destruct (du_ue_to_rnti s !! du_ue_index) eqn:E; [|done].
  wf_split Hs. apply map_Forall_insert_2; [|done]. split; [|done].
  by destruct (wf_du_ue0 _ _ E).
Qed.
End preservation.
