(* ===== verification/EdgericProps.v ===== *)
(** * EdgeRIC agent: properties

    Theorems about the agent modelled in [Edgeric], [EdgericExport] and
    [EdgericRuns]: the exported message, the accounting of per-TTI counters, the
    life time of control values, UE clean up and identity correlation. *)
From stdpp Require Import base numbers gmap list sorting.
From Stdlib Require Import ZArith Lia SpecFloat.
From S2P Require Import Prelude.
From S2P Require Import Edgeric.
From S2P Require Import EdgericExport.
From S2P Require Import EdgericRuns.

Set Default Goal Selector "!".
Open Scope Z_scope.
Open Scope ran_scope.

(** ** The exported message *)

Lemma ensure_initialized_mac_ue s : mac_ue (ensure_initialized s) = mac_ue s.
Proof. unfold ensure_initialized, init. by destruct (initialized s). Qed.

Lemma build_ue_ensure_initialized s rnti :
  build_ue (ensure_initialized s) rnti = build_ue s rnti.
Proof.
  unfold ensure_initialized, init. destruct (initialized s) eqn:E; [done|].
  unfold build_ue; cbn. done.
Qed.

Lemma send_tti_ues now s :
  tm_ues (send_tti_metrics now s).2 = build_ue s <$> (map_items (mac_ue s)).*1.
Proof.
  unfold send_tti_metrics; cbn. rewrite ensure_initialized_mac_ue.
  apply list_fmap_ext. intros ? ? _. apply build_ue_ensure_initialized.
Qed.

Lemma elem_of_send_tti_ues now s ue :
  ue ∈ tm_ues (send_tti_metrics now s).2 <->
  is_Some (mac_ue s !! um_rnti ue) /\ ue = build_ue s (um_rnti ue).
Proof.
  rewrite send_tti_ues, list_elem_of_fmap. split.
  - intros (rnti & -> & Hk%elem_of_map_keys). by split.
  - intros [Hk ->]. exists (um_rnti ue). split; [done|]. by apply elem_of_map_keys.
Qed.

(** The filtered conversion of a [std::map] that the DRB loops perform. *)
Lemma elem_of_omap_items `{Countable K} `{!OrderedKey K} {V A}
    (m : gmap K V) (p : K -> bool) (g : K -> V -> A) (a : A) :
  a ∈ omap (fun '(k, v) => if negb (p k) then None else Some (g k v)) (map_items m) <->
  exists k v, m !! k = Some v /\ p k = true /\ a = g k v.
Proof.
  rewrite list_elem_of_omap. split.
  - intros ([k v] & Hin & Ha). apply elem_of_map_items in Hin.
    destruct (p k) eqn:Hp; [|done]. injection Ha as <-. eauto.
  - intros (k & v & Hk & Hp & ->). exists (k, v). rewrite elem_of_map_items, Hp. done.
Qed.

Lemma list_lookup_key_drb (r : Z) (k : Z * Z) : (k.1 =? r) = true <-> k = (r, k.2).
Proof. rewrite Z.eqb_eq. destruct k; cbn. naive_solver. Qed.

Lemma drb_key_split {V A : Type} (m : gmap (Z * Z) V) (g : Z -> V -> A) (r : Z) (d : A) :
  (exists k v, m !! k = Some v /\ (k.1 =? r) = true /\ d = g k.2 v) <->
  (exists l v, m !! (r, l) = Some v /\ d = g l v).
Proof.
  split.
  - intros ([k1 l] & v & Hk & Hr%Z.eqb_eq & ->). cbn in Hr; subst. by exists l, v.
  - intros (l & v & Hl & ->). exists (r, l), v. split; [exact Hl|]. cbn. by rewrite Z.eqb_refl.
Qed.

(** The message of a TTI carries the raw TTI counter and one entry per UE
    known to the MAC, in strictly increasing RNTI order: no UE is missing,
    invented or repeated. *)
Theorem send_tti_metrics_ues now s :
  let msg := (send_tti_metrics now s).2 in
  tm_tti_index msg = tti_cnt s /\
  StronglySorted Z.lt (um_rnti <$> tm_ues msg) /\
  (forall rnti, rnti ∈ um_rnti <$> tm_ues msg <-> is_Some (mac_ue s !! rnti)).
Proof.
  intros msg. split.
  { unfold msg, send_tti_metrics, ensure_initialized, init; cbn. by case_match. }
  assert (um_rnti <$> tm_ues msg = (map_items (mac_ue s)).*1) as ->.
  { unfold msg. rewrite send_tti_ues, <- list_fmap_compose.
    rewrite <- (list_fmap_id (map_items (mac_ue s)).*1) at 2. done. }
  split; [apply map_keys_strict|]. intros rnti. apply elem_of_map_keys.
Qed.

(** Every DRB entry of a UE in the message comes from the stored metrics of
    that UE and every stored DRB metric of the UE is exported: MAC and RLC by the
    RNTI of the key, PDCP by the RNTI its CU-UP index resolves to, with
    LCID = DRB id + 3. *)
Theorem send_tti_metrics_drbs now s ue :
  ue ∈ tm_ues (send_tti_metrics now s).2 ->
  (forall d, d ∈ um_mac_drb ue <-> exists lcid m,
     mac_drb s !! (um_rnti ue, lcid) = Some m /\ d = mac_drb_msg lcid m) /\
  (forall d, d ∈ um_rlc_drb ue <-> exists lcid m,
     rlc_drb s !! (um_rnti ue, lcid) = Some m /\ d = rlc_drb_msg lcid m) /\
  (forall d, d ∈ um_pdcp_drb ue <-> exists idx drb_id m,
     pdcp_drb s !! (idx, drb_id) = Some m /\
     get_rnti_from_cu_up_ue_index idx s = um_rnti ue /\
     d = pdcp_drb_msg drb_id m).
Proof.
  intros [_ ->]%elem_of_send_tti_ues. cbn.
  split; [|split]; intros d;
    rewrite (elem_of_omap_items _ _ (fun k v => _ (snd k) v)).
  - apply drb_key_split.
  - apply drb_key_split.
  - setoid_rewrite Z.eqb_eq. split.
    + intros ([idx drb] & m & ? & ? & ->). eauto 6.
    + intros (idx & drb & m & ? & ? & ->). by exists (idx, drb), m.
Qed.

(** ** Accounting of the per-TTI counters *)

Lemma counter_at_mac_ue_at c rnti rnti' f s :
  counter_at c rnti' (mac_ue_at rnti f s) =
  if decide (rnti = rnti')
  then counter_get c (f (default mac_ue_metrics_default (mac_ue s !! rnti')))
  else counter_at c rnti' s.
Proof.
  unfold counter_at, mac_ue_at; cbn. rewrite default_map_at. by case_decide.
Qed.

Lemma counter_at_eq c rnti s s' :
  mac_ue s' = mac_ue s -> counter_at c rnti s' = counter_at c rnti s.
Proof. unfold counter_at. by intros ->. Qed.

Ltac split_float :=
  match goal with
  | H : _ ≫= _ = Some _ |- _ =>
      let n := fresh "n" in apply bind_Some in H as (n & ? & H)
  end.

Lemma counter_step_at c rnti r f s n :
  (forall m, u32 (counter_get c (f m)) = u32 (counter_get c m + n)) ->
  u32 (counter_at c rnti (mac_ue_at r f s)) =
  u32 (counter_at c rnti s + (if r =? rnti then n else 0)).
Proof.
  intros Hf. rewrite counter_at_mac_ue_at. case_decide as Hd.
  - subst r. rewrite Z.eqb_refl. apply Hf.
  - rewrite (proj2 (Z.eqb_neq _ _) Hd). by rewrite Z.add_0_r.
Qed.

Lemma counter_step_keep c rnti r f s :
  (forall m, u32 (counter_get c (f m)) = u32 (counter_get c m)) ->
  u32 (counter_at c rnti (mac_ue_at r f s)) = u32 (counter_at c rnti s + 0).
Proof.
  intros Hf. rewrite (counter_step_at _ _ _ _ _ 0); [by case_match|].
  intros m. by rewrite Z.add_0_r.
Qed.

(** Operations that leave the MAC records of the UE alone. *)
Lemma counter_step_frame c rnti op s s' :
  added c op = None -> mac_ue s' !! rnti = mac_ue s !! rnti ->
  u32 (counter_at c rnti s') = u32 (counter_at c rnti s + contribution c rnti op).
Proof.
  intros Ha Hm. unfold contribution, counter_at. by rewrite Ha, Hm, Z.add_0_r.
Qed.

Lemma mac_ue_at_twice r f g s :
  mac_ue (mac_ue_at r g (mac_ue_at r f s)) = mac_ue (mac_ue_at r (fun m => g (f m)) s).
Proof. cbn. unfold map_at. by rewrite lookup_insert_eq, insert_insert_eq. Qed.

Section accounting.
Variable parse_weights : list Z -> option SchedulingWeights.
Variable parse_mcs : list Z -> option McsControl.

Lemma receive_mac_ue recv s :
  mac_ue (get_weights_from_er parse_weights recv s) = mac_ue s /\
  mac_ue (get_mcs_from_er parse_mcs recv s) = mac_ue s.
Proof.
  unfold get_weights_from_er, get_mcs_from_er, ensure_initialized, init.
  destruct (initialized s), recv; cbn; split; try case_match; done.
Qed.

(** Solves the effect of a record update on a counter. *)
Ltac counter_update :=
  intros ?; cbn; rewrite ?wrap_wrap, ?Z.add_0_r by lia; repeat case_if; done.

Lemma er_step_counter c rnti op s s' :
  overwrites rnti op = false ->
  er_step parse_weights parse_mcs op s = Some s' ->
  u32 (counter_at c rnti s') = u32 (counter_at c rnti s + contribution c rnti op).
Proof.
  intros Hov Hstep.
  destruct op; cbn in Hov; try discriminate Hov; unfold er_step in Hstep;
    try unfold set_tx_bytes, set_rx_bytes, set_cqi, add_drb_tx_bytes,
      add_drb_rx_bytes, collect_ue_telemetry in Hstep;
    try split_float; injection Hstep as <-; zbool.
  all: try (apply counter_step_frame; [by destruct c|];
    solve [ reflexivity | by apply lookup_map_at_ne | by apply lookup_delete_ne
          | apply (f_equal (lookup rnti)), receive_mac_ue
          | unfold report_rlc_metrics; by case_match ]).
  all: try unfold inc_dl_harq_ack, inc_ul_crc_ok; cbv zeta.
  all: try rewrite (counter_at_eq _ _ _ _ (mac_ue_at_twice _ _ _ _)).
  all: destruct c; unfold contribution; cbn [added].
  all: try match goal with H : f32_to_u32 _ = _ |- _ => rewrite H end.
  all: first [ apply counter_step_at; counter_update
             | apply counter_step_keep; counter_update ].
Qed.

Lemma er_run_counter c rnti ops s s' :
  Forall (fun op => overwrites rnti op = false) ops ->
  er_run parse_weights parse_mcs ops s = Some s' ->
  u32 (counter_at c rnti s') = u32 (counter_at c rnti s + total c rnti ops).
Proof.
  revert s. induction ops as [|op ops IH]; intros s Hov Hrun; cbn in *.
  { injection Hrun as <-. by rewrite Z.add_0_r. }
  apply Forall_cons in Hov as [Hop Hov].
  apply bind_Some in Hrun as (s1 & Hstep & Hrun).
  rewrite (IH _ Hov Hrun), <- (wrap_add_l 32) by lia.
  rewrite (er_step_counter _ _ _ _ _ Hop Hstep), (wrap_add_l 32) by lia.
  f_equal. unfold total. cbn. lia.
Qed.
End accounting.

Lemma reset_counter c m : counter_get c (reset_mac_ue m) = 0.
Proof. by destruct c. Qed.

Lemma counter_msg_build c s rnti m :
  mac_ue s !! rnti = Some m ->
  counter_msg c <$> um_mac (build_ue s rnti) = Some (counter_at c rnti s).
Proof. intros Hm. cbn. unfold counter_at. rewrite Hm. by destruct c. Qed.

Lemma send_mac_ue now s rnti :
  mac_ue (send_tti_metrics now s).1 !! rnti = reset_mac_ue <$> mac_ue s !! rnti.
Proof. cbn. by rewrite lookup_fmap, ensure_initialized_mac_ue. Qed.

Lemma send_counter c rnti now s : counter_at c rnti (send_tti_metrics now s).1 = 0.
Proof.
  unfold counter_at. rewrite send_mac_ue.
  destruct (mac_ue s !! rnti); cbn; [apply reset_counter|by destruct c].
Qed.

Lemma counter_range c rnti s : er_wf s -> is_u32 (counter_at c rnti s).
Proof.
  intros Hs.
  assert (mac_ue_wf (default mac_ue_metrics_default (mac_ue s !! rnti))) as Hm.
  { destruct (mac_ue s !! rnti) eqn:E; cbn; [|apply mac_ue_default_wf].
    by destruct (wf_mac_ue _ Hs _ _ E). }
  unfold mac_ue_wf in Hm. repeat (apply Forall_cons in Hm as [? Hm]). by destruct c.
Qed.

(** C32. Accounting between two exports: whatever operations of all layers run
    between two TTI messages, in any order, the second message reports for every
    per-TTI counter of a UE exactly the sum modulo 2^32 of the contributions made
    to that UE since the first message, provided nothing overwrote its record. *)
Theorem tti_counter_accounting parse_weights parse_mcs c rnti ops t0 t1 s0 s :
  er_wf s ->
  Forall (fun op => overwrites rnti op = false) ops ->
  er_run parse_weights parse_mcs ops (send_tti_metrics t0 s0).1 = Some s ->
  forall ue, ue ∈ tm_ues (send_tti_metrics t1 s).2 -> um_rnti ue = rnti ->
  counter_msg c <$> um_mac ue = Some (u32 (total c rnti ops)).
Proof.
  intros Hs Hov Hrun ue [[m Hm] ->]%elem_of_send_tti_ues Hr. cbn in Hr, Hm.
  rewrite Hr in *. rewrite (counter_msg_build _ _ _ _ Hm). f_equal.
  apply (er_run_counter _ _ c rnti) in Hrun; [|done].
  rewrite send_counter in Hrun. by rewrite wrap_small in Hrun by by apply counter_range.
Qed.

(** The reset of the sender, field by field. *)
Lemma send_tti_metrics_reset now s rnti m :
  mac_ue s !! rnti = Some m ->
  mac_ue (send_tti_metrics now s).1 !! rnti = Some (reset_mac_ue m) /\
  (forall c, counter_get c (reset_mac_ue m) = 0) /\
  mu_cqi (reset_mac_ue m) = mu_cqi m /\ mu_snr (reset_mac_ue m) = mu_snr m.
Proof.
  intros Hm. rewrite send_mac_ue, Hm. cbn. split; [done|].
  split; [by intros []|done].
Qed.

(** ** Reachable states *)

Lemma er_wf_run parse_weights parse_mcs
    (Hw : forall data msg, parse_weights data = Some msg -> weights_msg_wf msg)
    (Hm : forall data msg, parse_mcs data = Some msg -> mcs_msg_wf msg)
    ops s0 s :
  er_wf s0 -> Forall op_ok ops -> er_run parse_weights parse_mcs ops s0 = Some s -> er_wf s.
Proof.
  intros H0 Hops. revert s0 H0.
  induction Hops as [|op ops Hop Hops IH]; intros s0 H0 Hrun; cbn in Hrun.
  { by injection Hrun as <-. }
  apply bind_Some in Hrun as (s1 & Hstep & Hrun).
  apply (IH s1); [|done]. by eapply er_step_wf.
Qed.

(** C21. Every integer the agent stores fits its C++ type in every reachable state: the TTI
    counter, the RAN indices and TTIs of the last control messages, and the keys and all
    integer fields of every one of its maps, metrics and identities alike, when the
    arguments of its functions and the fields of the parsed messages fit theirs; and every
    MCS override it stores is below 255. *)
Theorem er_run_wf parse_weights parse_mcs
    (Hw : forall data msg, parse_weights data = Some msg -> weights_msg_wf msg)
    (Hm : forall data msg, parse_mcs data = Some msg -> mcs_msg_wf msg)
    ops s :
  Forall op_ok ops -> er_run parse_weights parse_mcs ops er_state_init = Some s ->
  er_wf s.
Proof.
  intros Hops. apply (er_wf_run parse_weights parse_mcs Hw Hm ops er_state_init); [|done].
  apply er_state_init_wf.
Qed.

(** ** Control values *)

Lemma fresh_iff t r (d : bool) :
  is_u32 t -> is_u32 r ->
  d = ((if r <=? t then u32 (t - r) else STALENESS_THRESHOLD + 1) <=? STALENESS_THRESHOLD) ->
  d = true <-> r <= t <= r + STALENESS_THRESHOLD.
Proof.
  unfold STALENESS_THRESHOLD, in_range. intros Ht Hr ->. rewrite Z.leb_le. case_if.
  - rewrite wrap_small; [lia|unfold in_range; lia].
  - lia.
Qed.

Lemma are_weights_fresh_iff s :
  er_wf s -> are_weights_fresh s = true <->
  er_weights_tti s <= tti_cnt s <= er_weights_tti s + STALENESS_THRESHOLD.
Proof. intros []. by apply fresh_iff. Qed.

Lemma are_mcs_fresh_iff s :
  er_wf s -> are_mcs_fresh s = true <->
  er_mcs_tti s <= tti_cnt s <= er_mcs_tti s + STALENESS_THRESHOLD.
Proof. intros []. by apply fresh_iff. Qed.

(** The weight of the last entry of a message that names the UE. *)
Definition last_weight (rnti : Z) (ws : list UeWeight) : option float32 :=
  foldl (fun acc w => if u16 (uw_rnti w) =? rnti then Some (uw_weight w) else acc) None ws.

Lemma lookup_store_weights rnti ws (m : gmap Z float32) :
  foldl store_weight m ws !! rnti =
  foldl (fun acc w => if u16 (uw_rnti w) =? rnti then Some (uw_weight w) else acc)
        (m !! rnti) ws.
Proof.
  revert m. induction ws as [|w ws IH]; intros m; cbn; [done|]. rewrite IH.
  f_equal. unfold store_weight. case_if.
  - subst. by rewrite lookup_insert_eq.
  - by rewrite lookup_insert_ne.
Qed.

Lemma er_step_keeps_weights parse_weights parse_mcs op s s' :
  receives_weights op = false -> er_step parse_weights parse_mcs op s = Some s' ->
  weights_recved s' = weights_recved s /\ er_weights_tti s' = er_weights_tti s.
Proof.
  intros Hop Hstep.
  destruct op; cbn in Hop; try discriminate Hop; unfold er_step in Hstep;
    try unfold set_tx_bytes, set_rx_bytes, set_cqi, add_drb_tx_bytes,
      add_drb_rx_bytes, collect_ue_telemetry in Hstep;
    try split_float; injection Hstep as <-; try done.
  - unfold report_rlc_metrics. by case_match.
  - unfold ensure_initialized, init. by destruct (initialized s).
  - unfold get_mcs_from_er, ensure_initialized, init.
    destruct (initialized s), recv; cbn; try case_match; done.
Qed.

Lemma er_run_keeps_weights parse_weights parse_mcs ops s s' :
  Forall (fun op => receives_weights op = false) ops ->
  er_run parse_weights parse_mcs ops s = Some s' ->
  weights_recved s' = weights_recved s /\ er_weights_tti s' = er_weights_tti s.
Proof.
  revert s. induction ops as [|op ops IH]; intros s Hops Hrun; cbn in Hrun.
  { by injection Hrun as <-. }
  apply Forall_cons in Hops as [Hop Hops].
  apply bind_Some in Hrun as (s1 & Hstep & Hrun).
  destruct (IH _ Hops Hrun) as [-> ->]. by eapply er_step_keeps_weights.
Qed.

(** Life time of a scheduling weight: from the reception of a message decided
    at TTI [t], and until another one is received, the scheduler is given exactly
    the last weight the message names for the UE while the TTI counter is within
    [t, t + 2], and no weight at any other TTI, whatever else the agent does. *)
Theorem weights_lifetime parse_weights parse_mcs data msg ops s s' rnti :
  parse_weights data = Some msg -> is_u32 (sw_tti_index msg) ->
  Forall (fun op => receives_weights op = false) ops ->
  er_run parse_weights parse_mcs ops
    (get_weights_from_er parse_weights (Some data) s) = Some s' ->
  is_u32 (tti_cnt s') ->
  get_weights rnti s' =
  if decide (sw_tti_index msg <= tti_cnt s' <= sw_tti_index msg + STALENESS_THRESHOLD)
  then last_weight rnti (sw_ue_weights msg) else None.
Proof.
  intros Hp Ht Hops Hrun Htti.
  apply er_run_keeps_weights in Hrun as [Hw Hwt]; [|done].
  unfold get_weights_from_er in Hw, Hwt. rewrite Hp in Hw, Hwt. cbn in Hw, Hwt.
  unfold get_weights.
  assert (are_weights_fresh s' = true <->
    er_weights_tti s' <= tti_cnt s' <= er_weights_tti s' + STALENESS_THRESHOLD) as Hf.
  { by apply fresh_iff; [|rewrite Hwt|]. }
  rewrite Hwt in Hf. destruct (are_weights_fresh s'); cbn; case_decide; try intuition congruence.
  rewrite Hw, lookup_store_weights, lookup_empty. done.
Qed.

(** In every well-formed state the MCS handed to the scheduler is fresh,
    below 255, and is the stored override of the UE; stale overrides are never
    returned. *)
Theorem get_mcs_spec s rnti v :
  er_wf s ->
  get_mcs rnti s = Some v <->
  mcs_recved s !! rnti = Some v /\ 0 <= v < 255 /\
  er_mcs_tti s <= tti_cnt s <= er_mcs_tti s + STALENESS_THRESHOLD.
Proof.
  intros Hs. unfold get_mcs. pose proof (are_mcs_fresh_iff s Hs) as Hf.
  destruct (are_mcs_fresh s); cbn.
  - split; [|tauto]. intros Hv. by destruct (wf_mcs _ Hs _ _ Hv); intuition.
  - split; [done|]. intros (_ & _ & Ht). by apply Hf in Ht.
Qed.

(** ** UE clean up *)

Lemma unregister_mac_ue rnti s :
  mac_ue (unregister_ue_by_rnti rnti s) = delete rnti (mac_ue s).
Proof. done. Qed.

Lemma lookup_erase_if_None `{Countable K} {V} (p : K -> V -> bool) (m : gmap K V) k :
  erase_if p m !! k = None <-> forall v, m !! k = Some v -> p k v = true.
Proof.
  unfold erase_if. rewrite map_lookup_filter_None. split.
  - intros [Hn|Hf] v Hv; [by rewrite Hn in Hv|].
    destruct (p k v) eqn:E; [done|]. by destruct (Hf v Hv).
  - intros Hall. destruct (m !! k) as [v|] eqn:E; [right|by left].
    intros v' [= <-]. cbn. by rewrite (Hall v).
Qed.

Lemma lookup_erase_if_same `{Countable K} {V} (p : K -> V -> bool) (m : gmap K V) k :
  (forall v, m !! k = Some v -> p k v = false) -> erase_if p m !! k = m !! k.
Proof.
  intros Hk. destruct (m !! k) as [v|] eqn:E.
  - apply lookup_erase_if. split; [done|]. by apply Hk.
  - apply lookup_erase_if_None. intros v Hv. by rewrite E in Hv.
Qed.

(** CU-UP UEs correlated with an RNTI through the E1AP identifier. *)
Definition e1ap_correlated (s : er_state) (idx rnti : Z) : Prop :=
  exists e, cu_up_ue_to_e1ap_id s !! idx = Some e /\ e1ap_id_to_rnti s !! e = Some rnti.

Lemma elem_of_filter_keys {V : Type} (m : gmap Z V) (Q : Z * V -> Prop)
    `{!forall kv, Decision (Q kv)} k :
  k ∈ (filter Q (map_items m)).*1 <-> exists v, m !! k = Some v /\ Q (k, v).
Proof.
  rewrite list_elem_of_fmap. split.
  - intros ([k' v] & -> & [HP Hin]%list_elem_of_filter). apply elem_of_map_items in Hin. eauto.
  - intros (v & Hk & HP). exists (k, v).
    by rewrite list_elem_of_filter, elem_of_map_items.
Qed.

(** The CU-UP UEs whose records the clean up erases are the correlated ones. *)
Lemma elem_of_cu_up_indices rnti s idx :
  idx ∈ (filter (fun kv => bool_decide (kv.2 ∈
      (filter (fun kv => kv.2 = rnti) (map_items (e1ap_id_to_rnti s))).*1) = true)
      (map_items (cu_up_ue_to_e1ap_id s))).*1 <-> e1ap_correlated s idx rnti.
Proof.
  rewrite elem_of_filter_keys; cbn [snd].
  unfold e1ap_correlated. apply exist_proper. intros e. f_equiv.
  rewrite bool_decide_eq_true, elem_of_filter_keys; cbn [snd]. naive_solver.
Qed.

Lemma unregister_pdcp rnti s idx drb :
  pdcp_drb (unregister_ue_by_rnti rnti s) !! (idx, drb) = None <->
  pdcp_drb s !! (idx, drb) = None \/ e1ap_correlated s idx rnti.
Proof.
  cbn -[map_items]. rewrite lookup_erase_if_None.
  setoid_rewrite bool_decide_eq_true. setoid_rewrite elem_of_cu_up_indices.
  destruct (pdcp_drb s !! (idx, drb)) as [v|]; [|naive_solver].
  split; [|naive_solver]. intros Hv. right. by apply (Hv v).
Qed.

Lemma unregister_gtp rnti s idx :
  gtp_ue (unregister_ue_by_rnti rnti s) !! idx =
  if decide (idx ∈ (filter (fun kv => bool_decide (kv.2 ∈
      (filter (fun kv => kv.2 = rnti) (map_items (e1ap_id_to_rnti s))).*1) = true)
      (map_items (cu_up_ue_to_e1ap_id s))).*1) then None else gtp_ue s !! idx.
Proof. cbn -[map_items]. apply lookup_foldl_delete. Qed.

(** Operations by which the MAC reports for a UE. *)
Definition mac_reports (rnti : Z) (op : er_op) : bool :=
  match op with
  | OpSetMacUe r _ _ _ _ _ _ | OpSetTxBytes r _ | OpSetRxBytes r _
  | OpSetDlTbs r _ | OpSetUlTbs r _ | OpSetDlMcs r _ | OpSetUlMcs r _
  | OpSetDlPrbs r _ | OpSetUlPrbs r _ | OpReportMacDelays r _ _ _ _ _
  | OpIncDlHarqAck r _ | OpIncDlHarqNack r | OpIncUlCrcOk r _ | OpIncUlCrcFail r
  | OpSetCqi r _ | OpSetSnr r _ | OpSetUlBuffer r _ | OpSetDlBuffer r _
  | OpCollectUeTelemetry r _ _ _ _ => r =? rnti
  | _ => false
  end.

Lemma er_step_departed parse_weights parse_mcs rnti op s s' :
  mac_reports rnti op = false -> mac_ue s !! rnti = None ->
  er_step parse_weights parse_mcs op s = Some s' -> mac_ue s' !! rnti = None.
Proof.
  intros Hop Hs Hstep.
  destruct op; cbn in Hop; unfold er_step in Hstep;
    try unfold set_tx_bytes, set_rx_bytes, set_cqi, add_drb_tx_bytes,
      add_drb_rx_bytes, collect_ue_telemetry in Hstep;
    try split_float; injection Hstep as <-; zbool; try done.
  all: try (cbn; by rewrite !lookup_map_at_ne).
  - unfold report_rlc_metrics. by case_match.
  - cbn. destruct (decide (rnti0 = rnti)) as [->|?];
      [by rewrite lookup_delete_eq|by rewrite lookup_delete_ne].
  - cbn. by rewrite lookup_fmap, ensure_initialized_mac_ue, Hs.
  - by destruct (receive_mac_ue parse_weights parse_mcs recv s) as [-> _].
  - by destruct (receive_mac_ue parse_weights parse_mcs recv s) as [_ ->].
Qed.

Lemma er_run_departed parse_weights parse_mcs rnti ops s s' :
  Forall (fun op => mac_reports rnti op = false) ops -> mac_ue s !! rnti = None ->
  er_run parse_weights parse_mcs ops s = Some s' -> mac_ue s' !! rnti = None.
Proof.
  revert s. induction ops as [|op ops IH]; intros s Hops Hs Hrun; cbn in Hrun.
  { by injection Hrun as <-. }
  apply Forall_cons in Hops as [Hop Hops].
  apply bind_Some in Hrun as (s1 & Hstep & Hrun).
  eapply IH; [done| |done]. by eapply er_step_departed.
Qed.

(** A detached UE leaves nothing behind: its MAC and RLC records, its index
    registrations and the PDCP and GTP-U records correlated through E1AP are
    gone, and no later message names it until the MAC reports for it again. *)
Theorem unregister_cleanup parse_weights parse_mcs rnti s ops s' :
  Forall (fun op => mac_reports rnti op = false) ops ->
  er_run parse_weights parse_mcs ops (unregister_ue_by_rnti rnti s) = Some s' ->
  (let s0 := unregister_ue_by_rnti rnti s in
   (forall lcid, mac_drb s0 !! (rnti, lcid) = None /\ rlc_drb s0 !! (rnti, lcid) = None) /\
   (forall i, ue_index_to_rnti s0 !! i <> Some rnti /\ du_ue_to_rnti s0 !! i <> Some rnti /\
              e1ap_id_to_rnti s0 !! i <> Some rnti) /\
   (forall idx, e1ap_correlated s idx rnti ->
      gtp_ue s0 !! idx = None /\ forall drb, pdcp_drb s0 !! (idx, drb) = None)) /\
  forall now ue, ue ∈ tm_ues (send_tti_metrics now s').2 -> um_rnti ue <> rnti.
Proof.
  intros Hops Hrun. split.
  - intros s0. split; [|split].
    + intros lcid. by split; apply lookup_erase_if_None; intros v _; apply Z.eqb_refl.
    + assert (forall (m : gmap Z Z) i, erase_if (fun _ r => r =? rnti) m !! i <> Some rnti) as Hgone.
      { intros m i [_ Hf]%lookup_erase_if. by rewrite Z.eqb_refl in Hf. }
      intros i. split; [|split]; apply Hgone.
    + intros idx Hc. split; [|intros drb].
      * unfold s0. rewrite unregister_gtp. apply decide_True. by apply elem_of_cu_up_indices.
      * apply unregister_pdcp. by right.
  - intros now ue [[m Hm] _]%elem_of_send_tti_ues Hr. rewrite Hr in Hm.
    apply er_run_departed with (rnti := rnti) in Hrun; [congruence|done|].
    rewrite unregister_mac_ue. apply lookup_delete_eq.
Qed.

(** The clean up of a UE does not touch the others: MAC and RLC records of
    other RNTIs, and PDCP and GTP-U records of CU-UP UEs that E1AP does not
    correlate with the RNTI, are kept. *)
Theorem unregister_frame rnti rnti' s :
  rnti' <> rnti ->
  let s' := unregister_ue_by_rnti rnti s in
  mac_ue s' !! rnti' = mac_ue s !! rnti' /\
  (forall lcid, mac_drb s' !! (rnti', lcid) = mac_drb s !! (rnti', lcid) /\
                rlc_drb s' !! (rnti', lcid) = rlc_drb s !! (rnti', lcid)) /\
  (forall i, ue_index_to_rnti s' !! i = Some rnti' <-> ue_index_to_rnti s !! i = Some rnti') /\
  (forall idx, ~ e1ap_correlated s idx rnti ->
     gtp_ue s' !! idx = gtp_ue s !! idx /\
     forall drb, pdcp_drb s' !! (idx, drb) = pdcp_drb s !! (idx, drb)).
Proof.
  intros Hne s'. split; [|split; [|split]].
  - unfold s'. rewrite unregister_mac_ue. by apply lookup_delete_ne.
  - intros lcid. split; apply lookup_erase_if_same; intros v _; cbn; by apply Z.eqb_neq.
  - intros i. cbn. rewrite lookup_erase_if, Z.eqb_neq. tauto.
  - intros idx Hnc. split.
    + unfold s'. rewrite unregister_gtp. apply decide_False. by rewrite elem_of_cu_up_indices.
    + intros drb. pose proof (unregister_pdcp rnti s idx drb) as Hp.
      destruct (pdcp_drb s' !! (idx, drb)) as [v|] eqn:E.
      * apply lookup_erase_if in E as [E _]. done.
      * symmetry. by destruct (proj1 Hp E).
Qed.

(** ** Identity correlation *)

(** The keys of a map whose domain is an initial interval. *)
Lemma map_keys_interval {V} (m : gmap Z V) (n : nat) :
  (forall i, is_Some (m !! i) <-> 0 <= i < Z.of_nat n) ->
  (map_items m).*1 = seqZ 0 (Z.of_nat n).
Proof.
  intros Hdom. apply map_keys_unique; [apply StronglySorted_seqZ|].
  intros i. rewrite Hdom, elem_of_seqZ. lia.
Qed.

(** Resolution of a CU-UP UE index: the E1AP correlation wins when it is
    complete; without it the index is resolved as a position, which gives the
    RNTI the CU-CP registered under the same index as long as the registered
    indices are 0 .. n-1. *)
Theorem cu_up_rnti_resolution idx s :
  (forall rnti, e1ap_correlated s idx rnti ->
     get_rnti_from_cu_up_ue_index idx s = rnti) /\
  ((forall rnti, ~ e1ap_correlated s idx rnti) ->
   forall n, (forall i, is_Some (ue_index_to_rnti s !! i) <-> 0 <= i < Z.of_nat n) ->
   0 <= idx < Z.of_nat n ->
   ue_index_to_rnti s !! idx = Some (get_rnti_from_cu_up_ue_index idx s)).
Proof.
  unfold get_rnti_from_cu_up_ue_index. split.
  - intros rnti (e & He & Hr). rewrite He; cbn. by rewrite Hr.
  - intros Hnone n Hdom Hidx.
    destruct (cu_up_ue_to_e1ap_id s !! idx ≫= _) as [r|] eqn:E.
    { apply bind_Some in E as (e & He & Hr). destruct (Hnone r). by exists e. }
    pose proof (map_keys_interval _ _ Hdom) as Hk.
    assert ((map_items (ue_index_to_rnti s)).*1 !! Z.to_nat idx = Some idx) as Hl.
    { rewrite Hk. rewrite lookup_seqZ_lt by lia. f_equal. lia. }
    rewrite list_lookup_fmap in Hl.
    destruct (map_items (ue_index_to_rnti s) !! Z.to_nat idx) as [[k r]|] eqn:El; [|done].
    injection Hl as ->. apply elem_of_map_items. by eapply list_elem_of_lookup_2.
Qed.

(** The correlations of two attached UEs none of which went through E1AP
    registration: CU-CP indices 0 and 1. *)
Definition two_ues (r0 r1 : Z) (s : er_state) : Prop :=
  r0 <> r1 /\ cu_up_ue_to_e1ap_id s = ∅ /\
  ue_index_to_rnti s = {[ 0 := r0; 1 := r1 ]} /\
  (forall r, is_Some (mac_ue s !! r) <-> r = r0 \/ r = r1).

(** The only UE left for the MAC. *)
Lemma detach_one_mac_keys r0 r1 s :
  two_ues r0 r1 s -> (map_items (mac_ue (unregister_ue_by_rnti r0 s))).*1 = [r1].
Proof.
  intros (Hne & _ & _ & Hm). apply map_keys_unique; [by repeat constructor|]. intros r.
  rewrite list_elem_of_singleton, unregister_mac_ue.
  destruct (decide (r = r0)) as [->|Hr].
  - rewrite lookup_delete_eq. split; [by intros []|done].
  - rewrite lookup_delete_ne, Hm by congruence. intuition congruence.
Qed.

Lemma two_ues_detached r0 r1 s :
  two_ues r0 r1 s ->
  let s' := unregister_ue_by_rnti r0 s in
  get_rnti_from_cu_up_ue_index 0 s' = r1 /\
  get_rnti_from_cu_up_ue_index 1 s' = 0.
Proof.
  intros Htwo s'. pose proof Htwo as (Hne & He & Hi & Hm).
  assert (cu_up_ue_to_e1ap_id s' = ∅) as He'.
  { apply map_empty. intros i. cbn. rewrite He. apply lookup_erase_if_None.
    intros v Hv. by rewrite lookup_empty in Hv. }
  assert (ue_index_to_rnti s' = {[ 1 := r1 ]}) as Hi'.
  { apply map_eq. intros i. cbn -[map_items]. rewrite Hi.
    destruct (decide (i = 1)) as [->|Hi1]; [|destruct (decide (i = 0)) as [->|Hi0]].
    - rewrite lookup_erase_if_same; simplify_map_eq; [done|].
      intros v Hv. simplify_map_eq. by apply Z.eqb_neq.
    - rewrite lookup_singleton_ne by done. apply lookup_erase_if_None.
      intros v Hv. simplify_map_eq. apply Z.eqb_refl.
    - rewrite lookup_singleton_ne by done. apply lookup_erase_if_None.
      intros v Hv. by simplify_map_eq. }
  pose proof (detach_one_mac_keys _ _ _ Htwo) as Hk. fold s' in Hk.
  clearbody s'.
  assert (map_items (ue_index_to_rnti s') = [(1, r1)]) as Hs by by rewrite Hi'.
  unfold get_rnti_from_cu_up_ue_index. by rewrite He', Hs, Hk, !lookup_empty.
Qed.

(** C40. Without E1AP registration the positional fallback misattributes the
    user plane after the first of two UEs detaches: the next message reports the
    leftover PDCP records of the detached UE as the remaining one's, and none of
    the remaining UE's own. *)
Theorem misattribution_after_detach r0 r1 s now d m :
  two_ues r0 r1 s -> r1 <> 0 -> pdcp_drb s !! (0, d) = Some m ->
  exists ue, tm_ues (send_tti_metrics now (unregister_ue_by_rnti r0 s)).2 = [ue] /\ um_rnti ue = r1 /\ pdcp_drb_msg d m ∈ um_pdcp_drb ue /\
    forall p, p ∈ um_pdcp_drb ue <-> exists idx d' m',
      p = pdcp_drb_msg d' m' /\ pdcp_drb s !! (idx, d') = Some m' /\ idx <> 1 /\
      get_rnti_from_cu_up_ue_index idx (unregister_ue_by_rnti r0 s) = r1.
Proof.
  intros Htwo Hr1 Hd. pose proof (two_ues_detached _ _ _ Htwo) as [H0 H1].
  pose proof (detach_one_mac_keys _ _ _ Htwo) as Hk.
  destruct Htwo as (Hne & He & Hi & Hm).
  set (s' := unregister_ue_by_rnti r0 s) in *.
  assert (forall k, pdcp_drb s' !! k = pdcp_drb s !! k) as Hp.
  { intros [idx drb]. destruct (pdcp_drb s' !! (idx, drb)) as [v|] eqn:E.
    - apply lookup_erase_if in E as [E _]. done.
    - apply unregister_pdcp in E as [E|(e & Hc & _)]; [done|].
      by rewrite He, lookup_empty in Hc. }
  rewrite send_tti_ues, Hk. exists (build_ue s' r1). split; [done|]. split; [done|].
  assert (forall p, p ∈ um_pdcp_drb (build_ue s' r1) <-> exists idx d' m',
    p = pdcp_drb_msg d' m' /\ pdcp_drb s !! (idx, d') = Some m' /\ idx <> 1 /\
    get_rnti_from_cu_up_ue_index idx s' = r1) as Hin.
  { intros p. cbn [build_ue um_pdcp_drb].
    rewrite (elem_of_omap_items _ _ (fun k v => pdcp_drb_msg (snd k) v)).
    setoid_rewrite Z.eqb_eq. split.
    - intros ([idx d'] & m' & Hl & Hrnti & ->). rewrite Hp in Hl. exists idx, d', m'.
      split_and!; try done. intros ->. cbn in Hrnti. congruence.
    - intros (idx & d' & m' & -> & Hl & _ & Hrnti). exists (idx, d'), m'. by rewrite Hp. }
  split; [|done]. apply Hin. by exists 0, d, m.
Qed.

(** ** Witnesses *)

Definition ex_weights (data : list Z) : option SchedulingWeights :=
  match data with
  | [ran; t; r; _] => Some (mk_SchedulingWeights (u32 ran) (u32 t) [mk_UeWeight r f32_zero])
  | _ => None
  end.
Definition ex_mcs (data : list Z) : option McsControl :=
  match data with
  | [ran; t; r; v] => Some (mk_McsControl (u32 ran) (u32 t) [mk_UeMcs r v])
  | _ => None
  end.

Definition ex_pdcp : pdcp_drb_metrics := mk_pdcp_drb_metrics 1 2 3 4 5 6 7 8 9 10 11.

(** Two UEs with MAC, RLC, PDCP and GTP-U records. *)
Definition ex_ops : list er_op :=
  [ OpRegisterUe 0 17; OpRegisterUe 1 18; OpRegisterDuUe 4 17;
    OpSetDlTbs 17 100; OpSetUlTbs 18 50; OpAddMacDrbDlBytes 17 4 100;
    OpReportRlc 4 4 rlc_drb_metrics_default; OpReportPdcp 0 1 ex_pdcp;
    OpReportPdcp 1 2 ex_pdcp; OpReportGtpDl 0 1400; OpSetTTI 7;
    OpRecvMcs (Some [0; 6; 17; 12]) ].

Definition ex_state : er_state :=
  default er_state_init (er_run ex_weights ex_mcs ex_ops er_state_init).

(** The arguments of concrete operations fit their types. *)
Ltac ops_ok :=
  unfold op_ok, rlc_drb_wf, pdcp_drb_wf, in_range; cbn;
  repeat first [apply Forall_nil_2 | apply Forall_cons_2 | split]; cbn; lia.

Lemma ex_parsers_ok :
  (forall data msg, ex_weights data = Some msg -> weights_msg_wf msg) /\
  (forall data msg, ex_mcs data = Some msg -> mcs_msg_wf msg).
Proof.
  split; intros [|? [|? [|? [|? []]]]] msg [= <-]; split; by apply wrap_range.
Qed.

Lemma ex_state_wf : er_wf ex_state.
Proof.
  destruct ex_parsers_ok as [Hw Hm].
  refine (er_wf_run ex_weights ex_mcs Hw Hm ex_ops er_state_init ex_state _ _ _).
  - apply er_state_init_wf.
  - unfold ex_ops. ops_ok.
  - by vm_compute.
Qed.

Lemma send_tti_metrics_drbs_witness :
  rlc_drb_msg 4 rlc_drb_metrics_default ∈ um_rlc_drb (build_ue ex_state 17).
Proof.
  apply (send_tti_metrics_drbs 0 ex_state (build_ue ex_state 17)).
  - apply elem_of_send_tti_ues. split; [vm_compute; by eexists|exact eq_refl].
  - exists 4, rlc_drb_metrics_default. split; reflexivity.
Defined.

Definition ex_slot : list er_op :=
  [OpSetDlTbs 17 40; OpSetDlTbs 18 7; OpSetDlTbs 17 4294967295].
Definition ex_state2 : er_state :=
  default er_state_init (er_run ex_weights ex_mcs ex_slot (send_tti_metrics 0 ex_state).1).

Lemma ex_state2_wf : er_wf ex_state2.
Proof.
  destruct ex_parsers_ok as [Hw Hm].
  refine (er_wf_run ex_weights ex_mcs Hw Hm (OpSend 0 :: ex_slot) ex_state ex_state2 _ _ _).
  - apply ex_state_wf.
  - unfold ex_slot. ops_ok.
  - by vm_compute.
Qed.

Lemma tti_counter_accounting_witness :
  counter_msg CDlTbs <$> um_mac (build_ue ex_state2 17) = Some (u32 (total CDlTbs 17 ex_slot)).
Proof.
  apply (tti_counter_accounting ex_weights ex_mcs CDlTbs 17 ex_slot 0 1 ex_state ex_state2).
  - exact ex_state2_wf.
  - repeat first [apply Forall_nil_2 | apply Forall_cons_2]; by vm_compute.
  - by vm_compute.
  - apply elem_of_send_tti_ues. split; [vm_compute; by eexists|exact eq_refl].
  - exact eq_refl.
Defined.

Lemma er_run_wf_witness : er_wf ex_state.
Proof.
  apply (er_run_wf ex_weights ex_mcs (proj1 ex_parsers_ok) (proj2 ex_parsers_ok) ex_ops).
  - unfold ex_ops. ops_ok.
  - by vm_compute.
Defined.

Lemma weights_lifetime_witness :
  get_weights 17 (default er_state_init (er_run ex_weights ex_mcs
    [OpSetTTI 11; OpUnregisterRnti 18]
    (get_weights_from_er ex_weights (Some [3; 9; 17; 0]) ex_state))) = Some f32_zero.
Proof.
  rewrite (weights_lifetime ex_weights ex_mcs [3; 9; 17; 0]
    (mk_SchedulingWeights 3 9 [mk_UeWeight 17 f32_zero])
    [OpSetTTI 11; OpUnregisterRnti 18] ex_state); try by vm_compute.
  - repeat first [apply Forall_nil_2 | apply Forall_cons_2]; by vm_compute.
Defined.

Lemma get_mcs_spec_witness : get_mcs 17 ex_state = Some 12.
Proof.
  apply (get_mcs_spec ex_state 17 12 ex_state_wf). split; [reflexivity|].
  split; [lia|]. vm_compute. split; discriminate.
Defined.

Lemma unregister_cleanup_witness :
  let s := default er_state_init (er_run ex_weights ex_mcs [OpSetDlTbs 18 1]
             (unregister_ue_by_rnti 17 ex_state)) in
  Forall (fun ue => um_rnti ue <> 17) (tm_ues (send_tti_metrics 5 s).2).
Proof.
  intros s. apply Forall_forall. intros ue Hue.
  eapply (unregister_cleanup ex_weights ex_mcs 17 ex_state [OpSetDlTbs 18 1] s); [| |exact Hue].
  - repeat first [apply Forall_nil_2 | apply Forall_cons_2]; by vm_compute.
  - by vm_compute.
Defined.

Lemma unregister_frame_witness :
  mac_ue (unregister_ue_by_rnti 17 ex_state) !! 18 = mac_ue ex_state !! 18.
Proof. apply (unregister_frame 17 18 ex_state). lia. Defined.

Lemma two_ues_ex_state : two_ues 17 18 ex_state.
Proof.
  split; [lia|]. split; [reflexivity|]. split; [reflexivity|]. intros r.
  replace (mac_ue ex_state) with
    (<[17 := mac_ue_metrics_default <| mu_dl_tbs := 100 |>]>
      (<[18 := mac_ue_metrics_default <| mu_ul_tbs := 50 |>]> (∅ : gmap Z mac_ue_metrics)))
    by reflexivity.
  rewrite !lookup_insert_is_Some', lookup_empty, is_Some_alt. intuition congruence.
Qed.

Lemma misattribution_after_detach_witness :
  exists ue, tm_ues (send_tti_metrics 0 (unregister_ue_by_rnti 17 ex_state)).2 = [ue] /\
    um_rnti ue = 18 /\ pdcp_drb_msg 1 ex_pdcp ∈ um_pdcp_drb ue.
Proof.
  destruct (misattribution_after_detach 17 18 ex_state 0 1 ex_pdcp) as (ue & ? & ? & ? & _);
    [exact two_ues_ex_state|lia|reflexivity|]. by exists ue.
Defined.

Lemma cu_up_rnti_resolution_witness :
  ue_index_to_rnti ex_state !! 1 = Some (get_rnti_from_cu_up_ue_index 1 ex_state).
Proof.
  apply (proj2 (cu_up_rnti_resolution 1 ex_state)) with (n := 2%nat).
  - intros r (e & He & _). discriminate He.
  - intros i. replace (ue_index_to_rnti ex_state) with
      (<[0 := 17]> (<[1 := 18]> (∅ : gmap Z Z))) by reflexivity.
    rewrite !lookup_insert_is_Some', lookup_empty, is_Some_alt. lia.
  - lia.
Defined.
