(* ===== verification/RlcConfig.v ===== *)
(** * RLC: configuration types and sequence number arithmetic

    Models the enumerations and constants of [src/include/srsran/rlc/rlc_config.h]
    that the RLC entities use, and the comparison of sequence numbers relative to
    a modulus base that every entity defines on its own state variables
    ([rx_mod_base], [tx_mod_base]). *)
From stdpp Require Import base numbers list.
From Stdlib Require Import ZArith Lia.
From S2P Require Import Prelude.

Set Default Goal Selector "!".
Open Scope Z_scope.
Open Scope ran_scope.

(** ** Enumerations *)

Inductive rlc_um_sn_size : Type := um_size6bits | um_size12bits.
Inductive rlc_am_sn_size : Type := am_size12bits | am_size18bits.

Definition um_to_number (s : rlc_um_sn_size) : Z :=
  match s with um_size6bits => 6 | um_size12bits => 12 end.
Definition um_from_number (num : Z) : option rlc_um_sn_size :=
  if num =? 6 then Some um_size6bits
  else if num =? 12 then Some um_size12bits else None.

Definition am_to_number (s : rlc_am_sn_size) : Z :=
  match s with am_size12bits => 12 | am_size18bits => 18 end.
Definition am_from_number (num : Z) : option rlc_am_sn_size :=
  if num =? 12 then Some am_size12bits
  else if num =? 18 then Some am_size18bits else None.

Inductive rlc_dc_field : Type := dc_control | dc_data.
Definition dc_to_number (dc : rlc_dc_field) : Z :=
  match dc with dc_control => 0 | dc_data => 1 end.
(** The cast of a bit to the enumeration. *)
Definition dc_of_bit (b : Z) : rlc_dc_field := if b =? 0 then dc_control else dc_data.

Inductive rlc_si_field : Type :=
  full_sdu | first_segment | last_segment | middle_segment.
Definition si_to_number (si : rlc_si_field) : Z :=
  match si with
  | full_sdu => 0 | first_segment => 1 | last_segment => 2 | middle_segment => 3
  end.
(** The cast of two bits to the enumeration. *)
Definition si_of_bits (b : Z) : rlc_si_field :=
  if b =? 0 then full_sdu else if b =? 1 then first_segment
  else if b =? 2 then last_segment else middle_segment.

#[export] Instance rlc_um_sn_size_eq_dec : EqDecision rlc_um_sn_size.
Proof. solve_decision. Defined.
#[export] Instance rlc_am_sn_size_eq_dec : EqDecision rlc_am_sn_size.
Proof. solve_decision. Defined.
#[export] Instance rlc_dc_field_eq_dec : EqDecision rlc_dc_field.
Proof. solve_decision. Defined.
#[export] Instance rlc_si_field_eq_dec : EqDecision rlc_si_field.
Proof. solve_decision. Defined.

(** A segment carries an offset field exactly when it does not start its SDU. *)
Definition si_has_so (si : rlc_si_field) : bool :=
  match si with last_segment | middle_segment => true | _ => false end.

Lemma si_of_to_number si : si_of_bits (si_to_number si) = si.
Proof. by destruct si. Qed.
Lemma dc_of_to_number dc : dc_of_bit (dc_to_number dc) = dc.
Proof. by destruct dc. Qed.
Lemma si_to_number_range si : 0 <= si_to_number si < 4.
Proof. by destruct si. Qed.
Lemma dc_to_number_range dc : 0 <= dc_to_number dc < 2.
Proof. by destruct dc. Qed.

(** ** Value range and windows

    The assertion of [cardinality] ([sn_size < 32]) holds for all the sizes
    above. *)
Definition cardinality (sn_size : Z) : Z := Z.shiftl 1 sn_size.
Definition window_size (sn_size : Z) : Z := cardinality (sn_size - 1).

Lemma cardinality_am s : cardinality (am_to_number s) = 4096 \/ cardinality (am_to_number s) = 262144.
Proof. destruct s; [by left|by right]. Qed.
Lemma cardinality_window_am s :
  cardinality (am_to_number s) = 2 * window_size (am_to_number s).
Proof. by destruct s. Qed.
Lemma cardinality_window_um s :
  cardinality (um_to_number s) = 2 * window_size (um_to_number s).
Proof. by destruct s. Qed.

(** ** Modulus base

    [(sn - base) % mod] on 32-bit unsigned integers. *)
Definition mod_base (mod_nr base sn : Z) : Z := u32 (sn - base) mod mod_nr.

Definition INVALID_RLC_SN : Z := 0xffffffff.
Definition RETX_COUNT_NOT_STARTED : Z := 0xffffffff.

(** A modulus of sequence numbers: a power of two below the width of the state
    variables. *)
Class SnModulus (m : Z) : Prop := {
  sn_modulus_pos : 0 < m;
  sn_modulus_divides : (m | 2 ^ 32);
}.

#[export] Instance sn_modulus_am s : SnModulus (cardinality (am_to_number s)).
Proof.
  split; [by destruct s|].
  destruct s; [by exists 1048576|by exists 16384].
Qed.
#[export] Instance sn_modulus_um s : SnModulus (cardinality (um_to_number s)).
Proof.
  split; [by destruct s|].
  destruct s; [by exists 67108864|by exists 1048576].
Qed.

Lemma mod_mod_divide a b c : 0 < c -> (c | b) -> (a mod b) mod c = a mod c.
Proof.
  intros Hc [q ->]. destruct (decide (q = 0)) as [->|Hq].
  { by rewrite Z.mul_0_l, Z.mod_0_r. }
  rewrite (Z.mul_comm q c).
  rewrite (Z.mod_eq a (c * q)) by lia.
  replace (a - c * q * (a / (c * q))) with (a + (- (q * (a / (c * q)))) * c) by ring.
  by rewrite Z_mod_plus_full.
Qed.

Section mod_base.
Context (m : Z) {Hm : SnModulus m}.

Lemma mod_base_spec b x : mod_base m b x = (x - b) mod m.
Proof. destruct Hm. unfold mod_base, wrap. by apply mod_mod_divide. Qed.

Lemma mod_base_range b x : 0 <= mod_base m b x < m.
Proof. destruct Hm. rewrite mod_base_spec. by apply Z.mod_pos_bound. Qed.

Lemma mod_base_self b : mod_base m b b = 0.
Proof. rewrite mod_base_spec, Z.sub_diag. apply Zmod_0_l. Qed.

(** The sequence number at a given distance from the base. *)
Lemma mod_base_inv b x : 0 <= x < m -> x = (b + mod_base m b x) mod m.
Proof.
  intros Hx. rewrite mod_base_spec, Zplus_mod_idemp_r.
  rewrite Zplus_minus. by rewrite Z.mod_small.
Qed.

Lemma mod_base_inj b x y :
  0 <= x < m -> 0 <= y < m -> mod_base m b x = mod_base m b y -> x = y.
Proof. intros Hx Hy E. by rewrite (mod_base_inv b x), (mod_base_inv b y), E. Qed.

Lemma mod_base_add b x d :
  0 <= d -> mod_base m b x + d < m -> mod_base m b ((x + d) mod m) = mod_base m b x + d.
Proof.
  destruct Hm. rewrite !mod_base_spec. intros Hd Hlt. rewrite Zminus_mod_idemp_l.
  replace (x + d - b) with ((x - b) + d) by lia. rewrite <- Zplus_mod_idemp_l.
  apply Z.mod_small. pose proof (Z.mod_pos_bound (x - b) m). lia.
Qed.

Lemma mod_base_succ b x :
  mod_base m b x + 1 < m -> mod_base m b ((x + 1) mod m) = mod_base m b x + 1.
Proof. apply mod_base_add. lia. Qed.

Lemma mod_base_add_raw b x d :
  0 <= d -> mod_base m b x + d < m -> mod_base m b (x + d) = mod_base m b x + d.
Proof.
  intros Hd Hlt. rewrite <- mod_base_add by done. rewrite !mod_base_spec.
  by rewrite Zminus_mod_idemp_l.
Qed.

(** Moving the base forward by [d]. *)
Lemma mod_base_rebase b b' x :
  mod_base m b' x = (mod_base m b x - mod_base m b b') mod m.
Proof.
  rewrite !mod_base_spec, <- Zminus_mod. f_equal. lia.
Qed.

Lemma mod_base_rebase_ge b b' x :
  mod_base m b b' <= mod_base m b x ->
  mod_base m b' x = mod_base m b x - mod_base m b b'.
Proof.
  intros Hle. rewrite (mod_base_rebase b). apply Z.mod_small.
  pose proof (mod_base_range b x). pose proof (mod_base_range b b'). lia.
Qed.

Lemma mod_base_rebase_lt b b' x :
  mod_base m b x < mod_base m b b' ->
  mod_base m b' x = mod_base m b x - mod_base m b b' + m.
Proof.
  intros Hlt. rewrite (mod_base_rebase b).
  pose proof (mod_base_range b x). pose proof (mod_base_range b b').
  rewrite <- (Z_mod_plus_full _ 1), Z.mul_1_l. apply Z.mod_small. lia.
Qed.

Lemma sn_succ_range x : 0 <= (x + 1) mod m < m.
Proof. destruct Hm. by apply Z.mod_pos_bound. Qed.
End mod_base.

(** Numbers within one window of the base never share a slot of a circular map
    whose capacity is the window size. *)
Lemma mod_base_no_collision m {Hm : SnModulus m} cap b x y :
  0 < cap -> (cap | m) -> 0 <= x < m -> 0 <= y < m ->
  mod_base m b x < cap -> mod_base m b y < cap -> x mod cap = y mod cap -> x = y.
Proof.
  intros Hcap Hdiv Hx Hy Hdx Hdy E. apply (mod_base_inj m b); [done|done|].
  rewrite (mod_base_inv m b x Hx), (mod_base_inv m b y Hy), !mod_mod_divide in E by done.
  pose proof (mod_base_range m b x). pose proof (mod_base_range m b y).
  rewrite <- (Zplus_mod_idemp_l b), <- (Zplus_mod_idemp_l b (mod_base m b y)) in E.
  assert (0 <= b mod cap < cap) by (by apply Z.mod_pos_bound).
  set (c := b mod cap) in *. set (dx := mod_base m b x) in *. set (dy := mod_base m b y) in *.
  assert (forall d, 0 <= d < cap -> (c + d) mod cap = if decide (c + d < cap) then c + d else c + d - cap) as Hc.
  { intros d Hd. case_decide; [apply Z.mod_small; lia|].
    rewrite <- (Z_mod_plus_full _ (-1)). rewrite Z.mod_small; lia. }
  rewrite !Hc in E by lia. repeat case_decide; lia.
Qed.
