(* ===== verification/RlcAmPdu.v ===== *)
(** * RLC AM: data PDU header and status PDU

    Models [src/lib/rlc/rlc_am_pdu.h] and [src/lib/rlc/rlc_am_pdu.cpp]: reading and
    writing the header of an AMD PDU, and the status PDU with its list of NACKs
    (insertion with merging, trimming to a grant, size accounting, packing and
    unpacking).  A byte buffer is a list of bytes in [0, 256); a [byte_buffer_reader]
    is the list of the bytes not read yet; a packer returns the bytes it writes
    at the start of its buffer. *)
From stdpp Require Import base numbers list.
From Stdlib Require Import ZArith Lia.
From S2P Require Import Prelude.
From S2P Require Import RlcConfig.

Set Default Goal Selector "!".
Open Scope Z_scope.
Open Scope ran_scope.

(** ** AMD PDU header *)

Definition rlc_am_pdu_header_so_size : Z := 2.
Definition rlc_am_pdu_header_min_size (sn_size : rlc_am_sn_size) : Z :=
  match sn_size with am_size12bits => 2 | am_size18bits => 3 end.
Definition rlc_am_pdu_header_max_size (sn_size : rlc_am_sn_size) : Z :=
  rlc_am_pdu_header_min_size sn_size + rlc_am_pdu_header_so_size.

Record rlc_am_pdu_header := mk_rlc_am_pdu_header {
  hdr_dc : rlc_dc_field;
  hdr_p : Z;
  hdr_si : rlc_si_field;
  hdr_sn_size : rlc_am_sn_size;
  hdr_sn : Z;
  hdr_so : Z;
}.
#[export] Instance rlc_am_pdu_header_eta : RecordEta rlc_am_pdu_header := fun r =>
  mk_rlc_am_pdu_header (hdr_dc r) (hdr_p r) (hdr_si r) (hdr_sn_size r) (hdr_sn r)
    (hdr_so r).

(** The value [{}] of a header. *)
Definition am_header_zero : rlc_am_pdu_header :=
  mk_rlc_am_pdu_header dc_control 0 full_sdu am_size12bits 0 0.

Definition hdr_get_packed_size (h : rlc_am_pdu_header) : Z :=
  match hdr_si h with
  | last_segment | middle_segment => rlc_am_pdu_header_max_size (hdr_sn_size h)
  | _ => rlc_am_pdu_header_min_size (hdr_sn_size h)
  end.

(** [None]: the function returns false. *)
Definition rlc_am_read_data_pdu_header (pdu : list Z) (sn_size : rlc_am_sn_size)
    (header : rlc_am_pdu_header) : option rlc_am_pdu_header :=
  if zlen pdu <=? rlc_am_pdu_header_min_size sn_size then None else
  match pdu with
  | [] => None
  | b0 :: rdr =>
      let header := header <| hdr_sn_size := sn_size |>
        <| hdr_dc := dc_of_bit (Z.land (Z.shiftr b0 7) 0x01) |>
        <| hdr_p := Z.land (Z.shiftr b0 6) 0x01 |>
        <| hdr_si := si_of_bits (Z.land (Z.shiftr b0 4) 0x03) |> in
      '(header, rdr) ←
        match sn_size with
        | am_size12bits =>
            match rdr with
            | [] => None
            | b1 :: rdr =>
                Some (header <| hdr_sn := Z.lor (Z.shiftl (Z.land b0 0x0f) 8)
                                                (Z.land b1 0xff) |>, rdr)
            end
        | am_size18bits =>
            if negb (Z.land b0 0x0c =? 0) then None else
            match rdr with
            | [] | [_] => None
            | b1 :: b2 :: rdr =>
                Some (header <| hdr_sn :=
                        Z.lor (Z.lor (Z.shiftl (Z.land b0 0x03) 16)
                                     (Z.shiftl (Z.land b1 0xff) 8))
                              (Z.land b2 0xff) |>, rdr)
            end
        end;
      if si_has_so (hdr_si header) then
        match rdr with
        | [] | [_] => None
        | s0 :: s1 :: _ =>
            Some (header <| hdr_so := Z.lor (u16 (Z.shiftl (Z.land s0 0xff) 8))
                                            (Z.land s1 0xff) |>)
        end
      else Some header
  end.

Definition rlc_am_write_data_pdu_header (h : rlc_am_pdu_header) : list Z :=
  let b0 := u8 (Z.shiftl (Z.land (dc_to_number (hdr_dc h)) 0x01) 7) in
  let b0 := u8 (Z.lor b0 (Z.shiftl (Z.land (hdr_p h) 0x01) 6)) in
  let b0 := u8 (Z.lor b0 (Z.shiftl (Z.land (si_to_number (hdr_si h)) 0x03) 4)) in
  match hdr_sn_size h with
  | am_size12bits =>
      [ u8 (Z.lor b0 (Z.land (Z.shiftr (hdr_sn h) 8) 0x0f));
        u8 (Z.land (hdr_sn h) 0xff) ]
  | am_size18bits =>
      [ u8 (Z.lor b0 (Z.land (Z.shiftr (hdr_sn h) 16) 0x03));
        u8 (Z.shiftr (hdr_sn h) 8);
        u8 (Z.land (hdr_sn h) 0xff) ]
  end ++
  (if negb (hdr_so h =? 0) then
     [ u8 (Z.shiftr (hdr_so h) 8); u8 (Z.land (hdr_so h) 0xff) ]
   else []).

(** ** Status PDU *)

Definition sizeof_header_ack_sn : Z := 3.
Definition sizeof_nack_sn_ext_12bit_sn : Z := 2.
Definition sizeof_nack_sn_ext_18bit_sn : Z := 3.
Definition sizeof_nack_so : Z := 4.
Definition sizeof_nack_range : Z := 1.
Definition so_end_of_sdu : Z := 0xffff.

Record rlc_am_status_nack := mk_rlc_am_status_nack {
  nack_sn : Z;
  has_so : bool;
  so_start : Z;
  so_end : Z;
  has_nack_range : bool;
  nack_range : Z;
}.
#[export] Instance rlc_am_status_nack_eta : RecordEta rlc_am_status_nack := fun r =>
  mk_rlc_am_status_nack (nack_sn r) (has_so r) (so_start r) (so_end r)
    (has_nack_range r) (nack_range r).
#[export] Instance rlc_am_status_nack_eq_dec : EqDecision rlc_am_status_nack.
Proof. solve_decision. Defined.

(** The default constructor. *)
Definition nack_default : rlc_am_status_nack :=
  mk_rlc_am_status_nack 0 false 0 so_end_of_sdu false 0.

(** The control PDU type is the 3-bit field itself. *)
Record rlc_am_status_pdu := mk_rlc_am_status_pdu {
  sp_sn_size : rlc_am_sn_size;
  sp_mod_nr : Z;
  sp_nacks : list rlc_am_status_nack;
  sp_packed_size : Z;
  sp_cpt : Z;
  sp_ack_sn : Z;
}.
#[export] Instance rlc_am_status_pdu_eta : RecordEta rlc_am_status_pdu := fun r =>
  mk_rlc_am_status_pdu (sp_sn_size r) (sp_mod_nr r) (sp_nacks r) (sp_packed_size r)
    (sp_cpt r) (sp_ack_sn r).

Definition status_pdu_cpt : Z := 0.

Definition new_status_pdu (sn_size : rlc_am_sn_size) : rlc_am_status_pdu :=
  mk_rlc_am_status_pdu sn_size (cardinality (am_to_number sn_size)) []
    sizeof_header_ack_sn status_pdu_cpt INVALID_RLC_SN.

Definition status_reset (s : rlc_am_status_pdu) : rlc_am_status_pdu :=
  s <| sp_cpt := status_pdu_cpt |> <| sp_ack_sn := INVALID_RLC_SN |>
    <| sp_nacks := [] |> <| sp_packed_size := sizeof_header_ack_sn |>.

Definition can_be_merged (s : rlc_am_status_pdu) (left right : rlc_am_status_nack) : bool :=
  if negb (nack_sn right =?
           u32 (if has_nack_range left then nack_sn left + nack_range left
                else nack_sn left + 1) mod sp_mod_nr s) then false
  else if has_so left && negb (so_end left =? so_end_of_sdu) then false
  else if has_so right && negb (so_start right =? 0) then false
  else
    let left_range := if has_nack_range left then nack_range left else 1 in
    let right_range := if has_nack_range right then nack_range right else 1 in
    left_range + right_range <=? 255.

Definition nack_size (s : rlc_am_status_pdu) (nack : rlc_am_status_nack) : Z :=
  match sp_sn_size s with
  | am_size12bits => sizeof_nack_sn_ext_12bit_sn
  | am_size18bits => sizeof_nack_sn_ext_18bit_sn
  end + (if has_so nack then sizeof_nack_so else 0)
      + (if has_nack_range nack then sizeof_nack_range else 0).

(** The expansion of the previous NACK. *)
Definition merge_nack (prev nack : rlc_am_status_nack) : rlc_am_status_nack :=
  let prev :=
    if has_nack_range nack then
      if has_nack_range prev then
        prev <| nack_range ::= fun r => u8 (r + nack_range nack) |>
      else prev <| nack_range := u8 (nack_range nack + 1) |> <| has_nack_range := true |>
    else if has_nack_range prev then prev <| nack_range ::= fun r => u8 (r + 1) |>
    else prev <| nack_range := 2 |> <| has_nack_range := true |> in
  if has_so nack then
    let prev := if negb (has_so prev) then prev <| has_so := true |> <| so_start := 0 |>
                else prev in
    prev <| so_end := so_end nack |>
  else if has_so prev then prev <| so_end := so_end_of_sdu |>
  else prev.

(** [prev] is [nacks.back()]. *)
Definition push_nack (nack : rlc_am_status_nack) (s : rlc_am_status_pdu) :
    rlc_am_status_pdu :=
  match last (sp_nacks s) with
  | None => s <| sp_nacks := [nack] |> <| sp_packed_size ::= fun n => u32 (n + nack_size s nack) |>
  | Some prev =>
      if negb (can_be_merged s prev nack) then
        s <| sp_nacks ::= fun l => l ++ [nack] |>
          <| sp_packed_size ::= fun n => u32 (n + nack_size s nack) |>
      else
        let s := s <| sp_packed_size ::= fun n => u32 (n - nack_size s prev) |> in
        let prev := merge_nack prev nack in
        let s := s <| sp_nacks ::= fun l => removelast l ++ [prev] |> in
        s <| sp_packed_size ::= fun n => u32 (n + nack_size s prev) |>
  end.

(** The loop pops the last NACK; its recursion is on the reversed list. *)
Fixpoint trim_loop (max_packed_size : Z) (rnacks : list rlc_am_status_nack)
    (s : rlc_am_status_pdu) : rlc_am_status_pdu :=
  match rnacks with
  | [] => s
  | back :: rnacks =>
      if (max_packed_size <? sp_packed_size s) || (nack_sn back =? sp_ack_sn s) then
        trim_loop max_packed_size rnacks
          (s <| sp_packed_size ::= fun n => u32 (n - nack_size s back) |>
             <| sp_ack_sn := nack_sn back |>
             <| sp_nacks := rev rnacks |>)
      else s
  end.

Definition trim (max_packed_size : Z) (s : rlc_am_status_pdu) : bool * rlc_am_status_pdu :=
  if sp_packed_size s <=? max_packed_size then (true, s)
  else if max_packed_size <? sizeof_header_ack_sn then (false, s)
  else (true, trim_loop max_packed_size (rev (sp_nacks s)) s).

Definition refresh_packed_size (s : rlc_am_status_pdu) : rlc_am_status_pdu :=
  foldl (fun s nack => s <| sp_packed_size ::= fun n => u32 (n + nack_size s nack) |>)
    (s <| sp_packed_size := sizeof_header_ack_sn |>) (sp_nacks s).

(** ** Reading a status PDU *)

(** [*(pdu.begin())] of an empty view is out of bounds. *)
Definition is_control_pdu (pdu : list Z) : checked bool :=
  match pdu with
  | [] => Panic
  | b0 :: _ => Ok (Z.land (Z.shiftr b0 7) 0x01 =? dc_to_number dc_control)
  end.

(** The optional fields of a NACK, common to both SN lengths. *)
Definition read_nack_fields (e2 e3 : bool) (nack : rlc_am_status_nack) (rdr : list Z) :
    option (rlc_am_status_nack * list Z) :=
  '(nack, rdr) ←
    (if e2 then
       match rdr with
       | s0 :: s1 :: e0 :: e1 :: rdr =>
           Some (nack <| has_so := true |>
                      <| so_start := Z.lor (u16 (Z.shiftl s0 8)) s1 |>
                      <| so_end := Z.lor (u16 (Z.shiftl e0 8)) e1 |>, rdr)
       | _ => None
       end
     else Some (nack, rdr));
  if e3 then
    match rdr with
    | r :: rdr => Some (nack <| has_nack_range := true |> <| nack_range := r |>, rdr)
    | _ => None
    end
  else Some (nack, rdr).

(** One iteration of the loop: the NACK, the new E1 flag and the bytes left;
    [None] where the function returns false. *)
Definition read_nack_12bit (rdr : list Z) : option (rlc_am_status_nack * bool * list Z) :=
  match rdr with
  | b0 :: b1 :: rdr =>
      let nack := nack_default <| nack_sn := Z.shiftl (Z.land b0 0xff) 4 |> in
      let e1 := negb (Z.land b1 0x08 =? 0) in
      let e2 := negb (Z.land b1 0x04 =? 0) in
      let e3 := negb (Z.land b1 0x02 =? 0) in
      if negb (Z.land b1 0x01 =? 0) then None else
      let nack := nack <| nack_sn ::= fun sn => Z.lor sn (Z.shiftr (Z.land b1 0xf0) 4) |> in
      '(nack, rdr) ← read_nack_fields e2 e3 nack rdr;
      Some (nack, e1, rdr)
  | _ => None
  end.

Definition read_nack_18bit (rdr : list Z) : option (rlc_am_status_nack * bool * list Z) :=
  match rdr with
  | b0 :: b1 :: b2 :: rdr =>
      let nack := nack_default <| nack_sn := Z.shiftl (Z.land b0 0xff) 10 |> in
      let nack := nack <| nack_sn ::= fun sn => Z.lor sn (Z.shiftl (Z.land b1 0xff) 2) |> in
      let nack := nack <| nack_sn ::= fun sn => Z.lor sn (Z.shiftr (Z.land b2 0xc0) 6) |> in
      let e1 := negb (Z.land b2 0x20 =? 0) in
      let e2 := negb (Z.land b2 0x10 =? 0) in
      let e3 := negb (Z.land b2 0x08 =? 0) in
      if negb (Z.land b2 0x07 =? 0) then None else
      '(nack, rdr) ← read_nack_fields e2 e3 nack rdr;
      Some (nack, e1, rdr)
  | _ => None
  end.

(** [while (e1 != 0)]; [None] when the fuel is exhausted. *)
Fixpoint unpack_nacks (read_nack : list Z -> option (rlc_am_status_nack * bool * list Z))
    (fuel : nat) (e1 : bool) (rdr : list Z) (s : rlc_am_status_pdu) :
    option (bool * rlc_am_status_pdu) :=
  match fuel with
  | O => None
  | S fuel =>
      if e1 then
        match read_nack rdr with
        | None => Some (false, s)
        | Some (nack, e1, rdr) => unpack_nacks read_nack fuel e1 rdr (push_nack nack s)
        end
      else Some (true, s)
  end.

(** Every iteration reads at least one byte: the length of the buffer bounds
    their number. *)
Definition unpack_12bit (pdu : list Z) (s : rlc_am_status_pdu) :
    checked (bool * rlc_am_status_pdu) :=
  match pdu with
  | b0 :: b1 :: b2 :: rdr =>
      let? is_control := is_control_pdu pdu in
      if negb is_control then Ok (false, s) else
      let s := status_reset s in
      let s := s <| sp_cpt := Z.land (Z.shiftr b0 4) 0x07 |> in
      if negb (sp_cpt s =? status_pdu_cpt) then Ok (false, s) else
      let s := s <| sp_ack_sn := Z.shiftl (Z.land b0 0x0f) 8 |> in
      let s := s <| sp_ack_sn ::= fun a => Z.lor a (Z.land b1 0xff) |> in
      let e1 := negb (Z.land b2 0x80 =? 0) in
      if negb (Z.land b2 0x7f =? 0) then Ok (false, s) else
      match unpack_nacks read_nack_12bit (S (length pdu)) e1 rdr s with
      | Some r => Ok r
      | None => Panic
      end
  | _ => Ok (false, s)
  end.

Definition unpack_18bit (pdu : list Z) (s : rlc_am_status_pdu) :
    checked (bool * rlc_am_status_pdu) :=
  match pdu with
  | b0 :: b1 :: b2 :: rdr =>
      let? is_control := is_control_pdu pdu in
      if negb is_control then Ok (false, s) else
      let s := status_reset s in
      let s := s <| sp_cpt := Z.land (Z.shiftr b0 4) 0x07 |> in
      if negb (sp_cpt s =? status_pdu_cpt) then Ok (false, s) else
      let s := s <| sp_ack_sn := Z.shiftl (Z.land b0 0x0f) 14 |> in
      let s := s <| sp_ack_sn ::= fun a => Z.lor a (Z.shiftl (Z.land b1 0xff) 6) |> in
      let s := s <| sp_ack_sn ::= fun a => Z.lor a (Z.shiftr (Z.land b2 0xfc) 2) |> in
      let e1 := negb (Z.land b2 0x02 =? 0) in
      if negb (Z.land b2 0x01 =? 0) then Ok (false, s) else
      match unpack_nacks read_nack_18bit (S (length pdu)) e1 rdr s with
      | Some r => Ok r
      | None => Panic
      end
  | _ => Ok (false, s)
  end.

Definition unpack (pdu : list Z) (s : rlc_am_status_pdu) :
    checked (bool * rlc_am_status_pdu) :=
  match sp_sn_size s with
  | am_size12bits => unpack_12bit pdu s
  | am_size18bits => unpack_18bit pdu s
  end.

(** ** Writing a status PDU *)

Definition write_nack_fields (nack : rlc_am_status_nack) : list Z :=
  (if has_so nack then
     [ u8 (Z.shiftr (so_start nack) 8); u8 (so_start nack);
       u8 (Z.shiftr (so_end nack) 8); u8 (so_end nack) ]
   else []) ++
  (if has_nack_range nack then [ nack_range nack ] else []).

(** The loop body for [nacks[i]]; [more] tells whether [i < nacks.size() - 1]. *)
Definition write_nack_12bit (more : bool) (nack : rlc_am_status_nack) : list Z :=
  let b1 := u8 (Z.shiftl (Z.land (nack_sn nack) 0x0f) 4) in
  let b1 := if more then Z.lor b1 0x08 else b1 in
  let b1 := if has_so nack then Z.lor b1 0x04 else b1 in
  let b1 := if has_nack_range nack then Z.lor b1 0x02 else b1 in
  u8 (Z.land (Z.shiftr (nack_sn nack) 4) 0xff) :: b1 :: write_nack_fields nack.

Definition write_nack_18bit (more : bool) (nack : rlc_am_status_nack) : list Z :=
  let b2 := u8 (Z.land (Z.shiftl (nack_sn nack) 6) 0xc0) in
  let b2 := if more then Z.lor b2 0x20 else b2 in
  let b2 := if has_so nack then Z.lor b2 0x10 else b2 in
  let b2 := if has_nack_range nack then Z.lor b2 0x08 else b2 in
  u8 (Z.land (Z.shiftr (nack_sn nack) 10) 0xff)
  :: u8 (Z.land (Z.shiftr (nack_sn nack) 2) 0xff) :: b2 :: write_nack_fields nack.

Fixpoint write_nacks (write_nack : bool -> rlc_am_status_nack -> list Z)
    (nacks : list rlc_am_status_nack) : list Z :=
  match nacks with
  | [] => []
  | nack :: nacks =>
      write_nack (match nacks with [] => false | _ => true end) nack ++
      write_nacks write_nack nacks
  end.

Definition nacks_empty (s : rlc_am_status_pdu) : bool :=
  match sp_nacks s with [] => true | _ => false end.

Definition pack_12bit (s : rlc_am_status_pdu) : list Z :=
  [ Z.lor 0 (Z.land (Z.shiftr (sp_ack_sn s) 8) 0x0f);
    Z.land (sp_ack_sn s) 0xff;
    if negb (nacks_empty s) then 0x80 else 0x00 ]
  ++ write_nacks write_nack_12bit (sp_nacks s).

Definition pack_18bit (s : rlc_am_status_pdu) : list Z :=
  let b2 := Z.land (u32 (Z.shiftl (sp_ack_sn s) 2)) 0xfc in
  [ Z.lor 0 (Z.land (Z.shiftr (sp_ack_sn s) 14) 0x0f);
    Z.land (Z.shiftr (sp_ack_sn s) 6) 0xff;
    if negb (nacks_empty s) then Z.lor b2 0x02 else b2 ]
  ++ write_nacks write_nack_18bit (sp_nacks s).

Definition pack (s : rlc_am_status_pdu) : list Z :=
  match sp_sn_size s with
  | am_size12bits => pack_12bit s
  | am_size18bits => pack_18bit s
  end.
