(* ===== verification/RlcAmPduProps.v ===== *)
(** * RLC AM: properties of the PDU formats

    Round trips of the AMD header and of the status PDU, size accounting, and the
    meaning of the NACK list: pushing a NACK adds exactly its bytes to the set of
    bytes the status PDU reports missing. *)
From stdpp Require Import base numbers list.
From Stdlib Require Import ZArith Lia.
From S2P Require Import Prelude.
From S2P Require Import RlcConfig.
From S2P Require Import RlcAmPdu.

Set Default Goal Selector "!".
Open Scope Z_scope.
Open Scope ran_scope.

(** Writes a disjunction of disjoint fields as a sum: [k] is the width of the
    lower field. *)
Ltac lor_add k := rewrite (lor_disjoint k) by first [lia | cbn; dlia].

(** ** AMD header *)

(** What the fields of a header hold in C++, and the offset field present exactly
    when it is not zero. *)
Record am_header_wf (h : rlc_am_pdu_header) : Prop := {
  hwf_p : 0 <= hdr_p h < 2;
  hwf_sn : 0 <= hdr_sn h < cardinality (am_to_number (hdr_sn_size h));
  hwf_so : is_u16 (hdr_so h);
  hwf_si : si_has_so (hdr_si h) = negb (hdr_so h =? 0);
}.

(** The first byte: fixed fields above [hi], the upper bits of the SN. *)
Lemma am_b0 dc p si hi :
  0 <= p < 2 -> 0 <= hi < 16 ->
  u8 (Z.lor (u8 (Z.lor (u8 (Z.lor (u8 (Z.shiftl (Z.land (dc_to_number dc) 0x01) 7))
      (Z.shiftl (Z.land p 0x01) 6))) (Z.shiftl (Z.land (si_to_number si) 0x03) 4))) hi)
  = dc_to_number dc * 128 + p * 64 + si_to_number si * 16 + hi.
Proof.
  intros Hp Hhi. unfold wrap. assert (p = 0 \/ p = 1) as [-> | ->] by lia;
    destruct dc, si;
    match goal with |- context [Z.lor ?c hi] =>
      let c' := eval vm_compute in c in change c with c' end;
    rewrite (lor_disjoint 4) by first [reflexivity | lia]; cbn [dc_to_number si_to_number]; dlia.
Qed.

Lemma am_b0_fields dc p si hi :
  0 <= p < 2 -> 0 <= hi < 16 ->
  let b0 := dc_to_number dc * 128 + p * 64 + si_to_number si * 16 + hi in
  dc_of_bit (Z.land (Z.shiftr b0 7) 0x01) = dc /\ Z.land (Z.shiftr b0 6) 0x01 = p /\
  si_of_bits (Z.land (Z.shiftr b0 4) 0x03) = si /\ b0 mod 16 = hi.
Proof.
  intros Hp Hhi b0.
  assert (b0 / 128 mod 2 = dc_to_number dc) as E1 by (unfold b0; destruct dc, si; cbn; dlia).
  assert (b0 / 16 mod 4 = si_to_number si) as E2 by (unfold b0; destruct dc, si; cbn; dlia).
  bits. rewrite E1, E2.
  rewrite si_of_to_number, dc_of_to_number.
  split_and!; try done; unfold b0; destruct dc, si; cbn; dlia.
Qed.


Lemma so_bytes so : is_u16 so ->
  Z.lor (u16 (Z.shiftl (Z.land (u8 (Z.shiftr so 8)) 0xff) 8))
        (Z.land (u8 (Z.land so 0xff)) 0xff) = so.
Proof. unfold in_range. intros Hso. bits. rewrite (lor_disjoint 8); dlia. Qed.

(** The SN bytes of the two formats. *)
Lemma sn_bytes_12 b0 sn :
  0 <= sn < 4096 -> b0 mod 16 = sn / 256 ->
  Z.lor (Z.shiftl (Z.land b0 0x0f) 8) (Z.land (u8 (Z.land sn 0xff)) 0xff) = sn.
Proof. intros Hsn Hb. bits. rewrite Hb, (lor_disjoint 8); dlia. Qed.

Lemma sn_bytes_18 b0 sn :
  0 <= sn < 262144 -> b0 mod 16 = sn / 65536 ->
  Z.lor (Z.lor (Z.shiftl (Z.land b0 0x03) 16) (Z.shiftl (Z.land (u8 (Z.shiftr sn 8)) 0xff) 8))
        (Z.land (u8 (Z.land sn 0xff)) 0xff) = sn.
Proof.
  intros Hsn Hb. bits. replace (b0 mod 4) with (sn / 65536) by dlia.
  rewrite (lor_disjoint 16 (sn / 65536 * 65536)) by dlia. rewrite (lor_disjoint 8); dlia.
Qed.

Lemma wrap_byte z : is_u8 (u8 z).
Proof. by apply wrap_range. Qed.
#[local] Hint Resolve wrap_byte : core.

Lemma am_header_bytes h :
  am_header_wf h ->
  zlen (rlc_am_write_data_pdu_header h) = hdr_get_packed_size h /\
  Forall is_u8 (rlc_am_write_data_pdu_header h).
Proof.
  destruct h as [dc p si sz sn so]. intros [Hp Hsn Hso Hsi]. cbn in Hsi.
  unfold rlc_am_write_data_pdu_header, hdr_get_packed_size; cbn [hdr_dc hdr_p hdr_si hdr_sn_size hdr_sn hdr_so].
  destruct (so =? 0), si, sz; cbn in Hsi; try discriminate Hsi; cbn -[wrap];
    (split; [done|repeat (apply Forall_cons_2; [apply wrap_byte|]); apply Forall_nil_2]).
Qed.

(** Reading back a written header. *)
Lemma am_header_read_back h payload :
  am_header_wf h -> payload <> [] ->
  rlc_am_read_data_pdu_header (rlc_am_write_data_pdu_header h ++ payload)
    (hdr_sn_size h) am_header_zero = Some h /\
  zlen (rlc_am_write_data_pdu_header h) = hdr_get_packed_size h /\
  Forall is_u8 (rlc_am_write_data_pdu_header h).
Proof.
  intros Hwf Hne. split; [|by apply am_header_bytes].
  destruct h as [dc p si sz sn so], Hwf as [Hp Hsn Hso Hsi]. cbn in Hp, Hsn, Hso, Hsi.
  destruct payload as [|p0 payload]; [done|].
  unfold rlc_am_write_data_pdu_header; cbn [hdr_dc hdr_p hdr_si hdr_sn_size hdr_sn hdr_so].
  destruct sz; [change (0 <= sn < 4096) in Hsn|change (0 <= sn < 262144) in Hsn];
    rewrite am_b0 by (try lia; bits; dlia).
  - unfold rlc_am_read_data_pdu_header. cbn [app]. rewrite (proj2 (Z.leb_gt _ _))
      by (unfold zlen; cbn [length rlc_am_pdu_header_min_size]; rewrite length_app; cbn [length]; lia).
    destruct (am_b0_fields dc p si (Z.land (Z.shiftr sn 8) 0x0f) Hp ltac:(bits; dlia))
      as (-> & -> & -> & Hhi). cbn -[Z.land Z.lor Z.shiftl Z.shiftr wrap].
    rewrite (sn_bytes_12 _ _ Hsn) by (rewrite Hhi; bits; dlia).
    rewrite Hsi. destruct (so =? 0) eqn:E; zbool; cbn -[Z.land Z.lor Z.shiftl Z.shiftr wrap];
      [by subst|by rewrite so_bytes].
  - unfold rlc_am_read_data_pdu_header. cbn [app]. rewrite (proj2 (Z.leb_gt _ _))
      by (unfold zlen; cbn [length rlc_am_pdu_header_min_size]; rewrite length_app; cbn [length]; lia).
    destruct (am_b0_fields dc p si (Z.land (Z.shiftr sn 16) 0x03) Hp ltac:(bits; dlia))
      as (-> & -> & -> & Hhi). cbn -[Z.land Z.lor Z.shiftl Z.shiftr wrap].
    match goal with |- context [Z.land ?b 12] => replace (Z.land b 12) with 0 end;
      [|revert Hhi; bits; intros; dlia]. cbn -[Z.land Z.lor Z.shiftl Z.shiftr wrap].
    rewrite (sn_bytes_18 _ _ Hsn) by (rewrite Hhi; bits; dlia).
    rewrite Hsi. destruct (so =? 0) eqn:E; zbool; cbn -[Z.land Z.lor Z.shiftl Z.shiftr wrap];
      [by subst|by rewrite so_bytes].
Qed.

(** An AMD header written in front of a payload is read back: every field of
    a well-formed header survives, and the header takes the size the entities
    account for. *)
Theorem am_header_roundtrip h payload :
  am_header_wf h -> payload <> [] ->
  rlc_am_read_data_pdu_header (rlc_am_write_data_pdu_header h ++ payload)
    (hdr_sn_size h) am_header_zero = Some h /\
  zlen (rlc_am_write_data_pdu_header h) = hdr_get_packed_size h /\
  Forall is_u8 (rlc_am_write_data_pdu_header h).
Proof. apply am_header_read_back. Qed.

(** ** One NACK *)

(** The values the wire format of a NACK can carry; absent fields have their
    default values. *)
Record nack_wf (sz : rlc_am_sn_size) (n : rlc_am_status_nack) : Prop := {
  nwf_sn : 0 <= nack_sn n < cardinality (am_to_number sz);
  nwf_start : is_u16 (so_start n);
  nwf_end : is_u16 (so_end n);
  nwf_range : is_u8 (nack_range n);
  nwf_no_so : has_so n = false -> so_start n = 0 /\ so_end n = so_end_of_sdu;
  nwf_no_range : has_nack_range n = false -> nack_range n = 0;
}.

Definition read_nack (sz : rlc_am_sn_size) :=
  match sz with am_size12bits => read_nack_12bit | am_size18bits => read_nack_18bit end.
Definition write_nack (sz : rlc_am_sn_size) :=
  match sz with am_size12bits => write_nack_12bit | am_size18bits => write_nack_18bit end.

Lemma nack_so_bytes so :
  is_u16 so -> Z.lor (u16 (Z.shiftl (u8 (Z.shiftr so 8)) 8)) (u8 so) = so.
Proof. unfold in_range. intros Hso. bits. rewrite (lor_disjoint 8); dlia. Qed.

Lemma read_write_nack_fields sz n rest :
  nack_wf sz n ->
  read_nack_fields (has_so n) (has_nack_range n) (nack_default <| nack_sn := nack_sn n |>)
    (write_nack_fields n ++ rest) = Some (n, rest).
Proof.
  destruct n as [sn so_ s e rg r]. intros [_ Hs He _ Hnso Hnr]. cbn in *.
  unfold write_nack_fields. cbn [has_so has_nack_range so_start so_end nack_range].
  destruct so_, rg; cbn -[wrap Z.lor Z.shiftl Z.shiftr];
    rewrite ?nack_so_bytes by done; try (destruct (Hnso eq_refl) as [-> ->]);
    try rewrite (Hnr eq_refl); done.
Qed.

Ltac flags_case f1 f2 f3 :=
  destruct f1, f2, f3; rewrite <- ?Z.lor_assoc;
  repeat match goal with
  | |- context [Z.lor (Zpos ?a) (Zpos ?b)] =>
      let v := eval vm_compute in (Z.lor (Zpos a) (Zpos b)) in
      change (Z.lor (Zpos a) (Zpos b)) with v
  end.

Lemma nack_b1_12 sn (f1 f2 f3 : bool) :
  let b1 := u8 (Z.shiftl (Z.land sn 0x0f) 4) in
  let b1 := if f1 then Z.lor b1 0x08 else b1 in
  let b1 := if f2 then Z.lor b1 0x04 else b1 in
  let b1 := if f3 then Z.lor b1 0x02 else b1 in
  b1 = sn mod 16 * 16 + (Z.b2z f1 * 8 + Z.b2z f2 * 4 + Z.b2z f3 * 2).
Proof.
  cbv zeta. replace (u8 (Z.shiftl (Z.land sn 15) 4)) with (sn mod 16 * 16) by (bits; dlia).
  flags_case f1 f2 f3; rewrite ?(lor_disjoint 4) by (try dlia); cbn; lia.
Qed.

Lemma nack_b2_18 sn (f1 f2 f3 : bool) :
  let b2 := u8 (Z.land (Z.shiftl sn 6) 0xc0) in
  let b2 := if f1 then Z.lor b2 0x20 else b2 in
  let b2 := if f2 then Z.lor b2 0x10 else b2 in
  let b2 := if f3 then Z.lor b2 0x08 else b2 in
  b2 = sn mod 4 * 64 + (Z.b2z f1 * 32 + Z.b2z f2 * 16 + Z.b2z f3 * 8).
Proof.
  cbv zeta. replace (u8 (Z.land (Z.shiftl sn 6) 192)) with (sn mod 4 * 64) by (bits; dlia).
  flags_case f1 f2 f3; rewrite ?(lor_disjoint 6) by (try dlia); cbn; lia.
Qed.

(** Testing a single bit of a byte. *)
Lemma flag_test x m f :
  0 < m -> (x / m) mod 2 = Z.b2z f -> negb ((x / m) mod 2 * m =? 0) = f.
Proof.
  intros Hm ->. destruct f; cbn; [|done].
  by destruct m.
Qed.

Lemma b2z_range f : 0 <= Z.b2z f <= 1.
Proof. by destruct f. Qed.

Lemma read_write_nack_12 more n rest :
  nack_wf am_size12bits n ->
  read_nack_12bit (write_nack_12bit more n ++ rest) = Some (n, more, rest).
Proof.
  intros Hn. pose proof (nwf_sn _ _ Hn) as Hsn. change (0 <= nack_sn n < 4096) in Hsn.
  unfold write_nack_12bit. rewrite nack_b1_12. cbn [app]. unfold read_nack_12bit.
  set (b1 := _ + _).
  pose proof (b2z_range more). pose proof (b2z_range (has_so n)).
  pose proof (b2z_range (has_nack_range n)).
  autorewrite with bits.
  rewrite (flag_test b1 8 more), (flag_test b1 4 (has_so n)),
    (flag_test b1 2 (has_nack_range n)) by (subst b1; dlia).
  replace (b1 mod 2 =? 0) with true by (symmetry; apply Z.eqb_eq; subst b1; dlia).
  cbn [negb].
  match goal with |- context [read_nack_fields _ _ ?x _] =>
    replace x with (nack_default <| nack_sn := nack_sn n |>) end.
  { by rewrite (read_write_nack_fields _ n rest Hn). }
  unfold field_update, nack_default.
  cbn -[Z.lor Z.shiftl Z.shiftr Z.div Z.modulo Z.mul wrap b1]. f_equal. bits.
  rewrite (lor_disjoint 4); subst b1; dlia.
Qed.

Lemma read_write_nack_18 more n rest :
  nack_wf am_size18bits n ->
  read_nack_18bit (write_nack_18bit more n ++ rest) = Some (n, more, rest).
Proof.
  intros Hn. pose proof (nwf_sn _ _ Hn) as Hsn. change (0 <= nack_sn n < 262144) in Hsn.
  unfold write_nack_18bit. rewrite nack_b2_18. cbn [app]. unfold read_nack_18bit.
  set (b2 := _ + _).
  pose proof (b2z_range more). pose proof (b2z_range (has_so n)).
  pose proof (b2z_range (has_nack_range n)).
  autorewrite with bits.
  rewrite (flag_test b2 32 more), (flag_test b2 16 (has_so n)),
    (flag_test b2 8 (has_nack_range n)) by (subst b2; dlia).
  replace (b2 mod 8 =? 0) with true by (symmetry; apply Z.eqb_eq; subst b2; dlia).
  cbn [negb].
  match goal with |- context [read_nack_fields _ _ ?x _] =>
    replace x with (nack_default <| nack_sn := nack_sn n |>) end.
  { by rewrite (read_write_nack_fields _ n rest Hn). }
  unfold field_update, nack_default.
  cbn -[Z.lor Z.shiftl Z.shiftr Z.div Z.modulo Z.mul wrap b2]. f_equal. bits.
  match goal with |- _ = Z.lor (Z.lor ?x _) _ => rewrite (lor_disjoint 10 x) by dlia end.
  rewrite (lor_disjoint 2); subst b2; dlia.
Qed.

Lemma read_write_nack sz more n rest :
  nack_wf sz n -> read_nack sz (write_nack sz more n ++ rest) = Some (n, more, rest).
Proof. destruct sz; [apply read_write_nack_12|apply read_write_nack_18]. Qed.

(** ** The NACK list *)

Fixpoint nack_sizes (s : rlc_am_status_pdu) (l : list rlc_am_status_nack) : Z :=
  match l with [] => 0 | n :: l => nack_size s n + nack_sizes s l end.

Fixpoint unmergeable (s : rlc_am_status_pdu) (l : list rlc_am_status_nack) : Prop :=
  match l with
  | [] => True
  | n :: l' =>
      match l' with [] => True | n' :: _ => can_be_merged s n n' = false end /\
      unmergeable s l'
  end.

(** The invariant of a status PDU: NACKs are within the wire format, adjacent
    NACKs cannot be merged, and the cached size is the sum of the sizes. *)
Record status_wf (s : rlc_am_status_pdu) : Prop := {
  swf_mod : sp_mod_nr s = cardinality (am_to_number (sp_sn_size s));
  swf_nacks : Forall (nack_wf (sp_sn_size s)) (sp_nacks s);
  swf_chain : unmergeable s (sp_nacks s);
  swf_size : sp_packed_size s = u32 (sizeof_header_ack_sn + nack_sizes s (sp_nacks s));
}.

Lemma nack_sizes_app s l1 l2 : nack_sizes s (l1 ++ l2) = nack_sizes s l1 + nack_sizes s l2.
Proof. induction l1 as [|n l1 IH]; cbn; [done|]. rewrite IH. lia. Qed.

Lemma nack_size_range s n : 2 <= nack_size s n <= 8.
Proof.
  unfold nack_size, sizeof_nack_sn_ext_12bit_sn, sizeof_nack_sn_ext_18bit_sn, sizeof_nack_so,
    sizeof_nack_range. destruct (sp_sn_size s), (has_so n), (has_nack_range n); lia.
Qed.

Lemma nack_sizes_range s l : 2 * zlen l <= nack_sizes s l <= 8 * zlen l.
Proof.
  unfold zlen. induction l as [|n l IH]; cbn; [lia|].
  pose proof (nack_size_range s n). cbn [length] in *. lia.
Qed.

(** The list functions read only the SN size and the modulus. *)
Lemma can_be_merged_ext s s' l r :
  sp_mod_nr s' = sp_mod_nr s -> can_be_merged s' l r = can_be_merged s l r.
Proof. unfold can_be_merged. by intros ->. Qed.
Lemma nack_size_ext s s' n : sp_sn_size s' = sp_sn_size s -> nack_size s' n = nack_size s n.
Proof. unfold nack_size. by intros ->. Qed.
Lemma nack_sizes_ext s s' l :
  sp_sn_size s' = sp_sn_size s -> nack_sizes s' l = nack_sizes s l.
Proof.
  intros E. induction l as [|n l IH]; cbn; [done|]. by rewrite IH, (nack_size_ext _ _ _ E).
Qed.
Lemma unmergeable_ext s s' l :
  sp_mod_nr s' = sp_mod_nr s -> unmergeable s l -> unmergeable s' l.
Proof.
  intros E. induction l as [|n l IH]; cbn; [done|]. intros [H ?]. split; [|auto].
  destruct l; [done|]. by rewrite (can_be_merged_ext _ _ _ _ E).
Qed.

Lemma unmergeable_app s l1 l2 :
  unmergeable s (l1 ++ l2) <->
  unmergeable s l1 /\ unmergeable s l2 /\
  (forall a b, last l1 = Some a -> head l2 = Some b -> can_be_merged s a b = false).
Proof.
  induction l1 as [|n l1 IH]; cbn.
  { split; [|tauto]. intros H. by split_and!. }
  rewrite IH. destruct l1 as [|n' l1]; cbn.
  - destruct l2; cbn; naive_solver.
  - split; [intros (H1 & H2 & H3 & H4)|intros ((H1 & H2) & H3 & H4)]; split_and!; auto; tauto.
Qed.

(** The effect of pushing on the list. *)
Definition push_list (s : rlc_am_status_pdu) (nack : rlc_am_status_nack)
    (l : list rlc_am_status_nack) : list rlc_am_status_nack :=
  match last l with
  | Some prev => if can_be_merged s prev nack then removelast l ++ [merge_nack prev nack]
                 else l ++ [nack]
  | None => [nack]
  end.

Lemma push_nack_list nack s : sp_nacks (push_nack nack s) = push_list s nack (sp_nacks s).
Proof.
  unfold push_nack, push_list. destruct (last (sp_nacks s)); [|done].
  by destruct (can_be_merged s r nack).
Qed.

Lemma push_nack_fixed nack s :
  sp_sn_size (push_nack nack s) = sp_sn_size s /\ sp_mod_nr (push_nack nack s) = sp_mod_nr s /\
  sp_ack_sn (push_nack nack s) = sp_ack_sn s /\ sp_cpt (push_nack nack s) = sp_cpt s.
Proof.
  unfold push_nack. destruct (last (sp_nacks s)); [|done].
  by destruct (can_be_merged s r nack).
Qed.

Lemma last_split {A} (l : list A) x : last l = Some x -> l = removelast l ++ [x].
Proof.
  destruct l as [|a l]; [done|]. intros H.
  rewrite (app_removelast_last x) at 1 by done. f_equal. f_equal.
  revert a H. induction l as [|b l IH]; intros a H; cbn in *; [congruence|]. by apply IH.
Qed.

Lemma merge_nack_wf sz prev nack s :
  nack_wf sz prev -> nack_wf sz nack -> can_be_merged s prev nack = true ->
  nack_wf sz (merge_nack prev nack) /\
  nack_sn (merge_nack prev nack) = nack_sn prev /\
  has_nack_range (merge_nack prev nack) = true /\
  nack_range (merge_nack prev nack) =
    (if has_nack_range prev then nack_range prev else 1) +
    (if has_nack_range nack then nack_range nack else 1) /\
  has_so (merge_nack prev nack) = has_so prev || has_so nack /\
  so_start (merge_nack prev nack) = so_start prev /\
  so_end (merge_nack prev nack) = (if has_so nack then so_end nack else so_end_of_sdu).
Proof.
  intros Hp Hn Hm. unfold can_be_merged in Hm.
  repeat match type of Hm with (if ?b then _ else _) = _ => destruct b eqn:?; [done|] end.
  zbool. destruct prev as [psn pso pst pe prg pr], nack as [nsn nso nst ne nrg nr].
  destruct Hp as [? ? ? ? Hp5 Hp6], Hn as [? ? ? ? Hn5 Hn6]. cbn in *. unfold in_range in *.
  assert (pso = false -> pst = 0 /\ pe = so_end_of_sdu) by done.
  unfold merge_nack; destruct prg, nrg, pso, nso; cbn -[wrap] in *;
    try (destruct (Hp5 eq_refl)); try (destruct (Hn5 eq_refl)); subst;
    (split; [constructor; cbn -[wrap]; unfold in_range|]; split_and?);
    rewrite ?wrap_small by (unfold in_range; lia); unfold so_end_of_sdu; try done; try lia.
Qed.

(** A merged NACK collides with its left neighbour no more than the NACK it
    replaces. *)
Lemma can_be_merged_merge s a prev nack sz :
  nack_wf sz prev -> nack_wf sz nack -> can_be_merged s prev nack = true ->
  can_be_merged s a prev = false -> can_be_merged s a (merge_nack prev nack) = false.
Proof.
  intros Hp Hn Hm Ha. destruct (merge_nack_wf _ _ _ _ Hp Hn Hm) as (_ & Esn & Erg & Er & Eso & Es & _).
  pose proof (nwf_range _ _ Hp). pose proof (nwf_range _ _ Hn). unfold in_range in *.
  assert ((has_so prev || has_so nack) && negb (so_start prev =? 0)
          = has_so prev && negb (so_start prev =? 0)) as Eor.
  { pose proof (nwf_no_so _ _ Hp) as Hnso. destruct (has_so prev); [done|].
    destruct (Hnso eq_refl) as [-> _]. by rewrite andb_false_r. }
  revert Ha. unfold can_be_merged. rewrite Esn, Erg, Er, Eso, Es, Eor.
  repeat match goal with |- (if ?b then false else _) = _ -> _ => destruct b; [done|] end.
  intros ?%Z.leb_gt. apply Z.leb_gt. destruct (has_nack_range nack); lia.
Qed.

Lemma push_list_wf s nack l :
  Forall (nack_wf (sp_sn_size s)) l -> unmergeable s l -> nack_wf (sp_sn_size s) nack ->
  Forall (nack_wf (sp_sn_size s)) (push_list s nack l) /\ unmergeable s (push_list s nack l).
Proof.
  intros Hl Hu Hn. unfold push_list. destruct (last l) as [prev|] eqn:El.
  - pose proof (last_split _ _ El) as E. destruct (can_be_merged s prev nack) eqn:Hm.
    + rewrite E in Hl, Hu. apply Forall_app in Hl as [Hl Hp]. apply Forall_cons in Hp as [Hp _].
      apply unmergeable_app in Hu as (Hu & _ & Hlast). split.
      * apply Forall_app; split; [done|]. apply Forall_singleton. by eapply merge_nack_wf.
      * apply unmergeable_app. split_and!; [done|done|]. intros a b Ha [= <-].
        eapply can_be_merged_merge; eauto.
    + split; [apply Forall_app; by split; [|apply Forall_singleton]|].
      apply unmergeable_app. split_and!; [done|done|]. intros a b Ha [= <-]. congruence.
  - split; [by apply Forall_singleton|done].
Qed.

Lemma push_list_sizes s nack l :
  nack_sizes s (push_list s nack l) =
  match last l with
  | Some prev => if can_be_merged s prev nack
                 then nack_sizes s l - nack_size s prev + nack_size s (merge_nack prev nack)
                 else nack_sizes s l + nack_size s nack
  | None => nack_size s nack
  end.
Proof.
  unfold push_list. destruct (last l) as [prev|] eqn:El; [|cbn; lia].
  destruct (can_be_merged s prev nack).
  - rewrite (last_split _ _ El) at 2. rewrite !nack_sizes_app; cbn. lia.
  - rewrite nack_sizes_app; cbn. lia.
Qed.

Lemma wrap_sub_l w a b : 0 <= w -> wrap w (wrap w a - b) = wrap w (a - b).
Proof. intros Hw. unfold wrap. by rewrite Zminus_mod_idemp_l. Qed.

(** Pushing a NACK keeps the invariant. *)
Lemma push_nack_wf nack s :
  status_wf s -> nack_wf (sp_sn_size s) nack -> status_wf (push_nack nack s).
Proof.
  intros Hs Hn. destruct Hs as [Hmod Hnacks Hchain Hsize].
  destruct (push_nack_fixed nack s) as (Esz & Emod & _ & _).
  destruct (push_list_wf s nack (sp_nacks s)) as [Hl Hu]; [done..|].
  split; rewrite ?push_nack_list, ?Esz, ?Emod; [done|done| |].
  - by eapply unmergeable_ext.
  - rewrite (nack_sizes_ext s) by done. rewrite push_list_sizes. unfold push_nack.
    destruct (last (sp_nacks s)) as [prev|] eqn:El.
    + destruct (can_be_merged s prev nack); cbn -[wrap nack_size].
      * rewrite Hsize, wrap_sub_l, wrap_add_l by lia.
        erewrite (nack_size_ext s _ (merge_nack prev nack)) by done. f_equal. lia.
      * rewrite Hsize, wrap_add_l by lia. f_equal. lia.
    + apply last_None in El. rewrite El in Hsize. cbn -[wrap nack_size] in *.
      rewrite Hsize, wrap_add_l by lia. by f_equal.
Qed.

(** ** Unpacking any buffer *)


Lemma byte_so a b : is_u8 a -> is_u8 b -> is_u16 (Z.lor (u16 (Z.shiftl a 8)) b).
Proof.
  unfold in_range. intros Ha Hb. apply (lor_range 16); [lia| |dlia]. bits. dlia.
Qed.

Lemma read_nack_fields_spec sz e2 e3 sn rdr n rest :
  0 <= sn < cardinality (am_to_number sz) -> Forall is_u8 rdr ->
  read_nack_fields e2 e3 (nack_default <| nack_sn := sn |>) rdr = Some (n, rest) ->
  nack_wf sz n /\ Forall is_u8 rest /\ (length rest <= length rdr)%nat.
Proof.
  intros Hsn Hb Hr. unfold read_nack_fields in Hr. apply bind_Some in Hr as ([n1 r1] & H1 & H2).
  assert (nack_wf sz n1 /\ has_nack_range n1 = false /\ Forall is_u8 r1 /\
          (length r1 <= length rdr)%nat) as (Hw & Hnr & Hb1 & Hl1).
  { destruct e2; [|injection H1 as <- <-; split_and!; try done; by constructor].
    destruct rdr as [|s0 [|s1 [|e0 [|e1 rdr]]]]; try done. injection H1 as <- <-.
    repeat (apply Forall_cons in Hb as [? Hb]). split_and!; [|done|done|cbn; lia].
    constructor; cbn -[wrap Z.lor Z.shiftl]; try done; by apply byte_so. }
  destruct e3; [|by injection H2 as <- <-].
  destruct r1 as [|r r1]; [done|]. injection H2 as <- <-. apply Forall_cons in Hb1 as [? ?].
  split_and!; [|done|cbn in *; lia]. destruct Hw. by constructor.
Qed.

Lemma read_nack_spec sz rdr n e1 rest :
  Forall is_u8 rdr -> read_nack sz rdr = Some (n, e1, rest) ->
  nack_wf sz n /\ Forall is_u8 rest /\ (length rest < length rdr)%nat.
Proof.
  intros Hb Hr. destruct sz; cbn [read_nack] in Hr.
  - unfold read_nack_12bit in Hr. destruct rdr as [|b0 [|b1 rdr]]; try done.
    apply Forall_cons in Hb as [H0 Hb]. apply Forall_cons in Hb as [H1 Hb].
    destruct (negb (Z.land b1 1 =? 0)); [done|].
    apply bind_Some in Hr as ([n1 r1] & Hf & [= <- <- <-]).
    apply (read_nack_fields_spec am_size12bits _ _ (Z.lor (Z.shiftl (Z.land b0 0xff) 4)
      (Z.shiftr (Z.land b1 0xf0) 4))) in Hf as (? & ? & ?); [|..|done].
    + split_and!; [done|done|cbn; lia].
    + apply (lor_range 12); [lia|..]; unfold in_range in *; bits; dlia.
  - unfold read_nack_18bit in Hr. destruct rdr as [|b0 [|b1 [|b2 rdr]]]; try done.
    apply Forall_cons in Hb as [H0 Hb]. apply Forall_cons in Hb as [H1 Hb].
    apply Forall_cons in Hb as [H2 Hb].
    destruct (negb (Z.land b2 7 =? 0)); [done|].
    apply bind_Some in Hr as ([n1 r1] & Hf & [= <- <- <-]).
    apply (read_nack_fields_spec am_size18bits _ _ (Z.lor (Z.lor (Z.shiftl (Z.land b0 0xff) 10)
      (Z.shiftl (Z.land b1 0xff) 2)) (Z.shiftr (Z.land b2 0xc0) 6))) in Hf as (? & ? & ?); [|..|done].
    + split_and!; [done|done|cbn; lia].
    + repeat (apply (lor_range 18); [lia|..]); unfold in_range in *; bits; dlia.
Qed.

Lemma read_nack_shorter sz rdr n e1 rest :
  read_nack sz rdr = Some (n, e1, rest) -> (length rest < length rdr)%nat.
Proof.
  intros Hr. assert (forall e2 e3 n0 r n1 r1, read_nack_fields e2 e3 n0 r = Some (n1, r1) ->
    (length r1 <= length r)%nat) as Hf.
  { intros e2 e3 n0 r n1 r1 H. apply bind_Some in H as ([n2 r2] & H1 & H2).
    assert (length r2 <= length r)%nat.
    { destruct e2; [destruct r as [|? [|? [|? [|? r]]]]; try done|];
        injection H1 as <- <-; cbn; lia. }
    destruct e3; [destruct r2; [done|]|]; injection H2 as <- <-; cbn in *; lia. }
  destruct sz; cbn [read_nack] in Hr; unfold read_nack_12bit, read_nack_18bit in Hr;
    destruct rdr as [|b0 [|b1 rdr]]; try done; [|destruct rdr as [|b2 rdr]; [done|]];
    match type of Hr with (if ?b then _ else _) = _ => destruct b; [done|] end;
    apply bind_Some in Hr as ([n1 r1] & Hr%Hf & [= <- <- <-]); cbn; lia.
Qed.

Lemma unpack_nacks_total sz fuel e1 rdr s :
  (length rdr < fuel)%nat -> is_Some (unpack_nacks (read_nack sz) fuel e1 rdr s).
Proof.
  revert e1 rdr s. induction fuel as [|fuel IH]; intros e1 rdr s Hf; [lia|]. cbn.
  destruct e1; [|by eexists].
  destruct (read_nack sz rdr) as [[[n e1] rest]|] eqn:E; [|by eexists].
  apply IH. apply read_nack_shorter in E. lia.
Qed.

Lemma unpack_nacks_wf sz fuel e1 rdr s b s' :
  Forall is_u8 rdr -> status_wf s -> sp_sn_size s = sz ->
  unpack_nacks (read_nack sz) fuel e1 rdr s = Some (b, s') ->
  status_wf s' /\ sp_sn_size s' = sz.
Proof.
  revert e1 rdr s. induction fuel as [|fuel IH]; intros e1 rdr s Hb Hs Hsz; cbn; [done|].
  destruct e1; [|by intros [= <- <-]].
  destruct (read_nack sz rdr) as [[[n e1] rest]|] eqn:E; [|by intros [= <- <-]].
  apply read_nack_spec in E as (Hn & Hb' & _); [|done]. intros Hu.
  apply (IH e1 rest (push_nack n s)); try done; [apply push_nack_wf; [done|by rewrite Hsz]|].
  by destruct (push_nack_fixed n s) as [-> _].
Qed.

Lemma new_status_pdu_wf sz : status_wf (new_status_pdu sz).
Proof. split; try done. Qed.

Lemma status_reset_wf s : status_wf s -> status_wf (status_reset s).
Proof. intros [Hm _ _ _]. split; try done. Qed.

(** Changing the fields outside the list. *)
Lemma status_wf_ext s s' :
  sp_sn_size s' = sp_sn_size s -> sp_mod_nr s' = sp_mod_nr s -> sp_nacks s' = sp_nacks s ->
  sp_packed_size s' = sp_packed_size s -> status_wf s -> status_wf s'.
Proof.
  intros Esz Em En Ep [? ? ? ?]. split; rewrite ?En, ?Esz, ?Em, ?Ep; try done.
  - by eapply unmergeable_ext.
  - by rewrite (nack_sizes_ext s s').
Qed.

(** The common shape of the two unpackers. *)
Lemma unpack_cases pdu s :
  unpack pdu s = Ok (false, s) \/
  exists s1, sp_sn_size s1 = sp_sn_size s /\ (status_wf s -> status_wf s1) /\
    (unpack pdu s = Ok (false, s1) \/
     exists b0 b1 b2 rdr e1, pdu = b0 :: b1 :: b2 :: rdr /\
       unpack pdu s = match unpack_nacks (read_nack (sp_sn_size s)) (S (length pdu)) e1 rdr s1 with
                      | Some r => Ok r | None => Panic end).
Proof.
  assert (forall s1, sp_sn_size s1 = sp_sn_size (status_reset s) ->
    sp_mod_nr s1 = sp_mod_nr (status_reset s) -> sp_nacks s1 = sp_nacks (status_reset s) ->
    sp_packed_size s1 = sp_packed_size (status_reset s) ->
    sp_sn_size s1 = sp_sn_size s /\ (status_wf s -> status_wf s1)) as Hs1.
  { intros s1 ? ? ? ?. split; [done|]. intros Hs%status_reset_wf. by eapply status_wf_ext, Hs. }
  unfold unpack. destruct (sp_sn_size s) eqn:Esz; unfold unpack_12bit, unpack_18bit;
    (destruct pdu as [|b0 [|b1 [|b2 rdr]]]; [by left..|]); cbn [is_control_pdu checked_bind];
    (destruct (negb (_ =? dc_to_number _)); [by left|right]); cbv zeta.
  all: match goal with |- context [if negb (sp_cpt ?s1 =? status_pdu_cpt) then _ else _] =>
    destruct (negb (sp_cpt s1 =? status_pdu_cpt));
      [exists s1; split; [done|split; [by apply Hs1|by left]]|] end.
  all: match goal with |- context [unpack_nacks _ _ _ _ ?s1] =>
    exists s1; split; [done|split; [by apply Hs1|]] end.
  all: match goal with |- context [if ?b then Ok _ else _] =>
    destruct b; [by left|right; by eauto 10] end.
Qed.

Lemma unpack_nacks_ack read fuel e1 rdr s b s' :
  unpack_nacks read fuel e1 rdr s = Some (b, s') -> sp_ack_sn s' = sp_ack_sn s.
Proof.
  revert e1 rdr s. induction fuel as [|fuel IH]; intros e1 rdr s; cbn; [done|].
  destruct e1; [|by intros [= <- <-]]. destruct (read rdr) as [[[n e1] rest]|]; [|by intros [= <- <-]].
  intros ->%IH. by destruct (push_nack_fixed n s) as (_ & _ & -> & _).
Qed.

(** ACK_SN of a PDU that is accepted is a sequence number. *)
Lemma unpack_ack_range pdu s s' :
  Forall is_u8 pdu -> unpack pdu s = Ok (true, s') ->
  0 <= sp_ack_sn s' < cardinality (am_to_number (sp_sn_size s)).
Proof.
  intros Hb. unfold unpack. destruct (sp_sn_size s); unfold unpack_12bit, unpack_18bit;
    (destruct pdu as [|b0 [|b1 [|b2 rdr]]]; [done..|]); cbn [is_control_pdu checked_bind];
    apply Forall_cons in Hb as [H0 Hb]; apply Forall_cons in Hb as [H1 Hb]; apply Forall_cons in Hb as [H2 Hb];
    (destruct (negb (_ =? dc_to_number _)); [done|]); cbv zeta;
    (destruct (negb (sp_cpt _ =? _)); [done|]);
    (destruct (negb (Z.land b2 _ =? 0)); [done|]);
    (destruct (unpack_nacks _ _ _ _ _) as [[b s1]|] eqn:E; [|done]);
    intros [= -> <-]; apply unpack_nacks_ack in E; rewrite E; cbn -[Z.lor Z.shiftl Z.shiftr Z.land].
  - apply (lor_range 12); [lia|..]; unfold in_range in *; bits; dlia.
  - repeat (apply (lor_range 18); [lia|..]); unfold in_range in *; bits; dlia.
Qed.

Lemma unpack_safe pdu s :
  Forall is_u8 pdu -> status_wf s ->
  exists b s', unpack pdu s = Ok (b, s') /\ status_wf s' /\ sp_sn_size s' = sp_sn_size s.
Proof.
  intros Hb Hs. destruct (unpack_cases pdu s) as [->|(s1 & Esz & Hwf & [->|Hu])].
  - by exists false, s.
  - exists false, s1. split; [done|]. split; [by apply Hwf|done].
  - destruct Hu as (b0 & b1 & b2 & rdr & e1 & -> & ->).
    destruct (unpack_nacks_total (sp_sn_size s) (S (length (b0 :: b1 :: b2 :: rdr))) e1 rdr s1)
      as [[b s'] Hr]; [cbn; lia|].
    rewrite Hr. exists b, s'. split; [done|]. repeat (apply Forall_cons in Hb as [_ Hb]).
    eapply unpack_nacks_wf; [exact Hb|by apply Hwf|done|exact Hr].
Qed.

(** Unpacking a status PDU is total: whatever bytes a peer sends, the parser
    returns without reading past the buffer, and leaves a well-formed status PDU
    whose cached size and NACK list satisfy the invariant. *)
Theorem unpack_total pdu s :
  Forall is_u8 pdu -> status_wf s ->
  exists b s', unpack pdu s = Ok (b, s') /\ status_wf s' /\ sp_sn_size s' = sp_sn_size s.
Proof. apply unpack_safe. Qed.

(** ** Round trip of the status PDU *)

Lemma push_nack_unmergeable s n l :
  sp_nacks s = l -> unmergeable s (l ++ [n]) -> sp_nacks (push_nack n s) = l ++ [n].
Proof.
  intros El Hu. rewrite push_nack_list, El. unfold push_list.
  apply unmergeable_app in Hu as (_ & _ & Hlast).
  destruct (last l) as [prev|] eqn:E.
  - by rewrite (Hlast prev n).
  - by apply last_None in E as ->.
Qed.

Lemma unpack_written_nacks sz l fuel s :
  Forall (nack_wf sz) l -> sp_sn_size s = sz -> unmergeable s (sp_nacks s ++ l) ->
  (length l < fuel)%nat -> l <> [] ->
  exists s', unpack_nacks (read_nack sz) fuel true (write_nacks (write_nack sz) l) s
             = Some (true, s') /\
    sp_nacks s' = sp_nacks s ++ l /\ sp_sn_size s' = sp_sn_size s /\
    sp_mod_nr s' = sp_mod_nr s /\ sp_ack_sn s' = sp_ack_sn s /\ sp_cpt s' = sp_cpt s /\
    (status_wf s -> status_wf s').
Proof.
  revert fuel s. induction l as [|n l IH]; intros fuel s Hl Hsz Hu Hf Hne; [done|].
  apply Forall_cons in Hl as [Hn Hl]. destruct fuel as [|fuel]; [cbn in Hf; lia|].
  cbn [unpack_nacks write_nacks]. rewrite read_write_nack by done.
  destruct (push_nack_fixed n s) as (Esz & Em & Ea & Ec).
  assert (sp_nacks (push_nack n s) = sp_nacks s ++ [n]) as En.
  { apply push_nack_unmergeable; [done|]. replace (n :: l) with ([n] ++ l) in Hu by done.
    rewrite app_assoc in Hu. by apply unmergeable_app in Hu as (? & _). }
  destruct l as [|n' l].
  { destruct fuel as [|fuel]; [cbn in Hf; lia|]. cbn. eexists; split_and!; try done.
    intros Hs. apply push_nack_wf; [done|congruence]. }
  destruct (IH fuel (push_nack n s)) as (s' & -> & Hn' & Hs' & Hm' & Ha' & Hc' & Hw'); try done.
  - congruence.
  - rewrite En, <- app_assoc. by eapply unmergeable_ext.
  - cbn in *; lia.
  - exists s'. rewrite Hn', Hs', Hm', Ha', Hc', En, <- app_assoc.
    split_and!; try done. intros Hs. apply Hw', push_nack_wf; [done|congruence].
Qed.

Lemma write_nack_length sz more n : zlen (write_nack sz more n) = nack_size (new_status_pdu sz) n.
Proof.
  destruct sz; unfold write_nack, write_nack_12bit, write_nack_18bit, write_nack_fields, nack_size;
    cbn [sp_sn_size new_status_pdu]; destruct (has_so n), (has_nack_range n); done.
Qed.

Lemma write_nacks_length sz l :
  zlen (write_nacks (write_nack sz) l) = nack_sizes (new_status_pdu sz) l.
Proof.
  induction l as [|n l IH]; [done|]. cbn [write_nacks nack_sizes].
  by rewrite zlen_app, write_nack_length, IH.
Qed.

Lemma pack_shape s :
  exists b0 b1 b2, pack s = b0 :: b1 :: b2 :: write_nacks (write_nack (sp_sn_size s)) (sp_nacks s).
Proof. unfold pack. destruct (sp_sn_size s); do 3 eexists; reflexivity. Qed.

Lemma pack_length s :
  status_wf s -> sizeof_header_ack_sn + nack_sizes s (sp_nacks s) < 2 ^ 32 ->
  zlen (pack s) = sp_packed_size s.
Proof.
  intros Hs Hlt. destruct (pack_shape s) as (b0 & b1 & b2 & ->).
  rewrite (swf_size _ Hs), wrap_small.
  - replace (b0 :: b1 :: b2 :: write_nacks (write_nack (sp_sn_size s)) (sp_nacks s))
      with ([b0; b1; b2] ++ write_nacks (write_nack (sp_sn_size s)) (sp_nacks s)) by done.
    rewrite zlen_app, write_nacks_length. by rewrite (nack_sizes_ext s).
  - pose proof (nack_sizes_range s (sp_nacks s)). unfold in_range, sizeof_header_ack_sn in *.
    unfold zlen in *. lia.
Qed.

Lemma ack_bytes_18 a b0 b2 (e : bool) :
  0 <= a < 262144 -> b0 = Z.lor 0 (Z.land (Z.shiftr a 14) 0x0f) ->
  b2 = a mod 64 * 4 + Z.b2z e * 2 ->
  Z.lor (Z.lor (Z.shiftl (b0 mod 16) 14)
               (Z.shiftl ((Z.shiftr a 6 mod 256) mod 256) 6))
        (Z.shiftr ((b2 / 4) mod 64 * 4) 2) = a.
Proof.
  intros Ha Hb0 Hb2. rewrite Z.lor_0_l in Hb0.
  assert (b0 = a / 16384) as -> by (rewrite Hb0; bits; dlia).
  assert (b2 / 4 = a mod 64) as -> by (pose proof (b2z_range e); dlia). clear -Ha. bits.
  match goal with |- Z.lor (Z.lor ?x _) _ = _ => rewrite (lor_disjoint 14 x) by dlia end.
  rewrite (lor_disjoint 6); dlia.
Qed.

Lemma ack_bytes_12 a :
  0 <= a < 4096 ->
  Z.lor (Z.shiftl (Z.land (Z.lor 0 (Z.land (Z.shiftr a 8) 0x0f)) 0x0f) 8)
        (Z.land (Z.land a 0xff) 0xff) = a.
Proof. intros Ha. rewrite Z.lor_0_l. bits. rewrite (lor_disjoint 8); dlia. Qed.

Lemma status_eq s s' :
  sp_sn_size s = sp_sn_size s' -> sp_mod_nr s = sp_mod_nr s' -> sp_nacks s = sp_nacks s' ->
  sp_packed_size s = sp_packed_size s' -> sp_cpt s = sp_cpt s' -> sp_ack_sn s = sp_ack_sn s' ->
  s = s'.
Proof. destruct s, s'; cbn. by intros -> -> -> -> -> ->. Qed.

(** Reading the NACK list back into an emptied status PDU. *)
Lemma unpack_nacks_roundtrip s s1 fuel :
  status_wf s -> status_wf s1 -> sp_nacks s1 = [] -> sp_sn_size s1 = sp_sn_size s ->
  sp_ack_sn s1 = sp_ack_sn s -> sp_cpt s1 = sp_cpt s ->
  (length (write_nacks (write_nack (sp_sn_size s)) (sp_nacks s)) < fuel)%nat ->
  unpack_nacks (read_nack (sp_sn_size s)) fuel (negb (nacks_empty s))
    (write_nacks (write_nack (sp_sn_size s)) (sp_nacks s)) s1 = Some (true, s).
Proof.
  intros Hs Hs1 En Esz Ea Ec Hf.
  assert (sp_mod_nr s1 = sp_mod_nr s) as Em.
  { by rewrite (swf_mod _ Hs), (swf_mod _ Hs1), Esz. }
  pose proof (swf_size _ Hs) as Ep. pose proof (swf_size _ Hs1) as Ep1.
  unfold nacks_empty. destruct (sp_nacks s) as [|n l] eqn:El.
  - destruct fuel; [cbn in Hf; lia|]. cbn. do 2 f_equal. apply status_eq; try congruence.
    rewrite Ep1, Ep, En. done.
  - cbn [negb]. destruct (unpack_written_nacks (sp_sn_size s) (n :: l) fuel s1) as
      (s' & -> & Hn' & Hsz' & Hm' & Ha' & Hc' & Hw'); try done.
    + rewrite <- El. apply Hs.
    + rewrite En. cbn [app]. eapply (unmergeable_ext s); [done|]. rewrite <- El. apply Hs.
    + pose proof (write_nacks_length (sp_sn_size s) (n :: l)) as Hlen.
      pose proof (nack_sizes_range (new_status_pdu (sp_sn_size s)) (n :: l)).
      unfold zlen in *. lia.
    + specialize (Hw' Hs1). rewrite En in Hn'. do 2 f_equal.
      apply status_eq; try congruence.
      * rewrite Hn', El. done.
      * rewrite (swf_size _ Hw'), Ep, Hn'. do 2 f_equal.
        apply nack_sizes_ext. congruence.
Qed.

(** The emptied status PDU with the fields of the fixed part. *)
Lemma status_head_wf sz s1 :
  sp_sn_size s1 = sz -> sp_mod_nr s1 = cardinality (am_to_number sz) -> sp_nacks s1 = [] ->
  sp_packed_size s1 = sizeof_header_ack_sn -> status_wf s1.
Proof. intros. apply (status_wf_ext (new_status_pdu sz)); done. Qed.

Lemma pack_unpack_12 s :
  status_wf s -> sp_sn_size s = am_size12bits -> sp_cpt s = status_pdu_cpt ->
  0 <= sp_ack_sn s < 4096 ->
  unpack_12bit (pack_12bit s) (new_status_pdu am_size12bits) = Ok (true, s).
Proof.
  intros Hs Esz Ecpt Ha. unfold pack_12bit. cbn [app]. unfold unpack_12bit. cbn [is_control_pdu].
  set (b0 := Z.lor 0 _). assert (0 <= b0 < 16) as Hb0 by (subst b0; rewrite Z.lor_0_l; bits; dlia).
  replace (Z.land (Z.shiftr b0 7) 1) with 0 by (bits; dlia).
  cbn [checked_bind Z.eqb dc_to_number negb]. cbv zeta.
  replace (Z.land (Z.shiftr b0 4) 7) with 0 by (bits; dlia).
  match goal with |- context [unpack_nacks _ _ _ _ ?x] => set (s1 := x) end.
  pose proof (unpack_nacks_roundtrip s s1) as Hrt. rewrite Esz in Hrt.
  cbn [read_nack write_nack] in Hrt. destruct (nacks_empty s) eqn:Ee.
  all: cbn [Z.eqb sp_cpt negb]; cbn -[unpack_nacks write_nacks s1]; rewrite Hrt; try done;
    first [by apply ack_bytes_12|cbn; lia|by eapply status_head_wf].
Qed.

Lemma pack_unpack_18 s :
  status_wf s -> sp_sn_size s = am_size18bits -> sp_cpt s = status_pdu_cpt ->
  0 <= sp_ack_sn s < 262144 ->
  unpack_18bit (pack_18bit s) (new_status_pdu am_size18bits) = Ok (true, s).
Proof.
  intros Hs Esz Ecpt Ha. unfold pack_18bit. cbn [app]. unfold unpack_18bit. cbn [is_control_pdu].
  set (b0 := Z.lor 0 _). assert (0 <= b0 < 16) as Hb0 by (subst b0; rewrite Z.lor_0_l; bits; dlia).
  replace (Z.land (Z.shiftr b0 7) 1) with 0 by (bits; dlia).
  cbn [checked_bind Z.eqb dc_to_number negb]. cbv zeta.
  replace (Z.land (Z.shiftr b0 4) 7) with 0 by (bits; dlia).
  set (b2 := Z.land (u32 _) _).
  assert (b2 = sp_ack_sn s mod 64 * 4) as Hb2 by (subst b2; bits; dlia).
  set (b2' := if negb (nacks_empty s) then _ else _).
  assert (b2' = sp_ack_sn s mod 64 * 4 + Z.b2z (negb (nacks_empty s)) * 2) as Hb2'.
  { subst b2'. rewrite Hb2. destruct (nacks_empty s); cbn [negb Z.b2z]; [lia|].
    rewrite (lor_disjoint 2); dlia. }
  pose proof (b2z_range (negb (nacks_empty s))).
  autorewrite with bits. rewrite (flag_test b2' 2 (negb (nacks_empty s))) by dlia.
  replace (b2' mod 2 =? 0) with true by (symmetry; apply Z.eqb_eq; dlia).
  match goal with |- context [unpack_nacks _ _ _ _ ?x] => set (s1 := x) end.
  assert (sp_ack_sn s1 = sp_ack_sn s) as Ea.
  { subst s1. unfold field_update. cbn -[Z.lor Z.land Z.shiftl Z.shiftr Z.modulo Z.div Z.mul b2' b0].
    by apply (ack_bytes_18 _ _ _ (negb (nacks_empty s))). }
  pose proof (unpack_nacks_roundtrip s s1) as Hrt. rewrite Esz in Hrt.
  cbn [read_nack write_nack] in Hrt.
  cbn -[unpack_nacks write_nacks s1 nacks_empty]; rewrite Hrt; try done;
    first [cbn; lia|by eapply status_head_wf].
Qed.

(** C38. Round trip of the status PDU: packing a well-formed status PDU takes
    exactly its cached size and unpacking the bytes gives the status PDU back, for
    both SN lengths. *)
Theorem status_roundtrip s :
  status_wf s -> sp_cpt s = status_pdu_cpt ->
  0 <= sp_ack_sn s < cardinality (am_to_number (sp_sn_size s)) ->
  sizeof_header_ack_sn + nack_sizes s (sp_nacks s) < 2 ^ 32 ->
  unpack (pack s) (new_status_pdu (sp_sn_size s)) = Ok (true, s) /\
  zlen (pack s) = sp_packed_size s.
Proof.
  intros Hs Hc Ha Hlt. split; [|by apply pack_length].
  unfold unpack, pack. destruct (sp_sn_size s) eqn:Esz; cbn [sp_sn_size new_status_pdu].
  - by apply pack_unpack_12.
  - by apply pack_unpack_18.
Qed.

(** ** What a NACK list reports missing *)

Definition nack_len (n : rlc_am_status_nack) : Z :=
  if has_nack_range n then nack_range n else 1.

(** Byte [off] of the SDU with number [sn] is among the bytes a NACK reports. *)
Definition nack_covers (m : Z) (n : rlc_am_status_nack) (sn off : Z) : bool :=
  let i := (sn - nack_sn n) mod m in
  (i <? nack_len n) &&
  (negb (has_so n) ||
   (negb (i =? 0) || (so_start n <=? off)) &&
   (negb (i =? nack_len n - 1) || (off <=? so_end n))).

Definition nacks_cover (m : Z) (l : list rlc_am_status_nack) (sn off : Z) : bool :=
  existsb (fun n => nack_covers m n sn off) l.

Definition status_covers (s : rlc_am_status_pdu) (sn off : Z) : bool :=
  nacks_cover (sp_mod_nr s) (sp_nacks s) sn off.

Lemma merge_covers s sz prev nack sn off :
  sp_mod_nr s = cardinality (am_to_number sz) ->
  nack_wf sz prev -> nack_wf sz nack -> 0 < nack_len prev -> 0 < nack_len nack ->
  can_be_merged s prev nack = true -> 0 <= sn < sp_mod_nr s -> is_u16 off ->
  nack_covers (sp_mod_nr s) (merge_nack prev nack) sn off =
  nack_covers (sp_mod_nr s) prev sn off || nack_covers (sp_mod_nr s) nack sn off.
Proof.
  intros Hm Hp Hn Hlp Hln Hmg Hsn Hoff.
  destruct (merge_nack_wf _ _ _ _ Hp Hn Hmg) as (_ & Esn & Erg & Er & Eso & Es & Ee).
  pose proof (nwf_sn _ _ Hp) as Hpsn. pose proof (nwf_range _ _ Hp) as Hpr.
  pose proof (nwf_range _ _ Hn) as Hnr.
  pose proof (nwf_no_so _ _ Hp) as Hpso. pose proof (nwf_no_so _ _ Hn) as Hnso.
  rewrite <- Hm in Hpsn.
  assert (4096 <= sp_mod_nr s <= 262144) as Hmr by (destruct (cardinality_am sz); lia).
  clear Hm Hp Hn. unfold can_be_merged in Hmg. remember (sp_mod_nr s) as m eqn:Em. clear Em.
  repeat match type of Hmg with (if ?b then _ else _) = _ => destruct b eqn:?; [done|] end.
  zbool.
  assert (nack_sn nack = (nack_sn prev + nack_len prev) mod m) as Enack.
  { unfold nack_len, in_range in *. destruct (has_nack_range prev); rewrite wrap_small in *;
      unfold in_range; try done; lia. }
  unfold nack_covers. rewrite Esn, Eso, Es, Ee.
  assert (nack_len (merge_nack prev nack) = nack_len prev + nack_len nack) as ->.
  { unfold nack_len. by rewrite Erg, Er. }
  set (i := (sn - nack_sn prev) mod m).
  assert ((sn - nack_sn nack) mod m = (i - nack_len prev) mod m) as ->.
  { rewrite Enack. unfold i. rewrite Zminus_mod_idemp_r, Zminus_mod_idemp_l. f_equal. lia. }
  assert (0 <= i < m) as Hi by (apply Z.mod_pos_bound; lia).
  assert (nack_len prev <= 255 /\ nack_len nack <= 255) as [? ?].
  { unfold nack_len, in_range in *. destruct (has_nack_range prev), (has_nack_range nack); lia. }
  unfold in_range, so_end_of_sdu in *.
  clear Heqb Enack Esn Erg Er Eso Es Ee Hmg. clearbody i.
  assert ((i - nack_len prev) mod m =
          if decide (i < nack_len prev) then i - nack_len prev + m else i - nack_len prev) as ->.
  { case_decide; [rewrite <- (Z_mod_plus_full _ 1), Z.mul_1_l|]; apply Z.mod_small; lia. }
  destruct (has_so prev), (has_so nack); cbn [andb orb negb] in *; zbool;
    try (destruct (Hpso eq_refl)); try (destruct (Hnso eq_refl));
    case_decide; pow_consts; lia.
Qed.

(** Meaning of insertion: pushing a NACK adds exactly its missing bytes to
    those the status PDU reports, whether it is appended or merged into the
    previous NACK, and keeps the invariant. *)
Theorem push_nack_covers nack s sn off :
  status_wf s -> nack_wf (sp_sn_size s) nack ->
  Forall (fun n => 0 < nack_len n) (nack :: sp_nacks s) ->
  0 <= sn < sp_mod_nr s -> is_u16 off ->
  status_wf (push_nack nack s) /\
  status_covers (push_nack nack s) sn off =
  status_covers s sn off || nack_covers (sp_mod_nr s) nack sn off.
Proof.
  intros Hs Hn Hpos Hsn Hoff. split; [by apply push_nack_wf|].
  apply Forall_cons in Hpos as [Hlen Hpos].
  unfold status_covers. destruct (push_nack_fixed nack s) as (_ & -> & _ & _).
  rewrite push_nack_list. unfold push_list, nacks_cover.
  destruct (last (sp_nacks s)) as [prev|] eqn:El.
  - pose proof (last_split _ _ El) as E. destruct (can_be_merged s prev nack) eqn:Hm.
    + pose proof (swf_nacks _ Hs) as Hw. rewrite E in Hw, Hpos.
      apply Forall_app in Hw as [_ Hw]. apply Forall_cons in Hw as [Hw _].
      apply Forall_app in Hpos as [_ Hpos]. apply Forall_cons in Hpos as [Hpp _].
      rewrite E at 2. rewrite !existsb_app; cbn [existsb]. rewrite !orb_false_r.
      rewrite (merge_covers s (sp_sn_size s)) by (try done; apply Hs).
      by rewrite orb_assoc.
    + rewrite existsb_app; cbn [existsb]. by rewrite orb_false_r.
  - apply last_None in El as ->. cbn. by rewrite orb_false_r.
Qed.

(** ** Trimming to a grant *)

(** One iteration of the loop. *)
Definition pop_nack (back : rlc_am_status_nack) (l : list rlc_am_status_nack)
    (s : rlc_am_status_pdu) : rlc_am_status_pdu :=
  s <| sp_packed_size ::= fun n => u32 (n - nack_size s back) |>
    <| sp_ack_sn := nack_sn back |> <| sp_nacks := l |>.

Lemma pop_nack_wf back l s :
  status_wf s -> sp_nacks s = l ++ [back] -> status_wf (pop_nack back l s).
Proof.
  intros [Hm Hn Hu Hp] El. rewrite El in Hn, Hu, Hp.
  apply Forall_app in Hn as [Hn _]. apply unmergeable_app in Hu as (Hu & _).
  split; cbn -[wrap nack_size nack_sizes]; try done.
  - eapply (unmergeable_ext s); [done|exact Hu].
  - rewrite Hp, wrap_sub_l by lia. f_equal. rewrite nack_sizes_app.
    rewrite (nack_sizes_ext s (pop_nack back l s)) by done. cbn. lia.
Qed.

(** What the loop guarantees about the status PDU it returns. *)
Definition trimmed (max : Z) (s s' : rlc_am_status_pdu) (removed : list rlc_am_status_nack) : Prop :=
  sp_nacks s = sp_nacks s' ++ removed /\
  sp_ack_sn s' = match removed with n :: _ => nack_sn n | [] => sp_ack_sn s end /\
  (forall n, last (sp_nacks s') = Some n -> nack_sn n <> sp_ack_sn s') /\
  match removed with
  | n :: r => max < sizeof_header_ack_sn + nack_sizes s (sp_nacks s' ++ [n]) \/
              nack_sn n = match r with n' :: _ => nack_sn n' | [] => sp_ack_sn s end
  | [] => True
  end.

Lemma trim_loop_spec max rnacks s :
  status_wf s -> sp_nacks s = rev rnacks ->
  sizeof_header_ack_sn + nack_sizes s (sp_nacks s) < 2 ^ 32 -> sizeof_header_ack_sn <= max ->
  let s' := trim_loop max rnacks s in
  status_wf s' /\ sp_packed_size s' <= max /\ sp_sn_size s' = sp_sn_size s /\
  exists removed, trimmed max s s' removed.
Proof.
  revert s. induction rnacks as [|back rn IH]; intros s Hs El Hlt Hmax; cbn [trim_loop]; cbv zeta.
  - cbn in El. split_and!; try done.
    + rewrite (swf_size _ Hs), El. cbn. unfold sizeof_header_ack_sn in *. by rewrite wrap_small.
    + exists []. unfold trimmed. rewrite El. cbn. by split_and!.
  - cbn [rev] in El.
    assert (sp_packed_size s = sizeof_header_ack_sn + nack_sizes s (sp_nacks s)) as Ep.
    { rewrite (swf_size _ Hs). apply wrap_small. pose proof (nack_sizes_range s (sp_nacks s)).
      unfold in_range, sizeof_header_ack_sn, zlen in *. lia. }
    destruct ((max <? sp_packed_size s) || (nack_sn back =? sp_ack_sn s)) eqn:Hc.
    + change (let s' := trim_loop max rn (pop_nack back (rev rn) s) in
        status_wf s' /\ sp_packed_size s' <= max /\ sp_sn_size s' = sp_sn_size s /\
        exists removed, trimmed max s s' removed).
      destruct (IH (pop_nack back (rev rn) s)) as (Hw & Hp & Hz & removed & E1 & E2 & E3 & E4).
      * by apply pop_nack_wf.
      * done.
      * cbn -[nack_sizes]. rewrite (nack_sizes_ext s (pop_nack back (rev rn) s)) by done.
        rewrite El, nack_sizes_app in Hlt. cbn in Hlt. pose proof (nack_size_range s back). lia.
      * done.
      * intros s'. split_and!; try done. exists (removed ++ [back]). cbn in E1. unfold trimmed.
        split_and!; [by rewrite El, E1, app_assoc| |done|].
        -- destruct removed; [|done]. exact E2.
        -- destruct removed as [|n r]; cbn.
           ++ rewrite app_nil_r in E1. apply orb_true_iff in Hc as [Hc|Hc]; zbool; [left|by right].
              fold s' in E1. rewrite <- E1, <- El. lia.
           ++ rewrite (nack_sizes_ext s (pop_nack back (rev rn) s)) in E4 by done.
              destruct E4 as [E4|E4]; [by left|right]. by destruct r.
    + apply orb_false_iff in Hc as [Hc1 Hc2]. zbool. split_and!; try done.
      exists []. unfold trimmed. rewrite app_nil_r. split_and!; try done.
      intros n. rewrite El, last_snoc. intros [= ->]. done.
Qed.

Lemma trim_cases max s :
  status_wf s -> sizeof_header_ack_sn + nack_sizes s (sp_nacks s) < 2 ^ 32 ->
  let '(ok, s') := trim max s in
  ok = ((sp_packed_size s <=? max) || (sizeof_header_ack_sn <=? max)) /\
  (ok = false -> s' = s) /\
  (ok = true -> zlen (pack s') <= max /\ status_wf s' /\
     (s' = s \/ exists removed, trimmed max s s' removed)).
Proof.
  intros Hs Hlt. unfold trim. destruct (sp_packed_size s <=? max) eqn:E1; zbool.
  { split; [done|]. split; [done|]. intros _. rewrite pack_length by done. by auto. }
  destruct (max <? sizeof_header_ack_sn) eqn:E2; zbool.
  { rewrite (proj2 (Z.leb_gt _ _)) by done. by split_and!. }
  rewrite (proj2 (Z.leb_le _ _)) by done. split; [done|]. split; [done|]. intros _.
  destruct (trim_loop_spec max (rev (sp_nacks s)) s) as (Hw & Hp & Hz & removed & Ht);
    rewrite ?rev_involutive; try done.
  rewrite pack_length; [by eauto 6|done|].
  destruct Ht as (E & _). rewrite E, nack_sizes_app in Hlt. rewrite (nack_sizes_ext s) by done.
  pose proof (nack_sizes_range s removed). unfold zlen in *. lia.
Qed.

(** Trimming to a grant: it fails, changing nothing, exactly when not even
    the fixed part fits; otherwise the packed PDU fits the grant, the NACKs kept
    are a prefix of the list, ACK_SN becomes the number of the first removed NACK
    and no NACK kept starts at it, and no NACK was removed without need. *)
Theorem trim_spec max s :
  status_wf s -> sizeof_header_ack_sn + nack_sizes s (sp_nacks s) < 2 ^ 32 ->
  let '(ok, s') := trim max s in
  ok = ((sp_packed_size s <=? max) || (sizeof_header_ack_sn <=? max)) /\
  (ok = false -> s' = s) /\
  (ok = true -> zlen (pack s') <= max /\ status_wf s' /\
     (s' = s \/ exists removed, trimmed max s s' removed)).
Proof. apply trim_cases. Qed.

(** The NACKs of SDUs 5 and 6, missing as a whole, and of the two gaps of SDU 7, in
    the order the receiving entity pushes them. *)
Definition ex_nacks : list rlc_am_status_nack :=
  [ nack_default <| nack_sn := 5 |>; nack_default <| nack_sn := 6 |>;
    mk_rlc_am_status_nack 7 true 0 99 false 0;
    mk_rlc_am_status_nack 7 true 200 so_end_of_sdu false 0 ].
Definition ex_pushed : rlc_am_status_pdu :=
  foldl (fun s n => push_nack n s) (new_status_pdu am_size12bits) ex_nacks <| sp_ack_sn := 9 |>.
Definition ex_status : rlc_am_status_pdu :=
  mk_rlc_am_status_pdu am_size12bits 4096
    [ mk_rlc_am_status_nack 5 true 0 99 true 3;
      mk_rlc_am_status_nack 7 true 200 65535 false 0 ] 16 0 9.

(** A NACK range that ends inside an SDU escapes the clean up of the trimming
    loop: the loop compares ACK_SN with the first number of the last NACK only, so
    the trimmed status PDU can report bytes of the very SDU its ACK_SN names. *)
Theorem trim_ack_inside_nack_range :
  ex_pushed = ex_status /\
  let '(ok, s') := trim 12 ex_status in
  ok = true /\ sp_ack_sn s' = 7 /\ status_covers s' (sp_ack_sn s') 50 = true.
Proof. by vm_compute. Qed.

Lemma ex_status_wf : status_wf ex_status.
Proof.
  split; [done| |by vm_compute|by vm_compute].
  repeat apply Forall_cons_2; [..|apply Forall_nil_2];
    (constructor; cbn; unfold in_range, so_end_of_sdu, cardinality; cbn; by try lia).
Qed.

(** ** Witnesses *)

Definition ex_header : rlc_am_pdu_header :=
  mk_rlc_am_pdu_header dc_data 1 middle_segment am_size18bits 200001 1500.

Lemma am_header_roundtrip_witness :
  rlc_am_read_data_pdu_header (rlc_am_write_data_pdu_header ex_header ++ [7; 8])
    am_size18bits am_header_zero = Some ex_header.
Proof.
  apply (am_header_roundtrip ex_header [7; 8]); [|done].
  constructor; cbn; unfold in_range, cardinality; cbn; lia || done.
Defined.

Lemma unpack_total_witness :
  exists b s', unpack [15; 255; 128; 1] (new_status_pdu am_size12bits) = Ok (b, s') /\
    status_wf s'.
Proof.
  destruct (unpack_total [15; 255; 128; 1] (new_status_pdu am_size12bits))
    as (b & s' & H & Hw & _); [|apply new_status_pdu_wf|by exists b, s'].
  repeat (apply Forall_cons_2; [unfold in_range; lia|]). apply Forall_nil_2.
Defined.

Lemma status_roundtrip_witness :
  unpack (pack ex_status) (new_status_pdu am_size12bits) = Ok (true, ex_status).
Proof.
  apply (status_roundtrip ex_status ex_status_wf); [done|vm_compute; intuition congruence|done].
Defined.

Lemma push_nack_covers_witness :
  status_covers (push_nack (nack_default <| nack_sn := 8 |>) ex_status) 8 1000 = true.
Proof.
  rewrite (proj2 (push_nack_covers (nack_default <| nack_sn := 8 |>) ex_status 8 1000
    ex_status_wf ltac:(constructor; cbn; unfold in_range, so_end_of_sdu; by try lia)
    ltac:(repeat (apply Forall_cons_2; [by vm_compute|]); apply Forall_nil_2)
    ltac:(vm_compute; intuition congruence) ltac:(unfold in_range; lia))).
  by vm_compute.
Defined.

Lemma trim_spec_witness :
  let '(ok, s') := trim 12 ex_status in zlen (pack s') <= 12 /\ status_wf s'.
Proof.
  pose proof (trim_spec 12 ex_status ex_status_wf ltac:(by vm_compute)) as H.
  destruct (trim 12 ex_status) as [ok s'] eqn:E. destruct H as (Hok & _ & H).
  destruct H as (H1 & H2 & _); [|by split]. rewrite Hok. by vm_compute.
Defined.
