(* ===== verification/SduWindow.v ===== *)
(** * SDU window over a circular map

    Models the circular map of [src/include/srsran/adt/circular_map.h] (in the
    power-of-two configuration the windows use) and the window of
    [src/include/srsran/support/sdu_window.h] built on it, and states the interface
    the RLC entities rely on: within a window no larger than the capacity, distinct
    sequence numbers never evict each other. *)
From stdpp Require Import base numbers gmap list.
From Stdlib Require Import ZArith Lia.
From S2P Require Import Prelude.

Set Default Goal Selector "!".
Open Scope Z_scope.
Open Scope ran_scope.

(** ** Circular map

    [data] is a vector of optional (key, object) slots: the present slots, by
    index. *)
Record circular_map (V : Type) := mk_circular_map {
  cm_capacity : Z;
  cm_data : gmap Z (Z * V);
  cm_count : Z;
}.
Arguments mk_circular_map {V}.
Arguments cm_capacity {V}.
Arguments cm_data {V}.
Arguments cm_count {V}.
#[export] Instance circular_map_eta V : RecordEta (circular_map V) := fun r =>
  mk_circular_map (cm_capacity r) (cm_data r) (cm_count r).

Section circular_map.
Context {V : Type}.
Implicit Types m : circular_map V.

(** Construction fails fatally when the size is not a power of two. *)
Definition cm_new (size : Z) : checked (circular_map V) :=
  assert? Z.land size (size - 1) =? 0; Ok (mk_circular_map size ∅ 0).

Definition get_circular_idx m (idx : Z) : Z := Z.land idx (cm_capacity m - 1).

Definition cm_contains m (key : Z) : bool :=
  match cm_data m !! get_circular_idx m key with
  | Some (k, _) => k =? key
  | None => false
  end.

(** [false] when the slot is taken. *)
Definition cm_insert (key : Z) (obj : V) m : bool * circular_map V :=
  let idx := get_circular_idx m key in
  match cm_data m !! idx with
  | Some _ => (false, m)
  | None => (true, m <| cm_data ::= <[idx := (key, obj)]> |> <| cm_count ::= Z.add 1 |>)
  end.

Definition cm_erase (key : Z) m : bool * circular_map V :=
  if negb (cm_contains m key) then (false, m) else
  let idx := get_circular_idx m key in
  (true, m <| cm_data ::= delete idx |> <| cm_count ::= fun n => n - 1 |>).

(** The previous occupant of the slot is erased first. *)
Definition cm_overwrite (key : Z) (obj : V) m : circular_map V :=
  let m := match cm_data m !! get_circular_idx m key with
           | Some (k, _) => (cm_erase k m).2
           | None => m
           end in
  (cm_insert key obj m).2.

(** [operator[]], which asserts that the key is contained: reading, and writing
    through the reference it returns. *)
Definition cm_at m (key : Z) : checked V :=
  assert? cm_contains m key;
  match cm_data m !! get_circular_idx m key with
  | Some (_, v) => Ok v
  | None => Panic
  end.

Definition cm_write (key : Z) (v : V) m : checked (circular_map V) :=
  assert? cm_contains m key;
  Ok (m <| cm_data ::= <[get_circular_idx m key := (key, v)]> |>).

Definition cm_size m : Z := cm_count m.
Definition cm_empty m : bool := cm_size m =? 0.
Definition cm_full m : bool := cm_size m =? cm_capacity m.
Definition cm_clear m : circular_map V := m <| cm_data := ∅ |> <| cm_count := 0 |>.
End circular_map.

(** ** Window interface

    The operations of [sdu_window] the entities use. *)
Class SduWindow (W : Type -> Type) : Type := {
  win_make {T} : Z -> checked (W T);
  win_cap {T} : W T -> Z;
  has_sn {T} : W T -> Z -> bool;
  win_at {T} : W T -> Z -> checked T;
  win_write {T} : Z -> T -> W T -> checked (W T);
  add_sn {T} : T -> Z -> W T -> checked (W T);
  remove_sn {T} : Z -> W T -> checked (W T);
  win_size {T} : W T -> Z;
  win_full {T} : W T -> bool;
  win_clear {T} : W T -> W T;
}.

(** What a window holds for a sequence number. *)
Definition win_view `{SduWindow W} {T} (w : W T) (sn : Z) : option T :=
  match win_at w sn with Ok v => Some v | Panic => None end.

(** [sdu_window]: the object added is the default value of its type, returned by
    reference; here it is the first argument of [add_sn]. *)
#[export] Instance sdu_window : SduWindow circular_map := {
  win_make T size := cm_new size;
  win_cap T w := cm_capacity w;
  has_sn T w sn := cm_contains w sn;
  win_at T w sn := cm_at w sn;
  win_write T sn v w := cm_write sn v w;
  add_sn T v sn w := if cm_contains w sn then Panic else Ok (cm_overwrite sn v w);
  remove_sn T sn w := if negb (cm_contains w sn) then Panic else Ok (cm_erase sn w).2;
  win_size T w := cm_size w;
  win_full T w := cm_full w;
  win_clear T w := cm_clear w;
}.

(** What the window promises to an entity. *)
Class SduWindowLaws (W : Type -> Type) `{SduWindow W} : Type := {
  win_wf {T} : W T -> Prop;
  win_make_spec {T} n : 0 <= n -> exists w : W T,
    win_make (2 ^ n) = Ok w /\ win_wf w /\ win_cap w = 2 ^ n /\ win_size w = 0 /\
    forall sn, win_view w sn = None;
  win_cap_pos {T} (w : W T) : win_wf w -> 0 < win_cap w;
  has_sn_spec {T} (w : W T) sn : has_sn w sn = true <-> is_Some (win_view w sn);
  add_sn_spec {T} (w : W T) sn v : win_wf w -> win_view w sn = None -> exists w',
    add_sn v sn w = Ok w' /\ win_wf w' /\ win_cap w' = win_cap w /\
    win_view w' sn = Some v /\
    forall sn', sn' <> sn -> win_view w' sn' =
      if decide (sn' mod win_cap w = sn mod win_cap w) then None else win_view w sn';
  win_write_spec {T} (w : W T) sn v : win_wf w -> is_Some (win_view w sn) -> exists w',
    win_write sn v w = Ok w' /\ win_wf w' /\ win_cap w' = win_cap w /\
    win_view w' sn = Some v /\ forall sn', sn' <> sn -> win_view w' sn' = win_view w sn';
  remove_sn_spec {T} (w : W T) sn : win_wf w -> is_Some (win_view w sn) -> exists w',
    remove_sn sn w = Ok w' /\ win_wf w' /\ win_cap w' = win_cap w /\
    win_view w' sn = None /\ forall sn', sn' <> sn -> win_view w' sn' = win_view w sn';
  win_size_spec {T} (w : W T) : win_wf w -> exists l,
    NoDup l /\ (forall sn, sn ∈ l <-> is_Some (win_view w sn)) /\ win_size w = zlen l;
  win_full_spec {T} (w : W T) : win_full w = (win_size w =? win_cap w);
  win_clear_spec {T} (w : W T) : win_wf w ->
    win_wf (win_clear w) /\ win_cap (win_clear w) = win_cap w /\ forall sn, win_view (win_clear w) sn = None;
}.

Section window_view.
Context {W : Type -> Type} `{!SduWindow W} `{!SduWindowLaws W} {T : Type}.
Implicit Types w : W T.

Lemma win_at_view w sn info : win_view w sn = Some info -> win_at w sn = Ok info.
Proof. unfold win_view. destruct (win_at w sn); congruence. Qed.

Lemma has_sn_view w sn : has_sn w sn = match win_view w sn with Some _ => true | None => false end.
Proof.
  pose proof (has_sn_spec w sn) as Hs. destruct (win_view w sn), (has_sn w sn); try done.
  - by apply Hs.
  - by destruct (proj1 Hs eq_refl).
Qed.
End window_view.

(** ** The circular map keeps the promise *)

Record cm_wf {V} (m : circular_map V) : Prop := {
  cwf_cap : exists n, 0 <= n /\ cm_capacity m = 2 ^ n;
  cwf_idx : map_Forall (fun i kv => i = get_circular_idx m kv.1) (cm_data m);
  cwf_count : cm_count m = Z.of_nat (size (cm_data m));
}.

Section circular_map_laws.
Context {V : Type}.
Implicit Types m : circular_map V.

Lemma get_circular_idx_mod m k :
  cm_wf m -> get_circular_idx m k = k mod cm_capacity m.
Proof.
  intros [(n & Hn & E) _ _]. unfold get_circular_idx. rewrite E.
  rewrite <- Z.land_ones by done. by rewrite Z.ones_equiv.
Qed.

Lemma cm_view_spec m k :
  win_view m k = match cm_data m !! get_circular_idx m k with
                 | Some (k', v) => if k' =? k then Some v else None
                 | None => None
                 end.
Proof.
  unfold win_view; cbn. unfold cm_at, cm_contains.
  destruct (cm_data m !! get_circular_idx m k) as [[k' v]|]; [|done]. by destruct (k' =? k).
Qed.

Lemma cm_contains_view m k : cm_contains m k = true <-> is_Some (win_view m k).
Proof.
  rewrite cm_view_spec. unfold cm_contains.
  destruct (cm_data m !! get_circular_idx m k) as [[k' v]|].
  - destruct (k' =? k); split; try done.
  - split; [done|]. by intros [? ?].
Qed.

(** Updating one slot: the effect on the view, and on the other keys. *)
Lemma cm_view_slot m m' (k : Z) (slot : option (Z * V)) :
  cm_wf m -> cm_capacity m' = cm_capacity m ->
  cm_data m' = partial_alter (fun _ => slot) (get_circular_idx m k) (cm_data m) ->
  forall k', win_view m' k' =
    if decide (k' mod cm_capacity m = k mod cm_capacity m)
    then match slot with Some (ks, v) => if ks =? k' then Some v else None | None => None end
    else win_view m k'.
Proof.
  intros Hm Hc Hd k'. rewrite !cm_view_spec.
  assert (get_circular_idx m' k' = get_circular_idx m k') as -> by (unfold get_circular_idx; by rewrite Hc).
  rewrite Hd, !get_circular_idx_mod by done. case_decide as E.
  - by rewrite E, lookup_partial_alter_eq.
  - by rewrite lookup_partial_alter_ne by congruence.
Qed.

Lemma cm_wf_slot m m' k (slot : option (Z * V)) :
  cm_wf m -> cm_capacity m' = cm_capacity m ->
  cm_data m' = partial_alter (fun _ => slot) (get_circular_idx m k) (cm_data m) ->
  match slot with Some (ks, _) => ks = k | None => True end ->
  cm_count m' = Z.of_nat (size (cm_data m')) -> cm_wf m'.
Proof.
  intros Hm Hc Hd Hs Hn. split; [rewrite Hc; apply Hm| |done].
  intros i [k0 v0] Hi. rewrite Hd in Hi. unfold get_circular_idx. rewrite Hc. cbn.
  apply lookup_partial_alter_Some in Hi as [[<- Hi]|[_ Hi]].
  - subst slot. by subst k0.
  - by apply (cwf_idx _ Hm) in Hi.
Qed.

Lemma cm_overwrite_spec m k v :
  cm_wf m ->
  let m' := cm_overwrite k v m in
  cm_capacity m' = cm_capacity m /\
  cm_data m' = partial_alter (fun _ => Some (k, v)) (get_circular_idx m k) (cm_data m) /\
  cm_count m' = Z.of_nat (size (cm_data m')).
Proof.
  intros Hm. unfold cm_overwrite.
  destruct (cm_data m !! get_circular_idx m k) as [[k0 v0]|] eqn:E.
  - assert (get_circular_idx m k0 = get_circular_idx m k) as Ei.
    { by apply (cwf_idx _ Hm) in E. }
    unfold cm_erase, cm_contains. rewrite Ei, E, Z.eqb_refl. cbn [negb snd].
    unfold cm_insert. cbn -[get_circular_idx].
    change (get_circular_idx _ k) with (get_circular_idx m k).
    rewrite lookup_delete_eq. cbn. split_and!; [done|by rewrite insert_delete_eq|].
    change (Z.land k (cm_capacity m - 1)) with (get_circular_idx m k) in *.
    rewrite map_size_insert_None by apply lookup_delete_eq.
    rewrite map_size_delete_Some by by eexists. rewrite (cwf_count _ Hm).
    assert (size (cm_data m) <> 0%nat) by (intros Hz%map_size_empty_inv; by rewrite Hz in E).
    lia.
  - unfold cm_insert. rewrite E. cbn. split_and!; [done|done|].
    rewrite map_size_insert_None by done. rewrite (cwf_count _ Hm). lia.
Qed.

Lemma cm_erase_spec m k :
  cm_wf m -> is_Some (win_view m k) ->
  let m' := (cm_erase k m).2 in
  cm_capacity m' = cm_capacity m /\
  cm_data m' = partial_alter (fun _ => None) (get_circular_idx m k) (cm_data m) /\
  cm_count m' = Z.of_nat (size (cm_data m')).
Proof.
  intros Hm Hk. unfold cm_erase. apply cm_contains_view in Hk as Hc. rewrite Hc. cbn.
  split_and!; [done|done|]. unfold cm_contains in Hc.
  destruct (cm_data m !! get_circular_idx m k) as [kv|] eqn:E; [|done].
  rewrite map_size_delete_Some by by eexists. rewrite (cwf_count _ Hm).
  assert (size (cm_data m) <> 0%nat) by (intros Hz%map_size_empty_inv; by rewrite Hz in E).
  lia.
Qed.

(** Keys that share the slot of a present key are absent. *)
Lemma cm_view_collision m k k' :
  cm_wf m -> is_Some (win_view m k) -> k' <> k ->
  k' mod cm_capacity m = k mod cm_capacity m -> win_view m k' = None.
Proof.
  intros Hm [v Hv] Hne E. rewrite cm_view_spec, get_circular_idx_mod in * by done. rewrite E.
  destruct (cm_data m !! (k mod cm_capacity m)) as [[k0 v0]|]; [|done].
  destruct (k0 =? k) eqn:E0; [|done]. zbool. subst. by rewrite (proj2 (Z.eqb_neq _ _)).
Qed.
End circular_map_laws.

#[export] Program Instance sdu_window_laws : SduWindowLaws circular_map := {
  win_wf T m := cm_wf m;
}.
Next Obligation.
  intros T n Hn. assert (0 < 2 ^ n) by lia.
  exists (mk_circular_map (2 ^ n) ∅ 0). cbn. unfold cm_new.
  replace (Z.land (2 ^ n) (2 ^ n - 1)) with 0.
  - split_and!; try done. split; [by exists n|by apply map_Forall_empty|done].
  - rewrite <- Z.ones_equiv || idtac. symmetry.
    replace (2 ^ n - 1) with (Z.ones n) by (rewrite Z.ones_equiv; lia).
    rewrite Z.land_ones by done. by apply Z_mod_same_full.
Qed.
Next Obligation. intros T w [(n & Hn & E) _ _]. cbn. rewrite E. lia. Qed.
Next Obligation. intros T w sn. apply cm_contains_view. Qed.
Next Obligation.
  intros T w sn v Hw Hn. cbn. exists (cm_overwrite sn v w).
  destruct (cm_contains w sn) eqn:Hc.
  { apply cm_contains_view in Hc as [? Hc]. by rewrite Hn in Hc. }
  destruct (cm_overwrite_spec w sn v Hw) as (Hcap & Hd & Hcount).
  pose proof (cm_view_slot w (cm_overwrite sn v w) sn (Some (sn, v)) Hw Hcap Hd) as Hv.
  split_and!; [done|by eapply cm_wf_slot|done| |].
  - rewrite Hv, decide_True by done. by rewrite Z.eqb_refl.
  - intros sn' Hne. rewrite Hv. case_decide; [|done]. by rewrite (proj2 (Z.eqb_neq _ _)).
Qed.
Next Obligation.
  intros T w sn v Hw Hs. cbn. unfold cm_write.
  rewrite (proj2 (cm_contains_view w sn) Hs). eexists. split; [done|].
  match goal with |- cm_wf ?x /\ _ => set (w' := x) end.
  assert (cm_count w' = Z.of_nat (size (cm_data w'))) as Hcount.
  { destruct (cm_data w !! get_circular_idx w sn) as [kv|] eqn:E.
    - cbn. rewrite map_size_insert_Some by by eexists. apply Hw.
    - apply cm_contains_view in Hs. unfold cm_contains in Hs. by rewrite E in Hs. }
  pose proof (cm_view_slot w w' sn (Some (sn, v)) Hw eq_refl eq_refl) as Hv.
  split_and!; [by eapply cm_wf_slot|done| |].
  - rewrite Hv, decide_True by done. by rewrite Z.eqb_refl.
  - intros sn' Hne. rewrite Hv. case_decide as E; [|done].
    rewrite (proj2 (Z.eqb_neq _ _)) by done. symmetry. by eapply cm_view_collision.
Qed.
Next Obligation.
  intros T w sn Hw Hs. cbn. rewrite (proj2 (cm_contains_view w sn) Hs). cbn.
  eexists. split; [done|].
  destruct (cm_erase_spec w sn Hw Hs) as (Hcap & Hd & Hcount).
  pose proof (cm_view_slot w (cm_erase sn w).2 sn None Hw Hcap Hd) as Hv.
  split_and!; [by eapply cm_wf_slot|done| |].
  - by rewrite Hv, decide_True.
  - intros sn' Hne. rewrite Hv. case_decide as E; [|done].
    symmetry. by eapply cm_view_collision.
Qed.
Next Obligation.
  intros T w Hw. exists ((map_to_list (cm_data w)).*2.*1).
  assert (forall i kv, cm_data w !! i = Some kv -> i = get_circular_idx w kv.1) as Hidx.
  { intros i kv Hi. by apply (cwf_idx _ Hw) in Hi. }
  split_and!.
  - pose proof (NoDup_fst_map_to_list (cm_data w)) as Hnd.
    assert (forall i kv, (i, kv) ∈ map_to_list (cm_data w) -> i = get_circular_idx w kv.1) as Hin.
    { intros i kv Hi%elem_of_map_to_list. by apply Hidx. }
    induction (map_to_list (cm_data w)) as [|[i kv] l IH]; [constructor|]. cbn in *.
    apply NoDup_cons in Hnd as [Hi Hnd]. apply NoDup_cons. split.
    + intros ([k v] & E & ([j kv'] & Ekv & Hj)%list_elem_of_fmap)%list_elem_of_fmap. cbn in *. subst kv'.
      apply Hi. apply list_elem_of_fmap. exists (j, (k, v)). split; [|done]. cbn.
      rewrite (Hin i kv), (Hin j (k, v)) by (apply elem_of_cons; eauto). cbn. by rewrite E.
    + apply IH; [done|]. intros j kv' Hj. apply Hin, elem_of_cons. by right.
  - intros sn. rewrite <- cm_contains_view. unfold cm_contains. split.
    + intros ([k v] & -> & ([i kv] & -> & Hi%elem_of_map_to_list)%list_elem_of_fmap)%list_elem_of_fmap. cbn in *.
      pose proof (Hidx _ _ Hi) as Ei. cbn in Ei. destruct kv as [k' v']. cbn in *. rewrite <- Ei, Hi. apply Z.eqb_refl.
    + destruct (cm_data w !! get_circular_idx w sn) as [[k v]|] eqn:E; [|done]. intros Ek. zbool. subst.
      apply list_elem_of_fmap. exists (sn, v). split; [done|]. apply list_elem_of_fmap.
      exists (get_circular_idx w sn, (sn, v)). split; [done|]. by apply elem_of_map_to_list.
  - cbn. unfold cm_size. rewrite (cwf_count _ Hw). unfold zlen. by rewrite !length_fmap, length_map_to_list.
Qed.
Next Obligation. done. Qed.
Next Obligation.
  intros T w Hw. split_and!; [split; [apply Hw|apply map_Forall_empty|done]|done|].
  intros sn. by rewrite cm_view_spec.
Qed.
