(* ===== verification/RlcSegments.v ===== *)
(** * RLC: reassembly of SDU segments

    Models the repository of received SDU segments that the receiving AM and UM
    entities keep per sequence number ([store_segment], [update_segment_inventory]
    and [reassemble_sdu] of [src/lib/rlc/rlc_rx_am_entity.cpp] and
    [src/lib/rlc/rlc_rx_um_entity.cpp], which are the same algorithm), and proves it
    correct: segments of one SDU in any order, duplicated or overlapping,
    reassemble to that SDU exactly when all its bytes have been received. *)
From stdpp Require Import base numbers list sorting.
From Stdlib Require Import ZArith Lia.
From S2P Require Import Prelude.
From S2P Require Import RlcConfig.

Set Default Goal Selector "!".
Open Scope Z_scope.
Open Scope ran_scope.

Record rlc_rx_sdu_segment := mk_rlc_rx_sdu_segment {
  seg_si : rlc_si_field;
  seg_so : Z;
  seg_payload : list Z;
}.
#[export] Instance rlc_rx_sdu_segment_eta : RecordEta rlc_rx_sdu_segment := fun r =>
  mk_rlc_rx_sdu_segment (seg_si r) (seg_so r) (seg_payload r).
#[export] Instance rlc_rx_sdu_segment_eq_dec : EqDecision rlc_rx_sdu_segment.
Proof. solve_decision. Defined.

Definition seg_len (s : rlc_rx_sdu_segment) : Z := zlen (seg_payload s).

(** The ordered set of segments with the offset as key: inserting an offset that
    is present already changes nothing. *)
Fixpoint segment_insert (new : rlc_rx_sdu_segment) (l : list rlc_rx_sdu_segment) :
    list rlc_rx_sdu_segment :=
  match l with
  | [] => [new]
  | c :: rest =>
      if seg_so new <? seg_so c then new :: l
      else if seg_so c <? seg_so new then c :: segment_insert new rest
      else l
  end.

(** [payload.advance(n)] and the new offset of a segment whose front is cut. *)
Definition advance (n so' : Z) (s : rlc_rx_sdu_segment) : rlc_rx_sdu_segment :=
  s <| seg_payload ::= drop (Z.to_nat n) |> <| seg_so := u16 so' |>.

(** The loop of [store_segment]: [before] are the segments the iterator has passed,
    [cur :: rest] those it has not; erasing a segment drops it from both. *)
Fixpoint store_loop (before after : list rlc_rx_sdu_segment) (new : rlc_rx_sdu_segment) :
    list rlc_rx_sdu_segment * bool :=
  match after with
  | [] => (segment_insert new before, true)
  | cur :: rest =>
      let cur_last_byte := u32 (seg_so cur + seg_len cur - 1) in
      let new_last_byte := u32 (seg_so new + seg_len new - 1) in
      if cur_last_byte <? seg_so new then store_loop (before ++ [cur]) rest new
      else if seg_so cur <=? seg_so new then
        if new_last_byte <=? cur_last_byte then (before ++ cur :: rest, false)
        else store_loop (before ++ [cur]) rest
               (advance (u32 (cur_last_byte + 1 - seg_so new)) (cur_last_byte + 1) new)
      else if new_last_byte <? seg_so cur then
        (segment_insert new (before ++ cur :: rest), true)
      else if new_last_byte <? cur_last_byte then
        let cut := advance (u32 (new_last_byte + 1 - seg_so cur)) (new_last_byte + 1) cur in
        (segment_insert new (segment_insert cut (before ++ rest)), true)
      else store_loop before rest new
  end.

Definition store_segment (segments : list rlc_rx_sdu_segment) (new : rlc_rx_sdu_segment) :
    list rlc_rx_sdu_segment * bool := store_loop [] segments new.

(** The flags [(fully_received, has_gap)] of a repository. *)
Fixpoint inventory_loop (next_byte : Z) (segments : list rlc_rx_sdu_segment) : bool * bool :=
  match segments with
  | [] => (false, false)
  | segm :: rest =>
      if negb (seg_so segm =? next_byte) then (false, true)
      else if decide (seg_si segm = last_segment) then (true, false)
      else inventory_loop (u32 (next_byte + seg_len segm)) rest
  end.

Definition segment_inventory (segments : list rlc_rx_sdu_segment) : bool * bool :=
  inventory_loop 0 segments.

(** The chain of the payloads. *)
Definition chain_segments (segments : list rlc_rx_sdu_segment) : list Z :=
  concat (seg_payload <$> segments).

(** ** Invariant *)

Definition seg_end (s : rlc_rx_sdu_segment) : Z := seg_so s + seg_len s.

(** A segment that holds bytes and does not reach past the range of offsets. *)
Definition seg_ok (s : rlc_rx_sdu_segment) : Prop :=
  0 <= seg_so s /\ 0 < seg_len s /\ seg_end s < 2 ^ 16.

Definition seg_before (s t : rlc_rx_sdu_segment) : Prop := seg_end s <= seg_so t.

Definition segs_wf (l : list rlc_rx_sdu_segment) : Prop :=
  StronglySorted seg_before l /\ Forall seg_ok l.

Definition seg_covers (s : rlc_rx_sdu_segment) (x : Z) : Prop := seg_so s <= x < seg_end s.
Definition covered (l : list rlc_rx_sdu_segment) (x : Z) : Prop :=
  Exists (fun s => seg_covers s x) l.

(** A segment of [sdu]: its bytes are those of the SDU at its offset, and it is
    marked as the last one exactly when it reaches the end. *)
Definition seg_of (sdu : list Z) (s : rlc_rx_sdu_segment) : Prop :=
  (exists tl, drop (Z.to_nat (seg_so s)) sdu = seg_payload s ++ tl) /\
  seg_end s <= zlen sdu /\
  (seg_si s = last_segment <-> seg_end s = zlen sdu).

Lemma segs_wf_app l1 l2 :
  segs_wf (l1 ++ l2) <-> segs_wf l1 /\ segs_wf l2 /\
    Forall (fun s => Forall (seg_before s) l2) l1.
Proof.
  unfold segs_wf. rewrite StronglySorted_app, Forall_app, !Forall_forall.
  setoid_rewrite Forall_forall. naive_solver.
Qed.

Lemma segs_wf_cons s l :
  segs_wf (s :: l) <-> seg_ok s /\ segs_wf l /\ Forall (seg_before s) l.
Proof.
  unfold segs_wf. rewrite StronglySorted_cons, Forall_cons. tauto.
Qed.

Lemma covered_app l1 l2 x : covered (l1 ++ l2) x <-> covered l1 x \/ covered l2 x.
Proof. apply Exists_app. Qed.
Lemma covered_cons s l x : covered (s :: l) x <-> seg_covers s x \/ covered l x.
Proof. apply Exists_cons. Qed.
Lemma covered_nil x : covered [] x <-> False.
Proof. apply Exists_nil. Qed.

Lemma advance_ok n s :
  seg_ok s -> 0 <= n < seg_len s ->
  let s' := advance n (seg_so s + n) s in
  seg_ok s' /\ seg_so s' = seg_so s + n /\ seg_end s' = seg_end s /\ seg_si s' = seg_si s.
Proof.
  intros (H1 & H2 & H3) Hn. unfold seg_end, seg_ok in *.
  assert (seg_so (advance n (seg_so s + n) s) = seg_so s + n) as E1.
  { cbn -[wrap]. apply wrap_small. unfold in_range. lia. }
  assert (seg_len (advance n (seg_so s + n) s) = seg_len s - n) as E2.
  { unfold seg_len in *. cbn. rewrite zlen_drop by lia. done. }
  cbv zeta. unfold seg_end. rewrite E1, E2. split_and!; try done; lia.
Qed.

Lemma advance_of sdu n s :
  seg_ok s -> 0 <= n < seg_len s -> seg_of sdu s -> seg_of sdu (advance n (seg_so s + n) s).
Proof.
  intros Hok Hn ((tl & Hd) & Hle & Hlast).
  destruct (advance_ok n s Hok Hn) as (_ & Eso & Eend & Esi).
  unfold seg_of. rewrite Eso, Eend, Esi. split; [|done]. exists tl.
  destruct Hok as (? & _). rewrite Z2Nat.inj_add by lia. rewrite <- drop_drop, Hd. cbn.
  rewrite drop_app_le; [done|]. unfold seg_len, zlen in Hn. lia.
Qed.

Lemma seg_last_byte s : seg_ok s -> u32 (seg_so s + seg_len s - 1) = seg_end s - 1.
Proof. intros (? & ? & ?). unfold seg_end in *. apply wrap_small. unfold in_range. lia. Qed.

(** Insertion between the segments that end before and those that start after. *)
Lemma segment_insert_between new l1 l2 :
  Forall (fun s => seg_so s < seg_so new) l1 -> Forall (fun s => seg_so new < seg_so s) l2 ->
  segment_insert new (l1 ++ l2) = l1 ++ new :: l2.
Proof.
  intros H1 H2. induction H1 as [|s l1 Hs H1 IH]; cbn.
  - destruct H2 as [|s l2 Hs H2]; cbn; [done|]. by rewrite (proj2 (Z.ltb_lt _ _) Hs).
  - rewrite (proj2 (Z.ltb_ge _ _)) by lia. rewrite (proj2 (Z.ltb_lt _ _) Hs). by rewrite IH.
Qed.

(** ** Storing a segment *)

(** What storing promises: the repository stays well formed, holds the bytes it
    held and those of the new segment, and all its segments are still segments of
    the SDU they came from. *)
Definition stored (old : list rlc_rx_sdu_segment) (new : rlc_rx_sdu_segment)
    (r : list rlc_rx_sdu_segment * bool) : Prop :=
  segs_wf r.1 /\
  (forall x, covered r.1 x <-> covered old x \/ seg_covers new x) /\
  (forall sdu, Forall (seg_of sdu) old -> seg_of sdu new -> Forall (seg_of sdu) r.1) /\
  (r.2 = false -> r.1 = old /\ forall x, seg_covers new x -> covered old x).

Lemma segs_wf_insert l1 l2 new :
  segs_wf (l1 ++ l2) -> seg_ok new -> Forall (fun s => seg_before s new) l1 ->
  Forall (fun s => seg_before new s) l2 ->
  segment_insert new (l1 ++ l2) = l1 ++ new :: l2 /\ segs_wf (l1 ++ new :: l2).
Proof.
  intros Hw Hn H1 H2. apply segs_wf_app in Hw as (Hw1 & Hw2 & Hw). split.
  - destruct Hw1 as [_ Hok1], Hn as (? & ? & ?). apply segment_insert_between.
    + rewrite Forall_forall in *. intros s Hs. specialize (H1 s Hs). destruct (Hok1 s Hs).
      unfold seg_before, seg_end in *. lia.
    + rewrite Forall_forall in *. intros s Hs. specialize (H2 s Hs).
      unfold seg_before, seg_end in *. lia.
  - apply segs_wf_app. split; [done|]. rewrite segs_wf_cons. split; [done|].
    rewrite Forall_forall in *. intros s Hs. apply Forall_cons. by auto.
Qed.

Lemma stored_insert old l1 l2 new :
  segs_wf (l1 ++ l2) -> seg_ok new -> Forall (fun s => seg_before s new) l1 ->
  Forall (fun s => seg_before new s) l2 ->
  (forall x, covered (l1 ++ l2) x \/ seg_covers new x <-> covered old x \/ seg_covers new x) ->
  (forall sdu, Forall (seg_of sdu) old -> seg_of sdu new -> Forall (seg_of sdu) (l1 ++ l2)) ->
  stored old new (segment_insert new (l1 ++ l2), true).
Proof.
  intros Hw Hn H1 H2 Hc Hs. destruct (segs_wf_insert _ _ _ Hw Hn H1 H2) as [E Hw'].
  unfold stored; cbn. rewrite E. split_and!; [done| | |done].
  - intros x. rewrite <- Hc, !covered_app, covered_cons. tauto.
  - intros sdu Ho Hnew. specialize (Hs sdu Ho Hnew). rewrite Forall_app in *.
    rewrite Forall_cons. tauto.
Qed.

Lemma seg_before_trans_list new l s :
  seg_ok s -> seg_before new s -> Forall (seg_before s) l -> Forall (fun t => seg_before new t) l.
Proof.
  intros (? & ? & ?) Hb Hl. eapply Forall_impl; [exact Hl|]. intros t Ht.
  unfold seg_before, seg_end in *. lia.
Qed.

(** The new segment starts within [cur]: what is left of it starts at its end. *)
Lemma stored_trim before cur rest new r :
  seg_ok cur -> seg_ok new -> seg_so cur <= seg_so new < seg_end cur -> seg_end cur < seg_end new ->
  let new' := advance (seg_end cur - seg_so new) (seg_so new + (seg_end cur - seg_so new)) new in
  stored (before ++ cur :: rest) new' r -> stored (before ++ cur :: rest) new r.
Proof.
  intros Hc Hn Hs He new' (R1 & R2 & R3 & R4).
  set (n := seg_end cur - seg_so new) in *.
  assert (0 <= n < seg_len new) as Hrange by (unfold n, seg_end in *; lia).
  destruct (advance_ok n new Hn Hrange) as (Hok' & Eso & Eend & _). fold new' in Eso, Eend.
  assert (forall x, seg_covers new x <-> seg_so new <= x < seg_end cur \/ seg_covers new' x) as Hx.
  { intros x. unfold seg_covers. rewrite Eso, Eend. unfold n. lia. }
  assert (forall x, seg_so new <= x < seg_end cur -> covered (before ++ cur :: rest) x) as Hcur.
  { intros x ?. rewrite covered_app, covered_cons. right. left. unfold seg_covers. lia. }
  split_and!; [done| | |].
  - intros x. rewrite R2, Hx. specialize (Hcur x). tauto.
  - intros sdu Ho Hnew. apply R3; [done|]. by apply advance_of.
  - intros Hf. destruct (R4 Hf) as [-> Hc']. split; [done|]. intros x [?|?]%Hx; auto.
Qed.

(** The new segment ends within [cur], whose front is cut. *)
Lemma stored_cut before cur rest new :
  segs_wf (before ++ cur :: rest) -> seg_ok new -> Forall (fun s => seg_before s new) before ->
  seg_so new < seg_so cur -> seg_so cur < seg_end new -> seg_end new < seg_end cur ->
  let cut := advance (seg_end new - seg_so cur) (seg_so cur + (seg_end new - seg_so cur)) cur in
  stored (before ++ cur :: rest) new (segment_insert new (segment_insert cut (before ++ rest)), true).
Proof.
  intros Hw Hn Hb Hs He1 He2 cut. apply segs_wf_app in Hw as (Hwb & Hwc & Hall).
  apply segs_wf_cons in Hwc as (Hc & Hwr & Hcr).
  set (n := seg_end new - seg_so cur) in *.
  assert (0 <= n < seg_len cur) as Hrange by (unfold n, seg_end in *; lia).
  destruct (advance_ok n cur Hc Hrange) as (Hok' & Eso & Eend & _). fold cut in Hok', Eso, Eend.
  assert (Forall (seg_before cut) rest) as Hcut.
  { eapply Forall_impl; [exact Hcr|]. intros t. unfold seg_before. by rewrite Eend. }
  destruct (segs_wf_insert before rest cut) as [-> Hw']; [|done| |done|].
  { apply segs_wf_app. split_and!; [done|done|].
    eapply Forall_impl; [exact Hall|]. intros t [_ ?]%Forall_cons. done. }
  { eapply Forall_impl; [exact Hb|]. intros t. unfold seg_before in *. destruct Hn.
    unfold seg_end in *. lia. }
  apply stored_insert; [done|done|done| | |].
  - assert (seg_before new cut) as Hnc by (unfold seg_before; rewrite Eso; unfold n; lia).
    apply Forall_cons; split; [done|]. by eapply seg_before_trans_list.
  - intros x. rewrite !covered_app, !covered_cons. unfold seg_covers. rewrite Eso, Eend.
    unfold n. split; intros; destruct (decide (x < seg_end new)); intuition lia.
  - intros sdu Ho _. rewrite Forall_app, Forall_cons in *. destruct Ho as (? & ? & ?).
    split_and!; try done. by apply advance_of.
Qed.

(** A segment that starts before all that are left is always stored. *)
Lemma store_loop_true before after new :
  Forall seg_ok after -> seg_ok new -> Forall (fun s => seg_so new < seg_so s) after ->
  (store_loop before after new).2 = true.
Proof.
  intros Hok Hn Hs. revert before. induction after as [|cur rest IH]; intros before; cbn [store_loop].
  { done. }
  apply Forall_cons in Hok as [Hc Hok]. apply Forall_cons in Hs as [Hcs Hs].
  rewrite (seg_last_byte cur), (seg_last_byte new) by done.
  destruct Hc as (? & ? & _). unfold seg_end. repeat case_if; try done; try lia. by apply IH.
Qed.

(** The new segment contains [cur], which is erased. *)
Lemma stored_erase before cur rest new r :
  seg_so new < seg_so cur -> seg_end cur <= seg_end new -> r.2 = true ->
  stored (before ++ rest) new r -> stored (before ++ cur :: rest) new r.
Proof.
  intros Hs He Hr (R1 & R2 & R3 & _). split_and!; [done| | |congruence].
  - intros x. rewrite R2, !covered_app, covered_cons. unfold seg_covers.
    split; [tauto|]. intros [[?|[?|?]]|?]; try tauto. right. lia.
  - intros sdu Ho. apply R3. rewrite Forall_app, Forall_cons in *. tauto.
Qed.

Lemma store_loop_spec before after new :
  segs_wf (before ++ after) -> seg_ok new -> Forall (fun s => seg_before s new) before ->
  stored (before ++ after) new (store_loop before after new).
Proof.
  revert before new. induction after as [|cur rest IH]; intros before new Hw Hn Hb; cbn [store_loop].
  { rewrite app_nil_r in *. rewrite <- (app_nil_r before) at 2.
    apply stored_insert; rewrite ?app_nil_r; try done. }
  pose proof Hw as Hw0. apply segs_wf_app in Hw0 as (Hwb & Hwc & Hall).
  apply segs_wf_cons in Hwc as (Hc & Hwr & Hcr).
  rewrite (seg_last_byte cur), (seg_last_byte new) by done. cbv zeta.
  pose proof Hc as (Hc1 & Hc2 & Hc3). pose proof Hn as (Hn1 & Hn2 & Hn3).
  assert (before ++ cur :: rest = (before ++ [cur]) ++ rest) as Eapp by by rewrite <- app_assoc.
  repeat case_if.
  - rewrite Eapp in *. apply IH; [done|done|]. apply Forall_app; split; [done|].
    apply Forall_singleton. unfold seg_before. lia.
  - split_and!; try done; cbn.
    + intros x. rewrite covered_app, covered_cons. unfold seg_covers. naive_solver lia.
    + intros _. split; [done|]. intros x Hx. rewrite covered_app, covered_cons.
      unfold seg_covers in *. right. left. lia.
  - rewrite wrap_small by (unfold in_range; unfold seg_end in *; lia).
    replace (seg_end cur - 1 + 1 - seg_so new) with (seg_end cur - seg_so new) by lia.
    replace (seg_end cur - 1 + 1) with (seg_so new + (seg_end cur - seg_so new)) by lia.
    apply stored_trim; [done|done|lia|lia|]. rewrite Eapp in *. apply IH; [done| |].
    + apply advance_ok; [done|]. unfold seg_end in *; lia.
    + destruct (advance_ok (seg_end cur - seg_so new) new Hn) as (_ & Eso & _);
        [unfold seg_end in *; lia|].
      apply Forall_app; split; [|apply Forall_singleton; unfold seg_before; rewrite Eso; lia].
      eapply Forall_impl; [exact Hb|]. intros t Ht. unfold seg_before in *. rewrite Eso. lia.
  - apply stored_insert; try done. apply Forall_cons; split; [unfold seg_before; lia|].
    eapply seg_before_trans_list; [exact Hc| |done]. unfold seg_before; lia.
  - rewrite wrap_small by (unfold in_range; unfold seg_end in *; lia).
    replace (seg_end new - 1 + 1 - seg_so cur) with (seg_end new - seg_so cur) by lia.
    replace (seg_end new - 1 + 1) with (seg_so cur + (seg_end new - seg_so cur)) by lia.
    apply stored_cut; try done; lia.
  - assert (Forall (fun s => seg_so new < seg_so s) rest).
    { eapply Forall_impl; [exact Hcr|]. intros t. unfold seg_before, seg_end in *. lia. }
    apply stored_erase; [lia|lia|apply store_loop_true; [apply Hwr|done|done]|].
    apply IH; [|done|done]. apply segs_wf_app. split_and!; [done|done|].
    eapply Forall_impl; [exact Hall|]. intros t [_ ?]%Forall_cons. done.
Qed.

Lemma store_segment_spec segments new :
  segs_wf segments -> seg_ok new -> stored segments new (store_segment segments new).
Proof. intros Hw Hn. by apply (store_loop_spec [] segments new). Qed.

(** ** Inventory *)

(** The loop looks for the first offset that no segment covers; [next] is covered
    so far. *)
Lemma inventory_loop_spec sdu next l :
  0 <= next <= zlen sdu -> zlen sdu < 2 ^ 16 -> segs_wf l -> Forall (seg_of sdu) l ->
  Forall (fun s => next <= seg_so s) l ->
  ((inventory_loop next l).1 = true -> concat (seg_payload <$> l) = drop (Z.to_nat next) sdu) /\
  ((inventory_loop next l).1 = true <-> next < zlen sdu /\ forall x, next <= x < zlen sdu -> covered l x) /\
  ((inventory_loop next l).2 = true <->
     exists x y, next <= x < y /\ ~ covered l x /\ covered l y).
Proof.
  revert next. induction l as [|s l IH]; intros next Hn Hlen Hw Hof Hge; cbn [inventory_loop].
  { cbn. split_and!; [done| |].
    - split; [done|]. intros [Hlt Hx]. exfalso. apply (covered_nil next), Hx. lia.
    - split; [done|]. intros (x & y & _ & _ & []%covered_nil). }
  apply segs_wf_cons in Hw as (Hs & Hw & Hb). apply Forall_cons in Hof as [Hsdu Hof].
  apply Forall_cons in Hge as [Hge Hgel].
  pose proof Hs as (Hs1 & Hs2 & Hs3). pose proof Hsdu as ((tl & Hd) & Hle & Hlast).
  assert (forall x, covered l x -> seg_end s <= x) as Hafter.
  { intros x Hx. apply Exists_exists in Hx as (t & Ht & ? & ?).
    rewrite Forall_forall in Hb. specialize (Hb t Ht). unfold seg_before in Hb. lia. }
  destruct (seg_so s =? next) eqn:E; zbool; cbn [negb].
  2:{ cbn. assert (~ covered (s :: l) next) as Hnc.
      { rewrite covered_cons. unfold seg_covers. intros [?|Hx%Hafter]; unfold seg_end in *; lia. }
      split_and!; [done| |].
      - split; [done|]. intros [Hlt Hx]. destruct Hnc. apply Hx. lia.
      - split; [|done]. intros _. exists next, (seg_so s). split; [lia|]. split; [done|].
        rewrite covered_cons. left. unfold seg_covers, seg_end. lia. }
  subst next. destruct (decide (seg_si s = last_segment)) as [Hl|Hl].
  - apply Hlast in Hl. cbn.
    assert (l = []) as ->.
    { destruct l as [|t l]; [done|]. apply Forall_cons in Hb as [Ht _]. exfalso.
      apply Forall_cons in Hof as [(_ & Ht2 & _) _]. apply segs_wf_cons in Hw as ((_ & ? & _) & _).
      unfold seg_before, seg_end in *. lia. }
    split_and!.
    + intros _. cbn. rewrite app_nil_r, Hd.
      assert (tl = []) as ->; [|by rewrite app_nil_r].
      apply (f_equal zlen) in Hd. rewrite zlen_drop, zlen_app in Hd by lia.
      unfold seg_end, seg_len in *. destruct tl; [done|]. unfold zlen in *. cbn in *. lia.
    + split; [|done]. intros _. split; [unfold seg_end in *; lia|].
      intros x Hx. rewrite covered_cons. left. unfold seg_covers. lia.
    + split; [done|]. intros (x & y & Hxy & Hx & Hy). destruct Hx.
      rewrite covered_cons in *. destruct Hy as [Hy|[]%covered_nil]. left.
      unfold seg_covers in *. lia.
  - assert (seg_end s < zlen sdu) by (destruct (decide (seg_end s = zlen sdu)); [tauto|lia]).
    assert (u32 (seg_so s + seg_len s) = seg_end s) as ->.
    { apply wrap_small. unfold in_range, seg_end in *. lia. }
    destruct (IH (seg_end s)) as (I1 & I2 & I3); [unfold seg_end in *; lia|done|done|done|done|].
    assert (forall x, seg_end s <= x -> covered (s :: l) x <-> covered l x) as Hcov.
    { intros x Hx. rewrite covered_cons. unfold seg_covers. intuition lia. }
    split_and!.
    + intros Hf. cbn. rewrite (I1 Hf). rewrite Hd. unfold seg_end.
      assert (Z.to_nat (seg_so s + seg_len s) =
              (Z.to_nat (seg_so s) + length (seg_payload s))%nat) as ->
        by (unfold seg_len, zlen; lia).
      by rewrite <- drop_drop, Hd, drop_app_length.
    + rewrite I2. split; intros [H1 H2]; (split; [unfold seg_end in *; lia|]).
      * intros x Hx. destruct (decide (x < seg_end s)); [|by rewrite Hcov by lia; apply H2; lia].
        rewrite covered_cons. left. unfold seg_covers. lia.
      * intros x Hx. rewrite <- Hcov by lia. apply H2. unfold seg_end in *. lia.
    + rewrite I3. split; intros (x & y & Hxy & Hx & Hy); exists x, y.
      * rewrite !Hcov by lia. unfold seg_end in *. split; [lia|done].
      * assert (seg_end s <= x).
        { destruct (decide (x < seg_end s)); [|lia]. destruct Hx. rewrite covered_cons.
          left. unfold seg_covers. lia. }
        rewrite !Hcov in * by lia. by split; [lia|].
Qed.

(** C20. Reassembly of segments: whatever the order in which segments of one SDU
    arrive, repeated, overlapping or split again, the repository reports the SDU
    fully received exactly when every byte has arrived, reports a gap exactly when
    a byte is missing before one that has arrived, and then chains the SDU itself. *)
Theorem segments_reassembly sdu arrivals :
  0 < zlen sdu < 2 ^ 16 -> Forall seg_ok arrivals -> Forall (seg_of sdu) arrivals ->
  let segments := foldl (fun l s => (store_segment l s).1) [] arrivals in
  ((segment_inventory segments).1 = true <->
     forall x, 0 <= x < zlen sdu -> covered arrivals x) /\
  ((segment_inventory segments).2 = true <->
     exists x y, 0 <= x < y /\ ~ covered arrivals x /\ covered arrivals y) /\
  ((segment_inventory segments).1 = true -> chain_segments segments = sdu).
Proof.
  intros Hlen Hok Hof segments.
  assert (segs_wf segments /\ Forall (seg_of sdu) segments /\
          forall x, covered segments x <-> covered arrivals x) as (Hw & Hs & Hc).
  { unfold segments. clear segments. induction arrivals as [|s arrivals IH] using rev_ind.
    { split_and!; try done. split; constructor. }
    apply Forall_app in Hok as [Hok Hs]. apply Forall_app in Hof as [Hof Hs'].
    apply Forall_cons in Hs as [Hs _]. apply Forall_cons in Hs' as [Hs' _]. rewrite foldl_snoc.
    destruct (IH Hok Hof) as (IHw & IHs & IHc).
    destruct (store_segment_spec _ s IHw Hs) as (R1 & R2 & R3 & _).
    split_and!; [done|by apply R3|]. intros x. rewrite R2, IHc, covered_app, covered_cons.
    rewrite covered_nil. tauto. }
  destruct (inventory_loop_spec sdu 0 segments) as (I1 & I2 & I3); [lia|lia|done|done| |].
  { destruct Hw as [_ Hw]. eapply Forall_impl; [exact Hw|]. by intros s (? & _). }
  unfold segment_inventory. rewrite I2, I3. setoid_rewrite Hc. split_and!.
  - split; [tauto|]. intros. split; [lia|done].
  - done.
  - intros [H1 H2]. unfold chain_segments. rewrite I1; [done|]. apply I2.
    setoid_rewrite Hc. done.
Qed.

Lemma segments_reassembly_witness :
  let arrivals := [ mk_rlc_rx_sdu_segment last_segment 3 [14; 15];
                    mk_rlc_rx_sdu_segment first_segment 0 [11; 12];
                    mk_rlc_rx_sdu_segment middle_segment 1 [12; 13; 14] ] in
  chain_segments (foldl (fun l s => (store_segment l s).1) [] arrivals) = [11; 12; 13; 14; 15].
Proof.
  intros arrivals. apply (segments_reassembly [11; 12; 13; 14; 15] arrivals).
  - by vm_compute.
  - repeat (apply Forall_cons_2; [by vm_compute|]). apply Forall_nil_2.
  - apply Forall_cons_2; [|apply Forall_cons_2; [|apply Forall_cons_2; [|apply Forall_nil_2]]];
      (split; [by eexists|split; [vm_compute; congruence|by vm_compute]]).
  - reflexivity.
Defined.
