(* ===== verification/RlcRxAm.v ===== *)
(** * RLC AM: receiving entity

    Models [rlc_rx_am_entity] of [src/lib/rlc/rlc_rx_am_entity.h] and
    [src/lib/rlc/rlc_rx_am_entity.cpp]: reception of AMD and status PDUs, the
    receiving window, delivery of SDUs, t-Reassembly, construction of status
    reports and their exchange with the transmitting entity.  The entity is a state
    transformer that may abort on an assertion ([Panic]); what it hands to its
    environment (upper layer, transmitting entity, metrics) is a list of outputs.
    The window is used through the interface of [SduWindow]. *)
From stdpp Require Import base numbers list.
From Stdlib Require Import ZArith Lia.
From S2P Require Import Prelude.
From S2P Require Import RlcConfig.
From S2P Require Import RlcAmPdu.
From S2P Require Import SduWindow.
From S2P Require Import RlcSegments.

Set Default Goal Selector "!".
Open Scope Z_scope.
Open Scope ran_scope.

(** ** Data *)

(** Buffer for either a full SDU or a set of segments. *)
Inductive rx_am_sdu_data : Type :=
| SduSlice (payload : list Z)
| SduSegments (segments : list rlc_rx_sdu_segment).

Record rlc_rx_am_sdu_info := mk_rlc_rx_am_sdu_info {
  fully_received : bool;
  has_gap : bool;
  sdu_data : rx_am_sdu_data;
}.
#[export] Instance rlc_rx_am_sdu_info_eta : RecordEta rlc_rx_am_sdu_info := fun r =>
  mk_rlc_rx_am_sdu_info (fully_received r) (has_gap r) (sdu_data r).
Definition am_sdu_info_default : rlc_rx_am_sdu_info :=
  mk_rlc_rx_am_sdu_info false false (SduSlice []).

Record rlc_rx_am_config := mk_rlc_rx_am_config {
  rxam_sn_field_length : rlc_am_sn_size;
  rxam_t_reassembly : Z;
  rxam_t_status_prohibit : Z;
  rxam_max_sn_per_status : option Z;
}.

#[export] Instance rlc_rx_am_config_eta : RecordEta rlc_rx_am_config := fun r =>
  mk_rlc_rx_am_config (rxam_sn_field_length r) (rxam_t_reassembly r)
    (rxam_t_status_prohibit r) (rxam_max_sn_per_status r).

(** Outputs, in the order the entity produces them. *)
Inductive rx_am_output : Type :=
| OutSdu (sdu : list Z)
| OutStatusPdu (status : rlc_am_status_pdu)
| OutStatusReportChanged
| MetricPdus (pdus bytes : Z)
| MetricCtrlPdus (pdus bytes : Z)
| MetricMalformedPdus (pdus : Z)
| MetricSdus (sdus bytes : Z)
| MetricLostPdus (pdus : Z).

(** The state variables, the window, the three status PDUs owned by the writer,
    for exchange and owned by the reader, and the timers.  [deferred_prohibit]
    counts the tasks that will start the prohibit timer. *)
Record rx_am_state (W : Type -> Type) := mk_rx_am_state {
  rx_next : Z;
  rx_next_status_trigger : Z;
  rx_highest_status : Z;
  rx_next_highest : Z;
  rx_window : W rlc_rx_am_sdu_info;
  status_owned_by_writer : rlc_am_status_pdu;
  status_for_exchange : rlc_am_status_pdu;
  status_owned_by_reader : rlc_am_status_pdu;
  status_report_size : Z;
  do_status : bool;
  status_prohibit_timer_is_running : bool;
  status_prohibit_timer : bool;
  reassembly_timer : bool;
  deferred_prohibit : nat;
  rx_stopped : bool;
}.
Arguments mk_rx_am_state {W}.
Arguments rx_next {W}.
Arguments rx_next_status_trigger {W}.
Arguments rx_highest_status {W}.
Arguments rx_next_highest {W}.
Arguments rx_window {W}.
Arguments status_owned_by_writer {W}.
Arguments status_for_exchange {W}.
Arguments status_owned_by_reader {W}.
Arguments status_report_size {W}.
Arguments do_status {W}.
Arguments status_prohibit_timer_is_running {W}.
Arguments status_prohibit_timer {W}.
Arguments reassembly_timer {W}.
Arguments deferred_prohibit {W}.
Arguments rx_stopped {W}.
#[export] Instance rx_am_state_eta W : RecordEta (rx_am_state W) := fun r =>
  mk_rx_am_state (rx_next r) (rx_next_status_trigger r) (rx_highest_status r)
    (rx_next_highest r) (rx_window r) (status_owned_by_writer r)
    (status_for_exchange r) (status_owned_by_reader r) (status_report_size r)
    (do_status r) (status_prohibit_timer_is_running r) (status_prohibit_timer r)
    (reassembly_timer r) (deferred_prohibit r) (rx_stopped r).

Section rx_am.
Context {W : Type -> Type} `{SduWindow W}.
Variable cfg : rlc_rx_am_config.
Implicit Types s : rx_am_state W.
Implicit Types w : W rlc_rx_am_sdu_info.

Definition sn_size : rlc_am_sn_size := rxam_sn_field_length cfg.
Definition mod_nr : Z := cardinality (am_to_number sn_size).
Definition am_window_size : Z := window_size (am_to_number sn_size).
Definition max_nof_sn_per_status_report : Z :=
  match rxam_max_sn_per_status cfg with Some n => n | None => am_window_size end.

(** ** Construction *)

Definition rx_am_init : checked (rx_am_state W) :=
  let? window := win_make am_window_size in
  assert? match rxam_max_sn_per_status cfg with
          | Some n => (n <=? am_window_size) && (0 <? n)
          | None => true
          end;
  let init_status := new_status_pdu sn_size in
  Ok {| rx_next := 0; rx_next_status_trigger := 0; rx_highest_status := 0;
        rx_next_highest := 0; rx_window := window;
        status_owned_by_writer := init_status;
        status_for_exchange := init_status <| sp_ack_sn := 0 |>;
        status_owned_by_reader := init_status;
        status_report_size := sp_packed_size init_status; do_status := false;
        status_prohibit_timer_is_running := false; status_prohibit_timer := false;
        reassembly_timer := false; deferred_prohibit := 0;
        rx_stopped := false |}.

(** ** Window helpers *)

Definition rx_mod_base (base sn : Z) : Z := mod_base mod_nr base sn.

Definition inside_rx_window s (sn : Z) : bool := rx_mod_base (rx_next s) sn <? am_window_size.

Definition valid_ack_sn s (sn : Z) : bool :=
  (0 <? rx_mod_base (rx_next s) sn) && (rx_mod_base (rx_next s) sn <=? am_window_size).

(** The number of iterations of the loops over the window is at most the window
    size. *)
Definition window_fuel : nat := S (Z.to_nat am_window_size).

(** [reassembly_timer.run()] asserts that a duration was set, which the
    constructor does only when it is positive. *)
Definition run_reassembly_timer s : checked (rx_am_state W) :=
  assert? 0 <? rxam_t_reassembly cfg; Ok (s <| reassembly_timer := true |>).

(** ** Status reporting *)

(** The loop over the segments of an incomplete SDU: a NACK for every gap.  The
    assertion compares the offsets as stored, on 16 bits. *)
Fixpoint nack_gaps (sn last_so : Z) (have_last : bool)
    (segments : list rlc_rx_sdu_segment) (status : rlc_am_status_pdu) :
    checked (Z * bool * rlc_am_status_pdu) :=
  match segments with
  | [] => Ok (last_so, have_last, status)
  | segm :: rest =>
      let? status :=
        (if negb (seg_so segm =? last_so) then
           let nack := nack_default <| nack_sn := sn |> <| has_so := true |>
                         <| so_start := u16 last_so |> <| so_end := u16 (seg_so segm - 1) |> in
           let status := push_nack nack status in
           assert? so_start nack <=? so_end nack; Ok status
         else Ok status) in
      nack_gaps sn (u32 (seg_so segm + seg_len segm))
        (have_last || bool_decide (seg_si segm = last_segment)) rest status
  end.

(** The body of the NACK loop for one sequence number. *)
Definition nack_sdu w (sn : Z) (status : rlc_am_status_pdu) : checked rlc_am_status_pdu :=
  if negb (has_sn w sn) then Ok (push_nack (nack_default <| nack_sn := sn |>) status)
  else
    let? info := win_at w sn in
    if fully_received info then Ok status else
    match sdu_data info with
    | SduSlice _ => Panic
    | SduSegments segments =>
        let? (last_so, have_last, status) := nack_gaps sn 0 false segments status in
        if negb have_last then
          let nack := nack_default <| nack_sn := sn |> <| has_so := true |>
                        <| so_start := u16 last_so |> <| so_end := so_end_of_sdu |> in
          let status := push_nack nack status in
          assert? so_start nack <=? so_end nack; Ok status
        else Ok status
    end.

Fixpoint nack_loop (fuel : nat) w (base sn stop_sn : Z) (status : rlc_am_status_pdu) :
    checked rlc_am_status_pdu :=
  match fuel with
  | O => Panic
  | S fuel =>
      if rx_mod_base base sn <? rx_mod_base base stop_sn then
        let? status := nack_sdu w sn status in
        nack_loop fuel w base ((sn + 1) mod mod_nr) stop_sn status
      else Ok status
  end.

Definition status_stop_sn s : Z :=
  let limit := (rx_next s + max_nof_sn_per_status_report) mod mod_nr in
  if rx_mod_base (rx_next s) limit <? rx_mod_base (rx_next s) (rx_highest_status s)
  then limit else rx_highest_status s.

(** The writer's status PDU and the one for exchange swap. *)
Definition store_status_report s : rx_am_state W :=
  s <| status_report_size := sp_packed_size (status_owned_by_writer s) |>
    <| status_owned_by_writer := status_for_exchange s |>
    <| status_for_exchange := status_owned_by_writer s |>.

Definition refresh_status_report s : checked (rx_am_state W) :=
  let status := status_reset (status_owned_by_writer s) in
  let stop_sn := status_stop_sn s in
  let? status := nack_loop window_fuel (rx_window s) (rx_next s) (rx_next s) stop_sn status in
  let status := status <| sp_ack_sn := stop_sn |> in
  Ok (store_status_report (s <| status_owned_by_writer := status |>)).

(** [deferred] tells whether the executor accepted the task that starts the
    prohibit timer. *)
Definition get_status_pdu (deferred : bool) s : rlc_am_status_pdu * rx_am_state W :=
  let s := s <| do_status := false |> in
  let s := if 0 <? rxam_t_status_prohibit cfg then
             (if deferred then s <| deferred_prohibit ::= S |> else s)
               <| status_prohibit_timer_is_running := true |>
           else s in
  let s := s <| status_owned_by_reader := status_for_exchange s |>
             <| status_for_exchange := status_owned_by_reader s |> in
  (status_owned_by_reader s, s).

Definition get_status_pdu_length s : Z := status_report_size s.

Definition status_report_required s : bool :=
  do_status s && negb (status_prohibit_timer_is_running s).

Definition notify_status_report_changed s : list rx_am_output :=
  if status_report_required s then [OutStatusReportChanged] else [].

(** ** Reception *)

(** [store_segment]: a repository that does not hold a set of segments is
    replaced by an empty set first. *)
Definition am_store_segment (info : rlc_rx_am_sdu_info) (new : rlc_rx_sdu_segment) :
    rlc_rx_am_sdu_info * bool :=
  let segments := match sdu_data info with SduSegments l => l | SduSlice _ => [] end in
  let '(segments, stored) := store_segment segments new in
  (info <| sdu_data := SduSegments segments |>, stored).

Definition am_update_segment_inventory (info : rlc_rx_am_sdu_info) :
    checked rlc_rx_am_sdu_info :=
  match sdu_data info with
  | SduSlice _ => Panic
  | SduSegments segments =>
      let '(full, gap) := segment_inventory segments in
      Ok (info <| fully_received := full |> <| has_gap := gap |>)
  end.

(** [alloc]: the buffer pool can serve the allocations. *)
Definition am_reassemble_sdu (alloc : bool) (info : rlc_rx_am_sdu_info) : option (list Z) :=
  if negb (fully_received info) then None else
  if negb alloc then None else
  match sdu_data info with
  | SduSlice payload => Some payload
  | SduSegments segments => Some (chain_segments segments)
  end.

(** The entry of a sequence number, added when it is not present. *)
Definition find_or_add (sn : Z) w : checked (rlc_rx_am_sdu_info * W rlc_rx_am_sdu_info) :=
  if has_sn w sn then let? info := win_at w sn in Ok (info, w)
  else let? w := add_sn am_sdu_info_default sn w in
       let? info := win_at w sn in Ok (info, w).

Definition handle_full_data_sdu (header : rlc_am_pdu_header) (payload : list Z) s :
    checked (bool * rx_am_state W) :=
  if negb (bool_decide (hdr_si header = full_sdu)) then Ok (false, s) else
  let? (info, w) := find_or_add (hdr_sn header) (rx_window s) in
  let info := info <| sdu_data := SduSlice payload |> <| fully_received := true |>
                   <| has_gap := false |> in
  let? w := win_write (hdr_sn header) info w in
  Ok (true, s <| rx_window := w |>).

Definition handle_segment_data_sdu (header : rlc_am_pdu_header) (payload : list Z) s :
    checked (bool * rx_am_state W) :=
  if bool_decide (hdr_si header = full_sdu) then Ok (false, s) else
  let? (info, w) := find_or_add (hdr_sn header) (rx_window s) in
  let segment := mk_rlc_rx_sdu_segment (hdr_si header) (hdr_so header) payload in
  let '(info, stored) := am_store_segment info segment in
  let? info := am_update_segment_inventory info in
  let? w := win_write (hdr_sn header) info w in
  Ok (stored, s <| rx_window := w |>).

(** [rx_window.has_sn(sn) && rx_window[sn].fully_received]. *)
Definition sn_fully_received w (sn : Z) : checked bool :=
  if has_sn w sn then let? info := win_at w sn in Ok (fully_received info) else Ok false.

(** [rx_window.has_sn(sn) && rx_window[sn].has_gap]. *)
Definition sn_has_gap w (sn : Z) : checked bool :=
  if has_sn w sn then let? info := win_at w sn in Ok (has_gap info) else Ok false.

(** The first number from [sn] on, up to [stop], that is not fully received. *)
Fixpoint first_not_received (fuel : nat) w (base stop sn : Z) : checked Z :=
  match fuel with
  | O => Panic
  | S fuel =>
      if rx_mod_base base sn <? rx_mod_base base stop then
        let? full := sn_fully_received w sn in
        if full then first_not_received fuel w base stop ((sn + 1) mod mod_nr)
        else Ok sn
      else Ok sn
  end.

(** The same walk, removing what it passes. *)
Fixpoint remove_received (fuel : nat) (base stop sn : Z) w :
    checked (Z * W rlc_rx_am_sdu_info) :=
  match fuel with
  | O => Panic
  | S fuel =>
      if rx_mod_base base sn <? rx_mod_base base stop then
        let? full := sn_fully_received w sn in
        if full then
          let? w := remove_sn sn w in
          remove_received fuel base stop ((sn + 1) mod mod_nr) w
        else Ok (sn, w)
      else Ok (sn, w)
  end.

(** Delivery of the SDU of a fully received number. *)
Definition deliver_sdu (alloc : bool) (sn : Z) s : checked (rx_am_state W * list rx_am_output) :=
  let? info := win_at (rx_window s) sn in
  let out := match am_reassemble_sdu alloc info with
             | None => [MetricLostPdus 1]
             | Some sdu => [MetricSdus 1 (zlen sdu); OutSdu sdu]
             end in
  let? w := win_write sn (info <| sdu_data := SduSlice [] |>) (rx_window s) in
  Ok (s <| rx_window := w |>, out).

Definition update_rx_next_highest (sn : Z) s : rx_am_state W :=
  if rx_mod_base (rx_next s) (rx_next_highest s) <=? rx_mod_base (rx_next s) sn
  then s <| rx_next_highest := (sn + 1) mod mod_nr |> else s.

Definition update_rx_highest_status (sn : Z) s : checked (rx_am_state W) :=
  if rx_mod_base (rx_next s) sn =? rx_mod_base (rx_next s) (rx_highest_status s) then
    let? sn_upd := first_not_received window_fuel (rx_window s) (rx_next s)
                     (rx_next_highest s) ((rx_highest_status s + 1) mod mod_nr) in
    Ok (s <| rx_highest_status := sn_upd |>)
  else Ok s.

Definition update_rx_next (sn : Z) s : checked (rx_am_state W) :=
  if rx_mod_base (rx_next s) sn =? rx_mod_base (rx_next s) (rx_next s) then
    let? (sn_upd, w) := remove_received window_fuel (rx_next s) (rx_next_highest s)
                          (rx_next s mod mod_nr) (rx_window s) in
    Ok (s <| rx_window := w |> <| rx_next := sn_upd |>)
  else Ok s.

(** When all the bytes of [sn] are received. *)
Definition handle_received_sdu (alloc : bool) (sn : Z) s :
    checked (rx_am_state W * list rx_am_output) :=
  let? full := sn_fully_received (rx_window s) sn in
  if full then
    let? (s, out) := deliver_sdu alloc sn s in
    let? s := update_rx_highest_status sn s in
    let? s := update_rx_next sn s in
    Ok (s, out)
  else Ok (s, []).

(** Actions while t-Reassembly is running. *)
Definition check_stop_reassembly s : checked (rx_am_state W) :=
  if reassembly_timer s then
    let stop1 := rx_next_status_trigger s =? rx_next s in
    let? stop2 :=
      (if rx_mod_base (rx_next s) (rx_next_status_trigger s) =?
          rx_mod_base (rx_next s) (u32 (rx_next s + 1)) then
         let? info := win_at (rx_window s) (rx_next s) in Ok (negb (has_gap info))
       else Ok false) in
    let stop3 := negb (inside_rx_window s (rx_next_status_trigger s)) in
    Ok (if stop1 || stop2 || stop3 then s <| reassembly_timer := false |> else s)
  else Ok s.

(** Start of t-Reassembly when [sn] (RX_Next, or RX_Highest_Status after an
    expiry) is followed by received bytes. *)
Definition check_start_reassembly (sn : Z) s : checked (rx_am_state W) :=
  let highest := rx_mod_base (rx_next s) (rx_next_highest s) in
  let next := rx_mod_base (rx_next s) (u32 (sn + 1)) in
  let restart1 := next <? highest in
  let? restart2 :=
    (if highest =? next then sn_has_gap (rx_window s) sn else Ok false) in
  if restart1 || restart2 then
    let? s := run_reassembly_timer s in
    Ok (s <| rx_next_status_trigger := rx_next_highest s |>)
  else Ok s.

(** The part of [handle_data_pdu] after the early returns; the flag is
    [status_changed]. *)
Definition place_data_pdu (alloc : bool) (header : rlc_am_pdu_header) (payload : list Z) s :
    checked (bool * rx_am_state W * list rx_am_output) :=
  let sn := hdr_sn header in
  let? (changed, s) :=
    (if bool_decide (hdr_si header = full_sdu) then handle_full_data_sdu header payload s
     else handle_segment_data_sdu header payload s) in
  let s := update_rx_next_highest sn s in
  let? (s, out) := handle_received_sdu alloc sn s in
  let? s := check_stop_reassembly s in
  let? s := (if reassembly_timer s then Ok s else check_start_reassembly (rx_next s) s) in
  Ok (changed, s, out).

(** The actions on exit of the function. *)
Definition data_pdu_exit (changed requested : bool) s :
    checked (rx_am_state W * list rx_am_output) :=
  let? s := (if changed || requested then refresh_status_report s else Ok s) in
  let s := if requested then s <| do_status := true |> else s in
  Ok (s, if changed || requested then notify_status_report_changed s else []).

Definition handle_data_pdu (alloc : bool) (buf : list Z) s :
    checked (rx_am_state W * list rx_am_output) :=
  match rlc_am_read_data_pdu_header buf sn_size am_header_zero with
  | None => Ok (s, [MetricMalformedPdus 1])
  | Some header =>
      let header_len := hdr_get_packed_size header in
      if zlen buf <=? header_len then Ok (s, []) else
      let payload := drop (Z.to_nat header_len) buf in
      let requested := negb (hdr_p header =? 0) in
      if negb (inside_rx_window s (hdr_sn header)) then data_pdu_exit false requested s
      else
        let? duplicate := sn_fully_received (rx_window s) (hdr_sn header) in
        if duplicate then data_pdu_exit false requested s
        else
          let? (changed, s, out) := place_data_pdu alloc header payload s in
          let? (s, out') := data_pdu_exit changed requested s in
          Ok (s, out ++ out')
  end.

Definition handle_control_pdu (buf : list Z) s : checked (rx_am_state W * list rx_am_output) :=
  let? (ok, status_pdu) := unpack buf (new_status_pdu sn_size) in
  Ok (s, if ok then [OutStatusPdu status_pdu] else []).

Definition handle_pdu (alloc : bool) (buf : list Z) s :
    checked (rx_am_state W * list rx_am_output) :=
  match buf with
  | [] => Ok (s, [MetricPdus 1 0])
  | _ =>
      let? is_control := is_control_pdu buf in
      if is_control then
        let? (s, out) := handle_control_pdu buf s in
        Ok (s, MetricPdus 1 (zlen buf) :: MetricCtrlPdus 1 (zlen buf) :: out)
      else
        let? (s, out) := handle_data_pdu alloc buf s in
        Ok (s, MetricPdus 1 (zlen buf) :: out)
  end.

(** ** Timers *)

Definition on_expired_status_prohibit_timer s : rx_am_state W * list rx_am_output :=
  let s := s <| status_prohibit_timer_is_running := false |> in
  (s, notify_status_report_changed s).

Definition on_expired_reassembly_timer s : checked (rx_am_state W * list rx_am_output) :=
  if reassembly_timer s then Ok (s, []) else
  if negb (valid_ack_sn s (rx_next_status_trigger s)) then Ok (s, []) else
  let? sn_upd := first_not_received window_fuel (rx_window s) (rx_next s)
                   (rx_next_highest s) (rx_next_status_trigger s) in
  assert? valid_ack_sn s sn_upd;
  let s := s <| rx_highest_status := sn_upd |> in
  let? s := check_start_reassembly (rx_highest_status s) s in
  let? s := refresh_status_report s in
  let s := s <| do_status := true |> in
  Ok (s, notify_status_report_changed s).

(** Both timers stop; a second call does nothing. *)
Definition rx_stop s : rx_am_state W :=
  if rx_stopped s then s else
  s <| status_prohibit_timer := false |> <| reassembly_timer := false |> <| rx_stopped := true |>.

(** ** Events *)

(** What the environment can trigger.  The expiry of a timer is a task of the
    executor of the entity: it sets the timer to expired and runs the callback
    unless the timer was stopped or restarted meanwhile ([timers.cpp]), so it is one
    step, possible only while the timer runs. *)
Inductive rx_am_op : Type :=
| RxPdu (alloc : bool) (buf : list Z)
| RxReassemblyExpired
| RxStartProhibit
| RxProhibitExpired
| RxGetStatusPdu (deferred : bool)
| RxStop.

Definition rx_am_step (op : rx_am_op) s : checked (rx_am_state W * list rx_am_output) :=
  match op with
  | RxPdu alloc buf => handle_pdu alloc buf s
  | RxReassemblyExpired =>
      if reassembly_timer s then
        on_expired_reassembly_timer (s <| reassembly_timer := false |>)
      else Ok (s, [])
  | RxStartProhibit =>
      match deferred_prohibit s with
      | O => Ok (s, [])
      | S n => Ok (s <| deferred_prohibit := n |> <| status_prohibit_timer := true |>, [])
      end
  | RxProhibitExpired =>
      if status_prohibit_timer s then
        Ok (on_expired_status_prohibit_timer (s <| status_prohibit_timer := false |>))
      else Ok (s, [])
  | RxGetStatusPdu deferred => Ok ((get_status_pdu deferred s).2, [])
  | RxStop => Ok (rx_stop s, [])
  end.

Fixpoint rx_am_run (ops : list rx_am_op) s : checked (rx_am_state W * list rx_am_output) :=
  match ops with
  | [] => Ok (s, [])
  | op :: ops =>
      let? (s, out) := rx_am_step op s in
      let? (s, out') := rx_am_run ops s in
      Ok (s, out ++ out')
  end.
End rx_am.
