(* ===== verification/RlcRxAmProps.v ===== *)
(** * RLC AM: properties of the receiving entity

    The invariant of the entity, proved against the window interface: every
    handler keeps it and none of the assertions of the code can fail; the content
    of the status report; delivery. *)
From stdpp Require Import base numbers list.
From Stdlib Require Import ZArith Lia.
From S2P Require Import Prelude.
From S2P Require Import RlcConfig.
From S2P Require Import RlcAmPdu.
From S2P Require Import RlcAmPduProps.
From S2P Require Import SduWindow.
From S2P Require Import RlcSegments.
From S2P Require Import RlcRxAm.

Set Default Goal Selector "!".
Open Scope Z_scope.
Open Scope ran_scope.

(** The SDUs handed to the upper layer. *)
Definition delivered (out : list rx_am_output) : list (list Z) :=
  omap (fun o => match o with OutSdu sdu => Some sdu | _ => None end) out.

Section rx_am_props.
Context {W : Type -> Type} `{!SduWindow W} `{!SduWindowLaws W}.
Variable cfg : rlc_rx_am_config.
Implicit Types s : rx_am_state W.
Implicit Types w : W rlc_rx_am_sdu_info.

Local Abbreviation m := (mod_nr cfg).
Local Abbreviation ws := (am_window_size cfg).
Local Abbreviation dist := (rx_mod_base cfg).

#[local] Instance m_modulus : SnModulus m.
Proof. unfold mod_nr. apply _. Qed.

Lemma m_window : m = 2 * ws.
Proof. apply cardinality_window_am. Qed.
Lemma ws_bounds : 2048 <= ws <= 131072.
Proof. unfold am_window_size. by destruct (sn_size cfg). Qed.
Lemma m_bound : 4096 <= m <= 2 ^ 31.
Proof. rewrite m_window. pose proof ws_bounds. lia. Qed.

Definition in_sn (sn : Z) : Prop := 0 <= sn < m.

Lemma dist_range b x : 0 <= dist b x < m.
Proof. apply mod_base_range, _. Qed.
Lemma dist_self b : dist b b = 0.
Proof. apply mod_base_self, _. Qed.
Lemma dist_succ b x : dist b x + 1 < m -> dist b ((x + 1) mod m) = dist b x + 1.
Proof. apply mod_base_succ, _. Qed.
Lemma dist_inj b x y : in_sn x -> in_sn y -> dist b x = dist b y -> x = y.
Proof. apply mod_base_inj, _. Qed.
Lemma succ_range x : in_sn ((x + 1) mod m).
Proof. apply sn_succ_range, _. Qed.

(** An entry that is fully received. *)
Definition received w (sn : Z) : Prop :=
  exists info, win_view w sn = Some info /\ fully_received info = true.

(** An incomplete entry holds a well-formed set of segments, and its flags are
    those of the set. *)
Definition info_ok (info : rlc_rx_am_sdu_info) : Prop :=
  fully_received info = false ->
  exists segments, sdu_data info = SduSegments segments /\ segs_wf segments /\
    segment_inventory segments = (false, has_gap info).

Lemma sn_fully_received_spec w sn :
  exists b, sn_fully_received w sn = Ok b /\ (b = true <-> received w sn).
Proof.
  unfold sn_fully_received, received. rewrite has_sn_view.
  destruct (win_view w sn) as [info|] eqn:E.
  - rewrite (win_at_view _ _ _ E). cbn. exists (fully_received info). split; [done|].
    split; [by exists info|]. by intros (? & [= <-] & ?).
  - exists false. split; [done|]. split; [done|]. by intros (? & ? & _).
Qed.

Lemma received_dec w sn : received w sn \/ ~ received w sn.
Proof.
  destruct (sn_fully_received_spec w sn) as ([] & _ & Hb); [left|right]; [by apply Hb|].
  intros Hr%Hb. done.
Qed.

(** ** The loops over the window *)

(** [r] is the first number at or after [start], before [stop], that is not
    fully received. *)
Definition first_missing w (base start stop r : Z) : Prop :=
  in_sn r /\ dist base start <= dist base r <= dist base stop /\
  (forall sn, in_sn sn -> dist base start <= dist base sn < dist base r -> received w sn) /\
  (dist base r = dist base stop \/ ~ received w r).

Lemma first_missing_step w base start stop r :
  in_sn start -> dist base start < dist base stop -> received w start ->
  first_missing w base ((start + 1) mod m) stop r -> first_missing w base start stop r.
Proof.
  intros Hs Hlt Hr (Hin & Hd & Hall & Hend). pose proof (dist_range base stop).
  rewrite dist_succ in Hd, Hall by lia. split_and!; [done|lia|lia| |done].
  intros sn Hsn Hrange. destruct (decide (dist base sn = dist base start)) as [E|].
  - by rewrite (dist_inj base sn start).
  - apply Hall; [done|lia].
Qed.

Lemma first_missing_stop w base start stop :
  in_sn start -> dist base start <= dist base stop ->
  (dist base start = dist base stop \/ ~ received w start) ->
  first_missing w base start stop start.
Proof. intros Hin Hle Hend. split_and!; try done; lia. Qed.

Lemma first_not_received_spec fuel w base start stop :
  in_sn start -> dist base start <= dist base stop ->
  dist base stop - dist base start < Z.of_nat fuel ->
  exists r, first_not_received cfg fuel w base stop start = Ok r /\
    first_missing w base start stop r.
Proof.
  revert start. induction fuel as [|fuel IH]; intros start Hin Hle Hf; [lia|].
  cbn [first_not_received]. pose proof (dist_range base stop). case_if.
  - destruct (sn_fully_received_spec w start) as (b & -> & Hb). cbn [checked_bind].
    destruct b.
    + destruct (IH ((start + 1) mod m)) as (r & -> & Hr);
        [apply succ_range|rewrite dist_succ; lia|rewrite dist_succ; lia|].
      exists r. split; [done|]. apply first_missing_step; try done. by apply Hb.
    + exists start. split; [done|]. apply first_missing_stop; [done|done|right].
      intros Hr%Hb. done.
  - exists start. split; [done|]. apply first_missing_stop; [done|done|left; lia].
Qed.

(** What is left of a window after the numbers from [start] to [r] are removed. *)
Definition removed_range w base start r w' : Prop :=
  win_wf w' /\ win_cap w' = win_cap w /\
  (forall sn info, win_view w' sn = Some info -> win_view w sn = Some info) /\
  (forall sn, in_sn sn -> win_view w' sn =
     if decide (dist base start <= dist base sn < dist base r) then None else win_view w sn).

Lemma remove_received_spec fuel w base start stop :
  win_wf w -> in_sn start -> dist base start <= dist base stop ->
  dist base stop - dist base start < Z.of_nat fuel ->
  exists r w', remove_received cfg fuel base stop start w = Ok (r, w') /\
    first_missing w base start stop r /\ removed_range w base start r w'.
Proof.
  revert w start. induction fuel as [|fuel IH]; intros w start Hw Hin Hle Hf; [lia|].
  cbn [remove_received]. pose proof (dist_range base stop).
  assert (removed_range w base start start w) as Hrefl.
  { split_and!; try done. intros sn _. rewrite decide_False; [done|lia]. }
  case_if.
  2:{ exists start, w. split; [done|]. split; [|done]. apply first_missing_stop; [done|done|left; lia]. }
  destruct (sn_fully_received_spec w start) as (b & -> & Hb). cbn [checked_bind].
  destruct b.
  2:{ exists start, w. split; [done|]. split; [|done]. apply first_missing_stop; [done|done|right].
      intros Hr%Hb. done. }
  assert (received w start) as Hrec by by apply Hb.
  destruct (remove_sn_spec w start Hw) as (w1 & -> & Hw1 & Hcap1 & Hno & Hother).
  { destruct Hrec as (info & -> & _). by eexists. }
  cbn [checked_bind].
  destruct (IH w1 ((start + 1) mod m)) as (r & w' & -> & Hfm & Hr');
    [done|apply succ_range|rewrite dist_succ; lia|rewrite dist_succ; lia|].
  exists r, w'. split; [done|].
  destruct Hfm as (Hrin & Hrd & Hall & Hend). rewrite dist_succ in Hrd, Hall by lia.
  assert (forall sn, sn <> start -> received w1 sn <-> received w sn) as Hrw.
  { intros sn Hne. unfold received. by rewrite Hother. }
  assert (r <> start) as Hrs by (intros ->; lia).
  split.
  - apply first_missing_step; try done. split_and!; [done|rewrite dist_succ; lia|lia| |].
    + intros sn Hsn Hrange. rewrite dist_succ in Hrange by lia.
      assert (sn <> start) by (intros ->; lia). apply Hrw; [done|]. apply Hall; [done|lia].
    + rewrite <- Hrw by done. done.
  - destruct Hr' as (H1 & H2 & H3 & H4). split_and!; [done|congruence| |].
    + intros sn info Hv. apply H3 in Hv. destruct (decide (sn = start)) as [->|Hne].
      * by rewrite Hno in Hv.
      * by rewrite <- Hother.
    + intros sn Hsn. rewrite H4 by done. rewrite dist_succ by lia.
      destruct (decide (sn = start)) as [->|Hne].
      * rewrite Hno. by do 2 case_decide; try lia.
      * rewrite Hother by done.
        assert (dist base sn <> dist base start) by (intros E%dist_inj; done).
        do 2 case_decide; try done; lia.
Qed.

(** ** The status report *)

Definition nacks_pos (st : rlc_am_status_pdu) : Prop :=
  Forall (fun n => 0 < nack_len n) (sp_nacks st).

Definition status_ok (st : rlc_am_status_pdu) : Prop :=
  status_wf st /\ nacks_pos st /\ sp_sn_size st = sn_size cfg.

(** What the status PDU [st'] reports on top of [st]. *)
Definition adds_missing (st st' : rlc_am_status_pdu) (P : Z -> Z -> Prop) : Prop :=
  status_ok st' /\
  forall sn off, in_sn sn -> is_u16 off ->
    (status_covers st' sn off = true <-> status_covers st sn off = true \/ P sn off).

Lemma push_pos nack st :
  nacks_pos st -> 0 < nack_len nack -> nack_wf (sp_sn_size st) nack -> status_wf st ->
  nacks_pos (push_nack nack st).
Proof.
  intros Hst Hn Hnw Hw. unfold nacks_pos in *. rewrite push_nack_list. unfold push_list.
  destruct (last (sp_nacks st)) as [prev|] eqn:El; [|by constructor].
  destruct (can_be_merged st prev nack) eqn:Hm.
  - pose proof (swf_nacks _ Hw) as Hall. rewrite (last_split _ _ El) in Hst, Hall.
    apply Forall_app in Hst as [? [? _]%Forall_cons].
    apply Forall_app in Hall as [_ [Hp _]%Forall_cons].
    apply Forall_app; split; [done|]. apply Forall_cons; split; [|done].
    destruct (merge_nack_wf _ _ _ _ Hp Hnw Hm) as (_ & _ & E1 & E2 & _).
    unfold nack_len in *. rewrite E1, E2. destruct (has_nack_range prev), (has_nack_range nack); lia.
  - apply Forall_app; split; [done|by constructor].
Qed.

Lemma push_adds nack st :
  status_ok st -> nack_wf (sn_size cfg) nack -> 0 < nack_len nack ->
  adds_missing st (push_nack nack st)
    (fun sn off => nack_covers m nack sn off = true).
Proof.
  intros (Hw & Hp & Hsz) Hn Hl. split.
  - split_and!; [apply push_nack_wf; [done|by rewrite Hsz]|by apply push_pos; rewrite ?Hsz|].
    by destruct (push_nack_fixed nack st) as [-> _].
  - intros sn off Hsn Hoff. assert (sp_mod_nr st = m) as Em by (rewrite (swf_mod _ Hw), Hsz; done).
    destruct (push_nack_covers nack st sn off) as [_ ->]; rewrite ?Hsz, ?Em; try done.
    + by apply Forall_cons.
    + by rewrite orb_true_iff.
Qed.

Lemma adds_missing_trans st1 st2 st3 (P Q : Z -> Z -> Prop) :
  adds_missing st1 st2 P -> adds_missing st2 st3 Q ->
  adds_missing st1 st3 (fun sn off => P sn off \/ Q sn off).
Proof.
  intros [_ H1] [Hok H2]. split; [done|]. intros sn off Hsn Hoff. rewrite H2, H1 by done. tauto.
Qed.

Lemma adds_missing_ext st st' (P Q : Z -> Z -> Prop) :
  (forall sn off, in_sn sn -> is_u16 off -> P sn off <-> Q sn off) ->
  adds_missing st st' P -> adds_missing st st' Q.
Proof. intros HPQ [Hok Hc]. split; [done|]. intros sn off Hsn Hoff. by rewrite Hc, HPQ. Qed.

Lemma adds_nothing st (P : Z -> Z -> Prop) :
  status_ok st -> (forall sn off, in_sn sn -> is_u16 off -> ~ P sn off) -> adds_missing st st P.
Proof. intros Hok HP. split; [done|]. intros sn off Hsn Hoff. specialize (HP sn off Hsn Hoff). tauto. Qed.

Lemma covers_plain k sn off :
  in_sn k -> in_sn sn -> nack_covers m (nack_default <| nack_sn := k |>) sn off = true <-> sn = k.
Proof.
  intros Hk Hsn. unfold nack_covers, nack_len. cbn -[Z.modulo]. rewrite andb_true_r, Z.ltb_lt.
  pose proof m_bound. pose proof (Z.mod_pos_bound (sn - k) m). split; [|intros ->; rewrite Z.sub_diag, Z.mod_0_l; lia].
  intros Hlt. apply (dist_inj k); [done|done|]. rewrite dist_self.
  unfold rx_mod_base. rewrite mod_base_spec by apply _. lia.
Qed.

Lemma covers_bytes k a b sn off :
  in_sn k -> in_sn sn ->
  nack_covers m (nack_default <| nack_sn := k |> <| has_so := true |> <| so_start := a |>
                   <| so_end := b |>) sn off = true <-> sn = k /\ a <= off <= b.
Proof.
  intros Hk Hsn. rewrite <- (covers_plain k sn off) by done. unfold nack_covers, nack_len.
  cbn -[Z.modulo]. pose proof m_bound. pose proof (Z.mod_pos_bound (sn - k) m). lia.
Qed.

Lemma nack_plain_wf k : in_sn k -> nack_wf (sn_size cfg) (nack_default <| nack_sn := k |>).
Proof. intros Hk. by constructor. Qed.

Lemma nack_bytes_wf k a b :
  in_sn k -> is_u16 a -> is_u16 b ->
  nack_wf (sn_size cfg) (nack_default <| nack_sn := k |> <| has_so := true |>
                           <| so_start := a |> <| so_end := b |>).
Proof. intros Hk Ha Hb. by constructor. Qed.

Definition has_last (segments : list rlc_rx_sdu_segment) : bool :=
  existsb (fun x => bool_decide (seg_si x = last_segment)) segments.

(** A byte before some segment that no segment holds. *)
Definition gap_byte (segments : list rlc_rx_sdu_segment) (off : Z) : Prop :=
  ~ covered segments off /\ Exists (fun x => off < seg_so x) segments.

Lemma nack_gaps_spec k last_so have segments st :
  in_sn k -> status_ok st -> segs_wf segments -> 0 <= last_so < 2 ^ 16 ->
  Forall (fun x => last_so <= seg_so x) segments ->
  exists last_so' st', nack_gaps k last_so have segments st =
      Ok (last_so', have || has_last segments, st') /\
    last_so <= last_so' < 2 ^ 16 /\
    (forall off, last_so <= off -> off < last_so' <-> covered segments off \/ gap_byte segments off) /\
    adds_missing st st' (fun sn off => sn = k /\ last_so <= off /\ gap_byte segments off).
Proof.
  intros Hk. revert last_so have st.
  induction segments as [|segm rest IH]; intros last_so have st Hst Hw Hlast Hge; cbn [nack_gaps].
  { exists last_so, st. unfold has_last; cbn. rewrite orb_false_r. split_and!; try done; try lia.
    - intros off Hoff. unfold gap_byte. rewrite covered_nil, Exists_nil. lia.
    - apply adds_nothing; [done|]. intros sn off _ _ (_ & _ & _ & Hex). by apply Exists_nil in Hex. }
  apply segs_wf_cons in Hw as (Hs & Hw & Hb). apply Forall_cons in Hge as [Hge Hger].
  pose proof Hs as (Hs1 & Hs2 & Hs3).
  assert (Forall (fun x => seg_end segm <= seg_so x) rest) as Hrest by exact Hb.
  match goal with |- context [checked_bind ?x _] =>
    assert (exists st1, x = Ok st1 /\
      adds_missing st st1 (fun sn off => sn = k /\ last_so <= off < seg_so segm))
      as (st1 & -> & Hst1) end.
  { destruct (seg_so segm =? last_so) eqn:E; zbool; cbn [negb].
    - exists st. split; [done|]. apply adds_nothing; [done|]. intros sn off _ _. lia.
    - unfold seg_end in *. rewrite !wrap_small by (unfold in_range; lia). cbv zeta.
      eexists. split; [rewrite (proj2 (Z.leb_le _ _)); [done|cbn; lia]|].
      eapply adds_missing_ext; [|apply push_adds; [done| |done]].
      + intros sn off Hsn _. cbn beta. rewrite covers_bytes by done. intuition lia.
      + apply nack_bytes_wf; [done|unfold in_range; lia..]. }
  cbn [checked_bind].
  assert (u32 (seg_so segm + seg_len segm) = seg_end segm) as ->.
  { apply wrap_small. unfold in_range, seg_end in *. lia. }
  destruct (IH (seg_end segm) (have || bool_decide (seg_si segm = last_segment)) st1)
    as (last' & st' & -> & Hl' & Hcov & Hadd); [apply Hst1|done|unfold seg_end in *; lia|done|].
  exists last', st'. split; [unfold has_last; cbn; by rewrite orb_assoc|].
  assert (forall off, covered rest off -> seg_end segm <= off) as Hafter.
  { intros off Hx. apply Exists_exists in Hx as (t & Ht & ? & ?).
    rewrite Forall_forall in Hrest. specialize (Hrest t Ht). lia. }
  assert (forall off, last_so <= off -> gap_byte (segm :: rest) off <->
    last_so <= off < seg_so segm \/ seg_end segm <= off /\ gap_byte rest off) as Hgap.
  { intros off Hoff. unfold gap_byte. rewrite covered_cons, Exists_cons. unfold seg_covers.
    specialize (Hafter off). unfold seg_end in *. split.
    - intros [Hnc [Hlt|Hex]]; [lia|]. destruct (decide (off < seg_so segm)); [lia|]. right. split; [|tauto].
      destruct (decide (off < seg_so segm + seg_len segm)); [|lia]. destruct Hnc. lia.
    - intros [Hlt|(Hlt & Hnc & Hex)]; [split; [|by left; lia]|].
      + intros [?|Hx%Hafter]; lia.
      + split; [|by right]. intros [?|?]; [lia|done]. }
  split_and!; [unfold seg_end in *; lia|lia| |].
  - intros off Hoff. rewrite Hgap, covered_cons by done.
    destruct (decide (off < seg_end segm)) as [Hlt|Hge'].
    + split; [|lia]. intros _. unfold seg_covers. destruct (decide (off < seg_so segm)); [right; left|left; left]; lia.
    + rewrite Hcov by lia. unfold seg_covers, seg_end in *. intuition lia.
  - eapply adds_missing_ext; [|exact (adds_missing_trans _ _ _ _ _ Hst1 Hadd)].
    intros sn off _ _. cbn beta. destruct (decide (last_so <= off)) as [Hoff|]; [|unfold seg_end in *; intuition lia].
    rewrite Hgap by done. unfold seg_end in *. intuition lia.
Qed.

(** Byte [off] of the SDU [sn] has not been received, as far as the entity can
    know: the length of an SDU is unknown until its last segment is received. *)
Definition missing w (sn off : Z) : Prop :=
  match win_view w sn with
  | None => True
  | Some info =>
      fully_received info = false /\
      match sdu_data info with
      | SduSlice _ => False
      | SduSegments segments =>
          ~ covered segments off /\ (has_last segments = false \/ gap_byte segments off)
      end
  end.

Definition entries_ok w : Prop := forall sn info, win_view w sn = Some info -> info_ok info.

Lemma nack_sdu_spec w k st :
  in_sn k -> status_ok st -> entries_ok w ->
  exists st', nack_sdu w k st = Ok st' /\
    adds_missing st st' (fun sn off => sn = k /\ missing w k off).
Proof.
  intros Hk Hst Hw. unfold nack_sdu, missing. rewrite has_sn_view.
  destruct (win_view w k) as [info|] eqn:E; cbn [negb].
  2:{ eexists. split; [done|]. eapply adds_missing_ext; [|by apply push_adds; [|apply nack_plain_wf|]].
      intros sn off Hsn _. cbn beta. rewrite covers_plain by done. tauto. }
  rewrite (win_at_view _ _ _ E). cbn [checked_bind].
  destruct (fully_received info) eqn:Hf.
  { exists st. split; [done|]. apply adds_nothing; [done|]. by intros sn off _ _ (_ & ? & _). }
  destruct (Hw _ _ E Hf) as (segments & -> & Hs & _).
  destruct (nack_gaps_spec k 0 false segments st) as (last' & st1 & -> & Hl & Hcov & Hadd);
    try done.
  { destruct Hs as [_ Hs]. eapply Forall_impl; [exact Hs|]. by intros x (? & _). }
  cbn [checked_bind orb]. destruct (has_last segments) eqn:Hlast; cbn [negb].
  - exists st1. split; [done|]. eapply adds_missing_ext; [|exact Hadd].
    intros sn off _ [Hoff _]. cbn beta. unfold gap_byte. intuition done.
  - rewrite wrap_small by (unfold in_range; lia).
    match goal with |- context [push_nack ?n st1] => set (nk := n) end.
    assert (nack_wf (sn_size cfg) nk) as Hnk by (apply nack_bytes_wf; [done|unfold in_range, so_end_of_sdu; lia..]).
    eexists. split; [cbn -[push_nack]; rewrite (proj2 (Z.leb_le _ _)); [done|unfold so_end_of_sdu; lia]|].
    eapply adds_missing_ext; [|exact (adds_missing_trans _ _ _ _ _ Hadd
      (push_adds nk st1 (proj1 Hadd) Hnk eq_refl))].
    intros sn off Hsn [Hoff Hoff']. cbn beta. unfold nk. rewrite covers_bytes by done.
    specialize (Hcov off Hoff). unfold so_end_of_sdu, gap_byte in *.
    destruct (decide (off < last')); intuition lia.
Qed.

Lemma nack_loop_spec fuel w base start stop st :
  entries_ok w -> in_sn start -> status_ok st ->
  dist base start <= dist base stop ->
  dist base stop - dist base start < Z.of_nat fuel ->
  exists st', nack_loop cfg fuel w base start stop st = Ok st' /\
    adds_missing st st' (fun sn off =>
      dist base start <= dist base sn < dist base stop /\ missing w sn off).
Proof.
  intros Hw. revert start st.
  induction fuel as [|fuel IH]; intros start st Hin Hst Hle Hf; [lia|].
  cbn [nack_loop]. pose proof (dist_range base stop). case_if.
  2:{ exists st. split; [done|]. apply adds_nothing; [done|]. intros sn off _ _. lia. }
  destruct (nack_sdu_spec w start st) as (st1 & -> & H1); [done..|]. cbn [checked_bind].
  destruct (IH ((start + 1) mod m) st1) as (st' & -> & H2);
    [apply succ_range|apply H1|rewrite dist_succ; lia|rewrite dist_succ; lia|].
  exists st'. split; [done|].
  eapply adds_missing_ext; [|exact (adds_missing_trans _ _ _ _ _ H1 H2)].
  intros sn off Hsn _. cbn beta. rewrite dist_succ by lia. split.
  - intros [[-> ?]|[? ?]]; split; try done; lia.
  - intros [Hd Hm]. destruct (decide (sn = start)) as [->|Hne]; [by left|right].
    assert (dist base sn <> dist base start) by (intros E%dist_inj; done). split; [lia|done].
Qed.

Lemma status_reset_ok st : status_ok st -> status_ok (status_reset st).
Proof. intros (Hw & Hp & Hsz). split_and!; [by apply status_reset_wf|constructor|done]. Qed.

Lemma status_ack_ok st a : status_ok st -> status_ok (st <| sp_ack_sn := a |>).
Proof. intros (Hw & Hp & Hsz). split_and!; [by apply (status_wf_ext st)|done|done]. Qed.

(** ** The invariant *)

Record rx_inv s : Prop := {
  inv_rx_next : in_sn (rx_next s);
  inv_trigger_range : in_sn (rx_next_status_trigger s);
  inv_highest_status_range : in_sn (rx_highest_status s);
  inv_next_highest_range : in_sn (rx_next_highest s);
  inv_win : win_wf (rx_window s) /\ win_cap (rx_window s) = ws;
  inv_highest_status : dist (rx_next s) (rx_highest_status s) <= dist (rx_next s) (rx_next_highest s);
  inv_next_highest : dist (rx_next s) (rx_next_highest s) <= ws;
  inv_entries : forall sn info, win_view (rx_window s) sn = Some info ->
    in_sn sn /\ dist (rx_next s) sn < dist (rx_next s) (rx_next_highest s) /\ info_ok info;
  inv_first : ~ received (rx_window s) (rx_next s);
  inv_highest_status_first : ~ received (rx_window s) (rx_highest_status s);
  inv_timer : reassembly_timer s = true ->
    exists p, in_sn p /\ rx_next_status_trigger s = (p + 1) mod m /\
      is_Some (win_view (rx_window s) p);
  inv_highest : dist (rx_next s) (rx_next_highest s) = 0 \/
    exists p, in_sn p /\ rx_next_highest s = (p + 1) mod m /\
      is_Some (win_view (rx_window s) p);
  inv_status : status_ok (status_owned_by_writer s) /\ status_ok (status_for_exchange s) /\
    status_ok (status_owned_by_reader s);
}.

Lemma inv_entries_ok s : rx_inv s -> entries_ok (rx_window s).
Proof. intros Hs sn info Hv. by destruct (inv_entries _ Hs _ _ Hv) as (_ & _ & ?). Qed.

(** What reception establishes after the placement of [sn]: [sn] may be fully
    received although it is RX_Next or RX_Highest_Status. *)
Record rx_inv_upto (sn : Z) s : Prop := {
  upto_rx_next : in_sn (rx_next s);
  upto_trigger_range : in_sn (rx_next_status_trigger s);
  upto_highest_status_range : in_sn (rx_highest_status s);
  upto_next_highest_range : in_sn (rx_next_highest s);
  upto_win : win_wf (rx_window s) /\ win_cap (rx_window s) = ws;
  upto_highest_status : dist (rx_next s) (rx_highest_status s) <= dist (rx_next s) (rx_next_highest s);
  upto_next_highest : dist (rx_next s) (rx_next_highest s) <= ws;
  upto_entries : forall sn info, win_view (rx_window s) sn = Some info ->
    in_sn sn /\ dist (rx_next s) sn < dist (rx_next s) (rx_next_highest s) /\ info_ok info;
  upto_first : received (rx_window s) (rx_next s) -> rx_next s = sn;
  upto_highest_status_first : received (rx_window s) (rx_highest_status s) -> rx_highest_status s = sn;
  upto_highest : dist (rx_next s) (rx_next_highest s) = 0 \/
    exists p, in_sn p /\ rx_next_highest s = (p + 1) mod m /\
      is_Some (win_view (rx_window s) p);
  upto_status : status_ok (status_owned_by_writer s) /\ status_ok (status_for_exchange s) /\
    status_ok (status_owned_by_reader s);
}.

(** While t-Reassembly runs, the number before the trigger is in the window. *)
Definition timer_ok s : Prop := reassembly_timer s = true ->
  exists p, in_sn p /\ rx_next_status_trigger s = (p + 1) mod m /\
    is_Some (win_view (rx_window s) p).

(** ... or RX_Next has passed the trigger. *)
Definition timer_passed s : Prop :=
  dist (rx_next s) (rx_next_status_trigger s) = 0 \/
  ws < dist (rx_next s) (rx_next_status_trigger s).

(** Writing the entry of one number of the receiving window: the entry is present
    afterwards and the others are untouched. *)
Definition win_updated w sn info w' : Prop :=
  win_wf w' /\ win_cap w' = win_cap w /\ win_view w' sn = Some info /\
  forall sn', sn' <> sn -> win_view w' sn' = win_view w sn'.

Lemma no_collision s sn sn' info :
  rx_inv s -> in_sn sn -> inside_rx_window cfg s sn = true ->
  win_view (rx_window s) sn' = Some info -> sn' mod ws = sn mod ws -> sn' = sn.
Proof.
  intros Hs Hsn Hin Hv E. destruct (inv_entries _ Hs _ _ Hv) as (Hsn' & Hd & _).
  pose proof (inv_next_highest _ Hs). pose proof ws_bounds. unfold inside_rx_window in Hin. zbool.
  eapply (mod_base_no_collision m ws (rx_next s)); try done; [lia| |].
  - exists 2. apply m_window.
  - unfold rx_mod_base in *. lia.
Qed.

Lemma find_or_add_spec s sn :
  rx_inv s -> in_sn sn -> inside_rx_window cfg s sn = true ->
  exists info w', find_or_add sn (rx_window s) = Ok (info, w') /\
    win_updated (rx_window s) sn info w' /\
    (win_view (rx_window s) sn = Some info \/
     win_view (rx_window s) sn = None /\ info = am_sdu_info_default).
Proof.
  intros Hs Hsn Hin. destruct (inv_win _ Hs) as [Hw Hcap]. unfold find_or_add. rewrite has_sn_view.
  destruct (win_view (rx_window s) sn) as [info|] eqn:E.
  - rewrite (win_at_view _ _ _ E). exists info, (rx_window s). split; [done|]. split; [|by left].
    by split_and!.
  - destruct (add_sn_spec (rx_window s) sn am_sdu_info_default Hw E) as (w' & -> & Hw' & Hc & Hv & Ho).
    cbn [checked_bind]. rewrite (win_at_view _ _ _ Hv). exists am_sdu_info_default, w'.
    split; [done|]. split; [|by right]. split_and!; try done. intros sn' Hne.
    rewrite Ho by done. case_decide as Hcol; [|done]. rewrite Hcap in Hcol.
    destruct (win_view (rx_window s) sn') as [info'|] eqn:E'; [|done].
    by destruct (Hne (no_collision s sn sn' info' Hs Hsn Hin E' Hcol)).
Qed.

Lemma win_updated_write w sn info w' info' :
  win_updated w sn info w' ->
  exists w'', win_write sn info' w' = Ok w'' /\ win_updated w sn info' w''.
Proof.
  intros (Hw & Hc & Hv & Ho). destruct (win_write_spec w' sn info' Hw) as (w'' & -> & Hw' & Hc' & Hv' & Ho').
  { by rewrite Hv. }
  exists w''. split; [done|]. split_and!; [done|congruence|done|].
  intros sn' Hne. by rewrite Ho', Ho.
Qed.

(** The segments an entry holds; the code starts afresh when it holds none. *)
Definition entry_segments (entry : option rlc_rx_am_sdu_info) : list rlc_rx_sdu_segment :=
  match entry with
  | Some info => match sdu_data info with SduSegments l => l | SduSlice _ => [] end
  | None => []
  end.

Definition header_segment (header : rlc_am_pdu_header) (payload : list Z) : rlc_rx_sdu_segment :=
  mk_rlc_rx_sdu_segment (hdr_si header) (hdr_so header) payload.

(** What the entry holds after the PDU is stored. *)
Definition placed_content w header payload info : Prop :=
  if bool_decide (hdr_si header = full_sdu) then
    sdu_data info = SduSlice payload /\ fully_received info = true
  else
    let segments := (store_segment (entry_segments (win_view w (hdr_sn header)))
                       (header_segment header payload)).1 in
    sdu_data info = SduSegments segments /\
    fully_received info = (segment_inventory segments).1.

(** Storing a PDU, whole or segment. *)
Lemma handle_sdu_spec s header payload :
  rx_inv s -> in_sn (hdr_sn header) -> inside_rx_window cfg s (hdr_sn header) = true ->
  ~ received (rx_window s) (hdr_sn header) ->
  seg_ok (header_segment header payload) ->
  exists changed w' info,
    (if bool_decide (hdr_si header = full_sdu) then handle_full_data_sdu header payload s
     else handle_segment_data_sdu header payload s) = Ok (changed, s <| rx_window := w' |>) /\
    win_updated (rx_window s) (hdr_sn header) info w' /\ info_ok info /\
    placed_content (rx_window s) header payload info.
Proof.
  intros Hs Hsn Hin Hnr Hok. unfold placed_content.
  destruct (find_or_add_spec s _ Hs Hsn Hin) as (info & w' & Hfind & Hup & Hinfo).
  assert (fully_received info = false) as Hf.
  { destruct Hinfo as [Hv|[_ ->]]; [|done]. destruct (fully_received info) eqn:E; [|done].
    destruct Hnr. by exists info. }
  destruct (decide (hdr_si header = full_sdu)) as [Hfull|Hseg].
  - rewrite bool_decide_eq_true_2 by done. unfold handle_full_data_sdu.
    rewrite bool_decide_eq_true_2 by done. cbn [negb]. rewrite Hfind. cbn [checked_bind].
    match goal with |- context [win_write _ ?i w'] =>
      destruct (win_updated_write _ _ _ _ i Hup) as (w'' & -> & Hup'); exists true, w'', i end.
    by split_and!.
  - rewrite bool_decide_eq_false_2 by done. unfold handle_segment_data_sdu.
    rewrite bool_decide_eq_false_2 by done. rewrite Hfind. cbn [checked_bind].
    unfold am_store_segment, header_segment in *.
    set (segments := match sdu_data info with SduSegments l => l | SduSlice _ => [] end).
    assert (entry_segments (win_view (rx_window s) (hdr_sn header)) = segments) as ->.
    { by destruct Hinfo as [->|[-> ->]]. }
    assert (segs_wf segments) as Hwf.
    { destruct Hinfo as [Hv|[_ ->]]; [|by split; constructor].
      destruct (inv_entries_ok _ Hs _ _ Hv Hf) as (l & E & Hl & _). unfold segments. by rewrite E. }
    destruct (store_segment_spec segments _ Hwf Hok) as (Hwf' & _).
    destruct (store_segment segments _) as [segments' stored]. cbn [fst] in Hwf'.
    destruct (segment_inventory segments') as [full gap] eqn:Einv.
    unfold am_update_segment_inventory. cbn -[win_write segment_inventory].
    rewrite Einv. cbn [checked_bind].
    match goal with |- context [win_write _ ?i w'] =>
      destruct (win_updated_write _ _ _ _ i Hup) as (w'' & -> & Hup'); exists stored, w'', i end.
    split_and!; try done.
    intros E. exists segments'. cbn in E. subst full. by rewrite Einv.
Qed.

Lemma received_updated w sn info w' sn' :
  win_updated w sn info w' -> received w' sn' -> received w sn' \/ sn' = sn.
Proof.
  intros (_ & _ & _ & Ho) (i & Hv & Hf). destruct (decide (sn' = sn)); [by right|left].
  rewrite Ho in Hv by done. by exists i.
Qed.

Lemma present_updated w sn info w' p :
  win_updated w sn info w' -> is_Some (win_view w p) -> is_Some (win_view w' p).
Proof.
  intros (_ & _ & Hv & Ho) Hp. destruct (decide (p = sn)) as [->|]; [by rewrite Hv|by rewrite Ho].
Qed.

Lemma placed_inv s sn w' info :
  rx_inv s -> in_sn sn -> inside_rx_window cfg s sn = true ->
  win_updated (rx_window s) sn info w' -> info_ok info ->
  let s' := update_rx_next_highest cfg sn (s <| rx_window := w' |>) in
  rx_inv_upto sn s' /\ timer_ok s' /\ rx_window s' = w' /\ rx_next s' = rx_next s /\
  dist (rx_next s) sn < dist (rx_next s) (rx_next_highest s').
Proof.
  intros Hs Hsn Hin Hup Hok s'. unfold inside_rx_window in Hin. zbool.
  pose proof ws_bounds. pose proof m_window. pose proof (inv_next_highest _ Hs).
  assert (rx_next s' = rx_next s /\ rx_window s' = w' /\
          rx_next_status_trigger s' = rx_next_status_trigger s /\
          rx_highest_status s' = rx_highest_status s /\ reassembly_timer s' = reassembly_timer s /\
          status_owned_by_writer s' = status_owned_by_writer s /\
          status_for_exchange s' = status_for_exchange s /\
          status_owned_by_reader s' = status_owned_by_reader s) as
    (En & Ew & Et & Eh & Er & E1 & E2 & E3).
  { unfold s', update_rx_next_highest. by case_if. }
  assert (in_sn (rx_next_highest s') /\
    dist (rx_next s) (rx_next_highest s) <= dist (rx_next s) (rx_next_highest s') <= ws /\
    dist (rx_next s) sn < dist (rx_next s) (rx_next_highest s') /\
    (rx_next_highest s' = rx_next_highest s \/ rx_next_highest s' = (sn + 1) mod m)) as
    (Hr & Hd & Hlt & Hnh).
  { unfold s', update_rx_next_highest.
    change (rx_next (s <| rx_window := w' |>)) with (rx_next s).
    change (rx_next_highest (s <| rx_window := w' |>)) with (rx_next_highest s).
    pose proof (inv_next_highest_range _ Hs). case_if; cbn -[Z.modulo].
    - rewrite dist_succ by lia. split_and!; [apply succ_range|lia|lia|lia|by right].
    - split_and!; try done; try lia; by left. }
  split; [|split; [|by split_and!]].
  2:{ unfold timer_ok. rewrite Er, Et, Ew. intros Ht.
      destruct (inv_timer _ Hs Ht) as (p & ? & ? & ?). exists p.
      split_and!; try done. by eapply present_updated. }
  destruct (inv_win _ Hs) as [Hw Hcap]. destruct (Hup) as (Hw' & Hcap' & Hv & Ho).
  split; rewrite ?En, ?Ew, ?Et, ?Eh, ?Er, ?E1, ?E2, ?E3; try (by apply Hs); try done.
  - split; [done|congruence].
  - pose proof (inv_highest_status _ Hs). lia.
  - lia.
  - intros sn' i Hi. destruct (decide (sn' = sn)) as [->|Hne].
    + rewrite Hv in Hi. injection Hi as <-. by split_and!.
    + rewrite Ho in Hi by done. destruct (inv_entries _ Hs _ _ Hi) as (? & ? & ?).
      split_and!; [done|lia|done].
  - intros [Hc|?]%(received_updated _ _ _ _ _ Hup); [|done]. by destruct (inv_first _ Hs).
  - intros [Hc|?]%(received_updated _ _ _ _ _ Hup); [|done].
    by destruct (inv_highest_status_first _ Hs).
  - right. destruct Hnh as [E|E].
    + destruct (inv_highest _ Hs) as [E0|(p & ? & ? & ?)].
      * pose proof (dist_range (rx_next s) sn). rewrite E in Hlt. lia.
      * exists p. split_and!; [done|congruence|by eapply present_updated].
    + exists sn. split_and!; [done|done|by rewrite Hv].
Qed.

(** ** A fully received SDU *)

Lemma received_entry s sn : rx_inv_upto sn s -> forall sn', received (rx_window s) sn' -> in_sn sn' /\
  dist (rx_next s) sn' < dist (rx_next s) (rx_next_highest s).
Proof. intros Hs sn' (i & Hv & _). by destruct (upto_entries _ _ Hs _ _ Hv) as (? & ? & _). Qed.

Lemma first_missing_not_received s sn start r :
  rx_inv_upto sn s ->
  first_missing (rx_window s) (rx_next s) start (rx_next_highest s) r -> ~ received (rx_window s) r.
Proof.
  intros Hs (_ & _ & _ & [E|Hn]) Hr; [|done].
  apply (received_entry _ _ Hs) in Hr as [_ ?]. lia.
Qed.

Lemma deliver_spec alloc s sn :
  rx_inv_upto sn s -> timer_ok s -> received (rx_window s) sn ->
  exists w' info', deliver_sdu alloc sn s = Ok (s <| rx_window := w' |>,
      match win_view (rx_window s) sn with
      | Some info => match am_reassemble_sdu alloc info with
                     | None => [MetricLostPdus 1]
                     | Some sdu => [MetricSdus 1 (zlen sdu); OutSdu sdu]
                     end
      | None => []
      end) /\
    win_updated (rx_window s) sn info' w' /\ fully_received info' = true /\
    rx_inv_upto sn (s <| rx_window := w' |>) /\ timer_ok (s <| rx_window := w' |>).
Proof.
  intros Hs Htimer (info & Hv & Hf). unfold deliver_sdu. rewrite (win_at_view _ _ _ Hv), Hv. cbn [checked_bind].
  destruct (upto_win _ _ Hs) as [Hw Hcap].
  match goal with |- context [win_write sn ?i _] => set (info' := i) end.
  destruct (win_write_spec (rx_window s) sn info' Hw) as (w' & -> & Hw' & Hc' & Hv' & Ho');
    [by rewrite Hv|].
  assert (win_updated (rx_window s) sn info' w') as Hup by by split_and!.
  exists w', info'. split; [done|]. split; [done|]. split; [exact Hf|].
  split; [|intros Ht; destruct (Htimer Ht) as (p & ? & ? & ?); exists p;
           split_and!; try done; by eapply present_updated].
  split; cbn; try by apply Hs.
  - split; [done|congruence].
  - intros sn' i Hi. destruct (decide (sn' = sn)) as [->|Hne].
    + rewrite Hv' in Hi. injection Hi as <-. destruct (upto_entries _ _ Hs _ _ Hv) as (? & ? & _).
      split_and!; try done. intros Hff. unfold info' in Hff. cbn in Hff. congruence.
    + rewrite Ho' in Hi by done. by apply (upto_entries _ _ Hs).
  - intros [?|?]%(received_updated _ _ _ _ _ Hup); [|done]. by apply (upto_first _ _ Hs).
  - intros [?|?]%(received_updated _ _ _ _ _ Hup); [|done]. by apply (upto_highest_status_first _ _ Hs).
  - destruct (upto_highest _ _ Hs) as [?|(p & ? & ? & ?)]; [by left|right].
    exists p. split_and!; try done. by eapply present_updated.
Qed.

(** The invariant but for t-Reassembly. *)
Definition settled s : Prop :=
  (exists sn, rx_inv_upto sn s) /\ ~ received (rx_window s) (rx_next s) /\
  ~ received (rx_window s) (rx_highest_status s) /\ (timer_ok s \/ timer_passed s).

Lemma update_rx_highest_status_spec s sn :
  rx_inv_upto sn s -> in_sn sn -> dist (rx_next s) sn < dist (rx_next s) (rx_next_highest s) ->
  exists s', update_rx_highest_status cfg sn s = Ok s' /\ rx_inv_upto sn s' /\
    ~ received (rx_window s') (rx_highest_status s') /\ (timer_ok s -> timer_ok s') /\
    rx_next s' = rx_next s /\ rx_window s' = rx_window s /\ rx_next_highest s' = rx_next_highest s.
Proof.
  intros Hs Hsn Hlt. unfold update_rx_highest_status.
  pose proof (upto_next_highest _ _ Hs). pose proof m_window. pose proof ws_bounds. case_if.
  - assert (sn = rx_highest_status s) as E.
    { eapply dist_inj; [done|apply Hs|done]. }
    destruct (first_not_received_spec (window_fuel cfg) (rx_window s) (rx_next s)
      ((rx_highest_status s + 1) mod m) (rx_next_highest s)) as (r & -> & Hr).
    + apply succ_range.
    + rewrite dist_succ by lia. lia.
    + pose proof (dist_range (rx_next s) ((rx_highest_status s + 1) mod m)).
      unfold window_fuel. lia.
    + cbn [checked_bind]. eexists. split; [done|].
      assert (~ received (rx_window s) r) as Hnr by by eapply first_missing_not_received.
      destruct Hr as (Hrin & Hrd & _ & _).
      split; [|by split_and!]. split; cbn; try by apply Hs.
      * done.
      * lia.
      * intros Hc. done.
  - exists s. split; [done|]. split; [done|]. split; [|done]. intros Hc.
    apply (upto_highest_status_first _ _ Hs) in Hc. by rewrite Hc in Heqb.
Qed.

(** Moving RX_Next to [r] over received numbers. *)
Lemma advance_rx_next_inv s sn r w' :
  rx_inv_upto sn s -> timer_ok s -> ~ received (rx_window s) (rx_highest_status s) ->
  first_missing (rx_window s) (rx_next s) (rx_next s) (rx_next_highest s) r ->
  removed_range (rx_window s) (rx_next s) (rx_next s) r w' ->
  settled (s <| rx_window := w' |> <| rx_next := r |>).
Proof.
  intros Hs Htimer Hhs Hfm (Hw' & Hcap' & Hsub & Hview).
  assert (~ received (rx_window s) r) as Hnr by by eapply first_missing_not_received.
  destruct Hfm as (Hrin & [_ Hrd] & Hall & _). rewrite dist_self in Hall.
  set (D := dist (rx_next s) r) in *.
  pose proof (upto_next_highest _ _ Hs) as Hnh. pose proof m_window. pose proof ws_bounds.
  assert (0 <= D) by apply dist_range.
  assert (forall x, D <= dist (rx_next s) x -> dist r x = dist (rx_next s) x - D) as Hge.
  { intros x Hx. apply (mod_base_rebase_ge m). exact Hx. }
  assert (forall x, dist (rx_next s) x < D -> dist r x = dist (rx_next s) x - D + m) as Hlt.
  { intros x Hx. apply (mod_base_rebase_lt m). exact Hx. }
  assert (forall x, in_sn x -> D <= dist (rx_next s) x -> win_view w' x = win_view (rx_window s) x) as Hkeep.
  { intros x Hx Hd. rewrite Hview by done. rewrite dist_self. apply decide_False. lia. }
  assert (D <= dist (rx_next s) (rx_highest_status s)) as HhsD.
  { destruct (decide (D <= dist (rx_next s) (rx_highest_status s))); [done|].
    destruct Hhs. apply Hall; [apply Hs|]. pose proof (dist_range (rx_next s) (rx_highest_status s)). lia. }
  pose proof (upto_highest_status _ _ Hs).
  assert (forall x, received w' x -> received (rx_window s) x) as Hrec.
  { intros x (i & Hi & Hf). exists i. split; [by apply Hsub|done]. }
  assert (forall x info, win_view w' x = Some info ->
    in_sn x /\ D <= dist (rx_next s) x /\ win_view (rx_window s) x = Some info) as Hent.
  { intros x i Hi. pose proof (Hsub _ _ Hi) as Hi'. destruct (upto_entries _ _ Hs _ _ Hi') as (Hx & _ & _).
    split_and!; try done. rewrite Hview in Hi by done. rewrite dist_self in Hi.
    pose proof (dist_range (rx_next s) x). case_decide; [done|lia]. }
  assert (forall p, in_sn p -> is_Some (win_view (rx_window s) p) ->
    dist (rx_next s) ((p + 1) mod m) = dist (rx_next s) p + 1 /\
    (is_Some (win_view w' p) \/ dist (rx_next s) p < D)) as Hpred.
  { intros p Hp [i Hi]. destruct (upto_entries _ _ Hs _ _ Hi) as (_ & ? & _).
    split; [apply dist_succ; lia|]. destruct (decide (D <= dist (rx_next s) p)); [left|right; lia].
    rewrite Hkeep by done. by exists i. }
  split_and!; [exists sn|cbn; by intros ?%Hrec|cbn; by intros ?%Hrec|].
  - split; cbn; try (by apply Hs); try done.
    + destruct (upto_win _ _ Hs) as [? Hcap]. split; [done|]. by rewrite Hcap'.
    + rewrite !Hge by lia. lia.
    + rewrite Hge by lia. lia.
    + intros x i Hi. destruct (Hent _ _ Hi) as (Hx & HD & Hi').
      destruct (upto_entries _ _ Hs _ _ Hi') as (_ & ? & ?). rewrite !Hge by lia.
      split_and!; [done|lia|done].
    + intros Hc%Hrec. done.
    + intros Hc%Hrec. done.
    + rewrite Hge by lia. destruct (upto_highest _ _ Hs) as [E|(p & Hp & Enh & Hpv)]; [left; lia|].
      destruct (Hpred p Hp Hpv) as [Ed [Hw|Hlow]].
      * right. by exists p.
      * left. rewrite Enh in *. lia.
  - unfold timer_ok, timer_passed; cbn. destruct (reassembly_timer s) eqn:Ht; [|by left].
    destruct (Htimer Ht) as (p & Hp & Etr & Hpv). destruct (Hpred p Hp Hpv) as [Ed [Hw|Hlow]].
    + left. intros _. by exists p.
    + right. rewrite Etr. pose proof (dist_range (rx_next s) p).
      destruct (decide (D = dist (rx_next s) p + 1)).
      * left. rewrite Hge by lia. lia.
      * right. rewrite Hlt by lia. lia.
Qed.

Lemma settled_inv s : settled s -> timer_ok s -> rx_inv s.
Proof. intros ([sn Hs] & Hf & Hh & _) Ht. destruct Hs. by constructor. Qed.

Lemma inv_upto s sn : rx_inv s -> rx_inv_upto sn s.
Proof. intros []. constructor; try done; by intros ?. Qed.

Lemma inv_settled s : rx_inv s -> settled s.
Proof.
  intros Hs. split_and!; [exists 0; by apply inv_upto|apply Hs|apply Hs|left; exact (inv_timer _ Hs)].
Qed.

(** RX_Next moves from [base] to [r] over received numbers, which leave the
    window. *)
Definition passed w base r w' : Prop :=
  in_sn r /\ (forall x, in_sn x -> dist base x < dist base r -> received w x) /\
  (forall x, in_sn x -> win_view w' x =
     if decide (dist base x < dist base r) then None else win_view w x).

Lemma passed_refl w base : in_sn base -> passed w base base w.
Proof.
  intros Hb. split_and!; [done| |].
  - intros x _ Hx. rewrite dist_self in Hx. pose proof (dist_range base x). lia.
  - intros x _. rewrite dist_self, decide_False; [done|]. pose proof (dist_range base x). lia.
Qed.

Lemma update_rx_next_spec s sn :
  rx_inv_upto sn s -> timer_ok s -> in_sn sn -> ~ received (rx_window s) (rx_highest_status s) ->
  exists s', update_rx_next cfg sn s = Ok s' /\ settled s' /\
    passed (rx_window s) (rx_next s) (rx_next s') (rx_window s').
Proof.
  intros Hs Ht Hsn Hhs. unfold update_rx_next. rewrite dist_self.
  pose proof (upto_rx_next _ _ Hs) as Hrn. case_if.
  - rewrite Z.mod_small by exact Hrn.
    destruct (remove_received_spec (window_fuel cfg) (rx_window s) (rx_next s) (rx_next s)
      (rx_next_highest s)) as (r & w' & -> & Hfm & Hrm); [apply Hs|done| | |].
    + rewrite dist_self. apply dist_range.
    + rewrite dist_self. pose proof (upto_next_highest _ _ Hs). pose proof ws_bounds.
      unfold window_fuel. lia.
    + cbn [checked_bind]. eexists. split; [done|]. split; [by eapply advance_rx_next_inv|].
      destruct Hfm as (Hr & _ & Hall & _), Hrm as (_ & _ & _ & Hview). rewrite dist_self in Hall, Hview.
      split_and!; [done| |]; cbn; intros x Hx; pose proof (dist_range (rx_next s) x).
      * intros Hd. apply Hall; [done|lia].
      * rewrite Hview by done. do 2 case_decide; try done; lia.
  - exists s. split; [done|]. split; [|by apply passed_refl]. split_and!; [by exists sn| |done|by left].
    intros Hc. apply (upto_first _ _ Hs) in Hc as <-. by rewrite dist_self in Heqb.
Qed.

Definition sdu_output (sdu : option (list Z)) : list rx_am_output :=
  match sdu with
  | None => [MetricLostPdus 1]
  | Some sdu => [MetricSdus 1 (zlen sdu); OutSdu sdu]
  end.

(** Delivery: the SDU is handed over when its last byte has arrived, then RX_Next
    may move. *)
Definition received_effect alloc w base (info : rlc_rx_am_sdu_info) sn out w' r : Prop :=
  if fully_received info then
    out = sdu_output (am_reassemble_sdu alloc info) /\
    exists w1 info1, win_updated w sn info1 w1 /\ fully_received info1 = true /\
      passed w1 base r w'
  else out = [] /\ w' = w /\ r = base.

Lemma handle_received_spec alloc s sn info :
  win_view (rx_window s) sn = Some info ->
  rx_inv_upto sn s -> timer_ok s -> in_sn sn ->
  dist (rx_next s) sn < dist (rx_next s) (rx_next_highest s) ->
  exists s' out, handle_received_sdu cfg alloc sn s = Ok (s', out) /\ settled s' /\
    received_effect alloc (rx_window s) (rx_next s) info sn out (rx_window s') (rx_next s').
Proof.
  intros Hv Hs Ht Hsn Hlt. unfold handle_received_sdu, received_effect.
  destruct (sn_fully_received_spec (rx_window s) sn) as (b & -> & Hb). cbn [checked_bind].
  assert (b = fully_received info) as ->.
  { apply eq_bool_prop_intro. rewrite !Is_true_true, Hb. unfold received. rewrite Hv. naive_solver. }
  destruct (fully_received info) eqn:Ef.
  - destruct (deliver_spec alloc s sn Hs Ht (proj1 Hb eq_refl)) as (w1 & i1 & -> & Hup1 & Hf1 & Hs1 & Ht1). rewrite Hv.
    cbn [checked_bind].
    destruct (update_rx_highest_status_spec _ _ Hs1 Hsn Hlt) as (s2 & -> & Hs2 & Hh2 & Ht2 & En & Ew & _).
    cbn [checked_bind].
    destruct (update_rx_next_spec _ _ Hs2 (Ht2 Ht1) Hsn Hh2) as (s3 & -> & Hs3 & Hp).
    cbn [checked_bind]. eexists _, _. split_and!; [done|done|done|].
    exists w1, i1. rewrite En, Ew in Hp. by split_and!.
  - exists s, []. split; [done|]. split; [|done].
    split_and!; [by exists sn| | |by left]; intros Hc; assert (true = false); try done;
      symmetry; apply Hb; [by rewrite <- (upto_first _ _ Hs Hc)|
                           by rewrite <- (upto_highest_status_first _ _ Hs Hc)].
Qed.

(** ** t-Reassembly *)

Lemma dist_next_raw b x : in_sn x -> dist b x + 1 < m -> dist b (u32 (x + 1)) = dist b x + 1.
Proof.
  intros Hx Hd. pose proof m_bound. rewrite wrap_small by (unfold in_range, in_sn in *; lia).
  unfold rx_mod_base. rewrite mod_base_add_raw by (try apply _; unfold rx_mod_base in *; lia). done.
Qed.

Lemma check_stop_spec s :
  settled s -> exists s', check_stop_reassembly cfg s = Ok s' /\ rx_inv s' /\
    rx_window s' = rx_window s /\ rx_next s' = rx_next s.
Proof.
  intros Hs. unfold check_stop_reassembly. destruct (reassembly_timer s) eqn:Et.
  2:{ exists s. split; [done|]. split; [|done]. apply settled_inv; [done|]. intros Hc. congruence. }
  pose proof m_window. pose proof ws_bounds. destruct Hs as ([sn Hs] & Hf & Hh & Ht).
  pose proof (upto_rx_next _ _ Hs) as Hrn. pose proof (upto_next_highest _ _ Hs).
  rewrite dist_next_raw by first [done|rewrite dist_self; lia]. rewrite dist_self.
  assert (settled (s <| reassembly_timer := false |>)) as Hoff.
  { split_and!; try done; [|left; by intros ?]. exists sn. destruct Hs. by constructor. }
  assert (timer_ok (s <| reassembly_timer := false |>)) as Hoff' by by intros ?.
  destruct Ht as [Ht|Hp].
  - destruct (Ht Et) as (p & Hp & Etr & [i Hi]).
    destruct (upto_entries _ _ Hs _ _ Hi) as (_ & Hpd & _).
    assert (dist (rx_next s) (rx_next_status_trigger s) = dist (rx_next s) p + 1) as Ed.
    { rewrite Etr. apply dist_succ. lia. }
    assert (exists b, (if dist (rx_next s) (rx_next_status_trigger s) =? 0 + 1 then
      let? info := win_at (rx_window s) (rx_next s) in Ok (negb (has_gap info)) else Ok false) = Ok b)
      as (b & ->).
    { case_if; [|by eexists]. assert (p = rx_next s) as ->.
      { apply (dist_inj (rx_next s)); try done. rewrite dist_self. lia. }
      rewrite (win_at_view _ _ _ Hi). by eexists. }
    cbn [checked_bind]. eexists. split; [done|].
    split; [|by case_match]. case_match; apply settled_inv; try done. split_and!; [by exists sn|done|done|by left].
  - rewrite (proj2 (Z.eqb_neq _ _)) by (destruct Hp; lia). cbn [checked_bind].
    eexists. split; [done|]. split; [|by case_match].
    case_match eqn:Hstop; [by apply settled_inv|]. zbool.
    unfold inside_rx_window in *. zbool. exfalso. destruct Hp as [E|E]; [|lia].
    rewrite <- (dist_self (rx_next s)) in E. apply dist_inj in E; [done|apply Hs|done].
Qed.

(** The configurations the constructor accepts, with t-Reassembly configured. *)
Definition cfg_ok : Prop :=
  0 < rxam_t_reassembly cfg /\
  match rxam_max_sn_per_status cfg with Some n => 0 < n <= ws | None => True end.
Hypothesis Hcfg : cfg_ok.

Lemma t_reassembly_set : 0 < rxam_t_reassembly cfg.
Proof. apply Hcfg. Qed.

Lemma check_start_spec s sn :
  rx_inv s -> in_sn sn -> dist (rx_next s) sn <= ws ->
  exists s', check_start_reassembly cfg sn s = Ok s' /\ rx_inv s' /\
    rx_window s' = rx_window s /\ rx_next s' = rx_next s /\
    rx_highest_status s' = rx_highest_status s.
Proof.
  intros Hs Hsn Hd. pose proof m_window. pose proof ws_bounds. unfold check_start_reassembly.
  rewrite dist_next_raw by (try done; lia).
  assert (exists b, (if dist (rx_next s) (rx_next_highest s) =? dist (rx_next s) sn + 1
    then sn_has_gap (rx_window s) sn else Ok false) = Ok b /\
    (b = true -> dist (rx_next s) (rx_next_highest s) = dist (rx_next s) sn + 1)) as (b & -> & Hb).
  { case_if; [|by eexists]. unfold sn_has_gap. rewrite has_sn_view.
    destruct (win_view (rx_window s) sn) as [i|] eqn:E; [|by eexists].
    rewrite (win_at_view _ _ _ E). by eexists. }
  cbn [checked_bind]. case_match eqn:Hstart; [|by exists s].
  unfold run_reassembly_timer. rewrite (proj2 (Z.ltb_lt _ _)) by apply t_reassembly_set. cbn [checked_bind].
  eexists. split; [done|]. split; [|done].
  assert (0 < dist (rx_next s) (rx_next_highest s)) as Hpos.
  { pose proof (dist_range (rx_next s) sn). apply orb_true_iff in Hstart as [?|?%Hb]; zbool; lia. }
  destruct (inv_highest _ Hs) as [?|Hp]; [lia|].
  destruct Hs. by constructor.
Qed.

(** The effect of a PDU that is not discarded. *)
Definition place_effect alloc s header payload s' out : Prop :=
  exists info w1, placed_content (rx_window s) header payload info /\
    win_updated (rx_window s) (hdr_sn header) info w1 /\
    received_effect alloc w1 (rx_next s) info (hdr_sn header) out (rx_window s') (rx_next s').

Lemma place_data_pdu_spec alloc s header payload :
  rx_inv s -> in_sn (hdr_sn header) -> inside_rx_window cfg s (hdr_sn header) = true ->
  ~ received (rx_window s) (hdr_sn header) ->
  seg_ok (header_segment header payload) ->
  exists changed s' out, place_data_pdu cfg alloc header payload s = Ok (changed, s', out) /\
    rx_inv s' /\ place_effect alloc s header payload s' out.
Proof.
  intros Hs Hsn Hin Hnr Hok. unfold place_data_pdu.
  destruct (handle_sdu_spec s header payload Hs Hsn Hin Hnr Hok)
    as (changed & w1 & i1 & -> & Hup & Hi1 & Hc1).
  cbn [checked_bind].
  destruct (placed_inv s (hdr_sn header) w1 i1 Hs Hsn Hin Hup Hi1) as (Hs2 & Ht2 & Ew & En & Hlt).
  edestruct (handle_received_spec alloc) as (s3 & out & -> & Hs3 & Heff);
    [rewrite Ew; apply Hup|exact Hs2|exact Ht2|exact Hsn|by rewrite En|].
  cbn [checked_bind]. destruct (check_stop_spec s3 Hs3) as (s4 & -> & Hs4 & Ew4 & En4). cbn [checked_bind].
  rewrite Ew, En in Heff.
  destruct (reassembly_timer s4).
  { eexists _, _, _. split; [done|]. split; [done|]. exists i1, w1. by rewrite Ew4, En4. }
  destruct (check_start_spec s4 (rx_next s4) Hs4) as (s5 & -> & Hs5 & Ew5 & En5 & _);
    [apply Hs4|rewrite dist_self; pose proof ws_bounds; lia|]. cbn [checked_bind].
  eexists _, _, _. split; [done|]. split; [done|]. exists i1, w1. by rewrite Ew5, En5, Ew4, En4.
Qed.

(** ** Status reports *)

Lemma max_nof_range : 0 < max_nof_sn_per_status_report cfg <= ws.
Proof.
  destruct Hcfg as [_ Hc]. unfold max_nof_sn_per_status_report.
  destruct (rxam_max_sn_per_status cfg); [done|]. pose proof ws_bounds. lia.
Qed.

(** The report stops at RX_Highest_Status or at the configured number of visited
    SDUs, whichever comes first. *)
Lemma status_stop_spec s :
  rx_inv s -> in_sn (status_stop_sn cfg s) /\
  dist (rx_next s) (status_stop_sn cfg s) =
    Z.min (dist (rx_next s) (rx_highest_status s)) (max_nof_sn_per_status_report cfg).
Proof.
  intros Hs. pose proof max_nof_range. pose proof m_window. pose proof (inv_rx_next _ Hs) as Hrn.
  unfold status_stop_sn.
  assert (dist (rx_next s) ((rx_next s + max_nof_sn_per_status_report cfg) mod m)
          = max_nof_sn_per_status_report cfg) as E.
  { unfold rx_mod_base. pose proof ws_bounds. rewrite (mod_base_add m); rewrite ?mod_base_self by apply _; lia. }
  rewrite E. case_if.
  - split; [|lia]. apply Z.mod_pos_bound. pose proof m_bound. lia.
  - split; [apply Hs|lia].
Qed.

Lemma refresh_spec s :
  rx_inv s -> exists s', refresh_status_report cfg s = Ok s' /\ rx_inv s' /\
    rx_window s' = rx_window s /\ rx_next s' = rx_next s /\
    rx_highest_status s' = rx_highest_status s /\ do_status s' = do_status s /\
    sp_ack_sn (status_for_exchange s') = status_stop_sn cfg s /\
    status_report_size s' = sp_packed_size (status_for_exchange s') /\
    (forall sn off, in_sn sn -> is_u16 off ->
       status_covers (status_for_exchange s') sn off = true <->
       dist (rx_next s) sn < dist (rx_next s) (status_stop_sn cfg s) /\
       missing (rx_window s) sn off).
Proof.
  intros Hs. pose proof (status_stop_spec s Hs) as [Hin Hd]. pose proof max_nof_range.
  pose proof (inv_status _ Hs) as (Hw & He & Hr). unfold refresh_status_report.
  destruct (nack_loop_spec (window_fuel cfg) (rx_window s) (rx_next s) (rx_next s)
    (status_stop_sn cfg s) (status_reset (status_owned_by_writer s))) as (st & -> & Hst & Hcov).
  - by apply inv_entries_ok.
  - apply Hs.
  - by apply status_reset_ok.
  - rewrite dist_self. apply dist_range.
  - rewrite dist_self. unfold window_fuel. lia.
  - cbn [checked_bind]. eexists. split; [done|]. split_and!; try done.
    + pose proof (status_ack_ok st (status_stop_sn cfg s) Hst).
      destruct Hs. constructor; cbn; try done.
    + intros sn off Hsn Hoff. cbn. etrans; [exact (Hcov sn off Hsn Hoff)|].
      rewrite dist_self. pose proof (dist_range (rx_next s) sn).
      assert (status_covers (status_reset (status_owned_by_writer s)) sn off = false) as -> by done.
      intuition (done || lia).
Qed.

Lemma data_pdu_exit_spec changed requested s :
  rx_inv s -> exists s' out, data_pdu_exit cfg changed requested s = Ok (s', out) /\ rx_inv s' /\
    rx_window s' = rx_window s /\ rx_next s' = rx_next s /\ delivered out = [].
Proof.
  intros Hs. unfold data_pdu_exit.
  assert (exists s1, (if changed || requested then refresh_status_report cfg s else Ok s) = Ok s1 /\
    rx_inv s1 /\ rx_window s1 = rx_window s /\ rx_next s1 = rx_next s) as (s1 & -> & Hs1 & Ew & En).
  { case_match; [|by eauto]. destruct (refresh_spec s Hs) as (s1 & -> & Hs1 & ? & ? & _). by eauto. }
  cbn [checked_bind]. eexists _, _. split; [done|].
  split; [destruct requested; [|done]; destruct Hs1; by constructor|].
  split_and!; [by destruct requested|by destruct requested|].
  unfold notify_status_report_changed. destruct (changed || requested); [|done]. by case_match.
Qed.

(** ** Events *)

(** A PDU as the lower layer hands it over: bytes, and if it carries data, the
    payload ends within the range of segment offsets. *)
Definition pdu_ok (buf : list Z) : Prop :=
  Forall is_u8 buf /\
  forall header, rlc_am_read_data_pdu_header buf (sn_size cfg) am_header_zero = Some header ->
    hdr_so header + (zlen buf - hdr_get_packed_size header) < 2 ^ 16.

Lemma read_header_range buf header :
  Forall is_u8 buf ->
  rlc_am_read_data_pdu_header buf (sn_size cfg) am_header_zero = Some header ->
  in_sn (hdr_sn header) /\ 0 <= hdr_so header /\ hdr_sn_size header = sn_size cfg.
Proof.
  intros Hb Hr. unfold rlc_am_read_data_pdu_header in Hr.
  destruct (zlen buf <=? _); [done|]. destruct buf as [|b0 rdr]; [done|].
  apply Forall_cons in Hb as [Hb0 Hb]. apply bind_Some in Hr as ([h1 r1] & H1 & H2).
  assert (in_sn (hdr_sn h1) /\ hdr_so h1 = 0 /\ hdr_sn_size h1 = sn_size cfg /\ Forall is_u8 r1)
    as (Hsn & Hso & Hsz & Hr1).
  { unfold in_sn, mod_nr. destruct (sn_size cfg).
    - destruct rdr as [|b1 rdr]; [done|]. apply Forall_cons in Hb as [Hb1 Hb].
      injection H1 as <- <-. split_and!; try done; cbn -[Z.lor Z.land Z.shiftl];
        change (cardinality 12) with (2 ^ 12); apply (lor_range 12); try lia; unfold in_range in *; bits; dlia.
    - destruct (negb _); [done|]. destruct rdr as [|b1 [|b2 rdr]]; try done.
      apply Forall_cons in Hb as [Hb1 Hb]. apply Forall_cons in Hb as [Hb2 Hb].
      injection H1 as <- <-. split_and!; try done; cbn -[Z.lor Z.land Z.shiftl];
        change (cardinality 18) with (2 ^ 18); repeat (apply (lor_range 18); [lia|..]);
        unfold in_range in *; bits; dlia. }
  destruct (si_has_so (hdr_si h1)).
  - destruct r1 as [|s0 [|s1 r1]]; try done. injection H2 as <-.
    apply Forall_cons in Hr1 as [Hs0 Hr1]. apply Forall_cons in Hr1 as [Hs1 _].
    split_and!; try done. cbn -[Z.lor Z.land Z.shiftl wrap]. apply Z.lor_nonneg.
    unfold in_range in *. bits. dlia.
  - injection H2 as <-. split_and!; try done. lia.
Qed.

(** What a data PDU does: nothing to the window when it is malformed, outside the
    window or a duplicate, else its placement. *)
Definition data_pdu_effect alloc s buf s' out : Prop :=
  match rlc_am_read_data_pdu_header buf (sn_size cfg) am_header_zero with
  | None => s' = s /\ delivered out = []
  | Some header =>
      if (zlen buf <=? hdr_get_packed_size header) || negb (inside_rx_window cfg s (hdr_sn header))
      then rx_window s' = rx_window s /\ rx_next s' = rx_next s /\ delivered out = []
      else
        received (rx_window s) (hdr_sn header) /\
        rx_window s' = rx_window s /\ rx_next s' = rx_next s /\ delivered out = [] \/
        ~ received (rx_window s) (hdr_sn header) /\
        exists out1 s1,
          place_effect alloc s header (drop (Z.to_nat (hdr_get_packed_size header)) buf) s1 out1 /\
          rx_window s' = rx_window s1 /\ rx_next s' = rx_next s1 /\ delivered out = delivered out1
  end.

Lemma handle_data_pdu_spec alloc buf s :
  rx_inv s -> pdu_ok buf ->
  exists s' out, handle_data_pdu cfg alloc buf s = Ok (s', out) /\ rx_inv s' /\
    data_pdu_effect alloc s buf s' out.
Proof.
  intros Hs [Hb Hso]. unfold handle_data_pdu, data_pdu_effect.
  destruct (rlc_am_read_data_pdu_header buf (sn_size cfg) am_header_zero) as [header|] eqn:Er;
    [|by eauto 7].
  destruct (read_header_range _ _ Hb Er) as (Hsn & Hso0 & Hsz). specialize (Hso _ eq_refl).
  assert (0 <= hdr_get_packed_size header) as Hpk.
  { unfold hdr_get_packed_size. by destruct (hdr_si header), (hdr_sn_size header). }
  case_if; [by exists s, []|]. rewrite orb_false_l.
  destruct (negb (inside_rx_window cfg s (hdr_sn header))) eqn:Hin;
    [by apply data_pdu_exit_spec|].
  apply negb_false_iff in Hin.
  destruct (sn_fully_received_spec (rx_window s) (hdr_sn header)) as (b & -> & Hbr). cbn [checked_bind].
  destruct b.
  { destruct (data_pdu_exit_spec false (negb (hdr_p header =? 0)) s Hs)
      as (s2 & out' & -> & Hs2 & ? & ? & ?).
    eexists _, _. split; [done|]. split; [done|]. left. split_and!; try done. by apply Hbr. }
  destruct (place_data_pdu_spec alloc s header (drop (Z.to_nat (hdr_get_packed_size header)) buf))
    as (changed & s1 & out & -> & Hs1 & Heff); try done.
  { intros Hc%Hbr. done. }
  { unfold seg_ok, seg_end, seg_len. cbn. rewrite zlen_drop by lia. lia. }
  cbn [checked_bind].
  destruct (data_pdu_exit_spec changed (negb (hdr_p header =? 0)) s1 Hs1)
    as (s2 & out' & -> & Hs2 & ? & ? & Ed).
  cbn [checked_bind]. eexists _, _. split; [done|]. split; [done|]. right.
  split; [by intros ?%Hbr|]. exists out, s1. split_and!; try done.
  unfold delivered in *. by rewrite omap_app, Ed, app_nil_r.
Qed.

Lemma handle_control_pdu_spec buf s :
  Forall is_u8 buf ->
  exists out, handle_control_pdu cfg buf s = Ok (s, out) /\
    (out = [] \/ exists status, out = [OutStatusPdu status] /\ status_wf status /\
       sp_sn_size status = sn_size cfg /\ 0 <= sp_ack_sn status < mod_nr cfg).
Proof.
  intros Hb. unfold handle_control_pdu.
  destruct (unpack_safe buf (new_status_pdu (sn_size cfg)) Hb (new_status_pdu_wf _))
    as (ok & status & E & Hw & Esz). rewrite E. cbn [checked_bind].
  destruct ok; eexists; (split; [done|]); [right|by left]. exists status. split; [done|]. split; [done|].
  split; [exact Esz|]. exact (unpack_ack_range _ _ _ Hb E).
Qed.

Lemma handle_pdu_spec alloc buf s :
  rx_inv s -> pdu_ok buf -> exists s' out, handle_pdu cfg alloc buf s = Ok (s', out) /\ rx_inv s'.
Proof.
  intros Hs Hb. unfold handle_pdu. destruct buf as [|b0 rdr] eqn:Ebuf; [by eauto|].
  rewrite <- Ebuf in *. assert (exists c, is_control_pdu buf = Ok c) as [c ->].
  { rewrite Ebuf. by eexists. }
  cbn [checked_bind]. destruct c.
  - destruct (handle_control_pdu_spec buf s (proj1 Hb)) as (out & -> & _). cbn [checked_bind]. by eauto.
  - destruct (handle_data_pdu_spec alloc buf s Hs Hb) as (s' & out & -> & Hs' & _).
    cbn [checked_bind]. by eauto.
Qed.

(** The trigger of a running t-Reassembly is ahead of RX_Next and not ahead of
    RX_Next_Highest. *)
Lemma trigger_bounds s :
  rx_inv s -> reassembly_timer s = true ->
  0 < dist (rx_next s) (rx_next_status_trigger s) <= dist (rx_next s) (rx_next_highest s).
Proof.
  intros Hs Ht. destruct (inv_timer _ Hs Ht) as (p & Hp & -> & i & Hi).
  destruct (inv_entries _ Hs _ _ Hi) as (_ & Hd & _).
  pose proof (inv_next_highest _ Hs). pose proof m_window. pose proof ws_bounds.
  pose proof (dist_range (rx_next s) p). rewrite dist_succ by lia. lia.
Qed.

(** Expiry of t-Reassembly: neither early return is taken, RX_Highest_Status moves
    to the first incomplete SDU at or after the trigger, and a status report is
    requested. *)
Lemma on_expired_reassembly_spec s :
  rx_inv s -> reassembly_timer s = true ->
  exists s' out, on_expired_reassembly_timer cfg (s <| reassembly_timer := false |>) = Ok (s', out) /\
    rx_inv s' /\ do_status s' = true /\ rx_window s' = rx_window s /\ rx_next s' = rx_next s /\ delivered out = [] /\
    first_missing (rx_window s) (rx_next s) (rx_next_status_trigger s) (rx_next_highest s)
      (rx_highest_status s').
Proof.
  intros Hs Ht. pose proof (trigger_bounds s Hs Ht) as Htr. pose proof (inv_next_highest _ Hs) as Hnh.
  pose proof m_window. pose proof ws_bounds.
  unfold on_expired_reassembly_timer, valid_ack_sn.
  cbn -[first_not_received check_start_reassembly refresh_status_report].
  assert ((0 <? dist (rx_next s) (rx_next_status_trigger s)) &&
    (dist (rx_next s) (rx_next_status_trigger s) <=? ws) = true) as -> by lia. cbn [negb].
  destruct (first_not_received_spec (window_fuel cfg) (rx_window s) (rx_next s)
    (rx_next_status_trigger s) (rx_next_highest s)) as (r & -> & Hfm); [apply Hs|lia|unfold window_fuel; lia|].
  cbn [checked_bind].
  assert ((0 <? dist (rx_next s) r) && (dist (rx_next s) r <=? ws) = true) as ->
    by (destruct Hfm as (_ & ? & _); lia).
  cbn [checked_bind]. destruct Hfm as (Hr & Hd & Hall & Hend).
  match goal with |- context [check_start_reassembly cfg r ?x] => set (s1 := x) end.
  assert (rx_inv s1) as Hs1.
  { destruct Hs. constructor; cbn; try done; try lia.
    intros (i & Hi & Hf). destruct Hend as [E|Hn]; [|apply Hn; by exists i].
    destruct (inv_entries0 _ _ Hi) as (_ & ? & _). lia. }
  destruct (check_start_spec s1 r Hs1 Hr) as (s2 & -> & Hs2 & Ew & En & Eh); [cbn; lia|]. cbn [checked_bind].
  destruct (refresh_spec s2 Hs2) as (s3 & -> & Hs3 & Ew3 & En3 & Eh3 & _). cbn [checked_bind].
  eexists _, _. split; [done|]. cbn. split_and!.
  - destruct Hs3. by constructor.
  - done.
  - rewrite Ew3, Ew. done.
  - rewrite En3, En. done.
  - unfold notify_status_report_changed. by case_match.
  - rewrite Eh3, Eh. exact (conj Hr (conj Hd (conj Hall Hend))).
Qed.

Lemma rx_am_init_spec :
  exists s, rx_am_init cfg = Ok s /\ rx_inv s /\ rx_next s = 0 /\ rx_next_highest s = 0 /\
    forall sn, win_view (rx_window s) sn = None.
Proof.
  pose proof ws_bounds. pose proof m_bound. unfold rx_am_init.
  assert (exists n, 0 <= n /\ ws = 2 ^ n) as (n & Hn0 & En).
  { unfold am_window_size. destruct (sn_size cfg); [exists 11|exists 17]; split; done || lia. }
  destruct (win_make_spec (T:=rlc_rx_am_sdu_info) n Hn0) as (w & Hmk & Hw & Hc & _ & Hv).
  rewrite <- En in Hmk, Hc. rewrite Hmk. cbn [checked_bind].
  assert ((match rxam_max_sn_per_status cfg with
           | Some n => (n <=? ws) && (0 <? n) | None => true end) = true) as ->.
  { destruct Hcfg as [_ Hn]. destruct (rxam_max_sn_per_status cfg); [lia|done]. }
  eexists. split; [done|]. cbn. split_and!; try done.
  assert (status_ok (new_status_pdu (sn_size cfg))) as Hst.
  { split_and!; [apply new_status_pdu_wf|constructor|done]. }
  constructor; cbn; try (unfold in_sn; lia); try done.
  - rewrite dist_self. lia.
  - intros sn info. by rewrite Hv.
  - intros (i & Hi & _). by rewrite Hv in Hi.
  - intros (i & Hi & _). by rewrite Hv in Hi.
  - left. apply dist_self.
  - split_and!; [done|by apply status_ack_ok|done].
Qed.

Definition rx_am_op_ok (op : rx_am_op) : Prop :=
  match op with RxPdu _ buf => pdu_ok buf | _ => True end.

Lemma rx_am_step_spec op s :
  rx_inv s -> rx_am_op_ok op -> exists s' out, rx_am_step cfg op s = Ok (s', out) /\ rx_inv s'.
Proof.
  intros Hs Hop. destruct op as [alloc buf| | | |deferred|]; cbn [rx_am_step].
  - by apply handle_pdu_spec.
  - destruct (reassembly_timer s) eqn:Et; [|by eauto].
    destruct (on_expired_reassembly_spec s Hs Et) as (s' & out & -> & Hs' & _). by eauto.
  - destruct (deferred_prohibit s) as [|n]; [by eauto|]. eexists _, _. split; [done|].
    destruct Hs. by constructor.
  - destruct (status_prohibit_timer s); [|by eauto]. eexists _, _. split; [done|].
    destruct Hs. by constructor.
  - eexists _, _. split; [done|]. pose proof (inv_status _ Hs) as (? & ? & ?).
    unfold get_status_pdu. destruct (0 <? _), deferred; destruct Hs; by constructor.
  - eexists _, _. split; [done|]. unfold rx_stop. destruct (rx_stopped s); destruct Hs; by constructor.
Qed.

Lemma rx_am_run_spec ops s :
  rx_inv s -> Forall rx_am_op_ok ops ->
  exists s' out, rx_am_run cfg ops s = Ok (s', out) /\ rx_inv s'.
Proof.
  revert s. induction ops as [|op ops IH]; intros s Hs Hops; cbn [rx_am_run]; [by eauto|].
  apply Forall_cons in Hops as [Hop Hops].
  destruct (rx_am_step_spec op s Hs Hop) as (s1 & out & -> & Hs1). cbn [checked_bind].
  destruct (IH s1 Hs1 Hops) as (s2 & out' & -> & Hs2). cbn [checked_bind]. by eauto.
Qed.
End rx_am_props.
