(* ===== verification/RlcRxAmDelivery.v ===== *)
(** * RLC AM: end-to-end delivery

    The transmitting side numbers its SDUs 0, 1, 2, ... and sends SDU number [n]
    under the sequence number [n mod 2^k], whole or in segments, any number of
    times.  This file relates the state of the receiving entity to that unbounded
    count and proves that the entity delivers every SDU once and unaltered. *)
From stdpp Require Import base numbers list.
From Stdlib Require Import ZArith Lia.
From S2P Require Import Prelude.
From S2P Require Import RlcConfig.
From S2P Require Import RlcAmPdu.
From S2P Require Import RlcAmPduProps.
From S2P Require Import SduWindow.
From S2P Require Import RlcSegments.
From S2P Require Import RlcRxAm.
From S2P Require Import RlcRxAmProps.

Set Default Goal Selector "!".
Open Scope Z_scope.
Open Scope ran_scope.

Section rx_am_delivery.
Context {W : Type -> Type} `{!SduWindow W} `{!SduWindowLaws W}.
Variable cfg : rlc_rx_am_config.
Hypothesis Hcfg : cfg_ok cfg.
(** The SDUs of the peer. *)
Variable sdus : Z -> list Z.
Implicit Types s : rx_am_state W.

Local Abbreviation m := (mod_nr cfg).
Local Abbreviation ws := (am_window_size cfg).
Local Abbreviation dist := (rx_mod_base cfg).
#[local] Existing Instance m_modulus.

(** The count of the number at RX_Next after a step. *)
Definition next_count (n : Z) s s' : Z := n + dist (rx_next s) (rx_next s').

(** A data PDU that carries SDU number [n], or a piece of it. *)
Definition carries (n : Z) (buf : list Z) : Prop :=
  exists header, rlc_am_read_data_pdu_header buf (sn_size cfg) am_header_zero = Some header /\
    hdr_sn header = n mod m /\
    let payload := drop (Z.to_nat (hdr_get_packed_size header)) buf in
    if bool_decide (hdr_si header = full_sdu) then payload = sdus n
    else zlen (sdus n) < 2 ^ 16 /\ seg_of (sdus n) (header_segment header payload).

(** What the peer may send while the entity expects number [base]: a status PDU,
    or data of an SDU less than a window away. *)
Definition genuine_op (base n : Z) (op : rx_am_op) : Prop :=
  rx_am_op_ok cfg op /\
  match op with
  | RxPdu alloc buf =>
      alloc = true /\
      (is_control_pdu buf = Ok true \/
       0 <= n /\ base - ws <= n < base + ws /\ carries n buf /\ is_control_pdu buf = Ok false)
  | _ => True
  end.

Fixpoint genuine (base : Z) (ops : list (rx_am_op * Z)) s : Prop :=
  match ops with
  | [] => True
  | (op, n) :: ops =>
      genuine_op base n op /\
      match rx_am_step cfg op s with
      | Ok (s', _) => genuine (next_count base s s') ops s'
      | Panic => True
      end
  end.

(** The entity expects number [base] and has delivered the numbers [ns]. *)
Record tracks (base : Z) (ns : list Z) s : Prop := {
  track_inv : rx_inv cfg s;
  track_base : 0 <= base /\ base mod m = rx_next s;
  track_nodup : NoDup ns;
  track_delivered : forall n, n ∈ ns <->
    0 <= n < base \/ base <= n < base + ws /\ received (rx_window s) (n mod m);
  track_pieces : forall n info, base <= n < base + ws ->
    win_view (rx_window s) (n mod m) = Some info -> fully_received info = false ->
    zlen (sdus n) < 2 ^ 16 /\ Forall (seg_of (sdus n)) (entry_segments (Some info));
}.

Lemma dist_count base n b :
  base mod m = b -> base <= n < base + m -> dist b (n mod m) = n - base.
Proof.
  intros <- Hn. unfold rx_mod_base. rewrite mod_base_spec by apply _.
  rewrite <- Zminus_mod. apply Z.mod_small. lia.
Qed.

Lemma in_sn_mod n : in_sn cfg (n mod m).
Proof. pose proof (m_bound cfg). apply Z.mod_pos_bound. lia. Qed.

Lemma mod_count_inj base n n' :
  base <= n < base + m -> base <= n' < base + m -> n mod m = n' mod m -> n = n'.
Proof.
  intros Hn Hn' E. pose proof (dist_count base n _ eq_refl Hn).
  pose proof (dist_count base n' _ eq_refl Hn'). rewrite E in *. lia.
Qed.

(** Operations that leave the window alone keep the relation. *)
Lemma tracks_frame base ns s s' :
  tracks base ns s -> rx_inv cfg s' -> rx_window s' = rx_window s -> rx_next s' = rx_next s ->
  next_count base s s' = base /\ tracks base ns s'.
Proof.
  intros [Hi Hb Hnd Hdel Hp] Hs' Ew En. split.
  - unfold next_count. rewrite En, dist_self. lia.
  - split; rewrite ?Ew, ?En; done.
Qed.

(** The same after RX_Next has moved over received numbers. *)
Lemma tracks_passed base ns w r s' :
  0 <= base -> NoDup ns -> rx_inv cfg s' ->
  dist (base mod m) r <= ws -> rx_next s' = r ->
  passed cfg w (base mod m) r (rx_window s') ->
  (forall n, n ∈ ns <-> 0 <= n < base \/ base <= n < base + ws /\ received w (n mod m)) ->
  (forall x info, in_sn cfg x -> win_view w x = Some info -> dist (base mod m) x < ws) ->
  (forall n info, base <= n < base + ws -> win_view w (n mod m) = Some info ->
    fully_received info = false ->
    zlen (sdus n) < 2 ^ 16 /\ Forall (seg_of (sdus n)) (entry_segments (Some info))) ->
  tracks (base + dist (base mod m) r) ns s'.
Proof.
  intros Hb Hnd Hs' Hr En (Hrin & Hall & Hview) Hdel Hent Hp.
  pose proof (m_window cfg) as Hm. pose proof (ws_bounds cfg).
  set (d := dist (base mod m) r) in *. pose proof (dist_range cfg (base mod m) r) as Hd0.
  assert (forall n, base <= n < base + m -> dist (base mod m) (n mod m) = n - base) as Hc.
  { intros n Hn. by apply dist_count. }
  assert (forall n, base + d <= n < base + d + ws -> win_view (rx_window s') (n mod m) = win_view w (n mod m)) as Hk.
  { intros n Hn. rewrite Hview by apply in_sn_mod. rewrite Hc by lia. apply decide_False. lia. }
  assert (forall n info, base + d <= n < base + d + ws -> win_view w (n mod m) = Some info ->
    base <= n < base + ws) as Hin.
  { intros n info Hn Hv. apply Hent in Hv; [|apply in_sn_mod]. rewrite Hc in Hv by lia. lia. }
  split; try done.
  - split; [lia|]. rewrite En. apply (dist_inj cfg (base mod m)); [apply in_sn_mod|done|].
    rewrite Hc by lia. unfold d. lia.
  - intros n. rewrite Hdel. split.
    + intros [?|[Hn Hrec]]; [left; lia|].
      destruct (decide (n < base + d)); [left; lia|right]. split; [lia|].
      destruct Hrec as (i & Hi & Hf). exists i. split; [|done]. rewrite Hk by lia. done.
    + intros [Hn|[Hn (i & Hi & Hf)]].
      * destruct (decide (n < base)); [by left; lia|right]. split; [lia|].
        apply Hall; [apply in_sn_mod|]. rewrite Hc by lia. lia.
      * rewrite Hk in Hi by lia. right. split; [by eapply Hin|]. by exists i.
  - intros n info Hn Hv Hf. rewrite Hk in Hv by lia. eapply Hp; try done. by eapply Hin.
Qed.

(** ** Placement of a piece *)

Definition piece_of (n : Z) header payload : Prop :=
  if bool_decide (hdr_si header = full_sdu) then payload = sdus n
  else zlen (sdus n) < 2 ^ 16 /\ seg_of (sdus n) (header_segment header payload).

(** The entry of SDU [n] after a piece of it is stored. *)
Definition entry_holds (n : Z) (info : rlc_rx_am_sdu_info) : Prop :=
  if fully_received info then am_reassemble_sdu true info = Some (sdus n)
  else zlen (sdus n) < 2 ^ 16 /\ Forall (seg_of (sdus n)) (entry_segments (Some info)).

Lemma placed_holds base ns s n header payload info :
  tracks base ns s -> base <= n < base + ws -> hdr_sn header = n mod m ->
  ~ received (rx_window s) (n mod m) -> seg_ok (header_segment header payload) ->
  piece_of n header payload -> placed_content (rx_window s) header payload info ->
  entry_holds n info.
Proof.
  intros Ht Hn Esn Hnr Hok Hpiece Hc. unfold piece_of, placed_content, entry_holds in *.
  case_bool_decide as Hfull.
  - destruct Hc as [Ed Ef]. unfold am_reassemble_sdu. rewrite Ef, Ed. cbn. by subst.
  - destruct Hpiece as [Hlen Hof]. rewrite Esn in Hc.
    set (old := entry_segments (win_view (rx_window s) (n mod m))) in *.
    assert (segs_wf old /\ Forall (seg_of (sdus n)) old) as [Hwf Hall].
    { unfold old. destruct (win_view (rx_window s) (n mod m)) as [i|] eqn:Ev;
        [|split; [split|]; constructor].
      assert (fully_received i = false) as Ef.
      { destruct (fully_received i) eqn:Ef; [|done]. destruct Hnr. by exists i. }
      destruct (track_pieces _ _ _ Ht n i Hn Ev Ef) as [_ Hp]. split; [|done].
      destruct (inv_entries_ok _ _ (track_inv _ _ _ Ht) _ _ Ev Ef) as (l & El & Hl & _).
      unfold entry_segments. by rewrite El. }
    destruct (store_segment_spec old _ Hwf Hok) as (Hwf' & _ & Hof' & _).
    set (new := (store_segment old (header_segment header payload)).1) in *.
    destruct Hc as [Ed Ef]. specialize (Hof' (sdus n) Hall Hof).
    rewrite Ef. destruct (segment_inventory new).1 eqn:Einv.
    + unfold am_reassemble_sdu. rewrite Ef, Ed. cbn [negb].
      pose proof (zlen_nonneg (sdus n)).
      destruct (inventory_loop_spec (sdus n) 0 new) as (Hchain & _ & _); try done.
      { eapply Forall_impl; [apply Hwf'|]. by intros x (? & _). }
      specialize (Hchain Einv). unfold chain_segments. by rewrite Hchain.
    + split; [done|]. unfold entry_segments. by rewrite Ed.
Qed.

Lemma placed_tracks base ns s n header payload s' out :
  tracks base ns s -> 0 <= n -> base <= n < base + ws -> hdr_sn header = n mod m ->
  ~ received (rx_window s) (n mod m) -> seg_ok (header_segment header payload) ->
  piece_of n header payload -> place_effect cfg true s header payload s' out -> rx_inv cfg s' ->
  exists new, delivered out = sdus <$> new /\ tracks (next_count base s s') (ns ++ new) s'.
Proof.
  intros Ht Hn0 Hn Esn Hnr Hok Hpiece (info & w1 & Hc & Hup & Heff) Hs'.
  pose proof (placed_holds base ns s n header payload info Ht Hn Esn Hnr Hok Hpiece Hc) as Hh.
  destruct Ht as [Hi [Hb Eb] Hnd Hdel Hp]. pose proof (m_window cfg) as Hm. pose proof (ws_bounds cfg).
  rewrite Esn in Hup. pose proof Hup as (_ & _ & Hv1 & Ho1).
  assert (forall k, base <= k < base + ws -> k mod m = n mod m -> k = n) as Hinj.
  { intros k Hk. apply (mod_count_inj base); lia. }
  assert (forall k, base <= k < base + ws -> k <> n -> win_view w1 (k mod m) = win_view (rx_window s) (k mod m)) as Hother.
  { intros k Hk Hne. apply Ho1. intros E. by destruct (Hne (Hinj k Hk E)). }
  assert (n ∉ ns) as Hnew by (rewrite Hdel; intros [?|[_ ?]]; [lia|done]).
  assert (forall x i, in_sn cfg x -> win_view w1 x = Some i -> dist (base mod m) x < ws) as Hent.
  { intros x i Hx Hv. destruct (decide (x = n mod m)) as [->|Hne].
    - rewrite dist_count with (base:=base) by (done || lia). lia.
    - rewrite Ho1 in Hv by done. destruct (inv_entries _ _ Hi _ _ Hv) as (_ & ? & _).
      pose proof (inv_next_highest _ _ Hi). rewrite Eb. lia. }
  unfold received_effect in Heff. unfold next_count. rewrite <- Eb in Heff |- *.
  unfold entry_holds in Hh. destruct (fully_received info) eqn:Ef.
  - destruct Heff as (-> & w2 & info1 & (Hw2 & _ & Hv2 & Ho2) & Ef1 & Hpass). rewrite Esn in Hv2, Ho2.
    assert (forall k, base <= k < base + ws -> received w2 (k mod m) <-> k = n \/ received (rx_window s) (k mod m)) as Hrec.
    { intros k Hk. unfold received. destruct (decide (k = n)) as [->|Hne].
      - rewrite Hv2. split; [by left|]. intros _. by exists info1.
      - rewrite Ho2, Hother by first [done|intros E; by apply Hne, Hinj]. intuition done. }
    exists [n]. rewrite Hh. split; [done|].
    assert (forall x i, in_sn cfg x -> win_view w2 x = Some i -> dist (base mod m) x < ws) as Hent2.
    { intros x i Hx Hv. destruct (decide (x = n mod m)) as [->|Hne].
      - by eapply Hent.
      - rewrite Ho2 in Hv by done. by eapply Hent. }
    apply (tracks_passed base (ns ++ [n]) w2); try done.
    + apply NoDup_app. split_and!; [done|by intros x ? ->%list_elem_of_singleton|apply NoDup_singleton].
    + destruct (decide (dist (base mod m) (rx_next s') <= ws)); [done|].
      destruct Hpass as (_ & Hall & _).
      destruct (Hall ((base + ws) mod m)) as (i & Hv & _); [apply in_sn_mod| |].
      * rewrite dist_count with (base:=base) by (done || lia). lia.
      * apply Hent2 in Hv; [|apply in_sn_mod].
        rewrite dist_count with (base:=base) in Hv by (done || lia). lia.
    + intros k. rewrite elem_of_app, list_elem_of_singleton, Hdel. split.
      * intros [[?|[Hk Hr]]| ->]; [by left| |].
        -- right. split; [done|]. apply Hrec; tauto.
        -- right. split; [done|]. apply Hrec; [done|by left].
      * intros [?|[Hk [->|Hr]%Hrec]]; tauto.
    + intros k i Hk Hv Hf. destruct (decide (k = n)) as [->|Hne]; [congruence|].
      rewrite Ho2, Hother in Hv by first [done|intros E; by apply Hne, Hinj]. by eapply Hp.
  - destruct Heff as (-> & Ew & En). exists []. split; [done|]. rewrite app_nil_r.
    apply (tracks_passed base ns w1); try done.
    + rewrite En, dist_self. lia.
    + rewrite En, Ew. apply passed_refl, in_sn_mod.
    + intros k. rewrite Hdel. apply or_iff_compat_l.
      enough (base <= k < base + ws -> received (rx_window s) (k mod m) <-> received w1 (k mod m)) by tauto.
      intros Hk. unfold received. destruct (decide (k = n)) as [->|Hne].
      * rewrite Hv1. split; [done|]. intros (i & [= <-] & Hf). congruence.
      * by rewrite Hother.
    + intros k i Hk Hv Hf. destruct (decide (k = n)) as [->|Hne].
      * rewrite Hv1 in Hv. by injection Hv as <-.
      * rewrite Hother in Hv by done. by eapply Hp.
Qed.

(** ** Runs *)

Lemma data_tracks base ns s n buf s' out :
  tracks base ns s -> pdu_ok cfg buf -> 0 <= n -> base - ws <= n < base + ws -> carries n buf ->
  rx_inv cfg s' -> data_pdu_effect cfg true s buf s' out ->
  exists new, delivered out = sdus <$> new /\ tracks (next_count base s s') (ns ++ new) s'.
Proof.
  intros Ht [Hb Hso] Hn0 Hn (header & Er & Esn & Hpiece) Hs' Heff.
  pose proof (m_window cfg). pose proof (ws_bounds cfg).
  assert (rx_window s' = rx_window s /\ rx_next s' = rx_next s /\ delivered out = [] ->
    exists new, delivered out = sdus <$> new /\ tracks (next_count base s s') (ns ++ new) s') as Hsame.
  { intros (Ew & En & ->). exists []. rewrite app_nil_r. split; [done|].
    by destruct (tracks_frame base ns s s' Ht Hs' Ew En) as [-> ?]. }
  unfold data_pdu_effect in Heff. rewrite Er in Heff.
  destruct (read_header_range _ _ _ Hb Er) as (_ & Hso0 & _).
  destruct ((zlen buf <=? hdr_get_packed_size header) || _) eqn:E0; [by apply Hsame|].
  apply orb_false_iff in E0 as [Hlen Hin]. apply negb_false_iff in Hin.
  destruct Heff as [[_ Heff]|[Hnr (out1 & s1 & Heff & Ew & En & ->)]]; [by apply Hsame|].
  assert (base <= n) as Hge.
  { destruct (decide (base <= n)); [done|]. unfold inside_rx_window in Hin. zbool.
    destruct (track_base _ _ _ Ht) as [_ Eb].
    assert (n mod m = (n + m) mod m) as E by (rewrite <- (Z_mod_plus_full n 1 m); f_equal; lia).
    rewrite Esn, E, dist_count with (base:=base) in Hin by (done || lia). lia. }
  assert (0 <= hdr_get_packed_size header) as Hpk.
  { unfold hdr_get_packed_size. by destruct (hdr_si header), (hdr_sn_size header). }
  eapply (placed_tracks base ns s n header); [done|done|lia|done|by rewrite <- Esn| |exact Hpiece| |done].
  - specialize (Hso _ Er). unfold seg_ok, seg_end, seg_len. cbn. rewrite zlen_drop by lia. lia.
  - unfold place_effect. by rewrite Ew, En.
Qed.

Lemma step_tracks base ns s n op :
  tracks base ns s -> genuine_op base n op ->
  exists s' out new, rx_am_step cfg op s = Ok (s', out) /\ delivered out = sdus <$> new /\
    tracks (next_count base s s') (ns ++ new) s'.
Proof.
  intros Ht [Hop Hgen]. pose proof (track_inv _ _ _ Ht) as Hs.
  assert (forall s' out, rx_am_step cfg op s = Ok (s', out) -> rx_inv cfg s' ->
    rx_window s' = rx_window s -> rx_next s' = rx_next s -> delivered out = [] ->
    exists s' out new, rx_am_step cfg op s = Ok (s', out) /\ delivered out = sdus <$> new /\
      tracks (next_count base s s') (ns ++ new) s') as Hsame.
  { intros s' out E Hs' Ew En Ed. exists s', out, []. rewrite app_nil_r, E, Ed. split_and!; try done.
    by destruct (tracks_frame base ns s s' Ht Hs' Ew En) as [-> ?]. }
  destruct (rx_am_step_spec cfg Hcfg op s Hs Hop) as (s1 & out1 & E1 & Hs1).
  destruct op as [alloc buf| | | |deferred|]; cbn [rx_am_step rx_am_op_ok] in *.
  - destruct Hgen as [-> Hgen]. unfold handle_pdu in *. destruct buf as [|b0 rdr] eqn:Ebuf.
    { by apply (Hsame _ _ eq_refl). }
    rewrite <- Ebuf in *. destruct Hgen as [Ec|(Hn0 & Hn & Hc & Ec)]; rewrite Ec in *; cbn [checked_bind] in *.
    + destruct (handle_control_pdu_spec cfg buf s (proj1 Hop)) as (out & Eout & Hout).
      rewrite Eout in *. cbn [checked_bind] in *. apply (Hsame _ _ eq_refl); try done.
      by destruct Hout as [->|(? & -> & _)].
    + destruct (handle_data_pdu_spec cfg Hcfg true buf s Hs Hop) as (s2 & out & E & Hs2 & Heff).
      rewrite E. cbn [checked_bind].
      destruct (data_tracks base ns s n buf s2 out Ht Hop Hn0 Hn Hc Hs2 Heff) as (new & Hd & Ht').
      by exists s2, (MetricPdus 1 (zlen buf) :: out), new.
  - destruct (reassembly_timer s) eqn:Et; [|by apply (Hsame _ _ eq_refl)].
    destruct (on_expired_reassembly_spec cfg Hcfg s Hs Et) as (s2 & out & E & Hs2 & _ & Ew & En & Ed & _).
    by apply (Hsame _ _ E).
  - destruct (deferred_prohibit s); apply (Hsame _ _ E1); by injection E1 as <- <-.
  - destruct (status_prohibit_timer s); [|by apply (Hsame _ _ eq_refl)].
    apply (Hsame _ _ E1); injection E1 as <- <-; try done.
    unfold notify_status_report_changed. by case_match.
  - apply (Hsame _ _ E1); injection E1 as <- <-; try done;
      unfold get_status_pdu; by repeat case_match.
  - apply (Hsame _ _ E1); injection E1 as <- <-; try done; unfold rx_stop; by case_match.
Qed.

Lemma run_tracks base ns s ops :
  tracks base ns s -> genuine base ops s ->
  exists base' s' out new, rx_am_run cfg (fst <$> ops) s = Ok (s', out) /\
    delivered out = sdus <$> new /\ tracks base' (ns ++ new) s'.
Proof.
  revert base ns s. induction ops as [|[op n] ops IH]; intros base ns s Ht Hg; cbn [rx_am_run fmap list_fmap].
  { exists base, s, [], []. rewrite app_nil_r. by split_and!. }
  destruct Hg as [Hop Hg]. destruct (step_tracks base ns s n op Ht Hop) as (s1 & out1 & new1 & E & Hd1 & Ht1).
  rewrite E in Hg. cbn [rx_am_run fst]. rewrite E. cbn [checked_bind].
  destruct (IH _ _ _ Ht1 Hg) as (base' & s' & out & new & E' & Hd & Ht').
  cbn in E'. rewrite E'. cbn [checked_bind]. exists base', s', (out1 ++ out), (new1 ++ new).
  split; [done|]. split; [|by rewrite app_assoc]. unfold delivered in *. by rewrite omap_app, fmap_app, Hd1, Hd.
Qed.
End rx_am_delivery.
