(* ===== verification/RlcRxAmRuns.v ===== *)
(** * RLC AM: what the receiving entity guarantees

    The properties of every run of the receiving entity from its construction: no
    assertion fails, SDUs are delivered once and unaltered, status reports are
    exact, t-Reassembly acts on the right numbers; concrete runs over the circular
    map of the code; and what PDUs outside the range of segment offsets do. *)
From stdpp Require Import base numbers list gmap.
From Stdlib Require Import ZArith Lia.
From S2P Require Import Prelude.
From S2P Require Import RlcConfig.
From S2P Require Import RlcAmPdu.
From S2P Require Import RlcAmPduProps.
From S2P Require Import SduWindow.
From S2P Require Import RlcSegments.
From S2P Require Import RlcRxAm.
From S2P Require Import RlcRxAmProps.
From S2P Require Import RlcRxAmDelivery.

Set Default Goal Selector "!".
Open Scope Z_scope.
Open Scope ran_scope.

Section rx_am_runs.
Context {W : Type -> Type} `{!SduWindow W} `{!SduWindowLaws W}.
Variable cfg : rlc_rx_am_config.
Hypothesis Hcfg : cfg_ok cfg.
Implicit Types s : rx_am_state W.

Lemma run_from_init s0 ops :
  rx_am_init cfg = Ok s0 -> Forall (rx_am_op_ok cfg) ops ->
  exists s out, rx_am_run cfg ops s0 = Ok (s, out) /\ rx_inv cfg s.
Proof.
  intros Hinit Hops. destruct (rx_am_init_spec (W:=W) cfg Hcfg) as (s & E & Hs & _).
  rewrite E in Hinit. injection Hinit as <-. by apply (rx_am_run_spec cfg Hcfg ops s).
Qed.

Lemma reachable_inv s0 s ops out :
  rx_am_init cfg = Ok s0 -> Forall (rx_am_op_ok cfg) ops ->
  rx_am_run cfg ops s0 = Ok (s, out) -> rx_inv cfg s.
Proof.
  intros Hinit Hops E. destruct (run_from_init s0 ops Hinit Hops) as (s' & out' & E' & Hs).
  rewrite E in E'. by injection E' as -> ->.
Qed.

Lemma rx_am_delivers (sdus : Z -> list Z) s0 ops :
  rx_am_init cfg = Ok s0 -> genuine cfg sdus 0 ops s0 ->
  exists s out ns count, rx_am_run cfg (fst <$> ops) s0 = Ok (s, out) /\
    delivered out = sdus <$> ns /\ NoDup ns /\
    count mod mod_nr cfg = rx_next s /\
    (forall n, n ∈ ns -> 0 <= n < count + am_window_size cfg) /\
    (forall n, 0 <= n < count -> n ∈ ns).
Proof.
  intros Hinit Hg. destruct (rx_am_init_spec (W:=W) cfg Hcfg) as (s & E & Hs & En & _ & Hv).
  rewrite E in Hinit. injection Hinit as <-.
  destruct (run_tracks cfg Hcfg sdus 0 [] s ops) as (n' & s' & out & ns & Er & Hd & Ht); [|done|].
  - split; [done|by rewrite En|constructor| |].
    + intros n. split; [by intros ?%elem_of_nil|]. intros [?|(_ & i & Hi & _)]; [lia|].
      by rewrite Hv in Hi.
    + intros n i _ Hi. by rewrite Hv in Hi.
  - exists s', out, ns, n'. destruct Ht as [_ [Hb Eb] Hnd Hdel _]. pose proof (ws_bounds cfg).
    split_and!; try done; intros n; rewrite Hdel; [|lia]. intros [?|[? _]]; lia.
Qed.

(** C7. The receiving AM entity, configured with t-Reassembly above zero and a limit of SNs
    per status report, if set, between one and the window size, delivers reliably: the peer
    numbers its SDUs from 0 on and sends each, whole or in segments, in any order and any
    number of times, never more than a window away from what is expected; status PDUs, timer
    expiries, status requests and a stop come in between, and there is memory for every SDU.
    Then the entity does not abort, hands over only SDUs of the peer, unaltered and none of
    them twice, and has handed over all those before RX_Next. *)
Theorem rx_am_reliable_delivery (sdus : Z -> list Z) s0 ops :
  rx_am_init cfg = Ok s0 -> genuine cfg sdus 0 ops s0 ->
  exists s out ns count, rx_am_run cfg (fst <$> ops) s0 = Ok (s, out) /\
    delivered out = sdus <$> ns /\ NoDup ns /\
    count mod mod_nr cfg = rx_next s /\
    (forall n, n ∈ ns -> 0 <= n < count + am_window_size cfg) /\
    (forall n, 0 <= n < count -> n ∈ ns).
Proof. apply rx_am_delivers. Qed.

(** C9. When t-Reassembly is configured above zero and the limit of SNs per status report,
    if set, is between one and the window size, no assertion of the receiving AM entity can
    fail and none of its loops runs over the window size (t-Reassembly of zero aborts, see
    zero_reassembly_timer_panics): after any PDUs whose payloads end within the range of
    segment offsets, any timer expiries, status requests and stops, the state satisfies
    RX_Next <= RX_Highest_Status <= RX_Next_Highest <= RX_Next + window size in modular
    order, no number outside [RX_Next, RX_Next_Highest) is in the window, and a running
    t-Reassembly has its trigger ahead of RX_Next. *)
Theorem rx_am_never_panics s0 ops :
  rx_am_init cfg = Ok s0 -> Forall (rx_am_op_ok cfg) ops ->
  exists s out, rx_am_run cfg ops s0 = Ok (s, out) /\
    0 <= rx_mod_base cfg (rx_next s) (rx_highest_status s)
      <= rx_mod_base cfg (rx_next s) (rx_next_highest s) /\
    rx_mod_base cfg (rx_next s) (rx_next_highest s) <= am_window_size cfg /\
    (forall sn, has_sn (rx_window s) sn = true ->
       rx_mod_base cfg (rx_next s) sn < rx_mod_base cfg (rx_next s) (rx_next_highest s)) /\
    (reassembly_timer s = true ->
       0 < rx_mod_base cfg (rx_next s) (rx_next_status_trigger s)
         <= rx_mod_base cfg (rx_next s) (rx_next_highest s)).
Proof.
  intros Hinit Hops. destruct (run_from_init s0 ops Hinit Hops) as (s & out & E & Hs).
  exists s, out. split; [done|]. pose proof (dist_range cfg (rx_next s) (rx_highest_status s)).
  pose proof (inv_highest_status _ _ Hs). split_and!; [lia|lia|by apply Hs| |by apply trigger_bounds].
  intros sn Hsn. apply has_sn_spec in Hsn as [i Hi]. by destruct (inv_entries _ _ Hs _ _ Hi) as (_ & ? & _).
Qed.

(** C17. A status report is exact: with t-Reassembly above zero and a limit of SNs per
    status report, if set, between one and the window size, in every state that events with
    PDUs whose payloads end within the range of segment offsets lead to, the report that the
    entity builds acknowledges up to ACK_SN, which is RX_Highest_Status or the configured
    number of SDUs after RX_Next, whichever is first; and for every number and byte offset,
    a NACK of the report covers it if and only if the number lies between RX_Next and ACK_SN
    and the byte has not been received. *)
Theorem status_report_exact s0 s ops out :
  rx_am_init cfg = Ok s0 -> Forall (rx_am_op_ok cfg) ops ->
  rx_am_run cfg ops s0 = Ok (s, out) ->
  exists s', refresh_status_report cfg s = Ok s' /\
    let report := status_for_exchange s' in
    rx_mod_base cfg (rx_next s) (sp_ack_sn report) =
      Z.min (rx_mod_base cfg (rx_next s) (rx_highest_status s))
            (max_nof_sn_per_status_report cfg) /\
    get_status_pdu_length s' = sp_packed_size report /\
    forall sn off, in_sn cfg sn -> is_u16 off ->
      status_covers report sn off = true <->
      rx_mod_base cfg (rx_next s) sn < rx_mod_base cfg (rx_next s) (sp_ack_sn report) /\
      missing (rx_window s) sn off.
Proof.
  intros Hinit Hops E. pose proof (reachable_inv _ _ _ _ Hinit Hops E) as Hs.
  destruct (refresh_spec cfg Hcfg s Hs) as (s' & -> & _ & _ & _ & _ & _ & Eack & Esz & Hcov).
  exists s'. split; [done|]. cbn. rewrite Eack. split; [apply (status_stop_spec cfg Hcfg s Hs)|].
  by split.
Qed.

(** C34. Expiry of t-Reassembly takes neither early return: with t-Reassembly above zero and
    a limit of SNs per status report, if set, between one and the window size, in every
    state that events with PDUs whose payloads end within the range of segment offsets lead
    to and in which the timer runs, RX_Highest_Status becomes the first number at or after
    RX_Next_Status_Trigger that is not fully received, nothing leaves the window, RX_Next
    stays, and a status report is requested. *)
Theorem reassembly_expiry s0 s ops out :
  rx_am_init cfg = Ok s0 -> Forall (rx_am_op_ok cfg) ops ->
  rx_am_run cfg ops s0 = Ok (s, out) -> reassembly_timer s = true ->
  exists s' out', rx_am_step cfg RxReassemblyExpired s = Ok (s', out') /\
    do_status s' = true /\ rx_window s' = rx_window s /\ rx_next s' = rx_next s /\
    first_missing cfg (rx_window s) (rx_next s) (rx_next_status_trigger s) (rx_next_highest s)
      (rx_highest_status s').
Proof.
  intros Hinit Hops E Ht. pose proof (reachable_inv _ _ _ _ Hinit Hops E) as Hs.
  destruct (on_expired_reassembly_spec cfg Hcfg s Hs Ht) as (s' & out' & E' & _ & ? & ? & ? & _ & ?).
  exists s', out'. cbn [rx_am_step]. by rewrite Ht, E'.
Qed.
End rx_am_runs.

(** ** Concrete runs *)

Definition ex_rx_cfg : rlc_rx_am_config :=
  {| rxam_sn_field_length := am_size12bits; rxam_t_reassembly := 35;
     rxam_t_status_prohibit := 0; rxam_max_sn_per_status := None |}.

(** The constructor does not abort: its result, by computation. *)
Definition ex_rx_init : rx_am_state circular_map :=
  Eval vm_compute in
    match rx_am_init (W:=circular_map) ex_rx_cfg as r
      return match r with Ok _ => rx_am_state circular_map | Panic => unit end with
    | Ok s => s
    | Panic => tt
    end.

Lemma ex_init_run : rx_am_init ex_rx_cfg = Ok ex_rx_init.
Proof. by vm_compute. Qed.

(** SDU 1 whole, then the end of SDU 0, t-Reassembly expires, and the start of
    SDU 0. *)
Definition ex_sdu1 : list Z := [128; 1; 21; 22].
Definition ex_sdu0_end : list Z := [160; 0; 0; 1; 12; 13].
Definition ex_sdu0_start : list Z := [144; 0; 11].
Definition ex_ops : list (rx_am_op * Z) :=
  [(RxPdu true ex_sdu1, 1); (RxPdu true ex_sdu0_end, 0); (RxReassemblyExpired, 0);
   (RxPdu true ex_sdu0_start, 0)].
Definition ex_sdus (n : Z) : list Z := if n =? 0 then [11; 12; 13] else [21; 22].

Example ex_run_delivers :
  match rx_am_run ex_rx_cfg (fst <$> ex_ops) ex_rx_init with
  | Ok (s, out) => delivered out = [[21; 22]; [11; 12; 13]] /\ rx_next s = 2
  | Panic => False
  end.
Proof. by vm_compute. Qed.

Lemma ex_cfg_ok : cfg_ok ex_rx_cfg.
Proof. by split. Qed.

(** The bytes of a concrete PDU are bytes and its payload ends in range. *)
Ltac solve_pdu_ok :=
  split; [repeat (apply Forall_cons_2; [unfold in_range; lia|]); apply Forall_nil_2
         |intros h Hh; vm_compute in Hh; injection Hh as <-; by vm_compute].

Lemma ex_sdu1_ok : pdu_ok ex_rx_cfg ex_sdu1.
Proof. solve_pdu_ok. Qed.
Lemma ex_sdu0_end_ok : pdu_ok ex_rx_cfg ex_sdu0_end.
Proof. solve_pdu_ok. Qed.
Lemma ex_sdu0_start_ok : pdu_ok ex_rx_cfg ex_sdu0_start.
Proof. solve_pdu_ok. Qed.

Lemma ex_ops_ok : Forall (rx_am_op_ok ex_rx_cfg) (fst <$> ex_ops).
Proof.
  repeat (apply Forall_cons_2;
    [first [exact ex_sdu1_ok|exact ex_sdu0_end_ok|exact ex_sdu0_start_ok|exact I]|]).
  apply Forall_nil_2.
Qed.

Lemma ex_carries1 : carries ex_rx_cfg ex_sdus 1 ex_sdu1.
Proof. eexists. split; [by vm_compute|]. by vm_compute. Qed.

Lemma ex_carries0_end : carries ex_rx_cfg ex_sdus 0 ex_sdu0_end.
Proof.
  eexists. split; [by vm_compute|]. split; [done|]. split; [by vm_compute|].
  split; [by exists []|]. split; [by vm_compute|]. by vm_compute.
Qed.

Lemma ex_carries0_start : carries ex_rx_cfg ex_sdus 0 ex_sdu0_start.
Proof.
  eexists. split; [by vm_compute|]. split; [done|]. split; [by vm_compute|].
  split; [by exists [12; 13]|]. split; [by vm_compute|]. by vm_compute.
Qed.

(** Evaluates the step and the count at the head of a [genuine] run. *)
Ltac eval_step :=
  match goal with |- match ?t with _ => _ end => let r := eval vm_compute in t in change t with r end;
  cbn iota; match goal with |- genuine _ _ ?b _ _ => let r := eval vm_compute in b in change b with r end.

Lemma ex_genuine : genuine ex_rx_cfg ex_sdus 0 ex_ops ex_rx_init.
Proof.
  pose proof ex_sdu1_ok. pose proof ex_sdu0_end_ok. pose proof ex_sdu0_start_ok.
  pose proof ex_carries1. pose proof ex_carries0_end. pose proof ex_carries0_start.
  unfold ex_ops. do 4 (split; [split; [first [done|exact I]|]; first
    [exact I|split; [done|right]; split_and!; [done|by vm_compute|by vm_compute|done|done]]|eval_step]).
  exact I.
Qed.

Lemma rx_am_reliable_delivery_witness :
  exists s out ns count, rx_am_run ex_rx_cfg (fst <$> ex_ops) ex_rx_init = Ok (s, out) /\
    delivered out = ex_sdus <$> ns /\ NoDup ns /\ count mod 4096 = rx_next s.
Proof.
  destruct (rx_am_reliable_delivery ex_rx_cfg ex_cfg_ok ex_sdus ex_rx_init ex_ops)
    as (s & out & ns & count & E & Hd & Hn & Hc & _); [exact ex_init_run|apply ex_genuine|].
  exists s, out, ns, count. exact (conj E (conj Hd (conj Hn Hc))).
Defined.

Lemma rx_am_never_panics_witness :
  exists s out, rx_am_run ex_rx_cfg (fst <$> ex_ops) ex_rx_init = Ok (s, out).
Proof.
  destruct (rx_am_never_panics ex_rx_cfg ex_cfg_ok ex_rx_init (fst <$> ex_ops))
    as (s & out & E & _); [exact ex_init_run|apply ex_ops_ok|]. exists s, out. exact E.
Defined.

(** The state after the first PDUs: SDU 1 and the end of SDU 0 are there. *)
Definition ex_rx_gap : rx_am_state circular_map :=
  Eval vm_compute in
    match rx_am_run ex_rx_cfg [RxPdu true ex_sdu1; RxPdu true ex_sdu0_end] ex_rx_init as r
      return match r with Ok _ => rx_am_state circular_map | Panic => unit end with
    | Ok (s, _) => s
    | Panic => tt
    end.
Definition ex_gap_output : list rx_am_output :=
  [MetricPdus 1 4; MetricSdus 1 2; OutSdu [21; 22]; MetricPdus 1 6].

Lemma ex_gap_run :
  rx_am_run ex_rx_cfg [RxPdu true ex_sdu1; RxPdu true ex_sdu0_end] ex_rx_init =
    Ok (ex_rx_gap, ex_gap_output).
Proof. by vm_compute. Qed.

Lemma ex_gap_ops_ok :
  Forall (rx_am_op_ok ex_rx_cfg) [RxPdu true ex_sdu1; RxPdu true ex_sdu0_end].
Proof.
  apply Forall_cons_2; [exact ex_sdu1_ok|]. apply Forall_cons_2; [exact ex_sdu0_end_ok|].
  apply Forall_nil_2.
Qed.

Lemma status_report_exact_witness :
  exists s', refresh_status_report ex_rx_cfg ex_rx_gap = Ok s' /\
    get_status_pdu_length s' = sp_packed_size (status_for_exchange s').
Proof.
  destruct (status_report_exact ex_rx_cfg ex_cfg_ok ex_rx_init ex_rx_gap _ ex_gap_output
    ex_init_run ex_gap_ops_ok ex_gap_run) as (s' & E & _ & Hsz & _).
  exists s'. exact (conj E Hsz).
Defined.

Lemma reassembly_expiry_witness :
  exists s' out', rx_am_step ex_rx_cfg RxReassemblyExpired ex_rx_gap = Ok (s', out') /\
    do_status s' = true.
Proof.
  destruct (reassembly_expiry ex_rx_cfg ex_cfg_ok ex_rx_init ex_rx_gap _ ex_gap_output
    ex_init_run ex_gap_ops_ok ex_gap_run eq_refl) as (s' & out' & E & Hd & _).
  exists s', out'. exact (conj E Hd).
Defined.

(** ** Offsets out of range *)

(** Three PDUs of SDU 0: bytes 0 to 4, bytes 65530 to 65539, bytes 65535 to 65544.
    The overlap of the last two is cut from the third, whose offset wraps to 4. *)
Definition ex_wrap_ops : list rx_am_op :=
  [RxPdu true [144; 0; 1; 2; 3; 4; 5];
   RxPdu true ([176; 0; 255; 250] ++ [1; 2; 3; 4; 5; 6; 7; 8; 9; 10]);
   RxPdu true ([176; 0; 255; 255] ++ [1; 2; 3; 4; 5; 6; 7; 8; 9; 10]);
   RxReassemblyExpired].

(** A peer can abort the receiving entity: the offset of a segment is advanced
    modulo 2^16 when its front overlaps a stored segment, so payloads that end
    beyond byte 65535 leave overlapping segments, and the next status report builds
    a NACK whose SO_START is greater than its SO_END, which an assertion refuses.
    The PDUs are well-formed AMD PDUs. *)
Theorem segment_offset_overflow_panics :
  rx_am_run ex_rx_cfg ex_wrap_ops ex_rx_init = Panic /\
  Forall (fun op => match op with
                    | RxPdu _ buf => is_Some (rlc_am_read_data_pdu_header buf am_size12bits am_header_zero)
                    | _ => True
                    end) ex_wrap_ops.
Proof.
  split; [by vm_compute|]. repeat (apply Forall_cons_2; [by first [by eexists|exact I]|]).
  apply Forall_nil_2.
Qed.

(** Without a duration, which the configuration allows, starting t-Reassembly
    aborts. *)
Example zero_reassembly_timer_panics :
  rx_am_run (ex_rx_cfg <| rxam_t_reassembly := 0 |>) [RxPdu true ex_sdu1] ex_rx_init = Panic.
Proof. by vm_compute. Qed.
