(* ===== verification/RlcUmPdu.v ===== *)
(** * RLC UM: header of the data PDU

    Models [src/lib/rlc/rlc_um_pdu.h]: the UMD PDU header, its sizes, reading and
    writing; the round trip of the two, and what the reader accepts. *)
From stdpp Require Import base numbers list.
From Stdlib Require Import ZArith Lia.
From S2P Require Import Prelude.
From S2P Require Import RlcConfig.
From S2P Require Import RlcAmPduProps.

Set Default Goal Selector "!".
Open Scope Z_scope.
Open Scope ran_scope.

(** ** Sizes *)

Definition rlc_um_pdu_header_size_complete_sdu : Z := 1.
Definition rlc_um_pdu_header_size_no_so (sn_size : rlc_um_sn_size) : Z :=
  match sn_size with um_size6bits => 1 | um_size12bits => 2 end.
Definition rlc_um_pdu_header_size_with_so (sn_size : rlc_um_sn_size) : Z :=
  match sn_size with um_size6bits => 3 | um_size12bits => 4 end.

(** ** The header *)

Record rlc_um_pdu_header := mk_rlc_um_pdu_header {
  uhdr_si : rlc_si_field;
  uhdr_sn_size : rlc_um_sn_size;
  uhdr_sn : Z;
  uhdr_so : Z;
}.
#[export] Instance rlc_um_pdu_header_eta : RecordEta rlc_um_pdu_header := fun r =>
  mk_rlc_um_pdu_header (uhdr_si r) (uhdr_sn_size r) (uhdr_sn r) (uhdr_so r).

(** [rlc_um_pdu_header header = {}], the SN size being overwritten by the reader. *)
Definition um_header_zero : rlc_um_pdu_header :=
  mk_rlc_um_pdu_header full_sdu um_size6bits 0 0.

Definition um_si_has_so (si : rlc_si_field) : bool :=
  bool_decide (si = last_segment) || bool_decide (si = middle_segment).

(** [None]: the function returns false. *)
Definition rlc_um_read_data_pdu_header (pdu : list Z) (sn_size : rlc_um_sn_size)
    (header : rlc_um_pdu_header) : option rlc_um_pdu_header :=
  match pdu with
  | [] => None
  | b0 :: rdr =>
      let header := header <| uhdr_sn_size := sn_size |>
        <| uhdr_si := si_of_bits (Z.land (Z.shiftr b0 6) 0x03) |> in
      '(header, rdr) ←
        match sn_size with
        | um_size6bits =>
            let header := header <| uhdr_sn := Z.land b0 0x3f |> in
            if bool_decide (uhdr_si header = full_sdu) && negb (uhdr_sn header =? 0)
            then None else Some (header, rdr)
        | um_size12bits =>
            let header := header <| uhdr_sn := Z.shiftl (Z.land b0 0x0f) 8 |> in
            if bool_decide (uhdr_si header = full_sdu) && negb (uhdr_sn header =? 0) then None else
            if bool_decide (uhdr_si header = first_segment) &&
               negb (Z.land (Z.shiftr b0 4) 0x03 =? 0) then None else
            if negb (bool_decide (uhdr_si header = full_sdu)) then
              match rdr with
              | [] => None
              | b1 :: rdr => Some (header <| uhdr_sn ::= fun sn => Z.lor sn (Z.land b1 0xff) |>, rdr)
              end
            else Some (header, rdr)
        end;
      if um_si_has_so (uhdr_si header) then
        match rdr with
        | [] | [_] => None
        | s0 :: s1 :: _ =>
            Some (header <| uhdr_so := Z.lor (u16 (Z.shiftl (Z.land s0 0xff) 8))
                                             (Z.land s1 0xff) |>)
        end
      else Some header
  end.

Definition rlc_um_nr_packed_length (h : rlc_um_pdu_header) : Z :=
  match uhdr_si h with
  | full_sdu => 1
  | _ => (match uhdr_sn_size h with um_size6bits => 1 | um_size12bits => 2 end) +
         (if negb (uhdr_so h =? 0) then 2 else 0)
  end.

(** The bytes written to the buffer. *)
Definition rlc_um_write_data_pdu_header (h : rlc_um_pdu_header) : list Z :=
  let b0 := u8 (Z.shiftl (Z.land (si_to_number (uhdr_si h)) 0x03) 6) in
  match uhdr_si h with
  | full_sdu => [b0]
  | _ =>
      (match uhdr_sn_size h with
       | um_size6bits => [u8 (Z.lor b0 (Z.land (uhdr_sn h) 0x3f))]
       | um_size12bits =>
           [u8 (Z.lor b0 (Z.land (Z.shiftr (uhdr_sn h) 8) 0xf)); u8 (Z.land (uhdr_sn h) 0xff)]
       end) ++
      (if negb (uhdr_so h =? 0) then
         [u8 (Z.shiftr (uhdr_so h) 8); u8 (Z.land (uhdr_so h) 0xff)]
       else [])
  end.

(** ** Properties *)

Definition um_sn_max (h : rlc_um_pdu_header) : Z :=
  match uhdr_sn_size h with um_size6bits => 64 | um_size12bits => 4096 end.

(** A header the transmitter builds: a complete SDU has no sequence number, and an
    offset is present exactly in the segments after the first. *)
Record um_header_wf (h : rlc_um_pdu_header) : Prop := {
  uwf_sn : 0 <= uhdr_sn h < um_sn_max h;
  uwf_full : uhdr_si h = full_sdu -> uhdr_sn h = 0;
  uwf_so : is_u16 (uhdr_so h);
  uwf_has_so : um_si_has_so (uhdr_si h) = negb (uhdr_so h =? 0);
}.

(** The first byte of the two formats and the fields read from it. *)
Lemma um_b0_fields si k hi :
  0 <= hi < 2 ^ k -> k = 4 \/ k = 6 ->
  let b0 := u8 (Z.lor (u8 (Z.shiftl (Z.land (si_to_number si) 0x03) 6)) hi) in
  si_of_bits (Z.land (Z.shiftr b0 6) 0x03) = si /\ b0 mod 64 = hi /\
  Z.land (Z.shiftr b0 4) 0x03 = hi / 16.
Proof.
  intros Hhi Hk b0.
  assert (0 <= hi < 64) as Hhi' by (destruct Hk; subst; lia).
  assert (b0 = si_to_number si * 64 + hi) as E.
  { unfold b0. destruct si; cbn -[Z.lor wrap];
      match goal with |- context [Z.lor ?c hi] => let c' := eval vm_compute in c in change c with c' end;
      rewrite (lor_disjoint 6) by first [reflexivity|lia]; rewrite wrap_small by (unfold in_range; lia); lia. }
  assert (b0 / 64 mod 4 = si_to_number si) as E1 by (rewrite E; destruct si; cbn; dlia).
  bits. rewrite E1, si_of_to_number. split_and!; [done|rewrite E; destruct si; cbn; dlia|].
  rewrite E. destruct si; cbn; dlia.
Qed.

Lemma um_header_bytes h :
  zlen (rlc_um_write_data_pdu_header h) = rlc_um_nr_packed_length h /\
  Forall is_u8 (rlc_um_write_data_pdu_header h).
Proof.
  unfold rlc_um_write_data_pdu_header, rlc_um_nr_packed_length.
  destruct (uhdr_si h), (uhdr_sn_size h), (negb (uhdr_so h =? 0)); cbn -[wrap];
    (split; [done|repeat (apply Forall_cons_2; [apply wrap_byte|]); apply Forall_nil_2]).
Qed.

Lemma um_header_read_back h payload :
  um_header_wf h ->
  rlc_um_read_data_pdu_header (rlc_um_write_data_pdu_header h ++ payload)
    (uhdr_sn_size h) um_header_zero = Some h.
Proof.
  intros Hwf.
  destruct h as [si sz sn so], Hwf as [Hsn Hfull Hso Hhas]. cbn in Hsn, Hfull, Hso, Hhas.
  destruct (decide (si = full_sdu)) as [->|Hsi].
  { assert (sn = 0) as -> by by apply Hfull.
    assert (so = 0) as -> by (symmetry in Hhas; apply negb_false_iff in Hhas; zbool; lia).
    by destruct sz. }
  assert (rlc_um_write_data_pdu_header (mk_rlc_um_pdu_header si sz sn so) =
    (match sz with
     | um_size6bits => [u8 (Z.lor (u8 (Z.shiftl (Z.land (si_to_number si) 0x03) 6)) (Z.land sn 0x3f))]
     | um_size12bits =>
         [u8 (Z.lor (u8 (Z.shiftl (Z.land (si_to_number si) 0x03) 6)) (Z.land (Z.shiftr sn 8) 0xf));
          u8 (Z.land sn 0xff)]
     end) ++ (if um_si_has_so si then [u8 (Z.shiftr so 8); u8 (Z.land so 0xff)] else [])) as ->.
  { rewrite Hhas. by destruct si. }
  assert (um_si_has_so si = false -> so = 0) as Hso0.
  { rewrite Hhas. intros ?%negb_false_iff. by zbool. }
  assert (bool_decide (si = full_sdu) = false) as Hnf by by apply bool_decide_eq_false_2.
  destruct sz; cbn in Hsn; unfold um_sn_max in Hsn; cbn in Hsn.
  - destruct (um_b0_fields si 6 (Z.land sn 0x3f) ltac:(bits; dlia) ltac:(by right)) as (F1 & F2 & _).
    set (b0 := u8 _) in *. unfold rlc_um_read_data_pdu_header. cbn -[Z.land Z.lor Z.shiftl Z.shiftr wrap b0].
    rewrite F1, Hnf. cbn -[Z.land Z.lor Z.shiftl Z.shiftr wrap b0].
    assert (Z.land b0 63 = sn) as -> by (revert F2; bits; intros; dlia).
    destruct (um_si_has_so si) eqn:E; cbn -[Z.land Z.lor Z.shiftl Z.shiftr wrap b0].
    + by rewrite so_bytes.
    + by rewrite Hso0.
  - destruct (um_b0_fields si 4 (Z.land (Z.shiftr sn 8) 0xf) ltac:(bits; dlia) ltac:(by left)) as (F1 & F2 & F3).
    set (b0 := u8 (Z.lor _ _)) in *. unfold rlc_um_read_data_pdu_header.
    cbn -[Z.land Z.lor Z.shiftl Z.shiftr wrap b0].
    rewrite F1, Hnf. cbn -[Z.land Z.lor Z.shiftl Z.shiftr wrap b0].
    assert ((Z.land (Z.shiftr b0 4) 3 =? 0) = true) as -> by (rewrite F3; bits; dlia).
    rewrite andb_false_r. unfold field_update. cbn -[Z.land Z.lor Z.shiftl Z.shiftr wrap b0].
    rewrite sn_bytes_12 by (try lia; revert F2; bits; intros; dlia).
    destruct (um_si_has_so si) eqn:E; cbn -[Z.land Z.lor Z.shiftl Z.shiftr wrap b0].
    + by rewrite so_bytes.
    + by rewrite Hso0.
Qed.

(** A UMD header written in front of a payload is read back, whatever the
    format of the sequence number and the segmentation, and takes the size that the
    entities account for. *)
Theorem um_header_roundtrip h payload :
  um_header_wf h ->
  rlc_um_read_data_pdu_header (rlc_um_write_data_pdu_header h ++ payload)
    (uhdr_sn_size h) um_header_zero = Some h /\
  zlen (rlc_um_write_data_pdu_header h) = rlc_um_nr_packed_length h /\
  Forall is_u8 (rlc_um_write_data_pdu_header h).
Proof.
  intros Hwf. split; [by apply um_header_read_back|apply um_header_bytes].
Qed.

Lemma um_header_roundtrip_witness :
  rlc_um_read_data_pdu_header
    (rlc_um_write_data_pdu_header (mk_rlc_um_pdu_header last_segment um_size12bits 3001 1500) ++ [7])
    um_size12bits um_header_zero = Some (mk_rlc_um_pdu_header last_segment um_size12bits 3001 1500).
Proof.
  apply (um_header_roundtrip (mk_rlc_um_pdu_header last_segment um_size12bits 3001 1500) [7]).
  constructor; cbn; unfold um_sn_max, in_range; cbn; lia || done.
Defined.

(** Of the six reserved bits of a complete SDU with a 12-bit number, four are
    checked. *)
Example reserved_bits_accepted :
  rlc_um_read_data_pdu_header [0x30; 7] um_size12bits um_header_zero =
    Some (um_header_zero <| uhdr_sn_size := um_size12bits |>).
Proof. reflexivity. Qed.
