(* ===== verification/RlcRxUm.v ===== *)
(** * RLC UM: receiving entity

    Models [rlc_rx_um_entity] of [src/lib/rlc/rlc_rx_um_entity.h] and
    [src/lib/rlc/rlc_rx_um_entity.cpp]: reception of UMD PDUs, the reassembly window,
    delivery, t-Reassembly.  Its segment repository works as that of the AM entity
    ([RlcSegments]); its window is the one of [SduWindow]. *)
From stdpp Require Import base numbers list.
From Stdlib Require Import ZArith Lia.
From S2P Require Import Prelude.
From S2P Require Import RlcConfig.
From S2P Require Import RlcUmPdu.
From S2P Require Import SduWindow.
From S2P Require Import RlcSegments.

Set Default Goal Selector "!".
Open Scope Z_scope.
Open Scope ran_scope.

(** ** Data *)

Record rlc_rx_um_sdu_info := mk_rlc_rx_um_sdu_info {
  um_fully_received : bool;
  um_has_gap : bool;
  um_segments : list rlc_rx_sdu_segment;
}.
#[export] Instance rlc_rx_um_sdu_info_eta : RecordEta rlc_rx_um_sdu_info := fun r =>
  mk_rlc_rx_um_sdu_info (um_fully_received r) (um_has_gap r) (um_segments r).
Definition um_sdu_info_default : rlc_rx_um_sdu_info := mk_rlc_rx_um_sdu_info false false [].

Record rlc_rx_um_config := mk_rlc_rx_um_config {
  rxum_sn_field_length : rlc_um_sn_size;
  rxum_t_reassembly : Z;
}.

Inductive rx_um_output : Type :=
| UmOutSdu (sdu : list Z)
| UmMetricPdus (pdus bytes : Z)
| UmMetricMalformedPdus (pdus : Z)
| UmMetricSdus (sdus bytes : Z)
| UmMetricLostPdus (pdus : Z).

#[export] Instance rx_um_output_eq_dec : EqDecision rx_um_output.
Proof. solve_decision. Defined.

Record rx_um_state (W : Type -> Type) := mk_rx_um_state {
  um_rx_next_reassembly : Z;
  um_rx_timer_trigger : Z;
  um_rx_next_highest : Z;
  um_rx_window : W rlc_rx_um_sdu_info;
  um_reassembly_timer : bool;
}.
Arguments mk_rx_um_state {W}.
Arguments um_rx_next_reassembly {W}.
Arguments um_rx_timer_trigger {W}.
Arguments um_rx_next_highest {W}.
Arguments um_rx_window {W}.
Arguments um_reassembly_timer {W}.
#[export] Instance rx_um_state_eta W : RecordEta (rx_um_state W) := fun r =>
  mk_rx_um_state (um_rx_next_reassembly r) (um_rx_timer_trigger r) (um_rx_next_highest r)
    (um_rx_window r) (um_reassembly_timer r).

Section rx_um.
Context {W : Type -> Type} `{SduWindow W}.
Variable cfg : rlc_rx_um_config.
Implicit Types s : rx_um_state W.
Implicit Types w : W rlc_rx_um_sdu_info.

Definition um_mod : Z := cardinality (um_to_number (rxum_sn_field_length cfg)).
Definition um_window_size : Z := window_size (um_to_number (rxum_sn_field_length cfg)).

(** [t_reassembly] is given a duration only when positive: see
    [um_run_reassembly_timer]. *)
Definition rx_um_init : checked (rx_um_state W) :=
  let? window := win_make um_window_size in
  Ok {| um_rx_next_reassembly := 0; um_rx_timer_trigger := 0; um_rx_next_highest := 0;
        um_rx_window := window; um_reassembly_timer := false |}.

(** ** Window helpers *)

(** Distance from the lower edge of the reassembly window, which ends at
    RX_Next_Highest. *)
Definition um_rx_mod_base (highest x : Z) : Z := u32 (x - highest - um_window_size) mod um_mod.

Definition sn_in_reassembly_window (highest sn : Z) : bool :=
  (um_rx_mod_base highest (u32 (highest - um_window_size)) <=? um_rx_mod_base highest sn) &&
  (um_rx_mod_base highest sn <? um_rx_mod_base highest highest).

Definition sn_invalid_for_rx_buffer s (sn : Z) : bool :=
  let highest := um_rx_next_highest s in
  (um_rx_mod_base highest (u32 (highest - um_window_size)) <=? um_rx_mod_base highest sn) &&
  (um_rx_mod_base highest sn <? um_rx_mod_base highest (um_rx_next_reassembly s)).

Definition um_run_reassembly_timer s : checked (rx_um_state W) :=
  assert? 0 <? rxum_t_reassembly cfg; Ok (s <| um_reassembly_timer := true |>).

(** [rx_window.has_sn(sn) && rx_window[sn].fully_received]. *)
Definition um_sn_fully_received w (sn : Z) : checked bool :=
  if has_sn w sn then let? info := win_at w sn in Ok (um_fully_received info) else Ok false.

(** ** Segments *)

Definition um_store_segment (info : rlc_rx_um_sdu_info) (new : rlc_rx_sdu_segment) :
    rlc_rx_um_sdu_info * bool :=
  let '(segments, stored) := store_segment (um_segments info) new in
  (info <| um_segments := segments |>, stored).

Definition um_update_segment_inventory (info : rlc_rx_um_sdu_info) : rlc_rx_um_sdu_info :=
  let '(full, gap) := segment_inventory (um_segments info) in
  info <| um_fully_received := full |> <| um_has_gap := gap |>.

Definition um_reassemble_sdu (alloc : bool) (info : rlc_rx_um_sdu_info) : option (list Z) :=
  if negb (um_fully_received info) then None else
  if negb alloc then None else Some (chain_segments (um_segments info)).

Definition um_handle_segment_data_sdu (header : rlc_um_pdu_header) (payload : list Z) s :
    checked (bool * rx_um_state W) :=
  if bool_decide (uhdr_si header = full_sdu) then Ok (false, s) else
  let sn := uhdr_sn header in
  let? w := (if has_sn (um_rx_window s) sn then Ok (um_rx_window s)
             else add_sn um_sdu_info_default sn (um_rx_window s)) in
  let? info := win_at w sn in
  let segment := mk_rlc_rx_sdu_segment (uhdr_si header) (uhdr_so header) payload in
  let '(info, stored) := um_store_segment info segment in
  let info := um_update_segment_inventory info in
  let? w := win_write sn info w in
  Ok (stored, s <| um_rx_window := w |>).

(** ** Walks over the window *)

(** Enough for any walk: every sequence number once. *)
Definition um_walk_fuel : nat := S (Z.to_nat um_mod).

(** From [sn] on, remove fully received SDUs up to the first number that is not
    one, or RX_Next_Highest. *)
Fixpoint um_skip_received (fuel : nat) (highest sn : Z) w :
    checked (Z * W rlc_rx_um_sdu_info) :=
  match fuel with
  | O => Panic
  | S fuel =>
      if um_rx_mod_base highest sn <? um_rx_mod_base highest highest then
        let? full := um_sn_fully_received w sn in
        if full then
          let? w := remove_sn sn w in
          um_skip_received fuel highest ((sn + 1) mod um_mod) w
        else Ok (sn, w)
      else Ok (sn, w)
  end.

(** Removal of one number; an SDU that was not completely received is lost. *)
Definition um_discard (sn : Z) w : checked (W rlc_rx_um_sdu_info * list rx_um_output) :=
  if has_sn w sn then
    let? info := win_at w sn in
    let? w := remove_sn sn w in
    Ok (w, if negb (um_fully_received info) then [UmMetricLostPdus 1] else [])
  else Ok (w, [UmMetricLostPdus 1]).

(** Clean anything outside the reassembly window. *)
Fixpoint um_clean_outside (fuel : nat) (highest sn : Z) w :
    checked (Z * W rlc_rx_um_sdu_info * list rx_um_output) :=
  match fuel with
  | O => Panic
  | S fuel =>
      if negb (sn_in_reassembly_window highest sn) then
        let? (w, out) := um_discard sn w in
        let? (sn, w, out') := um_clean_outside fuel highest ((sn + 1) mod um_mod) w in
        Ok (sn, w, out ++ out')
      else Ok (sn, w, [])
  end.

(** The walk on expiry: discard below the trigger, then skip what is received. *)
Fixpoint um_expire_walk (fuel : nat) (highest trigger sn : Z) w :
    checked (Z * W rlc_rx_um_sdu_info * list rx_um_output) :=
  match fuel with
  | O => Panic
  | S fuel =>
      if um_rx_mod_base highest sn <? um_rx_mod_base highest highest then
        if um_rx_mod_base highest sn <? um_rx_mod_base highest trigger then
          let? (w, out) := um_discard sn w in
          let? (sn, w, out') := um_expire_walk fuel highest trigger ((sn + 1) mod um_mod) w in
          Ok (sn, w, out ++ out')
        else
          let? full := um_sn_fully_received w sn in
          if full then
            let? w := remove_sn sn w in
            um_expire_walk fuel highest trigger ((sn + 1) mod um_mod) w
          else Ok (sn, w, [])
      else Ok (sn, w, [])
  end.

(** ** Reception *)

(** The actions for an SDU all segments of which are received. *)
Definition um_deliver (alloc : bool) (sn : Z) s : checked (rx_um_state W * list rx_um_output) :=
  let? info := win_at (um_rx_window s) sn in
  let out := match um_reassemble_sdu alloc info with
             | None => [UmMetricLostPdus 1]
             | Some sdu => [UmMetricSdus 1 (zlen sdu); UmOutSdu sdu]
             end in
  let? w := win_write sn (info <| um_segments := [] |>) (um_rx_window s) in
  let s := s <| um_rx_window := w |> in
  if sn =? um_rx_next_reassembly s then
    let? (sn_upd, w) := um_skip_received um_walk_fuel (um_rx_next_highest s)
                          (um_rx_next_reassembly s mod um_mod) (um_rx_window s) in
    Ok (s <| um_rx_window := w |> <| um_rx_next_reassembly := sn_upd |>, out)
  else Ok (s, out).

(** The actions for a number outside the reassembly window: the window moves. *)
Definition um_move_window (sn : Z) s : checked (rx_um_state W * list rx_um_output) :=
  let s := s <| um_rx_next_highest := (sn + 1) mod um_mod |> in
  let highest := um_rx_next_highest s in
  let? (sn_upd, w, out) := um_clean_outside um_walk_fuel highest
                             (um_rx_next_reassembly s mod um_mod) (um_rx_window s) in
  let? (sn_upd, w) := um_skip_received um_walk_fuel highest sn_upd w in
  Ok (s <| um_rx_window := w |> <| um_rx_next_reassembly := sn_upd |>, out).

(** While t-Reassembly runs. *)
Definition um_check_stop s : checked (rx_um_state W) :=
  if um_reassembly_timer s then
    let highest := um_rx_next_highest s in
    let trigger := um_rx_timer_trigger s in
    let stop1 := trigger <=? um_rx_next_reassembly s in
    let stop2 := negb (sn_in_reassembly_window highest trigger) && negb (trigger =? highest) in
    let? stop3 :=
      (if (highest =? u32 (um_rx_next_reassembly s + 1)) && has_sn (um_rx_window s) highest then
         let? info := win_at (um_rx_window s) highest in Ok (negb (um_has_gap info))
       else Ok false) in
    Ok (if stop1 || stop2 || stop3 then s <| um_reassembly_timer := false |> else s)
  else Ok s.

Definition um_start_reassembly s : checked (rx_um_state W) :=
  let highest := um_rx_next_highest s in
  let next := um_rx_mod_base highest (u32 (um_rx_next_reassembly s + 1)) in
  let restart1 := next <? um_rx_mod_base highest highest in
  let? restart2 :=
    (if (um_rx_mod_base highest highest =? next) && has_sn (um_rx_window s) highest then
       let? info := win_at (um_rx_window s) highest in Ok (um_has_gap info)
     else Ok false) in
  if restart1 || restart2 then
    let? s := um_run_reassembly_timer s in
    Ok (s <| um_rx_timer_trigger := um_rx_next_highest s |>)
  else Ok s.

(** A segment that is not discarded. *)
Definition um_place_segment (alloc : bool) (header : rlc_um_pdu_header) (payload : list Z) s :
    checked (rx_um_state W * list rx_um_output) :=
  let sn := uhdr_sn header in
  let? (_, s) := um_handle_segment_data_sdu header payload s in
  let? full := um_sn_fully_received (um_rx_window s) sn in
  let? (s, out) :=
    (if full then um_deliver alloc sn s
     else if negb (sn_in_reassembly_window (um_rx_next_highest s) sn) then um_move_window sn s
     else Ok (s, [])) in
  let? s := um_check_stop s in
  let? s := (if um_reassembly_timer s then Ok s else um_start_reassembly s) in
  Ok (s, out).

Definition um_handle_pdu (alloc : bool) (buf : list Z) s :
    checked (rx_um_state W * list rx_um_output) :=
  let? (s, out) :=
    (match rlc_um_read_data_pdu_header buf (rxum_sn_field_length cfg) um_header_zero with
     | None => Ok (s, [UmMetricMalformedPdus 1])
     | Some header =>
         let header_len := rlc_um_nr_packed_length header in
         if zlen buf <=? header_len then Ok (s, []) else
         let payload := drop (Z.to_nat header_len) buf in
         if bool_decide (uhdr_si header = full_sdu) then
           Ok (s, if alloc then [UmMetricSdus 1 (zlen payload); UmOutSdu payload]
                  else [UmMetricLostPdus 1])
         else if sn_invalid_for_rx_buffer s (uhdr_sn header) then Ok (s, [])
         else um_place_segment alloc header payload s
     end) in
  Ok (s, UmMetricPdus 1 (zlen buf) :: out).

(** ** Timer *)

Definition um_on_expired_reassembly_timer s : checked (rx_um_state W * list rx_um_output) :=
  let? (sn_upd, w, out) :=
    um_expire_walk um_walk_fuel (um_rx_next_highest s) (um_rx_timer_trigger s)
      (um_rx_next_reassembly s) (um_rx_window s) in
  let s := s <| um_rx_window := w |> <| um_rx_next_reassembly := sn_upd |> in
  let? s := um_start_reassembly s in
  Ok (s, out).

(** ** Events *)

Inductive rx_um_op : Type :=
| UmPdu (alloc : bool) (buf : list Z)
| UmReassemblyExpired.

Definition rx_um_step (op : rx_um_op) s : checked (rx_um_state W * list rx_um_output) :=
  match op with
  | UmPdu alloc buf => um_handle_pdu alloc buf s
  | UmReassemblyExpired =>
      if um_reassembly_timer s then
        um_on_expired_reassembly_timer (s <| um_reassembly_timer := false |>)
      else Ok (s, [])
  end.

Fixpoint rx_um_run (ops : list rx_um_op) s : checked (rx_um_state W * list rx_um_output) :=
  match ops with
  | [] => Ok (s, [])
  | op :: ops =>
      let? (s, out) := rx_um_step op s in
      let? (s, out') := rx_um_run ops s in
      Ok (s, out ++ out')
  end.
End rx_um.
