(* ===== verification/RlcRxUmProps.v ===== *)
(** * RLC UM: properties of the receiving entity

    Totality for any peer; for a peer that follows the format, the relation of the
    entity's state to an unbounded count of SDUs, integrity of what is delivered, and
    the effect of t-Reassembly. *)
From stdpp Require Import base numbers list gmap.
From Stdlib Require Import ZArith Lia.
From S2P Require Import Prelude.
From S2P Require Import RlcConfig.
From S2P Require Import RlcUmPdu.
From S2P Require Import SduWindow.
From S2P Require Import RlcSegments.
From S2P Require Import RlcRxUm.

Set Default Goal Selector "!".
Open Scope Z_scope.
Open Scope ran_scope.

(** The SDUs handed to the upper layer. *)
Definition um_delivered (out : list rx_um_output) : list (list Z) :=
  omap (fun o => match o with UmOutSdu sdu => Some sdu | _ => None end) out.

Section rx_um_props.
Context {W : Type -> Type} `{!SduWindow W} `{!SduWindowLaws W}.
Variable cfg : rlc_rx_um_config.
Implicit Types s : rx_um_state W.
Implicit Types w : W rlc_rx_um_sdu_info.

Local Abbreviation m := (um_mod cfg).
Local Abbreviation ws := (um_window_size cfg).
Local Abbreviation dist := (um_rx_mod_base cfg).

#[local] Instance um_modulus : SnModulus m.
Proof. unfold um_mod. apply _. Qed.

Lemma um_m_window : m = 2 * ws.
Proof. apply cardinality_window_um. Qed.
Lemma um_ws_bounds : 32 <= ws <= 2048.
Proof. unfold um_window_size. by destruct (rxum_sn_field_length cfg). Qed.

Definition um_in_sn (sn : Z) : Prop := 0 <= sn < m.

(** ** Distances *)

Lemma um_dist_base h x : dist h x = mod_base m (h + ws) x.
Proof. unfold um_rx_mod_base, mod_base. do 2 f_equal. lia. Qed.
Lemma um_dist_range h x : 0 <= dist h x < m.
Proof. rewrite um_dist_base. apply mod_base_range, _. Qed.
Lemma um_dist_highest h : dist h h = ws.
Proof.
  pose proof um_m_window. pose proof um_ws_bounds. rewrite um_dist_base, mod_base_spec by apply _.
  replace (h - (h + ws)) with (ws + (-1) * m) by lia. rewrite Z_mod_plus_full. apply Z.mod_small. lia.
Qed.
Lemma um_dist_lowest h : dist h (u32 (h - ws)) = 0.
Proof.
  pose proof um_m_window. pose proof um_ws_bounds. rewrite um_dist_base, mod_base_spec by apply _.
  rewrite Zminus_mod. unfold wrap. rewrite mod_mod_divide by apply um_modulus.
  rewrite <- Zminus_mod. replace (h - ws - (h + ws)) with (0 + (-1) * m) by lia.
  rewrite Z_mod_plus_full. done.
Qed.
Lemma um_dist_succ h x : dist h x + 1 < m -> dist h ((x + 1) mod m) = dist h x + 1.
Proof. rewrite !um_dist_base. apply mod_base_succ, _. Qed.
Lemma um_succ_range x : um_in_sn ((x + 1) mod m).
Proof. apply sn_succ_range, _. Qed.

Lemma in_window_dist h sn : sn_in_reassembly_window cfg h sn = (dist h sn <? ws).
Proof.
  unfold sn_in_reassembly_window. rewrite um_dist_lowest, um_dist_highest.
  pose proof (um_dist_range h sn). by rewrite (proj2 (Z.leb_le _ _)) by lia.
Qed.

Definition um_received w (sn : Z) : Prop :=
  exists info, win_view w sn = Some info /\ um_fully_received info = true.

Lemma um_sn_fully_received_spec w sn :
  exists b, um_sn_fully_received w sn = Ok b /\ (b = true <-> um_received w sn).
Proof.
  unfold um_sn_fully_received, um_received. rewrite has_sn_view.
  destruct (win_view w sn) as [info|] eqn:E.
  - rewrite (win_at_view _ _ _ E). cbn. exists (um_fully_received info). split; [done|].
    split; [by exists info|]. by intros (? & [= <-] & ?).
  - exists false. split; [done|]. split; [done|]. by intros (? & ? & _).
Qed.

(** ** Walks *)

(** The [k] numbers from [sn] on have left the window, and nothing else. *)
Definition left_window w (sn k : Z) w' : Prop :=
  0 <= k /\ win_wf w' /\ win_cap w' = win_cap w /\
  (forall x info, win_view w' x = Some info ->
     win_view w x = Some info /\ forall j, 0 <= j < k -> x <> (sn + j) mod m) /\
  (forall x info, win_view w x = Some info ->
     (forall j, 0 <= j < k -> x <> (sn + j) mod m) -> win_view w' x = Some info).

Lemma left_window_refl w sn : win_wf w -> left_window w sn 0 w.
Proof. intros Hw. split_and!; try done. intros x info Hx. split; [done|]. lia. Qed.

Lemma left_window_step w sn w1 k w' :
  um_in_sn sn -> win_cap w1 = win_cap w ->
  (forall x, win_view w1 x = if decide (x = sn) then None else win_view w x) ->
  left_window w1 ((sn + 1) mod m) k w' -> left_window w sn (k + 1) w'.
Proof.
  intros Hsn Hc1 Hv1 (Hk & Hw & Hc & Hsub & Hkeep).
  assert (forall j, ((sn + 1) mod m + j) mod m = (sn + (j + 1)) mod m) as Ej.
  { intros j. rewrite Zplus_mod_idemp_l. f_equal. lia. }
  assert (sn = (sn + 0) mod m) as E0 by (rewrite Z.add_0_r; by rewrite Z.mod_small).
  split_and!; [lia|done|congruence| |].
  - intros x info Hx. destruct (Hsub x info Hx) as [Hx1 Hne]. rewrite Hv1 in Hx1.
    case_decide; [done|]. split; [done|]. intros j Hj.
    destruct (decide (j = 0)) as [->|]; [congruence|].
    replace j with ((j - 1) + 1) by lia. rewrite <- Ej. apply Hne. lia.
  - intros x info Hx Hne. apply Hkeep.
    + rewrite Hv1, decide_False; [done|]. rewrite E0. apply Hne. lia.
    + intros j Hj. rewrite Ej. apply Hne. lia.
Qed.

(** One number leaves. *)
Lemma um_remove_spec w sn :
  win_wf w -> is_Some (win_view w sn) ->
  exists w1, remove_sn sn w = Ok w1 /\ win_wf w1 /\ win_cap w1 = win_cap w /\
    forall x, win_view w1 x = if decide (x = sn) then None else win_view w x.
Proof.
  intros Hw Hv. destruct (remove_sn_spec w sn Hw Hv) as (w1 & -> & Hw1 & Hc & Hn & Ho).
  exists w1. split_and!; try done. intros x. case_decide; [by subst|by apply Ho].
Qed.

Lemma um_discard_spec w sn :
  win_wf w -> exists w1 out, um_discard sn w = Ok (w1, out) /\ win_wf w1 /\ win_cap w1 = win_cap w /\
    (forall x, win_view w1 x = if decide (x = sn) then None else win_view w x) /\
    (um_received w sn /\ out = [] \/ ~ um_received w sn /\ out = [UmMetricLostPdus 1]).
Proof.
  intros Hw. unfold um_discard, um_received. rewrite has_sn_view.
  destruct (win_view w sn) as [info|] eqn:E.
  - rewrite (win_at_view _ _ _ E). cbn [checked_bind].
    destruct (um_remove_spec w sn Hw) as (w1 & -> & Hw1 & Hc & Hv); [by rewrite E|].
    cbn [checked_bind]. eexists _, _. split; [done|]. split_and!; try done.
    destruct (um_fully_received info) eqn:Ef; cbn [negb]; [left|right].
    + split; [|done]. by exists info.
    + split; [|done]. intros (i & [= <-] & ?). congruence.
  - eexists _, _. split; [done|]. split_and!; try done.
    + intros x. case_decide; [by subst|done].
    + right. split; [|done]. by intros (i & ? & _).
Qed.

(** The [k] numbers from [sn] on are passed, those at or after the threshold
    [thr] because they are received; [r] is the number after them, which is not
    received, or is RX_Next_Highest. *)
Definition walked (h thr : Z) w (sn k r : Z) : Prop :=
  r = (sn + k) mod m /\ dist h r = dist h sn + k /\ dist h r <= Z.max ws (dist h sn) /\
  (forall j, 0 <= j < k -> thr <= dist h sn + j -> um_received w ((sn + j) mod m)) /\
  (ws <= dist h r \/ thr <= dist h r /\ ~ um_received w r).

Lemma walked_stop h thr w sn :
  um_in_sn sn -> ws <= dist h sn \/ thr <= dist h sn /\ ~ um_received w sn ->
  walked h thr w sn 0 sn.
Proof.
  intros Hsn Hend. split_and!; try done; try lia. by rewrite Z.add_0_r, Z.mod_small.
Qed.

Lemma received_left w sn w1 x :
  (forall x, win_view w1 x = if decide (x = sn) then None else win_view w x) ->
  x <> sn -> um_received w1 x <-> um_received w x.
Proof. intros Hv Hne. unfold um_received. by rewrite Hv, decide_False by done. Qed.

Lemma sn_distinct sn j : um_in_sn sn -> 0 < j < m -> (sn + j) mod m <> sn.
Proof.
  intros Hsn Hj E. rewrite <- (Z.mod_small sn m) in E at 2 by exact Hsn.
  assert ((sn + j - sn) mod m = 0) as E0 by (rewrite Zminus_mod, E, <- Zminus_mod, Z.sub_diag; done).
  replace (sn + j - sn) with j in E0 by lia. rewrite Z.mod_small in E0 by lia. lia.
Qed.

Lemma walked_step h thr w sn w1 k r :
  um_in_sn sn -> dist h sn < ws -> (thr <= dist h sn -> um_received w sn) ->
  (forall x, win_view w1 x = if decide (x = sn) then None else win_view w x) ->
  0 <= k -> walked h thr w1 ((sn + 1) mod m) k r -> walked h thr w sn (k + 1) r.
Proof.
  intros Hsn Hlt Hrec Hv Hk (-> & Hd & Hmax & Hall & Hend). pose proof um_m_window. pose proof um_ws_bounds.
  rewrite um_dist_succ in Hd, Hmax, Hall by lia. pose proof (um_dist_range h sn).
  assert (forall j, ((sn + 1) mod m + j) mod m = (sn + (j + 1)) mod m) as Ej.
  { intros j. rewrite Zplus_mod_idemp_l. f_equal. lia. }
  rewrite Ej in *. split_and!; [done|lia|lia| |].
  - intros j Hj Ht. destruct (decide (j = 0)) as [->|].
    { rewrite Z.add_0_r, Z.mod_small by done. apply Hrec. lia. }
    apply (received_left w sn w1); [done|apply sn_distinct; [done|lia]|].
    replace j with ((j - 1) + 1) by lia. rewrite <- Ej. apply Hall; lia.
  - destruct Hend as [?|[Ht Hn]]; [by left|right]. split; [done|]. intros Hr. apply Hn.
    apply (received_left w sn w1); [done|apply sn_distinct; [done|lia]|done].
Qed.

Lemma um_skip_received_spec fuel h sn w :
  win_wf w -> um_in_sn sn -> ws - dist h sn < Z.of_nat fuel -> (0 < fuel)%nat ->
  exists r w' k, um_skip_received cfg fuel h sn w = Ok (r, w') /\
    left_window w sn k w' /\ walked h 0 w sn k r.
Proof.
  revert sn w. induction fuel as [|fuel IH]; intros sn w Hw Hsn Hf Hpos; [lia|].
  cbn [um_skip_received]. rewrite um_dist_highest. pose proof um_m_window. pose proof um_ws_bounds.
  pose proof (um_dist_range h sn). case_if.
  2:{ exists sn, w, 0. split; [done|]. split; [by apply left_window_refl|]. apply walked_stop; [done|left; lia]. }
  destruct (um_sn_fully_received_spec w sn) as (b & -> & Hb). cbn [checked_bind]. destruct b.
  2:{ exists sn, w, 0. split; [done|]. split; [by apply left_window_refl|]. apply walked_stop; [done|right].
      split; [lia|]. intros Hr%Hb. done. }
  destruct (um_remove_spec w sn Hw) as (w1 & -> & Hw1 & Hc & Hv).
  { destruct (proj1 Hb eq_refl) as (i & -> & _). by eexists. }
  cbn [checked_bind].
  destruct (IH ((sn + 1) mod m) w1) as (r & w' & k & -> & Hl & Hs);
    [done|apply um_succ_range|rewrite um_dist_succ; lia|lia|].
  exists r, w', (k + 1). split; [done|]. split; [by eapply left_window_step|].
  eapply walked_step; try done; [|apply Hl]. intros _. by apply Hb.
Qed.

Lemma um_clean_outside_spec fuel h sn w :
  win_wf w -> um_in_sn sn -> m - dist h sn < Z.of_nat fuel \/ dist h sn < ws -> (0 < fuel)%nat ->
  exists r w' k out, um_clean_outside cfg fuel h sn w = Ok (r, w', out) /\
    left_window w sn k w' /\ r = (sn + k) mod m /\ um_in_sn r /\ um_delivered out = [] /\
    k = (if dist h sn <? ws then 0 else m - dist h sn) /\ dist h r < ws.
Proof.
  pose proof um_m_window as Hm. pose proof um_ws_bounds.
  revert sn w. induction fuel as [|fuel IH]; intros sn w Hw Hsn Hf Hpos; [lia|].
  cbn [um_clean_outside]. rewrite in_window_dist.
  destruct (dist h sn <? ws) eqn:Hin; cbn [negb]; zbool.
  { exists sn, w, 0, []. split; [done|]. split; [by apply left_window_refl|].
    split_and!; try done. by rewrite Z.add_0_r, Z.mod_small. }
  destruct (um_discard_spec w sn Hw) as (w1 & out1 & -> & Hw1 & Hc & Hv & Hout). cbn [checked_bind].
  pose proof (um_dist_range h sn).
  assert (dist h ((sn + 1) mod m) = if decide (dist h sn + 1 = m) then 0 else dist h sn + 1) as Hd.
  { case_decide as E; [|apply um_dist_succ; lia].
    rewrite um_dist_base, mod_base_spec in * by apply _.
    rewrite Zminus_mod_idemp_l. replace (sn + 1 - (h + ws)) with ((sn - (h + ws)) + 1) by lia.
    rewrite <- Zplus_mod_idemp_l, E. apply Z.mod_same. lia. }
  destruct (IH ((sn + 1) mod m) w1) as (r & w' & k & out & -> & Hl & -> & Hr & Hdel & Hk & Hlt).
  { done. } { apply um_succ_range. } { rewrite Hd. case_decide; lia. } { lia. }
  cbn [checked_bind]. exists (((sn + 1) mod m + k) mod m), w', (k + 1), (out1 ++ out). split; [done|].
  split; [by eapply left_window_step|]. split_and!; try done.
  - rewrite Zplus_mod_idemp_l. f_equal. lia.
  - destruct Hout as [[_ ->]|[_ ->]]; done.
  - rewrite Hk, Hd. case_decide; [|rewrite (proj2 (Z.ltb_ge _ _)) by lia; lia].
    rewrite (proj2 (Z.ltb_lt _ _)) by lia. lia.
Qed.

Lemma um_expire_walk_spec fuel h trigger sn w :
  win_wf w -> um_in_sn sn -> ws - dist h sn < Z.of_nat fuel -> (0 < fuel)%nat ->
  exists r w' k out, um_expire_walk cfg fuel h trigger sn w = Ok (r, w', out) /\
    left_window w sn k w' /\ walked h (dist h trigger) w sn k r /\ um_delivered out = [].
Proof.
  pose proof um_m_window as Hm. pose proof um_ws_bounds.
  revert sn w. induction fuel as [|fuel IH]; intros sn w Hw Hsn Hf Hpos; [lia|].
  cbn [um_expire_walk]. rewrite um_dist_highest. case_if.
  2:{ exists sn, w, 0, []. split; [done|]. split; [by apply left_window_refl|]. split; [|done].
      apply walked_stop; [done|left; lia]. }
  pose proof (um_dist_range h sn). case_if.
  - destruct (um_discard_spec w sn Hw) as (w1 & out1 & -> & Hw1 & Hc & Hv & Hout). cbn [checked_bind].
    destruct (IH ((sn + 1) mod m) w1) as (r & w' & k & out & -> & Hl & Hs & Hdel);
      [done|apply um_succ_range|rewrite um_dist_succ; lia|lia|].
    cbn [checked_bind]. exists r, w', (k + 1), (out1 ++ out). split; [done|].
    split; [by eapply left_window_step|]. split; [|by destruct Hout as [[_ ->]|[_ ->]]].
    eapply walked_step; try done; [lia|apply Hl].
  - destruct (um_sn_fully_received_spec w sn) as (b & -> & Hb). cbn [checked_bind]. destruct b.
    2:{ exists sn, w, 0, []. split; [done|]. split; [by apply left_window_refl|]. split; [|done].
        apply walked_stop; [done|right]. split; [lia|]. intros Hr%Hb. done. }
    destruct (um_remove_spec w sn Hw) as (w1 & -> & Hw1 & Hc & Hv).
    { destruct (proj1 Hb eq_refl) as (i & -> & _). by eexists. }
    cbn [checked_bind].
    destruct (IH ((sn + 1) mod m) w1) as (r & w' & k & out & -> & Hl & Hs & Hdel);
      [done|apply um_succ_range|rewrite um_dist_succ; lia|lia|].
    exists r, w', (k + 1), out. split; [done|]. split; [by eapply left_window_step|]. split; [|done].
    eapply walked_step; try done; [|apply Hl]. intros _. by apply Hb.
Qed.

Lemma left_window_trans w sn k1 w1 k2 w2 :
  left_window w sn k1 w1 -> left_window w1 ((sn + k1) mod m) k2 w2 ->
  left_window w sn (k1 + k2) w2.
Proof.
  intros (Hk1 & Hw1 & Hc1 & Hs1 & Hp1) (Hk2 & Hw2 & Hc2 & Hs2 & Hp2).
  assert (forall j, ((sn + k1) mod m + j) mod m = (sn + (k1 + j)) mod m) as Ej.
  { intros j. rewrite Zplus_mod_idemp_l. f_equal. lia. }
  split_and!; [lia|done|congruence| |].
  - intros x info Hx. destruct (Hs2 _ _ Hx) as [Hx1 Hn2]. destruct (Hs1 _ _ Hx1) as [Hx0 Hn1].
    split; [done|]. intros j Hj. destruct (decide (j < k1)); [apply Hn1; lia|].
    replace j with (k1 + (j - k1)) by lia. rewrite <- Ej. apply Hn2. lia.
  - intros x info Hx Hne. apply Hp2; [apply Hp1; [done|]|]; intros j Hj; [apply Hne; lia|].
    rewrite Ej. apply Hne. lia.
Qed.

(** ** The invariant for any peer *)

Record um_inv s : Prop := {
  uinv_next : um_in_sn (um_rx_next_reassembly s);
  uinv_trigger : um_in_sn (um_rx_timer_trigger s);
  uinv_highest : um_in_sn (um_rx_next_highest s);
  uinv_win : win_wf (um_rx_window s) /\ win_cap (um_rx_window s) = ws;
}.

Definition um_cfg_ok : Prop := 0 < rxum_t_reassembly cfg.
Hypothesis Hcfg : um_cfg_ok.

(** The window and the edges are those of [s]. *)
Definition same_window s s' : Prop :=
  um_rx_window s' = um_rx_window s /\ um_rx_next_reassembly s' = um_rx_next_reassembly s /\
  um_rx_next_highest s' = um_rx_next_highest s.

Lemma um_check_stop_spec s :
  um_inv s -> exists s', um_check_stop cfg s = Ok s' /\ um_inv s' /\ same_window s s'.
Proof.
  intros Hs. unfold um_check_stop. destruct (um_reassembly_timer s); [|by exists s].
  assert (exists b, (if (um_rx_next_highest s =? u32 (um_rx_next_reassembly s + 1)) &&
    has_sn (um_rx_window s) (um_rx_next_highest s) then
    let? info := win_at (um_rx_window s) (um_rx_next_highest s) in Ok (negb (um_has_gap info))
    else Ok false) = Ok b) as [b ->].
  { destruct (_ =? _); [cbn [andb]|by eexists]. rewrite has_sn_view.
    destruct (win_view (um_rx_window s) (um_rx_next_highest s)) as [info|] eqn:E; [|by eexists].
    rewrite (win_at_view _ _ _ E). by eexists. }
  cbn [checked_bind]. eexists. split; [done|]. case_match; [|done]. split; [by destruct Hs|done].
Qed.

Lemma um_start_spec s :
  um_inv s -> exists s', um_start_reassembly cfg s = Ok s' /\ um_inv s' /\ same_window s s'.
Proof.
  intros Hs. unfold um_start_reassembly.
  match goal with |- context [checked_bind ?r _] => assert (exists b, r = Ok b) as [b ->] end.
  { destruct (_ =? _); [cbn [andb]|by eexists]. rewrite has_sn_view.
    destruct (win_view (um_rx_window s) (um_rx_next_highest s)) as [info|] eqn:E; [|by eexists].
    rewrite (win_at_view _ _ _ E). by eexists. }
  cbn [checked_bind]. case_match; [|by exists s]. unfold um_run_reassembly_timer.
  rewrite (proj2 (Z.ltb_lt _ _)) by apply Hcfg. cbn [checked_bind]. eexists. split; [done|].
  split; [|done]. destruct Hs. by constructor.
Qed.

(** RX_Next_Reassembly passes [k] numbers, which leave the window [w]. *)
Definition passes w s k s' : Prop :=
  left_window w (um_rx_next_reassembly s) k (um_rx_window s') /\
  um_rx_next_reassembly s' = (um_rx_next_reassembly s + k) mod m /\
  um_rx_next_highest s' = um_rx_next_highest s /\
  dist (um_rx_next_highest s) (um_rx_next_reassembly s) + k
    <= Z.max ws (dist (um_rx_next_highest s) (um_rx_next_reassembly s)).

Definition um_sdu_output (sdu : option (list Z)) : list rx_um_output :=
  match sdu with
  | None => [UmMetricLostPdus 1]
  | Some sdu => [UmMetricSdus 1 (zlen sdu); UmOutSdu sdu]
  end.

Lemma um_walk_fuel_enough x : m - x < Z.of_nat (um_walk_fuel cfg) \/ x < 0.
Proof. pose proof um_m_window. pose proof um_ws_bounds. unfold um_walk_fuel. lia. Qed.

Lemma um_deliver_spec alloc sn s info :
  um_inv s -> win_view (um_rx_window s) sn = Some info ->
  exists s' out w1 k, um_deliver cfg alloc sn s = Ok (s', out) /\ um_inv s' /\
    out = um_sdu_output (um_reassemble_sdu alloc info) /\
    win_wf w1 /\ win_view w1 sn = Some (info <| um_segments := [] |>) /\
    (forall x, x <> sn -> win_view w1 x = win_view (um_rx_window s) x) /\ passes w1 s k s'.
Proof.
  intros Hs Hv. destruct (uinv_win _ Hs) as [Hw Hc]. pose proof (uinv_next _ Hs) as Hn.
  unfold um_deliver. rewrite (win_at_view _ _ _ Hv). cbn [checked_bind].
  destruct (win_write_spec (um_rx_window s) sn (info <| um_segments := [] |>) Hw)
    as (w1 & -> & Hw1 & Hc1 & Hv1 & Ho1); [by rewrite Hv|]. cbn [checked_bind].
  pose proof (um_dist_range (um_rx_next_highest s) (um_rx_next_reassembly s)).
  pose proof um_m_window. pose proof um_ws_bounds.
  destruct (_ =? _).
  - cbn -[um_skip_received Z.modulo um_walk_fuel]. rewrite Z.mod_small by done.
    destruct (um_skip_received_spec (um_walk_fuel cfg) (um_rx_next_highest s) (um_rx_next_reassembly s) w1)
      as (r & w' & k & -> & Hl & (-> & Hd & Hmax & _)); try done; try (unfold um_walk_fuel; lia).
    cbn [checked_bind]. eexists _, _, w1, k. split; [done|].
    split; [|unfold passes; cbn -[Z.modulo]; split_and!; try done; lia].
    destruct Hl as (_ & Hw' & Hc' & _). destruct Hs. split; cbn; try done; [|split; [done|congruence]].
    apply Z.mod_pos_bound. lia.
  - eexists _, _, w1, 0. split; [done|]. split.
    + destruct Hs. split; try done. cbn. split; [done|congruence].
    + unfold passes. cbn -[Z.modulo]. split_and!; try done;
        [by apply left_window_refl|by rewrite Z.add_0_r, Z.mod_small|lia].
Qed.

Lemma um_move_window_spec sn s :
  um_inv s -> um_in_sn sn ->
  exists s' out k, um_move_window cfg sn s = Ok (s', out) /\ um_inv s' /\ um_delivered out = [] /\
    um_rx_next_highest s' = (sn + 1) mod m /\
    left_window (um_rx_window s) (um_rx_next_reassembly s) k (um_rx_window s') /\
    um_rx_next_reassembly s' = (um_rx_next_reassembly s + k) mod m /\
    let d := dist (um_rx_next_highest s') (um_rx_next_reassembly s) in
    (d < ws -> d + k <= ws) /\ (ws <= d -> m <= d + k <= m + ws).
Proof.
  intros Hs Hsn. destruct (uinv_win _ Hs) as [Hw Hc]. pose proof (uinv_next _ Hs) as Hn.
  pose proof um_m_window. pose proof um_ws_bounds. unfold um_move_window.
  cbn -[um_clean_outside um_skip_received um_walk_fuel Z.modulo]. set (h := (sn + 1) mod m).
  rewrite Z.mod_small by done. pose proof (um_dist_range h (um_rx_next_reassembly s)).
  destruct (um_clean_outside_spec (um_walk_fuel cfg) h (um_rx_next_reassembly s) (um_rx_window s))
    as (r & w1 & k1 & out & -> & Hl1 & -> & Hr & Hdel & Hk1 & Hd1); try done;
    try (unfold um_walk_fuel; lia).
  cbn [checked_bind]. pose proof Hl1 as (_ & Hw1 & Hc1 & _).
  destruct (um_skip_received_spec (um_walk_fuel cfg) h ((um_rx_next_reassembly s + k1) mod m) w1)
    as (r2 & w2 & k2 & -> & Hl2 & (-> & Hd2 & Hmax2 & _)); try done;
    try (unfold um_walk_fuel; pose proof (um_dist_range h ((um_rx_next_reassembly s + k1) mod m)); lia).
  cbn [checked_bind]. pose proof Hl2 as (Hk2 & Hw2 & Hc2 & _).
  eexists _, _, (k1 + k2). split; [done|]. split_and!; try done.
  - destruct Hs. split; cbn; try done; [|apply um_succ_range|split; [done|congruence]].
    apply Z.mod_pos_bound. lia.
  - cbn. by eapply left_window_trans.
  - cbn. rewrite Zplus_mod_idemp_l. f_equal. lia.
  - cbn. intros Hlt. rewrite (proj2 (Z.ltb_lt _ _) Hlt) in Hk1. subst k1.
    assert ((um_rx_next_reassembly s + 0) mod m = um_rx_next_reassembly s) as E0
      by (by rewrite Z.add_0_r, Z.mod_small).
    rewrite E0 in *. lia.
  - cbn. intros Hge. rewrite (proj2 (Z.ltb_ge _ _) Hge) in Hk1. subst k1. cbn in *.
    assert (dist h ((um_rx_next_reassembly s + (m - dist h (um_rx_next_reassembly s))) mod m) = 0) as E.
    { rewrite (um_dist_base h (_ mod _)), mod_base_spec by apply _.
      rewrite um_dist_base, mod_base_spec by apply _. rewrite Zminus_mod_idemp_l.
      set (R := um_rx_next_reassembly s). pose proof (Z_div_mod_eq_full (R - (h + ws)) m) as E.
      replace (R + (m - (R - (h + ws)) mod m) - (h + ws)) with (0 + (1 + (R - (h + ws)) / m) * m) by lia.
      rewrite Z_mod_plus_full. done. }
    lia.
Qed.

(** ** Reception *)

Definition um_entry_segments (entry : option rlc_rx_um_sdu_info) : list rlc_rx_sdu_segment :=
  match entry with Some info => um_segments info | None => [] end.

Definition um_header_segment (header : rlc_um_pdu_header) (payload : list Z) : rlc_rx_sdu_segment :=
  mk_rlc_rx_sdu_segment (uhdr_si header) (uhdr_so header) payload.

(** The entry after a segment is stored; a number that enters the window may evict
    the one that shares its slot. *)
Definition um_stored w header payload w1 (info : rlc_rx_um_sdu_info) : Prop :=
  let segments := (store_segment (um_entry_segments (win_view w (uhdr_sn header)))
                     (um_header_segment header payload)).1 in
  win_wf w1 /\ win_cap w1 = win_cap w /\ win_view w1 (uhdr_sn header) = Some info /\
  um_segments info = segments /\ um_fully_received info = (segment_inventory segments).1 /\
  forall x i, x <> uhdr_sn header -> win_view w1 x = Some i -> win_view w x = Some i.

Lemma um_handle_segment_spec header payload s :
  win_wf (um_rx_window s) -> uhdr_si header <> full_sdu ->
  exists stored w1 info,
    um_handle_segment_data_sdu header payload s = Ok (stored, s <| um_rx_window := w1 |>) /\
    um_stored (um_rx_window s) header payload w1 info.
Proof.
  intros Hw Hsi. unfold um_handle_segment_data_sdu. rewrite bool_decide_eq_false_2 by done.
  set (sn := uhdr_sn header).
  assert (exists w0 info, (if has_sn (um_rx_window s) sn then Ok (um_rx_window s)
      else add_sn um_sdu_info_default sn (um_rx_window s)) = Ok w0 /\
    win_wf w0 /\ win_cap w0 = win_cap (um_rx_window s) /\ win_view w0 sn = Some info /\
    um_segments info = um_entry_segments (win_view (um_rx_window s) sn) /\
    forall x i, x <> sn -> win_view w0 x = Some i -> win_view (um_rx_window s) x = Some i) as
    (w0 & info & -> & Hw0 & Hc0 & Hv0 & Hseg & Ho0).
  { rewrite has_sn_view. destruct (win_view (um_rx_window s) sn) as [info|] eqn:E.
    - by exists (um_rx_window s), info.
    - destruct (add_sn_spec (um_rx_window s) sn um_sdu_info_default Hw E) as (w0 & -> & Hw0 & Hc & Hv & Ho).
      exists w0, um_sdu_info_default. split_and!; try done. intros x i Hne. rewrite Ho by done.
      by case_decide. }
  cbn [checked_bind]. rewrite (win_at_view _ _ _ Hv0). cbn [checked_bind].
  unfold um_store_segment. rewrite Hseg. fold sn. unfold um_stored. fold sn.
  change (mk_rlc_rx_sdu_segment (uhdr_si header) (uhdr_so header) payload)
    with (um_header_segment header payload).
  destruct (store_segment _ _) as [segments stored] eqn:Est. unfold um_update_segment_inventory.
  cbn [um_segments]. destruct (segment_inventory segments) as [full gap] eqn:Einv.
  assert (is_Some (win_view w0 sn)) as Hsome by by rewrite Hv0.
  cbn [fst]. cbn -[win_write segment_inventory]. rewrite Einv.
  match goal with |- context [win_write sn ?i w0] => set (info' := i) end.
  destruct (win_write_spec w0 sn info' Hw0 Hsome) as (w1 & -> & Hw1 & Hc1 & Hv1 & Ho1).
  cbn [checked_bind]. exists stored, w1, info'. split; [done|].
  split_and!; try done; [congruence|]. intros x i Hne Hx. rewrite Ho1 in Hx by done. by apply Ho0.
Qed.

(** The effect of a segment that is not discarded. *)
Definition um_place_effect alloc s header payload s' out : Prop :=
  exists w1 info, um_stored (um_rx_window s) header payload w1 info /\
    if um_fully_received info then
      out = um_sdu_output (um_reassemble_sdu alloc info) /\
      exists w2 k, win_view w2 (uhdr_sn header) = Some (info <| um_segments := [] |>) /\
        (forall x, x <> uhdr_sn header -> win_view w2 x = win_view w1 x) /\ passes w2 s k s'
    else if dist (um_rx_next_highest s) (uhdr_sn header) <? ws then
      out = [] /\ um_rx_window s' = w1 /\
      um_rx_next_reassembly s' = um_rx_next_reassembly s /\
      um_rx_next_highest s' = um_rx_next_highest s
    else
      um_delivered out = [] /\ um_rx_next_highest s' = (uhdr_sn header + 1) mod m /\
      exists k, left_window w1 (um_rx_next_reassembly s) k (um_rx_window s') /\
        um_rx_next_reassembly s' = (um_rx_next_reassembly s + k) mod m /\
        let d := dist (um_rx_next_highest s') (um_rx_next_reassembly s) in
        (d < ws -> d + k <= ws) /\ (ws <= d -> m <= d + k <= m + ws).

Lemma um_same_effect alloc s header payload s' s'' out :
  um_place_effect alloc s header payload s' out -> same_window s' s'' ->
  um_place_effect alloc s header payload s'' out.
Proof.
  intros (w1 & info & Hst & Heff) (Ew & En & Eh). exists w1, info. split; [done|].
  unfold passes in *. by rewrite Ew, En, Eh.
Qed.

Lemma um_place_spec alloc header payload s :
  um_inv s -> uhdr_si header <> full_sdu -> um_in_sn (uhdr_sn header) ->
  exists s' out, um_place_segment cfg alloc header payload s = Ok (s', out) /\ um_inv s' /\
    um_place_effect alloc s header payload s' out.
Proof.
  intros Hs Hsi Hsn. destruct (uinv_win _ Hs) as [Hw Hc]. unfold um_place_segment.
  destruct (um_handle_segment_spec header payload s Hw Hsi) as (stored & w1 & info & -> & Hst).
  cbn [checked_bind]. pose proof Hst as (Hw1 & Hc1 & Hv1 & _).
  change (um_rx_window (s <| um_rx_window := w1 |>)) with w1.
  assert (um_sn_fully_received w1 (uhdr_sn header) = Ok (um_fully_received info)) as ->.
  { unfold um_sn_fully_received. by rewrite has_sn_view, Hv1, (win_at_view _ _ _ Hv1). }
  cbn [checked_bind]. set (s1 := s <| um_rx_window := w1 |>).
  assert (um_inv s1) as Hs1 by (destruct Hs; split; try done; split; [done|cbn; congruence]).
  assert (exists s2 out, (if um_fully_received info then um_deliver cfg alloc (uhdr_sn header) s1
     else if negb (sn_in_reassembly_window cfg (um_rx_next_highest s1) (uhdr_sn header))
     then um_move_window cfg (uhdr_sn header) s1 else Ok (s1, [])) = Ok (s2, out) /\ um_inv s2 /\
    um_place_effect alloc s header payload s2 out) as (s2 & out & -> & Hs2 & Heff).
  { unfold um_place_effect. rewrite in_window_dist. destruct (um_fully_received info) eqn:Ef.
    - destruct (um_deliver_spec alloc (uhdr_sn header) s1 info Hs1 Hv1)
        as (s2 & out & w2 & k & -> & Hs2 & -> & _ & Hv2 & Ho2 & Hp).
      eexists _, _. split; [done|]. split; [done|]. exists w1, info. rewrite Ef. split; [done|].
      split; [done|]. by exists w2, k.
    - change (um_rx_next_highest s1) with (um_rx_next_highest s).
      destruct (dist (um_rx_next_highest s) (uhdr_sn header) <? ws) eqn:Ed; cbn [negb].
      + exists s1, []. split; [done|]. split; [done|]. exists w1, info. by rewrite Ef.
      + destruct (um_move_window_spec (uhdr_sn header) s1 Hs1 Hsn)
          as (s2 & out & k & -> & Hs2 & Hdel & Eh & Hl & En & Hk).
        exists s2, out. split; [done|]. split; [done|]. exists w1, info. rewrite Ef. split; [done|].
        split; [done|]. split; [done|]. by exists k. }
  cbn [checked_bind]. destruct (um_check_stop_spec s2 Hs2) as (s3 & -> & Hs3 & Hsame3).
  cbn [checked_bind]. pose proof (um_same_effect _ _ _ _ _ _ _ Heff Hsame3) as Heff3.
  destruct (um_reassembly_timer s3); [by eauto|].
  destruct (um_start_spec s3 Hs3) as (s4 & -> & Hs4 & Hsame4). cbn [checked_bind].
  eexists _, _. split; [done|]. split; [done|]. by eapply um_same_effect.
Qed.

Lemma um_read_header_range buf header :
  Forall is_u8 buf ->
  rlc_um_read_data_pdu_header buf (rxum_sn_field_length cfg) um_header_zero = Some header ->
  um_in_sn (uhdr_sn header).
Proof.
  intros Hb Hr. unfold rlc_um_read_data_pdu_header in Hr. destruct buf as [|b0 rdr]; [done|].
  apply Forall_cons in Hb as [Hb0 Hb]. apply bind_Some in Hr as ([h1 r1] & H1 & H2).
  assert (um_in_sn (uhdr_sn h1)) as Hsn.
  { unfold um_in_sn, um_mod. destruct (rxum_sn_field_length cfg).
    - destruct (_ && _); [done|]. injection H1 as <- <-. cbn -[Z.land].
      change (cardinality 6) with 64. unfold in_range in *. bits. dlia.
    - change (cardinality (um_to_number um_size12bits)) with (2 ^ 12).
      destruct (_ && _); [done|]. destruct (_ && _); [done|]. destruct (negb _).
      + destruct rdr as [|b1 rdr]; [done|]. apply Forall_cons in Hb as [Hb1 Hb]. injection H1 as <- <-.
        unfold field_update. cbn -[Z.lor Z.land Z.shiftl Z.pow].
        apply (lor_range 12); try lia; unfold in_range in *; bits; dlia.
      + injection H1 as <- <-. cbn -[Z.land Z.shiftl Z.pow]. unfold in_range in *. bits. dlia. }
  destruct (um_si_has_so _).
  - destruct r1 as [|s0 [|s1 r1]]; try done. by injection H2 as <-.
  - by injection H2 as <-.
Qed.

(** What a UMD PDU does. *)
Definition um_pdu_effect (alloc : bool) (buf : list Z) s s' (out : list rx_um_output) : Prop :=
  match rlc_um_read_data_pdu_header buf (rxum_sn_field_length cfg) um_header_zero with
  | None => s' = s /\ um_delivered out = []
  | Some header =>
      let payload := drop (Z.to_nat (rlc_um_nr_packed_length header)) buf in
      if zlen buf <=? rlc_um_nr_packed_length header then s' = s /\ um_delivered out = []
      else if bool_decide (uhdr_si header = full_sdu) then
        s' = s /\ um_delivered out = if alloc then [payload] else []
      else if sn_invalid_for_rx_buffer cfg s (uhdr_sn header) then s' = s /\ um_delivered out = []
      else exists out', um_delivered out = um_delivered out' /\
        um_place_effect alloc s header payload s' out'
  end.

Lemma um_handle_pdu_spec alloc buf s :
  um_inv s -> Forall is_u8 buf ->
  exists s' out, um_handle_pdu cfg alloc buf s = Ok (s', out) /\ um_inv s' /\
    um_pdu_effect alloc buf s s' out.
Proof.
  intros Hs Hb. unfold um_handle_pdu, um_pdu_effect.
  destruct (rlc_um_read_data_pdu_header buf _ _) as [header|] eqn:Er; [|by eexists _, _].
  destruct (zlen buf <=? _); [by eexists _, _|]. case_bool_decide as Hsi.
  { eexists _, _. split; [done|]. split; [done|]. by destruct alloc. }
  destruct (sn_invalid_for_rx_buffer cfg s (uhdr_sn header)); [by eexists _, _|].
  destruct (um_place_spec alloc header (drop (Z.to_nat (rlc_um_nr_packed_length header)) buf) s)
    as (s' & out & -> & Hs' & Heff); [done|done|by eapply um_read_header_range|].
  cbn [checked_bind]. eexists _, _. split; [done|]. split; [done|]. by exists out.
Qed.

Lemma um_expired_spec s :
  um_inv s ->
  exists s' out k, um_on_expired_reassembly_timer cfg s = Ok (s', out) /\ um_inv s' /\
    um_delivered out = [] /\ passes (um_rx_window s) s k s' /\
    walked (um_rx_next_highest s) (dist (um_rx_next_highest s) (um_rx_timer_trigger s))
      (um_rx_window s) (um_rx_next_reassembly s) k (um_rx_next_reassembly s').
Proof.
  intros Hs. destruct (uinv_win _ Hs) as [Hw Hc]. pose proof (uinv_next _ Hs) as Hn.
  pose proof um_m_window. pose proof um_ws_bounds. unfold um_on_expired_reassembly_timer.
  pose proof (um_dist_range (um_rx_next_highest s) (um_rx_next_reassembly s)).
  destruct (um_expire_walk_spec (um_walk_fuel cfg) (um_rx_next_highest s) (um_rx_timer_trigger s)
    (um_rx_next_reassembly s) (um_rx_window s)) as (r & w' & k & out & -> & Hl & Hwalk & Hdel);
    try done; try (unfold um_walk_fuel; lia).
  cbn [checked_bind]. pose proof Hl as (_ & Hw' & Hc' & _). pose proof Hwalk as (Er & Hd & Hmax & _).
  match goal with |- context [um_start_reassembly cfg ?x] => set (s1 := x) end.
  assert (um_inv s1) as Hs1.
  { destruct Hs. split; cbn; try done; [|split; [done|congruence]]. rewrite Er. apply Z.mod_pos_bound. lia. }
  destruct (um_start_spec s1 Hs1) as (s2 & -> & Hs2 & Ew & En & Eh). cbn [checked_bind].
  exists s2, out, k. split; [done|]. split; [done|]. split; [done|]. unfold passes.
  rewrite Ew, En, Eh. cbn. split_and!; try done. lia.
Qed.

Lemma um_init_spec :
  exists s, rx_um_init cfg = Ok s /\ um_inv s /\ um_rx_next_reassembly s = 0 /\
    um_rx_next_highest s = 0 /\ forall sn, win_view (um_rx_window s) sn = None.
Proof.
  pose proof um_m_window. pose proof um_ws_bounds. unfold rx_um_init.
  assert (exists n, 0 <= n /\ ws = 2 ^ n) as (n & Hn0 & En).
  { unfold um_window_size. destruct (rxum_sn_field_length cfg); [exists 5|exists 11]; split; done || lia. }
  destruct (win_make_spec (T:=rlc_rx_um_sdu_info) n Hn0) as (w & Hmk & Hw & Hc & _ & Hv).
  rewrite <- En in Hmk, Hc. rewrite Hmk. cbn [checked_bind]. eexists. split; [done|].
  split_and!; try done. split; try done; cbn; unfold um_in_sn; lia.
Qed.

Definition um_op_ok (op : rx_um_op) : Prop :=
  match op with UmPdu _ buf => Forall is_u8 buf | _ => True end.

Lemma um_step_spec op s :
  um_inv s -> um_op_ok op -> exists s' out, rx_um_step cfg op s = Ok (s', out) /\ um_inv s'.
Proof.
  intros Hs Hop. destruct op as [alloc buf|]; cbn [rx_um_step].
  - destruct (um_handle_pdu_spec alloc buf s Hs Hop) as (s' & out & -> & Hs' & _). by eauto.
  - destruct (um_reassembly_timer s); [|by eauto].
    destruct (um_expired_spec (s <| um_reassembly_timer := false |>)) as (s' & out & k & -> & Hs' & _);
      [by destruct Hs|by eauto].
Qed.

Lemma um_run_spec ops s :
  um_inv s -> Forall um_op_ok ops -> exists s' out, rx_um_run cfg ops s = Ok (s', out) /\ um_inv s'.
Proof.
  revert s. induction ops as [|op ops IH]; intros s Hs Hops; cbn [rx_um_run]; [by eauto|].
  apply Forall_cons in Hops as [Hop Hops].
  destruct (um_step_spec op s Hs Hop) as (s1 & out & -> & Hs1). cbn [checked_bind].
  destruct (IH s1 Hs1 Hops) as (s2 & out' & -> & Hs2). cbn [checked_bind]. by eauto.
Qed.

(** ** A peer that follows the format

    The peer numbers its segmented SDUs 0, 1, 2, ... and sends number [n] under the
    sequence number [n mod 2^k]. *)
Variable sdus : Z -> list Z.

(** A PDU of SDU number [n]: the SDU itself, or a segment, which has an offset
    unless it is the first. *)
Definition um_carries (n : Z) (buf : list Z) : Prop :=
  Forall is_u8 buf /\
  exists header, rlc_um_read_data_pdu_header buf (rxum_sn_field_length cfg) um_header_zero = Some header /\
    let payload := drop (Z.to_nat (rlc_um_nr_packed_length header)) buf in
    if bool_decide (uhdr_si header = full_sdu) then payload = sdus n
    else uhdr_sn header = n mod m /\ um_si_has_so (uhdr_si header) = negb (uhdr_so header =? 0) /\
      zlen (sdus n) < 2 ^ 16 /\ seg_ok (um_header_segment header payload) /\
      seg_of (sdus n) (um_header_segment header payload).

Definition um_complete (buf : list Z) : bool :=
  match rlc_um_read_data_pdu_header buf (rxum_sn_field_length cfg) um_header_zero with
  | Some header => bool_decide (uhdr_si header = full_sdu)
  | None => false
  end.

(** The window ends before number [top]; a complete SDU has no sequence number, its
    label only names it. *)
Definition um_genuine_op (top n : Z) (op : rx_um_op) : Prop :=
  match op with
  | UmPdu _ buf => um_carries n buf /\ (um_complete buf = false -> 0 <= n /\ top - ws <= n < top + ws)
  | UmReassemblyExpired => True
  end.

Definition um_next_top (top : Z) s s' : Z :=
  top + mod_base m (um_rx_next_highest s) (um_rx_next_highest s').

Fixpoint um_genuine (top : Z) (ops : list (rx_um_op * Z)) s : Prop :=
  match ops with
  | [] => True
  | (op, n) :: ops =>
      um_genuine_op top n op /\
      match rx_um_step cfg op s with
      | Ok (s', _) => um_genuine (um_next_top top s s') ops s'
      | Panic => True
      end
  end.

(** The entity waits for number [base] and has seen none from [top] on; every
    entry belongs to a number between and holds bytes of its SDU only. *)
Definition um_entries w (base top : Z) : Prop :=
  forall x info, win_view w x = Some info -> exists n, base <= n < top /\ x = n mod m /\
    segs_wf (um_segments info) /\ Forall (seg_of (sdus n)) (um_segments info).

Record um_tracks (base top : Z) s : Prop := {
  ut_inv : um_inv s;
  ut_top : top mod m = um_rx_next_highest s;
  ut_base : 0 <= base /\ top - ws <= base <= top /\ base mod m = um_rx_next_reassembly s;
  ut_entries : um_entries (um_rx_window s) base top;
}.

Lemma um_dist_count top n :
  top - ws <= n < top + ws -> dist (top mod m) (n mod m) = n - top + ws.
Proof.
  intros Hn. pose proof um_m_window. pose proof um_ws_bounds. rewrite um_dist_base, mod_base_spec by apply _.
  rewrite Zminus_mod_idemp_l, Zminus_mod, Zplus_mod_idemp_l, <- Zminus_mod.
  replace (n - (top + ws)) with ((n - top + ws) + (-1) * m) by lia.
  rewrite Z_mod_plus_full. apply Z.mod_small. lia.
Qed.

Lemma um_count_inj top n n' :
  top - ws <= n < top + ws -> top - ws <= n' < top + ws -> n mod m = n' mod m -> n = n'.
Proof.
  intros Hn Hn' E. pose proof (um_dist_count top n Hn). pose proof (um_dist_count top n' Hn').
  rewrite E in *. lia.
Qed.

(** Numbers that left the window at its lower end. *)
Lemma um_entries_left w base top k w' :
  um_entries w base top ->
  left_window w (base mod m) k w' -> um_entries w' (base + k) top.
Proof.
  intros He (Hk & _ & _ & Hsub & _) x info Hx. destruct (Hsub x info Hx) as [Hw Hne].
  destruct (He x info Hw) as (n & Hn & -> & Hc). exists n. split; [|done].
  split; [|lia]. destruct (decide (base + k <= n)); [done|].
  destruct (Hne (n - base)); [lia|]. rewrite Zplus_mod_idemp_l. f_equal. lia.
Qed.

Lemma um_stored_holds base top s n header payload w1 info :
  um_tracks base top s -> top - ws <= n < top + ws -> uhdr_sn header = n mod m ->
  seg_ok (um_header_segment header payload) -> seg_of (sdus n) (um_header_segment header payload) ->
  zlen (sdus n) < 2 ^ 16 -> um_stored (um_rx_window s) header payload w1 info ->
  segs_wf (um_segments info) /\ Forall (seg_of (sdus n)) (um_segments info) /\
  (um_fully_received info = true -> chain_segments (um_segments info) = sdus n) /\
  (top <= n -> um_segments info = [um_header_segment header payload]).
Proof.
  intros Ht Hn Esn Hok Hof Hlen (_ & _ & _ & Eseg & Ef & _). rewrite Esn in Eseg, Ef.
  set (old := um_entry_segments (win_view (um_rx_window s) (n mod m))) in *.
  pose proof um_m_window. pose proof um_ws_bounds.
  assert (segs_wf old /\ Forall (seg_of (sdus n)) old /\ (top <= n -> old = [])) as (Hwf & Hall & Hnew).
  { unfold old. destruct (win_view (um_rx_window s) (n mod m)) as [i|] eqn:E.
    - destruct (ut_entries _ _ _ Ht _ _ E) as (n' & Hn' & Emod & Hw & Ha).
      pose proof (ut_base _ _ _ Ht). apply um_count_inj with (top:=top) in Emod; [|lia|lia]. subst n'.
      split_and!; try done. lia.
    - split_and!; [split|..]; constructor. }
  destruct (store_segment_spec old _ Hwf Hok) as (Hwf' & _ & Hof' & _).
  rewrite Eseg, Ef. specialize (Hof' (sdus n) Hall Hof). split_and!; try done.
  - intros Hfull. pose proof (zlen_nonneg (sdus n)).
    destruct (inventory_loop_spec (sdus n) 0 (store_segment old (um_header_segment header payload)).1)
      as (Hchain & _ & _); try done; [|by apply Hchain].
    eapply Forall_impl; [apply Hwf'|]. by intros x (? & _).
  - intros Hge. rewrite (Hnew Hge). done.
Qed.

(** The entries after a piece of number [n] is stored. *)
Lemma um_entries_stored base top s n header payload w1 info top' :
  um_tracks base top s -> base <= n < top' -> top <= top' -> uhdr_sn header = n mod m ->
  um_stored (um_rx_window s) header payload w1 info ->
  segs_wf (um_segments info) -> Forall (seg_of (sdus n)) (um_segments info) ->
  um_entries w1 base top'.
Proof.
  intros Ht Hn Htop Esn (_ & _ & Hv & _ & _ & Ho) Hwf Hall x i Hx.
  destruct (decide (x = uhdr_sn header)) as [->|Hne].
  - rewrite Hv in Hx. injection Hx as <-. by exists n.
  - destruct (ut_entries _ _ _ Ht x i (Ho x i Hne Hx)) as (n' & Hn' & ? & ?).
    exists n'. split; [lia|done].
Qed.

(** A segment alone is a whole SDU only if it has no offset and is the last. *)
Lemma um_fresh_incomplete header payload :
  um_si_has_so (uhdr_si header) = negb (uhdr_so header =? 0) ->
  (segment_inventory [um_header_segment header payload]).1 = false.
Proof.
  intros Hso. unfold segment_inventory, um_header_segment; cbn.
  destruct (uhdr_so header =? 0) eqn:E; cbn [negb] in *; [|done].
  destruct (uhdr_si header) eqn:Es; try done.
Qed.

Lemma um_top_same top s s' :
  um_rx_next_highest s' = um_rx_next_highest s -> um_next_top top s s' = top.
Proof. intros E. unfold um_next_top. rewrite E, mod_base_self by apply _. lia. Qed.

Lemma um_place_tracks base top s n header payload s' out :
  um_tracks base top s -> 0 <= n -> base <= n < top + ws -> uhdr_sn header = n mod m ->
  um_si_has_so (uhdr_si header) = negb (uhdr_so header =? 0) -> zlen (sdus n) < 2 ^ 16 ->
  seg_ok (um_header_segment header payload) -> seg_of (sdus n) (um_header_segment header payload) ->
  um_inv s' -> forall alloc, um_place_effect alloc s header payload s' out ->
  exists base' new, um_delivered out = sdus <$> new /\ Forall (fun k => k = n) new /\
    um_tracks base' (um_next_top top s s') s'.
Proof.
  intros Ht Hn0 Hn Esn Hso Hlen Hok Hof Hs' alloc (w1 & info & Hst & Heff).
  pose proof um_m_window. pose proof um_ws_bounds.
  pose proof (ut_base _ _ _ Ht) as (Hb0 & Hb & Eb). pose proof (ut_top _ _ _ Ht) as Et.
  destruct (um_stored_holds base top s n header payload w1 info) as (Hwf & Hall & Hchain & Hfresh);
    try done; [lia|].
  assert (dist (um_rx_next_highest s) (n mod m) = n - top + ws) as Ed.
  { rewrite <- Et. apply um_dist_count. lia. }
  assert (dist (um_rx_next_highest s) (um_rx_next_reassembly s) = base - top + ws) as Edb.
  { rewrite <- Et, <- Eb. apply um_dist_count. lia. }
  destruct (um_fully_received info) eqn:Ef.
  - destruct Heff as (-> & w2 & k & Hv2 & Ho2 & Hl & En & Eh & Hk). rewrite Edb in Hk.
    assert (n < top) as Hlt.
    { destruct (decide (n < top)); [done|]. exfalso.
      assert (um_segments info = [um_header_segment header payload]) as E by (apply Hfresh; lia).
      destruct Hst as (_ & _ & _ & Eseg & Efull & _). rewrite <- Eseg, E, um_fresh_incomplete in Efull by done.
      congruence. }
    pose proof (um_entries_stored base top s n header payload w1 info top Ht ltac:(lia) ltac:(lia) Esn Hst Hwf Hall) as He1.
    assert (um_entries w2 base top) as He2.
    { intros x i Hx. destruct (decide (x = uhdr_sn header)) as [->|Hne].
      - rewrite Hv2 in Hx. injection Hx as <-. exists n. split; [lia|]. split; [done|].
        split; [split; constructor|constructor].
      - rewrite Ho2 in Hx by done. by apply He1. }
    rewrite (um_top_same top s s' Eh). exists (base + k). rewrite <- Eb in Hl, En.
    exists (if alloc then [n] else []). split.
    { unfold um_reassemble_sdu. rewrite Ef. destruct alloc; cbn; [|done]. by rewrite Hchain. }
    split; [by destruct alloc; repeat constructor|]. pose proof Hl as [Hk0 _].
    split; [done|by rewrite Eh| |by eapply um_entries_left].
    split; [lia|]. split; [lia|]. rewrite En. by rewrite Zplus_mod_idemp_l.
  - rewrite Esn, Ed in Heff. destruct (n - top + ws <? ws) eqn:Hin; zbool.
    + destruct Heff as (-> & Ew & En & Eh). exists base, []. rewrite (um_top_same top s s' Eh).
      split; [done|]. split; [done|]. split; [done|by rewrite Eh|by rewrite En|].
      rewrite Ew. eapply um_entries_stored; try done; lia.
    + destruct Heff as (Hdel & Eh & k & Hl & En & Hk). exists (base + k), [].
      assert (um_rx_next_highest s' = (n + 1) mod m) as Eh' by by rewrite Eh, Zplus_mod_idemp_l.
      assert (um_next_top top s s' = n + 1) as ->.
      { unfold um_next_top. rewrite mod_base_spec by apply _. rewrite Eh', <- Et, <- Zminus_mod.
        rewrite Z.mod_small by lia. lia. }
      split; [done|]. split; [done|].
      assert (um_entries w1 base (n + 1)) as He1 by (eapply um_entries_stored; try done; lia).
      cbn zeta in Hk. rewrite Eh', <- Eb in Hk.
      assert (0 <= k /\ n + 1 - ws <= base + k <= n + 1) as [Hk0 Hbk].
      { pose proof Hl as [Hk0 _]. split; [done|]. destruct (decide (n + 1 - ws <= base)).
        - rewrite um_dist_count in Hk by lia. lia.
        - assert (base mod m = (base + m) mod m) as Ebm.
          { rewrite <- (Z_mod_plus_full base 1 m). f_equal. lia. }
          rewrite Ebm, um_dist_count in Hk by lia. lia. }
      rewrite <- Eb in Hl, En.
      split; [done|done| |by eapply um_entries_left].
      split; [lia|]. split; [lia|]. rewrite En. by rewrite Zplus_mod_idemp_l.
Qed.

Lemma um_tracks_frame base top s s' :
  um_tracks base top s -> um_inv s' -> same_window s s' ->
  um_tracks base (um_next_top top s s') s'.
Proof.
  intros [Hi Et Hb He] Hs' (Ew & En & Eh). rewrite (um_top_same top s s' Eh).
  split; rewrite ?Ew, ?En, ?Eh; done.
Qed.

Lemma um_step_tracks base top s n op :
  um_tracks base top s -> um_genuine_op top n op ->
  exists s' out base' new, rx_um_step cfg op s = Ok (s', out) /\
    um_delivered out = sdus <$> new /\ Forall (fun k => k = n /\ op <> UmReassemblyExpired) new /\
    um_tracks base' (um_next_top top s s') s'.
Proof.
  intros Ht Hop. pose proof (ut_inv _ _ _ Ht) as Hs. pose proof um_m_window. pose proof um_ws_bounds.
  pose proof (ut_base _ _ _ Ht) as (Hb0 & Hb & Eb). pose proof (ut_top _ _ _ Ht) as Et.
  destruct op as [alloc buf|]; cbn [rx_um_step um_genuine_op] in *.
  - destruct Hop as ((Hbytes & header & Er & Hc) & Hn). unfold um_complete in Hn. rewrite Er in Hn.
    destruct (um_handle_pdu_spec alloc buf s Hs Hbytes) as (s' & out & -> & Hs' & Heff).
    unfold um_pdu_effect in Heff. rewrite Er in Heff.
    assert (s' = s -> um_tracks base (um_next_top top s s') s') as Hframe.
    { intros ->. by apply um_tracks_frame. }
    destruct (zlen buf <=? _).
    { destruct Heff as [E Ed]. exists s', out, base, []. by split_and!; [|rewrite Ed| |apply Hframe]. }
    case_bool_decide as Hsi.
    { destruct Heff as [E Ed]. exists s', out, base, (if alloc then [n] else []).
      split_and!; [done| |by destruct alloc; [apply Forall_singleton|]|by apply Hframe].
      rewrite Ed. destruct alloc; [|done]. cbn. by rewrite Hc. }
    destruct (sn_invalid_for_rx_buffer cfg s (uhdr_sn header)) eqn:Einv.
    { destruct Heff as [E Ed]. exists s', out, base, []. by split_and!; [|rewrite Ed| |apply Hframe]. }
    destruct (Hn eq_refl) as [Hn0 Hn'].
    destruct Hc as (Esn & Hso & Hlen & Hok & Hof). destruct Heff as (out' & Ed & Heff).
    assert (base <= n) as Hge.
    { unfold sn_invalid_for_rx_buffer in Einv. rewrite um_dist_lowest, Esn, <- Et, <- Eb in Einv.
      rewrite !um_dist_count in Einv by lia. lia. }
    destruct (um_place_tracks base top s n header (drop (Z.to_nat (rlc_um_nr_packed_length header)) buf) s' out')
      with (alloc:=alloc) as (base' & new & Hd & Hnew & Ht'); try done; [lia|].
    exists s', out, base', new. rewrite Ed. split_and!; try done.
    eapply Forall_impl; [exact Hnew|]. by intros k ->.
  - destruct (um_reassembly_timer s).
    2:{ exists s, [], base, []. split_and!; try done. by apply um_tracks_frame. }
    set (s0 := s <| um_reassembly_timer := false |>).
    assert (um_inv s0) as Hs0 by by destruct Hs.
    destruct (um_expired_spec s0 Hs0) as (s' & out & k & -> & Hs' & Hdel & (Hl & En & Eh & Hk) & _).
    cbn in Hl, En, Eh, Hk. exists s', out, (base + k), []. split_and!; try done.
    rewrite (um_top_same top s s' Eh). rewrite <- Et, <- Eb, um_dist_count in Hk by lia.
    pose proof Hl as [Hk0 _]. rewrite <- Eb in Hl, En.
    split; [done|by rewrite Eh| |eapply um_entries_left; [apply Ht|done]].
    split; [lia|]. split; [lia|]. rewrite En. by rewrite Zplus_mod_idemp_l.
Qed.

Lemma um_run_tracks base top s ops :
  um_tracks base top s -> um_genuine top ops s ->
  exists s' out base' top' new, rx_um_run cfg (fst <$> ops) s = Ok (s', out) /\
    um_delivered out = sdus <$> new /\
    Forall (fun k => exists op, op <> UmReassemblyExpired /\ (op, k) ∈ ops) new /\
    um_tracks base' top' s'.
Proof.
  revert base top s. induction ops as [|[op n] ops IH]; intros base top s Ht Hg.
  { exists s, [], base, top, []. by split_and!. }
  destruct Hg as [Hop Hg]. destruct (um_step_tracks base top s n op Ht Hop)
    as (s1 & out1 & base1 & new1 & E & Hd1 & Hn1 & Ht1).
  rewrite E in Hg. cbn [fmap list_fmap rx_um_run fst snd]. rewrite E. cbn [checked_bind].
  destruct (IH _ _ _ Ht1 Hg) as (s' & out & base' & top' & new & E' & Hd & Hn & Ht').
  cbn in E'. rewrite E'. cbn [checked_bind]. exists s', (out1 ++ out), base', top', (new1 ++ new).
  split; [done|]. split; [unfold um_delivered in *; by rewrite omap_app, fmap_app, Hd1, Hd|].
  split; [|done]. apply Forall_app. split.
  - eapply Forall_impl; [exact Hn1|]. cbn. intros k [-> Hop']. exists op. split; [done|]. apply elem_of_cons. by left.
  - eapply Forall_impl; [exact Hn|]. cbn. intros k (op' & Hop' & Hk). exists op'. split; [done|]. apply elem_of_cons. by right.
Qed.
End rx_um_props.
