(* ===== verification/RlcRxUmRuns.v ===== *)
(** * RLC UM: what the receiving entity guarantees

    The properties of every run of the receiving UM entity from its construction,
    concrete runs over the circular map of the code, and where the code departs from
    its comments. *)
From stdpp Require Import base numbers list gmap.
From Stdlib Require Import ZArith Lia.
From S2P Require Import Prelude.
From S2P Require Import RlcConfig.
From S2P Require Import RlcUmPdu.
From S2P Require Import SduWindow.
From S2P Require Import RlcSegments.
From S2P Require Import RlcRxUm.
From S2P Require Import RlcRxUmProps.

Set Default Goal Selector "!".
Open Scope Z_scope.
Open Scope ran_scope.

Section rx_um_runs.
Context {W : Type -> Type} `{!SduWindow W} `{!SduWindowLaws W}.
Variable cfg : rlc_rx_um_config.
Hypothesis Hcfg : um_cfg_ok cfg.
Implicit Types s : rx_um_state W.

Lemma um_init_tracks (sdus : Z -> list Z) s0 :
  rx_um_init cfg = Ok s0 -> um_inv cfg s0 /\ um_tracks cfg sdus 0 0 s0.
Proof.
  intros Hinit. destruct (um_init_spec (W:=W) cfg) as (s & E & Hs & En & Eh & Hv).
  rewrite E in Hinit. injection Hinit as <-. pose proof (um_ws_bounds cfg).
  split; [done|]. split; [done|by rewrite Eh|by rewrite En; split_and!; [lia|lia|lia|]|].
  intros x info Hx. by rewrite Hv in Hx.
Qed.

(** No PDU can abort the receiving UM entity: whatever bytes arrive and
    whenever t-Reassembly expires, no assertion fails, every walk over the window
    ends, and the state variables remain sequence numbers. *)
Theorem rx_um_never_panics s0 ops :
  rx_um_init cfg = Ok s0 -> Forall um_op_ok ops ->
  exists s out, rx_um_run cfg ops s0 = Ok (s, out) /\
    0 <= um_rx_next_reassembly s < um_mod cfg /\ 0 <= um_rx_timer_trigger s < um_mod cfg /\
    0 <= um_rx_next_highest s < um_mod cfg.
Proof.
  intros Hinit Hops. destruct (um_init_tracks (fun _ => []) s0 Hinit) as [Hs _].
  destruct (um_run_spec cfg Hcfg ops s0 Hs Hops) as (s & out & E & [? ? ? _]).
  by exists s, out.
Qed.

(** Integrity of UM reception: when the peer sends complete SDUs and segments
    of its SDUs, in any order, repeated or lost, each segment within a window of the
    highest number seen, then only SDUs of the peer that it has sent are handed
    over, never one put together from different SDUs; RX_Next_Reassembly stays in
    the reassembly window or at its end, and no number outside
    [RX_Next_Reassembly, RX_Next_Highest) is buffered. *)
Theorem rx_um_integrity (sdus : Z -> list Z) s0 ops :
  rx_um_init cfg = Ok s0 -> um_genuine cfg sdus 0 ops s0 ->
  exists s out ns, rx_um_run cfg (fst <$> ops) s0 = Ok (s, out) /\
    um_delivered out = sdus <$> ns /\
    Forall (fun n => exists op, op <> UmReassemblyExpired /\ (op, n) ∈ ops) ns /\
    um_rx_mod_base cfg (um_rx_next_highest s) (um_rx_next_reassembly s) <= um_window_size cfg /\
    forall sn, has_sn (um_rx_window s) sn = true ->
      um_rx_mod_base cfg (um_rx_next_highest s) (um_rx_next_reassembly s)
        <= um_rx_mod_base cfg (um_rx_next_highest s) sn < um_window_size cfg.
Proof.
  intros Hinit Hg. destruct (um_init_tracks sdus s0 Hinit) as [_ Ht0]. pose proof (um_ws_bounds cfg).
  destruct (um_run_tracks cfg Hcfg sdus 0 0 s0 ops Ht0 Hg)
    as (s & out & base & top & ns & E & Hd & Hns & [_ Et (Hb0 & Hb & Eb) He]).
  exists s, out, ns. rewrite <- Et, <- Eb. split_and!; try done.
  - rewrite um_dist_count by lia. lia.
  - intros sn Hsn. apply has_sn_spec in Hsn as [i Hi]. destruct (He sn i Hi) as (n & Hn & -> & _).
    rewrite !um_dist_count by lia. lia.
Qed.

(** Expiry of t-Reassembly gives up on what is missing before the trigger: in
    a reachable state, RX_Next_Reassembly moves over numbers below the trigger and
    then over fully received ones, to the first number at or after the trigger that
    is not received, or to RX_Next_Highest; the numbers passed leave the window, the
    others stay, and nothing is delivered. *)
Theorem rx_um_expiry s0 s ops out :
  rx_um_init cfg = Ok s0 -> Forall um_op_ok ops ->
  rx_um_run cfg ops s0 = Ok (s, out) -> um_reassembly_timer s = true ->
  exists s' out' k, rx_um_step cfg UmReassemblyExpired s = Ok (s', out') /\
    um_delivered out' = [] /\ um_rx_next_highest s' = um_rx_next_highest s /\
    left_window cfg (um_rx_window s) (um_rx_next_reassembly s) k (um_rx_window s') /\
    walked cfg (um_rx_next_highest s)
      (um_rx_mod_base cfg (um_rx_next_highest s) (um_rx_timer_trigger s))
      (um_rx_window s) (um_rx_next_reassembly s) k (um_rx_next_reassembly s').
Proof.
  intros Hinit Hops E Ht. destruct (um_init_tracks (fun _ => []) s0 Hinit) as [Hs0 _].
  destruct (um_run_spec cfg Hcfg ops s0 Hs0 Hops) as (s1 & out1 & E1 & Hs).
  rewrite E in E1. injection E1 as <- <-.
  destruct (um_expired_spec cfg Hcfg (s <| um_reassembly_timer := false |>))
    as (s' & out' & k & E' & _ & Hdel & (Hl & _ & Eh & _) & Hw); [by destruct Hs|].
  exists s', out', k. cbn [rx_um_step]. by rewrite Ht, E'.
Qed.

(** The tests for a gap look at RX_Next_Highest, which is never buffered when
    the peer follows the format, instead of RX_Next_Reassembly: in a reachable state
    t-Reassembly is started exactly when RX_Next_Highest > RX_Next_Reassembly + 1,
    and a missing segment of the only incomplete SDU does not start it. *)
Theorem gap_test_never_holds (sdus : Z -> list Z) s0 ops s out :
  rx_um_init cfg = Ok s0 -> um_genuine cfg sdus 0 ops s0 ->
  rx_um_run cfg (fst <$> ops) s0 = Ok (s, out) ->
  has_sn (um_rx_window s) (um_rx_next_highest s) = false /\
  um_start_reassembly cfg s =
    if um_rx_mod_base cfg (um_rx_next_highest s) (u32 (um_rx_next_reassembly s + 1)) <? um_window_size cfg
    then Ok (s <| um_reassembly_timer := true |> <| um_rx_timer_trigger := um_rx_next_highest s |>)
    else Ok s.
Proof.
  intros Hinit Hg E. destruct (um_init_tracks sdus s0 Hinit) as [_ Ht0]. pose proof (um_ws_bounds cfg).
  destruct (um_run_tracks cfg Hcfg sdus 0 0 s0 ops Ht0 Hg)
    as (s1 & out1 & base & top & ns & E1 & _ & _ & [_ Et (Hb0 & Hb & Eb) He]).
  rewrite E in E1. injection E1 as <- <-.
  assert (has_sn (um_rx_window s) (um_rx_next_highest s) = false) as Hno.
  { apply not_true_iff_false. intros Hsn. apply has_sn_spec in Hsn as [i Hi].
    destruct (He _ i Hi) as (n & Hn & En & _). rewrite <- Et in En.
    apply (um_count_inj cfg top) in En; lia. }
  split; [done|]. unfold um_start_reassembly, um_run_reassembly_timer.
  rewrite Hno, andb_false_r, um_dist_highest. cbn [checked_bind]. rewrite orb_false_r.
  case_if; [|done]. rewrite (proj2 (Z.ltb_lt _ _)) by apply Hcfg. done.
Qed.
End rx_um_runs.

(** ** Concrete runs *)

Definition ex_um_cfg : rlc_rx_um_config :=
  {| rxum_sn_field_length := um_size6bits; rxum_t_reassembly := 35 |}.

Definition ex_um_init : rx_um_state circular_map :=
  Eval vm_compute in
    match rx_um_init (W:=circular_map) ex_um_cfg as r
      return match r with Ok _ => rx_um_state circular_map | Panic => unit end with
    | Ok s => s
    | Panic => tt
    end.

Lemma ex_um_init_run : rx_um_init ex_um_cfg = Ok ex_um_init.
Proof. by vm_compute. Qed.

(** A complete SDU; SDU 1 in two segments, the last first; SDU 0 does not arrive and
    t-Reassembly expires. *)
Definition ex_um_ops : list (rx_um_op * Z) :=
  [(UmPdu true [0; 31; 32], 7); (UmPdu true [129; 0; 1; 22; 23], 1); (UmPdu true [65; 21], 1);
   (UmReassemblyExpired, 0)].
Definition ex_um_sdus (n : Z) : list Z := if n =? 7 then [31; 32] else [21; 22; 23].

Lemma ex_um_bytes_ok : Forall um_op_ok (fst <$> ex_um_ops).
Proof.
  repeat (apply Forall_cons_2; [cbn;
    first [exact I|repeat (apply Forall_cons_2; [unfold in_range; lia|]); apply Forall_nil_2]|]).
  apply Forall_nil_2.
Qed.

Lemma ex_um_carries :
  um_carries ex_um_cfg ex_um_sdus 7 [0; 31; 32] /\
  um_carries ex_um_cfg ex_um_sdus 1 [129; 0; 1; 22; 23] /\
  um_carries ex_um_cfg ex_um_sdus 1 [65; 21].
Proof.
  pose proof ex_um_bytes_ok as Hb. apply Forall_cons in Hb as [Hb1 Hb].
  apply Forall_cons in Hb as [Hb2 Hb]. apply Forall_cons in Hb as [Hb3 _].
  split_and!; (split; [done|eexists; split; [by vm_compute|]]); [by vm_compute|..];
    (split; [done|split; [done|split; [done|split; [by vm_compute|]]]]).
  - split; [by exists []|by vm_compute].
  - split; [by exists [22; 23]|by vm_compute].
Qed.

(** Evaluates the step and the top at the head of a [um_genuine] run. *)
Ltac um_eval_step :=
  match goal with |- match ?t with _ => _ end => let r := eval vm_compute in t in change t with r end;
  cbn iota; match goal with |- um_genuine _ _ ?b _ _ => let r := eval vm_compute in b in change b with r end.

Lemma ex_um_genuine : um_genuine ex_um_cfg ex_um_sdus 0 ex_um_ops ex_um_init.
Proof.
  destruct ex_um_carries as (H1 & H2 & H3). unfold ex_um_ops.
  do 4 (split; [first [exact I|split; [done|first [by vm_compute|done]]]|um_eval_step]). exact I.
Qed.

Lemma rx_um_never_panics_witness :
  exists s out, rx_um_run ex_um_cfg (fst <$> ex_um_ops) ex_um_init = Ok (s, out).
Proof.
  destruct (rx_um_never_panics ex_um_cfg eq_refl ex_um_init (fst <$> ex_um_ops)
    ex_um_init_run ex_um_bytes_ok) as (s & out & E & _). exists s, out. exact E.
Defined.

Lemma rx_um_integrity_witness :
  exists s out ns, rx_um_run ex_um_cfg (fst <$> ex_um_ops) ex_um_init = Ok (s, out) /\
    um_delivered out = ex_um_sdus <$> ns.
Proof.
  destruct (rx_um_integrity ex_um_cfg eq_refl ex_um_sdus ex_um_init ex_um_ops
    ex_um_init_run ex_um_genuine) as (s & out & ns & E & Hd & _). exists s, out, ns. exact (conj E Hd).
Defined.

Example ex_um_run_delivers :
  match rx_um_run ex_um_cfg (fst <$> ex_um_ops) ex_um_init with
  | Ok (s, out) => um_delivered out = [[31; 32]; [21; 22; 23]] /\ um_rx_next_reassembly s = 2
  | Panic => False
  end.
Proof. by vm_compute. Qed.

(** The state and the output of a run, by computation. *)
Definition um_result (ops : list rx_um_op) : option (rx_um_state circular_map * list rx_um_output) :=
  match rx_um_run ex_um_cfg ops ex_um_init with Ok r => Some r | Panic => None end.

Definition ex_um_waiting : rx_um_state circular_map :=
  Eval vm_compute in
    match um_result [UmPdu true [129; 0; 1; 22; 23]] as r
      return match r with Some _ => rx_um_state circular_map | None => unit end with
    | Some (s, _) => s
    | None => tt
    end.

Lemma ex_um_waiting_run :
  rx_um_run ex_um_cfg [UmPdu true [129; 0; 1; 22; 23]] ex_um_init =
    Ok (ex_um_waiting, [UmMetricPdus 1 5]).
Proof. by vm_compute. Qed.

Lemma ex_um_waiting_ok : Forall um_op_ok [UmPdu true [129; 0; 1; 22; 23]].
Proof.
  apply Forall_cons_2; [|apply Forall_nil_2]. cbn.
  repeat (apply Forall_cons_2; [unfold in_range; lia|]). apply Forall_nil_2.
Qed.

Lemma rx_um_expiry_witness :
  exists s' out', rx_um_step ex_um_cfg UmReassemblyExpired ex_um_waiting = Ok (s', out').
Proof.
  destruct (rx_um_expiry ex_um_cfg eq_refl ex_um_init ex_um_waiting _ _ ex_um_init_run
    ex_um_waiting_ok ex_um_waiting_run eq_refl) as (s' & out' & k & E & _). exists s', out'. exact E.
Defined.

Lemma gap_test_never_holds_witness :
  has_sn (um_rx_window ex_um_waiting) (um_rx_next_highest ex_um_waiting) = false.
Proof.
  destruct (gap_test_never_holds ex_um_cfg eq_refl ex_um_sdus ex_um_init
    [(UmPdu true [129; 0; 1; 22; 23], 1)] ex_um_waiting [UmMetricPdus 1 5] ex_um_init_run) as [H _].
  - split; [|exact I || (um_eval_step; exact I)]. split; [apply ex_um_carries|by vm_compute].
  - exact ex_um_waiting_run.
  - exact H.
Defined.

(** ** Departures from the comments *)

(** SDU 0 misses its middle: t-Reassembly is not started. *)
Example gap_in_only_sdu_not_timed :
  match um_result [UmPdu true [64; 11]; UmPdu true [128; 0; 3; 14]] with
  | Some (s, _) => um_rx_next_reassembly s = 0 /\ um_rx_next_highest s = 1 /\
      um_reassembly_timer s = false
  | None => False
  end.
Proof. by vm_compute. Qed.

(** SDU 5 is delivered; the first segment of number 37 takes its slot before the
    window is cleaned, so SDU 5 is counted as lost with SDUs 0 to 4. *)
Example delivered_sdu_counted_lost :
  match um_result [UmPdu true [69; 1]; UmPdu true [133; 0; 1; 2]; UmPdu true [101; 9]] with
  | Some (_, out) => um_delivered out = [[1; 2]] /\
      length (filter (fun o => o = UmMetricLostPdus 1) out) = 6%nat
  | None => False
  end.
Proof. by vm_compute. Qed.

(** RX_Timer_Trigger = 0 is two numbers after RX_Next_Reassembly = 62, but the
    comparison of the first condition is not relative to the window. *)
Example trigger_compared_raw :
  match um_check_stop ex_um_cfg (ex_um_init <| um_rx_next_reassembly := 62 |>
          <| um_rx_timer_trigger := 0 |> <| um_rx_next_highest := 0 |>
          <| um_reassembly_timer := true |>) with
  | Ok s => um_reassembly_timer s = false
  | Panic => False
  end.
Proof. by vm_compute. Qed.
