(* ===== verification/RlcRetxQueue.v ===== *)
(** * RLC AM: queue of retransmissions

    Models [src/lib/rlc/rlc_retx_queue.h]: the bounded queue of byte ranges to
    retransmit, whose elements can be invalidated in place, and the totals it keeps
    for the buffer status; its invariant, and that the totals are those of the valid
    elements. *)
From stdpp Require Import base numbers list.
From Stdlib Require Import ZArith Lia.
From S2P Require Import Prelude.
From S2P Require Import RlcConfig.

Set Default Goal Selector "!".
Open Scope Z_scope.
Open Scope ran_scope.

(** ** Data *)

Record rlc_tx_amd_retx := mk_rlc_tx_amd_retx {
  retx_sn : Z;
  retx_so : Z;
  retx_length : Z;
}.
#[export] Instance rlc_tx_amd_retx_eta : RecordEta rlc_tx_amd_retx := fun r =>
  mk_rlc_tx_amd_retx (retx_sn r) (retx_so r) (retx_length r).
#[export] Instance rlc_tx_amd_retx_eq_dec : EqDecision rlc_tx_amd_retx.
Proof. solve_decision. Defined.

Definition retx_includes (r : rlc_tx_amd_retx) (segment_offset segment_length : Z) : bool :=
  (retx_so r <=? segment_offset) &&
  (u32 (segment_offset + segment_length) <=? u32 (retx_so r + retx_length r)).

Record rlc_retx_queue_state := mk_rlc_retx_queue_state {
  retx_bytes : Z;
  n_retx_so_zero : Z;
  n_retx_so_nonzero : Z;
}.
#[export] Instance rlc_retx_queue_state_eta : RecordEta rlc_retx_queue_state := fun r =>
  mk_rlc_retx_queue_state (retx_bytes r) (n_retx_so_zero r) (n_retx_so_nonzero r).

Definition retx_state_zero : rlc_retx_queue_state := mk_rlc_retx_queue_state 0 0 0.

Definition retx_state_add (elem : rlc_tx_amd_retx) (st : rlc_retx_queue_state) :
    rlc_retx_queue_state :=
  let st := st <| retx_bytes ::= fun n => u32 (n + retx_length elem) |> in
  if retx_so elem =? 0 then st <| n_retx_so_zero ::= fun n => u32 (n + 1) |>
  else st <| n_retx_so_nonzero ::= fun n => u32 (n + 1) |>.

Definition retx_state_subtract (elem : rlc_tx_amd_retx) (st : rlc_retx_queue_state) :
    rlc_retx_queue_state :=
  let st := st <| retx_bytes ::= fun n => if retx_length elem <=? n then n - retx_length elem else 0 |> in
  if retx_so elem =? 0 then
    st <| n_retx_so_zero ::= fun n => if 0 <? n then n - 1 else n |>
  else st <| n_retx_so_nonzero ::= fun n => if 0 <? n then n - 1 else n |>.

Record rlc_retx_queue_item := mk_rlc_retx_queue_item {
  item_invalid : bool;
  item_retx : rlc_tx_amd_retx;
}.
#[export] Instance rlc_retx_queue_item_eta : RecordEta rlc_retx_queue_item := fun r =>
  mk_rlc_retx_queue_item (item_invalid r) (item_retx r).

(** The ring buffer is the list of its elements and its capacity. *)
Record rlc_retx_queue := mk_rlc_retx_queue {
  rq_capacity : Z;
  rq_queue : list rlc_retx_queue_item;
  rq_st : rlc_retx_queue_state;
}.
#[export] Instance rlc_retx_queue_eta : RecordEta rlc_retx_queue := fun r =>
  mk_rlc_retx_queue (rq_capacity r) (rq_queue r) (rq_st r).

(** ** Operations *)

Definition rq_new (capacity : Z) : rlc_retx_queue := mk_rlc_retx_queue capacity [] retx_state_zero.

Definition rq_try_push (retx : rlc_tx_amd_retx) (q : rlc_retx_queue) : bool * rlc_retx_queue :=
  if zlen (rq_queue q) =? rq_capacity q then (false, q) else
  (true, q <| rq_queue ::= fun l => l ++ [mk_rlc_retx_queue_item false retx] |>
           <| rq_st ::= retx_state_add retx |>).

Fixpoint drop_invalid (l : list rlc_retx_queue_item) : list rlc_retx_queue_item :=
  match l with
  | [] => []
  | item :: rest => if item_invalid item then drop_invalid rest else l
  end.

Definition rq_clean_invalid_front (q : rlc_retx_queue) : rlc_retx_queue :=
  q <| rq_queue ::= drop_invalid |>.

Definition rq_pop (q : rlc_retx_queue) : rlc_retx_queue :=
  match rq_queue q with
  | [] => q
  | top :: rest =>
      rq_clean_invalid_front
        (q <| rq_st ::= retx_state_subtract (item_retx top) |> <| rq_queue := rest |>)
  end.

Definition rq_front (q : rlc_retx_queue) : checked rlc_tx_amd_retx :=
  match rq_queue q with
  | [] => Panic
  | top :: _ => assert? negb (item_invalid top); Ok (item_retx top)
  end.

Definition rq_replace_front (retx : rlc_tx_amd_retx) (q : rlc_retx_queue) : checked rlc_retx_queue :=
  match rq_queue q with
  | [] => Panic
  | top :: rest =>
      assert? negb (item_invalid top);
      Ok (q <| rq_st ::= fun st => retx_state_add retx (retx_state_subtract (item_retx top) st) |>
            <| rq_queue := mk_rlc_retx_queue_item false retx :: rest |>)
  end.

Definition rq_clear (q : rlc_retx_queue) : rlc_retx_queue :=
  q <| rq_st := retx_state_zero |> <| rq_queue := [] |>.

Definition rq_size (q : rlc_retx_queue) : Z := zlen (rq_queue q).
Definition rq_empty (q : rlc_retx_queue) : bool := match rq_queue q with [] => true | _ => false end.
Definition rq_state (q : rlc_retx_queue) : rlc_retx_queue_state := rq_st q.

Definition item_matches (sn : Z) (item : rlc_retx_queue_item) : bool :=
  negb (item_invalid item) && (retx_sn (item_retx item) =? sn).

Definition rq_has_sn (sn : Z) (q : rlc_retx_queue) : bool :=
  existsb (item_matches sn) (rq_queue q).

Definition rq_has_sn_segment (sn so length : Z) (q : rlc_retx_queue) : bool :=
  existsb (fun item => item_matches sn item && retx_includes (item_retx item) so length) (rq_queue q).

(** The loop marks every match and takes it out of the totals. *)
Fixpoint remove_loop (sn : Z) (l : list rlc_retx_queue_item) (st : rlc_retx_queue_state)
    (result : bool) : list rlc_retx_queue_item * rlc_retx_queue_state * bool :=
  match l with
  | [] => ([], st, result)
  | item :: rest =>
      if item_matches sn item then
        let '(rest, st, result) := remove_loop sn rest (retx_state_subtract (item_retx item) st) true in
        (item <| item_invalid := true |> :: rest, st, result)
      else
        let '(rest, st, result) := remove_loop sn rest st result in
        (item :: rest, st, result)
  end.

Definition rq_remove_sn (sn : Z) (q : rlc_retx_queue) : bool * rlc_retx_queue :=
  match rq_queue q with
  | [] => (false, q)
  | l =>
      let '(l, st, result) := remove_loop sn l (rq_st q) false in
      (result, rq_clean_invalid_front (q <| rq_queue := l |> <| rq_st := st |>))
  end.

(** ** The queue as a list of valid elements *)

Definition is_valid (item : rlc_retx_queue_item) : Prop := item_invalid item = false.

Definition valid_retx (q : rlc_retx_queue) : list rlc_tx_amd_retx :=
  item_retx <$> filter is_valid (rq_queue q).

Definition sumz (l : list Z) : Z := foldr Z.add 0 l.

(** What the buffer status needs to know of the elements. *)
Definition totals (l : list rlc_tx_amd_retx) : rlc_retx_queue_state :=
  mk_rlc_retx_queue_state (sumz (retx_length <$> l))
    (zlen (filter (fun r => retx_so r = 0) l)) (zlen (filter (fun r => retx_so r <> 0) l)).

(** The elements fit the 32-bit totals. *)
Definition totals_fit (l : list rlc_tx_amd_retx) : Prop :=
  Forall (fun r => 0 <= retx_length r) l /\ sumz (retx_length <$> l) < 2 ^ 32 /\ zlen l < 2 ^ 32.

Record rq_wf (q : rlc_retx_queue) : Prop := {
  rqwf_front : match rq_queue q with [] => True | top :: _ => is_valid top end;
  rqwf_size : zlen (rq_queue q) <= rq_capacity q;
  rqwf_fit : totals_fit (valid_retx q);
  rqwf_state : rq_st q = totals (valid_retx q);
}.

Lemma sumz_app l1 l2 : sumz (l1 ++ l2) = sumz l1 + sumz l2.
Proof. induction l1 as [|x l1 IH]; cbn; [done|]. unfold sumz in *. rewrite IH. lia. Qed.

Lemma sumz_nonneg l : Forall (fun r => 0 <= retx_length r) l -> 0 <= sumz (retx_length <$> l).
Proof.
  induction 1 as [|r l Hr Hl IH]; cbn; [done|]. unfold sumz in *. lia.
Qed.

(** One element more, at either end or in between. *)
Lemma totals_insert l1 l2 r :
  totals_fit (l1 ++ r :: l2) ->
  retx_state_add r (totals (l1 ++ l2)) = totals (l1 ++ r :: l2) /\
  retx_state_subtract r (totals (l1 ++ r :: l2)) = totals (l1 ++ l2).
Proof.
  intros (Hnn & Hsum & Hlen). apply Forall_app in Hnn as [Hn1 Hn2]. apply Forall_cons in Hn2 as [Hr Hn2].
  pose proof (sumz_nonneg _ Hn1). pose proof (sumz_nonneg _ Hn2).
  rewrite fmap_app, sumz_app in Hsum.
  change (sumz (retx_length <$> r :: l2)) with (retx_length r + sumz (retx_length <$> l2)) in Hsum.
  rewrite zlen_app, zlen_cons in Hlen.
  assert (forall (P : rlc_tx_amd_retx -> Prop) `{!forall x, Decision (P x)} l, 0 <= zlen (filter P l) <= zlen l) as Hf.
  { intros P HP l. split; [apply zlen_nonneg|]. unfold zlen. pose proof (length_filter P l). lia. }
  pose proof (Hf (fun r => retx_so r = 0) _ l1). pose proof (Hf (fun r => retx_so r = 0) _ l2).
  pose proof (Hf (fun r => retx_so r <> 0) _ l1). pose proof (Hf (fun r => retx_so r <> 0) _ l2).
  unfold totals, retx_state_add, retx_state_subtract.
  rewrite !fmap_app, !filter_app. cbn [fmap list_fmap]. rewrite !sumz_app.
  change (sumz (retx_length r :: (retx_length <$> l2))) with (retx_length r + sumz (retx_length <$> l2)).
  destruct (decide (retx_so r = 0)) as [E|E].
  - rewrite (filter_cons_True (fun r => retx_so r = 0)), (filter_cons_False (fun r => retx_so r <> 0)) by tauto.
    rewrite (proj2 (Z.eqb_eq _ _)) by done. unfold field_update. cbn -[wrap Z.leb Z.ltb].
    rewrite !zlen_app, zlen_cons. rewrite !wrap_small by (unfold in_range; lia).
    split; f_equal; try lia; case_if; lia.
  - rewrite (filter_cons_False (fun r => retx_so r = 0)), (filter_cons_True (fun r => retx_so r <> 0)) by tauto.
    rewrite (proj2 (Z.eqb_neq _ _)) by done. unfold field_update. cbn -[wrap Z.leb Z.ltb].
    rewrite !zlen_app, zlen_cons. rewrite !wrap_small by (unfold in_range; lia).
    split; f_equal; try lia; case_if; lia.
Qed.

Lemma totals_fit_sub l1 r l2 : totals_fit (l1 ++ r :: l2) -> totals_fit (l1 ++ l2).
Proof.
  intros (Hnn & Hsum & Hlen). apply Forall_app in Hnn as [Hn1 Hn2]. apply Forall_cons in Hn2 as [Hr Hn2].
  rewrite !fmap_app, !sumz_app in *.
  change (sumz (retx_length <$> r :: l2)) with (retx_length r + sumz (retx_length <$> l2)) in Hsum.
  unfold totals_fit. rewrite !fmap_app, !sumz_app, !zlen_app in *. rewrite zlen_cons in Hlen.
  split; [by apply Forall_app|]. lia.
Qed.

Definition valid_items (l : list rlc_retx_queue_item) : list rlc_tx_amd_retx :=
  item_retx <$> filter is_valid l.

Lemma valid_items_cons item l :
  valid_items (item :: l) = if item_invalid item then valid_items l else item_retx item :: valid_items l.
Proof.
  unfold valid_items. destruct (item_invalid item) eqn:E.
  - by rewrite filter_cons_False by (unfold is_valid; congruence).
  - by rewrite filter_cons_True by done.
Qed.

Lemma drop_invalid_spec l :
  valid_items (drop_invalid l) = valid_items l /\ zlen (drop_invalid l) <= zlen l /\
  match drop_invalid l with [] => True | top :: _ => is_valid top end.
Proof.
  induction l as [|item l (IH1 & IH2 & IH3)]; cbn [drop_invalid]; [done|]. rewrite valid_items_cons, zlen_cons.
  destruct (item_invalid item) eqn:E; [split_and!; [done|lia|done]|].
  rewrite valid_items_cons, E, zlen_cons. split_and!; [done|lia|done].
Qed.

Lemma remove_loop_spec sn pre l res :
  totals_fit (pre ++ valid_items l) ->
  exists l', remove_loop sn l (totals (pre ++ valid_items l)) res =
    (l', totals (pre ++ filter (fun r => retx_sn r <> sn) (valid_items l)),
     res || existsb (item_matches sn) l) /\
    valid_items l' = filter (fun r => retx_sn r <> sn) (valid_items l) /\ zlen l' = zlen l.
Proof.
  revert pre res. induction l as [|item l IH]; intros pre res Hfit; cbn [remove_loop existsb].
  { exists []. by rewrite orb_false_r. }
  rewrite valid_items_cons in *.
  change (item_matches sn item) with (negb (item_invalid item) && (retx_sn (item_retx item) =? sn)).
  destruct (item_invalid item) eqn:E; cbn [negb andb].
  - destruct (IH pre res Hfit) as (l' & -> & Hv & Hlen). exists (item :: l'). split; [done|].
    rewrite valid_items_cons, E, !zlen_cons. by rewrite Hv, Hlen.
  - destruct (retx_sn (item_retx item) =? sn) eqn:Esn; zbool.
    + destruct (totals_insert pre (valid_items l) (item_retx item) Hfit) as [_ ->].
      destruct (IH pre true) as (l' & -> & Hv & Hlen); [by eapply totals_fit_sub|].
      rewrite filter_cons_False by tauto. eexists. split; [by rewrite orb_true_r|].
      rewrite valid_items_cons, !zlen_cons. cbn. by rewrite Hv, Hlen.
    + rewrite filter_cons_True by done.
      assert (forall l, pre ++ item_retx item :: l = (pre ++ [item_retx item]) ++ l) as Eapp
        by (intros; by rewrite <- app_assoc).
      rewrite (Eapp (valid_items l)) in *. rewrite (Eapp (filter _ _)). destruct (IH (pre ++ [item_retx item]) res Hfit) as (l' & -> & Hv & Hlen).
      eexists. split; [done|]. rewrite valid_items_cons, E, !zlen_cons. by rewrite Hv, Hlen.
Qed.

Lemma matches_valid sn l :
  existsb (item_matches sn) l = true <-> Exists (fun r => retx_sn r = sn) (valid_items l).
Proof.
  induction l as [|item l IH]; cbn [existsb]; [split; [done|by intros ?%Exists_nil]|].
  rewrite orb_true_iff, IH, valid_items_cons. unfold item_matches.
  destruct (item_invalid item); cbn [negb andb]; [naive_solver|]. by rewrite Exists_cons, Z.eqb_eq.
Qed.

Lemma totals_fit_filter (P : rlc_tx_amd_retx -> Prop) `{!forall x, Decision (P x)} l :
  totals_fit l -> totals_fit (filter P l).
Proof.
  intros (Hnn & Hsum & Hlen).
  assert (sumz (retx_length <$> filter P l) <= sumz (retx_length <$> l) /\ zlen (filter P l) <= zlen l) as [? ?].
  { clear Hsum Hlen. induction Hnn as [|r l Hr Hnn [IH1 IH2]]; [done|].
    change (sumz (retx_length <$> r :: l)) with (retx_length r + sumz (retx_length <$> l)).
    rewrite filter_cons. case_decide; rewrite ?zlen_cons; [|lia].
    change (sumz (retx_length <$> r :: filter P l)) with (retx_length r + sumz (retx_length <$> filter P l)).
    lia. }
  split; [|lia]. apply Forall_forall. intros r [_ Hr]%list_elem_of_filter. by eapply Forall_forall in Hnn.
Qed.

(** The retransmission queue refines a list: while the queued lengths fit 32
    bits, every operation keeps the queue well formed and acts on the valid elements
    as on a list (push at the end, pop and replace at the front, remove all with a
    number), the front never is an invalidated element, so its assertions hold
    whenever the queue is not empty, and the totals are always those of the valid
    elements. *)
Theorem retx_queue_refines_list q :
  rq_wf q ->
  rq_state q = totals (valid_retx q) /\
  (rq_empty q = true <-> valid_retx q = []) /\
  (forall sn, rq_has_sn sn q = true <-> Exists (fun r => retx_sn r = sn) (valid_retx q)) /\
  (forall r, totals_fit (valid_retx q ++ [r]) ->
     let '(ok, q') := rq_try_push r q in
     rq_wf q' /\ (ok = false -> rq_size q = rq_capacity q) /\
     valid_retx q' = if ok then valid_retx q ++ [r] else valid_retx q) /\
  (rq_wf (rq_pop q) /\ valid_retx (rq_pop q) = tail (valid_retx q)) /\
  (forall sn, let '(found, q') := rq_remove_sn sn q in
     rq_wf q' /\ found = rq_has_sn sn q /\
     valid_retx q' = filter (fun r => retx_sn r <> sn) (valid_retx q)) /\
  (forall r rest, valid_retx q = r :: rest ->
     rq_front q = Ok r /\
     forall r', totals_fit (r' :: rest) ->
       exists q', rq_replace_front r' q = Ok q' /\ rq_wf q' /\ valid_retx q' = r' :: rest).
Proof.
  destruct q as [cap l st]. intros [Hfront Hsize Hfit Hst]. cbn in Hfront, Hsize, Hfit, Hst.
  change (totals_fit (valid_items l)) in Hfit. change (st = totals (valid_items l)) in Hst.
  change (valid_retx (mk_rlc_retx_queue cap l st)) with (valid_items l) in *.
  refine (conj Hst (conj _ (conj (fun sn => matches_valid sn l) (conj _ (conj _ (conj _ _)))))).
  - unfold rq_empty. cbn. destruct l as [|item l]; [done|]. by rewrite valid_items_cons, Hfront.
  - intros r Hfit'. unfold rq_try_push, rq_size. cbn -[zlen]. case_if; [split_and!; [done|lia|done]|].
    assert (valid_items (l ++ [mk_rlc_retx_queue_item false r]) = valid_items l ++ [r]) as Ev.
    { unfold valid_items. by rewrite filter_app, fmap_app. }
    split_and!; [|done|exact Ev]. split; unfold valid_retx; cbn -[zlen]; fold (valid_items (l ++ [mk_rlc_retx_queue_item false r])).
    + destruct l; done.
    + rewrite zlen_app. change (zlen [_]) with 1. lia.
    + by rewrite Ev.
    + pose proof (totals_insert (valid_items l) [] r Hfit') as [Hins _].
      rewrite app_nil_r in Hins. by rewrite Ev, Hst.
  - unfold rq_pop. cbn -[zlen]. destruct l as [|item l]; [by split|]. cbn in Hfront.
    rewrite valid_items_cons, Hfront in *. cbn [tail]. destruct (drop_invalid_spec l) as (Hv & Hlen & Htop).
    rewrite zlen_cons in Hsize. split; [|exact Hv].
    split; unfold valid_retx; cbn -[zlen]; fold (valid_items (drop_invalid l)); rewrite ?Hv; [done|lia| |].
    + by apply (totals_fit_sub [] (item_retx item)).
    + rewrite Hst. by apply (totals_insert [] (valid_items l) (item_retx item)).
  - intros sn. unfold rq_has_sn. cbn [rq_queue].
    destruct (remove_loop_spec sn [] l false Hfit) as (l' & Eq & Hv & Hlen). cbn [app orb] in Eq.
    assert (rq_remove_sn sn (mk_rlc_retx_queue cap l st) =
      (existsb (item_matches sn) l, rq_clean_invalid_front (mk_rlc_retx_queue cap l'
         (totals (filter (fun r => retx_sn r <> sn) (valid_items l)))))) as ->.
    { rewrite <- Hst in Eq. unfold rq_remove_sn. cbn [rq_queue rq_st]. destruct l as [|i0 l0]; [|by rewrite Eq].
      destruct l'; [by rewrite Hst|done]. }
    destruct (drop_invalid_spec l') as (Hv' & Hlen' & Htop).
    assert (totals_fit (filter (fun r => retx_sn r <> sn) (valid_items l))) as Hfit'.
    { by apply totals_fit_filter. }
    split_and!; [|done|by rewrite <- Hv].
    split; unfold valid_retx; cbn -[zlen]; fold (valid_items (drop_invalid l')); rewrite ?Hv', ?Hv; [done|lia|done|done].
  - intros r rest Hrest. unfold rq_front, rq_replace_front. cbn. destruct l as [|item l]; [done|].
    rewrite valid_items_cons in *. cbn in Hfront. rewrite Hfront in *. injection Hrest as <- <-.
    cbn [negb]. split; [done|]. intros r' Hfit'. eexists. split; [done|].
    rewrite zlen_cons in Hsize. split; [|reflexivity].
    split; unfold valid_retx; cbn -[zlen]; fold (valid_items l); [done|rewrite zlen_cons; lia|done|].
    pose proof (proj2 (totals_insert [] (valid_items l) (item_retx item) Hfit)) as Hsub.
    cbn [app] in Hsub. change (retx_state_add r' (retx_state_subtract (item_retx item) st) =
      totals (r' :: valid_items l)). rewrite Hst, Hsub. by apply (totals_insert [] (valid_items l) r').
Qed.

Lemma retx_queue_refines_list_witness :
  valid_retx (rq_remove_sn 3 (rq_try_push (mk_rlc_tx_amd_retx 5 0 7)
    (rq_try_push (mk_rlc_tx_amd_retx 3 2 4) (rq_new 8)).2).2).2 = [mk_rlc_tx_amd_retx 5 0 7].
Proof.
  assert (rq_wf (rq_try_push (mk_rlc_tx_amd_retx 5 0 7)
    (rq_try_push (mk_rlc_tx_amd_retx 3 2 4) (rq_new 8)).2).2) as Hwf.
  { split; [done|by vm_compute| |done]. split; [|by vm_compute].
    repeat (apply Forall_cons_2; [by vm_compute|]). apply Forall_nil_2. }
  destruct (retx_queue_refines_list _ Hwf) as (_ & _ & _ & _ & _ & Hrem & _).
  specialize (Hrem 3). destruct (rq_remove_sn 3 _) as [found q'] eqn:E.
  destruct Hrem as (_ & _ & Hv). cbn [snd]. rewrite Hv. reflexivity.
Defined.
