(* ===== verification/RlcSduQueue.v ===== *)
(** * RLC: queue of SDUs with discard

    Models [src/lib/rlc/rlc_sdu_queue_lockfree.h]: the FIFO of SDUs between the upper
    layer and the transmitting entity, whose slots, indexed by PDCP SN modulo the
    capacity, record which SDUs are discarded; each operation is taken as one step of
    the thread that performs it.  The queue refines the list of the SDUs that are
    not discarded. *)
From stdpp Require Import base numbers list gmap.
From Stdlib Require Import ZArith Lia.
From S2P Require Import Prelude.

Set Default Goal Selector "!".
Open Scope Z_scope.
Open Scope ran_scope.

(** ** Data *)

Record rlc_sdu := mk_rlc_sdu {
  sdu_buf : list Z;
  sdu_is_retx : bool;
  sdu_pdcp_sn : option Z;
  sdu_time_of_arrival : Z;
}.
#[export] Instance rlc_sdu_eta : RecordEta rlc_sdu := fun r =>
  mk_rlc_sdu (sdu_buf r) (sdu_is_retx r) (sdu_pdcp_sn r) (sdu_time_of_arrival r).

Definition STATE_FREE : Z := 0xffffffff.
Definition STATE_DISCARDED : Z := 0xfffffffe.

(** A slot that was never written is free, with size 0. *)
Record rlc_sdu_queue := mk_rlc_sdu_queue {
  sq_capacity : Z;
  sq_byte_limit : Z;
  sq_queue : list rlc_sdu;
  sq_sdu_states : gmap Z Z;
  sq_sdu_sizes : gmap Z Z;
  sq_packed_state : Z;
}.
#[export] Instance rlc_sdu_queue_eta : RecordEta rlc_sdu_queue := fun r =>
  mk_rlc_sdu_queue (sq_capacity r) (sq_byte_limit r) (sq_queue r) (sq_sdu_states r)
    (sq_sdu_sizes r) (sq_packed_state r).

Definition sq_new (capacity byte_limit : Z) : rlc_sdu_queue :=
  mk_rlc_sdu_queue capacity byte_limit [] ∅ ∅ 0.

Definition sq_slot (q : rlc_sdu_queue) (pdcp_sn : Z) : Z := pdcp_sn mod sq_capacity q.
Definition slot_state (q : rlc_sdu_queue) (i : Z) : Z := default STATE_FREE (sq_sdu_states q !! i).
Definition slot_size (q : rlc_sdu_queue) (i : Z) : Z := default 0 (sq_sdu_sizes q !! i).

(** ** The packed totals *)

Definition sq_state_change (sdu_size : Z) : Z := Z.lor (Z.shiftl 1 32) (u32 sdu_size).
Definition sq_state_add (sdu_size : Z) (q : rlc_sdu_queue) : rlc_sdu_queue :=
  q <| sq_packed_state ::= fun s => u64 (s + sq_state_change sdu_size) |>.
Definition sq_state_sub (sdu_size : Z) (q : rlc_sdu_queue) : rlc_sdu_queue :=
  q <| sq_packed_state ::= fun s => u64 (s - sq_state_change sdu_size) |>.

(** [(n_sdus, n_bytes)]. *)
Definition sq_get_state (q : rlc_sdu_queue) : Z * Z :=
  (u32 (Z.shiftr (sq_packed_state q) 32), Z.land (sq_packed_state q) 0xffffffff).

Definition sq_is_empty (q : rlc_sdu_queue) : bool :=
  match sq_queue q with [] => true | _ => false end.
Definition sq_is_full (q : rlc_sdu_queue) : bool := sq_capacity q <=? zlen (sq_queue q).

(** ** Operations of the upper layer *)

Definition sq_write (sdu : rlc_sdu) (q : rlc_sdu_queue) : bool * rlc_sdu_queue :=
  let '(_, n_bytes) := sq_get_state q in
  let sdu_size := zlen (sdu_buf sdu) in
  if sq_byte_limit q <=? sdu_size + n_bytes then (false, q) else
  match sdu_pdcp_sn sdu with
  | Some sn =>
      let i := sq_slot q sn in
      if negb (slot_state q i =? STATE_FREE) then (false, q) else
      let q := q <| sq_sdu_sizes ::= <[i := sdu_size]> |> <| sq_sdu_states ::= <[i := sn]> |> in
      if sq_capacity q <=? zlen (sq_queue q) then
        (false, q <| sq_sdu_states ::= <[i := STATE_FREE]> |>)
      else (true, sq_state_add sdu_size (q <| sq_queue ::= fun l => l ++ [sdu] |>))
  | None =>
      if sq_capacity q <=? zlen (sq_queue q) then (false, q)
      else (true, sq_state_add sdu_size (q <| sq_queue ::= fun l => l ++ [sdu] |>))
  end.

Definition sq_try_discard (pdcp_sn : Z) (q : rlc_sdu_queue) : bool * rlc_sdu_queue :=
  let i := sq_slot q pdcp_sn in
  if slot_state q i =? pdcp_sn then
    (true, sq_state_sub (slot_size q i) (q <| sq_sdu_states ::= <[i := STATE_DISCARDED]> |>))
  else (false, q).

(** ** Operations of the lower layer *)

Definition sq_check (pdcp_sn : Z) (q : rlc_sdu_queue) : bool :=
  slot_state q (sq_slot q pdcp_sn) =? pdcp_sn.

Definition sq_check_and_release (pdcp_sn : Z) (q : rlc_sdu_queue) : bool * rlc_sdu_queue :=
  let i := sq_slot q pdcp_sn in
  let sdu_size := slot_size q i in
  let old_state := slot_state q i in
  let q := q <| sq_sdu_states ::= <[i := STATE_FREE]> |> in
  if old_state =? pdcp_sn then (true, sq_state_sub sdu_size q)
  else if old_state =? STATE_DISCARDED then (false, q)
  else (false, sq_state_sub sdu_size q).

(** The loop pops until a valid SDU; [l] is what the queue holds. *)
Fixpoint sq_read_loop (l : list rlc_sdu) (q : rlc_sdu_queue) : option rlc_sdu * rlc_sdu_queue :=
  match l with
  | [] => (None, q)
  | sdu :: rest =>
      let q := q <| sq_queue := rest |> in
      match sdu_pdcp_sn sdu with
      | Some sn =>
          let '(ok, q) := sq_check_and_release sn q in
          if ok then (Some sdu, q) else sq_read_loop rest q
      | None => (Some sdu, sq_state_sub (zlen (sdu_buf sdu)) q)
      end
  end.

Definition sq_read (q : rlc_sdu_queue) : option rlc_sdu * rlc_sdu_queue :=
  sq_read_loop (sq_queue q) q.

(** The front that is not discarded; the discarded ones before it are popped. *)
Fixpoint sq_front_loop (l : list rlc_sdu) (q : rlc_sdu_queue) : option rlc_sdu * rlc_sdu_queue :=
  match l with
  | [] => (None, q)
  | sdu :: rest =>
      match sdu_pdcp_sn sdu with
      | Some sn =>
          if sq_check sn q then (Some sdu, q) else
          let '(ok, q) := sq_check_and_release sn (q <| sq_queue := rest |>) in
          if ok then (None, q) else sq_front_loop rest q
      | None => (Some sdu, q)
      end
  end.

Definition sq_front (q : rlc_sdu_queue) : option rlc_sdu * rlc_sdu_queue :=
  sq_front_loop (sq_queue q) q.

(** ** The queue as a list *)

(** An SDU is valid while its slot holds its PDCP SN. *)
Definition sdu_valid (states : gmap Z Z) (capacity : Z) (sdu : rlc_sdu) : Prop :=
  match sdu_pdcp_sn sdu with
  | Some sn => default STATE_FREE (states !! (sn mod capacity)) = sn
  | None => True
  end.
#[export] Instance sdu_valid_dec states capacity sdu : Decision (sdu_valid states capacity sdu).
Proof. unfold sdu_valid. destruct (sdu_pdcp_sn sdu); apply _. Defined.

(** The SDUs that are queued and not discarded, oldest first. *)
Definition live_sdus (q : rlc_sdu_queue) : list rlc_sdu :=
  filter (sdu_valid (sq_sdu_states q) (sq_capacity q)) (sq_queue q).

Definition sdu_bytes (l : list rlc_sdu) : Z := foldr (fun sdu n => zlen (sdu_buf sdu) + n) 0 l.

(** The slots of the queued SDUs. *)
Definition sdu_slots (capacity : Z) (l : list rlc_sdu) : list Z :=
  omap (fun sdu => (fun sn => sn mod capacity) <$> sdu_pdcp_sn sdu) l.

(** A queued SDU: its PDCP SN is not a sentinel, its slot holds the number or the
    mark of a discarded SDU, and its size. *)
Definition sdu_slot_ok (states sizes : gmap Z Z) (capacity : Z) (sdu : rlc_sdu) : Prop :=
  match sdu_pdcp_sn sdu with
  | Some sn => 0 <= sn < STATE_DISCARDED /\
      default STATE_FREE (states !! (sn mod capacity)) ∈ [sn; STATE_DISCARDED] /\
      default 0 (sizes !! (sn mod capacity)) = zlen (sdu_buf sdu)
  | None => True
  end.

Record sq_wf (q : rlc_sdu_queue) : Prop := {
  sqwf_capacity : 0 < sq_capacity q < 2 ^ 32;
  sqwf_limit : sq_byte_limit q < 2 ^ 32;
  sqwf_size : zlen (sq_queue q) <= sq_capacity q;
  sqwf_slots : NoDup (sdu_slots (sq_capacity q) (sq_queue q));
  sqwf_free : forall i, slot_state q i <> STATE_FREE -> i ∈ sdu_slots (sq_capacity q) (sq_queue q);
  sqwf_sdus : Forall (sdu_slot_ok (sq_sdu_states q) (sq_sdu_sizes q) (sq_capacity q)) (sq_queue q);
  sqwf_bytes : 0 <= sdu_bytes (live_sdus q) < 2 ^ 32;
  sqwf_packed : sq_packed_state q = zlen (live_sdus q) * 2 ^ 32 + sdu_bytes (live_sdus q);
}.

(** ** Totals *)

Lemma state_change_spec size : 0 <= size < 2 ^ 32 -> sq_state_change size = 2 ^ 32 + size.
Proof.
  intros Hs. unfold sq_state_change. rewrite wrap_small by done.
  change (Z.shiftl 1 32) with (2 ^ 32). by rewrite (lor_disjoint 32) by (done || lia).
Qed.

Lemma sdu_bytes_app l1 l2 : sdu_bytes (l1 ++ l2) = sdu_bytes l1 + sdu_bytes l2.
Proof. induction l1 as [|x l1 IH]; cbn; [done|]. unfold sdu_bytes in *. rewrite IH. lia. Qed.

Lemma sdu_bytes_nonneg l : 0 <= sdu_bytes l.
Proof. induction l as [|x l IH]; cbn; [done|]. pose proof (zlen_nonneg (sdu_buf x)). unfold sdu_bytes in *. lia. Qed.

Lemma live_length q : zlen (live_sdus q) <= zlen (sq_queue q).
Proof. unfold live_sdus, zlen. pose proof (length_filter (sdu_valid (sq_sdu_states q) (sq_capacity q)) (sq_queue q)). lia. Qed.

(** The packed word holds the number and the bytes of the live SDUs. *)
Lemma get_state_spec q : sq_wf q -> sq_get_state q = (zlen (live_sdus q), sdu_bytes (live_sdus q)).
Proof.
  intros Hq. unfold sq_get_state. rewrite (sqwf_packed _ Hq). pose proof (sqwf_bytes _ Hq).
  pose proof (live_length q). pose proof (sqwf_size _ Hq). pose proof (sqwf_capacity _ Hq).
  pose proof (zlen_nonneg (live_sdus q)). change 0xffffffff with (Z.ones 32).
  rewrite Z.land_ones, Z.shiftr_div_pow2 by lia.
  rewrite Z.div_add_l, Z.div_small, Z.add_0_r by lia.
  rewrite wrap_small by (unfold in_range; lia). f_equal.
  rewrite Z.add_comm, Z_mod_plus_full. apply Z.mod_small. lia.
Qed.

(** ** Slots *)

Lemma sdu_slots_cons capacity sdu l :
  sdu_slots capacity (sdu :: l) =
    match sdu_pdcp_sn sdu with Some sn => sn mod capacity :: sdu_slots capacity l
                             | None => sdu_slots capacity l end.
Proof. unfold sdu_slots. cbn. by destruct (sdu_pdcp_sn sdu). Qed.

Lemma sdu_slots_app capacity l1 l2 :
  sdu_slots capacity (l1 ++ l2) = sdu_slots capacity l1 ++ sdu_slots capacity l2.
Proof. apply omap_app. Qed.

(** Writing a slot that no SDU of [l] uses changes nothing for [l]. *)
Lemma slot_unused states sizes capacity l i x y :
  i ∉ sdu_slots capacity l ->
  filter (sdu_valid (<[i := x]> states) capacity) l = filter (sdu_valid states capacity) l /\
  (Forall (sdu_slot_ok (<[i := x]> states) (<[i := y]> sizes) capacity) l <->
   Forall (sdu_slot_ok states sizes capacity) l) /\
  (Forall (sdu_slot_ok (<[i := x]> states) sizes capacity) l <->
   Forall (sdu_slot_ok states sizes capacity) l).
Proof.
  induction l as [|sdu l IH]; [done|]. rewrite sdu_slots_cons. intros Hi.
  assert (forall sn, sdu_pdcp_sn sdu = Some sn -> i <> sn mod capacity) as Hne.
  { intros sn E. rewrite E in Hi. intros ->. apply Hi, elem_of_cons. by left. }
  destruct IH as (IH1 & IH2 & IH3).
  { destruct (sdu_pdcp_sn sdu); [|done]. intros Hc. apply Hi, elem_of_cons. by right. }
  rewrite !Forall_cons, IH2, IH3.
  assert (sdu_valid (<[i:=x]> states) capacity sdu <-> sdu_valid states capacity sdu) as Hv.
  { unfold sdu_valid. destruct (sdu_pdcp_sn sdu) as [sn|] eqn:E; [|done].
    by rewrite lookup_insert_ne by by apply Hne. }
  split; [|unfold sdu_slot_ok; destruct (sdu_pdcp_sn sdu) as [sn|] eqn:E; [|done];
           by rewrite !lookup_insert_ne by by apply Hne].
  destruct (decide (sdu_valid states capacity sdu)) as [Hd|Hd].
  - rewrite !filter_cons_True by tauto. by rewrite IH1.
  - rewrite !filter_cons_False by tauto. by rewrite IH1.
Qed.

(** ** Popping the oldest SDU *)

(** The queue without its oldest SDU, whose slot is freed. *)
Definition popped (sdu : rlc_sdu) (rest : list rlc_sdu) (q : rlc_sdu_queue) : rlc_sdu_queue :=
  let q' := match sdu_pdcp_sn sdu with
            | Some sn => q <| sq_queue := rest |> <| sq_sdu_states ::= <[sq_slot q sn := STATE_FREE]> |>
            | None => q <| sq_queue := rest |>
            end in
  if decide (sdu_valid (sq_sdu_states q) (sq_capacity q) sdu) then sq_state_sub (zlen (sdu_buf sdu)) q' else q'.

Lemma popped_wf sdu rest q :
  sq_wf q -> sq_queue q = sdu :: rest ->
  sq_wf (popped sdu rest q) /\ sq_queue (popped sdu rest q) = rest /\
  sq_capacity (popped sdu rest q) = sq_capacity q /\
  live_sdus q = (if decide (sdu_valid (sq_sdu_states q) (sq_capacity q) sdu) then [sdu] else [])
                  ++ live_sdus (popped sdu rest q).
Proof.
  intros Hq Eq. pose proof (sqwf_slots _ Hq) as Hnd. pose proof (sqwf_sdus _ Hq) as Hok.
  pose proof (sqwf_size _ Hq) as Hsz. rewrite Eq in Hnd, Hok, Hsz. rewrite sdu_slots_cons in Hnd.
  rewrite zlen_cons in Hsz. apply Forall_cons in Hok as [Hsdu Hok].
  set (valid := decide (sdu_valid (sq_sdu_states q) (sq_capacity q) sdu)).
  set (states := match sdu_pdcp_sn sdu with
                 | Some sn => <[sq_slot q sn := STATE_FREE]> (sq_sdu_states q)
                 | None => sq_sdu_states q end).
  assert (filter (sdu_valid states (sq_capacity q)) rest =
          filter (sdu_valid (sq_sdu_states q) (sq_capacity q)) rest /\
          Forall (sdu_slot_ok states (sq_sdu_sizes q) (sq_capacity q)) rest) as [Hfilter Hok'].
  { unfold states. destruct (sdu_pdcp_sn sdu) as [sn|]; [|done].
    apply NoDup_cons in Hnd as [Hn _].
    destruct (slot_unused (sq_sdu_states q) (sq_sdu_sizes q) (sq_capacity q) rest (sq_slot q sn)
      STATE_FREE 0 Hn) as (H1 & _ & H3). split; [done|by apply H3]. }
  assert (sq_queue (popped sdu rest q) = rest /\ sq_capacity (popped sdu rest q) = sq_capacity q /\
    sq_byte_limit (popped sdu rest q) = sq_byte_limit q /\
    sq_sdu_states (popped sdu rest q) = states /\ sq_sdu_sizes (popped sdu rest q) = sq_sdu_sizes q /\
    sq_packed_state (popped sdu rest q) =
      if valid then u64 (sq_packed_state q - sq_state_change (zlen (sdu_buf sdu))) else sq_packed_state q)
    as (E1 & E2 & E3 & E4 & E5 & E6).
  { unfold popped, states. fold valid. destruct valid, (sdu_pdcp_sn sdu); done. }
  assert (live_sdus (popped sdu rest q) = filter (sdu_valid (sq_sdu_states q) (sq_capacity q)) rest) as El.
  { unfold live_sdus. by rewrite E1, E2, E4. }
  assert (live_sdus q = (if valid then [sdu] else []) ++ live_sdus (popped sdu rest q)) as Elive.
  { rewrite El. unfold live_sdus. rewrite Eq. unfold valid. rewrite filter_cons. by case_decide. }
  split; [|done]. pose proof (sqwf_bytes _ Hq) as Hb. pose proof (sqwf_packed _ Hq) as Hp.
  pose proof (sqwf_capacity _ Hq) as Hcap. pose proof (live_length q) as Hll. rewrite Eq, zlen_cons in Hll.
  rewrite Elive, sdu_bytes_app in Hb. rewrite Elive, sdu_bytes_app, zlen_app in Hp.
  rewrite Elive, zlen_app in Hll.
  pose proof (sdu_bytes_nonneg (live_sdus (popped sdu rest q))).
  pose proof (zlen_nonneg (live_sdus (popped sdu rest q))). pose proof (zlen_nonneg (sdu_buf sdu)).
  split; rewrite ?E1, ?E2, ?E3, ?E4, ?E5.
  - apply Hq.
  - apply Hq.
  - lia.
  - destruct (sdu_pdcp_sn sdu); [by apply NoDup_cons in Hnd as [_ ?]|done].
  - intros i Hi. unfold slot_state in Hi. rewrite E4 in Hi.
    assert (slot_state q i <> STATE_FREE /\ (forall sn, sdu_pdcp_sn sdu = Some sn -> i <> sn mod sq_capacity q)) as [Hi' Hne].
    { unfold states in Hi. destruct (sdu_pdcp_sn sdu) as [sn|]; [|done].
      destruct (decide (i = sq_slot q sn)) as [->|Hne]; [by rewrite lookup_insert_eq in Hi|].
      rewrite lookup_insert_ne in Hi by done. split; [done|]. by intros ? [= <-]. }
    apply (sqwf_free _ Hq) in Hi'. rewrite Eq, sdu_slots_cons in Hi'.
    destruct (sdu_pdcp_sn sdu) as [sn|]; [|done]. apply elem_of_cons in Hi' as [->|?]; [|done].
    by destruct (Hne sn).
  - done.
  - destruct valid; cbn [sdu_bytes foldr] in Hb; lia.
  - rewrite E6. change (sdu_bytes [sdu]) with (zlen (sdu_buf sdu) + 0) in *. destruct valid.
    2:{ change (sdu_bytes []) with 0 in *. change (zlen []) with 0 in *. lia. }
    change (sdu_bytes [sdu]) with (zlen (sdu_buf sdu) + 0) in *.
    change (zlen [sdu]) with 1 in *. rewrite state_change_spec by lia. rewrite wrap_small by (unfold in_range; lia). lia.
Qed.

Lemma release_popped sdu rest q sn :
  sq_wf q -> sq_queue q = sdu :: rest -> sdu_pdcp_sn sdu = Some sn ->
  sq_check sn q = bool_decide (sdu_valid (sq_sdu_states q) (sq_capacity q) sdu) /\
  sq_check_and_release sn (q <| sq_queue := rest |>) =
    (bool_decide (sdu_valid (sq_sdu_states q) (sq_capacity q) sdu), popped sdu rest q).
Proof.
  intros Hq Eq Esn. pose proof (sqwf_sdus _ Hq) as Hok. rewrite Eq in Hok.
  apply Forall_cons in Hok as [Hok _]. unfold sdu_slot_ok in Hok. rewrite Esn in Hok.
  destruct Hok as (Hsn & Hst & Hsz).
  assert (sdu_valid (sq_sdu_states q) (sq_capacity q) sdu <-> slot_state q (sq_slot q sn) = sn) as Hiff.
  { unfold sdu_valid. by rewrite Esn. }
  unfold popped, sq_check, sq_check_and_release. rewrite Esn.
  change (sq_slot (q <| sq_queue := rest |>) sn) with (sq_slot q sn).
  change (slot_size (q <| sq_queue := rest |>) (sq_slot q sn)) with (slot_size q (sq_slot q sn)).
  change (slot_state (q <| sq_queue := rest |>) (sq_slot q sn)) with (slot_state q (sq_slot q sn)).
  change (slot_size q (sq_slot q sn) = zlen (sdu_buf sdu)) in Hsz. rewrite Hsz.
  destruct (decide (slot_state q (sq_slot q sn) = sn)) as [Hv|Hv].
  - rewrite bool_decide_eq_true_2, decide_True by tauto. by rewrite Hv, Z.eqb_refl.
  - rewrite bool_decide_eq_false_2, decide_False by tauto. rewrite (proj2 (Z.eqb_neq _ _)) by done.
    apply elem_of_cons in Hst as [?|Hst]; [done|]. apply list_elem_of_singleton in Hst.
    change (slot_state q (sq_slot q sn) = STATE_DISCARDED) in Hst. by rewrite Hst.
Qed.

Lemma read_loop_spec l q :
  sq_wf q -> sq_queue q = l ->
  exists q', sq_read_loop l q = (head (live_sdus q), q') /\ sq_wf q' /\ live_sdus q' = tail (live_sdus q).
Proof.
  revert q. induction l as [|sdu rest IH]; intros q Hq Eq; cbn [sq_read_loop].
  { exists q. unfold live_sdus. rewrite Eq. done. }
  destruct (popped_wf sdu rest q Hq Eq) as (Hp & Eqp & _ & ->).
  destruct (sdu_pdcp_sn sdu) as [sn|] eqn:Esn.
  - destruct (release_popped sdu rest q sn Hq Eq Esn) as [_ ->].
    destruct (decide _) as [Hv|Hv]; [rewrite bool_decide_eq_true_2 by done|rewrite bool_decide_eq_false_2 by done].
    + by exists (popped sdu rest q).
    + by apply IH.
  - assert (sdu_valid (sq_sdu_states q) (sq_capacity q) sdu) as Hv by (unfold sdu_valid; by rewrite Esn).
    assert (popped sdu rest q = sq_state_sub (zlen (sdu_buf sdu)) (q <| sq_queue := rest |>)) as E.
    { unfold popped. by rewrite decide_True, Esn. }
    rewrite decide_True by done. rewrite <- E. by exists (popped sdu rest q).
Qed.

Lemma front_loop_spec l q :
  sq_wf q -> sq_queue q = l ->
  exists q', sq_front_loop l q = (head (live_sdus q), q') /\ sq_wf q' /\ live_sdus q' = live_sdus q.
Proof.
  revert q. induction l as [|sdu rest IH]; intros q Hq Eq; cbn [sq_front_loop].
  { exists q. unfold live_sdus. rewrite Eq. done. }
  destruct (popped_wf sdu rest q Hq Eq) as (Hp & Eqp & _ & El).
  destruct (sdu_pdcp_sn sdu) as [sn|] eqn:Esn.
  - destruct (release_popped sdu rest q sn Hq Eq Esn) as [-> ->].
    destruct (decide (sdu_valid _ _ sdu)) as [Hv|Hv];
      [rewrite bool_decide_eq_true_2 by done|rewrite bool_decide_eq_false_2 by done].
    + exists q. by rewrite El.
    + destruct (IH _ Hp Eqp) as (q' & -> & Hq' & El'). exists q'. by rewrite El, <- El'.
  - exists q. split; [|done]. rewrite El, decide_True by (unfold sdu_valid; by rewrite Esn). done.
Qed.

(** ** Discard *)

(** A slot that holds a PDCP SN belongs to the live SDU with that number. *)
Lemma slot_holds q sn :
  sq_wf q -> 0 <= sn < STATE_DISCARDED -> slot_state q (sq_slot q sn) = sn ->
  exists l1 sdu l2, sq_queue q = l1 ++ sdu :: l2 /\ sdu_pdcp_sn sdu = Some sn /\
    slot_size q (sq_slot q sn) = zlen (sdu_buf sdu).
Proof.
  intros Hq Hsn Hst. assert (sq_slot q sn ∈ sdu_slots (sq_capacity q) (sq_queue q)) as Hin.
  { apply (sqwf_free _ Hq). rewrite Hst. unfold STATE_DISCARDED, STATE_FREE in *. lia. }
  unfold sdu_slots in Hin. apply list_elem_of_omap in Hin as (sdu & Hsdu & Eslot).
  destruct (sdu_pdcp_sn sdu) as [sn'|] eqn:Esn; [|done]. injection Eslot as Eslot.
  apply list_elem_of_split in Hsdu as (l1 & l2 & Eq). exists l1, sdu, l2. split; [done|].
  pose proof (sqwf_sdus _ Hq) as Hok. rewrite Eq in Hok. apply Forall_app in Hok as [_ Hok].
  apply Forall_cons in Hok as [Hok _]. unfold sdu_slot_ok in Hok. rewrite Esn in Hok.
  destruct Hok as (_ & Hst' & Hsz). unfold sq_slot, slot_state, slot_size in *. rewrite <- Eslot, Hsz.
  rewrite <- Eslot in Hst. rewrite Hst in Hst'. split; [|done].
  apply elem_of_cons in Hst' as [->|Hst']; [done|]. apply list_elem_of_singleton in Hst'. lia.
Qed.

(** The live SDUs but the one with PDCP SN [sn]. *)
Definition without_sn (sn : Z) (l : list rlc_sdu) : list rlc_sdu :=
  filter (fun sdu => sdu_pdcp_sn sdu <> Some sn) l.

Lemma without_unused q sn l :
  sq_slot q sn ∉ sdu_slots (sq_capacity q) l -> without_sn sn l = l.
Proof.
  intros Hn. unfold without_sn. induction l as [|sdu l IH]; [done|]. rewrite sdu_slots_cons in Hn.
  rewrite filter_cons_True, IH; [done| |].
  - destruct (sdu_pdcp_sn sdu); [|done]. intros Hc. apply Hn, elem_of_cons. by right.
  - intros E. rewrite E in Hn. apply Hn, elem_of_cons. by left.
Qed.

Lemma filter_slots states capacity l i :
  i ∉ sdu_slots capacity l -> i ∉ sdu_slots capacity (filter (sdu_valid states capacity) l).
Proof.
  intros Hn. induction l as [|sdu l IH]; [done|]. rewrite sdu_slots_cons in Hn.
  assert (i ∉ sdu_slots capacity (filter (sdu_valid states capacity) l)) as Hr.
  { apply IH. destruct (sdu_pdcp_sn sdu); [|done]. intros Hc. apply Hn, elem_of_cons. by right. }
  rewrite filter_cons. case_decide; [|done]. rewrite sdu_slots_cons.
  destruct (sdu_pdcp_sn sdu); [|done]. intros [->|?]%elem_of_cons; [|done].
  apply Hn, elem_of_cons. by left.
Qed.

(** The live SDUs around a discarded one. *)
Lemma discard_live q sn sdu l1 l2 :
  sq_wf q -> 0 <= sn < STATE_DISCARDED -> slot_state q (sq_slot q sn) = sn ->
  sq_queue q = l1 ++ sdu :: l2 -> sdu_pdcp_sn sdu = Some sn ->
  let states := <[sq_slot q sn := STATE_DISCARDED]> (sq_sdu_states q) in
  let valid := filter (sdu_valid (sq_sdu_states q) (sq_capacity q)) in
  live_sdus q = valid l1 ++ sdu :: valid l2 /\
  filter (sdu_valid states (sq_capacity q)) (sq_queue q) = valid l1 ++ valid l2 /\
  valid l1 ++ valid l2 = without_sn sn (live_sdus q) /\
  Forall (sdu_slot_ok states (sq_sdu_sizes q) (sq_capacity q)) (sq_queue q).
Proof.
  intros Hq Hsn E Eq Esn states valid.
  pose proof (sqwf_slots _ Hq) as Hnd. rewrite Eq, sdu_slots_app, sdu_slots_cons, Esn in Hnd.
  apply NoDup_app in Hnd as (Hnd1 & Hdisj & Hnd2). apply NoDup_cons in Hnd2 as [Hn2 Hnd2].
  change (sn mod sq_capacity q) with (sq_slot q sn) in *.
  assert (sq_slot q sn ∉ sdu_slots (sq_capacity q) l1) as Hn1.
  { intros Hc. apply (Hdisj _ Hc), elem_of_cons. by left. }
  destruct (slot_unused (sq_sdu_states q) (sq_sdu_sizes q) (sq_capacity q) l1 _ STATE_DISCARDED 0 Hn1) as (F1 & _ & K1).
  destruct (slot_unused (sq_sdu_states q) (sq_sdu_sizes q) (sq_capacity q) l2 _ STATE_DISCARDED 0 Hn2) as (F2 & _ & K2).
  assert (live_sdus q = valid l1 ++ sdu :: valid l2) as El.
  { unfold live_sdus. rewrite Eq, filter_app, filter_cons_True; [done|]. unfold sdu_valid. by rewrite Esn. }
  split; [done|]. split; [|split].
  - rewrite Eq, filter_app, filter_cons_False; [by unfold states; rewrite F1, F2|].
    unfold sdu_valid, states. rewrite Esn. change (sn mod sq_capacity q) with (sq_slot q sn).
    rewrite lookup_insert_eq. cbn. lia.
  - rewrite El. unfold without_sn. rewrite filter_app, filter_cons_False by tauto.
    fold (without_sn sn (valid l1)). fold (without_sn sn (valid l2)).
    by rewrite !(without_unused q) by by apply filter_slots.
  - pose proof (sqwf_sdus _ Hq) as Hok. rewrite Eq in Hok |- *. apply Forall_app in Hok as [Hok1 Hok2].
    apply Forall_cons in Hok2 as [Hok Hok2]. apply Forall_app. split; [by apply K1|].
    apply Forall_cons. split; [|by apply K2]. unfold sdu_slot_ok in *. rewrite Esn in *.
    destruct Hok as (? & _ & ?). split; [lia|]. split; [|done].
    change (sn mod sq_capacity q) with (sq_slot q sn). unfold states. rewrite lookup_insert_eq. cbn.
    apply elem_of_cons. right. by apply list_elem_of_singleton.
Qed.

(** The packed word of a well-formed queue, with one live SDU more or less. *)
Lemma packed_step l1 sdu l2 :
  zlen (l1 ++ sdu :: l2) < 2 ^ 32 -> sdu_bytes (l1 ++ sdu :: l2) < 2 ^ 32 ->
  let packed l := zlen l * 2 ^ 32 + sdu_bytes l in
  u64 (packed (l1 ++ sdu :: l2) - sq_state_change (zlen (sdu_buf sdu))) = packed (l1 ++ l2) /\
  u64 (packed (l1 ++ l2) + sq_state_change (zlen (sdu_buf sdu))) = packed (l1 ++ sdu :: l2) /\
  sdu_bytes (l1 ++ l2) <= sdu_bytes (l1 ++ sdu :: l2).
Proof.
  rewrite !sdu_bytes_app, !zlen_app, zlen_cons.
  change (sdu_bytes (sdu :: l2)) with (zlen (sdu_buf sdu) + sdu_bytes l2). intros Hl Hb packed.
  pose proof (sdu_bytes_nonneg l1). pose proof (sdu_bytes_nonneg l2).
  pose proof (zlen_nonneg l1). pose proof (zlen_nonneg l2). pose proof (zlen_nonneg (sdu_buf sdu)).
  unfold packed. rewrite !sdu_bytes_app, !zlen_app, zlen_cons.
  change (sdu_bytes (sdu :: l2)) with (zlen (sdu_buf sdu) + sdu_bytes l2).
  rewrite state_change_spec by lia. rewrite !wrap_small by (unfold in_range; lia). lia.
Qed.

(** A discard marks the slot and takes the SDU out of the totals. *)
Lemma discard_spec q sn :
  sq_wf q -> 0 <= sn < STATE_DISCARDED ->
  let '(ok, q') := sq_try_discard sn q in
  sq_wf q' /\ live_sdus q' = without_sn sn (live_sdus q) /\
  (ok = true <-> Exists (fun sdu => sdu_pdcp_sn sdu = Some sn) (live_sdus q)).
Proof.
  intros Hq Hsn. unfold sq_try_discard. destruct (slot_state q (sq_slot q sn) =? sn) eqn:E; zbool.
  - destruct (slot_holds q sn Hq Hsn E) as (l1 & sdu & l2 & Eq & Esn & Esz). rewrite Esz.
    destruct (discard_live q sn sdu l1 l2 Hq Hsn E Eq Esn) as (El & El' & Ew & Hok). cbn in El.
    set (q' := sq_state_sub _ _). rewrite Ew in El'.
    assert (live_sdus q' = without_sn sn (live_sdus q)) as Elive by exact El'.
    pose proof (live_length q). pose proof (sqwf_size _ Hq). pose proof (sqwf_capacity _ Hq).
    pose proof (sqwf_bytes _ Hq) as Hb. pose proof (sqwf_packed _ Hq) as Hp. rewrite El in Hb, Hp.
    destruct (packed_step (filter (sdu_valid (sq_sdu_states q) (sq_capacity q)) l1) sdu
      (filter (sdu_valid (sq_sdu_states q) (sq_capacity q)) l2)) as (Hs & _ & Hle);
      [rewrite <- El; lia|lia|]. cbn zeta in Hs. rewrite <- Hp, Ew in Hs. rewrite Ew, <- El in Hle.
    split; [|split; [done|]].
    + split; try apply Hq; try exact Hok.
      * intros i Hi. destruct (decide (i = sq_slot q sn)) as [->|Hne].
        -- change (sq_slot q sn ∈ sdu_slots (sq_capacity q) (sq_queue q)).
           rewrite Eq, sdu_slots_app, sdu_slots_cons, Esn. apply elem_of_app. right. apply elem_of_cons. by left.
        -- apply (sqwf_free _ Hq). intros Hc. apply Hi. unfold slot_state, q'. cbn. by rewrite lookup_insert_ne.
      * rewrite Elive. pose proof (sdu_bytes_nonneg (without_sn sn (live_sdus q))). rewrite <- El in Hb. lia.
      * rewrite Elive. exact Hs.
    + split; [|done]. intros _. rewrite El. apply Exists_app. right. by apply Exists_cons_hd.
  - assert (Forall (fun sdu => sdu_pdcp_sn sdu <> Some sn) (live_sdus q)) as Hno.
    { apply Forall_forall. intros sdu [Hv _]%list_elem_of_filter Esn. unfold sdu_valid in Hv. by rewrite Esn in Hv. }
    split; [done|]. split.
    + induction Hno as [|sdu l Hs Hl IH]; [done|]. unfold without_sn. rewrite filter_cons_True by done. by rewrite IH at 1.
    + split; [done|]. intros (sdu & Hin & Esn)%Exists_exists. by eapply Forall_forall in Hno.
Qed.

(** ** Writing *)

(** The slots of the queued SDUs are not free. *)
Lemma queued_not_free q i :
  sq_wf q -> i ∈ sdu_slots (sq_capacity q) (sq_queue q) -> slot_state q i <> STATE_FREE.
Proof.
  intros Hq Hi. unfold sdu_slots in Hi. apply list_elem_of_omap in Hi as (sdu & Hsdu & Eslot).
  pose proof (sqwf_sdus _ Hq) as Hok. eapply Forall_forall in Hok; [|exact Hsdu].
  unfold sdu_slot_ok in Hok. destruct (sdu_pdcp_sn sdu) as [sn|]; [|done]. injection Eslot as <-.
  destruct Hok as (Hsn & Hst & _). intros Ef. change (slot_state q (sn mod sq_capacity q) ∈ [sn; STATE_DISCARDED]) in Hst. rewrite Ef in Hst.
  apply elem_of_cons in Hst as [Hst|Hst]; [|apply list_elem_of_singleton in Hst]; unfold STATE_DISCARDED, STATE_FREE in *; lia.
Qed.

(** Writing a free slot without queueing an SDU leaves the queue as it was. *)
Lemma free_slot_wf q i size :
  sq_wf q -> slot_state q i = STATE_FREE ->
  let q' := q <| sq_sdu_sizes ::= <[i := size]> |> <| sq_sdu_states ::= <[i := STATE_FREE]> |> in
  sq_wf q' /\ live_sdus q' = live_sdus q.
Proof.
  intros Hq Hfree q'.
  assert (i ∉ sdu_slots (sq_capacity q) (sq_queue q)) as Hn by (intros Hc%queued_not_free; done).
  destruct (slot_unused (sq_sdu_states q) (sq_sdu_sizes q) (sq_capacity q) (sq_queue q) i STATE_FREE size Hn)
    as (HF & HK & _).
  assert (live_sdus q' = live_sdus q) as El by exact HF. split; [|done].
  split; rewrite ?El; try apply Hq.
  2:{ apply HK, Hq. }
  intros j Hj. apply (sqwf_free _ Hq). intros Hc. apply Hj. unfold slot_state, q'. cbn.
  destruct (decide (j = i)) as [->|]; [by rewrite lookup_insert_eq|by rewrite lookup_insert_ne].
Qed.

(** The queue with one SDU more, whose slot was free. *)
Definition pushed (sdu : rlc_sdu) (q : rlc_sdu_queue) : rlc_sdu_queue :=
  let q' := match sdu_pdcp_sn sdu with
            | Some sn => q <| sq_sdu_sizes ::= <[sq_slot q sn := zlen (sdu_buf sdu)]> |>
                           <| sq_sdu_states ::= <[sq_slot q sn := sn]> |>
            | None => q
            end in
  sq_state_add (zlen (sdu_buf sdu)) (q' <| sq_queue ::= fun l => l ++ [sdu] |>).

Lemma pushed_slots q sdu :
  sq_wf q ->
  (forall sn, sdu_pdcp_sn sdu = Some sn -> 0 <= sn < STATE_DISCARDED /\ slot_state q (sq_slot q sn) = STATE_FREE) ->
  live_sdus (pushed sdu q) = live_sdus q ++ [sdu] /\
  NoDup (sdu_slots (sq_capacity q) (sq_queue q ++ [sdu])) /\
  (forall i, slot_state (pushed sdu q) i <> STATE_FREE -> i ∈ sdu_slots (sq_capacity q) (sq_queue q ++ [sdu])) /\
  Forall (sdu_slot_ok (sq_sdu_states (pushed sdu q)) (sq_sdu_sizes (pushed sdu q)) (sq_capacity q))
    (sq_queue q ++ [sdu]).
Proof.
  intros Hq Hsn. pose proof (sqwf_slots _ Hq) as Hnd. rewrite sdu_slots_app, sdu_slots_cons.
  unfold pushed, live_sdus. destruct (sdu_pdcp_sn sdu) as [sn|] eqn:Esn.
  - destruct (Hsn sn eq_refl) as [Hr Hfree].
    assert (sq_slot q sn ∉ sdu_slots (sq_capacity q) (sq_queue q)) as Hn by (intros Hc%queued_not_free; done).
    destruct (slot_unused (sq_sdu_states q) (sq_sdu_sizes q) (sq_capacity q) (sq_queue q)
      (sq_slot q sn) sn (zlen (sdu_buf sdu)) Hn) as (HF & HK & _).
    cbn -[zlen wrap]. rewrite filter_app. split_and!.
    + rewrite HF, filter_cons_True; [done|]. unfold sdu_valid. rewrite Esn.
      change (sn mod sq_capacity q) with (sq_slot q sn). by rewrite lookup_insert_eq.
    + apply NoDup_app. split_and!; [done| |apply NoDup_singleton].
      intros x Hx ->%list_elem_of_singleton. done.
    + intros i Hi. apply elem_of_app. destruct (decide (i = sq_slot q sn)) as [->|Hne].
      * right. by apply list_elem_of_singleton.
      * left. apply (sqwf_free _ Hq). unfold slot_state in *. cbn in Hi. by rewrite lookup_insert_ne in Hi.
    + apply Forall_app. split; [by apply HK, Hq|]. apply Forall_cons. split; [|apply Forall_nil_2].
      unfold sdu_slot_ok. rewrite Esn. change (sn mod sq_capacity q) with (sq_slot q sn).
      rewrite !lookup_insert_eq. cbn -[zlen]. split_and!; try done; try lia. apply elem_of_cons. by left.
  - cbn -[zlen wrap]. rewrite app_nil_r, filter_app. split_and!; try done.
    + rewrite filter_cons_True; [done|]. unfold sdu_valid. by rewrite Esn.
    + apply (sqwf_free _ Hq).
    + apply Forall_app. split; [apply Hq|]. apply Forall_cons. split; [|apply Forall_nil_2].
      unfold sdu_slot_ok. by rewrite Esn.
Qed.

Lemma pushed_wf q sdu :
  sq_wf q -> zlen (sq_queue q) < sq_capacity q ->
  zlen (sdu_buf sdu) + sdu_bytes (live_sdus q) < 2 ^ 32 ->
  (forall sn, sdu_pdcp_sn sdu = Some sn -> 0 <= sn < STATE_DISCARDED /\ slot_state q (sq_slot q sn) = STATE_FREE) ->
  sq_wf (pushed sdu q) /\ live_sdus (pushed sdu q) = live_sdus q ++ [sdu].
Proof.
  intros Hq Hlen Hbytes Hsn. destruct (pushed_slots q sdu Hq Hsn) as (El & Hnd & Hfree & Hok). split; [|done].
  assert (sq_queue (pushed sdu q) = sq_queue q ++ [sdu] /\ sq_capacity (pushed sdu q) = sq_capacity q /\
    sq_byte_limit (pushed sdu q) = sq_byte_limit q /\
    sq_packed_state (pushed sdu q) = u64 (sq_packed_state q + sq_state_change (zlen (sdu_buf sdu))))
    as (E1 & E2 & E3 & E4).
  { unfold pushed. by destruct (sdu_pdcp_sn sdu). }
  pose proof (live_length q). pose proof (sqwf_capacity _ Hq). pose proof (zlen_nonneg (sdu_buf sdu)).
  pose proof (sdu_bytes_nonneg (live_sdus q)). pose proof (sqwf_packed _ Hq) as Hp.
  assert (sdu_bytes (live_sdus q ++ [sdu]) = sdu_bytes (live_sdus q) + zlen (sdu_buf sdu)) as Eb.
  { rewrite sdu_bytes_app. change (sdu_bytes [sdu]) with (zlen (sdu_buf sdu) + 0). lia. }
  destruct (packed_step (live_sdus q) sdu []) as (_ & Hadd & _); [|lia|].
  { rewrite zlen_app. change (zlen [sdu]) with 1. lia. }
  rewrite app_nil_r in Hadd. cbn zeta in Hadd. rewrite <- Hp in Hadd.
  split; rewrite ?E1, ?E2, ?E3, ?E4, ?El; try apply Hq; try done.
  - rewrite zlen_app. change (zlen [sdu]) with 1. lia.
  - lia.
Qed.

Lemma restored q i size sn :
  q <| sq_sdu_sizes ::= <[i := size]> |> <| sq_sdu_states ::= <[i := sn]> |> <| sq_sdu_states ::= <[i := STATE_FREE]> |> =
  q <| sq_sdu_sizes ::= <[i := size]> |> <| sq_sdu_states ::= <[i := STATE_FREE]> |>.
Proof. unfold field_update. cbn. by rewrite insert_insert_eq. Qed.

(** A write appends the SDU or leaves the list as it was. *)
Lemma write_spec q sdu :
  sq_wf q -> match sdu_pdcp_sn sdu with Some sn => 0 <= sn < STATE_DISCARDED | None => True end ->
  let '(ok, q') := sq_write sdu q in
  sq_wf q' /\ live_sdus q' = (if ok then live_sdus q ++ [sdu] else live_sdus q) /\
  (ok = true <-> zlen (sdu_buf sdu) + sdu_bytes (live_sdus q) < sq_byte_limit q /\
     zlen (sq_queue q) < sq_capacity q /\
     forall sn, sdu_pdcp_sn sdu = Some sn -> slot_state q (sq_slot q sn) = STATE_FREE).
Proof.
  intros Hq Hsn. unfold sq_write. rewrite (get_state_spec q Hq). pose proof (sqwf_limit _ Hq).
  case_if; [split_and!; [done|done|split; [done|lia]]|].
  pose proof (pushed_wf q sdu Hq) as Hp. unfold pushed in Hp.
  destruct (sdu_pdcp_sn sdu) as [sn|] eqn:Esn.
  - destruct (slot_state q (sq_slot q sn) =? STATE_FREE) eqn:Ef; zbool; cbn [negb].
    2:{ split_and!; [done|done|]. split; [done|]. intros (_ & _ & Hall). by destruct Ef; apply Hall. }
    match goal with |- context [if ?c then _ else _] => change c with (sq_capacity q <=? zlen (sq_queue q)) end.
    destruct (sq_capacity q <=? zlen (sq_queue q)) eqn:Efull; zbool.
    + destruct (free_slot_wf q (sq_slot q sn) (zlen (sdu_buf sdu)) Hq Ef) as [Hwf Hl].
      rewrite restored. split_and!; [done|done|split; [done|lia]].
    + destruct Hp as [Hwf Hl]; [lia|lia| |].
      { intros ? [= <-]. done. }
      split; [done|]. split; [done|]. split; [|done]. intros _. split_and!; [lia|lia|]. by intros ? [= <-].
  - destruct (sq_capacity q <=? zlen (sq_queue q)) eqn:Efull; zbool.
    + split_and!; [done|done|split; [done|lia]].
    + destruct Hp as [Hwf Hl]; [lia|lia|done|]. split_and!; [done|done|]. split; [|done]. intros _. split_and!; [lia|lia|done].
Qed.

(** The SDU queue refines the list of the SDUs that are queued and not
    discarded, for PDCP SNs below the sentinels: a write appends to it or, when the
    bytes reach the limit, the queue is full, or another SDU uses the slot, changes
    nothing; a discard takes out the SDU with the PDCP SN exactly when there is one;
    a read returns its first SDU and removes it, and fails only when it is empty; the
    front is its first SDU; and the atomic state always is its length and its
    bytes. *)
Theorem sdu_queue_refines_list q :
  sq_wf q ->
  sq_get_state q = (zlen (live_sdus q), sdu_bytes (live_sdus q)) /\
  (forall sdu, match sdu_pdcp_sn sdu with Some sn => 0 <= sn < STATE_DISCARDED | None => True end ->
     let '(ok, q') := sq_write sdu q in
     sq_wf q' /\ live_sdus q' = (if ok then live_sdus q ++ [sdu] else live_sdus q) /\
     (ok = true <-> zlen (sdu_buf sdu) + sdu_bytes (live_sdus q) < sq_byte_limit q /\
        zlen (sq_queue q) < sq_capacity q /\
        forall sn, sdu_pdcp_sn sdu = Some sn -> slot_state q (sq_slot q sn) = STATE_FREE)) /\
  (forall sn, 0 <= sn < STATE_DISCARDED ->
     let '(ok, q') := sq_try_discard sn q in
     sq_wf q' /\ live_sdus q' = without_sn sn (live_sdus q) /\
     (ok = true <-> Exists (fun sdu => sdu_pdcp_sn sdu = Some sn) (live_sdus q))) /\
  (let '(sdu, q') := sq_read q in
     sq_wf q' /\ sdu = head (live_sdus q) /\ live_sdus q' = tail (live_sdus q)) /\
  (let '(sdu, q') := sq_front q in
     sq_wf q' /\ sdu = head (live_sdus q) /\ live_sdus q' = live_sdus q).
Proof.
  intros Hq. split; [by apply get_state_spec|]. split; [|split; [|split]].
  - intros sdu Hsn. by apply write_spec.
  - intros sn Hsn. by apply discard_spec.
  - unfold sq_read. destruct (read_loop_spec (sq_queue q) q Hq eq_refl) as (q' & -> & ? & ?). by split_and!.
  - unfold sq_front. destruct (front_loop_spec (sq_queue q) q Hq eq_refl) as (q' & -> & ? & ?). by split_and!.
Qed.

Definition ex_queue : rlc_sdu_queue :=
  (sq_write (mk_rlc_sdu [1; 2; 3] false (Some 5) 0) (sq_new 4 100)).2.

Lemma new_wf capacity byte_limit :
  0 < capacity < 2 ^ 32 -> byte_limit < 2 ^ 32 -> sq_wf (sq_new capacity byte_limit).
Proof.
  intros Hc Hb. split; try done; [cbn; unfold zlen; cbn; lia|constructor].
Qed.

Lemma ex_queue_wf : sq_wf ex_queue.
Proof.
  pose proof (write_spec (sq_new 4 100) (mk_rlc_sdu [1; 2; 3] false (Some 5) 0)) as H.
  apply H; [by apply new_wf|by cbn].
Qed.

Lemma sdu_queue_refines_list_witness :
  sq_wf ex_queue /\ sq_get_state ex_queue = (1, 3) /\ (sq_try_discard 5 ex_queue).1 = true /\
  (sq_read ex_queue).1 = head (live_sdus ex_queue).
Proof.
  destruct (sdu_queue_refines_list ex_queue ex_queue_wf) as (Hs & _ & _ & Hr & _).
  split; [apply ex_queue_wf|]. split; [|split; [reflexivity|]].
  - rewrite Hs. reflexivity.
  - destruct (sq_read ex_queue). apply Hr.
Defined.

(** ** The queue of SDUs as a list of buffers *)

Lemma sq_release_queue sn q : sq_queue (sq_check_and_release sn q).2 = sq_queue q.
Proof. unfold sq_check_and_release. by repeat case_if. Qed.

Lemma sq_read_loop_queue l q :
  sq_queue q = l ->
  let '(sdu, q') := sq_read_loop l q in
  match sdu with
  | Some sdu => exists pre, l = pre ++ sdu :: sq_queue q'
  | None => sq_queue q' = []
  end.
Proof.
  revert q. induction l as [|sdu l IH]; intros q Hq; cbn [sq_read_loop]; [done|].
  destruct (sdu_pdcp_sn sdu) as [sn|].
  - pose proof (sq_release_queue sn (q <| sq_queue := l |>)) as Hr.
    destruct (sq_check_and_release sn _) as [[] q1]; cbn in Hr.
    + exists []. by rewrite Hr.
    + specialize (IH q1 Hr). destruct (sq_read_loop l q1) as [[sdu'|] q']; [|done].
      destruct IH as [pre ->]. by exists (sdu :: pre).
  - by exists [].
Qed.

Lemma sq_read_queue q :
  let '(sdu, q') := sq_read q in
  match sdu with
  | Some sdu => exists pre, sq_queue q = pre ++ sdu :: sq_queue q'
  | None => sq_queue q' = []
  end.
Proof. by apply sq_read_loop_queue. Qed.

Lemma sq_front_loop_queue l q :
  sq_queue q = l -> exists pre, l = pre ++ sq_queue (sq_front_loop l q).2.
Proof.
  revert q. induction l as [|sdu l IH]; intros q Hq; cbn [sq_front_loop]; [by exists []|].
  destruct (sdu_pdcp_sn sdu) as [sn|]; [|by exists []].
  destruct (sq_check sn q); [by exists []|].
  pose proof (sq_release_queue sn (q <| sq_queue := l |>)) as Hr.
  destruct (sq_check_and_release sn _) as [[] q1]; cbn in Hr |- *.
  - exists [sdu]. by rewrite Hr.
  - destruct (IH q1 Hr) as [pre E]. exists (sdu :: pre). by rewrite E at 1.
Qed.

Lemma sq_front_queue q : exists pre, sq_queue q = pre ++ sq_queue (sq_front q).2.
Proof. by apply sq_front_loop_queue. Qed.

Lemma sq_discard_queue sn q : sq_queue (sq_try_discard sn q).2 = sq_queue q.
Proof. unfold sq_try_discard. by case_if. Qed.

Lemma sq_write_queue sdu q :
  let '(ok, q') := sq_write sdu q in sq_queue q' = if ok then sq_queue q ++ [sdu] else sq_queue q.
Proof.
  unfold sq_write. destruct (sq_get_state q). case_if; [done|].
  destruct (sdu_pdcp_sn sdu); repeat case_if; try done.
Qed.
