(* ===== verification/PdcpSn.v ===== *)
(** * PDCP: sequence number of a PDU

    Models [src/include/srsran/pdcp/pdcp_sn_size.h] and
    [src/include/srsran/pdcp/pdcp_sn_util.h]: what the RLC entities read from an
    SDU to be able to discard it and to report its delivery. *)
From stdpp Require Import base numbers list.
From Stdlib Require Import ZArith Lia.
From S2P Require Import Prelude.

Set Default Goal Selector "!".
Open Scope Z_scope.
Open Scope ran_scope.

Inductive pdcp_sn_size : Type := pdcp_size12bits | pdcp_size18bits | pdcp_size_invalid.
#[export] Instance pdcp_sn_size_eq_dec : EqDecision pdcp_sn_size.
Proof. solve_decision. Defined.

Definition pdcp_to_number (s : pdcp_sn_size) : Z :=
  match s with pdcp_size12bits => 12 | pdcp_size18bits => 18 | pdcp_size_invalid => 19 end.

(** The decoder reads most significant bits first: the D/C bit, the reserved bits
    and the number, over the first two or three bytes. *)
Definition get_pdcp_sn (pdcp_pdu : list Z) (pdcp_sn_len : pdcp_sn_size) (is_srb : bool) : option Z :=
  match pdcp_pdu with
  | [] => None
  | b0 :: rest =>
      if is_srb && negb (bool_decide (pdcp_sn_len = pdcp_size12bits)) then None else
      let dc_field := Z.land (Z.shiftr b0 7) 0x01 in
      if negb is_srb && (dc_field =? 0) then None else
      if is_srb && (dc_field =? 1) then None else
      '(reserved, pdcp_sn) ←
        match pdcp_sn_len, rest with
        | pdcp_size12bits, b1 :: _ =>
            Some (Z.land (Z.shiftr b0 4) 0x07, Z.lor (Z.shiftl (Z.land b0 0x0f) 8) (Z.land b1 0xff))
        | pdcp_size18bits, b1 :: b2 :: _ =>
            Some (Z.land (Z.shiftr b0 2) 0x1f,
                  Z.lor (Z.lor (Z.shiftl (Z.land b0 0x03) 16) (Z.shiftl (Z.land b1 0xff) 8))
                    (Z.land b2 0xff))
        | _, _ => None
        end;
      if negb (reserved =? 0) then None else Some pdcp_sn
  end.

Lemma get_pdcp_sn_range pdu len is_srb sn :
  get_pdcp_sn pdu len is_srb = Some sn -> 0 <= sn < 2 ^ 18.
Proof.
  unfold get_pdcp_sn. destruct pdu as [|b0 rest]; [done|].
  case_if; [done|]. case_if; [done|]. case_if; [done|].
  assert (forall x, 0 <= Z.land x 0xff < 256) as H8.
  { intros x. change 0xff with (Z.ones 8). rewrite Z.land_ones by done. apply Z.mod_pos_bound. done. }
  destruct len, rest as [|b1 [|b2 rest]]; cbn -[Z.land Z.lor Z.shiftl Z.shiftr]; try done;
    (case_if; [done|]; intros [= <-]).
  all: change 0x0f with (Z.ones 4); change 0x03 with (Z.ones 2); change 0xff with (Z.ones 8).
  all: rewrite !Z.land_ones, !Z.shiftl_mul_pow2 by done.
  all: match goal with |- 0 <= ?x < _ => assert (0 <= x) as Hx end.
  all: try match goal with |- 0 <= Z.lor _ _ => rewrite !Z.lor_nonneg end; try dlia.
  all: split; [done|].
  all: match goal with |- ?x < 2 ^ 18 => destruct (decide (x = 0)) as [->|Hne]; [done|] end.
  all: apply Z.log2_lt_pow2; [lia|].
  all: rewrite !Z.log2_lor by (rewrite ?Z.lor_nonneg; dlia).
  all: repeat apply Z.max_lub_lt.
  all: match goal with |- Z.log2 ?x < 18 =>
         destruct (decide (x = 0)) as [->|]; [done|apply Z.log2_lt_pow2; dlia] end.
Qed.
