(* ===== verification/RlcTxBase.v ===== *)
(** * RLC: what the transmitting entities share

    The buffer state reported to the MAC, the copy of a part of an SDU into the
    grant, and the bounds on SDUs under which segment offsets do not wrap. *)
From stdpp Require Import base numbers list.
From Stdlib Require Import ZArith Lia.
From S2P Require Import Prelude.

Set Default Goal Selector "!".
Open Scope Z_scope.
Open Scope ran_scope.

Record rlc_buffer_state := mk_rlc_buffer_state {
  pending_bytes : Z;
  hol_toa : option Z;
}.
#[export] Instance rlc_buffer_state_eta : RecordEta rlc_buffer_state := fun r =>
  mk_rlc_buffer_state (pending_bytes r) (hol_toa r).

(** 156 resource elements, 275 resource blocks, 4 layers, 8 bits per symbol. *)
Definition MAX_DL_PDU_LENGTH : Z := 156 * 275 * 4 * 8 / 8.

(** A view of a buffer that leaves its bounds is not defined. *)
Definition sdu_view (sdu : list Z) (offset size : Z) : checked (list Z) :=
  assert? offset + size <=? zlen sdu;
  Ok (take (Z.to_nat size) (drop (Z.to_nat offset) sdu)).

(** The header, and the payload copied into the rest of the grant. *)
Definition write_pdu (grant_len : Z) (header : list Z) (payload : list Z) : list Z :=
  header ++ take (Z.to_nat (grant_len - zlen header)) payload.

(** An SDU whose segments stay within the range of offsets. *)
Definition sdu_ok (sdu : list Z) : Prop := 0 < zlen sdu < 2 ^ 16 /\ Forall is_u8 sdu.

(** Copying a view of an SDU behind a header. *)
Lemma sdu_view_ok sdu offset size :
  0 <= offset -> offset + size <= zlen sdu ->
  sdu_view sdu offset size = Ok (take (Z.to_nat size) (drop (Z.to_nat offset) sdu)).
Proof. intros Ho Hs. unfold sdu_view. by rewrite (proj2 (Z.leb_le _ _)). Qed.

Lemma zlen_view (sdu : list Z) offset size :
  0 <= offset -> 0 <= size -> offset + size <= zlen sdu ->
  zlen (take (Z.to_nat size) (drop (Z.to_nat offset) sdu)) = size.
Proof. unfold zlen. intros. rewrite length_take, length_drop. lia. Qed.

Lemma write_pdu_fits grant_len header payload :
  zlen payload <= grant_len - zlen header -> write_pdu grant_len header payload = header ++ payload.
Proof. unfold write_pdu, zlen. intros Hl. f_equal. apply take_ge. lia. Qed.
