(* ===== verification/RlcTxAm.v ===== *)
(** * RLC AM: transmitting entity

    Models [rlc_tx_am_entity] of [src/lib/rlc/rlc_tx_am_entity.h] and
    [src/lib/rlc/rlc_tx_am_entity.cpp]: SDUs of the upper layer, PDUs pulled by the
    MAC, status reports of the peer, retransmissions, polling and the buffer state.
    The receiving entity is used through the interface [StatusProvider].  Calls that
    the entity defers to the executor of the cell wait in the state until a step runs
    them; the outputs are the calls to the upper and lower layers and the metrics.
    A step also returns the PDU pulled, if any; the answer to the MAC that asks for
    the buffer state is among the outputs. *)
From stdpp Require Import base numbers list.
From Stdlib Require Import ZArith Lia.
From S2P Require Import Prelude.
From S2P Require Import RlcConfig.
From S2P Require Import RlcAmPdu.
From S2P Require Import SduWindow.
From S2P Require Import RlcRetxQueue.
From S2P Require Import RlcSduQueue.
From S2P Require Import PdcpSn.
From S2P Require Import RlcTxBase.

Set Default Goal Selector "!".
Open Scope Z_scope.
Open Scope ran_scope.

(** ** Interface of the receiving entity

    [rlc_rx_am_status_provider].  [provider_get] returns a reference: the status PDU
    trimmed by its user is written back with [provider_put]. *)
Class StatusProvider (R : Type) : Type := {
  provider_required : R -> bool;
  provider_get : bool -> R -> rlc_am_status_pdu * R;
  provider_put : rlc_am_status_pdu -> R -> R;
  provider_length : R -> Z;
}.

(** ** Data *)

Record rlc_tx_am_config := mk_rlc_tx_am_config {
  txam_sn_field_length : rlc_am_sn_size;
  txam_pdcp_sn_len : pdcp_sn_size;
  txam_t_poll_retx : Z;
  txam_max_retx_thresh : Z;
  txam_poll_pdu : Z;
  txam_poll_byte : Z;
  txam_queue_size : Z;
  txam_queue_size_bytes : Z;
  txam_max_window : Z;
}.

(** Times are instants of the steady clock; the departure time only feeds
    metrics and is left out. *)
Record rlc_tx_am_sdu_info := mk_rlc_tx_am_sdu_info {
  tx_sdu : list Z;
  tx_is_retx : bool;
  tx_pdcp_sn : option Z;
  tx_time_of_arrival : Z;
  next_so : Z;
  retx_count : Z;
}.
#[export] Instance rlc_tx_am_sdu_info_eta : RecordEta rlc_tx_am_sdu_info := fun r =>
  mk_rlc_tx_am_sdu_info (tx_sdu r) (tx_is_retx r) (tx_pdcp_sn r) (tx_time_of_arrival r)
    (next_so r) (retx_count r).

Inductive tx_am_output : Type :=
| OutTransmittedSdu (pdcp_sn desired_buf_size : Z)
| OutRetransmittedSdu (pdcp_sn : Z)
| OutDeliveredSdu (pdcp_sn : Z)
| OutDeliveredRetransmittedSdu (pdcp_sn : Z)
| OutMaxRetx
| OutProtocolFailure
| OutDeferProtocolFailure
| OutBufferState (bs : rlc_buffer_state)
| RetBufferState (bs : rlc_buffer_state)
| TxMetricSdus (sdus bytes : Z)
| TxMetricLostSdus (sdus : Z)
| TxMetricDiscard (sdus : Z)
| TxMetricDiscardFailure (sdus : Z)
| TxMetricCtrlPdus (pdus bytes : Z)
| TxMetricPulledSdus (sdus : Z)
| TxMetricPdusNoSegmentation (pdus bytes : Z)
| TxMetricPdusWithSegmentation (pdus bytes : Z)
| TxMetricRetxPdus (pdus bytes : Z).

(** Tasks of the executor of the cell. *)
Inductive tx_am_task : Type :=
| TaskStatusPdu (status : rlc_am_status_pdu)
| TaskBufferState
| TaskStop.

Record tx_am_state (W : Type -> Type) := mk_tx_am_state {
  tx_next_ack : Z;
  tx_next : Z;
  poll_sn : Z;
  pdu_without_poll : Z;
  byte_without_poll : Z;
  sdu_queue : rlc_sdu_queue;
  sn_under_segmentation : Z;
  retx_queue : rlc_retx_queue;
  tx_retx_sn : Z;
  tx_window : W rlc_tx_am_sdu_info;
  poll_retransmit_timer : bool;
  prev_buffer_state : rlc_buffer_state;
  suspend_bs_notif_barring : bool;
  pending_buffer_state : bool;
  pcell_tasks : list tx_am_task;
  stopped_upper : bool;
  stopped_lower : bool;
  max_retx_reached : bool;
}.
Arguments mk_tx_am_state {W}.
Arguments tx_next_ack {W}.
Arguments tx_next {W}.
Arguments poll_sn {W}.
Arguments pdu_without_poll {W}.
Arguments byte_without_poll {W}.
Arguments sdu_queue {W}.
Arguments sn_under_segmentation {W}.
Arguments retx_queue {W}.
Arguments tx_retx_sn {W}.
Arguments tx_window {W}.
Arguments poll_retransmit_timer {W}.
Arguments prev_buffer_state {W}.
Arguments suspend_bs_notif_barring {W}.
Arguments pending_buffer_state {W}.
Arguments pcell_tasks {W}.
Arguments stopped_upper {W}.
Arguments stopped_lower {W}.
Arguments max_retx_reached {W}.
#[export] Instance tx_am_state_eta W : RecordEta (tx_am_state W) := fun r =>
  mk_tx_am_state (tx_next_ack r) (tx_next r) (poll_sn r) (pdu_without_poll r)
    (byte_without_poll r) (sdu_queue r) (sn_under_segmentation r) (retx_queue r)
    (tx_retx_sn r) (tx_window r) (poll_retransmit_timer r) (prev_buffer_state r)
    (suspend_bs_notif_barring r) (pending_buffer_state r) (pcell_tasks r)
    (stopped_upper r) (stopped_lower r) (max_retx_reached r).

Section tx_am.
Context {W : Type -> Type} `{SduWindow W} {R : Type} `{StatusProvider R}.
Variable cfg : rlc_tx_am_config.
(** The bearer is a signalling radio bearer. *)
Variable is_srb : bool.
Implicit Types s : tx_am_state W.
Implicit Types w : W rlc_tx_am_sdu_info.
Implicit Types r : R.

Definition tx_sn_size : rlc_am_sn_size := txam_sn_field_length cfg.
Definition tx_mod : Z := cardinality (am_to_number tx_sn_size).
Definition tx_window_size : Z := window_size (am_to_number tx_sn_size).
Definition head_min_size : Z := rlc_am_pdu_header_min_size tx_sn_size.
Definition head_max_size : Z := rlc_am_pdu_header_max_size tx_sn_size.

Definition tx_am_init : checked (tx_am_state W) :=
  assert? bool_decide (txam_pdcp_sn_len cfg = pdcp_size12bits) ||
          bool_decide (txam_pdcp_sn_len cfg = pdcp_size18bits);
  let? w := win_make tx_window_size in
  Ok (mk_tx_am_state 0 0 0 0 0 (sq_new (txam_queue_size cfg) (txam_queue_size_bytes cfg))
        INVALID_RLC_SN (rq_new tx_window_size) INVALID_RLC_SN w false
        (mk_rlc_buffer_state 0 None) true false [] false false false).

(** ** Window *)

Definition tx_mod_base (base sn : Z) : Z := mod_base tx_mod base sn.

Definition inside_tx_window s (sn : Z) : bool := tx_mod_base (tx_next_ack s) sn <? tx_window_size.

Definition is_tx_window_full s : bool :=
  win_full (tx_window s) ||
  negb (txam_max_window cfg =? 0) &&
    (txam_max_window cfg <? tx_mod_base (tx_next_ack s) (tx_next s)).

Definition tx_valid_ack_sn s (sn : Z) : bool :=
  (0 <? tx_mod_base (tx_next_ack s) sn) && (tx_mod_base (tx_next_ack s) sn <=? tx_window_size).

(** The flag, and the protocol failures it defers to the upper layer. *)
Definition valid_nack (ack_sn : Z) (nack : rlc_am_status_nack) s : bool * list tx_am_output :=
  let dist := tx_mod_base (tx_next_ack s) in
  let range_end := u32 (nack_sn nack + nack_range nack - 1) in
  if dist ack_sn <=? dist (nack_sn nack) then (false, []) else
  if has_nack_range nack && (dist ack_sn <=? dist range_end) then (false, []) else
  if negb (inside_tx_window s (nack_sn nack)) then (false, []) else
  if has_nack_range nack && negb (inside_tx_window s range_end) then (false, []) else
  if dist (tx_next s) <? dist (nack_sn nack) then (false, [OutDeferProtocolFailure]) else
  if has_nack_range nack && (dist (tx_next s) <? dist range_end)
  then (false, [OutDeferProtocolFailure]) else (true, []).

(** ** Buffer state *)

(** The loop that drops retransmissions of numbers the window does not hold; its
    fuel is the length of the queue. *)
Fixpoint drop_absent_retx (fuel : nat) w (q : rlc_retx_queue) : checked rlc_retx_queue :=
  if rq_empty q then Ok q else
  match fuel with
  | O => Panic
  | S fuel =>
      let? retx := rq_front q in
      if has_sn w (retx_sn retx) then Ok q else drop_absent_retx fuel w (rq_pop q)
  end.
Definition retx_fuel (q : rlc_retx_queue) : nat := S (length (rq_queue q)).

Definition get_buffer_state s r : checked (rlc_buffer_state * tx_am_state W) :=
  let '(n_sdus, n_bytes) := sq_get_state (sdu_queue s) in
  let queue_bytes := u32 (n_bytes + n_sdus * head_min_size) in
  let? (segment_bytes, toa, s) :=
    (if negb (sn_under_segmentation s =? INVALID_RLC_SN) then
       if has_sn (tx_window s) (sn_under_segmentation s) then
         let? info := win_at (tx_window s) (sn_under_segmentation s) in
         Ok (u32 (zlen (tx_sdu info) - next_so info + head_max_size),
             Some (tx_time_of_arrival info), s)
       else Ok (0, None, s)
     else
       let '(next_sdu, q) := sq_front (sdu_queue s) in
       Ok (0, sdu_time_of_arrival <$> next_sdu, s <| sdu_queue := q |>)) in
  let retx_state := rq_state (retx_queue s) in
  let total_retx := u32 (retx_bytes retx_state + n_retx_so_zero retx_state * head_min_size +
                         n_retx_so_nonzero retx_state * head_max_size) in
  let? q := drop_absent_retx (retx_fuel (retx_queue s)) (tx_window s) (retx_queue s) in
  let s := s <| retx_queue := q |> in
  let? toa :=
    (if rq_empty q then Ok toa else
     let? retx := rq_front q in
     let? info := win_at (tx_window s) (retx_sn retx) in
     Ok (Some (tx_time_of_arrival info))) in
  let status_bytes := if provider_required r then provider_length r else 0 in
  let bs := mk_rlc_buffer_state (u32 (queue_bytes + segment_bytes + total_retx + status_bytes)) toa in
  let s := if pending_bytes bs <=? MAX_DL_PDU_LENGTH
           then s <| suspend_bs_notif_barring := true |> else s in
  Ok (bs, s).

(** [operator<] of [std::optional]. *)
Definition optional_lt (a b : option Z) : bool :=
  match a, b with
  | None, Some _ => true
  | Some x, Some y => x <? y
  | _, None => false
  end.

Definition update_mac_buffer_state (force_notify : bool) s r :
    checked (tx_am_state W * list tx_am_output) :=
  let s := s <| pending_buffer_state := false |> in
  let? (bs, s) := get_buffer_state s r in
  let '(s, out) :=
    if force_notify || (pending_bytes bs <=? MAX_DL_PDU_LENGTH) ||
       (pending_bytes (prev_buffer_state s) <=? MAX_DL_PDU_LENGTH) ||
       suspend_bs_notif_barring s || optional_lt (hol_toa bs) (hol_toa (prev_buffer_state s))
    then (s <| suspend_bs_notif_barring := false |>, [OutBufferState bs]) else (s, []) in
  Ok (s <| prev_buffer_state := bs |>, out).

(** [accepted]: the executor of the cell accepts the task. *)
Definition handle_changed_buffer_state (accepted : bool) s : tx_am_state W :=
  if pending_buffer_state s then s else
  let s := s <| pending_buffer_state := true |> in
  if accepted then s <| pcell_tasks ::= fun l => l ++ [TaskBufferState] |> else s.

(** ** SDUs of the upper layer *)

Definition tx_handle_sdu (now : Z) (sdu_buf : list Z) (is_retx accepted : bool) s :
    tx_am_state W * list tx_am_output :=
  let sdu := mk_rlc_sdu sdu_buf (if is_srb && is_retx then false else is_retx)
               (get_pdcp_sn sdu_buf (txam_pdcp_sn_len cfg) is_srb) now in
  let '(written, q) := sq_write sdu (sdu_queue s) in
  let s := s <| sdu_queue := q |> in
  if written then
    (handle_changed_buffer_state accepted s, [TxMetricSdus 1 (zlen sdu_buf)])
  else (s, [TxMetricLostSdus 1]).

Definition discard_sdu (pdcp_sn : Z) (accepted : bool) s : tx_am_state W * list tx_am_output :=
  let '(discarded, q) := sq_try_discard pdcp_sn (sdu_queue s) in
  let s := s <| sdu_queue := q |> in
  if discarded then (handle_changed_buffer_state accepted s, [TxMetricDiscard 1])
  else (s, [TxMetricDiscardFailure 1]).

(** ** Polling *)

(** Both buffers are empty, or no new SDU can be sent. *)
Definition nothing_to_send s : bool :=
  (sq_is_empty (sdu_queue s) && rq_empty (retx_queue s) &&
   (sn_under_segmentation s =? INVALID_RLC_SN)) || is_tx_window_full s.

(** The polling bit is included: what it resets, and the timer. *)
Definition include_poll (sn : Z) (is_retx : bool) s : tx_am_state W :=
  let s := s <| pdu_without_poll := 0 |> <| byte_without_poll := 0 |> in
  let s := if negb is_retx then s <| poll_sn := sn |> else s in
  if (0 <? txam_t_poll_retx cfg) && negb (stopped_lower s)
  then s <| poll_retransmit_timer := true |> else s.

Definition get_polling_bit (sn : Z) (is_retx : bool) (payload_size : Z) s : Z * tx_am_state W :=
  let s := if is_retx then s else
    s <| pdu_without_poll ::= fun n => u32 (n + 1) |>
      <| byte_without_poll ::= fun n => u32 (n + payload_size) |> in
  let poll :=
    negb is_retx &&
      ((0 <? txam_poll_pdu cfg) && (u32 (txam_poll_pdu cfg) <=? pdu_without_poll s) ||
       (0 <? txam_poll_byte cfg) && (u32 (txam_poll_byte cfg) <=? byte_without_poll s)) ||
    nothing_to_send s in
  if poll then (1, include_poll sn is_retx s) else (0, s).

(** ** Construction of PDUs

    Each function returns the bytes it writes, none when it returns 0. *)

(** The information of an SDU read from the queue; the window entry is added with
    it. *)
Definition new_sdu_info (sdu : rlc_sdu) : rlc_tx_am_sdu_info :=
  mk_rlc_tx_am_sdu_info (sdu_buf sdu) (sdu_is_retx sdu) (sdu_pdcp_sn sdu)
    (sdu_time_of_arrival sdu) 0 RETX_COUNT_NOT_STARTED.

Definition data_header (p : Z) (si : rlc_si_field) (sn so : Z) : rlc_am_pdu_header :=
  mk_rlc_am_pdu_header dc_data p si tx_sn_size sn (u16 so).

(** [sn] is the number of [info] in the window. *)
Definition build_first_sdu_segment (grant_len sn : Z) (info : rlc_tx_am_sdu_info) s :
    checked (list Z * tx_am_state W * list tx_am_output) :=
  if zlen (tx_sdu info) + head_min_size <=? grant_len then Ok ([], s, []) else
  if grant_len <=? head_min_size then Ok ([], s, []) else
  let segment_payload_len := u32 (grant_len - head_min_size) in
  let s := s <| sn_under_segmentation := tx_next s |> in
  let '(p, s) := get_polling_bit (tx_next s) false segment_payload_len s in
  let hdr := data_header p first_segment (tx_next s) (next_so info) in
  let header := rlc_am_write_data_pdu_header hdr in
  let? view := sdu_view (tx_sdu info) (hdr_so hdr) segment_payload_len in
  let pdu := write_pdu grant_len header view in
  let payload_len := zlen pdu - zlen header in
  if (payload_len =? 0) || negb (payload_len =? segment_payload_len) then Ok ([], s, []) else
  let info := info <| next_so ::= fun n => u32 (n + segment_payload_len) |> in
  let? w := win_write sn info (tx_window s) in
  Ok (pdu, s <| tx_window := w |>, [TxMetricPdusWithSegmentation 1 (zlen pdu)]).

Definition notify_transfer (sdu : rlc_sdu) : list tx_am_output :=
  match sdu_pdcp_sn sdu with
  | Some pdcp_sn =>
      if sdu_is_retx sdu then [OutRetransmittedSdu pdcp_sn]
      else [OutTransmittedSdu pdcp_sn (txam_queue_size_bytes cfg)]
  | None => []
  end.

(** The payload size given to the polling function is the length of the buffer the
    SDU was moved from, which is 0. *)
Definition build_new_pdu (grant_len : Z) s :
    checked (list Z * tx_am_state W * list tx_am_output) :=
  if grant_len <=? head_min_size then Ok ([], s, []) else
  if is_tx_window_full s then Ok ([], s, []) else
  let '(sdu, q) := sq_read (sdu_queue s) in
  let s := s <| sdu_queue := q |> in
  match sdu with
  | None => Ok ([], s, [])
  | Some sdu =>
      let info := new_sdu_info sdu in
      let? w := add_sn info (tx_next s) (tx_window s) in
      let s := s <| tx_window := w |> in
      let notified := notify_transfer sdu in
      if grant_len <? zlen (tx_sdu info) + head_min_size then
        let? (pdu, s, out) := build_first_sdu_segment grant_len (tx_next s) info s in
        Ok (pdu, s, notified ++ out)
      else
        let '(p, s) := get_polling_bit (tx_next s) false 0 s in
        let header := rlc_am_write_data_pdu_header (data_header p full_sdu (tx_next s) 0) in
        let pdu := write_pdu grant_len header (tx_sdu info) in
        if zlen pdu - zlen header =? 0 then Ok ([], s, notified) else
        Ok (pdu, s <| tx_next := (tx_next s + 1) mod tx_mod |>,
            notified ++ [TxMetricPulledSdus 1; TxMetricPdusNoSegmentation 1 (zlen pdu)])
  end.

Definition build_continued_sdu_segment (grant_len sn : Z) (info : rlc_tx_am_sdu_info) s :
    checked (list Z * tx_am_state W * list tx_am_output) :=
  if next_so info =? 0 then Ok ([], s <| sn_under_segmentation := INVALID_RLC_SN |>, []) else
  if zlen (tx_sdu info) <=? next_so info
  then Ok ([], s <| sn_under_segmentation := INVALID_RLC_SN |>, []) else
  if grant_len <=? head_max_size then Ok ([], s, []) else
  let remaining := u32 (zlen (tx_sdu info) - next_so info) in
  let last := negb (grant_len <? u32 (remaining + head_max_size)) in
  let si := if last then last_segment else middle_segment in
  let segment_payload_len := if last then remaining else u32 (grant_len - head_max_size) in
  let s := if last then s <| sn_under_segmentation := INVALID_RLC_SN |> else s in
  let '(p, s) := get_polling_bit (tx_next s) false segment_payload_len s in
  let hdr := data_header p si (tx_next s) (next_so info) in
  let header := rlc_am_write_data_pdu_header hdr in
  let? view := sdu_view (tx_sdu info) (hdr_so hdr) segment_payload_len in
  let pdu := write_pdu grant_len header view in
  let payload_len := zlen pdu - zlen header in
  if (payload_len =? 0) || negb (payload_len =? segment_payload_len) then Ok ([], s, []) else
  let info := info <| next_so ::= fun n => u32 (n + segment_payload_len) |> in
  let? w := win_write sn info (tx_window s) in
  let s := s <| tx_window := w |> in
  Ok (pdu, if last then s <| tx_next := (tx_next s + 1) mod tx_mod |> else s,
      (if last then [TxMetricPulledSdus 1] else []) ++ [TxMetricPdusWithSegmentation 1 (zlen pdu)]).

Definition get_retx_expected_hdr_len (retx : rlc_tx_amd_retx) : Z :=
  if retx_so retx =? 0 then head_min_size else head_max_size.

(** What is left of a retransmission after [n] bytes. *)
Definition retx_remainder (n : Z) (retx : rlc_tx_amd_retx) : rlc_tx_amd_retx :=
  retx <| retx_so ::= fun so => u32 (so + n) |> <| retx_length ::= fun l => u32 (l - n) |>.

(** The front of the queue after [n] of its bytes have been sent. *)
Definition update_retx_queue (complete : bool) (n : Z) (count : Z) s : checked (tx_am_state W) :=
  if complete then
    let s := if count =? txam_max_retx_thresh cfg then s <| max_retx_reached := true |> else s in
    Ok (s <| retx_queue ::= rq_pop |>)
  else
    let? front := rq_front (retx_queue s) in
    let? q := rq_replace_front (retx_remainder n front) (retx_queue s) in
    Ok (s <| retx_queue := q |>).

(** The PDU of the retransmission at the front. *)
Definition send_retx (grant_len : Z) (retx : rlc_tx_amd_retx) (info : rlc_tx_am_sdu_info) s :
    checked (list Z * tx_am_state W * list tx_am_output) :=
  let expected_hdr_len := get_retx_expected_hdr_len retx in
  if grant_len <=? expected_hdr_len then Ok ([], s, []) else
  let retx_payload_len := Z.min (retx_length retx) (grant_len - expected_hdr_len) in
  let retx_complete := retx_payload_len =? retx_length retx in
  let sdu_complete := zlen (tx_sdu info) <=? retx_so retx + retx_payload_len in
  let si := if retx_so retx =? 0 then if sdu_complete then full_sdu else first_segment
            else if sdu_complete then last_segment else middle_segment in
  let? s := update_retx_queue retx_complete retx_payload_len (retx_count info) s in
  let '(p, s) := get_polling_bit (retx_sn retx) true 0 s in
  let hdr := data_header p si (retx_sn retx) (retx_so retx) in
  let header := rlc_am_write_data_pdu_header hdr in
  assert? zlen header =? expected_hdr_len;
  let? view := sdu_view (tx_sdu info) (hdr_so hdr) retx_payload_len in
  let pdu := write_pdu grant_len header view in
  let payload_len := zlen pdu - zlen header in
  if (payload_len =? 0) || negb (payload_len =? retx_payload_len) then Ok ([], s, []) else
  Ok (pdu, s, [TxMetricRetxPdus 1 (zlen pdu)]).

Definition build_retx_pdu (grant_len : Z) s :
    checked (list Z * tx_am_state W * list tx_am_output) :=
  if rq_empty (retx_queue s) then Ok ([], s, []) else
  let? q := drop_absent_retx (retx_fuel (retx_queue s)) (tx_window s) (retx_queue s) in
  let s := s <| retx_queue := q |> in
  if rq_empty q then Ok ([], s, []) else
  let? retx := rq_front q in
  let s := s <| tx_retx_sn := retx_sn retx |> in
  let? info := win_at (tx_window s) (retx_sn retx) in
  if zlen (tx_sdu info) <? u32 (retx_so retx + retx_length retx)
  then Ok ([], s <| retx_queue ::= rq_pop |>, [])
  else send_retx grant_len retx info s.

(** A status PDU, in front of any data. *)
Definition pull_status_pdu (grant_len : Z) (deferred : bool) s r :
    list Z * tx_am_state W * R * list tx_am_output :=
  if grant_len <? sizeof_header_ack_sn then ([], s, r, []) else
  let '(status_pdu, r) := provider_get deferred r in
  let '(fits, status_pdu) :=
    if grant_len <? sp_packed_size status_pdu then trim grant_len status_pdu else (true, status_pdu) in
  let r := provider_put status_pdu r in
  if negb fits then ([], s, r, []) else
  let pdu := pack status_pdu in
  if zlen pdu =? 0 then ([], s, r, []) else
  (pdu, s, r, [TxMetricCtrlPdus 1 (zlen pdu)]).

Definition pull_new_pdu (grant_len : Z) s : checked (list Z * tx_am_state W * list tx_am_output) :=
  if sq_is_empty (sdu_queue s) then Ok ([], s, []) else build_new_pdu grant_len s.

Definition pull_pdu (grant_len : Z) (deferred : bool) s r :
    checked (list Z * tx_am_state W * R * list tx_am_output) :=
  if max_retx_reached s then Ok ([], s, r, []) else
  if provider_required r then Ok (pull_status_pdu grant_len deferred s r) else
  let? (pdu, s, out) :=
    (if negb (rq_empty (retx_queue s)) then build_retx_pdu grant_len s else
     let sn := sn_under_segmentation s in
     if negb (sn =? INVALID_RLC_SN) then
       if has_sn (tx_window s) sn then
         let? info := win_at (tx_window s) sn in
         build_continued_sdu_segment grant_len sn info s
       else pull_new_pdu grant_len (s <| sn_under_segmentation := INVALID_RLC_SN |>)
     else pull_new_pdu grant_len s) in
  Ok (pdu, s, r, out).

(** ** Status reports of the peer *)

(** What reaching the threshold tells the upper layer. *)
Definition check_sn_reached_max_retx (info : rlc_tx_am_sdu_info) : list tx_am_output :=
  if retx_count info =? txam_max_retx_thresh cfg then [OutMaxRetx] else [].

Definition increment_retx_count (sn : Z) s : checked (tx_am_state W * list tx_am_output) :=
  let? info := win_at (tx_window s) sn in
  let info := if retx_count info =? RETX_COUNT_NOT_STARTED then info <| retx_count := 0 |>
              else info <| retx_count ::= fun n => u32 (n + 1) |> in
  let? w := win_write sn info (tx_window s) in
  Ok (s <| tx_window := w |>, check_sn_reached_max_retx info).

Definition decrement_retx_count (sn : Z) s : checked (tx_am_state W) :=
  let? info := win_at (tx_window s) sn in
  if retx_count info =? RETX_COUNT_NOT_STARTED then Ok s else
  let info := if retx_count info =? 0 then info <| retx_count := RETX_COUNT_NOT_STARTED |>
              else info <| retx_count ::= fun n => u32 (n - 1) |> in
  let? w := win_write sn info (tx_window s) in
  Ok (s <| tx_window := w |>).

(** The offsets of a NACK made explicit; [None] when there is nothing to send. *)
Definition nack_offsets (under_segmentation : bool) (info : rlc_tx_am_sdu_info)
    (nack : rlc_am_status_nack) : option rlc_am_status_nack :=
  let sdu_length := u32 (zlen (tx_sdu info)) in
  let nack := if negb (has_so nack)
              then nack <| so_start := 0 |> <| so_end := u16 (sdu_length - 1) |> else nack in
  if so_end nack =? so_end_of_sdu then
    if negb under_segmentation then Some (nack <| so_end := u16 (sdu_length - 1) |>)
    else if next_so info =? 0 then None
    else if next_so info <? so_start nack then None
    else if so_start nack =? next_so info then None
    else Some (nack <| so_end := u16 (next_so info - 1) |>)
  else Some nack.

(** The sanity checks of the offsets; each repair is reported as a failure. *)
Definition repair_offsets (sdu_length : Z) (nack : rlc_am_status_nack) :
    rlc_am_status_nack * list tx_am_output :=
  let '(nack, out1) := if so_end nack <? so_start nack
    then (nack <| so_start := 0 |>, [OutDeferProtocolFailure]) else (nack, []) in
  let '(nack, out2) := if sdu_length <=? so_start nack
    then (nack <| so_start := 0 |>, [OutDeferProtocolFailure]) else (nack, []) in
  let '(nack, out3) := if sdu_length <=? so_end nack
    then (nack <| so_end := u16 (sdu_length - 1) |>, [OutProtocolFailure; OutDeferProtocolFailure])
    else (nack, []) in
  (nack, out1 ++ out2 ++ out3).

Definition handle_nack (nack : rlc_am_status_nack) s :
    checked (bool * tx_am_state W * list tx_am_output) :=
  if has_nack_range nack then Ok (false, s, []) else
  let dist := tx_mod_base (tx_next_ack s) in
  if negb ((dist (tx_next_ack s) <=? dist (nack_sn nack)) && (dist (nack_sn nack) <=? dist (tx_next s)))
  then Ok (false, s, []) else
  let? info := win_at (tx_window s) (nack_sn nack) in
  match nack_offsets (nack_sn nack =? sn_under_segmentation s) info nack with
  | None => Ok (false, s, [])
  | Some nack =>
      let '(nack, out) := repair_offsets (u32 (zlen (tx_sdu info))) nack in
      let retx := mk_rlc_tx_amd_retx (nack_sn nack) (so_start nack)
                    (u32 (so_end nack - so_start nack + 1)) in
      let '(pushed, q) := rq_try_push retx (retx_queue s) in
      Ok (pushed, s <| retx_queue := q |>, out)
  end.

(** One NACK without range; [prev_retx_sn] is the number whose counter was
    incremented last. *)
Definition process_nack (nack : rlc_am_status_nack) (prev_retx_sn : Z) s :
    checked (Z * tx_am_state W * list tx_am_output) :=
  let? (queued, s, out) := handle_nack nack s in
  if queued && negb (prev_retx_sn =? nack_sn nack) then
    let? (s, out') := increment_retx_count (nack_sn nack) s in
    Ok (nack_sn nack, s, out ++ out')
  else Ok (prev_retx_sn, s, out).

(** The NACK of one number of a range. *)
Definition range_item (nack : rlc_am_status_nack) (range_sn : Z) : rlc_am_status_nack :=
  let item := nack_default <| nack_sn := range_sn |> in
  if has_so nack then
    let item := if range_sn =? nack_sn nack then item <| so_start := so_start nack |> else item in
    let item := if range_sn =? u32 (nack_sn nack + nack_range nack - 1) mod tx_mod
                then item <| so_end := so_end nack |> else item in
    item <| has_so := negb (so_start item =? 0) || negb (so_end item =? so_end_of_sdu) |>
  else item.

(** The numbers of a range; a range has at most 255. *)
Fixpoint range_loop (fuel : nat) (nack : rlc_am_status_nack) (ack_sn range_sn prev : Z) s :
    checked (Z * tx_am_state W * list tx_am_output) :=
  if range_sn =? u32 (nack_sn nack + nack_range nack) mod tx_mod then Ok (prev, s, []) else
  match fuel with
  | O => Panic
  | S fuel =>
      if range_sn =? ack_sn then Ok (prev, s, []) else
      let? (prev, s, out) := process_nack (range_item nack range_sn) prev s in
      let? (prev, s, out') := range_loop fuel nack ack_sn ((range_sn + 1) mod tx_mod) prev s in
      Ok (prev, s, out ++ out')
  end.
Definition range_fuel : nat := 256.

Fixpoint rebuild_retx (nacks : list rlc_am_status_nack) (ack_sn prev : Z) s :
    checked (tx_am_state W * list tx_am_output) :=
  match nacks with
  | [] => Ok (s, [])
  | nack :: nacks =>
      let? (prev, s, out) :=
        (if has_nack_range nack then range_loop range_fuel nack ack_sn (nack_sn nack) prev s
         else process_nack nack prev s) in
      let? (s, out') := rebuild_retx nacks ack_sn prev s in
      Ok (s, out ++ out')
  end.

(** The retransmission queue is emptied; the counter of every number in it is
    rewound once, unless its retransmission had begun. *)
Fixpoint clear_retx (fuel : nat) s : checked (tx_am_state W) :=
  if rq_empty (retx_queue s) then Ok s else
  match fuel with
  | O => Panic
  | S fuel =>
      let? retx := rq_front (retx_queue s) in
      let? s := (if negb (tx_retx_sn s =? retx_sn retx) then
        let? s := (if has_sn (tx_window s) (retx_sn retx)
                   then decrement_retx_count (retx_sn retx) s else Ok s) in
        Ok (s <| tx_retx_sn := retx_sn retx |>) else Ok s) in
      clear_retx fuel (s <| retx_queue ::= rq_pop |>)
  end.

(** The highest PDCP SNs delivered, of new and of retransmitted SDUs. *)
Definition note_delivered (info : rlc_tx_am_sdu_info) (deliv : option Z * option Z) :
    option Z * option Z :=
  match tx_pdcp_sn info with
  | None => deliv
  | Some pdcp_sn => if tx_is_retx info then (deliv.1, Some pdcp_sn) else (Some pdcp_sn, deliv.2)
  end.

(** The walk over the acknowledged numbers from TX_Next_Ack on.  The base of the
    comparisons, TX_Next_Ack, moves with it. *)
Fixpoint process_acks (fuel : nat) (sn stop_sn : Z) (deliv : option Z * option Z) s :
    checked (tx_am_state W * (option Z * option Z)) :=
  let dist := tx_mod_base (tx_next_ack s) in
  if negb (dist sn <? dist stop_sn) then Ok (s, deliv) else
  match fuel with
  | O => Panic
  | S fuel =>
      if has_sn (tx_window s) sn then
        let? info := win_at (tx_window s) sn in
        let deliv := note_delivered info deliv in
        let? w := remove_sn sn (tx_window s) in
        let next := (sn + 1) mod tx_mod in
        process_acks fuel next stop_sn deliv (s <| tx_window := w |> <| tx_next_ack := next |>)
      else Ok (s, deliv)
  end.
Definition ack_fuel : nat := S (Z.to_nat tx_mod).

Definition delivered_outputs (deliv : option Z * option Z) : list tx_am_output :=
  match deliv.1 with Some pdcp_sn => [OutDeliveredSdu pdcp_sn] | None => [] end ++
  match deliv.2 with Some pdcp_sn => [OutDeliveredRetransmittedSdu pdcp_sn] | None => [] end.

Fixpoint valid_nacks (ack_sn : Z) (nacks : list rlc_am_status_nack) s : bool * list tx_am_output :=
  match nacks with
  | [] => (true, [])
  | nack :: nacks =>
      let '(ok, out) := valid_nack ack_sn nack s in
      if ok then valid_nacks ack_sn nacks s else (false, out)
  end.

(** A report that passed the checks. *)
Definition apply_status (status : rlc_am_status_pdu) s r :
    checked (tx_am_state W * list tx_am_output) :=
  let dist := tx_mod_base (tx_next_ack s) in
  let s := if dist (poll_sn s) <? dist (sp_ack_sn status)
           then s <| poll_retransmit_timer := false |> else s in
  let stop_sn := match sp_nacks status with [] => sp_ack_sn status | nack :: _ => nack_sn nack end in
  let? (s, deliv) := process_acks ack_fuel (tx_next_ack s) stop_sn (None, None) s in
  let? s := clear_retx (retx_fuel (retx_queue s)) s in
  let s := s <| tx_retx_sn := INVALID_RLC_SN |> in
  let? (s, out) := rebuild_retx (sp_nacks status) (sp_ack_sn status) INVALID_RLC_SN s in
  let? (s, out') := update_mac_buffer_state true s r in
  Ok (s, delivered_outputs deliv ++ out ++ out').

Definition handle_status_pdu (status : rlc_am_status_pdu) s r :
    checked (tx_am_state W * list tx_am_output) :=
  let dist := tx_mod_base (tx_next_ack s) in
  if negb (tx_valid_ack_sn s (sp_ack_sn status)) then Ok (s, []) else
  if dist (u32 (tx_next s + 1)) <? dist (sp_ack_sn status) then Ok (s, [OutDeferProtocolFailure]) else
  let '(ok, out) := valid_nacks (sp_ack_sn status) (sp_nacks status) s in
  if ok then apply_status status s r else Ok (s, out).

(** ** Expiry of t-PollRetransmit *)

Definition on_expired_poll_retransmit_timer s r : checked (tx_am_state W * list tx_am_output) :=
  if nothing_to_send s then
    if win_size (tx_window s) =? 0 then Ok (s, []) else
    if negb (has_sn (tx_window s) (tx_next_ack s)) then Ok (s, []) else
    let? info := win_at (tx_window s) (tx_next_ack s) in
    let retx := mk_rlc_tx_amd_retx (tx_next_ack s) 0 (u32 (zlen (tx_sdu info))) in
    let '(retx_enqueued, q) := rq_try_push retx (retx_queue s) in
    let s := s <| retx_queue := q |> in
    let? (s, out) := (if retx_enqueued then increment_retx_count (tx_next_ack s) s else Ok (s, [])) in
    let? (s, out') := update_mac_buffer_state true s r in
    Ok (s, out ++ out')
  else Ok (s, []).

(** ** Events *)

(** [accepted]: the executor of the cell accepts the task.  A task that is executed
    at once is a deferral followed by its run. *)
Inductive tx_am_op : Type :=
| TxSdu (now : Z) (sdu_buf : list Z) (is_retx accepted : bool)
| TxDiscardSdu (pdcp_sn : Z) (accepted : bool)
| TxPull (grant_len : Z) (deferred : bool)
| TxGetBufferState
| TxOnStatusPdu (status : rlc_am_status_pdu) (accepted : bool)
| TxOnStatusReportChanged (accepted : bool)
| TxRunTask
| TxPollRetransmitExpired
| TxStop (accepted : bool).

Definition add_task (accepted : bool) (task : tx_am_task) s : tx_am_state W :=
  if accepted then s <| pcell_tasks ::= fun l => l ++ [task] |> else s.

Definition run_task (task : tx_am_task) s r : checked (tx_am_state W * list tx_am_output) :=
  match task with
  | TaskStatusPdu status => handle_status_pdu status s r
  | TaskBufferState => update_mac_buffer_state false s r
  | TaskStop => Ok (s <| stopped_lower := true |> <| poll_retransmit_timer := false |>, [])
  end.

(** The PDU is empty when there is none.  The expiry of the timer is a step,
    possible only while the timer runs, that sets it to expired and runs the
    callback. *)
Definition tx_am_step (op : tx_am_op) s r :
    checked (list Z * tx_am_state W * R * list tx_am_output) :=
  let keep (x : tx_am_state W * list tx_am_output) := Ok ([], x.1, r, x.2) in
  match op with
  | TxSdu now sdu_buf is_retx accepted => keep (tx_handle_sdu now sdu_buf is_retx accepted s)
  | TxDiscardSdu pdcp_sn accepted => keep (discard_sdu pdcp_sn accepted s)
  | TxPull grant_len deferred => pull_pdu grant_len deferred s r
  | TxGetBufferState => let? (bs, s) := get_buffer_state s r in keep (s, [RetBufferState bs])
  | TxOnStatusPdu status accepted => keep (add_task accepted (TaskStatusPdu status) s, [])
  | TxOnStatusReportChanged accepted => keep (handle_changed_buffer_state accepted s, [])
  | TxRunTask =>
      match pcell_tasks s with
      | [] => keep (s, [])
      | task :: tasks => let? x := run_task task (s <| pcell_tasks := tasks |>) r in keep x
      end
  | TxPollRetransmitExpired =>
      if poll_retransmit_timer s then
        let? x := on_expired_poll_retransmit_timer (s <| poll_retransmit_timer := false |>) r in
        keep x
      else keep (s, [])
  | TxStop accepted =>
      if stopped_upper s then keep (s, [])
      else keep (add_task accepted TaskStop (s <| stopped_upper := true |>), [])
  end.

(** Each step finds the receiving entity in a state of its own. *)
Fixpoint tx_am_run (ops : list (tx_am_op * R)) s :
    checked (list (list Z) * tx_am_state W * list tx_am_output) :=
  match ops with
  | [] => Ok ([], s, [])
  | (op, r) :: ops =>
      let? (pdu, s, _, out) := tx_am_step op s r in
      let? (pdus, s, out') := tx_am_run ops s in
      Ok (pdu :: pdus, s, out ++ out')
  end.
End tx_am.
