(* ===== verification/RlcAmEntity.v ===== *)
(** * RLC AM entity: both directions connected

    Models [rlc_am_entity] of [src/lib/rlc/rlc_am_entity.h] on top of
    [rlc_base_entity.h]: the transmitting and the receiving entity of a bearer, and
    their interconnection.  The receiving entity is the status provider of the
    transmitting one; status PDUs it receives and changes of its status report are
    forwarded to the transmitting entity. *)
From stdpp Require Import base numbers list.
From Stdlib Require Import ZArith Lia.
From S2P Require Import Prelude.
From S2P Require Import RlcConfig.
From S2P Require Import RlcAmPdu.
From S2P Require Import SduWindow.
From S2P Require Import RlcRxAm.
From S2P Require Import RlcTxBase.
From S2P Require Import RlcTxAm.

Set Default Goal Selector "!".
Open Scope Z_scope.
Open Scope ran_scope.

Record rlc_am_config := mk_rlc_am_config {
  am_cfg_tx : rlc_tx_am_config;
  am_cfg_rx : rlc_rx_am_config;
}.

Record rlc_am_state (W : Type -> Type) := mk_rlc_am_state {
  am_tx : tx_am_state W;
  am_rx : rx_am_state W;
}.
Arguments mk_rlc_am_state {W}.
Arguments am_tx {W}.
Arguments am_rx {W}.

(** The receiving entity as status provider: [get_status_pdu] returns a reference to
    the status PDU owned by the reader. *)
Definition rx_am_provider {W : Type -> Type} `{SduWindow W} (cfg : rlc_rx_am_config) :
    StatusProvider (rx_am_state W) := {|
  provider_required := status_report_required;
  provider_get := get_status_pdu cfg;
  provider_put status s := s <| status_owned_by_reader := status |>;
  provider_length := get_status_pdu_length;
|}.

(** [AmTx], [AmRx]: calls of the upper and lower layers, of the executors and of the
    timers; [accepts] tells for each call the receiving entity makes whether the
    executor of the cell accepts the task (it does when the list is exhausted).  The
    calls of the interconnection are not among them. *)
Inductive rlc_am_op : Type :=
| AmTx (op : tx_am_op)
| AmRx (op : rx_am_op) (accepts : list bool)
| AmStop (accepted : bool).

Section rlc_am.
Context {W : Type -> Type} `{SduWindow W}.
Variable cfg : rlc_am_config.
Variable is_srb : bool.

#[local] Instance provider : StatusProvider (rx_am_state W) := rx_am_provider (am_cfg_rx cfg).

Definition rlc_am_init : checked (rlc_am_state W) :=
  let? tx := tx_am_init (am_cfg_tx cfg) in
  let? rx := rx_am_init (am_cfg_rx cfg) in
  Ok (mk_rlc_am_state tx rx).

(** [status_handler->on_status_pdu] and [status_notifier->on_status_report_changed]. *)
Definition interconnect (accepted : bool) (out : rx_am_output) : option tx_am_op :=
  match out with
  | OutStatusPdu status => Some (TxOnStatusPdu status accepted)
  | OutStatusReportChanged => Some (TxOnStatusReportChanged accepted)
  | _ => None
  end.

Fixpoint forward (outs : list rx_am_output) (accepts : list bool) (tx : tx_am_state W) (rx : rx_am_state W) :
    checked (tx_am_state W) :=
  match outs with
  | [] => Ok tx
  | out :: outs =>
      match interconnect (default true (head accepts)) out with
      | Some op =>
          let? (_, tx, _, _) := tx_am_step (am_cfg_tx cfg) is_srb op tx rx in
          forward outs (tail accepts) tx rx
      | None => forward outs accepts tx rx
      end
  end.

Definition rlc_am_step (op : rlc_am_op) (s : rlc_am_state W) :
    checked (list Z * rlc_am_state W * list tx_am_output * list rx_am_output) :=
  match op with
  | AmTx op =>
      let? (pdu, tx, rx, out) := tx_am_step (am_cfg_tx cfg) is_srb op (am_tx s) (am_rx s) in
      Ok (pdu, mk_rlc_am_state tx rx, out, [])
  | AmRx op accepts =>
      let? (rx, out) := rx_am_step (am_cfg_rx cfg) op (am_rx s) in
      let? tx := forward out accepts (am_tx s) rx in
      Ok ([], mk_rlc_am_state tx rx, [], out)
  | AmStop accepted =>
      let? (_, tx, _, out) := tx_am_step (am_cfg_tx cfg) is_srb (TxStop accepted) (am_tx s) (am_rx s) in
      let? (rx, out') := rx_am_step (am_cfg_rx cfg) RxStop (am_rx s) in
      Ok ([], mk_rlc_am_state tx rx, out, out')
  end.

Fixpoint rlc_am_run (ops : list rlc_am_op) (s : rlc_am_state W) :
    checked (list (list Z) * rlc_am_state W * list tx_am_output * list rx_am_output) :=
  match ops with
  | [] => Ok ([], s, [], [])
  | op :: ops =>
      let? (pdu, s, tout, rout) := rlc_am_step op s in
      let? (pdus, s, tout', rout') := rlc_am_run ops s in
      Ok (pdu :: pdus, s, tout ++ tout', rout ++ rout')
  end.
End rlc_am.

(** ** An example

    Two entities that face each other: one sends an SDU of 4 bytes in segments, the
    other loses the first of them, reports it and gets it again. *)
Definition ex_tx_am_cfg : rlc_tx_am_config :=
  {| txam_sn_field_length := am_size12bits; txam_pdcp_sn_len := PdcpSn.pdcp_size12bits;
     txam_t_poll_retx := 45; txam_max_retx_thresh := 4; txam_poll_pdu := 4; txam_poll_byte := 25000;
     txam_queue_size := 8; txam_queue_size_bytes := 1000; txam_max_window := 0 |}.
Definition ex_rx_am_cfg : rlc_rx_am_config :=
  {| rxam_sn_field_length := am_size12bits; rxam_t_reassembly := 35;
     rxam_t_status_prohibit := 0; rxam_max_sn_per_status := None |}.
Definition ex_am_cfg : rlc_am_config := mk_rlc_am_config ex_tx_am_cfg ex_rx_am_cfg.
Definition ex_am_init : rlc_am_state circular_map :=
  Eval vm_compute in
    match rlc_am_init ex_am_cfg as r
      return match r with Ok _ => rlc_am_state circular_map | Panic => unit end with
    | Ok s => s
    | Panic => tt
    end.

Lemma ex_am_init_run : rlc_am_init ex_am_cfg = Ok ex_am_init.
Proof. by vm_compute. Qed.

Definition ex_am_sdu : list Z := [128; 5; 77; 88].

Example ex_am_retransmission :
  match rlc_am_run ex_am_cfg false
          [AmTx (TxSdu 0 ex_am_sdu false true); AmTx (TxPull 4 true); AmTx (TxPull 9 true)] ex_am_init with
  | Ok ([_; pdu1; pdu2], a, _, _) =>
      match rlc_am_run ex_am_cfg false
              [AmRx (RxPdu true pdu2) []; AmRx RxReassemblyExpired []; AmTx (TxPull 50 true)] ex_am_init with
      | Ok ([_; _; report], b, _, _) =>
          match rlc_am_run ex_am_cfg false
                  [AmRx (RxPdu true report) []; AmTx TxRunTask; AmTx TxRunTask; AmTx (TxPull 50 true)] a with
          | Ok ([_; _; _; pdu3], _, _, _) =>
              match rlc_am_run ex_am_cfg false [AmRx (RxPdu true pdu3) []] b with
              | Ok (_, _, _, out) => OutSdu ex_am_sdu ∈ out
              | Panic => False
              end
          | _ => False
          end
      | _ => False
      end
  | _ => False
  end.
Proof. vm_compute. repeat (first [apply list_elem_of_here|apply list_elem_of_further]). Qed.
