(* ===== verification/RlcTxAmFrames.v ===== *)
(** * RLC AM transmitter: what operations leave alone

    Frame lemmas: pulling a PDU does not touch the deferred tasks nor the account of
    what the MAC was told; status reports do not touch the polling counters.  They
    hold in every state, and carry the properties of polling and of the buffer state
    notifications, which are invariants of the runs. *)
From stdpp Require Import base numbers list.
From Stdlib Require Import ZArith Lia.
From S2P Require Import Prelude.
From S2P Require Import RlcConfig.
From S2P Require Import RlcAmPdu.
From S2P Require Import SduWindow.
From S2P Require Import RlcRetxQueue.
From S2P Require Import RlcSduQueue.
From S2P Require Import RlcTxBase.
From S2P Require Import RlcTxAm.

Set Default Goal Selector "!".
Open Scope Z_scope.
Open Scope ran_scope.

(** Follows a computation that returned: binds, branches, pairs. *)
Ltac inv_ok :=
  repeat match goal with
  | H : Ok _ = Ok _ |- _ => injection H as ?; subst
  | H : Panic = Ok _ |- _ => discriminate H
  | H : checked_bind _ _ = Ok _ |- _ => apply checked_bind_ok in H as (? & ? & ?)
  | x : (_ * _)%type |- _ => destruct x
  | H : (if ?b then _ else _) = Ok _ |- _ => destruct b
  | H : (let '(_, _) := ?p in _) = Ok _ |- _ => destruct p eqn:?
  | H : match ?o with Some _ => _ | None => _ end = Ok _ |- _ => destruct o
  | H : (_, _) = (_, _) |- _ => injection H as ?; subst
  end.

Section frames.
Context {W : Type -> Type} `{!SduWindow W} {R : Type} `{!StatusProvider R}.
Variable cfg : rlc_tx_am_config.
Implicit Types s : tx_am_state W.

(** The tasks, the flags and the account of the buffer state. *)
Definition same_env s s' : Prop :=
  pcell_tasks s' = pcell_tasks s /\ prev_buffer_state s' = prev_buffer_state s /\
  suspend_bs_notif_barring s' = suspend_bs_notif_barring s /\
  stopped_upper s' = stopped_upper s /\ stopped_lower s' = stopped_lower s.

Definition same_poll s s' : Prop :=
  pdu_without_poll s' = pdu_without_poll s /\ byte_without_poll s' = byte_without_poll s /\
  poll_sn s' = poll_sn s.

#[export] Instance same_env_pre : PreOrder same_env.
Proof.
  split; [by intros s; split_and!|]. unfold same_env. intros s1 s2 s3 H1 H2. destruct_and!. split_and!; congruence.
Qed.
#[export] Instance same_poll_pre : PreOrder same_poll.
Proof.
  split; [by intros s; split_and!|]. unfold same_poll. intros s1 s2 s3 H1 H2. destruct_and!. split_and!; congruence.
Qed.

Lemma polling_env sn is_retx size s p s' : get_polling_bit cfg sn is_retx size s = (p, s') -> same_env s s'.
Proof.
  unfold get_polling_bit, include_poll. destruct is_retx; repeat case_if; intros [= <- <-]; by split_and!.
Qed.

Lemma first_segment_env grant_len sn info s pdu s' out :
  build_first_sdu_segment cfg grant_len sn info s = Ok (pdu, s', out) -> same_env s s'.
Proof.
  unfold build_first_sdu_segment. intros H. inv_ok; try done;
    (match goal with E : get_polling_bit _ _ _ _ _ = _ |- _ => apply polling_env in E as (? & ? & ? & ? & ?) end); by split_and!.
Qed.

Lemma build_new_env grant_len s pdu s' out :
  build_new_pdu cfg grant_len s = Ok (pdu, s', out) -> same_env s s'.
Proof.
  unfold build_new_pdu. intros H. inv_ok; try done.
  all: try (match goal with E : get_polling_bit _ _ _ _ _ = _ |- _ => apply polling_env in E as (? & ? & ? & ? & ?) end; by split_and!).
  match goal with E : build_first_sdu_segment _ _ _ _ _ = _ |- _ => apply first_segment_env in E as (? & ? & ? & ? & ?) end; by split_and!.
Qed.

Lemma continued_env grant_len sn info s pdu s' out :
  build_continued_sdu_segment cfg grant_len sn info s = Ok (pdu, s', out) -> same_env s s'.
Proof.
  unfold build_continued_sdu_segment. intros H. inv_ok; try done.
  all: match goal with E : get_polling_bit _ _ _ _ (if ?b then _ else _) = _ |- _ => destruct b | _ => idtac end.
  all: match goal with E : get_polling_bit _ _ _ _ _ = _ |- _ => apply polling_env in E as (? & ? & ? & ? & ?) end.
  all: by split_and!.
Qed.

Lemma update_retx_env complete n count s s' : update_retx_queue cfg complete n count s = Ok s' -> same_env s s'.
Proof. unfold update_retx_queue. intros H. inv_ok; [case_if|]; by split_and!. Qed.

Lemma send_retx_env grant_len retx info s pdu s' out :
  send_retx cfg grant_len retx info s = Ok (pdu, s', out) -> same_env s s'.
Proof.
  unfold send_retx. intros H. inv_ok; try done;
    (match goal with E : update_retx_queue _ _ _ _ _ = _ |- _ => apply update_retx_env in E end;
     match goal with E : get_polling_bit _ _ _ _ _ = _ |- _ => apply polling_env in E end; by etrans).
Qed.

Lemma build_retx_env grant_len s pdu s' out :
  build_retx_pdu cfg grant_len s = Ok (pdu, s', out) -> same_env s s'.
Proof.
  unfold build_retx_pdu. intros H. inv_ok; try done; [by split_and!..|].
  match goal with E : send_retx _ _ _ _ _ = _ |- _ => apply send_retx_env in E end. by etrans; [|eassumption].
Qed.

Lemma pull_status_state grant_len deferred s (r : R) pdu s' r' out :
  pull_status_pdu grant_len deferred s r = (pdu, s', r', out) -> s' = s.
Proof.
  unfold pull_status_pdu. case_if; [by intros [= <- <- <- <-]|]. destruct (provider_get deferred r) as [status r1].
  destruct (if _ <? _ then _ else _) as [[] ?]; cbn; [case_if|]; by intros [= <- <- <- <-].
Qed.

Lemma pull_env grant_len deferred s r pdu s' r' out :
  pull_pdu cfg grant_len deferred s r = Ok (pdu, s', r', out) -> same_env s s'.
Proof.
  unfold pull_pdu, pull_new_pdu. intros H. destruct (max_retx_reached s); [by inv_ok|].
  destruct (provider_required r); [injection H as H; by apply pull_status_state in H as ->|].
  inv_ok; try done.
  all: try match goal with E : build_retx_pdu _ _ _ = _ |- _ => by apply build_retx_env in E
    | E : build_continued_sdu_segment _ _ _ _ _ = _ |- _ => by apply continued_env in E
    | E : build_new_pdu _ _ _ = _ |- _ => apply build_new_env in E; by etrans; [|eassumption] end.
Qed.

(** ** Status reports *)

Lemma increment_same sn s s' out :
  increment_retx_count cfg sn s = Ok (s', out) -> same_env s s' /\ same_poll s s'.
Proof. unfold increment_retx_count. intros H. inv_ok; by split_and!. Qed.

Lemma decrement_same sn s s' : decrement_retx_count sn s = Ok s' -> same_env s s' /\ same_poll s s'.
Proof. unfold decrement_retx_count. intros H. inv_ok; by split_and!. Qed.

Lemma handle_nack_same nack s b s' out :
  handle_nack cfg nack s = Ok (b, s', out) -> same_env s s' /\ same_poll s s'.
Proof. unfold handle_nack. intros H. inv_ok; by split_and!. Qed.

Lemma process_nack_same nack prev s prev' s' out :
  process_nack cfg nack prev s = Ok (prev', s', out) -> same_env s s' /\ same_poll s s'.
Proof.
  unfold process_nack. intros H. inv_ok.
  all: match goal with E : handle_nack _ _ _ = _ |- _ => apply handle_nack_same in E as [? ?] end; try done.
  match goal with E : increment_retx_count _ _ _ = _ |- _ => apply increment_same in E as [? ?] end. split; by etrans.
Qed.

Lemma range_loop_same fuel nack ack_sn : forall sn prev s prev' s' out,
  range_loop cfg fuel nack ack_sn sn prev s = Ok (prev', s', out) -> same_env s s' /\ same_poll s s'.
Proof.
  induction fuel as [|fuel IH]; intros sn prev s prev' s' out H; cbn [range_loop] in H; inv_ok; try done.
  match goal with E : process_nack _ _ _ _ = _ |- _ => apply process_nack_same in E as [? ?] end.
  match goal with E : range_loop _ _ _ _ _ _ _ = _ |- _ => apply IH in E as [? ?] end. split; by etrans.
Qed.

Lemma rebuild_same nacks ack_sn : forall prev s s' out,
  rebuild_retx cfg nacks ack_sn prev s = Ok (s', out) -> same_env s s' /\ same_poll s s'.
Proof.
  induction nacks as [|nack nacks IH]; intros prev s s' out H; cbn [rebuild_retx] in H; [by inv_ok|].
  apply checked_bind_ok in H as ([[prev1 s1] out1] & H1 & H). inv_ok.
  all: match goal with E : rebuild_retx _ _ _ _ _ = _ |- _ => apply IH in E as [? ?] end.
  all: match goal with E : process_nack _ _ _ _ = _ |- _ => apply process_nack_same in E as [? ?]
       | E : range_loop _ _ _ _ _ _ _ = _ |- _ => apply range_loop_same in E as [? ?] end.
  all: split; by etrans.
Qed.

Lemma clear_same fuel : forall s s', clear_retx fuel s = Ok s' -> same_env s s' /\ same_poll s s'.
Proof.
  induction fuel as [|fuel IH]; intros s s' H; cbn [clear_retx] in H; inv_ok; try done.
  all: match goal with E : clear_retx _ _ = _ |- _ => apply IH in E as [? ?] end.
  all: try match goal with E : decrement_retx_count _ _ = _ |- _ => apply decrement_same in E as [? ?] end.
  all: split; (repeat (etrans; [eassumption|])); first [reflexivity|eassumption].
Qed.

Lemma process_acks_same fuel : forall sn stop_sn deliv s s' deliv',
  process_acks cfg fuel sn stop_sn deliv s = Ok (s', deliv') -> same_env s s' /\ same_poll s s'.
Proof.
  induction fuel as [|fuel IH]; intros sn stop_sn deliv s s' deliv' H; cbn [process_acks] in H; inv_ok; try done.
  by match goal with E : process_acks _ _ _ _ _ _ = _ |- _ => apply IH in E as [? ?] end.
Qed.

(** ** Buffer state *)

(** The buffer states among the outputs. *)
Definition bs_out (out : list tx_am_output) : list rlc_buffer_state :=
  omap (fun o => match o with OutBufferState bs | RetBufferState bs => Some bs | _ => None end) out.

Lemma bs_out_app out1 out2 : bs_out (out1 ++ out2) = bs_out out1 ++ bs_out out2.
Proof. apply omap_app. Qed.

Lemma get_buffer_state_same s (r : R) bs s' :
  get_buffer_state cfg s r = Ok (bs, s') ->
  same_poll s s' /\ pcell_tasks s' = pcell_tasks s /\ prev_buffer_state s' = prev_buffer_state s /\
  suspend_bs_notif_barring s' = (pending_bytes bs <=? MAX_DL_PDU_LENGTH) || suspend_bs_notif_barring s.
Proof.
  unfold get_buffer_state. destruct (sq_get_state _) as [n_sdus n_bytes]. intros H.
  apply checked_bind_ok in H as ([[seg toa] s1] & H1 & H).
  assert (same_poll s s1 /\ pcell_tasks s1 = pcell_tasks s /\ prev_buffer_state s1 = prev_buffer_state s /\
    suspend_bs_notif_barring s1 = suspend_bs_notif_barring s) as (E1 & E2 & E3 & E4) by (inv_ok; by split_and!).
  clear H1. apply checked_bind_ok in H as (q & Hq & H). apply checked_bind_ok in H as (toa' & Ht & H).
  injection H as <- <-. cbn [pending_bytes]. destruct (_ <=? MAX_DL_PDU_LENGTH); by split_and!.
Qed.

(** A notification is withheld only when both the new and the previous buffer state
    exceed the length of the longest PDU and the barring is not suspended. *)
Lemma update_mac_same force s (r : R) s' out :
  update_mac_buffer_state cfg force s r = Ok (s', out) ->
  same_poll s s' /\ pcell_tasks s' = pcell_tasks s /\
  (out = [OutBufferState (prev_buffer_state s')] /\ suspend_bs_notif_barring s' = false \/
   out = [] /\ MAX_DL_PDU_LENGTH < pending_bytes (prev_buffer_state s') /\
   MAX_DL_PDU_LENGTH < pending_bytes (prev_buffer_state s) /\ suspend_bs_notif_barring s = false).
Proof.
  unfold update_mac_buffer_state. intros H. apply checked_bind_ok in H as ([bs s1] & H1 & H).
  apply get_buffer_state_same in H1 as (E1 & E2 & E3 & E4). cbn in E2, E3, E4.
  destruct (_ || optional_lt _ _) eqn:E; injection H as <- <-; cbn; (split; [done|]; split; [done|]); [by left|right].
  zbool. rewrite E3 in *. split_and!; try done. rewrite E4 in *. by destruct (pending_bytes bs <=? _).
Qed.

(** Outputs that carry no buffer state. *)
Lemma build_new_bs grant_len s pdu s' out : build_new_pdu cfg grant_len s = Ok (pdu, s', out) -> bs_out out = [].
Proof.
  unfold build_new_pdu, build_first_sdu_segment, notify_transfer. intros H. inv_ok; try done;
    repeat case_match; done.
Qed.

Lemma pull_bs grant_len deferred s r pdu s' r' out :
  pull_pdu cfg grant_len deferred s r = Ok (pdu, s', r', out) -> bs_out out = [].
Proof.
  unfold pull_pdu. intros H. destruct (max_retx_reached s); [by inv_ok|]. destruct (provider_required r).
  { injection H as H. unfold pull_status_pdu in H. repeat case_match; by injection H as <- <- <- <-. }
  unfold pull_new_pdu, build_retx_pdu, send_retx, build_continued_sdu_segment in H. inv_ok; try done.
  all: try (match goal with E : build_new_pdu _ _ _ = _ |- _ => by apply build_new_bs in E end).
  by case_if.
Qed.

Lemma increment_bs sn s s' out : increment_retx_count cfg sn s = Ok (s', out) -> bs_out out = [].
Proof. unfold increment_retx_count, check_sn_reached_max_retx. intros H. inv_ok. by case_if. Qed.

Lemma handle_nack_bs nack s b s' out : handle_nack cfg nack s = Ok (b, s', out) -> bs_out out = [].
Proof.
  unfold handle_nack. intros H. inv_ok; try done.
  match goal with E : repair_offsets _ _ = _ |- _ => revert E end. unfold repair_offsets.
  repeat case_if; by intros [= <- <-].
Qed.

Lemma process_nack_bs nack prev s prev' s' out :
  process_nack cfg nack prev s = Ok (prev', s', out) -> bs_out out = [].
Proof.
  unfold process_nack. intros H. inv_ok; rewrite ?bs_out_app;
    repeat match goal with E : handle_nack _ _ _ = _ |- _ => apply handle_nack_bs in E as ->
    | E : increment_retx_count _ _ _ = _ |- _ => apply increment_bs in E as -> end; done.
Qed.

Lemma range_loop_bs fuel nack ack_sn : forall sn prev s prev' s' out,
  range_loop cfg fuel nack ack_sn sn prev s = Ok (prev', s', out) -> bs_out out = [].
Proof.
  induction fuel as [|fuel IH]; intros sn prev s prev' s' out H; cbn [range_loop] in H; inv_ok; try done.
  rewrite bs_out_app. match goal with E : process_nack _ _ _ _ = _ |- _ => apply process_nack_bs in E as -> end.
  by match goal with E : range_loop _ _ _ _ _ _ _ = _ |- _ => apply IH in E as -> end.
Qed.

Lemma rebuild_bs nacks ack_sn : forall prev s s' out,
  rebuild_retx cfg nacks ack_sn prev s = Ok (s', out) -> bs_out out = [].
Proof.
  induction nacks as [|nack nacks IH]; intros prev s s' out H; cbn [rebuild_retx] in H; [by inv_ok|].
  apply checked_bind_ok in H as ([[prev1 s1] out1] & H1 & H). inv_ok; rewrite bs_out_app.
  all: match goal with E : rebuild_retx _ _ _ _ _ = _ |- _ => apply IH in E as -> end.
  all: match goal with E : process_nack _ _ _ _ = _ |- _ => apply process_nack_bs in E as ->
       | E : range_loop _ _ _ _ _ _ _ = _ |- _ => apply range_loop_bs in E as -> end.
  all: done.
Qed.

Lemma valid_nacks_bs ack_sn nacks s : bs_out (valid_nacks cfg ack_sn nacks s).2 = [].
Proof.
  induction nacks as [|nack nacks IH]; [done|]. cbn [valid_nacks].
  assert (bs_out (valid_nack cfg ack_sn nack s).2 = []) as Hv by (unfold valid_nack; by repeat case_if).
  destruct (valid_nack _ _ _ _) as [[] out]; done.
Qed.

(** ** Whole operations *)

(** What an operation tells the MAC: the account of the buffer state moves with it. *)
Definition mac_step s s' (out : list tx_am_output) : Prop :=
  bs_out out = [] /\ prev_buffer_state s' = prev_buffer_state s /\
    suspend_bs_notif_barring s' = suspend_bs_notif_barring s \/
  bs_out out = [prev_buffer_state s'] \/
  bs_out out = [] /\ MAX_DL_PDU_LENGTH < pending_bytes (prev_buffer_state s') /\
    MAX_DL_PDU_LENGTH < pending_bytes (prev_buffer_state s) /\ suspend_bs_notif_barring s = false.

Lemma mac_step_env s s' out : same_env s s' -> bs_out out = [] -> mac_step s s' out.
Proof. intros (_ & E1 & E2 & _) E. by left. Qed.

Lemma mac_step_update s s1 force (r : R) s' out out1 :
  same_env s s1 -> bs_out out1 = [] -> update_mac_buffer_state cfg force s1 r = Ok (s', out) ->
  mac_step s s' (out1 ++ out).
Proof.
  intros (_ & E1 & E2 & _) Eo H. apply update_mac_same in H as (_ & _ & H). unfold mac_step. rewrite bs_out_app, Eo.
  destruct H as [[-> _]|(-> & H1 & H2 & H3)]; [right; by left|right; right]. rewrite <- E1, <- E2. by split_and!.
Qed.

Lemma handle_status_same status s (r : R) s' out :
  handle_status_pdu cfg status s r = Ok (s', out) ->
  same_poll s s' /\ pcell_tasks s' = pcell_tasks s /\ mac_step s s' out.
Proof.
  unfold handle_status_pdu. destruct (negb _); [intros H; inv_ok; split_and!; try done; by apply mac_step_env|].
  destruct (_ <? _); [intros H; inv_ok; split_and!; try done; by apply mac_step_env|].
  pose proof (valid_nacks_bs (sp_ack_sn status) (sp_nacks status) s) as Ev.
  destruct (valid_nacks _ _ _ _) as [[] outv]; [|intros H; inv_ok; split_and!; try done; by apply mac_step_env].
  unfold apply_status. set (s0 := if _ <? _ then _ else s). intros H.
  assert (same_env s s0 /\ same_poll s s0) as [He0 Hp0] by (unfold s0; case_if; by split_and!). clearbody s0.
  apply checked_bind_ok in H as ([s1 deliv] & H1 & H). apply process_acks_same in H1 as [He1 Hp1].
  apply checked_bind_ok in H as (s2 & H2 & H). apply clear_same in H2 as [He2 Hp2].
  apply checked_bind_ok in H as ([s3 out3] & H3 & H). pose proof (rebuild_bs _ _ _ _ _ _ H3) as Eo3. apply rebuild_same in H3 as [He3 Hp3].
  apply checked_bind_ok in H as ([s4 out4] & H4 & H). injection H as <- <-.
  assert (same_env s s3 /\ same_poll s s3) as [He Hp].
  { split; (etrans; [eassumption|]; etrans; [eassumption|]; etrans; [eassumption|]; eassumption). }
  pose proof (update_mac_same _ _ _ _ _ H4) as (Hp4 & Et4 & _). split_and!.
  - by etrans.
  - rewrite Et4. by destruct He as [-> _].
  - rewrite app_assoc. eapply mac_step_update; [exact He| |exact H4].
    rewrite bs_out_app, Eo3. unfold delivered_outputs. by destruct deliv as [[] []].
Qed.

Lemma poll_expired_same s (r : R) s' out :
  on_expired_poll_retransmit_timer cfg s r = Ok (s', out) ->
  same_poll s s' /\ pcell_tasks s' = pcell_tasks s /\ mac_step s s' out.
Proof.
  assert (forall s1 : tx_am_state W, same_poll s1 s1 /\ pcell_tasks s1 = pcell_tasks s1 /\ mac_step s1 s1 []) as Hno.
  { intros s1. split_and!; try done. by apply mac_step_env. }
  unfold on_expired_poll_retransmit_timer. destruct (nothing_to_send cfg s); [|intros H; inv_ok; done].
  destruct (_ =? 0); [intros H; inv_ok; done|]. destruct (negb _); [intros H; inv_ok; done|].
  intros H. apply checked_bind_ok in H as (info & _ & H). destruct (rq_try_push _ _) as [pushed q].
  apply checked_bind_ok in H as ([s1 out1] & H1 & H). apply checked_bind_ok in H as ([s2 out2] & H2 & H). injection H as <- <-.
  assert (same_env s s1 /\ same_poll s s1 /\ bs_out out1 = []) as (He1 & Hp1 & Eo1).
  { destruct pushed; [|inv_ok; by split_and!]. pose proof (increment_bs _ _ _ _ H1). by apply increment_same in H1 as [? ?]. }
  pose proof (update_mac_same _ _ _ _ _ H2) as (Hp2 & Et2 & _). split_and!; [by etrans| |by eapply mac_step_update].
  rewrite Et2. by destruct He1 as [-> _].
Qed.

End frames.
