(* ===== verification/RlcTxAmProps.v ===== *)
(** * RLC AM transmitter: invariant of the entity

    The SDUs are numbered 0, 1, 2, ... in the order in which the entity starts to
    send them; the sequence numbers are these counts modulo [2^k].  The invariant
    relates the state to the counts of TX_Next_Ack and TX_Next and to the list of
    the SDUs started; every operation keeps it, cannot fail an assertion, and hands
    out PDUs that carry pieces of the SDUs started. *)
From stdpp Require Import base numbers list.
From Stdlib Require Import ZArith Lia.
From S2P Require Import Prelude.
From S2P Require Import RlcConfig.
From S2P Require Import RlcAmPdu.
From S2P Require Import RlcAmPduProps.
From S2P Require Import SduWindow.
From S2P Require Import RlcSegments.
From S2P Require Import RlcRxAm.
From S2P Require Import RlcRxAmProps.
From S2P Require Import RlcRxAmDelivery.
From S2P Require Import RlcRetxQueue.
From S2P Require Import RlcSduQueue.
From S2P Require Import PdcpSn.
From S2P Require Import RlcTxBase.
From S2P Require Import RlcTxAm.

Set Default Goal Selector "!".
Open Scope Z_scope.
Open Scope ran_scope.

Section tx_am_props.
Context {W : Type -> Type} `{!SduWindow W} `{!SduWindowLaws W} {R : Type} `{!StatusProvider R}.
Variable cfg : rlc_tx_am_config.
Implicit Types s : tx_am_state W.
Implicit Types w : W rlc_tx_am_sdu_info.

Local Abbreviation m := (tx_mod cfg).
Local Abbreviation ws := (tx_window_size cfg).
Local Abbreviation dist := (tx_mod_base cfg).

#[local] Instance tx_modulus : SnModulus m.
Proof. unfold tx_mod. apply _. Qed.

Lemma tx_m_window : m = 2 * ws.
Proof. apply cardinality_window_am. Qed.
Lemma tx_ws_bounds : 2048 <= ws <= 131072.
Proof. unfold tx_window_size. by destruct (tx_sn_size cfg). Qed.

Lemma dist_of_count a k x :
  a <= k < a + m -> x mod m = k mod m -> dist (a mod m) x = k - a.
Proof.
  intros Hk E. unfold tx_mod_base. rewrite mod_base_spec by apply _.
  rewrite Zminus_mod, E, Zmod_mod, <- Zminus_mod. apply Z.mod_small. lia.
Qed.

Lemma dist_at a k : a <= k < a + m -> dist (a mod m) (k mod m) = k - a.
Proof. intros Hk. apply dist_of_count; [done|]. apply Zmod_mod. Qed.

Lemma count_inj a k k' : a <= k < a + m -> a <= k' < a + m -> k mod m = k' mod m -> k = k'.
Proof.
  intros Hk Hk' E. pose proof (dist_at a k Hk) as H1. pose proof (dist_at a k' Hk') as H2. rewrite E in H1. lia.
Qed.

Lemma mod_range k : 0 <= k mod m < m.
Proof. apply Z.mod_pos_bound. pose proof tx_m_window. pose proof tx_ws_bounds. lia. Qed.

Lemma count_succ k : (k mod m + 1) mod m = (k + 1) mod m.
Proof. by rewrite Zplus_mod_idemp_l. Qed.

Lemma count_valid k : k mod m <> INVALID_RLC_SN.
Proof. pose proof (mod_range k). pose proof tx_m_window. pose proof tx_ws_bounds. unfold INVALID_RLC_SN. lia. Qed.

(** ** The invariant *)

(** A retransmission of bytes of an SDU in the window, [a] and [N] being the counts
    of TX_Next_Ack and of the SDUs started. *)
Definition retx_ok (a N : Z) w (retx : rlc_tx_amd_retx) : Prop :=
  exists k info, a <= k < N /\ retx_sn retx = k mod m /\ win_view w (k mod m) = Some info /\
    0 <= retx_so retx /\ 0 < retx_length retx /\ retx_so retx + retx_length retx <= zlen (tx_sdu info).

Definition item_ok (a N : Z) w (item : rlc_retx_queue_item) : Prop :=
  item_invalid item = false /\ retx_ok a N w (item_retx item).

Definition window_ok (a n : Z) (started : list (list Z)) w : Prop :=
  win_wf w /\ win_cap w = ws /\
  (forall k, a <= k < zlen started -> exists info, win_view w (k mod m) = Some info /\
     started !! Z.to_nat k = Some (tx_sdu info) /\
     (k = n -> 0 < next_so info < zlen (tx_sdu info))) /\
  (forall sn info, win_view w sn = Some info -> exists k, a <= k < zlen started /\ sn = k mod m).

(** [a], [n]: the counts of TX_Next_Ack and TX_Next. *)
Record tx_inv (a n : Z) (started : list (list Z)) s : Prop := {
  tinv_counts : 0 <= a <= n /\ n <= zlen started <= n + 1 /\ zlen started <= a + ws;
  tinv_ack : tx_next_ack s = a mod m;
  tinv_next : tx_next s = n mod m;
  tinv_seg : sn_under_segmentation s = if zlen started =? n then INVALID_RLC_SN else n mod m;
  tinv_window : window_ok a n started (tx_window s);
  tinv_started : Forall sdu_ok started;
  tinv_queue : Forall (fun sdu => sdu_ok (sdu_buf sdu)) (sq_queue (sdu_queue s));
  tinv_retx : Forall (item_ok a (zlen started) (tx_window s)) (rq_queue (retx_queue s));
  tinv_capacity : rq_capacity (retx_queue s) = ws;
}.

(** The fields the invariant reads. *)
Definition same_core s s' : Prop :=
  tx_next_ack s' = tx_next_ack s /\ tx_next s' = tx_next s /\
  sn_under_segmentation s' = sn_under_segmentation s /\ tx_window s' = tx_window s /\
  sdu_queue s' = sdu_queue s /\ retx_queue s' = retx_queue s.

Lemma same_core_refl s : same_core s s.
Proof. by split_and!. Qed.

Lemma same_core_trans s1 s2 s3 : same_core s1 s2 -> same_core s2 s3 -> same_core s1 s3.
Proof. unfold same_core. intros. destruct_and!. split_and!; congruence. Qed.

Lemma tx_inv_core a n started s s' : tx_inv a n started s -> same_core s s' -> tx_inv a n started s'.
Proof.
  intros [] (E1 & E2 & E3 & E4 & E5 & E6). by split; rewrite ?E1, ?E2, ?E3, ?E4, ?E5, ?E6.
Qed.

(** What is in the pipeline: the SDUs started and those that wait. *)
Definition pipeline (started : list (list Z)) s : list (list Z) :=
  started ++ (sdu_buf <$> sq_queue (sdu_queue s)).

(** ** Polling and headers *)

Lemma polling_core sn is_retx payload_size s :
  let '(p, s') := get_polling_bit cfg sn is_retx payload_size s in
  (p = 0 \/ p = 1) /\ same_core s s'.
Proof.
  unfold get_polling_bit, include_poll. destruct is_retx; repeat case_if; (split; [tauto|by split_and!]).
Qed.

Ltac destruct_polling p s1 Hp Hc :=
  match goal with |- context [get_polling_bit cfg ?x ?y ?z ?t] =>
    pose proof (polling_core x y z t) as Hp; destruct (get_polling_bit cfg x y z t) as [p s1];
    destruct Hp as [Hp Hc]
  end.

Lemma head_sizes : 0 < head_min_size cfg <= 3 /\ head_max_size cfg = head_min_size cfg + 2.
Proof. unfold head_min_size, head_max_size. by destruct (tx_sn_size cfg). Qed.

(** The header of a data PDU of SDU number [k]. *)
Lemma data_header_wf p si k so :
  p = 0 \/ p = 1 -> 0 <= so < 2 ^ 16 -> si_has_so si = negb (so =? 0) ->
  am_header_wf (data_header cfg p si (k mod m) so).
Proof.
  intros Hp Hso Hsi. unfold data_header. rewrite wrap_small by done. split; cbn -[cardinality]; [lia|apply mod_range|done|done].
Qed.

Lemma data_header_size p si k so :
  hdr_get_packed_size (data_header cfg p si (k mod m) so) =
    if si_has_so si then head_max_size cfg else head_min_size cfg.
Proof. by destruct si. Qed.

Lemma data_header_control p si sn so rest :
  p = 0 \/ p = 1 ->
  is_control_pdu (rlc_am_write_data_pdu_header (data_header cfg p si sn so) ++ rest) = Ok false.
Proof.
  intros Hp. unfold rlc_am_write_data_pdu_header, data_header. cbn [hdr_sn_size hdr_dc hdr_p hdr_si hdr_sn hdr_so].
  assert (0 <= p < 2) as Hp' by lia.
  assert (forall hi, 0 <= hi < 16 ->
    is_control_pdu (dc_to_number dc_data * 128 + p * 64 + si_to_number si * 16 + hi :: rest) = Ok false) as Hc.
  { intros hi Hhi. unfold is_control_pdu. destruct (am_b0_fields dc_data p si hi Hp' Hhi) as (E & _).
    destruct (Z.land _ 1 =? dc_to_number dc_control) eqn:E0; [|done]. zbool. rewrite E0 in E. discriminate E. }
  destruct (tx_sn_size cfg); cbn [app]; rewrite am_b0 by (try lia; bits; dlia); apply Hc; bits; dlia.
Qed.

Lemma zlen_take {A} (l : list A) n : 0 <= n -> zlen (take (Z.to_nat n) l) = Z.min n (zlen l).
Proof. unfold zlen. intros Hn. rewrite length_take. lia. Qed.

(** ** The window *)

(** The number of entries. *)
Lemma window_size_count a n started w :
  window_ok a n started w -> 0 <= a <= zlen started -> zlen started <= a + ws ->
  win_size w = zlen started - a.
Proof.
  intros (Hwf & Hcap & Hview & Honly) Ha Hlen. pose proof tx_m_window. pose proof tx_ws_bounds.
  destruct (win_size_spec w Hwf) as (l & Hnd & Hl & ->).
  assert (l ≡ₚ (fun k => k mod m) <$> seqZ a (zlen started - a)) as HP.
  { apply NoDup_Permutation; [done| |].
    - apply NoDup_fmap_2_strong; [|apply NoDup_seqZ]. intros x y Hx%elem_of_seqZ Hy%elem_of_seqZ E.
      eapply (count_inj a); [lia|lia|done].
    - intros sn. rewrite Hl, list_elem_of_fmap. split.
      + intros [info Hv]. apply Honly in Hv as (k & Hk & ->). exists k. split; [done|]. apply elem_of_seqZ. lia.
      + intros (k & -> & Hk%elem_of_seqZ). destruct (Hview k) as (info & Hv & _); [lia|]. by exists info. }
  unfold zlen at 1. rewrite HP, length_fmap, length_seqZ. lia.
Qed.

Lemma window_not_full a n started w :
  window_ok a n started w -> 0 <= a <= zlen started -> zlen started <= a + ws ->
  win_full w = false -> zlen started < a + ws.
Proof.
  intros Hw Ha Hlen. rewrite win_full_spec, (window_size_count a n started) by done.
  destruct Hw as (_ & -> & _). intros Hf. zbool. lia.
Qed.

(** A new entry evicts none. *)
Lemma window_add a n started w info :
  window_ok a n started w -> zlen started = n -> 0 <= a <= n -> n < a + ws ->
  exists w', add_sn info (n mod m) w = Ok w' /\ win_wf w' /\ win_cap w' = ws /\
    win_view w' (n mod m) = Some info /\ forall sn, sn <> n mod m -> win_view w' sn = win_view w sn.
Proof.
  intros (Hwf & Hcap & Hview & Honly) HN Ha Hn. pose proof tx_m_window as Hmw. pose proof tx_ws_bounds.
  assert (win_view w (n mod m) = None) as Hnone.
  { destruct (win_view w (n mod m)) as [i|] eqn:E; [|done]. apply Honly in E as (k & Hk & E).
    apply (count_inj a) in E; lia. }
  destruct (add_sn_spec w (n mod m) info Hwf Hnone) as (w' & -> & Hwf' & Hcap' & Hv & Hother).
  exists w'. split_and!; [done|done|congruence|done|]. intros sn Hne. rewrite Hother by done.
  case_decide as Hc; [|done]. destruct (win_view w sn) as [i|] eqn:E; [|done].
  apply Honly in E as (k & Hk & ->). exfalso. apply Hne. rewrite Hcap in Hc.
  eapply (mod_base_no_collision m ws (a mod m)); [lia|exists 2; lia|apply mod_range|apply mod_range| | |done].
  - change (dist (a mod m) (k mod m) < ws). rewrite dist_at; lia.
  - change (dist (a mod m) (n mod m) < ws). rewrite dist_at; lia.
Qed.

(** Entries change, the bytes of their SDUs do not. *)
Definition same_sdus w w' : Prop :=
  forall sn, (tx_sdu <$> win_view w' sn) = (tx_sdu <$> win_view w sn).

Lemma retx_ok_same a N w w' retx : same_sdus w w' -> retx_ok a N w retx -> retx_ok a N w' retx.
Proof.
  intros Hs (k & info & Hk & E & Hv & Hrest). specialize (Hs (k mod m)). rewrite Hv in Hs.
  destruct (win_view w' (k mod m)) as [info'|] eqn:Hv'; [|done]. injection Hs as Es.
  exists k, info'. rewrite Es. exact (conj Hk (conj E (conj Hv' Hrest))).
Qed.

Lemma items_ok_same a N w w' l :
  same_sdus w w' -> Forall (item_ok a N w) l -> Forall (item_ok a N w') l.
Proof. intros Hs Hl. eapply Forall_impl; [exact Hl|]. intros item [Hi Hr]. split; [done|by eapply retx_ok_same]. Qed.

Lemma window_write a n started w k info info' :
  window_ok a n started w -> win_view w (k mod m) = Some info -> 0 <= a <= k -> k < a + m ->
  tx_sdu info' = tx_sdu info ->
  (k = n -> 0 < next_so info' < zlen (tx_sdu info')) -> n < a + m -> zlen started <= a + ws ->
  exists w', win_write (k mod m) info' w = Ok w' /\ window_ok a n started w' /\
    same_sdus w w' /\ win_view w' (k mod m) = Some info' /\
    forall sn, sn <> k mod m -> win_view w' sn = win_view w sn.
Proof.
  intros (Hwf & Hcap & Hview & Honly) Hv Hk Hkm Esdu Hnext Hn HN. pose proof tx_m_window as Hmw. pose proof tx_ws_bounds.
  destruct (win_write_spec w (k mod m) info' Hwf) as (w' & -> & Hwf' & Hcap' & Hv' & Hother); [by exists info|].
  assert (same_sdus w w') as Hs.
  { intros sn. destruct (decide (sn = k mod m)) as [->|Hne]; [rewrite Hv, Hv'; cbn; congruence|by rewrite Hother]. }
  exists w'. split; [done|]. split; [|exact (conj Hs (conj Hv' Hother))]. split_and!; [done|congruence| |].
  - intros j Hj. destruct (Hview j Hj) as (ij & Hvj & Hst & Hnj).
    destruct (decide (j = k)) as [->|Hne].
    + exists info'. rewrite Hv in Hvj. injection Hvj as <-. rewrite Esdu, <- Esdu in *. split_and!; [done|congruence|done].
    + exists ij. rewrite Hother; [by split_and!|]. intros E%(count_inj a); lia.
  - intros sn i Hi. destruct (decide (sn = k mod m)) as [->|Hne]; [by eapply Honly|].
    rewrite Hother in Hi by done. by eapply Honly.
Qed.

(** The oldest entry leaves. *)
Lemma window_remove a n started w :
  window_ok a n started w -> 0 <= a < zlen started -> zlen started <= a + ws ->
  exists info w', win_view w (a mod m) = Some info /\ remove_sn (a mod m) w = Ok w' /\
    window_ok (a + 1) n started w'.
Proof.
  intros (Hwf & Hcap & Hview & Honly) Ha HN. pose proof tx_m_window as Hmw. pose proof tx_ws_bounds.
  destruct (Hview a) as (info & Hv & _); [lia|].
  destruct (remove_sn_spec w (a mod m) Hwf) as (w' & -> & Hwf' & Hcap' & Hnone & Hother); [by exists info|].
  exists info, w'. split_and!; [done|done|]. split_and!; [done|congruence| |].
  - intros k Hk. rewrite Hother; [apply Hview; lia|]. intros E%(count_inj a); lia.
  - intros sn i Hi. destruct (decide (sn = a mod m)) as [->|Hne]; [congruence|].
    rewrite Hother in Hi by done. apply Honly in Hi as (k & Hk & ->). exists k. split; [|done].
    destruct (decide (k = a)) as [->|]; [done|lia].
Qed.

(** One SDU more. *)
Lemma window_extend a n n' started w w' info :
  window_ok a n started w -> zlen started = n -> 0 <= a <= n -> n < a + ws ->
  win_wf w' -> win_cap w' = ws -> win_view w' (n mod m) = Some info ->
  (forall sn, sn <> n mod m -> win_view w' sn = win_view w sn) ->
  n <= n' -> (n' = n -> 0 < next_so info < zlen (tx_sdu info)) ->
  window_ok a n' (started ++ [tx_sdu info]) w'.
Proof.
  intros (Hwf & Hcap & Hview & Honly) HN Ha Hn Hwf' Hcap' Hv Hother Hn' Hnext.
  pose proof tx_m_window as Hmw. pose proof tx_ws_bounds.
  assert (zlen (started ++ [tx_sdu info]) = n + 1) as HN' by (rewrite zlen_app, HN; done).
  split_and!; [done|done| |].
  - intros k Hk. rewrite HN' in Hk. destruct (decide (k = n)) as [->|Hne].
    + exists info. split_and!; [done| |].
      * rewrite lookup_app_r by (unfold zlen in HN; lia). replace (Z.to_nat n - length started)%nat with 0%nat by (unfold zlen in HN; lia). done.
      * intros ->. by apply Hnext.
    + destruct (Hview k) as (i & Hi & Hst & Hin); [lia|]. exists i. split_and!.
      * rewrite Hother; [done|]. intros E%(count_inj a); lia.
      * by apply lookup_app_l_Some.
      * intros ->. lia.
  - intros sn i Hi. destruct (decide (sn = n mod m)) as [->|Hne]; [exists n; split; [lia|done]|].
    rewrite Hother in Hi by done. apply Honly in Hi as (k & Hk & ->). exists k. split; [lia|done].
Qed.

Lemma items_ok_extend a n w w' l :
  (forall sn, sn <> n mod m -> win_view w' sn = win_view w sn) -> 0 <= a <= n -> n < a + ws ->
  Forall (item_ok a n w) l -> Forall (item_ok a (n + 1) w') l.
Proof.
  intros Hother Ha Hn Hl. pose proof tx_m_window as Hmw. pose proof tx_ws_bounds.
  eapply Forall_impl; [exact Hl|]. intros item (Hi & k & info & Hk & E & Hv & Hrest).
  split; [done|]. exists k, info. split; [lia|]. split; [done|]. split; [|done].
  rewrite Hother; [done|]. intros Ek%(count_inj a); lia.
Qed.

(** ** The pipeline *)

(** What a reading of the queue does to the pipeline. *)
Lemma pipeline_read started s sdu q :
  Forall (fun sdu => sdu_ok (sdu_buf sdu)) (sq_queue (sdu_queue s)) ->
  sq_read (sdu_queue s) = (sdu, q) ->
  Forall (fun sdu => sdu_ok (sdu_buf sdu)) (sq_queue q) /\
  match sdu with
  | Some sdu => sdu_ok (sdu_buf sdu) /\
      sublist ((started ++ [sdu_buf sdu]) ++ (sdu_buf <$> sq_queue q)) (pipeline started s)
  | None => sublist (started ++ (sdu_buf <$> sq_queue q)) (pipeline started s)
  end.
Proof.
  intros Hall Hread. pose proof (sq_read_queue (sdu_queue s)) as Hq. rewrite Hread in Hq. unfold pipeline.
  destruct sdu as [sdu|].
  - destruct Hq as [pre Eq]. rewrite Eq in *. apply Forall_app in Hall as [_ Hall]. apply Forall_cons in Hall as [Hsdu Hall].
    split; [done|]. split; [done|]. rewrite <- app_assoc. apply sublist_app; [done|].
    rewrite fmap_app, fmap_cons. apply (sublist_inserts_l (sdu_buf <$> pre)). done.
  - rewrite Hq. split; [constructor|]. cbn. apply sublist_app; [done|]. apply sublist_nil_l.
Qed.

(** ** Entries of the window *)

(** What the window says of SDU number [k]. *)
Lemma window_entry a n started w k info :
  window_ok a n started w -> 0 <= a <= k -> k < zlen started -> zlen started <= a + ws ->
  win_view w (k mod m) = Some info -> Forall sdu_ok started ->
  started !! Z.to_nat k = Some (tx_sdu info) /\ sdu_ok (tx_sdu info) /\
  (k = n -> 0 < next_so info < zlen (tx_sdu info)).
Proof.
  intros (_ & _ & Hview & _) Ha Hk HN Hv Hok. destruct (Hview k) as (i & Hi & Hst & Hnext); [lia|].
  rewrite Hv in Hi. injection Hi as <-. split; [done|]. split; [|done]. by eapply Forall_lookup_1.
Qed.

Lemma window_entry_exists a n started w k :
  window_ok a n started w -> a <= k < zlen started -> exists info, win_view w (k mod m) = Some info.
Proof. intros (_ & _ & Hview & _) Hk. destruct (Hview k Hk) as (i & Hi & _). by exists i. Qed.

(** The last segment ends the segmentation. *)
Lemma window_next a n n' started w :
  window_ok a n started w -> zlen started <= n' -> window_ok a n' started w.
Proof.
  intros (Hwf & Hcap & Hview & Honly) Hn. split_and!; try done.
  intros k Hk. destruct (Hview k Hk) as (i & Hi & Hst & _). exists i. split_and!; [done|done|lia].
Qed.

(** ** Retransmissions *)

Lemma drop_invalid_valid a N w l : Forall (item_ok a N w) l -> drop_invalid l = l.
Proof. destruct 1 as [|item l [Hi _] _]; [done|]. cbn. by rewrite Hi. Qed.

Lemma rq_pop_capacity q : rq_capacity (rq_pop q) = rq_capacity q.
Proof. unfold rq_pop. by destruct (rq_queue q). Qed.

Lemma rq_pop_items a N w q :
  Forall (item_ok a N w) (rq_queue q) -> rq_queue (rq_pop q) = tail (rq_queue q).
Proof.
  unfold rq_pop. destruct (rq_queue q) as [|item l] eqn:E; [by rewrite E|]. intros [_ Hl]%Forall_cons. cbn.
  by eapply drop_invalid_valid.
Qed.

Lemma item_present a N w item : item_ok a N w item -> has_sn w (retx_sn (item_retx item)) = true.
Proof. intros (_ & k & info & _ & -> & Hv & _). rewrite has_sn_view. by rewrite Hv. Qed.

(** Nothing is dropped: the window holds the number of every element. *)
Lemma drop_absent_none a N w q fuel :
  Forall (item_ok a N w) (rq_queue q) -> drop_absent_retx (S fuel) w q = Ok q.
Proof.
  intros Hq. cbn [drop_absent_retx]. unfold rq_empty, rq_front. destruct (rq_queue q) as [|item l]; [done|].
  apply Forall_cons in Hq as [Hi _]. pose proof (item_present _ _ _ _ Hi) as Hp. destruct Hi as [Hi _].
  rewrite Hi. cbn. by rewrite Hp.
Qed.

Lemma update_retx_queue_spec a n started s item l complete len count :
  tx_inv a n started s -> rq_queue (retx_queue s) = item :: l ->
  0 < len -> (complete = false -> len < retx_length (item_retx item)) ->
  exists s', update_retx_queue cfg complete len count s = Ok s' /\ tx_inv a n started s' /\
    tx_window s' = tx_window s /\ sdu_queue s' = sdu_queue s.
Proof.
  intros Hs Hq Hlen Hrem. pose proof (tinv_retx _ _ _ _ Hs) as Hitems.
  pose proof (rq_pop_items _ _ _ _ Hitems) as Hpop. rewrite Hq in Hpop, Hitems.
  apply Forall_cons in Hitems as [[Hval Hok] Hl].
  unfold update_retx_queue. destruct complete.
  - eexists. split; [done|]. split; [|by case_if].
    destruct (count =? txam_max_retx_thresh cfg); destruct Hs; split; try done; cbn; by rewrite ?Hpop, ?rq_pop_capacity.
  - specialize (Hrem eq_refl). unfold rq_front, rq_replace_front. rewrite Hq, Hval. cbn [negb checked_bind].
    eexists. split; [done|]. split; [|done]. destruct Hs as [Hc Ha Hn Hseg Hw Hst Hsdus Hr]. split; try done. cbn.
    apply Forall_cons. split; [|done]. split; [done|]. cbn.
    destruct Hok as (k & info & Hk & Esn & Hv & Hso & Hlen' & Hend). exists k, info. unfold retx_remainder. cbn -[wrap].
    assert (sdu_ok (tx_sdu info)) as [Hsz _].
    { eapply (window_entry a n started (tx_window s) k info); [done|lia|lia|lia|done|done]. }
    rewrite !wrap_small by (unfold in_range; lia). split_and!; first [done|lia].
Qed.

(** ** Status PDUs *)

(** In front of data goes the status PDU of the receiving entity, and the state of
    the transmitter does not change. *)
Lemma pull_status_spec grant_len deferred s (r : R) :
  max_retx_reached s = false -> provider_required r = true ->
  exists pdu r' out, pull_pdu cfg grant_len deferred s r = Ok (pdu, s, r', out) /\
    (pdu = [] \/ exists status, pdu = pack status /\
       (status = (provider_get deferred r).1 /\ sp_packed_size status <= grant_len \/
        trim grant_len (provider_get deferred r).1 = (true, status))).
Proof.
  intros Hmax Hr. unfold pull_pdu. rewrite Hmax, Hr. unfold pull_status_pdu.
  case_if; [exists [], r, []; split; [done|by left]|].
  destruct (provider_get deferred r) as [status r1]. cbn [fst].
  destruct (grant_len <? sp_packed_size status) eqn:Esz; zbool.
  - destruct (trim grant_len status) as [[] st'] eqn:Et; cbn [negb].
    + case_if; [by eexists [], _, []; split; [|left]|]. eexists _, _, _. split; [done|]. right. exists st'. split; [done|by right].
    + eexists [], _, []. split; [done|by left].
  - cbn [negb]. case_if; [by eexists [], _, []; split; [|left]|]. eexists _, _, _. split; [done|].
    right. exists status. split; [done|]. by left.
Qed.

(** ** Buffer state *)

Lemma pipeline_front started s :
  sublist (started ++ (sdu_buf <$> sq_queue (sq_front (sdu_queue s)).2)) (pipeline started s).
Proof.
  unfold pipeline. destruct (sq_front_queue (sdu_queue s)) as [pre E]. apply sublist_app; [done|].
  apply (f_equal (fmap sdu_buf)) in E. rewrite E, fmap_app. by apply sublist_inserts_l.
Qed.

(** The entity stays as it is, except that discarded SDUs leave the front of the
    queue. *)
Definition tx_stays (a n : Z) (started : list (list Z)) s s' : Prop :=
  tx_inv a n started s' /\ sublist (pipeline started s') (pipeline started s).

Lemma get_buffer_state_spec a n started s (r : R) :
  tx_inv a n started s ->
  exists bs s', get_buffer_state cfg s r = Ok (bs, s') /\ tx_stays a n started s s' /\
    pcell_tasks s' = pcell_tasks s /\ retx_queue s' = retx_queue s /\ tx_window s' = tx_window s.
Proof.
  intros Hs. unfold get_buffer_state. destruct (sq_get_state (sdu_queue s)) as [n_sdus n_bytes].
  assert (exists x, (if negb (sn_under_segmentation s =? INVALID_RLC_SN) then
       if has_sn (tx_window s) (sn_under_segmentation s) then
         let? info := win_at (tx_window s) (sn_under_segmentation s) in
         Ok (u32 (zlen (tx_sdu info) - next_so info + head_max_size cfg), Some (tx_time_of_arrival info), s)
       else Ok (0, None, s)
     else
       let '(next_sdu, q) := sq_front (sdu_queue s) in
       Ok (0, sdu_time_of_arrival <$> next_sdu, s <| sdu_queue := q |>)) = Ok x /\
     tx_stays a n started s x.2 /\ retx_queue x.2 = retx_queue s /\ tx_window x.2 = tx_window s /\
     pcell_tasks x.2 = pcell_tasks s) as ([[seg toa] s1] & -> & [Hs1 Hp1] & Er & Ew & Et).
  { destruct (negb _).
    - rewrite has_sn_view. destruct (win_view (tx_window s) _) as [info|] eqn:Ev.
      + rewrite (win_at_view _ _ _ Ev). eexists. split; [done|]. by split_and!.
      + eexists. split; [done|]. by split_and!.
    - pose proof (pipeline_front started s) as Hp. destruct (sq_front_queue (sdu_queue s)) as [pre E].
      destruct (sq_front (sdu_queue s)) as [next_sdu q]. eexists. split; [done|]. split_and!; try done.
      destruct Hs as [H1 H2 H3 H4 H5 H6 H7 H8]. split; try done. cbn in *. rewrite E in H7. by apply Forall_app in H7 as [_ H7]. }
  cbn [checked_bind]. cbn [snd] in *.
  pose proof (tinv_retx _ _ _ _ Hs1) as Hitems. unfold retx_fuel. rewrite (drop_absent_none _ _ _ _ _ Hitems).
  cbn [checked_bind].
  assert (exists toa', (if rq_empty (retx_queue s1) then Ok toa else
     let? retx := rq_front (retx_queue s1) in
     let? info := win_at (tx_window s1) (retx_sn retx) in
     Ok (Some (tx_time_of_arrival info))) = Ok toa') as [toa' Etoa].
  { unfold rq_empty, rq_front. destruct (rq_queue (retx_queue s1)) as [|item l]; [by eexists|].
    apply Forall_cons in Hitems as [[Hval (k & info & _ & Esn & Hv & _)] _]. rewrite Hval. cbn [negb checked_bind].
    rewrite Esn, (win_at_view _ _ _ Hv). by eexists. }
  change (tx_window (s1 <| retx_queue := retx_queue s1 |>)) with (tx_window s1). rewrite Etoa. cbn [checked_bind].
  eexists _, _. split; [done|]. split; [split|].
  - eapply tx_inv_core; [exact Hs1|]. case_if; by split_and!.
  - unfold pipeline in *. by case_if.
  - by case_if; split_and!.
Qed.

Lemma update_mac_spec a n started s (r : R) force :
  tx_inv a n started s ->
  exists s' out, update_mac_buffer_state cfg force s r = Ok (s', out) /\ tx_stays a n started s s' /\
    pcell_tasks s' = pcell_tasks s /\ retx_queue s' = retx_queue s /\ tx_window s' = tx_window s.
Proof.
  intros Hs. unfold update_mac_buffer_state. set (s0 := s <| pending_buffer_state := false |>).
  assert (tx_inv a n started s0) as Hs0 by (eapply tx_inv_core; [exact Hs|by split_and!]).
  destruct (get_buffer_state_spec a n started s0 r Hs0) as (bs & s1 & -> & [Hs1 Hp1] & Et & Er & Ew). cbn [checked_bind].
  destruct (_ || _); (eexists _, _; split; [done|]; split; [split|]; [eapply tx_inv_core; [exact Hs1|by split_and!]|done|by split_and!]).
Qed.

(** ** NACKs *)

(** What an unpacked status PDU holds. *)
Definition status_in_ok (status : rlc_am_status_pdu) : Prop :=
  0 <= sp_ack_sn status < m /\ Forall (nack_wf (tx_sn_size cfg)) (sp_nacks status).

(** The condition on the peer: it acknowledges beyond TX_Next only when it reports
    what it misses of the SDU under segmentation. *)
Definition peer_status_ok s (status : rlc_am_status_pdu) : Prop :=
  sp_ack_sn status = (tx_next s + 1) mod m ->
  sn_under_segmentation s = tx_next s /\ sp_nacks status <> [].

(** The offsets of a NACK after the repairs are bytes of the SDU. *)
Lemma nack_bytes under info nack nack' :
  sdu_ok (tx_sdu info) -> is_u16 (so_start nack) -> is_u16 (so_end nack) ->
  nack_offsets under info nack = Some nack' ->
  let '(nack'', _) := repair_offsets (u32 (zlen (tx_sdu info))) nack' in
  nack_sn nack'' = nack_sn nack /\
  0 <= so_start nack'' <= so_end nack'' /\ so_end nack'' < zlen (tx_sdu info).
Proof.
  intros [Hlen _] Hst Hend E. unfold in_range in *.
  assert (u32 (zlen (tx_sdu info)) = zlen (tx_sdu info)) as E32 by (apply wrap_small; unfold in_range; lia).
  assert (u16 (zlen (tx_sdu info) - 1) = zlen (tx_sdu info) - 1) as E16 by (apply wrap_small; unfold in_range; lia).
  assert (nack_sn nack' = nack_sn nack /\ 0 <= so_start nack' < 2 ^ 16 /\ 0 <= so_end nack' < 2 ^ 16) as (Esn & Hs' & He').
  { revert E. unfold nack_offsets. rewrite E32, E16.
    set (nk := if negb (has_so nack) then _ else nack).
    assert (nack_sn nk = nack_sn nack /\ 0 <= so_start nk < 2 ^ 16 /\ 0 <= so_end nk < 2 ^ 16) as (H1 & H2 & H3).
    { unfold nk. destruct (negb (has_so nack)); cbn; lia. }
    repeat case_if; intros [= <-]; cbn; try (split_and!; first [done|lia]).
    pose proof (wrap_range 16 (next_so info - 1) ltac:(lia)) as Hw. unfold in_range in Hw. split_and!; first [done|lia]. }
  unfold repair_offsets. rewrite E32, E16. rewrite <- Esn.
  repeat case_if; cbn in *; split_and!; first [done|lia].
Qed.

Lemma handle_nack_spec a n started s nack :
  tx_inv a n started s -> nack_wf (tx_sn_size cfg) nack ->
  (nack_sn nack = n mod m -> zlen started = n + 1) ->
  exists b s' out, handle_nack cfg nack s = Ok (b, s', out) /\ tx_inv a n started s' /\
    tx_window s' = tx_window s /\ sdu_queue s' = sdu_queue s /\ pcell_tasks s' = pcell_tasks s /\
    (b = true -> exists k, a <= k < zlen started /\ nack_sn nack = k mod m).
Proof.
  intros Hs Hn Hlast. unfold handle_nack.
  assert (forall (b : bool), b = false -> exists (b0 : bool) s' out, Ok (b, s, [] : list tx_am_output) = Ok (b0, s', out) /\
    tx_inv a n started s' /\ tx_window s' = tx_window s /\ sdu_queue s' = sdu_queue s /\ pcell_tasks s' = pcell_tasks s /\
    (b0 = true -> exists k, a <= k < zlen started /\ nack_sn nack = k mod m)) as Hno.
  { intros ? ->. exists false, s, []. by split_and!. }
  case_if; [by apply Hno|]. rewrite (tinv_ack _ _ _ _ Hs), (tinv_next _ _ _ _ Hs).
  pose proof (tinv_counts _ _ _ _ Hs) as (Ha & Hnn & HN). pose proof tx_m_window as Hmw. pose proof tx_ws_bounds.
  rewrite (dist_at a a), (dist_at a n), Z.sub_diag by lia.
  set (d := dist (a mod m) (nack_sn nack)). pose proof (mod_base_range m (a mod m) (nack_sn nack)) as Hd. change (0 <= d < m) in Hd.
  rewrite (proj2 (Z.leb_le 0 d)) by apply Hd. cbn [andb]. case_if; [by apply Hno|].
  set (k := a + d). assert (nack_sn nack = k mod m) as Esn.
  { rewrite (mod_base_inv m (a mod m) (nack_sn nack)) by apply Hn. fold d. unfold k. by rewrite Zplus_mod_idemp_l. }
  assert (k < zlen started) as Hk.
  { destruct (decide (k = n)) as [Ek|]; [|lia]. rewrite Hlast by (rewrite Esn; congruence). lia. }
  destruct (window_entry_exists a n started (tx_window s) k) as [info Hv]; [apply Hs|lia|].
  destruct (window_entry a n started (tx_window s) k info) as (_ & Hsdu & _); try apply Hs; try done; try lia.
  assert (win_at (tx_window s) (nack_sn nack) = Ok info) as -> by (rewrite Esn; by apply win_at_view).
  cbn [checked_bind]. destruct (nack_offsets _ info nack) as [nack'|] eqn:Eo; [|by apply Hno].
  pose proof (nack_bytes _ _ _ _ Hsdu (nwf_start _ _ Hn) (nwf_end _ _ Hn) Eo) as Hb.
  destruct (repair_offsets _ nack') as [nk out]. destruct Hb as (Enk & Hb1 & Hb2).
  unfold rq_try_push. case_if.
  - exists false, (s <| retx_queue := retx_queue s |>), out. split; [done|]. split_and!; try done.
    eapply tx_inv_core; [exact Hs|by split_and!].
  - eexists true, _, _. split; [done|]. split_and!; try done; [|intros _; exists k; split; [lia|done]].
    destruct Hs as [H1 H2 H3 H4 H5 H6 H7 H8]. split; try done. cbn. apply Forall_app. split; [done|].
    apply Forall_singleton. split; [done|]. exists k, info. cbn. destruct Hsdu as [Hsz _].
    rewrite wrap_small by (unfold in_range; lia). split_and!; first [done|lia|congruence].
Qed.

(** ** Data PDUs *)

Section sending.
(** The receiving entity of the peer has the same length of sequence numbers. *)
Variable rcfg : rlc_rx_am_config.
Hypothesis Hpeer : sn_size rcfg = tx_sn_size cfg.

(** A PDU that carries SDU number [k] of [started], or a piece of it, in a form that
    the receiving entity takes. *)
Definition sent_pdu (started : list (list Z)) (k : Z) (pdu : list Z) : Prop :=
  pdu_ok rcfg pdu /\ is_control_pdu pdu = Ok false /\
  carries rcfg (fun k => default [] (started !! Z.to_nat k)) k pdu.

(** The effect of an operation of the transmitting side: the counts advance, SDUs
    are started in the order of the queue, and [pdu] is empty or carries one. *)
Definition tx_effect (a : Z) (started : list (list Z)) s (pdu : list Z) s' : Prop :=
  exists n' started', tx_inv a n' started' s' /\ started `prefix_of` started' /\
    sublist (pipeline started' s') (pipeline started s) /\
    (pdu = [] \/ exists k, a <= k < zlen started' /\ sent_pdu started' k pdu).

Lemma tx_effect_core a n started s s' :
  tx_inv a n started s -> same_core s s' -> tx_effect a started s [] s'.
Proof.
  intros Hs Hc. exists n, started. split; [by eapply tx_inv_core|]. split; [done|]. split; [|by left].
  unfold pipeline. by destruct Hc as (_ & _ & _ & _ & -> & _).
Qed.

(** A piece of SDU number [k]: its header and its bytes. *)
Lemma piece_sent started k sdu p si so len :
  started !! Z.to_nat k = Some sdu -> sdu_ok sdu -> p = 0 \/ p = 1 ->
  0 <= so -> 0 < len -> so + len <= zlen sdu ->
  si = (if so =? 0 then if so + len =? zlen sdu then full_sdu else first_segment
        else if so + len =? zlen sdu then last_segment else middle_segment) ->
  let header := rlc_am_write_data_pdu_header (data_header cfg p si (k mod m) so) in
  zlen header = (if so =? 0 then head_min_size cfg else head_max_size cfg) /\
  sent_pdu started k (header ++ take (Z.to_nat len) (drop (Z.to_nat so) sdu)).
Proof.
  intros Hk [Hsdu Hb] Hp Hso Hlen Hend Hsi header.
  assert (am_header_wf (data_header cfg p si (k mod m) so)) as Hwf.
  { apply data_header_wf; [done|lia|]. rewrite Hsi. by destruct (so =? 0), (so + len =? zlen sdu). }
  assert ((if si_has_so si then head_max_size cfg else head_min_size cfg) =
    (if so =? 0 then head_min_size cfg else head_max_size cfg)) as Esz by (rewrite Hsi; by destruct (so =? 0), (so + len =? zlen sdu)).
  destruct (am_header_bytes _ Hwf) as [Hz Hbytes]. fold header in Hz, Hbytes. rewrite data_header_size, Esz in Hz.
  split; [done|]. set (payload := take (Z.to_nat len) (drop (Z.to_nat so) sdu)).
  assert (zlen payload = len) as Hpl by (apply zlen_view; lia).
  assert (payload <> []) as Hne by (intros E; rewrite E in Hpl; unfold zlen in Hpl; cbn in Hpl; lia).
  destruct (am_header_read_back _ payload Hwf Hne) as (Hread & _ & _). fold header in Hread.
  change (hdr_sn_size (data_header cfg p si (k mod m) so)) with (tx_sn_size cfg) in Hread. rewrite <- Hpeer in Hread.
  assert (hdr_so (data_header cfg p si (k mod m) so) = so) as Eso.
  { unfold data_header; cbn -[wrap]. apply wrap_small. unfold in_range. lia. }
  assert (hdr_get_packed_size (data_header cfg p si (k mod m) so) = zlen header) as Ehd by by rewrite data_header_size, Esz, Hz.
  split_and!.
  - split.
    + apply Forall_app. split; [done|]. unfold payload. by apply Forall_take, Forall_drop.
    + intros header' Hread'. rewrite Hread in Hread'. injection Hread' as <-. rewrite Eso, Ehd, zlen_app. lia.
  - by apply data_header_control.
  - eexists. split; [exact Hread|]. split.
    { change (hdr_sn (data_header cfg p si (k mod m) so)) with (k mod m). unfold mod_nr. by rewrite Hpeer. }
    rewrite Ehd, (drop_app_length' header payload) by (unfold zlen; lia). cbn zeta.
    rewrite Hk. change (default [] (Some sdu)) with sdu.
    change (hdr_si (data_header cfg p si (k mod m) so)) with si. case_bool_decide as Esi.
    + rewrite Hsi in Esi. unfold payload. revert Esi. repeat case_if; intros Esi; try discriminate Esi.
      subst so. rewrite drop_0. apply take_ge. unfold zlen in *. lia.
    + split; [lia|]. unfold header_segment. rewrite Eso. split; [|split]; cbn [seg_so seg_payload seg_si].
      * exists (drop (Z.to_nat len) (drop (Z.to_nat so) sdu)). unfold payload. by rewrite take_drop.
      * unfold seg_end, seg_len; cbn. rewrite Hpl. done.
      * unfold seg_end, seg_len; cbn. rewrite Hpl. change (hdr_si (data_header cfg p si (k mod m) so)) with si.
        rewrite Hsi in Esi |- *. revert Esi. repeat case_if; intros Esi; try done; split; try done; try lia.
Qed.

Lemma first_segment_spec a n started w s grant_len info :
  window_ok a n started w -> zlen started = n -> 0 <= a <= n -> n < a + ws ->
  win_wf (tx_window s) -> win_cap (tx_window s) = ws -> win_view (tx_window s) (n mod m) = Some info ->
  (forall sn, sn <> n mod m -> win_view (tx_window s) sn = win_view w sn) ->
  tx_next s = n mod m -> next_so info = 0 -> sdu_ok (tx_sdu info) ->
  head_min_size cfg < grant_len < zlen (tx_sdu info) + head_min_size cfg ->
  exists pdu s1 s' out, build_first_sdu_segment cfg grant_len (n mod m) info s = Ok (pdu, s', out) /\
    same_core (s <| sn_under_segmentation := n mod m |>) s1 /\
    s' = s1 <| tx_window := tx_window s' |> /\
    window_ok a n (started ++ [tx_sdu info]) (tx_window s') /\
    (forall sn, sn <> n mod m -> win_view (tx_window s') sn = win_view w sn) /\
    sent_pdu (started ++ [tx_sdu info]) n pdu /\ zlen pdu <= grant_len.
Proof.
  intros Hw HN Ha Hn Hwf Hcap Hv Hother Enext Eso Hok Hgrant. pose proof head_sizes.
  unfold build_first_sdu_segment. case_if; [lia|]. case_if; [lia|]. destruct Hok as [Hlen Hb].
  rewrite wrap_small by (unfold in_range; lia). rewrite Enext.
  destruct_polling p s1 Hp Hc.
  assert (tx_next s1 = n mod m) as E1 by (destruct Hc as (_ & -> & _); exact Enext). rewrite E1.
  assert (tx_window s1 = tx_window s) as Ew by (destruct Hc as (_ & _ & _ & -> & _); done).
  assert ((started ++ [tx_sdu info]) !! Z.to_nat n = Some (tx_sdu info)) as Hst.
  { rewrite lookup_app_r by (unfold zlen in HN; lia). replace (Z.to_nat n - length started)%nat with 0%nat by (unfold zlen in HN; lia). done. }
  destruct (piece_sent (started ++ [tx_sdu info]) n (tx_sdu info) p first_segment 0 (grant_len - head_min_size cfg))
    as [Hhd Hsent]; try done; [lia|lia| |].
  { cbn. rewrite (proj2 (Z.eqb_neq _ _)) by lia. done. }
  rewrite Eso. change (hdr_so (data_header cfg p first_segment (n mod m) 0)) with 0.
  rewrite sdu_view_ok by lia. cbn [checked_bind].
  set (header := rlc_am_write_data_pdu_header (data_header cfg p first_segment (n mod m) 0)) in *.
  set (payload := take _ (drop _ (tx_sdu info))) in *. change (zlen header = head_min_size cfg) in Hhd.
  assert (zlen payload = grant_len - head_min_size cfg) as Hpl by (apply zlen_view; lia).
  rewrite write_pdu_fits by lia. rewrite zlen_app, Hpl.
  rewrite (proj2 (Z.eqb_neq _ 0)), (proj2 (Z.eqb_eq _ _)) by lia. cbn [orb negb].
  destruct (win_write_spec (tx_window s1) (n mod m) (info <| next_so ::= fun n => u32 (n + (grant_len - head_min_size cfg)) |>))
    as (w' & -> & Hwf' & Hcap' & Hv' & Hother'); [by rewrite Ew|rewrite Ew; by exists info|]. cbn [checked_bind].
  rewrite Ew in *.
  exists (header ++ payload), s1, (s1 <| tx_window := w' |>). eexists. split; [done|]. split; [done|]. split; [done|].
  assert (forall sn, sn <> n mod m -> win_view w' sn = win_view w sn) as Hothers.
  { intros sn Hne. by rewrite Hother', Hother. }
  split_and!; [|done|done|rewrite zlen_app, Hhd; lia].
  match type of Hv' with _ = Some ?i => change (tx_sdu info) with (tx_sdu i) end.
  eapply window_extend; try done; [by etrans|]. intros _. cbn -[wrap]. rewrite Eso, wrap_small by (unfold in_range; lia). lia.
Qed.

Lemma build_new_pdu_spec a started s grant_len :
  tx_inv a (zlen started) started s -> is_u32 grant_len ->
  exists pdu s' out, build_new_pdu cfg grant_len s = Ok (pdu, s', out) /\
    tx_effect a started s pdu s' /\ zlen pdu <= grant_len.
Proof.
  intros Hs Hg. pose proof head_sizes. pose proof (tx_effect_core _ _ _ _ _ Hs (same_core_refl s)) as Hsame.
  unfold build_new_pdu. case_if; [exists [], s, []; split_and!; [done|done|apply Hg]|].
  destruct (is_tx_window_full cfg s) eqn:Ef; [exists [], s, []; split_and!; [done|done|apply Hg]|].
  destruct (sq_read (sdu_queue s)) as [sdu q] eqn:Er.
  destruct (pipeline_read started s sdu q) as [Hq Hpipe]; [apply Hs|done|].
  pose proof (tinv_counts _ _ _ _ Hs) as (Ha & Hn & HN).
  destruct sdu as [sdu|].
  2:{ eexists [], _, []. split; [done|]. split; [|apply Hg]. exists (zlen started), started.
      split; [destruct Hs; by split|]. split; [done|]. split; [done|by left]. }
  destruct Hpipe as [Hsdu Hpipe].
  assert (zlen started < a + ws) as Hroom.
  { eapply window_not_full; [apply Hs|lia|lia|]. unfold is_tx_window_full in Ef. by apply orb_false_iff in Ef as [? _]. }
  change (tx_next (s <| sdu_queue := q |>)) with (tx_next s). change (tx_window (s <| sdu_queue := q |>)) with (tx_window s).
  rewrite (tinv_next _ _ _ _ Hs).
  destruct (window_add a _ started (tx_window s) (new_sdu_info sdu) (tinv_window _ _ _ _ Hs) eq_refl)
    as (w1 & -> & Hwf & Hcap & Hv & Hother); [lia|lia|]. cbn [checked_bind].
  set (s1 := s <| sdu_queue := q |> <| tx_window := w1 |>).
  assert (tx_next s1 = zlen started mod m) as E1 by apply Hs.
  change (tx_sdu (new_sdu_info sdu)) with (sdu_buf sdu).
  pose proof (tinv_seg _ _ _ _ Hs) as Eseg. rewrite Z.eqb_refl in Eseg.
  case_if.
  - destruct (first_segment_spec a (zlen started) started (tx_window s) s1 grant_len (new_sdu_info sdu))
      as (pdu & s2 & s' & out & E & Hc & Es' & Hw' & Hothers & Hsent & Hlen); try done; try lia.
    { apply Hs. }
    rewrite E1, E. cbn [checked_bind]. eexists pdu, s', _. split; [done|]. split; [|done].
    destruct Hc as (C1 & C2 & C3 & C4 & C5 & C6). exists (zlen started), (started ++ [sdu_buf sdu]).
    assert (zlen (started ++ [sdu_buf sdu]) = zlen started + 1) as HN' by by rewrite zlen_app.
    split; [|split; [by eexists|split]].
    + split; rewrite ?HN'; [lia| | | |done| | | |].
      * rewrite Es'. cbn. rewrite C1. apply Hs.
      * rewrite Es'. cbn. by rewrite C2.
      * rewrite (proj2 (Z.eqb_neq _ _)) by lia. rewrite Es'. cbn. by rewrite C3.
      * apply Forall_app. split; [apply Hs|]. by apply Forall_singleton.
      * rewrite Es'. cbn. by rewrite C5.
      * rewrite Es' at 2. cbn. rewrite C6. eapply items_ok_extend; [exact Hothers|lia|lia|]. apply Hs.
      * rewrite Es'. cbn. rewrite C6. apply Hs.
    + unfold pipeline at 1. rewrite Es'. cbn. by rewrite C5.
    + right. exists (zlen started). split; [lia|done].
  - destruct_polling p s2 Hp Hc. destruct Hc as (C1 & C2 & C3 & C4 & C5 & C6).
    destruct Hsdu as [Hlen Hb].
    assert ((started ++ [sdu_buf sdu]) !! Z.to_nat (zlen started) = Some (sdu_buf sdu)) as Hst.
    { unfold zlen. rewrite Nat2Z.id. by apply list_lookup_middle. }
    destruct (piece_sent (started ++ [sdu_buf sdu]) (zlen started) (sdu_buf sdu) p full_sdu 0 (zlen (sdu_buf sdu)))
      as [Hhd Hsent]; try done; try lia.
    { cbn. by rewrite Z.eqb_refl. }
    rewrite C2, E1.
    set (header := rlc_am_write_data_pdu_header (data_header cfg p full_sdu (zlen started mod m) 0)) in *.
    change (zlen header = head_min_size cfg) in Hhd.
    rewrite drop_0 in Hsent. rewrite take_ge in Hsent by (unfold zlen; lia).
    rewrite write_pdu_fits by lia. rewrite zlen_app.
    rewrite (proj2 (Z.eqb_neq _ 0)) by lia.
    eexists (header ++ sdu_buf sdu), _, _. split; [done|]. split; [|rewrite zlen_app; lia].
    exists (zlen started + 1), (started ++ [sdu_buf sdu]).
    assert (zlen (started ++ [sdu_buf sdu]) = zlen started + 1) as HN' by by rewrite zlen_app.
    split; [|split; [by eexists|split]].
    + split; rewrite ?HN'; cbn; rewrite ?C1, ?C2, ?C3, ?C4, ?C5, ?C6; cbn; [lia| | | | | |done| |apply Hs].
      * apply Hs.
      * apply count_succ.
      * by rewrite Z.eqb_refl.
      * eapply (window_extend a _ (zlen started + 1) started (tx_window s) w1 (new_sdu_info sdu)); try done; try lia; apply Hs.
      * apply Forall_app. split; [apply Hs|]. by apply Forall_singleton.
      * eapply items_ok_extend; [exact Hother|lia|lia|]. apply Hs.
    + unfold pipeline at 1. cbn. by rewrite C5.
    + right. exists (zlen started). split; [lia|done].
Qed.

Lemma continued_segment_spec a n started s grant_len info :
  tx_inv a n started s -> zlen started = n + 1 -> win_view (tx_window s) (n mod m) = Some info ->
  is_u32 grant_len ->
  exists pdu s' out, build_continued_sdu_segment cfg grant_len (n mod m) info s = Ok (pdu, s', out) /\
    tx_effect a started s pdu s' /\ zlen pdu <= grant_len.
Proof.
  intros Hs HN Hv Hg. pose proof head_sizes as [Hmin Hmax]. pose proof tx_m_window as Hmw. pose proof tx_ws_bounds.
  pose proof (tx_effect_core _ _ _ _ _ Hs (same_core_refl s)) as Hsame.
  pose proof (tinv_counts _ _ _ _ Hs) as (Ha & Hn & HNa).
  destruct (window_entry a n started (tx_window s) n info) as (Hst & Hok & Hnext); try apply Hs; try done; try lia.
  specialize (Hnext eq_refl). unfold build_continued_sdu_segment.
  rewrite (proj2 (Z.eqb_neq _ _)), (proj2 (Z.leb_gt _ _)) by lia.
  case_if; [exists [], s, []; split_and!; [done|done|apply Hg]|].
  pose proof Hok as [Hlen Hb].
  rewrite (wrap_small 32 (zlen (tx_sdu info) - _)) by (unfold in_range; lia).
  rewrite (wrap_small 32 (_ + head_max_size cfg)) by (unfold in_range; lia).
  rewrite (wrap_small 32 (grant_len - _)) by (unfold in_range in *; lia).
  set (remaining := zlen (tx_sdu info) - next_so info).
  set (last := negb (grant_len <? remaining + head_max_size cfg)).
  set (len := if last then remaining else grant_len - head_max_size cfg).
  set (si := if last then last_segment else middle_segment).
  assert (0 < len /\ next_so info + len <= zlen (tx_sdu info) /\ head_max_size cfg + len <= grant_len /\
    (next_so info + len =? zlen (tx_sdu info)) = last) as (Hl1 & Hl2 & Hl3 & Hl4).
  { unfold len, last, remaining. destruct (grant_len <? _) eqn:E; zbool; cbn [negb].
    - rewrite (proj2 (Z.eqb_neq _ _)) by lia. split_and!; lia.
    - rewrite (proj2 (Z.eqb_eq _ _)) by lia. split_and!; lia. }
  set (s0 := if last then _ else s).
  assert (same_core s (s0 <| sn_under_segmentation := n mod m |>) /\
    sn_under_segmentation s0 = if last then INVALID_RLC_SN else n mod m) as (H0 & H0s).
  { pose proof (tinv_seg _ _ _ _ Hs) as E. rewrite (proj2 (Z.eqb_neq _ _)) in E by lia.
    unfold s0. destruct last; by split_and!. }
  destruct_polling p s1 Hp Hc. destruct H0 as (D1 & D2 & _ & D4 & D5 & D6). cbn in D1, D2, D4, D5, D6.
  destruct Hc as (C1 & C2 & C3 & C4 & C5 & C6). rewrite C2, D2, (tinv_next _ _ _ _ Hs).
  destruct (piece_sent started n (tx_sdu info) p si (next_so info) len) as [Hhd Hsent]; try done; try lia.
  { rewrite (proj2 (Z.eqb_neq _ _)) by lia. by rewrite Hl4. }
  assert (hdr_so (data_header cfg p si (n mod m) (next_so info)) = next_so info) as Eso.
  { unfold data_header; cbn -[wrap]. apply wrap_small. unfold in_range. lia. }
  rewrite Eso, sdu_view_ok by lia. cbn [checked_bind].
  set (header := rlc_am_write_data_pdu_header _) in *. set (payload := take _ (drop _ (tx_sdu info))) in *.
  rewrite (proj2 (Z.eqb_neq _ _)) in Hhd by lia.
  assert (zlen payload = len) as Hpl by (apply zlen_view; lia).
  rewrite write_pdu_fits by lia. rewrite zlen_app, Hpl.
  rewrite (proj2 (Z.eqb_neq _ 0)), (proj2 (Z.eqb_eq _ _)) by lia. cbn [orb negb].
  destruct (window_write a (if last then n + 1 else n) started (tx_window s1) n info
    (info <| next_so ::= fun k => u32 (k + len) |>)) as (w' & -> & Hw' & Hsame' & Hv' & Hothers); try done; try lia.
  { rewrite C4, D4. destruct last; [|apply Hs]. eapply window_next; [apply Hs|lia]. }
  { by rewrite C4, D4. }
  { cbn -[wrap]. rewrite wrap_small by (unfold in_range; lia). destruct last; [lia|]. intros _.
    apply Z.eqb_neq in Hl4. lia. }
  { destruct last; lia. }
  cbn [checked_bind]. eexists (header ++ payload), _, _. split; [done|]. split; [|rewrite zlen_app; lia].
  exists (if last then n + 1 else n), started. split; [|split; [done|split]].
  - split.
    + destruct last; lia.
    + destruct last; cbn; rewrite C1, D1; apply Hs.
    + destruct last; cbn; rewrite C2, D2, (tinv_next _ _ _ _ Hs); [apply count_succ|done].
    + rewrite HN. destruct last; cbn; rewrite C3, H0s; [by rewrite Z.eqb_refl|]. by rewrite (proj2 (Z.eqb_neq _ _)) by lia.
    + by destruct last.
    + apply Hs.
    + destruct last; cbn; rewrite C5, D5; apply Hs.
    + rewrite C4, D4 in Hsame'. eapply items_ok_same; [|destruct last; cbn; rewrite C6, D6; apply Hs]. by destruct last.
    + destruct last; cbn; rewrite C6, D6; apply Hs.
  - unfold pipeline. destruct last; cbn; by rewrite C5, D5.
  - right. exists n. split; [lia|done].
Qed.

Lemma send_retx_spec a n started s item l grant_len info :
  tx_inv a n started s -> rq_queue (retx_queue s) = item :: l -> is_u32 grant_len ->
  win_view (tx_window s) (retx_sn (item_retx item)) = Some info ->
  exists pdu s' out, send_retx cfg grant_len (item_retx item) info s = Ok (pdu, s', out) /\
    tx_effect a started s pdu s' /\ zlen pdu <= grant_len.
Proof.
  intros Hs Hq Hg Hv. pose proof head_sizes as [Hmin Hmax].
  pose proof (tx_effect_core _ _ _ _ _ Hs (same_core_refl s)) as Hsame.
  pose proof (tinv_retx _ _ _ _ Hs) as Hitems. rewrite Hq in Hitems. apply Forall_cons in Hitems as [[Hval Hok] _].
  set (retx := item_retx item) in *. destruct Hok as (k & i & Hk & Esn & Hvi & Hso & Hlen & Hend).
  rewrite Esn, Hvi in Hv. injection Hv as ->. pose proof (tinv_counts _ _ _ _ Hs) as (Ha & Hn & HN).
  destruct (window_entry a n started (tx_window s) k info) as (Hst & Hsdu & _); try apply Hs; try done; try lia.
  unfold send_retx. unfold get_retx_expected_hdr_len. set (hl := if retx_so retx =? 0 then _ else _).
  assert (0 < hl) as Hhl by (unfold hl; case_if; lia).
  destruct (grant_len <=? hl) eqn:Eg; zbool; [exists [], s, []; split_and!; [done|done|apply Hg]|].
  set (len := Z.min (retx_length retx) (grant_len - hl)).
  destruct (update_retx_queue_spec a n started s item l (len =? retx_length retx) len (retx_count info))
    as (s1 & -> & Hs1 & Ew1 & Eq1); [done|done|lia| |].
  { intros E. zbool. fold retx. lia. }
  cbn [checked_bind]. destruct_polling p s2 Hp Hc. rewrite Esn.
  pose proof (tx_inv_core _ _ _ _ _ Hs1 Hc) as Hs2.
  set (si := if retx_so retx =? 0 then _ else _).
  destruct (piece_sent started k (tx_sdu info) p si (retx_so retx) len) as [Hhd Hsent]; try done; try lia.
  { unfold si. destruct (retx_so retx =? 0); destruct (zlen (tx_sdu info) <=? retx_so retx + len) eqn:E1;
      destruct (retx_so retx + len =? zlen (tx_sdu info)) eqn:E2; zbool; try done; lia. }
  fold hl in Hhd.
  assert (hdr_so (data_header cfg p si (k mod m) (retx_so retx)) = retx_so retx) as Eso.
  { unfold data_header; cbn -[wrap]. destruct Hsdu. apply wrap_small. unfold in_range. lia. }
  rewrite (proj2 (Z.eqb_eq _ _)) by done. rewrite Eso, sdu_view_ok by lia. cbn [checked_bind].
  set (header := rlc_am_write_data_pdu_header _) in *. set (payload := take _ (drop _ (tx_sdu info))) in *.
  assert (zlen payload = len) as Hpl by (apply zlen_view; lia).
  rewrite write_pdu_fits by lia. rewrite zlen_app, Hpl.
  rewrite (proj2 (Z.eqb_neq _ 0)), (proj2 (Z.eqb_eq _ _)) by lia. cbn [orb negb].
  eexists (header ++ payload), s2, _. split; [done|]. split; [|rewrite zlen_app; lia].
  exists n, started. split; [done|]. split; [done|]. split; [|right; exists k; split; [lia|done]].
  unfold pipeline. destruct Hc as (_ & _ & _ & _ & -> & _). by rewrite Eq1.
Qed.

Lemma build_retx_pdu_spec a n started s grant_len :
  tx_inv a n started s -> is_u32 grant_len ->
  exists pdu s' out, build_retx_pdu cfg grant_len s = Ok (pdu, s', out) /\
    tx_effect a started s pdu s' /\ zlen pdu <= grant_len.
Proof.
  intros Hs Hg. pose proof (tx_effect_core _ _ _ _ _ Hs (same_core_refl s)) as Hsame.
  pose proof (tinv_retx _ _ _ _ Hs) as Hitems. unfold build_retx_pdu.
  case_if; [exists [], s, []; split_and!; [done|done|apply Hg]|].
  unfold retx_fuel. rewrite (drop_absent_none _ _ _ _ _ Hitems). cbn [checked_bind].
  change (rq_empty (retx_queue (s <| retx_queue := retx_queue s |>))) with (rq_empty (retx_queue s)).
  rewrite Heqb. unfold rq_front. destruct (rq_queue (retx_queue s)) as [|item l] eqn:Eq; [by unfold rq_empty in Heqb; rewrite Eq in Heqb|].
  apply Forall_cons in Hitems as [Hitem _]. pose proof Hitem as [Hval (k & info & Hk & Esn & Hv & Hso & Hlen & Hend)].
  rewrite Hval. cbn [negb checked_bind].
  change (tx_window (s <| retx_queue := retx_queue s |> <| tx_retx_sn := retx_sn (item_retx item) |>)) with (tx_window s).
  assert (win_at (tx_window s) (retx_sn (item_retx item)) = Ok info) as -> by (rewrite Esn; by apply win_at_view).
  cbn [checked_bind].
  pose proof (tinv_counts _ _ _ _ Hs) as (Ha & Hn & HN).
  destruct (window_entry a n started (tx_window s) k info) as (_ & [Hsz _] & _); try apply Hs; try done; try lia.
  rewrite wrap_small by (unfold in_range; lia). rewrite (proj2 (Z.ltb_ge _ _)) by lia.
  set (s1 := s <| retx_queue := retx_queue s |> <| tx_retx_sn := _ |>).
  assert (tx_inv a n started s1) as Hs1 by (eapply tx_inv_core; [exact Hs|by split_and!]).
  apply (send_retx_spec a n started s1 item l grant_len info); [done|done|done|by rewrite Esn].
Qed.

Lemma pull_data_spec a n started s grant_len (r : R) deferred :
  tx_inv a n started s -> is_u32 grant_len -> provider_required r = false ->
  exists pdu s' out, pull_pdu cfg grant_len deferred s r = Ok (pdu, s', r, out) /\
    tx_effect a started s pdu s' /\ zlen pdu <= grant_len.
Proof.
  intros Hs Hg Hr. pose proof (tx_effect_core _ _ _ _ _ Hs (same_core_refl s)) as Hsame. unfold pull_pdu. rewrite Hr.
  case_if; [exists [], s, []; split_and!; [done|done|apply Hg]|].
  pose proof (tinv_counts _ _ _ _ Hs) as (Ha & Hn & HN). pose proof (tinv_seg _ _ _ _ Hs) as Eseg.
  assert (forall x : checked (list Z * tx_am_state W * list tx_am_output),
    (exists pdu s' out, x = Ok (pdu, s', out) /\ tx_effect a started s pdu s' /\ zlen pdu <= grant_len) ->
    exists pdu s' out, (let? (pdu, s, out) := x in Ok (pdu, s, r, out)) = Ok (pdu, s', r, out) /\
      tx_effect a started s pdu s' /\ zlen pdu <= grant_len) as Hret.
  { intros x (pdu & s' & out & -> & H1 & H2). by exists pdu, s', out. }
  apply Hret. destruct (rq_empty (retx_queue s)) eqn:Erq; cbn [negb]; [|by eapply build_retx_pdu_spec].
  destruct (zlen started =? n) eqn:EN; zbool.
  - rewrite Eseg. cbn [negb Z.eqb Pos.eqb]. rewrite Z.eqb_refl. cbn [negb]. unfold pull_new_pdu.
    case_if; [exists [], s, []; split_and!; [done|done|apply Hg]|]. subst n. by apply build_new_pdu_spec.
  - assert (zlen started = n + 1) as HN1 by lia.
    destruct (window_entry_exists a n started (tx_window s) n) as [info Hv]; [apply Hs|lia|].
    rewrite Eseg, (proj2 (Z.eqb_neq _ _)) by apply count_valid. cbn [negb].
    rewrite has_sn_view, Hv, (win_at_view _ _ _ Hv). cbn [checked_bind]. by eapply continued_segment_spec.
Qed.
End sending.
End tx_am_props.
