(* ===== verification/RlcTxAmStatus.v ===== *)
(** * RLC AM transmitter: status reports and timer

    The second half of the invariant: what status reports of the peer and the expiry
    of t-PollRetransmit do to the entity.  The walk over the acknowledged numbers,
    the rewinding of the retransmission queue and its rebuilding from the NACKs each
    get their lemma; none of them fails an assertion as long as the peer reports no
    SDU that was not sent. *)
From stdpp Require Import base numbers list.
From Stdlib Require Import ZArith Lia.
From S2P Require Import Prelude.
From S2P Require Import RlcConfig.
From S2P Require Import RlcAmPdu.
From S2P Require Import RlcAmPduProps.
From S2P Require Import SduWindow.
From S2P Require Import RlcRxAm.
From S2P Require Import RlcRetxQueue.
From S2P Require Import RlcSduQueue.
From S2P Require Import RlcTxBase.
From S2P Require Import RlcTxAm.
From S2P Require Import RlcTxAmProps.

Set Default Goal Selector "!".
Open Scope Z_scope.
Open Scope ran_scope.

Section tx_am_status.
Context {W : Type -> Type} `{!SduWindow W} `{!SduWindowLaws W} {R : Type} `{!StatusProvider R}.
Variable cfg : rlc_tx_am_config.
Implicit Types s : tx_am_state W.
Implicit Types w : W rlc_tx_am_sdu_info.

Local Abbreviation m := (tx_mod cfg).
Local Abbreviation ws := (tx_window_size cfg).
Local Abbreviation dist := (tx_mod_base cfg).
Local Abbreviation tx_inv := (tx_inv cfg).

#[local] Existing Instance tx_modulus.

(** The invariant holds, and neither the waiting SDUs nor the tasks change. *)
Definition tx_keeps (a n : Z) (started : list (list Z)) s s' : Prop :=
  tx_inv a n started s' /\ sdu_queue s' = sdu_queue s /\ pcell_tasks s' = pcell_tasks s.

Lemma tx_keeps_refl a n started s : tx_inv a n started s -> tx_keeps a n started s s.
Proof. intros Hs. exact (conj Hs (conj eq_refl eq_refl)). Qed.

Lemma tx_keeps_trans a n started s1 s2 s3 :
  tx_keeps a n started s1 s2 -> tx_keeps a n started s2 s3 -> tx_keeps a n started s1 s3.
Proof. unfold tx_keeps. intros. destruct_and!. split_and!; [done|congruence..]. Qed.

(** ** Counters *)

Lemma write_info_spec a n started s k info info' :
  tx_inv a n started s -> a <= k < zlen started -> win_view (tx_window s) (k mod m) = Some info ->
  tx_sdu info' = tx_sdu info -> next_so info' = next_so info ->
  exists w, win_write (k mod m) info' (tx_window s) = Ok w /\
    tx_keeps a n started s (s <| tx_window := w |>).
Proof.
  intros Hs Hk Hv Esdu Eso. pose proof (tinv_counts _ _ _ _ _ Hs) as (Ha & Hn & HN).
  pose proof (tx_m_window cfg) as Hmw. pose proof (tx_ws_bounds cfg).
  destruct (window_entry cfg a n started (tx_window s) k info) as (_ & _ & Hnext); try apply Hs; try done; try lia.
  destruct (window_write cfg a n started (tx_window s) k info info') as (w & -> & Hw & Hsame & _);
    [apply Hs|done|lia|lia|done|by rewrite Esdu, Eso|lia|lia|].
  exists w. split; [done|]. split; [|done]. destruct Hs as [H1 H2 H3 H4 H5 H6 H7 H8]. split; try done.
  by eapply items_ok_same.
Qed.

Lemma increment_spec a n started s k :
  tx_inv a n started s -> a <= k < zlen started ->
  exists s' out, increment_retx_count cfg (k mod m) s = Ok (s', out) /\ tx_keeps a n started s s'.
Proof.
  intros Hs Hk. destruct (window_entry_exists cfg a n started (tx_window s) k) as [info Hv]; [apply Hs|done|].
  unfold increment_retx_count. rewrite (win_at_view _ _ _ Hv). cbn [checked_bind].
  set (info' := if _ =? _ then _ else _).
  destruct (write_info_spec a n started s k info info') as (w & -> & Hw); [done|done|done| | |].
  - unfold info'. by case_if.
  - unfold info'. by case_if.
  - by eexists _, _.
Qed.

(** ** NACKs *)

Lemma process_nack_spec a n started s nack prev :
  tx_inv a n started s -> nack_wf (tx_sn_size cfg) nack ->
  (nack_sn nack = n mod m -> zlen started = n + 1) ->
  exists prev' s' out, process_nack cfg nack prev s = Ok (prev', s', out) /\ tx_keeps a n started s s'.
Proof.
  intros Hs Hn Hlast. unfold process_nack.
  destruct (handle_nack_spec cfg a n started s nack Hs Hn Hlast) as (b & s1 & out & -> & Hs1 & Ew & Eq & Et & Hb).
  cbn [checked_bind]. assert (tx_keeps a n started s s1) as Hk1 by (exact (conj Hs1 (conj Eq Et))).
  case_if; [|by eexists _, _, _]. zbool. destruct b; [|done]. destruct (Hb eq_refl) as (k & Hk & ->).
  destruct (increment_spec a n started s1 k Hs1 Hk) as (s2 & out' & -> & Hk2). cbn [checked_bind].
  eexists _, _, _. split; [done|]. by eapply tx_keeps_trans.
Qed.

Lemma range_item_wf nack k :
  nack_wf (tx_sn_size cfg) nack -> nack_wf (tx_sn_size cfg) (range_item cfg nack (k mod m)).
Proof.
  intros Hn. assert (nack_wf (tx_sn_size cfg) (nack_default <| nack_sn := k mod m |>)) as Hd.
  { split; try done. apply (mod_range cfg). }
  pose proof (nwf_start _ _ Hn). pose proof (nwf_end _ _ Hn). unfold range_item. destruct (has_so nack); [|done].
  assert (forall i, is_u16 (so_start i) -> is_u16 (so_end i) -> 0 <= nack_sn i < m -> nack_range i = 0 ->
    nack_wf (tx_sn_size cfg)
      (i <| has_so := negb (so_start i =? 0) || negb (so_end i =? so_end_of_sdu) |>)) as Hwf.
  { intros i H1 H2 H3 H4. split; cbn; try done.
    - by rewrite H4.
    - intros [E1 E2]%orb_false_iff. zbool. done. }
  apply Hwf; repeat case_if; cbn; try done; apply (mod_range cfg).
Qed.

(** The fuel covers the numbers of the range.  [a0] is the count of TX_Next_Ack when
    the report was checked: a range may start before what it acknowledges. *)
Lemma range_loop_spec a0 a n started c nack ack_sn :
  nack_wf (tx_sn_size cfg) nack -> ack_sn = c mod m -> c <= n + 1 -> n <= a0 + ws ->
  (c = n + 1 -> zlen started = n + 1) ->
  forall fuel j prev s, tx_inv a n started s -> a0 <= j <= c ->
  0 <= (u32 (nack_sn nack + nack_range nack) - j) mod m <= Z.of_nat fuel ->
  exists prev' s' out, range_loop cfg fuel nack ack_sn (j mod m) prev s = Ok (prev', s', out) /\
    tx_keeps a n started s s'.
Proof.
  intros Hn -> Hc Ha0 Hlast. pose proof (tx_m_window cfg) as Hmw. pose proof (tx_ws_bounds cfg).
  induction fuel as [|fuel IH]; intros j prev s Hs Hj Hf; cbn [range_loop].
  all: pose proof (tinv_counts _ _ _ _ _ Hs) as (Ha & Hnn & HN).
  all: destruct (j mod m =? _) eqn:E; [by eexists _, s, _; split; [|apply tx_keeps_refl]|]; apply Z.eqb_neq in E.
  { exfalso. apply E. assert ((u32 (nack_sn nack + nack_range nack) - j) mod m = 0) as E0 by lia.
    rewrite <- (Z.sub_add j (u32 _)), <- Zplus_mod_idemp_l, E0. done. }
  destruct (j mod m =? c mod m) eqn:Ec; [by eexists _, s, _; split; [|apply tx_keeps_refl]|]. apply Z.eqb_neq in Ec.
  assert (j < c) by (destruct (decide (j = c)); [congruence|lia]).
  destruct (process_nack_spec a n started s (range_item cfg nack (j mod m)) prev) as (prev1 & s1 & out & -> & Hk1);
    [done|by apply range_item_wf| |].
  { unfold range_item. intros Ej. assert (j mod m = n mod m) as Ej'.
    { revert Ej. by repeat case_if. }
    apply (count_inj cfg a0) in Ej'; [|lia|lia]. apply Hlast. lia. }
  cbn [checked_bind]. rewrite (count_succ cfg).
  destruct (IH (j + 1) prev1 s1) as (prev2 & s2 & out' & -> & Hk2); [apply Hk1|lia| |].
  - set (e := u32 _) in *. assert ((e - j) mod m <> 0).
    { intros E0. apply E. rewrite <- (Z.sub_add j e), <- Zplus_mod_idemp_l, E0. done. }
    replace (e - (j + 1)) with (e - j - 1) by lia. pose proof (mod_range cfg (e - j)). rewrite <- Zminus_mod_idemp_l, Z.mod_small by lia. lia.
  - cbn [checked_bind]. eexists _, _, _. split; [done|]. by eapply tx_keeps_trans.
Qed.
Lemma rebuild_spec a0 a n started c :
  c <= n + 1 -> n <= a0 + ws -> a0 <= n -> (c = n + 1 -> zlen started = n + 1) ->
  forall nacks prev s, tx_inv a n started s -> Forall (nack_wf (tx_sn_size cfg)) nacks ->
  Forall (fun nack => exists j, a0 <= j < c /\ nack_sn nack = j mod m) nacks ->
  exists s' out, rebuild_retx cfg nacks (c mod m) prev s = Ok (s', out) /\ tx_keeps a n started s s'.
Proof.
  intros Hc Ha0 Hn0 Hlast. pose proof (tx_m_window cfg) as Hmw. pose proof (tx_ws_bounds cfg).
  induction nacks as [|nack nacks IH]; intros prev s Hs Hwf Hj; cbn [rebuild_retx].
  { exists s, []. split; [done|]. by apply tx_keeps_refl. }
  apply Forall_cons in Hwf as [Hn Hwf]. apply Forall_cons in Hj as [(j & Hjc & Ej) Hj].
  pose proof (tinv_counts _ _ _ _ _ Hs) as (Ha & Hnn & HN).
  assert (exists prev' s' out, (if has_nack_range nack
    then range_loop cfg range_fuel nack (c mod m) (nack_sn nack) prev s else process_nack cfg nack prev s) =
    Ok (prev', s', out) /\ tx_keeps a n started s s') as (prev1 & s1 & out & -> & Hk1).
  { case_if.
    - rewrite Ej. eapply (range_loop_spec a0 a n started c); try done; [lia|].
      pose proof (nwf_range _ _ Hn) as Hr. pose proof (nwf_sn _ _ Hn) as Hsn. unfold in_range in Hr.
      rewrite wrap_small by (unfold in_range, tx_mod in *; lia). rewrite Ej.
      replace (j mod m + nack_range nack - j) with (j mod m - j + nack_range nack) by lia.
      rewrite <- Zplus_mod_idemp_l, Zminus_mod_idemp_l, Z.sub_diag, Zmod_0_l, Z.mod_small by lia.
      change (Z.of_nat range_fuel) with 256. lia.
    - apply process_nack_spec; [done|done|]. rewrite Ej. intros E%(count_inj cfg a0); [|lia|lia]. apply Hlast. lia. }
  cbn [checked_bind]. destruct (IH prev1 s1) as (s2 & out' & -> & Hk2); [apply Hk1|done|done|].
  cbn [checked_bind]. eexists _, _. split; [done|]. by eapply tx_keeps_trans.
Qed.

(** ** Acknowledgements *)

(** The entity without what it has to retransmit. *)
Definition forget s : tx_am_state W := s <| retx_queue ::= rq_clear |>.

(** The fuel covers the window, and the walk stops exactly at [stop_sn]. *)
Lemma process_acks_spec n started c stop_sn :
  c <= n -> stop_sn mod m = c mod m ->
  forall fuel a deliv s, tx_inv a n started (forget s) -> a <= c -> (Z.to_nat (c - a) < fuel)%nat ->
  exists s' deliv', process_acks cfg fuel (a mod m) stop_sn deliv s = Ok (s', deliv') /\
    tx_inv c n started (forget s') /\ sdu_queue s' = sdu_queue s /\ pcell_tasks s' = pcell_tasks s /\
    retx_queue s' = retx_queue s.
Proof.
  intros Hc Estop. pose proof (tx_m_window cfg) as Hmw. pose proof (tx_ws_bounds cfg).
  induction fuel as [|fuel IH]; intros a deliv s Hs Hac Hf; [lia|]. cbn [process_acks].
  pose proof (tinv_counts _ _ _ _ _ Hs) as (Ha & Hnn & HN). pose proof (tinv_ack _ _ _ _ _ Hs) as Eack.
  change (tx_next_ack (forget s)) with (tx_next_ack s) in Eack. rewrite Eack.
  rewrite (dist_at cfg a a), (dist_of_count cfg a c stop_sn), Z.sub_diag by first [lia|done].
  destruct (0 <? c - a) eqn:E; cbn [negb]; zbool.
  2: { assert (c = a) as -> by lia. exists s, deliv. by split_and!. }
  destruct (window_remove cfg a n started (tx_window s)) as (info & w & Hv & Hrm & Hw);
    [apply (tinv_window _ _ _ _ _ Hs)|lia|lia|].
  rewrite has_sn_view, Hv, (win_at_view _ _ _ Hv), Hrm, (count_succ cfg). cbn [checked_bind].
  destruct (IH (a + 1) (note_delivered info deliv) (s <| tx_window := w |> <| tx_next_ack := (a + 1) mod m |>))
    as (s' & deliv' & -> & Hs' & Hq & Ht & Hr); [|lia|lia|by exists s', deliv'].
  destruct Hs as [H1 H2 H3 H4 H5 H6 H7 H8]. split; try done. lia.
Qed.

(** ** Rewinding *)

Lemma decrement_spec a n started s k :
  tx_inv a n started (forget s) -> a <= k < zlen started ->
  exists w, decrement_retx_count (k mod m) s = Ok (s <| tx_window := w |>) /\
    tx_inv a n started (forget (s <| tx_window := w |>)).
Proof.
  intros Hs Hk. destruct (window_entry_exists cfg a n started (tx_window s) k) as [info Hv]; [apply (tinv_window _ _ _ _ _ Hs)|done|].
  unfold decrement_retx_count. rewrite (win_at_view _ _ _ Hv). cbn [checked_bind].
  case_if; [exists (tx_window s); by destruct s|].
  set (info' := if _ =? _ then _ else _).
  destruct (write_info_spec a n started (forget s) k info info') as (w & Ew & Hw & _); [done|done|done| | |].
  1, 2: unfold info'; by case_if.
  change (tx_window (forget s)) with (tx_window s) in Ew. rewrite Ew. by exists w.
Qed.

Lemma clear_retx_spec a n started : forall fuel s,
  tx_inv a n started (forget s) -> Forall (fun item => item_invalid item = false) (rq_queue (retx_queue s)) ->
  (length (rq_queue (retx_queue s)) < fuel)%nat ->
  exists s', clear_retx fuel s = Ok s' /\ tx_keeps a n started s s'.
Proof.
  induction fuel as [|fuel IH]; intros s Hs Hval Hf; [lia|]. cbn [clear_retx]. unfold rq_empty, rq_front.
  destruct (rq_queue (retx_queue s)) as [|item l] eqn:Eq.
  { exists s. split; [done|]. split; [|done]. destruct Hs as [H1 H2 H3 H4 H5 H6 H7 H8]. split; try done.
    rewrite Eq. constructor. }
  apply Forall_cons in Hval as [Hitem Hval]. rewrite Hitem. cbn [negb checked_bind].
  set (sn := retx_sn (item_retx item)).
  assert (exists s1, (if negb (tx_retx_sn s =? sn) then
      let? s := (if has_sn (tx_window s) sn then decrement_retx_count sn s else Ok s) in
      Ok (s <| tx_retx_sn := sn |>) else Ok s) = Ok s1 /\
    tx_inv a n started (forget s1) /\ sdu_queue s1 = sdu_queue s /\ pcell_tasks s1 = pcell_tasks s /\
    retx_queue s1 = retx_queue s) as (s1 & -> & Hs1 & E1 & E2 & E3).
  { destruct (negb _); [|by exists s].
    rewrite has_sn_view. destruct (win_view (tx_window s) sn) as [info|] eqn:Ev.
    - destruct (tinv_window _ _ _ _ _ Hs) as (_ & _ & _ & Honly). destruct (Honly sn info Ev) as (k & Hk & ->).
      destruct (decrement_spec a n started s k Hs Hk) as (w & -> & Hw). cbn [checked_bind]. eexists. split; [done|].
      split; [|done]. eapply tx_inv_core; [exact Hw|by split_and!].
    - cbn [checked_bind]. eexists. split; [done|]. split; [|done]. eapply tx_inv_core; [exact Hs|by split_and!]. }
  cbn [checked_bind]. rewrite <- E3 in Eq.
  assert (rq_queue (rq_pop (retx_queue s1)) = l) as Epop.
  { unfold rq_pop. rewrite Eq. cbn. destruct l as [|item' l]; [done|]. apply Forall_cons in Hval as [Hv _]. cbn. by rewrite Hv. }
  destruct (IH (s1 <| retx_queue ::= rq_pop |>)) as (s2 & -> & Hs2 & Hq & Ht).
  - destruct Hs1; split; try done. cbn. by rewrite rq_pop_capacity.
  - cbn. by rewrite Epop.
  - cbn in *. rewrite Epop. cbn in Hf. lia.
  - exists s2. split; [done|]. split; [done|]. cbn in Hq, Ht. split; congruence.
Qed.

(** ** Status reports *)

Lemma valid_nack_count a n started s c nack :
  tx_inv a n started s -> a <= c < a + m -> nack_wf (tx_sn_size cfg) nack ->
  (valid_nack cfg (c mod m) nack s).1 = true -> exists j, a <= j < c /\ nack_sn nack = j mod m.
Proof.
  intros Hs Hc Hn. unfold valid_nack. rewrite (tinv_ack _ _ _ _ _ Hs), (dist_at cfg a c) by done.
  case_if; [done|]. zbool. intros _. pose proof (mod_base_range m (a mod m) (nack_sn nack)) as Hd.
  exists (a + dist (a mod m) (nack_sn nack)). split; [unfold tx_mod_base in *; lia|].
  rewrite (mod_base_inv m (a mod m) (nack_sn nack)) at 1 by apply Hn. by rewrite Zplus_mod_idemp_l.
Qed.

Lemma valid_nacks_counts a n started s c nacks :
  tx_inv a n started s -> a <= c < a + m -> Forall (nack_wf (tx_sn_size cfg)) nacks ->
  (valid_nacks cfg (c mod m) nacks s).1 = true ->
  Forall (fun nack => exists j, a <= j < c /\ nack_sn nack = j mod m) nacks.
Proof.
  intros Hs Hc. induction 1 as [|nack nacks Hn _ IH]; [by constructor|]. cbn [valid_nacks].
  pose proof (valid_nack_count a n started s c nack Hs Hc Hn) as Hj.
  destruct (valid_nack cfg (c mod m) nack s) as [[] out]; [|done]. intros Hv. constructor; auto.
Qed.

Lemma apply_status_spec a n started s c status (r : R) :
  tx_inv a n started s -> a < c <= n + 1 -> (c = n + 1 -> zlen started = n + 1 /\ sp_nacks status <> []) ->
  sp_ack_sn status = c mod m -> Forall (nack_wf (tx_sn_size cfg)) (sp_nacks status) ->
  Forall (fun nack => exists j, a <= j < c /\ nack_sn nack = j mod m) (sp_nacks status) ->
  exists s' out a', apply_status cfg status s r = Ok (s', out) /\ a <= a' /\ tx_stays cfg a' n started s s' /\
    pcell_tasks s' = pcell_tasks s.
Proof.
  intros Hs Hc Hlast Eack Hwf Hj. pose proof (tx_m_window cfg) as Hmw. pose proof (tx_ws_bounds cfg).
  pose proof (tinv_counts _ _ _ _ _ Hs) as (Ha & Hnn & HN). unfold apply_status.
  set (s0 := if _ <? _ then _ else s).
  assert (same_core s s0) as Hcore0 by (unfold s0; case_if; by split_and!).
  assert (pcell_tasks s0 = pcell_tasks s) as Et0 by (unfold s0; by case_if).
  pose proof (tx_inv_core _ _ _ _ _ _ Hs Hcore0) as Hs0. clearbody s0. destruct Hcore0 as (_ & _ & _ & _ & Eq0 & _).
  set (stop_sn := match sp_nacks status with [] => _ | _ => _ end).
  assert (exists c', a <= c' <= n /\ stop_sn mod m = c' mod m) as (c' & Hc' & Estop).
  { unfold stop_sn. destruct (sp_nacks status) as [|nack nacks] eqn:En.
    - exists c. rewrite Eack, Zmod_mod. split; [|done]. destruct (decide (c = n + 1)) as [E|]; [|lia].
      by destruct (Hlast E).
    - apply Forall_cons in Hj as [(j & Hjc & ->) _]. exists j. rewrite Zmod_mod. split; [lia|done]. }
  rewrite (tinv_ack _ _ _ _ _ Hs0).
  destruct (process_acks_spec n started c' stop_sn) with (fuel := ack_fuel cfg) (a := a)
    (deliv := (None, None) : option Z * option Z) (s := s0)
    as (s1 & deliv & -> & Hs1 & Eq1 & Et1 & Er1); [lia|done| |lia|unfold ack_fuel; lia|].
  { destruct Hs0. split; try done. }
  cbn [checked_bind]. pose proof (tinv_retx _ _ _ _ _ Hs0) as Hitems.
  destruct (clear_retx_spec c' n started (retx_fuel (retx_queue s1)) s1) as (s2 & -> & Hs2 & Eq2 & Et2).
  { done. }
  { rewrite Er1. eapply Forall_impl; [exact Hitems|]. by intros item [Hi _]. }
  { unfold retx_fuel. lia. }
  cbn [checked_bind]. set (s3 := s2 <| tx_retx_sn := INVALID_RLC_SN |>).
  assert (tx_inv c' n started s3) as Hs3 by (eapply tx_inv_core; [exact Hs2|by split_and!]).
  rewrite Eack.
  destruct (rebuild_spec a c' n started c) with (nacks := sp_nacks status) (prev := INVALID_RLC_SN) (s := s3)
    as (s4 & out & -> & Hs4 & Eq4 & Et4); [lia|lia|lia|naive_solver|done|done|done|].
  cbn [checked_bind]. destruct (update_mac_spec cfg c' n started s4 r true Hs4) as (s5 & out' & -> & [Hs5 Hp5] & Et5 & _).
  cbn [checked_bind]. eexists s5, _, c'. split; [done|]. split; [lia|]. split; [split; [done|]|].
  - unfold pipeline in *. cbn in Eq4. by rewrite Eq4, Eq2, Eq1, Eq0 in Hp5.
  - cbn in Et4. congruence.
Qed.

Lemma handle_status_spec a n started s status (r : R) :
  tx_inv a n started s -> status_in_ok cfg status -> peer_status_ok cfg s status ->
  exists s' out a', handle_status_pdu cfg status s r = Ok (s', out) /\ a <= a' /\ tx_stays cfg a' n started s s' /\
    pcell_tasks s' = pcell_tasks s.
Proof.
  intros Hs [Hack Hwf] Hpeer. pose proof (tx_m_window cfg) as Hmw. pose proof (tx_ws_bounds cfg).
  pose proof (tinv_counts _ _ _ _ _ Hs) as (Ha & Hnn & HN).
  assert (forall out, exists s' out' a', Ok (s, out : list tx_am_output) = Ok (s', out') /\ a <= a' /\
    tx_stays cfg a' n started s s' /\ pcell_tasks s' = pcell_tasks s) as Hno.
  { intros out. exists s, out, a. split_and!; first [done|lia]. }
  unfold handle_status_pdu, tx_valid_ack_sn. rewrite (tinv_ack _ _ _ _ _ Hs), (tinv_next _ _ _ _ _ Hs).
  set (d := dist (a mod m) (sp_ack_sn status)).
  destruct (negb _) eqn:E1; [by apply Hno|]. zbool.
  rewrite wrap_small by (pose proof (mod_range cfg n); unfold in_range; lia).
  rewrite (dist_of_count cfg a (n + 1)) by first [lia|apply Zplus_mod_idemp_l].
  case_if; [by apply Hno|]. zbool. set (c := a + d).
  assert (sp_ack_sn status = c mod m) as Eack.
  { rewrite (mod_base_inv m (a mod m) (sp_ack_sn status)) at 1 by done. unfold c, d. by rewrite Zplus_mod_idemp_l. }
  rewrite Eack. pose proof (valid_nacks_counts a n started s c (sp_nacks status) Hs ltac:(lia) Hwf) as Hj.
  destruct (valid_nacks cfg (c mod m) (sp_nacks status) s) as [[] out]; [|by apply Hno].
  apply apply_status_spec with (c := c); try done; [lia| |by apply Hj].
  intros Ec. destruct Hpeer as [Eseg Hne].
  - rewrite Eack, Ec, (tinv_next _ _ _ _ _ Hs). by rewrite (count_succ cfg).
  - split; [|done]. rewrite (tinv_seg _ _ _ _ _ Hs), (tinv_next _ _ _ _ _ Hs) in Eseg.
    destruct (zlen started =? n) eqn:EN; zbool; [|lia]. by destruct (count_valid cfg n).
Qed.

(** ** Expiry of t-PollRetransmit *)

Lemma poll_expired_spec a n started s (r : R) :
  tx_inv a n started s ->
  exists s' out, on_expired_poll_retransmit_timer cfg s r = Ok (s', out) /\ tx_stays cfg a n started s s' /\
    pcell_tasks s' = pcell_tasks s.
Proof.
  intros Hs. unfold on_expired_poll_retransmit_timer. pose proof (tx_m_window cfg) as Hmw. pose proof (tx_ws_bounds cfg).
  pose proof (tinv_counts _ _ _ _ _ Hs) as (Ha & Hnn & HN).
  assert (exists s' out', Ok (s, [] : list tx_am_output) = Ok (s', out') /\
    tx_stays cfg a n started s s' /\ pcell_tasks s' = pcell_tasks s) as Hno by (by exists s, []; split_and!).
  destruct (nothing_to_send cfg s); [|done]. case_if; [done|].
  rewrite has_sn_view, (tinv_ack _ _ _ _ _ Hs).
  destruct (win_view (tx_window s) (a mod m)) as [info|] eqn:Ev; cbn [negb]; [|done].
  rewrite (win_at_view _ _ _ Ev). cbn [checked_bind].
  destruct (tinv_window _ _ _ _ _ Hs) as (_ & _ & _ & Honly). destruct (Honly _ _ Ev) as (k & Hk & Ek).
  apply (count_inj cfg a) in Ek; [|lia|lia]. subst k.
  destruct (window_entry cfg a n started (tx_window s) a info) as (_ & [Hsz _] & _); try apply Hs; try done; try lia.
  unfold rq_try_push. destruct (_ =? rq_capacity _).
  - set (s1 := s <| retx_queue := retx_queue s |>). assert (tx_inv a n started s1) as Hs1 by (eapply tx_inv_core; [exact Hs|by split_and!]).
    cbn [checked_bind]. destruct (update_mac_spec cfg a n started s1 r true Hs1) as (s2 & out & -> & Hs2 & Et2 & _). by eexists _, _.
  - set (s1 := s <| retx_queue := _ |>). assert (tx_inv a n started s1) as Hs1.
    { destruct Hs as [H1 H2 H3 H4 H5 H6 H7 H8]. split; try done. cbn. apply Forall_app. split; [done|].
      apply Forall_singleton. split; [done|]. exists a, info. cbn.
      rewrite wrap_small by (unfold in_range; lia). split_and!; first [done|lia]. }
    rewrite (tinv_ack _ _ _ _ _ Hs1).
    destruct (increment_spec a n started s1 a Hs1 Hk) as (s2 & out & -> & Hs2 & Eq2 & Et2). cbn [checked_bind].
    destruct (update_mac_spec cfg a n started s2 r true Hs2) as (s3 & out' & -> & [Hs3 Hp3] & Et3 & _). cbn [checked_bind].
    eexists _, _. split; [done|]. split; [split; [done|]|].
    + unfold pipeline in *. by rewrite Eq2 in Hp3.
    + by rewrite Et3, Et2.
Qed.

End tx_am_status.
