(* ===== verification/RlcTxAmRuns.v ===== *)
(** * RLC AM transmitter: what the transmitting entity guarantees

    The properties of every run of the transmitting entity from its construction,
    whatever states its receiving entity goes through: no assertion fails, the PDUs
    carry the SDUs of the upper layer in the form the receiving entity of the peer
    takes; and a concrete run over the circular map of the code. *)
From stdpp Require Import base numbers list.
From Stdlib Require Import ZArith Lia.
From S2P Require Import Prelude.
From S2P Require Import RlcConfig.
From S2P Require Import RlcAmPdu.
From S2P Require Import RlcAmPduProps.
From S2P Require Import SduWindow.
From S2P Require Import RlcRxAm.
From S2P Require Import RlcRxAmProps.
From S2P Require Import RlcRxAmDelivery.
From S2P Require Import RlcRetxQueue.
From S2P Require Import RlcSduQueue.
From S2P Require Import PdcpSn.
From S2P Require Import RlcTxBase.
From S2P Require Import RlcTxAm.
From S2P Require Import RlcAmEntity.
From S2P Require Import RlcTxAmProps.
From S2P Require Import RlcTxAmStatus.

Set Default Goal Selector "!".
Open Scope Z_scope.
Open Scope ran_scope.

Section tx_am_runs.
Context {W : Type -> Type} `{!SduWindow W} `{!SduWindowLaws W} {R : Type} `{!StatusProvider R}.
Variable cfg : rlc_tx_am_config.
Variable is_srb : bool.
(** The receiving entity of the peer has the same length of sequence numbers. *)
Variable rcfg : rlc_rx_am_config.
Hypothesis Hpeer : sn_size rcfg = tx_sn_size cfg.
Implicit Types s : tx_am_state W.
Implicit Types r : R.

Local Abbreviation m := (tx_mod cfg).
Local Abbreviation ws := (tx_window_size cfg).
Local Abbreviation tx_inv := (tx_inv cfg).

(** What the environment may do in a state: SDUs that are not empty and no longer
    than the range of segment offsets, 32-bit grants, and status reports with
    fields in range that acknowledge no SDU of which nothing was sent. *)
Definition tx_op_ok s (op : tx_am_op) : Prop :=
  match op with
  | TxSdu _ sdu _ _ => sdu_ok sdu
  | TxPull grant_len _ => is_u32 grant_len
  | TxRunTask =>
      match pcell_tasks s with
      | TaskStatusPdu status :: _ => status_in_ok cfg status /\ peer_status_ok cfg s status
      | _ => True
      end
  | _ => True
  end.

Fixpoint tx_ops_ok (ops : list (tx_am_op * R)) s : Prop :=
  match ops with
  | [] => True
  | (op, r) :: ops =>
      tx_op_ok s op /\
      match tx_am_step cfg is_srb op s r with
      | Ok (_, s', _, _) => tx_ops_ok ops s'
      | Panic => True
      end
  end.

Definition submitted (op : tx_am_op) : list (list Z) :=
  match op with TxSdu _ sdu _ _ => [sdu] | _ => [] end.

(** No PDU, data of an SDU started, or the status PDU of the receiving entity. *)
Definition pulled_ok (started : list (list Z)) (pdu : list Z) : Prop :=
  pdu = [] \/ (exists k, 0 <= k < zlen started /\ sent_pdu rcfg started k pdu) \/
  exists status, pdu = pack status.

Definition tx_step_effect (a : Z) (started : list (list Z)) s (op : tx_am_op) (pdu : list Z) s' : Prop :=
  exists a' n' started', tx_inv a' n' started' s' /\ a <= a' /\ started `prefix_of` started' /\
    sublist (pipeline started' s') (pipeline started s ++ submitted op) /\ pulled_ok started' pdu.

Lemma step_stays a n a' started s s' op :
  tx_inv a n started s -> a <= a' -> tx_stays cfg a' n started s s' -> tx_step_effect a started s op [] s'.
Proof.
  intros Hs Ha [Hs' Hp]. exists a', n, started. split_and!; try done; [|by left].
  by apply sublist_inserts_r.
Qed.

Lemma step_core a n started s s' op :
  tx_inv a n started s -> same_core s s' -> tx_step_effect a started s op [] s'.
Proof.
  intros Hs Hc. apply (step_stays a n a); [done|lia|]. split; [by eapply tx_inv_core|].
  unfold pipeline. by destruct Hc as (_ & _ & _ & _ & -> & _).
Qed.

(** A change of the SDU queue. *)
Lemma step_queue a n started s s' op q' :
  tx_inv a n started s -> same_core (s <| sdu_queue := q' |>) s' ->
  Forall (fun sdu => sdu_ok (sdu_buf sdu)) (sq_queue q') ->
  sublist (sdu_buf <$> sq_queue q') ((sdu_buf <$> sq_queue (sdu_queue s)) ++ submitted op) ->
  tx_step_effect a started s op [] s'.
Proof.
  intros Hs Hc Hq Hsub. exists a, n, started. split_and!; try done; [| |by left].
  - eapply tx_inv_core; [|exact Hc]. by destruct Hs; split.
  - destruct Hc as (_ & _ & _ & _ & Eq & _). unfold pipeline. rewrite Eq, <- app_assoc. by apply sublist_app.
Qed.

Lemma handle_sdu_step a n started s now sdu is_retx accepted :
  tx_inv a n started s -> sdu_ok sdu ->
  tx_step_effect a started s (TxSdu now sdu is_retx accepted) []
    (tx_handle_sdu cfg is_srb now sdu is_retx accepted s).1.
Proof.
  intros Hs Hsdu. unfold tx_handle_sdu, handle_changed_buffer_state. set (x := mk_rlc_sdu _ _ _ _).
  pose proof (sq_write_queue x (sdu_queue s)) as Hq. destruct (sq_write x (sdu_queue s)) as [[] q]; cbn [fst].
  - eapply (step_queue a n) with (q' := q); [done|repeat case_if; by split_and!| |].
    + rewrite Hq. apply Forall_app. split; [apply Hs|]. by apply Forall_singleton.
    + by rewrite Hq, fmap_app.
  - eapply (step_queue a n) with (q' := q); [done|by split_and!| |]; rewrite Hq; [apply Hs|].
    by apply sublist_inserts_r.
Qed.

Lemma discard_step a n started s pdcp_sn accepted :
  tx_inv a n started s ->
  tx_step_effect a started s (TxDiscardSdu pdcp_sn accepted) [] (discard_sdu pdcp_sn accepted s).1.
Proof.
  intros Hs. unfold discard_sdu, handle_changed_buffer_state.
  pose proof (sq_discard_queue pdcp_sn (sdu_queue s)) as Hq. destruct (sq_try_discard _ _) as [b q]. cbn in Hq.
  eapply (step_queue a n) with (q' := q); [done|destruct b; cbn; repeat case_if; by split_and!| |]; rewrite Hq; [apply Hs|].
  by apply sublist_inserts_r.
Qed.

Lemma pull_step a n started s grant_len deferred r :
  tx_inv a n started s -> is_u32 grant_len ->
  exists pdu s' r' out, pull_pdu cfg grant_len deferred s r = Ok (pdu, s', r', out) /\
    tx_step_effect a started s (TxPull grant_len deferred) pdu s'.
Proof.
  intros Hs Hg. pose proof (tinv_counts _ _ _ _ _ Hs) as (Ha & _).
  destruct (max_retx_reached s) eqn:Em.
  { unfold pull_pdu. rewrite Em. eexists _, _, _, _. split; [done|]. by apply (step_core a n). }
  destruct (provider_required r) eqn:Er.
  - destruct (pull_status_spec cfg grant_len deferred s r Em Er) as (pdu & r' & out & -> & Hpdu).
    eexists _, _, _, _. split; [done|]. exists a, n, started. split_and!; first [done|lia|by apply sublist_inserts_r|idtac].
    destruct Hpdu as [->|(status & -> & _)]; [by left|]. right. right. by exists status.
  - destruct (pull_data_spec cfg rcfg Hpeer a n started s grant_len r deferred Hs Hg Er)
      as (pdu & s' & out & -> & (n' & started' & Hs' & Hpre & Hsub & Hpdu) & _).
    eexists _, _, _, _. split; [done|]. exists a, n', started'. split_and!; first [done|lia|by apply sublist_inserts_r|idtac].
    destruct Hpdu as [->|(k & Hk & Hsent)]; [by left|]. right. left. exists k. split; [lia|done].
Qed.

Lemma run_task_step a n started s task tasks r :
  tx_inv a n started s -> pcell_tasks s = task :: tasks -> tx_op_ok s TxRunTask ->
  exists s' out, run_task cfg task (s <| pcell_tasks := tasks |>) r = Ok (s', out) /\
    tx_step_effect a started s TxRunTask [] s'.
Proof.
  intros Hs Et Hok. cbn in Hok. rewrite Et in Hok.
  set (s0 := s <| pcell_tasks := tasks |>).
  assert (tx_inv a n started s0) as Hs0 by (eapply tx_inv_core; [exact Hs|by split_and!]).
  destruct task as [status| |]; cbn [run_task].
  - destruct Hok as [H1 H2]. destruct (handle_status_spec cfg a n started s0 status r Hs0 H1 H2)
      as (s' & out & a' & -> & Ha' & Hst & _). eexists _, _. split; [done|]. by apply (step_stays a n a').
  - destruct (update_mac_spec cfg a n started s0 r false Hs0) as (s' & out & -> & Hst & _).
    eexists _, _. split; [done|]. apply (step_stays a n a); [done|lia|done].
  - eexists _, _. split; [done|]. apply (step_core a n); [done|by split_and!].
Qed.

Lemma tx_am_step_spec a n started s op r :
  tx_inv a n started s -> tx_op_ok s op ->
  exists pdu s' r' out, tx_am_step cfg is_srb op s r = Ok (pdu, s', r', out) /\
    tx_step_effect a started s op pdu s'.
Proof.
  intros Hs Hop. destruct op as [now sdu is_retx accepted|pdcp_sn accepted|grant_len deferred| |status accepted|accepted| | |accepted];
    cbn [tx_am_step].
  - eexists _, _, _, _. split; [done|]. by apply (handle_sdu_step a n).
  - eexists _, _, _, _. split; [done|]. by apply (discard_step a n).
  - by apply (pull_step a n).
  - destruct (get_buffer_state_spec cfg a n started s r Hs) as (bs & s' & -> & Hst & _).
    eexists _, _, _, _. split; [done|]. apply (step_stays a n a); [done|lia|done].
  - eexists _, _, _, _. split; [done|]. apply (step_core a n); [done|]. unfold add_task. cbn. case_if; by split_and!.
  - eexists _, _, _, _. split; [done|]. apply (step_core a n); [done|]. unfold handle_changed_buffer_state. cbn. repeat case_if; by split_and!.
  - destruct (pcell_tasks s) as [|task tasks] eqn:Et.
    + eexists _, _, _, _. split; [done|]. by apply (step_core a n).
    + destruct (run_task_step a n started s task tasks r Hs Et Hop) as (s' & out & -> & He). by eexists _, _, _, _.
  - destruct (poll_retransmit_timer s).
    + set (s0 := s <| poll_retransmit_timer := false |>).
      assert (tx_inv a n started s0) as Hs0 by (eapply tx_inv_core; [exact Hs|by split_and!]).
      destruct (poll_expired_spec cfg a n started s0 r Hs0) as (s' & out & -> & Hst & _).
      eexists _, _, _, _. split; [done|]. apply (step_stays a n a); [done|lia|done].
    + eexists _, _, _, _. split; [done|]. by apply (step_core a n).
  - destruct (stopped_upper s); eexists _, _, _, _; (split; [done|]); apply (step_core a n); try done.
    unfold add_task. cbn. case_if; by split_and!.
Qed.

(** ** Runs *)

Lemma pulled_ok_prefix started started' pdu :
  started `prefix_of` started' -> pulled_ok started pdu -> pulled_ok started' pdu.
Proof.
  intros [l ->] [->|[(k & Hk & Hpdu & Hc & header & Hread & Hsn & Hcarries)|Hstatus]]; [by left| |by right; right].
  right. left. exists k. rewrite zlen_app. unfold zlen in *. split; [lia|]. split; [done|]. split; [done|].
  exists header. by rewrite lookup_app_l by lia.
Qed.

Lemma init_inv s0 :
  tx_am_init (W := W) cfg = Ok s0 -> tx_inv 0 0 [] s0 /\ sq_queue (sdu_queue s0) = [].
Proof.
  unfold tx_am_init. pose proof (tx_ws_bounds cfg) as Hws. destruct (_ || _); [|done].
  assert (exists k, 0 <= k /\ ws = 2 ^ k) as (k & Hk & Ews).
  { unfold tx_window_size. destruct (tx_sn_size cfg); [by exists 11|by exists 17]. }
  rewrite Ews. destruct (win_make_spec (T := rlc_tx_am_sdu_info) k Hk) as (w & -> & Hwf & Hcap & Hsz & Hview).
  cbn [checked_bind]. intros [= <-]. split; [|done].
  split; cbn; try done; try (by constructor); try (unfold zlen; cbn; lia).
  split_and!; [done|congruence| |].
  - intros j Hj. unfold zlen in Hj. cbn in Hj. lia.
  - intros sn info Hv. by rewrite Hview in Hv.
Qed.

Lemma tx_am_run_spec ops : forall a n started s,
  tx_inv a n started s -> tx_ops_ok ops s ->
  exists pdus s' out a' n' started', tx_am_run cfg is_srb ops s = Ok (pdus, s', out) /\
    tx_inv a' n' started' s' /\ a <= a' /\ started `prefix_of` started' /\
    sublist (pipeline started' s') (pipeline started s ++ (ops.*1 ≫= submitted)) /\
    Forall (pulled_ok started') pdus.
Proof.
  induction ops as [|[op r] ops IH]; intros a n started s Hs Hok; cbn [tx_am_run].
  { exists [], s, [], a, n, started. split_and!; try done; try lia. cbn. by rewrite app_nil_r. }
  destruct Hok as [Hop Hok].
  destruct (tx_am_step_spec a n started s op r Hs Hop) as (pdu & s1 & r1 & out & Estep & He).
  rewrite Estep in Hok |- *. destruct He as (a1 & n1 & started1 & Hs1 & Ha1 & Hpre1 & Hsub1 & Hpdu).
  destruct (IH a1 n1 started1 s1 Hs1 Hok) as (pdus & s2 & out' & a2 & n2 & started2 & Erun & Hs2 & Ha2 & Hpre2 & Hsub2 & Hpdus).
  cbn [checked_bind]. rewrite Erun. cbn [checked_bind].
  exists (pdu :: pdus), s2, (out ++ out'), a2, n2, started2. split_and!; try done; [lia|by etrans| |].
  - etrans; [exact Hsub2|]. rewrite fmap_cons, bind_cons, app_assoc. by apply sublist_app.
  - constructor; [|done]. by eapply pulled_ok_prefix.
Qed.

Lemma tx_run_from_init s0 ops :
  tx_am_init cfg = Ok s0 -> tx_ops_ok ops s0 ->
  exists pdus s out a n started, tx_am_run cfg is_srb ops s0 = Ok (pdus, s, out) /\
    tx_inv a n started s /\
    sublist (pipeline started s) (ops.*1 ≫= submitted) /\ Forall (pulled_ok started) pdus.
Proof.
  intros Hinit Hok. destruct (init_inv s0 Hinit) as [Hs Eq].
  destruct (tx_am_run_spec ops 0 0 [] s0 Hs Hok) as (pdus & s & out & a & n & started & Er & Hs' & _ & _ & Hsub & Hp).
  exists pdus, s, out, a, n, started. split_and!; try done. unfold pipeline in *. by rewrite Eq in Hsub.
Qed.

(** C8. No assertion of the transmitting AM entity can fail and no loop of it runs on: after
    any SDUs of 1 to 2^16 - 1 bytes (an empty one aborts, see empty_sdu_panics), discards,
    grants, status reports whose fields are in range and which acknowledge beyond TX_Next
    only together with what they miss of the SDU under segmentation, timer expiries and
    stops, and whatever the receiving entity does in between, the SDUs of the window are the
    numbers from TX_Next_Ack on, without gap and within the window size; TX_Next is their
    end, or the last of them while it is being segmented; and the retransmission queue only
    holds bytes of SDUs in the window. *)
Theorem tx_am_never_panics s0 ops :
  tx_am_init cfg = Ok s0 -> tx_ops_ok ops s0 ->
  exists pdus s out, tx_am_run cfg is_srb ops s0 = Ok (pdus, s, out) /\
    let acked := tx_mod_base cfg (tx_next_ack s) in
    let in_use := acked (tx_next s) + (if sn_under_segmentation s =? INVALID_RLC_SN then 0 else 1) in
    in_use <= ws /\ win_size (tx_window s) = in_use /\
    (sn_under_segmentation s = INVALID_RLC_SN \/ sn_under_segmentation s = tx_next s) /\
    (forall sn, 0 <= sn < m -> has_sn (tx_window s) sn = true <-> acked sn < in_use) /\
    Forall (fun item => exists info, win_view (tx_window s) (retx_sn (item_retx item)) = Some info /\
      0 <= retx_so (item_retx item) /\ 0 < retx_length (item_retx item) /\
      retx_so (item_retx item) + retx_length (item_retx item) <= zlen (tx_sdu info))
      (rq_queue (retx_queue s)).
Proof.
  intros Hinit Hok. destruct (tx_run_from_init s0 ops Hinit Hok) as (pdus & s & out & a & n & started & E & Hs & _ & _).
  exists pdus, s, out. split; [done|]. cbn zeta. pose proof (tx_m_window cfg) as Hmw. pose proof (tx_ws_bounds cfg).
  destruct Hs as [(Ha & Hn & HN) Eack Enext Eseg Hw _ _ Hretx]. rewrite Eack, Enext, (dist_at cfg a n) by lia.
  assert (n - a + (if sn_under_segmentation s =? INVALID_RLC_SN then 0 else 1) = zlen started - a) as ->.
  { rewrite Eseg. destruct (zlen started =? n) eqn:EN; zbool; [rewrite Z.eqb_refl; lia|].
    rewrite (proj2 (Z.eqb_neq _ _)) by apply (count_valid cfg). lia. }
  split_and!; [lia|by eapply (window_size_count cfg a n); [|lia|]|rewrite Eseg; case_if; tauto| |].
  - intros sn Hsn. rewrite has_sn_spec. destruct Hw as (_ & _ & Hview & Honly). split.
    + intros [info Hv]. apply Honly in Hv as (k & Hk & ->). rewrite (dist_at cfg a k) by lia. lia.
    + intros Hd. pose proof (mod_base_range m (a mod m) sn) as Hr. change (mod_base m) with (tx_mod_base cfg) in Hr.
      destruct (Hview (a + tx_mod_base cfg (a mod m) sn)) as (info & Hv & _); [lia|]. exists info.
      rewrite (mod_base_inv m (a mod m) sn) by done. by rewrite Zplus_mod_idemp_l.
  - eapply Forall_impl; [exact Hretx|]. intros item [_ (k & info & _ & -> & Hv & Hrest)]. by exists info.
Qed.

(** C18. Integrity of the transmission. For every execution with SDUs of 1 to 2^16 - 1 bytes
    and status reports whose fields are in range and which acknowledge beyond TX_Next only
    together with what they miss of the SDU under segmentation, there is a list of the SDUs
    that the entity started to send, in the order and at most in the number in which the
    upper layer submitted them, such that every PDU pulled by the MAC is empty, or a status
    PDU, or a data PDU that carries the SDU of its number, or the piece of it that its
    offset and length announce, and that the receiving entity of the peer takes. *)
Theorem tx_am_integrity s0 ops :
  tx_am_init cfg = Ok s0 -> tx_ops_ok ops s0 ->
  exists pdus s out started, tx_am_run cfg is_srb ops s0 = Ok (pdus, s, out) /\
    sublist started (ops.*1 ≫= submitted) /\ Forall (pulled_ok started) pdus.
Proof.
  intros Hinit Hok. destruct (tx_run_from_init s0 ops Hinit Hok) as (pdus & s & out & a & n & started & E & _ & Hsub & Hp).
  exists pdus, s, out, started. split_and!; [done| |done]. etrans; [|exact Hsub]. by apply sublist_inserts_r.
Qed.

(** C39. A PDU never exceeds its grant. In every state that SDUs of 1 to 2^16 - 1 bytes and
    status reports lead to whose fields are in range and which acknowledge beyond TX_Next
    only together with what they miss of the SDU under segmentation, a pull returns, and
    what it returns, a retransmission, a segment, a whole SDU, or a status PDU, trimmed
    where needed, has at most as many bytes as the MAC granted; for a status PDU provided
    that the receiving entity keeps it well-formed and smaller than 2^32 bytes. *)
Theorem tx_am_pdu_fits_grant s0 ops pdus s out grant_len deferred r :
  tx_am_init cfg = Ok s0 -> tx_ops_ok ops s0 -> tx_am_run cfg is_srb ops s0 = Ok (pdus, s, out) ->
  is_u32 grant_len ->
  (provider_required r = true -> let status := (provider_get deferred r).1 in
     status_wf status /\ sizeof_header_ack_sn + nack_sizes status (sp_nacks status) < 2 ^ 32) ->
  exists pdu s' r' out', pull_pdu cfg grant_len deferred s r = Ok (pdu, s', r', out') /\ zlen pdu <= grant_len.
Proof.
  intros Hinit Hok Hrun Hg Hstatus.
  destruct (tx_run_from_init s0 ops Hinit Hok) as (pdus' & s1 & out1 & a & n & started & E & Hs & _).
  rewrite Hrun in E. injection E as <- <- <-.
  destruct (max_retx_reached s) eqn:Em.
  { unfold pull_pdu. rewrite Em. eexists _, _, _, _. split; [done|]. apply Hg. }
  destruct (provider_required r) eqn:Er.
  - destruct (pull_status_spec cfg grant_len deferred s r Em Er) as (pdu & r' & out' & -> & Hpdu).
    eexists _, _, _, _. split; [done|]. destruct (Hstatus eq_refl) as [Hwf Hsz].
    destruct Hpdu as [->|(status & -> & [[-> Hfit]|Htrim])]; [apply Hg|by rewrite pack_length|].
    pose proof (trim_cases grant_len _ Hwf Hsz) as Ht. rewrite Htrim in Ht. destruct Ht as (_ & _ & Ht).
    by apply (Ht eq_refl).
  - destruct (pull_data_spec cfg rcfg Hpeer a n started s grant_len r deferred Hs Hg Er)
      as (pdu & s' & out' & -> & _ & Hlen). by eexists _, _, _, _.
Qed.
End tx_am_runs.

(** ** A concrete run

    An SDU in two segments, the loss of the first, the retransmission, the
    acknowledgement, and a poll timer. *)

#[local] Instance ex_provider : StatusProvider (rx_am_state circular_map) := rx_am_provider ex_rx_am_cfg.

Definition ex_tx_init : tx_am_state circular_map := am_tx ex_am_init.
Definition ex_nack_status : rlc_am_status_pdu :=
  mk_rlc_am_status_pdu am_size12bits 4096 [mk_rlc_am_status_nack 0 true 0 1 false 0] 9 0 1.
Definition ex_ack_status : rlc_am_status_pdu := mk_rlc_am_status_pdu am_size12bits 4096 [] 3 0 1.
Definition ex_tx_ops : list (tx_am_op * rx_am_state circular_map) :=
  (fun op => (op, am_rx ex_am_init)) <$>
  [TxSdu 0 ex_am_sdu false true; TxRunTask; TxPull 4 true; TxPull 9 true;
   TxOnStatusPdu ex_nack_status true; TxRunTask; TxPull 50 true; TxPollRetransmitExpired;
   TxOnStatusPdu ex_ack_status true; TxRunTask; TxStop true].

Lemma ex_tx_init_run : tx_am_init ex_tx_am_cfg = Ok ex_tx_init.
Proof. by vm_compute. Qed.

Lemma ex_nack_status_ok : status_in_ok ex_tx_am_cfg ex_nack_status.
Proof.
  split; [by vm_compute|]. apply Forall_singleton. by split.
Qed.
Lemma ex_ack_status_ok : status_in_ok ex_tx_am_cfg ex_ack_status.
Proof. split; [by vm_compute|]. constructor. Qed.
Lemma ex_am_sdu_ok : sdu_ok ex_am_sdu.
Proof. split; [by vm_compute|]. repeat (constructor; [by vm_compute|]). constructor. Qed.

(** Evaluates the step at the head of a run. *)
Ltac eval_tx_step :=
  match goal with |- match ?t with _ => _ end => let r := eval vm_compute in t in change t with r end;
  cbn iota.

Lemma ex_tx_ops_ok : tx_ops_ok ex_tx_am_cfg false ex_tx_ops ex_tx_init.
Proof.
  pose proof ex_am_sdu_ok. pose proof ex_nack_status_ok. pose proof ex_ack_status_ok. unfold ex_tx_ops, ex_tx_init. cbn [fmap list_fmap].
  do 11 (split; [first [done|exact I|cbn; unfold in_range; lia|split; [done|by vm_compute]]|eval_tx_step]). exact I.
Qed.

Lemma tx_am_never_panics_witness :
  exists pdus s out, tx_am_run ex_tx_am_cfg false ex_tx_ops ex_tx_init = Ok (pdus, s, out) /\
    win_size (tx_window s) <= 2048.
Proof.
  destruct (tx_am_never_panics ex_tx_am_cfg false ex_rx_am_cfg eq_refl ex_tx_init ex_tx_ops
    ex_tx_init_run ex_tx_ops_ok) as (pdus & s & out & E & Hin & Hsz & _).
  exists pdus, s, out. split; [exact E|]. cbn zeta in Hsz, Hin. rewrite Hsz. exact Hin.
Defined.

Lemma tx_am_integrity_witness :
  exists pdus s out started, tx_am_run ex_tx_am_cfg false ex_tx_ops ex_tx_init = Ok (pdus, s, out) /\
    sublist started [ex_am_sdu] /\ Forall (pulled_ok ex_rx_am_cfg started) pdus.
Proof.
  exact (tx_am_integrity ex_tx_am_cfg false ex_rx_am_cfg eq_refl ex_tx_init ex_tx_ops ex_tx_init_run ex_tx_ops_ok).
Defined.

(** The transmitter before its first PDU, and when it was asked for the first two bytes again. *)
Definition ex_tx_state (k : nat) : tx_am_state circular_map :=
  match tx_am_run ex_tx_am_cfg false (take k ex_tx_ops) ex_tx_init with Ok (_, s, _) => s | Panic => ex_tx_init end.
Definition ex_tx_queued : tx_am_state circular_map := Eval vm_compute in ex_tx_state 1.
Definition ex_tx_nacked : tx_am_state circular_map := Eval vm_compute in ex_tx_state 6.

(** A receiving entity that misses the SDUs 0 and 2: its report has two NACKs in 7 bytes. *)
Definition ex_rx_holes : rx_am_state circular_map :=
  Eval vm_compute in
    match rx_am_run ex_rx_am_cfg [RxPdu true [128; 1; 21]; RxPdu true [128; 3; 23]; RxReassemblyExpired; RxReassemblyExpired]
            (am_rx ex_am_init) with
    | Ok (s, _) => s
    | Panic => am_rx ex_am_init
    end.

Lemma ex_tx_prefix_ok k : tx_ops_ok ex_tx_am_cfg false (take k ex_tx_ops) ex_tx_init.
Proof.
  pose proof ex_tx_ops_ok as H. revert H. generalize ex_tx_ops ex_tx_init. induction k as [|k IH]; intros ops s H; [exact I|].
  destruct ops as [|[op r] ops]; [exact I|]. destruct H as [Hop H]. split; [exact Hop|].
  destruct (tx_am_step _ _ _ _ _) as [[[[pdu s1] r1] out]|]; [by apply IH|exact I].
Qed.

Lemma ex_rx_holes_status :
  let status := (provider_get true ex_rx_holes).1 in
  status_wf status /\ sizeof_header_ack_sn + nack_sizes status (sp_nacks status) < 2 ^ 32.
Proof.
  intros status. split; [|by vm_compute]. vm_compute in status. subst status. split; [done| | |done].
  - repeat (apply Forall_cons_2; [by split|]). apply Forall_nil_2.
  - by vm_compute.
Qed.

(** A first segment, a status PDU of which one NACK is cut off, and a part of a retransmission. *)
Lemma tx_am_pdu_fits_grant_witness :
  (exists pdu s' r' out', pull_pdu ex_tx_am_cfg 3 true ex_tx_queued (am_rx ex_am_init) = Ok (pdu, s', r', out') /\
    pdu = [144; 0; 128] /\ zlen pdu <= 3) /\
  (exists pdu s' r' out', pull_pdu ex_tx_am_cfg 6 true ex_tx_queued ex_rx_holes = Ok (pdu, s', r', out') /\
    pdu = [0; 2; 128; 0; 0] /\ zlen pdu <= 6) /\
  (exists pdu s' r' out', pull_pdu ex_tx_am_cfg 3 true ex_tx_nacked (am_rx ex_am_init) = Ok (pdu, s', r', out') /\
    pdu = [144; 0; 128] /\ zlen pdu <= 3).
Proof.
  assert (forall k g r s pdus out, tx_am_run ex_tx_am_cfg false (take k ex_tx_ops) ex_tx_init = Ok (pdus, s, out) -> is_u32 g ->
    (provider_required r = true -> let status := (provider_get true r).1 in
       status_wf status /\ sizeof_header_ack_sn + nack_sizes status (sp_nacks status) < 2 ^ 32) ->
    exists pdu s' r' out', pull_pdu ex_tx_am_cfg g true s r = Ok (pdu, s', r', out') /\ zlen pdu <= g) as H.
  { intros k g r s pdus out E Hg Hst.
    exact (tx_am_pdu_fits_grant ex_tx_am_cfg false ex_rx_am_cfg eq_refl ex_tx_init (take k ex_tx_ops) pdus s out g true r
      ex_tx_init_run (ex_tx_prefix_ok k) E Hg Hst). }
  split; [|split].
  - edestruct (H 1%nat 3 (am_rx ex_am_init) ex_tx_queued) as (pdu & s' & r' & out' & E & Hlen);
      [vm_compute; reflexivity|unfold in_range; lia|vm_compute; discriminate|].
    exists pdu, s', r', out'. split; [exact E|]. split; [vm_compute in E; by injection E|exact Hlen].
  - edestruct (H 1%nat 6 ex_rx_holes ex_tx_queued) as (pdu & s' & r' & out' & E & Hlen);
      [vm_compute; reflexivity|unfold in_range; lia|intros _; exact ex_rx_holes_status|].
    exists pdu, s', r', out'. split; [exact E|]. split; [vm_compute in E; by injection E|exact Hlen].
  - edestruct (H 6%nat 3 (am_rx ex_am_init) ex_tx_nacked) as (pdu & s' & r' & out' & E & Hlen);
      [vm_compute; reflexivity|unfold in_range; lia|vm_compute; discriminate|].
    exists pdu, s', r', out'. split; [exact E|]. split; [vm_compute in E; by injection E|exact Hlen].
Defined.

(** ** A departure from the intent

    An SDU without bytes enters the window and yields no PDU, and TX_Next is not advanced; the
    next SDU is added to the window under the same number, which fails an assertion. *)
Example empty_sdu_panics :
  let op sdu := TxSdu 0 sdu false true in
  let r := am_rx ex_am_init in
  match tx_am_run ex_tx_am_cfg false [(op [], r); (TxPull 50 true, r); (op ex_am_sdu, r)] ex_tx_init with
  | Ok (pdus, s, _) =>
      pdus = [[]; []; []] /\ tx_next s = 0 /\ has_sn (tx_window s) 0 = true /\
      tx_am_step ex_tx_am_cfg false (TxPull 50 true) s r = Panic
  | Panic => False
  end.
Proof. by vm_compute. Qed.
