(* ===== verification/RlcTxAmRetx.v ===== *)
(** * RLC AM transmitter: what a status report schedules

    The retransmission queue after a status report, byte by byte: it covers exactly
    the bytes the report says are missing. *)
From stdpp Require Import base numbers list.
From Stdlib Require Import ZArith Lia.
From S2P Require Import Prelude.
From S2P Require Import RlcConfig.
From S2P Require Import RlcAmPdu.
From S2P Require Import RlcAmPduProps.
From S2P Require Import SduWindow.
From S2P Require Import RlcRxAm.
From S2P Require Import RlcRetxQueue.
From S2P Require Import RlcSduQueue.
From S2P Require Import RlcTxBase.
From S2P Require Import RlcTxAm.
From S2P Require Import RlcAmEntity.
From S2P Require Import RlcTxAmProps.
From S2P Require Import RlcTxAmStatus.
From S2P Require Import RlcTxAmRuns.

Set Default Goal Selector "!".
Open Scope Z_scope.
Open Scope ran_scope.

Definition item_covers (sn off : Z) (item : rlc_retx_queue_item) : bool :=
  (retx_sn (item_retx item) =? sn) && (retx_so (item_retx item) <=? off) &&
    (off <? retx_so (item_retx item) + retx_length (item_retx item)).

(** Byte [off] of the SDU with number [sn] is scheduled for retransmission. *)
Definition retx_covers (q : rlc_retx_queue) (sn off : Z) : bool := existsb (item_covers sn off) (rq_queue q).

Section retx.
Context {W : Type -> Type} `{!SduWindow W} `{!SduWindowLaws W} {R : Type} `{!StatusProvider R}.
Variable cfg : rlc_tx_am_config.
Implicit Types s : tx_am_state W.

Local Abbreviation m := (tx_mod cfg).
Local Abbreviation ws := (tx_window_size cfg).
Local Abbreviation tx_inv := (tx_inv cfg).
#[local] Existing Instance tx_modulus.

(** The offsets of a NACK for SDUs from number [j] on are bytes of these SDUs. *)
Definition nack_in (started : list (list Z)) (nack : rlc_am_status_nack) (j : Z) : Prop :=
  has_so nack = true ->
  (forall sdu, started !! Z.to_nat j = Some sdu -> so_start nack < zlen sdu) /\
  (forall sdu, started !! Z.to_nat (j + nack_len nack - 1) = Some sdu ->
     so_end nack = so_end_of_sdu \/ so_end nack < zlen sdu) /\
  (nack_len nack = 1 -> so_start nack <= so_end nack).

Lemma nack_covers_at nack j k off :
  nack_sn nack = j mod m -> j <= k < j + m ->
  nack_covers m nack (k mod m) off =
    (k - j <? nack_len nack) &&
    (negb (has_so nack) || (negb (k =? j) || (so_start nack <=? off)) &&
       (negb (k - j =? nack_len nack - 1) || (off <=? so_end nack))).
Proof.
  intros E Hk. unfold nack_covers. rewrite E, <- Zminus_mod, (Z.mod_small (k - j)) by lia.
  f_equal. f_equal. f_equal. f_equal. f_equal. destruct (k =? j) eqn:Ek; zbool; [by subst; rewrite Z.sub_diag|].
  apply Z.eqb_neq. lia.
Qed.

(** A NACK of an SDU before [k] without range says nothing about [k]. *)
Lemma nack_covers_other nack j k off :
  nack_sn nack = j mod m -> nack_len nack = 1 -> k <> j -> j - m < k < j + m ->
  nack_covers m nack (k mod m) off = false.
Proof.
  intros E Hl Hne Hk. unfold nack_covers. rewrite E, <- Zminus_mod, Hl.
  assert ((k - j) mod m <> 0) as Hd.
  { intros H0. assert (k mod m = j mod m) as H.
    { rewrite <- (Z.sub_add j k), <- Zplus_mod_idemp_l, H0. done. }
    destruct (decide (j <= k)); [apply (count_inj cfg j) in H; lia|apply (count_inj cfg k) in H; lia]. }
  pose proof (mod_range cfg (k - j)). by rewrite (proj2 (Z.ltb_ge _ _)) by lia.
Qed.

(** The offsets of a NACK for an SDU that was sent completely. *)
Lemma nack_offsets_exact info nack :
  sdu_ok (tx_sdu info) -> is_u16 (so_start nack) -> is_u16 (so_end nack) ->
  (has_so nack = true -> so_start nack < zlen (tx_sdu info) /\
     (so_end nack = so_end_of_sdu \/ so_end nack < zlen (tx_sdu info)) /\ so_start nack <= so_end nack) ->
  exists nack', nack_offsets false info nack = Some nack' /\
    repair_offsets (u32 (zlen (tx_sdu info))) nack' = (nack', []) /\ nack_sn nack' = nack_sn nack /\
    0 <= so_start nack' <= so_end nack' /\ so_end nack' < zlen (tx_sdu info) /\
    forall off, 0 <= off < zlen (tx_sdu info) ->
      (so_start nack' <=? off) && (off <=? so_end nack') =
      negb (has_so nack) || (so_start nack <=? off) && (off <=? so_end nack).
Proof.
  intros [Hlen _] Hst Hend Hok. unfold in_range in *.
  assert (u32 (zlen (tx_sdu info)) = zlen (tx_sdu info)) as E32 by (apply wrap_small; unfold in_range; lia).
  assert (u16 (zlen (tx_sdu info) - 1) = zlen (tx_sdu info) - 1) as E16 by (apply wrap_small; unfold in_range; lia).
  assert (forall nk : rlc_am_status_nack, 0 <= so_start nk <= so_end nk -> so_end nk < zlen (tx_sdu info) ->
    repair_offsets (zlen (tx_sdu info)) nk = (nk, [])) as Hrep.
  { intros nk H1 H2. unfold repair_offsets. rewrite !(proj2 (Z.ltb_ge _ _)), !(proj2 (Z.leb_gt _ _)) by lia. done. }
  unfold nack_offsets. rewrite E32, E16. destruct (has_so nack) eqn:Eso; cbn [negb orb].
  - destruct (Hok eq_refl) as (H1 & H2 & H3). destruct (so_end nack =? so_end_of_sdu) eqn:Ee; zbool.
    + eexists. split; [done|]. split_and!; cbn; try (apply Hrep; cbn); try done; try lia.
      intros off Hoff. rewrite Ee. unfold so_end_of_sdu. rewrite !(proj2 (Z.leb_le off _)) by lia. done.
    + destruct H2 as [?|H2]; [done|]. eexists. split; [done|]. split_and!; try apply Hrep; try done; lia.
  - cbn [so_end]. assert (forall x y z : rlc_am_status_nack, (if so_end x =? so_end_of_sdu then Some y else Some z) =
      Some (if so_end x =? so_end_of_sdu then y else z)) as Hif by (intros; by case_if).
    rewrite Hif. eexists. split; [done|]. case_if; split_and!; cbn; try (apply Hrep; cbn); try done; try lia;
      intros off Hoff; rewrite !(proj2 (Z.leb_le _ _)) by lia; done.
Qed.

(** What an operation adds to the retransmission queue, for the SDUs sent
    completely: at most [room] elements, which cover what [added] says. *)
Definition adds_retx (a n : Z) (started : list (list Z)) (room : Z) (added : Z -> Z -> bool) s s' : Prop :=
  zlen (rq_queue (retx_queue s')) <= zlen (rq_queue (retx_queue s)) + room /\
  rq_capacity (retx_queue s') = rq_capacity (retx_queue s) /\
  forall k sdu off, a <= k < n -> started !! Z.to_nat k = Some sdu -> 0 <= off < zlen sdu ->
    retx_covers (retx_queue s') (k mod m) off = retx_covers (retx_queue s) (k mod m) off || added (k mod m) off.

Lemma retx_adds_nothing a n started room added s s' :
  retx_queue s' = retx_queue s -> 0 <= room ->
  (forall k sdu off, a <= k < n -> started !! Z.to_nat k = Some sdu -> 0 <= off < zlen sdu -> added (k mod m) off = false) ->
  adds_retx a n started room added s s'.
Proof.
  intros E Hroom Hno. unfold adds_retx. rewrite E. split_and!; [lia|done|]. intros k sdu off Hk Hst Hoff.
  by rewrite (Hno k sdu off), orb_false_r.
Qed.

Lemma adds_trans a n started r1 r2 f g s1 s2 s3 :
  adds_retx a n started r1 f s1 s2 -> adds_retx a n started r2 g s2 s3 ->
  adds_retx a n started (r1 + r2) (fun sn off => f sn off || g sn off) s1 s3.
Proof.
  intros (H1 & H2 & H3) (H4 & H5 & H6). split_and!; [lia|congruence|]. intros k sdu off Hk Hst Hoff.
  by rewrite (H6 k sdu off), (H3 k sdu off), orb_assoc.
Qed.

Lemma adds_weaken a n started r1 r2 f g s s' :
  adds_retx a n started r1 f s s' -> r1 <= r2 ->
  (forall k sdu off, a <= k < n -> started !! Z.to_nat k = Some sdu -> 0 <= off < zlen sdu -> f (k mod m) off = g (k mod m) off) ->
  adds_retx a n started r2 g s s'.
Proof.
  intros (H1 & H2 & H3) Hr Hfg. split_and!; [lia|done|]. intros k sdu off Hk Hst Hoff.
  by rewrite (H3 k sdu off), (Hfg k sdu off).
Qed.

Lemma push_covers retx q sn off :
  zlen (rq_queue q) < rq_capacity q ->
  rq_try_push retx q = (true, q <| rq_queue ::= fun l => l ++ [mk_rlc_retx_queue_item false retx] |>
           <| rq_st ::= retx_state_add retx |>) /\
  retx_covers (rq_try_push retx q).2 sn off =
    retx_covers q sn off || item_covers sn off (mk_rlc_retx_queue_item false retx).
Proof.
  intros Hroom. unfold rq_try_push. rewrite (proj2 (Z.eqb_neq _ _)) by lia. split; [done|].
  unfold retx_covers. cbn -[item_covers]. rewrite existsb_app. cbn [existsb]. by rewrite orb_false_r.
Qed.

Lemma range_last nack j :
  nack_wf (tx_sn_size cfg) nack -> nack_sn nack = j mod m -> 0 < nack_range nack ->
  u32 (nack_sn nack + nack_range nack - 1) mod m = (j + nack_range nack - 1) mod m.
Proof.
  intros Hw E Hr. pose proof (tx_m_window cfg). pose proof (tx_ws_bounds cfg).
  pose proof (nwf_range _ _ Hw). pose proof (nwf_sn _ _ Hw) as Hsn. unfold in_range in *.
  rewrite wrap_small by (unfold in_range, tx_mod in *; lia). rewrite E.
  replace (j mod m + nack_range nack - 1) with (j mod m + (nack_range nack - 1)) by lia.
  rewrite Zplus_mod_idemp_l. f_equal. lia.
Qed.

(** The NACK of one number of a range, at the bytes of an SDU. *)
Lemma range_item_fields nack j i :
  nack_wf (tx_sn_size cfg) nack -> nack_sn nack = j mod m -> j <= i < j + nack_range nack ->
  let item := range_item cfg nack (i mod m) in
  nack_sn item = i mod m /\ has_nack_range item = false /\
  (has_so nack = false -> has_so item = false) /\
  (has_so nack = true ->
     so_start item = (if i =? j then so_start nack else 0) /\
     so_end item = (if i =? j + nack_range nack - 1 then so_end nack else so_end_of_sdu) /\
     has_so item = negb (so_start item =? 0) || negb (so_end item =? so_end_of_sdu)).
Proof.
  intros Hw E Hi item. pose proof (tx_m_window cfg). pose proof (tx_ws_bounds cfg).
  pose proof (nwf_range _ _ Hw) as Hr. unfold in_range in Hr. unfold item, range_item. rewrite (range_last nack j) by first [done|lia].
  assert ((i mod m =? nack_sn nack) = (i =? j)) as ->.
  { rewrite E. destruct (i =? j) eqn:Eij; zbool; [subst; by apply Z.eqb_refl|]. apply Z.eqb_neq. intros Ei%(count_inj cfg j); lia. }
  assert ((i mod m =? (j + nack_range nack - 1) mod m) = (i =? j + nack_range nack - 1)) as ->.
  { destruct (i =? _) eqn:Eij; zbool; [subst; by apply Z.eqb_refl|]. apply Z.eqb_neq. intros Ei%(count_inj cfg j); lia. }
  destruct (has_so nack); [|by split_and!]. by destruct (i =? j), (i =? j + nack_range nack - 1).
Qed.

Lemma range_item_covers nack j i k off :
  nack_wf (tx_sn_size cfg) nack -> has_nack_range nack = true -> nack_sn nack = j mod m ->
  j <= i < j + nack_range nack -> j - ws <= k < j + ws -> 0 <= off < so_end_of_sdu ->
  nack_covers m (range_item cfg nack (i mod m)) (k mod m) off = (k =? i) && nack_covers m nack (k mod m) off.
Proof.
  intros Hw Hr E Hi Hk Hoff. pose proof (tx_m_window cfg). pose proof (tx_ws_bounds cfg).
  pose proof (nwf_range _ _ Hw) as Hrg. unfold in_range in Hrg.
  destruct (range_item_fields nack j i Hw E Hi) as (Ei & Hri & Hno & Hso).
  assert (nack_len (range_item cfg nack (i mod m)) = 1) as Hl by (unfold nack_len; by rewrite Hri).
  destruct (k =? i) eqn:Eki; zbool; cbn [andb]; [subst k|apply (nack_covers_other _ i); [done|done|done|lia]].
  rewrite (nack_covers_at _ i i), (nack_covers_at nack j i) by first [done|lia].
  rewrite Hl, Z.eqb_refl, Z.sub_diag. cbn [Z.ltb Z.compare negb andb orb Z.sub Z.eqb].
  assert (nack_len nack = nack_range nack) as -> by (unfold nack_len; by rewrite Hr).
  rewrite (proj2 (Z.ltb_lt (i - j) _)) by lia. cbn.
  assert ((i - j =? nack_range nack - 1) = (i =? j + nack_range nack - 1)) as ->.
  { destruct (i =? j + nack_range nack - 1) eqn:Eij; zbool; [apply Z.eqb_eq|apply Z.eqb_neq]; lia. }
  assert (forall x y, negb (negb (x =? 0) || negb (y =? so_end_of_sdu)) || (x <=? off) && (off <=? y) =
    (x <=? off) && (off <=? y)) as Hwhole.
  { intros x y. destruct (x =? 0) eqn:Ex, (y =? so_end_of_sdu) eqn:Ey; zbool; cbn [negb orb]; try done.
    by rewrite !(proj2 (Z.leb_le _ _)) by lia. }
  destruct (has_so nack); [|by rewrite Hno]. destruct (Hso eq_refl) as (Es & Ee & ->). rewrite Hwhole, Es, Ee. cbn [negb orb].
  destruct (i =? j), (i =? j + nack_range nack - 1); cbn [negb orb andb];
    rewrite ?(proj2 (Z.leb_le 0 off)), ?(proj2 (Z.leb_le off so_end_of_sdu)), ?andb_true_r by lia; done.
Qed.

Lemma range_end nack j :
  nack_wf (tx_sn_size cfg) nack -> nack_sn nack = j mod m ->
  u32 (nack_sn nack + nack_range nack) mod m = (j + nack_range nack) mod m.
Proof.
  intros Hw E. pose proof (tx_m_window cfg). pose proof (tx_ws_bounds cfg).
  pose proof (nwf_range _ _ Hw). pose proof (nwf_sn _ _ Hw) as Hsn. unfold in_range in *.
  rewrite wrap_small by (unfold in_range, tx_mod in *; lia). by rewrite E, Zplus_mod_idemp_l.
Qed.

Section one_report.
(** The counts of TX_Next_Ack before and after the acknowledgements, of TX_Next and
    of the number the report acknowledges; [started] are the SDUs of the window. *)
Variables (a0 a n c : Z) (started : list (list Z)).
Hypothesis Ha0 : a0 <= a.
Hypothesis Hc : c <= n + 1.
Hypothesis Hlast : c = n + 1 -> zlen started = n + 1.
Hypothesis Hn : n <= a0 + ws.

Lemma retx_push_adds s retx added (b : bool) s' (out out' : list tx_am_output) :
  zlen (rq_queue (retx_queue s)) < rq_capacity (retx_queue s) ->
  (forall k sdu off, a <= k < n -> started !! Z.to_nat k = Some sdu -> 0 <= off < zlen sdu ->
     item_covers (k mod m) off (mk_rlc_retx_queue_item false retx) = added (k mod m) off) ->
  (let '(pushed, q) := rq_try_push retx (retx_queue s) in Ok (pushed, s <| retx_queue := q |>, out)) = Ok (b, s', out') ->
  adds_retx a n started 1 added s s'.
Proof.
  intros Hroom Hadd. pose proof (fun sn off => push_covers retx (retx_queue s) sn off Hroom) as Hp.
  rewrite (proj1 (Hp 0 0)) in *. intros [= <- <- <-]. split_and!; [cbn; rewrite zlen_app; done|done|].
  intros k sdu off Hk Hsk Hoff. rewrite <- (Hadd k sdu off) by done. destruct (Hp (k mod m) off) as [E1 E2]. by rewrite E1 in E2.
Qed.

Lemma handle_nack_covers s nack j b s' out :
  tx_inv a n started s -> nack_wf (tx_sn_size cfg) nack -> has_nack_range nack = false ->
  a0 <= j < c -> nack_sn nack = j mod m -> nack_in started nack j ->
  zlen (rq_queue (retx_queue s)) < rq_capacity (retx_queue s) ->
  handle_nack cfg nack s = Ok (b, s', out) ->
  adds_retx a n started 1 (nack_covers m nack) s s'.
Proof.
  intros Hs Hw Hr Hj Esn Hin Hroom. unfold handle_nack. rewrite Hr.
  pose proof (tx_m_window cfg) as Hmw. pose proof (tx_ws_bounds cfg).
  pose proof (tinv_counts _ _ _ _ _ Hs) as (Ha & Hnn & HN).
  assert (nack_len nack = 1) as Hl by (unfold nack_len; by rewrite Hr).
  assert (forall k, a <= k < n -> k <> j -> forall off, nack_covers m nack (k mod m) off = false) as Hother.
  { intros k Hk Hne off. apply (nack_covers_other nack j); [done|done|done|lia]. }
  rewrite (tinv_ack _ _ _ _ _ Hs), (tinv_next _ _ _ _ _ Hs), (dist_at cfg a a), (dist_at cfg a n), Esn, Z.sub_diag by lia.
  destruct (decide (j < a)) as [Hja|Hja].
  { rewrite (dist_of_count cfg a (j + m)) by first [lia|replace (j + m) with (j + 1 * m) by lia; rewrite Z.mod_add by lia; apply Zmod_mod].
    rewrite (proj2 (Z.leb_gt (j + m - a) _)) by lia. rewrite andb_false_r. cbn [negb]. intros [= <- <- <-].
    apply retx_adds_nothing; [done|lia|]. intros k sdu off Hk _ _. apply Hother; lia. }
  rewrite (dist_at cfg a j), !(proj2 (Z.leb_le _ _)) by lia. cbn [andb negb].
  assert (j < zlen started) as HjN by (destruct (decide (j = n)); [rewrite Hlast; lia|lia]).
  destruct (window_entry_exists cfg a n started (tx_window s) j) as [info Hv]; [apply Hs|lia|].
  destruct (window_entry cfg a n started (tx_window s) j info) as (Hst & Hsdu & _); try apply Hs; try done; try lia.
  rewrite (win_at_view _ _ _ Hv). cbn [checked_bind].
  destruct (decide (j = n)) as [->|Hjn].
  { (* the SDU under segmentation *)
    destruct (nack_offsets _ info nack) as [nack'|] eqn:Eo; [|intros [= <- <- <-]; apply retx_adds_nothing; [done|lia|]; intros; apply Hother; lia].
    pose proof (nack_bytes _ _ _ _ Hsdu (nwf_start _ _ Hw) (nwf_end _ _ Hw) Eo) as Hb.
    destruct (repair_offsets _ nack') as [nack'' out']. destruct Hb as (En & _).
    apply (retx_push_adds s (mk_rlc_tx_amd_retx (nack_sn nack'') (so_start nack'') (u32 (so_end nack'' - so_start nack'' + 1)))); [done|].
    intros k sdu off Hk Hsk Hoff. rewrite Hother by lia. unfold item_covers. cbn.
    rewrite En, Esn, (proj2 (Z.eqb_neq _ _)); [done|]. intros E%(count_inj cfg a); lia. }
  rewrite (tinv_seg _ _ _ _ _ Hs).
  assert ((j mod m =? (if zlen started =? n then INVALID_RLC_SN else n mod m)) = false) as ->.
  { apply Z.eqb_neq. case_if; [apply (count_valid cfg)|]. intros E%(count_inj cfg a); lia. }
  destruct (nack_offsets_exact info nack Hsdu (nwf_start _ _ Hw) (nwf_end _ _ Hw)) as (nack' & -> & -> & En & H1 & H2 & H3).
  { intros Hso. destruct (Hin Hso) as (I1 & I2 & I3). rewrite Hl in I2, I3. rewrite Z.add_simpl_r in I2. auto. }
  apply retx_push_adds; [done|]. intros k sdu off Hk Hsk Hoff. unfold item_covers. cbn -[wrap].
  rewrite wrap_small by (destruct Hsdu; unfold in_range; lia).
  destruct (decide (k = j)) as [->|Hkj].
  - rewrite Hsk in Hst. injection Hst as ->. rewrite En, Esn, Z.eqb_refl, (nack_covers_at nack j j) by first [done|lia].
    rewrite Z.eqb_refl, Z.sub_diag, Hl. cbn [negb andb orb Z.ltb Z.compare Z.sub Z.eqb]. cbn.
    rewrite <- H3 by done. f_equal. destruct (off <=? so_end nack') eqn:E; zbool; [apply Z.ltb_lt|apply Z.ltb_ge]; lia.
  - rewrite Hother by lia. rewrite En, Esn, (proj2 (Z.eqb_neq _ _)); [done|]. intros E%(count_inj cfg a); lia.
Qed.

Lemma process_nack_covers s nack j prev prev' s' out :
  tx_inv a n started s -> nack_wf (tx_sn_size cfg) nack -> has_nack_range nack = false ->
  a0 <= j < c -> nack_sn nack = j mod m -> nack_in started nack j ->
  zlen (rq_queue (retx_queue s)) < rq_capacity (retx_queue s) ->
  process_nack cfg nack prev s = Ok (prev', s', out) ->
  adds_retx a n started 1 (nack_covers m nack) s s' /\ tx_inv a n started s'.
Proof.
  intros Hs Hw Hr Hj Esn Hin Hroom E. pose proof (tx_m_window cfg) as Hmw. pose proof (tx_ws_bounds cfg). split.
  - unfold process_nack in E. apply checked_bind_ok in E as ([[b s1] out1] & E1 & E).
    pose proof (handle_nack_covers s nack j b s1 out1 Hs Hw Hr Hj Esn Hin Hroom E1) as Ha.
    destruct (_ && _); [|by injection E as <- <- <-].
    apply checked_bind_ok in E as ([s2 out2] & E2 & E). injection E as <- <- <-.
    assert (retx_queue s2 = retx_queue s1) as Eq.
    { unfold increment_retx_count in E2. apply checked_bind_ok in E2 as (info & _ & E2).
      apply checked_bind_ok in E2 as (w & _ & [= <- <-]). done. }
    unfold adds_retx. by rewrite Eq.
  - destruct (process_nack_spec cfg a n started s nack prev Hs Hw) as (p & s1 & o & E' & Hs1 & _).
    { rewrite Esn. intros Ej%(count_inj cfg a0); [|lia|lia]. apply Hlast. lia. }
    rewrite E in E'. by injection E' as -> -> ->.
Qed.

(** ** Ranges *)

Lemma range_item_in nack j i :
  Forall sdu_ok started -> nack_wf (tx_sn_size cfg) nack -> has_nack_range nack = true -> nack_sn nack = j mod m ->
  j <= i < j + nack_range nack -> nack_in started nack j -> nack_in started (range_item cfg nack (i mod m)) i.
Proof.
  intros Hok Hw Hr E Hi Hin. destruct (range_item_fields nack j i Hw E Hi) as (_ & Hrg & Hno & Hso).
  intros Hit. destruct (has_so nack) eqn:Eso; [|by rewrite (Hno eq_refl) in Hit].
  destruct (Hso eq_refl) as (Es & Ee & _). destruct (Hin Eso) as (I1 & I2 & I3).
  assert (nack_len nack = nack_range nack) as El by (unfold nack_len; by rewrite Hr). rewrite El in I2, I3.
  pose proof (nwf_start _ _ Hw). pose proof (nwf_end _ _ Hw). unfold in_range in *.
  rewrite Es, Ee. unfold nack_len. rewrite Hrg, Z.add_simpl_r. split_and!.
  - intros sdu Hst. case_if; [by subst; apply I1|]. by destruct (Forall_lookup_1 _ _ _ _ Hok Hst) as [[? _] _].
  - intros sdu Hst. case_if; [subst i; auto|by left].
  - intros _. unfold so_end_of_sdu. repeat case_if; subst; try lia; apply I3; lia.
Qed.

(** What the numbers from [i] on of a range cover. *)
Definition range_covers (nack : rlc_am_status_nack) (i e : Z) (sn off : Z) : bool :=
  existsb (fun x => nack_covers m (range_item cfg nack (x mod m)) sn off) (seqZ i (e - i)).

Lemma range_loop_covers nack j :
  nack_wf (tx_sn_size cfg) nack -> has_nack_range nack = true -> nack_sn nack = j mod m -> a0 <= j ->
  j + nack_range nack <= c -> nack_in started nack j ->
  forall fuel i prev s prev' s' out, tx_inv a n started s -> j <= i <= j + nack_range nack ->
  zlen (rq_queue (retx_queue s)) + (j + nack_range nack - i) <= rq_capacity (retx_queue s) ->
  range_loop cfg fuel nack (c mod m) (i mod m) prev s = Ok (prev', s', out) ->
  adds_retx a n started (j + nack_range nack - i) (range_covers nack i (j + nack_range nack)) s s' /\
  tx_inv a n started s'.
Proof.
  intros Hw Hr E Hj Hjc Hin. pose proof (tx_m_window cfg) as Hmw. pose proof (tx_ws_bounds cfg).
  pose proof (nwf_range _ _ Hw) as Hrg. unfold in_range in Hrg. set (e := j + nack_range nack) in *.
  induction fuel as [|fuel IH]; intros i prev s prev' s' out Hs Hi Hroom Er; cbn [range_loop] in Er;
    rewrite (range_end nack j Hw E) in Er; fold e in Er.
  all: destruct (i mod m =? e mod m) eqn:Eie.
  1, 3: injection Er as <- <- <-; apply Z.eqb_eq, (count_inj cfg j) in Eie; [|lia|lia]; subst i;
    (split; [|done]); apply retx_adds_nothing; [done|lia|]; intros; unfold range_covers; by rewrite Z.sub_diag.
  { done. }
  assert (i < e) as Hie by (destruct (decide (i = e)); [subst; by rewrite Z.eqb_refl in Eie|lia]).
  destruct (i mod m =? c mod m) eqn:Eic; [apply Z.eqb_eq, (count_inj cfg j) in Eic; lia|].
  apply checked_bind_ok in Er as ([[prev1 s1] out1] & E1 & Er). apply checked_bind_ok in Er as ([[prev2 s2] out2] & E2 & Er).
  injection Er as <- <- <-. rewrite (count_succ cfg) in E2.
  destruct (range_item_fields nack j i Hw E) as (Ei & Hri & _); [lia|].
  destruct (process_nack_covers s (range_item cfg nack (i mod m)) i prev prev1 s1 out1) as [Ha1 Hs1];
    [done|by apply range_item_wf|done|lia|done|apply (range_item_in nack j); [apply Hs|done|done|done|lia|done]|lia|done|].
  destruct (IH (i + 1) prev1 s1 prev2 s2 out2) as [Ha2 Hs2]; [done|lia|destruct Ha1 as (? & -> & _); lia|done|].
  split; [|done]. eapply adds_weaken; [exact (adds_trans _ _ _ _ _ _ _ _ _ _ Ha1 Ha2)|lia|].
  intros k sdu off _ _ _. cbn beta. unfold range_covers. rewrite (seqZ_cons i) by lia. cbn [existsb].
  do 2 f_equal. f_equal; lia.
Qed.

Lemma range_covers_spec nack j k off :
  nack_wf (tx_sn_size cfg) nack -> has_nack_range nack = true -> nack_sn nack = j mod m -> a0 <= j ->
  j + nack_range nack <= c -> a <= k < n -> 0 <= off < so_end_of_sdu ->
  range_covers nack j (j + nack_range nack) (k mod m) off = nack_covers m nack (k mod m) off.
Proof.
  intros Hw Hr E Hj Hjc Hk Hoff. pose proof (tx_m_window cfg) as Hmw. pose proof (tx_ws_bounds cfg).
  pose proof (nwf_range _ _ Hw) as Hrg. unfold in_range in Hrg. apply eq_true_iff_eq.
  unfold range_covers. rewrite Z.add_simpl_l, existsb_exists. split.
  - intros (i & Hi%list_elem_of_In%elem_of_seqZ & Hcov).
    rewrite (range_item_covers nack j) in Hcov by first [done|lia]. by apply andb_true_iff in Hcov as [_ ?].
  - intros Hcov. assert (j <= k < j + nack_range nack) as Hkj.
    { unfold nack_covers in Hcov. rewrite E, <- Zminus_mod in Hcov. apply andb_true_iff in Hcov as [Hlt _]. zbool.
      unfold nack_len in Hlt. rewrite Hr in Hlt. pose proof (mod_range cfg (k - j)).
      destruct (decide (j <= k)); [rewrite Z.mod_small in Hlt; lia|].
      rewrite <- (Z_mod_plus_full _ 1), Z.mul_1_l, Z.mod_small in Hlt; lia. }
    exists k. split; [apply list_elem_of_In, elem_of_seqZ; lia|].
    by rewrite (range_item_covers nack j), Z.eqb_refl by first [done|lia].
Qed.

(** ** The whole report *)

Definition nack_at (started' : list (list Z)) (nack : rlc_am_status_nack) : Prop :=
  exists j, a0 <= j /\ j < c /\ j + nack_len nack <= c /\ nack_sn nack = j mod m /\ nack_in started' nack j.

Lemma rebuild_covers : forall nacks prev s s' out, tx_inv a n started s ->
  Forall (nack_wf (tx_sn_size cfg)) nacks -> Forall (nack_at started) nacks ->
  zlen (rq_queue (retx_queue s)) + sumz (nack_len <$> nacks) <= rq_capacity (retx_queue s) ->
  rebuild_retx cfg nacks (c mod m) prev s = Ok (s', out) ->
  adds_retx a n started (sumz (nack_len <$> nacks)) (nacks_cover m nacks) s s'.
Proof.
  induction nacks as [|nack nacks IH]; intros prev s s' out Hs Hwf Hat Hroom Er; cbn [rebuild_retx] in Er.
  { injection Er as <- <-. by apply retx_adds_nothing. }
  apply Forall_cons in Hwf as [Hw Hwf]. apply Forall_cons in Hat as [(j & Hj & Hjl & Hjc & E & Hin) Hat].
  cbn [fmap list_fmap] in Hroom |- *. change (sumz (nack_len nack :: _)) with (nack_len nack + sumz (nack_len <$> nacks)) in *.
  assert (0 <= sumz (nack_len <$> nacks)) as Hpos.
  { clear -Hwf. induction Hwf as [|x l Hx _ IH]; [done|]. cbn. unfold sumz in *. pose proof (nwf_range _ _ Hx).
    unfold in_range, nack_len in *. case_if; lia. }
  apply checked_bind_ok in Er as ([[prev1 s1] out1] & E1 & Er). apply checked_bind_ok in Er as ([s2 out2] & E2 & Er).
  injection Er as <- <-.
  assert (adds_retx a n started (nack_len nack) (nack_covers m nack) s s1 /\ tx_inv a n started s1) as [Ha1 Hs1].
  { destruct (has_nack_range nack) eqn:Hr.
    - assert (nack_len nack = nack_range nack) as El by (unfold nack_len; by rewrite Hr). rewrite El in *.
      rewrite E in E1. pose proof (nwf_range _ _ Hw) as Hrg. unfold in_range in Hrg.
      destruct (range_loop_covers nack j Hw Hr E Hj Hjc Hin range_fuel j prev s prev1 s1 out1 Hs ltac:(lia) ltac:(lia) E1) as [Ha1 Hs1].
      split; [|done]. eapply adds_weaken; [exact Ha1|lia|]. intros k sdu off Hk Hst Hoff.
      apply range_covers_spec; try done. destruct (Forall_lookup_1 _ _ _ _ (tinv_started _ _ _ _ _ Hs) Hst) as [[_ ?] _].
      unfold so_end_of_sdu. lia.
    - assert (nack_len nack = 1) as El by (unfold nack_len; by rewrite Hr). rewrite El in *.
      apply (process_nack_covers s nack j prev prev1 s1 out1); try done. lia. }
  eapply adds_weaken; [eapply adds_trans; [exact Ha1|eapply IH; try done]|lia|done].
  destruct Ha1 as (? & -> & _). lia.
Qed.

End one_report.

Lemma clear_retx_queue fuel : forall s s',
  clear_retx fuel s = Ok s' -> rq_queue (retx_queue s') = [] /\ rq_capacity (retx_queue s') = rq_capacity (retx_queue s).
Proof.
  induction fuel as [|fuel IH]; intros s s' E; cbn [clear_retx] in E;
    (destruct (rq_empty (retx_queue s)) eqn:Ee;
      [injection E as <-; unfold rq_empty in Ee; by destruct (rq_queue (retx_queue s))|]); [done|].
  apply checked_bind_ok in E as (retx & _ & E). apply checked_bind_ok in E as (s1 & E1 & E).
  assert (retx_queue s1 = retx_queue s) as Eq.
  { destruct (negb _); [|by injection E1 as <-]. apply checked_bind_ok in E1 as (s2 & E2 & [= <-]). cbn.
    destruct (has_sn _ _); [|by injection E2 as <-]. unfold decrement_retx_count in E2.
    apply checked_bind_ok in E2 as (info & _ & E2). destruct (_ =? _); [by injection E2 as <-|].
    by apply checked_bind_ok in E2 as (w & _ & [= <-]). }
  apply IH in E as [Hq Hcap]. split; [done|]. rewrite Hcap. cbn. rewrite Eq. unfold rq_pop.
  by destruct (rq_queue (retx_queue s)).
Qed.

(** What the report acknowledges: everything before the first NACK. *)
Definition status_stop (status : rlc_am_status_pdu) : Z :=
  match sp_nacks status with [] => sp_ack_sn status | nack :: _ => nack_sn nack end.

Lemma apply_status_covers a0 n c started s status (r : R) s' out :
  tx_inv a0 n started s -> a0 < c <= n + 1 ->
  (c = n + 1 -> zlen started = n + 1 /\ sp_nacks status <> []) ->
  sp_ack_sn status = c mod m -> Forall (nack_wf (tx_sn_size cfg)) (sp_nacks status) ->
  Forall (fun nack => exists j, a0 <= j < c /\ nack_sn nack = j mod m) (sp_nacks status) ->
  apply_status cfg status s r = Ok (s', out) ->
  exists c', a0 <= c' <= n /\ status_stop status mod m = c' mod m /\ tx_inv c' n started s' /\
    (Forall (nack_at a0 c started) (sp_nacks status) ->
     sumz (nack_len <$> sp_nacks status) <= rq_capacity (retx_queue s) ->
     forall k sdu off, c' <= k < n -> started !! Z.to_nat k = Some sdu -> 0 <= off < zlen sdu ->
       retx_covers (retx_queue s') (k mod m) off = nacks_cover m (sp_nacks status) (k mod m) off).
Proof.
  intros Hs Hc Hlast Eack Hwf Hj Eap. pose proof (tx_m_window cfg) as Hmw. pose proof (tx_ws_bounds cfg).
  pose proof (tinv_counts _ _ _ _ _ Hs) as (Ha & Hnn & HN). unfold apply_status in Eap.
  set (sx := if _ <? _ then _ else s) in Eap.
  assert (same_core s sx) as Hcore0 by (unfold sx; case_if; by split_and!).
  pose proof (tx_inv_core _ _ _ _ _ _ Hs Hcore0) as Hsx. clearbody sx. destruct Hcore0 as (_ & _ & _ & _ & _ & Eqx).
  change (match sp_nacks status with [] => _ | _ => _ end) with (status_stop status) in Eap.
  assert (exists c', a0 <= c' <= n /\ status_stop status mod m = c' mod m) as (c' & Hc' & Estop).
  { unfold status_stop. destruct (sp_nacks status) as [|nack nacks] eqn:En.
    - exists c. rewrite Eack, Zmod_mod. split; [|done]. destruct (decide (c = n + 1)) as [E|]; [|lia].
      by destruct (Hlast E).
    - apply Forall_cons in Hj as [(j & Hjc & ->) _]. exists j. rewrite Zmod_mod. split; [lia|done]. }
  rewrite (tinv_ack _ _ _ _ _ Hsx) in Eap.
  destruct (process_acks_spec cfg n started c' (status_stop status)) with (fuel := ack_fuel cfg) (a := a0)
    (deliv := (None, None) : option Z * option Z) (s := sx)
    as (s1 & deliv & E1 & Hs1 & _ & _ & Er1); [lia|done| |lia|unfold ack_fuel; lia|].
  { destruct Hsx. by split. }
  rewrite E1 in Eap. cbn [checked_bind] in Eap.
  destruct (clear_retx_spec cfg c' n started (retx_fuel (retx_queue s1)) s1) as (s2 & E2 & Hs2 & _ & _).
  { done. }
  { rewrite Er1. eapply Forall_impl; [exact (tinv_retx _ _ _ _ _ Hsx)|]. by intros item [Hi _]. }
  { unfold retx_fuel. lia. }
  pose proof (clear_retx_queue _ _ _ E2) as [Eq2 Ecap2]. rewrite E2 in Eap. cbn [checked_bind] in Eap.
  set (s3 := s2 <| tx_retx_sn := INVALID_RLC_SN |>) in Eap.
  assert (tx_inv c' n started s3) as Hs3 by (eapply tx_inv_core; [exact Hs2|by split_and!]).
  rewrite Eack in Eap. apply checked_bind_ok in Eap as ([s4 out4] & E4 & Eap).
  assert (tx_inv c' n started s4) as Hs4.
  { destruct (rebuild_spec cfg a0 c' n started c) with (nacks := sp_nacks status) (prev := INVALID_RLC_SN) (s := s3)
      as (s4' & out' & E4' & Hs4 & _); [lia|lia|lia|naive_solver|done|done|done|]. rewrite E4 in E4'. by injection E4' as -> ->. }
  apply checked_bind_ok in Eap as ([s5 out5] & E5 & [= <- <-]).
  destruct (update_mac_spec cfg c' n started s4 r true Hs4) as (s5' & out5' & E5' & [Hs5 _] & _ & Er5 & _).
  rewrite E5 in E5'. injection E5' as <- <-.
  exists c'. split_and!; [lia|lia|done|done|]. intros Hat Hcap k sdu off Hk Hst Hoff. rewrite Er5.
  destruct (rebuild_covers a0 c' n c started ltac:(lia) ltac:(lia) ltac:(naive_solver) ltac:(lia) (sp_nacks status)
    INVALID_RLC_SN s3 s4 out4 Hs3 Hwf Hat) as (_ & _ & Hcov); [|done|].
  - change (retx_queue s3) with (retx_queue s2). rewrite Eq2, Ecap2, Er1, Eqx. unfold zlen at 1. cbn. lia.
  - rewrite (Hcov k sdu off) by done. change (retx_queue s3) with (retx_queue s2). unfold retx_covers. by rewrite Eq2.
Qed.

(** The report passes the checks of the entity. *)
Definition status_accepted s (status : rlc_am_status_pdu) : Prop :=
  tx_valid_ack_sn cfg s (sp_ack_sn status) = true /\
  tx_mod_base cfg (tx_next_ack s) (sp_ack_sn status) <= tx_mod_base cfg (tx_next_ack s) (u32 (tx_next s + 1)) /\
  (valid_nacks cfg (sp_ack_sn status) (sp_nacks status) s).1 = true.

(** The offsets of the NACKs are bytes of the SDUs in the window. *)
Definition nack_in_window (w : W rlc_tx_am_sdu_info) (nack : rlc_am_status_nack) : Prop :=
  0 < nack_len nack /\
  (has_so nack = true ->
    (forall info, win_view w (nack_sn nack) = Some info -> so_start nack < zlen (tx_sdu info)) /\
    (forall info, win_view w ((nack_sn nack + nack_len nack - 1) mod m) = Some info ->
       so_end nack = so_end_of_sdu \/ so_end nack < zlen (tx_sdu info)) /\
    (nack_len nack = 1 -> so_start nack <= so_end nack)).

Lemma window_entry_of a n started s k sdu :
  tx_inv a n started s -> a <= k -> started !! Z.to_nat k = Some sdu ->
  exists info, win_view (tx_window s) (k mod m) = Some info /\ tx_sdu info = sdu.
Proof.
  intros Hs Hk Hst. pose proof (tinv_counts _ _ _ _ _ Hs) as (Ha & Hn & HN).
  assert (k < zlen started) as HkN by (apply lookup_lt_Some in Hst; unfold zlen; lia).
  destruct (tinv_window _ _ _ _ _ Hs) as (_ & _ & Hview & _). destruct (Hview k) as (info & Hv & Hst' & _); [lia|].
  exists info. split; [done|]. congruence.
Qed.

(** The counts of an accepted NACK. *)
Lemma valid_nack_range a n started s c nack :
  tx_inv a n started s -> a <= c <= a + ws + 1 -> nack_wf (tx_sn_size cfg) nack -> nack_in_window (tx_window s) nack ->
  (valid_nack cfg (c mod m) nack s).1 = true -> nack_at a c started nack.
Proof.
  intros Hs Hc Hw [Hpos Hin] Hv. pose proof (tx_m_window cfg) as Hmw. pose proof (tx_ws_bounds cfg).
  pose proof (nwf_range _ _ Hw) as Hrg. unfold in_range in Hrg.
  destruct (valid_nack_count cfg a n started s c nack Hs ltac:(lia) Hw Hv) as (j & Hj & E).
  assert (j + nack_len nack <= c) as Hend.
  { unfold nack_len in *. destruct (has_nack_range nack) eqn:Hr; [|lia].
    revert Hv. unfold valid_nack. rewrite Hr, (tinv_ack _ _ _ _ _ Hs), (dist_at cfg a c) by lia.
    case_if; [done|]. case_if; [done|]. intros _. cbn [andb] in *. zbool.
    rewrite (dist_of_count cfg a (j + nack_range nack - 1)) in Heqb0; [lia|lia|]. by apply range_last. }
  exists j. split_and!; [lia|lia|done|done|]. intros Hso. destruct (Hin Hso) as (I1 & I2 & I3). split_and!; [| |done].
  - intros sdu Hst. destruct (window_entry_of a n started s j sdu Hs) as (info & Hi & <-); [lia|done|].
    apply I1. by rewrite E.
  - intros sdu Hst. destruct (window_entry_of a n started s (j + nack_len nack - 1) sdu Hs) as (info & Hi & <-); [lia|done|].
    apply I2. rewrite E. replace (j mod m + nack_len nack - 1) with (j mod m + (nack_len nack - 1)) by lia.
    rewrite Zplus_mod_idemp_l. by replace (j + (nack_len nack - 1)) with (j + nack_len nack - 1) by lia.
Qed.

Lemma valid_nacks_ranges a n started s c nacks :
  tx_inv a n started s -> a <= c <= a + ws + 1 -> Forall (nack_wf (tx_sn_size cfg)) nacks ->
  Forall (nack_in_window (tx_window s)) nacks ->
  (valid_nacks cfg (c mod m) nacks s).1 = true -> Forall (nack_at a c started) nacks.
Proof.
  intros Hs Hc. induction 1 as [|nack nacks Hw _ IH]; intros Hin; [by constructor|].
  apply Forall_cons in Hin as [Hi Hin]. cbn [valid_nacks].
  pose proof (valid_nack_range a n started s c nack Hs Hc Hw Hi) as Hat.
  destruct (valid_nack cfg (c mod m) nack s) as [[] out]; [|done]. intros Hv. constructor; auto.
Qed.

Lemma has_sn_count b a n started s k :
  tx_inv a n started s -> b <= a -> zlen started <= b + m -> b <= k < b + m ->
  has_sn (tx_window s) (k mod m) = (a <=? k) && (k <? zlen started).
Proof.
  intros Hs Hb HN Hk. rewrite has_sn_view. destruct (tinv_window _ _ _ _ _ Hs) as (_ & _ & Hview & Honly).
  destruct (win_view (tx_window s) (k mod m)) as [info|] eqn:Ev.
  - destruct (Honly _ _ Ev) as (k' & Hk' & E). apply (count_inj cfg b) in E; [|lia|lia]. subst k'.
    by rewrite (proj2 (Z.leb_le _ _)), (proj2 (Z.ltb_lt _ _)) by lia.
  - destruct (a <=? k) eqn:E1, (k <? zlen started) eqn:E2; zbool; cbn [andb]; try done.
    destruct (Hview k) as (info & Hv & _); [lia|]. congruence.
Qed.

(** C15. A status report has exactly its effect when it passes the checks of the entity, its
    fields are in range, it acknowledges beyond TX_Next only together with what it misses of
    the SDU under segmentation, and the entity is in a state that SDUs of 1 to 2^16 - 1
    bytes and such reports lead to: TX_Next_Ack moves to the first NACK, or to ACK_SN
    without NACKs; the SDUs before it leave the window and the others stay. If besides every
    offset of its NACKs lies within the SDU it is about, with the start not after the end,
    and they name at most a window of SNs in all (the code repairs other offsets and drops
    what overflows the queue), a byte of an SDU that was sent completely waits in the
    retransmission queue if and only if a NACK of the report covers it. *)
Theorem status_report_applied (is_srb : bool) (rcfg : rlc_rx_am_config) s0 (ops : list (tx_am_op * R)) pdus s out status r s' out' :
  sn_size rcfg = tx_sn_size cfg ->
  tx_am_init cfg = Ok s0 -> tx_ops_ok cfg is_srb ops s0 -> tx_am_run cfg is_srb ops s0 = Ok (pdus, s, out) ->
  status_in_ok cfg status -> peer_status_ok cfg s status -> status_accepted s status ->
  handle_status_pdu cfg status s r = Ok (s', out') ->
  let stop := status_stop status in
  let acked := tx_mod_base cfg (tx_next_ack s) in
  tx_next_ack s' = stop /\
  (forall sn, 0 <= sn < m ->
     has_sn (tx_window s') sn = has_sn (tx_window s) sn && (acked stop <=? acked sn)) /\
  (Forall (nack_in_window (tx_window s)) (sp_nacks status) ->
   sumz (nack_len <$> sp_nacks status) <= ws ->
   forall sn info off, win_view (tx_window s) sn = Some info -> acked stop <= acked sn < acked (tx_next s) ->
     0 <= off < zlen (tx_sdu info) ->
     retx_covers (retx_queue s') sn off = nacks_cover m (sp_nacks status) sn off).
Proof.
  intros Hpeer Hinit Hok Hrun [Hack Hwf] Hps (Hv1 & Hv2 & Hv3) E. cbn zeta.
  pose proof (tx_m_window cfg) as Hmw. pose proof (tx_ws_bounds cfg).
  destruct (tx_run_from_init cfg is_srb rcfg Hpeer s0 ops Hinit Hok) as (pdus' & sx & outx & a & n & started & Erun & Hs & _).
  rewrite Hrun in Erun. injection Erun as <- <- <-.
  pose proof (tinv_counts _ _ _ _ _ Hs) as (Ha & Hnn & HN).
  unfold handle_status_pdu in E. rewrite Hv1 in E. cbn [negb] in E. rewrite (proj2 (Z.ltb_ge _ _)) in E by done.
  destruct (valid_nacks _ _ _ _) as [b outv] eqn:Ev. cbn in Hv3. subst b.
  unfold tx_valid_ack_sn in Hv1. rewrite (tinv_ack _ _ _ _ _ Hs), (tinv_next _ _ _ _ _ Hs) in *.
  apply andb_true_iff in Hv1 as [Hv1 Hv1']. zbool.
  rewrite wrap_small in Hv2 by (pose proof (mod_range cfg n); unfold in_range; lia).
  rewrite (dist_of_count cfg a (n + 1) (n mod m + 1)) in Hv2 by first [lia|apply Zplus_mod_idemp_l].
  pose proof (mod_base_range m (a mod m) (sp_ack_sn status)) as Hd. change (mod_base m) with (tx_mod_base cfg) in Hd.
  set (c := a + tx_mod_base cfg (a mod m) (sp_ack_sn status)) in *.
  assert (sp_ack_sn status = c mod m) as Eack.
  { rewrite (mod_base_inv m (a mod m) (sp_ack_sn status)) at 1 by done. unfold c. by rewrite Zplus_mod_idemp_l. }
  assert ((valid_nacks cfg (c mod m) (sp_nacks status) s).1 = true) as Hvn by (rewrite <- Eack; by rewrite Ev).
  pose proof (valid_nacks_counts cfg a n started s c (sp_nacks status) Hs ltac:(lia) Hwf Hvn) as Hj.
  assert (c = n + 1 -> zlen started = n + 1 /\ sp_nacks status <> []) as Hlast.
  { intros Ec. destruct Hps as [Eseg Hne]; [rewrite Eack, Ec, (tinv_next _ _ _ _ _ Hs); by rewrite (count_succ cfg)|].
    split; [|done]. rewrite (tinv_seg _ _ _ _ _ Hs), (tinv_next _ _ _ _ _ Hs) in Eseg.
    destruct (zlen started =? n) eqn:EN; zbool; [|lia]. by destruct (count_valid cfg n). }
  destruct (apply_status_covers a n c started s status r s' out' Hs ltac:(lia) Hlast Eack Hwf Hj E)
    as (c' & Hc' & Estop & Hs' & Hcov).
  assert (0 <= status_stop status < m) as Hstop.
  { unfold status_stop. destruct (sp_nacks status) as [|nack nacks]; [done|]. apply Forall_cons in Hwf as [Hw _]. apply Hw. }
  rewrite Z.mod_small in Estop by done. rewrite Estop, (dist_at cfg a c') by lia. split_and!.
  - apply (tinv_ack _ _ _ _ _ Hs').
  - intros sn Hsn. pose proof (mod_base_range m (a mod m) sn) as Hdsn. change (mod_base m) with (tx_mod_base cfg) in Hdsn.
    pose proof (mod_base_inv m (a mod m) sn Hsn) as Esn. rewrite Zplus_mod_idemp_l in Esn. change (mod_base m) with (tx_mod_base cfg) in Esn.
    set (k := a + tx_mod_base cfg (a mod m) sn) in *. rewrite Esn.
    rewrite (has_sn_count a c' n started s' k), (has_sn_count a a n started s k) by first [done|lia].
    rewrite (dist_at cfg a k) by lia. rewrite (proj2 (Z.leb_le a k)) by lia. cbn [andb].
    destruct (c' <=? k) eqn:Ek; zbool; [rewrite (proj2 (Z.leb_le _ _)) by lia|rewrite (proj2 (Z.leb_gt _ _)) by lia]; by rewrite ?andb_true_r, ?andb_false_r.
  - intros Hin Hcap sn info off Hv Hsn Hoff.
    destruct (tinv_window _ _ _ _ _ Hs) as (_ & _ & _ & Honly). destruct (Honly sn info Hv) as (k & Hk & ->).
    rewrite (dist_at cfg a k), (dist_at cfg a n) in Hsn by lia.
    destruct (window_entry cfg a n started (tx_window s) k info) as (Hst & _ & _); try apply Hs; try done; try lia.
    rewrite <- (tinv_capacity _ _ _ _ _ Hs) in Hcap.
    apply (Hcov (valid_nacks_ranges a n started s c _ Hs ltac:(lia) Hwf Hin Hvn) Hcap k (tx_sdu info) off); [lia|done|done].
Qed.

(** Expiry of t-PollRetransmit: in a reachable state in which nothing waits to be
    sent and SDUs are not acknowledged, the expiry schedules the whole SDU of
    TX_Next_Ack for retransmission, and nothing else, and tells the MAC; so a lost
    last PDU, or a lost report, does not stall the bearer. *)
Theorem poll_expiry_retransmits (is_srb : bool) (rcfg : rlc_rx_am_config) s0 (ops : list (tx_am_op * R)) pdus s out (r : R) :
  sn_size rcfg = tx_sn_size cfg ->
  tx_am_init cfg = Ok s0 -> tx_ops_ok cfg is_srb ops s0 -> tx_am_run cfg is_srb ops s0 = Ok (pdus, s, out) ->
  poll_retransmit_timer s = true -> tx_next_ack s <> tx_next s ->
  sq_is_empty (sdu_queue s) = true -> rq_empty (retx_queue s) = true -> sn_under_segmentation s = INVALID_RLC_SN ->
  exists info s' out' bs, win_view (tx_window s) (tx_next_ack s) = Some info /\
    tx_am_step cfg is_srb TxPollRetransmitExpired s r = Ok ([], s', r, out') /\
    rq_queue (retx_queue s') =
      [mk_rlc_retx_queue_item false (mk_rlc_tx_amd_retx (tx_next_ack s) 0 (zlen (tx_sdu info)))] /\
    OutBufferState bs ∈ out'.
Proof.
  intros Hpeer Hinit Hok Hrun Ht Hne Hsq Hrq Hsn.
  destruct (tx_run_from_init cfg is_srb rcfg Hpeer s0 ops Hinit Hok) as (pdus' & sx & outx & a & n & started & Erun & Hs & _).
  rewrite Hrun in Erun. injection Erun as <- <- <-. clear Hrun Hok Hinit.
  pose proof (tx_m_window cfg) as Hmw. pose proof (tx_ws_bounds cfg).
  pose proof (tinv_counts _ _ _ _ _ Hs) as (Ha & Hnn & HN).
  rewrite (tinv_ack _ _ _ _ _ Hs), (tinv_next _ _ _ _ _ Hs) in *.
  assert (a < zlen started) as HaN by (destruct (decide (a = n)); [congruence|lia]).
  destruct (window_entry_exists cfg a n started (tx_window s) a) as [info Hv]; [apply Hs|lia|].
  destruct (window_entry cfg a n started (tx_window s) a info) as (_ & [Hsz _] & _); try apply Hs; try done; try lia.
  cbn [tx_am_step]. rewrite Ht. set (s1 := s <| poll_retransmit_timer := false |>).
  assert (tx_inv a n started s1) as Hs1 by (eapply tx_inv_core; [exact Hs|by split_and!]).
  unfold on_expired_poll_retransmit_timer, nothing_to_send.
  change (sdu_queue s1) with (sdu_queue s). change (retx_queue s1) with (retx_queue s).
  change (sn_under_segmentation s1) with (sn_under_segmentation s). change (tx_window s1) with (tx_window s).
  change (tx_next_ack s1) with (tx_next_ack s). rewrite Hsq, Hrq, Hsn, Z.eqb_refl. cbn [andb orb].
  rewrite (window_size_count cfg a n started) by first [apply Hs|lia]. rewrite (proj2 (Z.eqb_neq _ _)) by lia.
  rewrite (tinv_ack _ _ _ _ _ Hs), has_sn_view, Hv, (win_at_view _ _ _ Hv). cbn [negb checked_bind].
  rewrite wrap_small by (unfold in_range; lia). set (retx := mk_rlc_tx_amd_retx _ _ _).
  unfold rq_empty in Hrq. destruct (rq_queue (retx_queue s)) eqn:Eq; [|done].
  destruct (push_covers retx (retx_queue s) 0 0) as [-> _].
  { rewrite Eq, (tinv_capacity _ _ _ _ _ Hs). unfold zlen. cbn. lia. }
  set (s2 := s1 <| retx_queue := _ |>).
  assert (tx_inv a n started s2) as Hs2.
  { destruct Hs1 as [H1 H2 H3 H4 H5 H6 H7 H8]. split; try done. cbn. rewrite Eq. apply Forall_singleton. split; [done|].
    exists a, info. cbn. split_and!; first [done|lia]. }
  destruct (increment_spec cfg a n started s2 a Hs2 ltac:(lia)) as (s3 & out3 & E3 & Hs3 & _).
  rewrite (tinv_ack _ _ _ _ _ Hs2), E3. cbn [checked_bind].
  assert (retx_queue s3 = retx_queue s2) as Eq3.
  { unfold increment_retx_count in E3. apply checked_bind_ok in E3 as (i3 & _ & E3).
    by apply checked_bind_ok in E3 as (w & _ & [= <- <-]). }
  destruct (update_mac_spec cfg a n started s3 r true Hs3) as (s4 & out4 & E4 & _ & _ & Eq4 & _). rewrite E4. cbn [checked_bind].
  assert (exists bs, out4 = [OutBufferState bs]) as [bs ->].
  { unfold update_mac_buffer_state in E4. apply checked_bind_ok in E4 as ([bs s5] & _ & E4). cbn [orb] in E4.
    injection E4 as _ <-. by exists bs. }
  exists info, s4, (out3 ++ [OutBufferState bs]), bs. split; [done|]. split; [done|].
  split; [rewrite Eq4, Eq3; cbn; by rewrite Eq|]. apply elem_of_app. right. apply list_elem_of_here.
Qed.
End retx.

(** ** A concrete report

    The SDU was sent in two segments, the peer misses its first two bytes. *)

#[local] Existing Instance ex_provider.

Definition ex_sent_ops : list (tx_am_op * rx_am_state circular_map) :=
  (fun op => (op, am_rx ex_am_init)) <$> [TxSdu 0 ex_am_sdu false true; TxPull 4 true; TxPull 9 true].
Definition ex_sent : tx_am_state circular_map :=
  Eval vm_compute in
    match tx_am_run ex_tx_am_cfg false ex_sent_ops ex_tx_init with Ok (_, s, _) => s | Panic => ex_tx_init end.
Definition ex_sent_result : list (list Z) * list tx_am_output :=
  Eval vm_compute in
    match tx_am_run ex_tx_am_cfg false ex_sent_ops ex_tx_init with Ok (pdus, _, out) => (pdus, out) | Panic => ([], []) end.

Lemma ex_sent_run :
  tx_am_run ex_tx_am_cfg false ex_sent_ops ex_tx_init = Ok (ex_sent_result.1, ex_sent, ex_sent_result.2).
Proof. by vm_compute. Qed.

Lemma ex_sent_ops_ok : tx_ops_ok ex_tx_am_cfg false ex_sent_ops ex_tx_init.
Proof.
  pose proof ex_am_sdu_ok. unfold ex_sent_ops, ex_tx_init. cbn [fmap list_fmap].
  do 3 (split; [first [done|cbn; unfold in_range; lia]|eval_tx_step]). exact I.
Qed.

Lemma status_report_applied_witness :
  exists s' out', handle_status_pdu ex_tx_am_cfg ex_nack_status ex_sent (am_rx ex_am_init) = Ok (s', out') /\
    tx_next_ack s' = 0 /\
    forall off, 0 <= off < 4 ->
      retx_covers (retx_queue s') 0 off = nacks_cover 4096 (sp_nacks ex_nack_status) 0 off.
Proof.
  destruct (handle_status_pdu ex_tx_am_cfg ex_nack_status ex_sent (am_rx ex_am_init)) as [[s' out']|] eqn:E;
    [|vm_compute in E; discriminate E].
  exists s', out'. split; [reflexivity|].
  assert (peer_status_ok ex_tx_am_cfg ex_sent ex_nack_status) as Hp by (intros Hp; vm_compute in Hp; discriminate Hp).
  assert (status_accepted ex_tx_am_cfg ex_sent ex_nack_status) as Ha.
  { split; [vm_compute; reflexivity|]. split; [vm_compute; discriminate|vm_compute; reflexivity]. }
  destruct (status_report_applied ex_tx_am_cfg false ex_rx_am_cfg ex_tx_init ex_sent_ops _ ex_sent _ ex_nack_status
    (am_rx ex_am_init) s' out' eq_refl ex_tx_init_run ex_sent_ops_ok ex_sent_run ex_nack_status_ok Hp Ha E) as (Hack & _ & Hcov).
  split; [exact Hack|]. intros off Hoff.
  eapply (fun H1 H2 => Hcov H1 H2 0); [|by vm_compute|by vm_compute|by vm_compute|exact Hoff].
  apply Forall_singleton. split; [by vm_compute|]. intros _. split_and!.
  - intros info Hi. vm_compute in Hi. injection Hi as <-. by vm_compute.
  - intros info Hi. vm_compute in Hi. injection Hi as <-. right. by vm_compute.
  - by vm_compute.
Defined.

(** The two missing bytes are scheduled, and nothing else. *)
Example ex_scheduled :
  match handle_status_pdu ex_tx_am_cfg ex_nack_status ex_sent (am_rx ex_am_init) with
  | Ok (s', _) => rq_queue (retx_queue s') = [mk_rlc_retx_queue_item false (mk_rlc_tx_amd_retx 0 0 2)]
  | Panic => False
  end.
Proof. vm_compute. reflexivity. Qed.

Lemma poll_expiry_retransmits_witness :
  exists s' out', tx_am_step ex_tx_am_cfg false TxPollRetransmitExpired ex_sent (am_rx ex_am_init) =
      Ok ([], s', am_rx ex_am_init, out') /\
    length (rq_queue (retx_queue s')) = 1%nat.
Proof.
  destruct (poll_expiry_retransmits ex_tx_am_cfg false ex_rx_am_cfg ex_tx_init ex_sent_ops _ ex_sent _ (am_rx ex_am_init)
    eq_refl ex_tx_init_run ex_sent_ops_ok ex_sent_run eq_refl) as (info & s' & out' & bs & _ & E & Eq & _);
    [vm_compute; discriminate|vm_compute; reflexivity..|].
  exists s', out'. split; [exact E|]. rewrite Eq. reflexivity.
Defined.

(** A NACK without offsets for the SDU under segmentation also schedules the bytes that
    were not sent yet: only NACKs that end with the end marker are cut. *)
Example unsent_bytes_scheduled :
  match tx_am_run ex_tx_am_cfg false
      ((fun op => (op, am_rx ex_am_init)) <$> [TxSdu 0 ex_am_sdu false true; TxPull 4 true]) ex_tx_init with
  | Ok (_, s, _) =>
      match handle_status_pdu ex_tx_am_cfg (mk_rlc_am_status_pdu am_size12bits 4096 [nack_default] 5 0 1) s (am_rx ex_am_init) with
      | Ok (s', _) => rq_queue (retx_queue s') = [mk_rlc_retx_queue_item false (mk_rlc_tx_amd_retx 0 0 4)] /\
          next_so <$> win_view (tx_window s') 0 = Some 2
      | Panic => False
      end
  | Panic => False
  end.
Proof. vm_compute. done. Qed.
