(* ===== verification/RlcTxAmMac.v ===== *)
(** * RLC AM transmitter: polls and buffer states

    What the MAC and the peer learn from the transmitting entity: when a
    notification of the buffer state is withheld, and when a data PDU carries a poll.
    Both hold in every run, whatever the peer sends. *)
From stdpp Require Import base numbers list.
From Stdlib Require Import ZArith Lia.
From S2P Require Import Prelude.
From S2P Require Import RlcConfig.
From S2P Require Import RlcAmPdu.
From S2P Require Import RlcAmPduProps.
From S2P Require Import SduWindow.
From S2P Require Import RlcRetxQueue.
From S2P Require Import RlcSduQueue.
From S2P Require Import RlcRxAm.
From S2P Require Import RlcTxBase.
From S2P Require Import RlcTxAm.
From S2P Require Import RlcAmEntity.
From S2P Require Import RlcTxAmFrames.
From S2P Require Import RlcTxAmRuns.

Set Default Goal Selector "!".
Open Scope Z_scope.
Open Scope ran_scope.

Section tx_am_mac.
Context {W : Type -> Type} `{!SduWindow W} {R : Type} `{!StatusProvider R}.
Variable cfg : rlc_tx_am_config.
Variable is_srb : bool.
Implicit Types s : tx_am_state W.
Implicit Types r : R.

(** ** Notifications of the buffer state *)

(** What the MAC knows: the last buffer state notified or asked for, and nothing to
    send at first. *)
Definition mac_knows (bss : list rlc_buffer_state) : Z :=
  match last bss with Some bs => pending_bytes bs | None => 0 end.

Definition mac_account (bss : list rlc_buffer_state) s : Prop :=
  MAX_DL_PDU_LENGTH < mac_knows bss \/
  pending_bytes (prev_buffer_state s) <= MAX_DL_PDU_LENGTH \/ suspend_bs_notif_barring s = true.

Lemma mac_step_account bss s s' out :
  mac_account bss s -> mac_step s s' out -> mac_account (bss ++ bs_out out) s'.
Proof.
  unfold mac_account, mac_knows. intros Ha [(-> & E1 & E2)|[->|(-> & H1 & H2 & H3)]].
  - by rewrite app_nil_r, E1, E2.
  - rewrite last_snoc. destruct (decide (pending_bytes (prev_buffer_state s') <= MAX_DL_PDU_LENGTH)); [tauto|left; lia].
  - rewrite app_nil_r. left. destruct Ha as [?|[?|?]]; [done|lia|congruence].
Qed.

Lemma tx_step_account op s r pdu s' r' out bss :
  tx_am_step cfg is_srb op s r = Ok (pdu, s', r', out) -> mac_account bss s ->
  mac_account (bss ++ bs_out out) s'.
Proof.
  intros H Ha.
  assert (prev_buffer_state s' = prev_buffer_state s /\ suspend_bs_notif_barring s' = suspend_bs_notif_barring s ->
    bs_out out = [] -> mac_account (bss ++ bs_out out) s') as Henv.
  { intros [E1 E2] Eo. eapply mac_step_account; [exact Ha|by left]. }
  destruct op as [now sdu is_retx accepted|pdcp_sn accepted|grant_len deferred| |status accepted|accepted| | |accepted];
    cbn [tx_am_step] in H.
  - unfold tx_handle_sdu, handle_changed_buffer_state in H.
    destruct (sq_write _ _) as [[] q]; injection H as <- <- <- <-; apply Henv; try done; repeat case_if; by split_and!.
  - unfold discard_sdu, handle_changed_buffer_state in H.
    destruct (sq_try_discard _ _) as [[] q]; injection H as <- <- <- <-; apply Henv; try done; cbn; repeat case_if; by split_and!.
  - apply Henv; [|by eapply pull_bs]. apply pull_env in H as (_ & ? & ? & _). done.
  - apply checked_bind_ok in H as ([bs s1] & H1 & H). injection H as <- <- <- <-.
    apply get_buffer_state_same in H1 as (_ & _ & E1 & E2). unfold mac_account, mac_knows in *.
    change (bs_out _) with [bs]. cbn [fst]. rewrite last_snoc, E1, E2.
    destruct (pending_bytes bs <=? MAX_DL_PDU_LENGTH) eqn:E; zbool; cbn; [tauto|by left].
  - injection H as <- <- <- <-. apply Henv; [|done]. unfold add_task. cbn. case_if; by split_and!.
  - injection H as <- <- <- <-. apply Henv; [|done]. unfold handle_changed_buffer_state. cbn. repeat case_if; by split_and!.
  - destruct (pcell_tasks s) as [|task tasks]; [injection H as <- <- <- <-; by apply Henv|].
    apply checked_bind_ok in H as ([s1 out1] & H1 & H). injection H as <- <- <- <-. cbn [fst snd].
    destruct task as [status| |]; cbn [run_task] in H1.
    + apply handle_status_same in H1 as (_ & _ & Hm). by eapply mac_step_account in Hm.
    + eapply (mac_step_update cfg (s <| pcell_tasks := tasks |>) _ false r _ _ []) in H1; [|done|done].
      by eapply mac_step_account in H1.
    + injection H1 as <- <-. by apply Henv.
  - destruct (poll_retransmit_timer s); [|injection H as <- <- <- <-; by apply Henv].
    apply checked_bind_ok in H as ([s1 out1] & H1 & H). injection H as <- <- <- <-. cbn [fst snd].
    apply poll_expired_same in H1 as (_ & _ & Hm). by eapply mac_step_account in Hm.
  - destruct (stopped_upper s); injection H as <- <- <- <-; apply Henv; try done. unfold add_task. cbn. case_if; by split_and!.
Qed.

Lemma tx_run_account ops : forall s pdus s' out bss,
  tx_am_run cfg is_srb ops s = Ok (pdus, s', out) -> mac_account bss s -> mac_account (bss ++ bs_out out) s'.
Proof.
  induction ops as [|[op r] ops IH]; intros s pdus s' out bss H Ha; cbn [tx_am_run] in H.
  { injection H as <- <- <-. by rewrite app_nil_r. }
  apply checked_bind_ok in H as ([[[pdu s1] r1] out1] & H1 & H).
  apply checked_bind_ok in H as ([[pdus1 s2] out2] & H2 & H). injection H as <- <- <-.
  rewrite bs_out_app, app_assoc. eapply IH; [exact H2|]. by eapply tx_step_account.
Qed.

(** Withholding a notification of the buffer state is safe: when, after any run, the
    buffer state is updated without the MAC being notified, the MAC last heard of
    more bytes than the longest PDU holds, and there are still more; so it never
    misses that data waits, nor that there is too little for a PDU. *)
Theorem buffer_state_barring_safe s0 ops pdus s out force r s' out' :
  tx_am_init cfg = Ok s0 -> tx_am_run cfg is_srb ops s0 = Ok (pdus, s, out) ->
  update_mac_buffer_state cfg force s r = Ok (s', out') ->
  out' = [OutBufferState (prev_buffer_state s')] \/
  out' = [] /\ MAX_DL_PDU_LENGTH < mac_knows (bs_out out) /\
    MAX_DL_PDU_LENGTH < pending_bytes (prev_buffer_state s').
Proof.
  intros Hinit Hrun Hup. assert (mac_account [] s0) as H0.
  { right. right. unfold tx_am_init in Hinit. destruct (_ || _); [|done].
    apply checked_bind_ok in Hinit as (w & _ & [= <-]). done. }
  pose proof (tx_run_account ops s0 pdus s out [] Hrun H0) as Ha. cbn in Ha.
  apply update_mac_same in Hup as (_ & _ & [[-> _]|(-> & H1 & H2 & H3)]); [by left|right].
  split_and!; [done| |done]. destruct Ha as [?|[?|?]]; [done|lia|congruence].
Qed.

(** ** Polling *)

(** The P bit of a data PDU. *)
Definition poll_bit (pdu : list Z) : Z :=
  match pdu with b0 :: _ => Z.land (Z.shiftr b0 6) 0x01 | [] => 0 end.

Lemma poll_bit_written p si sn so payload :
  p = 0 \/ p = 1 -> poll_bit (rlc_am_write_data_pdu_header (data_header cfg p si sn so) ++ payload) = p.
Proof.
  intros Hp. unfold rlc_am_write_data_pdu_header, data_header. cbn [hdr_dc hdr_p hdr_si hdr_sn_size hdr_sn hdr_so].
  assert (forall x, 0 <= Z.land x 0x0f < 16) as H15 by (intros x; rewrite land_mask_15; apply Z.mod_pos_bound; lia).
  assert (forall x, 0 <= Z.land x 0x03 < 16) as H3.
  { intros x. rewrite land_mask_3. pose proof (Z.mod_pos_bound x 4). lia. }
  destruct (tx_sn_size cfg); cbn [app poll_bit]; rewrite am_b0 by (try lia; auto);
    match goal with |- context [_ + Z.land ?x ?k] =>
      destruct (am_b0_fields dc_data p si (Z.land x k)) as (_ & E & _); [lia|auto|exact E] end.
Qed.

(** Nothing more waits to be sent. *)
Definition nothing_left s : bool :=
  sq_is_empty (sdu_queue s) && rq_empty (retx_queue s) && (sn_under_segmentation s =? INVALID_RLC_SN).

(** The state after a PDU with polling bit [p]. *)
Definition polled (p : Z) s : Prop :=
  p = 1 /\ pdu_without_poll s = 0 /\ byte_without_poll s = 0 /\
    (0 < txam_t_poll_retx cfg -> stopped_lower s = false -> poll_retransmit_timer s = true) \/
  p = 0 /\ nothing_left s = false.

(** The counters stay below the configured limits. *)
Definition counters_ok s : Prop :=
  (0 < txam_poll_pdu cfg -> 0 <= pdu_without_poll s < txam_poll_pdu cfg) /\
  (0 < txam_poll_byte cfg -> 0 <= byte_without_poll s < txam_poll_byte cfg).

(** The limits are 32-bit signed integers. *)
Hypothesis Hpoll_pdu : txam_poll_pdu cfg < 2 ^ 31.
Hypothesis Hpoll_byte : txam_poll_byte cfg < 2 ^ 31.

Lemma include_poll_spec sn is_retx s :
  let s' := include_poll cfg sn is_retx s in
  polled 1 s' /\ counters_ok s' /\ sdu_queue s' = sdu_queue s /\ retx_queue s' = retx_queue s /\
  sn_under_segmentation s' = sn_under_segmentation s.
Proof.
  unfold include_poll, polled, counters_ok. destruct is_retx; cbn [negb];
    (destruct (0 <? txam_t_poll_retx cfg) eqn:Et; zbool; [|split; [left; split_and!; first [done|lia]|cbn; split_and!; first [done|lia]]]);
    cbn [stopped_lower andb negb]; cbn;
    (destruct (stopped_lower s) eqn:Es; cbn; (split; [left; split_and!; first [done|congruence]|split_and!; first [done|lia]])).
Qed.

Lemma polling_spec sn is_retx size s p s' :
  get_polling_bit cfg sn is_retx size s = (p, s') ->
  polled p s' /\ (counters_ok s -> counters_ok s') /\
  sdu_queue s' = sdu_queue s /\ retx_queue s' = retx_queue s /\ sn_under_segmentation s' = sn_under_segmentation s.
Proof.
  unfold get_polling_bit. set (s1 := if is_retx then s else _). set (count := negb is_retx && _).
  assert (sdu_queue s1 = sdu_queue s /\ retx_queue s1 = retx_queue s /\
    sn_under_segmentation s1 = sn_under_segmentation s) as (E1 & E2 & E3) by (unfold s1; by destruct is_retx).
  destruct (count || nothing_to_send cfg s1) eqn:Ep; intros [= <- <-].
  - destruct (include_poll_spec sn is_retx s1) as (H1 & H2 & H3 & H4 & H5). split; [done|]. split; [done|].
    by rewrite H3, H4, H5.
  - apply orb_false_iff in Ep as [Ec En]. unfold nothing_to_send in En. apply orb_false_iff in En as [En _].
    split; [by right|]. split; [|done]. unfold counters_ok, count, s1 in *. destruct is_retx; [done|]. cbn [negb andb] in Ec. intros _.
    apply orb_false_iff in Ec as [Ec1 Ec2].
    assert (forall n, 0 < n -> n < 2 ^ 31 -> u32 n = n) as Hu by (intros; apply wrap_small; unfold in_range; lia).
    cbn -[wrap] in *. split; intros Hpos.
    + pose proof (wrap_range 32 (pdu_without_poll s + 1) ltac:(lia)) as Hr. unfold in_range in Hr.
      rewrite (proj2 (Z.ltb_lt _ _)), Hu in Ec1 by done. cbn [andb] in Ec1. zbool. lia.
    + pose proof (wrap_range 32 (byte_without_poll s + size) ltac:(lia)) as Hr. unfold in_range in Hr.
      rewrite (proj2 (Z.ltb_lt _ _)), Hu in Ec2 by done. cbn [andb] in Ec2. zbool. lia.
Qed.

(** A data PDU, if there is one, carries the polling bit computed for it. *)
Definition polled_pdu s (pdu : list Z) s' : Prop :=
  (counters_ok s -> counters_ok s') /\
  (pdu = [] \/ exists p si sn so payload, (p = 0 \/ p = 1) /\
     pdu = rlc_am_write_data_pdu_header (data_header cfg p si sn so) ++ payload /\ polled p s').

Lemma polled_pdu_none s s' : (counters_ok s -> counters_ok s') -> polled_pdu s [] s'.
Proof. intros H. split; [done|by left]. Qed.

(** What the builders do after polling leaves the outcome alone. *)
Definition same_polled s s' : Prop :=
  pdu_without_poll s' = pdu_without_poll s /\ byte_without_poll s' = byte_without_poll s /\
  poll_retransmit_timer s' = poll_retransmit_timer s /\ stopped_lower s' = stopped_lower s /\
  sdu_queue s' = sdu_queue s /\ retx_queue s' = retx_queue s /\ sn_under_segmentation s' = sn_under_segmentation s.

Lemma polled_pdu_write sn is_retx size s0 s p s1 s' si hsn so grant_len payload :
  get_polling_bit cfg sn is_retx size s = (p, s1) -> same_polled s1 s' ->
  (counters_ok s0 -> counters_ok s) ->
  polled_pdu s0 (write_pdu grant_len (rlc_am_write_data_pdu_header (data_header cfg p si hsn so)) payload) s'.
Proof.
  intros Hp (E1 & E2 & E3 & E4 & E5 & E6 & E7) H0. apply polling_spec in Hp as (H1 & H2 & _). split.
  - intros Hc. unfold counters_ok in *. rewrite E1, E2. auto.
  - right. eexists p, si, hsn, so, _. split; [unfold polled in H1; tauto|]. split; [done|].
    unfold polled, nothing_left in *. by rewrite E1, E2, E3, E4, E5, E6, E7.
Qed.

Lemma polling_counters sn is_retx size s p s1 :
  get_polling_bit cfg sn is_retx size s = (p, s1) -> counters_ok s -> counters_ok s1.
Proof. intros Hp. by apply polling_spec in Hp as (_ & H & _). Qed.

Ltac solve_polled :=
  first
    [ by apply polled_pdu_none
    | match goal with E : get_polling_bit _ _ _ _ _ = _ |- _ =>
        apply polled_pdu_none; intros Hc; apply (polling_counters _ _ _ _ _ _ E); exact Hc end
    | match goal with E : get_polling_bit _ _ _ _ _ = _ |- _ =>
        eapply polled_pdu_write; [exact E|by split_and!|done] end ].

Lemma first_segment_polled grant_len sn info s pdu s' out :
  build_first_sdu_segment cfg grant_len sn info s = Ok (pdu, s', out) -> polled_pdu s pdu s'.
Proof. unfold build_first_sdu_segment. intros H. inv_ok; solve_polled. Qed.

Lemma build_new_polled grant_len s pdu s' out :
  build_new_pdu cfg grant_len s = Ok (pdu, s', out) -> polled_pdu s pdu s'.
Proof.
  unfold build_new_pdu. intros H. inv_ok; try solve_polled.
  match goal with E : build_first_sdu_segment _ _ _ _ _ = _ |- _ => by apply first_segment_polled in E end.
Qed.

Lemma continued_polled grant_len sn info s pdu s' out :
  build_continued_sdu_segment cfg grant_len sn info s = Ok (pdu, s', out) -> polled_pdu s pdu s'.
Proof.
  unfold build_continued_sdu_segment. intros H. inv_ok; try solve_polled.
  all: match goal with E : get_polling_bit _ _ _ _ ?t = _ |- _ => set (s0 := t) in E end.
  all: assert (counters_ok s -> counters_ok s0) as Hc0 by (unfold s0; case_if; done).
  all: clearbody s0.
  all: match goal with E : get_polling_bit _ _ _ _ _ = _ |- _ =>
    first [apply polled_pdu_none; intros Hc; apply (polling_counters _ _ _ _ _ _ E); auto
          |eapply polled_pdu_write; [exact E|case_if; by split_and!|exact Hc0]] end.
Qed.

Lemma send_retx_polled grant_len retx info s pdu s' out :
  send_retx cfg grant_len retx info s = Ok (pdu, s', out) -> polled_pdu s pdu s'.
Proof.
  unfold send_retx. intros H. inv_ok; try solve_polled;
    (match goal with E : update_retx_queue _ _ _ _ ?t = Ok ?t' |- _ =>
       assert (counters_ok t -> counters_ok t') as Hc0
         by (unfold update_retx_queue in E; clear -E; inv_ok; [by case_if|done]); clear E end);
    match goal with E : get_polling_bit _ _ _ _ _ = _ |- _ =>
    first [apply polled_pdu_none; intros Hc; apply (polling_counters _ _ _ _ _ _ E); auto
          |eapply polled_pdu_write; [exact E|by split_and!|exact Hc0]] end.
Qed.

Lemma pull_polled grant_len deferred s r pdu s' r' out :
  pull_pdu cfg grant_len deferred s r = Ok (pdu, s', r', out) -> provider_required r = false ->
  polled_pdu s pdu s'.
Proof.
  intros H Hr. unfold pull_pdu in H. rewrite Hr in H. unfold pull_new_pdu, build_retx_pdu in H.
  inv_ok; try solve_polled.
  all: try match goal with E : send_retx _ _ _ _ _ = _ |- _ => by apply send_retx_polled in E
    | E : build_continued_sdu_segment _ _ _ _ _ = _ |- _ => by apply continued_polled in E
    | E : build_new_pdu _ _ _ = _ |- _ => by apply build_new_polled in E end.
Qed.

Lemma counters_same s s' : same_poll s s' -> counters_ok s -> counters_ok s'.
Proof. intros (E1 & E2 & _). unfold counters_ok. by rewrite E1, E2. Qed.

Lemma tx_step_counters op s r pdu s' r' out :
  tx_am_step cfg is_srb op s r = Ok (pdu, s', r', out) -> counters_ok s -> counters_ok s'.
Proof.
  intros H Hc. destruct op as [now sdu is_retx accepted|pdcp_sn accepted|grant_len deferred| |status accepted|accepted| | |accepted];
    cbn [tx_am_step] in H.
  - unfold tx_handle_sdu, handle_changed_buffer_state in H.
    destruct (sq_write _ _) as [[] q]; injection H as <- <- <- <-; cbn; repeat case_if; done.
  - unfold discard_sdu, handle_changed_buffer_state in H.
    destruct (sq_try_discard _ _) as [[] q]; injection H as <- <- <- <-; cbn; repeat case_if; done.
  - destruct (provider_required r) eqn:Er; [|by apply pull_polled in H as [H _]; auto].
    unfold pull_pdu in H. rewrite Er in H. destruct (max_retx_reached s); [by injection H as <- <- <- <-|].
    injection H as H. by apply pull_status_state in H as ->.
  - apply checked_bind_ok in H as ([bs s1] & H1 & H). injection H as <- <- <- <-.
    apply get_buffer_state_same in H1 as (H1 & _). by eapply counters_same.
  - injection H as <- <- <- <-. unfold add_task. cbn. by case_if.
  - injection H as <- <- <- <-. unfold handle_changed_buffer_state. cbn. by repeat case_if.
  - destruct (pcell_tasks s) as [|task tasks]; [by injection H as <- <- <- <-|].
    apply checked_bind_ok in H as ([s1 out1] & H1 & H). injection H as <- <- <- <-. cbn [fst].
    destruct task as [status| |]; cbn [run_task] in H1.
    + apply handle_status_same in H1 as (H1 & _). by eapply counters_same in H1.
    + apply update_mac_same in H1 as (H1 & _). by eapply counters_same in H1.
    + by injection H1 as <- <-.
  - destruct (poll_retransmit_timer s); [|by injection H as <- <- <- <-].
    apply checked_bind_ok in H as ([s1 out1] & H1 & H). injection H as <- <- <- <-. cbn [fst].
    apply poll_expired_same in H1 as (H1 & _). by eapply counters_same in H1.
  - destruct (stopped_upper s); injection H as <- <- <- <-; [done|]. unfold add_task. cbn. by case_if.
Qed.

Lemma tx_run_counters ops : forall s pdus s' out,
  tx_am_run cfg is_srb ops s = Ok (pdus, s', out) -> counters_ok s -> counters_ok s'.
Proof.
  induction ops as [|[op r] ops IH]; intros s pdus s' out H Hc; cbn [tx_am_run] in H; [by injection H as <- <- <-|].
  apply checked_bind_ok in H as ([[[pdu s1] r1] out1] & H1 & H).
  apply checked_bind_ok in H as ([[pdus1 s2] out2] & H2 & H). injection H as <- <- <-.
  eapply IH; [exact H2|]. by eapply tx_step_counters.
Qed.

(** C33. Polling: after any run, a data PDU that is pulled either carries the P bit, and
    then both poll counters are reset and t-PollRetransmit runs (when it is
    configured and the entity is not stopped); or it does not, and then more data
    waits to be sent.  So the last PDU always polls.  And the counters of PDUs and
    of bytes sent without a poll stay below the configured limits. *)
Theorem tx_am_polling s0 ops pdus s out grant_len deferred r pdu s' r' out' :
  tx_am_init cfg = Ok s0 -> tx_am_run cfg is_srb ops s0 = Ok (pdus, s, out) ->
  pull_pdu cfg grant_len deferred s r = Ok (pdu, s', r', out') ->
  provider_required r = false -> pdu <> [] ->
  counters_ok s' /\
  (poll_bit pdu = 1 /\ pdu_without_poll s' = 0 /\ byte_without_poll s' = 0 /\
     (0 < txam_t_poll_retx cfg -> stopped_lower s' = false -> poll_retransmit_timer s' = true) \/
   poll_bit pdu = 0 /\
     (sq_is_empty (sdu_queue s') = false \/ rq_empty (retx_queue s') = false \/
      sn_under_segmentation s' <> INVALID_RLC_SN)).
Proof.
  intros Hinit Hrun Hpull Hr Hne.
  assert (counters_ok s0) as H0.
  { unfold tx_am_init in Hinit. destruct (_ || _); [|done].
    apply checked_bind_ok in Hinit as (w & _ & [= <-]). split; cbn; lia. }
  apply pull_polled in Hpull as [Hc [?|(p & si & sn & so & payload & Hp & -> & Hpolled)]]; [done| |done].
  split; [apply Hc; by eapply tx_run_counters|]. rewrite poll_bit_written by done.
  destruct Hpolled as [(-> & H1 & H2 & H3)|[-> Hleft]]; [left; by split_and!|right; split; [done|]].
  unfold nothing_left in Hleft. apply andb_false_iff in Hleft as [Hleft|Hleft]; [|right; right; by apply Z.eqb_neq].
  apply andb_false_iff in Hleft as [Hleft|Hleft]; [by left|by right; left].
Qed.

End tx_am_mac.

(** ** Concrete runs *)

#[local] Existing Instance ex_provider.

Definition run_state {A} (x : checked (list (list Z) * A * list tx_am_output)) : option A :=
  match x with Ok (_, s, _) => Some s | Panic => None end.

(** One SDU waits. *)
Definition ex_waiting_ops : list (tx_am_op * rx_am_state circular_map) :=
  [(TxSdu 0 ex_am_sdu false true, am_rx ex_am_init)].
Definition ex_waiting : tx_am_state circular_map :=
  Eval vm_compute in default ex_tx_init (run_state (tx_am_run ex_tx_am_cfg false ex_waiting_ops ex_tx_init)).

Lemma ex_waiting_run :
  tx_am_run ex_tx_am_cfg false ex_waiting_ops ex_tx_init = Ok ([[]], ex_waiting, [TxMetricSdus 1 4]).
Proof. by vm_compute. Qed.

Lemma buffer_state_barring_safe_witness :
  exists s' out', update_mac_buffer_state ex_tx_am_cfg false ex_waiting (am_rx ex_am_init) = Ok (s', out') /\
    (out' = [OutBufferState (prev_buffer_state s')] \/ out' = []).
Proof.
  destruct (update_mac_buffer_state ex_tx_am_cfg false ex_waiting (am_rx ex_am_init)) as [[s' out']|] eqn:E;
    [|vm_compute in E; discriminate E].
  exists s', out'. split; [reflexivity|].
  destruct (buffer_state_barring_safe ex_tx_am_cfg false ex_tx_init ex_waiting_ops [[]] ex_waiting _ false
    (am_rx ex_am_init) s' out' ex_tx_init_run ex_waiting_run E) as [H|[H _]]; [left|right]; exact H.
Defined.

Lemma tx_am_polling_witness :
  exists pdu s' r' out', pull_pdu ex_tx_am_cfg 50 true ex_waiting (am_rx ex_am_init) = Ok (pdu, s', r', out') /\
    counters_ok ex_tx_am_cfg s'.
Proof.
  destruct (pull_pdu ex_tx_am_cfg 50 true ex_waiting (am_rx ex_am_init)) as [[[[pdu s'] r'] out']|] eqn:E;
    [|vm_compute in E; discriminate E].
  exists pdu, s', r', out'. split; [reflexivity|].
  refine (proj1 (tx_am_polling ex_tx_am_cfg false _ _ ex_tx_init ex_waiting_ops [[]] ex_waiting _ 50 true
    (am_rx ex_am_init) pdu s' r' out' ex_tx_init_run ex_waiting_run E _ _)); [reflexivity..|].
  intros ->. vm_compute in E. discriminate E.
Defined.

(** Four SDUs of 60000 bytes: the first three updates of the buffer state are
    notified, the fourth is withheld, since the MAC knows of enough bytes. *)
Definition ex_big_cfg : rlc_tx_am_config :=
  mk_rlc_tx_am_config am_size12bits PdcpSn.pdcp_size12bits 45 4 4 25000 8 1000000 0.
Example ex_withheld :
  match (let? s := tx_am_init ex_big_cfg in tx_am_run (W := circular_map) ex_big_cfg false
      (concat ((fun sn => [(TxSdu 0 (128 :: sn :: replicate (Z.to_nat 59998) 7) false true, am_rx ex_am_init);
        (TxRunTask, am_rx ex_am_init)]) <$> [0; 1; 2; 3])) s) with
  | Ok (_, s, out) => bs_out out = [mk_rlc_buffer_state 60002 (Some 0); mk_rlc_buffer_state 120004 (Some 0);
      mk_rlc_buffer_state 180006 (Some 0)]
  | Panic => False
  end.
Proof. vm_compute. reflexivity. Qed.

(** A status report that acknowledges SDU 0 but says that it is missing, before
    anything was sent. *)
Definition ex_unsent_status : rlc_am_status_pdu :=
  mk_rlc_am_status_pdu am_size12bits 4096 [nack_default] 5 0 1.

(** A peer can abort the transmitting entity: a well-formed status PDU whose ACK_SN
    is TX_Next + 1 and whose NACK_SN is TX_Next passes the checks of the report even
    when no SDU is being segmented; handling the NACK then looks up the window entry
    of TX_Next, which does not exist, and the assertion of the window fails. *)
Theorem nack_of_unsent_sdu_panics :
  rlc_am_run ex_am_cfg false [AmRx (RxPdu true (pack ex_unsent_status)) []; AmTx TxRunTask] ex_am_init = Panic /\
  unpack (pack ex_unsent_status) (new_status_pdu am_size12bits) = Ok (true, ex_unsent_status) /\
  status_wf ex_unsent_status.
Proof.
  split; [by vm_compute|]. split; [by vm_compute|]. split; try done.
  apply Forall_singleton. by split.
Qed.
