(* ===== verification/RlcAmLink.v ===== *)
(** * RLC AM: from one end to the other

    Composes the transmitting entity with the receiving entity of the peer, over a
    lower layer that may lose, duplicate and reorder the data PDUs as long as none
    arrives a window late.  The receiving side may run out of memory at any PDU. *)
From stdpp Require Import base numbers list.
From Stdlib Require Import ZArith Lia.
From S2P Require Import Prelude.
From S2P Require Import RlcConfig.
From S2P Require Import RlcAmPdu.
From S2P Require Import SduWindow.
From S2P Require Import RlcSegments.
From S2P Require Import RlcRxAm.
From S2P Require Import RlcRxAmProps.
From S2P Require Import RlcRxAmDelivery.
From S2P Require Import RlcRxAmRuns.
From S2P Require Import RlcTxBase.
From S2P Require Import RlcTxAm.
From S2P Require Import RlcAmEntity.
From S2P Require Import RlcTxAmProps.
From S2P Require Import RlcTxAmRuns.

Set Default Goal Selector "!".
Open Scope Z_scope.
Open Scope ran_scope.

(** ** Lists *)

Lemma fmap_seqZ_lookup {A} (v : A) (l : list A) :
  (fun n => default v (l !! Z.to_nat n)) <$> seqZ 0 (zlen l) = l.
Proof.
  apply list_eq. intros i. rewrite list_lookup_fmap. unfold zlen. destruct (decide (i < length l)%nat) as [Hi|Hi].
  - rewrite lookup_seqZ_lt by lia. cbn. replace (Z.to_nat (0 + Z.of_nat i)) with i by lia.
    destruct (lookup_lt_is_Some_2 l i Hi) as [x ->]. done.
  - rewrite lookup_seqZ_ge by lia. cbn. symmetry. apply lookup_ge_None. lia.
Qed.

(** Distinct elements of a list, by their indices. *)
Lemma lookups_submseteq {A} (v : A) (l : list A) ns :
  NoDup ns -> (forall n, n ∈ ns -> 0 <= n < zlen l) ->
  ((fun n => default v (l !! Z.to_nat n)) <$> ns) ⊆+ l.
Proof.
  intros Hnd Hns. pose proof (fmap_seqZ_lookup v l) as E.
  assert (ns ⊆+ seqZ 0 (zlen l)) as H.
  { apply NoDup_submseteq; [done|]. intros n Hn%Hns. apply elem_of_seqZ. lia. }
  apply (fmap_submseteq (fun n => default v (l !! Z.to_nat n))) in H. by rewrite E in H.
Qed.

Lemma Forall_choice {A B} (P : B -> A -> Prop) (l : list A) :
  Forall (fun x => exists y, P y x) l -> exists ys, Forall2 P ys l.
Proof.
  induction 1 as [|x l (y & Hy) _ (ys & IH)]; [by exists []|]. exists (y :: ys). by constructor.
Qed.

(** ** Memory at the receiving entity

    Without memory an SDU that is complete is counted as lost; the state is the same. *)
Section memory.
Context {W : Type -> Type} `{!SduWindow W}.
Variable cfg : rlc_rx_am_config.

Definition with_memory (op : rx_am_op) : rx_am_op :=
  match op with RxPdu _ buf => RxPdu true buf | _ => op end.

(** [x] ends in the state of [y] and delivers a part of what it delivers. *)
Definition delivers_less {S} (x y : checked (S * list rx_am_output)) : Prop :=
  match y with
  | Ok (s, out) => exists out', x = Ok (s, out') /\ sublist (delivered out') (delivered out)
  | Panic => x = Panic
  end.

Lemma delivers_less_refl {S} (x : checked (S * list rx_am_output)) : delivers_less x x.
Proof. destruct x as [[s out]|]; [|done]. by exists out. Qed.

Lemma handle_received_memory alloc sn (s : rx_am_state W) :
  delivers_less (handle_received_sdu cfg alloc sn s) (handle_received_sdu cfg true sn s).
Proof.
  unfold handle_received_sdu. destruct (sn_fully_received _ _) as [[]|]; cbn [checked_bind]; [|apply delivers_less_refl..].
  assert (delivers_less (deliver_sdu alloc sn s) (deliver_sdu true sn s)) as Hd.
  { unfold deliver_sdu. destruct (win_at _ _) as [info|]; cbn [checked_bind]; [|done].
    destruct (win_write _ _ _) as [w|]; cbn [checked_bind]; [|done]. cbn. eexists. split; [done|].
    destruct alloc; [done|]. unfold am_reassemble_sdu. destruct (negb (fully_received info)); [done|].
    apply sublist_nil_l. }
  destruct (deliver_sdu true sn s) as [[s1 out]|]; [|by rewrite Hd]. destruct Hd as (out' & -> & Hsub). cbn [checked_bind].
  destruct (update_rx_highest_status _ _ _); cbn [checked_bind]; [|done].
  destruct (update_rx_next _ _ _); cbn [checked_bind]; [|done]. by exists out'.
Qed.

Lemma place_memory alloc header payload (s : rx_am_state W) :
  delivers_less (place_data_pdu cfg alloc header payload s) (place_data_pdu cfg true header payload s).
Proof.
  unfold place_data_pdu. destruct (if bool_decide _ then _ else _) as [[changed s1]|]; cbn [checked_bind]; [|done].
  pose proof (handle_received_memory alloc (hdr_sn header) (update_rx_next_highest cfg (hdr_sn header) s1)) as Hd.
  destruct (handle_received_sdu cfg true _ _) as [[s2 out]|]; [|by rewrite Hd]. destruct Hd as (out' & -> & Hsub). cbn [checked_bind].
  destruct (check_stop_reassembly _ _) as [s3|]; cbn [checked_bind]; [|done].
  destruct (if reassembly_timer s3 then _ else _); cbn [checked_bind]; [|done]. by exists out'.
Qed.

Lemma data_pdu_memory alloc buf (s : rx_am_state W) :
  delivers_less (handle_data_pdu cfg alloc buf s) (handle_data_pdu cfg true buf s).
Proof.
  unfold handle_data_pdu. destruct (rlc_am_read_data_pdu_header _ _ _) as [header|]; [|apply delivers_less_refl].
  case_if; [apply delivers_less_refl|]. case_if; [apply delivers_less_refl|].
  destruct (sn_fully_received _ _) as [[]|]; cbn [checked_bind]; [apply delivers_less_refl| |done].
  set (payload := drop _ buf). pose proof (place_memory alloc header payload s) as Hd.
  destruct (place_data_pdu cfg true header payload s) as [[[changed s1] out]|]; [|by rewrite Hd].
  destruct Hd as (out' & -> & Hsub). cbn [checked_bind]. destruct (data_pdu_exit _ _ _ _) as [[s2 out2]|]; [|done].
  cbn [checked_bind]. eexists. split; [done|]. unfold delivered. rewrite !omap_app. by apply sublist_app.
Qed.

(** A step without memory makes the same change and delivers no more. *)
Lemma step_memory op (s : rx_am_state W) : delivers_less (rx_am_step cfg op s) (rx_am_step cfg (with_memory op) s).
Proof.
  destruct op as [alloc buf| | | | |]; try apply delivers_less_refl. cbn [with_memory rx_am_step]. unfold handle_pdu.
  destruct buf as [|b buf]; [apply delivers_less_refl|]. destruct (is_control_pdu _) as [[]|]; cbn [checked_bind]; try apply delivers_less_refl.
  pose proof (data_pdu_memory alloc (b :: buf) s) as Hd. destruct (handle_data_pdu cfg true _ s) as [[s1 out]|]; [|by rewrite Hd].
  destruct Hd as (out' & -> & Hsub). by eexists.
Qed.

Lemma run_memory ops : forall s : rx_am_state W, delivers_less (rx_am_run cfg ops s) (rx_am_run cfg (with_memory <$> ops) s).
Proof.
  induction ops as [|op ops IH]; intros s; [apply delivers_less_refl|]. cbn [fmap list_fmap rx_am_run].
  pose proof (step_memory op s) as Hd. destruct (rx_am_step cfg (with_memory op) s) as [[s1 out]|]; [|by rewrite Hd].
  destruct Hd as (out' & -> & Hsub). cbn [checked_bind]. specialize (IH s1). change (fmap with_memory ops) with (with_memory <$> ops).
  destruct (rx_am_run cfg (with_memory <$> ops) s1) as [[s2 out2]|]; [|by rewrite IH]. destruct IH as (out2' & -> & Hsub2).
  cbn [checked_bind]. eexists. split; [done|]. unfold delivered. rewrite !omap_app. by apply sublist_app.
Qed.
End memory.

Section link.
Context {W : Type -> Type} `{!SduWindow W} `{!SduWindowLaws W} {R : Type} `{!StatusProvider R}.
Variable tcfg : rlc_tx_am_config.
Variable is_srb : bool.
Variable rcfg : rlc_rx_am_config.
Hypothesis Hpeer : sn_size rcfg = tx_sn_size tcfg.
Hypothesis Hcfg : cfg_ok rcfg.
Local Abbreviation ws := (am_window_size rcfg).

(** The number of the SDU each PDU carries. *)
Definition numbered (started : list (list Z)) (num : option Z) (pdu : list Z) : Prop :=
  match num with
  | Some k => 0 <= k < zlen started /\ sent_pdu rcfg started k pdu
  | None => pdu = [] \/ exists status, pdu = pack status
  end.

(** What the lower layer may hand to the receiving entity while it expects number
    [base]: any data PDU of the transmitter whose number is less than a window away,
    and status PDUs. *)
Definition link_op (pdus : list (list Z)) (nums : list (option Z)) (base n : Z) (op : rx_am_op) : Prop :=
  match op with
  | RxPdu _ buf =>
      pdu_ok rcfg buf /\ is_control_pdu buf = Ok true \/
      base - ws <= n < base + ws /\ exists i, pdus !! i = Some buf /\ nums !! i = Some (Some n)
  | _ => True
  end.

Fixpoint link_run (pdus : list (list Z)) (nums : list (option Z)) (base : Z)
    (ops : list (rx_am_op * Z)) (s : rx_am_state W) : Prop :=
  match ops with
  | [] => True
  | (op, n) :: ops =>
      link_op pdus nums base n op /\
      match rx_am_step rcfg op s with
      | Ok (s', _) => link_run pdus nums (next_count rcfg base s s') ops s'
      | Panic => True
      end
  end.

Lemma carries_ext sdus sdus' n buf :
  sdus n = sdus' n -> carries rcfg sdus n buf -> carries rcfg sdus' n buf.
Proof. unfold carries. by intros ->. Qed.

Lemma link_op_genuine pdus nums started v base n op :
  Forall2 (numbered started) nums pdus -> link_op pdus nums base n op ->
  genuine_op rcfg (fun k => default v (started !! Z.to_nat k)) base n (with_memory op).
Proof.
  intros Hnums Hop. unfold genuine_op. destruct op as [alloc buf| | | | |]; try done. destruct Hop as [[Hok Hc]|(Hb & i & Hi & Hn)].
  - split; [done|]. split; [done|]. by left.
  - eapply Forall2_lookup_lr in Hnums; [|exact Hn|exact Hi]. destruct Hnums as (Hk & Hok & Hc & Hcar).
    split; [done|]. split; [done|]. right. split_and!; try done; try lia.
    eapply carries_ext; [|exact Hcar]. cbn. destruct (lookup_lt_is_Some_2 started (Z.to_nat n)) as [x ->]; [|done].
    unfold zlen in Hk. lia.
Qed.

Lemma link_genuine pdus nums started v : Forall2 (numbered started) nums pdus -> forall ops base s,
  link_run pdus nums base ops s ->
  genuine rcfg (fun k => default v (started !! Z.to_nat k)) base (prod_map with_memory id <$> ops) s.
Proof.
  intros Hnums. induction ops as [|[op n] ops IH]; intros base s; [done|]. cbn [link_run].
  intros [Hop Hrun]. split; [by eapply link_op_genuine|]. cbn [prod_map fst]. pose proof (step_memory rcfg op s) as Hd.
  destruct (rx_am_step rcfg (with_memory op) s) as [[s' out]|]; [|done]. destruct Hd as (out' & E & _).
  rewrite E in Hrun. by apply IH.
Qed.

(** C1. Reliability from end to end. For every execution of the transmitting AM entity with
    SDUs of 1 to 2^16 - 1 bytes and status reports whose fields are in range and which
    acknowledge beyond TX_Next only together with what they miss of the SDU under
    segmentation: the PDUs pulled are numbered by the SDUs they carry. Whatever subset of
    the data PDUs arrives at the receiving entity of the peer, whose t-Reassembly is above
    zero and whose limit of SNs per report, if set, is between one and the window size, in
    any order and any number of times but none a window late, with status PDUs, timer
    expiries, status requests and a stop in between, and with or without memory for each
    SDU: that entity does not abort, and what it hands to its upper layer is a part of what
    was submitted to the transmitter, each SDU unaltered and at most as often as it was
    submitted. *)
Theorem am_link_integrity s0 (ops : list (tx_am_op * R)) (r0 : rx_am_state W) :
  tx_am_init (W := W) tcfg = Ok s0 -> tx_ops_ok tcfg is_srb ops s0 -> rx_am_init rcfg = Ok r0 ->
  exists pdus s out started nums, tx_am_run tcfg is_srb ops s0 = Ok (pdus, s, out) /\
    sublist started (ops.*1 ≫= submitted) /\ Forall2 (numbered started) nums pdus /\
    forall rops, link_run pdus nums 0 rops r0 ->
      exists r rout, rx_am_run rcfg (fst <$> rops) r0 = Ok (r, rout) /\
        delivered rout ⊆+ (ops.*1 ≫= submitted).
Proof.
  intros Hinit Hok Hrinit.
  destruct (tx_run_from_init tcfg is_srb rcfg Hpeer s0 ops Hinit Hok) as (pdus & s & out & a & n & started & E & _ & Hsub & Hp).
  assert (sublist started (ops.*1 ≫= submitted)) as Hst by (etrans; [|exact Hsub]; by apply sublist_inserts_r).
  destruct (Forall_choice (numbered started) pdus) as [nums Hnums].
  { eapply Forall_impl; [exact Hp|]. intros pdu [->|[(k & Hk)|Hstatus]]; [exists None; by left|by exists (Some k)|exists None; by right]. }
  exists pdus, s, out, started, nums. split_and!; [done..|]. intros rops Hlink.
  destruct (rx_am_delivers rcfg Hcfg _ r0 _ Hrinit (link_genuine _ _ _ [] Hnums _ _ _ Hlink))
    as (r & rout & _ & _ & Er & _).
  assert (fst <$> (prod_map with_memory id <$> rops) = with_memory <$> (fst <$> rops)) as Eops.
  { rewrite <- !list_fmap_compose. by apply list_fmap_ext; intros ? []. }
  rewrite Eops in Er. pose proof (run_memory rcfg (fst <$> rops) r0) as Hless. rewrite Er in Hless.
  destruct Hless as (rout1 & Er1 & Hsub1). exists r, rout1. split; [done|].
  apply sublist_submseteq in Hsub1. etrans; [exact Hsub1|].
  set (v := fresh (delivered rout)).
  destruct (rx_am_delivers rcfg Hcfg _ r0 _ Hrinit (link_genuine _ _ _ v Hnums _ _ _ Hlink))
    as (r' & rout' & ns & count & Er' & Hd & Hnd & _ & Hns & _).
  rewrite Eops, Er in Er'. injection Er' as <- <-. apply sublist_submseteq in Hst. etrans; [|exact Hst]. rewrite Hd.
  apply lookups_submseteq; [done|]. intros k Hk. split; [apply Hns in Hk; lia|].
  destruct (started !! Z.to_nat k) as [x|] eqn:Ex.
  - apply lookup_lt_Some in Ex. unfold zlen. apply Hns in Hk. lia.
  - exfalso. apply (infinite_is_fresh (delivered rout)). fold v. rewrite Hd. apply list_elem_of_fmap.
    exists k. by rewrite Ex.
Qed.
End link.

(** ** A concrete link *)

#[local] Existing Instance ex_provider.

(** The PDUs of the concrete run of the transmitter: an SDU in two segments, and the
    retransmission of the first two bytes. *)
Definition ex_link_pdus : list (list Z) :=
  Eval vm_compute in
    match tx_am_run ex_tx_am_cfg false ex_tx_ops ex_tx_init with Ok (pdus, _, _) => pdus | Panic => [] end.
Definition ex_link_pdu (i : nat) : list Z := ex_link_pdus !!! i.

(** The first segment is lost; the second arrives twice, and t-Reassembly expires before
    the retransmission arrives. *)
Definition ex_link_ops : list (rx_am_op * Z) :=
  [(RxPdu true (ex_link_pdu 3), 0); (RxReassemblyExpired, 0); (RxPdu false (ex_link_pdu 3), 0);
   (RxPdu true (ex_link_pdu 6), 0)].

(** A status PDU is not a data PDU. *)
Lemma pack_is_control status : is_control_pdu (pack status) = Ok true.
Proof.
  assert (forall x, Z.land (Z.shiftr (Z.lor 0 (Z.land x 0x0f)) 7) 1 = 0) as H.
  { intros x. by rewrite Z.lor_0_l, Z.shiftr_land, Z.land_0_r. }
  unfold pack, pack_12bit, pack_18bit. destruct (sp_sn_size status); cbn [app is_control_pdu]; by rewrite H.
Qed.

(** The only SDU started carries the number 0. *)
Lemma ex_link_numbers started nums i pdu :
  sublist started [ex_am_sdu] -> Forall2 (numbered ex_rx_am_cfg started) nums ex_link_pdus ->
  ex_link_pdus !! i = Some pdu -> is_control_pdu pdu = Ok false -> nums !! i = Some (Some 0).
Proof.
  intros Hst Hnums Hi Hc. apply Forall2_length in Hnums as Hlen.
  destruct (lookup_lt_is_Some_2 nums i) as [num En]; [rewrite Hlen; by eapply lookup_lt_Some|].
  rewrite En. f_equal. pose proof (Forall2_lookup_lr _ _ _ _ _ _ Hnums En Hi) as Hn.
  apply sublist_length in Hst. destruct num as [k|]; cbn in Hn.
  - destruct Hn as [Hk _]. unfold zlen in Hk. cbn in Hst. f_equal. lia.
  - destruct Hn as [->|[status ->]]; [done|]. by rewrite pack_is_control in Hc.
Qed.

(** Evaluates the step at the head of a run of the link, and the number expected after it. *)
Ltac eval_link_step :=
  eval_tx_step;
  match goal with |- link_run _ _ _ ?b _ _ => let r := eval vm_compute in b in change b with r end.

Lemma ex_link_run nums started :
  sublist started [ex_am_sdu] -> Forall2 (numbered ex_rx_am_cfg started) nums ex_link_pdus ->
  link_run ex_rx_am_cfg ex_link_pdus nums 0 ex_link_ops (am_rx ex_am_init).
Proof.
  intros Hst Hnums. pose proof (ex_link_numbers started nums) as Hn.
  assert (link_op ex_rx_am_cfg ex_link_pdus nums 0 0 (RxPdu true (ex_link_pdu 3))) as H3.
  { right. split; [by vm_compute|]. exists 3%nat. split; [reflexivity|]. by apply (Hn _ (ex_link_pdu 3)). }
  assert (link_op ex_rx_am_cfg ex_link_pdus nums 0 0 (RxPdu true (ex_link_pdu 6))) as H6.
  { right. split; [by vm_compute|]. exists 6%nat. split; [reflexivity|]. by apply (Hn _ (ex_link_pdu 6)). }
  unfold ex_link_ops. split; [exact H3|]. eval_link_step. split; [exact I|]. eval_link_step.
  split; [exact H3|]. eval_link_step. split; [exact H6|]. eval_link_step. exact I.
Qed.

Lemma am_link_integrity_witness :
  exists r rout, rx_am_run ex_rx_am_cfg (fst <$> ex_link_ops) (am_rx ex_am_init) = Ok (r, rout) /\
    delivered rout = [ex_am_sdu] /\ delivered rout ⊆+ [ex_am_sdu].
Proof.
  assert (cfg_ok ex_rx_am_cfg) as Hcfg by by split.
  destruct (am_link_integrity ex_tx_am_cfg false ex_rx_am_cfg eq_refl Hcfg ex_tx_init ex_tx_ops (am_rx ex_am_init)
    ex_tx_init_run ex_tx_ops_ok) as (pdus & s & out & started & nums & E & Hst & Hnums & Hlink); [by vm_compute|].
  assert (pdus = ex_link_pdus) as -> by (vm_compute in E; by injection E).
  destruct (Hlink ex_link_ops (ex_link_run nums started Hst Hnums)) as (r & rout & Er & Hd).
  exists r, rout. split; [exact Er|]. split; [|exact Hd]. vm_compute in Er. injection Er as <- <-. reflexivity.
Defined.
