(* ===== verification/RlcTxUm.v ===== *)
(** * RLC UM: transmitting entity

    Models [rlc_tx_um_entity] of [src/lib/rlc/rlc_tx_um_entity.h] and
    [src/lib/rlc/rlc_tx_um_entity.cpp]: SDUs of the upper layer, PDUs pulled by the
    MAC with their segmentation, and the buffer state.  The updates of the buffer
    state deferred to the executor of the cell are counted in the state until a step
    runs them.  The sanity checks, which the default build leaves out, are not part
    of the definitions: [tx_um_segmentation] shows that they hold. *)
From stdpp Require Import base numbers list.
From Stdlib Require Import ZArith Lia.
From S2P Require Import Prelude.
From S2P Require Import RlcConfig.
From S2P Require Import RlcUmPdu.
From S2P Require Import RlcSduQueue.
From S2P Require Import PdcpSn.
From S2P Require Import RlcTxBase.

Set Default Goal Selector "!".
Open Scope Z_scope.
Open Scope ran_scope.

(** ** Data *)

Record rlc_tx_um_config := mk_rlc_tx_um_config {
  txum_sn_field_length : rlc_um_sn_size;
  txum_pdcp_sn_len : pdcp_sn_size;
  txum_queue_size : Z;
  txum_queue_size_bytes : Z;
}.

Inductive tx_um_output : Type :=
| UtxTransmittedSdu (pdcp_sn desired_buf_size : Z)
| UtxBufferState (bs : rlc_buffer_state)
| UtxRetBufferState (bs : rlc_buffer_state)
| UtxMetricSdus (sdus bytes : Z)
| UtxMetricLostSdus (sdus : Z)
| UtxMetricDiscard (sdus : Z)
| UtxMetricDiscardFailure (sdus : Z)
| UtxMetricPulledSdus (sdus : Z)
| UtxMetricPdusNoSegmentation (pdus bytes : Z)
| UtxMetricPdusWithSegmentation (pdus bytes : Z).

(** [utx_sdu] is the SDU being transmitted; its buffer is empty when there is none.
    [utx_tasks] counts the updates that wait in the executor of the cell. *)
Record tx_um_state := mk_tx_um_state {
  utx_next : Z;
  utx_sdu_queue : rlc_sdu_queue;
  utx_sdu : rlc_sdu;
  utx_next_so : Z;
  utx_prev_buffer_state : rlc_buffer_state;
  utx_suspend_barring : bool;
  utx_pending_buffer_state : bool;
  utx_tasks : nat;
  utx_stopped : bool;
}.
#[export] Instance tx_um_state_eta : RecordEta tx_um_state := fun r =>
  mk_tx_um_state (utx_next r) (utx_sdu_queue r) (utx_sdu r) (utx_next_so r)
    (utx_prev_buffer_state r) (utx_suspend_barring r) (utx_pending_buffer_state r)
    (utx_tasks r) (utx_stopped r).

Definition no_sdu : rlc_sdu := mk_rlc_sdu [] false None 0.

Section tx_um.
Variable cfg : rlc_tx_um_config.
Implicit Types s : tx_um_state.

Definition utx_mod : Z := cardinality (um_to_number (txum_sn_field_length cfg)).
Definition head_len_full : Z := rlc_um_pdu_header_size_complete_sdu.
Definition head_len_first : Z := rlc_um_pdu_header_size_no_so (txum_sn_field_length cfg).
Definition head_len_not_first : Z := rlc_um_pdu_header_size_with_so (txum_sn_field_length cfg).

Definition tx_um_init : checked tx_um_state :=
  assert? bool_decide (txum_pdcp_sn_len cfg = pdcp_size12bits) ||
          bool_decide (txum_pdcp_sn_len cfg = pdcp_size18bits);
  Ok (mk_tx_um_state 0 (sq_new (txum_queue_size cfg) (txum_queue_size_bytes cfg)) no_sdu 0
        (mk_rlc_buffer_state 0 None) true false 0 false).

(** ** Buffer state *)

Definition um_get_buffer_state s : rlc_buffer_state * tx_um_state :=
  let '(n_sdus, n_bytes) := sq_get_state (utx_sdu_queue s) in
  let queue_bytes := u32 (n_bytes + n_sdus * head_len_full) in
  let '(segment_bytes, toa, s) :=
    match sdu_buf (utx_sdu s) with
    | _ :: _ => (u32 (zlen (sdu_buf (utx_sdu s)) - utx_next_so s + head_len_not_first),
                 Some (sdu_time_of_arrival (utx_sdu s)), s)
    | [] => let '(next_sdu, q) := sq_front (utx_sdu_queue s) in
            (0, sdu_time_of_arrival <$> next_sdu, s <| utx_sdu_queue := q |>)
    end in
  let bs := mk_rlc_buffer_state (u32 (queue_bytes + segment_bytes)) toa in
  (bs, if pending_bytes bs <=? MAX_DL_PDU_LENGTH
       then s <| utx_suspend_barring := true |> else s).

Definition um_update_mac_buffer_state s : tx_um_state * list tx_um_output :=
  let '(bs, s) := um_get_buffer_state (s <| utx_pending_buffer_state := false |>) in
  let '(s, out) :=
    if (pending_bytes bs <=? MAX_DL_PDU_LENGTH) ||
       (pending_bytes (utx_prev_buffer_state s) <=? MAX_DL_PDU_LENGTH) || utx_suspend_barring s
    then (s <| utx_suspend_barring := false |>, [UtxBufferState bs]) else (s, []) in
  (s <| utx_prev_buffer_state := bs |>, out).

(** [accepted]: the executor of the cell accepts the task. *)
Definition um_handle_changed_buffer_state (accepted : bool) s : tx_um_state :=
  if utx_pending_buffer_state s then s else
  let s := s <| utx_pending_buffer_state := true |> in
  if accepted then s <| utx_tasks ::= S |> else s.

(** ** SDUs of the upper layer *)

(** The retransmission flag of the PDCP is ignored. *)
Definition um_handle_sdu (now : Z) (buf : list Z) (accepted : bool) s :
    tx_um_state * list tx_um_output :=
  let sdu := mk_rlc_sdu buf false (get_pdcp_sn buf (txum_pdcp_sn_len cfg) false) now in
  let '(written, q) := sq_write sdu (utx_sdu_queue s) in
  let s := s <| utx_sdu_queue := q |> in
  if written then (um_handle_changed_buffer_state accepted s, [UtxMetricSdus 1 (zlen buf)])
  else (s, [UtxMetricLostSdus 1]).

Definition um_discard_sdu (pdcp_sn : Z) (accepted : bool) s : tx_um_state * list tx_um_output :=
  let '(discarded, q) := sq_try_discard pdcp_sn (utx_sdu_queue s) in
  let s := s <| utx_sdu_queue := q |> in
  if discarded then (um_handle_changed_buffer_state accepted s, [UtxMetricDiscard 1])
  else (s, [UtxMetricDiscardFailure 1]).

(** ** PDUs *)

(** [None]: not even one byte of payload fits.  [next_so] is the member, which
    equals the parameter [so] of the only call. *)
Definition get_si_and_expected_header_size (so next_so sdu_len grant_len : Z) :
    option (rlc_si_field * Z) :=
  if so =? 0 then
    if sdu_len <=? u32 (grant_len - head_len_full) then Some (full_sdu, head_len_full)
    else if grant_len <=? head_len_first then None else Some (first_segment, head_len_first)
  else
    if grant_len <=? head_len_not_first then None else
    if u32 (sdu_len - next_so) <=? u32 (grant_len - head_len_not_first)
    then Some (last_segment, head_len_not_first) else Some (middle_segment, head_len_not_first).

(** A new SDU is read when none is being transmitted; [None]: the queue is empty. *)
Definition um_next_sdu s : option (list tx_um_output) * tx_um_state :=
  match sdu_buf (utx_sdu s) with
  | _ :: _ => (Some [], s)
  | [] =>
      let '(sdu, q) := sq_read (utx_sdu_queue s) in
      let s := s <| utx_sdu_queue := q |> in
      match sdu with
      | None => (None, s)
      | Some sdu =>
          (Some (match sdu_pdcp_sn sdu with
                 | Some pdcp_sn => [UtxTransmittedSdu pdcp_sn (txum_queue_size_bytes cfg)]
                 | None => []
                 end), s <| utx_sdu := sdu |>)
      end
  end.

Definition um_data_header (si : rlc_si_field) s : rlc_um_pdu_header :=
  mk_rlc_um_pdu_header si (txum_sn_field_length cfg) (utx_next s) (u16 (utx_next_so s)).

(** What the transmission of [payload_len] bytes does to the state.  The buffer of
    the SDU is moved away when it is finished. *)
Definition um_advance (si : rlc_si_field) (payload_len : Z) s : tx_um_state :=
  let s := match si with
           | full_sdu | last_segment =>
               s <| utx_sdu ::= fun sdu => sdu <| sdu_buf := [] |> |> <| utx_next_so := 0 |>
           | _ => s <| utx_next_so ::= fun so => u32 (so + payload_len) |>
           end in
  match si with
  | last_segment => s <| utx_next := (utx_next s + 1) mod utx_mod |>
  | _ => s
  end.

Definition um_pdu_outputs (si : rlc_si_field) (size : Z) : list tx_um_output :=
  match si with full_sdu | last_segment => [UtxMetricPulledSdus 1] | _ => [] end ++
  match si with
  | full_sdu => [UtxMetricPdusNoSegmentation 1 size]
  | _ => [UtxMetricPdusWithSegmentation 1 size]
  end.

(** A PDU of the current SDU; empty when the function returns 0. *)
Definition um_build_pdu (grant_len : Z) s : checked (list Z * tx_um_state * list tx_um_output) :=
  let sdu_len := zlen (sdu_buf (utx_sdu s)) in
  match get_si_and_expected_header_size (utx_next_so s) (utx_next_so s) (u32 sdu_len) grant_len with
  | None => Ok ([], s, [])
  | Some (si, _) =>
      let header := rlc_um_write_data_pdu_header (um_data_header si s) in
      let space := u32 (grant_len - zlen header) in
      let rest := u64 (sdu_len - utx_next_so s) in
      let payload_len := u32 (if rest <=? space then rest else space) in
      let? view := sdu_view (sdu_buf (utx_sdu s)) (utx_next_so s) payload_len in
      let pdu := write_pdu grant_len header view in
      let nwritten := zlen pdu - zlen header in
      if (nwritten =? 0) || negb (nwritten =? payload_len) then Ok ([], s, []) else
      Ok (pdu, um_advance si payload_len s, um_pdu_outputs si (zlen pdu))
  end.

Definition um_pull_pdu (grant_len : Z) s : checked (list Z * tx_um_state * list tx_um_output) :=
  if grant_len <=? head_len_full then Ok ([], s, []) else
  match um_next_sdu s with
  | (None, s) => Ok ([], s, [])
  | (Some out, s) =>
      let? (pdu, s, out') := um_build_pdu grant_len s in
      Ok (pdu, s, out ++ out')
  end.

(** ** Events *)

Inductive tx_um_op : Type :=
| UtxSdu (now : Z) (buf : list Z) (is_retx accepted : bool)
| UtxDiscardSdu (pdcp_sn : Z) (accepted : bool)
| UtxPull (grant_len : Z)
| UtxGetBufferState
| UtxRunTask
| UtxStop.

Definition tx_um_step (op : tx_um_op) s : checked (list Z * tx_um_state * list tx_um_output) :=
  let keep (x : tx_um_state * list tx_um_output) := Ok ([], x.1, x.2) in
  match op with
  | UtxSdu now buf _ accepted => keep (um_handle_sdu now buf accepted s)
  | UtxDiscardSdu pdcp_sn accepted => keep (um_discard_sdu pdcp_sn accepted s)
  | UtxPull grant_len => um_pull_pdu grant_len s
  | UtxGetBufferState => let '(bs, s) := um_get_buffer_state s in keep (s, [UtxRetBufferState bs])
  | UtxRunTask =>
      match utx_tasks s with
      | O => keep (s, [])
      | S n => keep (um_update_mac_buffer_state (s <| utx_tasks := n |>))
      end
  | UtxStop => keep (s <| utx_stopped := true |>, [])
  end.

Fixpoint tx_um_run (ops : list tx_um_op) s :
    checked (list (list Z) * tx_um_state * list tx_um_output) :=
  match ops with
  | [] => Ok ([], s, [])
  | op :: ops =>
      let? (pdu, s, out) := tx_um_step op s in
      let? (pdus, s, out') := tx_um_run ops s in
      Ok (pdu :: pdus, s, out ++ out')
  end.
End tx_um.
