(* ===== verification/RlcTxUmProps.v ===== *)
(** * RLC UM transmitter: invariant and effect of each operation

    The SDUs the entity has started to send, the ones among them that it segments
    and numbers, and what every operation does to them; the PDU that a pull builds,
    in the form in which the receiving entity takes it. *)
From stdpp Require Import base numbers list.
From Stdlib Require Import ZArith Lia.
From S2P Require Import Prelude.
From S2P Require Import RlcConfig.
From S2P Require Import RlcUmPdu.
From S2P Require Import SduWindow.
From S2P Require Import RlcSegments.
From S2P Require Import RlcRxUm.
From S2P Require Import RlcRxUmProps.
From S2P Require Import RlcSduQueue.
From S2P Require Import PdcpSn.
From S2P Require Import RlcTxBase.
From S2P Require Import RlcTxUm.

Set Default Goal Selector "!".
Open Scope Z_scope.
Open Scope ran_scope.

(** An SDU whose segments stay within the range of offsets; it may be empty. *)
Definition um_sdu_ok (sdu : list Z) : Prop := zlen sdu < 2 ^ 16 /\ Forall is_u8 sdu.

(** The segmentation information of bytes [so] to [so + len] of an SDU of [total]. *)
Definition si_of_piece (so len total : Z) : rlc_si_field :=
  if so =? 0 then if so + len =? total then full_sdu else first_segment
  else if so + len =? total then last_segment else middle_segment.

Section tx_um_props.
Variable cfg : rlc_tx_um_config.
Implicit Types s : tx_um_state.

Local Abbreviation m := (utx_mod cfg).

Lemma um_head_sizes :
  head_len_full = 1 /\ 1 <= head_len_first cfg <= 2 /\ head_len_not_first cfg = head_len_first cfg + 2.
Proof. unfold head_len_first, head_len_not_first. by destruct (txum_sn_field_length cfg). Qed.

Lemma um_sn_max_mod si sn so :
  um_sn_max (mk_rlc_um_pdu_header si (txum_sn_field_length cfg) sn so) = m.
Proof. unfold um_sn_max, utx_mod. by destruct (txum_sn_field_length cfg). Qed.

(** ** Headers *)

Definition expected_header_len (si : rlc_si_field) : Z :=
  match si with
  | full_sdu => head_len_full
  | first_segment => head_len_first cfg
  | _ => head_len_not_first cfg
  end.

Lemma um_header_written si sn so :
  um_si_has_so si = negb (so =? 0) ->
  zlen (rlc_um_write_data_pdu_header (mk_rlc_um_pdu_header si (txum_sn_field_length cfg) sn so)) =
    expected_header_len si.
Proof.
  intros Hso. destruct (um_header_bytes (mk_rlc_um_pdu_header si (txum_sn_field_length cfg) sn so)) as [-> _].
  unfold rlc_um_nr_packed_length, expected_header_len, head_len_first, head_len_not_first; cbn.
  rewrite <- Hso. by destruct si, (txum_sn_field_length cfg).
Qed.

(** A complete SDU carries no number, whatever the state variable. *)
Lemma um_full_header_no_sn sn so :
  rlc_um_write_data_pdu_header (mk_rlc_um_pdu_header full_sdu (txum_sn_field_length cfg) sn so) =
  rlc_um_write_data_pdu_header (mk_rlc_um_pdu_header full_sdu (txum_sn_field_length cfg) 0 0).
Proof. done. Qed.

(** ** PDUs *)

(** The receiving entity of the peer has the same length of sequence numbers. *)
Variable rcfg : rlc_rx_um_config.
Hypothesis Hpeer : rxum_sn_field_length rcfg = txum_sn_field_length cfg.

Lemma utx_mod_peer : um_mod rcfg = m.
Proof. unfold um_mod, utx_mod. by rewrite Hpeer. Qed.

(** A piece of SDU number [n], behind its header, as the receiver takes it. *)
Lemma um_piece_carried (sdus : Z -> list Z) n sdu so len sn :
  sdus n = sdu -> um_sdu_ok sdu -> 0 <= so -> 0 < len -> so + len <= zlen sdu ->
  0 <= sn < m -> let si := si_of_piece so len (zlen sdu) in
  (si <> full_sdu -> sn = n mod m) ->
  let pdu := rlc_um_write_data_pdu_header (mk_rlc_um_pdu_header si (txum_sn_field_length cfg) sn (u16 so)) ++
             take (Z.to_nat len) (drop (Z.to_nat so) sdu) in
  um_carries rcfg sdus n pdu /\ um_complete rcfg pdu = bool_decide (si = full_sdu) /\
  zlen pdu = expected_header_len si + len.
Proof.
  intros Hn [Hlen Hb] Hso Hl Hend Hsn si Hnum pdu.
  assert (u16 so = so) as Eso by (apply wrap_small; unfold in_range; lia).
  set (payload := take (Z.to_nat len) (drop (Z.to_nat so) sdu)) in *.
  assert (zlen payload = len) as Hpl by (apply zlen_view; lia).
  assert (um_si_has_so si = negb (so =? 0)) as Hhas by (unfold si, si_of_piece; by repeat case_if).
  set (h := mk_rlc_um_pdu_header si (txum_sn_field_length cfg) (if bool_decide (si = full_sdu) then 0 else sn) so).
  assert (pdu = rlc_um_write_data_pdu_header h ++ payload) as Epdu.
  { unfold pdu, h. rewrite Eso. case_bool_decide as Hf; [|done]. by rewrite Hf, um_full_header_no_sn. }
  assert (zlen (rlc_um_write_data_pdu_header h) = expected_header_len si) as Hz by (by apply um_header_written).
  assert (um_header_wf h) as Hwf.
  { split; cbn [h uhdr_sn uhdr_si uhdr_so].
    - unfold h. rewrite um_sn_max_mod. case_bool_decide; lia.
    - intros ->. done.
    - unfold in_range. lia.
    - done. }
  destruct (um_header_bytes h) as [Hp Hbytes].
  assert (rlc_um_read_data_pdu_header pdu (rxum_sn_field_length rcfg) um_header_zero = Some h) as Hread.
  { rewrite Epdu, Hpeer. by apply (um_header_read_back h). }
  split; [|split].
  - split.
    { rewrite Epdu. apply Forall_app. split; [done|]. unfold payload. by apply Forall_take, Forall_drop. }
    exists h. split; [exact Hread|].
    rewrite <- Hp, Epdu, (drop_app_length' _ payload) by (unfold zlen; lia). cbn zeta.
    change (uhdr_si h) with si. case_bool_decide as Hf.
    + assert (so = 0 /\ len = zlen sdu) as [-> ->]
        by (unfold si, si_of_piece in Hf; revert Hf; repeat case_if; intros; first [done|lia]).
      unfold payload. rewrite Hn, drop_0. apply take_ge. unfold zlen. lia.
    + assert (uhdr_sn h = sn) as -> by done.
      rewrite utx_mod_peer. split; [by apply Hnum|]. split; [exact Hhas|]. rewrite Hn. split; [done|].
      unfold um_header_segment, seg_ok, seg_of, seg_end, seg_len; cbn [seg_so seg_payload seg_si].
      change (uhdr_so h) with so. rewrite Hpl. split_and!; first [lia|idtac].
      * exists (drop (Z.to_nat len) (drop (Z.to_nat so) sdu)). unfold payload. by rewrite take_drop.
      * change (uhdr_si h) with si. unfold si, si_of_piece in Hf |- *. revert Hf. repeat case_if; split; first [done|lia].
  - unfold um_complete. by rewrite Hread.
  - by rewrite Epdu, zlen_app, Hz, Hpl.
Qed.

(** ** The invariant

    [started] holds the SDUs read from the queue, [parts] those of which a segment
    was sent: number [k] is the k-th of them. *)
Definition um_counts_ok (parts : list (list Z)) s : Prop :=
  let buf := sdu_buf (utx_sdu s) in
  if utx_next_so s =? 0 then utx_next s = zlen parts mod m
  else 0 < utx_next_so s < zlen buf /\ utx_next s = (zlen parts - 1) mod m /\
       parts !! Z.to_nat (zlen parts - 1) = Some buf.

(** The SDUs that were segmented are, in order, among those started; the one being
    transmitted is the last. *)
Definition um_started_ok (started parts : list (list Z)) s : Prop :=
  match sdu_buf (utx_sdu s) with
  | [] => sublist parts started
  | _ :: _ => exists done, started = done ++ [sdu_buf (utx_sdu s)] /\
      if utx_next_so s =? 0 then sublist parts done
      else exists parts', parts = parts' ++ [sdu_buf (utx_sdu s)] /\ sublist parts' done
  end.

Record tx_um_inv (started parts : list (list Z)) s : Prop := {
  uinv_counts : um_counts_ok parts s;
  uinv_started : um_started_ok started parts s;
  uinv_sdus : Forall um_sdu_ok started;
  uinv_queue : Forall (fun sdu => um_sdu_ok (sdu_buf sdu)) (sq_queue (utx_sdu_queue s));
}.

Lemma um_no_sdu_no_offset started parts s :
  tx_um_inv started parts s -> sdu_buf (utx_sdu s) = [] -> utx_next_so s = 0.
Proof.
  intros [Hc _ _ _] E. unfold um_counts_ok in Hc. rewrite E in Hc. destruct (utx_next_so s =? 0) eqn:E0; zbool; [done|].
  unfold zlen in Hc. cbn in Hc. lia.
Qed.

Lemma um_sdu_in_range started parts s :
  tx_um_inv started parts s -> um_sdu_ok (sdu_buf (utx_sdu s)).
Proof.
  intros [_ Hst Hok _]. unfold um_started_ok in Hst. destruct (sdu_buf (utx_sdu s)) eqn:E.
  { by split. }
  destruct Hst as (pre & -> & _). apply Forall_app in Hok as [_ Hok]. by apply Forall_cons in Hok as [? _].
Qed.

Lemma um_next_range started parts s : tx_um_inv started parts s -> 0 <= utx_next s < m.
Proof.
  intros [Hc _ _ _]. assert (0 < m) as Hm by (unfold utx_mod; by destruct (txum_sn_field_length cfg)).
  unfold um_counts_ok in Hc. destruct (_ =? _); [rewrite Hc|destruct Hc as (_ & -> & _)]; by apply Z.mod_pos_bound.
Qed.

Lemma um_offset_range started parts s :
  tx_um_inv started parts s ->
  0 <= utx_next_so s /\ (utx_next_so s = 0 \/ utx_next_so s < zlen (sdu_buf (utx_sdu s))).
Proof. intros [Hc _ _ _]. unfold um_counts_ok in Hc. destruct (utx_next_so s =? 0) eqn:E0; zbool; lia. Qed.

(** What a PDU that is not empty consists of. *)
Definition um_built (grant_len : Z) s (pdu : list Z) s' (out : list tx_um_output) : Prop :=
  exists len, let buf := sdu_buf (utx_sdu s) in let so := utx_next_so s in
    let si := si_of_piece so len (zlen buf) in
    0 < len /\ so + len <= zlen buf /\ expected_header_len si + len <= grant_len /\
    (so + len < zlen buf -> expected_header_len si + len = grant_len) /\
    pdu = rlc_um_write_data_pdu_header (um_data_header cfg si s) ++
          take (Z.to_nat len) (drop (Z.to_nat so) buf) /\
    s' = um_advance cfg si len s /\ out = um_pdu_outputs si (zlen pdu).

(** The choice of the segmentation information, and of the bytes sent. *)
Lemma um_si_spec so total grant_len :
  0 <= so -> so = 0 \/ so < total -> 0 <= total < 2 ^ 16 -> 1 < grant_len < 2 ^ 32 ->
  match get_si_and_expected_header_size cfg so so total grant_len with
  | None => grant_len <= head_len_not_first cfg /\ 0 < total
  | Some (si, hdr) =>
      hdr = expected_header_len si /\ um_si_has_so si = negb (so =? 0) /\ hdr < grant_len /\
      si = si_of_piece so (Z.min (total - so) (grant_len - hdr)) total
  end.
Proof.
  intros Hso Hlt Htot Hg. destruct um_head_sizes as (Ef & Hf & En).
  unfold get_si_and_expected_header_size. rewrite Ef.
  destruct (so =? 0) eqn:E0; zbool.
  - subst so. rewrite wrap_small by (unfold in_range; lia). destruct (total <=? grant_len - 1) eqn:Efit; zbool.
    + split_and!; [done|done|lia|]. unfold si_of_piece. cbn. rewrite Z.min_l by lia.
      by rewrite Z.sub_0_r, Z.eqb_refl.
    + destruct (grant_len <=? head_len_first cfg) eqn:Eh; zbool; [lia|].
      split_and!; [done|done|lia|]. unfold si_of_piece. cbn. rewrite Z.min_r by lia. case_if; zbool; [lia|done].
  - assert (head_len_not_first cfg = expected_header_len last_segment) as El by done.
    destruct (grant_len <=? head_len_not_first cfg) eqn:Eh; zbool; [lia|].
    rewrite !wrap_small by (unfold in_range; lia). unfold si_of_piece. rewrite (proj2 (Z.eqb_neq so 0)) by done.
    destruct (total - so <=? grant_len - head_len_not_first cfg) eqn:Efit; zbool;
      (split_and!; [done|done|lia|]).
    + rewrite Z.min_l by lia. case_if; zbool; [done|lia].
    + rewrite Z.min_r by lia. case_if; zbool; [lia|done].
Qed.

Lemma um_build_spec started parts s grant_len :
  tx_um_inv started parts s -> 1 < grant_len < 2 ^ 32 ->
  exists pdu s' out, um_build_pdu cfg grant_len s = Ok (pdu, s', out) /\
    (pdu = [] /\ s' = s /\ out = [] /\ (sdu_buf (utx_sdu s) = [] \/ grant_len <= head_len_not_first cfg) \/
     um_built grant_len s pdu s' out).
Proof.
  intros Hs Hg. pose proof (um_offset_range _ _ _ Hs) as [Hso Hlt]. pose proof (um_sdu_in_range _ _ _ Hs) as [Hlen _].
  pose proof (zlen_nonneg (sdu_buf (utx_sdu s))). destruct um_head_sizes as (Ef & Hf & En).
  unfold um_build_pdu. rewrite (wrap_small 32 (zlen _)) by (unfold in_range; lia).
  pose proof (um_si_spec (utx_next_so s) (zlen (sdu_buf (utx_sdu s))) grant_len Hso Hlt ltac:(lia) Hg) as Hsi.
  destruct (get_si_and_expected_header_size _ _ _ _ _) as [[si hdr]|]; cycle 1.
  { eexists [], s, []. split; [done|]. left. by destruct Hsi; auto. }
  destruct Hsi as (-> & Hhas & Hfit & Hsi). set (so := utx_next_so s) in *. set (buf := sdu_buf (utx_sdu s)) in *.
  assert (u16 so = so) as Eso by (apply wrap_small; unfold in_range; lia).
  assert (zlen (rlc_um_write_data_pdu_header (um_data_header cfg si s)) = expected_header_len si) as Hz.
  { unfold um_data_header. fold so. rewrite Eso. by apply um_header_written. }
  rewrite Hz. assert (1 <= expected_header_len si) as H1 by (destruct si; cbn; lia).
  rewrite (wrap_small 64), (wrap_small 32 (grant_len - _)) by (unfold in_range; lia).
  set (len := Z.min (zlen buf - so) (grant_len - expected_header_len si)) in *.
  assert (u32 (if zlen buf - so <=? grant_len - expected_header_len si then zlen buf - so
               else grant_len - expected_header_len si) = len) as ->.
  { unfold len. case_if; zbool; rewrite wrap_small by (unfold in_range; lia); lia. }
  rewrite sdu_view_ok by lia. cbn [checked_bind].
  assert (zlen (take (Z.to_nat len) (drop (Z.to_nat so) buf)) = len) as Hpl by (apply zlen_view; lia).
  rewrite write_pdu_fits by lia. rewrite zlen_app, Hz, Hpl.
  replace (expected_header_len si + len - expected_header_len si) with len by lia. rewrite Z.eqb_refl, orb_false_r.
  destruct (len =? 0) eqn:El; zbool.
  - eexists [], s, []. split; [done|]. left. split_and!; try done. left.
    assert (zlen buf = 0) as E by lia. unfold zlen in E. destruct buf; [done|cbn in E; lia].
  - eexists _, _, _. split; [done|]. right. exists len. cbn zeta. fold so buf.
    rewrite <- Hsi. split_and!; [lia|lia|lia|lia|done|done|]. by rewrite zlen_app, Hz, Hpl.
Qed.

Lemma um_started_parts started parts s : tx_um_inv started parts s -> sublist parts started.
Proof.
  intros [_ Hst _ _]. unfold um_started_ok in Hst. destruct (sdu_buf (utx_sdu s)) as [|x b]; [done|].
  destruct Hst as (l & -> & Hst). destruct (_ =? _); [by apply sublist_inserts_r|].
  destruct Hst as (parts' & -> & Hsub). by apply sublist_app.
Qed.

Lemma um_next_none s s1 : um_next_sdu cfg s = (None, s1) -> sdu_buf (utx_sdu s1) = [].
Proof.
  unfold um_next_sdu. destruct (sdu_buf (utx_sdu s)) eqn:E; [|done].
  destruct (sq_read _) as [[sdu|] q]; [done|]. by intros [= <-].
Qed.

(** What a piece does to the fields of the state. *)
Lemma um_built_view started parts s grant_len pdu s' out len :
  tx_um_inv started parts s ->
  let buf := sdu_buf (utx_sdu s) in let so := utx_next_so s in
  let si := si_of_piece so len (zlen buf) in
  let header := rlc_um_write_data_pdu_header (um_data_header cfg si s) in
  0 < len /\ so + len <= zlen buf /\ expected_header_len si + len <= grant_len /\
  (so + len < zlen buf -> expected_header_len si + len = grant_len) /\
  pdu = header ++ take (Z.to_nat len) (drop (Z.to_nat so) buf) /\
  s' = um_advance cfg si len s /\ out = um_pdu_outputs si (zlen pdu) ->
  0 < len /\ so + len <= zlen buf /\ zlen header = expected_header_len si /\
  pdu = header ++ take (Z.to_nat len) (drop (Z.to_nat so) buf) /\ zlen pdu <= grant_len /\
  (so + len < zlen buf -> zlen pdu = grant_len) /\
  sdu_buf (utx_sdu s') = (if so + len =? zlen buf then [] else buf) /\
  utx_next_so s' = (if so + len =? zlen buf then 0 else so + len) /\
  utx_next s' = (if bool_decide (si = last_segment) then (utx_next s + 1) mod m else utx_next s).
Proof.
  intros Hs buf so si header (Hl & Hend & Hfit & Hfill & Epdu & Es' & _).
  pose proof (um_offset_range _ _ _ Hs) as [Hso _]. pose proof (um_sdu_in_range _ _ _ Hs) as [Hlt _]. fold so buf in Hso, Hlt.
  assert (u16 so = so) as Eso by (apply wrap_small; unfold in_range; lia).
  assert (zlen header = expected_header_len si) as Hz.
  { unfold header, um_data_header. fold so. rewrite Eso. apply um_header_written. unfold si, si_of_piece. by repeat case_if. }
  assert (zlen pdu = expected_header_len si + len) as Hzp.
  { rewrite Epdu, zlen_app, Hz, zlen_view by lia. done. }
  split_and!; try done; try lia; rewrite Es'; unfold si, si_of_piece;
    destruct (so =? 0), (so + len =? zlen buf) eqn:Ee; zbool; try done;
    match goal with |- utx_next_so (um_advance _ _ _ _) = _ => apply wrap_small; unfold in_range; fold so; lia end.
Qed.

(** ** The effect of a PDU *)

(** SDUs that were segmented are named by their numbers, the SDUs started by -1, -2,
    and so on. *)
Definition um_label (started parts : list (list Z)) (n : Z) : list Z :=
  if 0 <=? n then default [] (parts !! Z.to_nat n) else default [] (started !! Z.to_nat (-1 - n)).

(** No PDU, or one that carries the SDU with the label: complete SDUs are among
    those started, segments are of the SDU of their number. *)
Definition um_pulled (started parts : list (list Z)) (num : option Z) (pdu : list Z) : Prop :=
  match num with
  | None => pdu = []
  | Some n =>
      um_carries rcfg (um_label started parts) n pdu /\
      (if um_complete rcfg pdu then n < 0 /\ -1 - n < zlen started else 0 <= n < zlen parts)
  end.

Lemma um_pulled_prefix started started' parts parts' num pdu :
  started `prefix_of` started' -> parts `prefix_of` parts' ->
  um_pulled started parts num pdu -> um_pulled started' parts' num pdu.
Proof.
  intros [l ->] [k ->]. destruct num as [n|]; [|done]. intros [(Hb & header & Hr & Hc) Hn].
  assert (um_complete rcfg pdu = bool_decide (uhdr_si header = full_sdu)) as Ec by (unfold um_complete; by rewrite Hr).
  rewrite Ec in Hn.
  assert (um_label (started ++ l) (parts ++ k) n = um_label started parts n) as El.
  { unfold um_label, zlen in *. destruct (bool_decide _), (0 <=? n) eqn:E; zbool; try lia; by rewrite lookup_app_l by lia. }
  split.
  - split; [done|]. exists header. split; [done|]. by rewrite El.
  - rewrite Ec, !zlen_app. pose proof (zlen_nonneg l). pose proof (zlen_nonneg k). destruct (bool_decide _); lia.
Qed.

(** The SDU of which a piece was sent. *)
Lemma um_built_label started parts s n grant_len pdu s' out len :
  um_sdu_ok (sdu_buf (utx_sdu s)) -> um_label started parts n = sdu_buf (utx_sdu s) ->
  let so := utx_next_so s in let total := zlen (sdu_buf (utx_sdu s)) in
  let si := si_of_piece so len total in
  0 <= so -> 0 < len -> so + len <= total -> expected_header_len si + len <= grant_len ->
  0 <= utx_next s < m ->
  pdu = rlc_um_write_data_pdu_header (um_data_header cfg si s) ++
        take (Z.to_nat len) (drop (Z.to_nat so) (sdu_buf (utx_sdu s))) ->
  s' = um_advance cfg si len s -> out = um_pdu_outputs si (zlen pdu) ->
  (if bool_decide (si = full_sdu) then n < 0 /\ -1 - n < zlen started
   else 0 <= n < zlen parts /\ utx_next s = n mod m) ->
  um_pulled started parts (Some n) pdu /\ zlen pdu <= grant_len.
Proof.
  intros Hok Hl so total si Hso Hlen Hend Hfit Hr -> -> -> Hn.
  destruct (um_piece_carried (um_label started parts) n (sdu_buf (utx_sdu s)) so len (utx_next s) Hl Hok Hso Hlen Hend Hr)
    as (Hc & Hcomp & Hz).
  { intros Hsi. fold total si in Hsi. rewrite bool_decide_eq_false_2 in Hn by done. apply Hn. }
  fold total si in Hc, Hcomp, Hz. unfold um_data_header. fold so. split; [split; [exact Hc|]|lia].
  rewrite Hcomp. destruct (bool_decide _); [done|by destruct Hn].
Qed.

Lemma um_label_started done buf parts : um_label (done ++ [buf]) parts (-1 - zlen done) = buf.
Proof.
  unfold um_label. pose proof (zlen_nonneg done). case_if; [lia|].
  replace (Z.to_nat (-1 - (-1 - zlen done))) with (length done) by (unfold zlen; lia).
  by rewrite lookup_app_r, Nat.sub_diag.
Qed.

Lemma um_label_part started parts buf : um_label started (parts ++ [buf]) (zlen parts) = buf.
Proof.
  unfold um_label. pose proof (zlen_nonneg parts). case_if; [|lia].
  replace (Z.to_nat (zlen parts)) with (length parts) by (unfold zlen; lia).
  by rewrite lookup_app_r, Nat.sub_diag.
Qed.

(** The four kinds of PDU: the invariant afterwards and the SDU carried. *)
Lemma um_built_effect started parts s grant_len pdu s' out :
  tx_um_inv started parts s -> um_built grant_len s pdu s' out ->
  exists parts' n, tx_um_inv started parts' s' /\ parts `prefix_of` parts' /\
    um_pulled started parts' (Some n) pdu /\ zlen pdu <= grant_len /\
    utx_sdu_queue s' = utx_sdu_queue s.
Proof.
  intros Hs (len & Hb). cbn zeta in Hb. set (so := utx_next_so s) in *. set (buf := sdu_buf (utx_sdu s)) in *.
  pose proof (um_sdu_in_range _ _ _ Hs) as Hok. pose proof (um_next_range _ _ _ Hs) as Hr.
  pose proof (um_offset_range _ _ _ Hs) as [Hso _]. fold so in Hso.
  destruct Hb as (Hlen & Hend & Hfit & _ & Epdu & Es' & Eout).
  pose proof Hok as [Hlt _]. fold buf in Hlt.
  assert (0 < m) as Hm by lia.
  destruct Hs as [Hc Hst Hall Hq]. unfold um_counts_ok in Hc. unfold um_started_ok in Hst. fold so buf in Hc, Hst.
  destruct buf as [|x b'] eqn:Ebuf; [unfold zlen in Hend; cbn in Hend; lia|]. rewrite <- Ebuf in *.
  destruct Hst as (fin & Est & Hsub).
  assert (forall parts' n, um_counts_ok parts' s' -> um_started_ok started parts' s' ->
    parts `prefix_of` parts' -> um_label started parts' n = buf ->
    utx_sdu_queue s' = utx_sdu_queue s ->
    (if bool_decide (si_of_piece so len (zlen buf) = full_sdu) then n < 0 /\ -1 - n < zlen started
     else 0 <= n < zlen parts' /\ utx_next s = n mod m) ->
    exists parts' n, tx_um_inv started parts' s' /\ parts `prefix_of` parts' /\
      um_pulled started parts' (Some n) pdu /\ zlen pdu <= grant_len /\
      utx_sdu_queue s' = utx_sdu_queue s) as Hfin.
  { intros parts' n H1 H2 H3 H4 H5 H6. exists parts', n.
    destruct (um_built_label started parts' s n grant_len pdu s' out len Hok H4 Hso Hlen Hend Hfit Hr Epdu Es' Eout H6).
    split_and!; try done. split; try done. by rewrite H5. }
  unfold si_of_piece in *. destruct (so =? 0) eqn:E0; zbool.
  - destruct (so + len =? zlen buf) eqn:Ee; zbool.
    + apply (Hfin parts (-1 - zlen fin)).
      * subst s'. exact Hc.
      * subst s'. unfold um_started_ok. cbn. rewrite Est. by apply sublist_inserts_r.
      * done.
      * rewrite Est. apply um_label_started.
      * by subst s'.
      * rewrite bool_decide_eq_true_2, Est, zlen_app by done. change (zlen [buf]) with 1. pose proof (zlen_nonneg fin). lia.
    + assert (u32 (so + len) = len) as Eu by (rewrite wrap_small by (unfold in_range; lia); lia).
      assert (utx_next_so s' = len) as Eso by (subst s'; exact Eu).
      assert (utx_sdu s' = utx_sdu s /\ utx_next s' = utx_next s /\ utx_sdu_queue s' = utx_sdu_queue s) as (E1 & E2 & E3)
        by by subst s'.
      apply (Hfin (parts ++ [buf]) (zlen parts)).
      * unfold um_counts_ok. rewrite Eso, E1, E2. fold buf. rewrite (proj2 (Z.eqb_neq len 0)) by lia.
        rewrite zlen_app. change (zlen [buf]) with 1. replace (zlen parts + 1 - 1) with (zlen parts) by lia.
        split; [lia|]. split; [done|]. rewrite lookup_app_r by (unfold zlen; lia).
        by replace (Z.to_nat (zlen parts) - length parts)%nat with 0%nat by (unfold zlen; lia).
      * unfold um_started_ok. rewrite E1, Eso. fold buf. rewrite Ebuf, <- Ebuf. exists fin. split; [done|].
        rewrite (proj2 (Z.eqb_neq len 0)) by lia. by exists parts.
      * by apply prefix_app_r.
      * apply um_label_part.
      * done.
      * rewrite bool_decide_eq_false_2, zlen_app by done. change (zlen [buf]) with 1. pose proof (zlen_nonneg parts). split; [lia|done].
  - destruct Hc as (Hin & En & Elast). destruct Hsub as (parts0 & Eparts & Hsub0).
    assert (zlen parts = zlen parts0 + 1) as Ezp by (by rewrite Eparts, zlen_app).
    assert (um_label started parts (zlen parts - 1) = buf) as Elab.
    { replace (zlen parts - 1) with (zlen parts0) by lia. rewrite Eparts. apply um_label_part. }
    pose proof (zlen_nonneg parts0).
    destruct (so + len =? zlen buf) eqn:Ee; zbool; apply (Hfin parts (zlen parts - 1)); try done.
    + subst s'. unfold um_counts_ok. cbn. rewrite En, Zplus_mod_idemp_l. f_equal. lia.
    + subst s'. unfold um_started_ok. cbn. rewrite Est, Eparts. by apply sublist_app.
    + by subst s'.
    + rewrite bool_decide_eq_false_2 by done. split; [lia|done].
    + assert (u32 (so + len) = so + len) as Eu by (apply wrap_small; unfold in_range; lia).
      subst s'. unfold um_counts_ok. change (utx_next_so (um_advance _ _ _ _)) with (u32 (so + len)). rewrite Eu.
      rewrite (proj2 (Z.eqb_neq _ 0)) by lia. split; [|done]. cbn. fold buf. lia.
    + assert (u32 (so + len) = so + len) as Eu by (apply wrap_small; unfold in_range; lia).
      subst s'. unfold um_started_ok. change (utx_next_so (um_advance _ _ _ _)) with (u32 (so + len)). rewrite Eu. cbn. fold buf.
      rewrite Ebuf, <- Ebuf. exists fin. split; [done|]. rewrite (proj2 (Z.eqb_neq _ 0)) by lia. by exists parts0.
    + by subst s'.
    + rewrite bool_decide_eq_false_2 by done. split; [lia|done].
Qed.

(** ** The effect of the operations *)

Definition um_pipeline (started : list (list Z)) s : list (list Z) :=
  started ++ (sdu_buf <$> sq_queue (utx_sdu_queue s)).

(** The fields that the buffer state and the executor do not touch. *)
Definition um_same_core s s' : Prop :=
  utx_next s' = utx_next s /\ utx_sdu s' = utx_sdu s /\ utx_next_so s' = utx_next_so s /\
  utx_sdu_queue s' = utx_sdu_queue s.

Lemma tx_um_inv_core started parts s s' :
  tx_um_inv started parts s -> um_same_core s s' -> tx_um_inv started parts s'.
Proof.
  intros [Hc Hst Hall Hq] (E1 & E2 & E3 & E4).
  split; unfold um_counts_ok, um_started_ok in *; by rewrite ?E1, ?E2, ?E3, ?E4.
Qed.

(** The state of an SDU queue that lost some SDUs at its front. *)
Lemma tx_um_inv_queue started parts s q pre :
  tx_um_inv started parts s -> sq_queue (utx_sdu_queue s) = pre ++ sq_queue q ->
  tx_um_inv started parts (s <| utx_sdu_queue := q |>) /\
  sublist (um_pipeline started (s <| utx_sdu_queue := q |>)) (um_pipeline started s).
Proof.
  intros [Hc Hst Hall Hq] E. split.
  - split; try done. rewrite E in Hq. by apply Forall_app in Hq as [_ Hq].
  - unfold um_pipeline. rewrite E, fmap_app. apply sublist_app; [done|]. by apply sublist_inserts_l.
Qed.

(** A new SDU enters when none is being transmitted. *)
Lemma um_next_spec started parts s :
  tx_um_inv started parts s ->
  let '(o, s1) := um_next_sdu cfg s in
  exists started', tx_um_inv started' parts s1 /\ started `prefix_of` started' /\
    sublist (um_pipeline started' s1) (um_pipeline started s) /\
    (sdu_buf (utx_sdu s) <> [] -> s1 = s /\ o = Some []) /\
    (o = None -> sq_queue (utx_sdu_queue s1) = []).
Proof.
  intros Hs. unfold um_next_sdu. destruct (sdu_buf (utx_sdu s)) as [|x b] eqn:Ebuf; [|by exists started].
  pose proof (um_no_sdu_no_offset _ _ _ Hs Ebuf) as Eso.
  pose proof (sq_read_queue (utx_sdu_queue s)) as Hread. destruct (sq_read (utx_sdu_queue s)) as [[sdu|] q].
  - destruct Hread as [pre Eq].
    destruct (tx_um_inv_queue started parts s q (pre ++ [sdu]) Hs) as [Hs1 Hsub]; [by rewrite <- app_assoc|].
    assert (um_sdu_ok (sdu_buf sdu)) as Hok.
    { pose proof (uinv_queue _ _ _ Hs) as Hq. rewrite Eq in Hq. apply Forall_app in Hq as [_ Hq]. by apply Forall_cons in Hq as [? _]. }
    destruct Hs1 as [Hc Hst Hall Hq]. unfold um_counts_ok, um_started_ok in *. cbn in Hc, Hst. rewrite Eso in Hc, Hst.
    rewrite Ebuf in Hst. destruct (sdu_buf sdu) as [|y c] eqn:Ey.
    + exists started. split_and!; try done. split; unfold um_counts_ok, um_started_ok; cbn; rewrite ?Eso, ?Ey; done.
    + rewrite <- Ey in *. exists (started ++ [sdu_buf sdu]). split_and!; try done.
      * split; unfold um_counts_ok, um_started_ok; cbn; rewrite ?Eso; try done.
        -- rewrite Ey, <- Ey. by exists started.
        -- apply Forall_app. split; [done|]. by apply Forall_singleton.
      * by apply prefix_app_r.
      * unfold um_pipeline. cbn. rewrite Eq, <- app_assoc, fmap_app, fmap_cons. apply sublist_app; [done|].
        by apply sublist_inserts_l.
  - destruct (tx_um_inv_queue started parts s q (sq_queue (utx_sdu_queue s)) Hs) as [Hs1 Hsub];
      [by rewrite Hread, app_nil_r|]. by exists started.
Qed.

(** What the upper layer submits in an operation. *)
Definition um_submitted (op : tx_um_op) : list (list Z) :=
  match op with UtxSdu _ buf _ _ => [buf] | _ => [] end.

Definition um_op_valid (op : tx_um_op) : Prop :=
  match op with UtxSdu _ buf _ _ => um_sdu_ok buf | UtxPull grant_len => is_u32 grant_len | _ => True end.

Definition tx_um_effect (started parts : list (list Z)) s (op : tx_um_op) (pdu : list Z) s' : Prop :=
  exists started' parts' num, tx_um_inv started' parts' s' /\
    started `prefix_of` started' /\ parts `prefix_of` parts' /\
    sublist (um_pipeline started' s') (um_pipeline started s ++ um_submitted op) /\
    um_pulled started' parts' num pdu.

Lemma um_effect_inv started parts s op s' :
  tx_um_inv started parts s' -> sublist (um_pipeline started s') (um_pipeline started s ++ um_submitted op) ->
  tx_um_effect started parts s op [] s'.
Proof. intros. by exists started, parts, None. Qed.

Lemma um_pull_spec started parts s grant_len :
  tx_um_inv started parts s -> is_u32 grant_len ->
  exists pdu s' out, um_pull_pdu cfg grant_len s = Ok (pdu, s', out) /\
    tx_um_effect started parts s (UtxPull grant_len) pdu s' /\ zlen pdu <= grant_len.
Proof.
  intros Hs Hg. unfold in_range in Hg. unfold um_pull_pdu.
  assert (zlen ([] : list Z) = 0) as E0 by done.
  assert (forall s', tx_um_inv started parts s' /\ sublist (um_pipeline started s') (um_pipeline started s) ->
    tx_um_effect started parts s (UtxPull grant_len) [] s') as Hno.
  { intros s' []. apply um_effect_inv; [done|]. by apply sublist_inserts_r. }
  case_if; [exists [], s, []; split_and!; [done|by apply Hno|lia]|].
  assert (1 < grant_len < 2 ^ 32) as Hg' by (unfold head_len_full, rlc_um_pdu_header_size_complete_sdu in *; lia).
  pose proof (um_next_spec started parts s Hs) as Hn. destruct (um_next_sdu cfg s) as [[out|] s1].
  - destruct Hn as (started1 & Hs1 & Hpre & Hsub & _).
    destruct (um_build_spec started1 parts s1 grant_len Hs1 Hg') as (pdu & s2 & out2 & -> & Hb). cbn [checked_bind].
    eexists _, _, _. split; [done|]. destruct Hb as [(-> & -> & _)|Hb].
    + split; [|lia]. exists started1, parts, None. split_and!; try done. by apply sublist_inserts_r.
    + destruct (um_built_effect _ _ _ _ _ _ _ Hs1 Hb) as (parts2 & n & Hs2 & Hpre2 & Hp & Hlen & Eq).
      split; [|done]. exists started1, parts2, (Some n). split_and!; try done. apply sublist_inserts_r.
      unfold um_pipeline in *. by rewrite Eq.
  - destruct Hn as (started1 & Hs1 & Hpre & Hsub & _). exists [], s1, []. split; [done|]. split; [|lia].
    exists started1, parts, None. split_and!; try done. by apply sublist_inserts_r.
Qed.

Lemma um_buffer_state_spec started parts s :
  tx_um_inv started parts s ->
  let '(bs, s') := um_get_buffer_state cfg s in
  tx_um_inv started parts s' /\ sublist (um_pipeline started s') (um_pipeline started s).
Proof.
  intros Hs. unfold um_get_buffer_state. destruct (sq_get_state _) as [n_sdus n_bytes].
  destruct (sdu_buf (utx_sdu s)) eqn:E.
  - destruct (sq_front_queue (utx_sdu_queue s)) as [pre Eq]. destruct (sq_front (utx_sdu_queue s)) as [next q].
    destruct (tx_um_inv_queue started parts s q pre Hs Eq) as [Hs' Hsub]. case_if; [|done].
    split; [|done]. eapply tx_um_inv_core; [exact Hs'|by split_and!].
  - case_if; [|done]. split; [|done]. eapply tx_um_inv_core; [exact Hs|by split_and!].
Qed.

Lemma um_changed_core accepted s : um_same_core s (um_handle_changed_buffer_state accepted s).
Proof. unfold um_handle_changed_buffer_state. repeat case_if; by split_and!. Qed.

Lemma tx_um_step_spec started parts s op :
  tx_um_inv started parts s -> um_op_valid op ->
  exists pdu s' out, tx_um_step cfg op s = Ok (pdu, s', out) /\ tx_um_effect started parts s op pdu s'.
Proof.
  intros Hs Hop.
  assert (forall s', um_same_core s s' -> tx_um_effect started parts s op [] s') as Hcore.
  { intros s' Hc. apply um_effect_inv; [by eapply tx_um_inv_core|]. apply sublist_inserts_r.
    unfold um_pipeline. by destruct Hc as (_ & _ & _ & ->). }
  destruct op as [now buf is_retx accepted|pdcp_sn accepted|grant_len| | |]; cbn [tx_um_step um_op_valid] in *.
  - unfold um_handle_sdu. set (x := mk_rlc_sdu _ _ _ _).
    pose proof (sq_write_queue x (utx_sdu_queue s)) as Hq. destruct (sq_write x (utx_sdu_queue s)) as [[] q];
      eexists _, _, _; (split; [done|]); apply um_effect_inv; cbn [fst snd].
    + eapply tx_um_inv_core; [|apply um_changed_core]. destruct Hs as [? ? ? Hall]. split; try done. cbn.
      rewrite Hq. apply Forall_app. split; [done|]. by apply Forall_singleton.
    + unfold um_pipeline. destruct (um_changed_core accepted (s <| utx_sdu_queue := q |>)) as (_ & _ & _ & ->). cbn.
      by rewrite Hq, fmap_app, app_assoc.
    + destruct Hs. split; try done. cbn. by rewrite Hq.
    + apply sublist_inserts_r. unfold um_pipeline. cbn. by rewrite Hq.
  - unfold um_discard_sdu. pose proof (sq_discard_queue pdcp_sn (utx_sdu_queue s)) as Hq.
    destruct (sq_try_discard _ _) as [ok q]. cbn in Hq.
    assert (tx_um_effect started parts s (UtxDiscardSdu pdcp_sn accepted) [] (s <| utx_sdu_queue := q |>)) as He.
    { apply um_effect_inv; [|apply sublist_inserts_r; unfold um_pipeline; cbn; by rewrite Hq].
      destruct Hs; split; try done. cbn. by rewrite Hq. }
    destruct ok; eexists _, _, _; (split; [done|]); [|done]. cbn [fst snd].
    destruct He as (st & pa & num & Hi & H1 & H2 & H3 & H4). exists st, pa, num.
    pose proof (um_changed_core accepted (s <| utx_sdu_queue := q |>)) as Hc. split_and!; try done.
    + by eapply tx_um_inv_core.
    + unfold um_pipeline in *. by destruct Hc as (_ & _ & _ & ->).
  - destruct (um_pull_spec started parts s grant_len Hs Hop) as (pdu & s' & out & E & He & _). by eauto.
  - pose proof (um_buffer_state_spec started parts s Hs) as Hb. destruct (um_get_buffer_state cfg s) as [bs s'].
    eexists _, _, _. split; [done|]. apply um_effect_inv; [apply Hb|]. by apply sublist_inserts_r, Hb.
  - destruct (utx_tasks s) as [|n]; [eexists _, _, _; split; [done|]; by apply Hcore|].
    eexists _, _, _. split; [done|]. unfold um_update_mac_buffer_state. set (s0 := _ <| utx_pending_buffer_state := false |>).
    assert (tx_um_inv started parts s0) as Hs0 by (eapply tx_um_inv_core; [exact Hs|by split_and!]).
    pose proof (um_buffer_state_spec started parts s0 Hs0) as Hb. destruct (um_get_buffer_state cfg s0) as [bs s'].
    destruct Hb as [Hs' Hsub]. destruct (_ || _); cbn [fst snd]; (apply um_effect_inv; [eapply tx_um_inv_core; [exact Hs'|by split_and!]|by apply sublist_inserts_r]).
  - eexists _, _, _. split; [done|]. by apply Hcore.
Qed.

Lemma tx_um_run_spec ops : forall started parts s,
  tx_um_inv started parts s -> Forall um_op_valid ops ->
  exists pdus s' out started' parts' nums, tx_um_run cfg ops s = Ok (pdus, s', out) /\
    tx_um_inv started' parts' s' /\ started `prefix_of` started' /\ parts `prefix_of` parts' /\
    sublist (um_pipeline started' s') (um_pipeline started s ++ (ops ≫= um_submitted)) /\
    Forall2 (um_pulled started' parts') nums pdus.
Proof.
  induction ops as [|op ops IH]; intros started parts s Hs Hok; cbn [tx_um_run].
  { exists [], s, [], started, parts, []. split_and!; try done. cbn. by rewrite app_nil_r. }
  apply Forall_cons in Hok as [Hop Hok].
  destruct (tx_um_step_spec started parts s op Hs Hop) as (pdu & s1 & out & -> & st1 & pa1 & num & Hs1 & Hp1 & Hq1 & Hsub1 & Hpdu).
  destruct (IH st1 pa1 s1 Hs1 Hok) as (pdus & s2 & out' & st2 & pa2 & nums & E & Hs2 & Hp2 & Hq2 & Hsub2 & Hpdus).
  cbn [checked_bind]. rewrite E. cbn [checked_bind].
  exists (pdu :: pdus), s2, (out ++ out'), st2, pa2, (num :: nums). split_and!; try done; [by etrans|by etrans| |].
  - etrans; [exact Hsub2|]. rewrite bind_cons, app_assoc. by apply sublist_app.
  - constructor; [|done]. by eapply um_pulled_prefix.
Qed.

Lemma tx_um_init_inv s0 :
  tx_um_init cfg = Ok s0 -> tx_um_inv [] [] s0 /\ um_pipeline [] s0 = [].
Proof.
  unfold tx_um_init. destruct (_ || _); [|done]. intros [= <-]. split; [|done].
  split; unfold um_counts_ok, um_started_ok; cbn; try done.
Qed.

End tx_um_props.
