(* ===== verification/RlcTxUmRuns.v ===== *)
(** * RLC UM transmitter: what the transmitting entity guarantees

    The properties of every run of the transmitting UM entity from its
    construction, and a concrete run. *)
From stdpp Require Import base numbers list.
From Stdlib Require Import ZArith Lia.
From S2P Require Import Prelude.
From S2P Require Import RlcConfig.
From S2P Require Import RlcUmPdu.
From S2P Require Import SduWindow.
From S2P Require Import RlcRxUm.
From S2P Require Import RlcRxUmProps.
From S2P Require Import RlcSduQueue.
From S2P Require Import PdcpSn.
From S2P Require Import RlcTxBase.
From S2P Require Import RlcTxUm.
From S2P Require Import RlcTxUmProps.

Set Default Goal Selector "!".
Open Scope Z_scope.
Open Scope ran_scope.

(** ** The SDU queue over a run *)

(** The queue refines a list whose bytes stay below the limit. *)
Record queue_ok (capacity byte_limit : Z) (q : rlc_sdu_queue) : Prop := {
  qok_wf : sq_wf q;
  qok_capacity : sq_capacity q = capacity;
  qok_limit : sq_byte_limit q = byte_limit;
  qok_bytes : sdu_bytes (live_sdus q) <= byte_limit;
}.

Definition same_bounds (q q' : rlc_sdu_queue) : Prop :=
  sq_capacity q' = sq_capacity q /\ sq_byte_limit q' = sq_byte_limit q.

Lemma release_bounds sn q : same_bounds q (sq_check_and_release sn q).2.
Proof. unfold sq_check_and_release. by repeat case_if. Qed.

Lemma read_loop_bounds l : forall q, same_bounds q (sq_read_loop l q).2.
Proof.
  induction l as [|sdu l IH]; intros q; cbn [sq_read_loop]; [done|]. destruct (sdu_pdcp_sn sdu); [|done].
  pose proof (release_bounds z (q <| sq_queue := l |>)) as Hr.
  destruct (sq_check_and_release _ _) as [[] q1]; [done|]. destruct (IH q1), Hr. split; by etrans.
Qed.

Lemma front_loop_bounds l : forall q, same_bounds q (sq_front_loop l q).2.
Proof.
  induction l as [|sdu l IH]; intros q; cbn [sq_front_loop]; [done|]. destruct (sdu_pdcp_sn sdu); [|done].
  case_if; [done|]. pose proof (release_bounds z (q <| sq_queue := l |>)) as Hr.
  destruct (sq_check_and_release _ _) as [[] q1]; [done|]. destruct (IH q1), Hr. split; by etrans.
Qed.

Lemma write_bounds sdu q : same_bounds q (sq_write sdu q).2.
Proof.
  unfold sq_write. destruct (sq_get_state q). case_if; [done|]. destruct (sdu_pdcp_sn sdu); by repeat case_if.
Qed.

Lemma discard_bounds sn q : same_bounds q (sq_try_discard sn q).2.
Proof. unfold sq_try_discard. by case_if. Qed.

Lemma without_sn_bytes sn l : sdu_bytes (without_sn sn l) <= sdu_bytes l.
Proof.
  induction l as [|sdu l IH]; [done|]. pose proof (zlen_nonneg (sdu_buf sdu)). pose proof (sdu_bytes_nonneg l).
  unfold without_sn in *. rewrite filter_cons. change (sdu_bytes (sdu :: l)) with (zlen (sdu_buf sdu) + sdu_bytes l).
  case_decide; [|lia]. change (zlen (sdu_buf sdu) + sdu_bytes (without_sn sn l) <= zlen (sdu_buf sdu) + sdu_bytes l).
  unfold without_sn. lia.
Qed.

Lemma tail_bytes l : sdu_bytes (tail l) <= sdu_bytes l.
Proof.
  destruct l as [|sdu l]; [done|]. pose proof (zlen_nonneg (sdu_buf sdu)).
  change (sdu_bytes l <= zlen (sdu_buf sdu) + sdu_bytes l). lia.
Qed.

Section queue.
Context (capacity byte_limit : Z).
Local Abbreviation queue_ok := (queue_ok capacity byte_limit).

Lemma queue_ok_new : 0 < capacity < 2 ^ 32 -> 0 <= byte_limit < 2 ^ 32 -> queue_ok (sq_new capacity byte_limit).
Proof. intros Hc Hb. split; [apply new_wf; [done|lia]|done|done|cbn; lia]. Qed.

Lemma queue_ok_read q :
  queue_ok q -> let '(sdu, q') := sq_read q in
  queue_ok q' /\ sdu = head (live_sdus q) /\ live_sdus q' = tail (live_sdus q).
Proof.
  intros [Hq Ec El Hb]. destruct (read_loop_spec _ q Hq eq_refl) as (q' & E & Hq' & Elive).
  pose proof (read_loop_bounds (sq_queue q) q) as [B1 B2]. unfold sq_read. rewrite E in *. cbn in B1, B2.
  split_and!; try done. split; try done; try congruence. rewrite Elive. pose proof (tail_bytes (live_sdus q)). lia.
Qed.

Lemma queue_ok_front q :
  queue_ok q -> let '(sdu, q') := sq_front q in
  queue_ok q' /\ sdu = head (live_sdus q) /\ live_sdus q' = live_sdus q.
Proof.
  intros [Hq Ec El Hb]. destruct (front_loop_spec _ q Hq eq_refl) as (q' & E & Hq' & Elive).
  pose proof (front_loop_bounds (sq_queue q) q) as [B1 B2]. unfold sq_front. rewrite E in *. cbn in B1, B2.
  split_and!; try done. split; try done; try congruence.
Qed.

Lemma queue_ok_write q sdu :
  queue_ok q -> match sdu_pdcp_sn sdu with Some sn => 0 <= sn < STATE_DISCARDED | None => True end ->
  queue_ok (sq_write sdu q).2.
Proof.
  intros [Hq Ec El Hb] Hsn. pose proof (write_spec q sdu Hq Hsn) as Hw. pose proof (write_bounds sdu q) as [B1 B2].
  destruct (sq_write sdu q) as [ok q']. destruct Hw as (Hq' & Elive & Hiff). cbn in *.
  split; try done; try congruence. rewrite Elive. destruct ok; [|done]. destruct Hiff as [Hok _].
  destruct (Hok eq_refl) as (Hlim & _). rewrite sdu_bytes_app. change (sdu_bytes [sdu]) with (zlen (sdu_buf sdu) + 0). lia.
Qed.

Lemma queue_ok_discard q sn :
  queue_ok q -> 0 <= sn < STATE_DISCARDED -> queue_ok (sq_try_discard sn q).2.
Proof.
  intros [Hq Ec El Hb] Hsn. pose proof (discard_spec q sn Hq Hsn) as Hw. pose proof (discard_bounds sn q) as [B1 B2].
  destruct (sq_try_discard sn q) as [ok q']. destruct Hw as (Hq' & Elive & _). cbn in *.
  split; try done; try congruence. rewrite Elive. pose proof (without_sn_bytes sn (live_sdus q)). lia.
Qed.
End queue.

Section tx_um_runs.
Variable cfg : rlc_tx_um_config.
Implicit Types s : tx_um_state.

Local Abbreviation m := (utx_mod cfg).
Local Abbreviation queue_ok := (queue_ok (txum_queue_size cfg) (txum_queue_size_bytes cfg)).

(** The totals of the SDU queue and the buffer state do not wrap. *)
Definition tx_um_cfg_ok : Prop :=
  0 < txum_queue_size cfg /\ 0 <= txum_queue_size_bytes cfg /\
  txum_queue_size cfg + txum_queue_size_bytes cfg + 2 ^ 17 < 2 ^ 32.

(** PDCP SNs to discard are not sentinels of the queue. *)
Definition um_discard_ok (op : tx_um_op) : Prop :=
  match op with UtxDiscardSdu pdcp_sn _ => 0 <= pdcp_sn < STATE_DISCARDED | _ => True end.

Lemma um_advance_queue si len s : utx_sdu_queue (um_advance cfg si len s) = utx_sdu_queue s.
Proof. by destruct si. Qed.

Lemma um_build_queue grant_len s pdu s' out :
  um_build_pdu cfg grant_len s = Ok (pdu, s', out) -> utx_sdu_queue s' = utx_sdu_queue s.
Proof.
  unfold um_build_pdu. destruct (get_si_and_expected_header_size _ _ _ _ _) as [[si hdr]|]; [|by intros [= _ <- _]].
  destruct (sdu_view _ _ _) as [view|]; cbn [checked_bind]; [|done].
  case_if; intros [= _ <- _]; [done|apply um_advance_queue].
Qed.

Lemma um_next_queue s :
  queue_ok (utx_sdu_queue s) -> queue_ok (utx_sdu_queue (um_next_sdu cfg s).2).
Proof.
  intros Hq. unfold um_next_sdu. destruct (sdu_buf (utx_sdu s)); [|done].
  pose proof (queue_ok_read _ _ _ Hq) as Hr. destruct (sq_read _) as [[sdu|] q]; apply Hr.
Qed.

Lemma um_buffer_state_queue s :
  queue_ok (utx_sdu_queue s) -> queue_ok (utx_sdu_queue (um_get_buffer_state cfg s).2).
Proof.
  intros Hq. unfold um_get_buffer_state. destruct (sq_get_state _).
  destruct (sdu_buf (utx_sdu s)); [|by case_if].
  pose proof (queue_ok_front _ _ _ Hq) as Hf. destruct (sq_front _) as [next q]. by case_if; apply Hf.
Qed.

Lemma um_step_queue op s pdu s' out :
  tx_um_step cfg op s = Ok (pdu, s', out) -> queue_ok (utx_sdu_queue s) -> um_discard_ok op ->
  queue_ok (utx_sdu_queue s').
Proof.
  intros E Hq Hop. destruct op as [now buf is_retx accepted|pdcp_sn accepted|grant_len| | |]; cbn [tx_um_step] in E.
  - revert E. unfold um_handle_sdu. set (x := mk_rlc_sdu _ _ _ _).
    assert (queue_ok (sq_write x (utx_sdu_queue s)).2) as Hw.
    { apply queue_ok_write; [done|]. cbn. destruct (get_pdcp_sn _ _ _) as [sn|] eqn:Esn; [|done].
      apply get_pdcp_sn_range in Esn. unfold STATE_DISCARDED. lia. }
    destruct (sq_write x _) as [[] q]; intros [= _ <- _]; cbn [fst]; [|done].
    by destruct (um_changed_core accepted (s <| utx_sdu_queue := q |>)) as (_ & _ & _ & ->).
  - revert E. unfold um_discard_sdu. pose proof (queue_ok_discard _ _ _ _ Hq Hop) as Hd.
    destruct (sq_try_discard _ _) as [[] q]; intros [= _ <- _]; cbn [fst]; [|done].
    by destruct (um_changed_core accepted (s <| utx_sdu_queue := q |>)) as (_ & _ & _ & ->).
  - revert E. unfold um_pull_pdu. case_if; [by intros [= _ <- _]|]. pose proof (um_next_queue s Hq) as Hn.
    destruct (um_next_sdu cfg s) as [[o|] s1]; [|by intros [= _ <- _]].
    destruct (um_build_pdu cfg grant_len s1) as [[[pdu2 s2] out2]|] eqn:E2; cbn [checked_bind]; [|done].
    intros [= _ <- _]. by rewrite (um_build_queue _ _ _ _ _ E2).
  - revert E. pose proof (um_buffer_state_queue s Hq) as Hb. by destruct (um_get_buffer_state cfg s); intros [= _ <- _].
  - revert E. destruct (utx_tasks s) as [|n]; [by intros [= _ <- _]|]. unfold um_update_mac_buffer_state.
    set (s0 := _ <| utx_pending_buffer_state := false |>).
    pose proof (um_buffer_state_queue s0 Hq) as Hb. destruct (um_get_buffer_state cfg s0) as [bs s1].
    destruct (_ || _); by intros [= _ <- _].
  - by revert E; intros [= _ <- _].
Qed.

Lemma um_run_queue ops : forall s pdus s' out,
  tx_um_run cfg ops s = Ok (pdus, s', out) -> queue_ok (utx_sdu_queue s) -> Forall um_discard_ok ops ->
  queue_ok (utx_sdu_queue s').
Proof.
  induction ops as [|op ops IH]; intros s pdus s' out E Hq Hops; cbn [tx_um_run] in E; [by injection E as _ <- _|].
  apply Forall_cons in Hops as [Hop Hops].
  destruct (tx_um_step cfg op s) as [[[pdu s1] out1]|] eqn:E1; cbn [checked_bind] in E; [|done].
  destruct (tx_um_run cfg ops s1) as [[[pdus1 s2] out2]|] eqn:E2; cbn [checked_bind] in E; [|done].
  injection E as _ <- _. eapply IH; [done| |done]. by eapply um_step_queue.
Qed.

(** A state that a run from the construction reaches. *)
Definition tx_um_reached s : Prop :=
  exists s0 ops pdus out, tx_um_init cfg = Ok s0 /\ Forall um_op_valid ops /\ Forall um_discard_ok ops /\
    tx_um_run cfg ops s0 = Ok (pdus, s, out).

Lemma tx_um_reached_inv s : tx_um_reached s -> exists started parts, tx_um_inv cfg started parts s.
Proof.
  intros (s0 & ops & pdus & out & Hinit & Hops & _ & E). destruct (tx_um_init_inv cfg s0 Hinit) as [Hs _].
  pose (rcfg := mk_rlc_rx_um_config (txum_sn_field_length cfg) 0).
  destruct (tx_um_run_spec cfg rcfg eq_refl ops [] [] s0 Hs Hops)
    as (pdus' & s' & out' & started & parts & nums & E' & Hs' & _).
  rewrite E in E'. injection E' as <- <- <-. by exists started, parts.
Qed.

Lemma tx_um_reached_queue s : tx_um_cfg_ok -> tx_um_reached s -> queue_ok (utx_sdu_queue s).
Proof.
  intros Hcfg (s0 & ops & pdus & out & Hinit & _ & Hops & E). eapply um_run_queue; [exact E| |done].
  unfold tx_um_init in Hinit. destruct (_ || _); [|done]. injection Hinit as <-. destruct Hcfg as (? & ? & ?).
  apply queue_ok_new; lia.
Qed.

(** ** Segmentation *)

(** Integrity of UM transmission: after any SDUs, discards, grants, tasks and
    stops no view leaves its buffer and the walk goes on; there are the list of the SDUs
    that the entity started to send, in the order in which the upper layer submitted them, and
    the list of those among them that it segmented, such that every PDU pulled is
    empty, or a complete SDU that was started, or a segment whose header names the
    number, the offset and the end of the SDU it is cut from, in the form that the
    receiving entity of the peer takes; TX_Next stays a sequence number. *)
Theorem tx_um_integrity (rcfg : rlc_rx_um_config) s0 ops :
  rxum_sn_field_length rcfg = txum_sn_field_length cfg ->
  tx_um_init cfg = Ok s0 -> Forall um_op_valid ops ->
  exists pdus s out started parts nums, tx_um_run cfg ops s0 = Ok (pdus, s, out) /\
    sublist started (ops ≫= um_submitted) /\ sublist parts started /\
    Forall2 (um_pulled rcfg started parts) nums pdus /\ 0 <= utx_next s < m.
Proof.
  intros Hpeer Hinit Hops. destruct (tx_um_init_inv cfg s0 Hinit) as [Hs Ep].
  destruct (tx_um_run_spec cfg rcfg Hpeer ops [] [] s0 Hs Hops)
    as (pdus & s & out & started & parts & nums & E & Hs' & _ & _ & Hsub & Hp).
  exists pdus, s, out, started, parts, nums. rewrite Ep in Hsub. split; [done|]. split; [|split_and!].
  - etrans; [|exact Hsub]. by apply sublist_inserts_r.
  - by eapply um_started_parts.
  - done.
  - by eapply um_next_range.
  - by eapply um_next_range.
Qed.

(** Segmentation follows the grant: in a reachable state a pull reads the next SDU
    only when none is being transmitted, whose offset is then 0; with a grant of two
    bytes or more it returns the header of the length that was reckoned with and then
    the longest piece of the SDU that fits, from the offset on, which leaves no byte
    of the grant unused unless it is the end of the SDU; the offset moves behind the
    piece, the SDU is released with its last piece, and TX_Next moves on exactly with
    a last segment.  It returns nothing only when there is no byte to send or the
    grant is not longer than a header with an offset. *)
Theorem tx_um_segmentation s grant_len :
  tx_um_reached s -> 1 < grant_len < 2 ^ 32 ->
  let s1 := (um_next_sdu cfg s).2 in let buf := sdu_buf (utx_sdu s1) in let so := utx_next_so s1 in
  (sdu_buf (utx_sdu s) = [] -> utx_next_so s = 0) /\ (sdu_buf (utx_sdu s) <> [] -> s1 = s) /\
  exists pdu s' out, um_pull_pdu cfg grant_len s = Ok (pdu, s', out) /\
    (pdu = [] /\ s' = s1 /\ (buf = [] \/ grant_len <= head_len_not_first cfg) \/
     exists len, let si := si_of_piece so len (zlen buf) in
       let header := rlc_um_write_data_pdu_header (um_data_header cfg si s1) in
       0 < len /\ so + len <= zlen buf /\ zlen header = expected_header_len cfg si /\
       pdu = header ++ take (Z.to_nat len) (drop (Z.to_nat so) buf) /\ zlen pdu <= grant_len /\
       (so + len < zlen buf -> zlen pdu = grant_len) /\
       sdu_buf (utx_sdu s') = (if so + len =? zlen buf then [] else buf) /\
       utx_next_so s' = (if so + len =? zlen buf then 0 else so + len) /\
       utx_next s' = (if bool_decide (si = last_segment) then (utx_next s1 + 1) mod m else utx_next s1)).
Proof.
  intros Hr Hg. destruct (tx_um_reached_inv s Hr) as (started & parts & Hs). cbn zeta.
  split; [by apply (um_no_sdu_no_offset cfg started parts)|]. pose proof (um_next_spec cfg started parts s Hs) as Hn.
  unfold um_pull_pdu. case_if; [unfold head_len_full, rlc_um_pdu_header_size_complete_sdu in *; lia|].
  destruct (um_next_sdu cfg s) as [o s1] eqn:En. destruct Hn as (started1 & Hs1 & _ & _ & Hcur & Hno). cbn [snd].
  split; [apply Hcur|]. destruct o as [o|].
  2:{ exists [], s1, []. split; [done|]. left. split_and!; try done. left. by apply (um_next_none cfg s). }
  destruct (um_build_spec cfg started1 parts s1 grant_len Hs1 Hg) as (pdu & s' & out & -> & Hb). cbn [checked_bind].
  exists pdu, s', (o ++ out). split; [done|]. destruct Hb as [(-> & -> & -> & Hb)|(len & Hb)]; [by left|right].
  exists len. eapply (um_built_view cfg started1 parts); [exact Hs1|exact Hb].
Qed.

(** ** Buffer state *)

(** The bytes to announce: each queued SDU with the header of a complete one, and
    what is left of the current SDU with the header of a segment. *)
Definition um_announced s : Z :=
  let buf := sdu_buf (utx_sdu s) in let live := live_sdus (utx_sdu_queue s) in
  sdu_bytes live + zlen live +
  match buf with [] => 0 | _ => zlen buf - utx_next_so s + head_len_not_first cfg end.

Lemma um_announced_bounds started parts s :
  tx_um_cfg_ok -> tx_um_inv cfg started parts s -> queue_ok (utx_sdu_queue s) ->
  0 <= um_announced s < 2 ^ 32 /\
  (um_announced s = 0 <-> sdu_buf (utx_sdu s) = [] /\ live_sdus (utx_sdu_queue s) = []).
Proof.
  intros (Hc1 & Hc2 & Hc3) Hs [Hq Ec El Hb]. unfold um_announced.
  pose proof (um_offset_range cfg started parts s Hs) as [Hso Hlt]. pose proof (um_sdu_in_range cfg started parts s Hs) as [Hlen _].
  pose proof (sdu_bytes_nonneg (live_sdus (utx_sdu_queue s))). pose proof (zlen_nonneg (live_sdus (utx_sdu_queue s))) as Hz.
  pose proof (live_length (utx_sdu_queue s)) as Hll. pose proof (sqwf_size _ Hq). rewrite Ec in *.
  destruct (um_head_sizes cfg) as (_ & Hf & En).
  pose proof (zlen_nonneg (sdu_buf (utx_sdu s))). destruct (sdu_buf (utx_sdu s)) as [|x b].
  - split; [lia|]. split; [|by intros [_ ->]]. intros E. split; [done|].
    assert (zlen (live_sdus (utx_sdu_queue s)) = 0) as E0 by lia.
    unfold zlen in E0. destruct (live_sdus _); [done|cbn in E0; lia].
  - split; [lia|]. split; [lia|]. by intros [? _].
Qed.

Lemma um_buffer_state_value started parts s :
  tx_um_cfg_ok -> tx_um_inv cfg started parts s -> queue_ok (utx_sdu_queue s) ->
  let bs := (um_get_buffer_state cfg s).1 in
  pending_bytes bs = um_announced s /\
  hol_toa bs = match sdu_buf (utx_sdu s) with
               | [] => sdu_time_of_arrival <$> head (live_sdus (utx_sdu_queue s))
               | _ => Some (sdu_time_of_arrival (utx_sdu s))
               end.
Proof.
  intros Hcfg Hs Hqok. destruct (um_announced_bounds started parts s Hcfg Hs Hqok) as [Hr _].
  pose proof (um_offset_range cfg started parts s Hs) as [Hso Hlt]. destruct Hqok as [Hq Ec El Hb] eqn:EQ.
  unfold um_get_buffer_state. rewrite (get_state_spec _ Hq).
  pose proof (sdu_bytes_nonneg (live_sdus (utx_sdu_queue s))). pose proof (zlen_nonneg (live_sdus (utx_sdu_queue s))).
  destruct (um_head_sizes cfg) as (-> & Hf & En). unfold um_announced in *. rewrite Z.mul_1_r.
  pose proof (zlen_nonneg (sdu_buf (utx_sdu s))). destruct (sdu_buf (utx_sdu s)) as [|x b] eqn:Ebuf.
  - pose proof (queue_ok_front _ _ _ Hqok) as Hfr. destruct (sq_front _) as [next q]. destruct Hfr as (_ & -> & _).
    cbn zeta. rewrite (wrap_small 32 (sdu_bytes _ + _)), wrap_small by (unfold in_range; lia).
    case_if; cbn [fst pending_bytes hol_toa]; (split; [lia|done]).
  - rewrite <- Ebuf in *. cbn zeta.
    rewrite (wrap_small 32 (sdu_bytes _ + _)), (wrap_small 32 (zlen _ - _ + _)), wrap_small by (unfold in_range; lia).
    case_if; cbn [fst pending_bytes hol_toa]; (split; [lia|done]).
Qed.

(** The buffer state is exact: in a reachable state, with queue limits under which
    nothing wraps, the bytes reported are those of the queued SDUs that were not discarded, with one
    byte of header each, plus what is left of the current SDU with the header of a
    later segment; they are zero exactly when there is nothing to send, and the
    head-of-line time is the arrival of the SDU that is sent next. *)
Theorem tx_um_buffer_state_exact s :
  tx_um_cfg_ok -> tx_um_reached s ->
  let bs := (um_get_buffer_state cfg s).1 in
  pending_bytes bs = um_announced s /\
  (pending_bytes bs = 0 <-> sdu_buf (utx_sdu s) = [] /\ live_sdus (utx_sdu_queue s) = []) /\
  hol_toa bs = match sdu_buf (utx_sdu s) with
               | [] => sdu_time_of_arrival <$> head (live_sdus (utx_sdu_queue s))
               | _ => Some (sdu_time_of_arrival (utx_sdu s))
               end.
Proof.
  intros Hcfg Hr. destruct (tx_um_reached_inv s Hr) as (started & parts & Hs).
  pose proof (tx_um_reached_queue s Hcfg Hr) as Hq. cbn zeta.
  destruct (um_buffer_state_value started parts s Hcfg Hs Hq) as [-> ->]. split_and!; [done| |done].
  by apply (um_announced_bounds started parts s Hcfg Hs Hq).
Qed.

(** ** Draining *)

(** Payload bytes to send, and one for each SDU to read. *)
Definition um_backlog s : Z :=
  zlen (sdu_buf (utx_sdu s)) - utx_next_so s +
  sdu_bytes (live_sdus (utx_sdu_queue s)) + zlen (live_sdus (utx_sdu_queue s)).

Lemma um_backlog_zero started parts s :
  tx_um_inv cfg started parts s -> queue_ok (utx_sdu_queue s) ->
  0 <= um_backlog s /\
  (um_backlog s = 0 <-> sdu_buf (utx_sdu s) = [] /\ live_sdus (utx_sdu_queue s) = []).
Proof.
  intros Hs _. unfold um_backlog. pose proof (um_offset_range cfg started parts s Hs) as [Hso Hlt].
  pose proof (um_no_sdu_no_offset cfg started parts s Hs) as Hno.
  pose proof (sdu_bytes_nonneg (live_sdus (utx_sdu_queue s))). pose proof (zlen_nonneg (live_sdus (utx_sdu_queue s))).
  pose proof (zlen_nonneg (sdu_buf (utx_sdu s))). split; [lia|]. split.
  - intros E. assert (zlen (sdu_buf (utx_sdu s)) = 0 /\ zlen (live_sdus (utx_sdu_queue s)) = 0) as [E1 E2] by lia.
    unfold zlen in E1, E2. by destruct (sdu_buf (utx_sdu s)), (live_sdus (utx_sdu_queue s)).
  - intros [E ->]. rewrite (Hno E), E. done.
Qed.

(** Reading an SDU. *)
Lemma um_next_backlog started parts s :
  tx_um_inv cfg started parts s -> queue_ok (utx_sdu_queue s) ->
  let '(o, s1) := um_next_sdu cfg s in
  (sdu_buf (utx_sdu s) <> [] /\ s1 = s /\ o <> None) \/
  (sdu_buf (utx_sdu s) = [] /\ um_backlog s1 = Z.max 0 (um_backlog s - 1) /\
   (o = None -> um_backlog s = 0)).
Proof.
  intros Hs Hq. unfold um_next_sdu. destruct (sdu_buf (utx_sdu s)) as [|x b] eqn:Ebuf; [|by left].
  pose proof (um_no_sdu_no_offset cfg started parts s Hs Ebuf) as Eso. unfold um_backlog. rewrite Ebuf, Eso.
  pose proof (queue_ok_read _ _ _ Hq) as Hr. destruct (sq_read (utx_sdu_queue s)) as [sdu q]. destruct Hr as (_ & -> & Elive).
  destruct (live_sdus (utx_sdu_queue s)) as [|sdu l]; cbn [head tail] in *; cbn iota; right.
  - split; [done|]. cbn [utx_sdu utx_next_so utx_sdu_queue]. unfold field_update. cbn [utx_sdu utx_next_so utx_sdu_queue].
    rewrite Elive, Ebuf, Eso. done.
  - split; [done|]. unfold field_update. cbn [utx_sdu utx_next_so utx_sdu_queue]. rewrite Elive, Eso.
    change (sdu_bytes (sdu :: l)) with (zlen (sdu_buf sdu) + sdu_bytes l). rewrite zlen_cons.
    pose proof (zlen_nonneg (sdu_buf sdu)). pose proof (zlen_nonneg l). pose proof (sdu_bytes_nonneg l).
    change (zlen ([] : list Z)) with 0. split; [lia|done].
Qed.

Lemma um_build_backlog started parts s grant_len pdu s' out :
  tx_um_inv cfg started parts s -> um_built cfg grant_len s pdu s' out -> um_backlog s' < um_backlog s.
Proof.
  intros Hs (len & Hb). pose proof Hb as (_ & _ & _ & _ & _ & Es' & _).
  apply (um_built_view cfg started parts) in Hb as (Hlen & Hend & _ & _ & _ & _ & E1 & E2 & _); [|exact Hs].
  unfold um_backlog. rewrite E1, E2, Es', um_advance_queue.
  destruct (_ =? _) eqn:E; zbool; [change (zlen ([] : list Z)) with 0|]; lia.
Qed.

Lemma um_pull_backlog started parts s grant_len pdu s' out :
  tx_um_inv cfg started parts s -> queue_ok (utx_sdu_queue s) -> head_len_not_first cfg < grant_len < 2 ^ 32 ->
  um_pull_pdu cfg grant_len s = Ok (pdu, s', out) -> um_backlog s' <= Z.max 0 (um_backlog s - 1).
Proof.
  intros Hs Hq Hg E. destruct (um_head_sizes cfg) as (_ & Hf & En). unfold um_pull_pdu in E.
  destruct (grant_len <=? head_len_full) eqn:E0; zbool; [unfold head_len_full, rlc_um_pdu_header_size_complete_sdu in *; lia|].
  pose proof (um_next_backlog started parts s Hs Hq) as Hn. pose proof (um_next_spec cfg started parts s Hs) as Hspec.
  destruct (um_next_sdu cfg s) as [[o|] s1]; cycle 1.
  { injection E as _ <- _. destruct Hn as [(_ & _ & Hne)|(_ & -> & _)]; [done|lia]. }
  destruct Hspec as (started1 & Hs1 & _). assert (1 < grant_len < 2 ^ 32) as Hg' by lia.
  destruct (um_build_spec cfg started1 parts s1 grant_len Hs1 Hg') as (pdu1 & s2 & out1 & E1 & Hb).
  rewrite E1 in E. cbn [checked_bind] in E. injection E as _ <- _.
  destruct (um_backlog_zero started parts s Hs Hq) as [H0 _].
  destruct Hb as [(_ & -> & _ & Hb)|Hb].
  - destruct Hn as [(Hne & -> & _)|(_ & -> & _)]; [|lia]. by destruct Hb; [|lia].
  - apply (um_build_backlog started1 parts) in Hb; [|done]. destruct Hn as [(_ & -> & _)|(_ & Eb & _)]; lia.
Qed.

(** UM transmission makes progress: in a reachable state, with grants longer than
    the header of a later segment, as many pulls as there are bytes and SDUs to send
    leave nothing queued and nothing to report to the MAC. *)
Theorem tx_um_drains s grants :
  tx_um_cfg_ok -> tx_um_reached s ->
  Forall (fun grant_len => head_len_not_first cfg < grant_len < 2 ^ 32) grants ->
  um_backlog s <= zlen grants ->
  exists pdus s' out, tx_um_run cfg (UtxPull <$> grants) s = Ok (pdus, s', out) /\
    sdu_buf (utx_sdu s') = [] /\ live_sdus (utx_sdu_queue s') = [] /\
    pending_bytes (um_get_buffer_state cfg s').1 = 0.
Proof.
  intros Hcfg Hr Hgrants. destruct (tx_um_reached_inv s Hr) as (started & parts & Hs).
  pose proof (tx_um_reached_queue s Hcfg Hr) as Hq. clear Hr. revert started parts s Hs Hq.
  pose (rcfg := mk_rlc_rx_um_config (txum_sn_field_length cfg) 0).
  induction Hgrants as [|g grants Hg _ IH]; intros started parts s Hs Hq Hb; [|rewrite fmap_cons]; cbn [tx_um_run].
  - destruct (um_backlog_zero started parts s Hs Hq) as [H0 [Hz _]].
    destruct Hz as [E1 E2]; [change (zlen ([] : list Z)) with 0 in Hb; lia|].
    exists [], s, []. split_and!; try done.
    destruct (um_buffer_state_value started parts s Hcfg Hs Hq) as [-> _].
    by apply (um_announced_bounds started parts s Hcfg Hs Hq).
  - destruct (um_head_sizes cfg) as (_ & Hf & En).
    destruct (tx_um_step_spec cfg rcfg eq_refl started parts s (UtxPull g) Hs) as (pdu & s1 & out & E & He).
    { cbn. unfold in_range. lia. }
    destruct He as (started1 & parts1 & num & Hs1 & _). pose proof (um_step_queue _ _ _ _ _ E Hq I) as Hq1.
    cbn [tx_um_step] in E. pose proof (um_pull_backlog _ _ _ _ _ _ _ Hs Hq Hg E) as Hle.
    rewrite zlen_cons in Hb. pose proof (zlen_nonneg grants).
    destruct (IH started1 parts1 s1 Hs1 Hq1) as (pdus & s2 & out2 & E2 & Hfin); [lia|].
    cbn [tx_um_step]. rewrite E. cbn [checked_bind]. rewrite E2. cbn [checked_bind]. by eexists _, _, _.
Qed.

End tx_um_runs.

(** ** A concrete run

    An SDU of five bytes in three segments, the next one complete. *)

Definition ex_utx_cfg : rlc_tx_um_config :=
  {| txum_sn_field_length := um_size6bits; txum_pdcp_sn_len := pdcp_size12bits;
     txum_queue_size := 16; txum_queue_size_bytes := 1024 |}.

Definition ex_utx_init : tx_um_state :=
  Eval vm_compute in
    match tx_um_init ex_utx_cfg as r return match r with Ok _ => tx_um_state | Panic => unit end with
    | Ok s => s
    | Panic => tt
    end.

Definition ex_utx_ops : list tx_um_op :=
  [UtxSdu 10 [128; 1; 21; 22; 23] false true; UtxRunTask; UtxPull 3; UtxSdu 12 [128; 2] false true;
   UtxPull 4; UtxPull 8; UtxPull 8].

Lemma ex_utx_ops_ok : Forall um_op_valid ex_utx_ops /\ Forall um_discard_ok ex_utx_ops.
Proof.
  split; repeat (apply Forall_cons_2; [|try apply Forall_nil_2]); try exact I; try (cbn; unfold in_range; lia).
  all: split; [done|repeat (apply Forall_cons_2; [unfold in_range; lia|]); apply Forall_nil_2].
Qed.

Example ex_utx_pdus :
  match tx_um_run ex_utx_cfg ex_utx_ops ex_utx_init with
  | Ok (pdus, s, out) =>
      pdus = [[]; []; [64; 128; 1]; []; [192; 0; 2; 21]; [128; 0; 3; 22; 23]; [0; 128; 2]] /\ utx_next s = 1
  | Panic => False
  end.
Proof. by vm_compute. Qed.

Lemma ex_utx_init_run : tx_um_init ex_utx_cfg = Ok ex_utx_init.
Proof. by vm_compute. Qed.

Lemma ex_utx_cfg_ok : tx_um_cfg_ok ex_utx_cfg.
Proof. split; [|split]; cbn; lia. Qed.

(** In the middle of the first SDU, with the second queued. *)
Definition ex_utx_mid : tx_um_state :=
  Eval vm_compute in
    match tx_um_run ex_utx_cfg (take 4 ex_utx_ops) ex_utx_init as r
      return match r with Ok _ => tx_um_state | Panic => unit end with
    | Ok (_, s, _) => s
    | Panic => tt
    end.

Lemma ex_utx_mid_reached : tx_um_reached ex_utx_cfg ex_utx_mid.
Proof.
  destruct ex_utx_ops_ok as [H1 H2]. eexists ex_utx_init, (take 4 ex_utx_ops), _, _.
  split; [exact ex_utx_init_run|]. split; [by apply Forall_take|]. split; [by apply Forall_take|]. by vm_compute.
Qed.

Lemma tx_um_integrity_witness :
  exists pdus s out started parts nums, tx_um_run ex_utx_cfg ex_utx_ops ex_utx_init = Ok (pdus, s, out) /\
    Forall2 (um_pulled (mk_rlc_rx_um_config um_size6bits 35) started parts) nums pdus.
Proof.
  destruct (tx_um_integrity ex_utx_cfg (mk_rlc_rx_um_config um_size6bits 35) ex_utx_init ex_utx_ops eq_refl
    ex_utx_init_run (proj1 ex_utx_ops_ok)) as (pdus & s & out & started & parts & nums & E & _ & _ & Hp & _).
  exists pdus, s, out, started, parts, nums. exact (conj E Hp).
Defined.

Lemma tx_um_segmentation_witness :
  exists pdu s' out, um_pull_pdu ex_utx_cfg 4 ex_utx_mid = Ok (pdu, s', out).
Proof.
  assert (1 < 4 < 2 ^ 32) as Hg by lia.
  destruct (tx_um_segmentation ex_utx_cfg ex_utx_mid 4 ex_utx_mid_reached Hg) as (_ & _ & pdu & s' & out & E & _).
  exists pdu, s', out. exact E.
Defined.

Lemma tx_um_buffer_state_exact_witness : pending_bytes (um_get_buffer_state ex_utx_cfg ex_utx_mid).1 = 9.
Proof.
  destruct (tx_um_buffer_state_exact ex_utx_cfg ex_utx_mid ex_utx_cfg_ok ex_utx_mid_reached) as [H _].
  rewrite H. by vm_compute.
Defined.

Lemma tx_um_drains_witness :
  exists pdus s' out, tx_um_run ex_utx_cfg (UtxPull <$> [4; 4; 4; 4; 4; 4; 4]) ex_utx_mid = Ok (pdus, s', out) /\
    sdu_buf (utx_sdu s') = [].
Proof.
  destruct (tx_um_drains ex_utx_cfg ex_utx_mid [4; 4; 4; 4; 4; 4; 4] ex_utx_cfg_ok ex_utx_mid_reached)
    as (pdus & s' & out & E & H & _).
  - repeat (apply Forall_cons_2; [cbn; lia|]). apply Forall_nil_2.
  - vm_compute. intros [=].
  - exists pdus, s', out. exact (conj E H).
Defined.
