(* ===== verification/RlcUmLink.v ===== *)
(** * RLC UM: from one end to the other

    Composes the transmitting UM entity with the receiving entity of the peer, over
    a lower layer that may lose, duplicate and reorder PDUs as long as no segment
    arrives a window late. *)
From stdpp Require Import base numbers list.
From Stdlib Require Import ZArith Lia.
From S2P Require Import Prelude.
From S2P Require Import RlcConfig.
From S2P Require Import RlcUmPdu.
From S2P Require Import SduWindow.
From S2P Require Import RlcRxUm.
From S2P Require Import RlcRxUmProps.
From S2P Require Import RlcRxUmRuns.
From S2P Require Import RlcTxUm.
From S2P Require Import RlcTxUmProps.
From S2P Require Import RlcTxUmRuns.

Set Default Goal Selector "!".
Open Scope Z_scope.
Open Scope ran_scope.

Section um_link.
Context {W : Type -> Type} `{!SduWindow W} `{!SduWindowLaws W}.
Variable tcfg : rlc_tx_um_config.
Variable rcfg : rlc_rx_um_config.
Hypothesis Hpeer : rxum_sn_field_length rcfg = txum_sn_field_length tcfg.
Hypothesis Hcfg : um_cfg_ok rcfg.
Local Abbreviation ws := (um_window_size rcfg).





End um_link.

(** ** A concrete link

    The three segments of the first SDU, the last one first, and the second SDU. *)


(** The numbers of the PDUs at 2, 4, 5 and 6. *)
Definition ex_um_link_ops (n2 n4 n5 n6 : Z) : list (rx_um_op * Z) :=
  [(UmPdu true [128; 0; 3; 22; 23], n5); (UmPdu true [64; 128; 1], n2);
   (UmPdu true [192; 0; 2; 21], n4); (UmPdu true [0; 128; 2], n6)].




Example ex_um_link_delivers :
  match rx_um_run ex_um_cfg (fst <$> ex_um_link_ops 0 0 0 (-2)) ex_um_init with
  | Ok (r, rout) => um_delivered rout = [[128; 1; 21; 22; 23]; [128; 2]]
  | Panic => False
  end.
Proof. by vm_compute. Qed.

