(* ===== verification/RlcTm.v ===== *)
(** * RLC TM: transmitting and receiving entities

    Models [rlc_tx_tm_entity] of [src/lib/rlc/rlc_tx_tm_entity.h] and
    [src/lib/rlc/rlc_tx_tm_entity.cpp], and [rlc_rx_tm_entity] of
    [src/lib/rlc/rlc_rx_tm_entity.cpp]: SDUs go out whole, without header, in order;
    an SDU longer than the grant waits.  The two entities compose into a FIFO. *)
From stdpp Require Import base numbers list.
From Stdlib Require Import ZArith Lia.
From S2P Require Import Prelude.
From S2P Require Import RlcSduQueue.
From S2P Require Import RlcTxBase.

Set Default Goal Selector "!".
Open Scope Z_scope.
Open Scope ran_scope.

(** ** Transmitting entity *)

Record rlc_tx_tm_config := mk_rlc_tx_tm_config {
  txtm_queue_size : Z;
  txtm_queue_size_bytes : Z;
}.

Inductive tx_tm_output : Type :=
| TtxTransmittedSdu (pdcp_sn desired_buf_size : Z)
| TtxBufferState (bs : rlc_buffer_state)
| TtxRetBufferState (bs : rlc_buffer_state)
| TtxMetricSdus (sdus bytes : Z)
| TtxMetricLostSdus (sdus : Z)
| TtxMetricDiscardFailure (sdus : Z)
| TtxMetricSmallAlloc (allocs : Z)
| TtxMetricPdusNoSegmentation (pdus bytes : Z).

(** [ttx_sdu] waits for a grant that fits; its buffer is empty when there is none.
    [ttx_tasks] counts the updates that wait in the executor of the cell. *)
Record tx_tm_state := mk_tx_tm_state {
  ttx_sdu_queue : rlc_sdu_queue;
  ttx_sdu : rlc_sdu;
  ttx_pending_buffer_state : bool;
  ttx_tasks : nat;
  ttx_stopped : bool;
}.
#[export] Instance tx_tm_state_eta : RecordEta tx_tm_state := fun r =>
  mk_tx_tm_state (ttx_sdu_queue r) (ttx_sdu r) (ttx_pending_buffer_state r) (ttx_tasks r)
    (ttx_stopped r).

Section tx_tm.
Variable cfg : rlc_tx_tm_config.
Implicit Types s : tx_tm_state.

Definition tx_tm_init : tx_tm_state :=
  mk_tx_tm_state (sq_new (txtm_queue_size cfg) (txtm_queue_size_bytes cfg))
    (mk_rlc_sdu [] false None 0) false 0 false.

Definition tm_get_buffer_state s : rlc_buffer_state * tx_tm_state :=
  let '(toa, s) :=
    match sdu_buf (ttx_sdu s) with
    | _ :: _ => (Some (sdu_time_of_arrival (ttx_sdu s)), s)
    | [] => let '(next_sdu, q) := sq_front (ttx_sdu_queue s) in
            (sdu_time_of_arrival <$> next_sdu, s <| ttx_sdu_queue := q |>)
    end in
  (mk_rlc_buffer_state (u32 ((sq_get_state (ttx_sdu_queue s)).2 + zlen (sdu_buf (ttx_sdu s)))) toa, s).

Definition tm_update_mac_buffer_state s : tx_tm_state * list tx_tm_output :=
  let '(bs, s) := tm_get_buffer_state (s <| ttx_pending_buffer_state := false |>) in
  (s, [TtxBufferState bs]).

(** [accepted]: the executor of the cell accepts the task. *)
Definition tm_handle_changed_buffer_state (accepted : bool) s : tx_tm_state :=
  if ttx_pending_buffer_state s then s else
  let s := s <| ttx_pending_buffer_state := true |> in
  if accepted then s <| ttx_tasks ::= S |> else s.

(** An SDU has no PDCP SN; the retransmission flag is ignored. *)
Definition tm_sdu (now : Z) (buf : list Z) : rlc_sdu := mk_rlc_sdu buf false None now.

Definition tm_handle_sdu (now : Z) (buf : list Z) (accepted : bool) s :
    tx_tm_state * list tx_tm_output :=
  let '(written, q) := sq_write (tm_sdu now buf) (ttx_sdu_queue s) in
  let s := s <| ttx_sdu_queue := q |> in
  if written then (tm_handle_changed_buffer_state accepted s, [TtxMetricSdus 1 (zlen buf)])
  else (s, [TtxMetricLostSdus 1]).

(** [None]: the queue is empty. *)
Definition tm_next_sdu s : option tx_tm_state * tx_tm_state :=
  match sdu_buf (ttx_sdu s) with
  | _ :: _ => (Some s, s)
  | [] =>
      let '(sdu, q) := sq_read (ttx_sdu_queue s) in
      let s := s <| ttx_sdu_queue := q |> in
      (match sdu with Some sdu => Some (s <| ttx_sdu := sdu |>) | None => None end, s)
  end.

(** The PDU, empty when the function returns 0. *)
Definition tm_pull_pdu (grant_len : Z) s : list Z * tx_tm_state * list tx_tm_output :=
  match tm_next_sdu s with
  | (None, s) => ([], s, [])
  | (Some s, _) =>
      let pdu := sdu_buf (ttx_sdu s) in
      if grant_len <? zlen pdu then ([], s, [TtxMetricSmallAlloc 1]) else
      (pdu, s <| ttx_sdu ::= fun sdu => sdu <| sdu_buf := [] |> |>,
       match sdu_pdcp_sn (ttx_sdu s) with
       | Some pdcp_sn => [TtxTransmittedSdu pdcp_sn (txtm_queue_size_bytes cfg)]
       | None => []
       end ++ [TtxMetricPdusNoSegmentation 1 (zlen pdu)])
  end.

Inductive tx_tm_op : Type :=
| TtxSdu (now : Z) (buf : list Z) (is_retx accepted : bool)
| TtxDiscardSdu (pdcp_sn : Z)
| TtxPull (grant_len : Z)
| TtxGetBufferState
| TtxRunTask
| TtxStop.

Definition tx_tm_step (op : tx_tm_op) s : list Z * tx_tm_state * list tx_tm_output :=
  match op with
  | TtxSdu now buf _ accepted => let '(s, out) := tm_handle_sdu now buf accepted s in ([], s, out)
  | TtxDiscardSdu _ => ([], s, [TtxMetricDiscardFailure 1])
  | TtxPull grant_len => tm_pull_pdu grant_len s
  | TtxGetBufferState => let '(bs, s) := tm_get_buffer_state s in ([], s, [TtxRetBufferState bs])
  | TtxRunTask =>
      match ttx_tasks s with
      | O => ([], s, [])
      | S n => let '(s, out) := tm_update_mac_buffer_state (s <| ttx_tasks := n |>) in ([], s, out)
      end
  | TtxStop => ([], s <| ttx_stopped := true |>, [])
  end.

Fixpoint tx_tm_run (ops : list tx_tm_op) s : list (list Z) * tx_tm_state * list tx_tm_output :=
  match ops with
  | [] => ([], s, [])
  | op :: ops =>
      let '(pdu, s, out) := tx_tm_step op s in
      let '(pdus, s, out') := tx_tm_run ops s in
      (pdu :: pdus, s, out ++ out')
  end.
End tx_tm.

(** ** Receiving entity *)

Inductive rx_tm_output : Type :=
| TmOutSdu (sdu : list Z)
| TmMetricPdus (pdus bytes : Z)
| TmMetricSdus (sdus bytes : Z)
| TmMetricLostPdus (pdus : Z).

(** [alloc]: the chain of the buffer can be allocated. *)
Definition rx_tm_handle_pdu (alloc : bool) (buf : list Z) : list rx_tm_output :=
  TmMetricPdus 1 (zlen buf) ::
  (if alloc then [TmMetricSdus 1 (zlen buf); TmOutSdu buf] else [TmMetricLostPdus 1]).

Definition tm_delivered (out : list rx_tm_output) : list (list Z) :=
  omap (fun o => match o with TmOutSdu sdu => Some sdu | _ => None end) out.

(** ** The FIFO *)

Definition nonempty (l : list (list Z)) : list (list Z) := filter (fun sdu => sdu <> []) l.

Section tm_fifo.
Variable cfg : rlc_tx_tm_config.
Implicit Types s : tx_tm_state.

(** What the queue takes in an operation, and in a run. *)
Definition tm_accepted_op (op : tx_tm_op) s : list (list Z) :=
  match op with
  | TtxSdu now buf _ _ => if (sq_write (tm_sdu now buf) (ttx_sdu_queue s)).1 then [buf] else []
  | _ => []
  end.

Fixpoint tm_accepted (ops : list tx_tm_op) s : list (list Z) :=
  match ops with
  | [] => []
  | op :: ops => tm_accepted_op op s ++ tm_accepted ops (tx_tm_step cfg op s).1.2
  end.

(** What is left to send. *)
Definition tm_waiting s : list (list Z) :=
  sdu_buf (ttx_sdu s) :: (sdu_buf <$> sq_queue (ttx_sdu_queue s)).

(** No SDU of the entity has a PDCP SN, so none is dropped from the queue. *)
Definition tm_plain s : Prop :=
  sdu_pdcp_sn (ttx_sdu s) = None /\ Forall (fun sdu => sdu_pdcp_sn sdu = None) (sq_queue (ttx_sdu_queue s)).

Lemma nonempty_app l1 l2 : nonempty (l1 ++ l2) = nonempty l1 ++ nonempty l2.
Proof. apply filter_app. Qed.

Lemma nonempty_nil l : nonempty ([] :: l) = nonempty l.
Proof. unfold nonempty. by rewrite filter_cons_False by (intros H; by apply H). Qed.

Lemma nonempty_cons sdu l : nonempty (sdu :: l) = nonempty [sdu] ++ nonempty l.
Proof. apply (nonempty_app [sdu]). Qed.

Lemma plain_read q :
  Forall (fun sdu => sdu_pdcp_sn sdu = None) (sq_queue q) ->
  let '(sdu, q') := sq_read q in sdu = head (sq_queue q) /\ sq_queue q' = tail (sq_queue q).
Proof.
  unfold sq_read. destruct (sq_queue q) as [|sdu l] eqn:E; cbn [sq_read_loop]; [done|].
  intros [Hsn _]%Forall_cons. by rewrite Hsn.
Qed.

Lemma plain_front q :
  Forall (fun sdu => sdu_pdcp_sn sdu = None) (sq_queue q) -> (sq_front q).2 = q.
Proof.
  unfold sq_front. destruct (sq_queue q) as [|sdu l]; cbn [sq_front_loop]; [done|].
  intros [Hsn _]%Forall_cons. by rewrite Hsn.
Qed.

Lemma tm_buffer_state_spec s :
  tm_plain s -> let s' := (tm_get_buffer_state s).2 in tm_plain s' /\ tm_waiting s' = tm_waiting s.
Proof.
  intros Hp. unfold tm_get_buffer_state. destruct (sdu_buf (ttx_sdu s)); [|done].
  pose proof (plain_front (ttx_sdu_queue s) (proj2 Hp)) as Hf. destruct (sq_front _) as [next q]. by cbn in Hf; subst q.
Qed.

Lemma tm_pull_spec grant_len s :
  tm_plain s ->
  let '(pdu, s', _) := tm_pull_pdu cfg grant_len s in
  tm_plain s' /\ nonempty (pdu :: tm_waiting s') = nonempty (tm_waiting s) /\ zlen pdu <= Z.max 0 grant_len.
Proof.
  intros Hp. unfold tm_pull_pdu.
  assert (match tm_next_sdu s with
          | (None, s1) => tm_plain s1 /\ nonempty (tm_waiting s1) = nonempty (tm_waiting s)
          | (Some s1, _) => tm_plain s1 /\ nonempty (tm_waiting s1) = nonempty (tm_waiting s)
          end) as Hn.
  { unfold tm_next_sdu. destruct (sdu_buf (ttx_sdu s)) eqn:E; [|done].
    pose proof (plain_read (ttx_sdu_queue s) (proj2 Hp)) as Hr. destruct (sq_read _) as [sdu q]. destruct Hr as [-> Eq].
    destruct Hp as [H1 H2]. unfold tm_plain, tm_waiting. rewrite E, nonempty_nil.
    destruct (sq_queue (ttx_sdu_queue s)) as [|sdu l]; cbn in *; rewrite Eq.
    - rewrite ?E, ?nonempty_nil. by repeat split.
    - apply Forall_cons in H2 as [? ?]. by split. }
  destruct (tm_next_sdu s) as [[s1|] s2].
  - destruct Hn as [Hp1 Hw]. pose proof (zlen_nonneg (sdu_buf (ttx_sdu s1))). case_if.
    + rewrite nonempty_nil. split_and!; try done. change (zlen ([] : list Z)) with 0. lia.
    + split_and!; [by destruct Hp1| |lia]. rewrite <- Hw.
      change (tm_waiting (s1 <| ttx_sdu ::= fun sdu => sdu <| sdu_buf := [] |> |>))
        with ([] :: (sdu_buf <$> sq_queue (ttx_sdu_queue s1))).
      by rewrite nonempty_cons, nonempty_nil, <- nonempty_cons.
  - destruct Hn as [Hp1 Hw]. rewrite nonempty_nil. split_and!; try done. change (zlen ([] : list Z)) with 0. lia.
Qed.

Lemma tm_step_spec op s :
  tm_plain s ->
  let '(pdu, s', _) := tx_tm_step cfg op s in
  tm_plain s' /\ nonempty (pdu :: tm_waiting s') = nonempty (tm_waiting s ++ tm_accepted_op op s).
Proof.
  intros Hp.
  assert (forall s', tm_plain s' -> tm_waiting s' = tm_waiting s -> tm_accepted_op op s = [] ->
    tm_plain s' /\ nonempty ([] :: tm_waiting s') = nonempty (tm_waiting s ++ tm_accepted_op op s)) as Hsame.
  { intros s' ? -> ->. by rewrite app_nil_r, nonempty_nil. }
  destruct op as [now buf is_retx accepted|sn|grant_len| | |]; cbn [tx_tm_step].
  - unfold tm_handle_sdu, tm_accepted_op. pose proof (sq_write_queue (tm_sdu now buf) (ttx_sdu_queue s)) as Hq.
    destruct (sq_write _ _) as [ok q]. cbn [fst]. destruct Hp as [H1 H2].
    assert (forall s', ttx_sdu_queue s' = q -> ttx_sdu s' = ttx_sdu s ->
      tm_plain s' /\ nonempty ([] :: tm_waiting s') = nonempty (tm_waiting s ++ (if ok then [buf] else []))) as Hw.
    { intros s' Es1 Es2. unfold tm_plain, tm_waiting. rewrite Es1, Es2, Hq, nonempty_nil. destruct ok.
      - split; [split; [done|]|by rewrite fmap_app]. apply Forall_app. split; [done|]. by apply Forall_singleton.
      - by rewrite app_nil_r. }
    destruct ok; apply Hw; try done; unfold tm_handle_changed_buffer_state; by repeat case_if.
  - by apply Hsame.
  - pose proof (tm_pull_spec grant_len s Hp) as H. destruct (tm_pull_pdu cfg grant_len s) as [[pdu s'] out].
    destruct H as (H1 & H2 & _). split; [done|]. by rewrite app_nil_r.
  - pose proof (tm_buffer_state_spec s Hp) as [H1 H2]. destruct (tm_get_buffer_state s) as [bs s']. by apply Hsame.
  - destruct (ttx_tasks s) as [|n]; [by apply Hsame|]. unfold tm_update_mac_buffer_state.
    set (s0 := _ <| ttx_pending_buffer_state := false |>).
    pose proof (tm_buffer_state_spec s0 Hp) as [H1 H2]. destruct (tm_get_buffer_state s0) as [bs s']. by apply Hsame.
  - by apply Hsame.
Qed.

Lemma tm_run_spec ops : forall s,
  tm_plain s ->
  let '(pdus, s', _) := tx_tm_run cfg ops s in
  tm_plain s' /\ nonempty (pdus ++ tm_waiting s') = nonempty (tm_waiting s ++ tm_accepted ops s).
Proof.
  induction ops as [|op ops IH]; intros s Hp; cbn [tx_tm_run tm_accepted]; [by rewrite app_nil_r|].
  pose proof (tm_step_spec op s Hp) as H. destruct (tx_tm_step cfg op s) as [[pdu s1] out]. destruct H as [Hp1 H1].
  specialize (IH s1 Hp1). destruct (tx_tm_run cfg ops s1) as [[pdus s2] out2]. destruct IH as [Hp2 H2]. cbn [fst snd].
  split; [done|]. change ((pdu :: pdus) ++ tm_waiting s2) with ([pdu] ++ (pdus ++ tm_waiting s2)).
  rewrite nonempty_app, H2, (app_assoc (tm_waiting s)), (nonempty_app (tm_waiting s ++ _)), <- H1.
  by rewrite (nonempty_app (tm_waiting s1)), app_assoc, <- nonempty_cons.
Qed.

(** A bearer in transparent mode is a FIFO: whatever SDUs, grants, updates and
    discards the transmitting entity goes through, the PDUs it hands to the MAC,
    passed on to the receiving entity of the peer, come out as the SDUs that its
    queue accepted, each whole, unaltered and once, in order, except those that still
    wait; empty SDUs are dropped. *)
Theorem tm_link_fifo ops :
  let '(pdus, s, _) := tx_tm_run cfg ops (tx_tm_init cfg) in
  tm_delivered (nonempty pdus ≫= rx_tm_handle_pdu true) ++ nonempty (tm_waiting s) =
    nonempty (tm_accepted ops (tx_tm_init cfg)).
Proof.
  pose proof (tm_run_spec ops (tx_tm_init cfg)) as H. destruct (tx_tm_run cfg ops (tx_tm_init cfg)) as [[pdus s] out].
  destruct H as [_ H]; [by split|]. change (tm_waiting (tx_tm_init cfg)) with [([] : list Z)] in H.
  rewrite !nonempty_app, nonempty_nil in H. change (nonempty []) with ([] : list (list Z)) in H. rewrite app_nil_l in H. rewrite <- H. f_equal.
  generalize (nonempty pdus). intros l. induction l as [|pdu l IH]; [done|].
  unfold tm_delivered in *. rewrite bind_cons, omap_app, IH. done.
Qed.

End tm_fifo.

(** Two SDUs; the first grant is too small. *)
Example ex_tm_run :
  let '(pdus, s, out) := tx_tm_run (mk_rlc_tx_tm_config 8 100)
    [TtxSdu 1 [1; 2; 3] false true; TtxPull 2; TtxSdu 2 [4; 5] false true; TtxPull 3; TtxPull 9]
    (tx_tm_init (mk_rlc_tx_tm_config 8 100)) in
  pdus = [[]; []; []; [1; 2; 3]; [4; 5]] /\ nonempty (tm_waiting s) = [].
Proof. by vm_compute. Qed.
