(* ===== verification/BitEncoding.v ===== *)
(** * Bit encoding

    Models [bit_encoder] and [bit_decoder] of
    [src/include/srsran/support/bit_encoding.h] and
    [src/lib/support/bit_encoding.cpp], with which PDCP writes and reads status
    reports, against lists of bits, most significant bit first. *)
From stdpp Require Import base numbers list.
From Stdlib Require Import ZArith Lia.
From S2P Require Import Prelude.

Set Default Goal Selector "!".
Open Scope Z_scope.
Open Scope ran_scope.

(** ** Encoder

    The buffer held by the writer, and the offset of the next bit to be set. *)
Record bit_encoder := mk_bit_encoder {
  be_bytes : list Z;
  be_offset : Z;
}.
#[export] Instance bit_encoder_eta : RecordEta bit_encoder := fun r =>
  mk_bit_encoder (be_bytes r) (be_offset r).

Definition bit_encoder_new : bit_encoder := mk_bit_encoder [] 0.

Definition be_nof_bits (e : bit_encoder) : Z :=
  8 * (zlen (be_bytes e) - (if be_offset e =? 0 then 0 else 1)) + be_offset e.

(** [writer.back() += v] *)
Definition add_to_back (v : Z) (bytes : list Z) : list Z :=
  alter (fun b => u8 (b + u8 v)) (pred (length bytes)) bytes.

(** The loop of [pack]; the buffer takes at most [room] bytes, beyond which the
    allocation of a byte fails. *)
Fixpoint be_pack_loop (fuel : nat) (room val n_bits : Z) (e : bit_encoder) :
    checked (bool * bit_encoder) :=
  if n_bits <=? 0 then Ok (true, e) else
  match fuel with
  | O => Panic
  | S fuel =>
      if (be_offset e =? 0) && (room <=? zlen (be_bytes e)) then Ok (false, e) else
      let e := if be_offset e =? 0 then e <| be_bytes ::= fun l => l ++ [0] |> else e in
      let val := if n_bits <? 64 then Z.land val (Z.shiftl 1 n_bits - 1) else val in
      if n_bits <? 8 - be_offset e then
        Ok (true, e <| be_bytes ::= add_to_back (Z.shiftl val (8 - be_offset e - n_bits)) |>
                    <| be_offset ::= Z.add n_bits |>)
      else
        be_pack_loop fuel room val (n_bits - (8 - be_offset e))
          (e <| be_bytes ::= add_to_back (Z.shiftr val (n_bits - 8 + be_offset e)) |>
             <| be_offset := 0 |>)
  end.

(** Each turn of the loop but the first fills a byte: nine turns take 64 bits. *)
Definition be_pack_fuel : nat := 9.

Definition be_pack (room val n_bits : Z) (e : bit_encoder) : checked (bool * bit_encoder) :=
  assert? n_bits <=? 64; be_pack_loop be_pack_fuel room val n_bits e.

(** ** Decoder

    The bytes from the one at the iterator on, and the offset in the first one. *)
Record bit_decoder := mk_bit_decoder {
  bd_bytes : list Z;
  bd_offset : Z;
}.
#[export] Instance bit_decoder_eta : RecordEta bit_decoder := fun r =>
  mk_bit_decoder (bd_bytes r) (bd_offset r).

Definition bit_decoder_new (bytes : list Z) : bit_decoder := mk_bit_decoder bytes 0.

(** The loop of [unpack] into an unsigned integer of [size] bits; the boolean is its
    result. *)
Fixpoint bd_unpack_loop (fuel : nat) (size val n_bits : Z) (d : bit_decoder) :
    checked (bool * Z * bit_decoder) :=
  if n_bits <=? 0 then Ok (true, val, d) else
  match fuel with
  | O => Panic
  | S fuel =>
      match bd_bytes d with
      | [] => Ok (false, val, d)
      | byte :: rest =>
          let offset := bd_offset d in
          if n_bits <? 8 - offset then
            let mask := u8 (Z.shiftl 1 (8 - offset)) - u8 (Z.shiftl 1 (8 - offset - n_bits)) in
            let bits := Z.shiftr (u8 (Z.land byte (u8 mask))) (8 - offset - n_bits) in
            Ok (true, wrap size (val + bits), d <| bd_offset ::= Z.add n_bits |>)
          else
            let mask := u8 (Z.shiftl 1 (8 - offset) - 1) in
            let bits := wrap size (Z.shiftl (Z.land byte mask) (n_bits - 8 + offset)) in
            bd_unpack_loop fuel size (wrap size (val + bits)) (n_bits - (8 - offset))
              (mk_bit_decoder rest 0)
      end
  end.

Definition bd_unpack (size n_bits : Z) (d : bit_decoder) : checked (bool * Z * bit_decoder) :=
  assert? n_bits <=? size; bd_unpack_loop 9 size 0 n_bits d.

(** ** Bits, most significant first *)

Fixpoint bits_of (n : nat) (v : Z) : list bool :=
  match n with
  | O => []
  | S n => Z.testbit v (Z.of_nat n) :: bits_of n v
  end.

Definition byte_bits (bytes : list Z) : list bool := flat_map (bits_of 8) bytes.

Lemma length_bits_of n v : length (bits_of n v) = n.
Proof. induction n; cbn; congruence. Qed.

Lemma bits_of_app a b v : bits_of (a + b) v = bits_of a (v / 2 ^ Z.of_nat b) ++ bits_of b v.
Proof.
  induction a as [|a IH]; cbn; [done|]. rewrite IH. f_equal.
  rewrite Z.div_pow2_bits by lia. f_equal. lia.
Qed.

Lemma bits_of_mod n v : bits_of n (v mod 2 ^ Z.of_nat n) = bits_of n v.
Proof.
  assert (forall k, (k <= n)%nat -> bits_of k (v mod 2 ^ Z.of_nat n) = bits_of k v) as H; [|by apply H].
  induction k as [|k IH]; intros Hk; cbn; [done|]. rewrite IH by lia. f_equal.
  apply Z.mod_pow2_bits_low. lia.
Qed.

Lemma bits_of_cat a b x y :
  0 <= y < 2 ^ Z.of_nat b -> bits_of (a + b) (x * 2 ^ Z.of_nat b + y) = bits_of a x ++ bits_of b y.
Proof.
  intros Hy. rewrite bits_of_app. f_equal.
  - f_equal. rewrite Z.div_add_l by lia. rewrite (Z.div_small y) by done. lia.
  - rewrite <- bits_of_mod, Z.add_comm, Z_mod_plus_full, Z.mod_small by done. done.
Qed.

Lemma bits_of_inj n v v' :
  0 <= v < 2 ^ Z.of_nat n -> 0 <= v' < 2 ^ Z.of_nat n -> bits_of n v = bits_of n v' -> v = v'.
Proof.
  intros Hv Hv' E. apply Z.bits_inj'. intros i Hi.
  destruct (decide (i < Z.of_nat n)) as [Hin|Hout].
  - assert (forall k, (k <= n)%nat -> bits_of k v = bits_of k v') as Hk.
    { intros k Hk. rewrite <- (Nat.sub_add k n Hk) in E. rewrite !bits_of_app in E.
      apply app_inj_2 in E as [_ E]; [done|by rewrite !length_bits_of]. }
    pose proof (Hk (S (Z.to_nat i)) ltac:(lia)) as Hb. cbn in Hb. injection Hb as Hb _.
    by rewrite Z2Nat.id in Hb by lia.
  - rewrite <- (Z.mod_small v (2 ^ Z.of_nat n)), <- (Z.mod_small v' (2 ^ Z.of_nat n)) by done.
    by rewrite !Z.mod_pow2_bits_high by lia.
Qed.

Lemma byte_bits_app l l' : byte_bits (l ++ l') = byte_bits l ++ byte_bits l'.
Proof. apply flat_map_app. Qed.
Lemma length_byte_bits l : length (byte_bits l) = (8 * length l)%nat.
Proof. induction l as [|b l IH]; [done|]. cbn [byte_bits flat_map]. rewrite length_app, length_bits_of.
  fold (byte_bits l). rewrite IH. cbn. lia. Qed.

(** The encoder holds the bits [bs]: [open_encoder] with room left in its last byte,
    whose low bits are zero. *)
Definition open_encoder (e : bit_encoder) (bs : list bool) : Prop :=
  exists l c, 0 <= be_offset e < 8 /\ 0 <= c < 2 ^ be_offset e /\
    be_bytes e = l ++ [c * 2 ^ (8 - be_offset e)] /\ Forall is_u8 l /\
    bs = byte_bits l ++ bits_of (Z.to_nat (be_offset e)) c.

Definition encodes (e : bit_encoder) (bs : list bool) : Prop :=
  if be_offset e =? 0 then Forall is_u8 (be_bytes e) /\ bs = byte_bits (be_bytes e)
  else open_encoder e bs.

Lemma encodes_new : encodes bit_encoder_new [].
Proof. by split. Qed.

Lemma encodes_nof_bits e bs : encodes e bs -> be_nof_bits e = zlen bs /\ 0 <= be_offset e < 8.
Proof.
  unfold encodes, be_nof_bits, zlen. destruct (be_offset e =? 0) eqn:E; zbool.
  - intros [_ ->]. rewrite length_byte_bits. lia.
  - intros (l & c & Ho & _ & -> & _ & ->).
    rewrite !length_app, length_byte_bits, length_bits_of. cbn [length]. lia.
Qed.

Lemma encodes_bytes e bs : encodes e bs -> Forall is_u8 (be_bytes e).
Proof.
  unfold encodes. destruct (be_offset e =? 0) eqn:E; zbool; [by intros [? _]|].
  intros (l & c & Ho & Hc & -> & Hl & _). apply Forall_app. split; [done|]. apply Forall_singleton.
  unfold in_range. replace (2 ^ 8) with (2 ^ be_offset e * 2 ^ (8 - be_offset e)) by (rewrite <- Z.pow_add_r by lia; f_equal; lia).
  pose proof (Z.pow_pos_nonneg 2 (8 - be_offset e)). nia.
Qed.

Lemma add_to_back_snoc v l b : add_to_back v (l ++ [b]) = l ++ [u8 (b + u8 v)].
Proof. unfold add_to_back. rewrite length_app, Nat.add_1_r. cbn [pred]. by rewrite alter_app_r_alt, Nat.sub_diag by done. Qed.

(** The byte opened by an aligned encoder. *)
Lemma open_next_byte e bs :
  encodes e bs ->
  open_encoder (if be_offset e =? 0 then e <| be_bytes ::= fun l => l ++ [0] |> else e) bs.
Proof.
  unfold encodes. destruct (be_offset e =? 0) eqn:E; zbool; [|done].
  intros [Hl ->]. exists (be_bytes e), 0. unfold field_update. cbn. rewrite E. cbn.
  rewrite app_nil_r. split_and!; done.
Qed.

Lemma pow2_le8 k : 0 <= k <= 8 -> 1 <= 2 ^ k <= 256.
Proof.
  intros Hk. pose proof (Z.pow_pos_nonneg 2 k). assert (2 ^ k <= 2 ^ 8) by (apply Z.pow_le_mono_r; lia). lia.
Qed.

(** The last bits fit in the open byte. *)
Lemma pack_fits e bs v n :
  open_encoder e bs -> 0 < n < 8 - be_offset e -> 0 <= v < 2 ^ n ->
  encodes (e <| be_bytes ::= add_to_back (Z.shiftl v (8 - be_offset e - n)) |>
             <| be_offset ::= Z.add n |>) (bs ++ bits_of (Z.to_nat n) v).
Proof.
  intros (l & c & Ho & Hc & Hb & Hl & ->) Hn Hv. set (o := be_offset e) in *.
  unfold encodes, field_update. cbn. fold o. rewrite (proj2 (Z.eqb_neq (n + o) 0)) by lia.
  exists l, (c * 2 ^ n + v). cbn. rewrite Hb, add_to_back_snoc.
  assert (2 ^ 8 = 2 ^ o * 2 ^ n * 2 ^ (8 - o - n)) as E8 by (rewrite <- !Z.pow_add_r by lia; f_equal; lia).
  pose proof (pow2_le8 o ltac:(lia)). pose proof (pow2_le8 n ltac:(lia)). pose proof (pow2_le8 (8 - o - n) ltac:(lia)).
  assert (0 <= c * 2 ^ n + v < 2 ^ o * 2 ^ n) as Hcv by nia.
  replace (8 - (n + o)) with (8 - o - n) by lia. rewrite Z.shiftl_mul_pow2 by lia.
  assert (2 ^ (8 - o) = 2 ^ n * 2 ^ (8 - o - n)) as -> by (rewrite <- Z.pow_add_r by lia; f_equal; lia).
  rewrite (Z.pow_add_r 2 n o) by lia.
  rewrite (wrap_small 8 (v * _)) by (unfold in_range; nia).
  rewrite wrap_small by (unfold in_range; nia).
  split_and!; [lia|lia|lia|lia| |done|].
  - do 2 f_equal. ring.
  - rewrite <- app_assoc. f_equal. replace (Z.to_nat (n + o)) with (Z.to_nat o + Z.to_nat n)%nat by lia.
    rewrite <- (Z2Nat.id n) at 3 by lia. symmetry. apply bits_of_cat. by rewrite Z2Nat.id by lia.
Qed.

(** The open byte is filled. *)
Lemma pack_fills e bs v n :
  let m := 8 - be_offset e in
  open_encoder e bs -> m <= n -> 0 <= v < 2 ^ n ->
  encodes (e <| be_bytes ::= add_to_back (Z.shiftr v (n - 8 + be_offset e)) |> <| be_offset := 0 |>)
    (bs ++ bits_of (Z.to_nat m) (v / 2 ^ (n - m))).
Proof.
  intros m (l & c & Ho & Hc & Hb & Hl & ->) Hn Hv. set (o := be_offset e) in *.
  unfold encodes, field_update. cbn. fold o. rewrite Hb, add_to_back_snoc.
  replace (n - 8 + o) with (n - m) by lia. rewrite Z.shiftr_div_pow2 by lia. fold m.
  assert (2 ^ n = 2 ^ m * 2 ^ (n - m)) as En by (rewrite <- Z.pow_add_r by lia; f_equal; lia).
  assert (2 ^ 8 = 2 ^ o * 2 ^ m) as E8 by (rewrite <- Z.pow_add_r by lia; f_equal; lia).
  pose proof (pow2_le8 o ltac:(lia)). pose proof (pow2_le8 m ltac:(lia)).
  assert (0 <= v / 2 ^ (n - m) < 2 ^ m) as Hq.
  { pose proof (Z.pow_pos_nonneg 2 (n - m)). split; [apply Z.div_pos; lia|apply Z.div_lt_upper_bound; lia]. }
  set (q := v / 2 ^ (n - m)) in *.
  rewrite (wrap_small 8 q) by (unfold in_range; nia). rewrite wrap_small by (unfold in_range; nia).
  split.
  - apply Forall_app. split; [done|]. apply Forall_singleton. unfold in_range. nia.
  - rewrite <- app_assoc, byte_bits_app. f_equal. cbn [byte_bits flat_map]. rewrite app_nil_r.
    replace 8%nat with (Z.to_nat o + Z.to_nat m)%nat by lia.
    rewrite <- (Z2Nat.id m) at 3 by lia. symmetry. apply bits_of_cat. by rewrite Z2Nat.id by lia.
Qed.

Lemma be_pack_loop_spec fuel room val n e bs :
  encodes e bs -> 0 <= n <= 64 -> is_u64 val -> n + be_offset e <= 8 * Z.of_nat fuel ->
  zlen bs + n <= 8 * room ->
  exists e', be_pack_loop fuel room val n e = Ok (true, e') /\
    encodes e' (bs ++ bits_of (Z.to_nat n) val).
Proof.
  revert val n e bs. induction fuel as [|fuel IH]; intros val n e bs He Hn Hval Hf Hr; cbn [be_pack_loop];
    destruct (encodes_nof_bits _ _ He) as [Hnof Ho].
  { rewrite (proj2 (Z.leb_le n 0)) by lia. assert (n = 0) as -> by lia. exists e. by rewrite app_nil_r. }
  destruct (n <=? 0) eqn:E0; zbool.
  { assert (n = 0) as -> by lia. exists e. by rewrite app_nil_r. }
  assert ((be_offset e =? 0) && (room <=? zlen (be_bytes e)) = false) as ->.
  { unfold be_nof_bits in Hnof. destruct (be_offset e =? 0) eqn:E; [|done]. zbool. cbn. apply Z.leb_gt. lia. }
  pose proof (open_next_byte e bs He) as Hopen.
  assert (be_offset (if be_offset e =? 0 then e <| be_bytes ::= fun l => l ++ [0] |> else e) = be_offset e) as Hoff
    by (by destruct (be_offset e =? 0)).
  set (e1 := if be_offset e =? 0 then _ else e) in *. rewrite Hoff in *.
  set (v := if n <? 64 then _ else val).
  assert (v = val mod 2 ^ n) as Hv.
  { unfold v. destruct (n <? 64) eqn:E; zbool.
    - rewrite Z.shiftl_1_l, Z.sub_1_r, <- Z.ones_equiv. apply Z.land_ones. lia.
    - assert (n = 64) as -> by lia. symmetry. by apply Z.mod_small. }
  assert (0 <= v < 2 ^ n) as Hvr by (rewrite Hv; apply Z.mod_pos_bound; lia).
  assert (bits_of (Z.to_nat n) val = bits_of (Z.to_nat n) v) as ->.
  { rewrite Hv. rewrite <- (Z2Nat.id n) at 3 by lia. by rewrite bits_of_mod. }
  assert (is_u64 v) as Hv64.
  { unfold in_range. assert (2 ^ n <= 2 ^ 64) by (apply Z.pow_le_mono_r; lia). lia. }
  destruct (n <? 8 - be_offset e) eqn:E1; zbool.
  - eexists. split; [done|]. rewrite <- Hoff. rewrite <- Hoff in E1. by apply pack_fits; [|lia|].
  - pose proof (pack_fills e1 bs v n) as Hfill. cbv zeta in Hfill. rewrite Hoff in Hfill.
    specialize (Hfill Hopen ltac:(lia) Hvr). set (m := 8 - be_offset e) in *.
    edestruct (IH v (n - m)) as (e' & -> & He'); [exact Hfill|lia|done|unfold field_update; cbn; lia| |].
    { rewrite zlen_app. unfold zlen at 2. rewrite length_bits_of. lia. }
    exists e'. split; [done|]. rewrite <- app_assoc in He'.
    replace (Z.to_nat n) with (Z.to_nat m + Z.to_nat (n - m))%nat by lia.
    rewrite bits_of_app. rewrite Z2Nat.id by lia. done.
Qed.

(** Packing appends the low bits of the value, most significant first. *)
Lemma be_pack_spec room val n e bs :
  encodes e bs -> 0 <= n <= 64 -> is_u64 val -> zlen bs + n <= 8 * room ->
  exists e', be_pack room val n e = Ok (true, e') /\ encodes e' (bs ++ bits_of (Z.to_nat n) val).
Proof.
  intros He Hn Hval Hr. unfold be_pack. rewrite (proj2 (Z.leb_le n 64)) by lia.
  pose proof (encodes_nof_bits _ _ He) as [_ Ho]. apply be_pack_loop_spec; unfold be_pack_fuel; lia || done.
Qed.

(** The decoder has the bits [bs] left. *)
Definition decodes (d : bit_decoder) (bs : list bool) : Prop :=
  0 <= bd_offset d < 8 /\ Forall is_u8 (bd_bytes d) /\
  (bd_bytes d = [] -> bd_offset d = 0) /\ bs = drop (Z.to_nat (bd_offset d)) (byte_bits (bd_bytes d)).

Lemma decodes_new bytes : Forall is_u8 bytes -> decodes (bit_decoder_new bytes) (byte_bits bytes).
Proof. intros Hb. unfold decodes, bit_decoder_new. cbn. split_and!; done || lia. Qed.

Lemma drop_bits_of k n v : (k <= n)%nat -> drop k (bits_of n v) = bits_of (n - k) v.
Proof.
  intros Hk. replace n with (k + (n - k))%nat at 1 by lia. rewrite bits_of_app.
  apply drop_app_length'. by rewrite length_bits_of.
Qed.

(** The first byte of the bits left. *)
Lemma decodes_cons offset byte rest bs :
  decodes (mk_bit_decoder (byte :: rest) offset) bs ->
  0 <= offset < 8 /\ is_u8 byte /\ Forall is_u8 rest /\
  bs = bits_of (Z.to_nat (8 - offset)) byte ++ byte_bits rest.
Proof.
  unfold decodes. cbn [bd_bytes bd_offset]. intros (Ho & [Hb Hr]%Forall_cons & _ & ->).
  split_and!; [lia|lia|done|done|]. cbn [byte_bits flat_map].
  rewrite drop_app_le by (rewrite length_bits_of; lia). rewrite drop_bits_of by lia.
  do 2 f_equal. lia.
Qed.

Lemma bits_prefix_inj n a b l l' :
  bits_of n a ++ l = bits_of n b ++ l' -> a mod 2 ^ Z.of_nat n = b mod 2 ^ Z.of_nat n /\ l = l'.
Proof.
  intros E. apply app_inj_1 in E as [E ->]; [|by rewrite !length_bits_of]. split; [|done].
  apply (bits_of_inj n); try (apply Z.mod_pos_bound; lia). by rewrite !bits_of_mod.
Qed.

(** The bits taken out of the middle of a byte, with the masks of eight bits. *)
Lemma unpack_middle b o n :
  0 <= o < 8 -> 0 < n < 8 - o ->
  Z.shiftr (u8 (Z.land b (u8 (u8 (Z.shiftl 1 (8 - o)) - u8 (Z.shiftl 1 (8 - o - n)))))) (8 - o - n) =
    (b / 2 ^ (8 - o - n)) mod 2 ^ n.
Proof.
  intros Ho Hn. rewrite !Z.shiftl_1_l.
  pose proof (pow2_le8 n ltac:(lia)). pose proof (pow2_le8 o ltac:(lia)). pose proof (pow2_le8 (8 - o - n) ltac:(lia)).
  assert (2 ^ 8 = 2 ^ o * 2 ^ n * 2 ^ (8 - o - n)) as E8 by (rewrite <- !Z.pow_add_r by lia; f_equal; lia).
  assert (2 ^ (8 - o) = 2 ^ n * 2 ^ (8 - o - n)) as E1 by (rewrite <- Z.pow_add_r by lia; f_equal; lia).
  assert (u8 (u8 (2 ^ (8 - o)) - u8 (2 ^ (8 - o - n))) = Z.shiftl (Z.ones n) (8 - o - n)) as ->.
  { rewrite Z.shiftl_mul_pow2, Z.ones_equiv by lia. unfold wrap.
    rewrite Zminus_mod_idemp_l, Zminus_mod_idemp_r, E1. rewrite Z.mod_small by nia. lia. }
  rewrite land_field by lia. set (q := (b / 2 ^ (8 - o - n)) mod 2 ^ n).
  assert (0 <= q < 2 ^ n) by (apply Z.mod_pos_bound; lia).
  rewrite wrap_small by (unfold in_range; nia). rewrite Z.shiftr_div_pow2 by lia. apply Z.div_mul. lia.
Qed.

Lemma bd_unpack_loop_spec fuel size acc v n d bs :
  decodes d (bits_of (Z.to_nat n) v ++ bs) -> 0 <= n <= size -> 0 <= v < 2 ^ n ->
  in_range size acc -> n + bd_offset d <= 8 * Z.of_nat fuel ->
  exists d', bd_unpack_loop fuel size acc n d = Ok (true, wrap size (acc + v), d') /\ decodes d' bs.
Proof.
  revert acc v n d. induction fuel as [|fuel IH]; intros acc v n [bytes o] Hd Hn Hv Hacc Hf;
    cbn [bd_unpack_loop bd_bytes bd_offset] in *; pose proof Hd as (Ho & _ & Hnil & Hbits); cbn [bd_bytes bd_offset] in *.
  { rewrite (proj2 (Z.leb_le n 0)) by lia. assert (n = 0) as -> by lia.
    exists (mk_bit_decoder bytes o). rewrite wrap_small; [|by replace (acc + v) with acc by lia].
    by replace (acc + v) with acc by lia. }
  destruct (n <=? 0) eqn:E0; zbool.
  { assert (n = 0) as -> by lia. exists (mk_bit_decoder bytes o).
    replace (acc + v) with acc by lia. by rewrite wrap_small. }
  assert (2 ^ n <= 2 ^ size) as Hpow by (apply Z.pow_le_mono_r; lia).
  destruct bytes as [|byte rest].
  { exfalso. cbn in Hbits. rewrite drop_nil in Hbits. apply (f_equal length) in Hbits.
    rewrite length_app, length_bits_of in Hbits. cbn in Hbits. lia. }
  apply decodes_cons in Hd as (_ & Hbyte & Hrest & Hcons).
  destruct (n <? 8 - o) eqn:E1; zbool.
  - rewrite unpack_middle by lia.
    replace (Z.to_nat (8 - o)) with (Z.to_nat n + Z.to_nat (8 - o - n))%nat in Hcons by lia.
    rewrite bits_of_app, <- app_assoc in Hcons. apply bits_prefix_inj in Hcons as [Ev Ebs].
    rewrite !Z2Nat.id in Ev by lia. rewrite <- Ev, Z.mod_small by done.
    eexists. split; [done|]. unfold decodes, field_update. cbn [bd_bytes bd_offset].
    split_and!; [lia|lia|by apply Forall_cons|done|]. rewrite Ebs. cbn [byte_bits flat_map].
    rewrite drop_app_le by (rewrite length_bits_of; lia). rewrite drop_bits_of by lia.
    do 2 f_equal. lia.
  - set (m := 8 - o) in *. assert (n - 8 + o = n - m) as -> by lia.
    replace (Z.to_nat n) with (Z.to_nat m + Z.to_nat (n - m))%nat in Hcons by lia.
    rewrite bits_of_app, <- app_assoc in Hcons. apply bits_prefix_inj in Hcons as [Ev Ebs].
    rewrite !Z2Nat.id in Ev by lia.
    assert (2 ^ n = 2 ^ m * 2 ^ (n - m)) as En by (rewrite <- Z.pow_add_r by lia; f_equal; lia).
    pose proof (Z.pow_pos_nonneg 2 (n - m) ltac:(lia) ltac:(lia)) as Hp.
    assert (u8 (Z.shiftl 1 m - 1) = Z.ones m) as ->.
    { rewrite Z.shiftl_1_l, Z.ones_equiv, Z.sub_1_r. pose proof (pow2_le8 m ltac:(lia)).
      apply wrap_small. unfold in_range. lia. }
    rewrite Z.land_ones by lia. rewrite <- Ev.
    assert (0 <= v / 2 ^ (n - m) < 2 ^ m) as Hq by (split; [apply Z.div_pos; lia|apply Z.div_lt_upper_bound; lia]).
    rewrite (Z.mod_small (v / _)) by done. rewrite Z.shiftl_mul_pow2 by lia.
    pose proof (Z.div_mod v (2 ^ (n - m)) ltac:(lia)) as Edm.
    pose proof (Z.mod_pos_bound v (2 ^ (n - m)) ltac:(lia)).
    rewrite (wrap_small size (v / _ * _)) by (unfold in_range; nia).
    edestruct (IH (wrap size (acc + v / 2 ^ (n - m) * 2 ^ (n - m))) (v mod 2 ^ (n - m)) (n - m) (mk_bit_decoder rest 0))
      as (d' & -> & Hd'); [|lia|lia|apply wrap_range; lia|cbn; lia|].
    { unfold decodes. cbn [bd_bytes bd_offset]. refine (conj _ (conj Hrest (conj _ _))); [lia|done|].
      cbn [Z.to_nat drop]. rewrite <- Ebs. f_equal. rewrite <- (bits_of_mod (Z.to_nat (n - m)) v). by rewrite Z2Nat.id by lia. }
    exists d'. split; [|done]. do 3 f_equal. rewrite wrap_add_l by lia. f_equal. lia.
Qed.

(** Unpacking gives the value whose bits come next. *)
Lemma bd_unpack_spec size v n d bs :
  decodes d (bits_of (Z.to_nat n) v ++ bs) -> 0 <= n <= size -> size <= 64 -> 0 <= v < 2 ^ n ->
  exists d', bd_unpack size n d = Ok (true, v, d') /\ decodes d' bs.
Proof.
  intros Hd Hn Hs Hv. unfold bd_unpack. rewrite (proj2 (Z.leb_le n size)) by lia.
  assert (2 ^ n <= 2 ^ size) by (apply Z.pow_le_mono_r; lia).
  pose proof Hd as (Ho & _).
  edestruct (bd_unpack_loop_spec 9 size 0 v n d bs) as (d' & -> & Hd'); [done|done|done|unfold in_range; lia|lia|].
  exists d'. by rewrite wrap_small by (unfold in_range; lia).
Qed.

(** Unpacking past the end fails. *)
Lemma bd_unpack_loop_short fuel size acc n d bs :
  decodes d bs -> zlen bs < n -> n + bd_offset d <= 8 * Z.of_nat fuel ->
  exists acc' d', bd_unpack_loop fuel size acc n d = Ok (false, acc', d').
Proof.
  revert acc n d bs. induction fuel as [|fuel IH]; intros acc n [bytes o] bs Hd Hn Hf;
    pose proof (zlen_nonneg bs); cbn [bd_unpack_loop bd_bytes bd_offset] in *; pose proof Hd as (Ho & _); cbn in Ho; [lia|].
  rewrite (proj2 (Z.leb_gt n 0)) by lia. destruct bytes as [|byte rest]; [by eexists _, _|].
  apply decodes_cons in Hd as (_ & _ & Hrest & ->). rewrite zlen_app in Hn. unfold zlen at 1 in Hn.
  rewrite length_bits_of in Hn. pose proof (zlen_nonneg (byte_bits rest)).
  rewrite (proj2 (Z.ltb_ge n _)) by lia. eapply IH; [by apply decodes_new|lia|cbn; lia].
Qed.

Lemma bd_unpack_short size n d bs :
  decodes d bs -> zlen bs < n <= size -> size <= 64 ->
  exists acc d', bd_unpack size n d = Ok (false, acc, d').
Proof.
  intros Hd Hn Hs. unfold bd_unpack. rewrite (proj2 (Z.leb_le n size)) by lia.
  pose proof Hd as (Ho & _). eapply bd_unpack_loop_short; [done|lia|lia].
Qed.

(** Unpacking ends, whatever the bits; what it takes it takes from the bits left. *)
Definition bd_bits_left (d : bit_decoder) : Z := 8 * zlen (bd_bytes d) - bd_offset d.

Lemma bd_unpack_loop_total fuel size acc n d :
  0 <= bd_offset d < 8 -> 0 <= size -> in_range size acc -> n + bd_offset d <= 8 * Z.of_nat fuel ->
  exists ok v d', bd_unpack_loop fuel size acc n d = Ok (ok, v, d') /\ in_range size v /\ 0 <= bd_offset d' < 8 /\
    bd_bits_left d' <= bd_bits_left d /\ (ok = true -> 0 < n -> bd_bits_left d' < bd_bits_left d).
Proof.
  revert acc n d. induction fuel as [|fuel IH]; intros acc n [bytes o] Ho Hs Hacc Hf; cbn [bd_unpack_loop bd_bytes bd_offset] in *;
    (destruct (n <=? 0) eqn:E0; zbool; [eexists _, _, _; split; [done|]; split; [done|]; cbn; split_and!; try done || lia; intros; lia|]); [lia|].
  destruct bytes as [|byte rest]; [eexists _, _, _; split; [done|]; split; [done|]; cbn; split_and!; done || lia|].
  destruct (n <? 8 - o) eqn:E1; zbool.
  - eexists _, _, _. split; [done|]. split; [apply wrap_range; lia|]. unfold bd_bits_left, field_update. cbn.
    split_and!; lia.
  - destruct (IH (wrap size (acc + wrap size (Z.shiftl (Z.land byte (u8 (Z.shiftl 1 (8 - o) - 1))) (n - 8 + o))))
      (n - (8 - o)) (mk_bit_decoder rest 0)) as (ok & v & d' & -> & Hv & Ho' & Hle & _); cbn [bd_offset]; [lia|lia|apply wrap_range; lia|lia|].
    eexists _, _, _. split; [done|]. unfold bd_bits_left in *. cbn [bd_bytes bd_offset] in *. rewrite zlen_cons.
    split_and!; done || lia.
Qed.

Lemma bd_unpack_total size n d :
  0 <= bd_offset d < 8 -> 0 <= n <= size -> size <= 64 ->
  exists ok v d', bd_unpack size n d = Ok (ok, v, d') /\ in_range size v /\ 0 <= bd_offset d' < 8 /\
    bd_bits_left d' <= bd_bits_left d /\ (ok = true -> 0 < n -> bd_bits_left d' < bd_bits_left d).
Proof.
  intros Ho Hn Hs. unfold bd_unpack. rewrite (proj2 (Z.leb_le n size)) by lia.
  apply bd_unpack_loop_total; [done|lia|unfold in_range; lia|lia].
Qed.

(** The bytes written are the bits, completed with zeros to a whole byte. *)
Lemma encodes_byte_bits e bs :
  encodes e bs -> exists pad, byte_bits (be_bytes e) = bs ++ replicate pad false /\ (pad < 8)%nat.
Proof.
  unfold encodes. destruct (be_offset e =? 0) eqn:E; zbool.
  { intros [_ ->]. exists 0%nat. rewrite app_nil_r. split; [done|lia]. }
  intros (l & c & Ho & Hc & -> & _ & ->). exists (Z.to_nat (8 - be_offset e)). split; [|lia].
  rewrite byte_bits_app, <- app_assoc. f_equal. cbn [byte_bits flat_map]. rewrite app_nil_r.
  replace 8%nat with (Z.to_nat (be_offset e) + Z.to_nat (8 - be_offset e))%nat at 1 by lia.
  rewrite <- (Z2Nat.id (8 - be_offset e)) at 2 by lia. rewrite <- (Z.add_0_r (c * _)).
  rewrite bits_of_cat by lia. f_equal.
  generalize (Z.to_nat (8 - be_offset e)) as k. intros k. induction k as [|k IH]; cbn; [done|].
  by rewrite Z.bits_0, IH.
Qed.

Lemma encodes_decodes e bs :
  encodes e bs -> exists pad, decodes (bit_decoder_new (be_bytes e)) (bs ++ replicate pad false) /\ (pad < 8)%nat.
Proof.
  intros He. destruct (encodes_byte_bits e bs He) as (pad & Hb & Hpad). exists pad. split; [|done].
  rewrite <- Hb. apply decodes_new. by apply encodes_bytes in He.
Qed.

(** Sequences of fields: values and their widths. *)
Fixpoint be_pack_fields (room : Z) (fields : list (Z * Z)) (e : bit_encoder) :
    checked (bool * bit_encoder) :=
  match fields with
  | [] => Ok (true, e)
  | (val, n_bits) :: fields =>
      let? (ok, e) := be_pack room val n_bits e in
      if ok then be_pack_fields room fields e else Ok (false, e)
  end.

Fixpoint bd_unpack_fields (size : Z) (widths : list Z) (d : bit_decoder) :
    checked (option (list Z) * bit_decoder) :=
  match widths with
  | [] => Ok (Some [], d)
  | n_bits :: widths =>
      let? (ok, val, d) := bd_unpack size n_bits d in
      if ok then
        let? (vals, d) := bd_unpack_fields size widths d in
        Ok (option_map (cons val) vals, d)
      else Ok (None, d)
  end.

Definition fields_bits (fields : list (Z * Z)) : list bool :=
  flat_map (fun '(v, n) => bits_of (Z.to_nat n) v) fields.

Definition field_ok (size : Z) (field : Z * Z) : Prop :=
  0 <= field.2 <= size /\ 0 <= field.1 < 2 ^ field.2.

Lemma be_pack_fields_cons room val n fields e e' :
  be_pack_fields room ((val, n) :: fields) e = Ok (true, e') ->
  exists e1, be_pack room val n e = Ok (true, e1) /\ be_pack_fields room fields e1 = Ok (true, e').
Proof. cbn [be_pack_fields]. destruct (be_pack room val n e) as [[[] e1]|]; [by exists e1|done..]. Qed.

Lemma be_pack_fields_spec room fields e bs :
  encodes e bs -> Forall (field_ok 64) fields -> zlen bs + zlen (fields_bits fields) <= 8 * room ->
  exists e', be_pack_fields room fields e = Ok (true, e') /\ encodes e' (bs ++ fields_bits fields).
Proof.
  revert e bs. induction fields as [|[v n] fields IH]; intros e bs He Hf Hr; cbn [be_pack_fields fields_bits flat_map].
  { exists e. by rewrite app_nil_r. }
  apply Forall_cons in Hf as [[Hn Hv] Hf]. cbn in Hn, Hv. cbn [fields_bits flat_map] in Hr.
  fold (fields_bits fields) in *. rewrite zlen_app in Hr. pose proof (zlen_nonneg (fields_bits fields)).
  assert (zlen (bits_of (Z.to_nat n) v) = n) as Hlen by (unfold zlen; rewrite length_bits_of; lia).
  assert (2 ^ n <= 2 ^ 64) by (apply Z.pow_le_mono_r; lia).
  destruct (be_pack_spec room v n e bs He) as (e' & -> & He'); [lia|unfold in_range; lia|lia|].
  cbn [checked_bind]. rewrite app_assoc. apply IH; [done|done|]. rewrite zlen_app. lia.
Qed.

Lemma bd_unpack_fields_spec size fields d bs :
  decodes d (fields_bits fields ++ bs) -> size <= 64 -> Forall (field_ok size) fields ->
  exists d', bd_unpack_fields size fields.*2 d = Ok (Some fields.*1, d') /\ decodes d' bs.
Proof.
  revert d. induction fields as [|[v n] fields IH]; intros d Hd Hs Hf; cbn [bd_unpack_fields fmap list_fmap].
  { by exists d. }
  apply Forall_cons in Hf as [[Hn Hv] Hf]. cbn [fst snd] in *. cbn [fields_bits flat_map] in Hd.
  rewrite <- app_assoc in Hd. destruct (bd_unpack_spec size v n d _ Hd) as (d1 & -> & Hd1); [done|done|done|].
  cbn [checked_bind]. destruct (IH d1 Hd1 Hs Hf) as (d' & -> & Hd'). by exists d'.
Qed.

(** What the encoder packs the decoder unpacks: a sequence of fields of any
    widths up to 64 bits, however they fall on the byte boundaries, fills exactly the
    bytes it needs and reads back as the values packed; reading on past the last
    byte fails. *)
Theorem bit_stream_roundtrip room fields :
  Forall (field_ok 64) fields -> zlen (fields_bits fields) <= 8 * room ->
  exists e d, be_pack_fields room fields bit_encoder_new = Ok (true, e) /\
    be_nof_bits e = zlen (fields_bits fields) /\
    zlen (be_bytes e) = (zlen (fields_bits fields) + 7) / 8 /\
    bd_unpack_fields 64 fields.*2 (bit_decoder_new (be_bytes e)) = Ok (Some fields.*1, d) /\
    forall n, 8 <= n <= 64 -> exists val d', bd_unpack 64 n d = Ok (false, val, d').
Proof.
  intros Hf Hr. destruct (be_pack_fields_spec room fields _ _ encodes_new Hf) as (e & Hp & He); [done|].
  cbn [app] in He. destruct (encodes_decodes e _ He) as (pad & Hd & Hpad).
  destruct (bd_unpack_fields_spec 64 fields _ _ Hd) as (d & Hu & Hd'); [done|done|].
  exists e, d. pose proof (encodes_nof_bits e _ He) as [Hnof Ho]. split; [done|]. split; [done|]. split; [|split; [done|]].
  - unfold be_nof_bits in Hnof. destruct (be_offset e =? 0) eqn:E; zbool; dlia.
  - intros n Hn. apply (bd_unpack_short _ _ _ _ Hd'); [|done]. unfold zlen. rewrite length_replicate. lia.
Qed.

Lemma bit_stream_roundtrip_witness :
  exists e d, be_pack_fields 6 [(0, 1); (0, 3); (0, 4); (5, 32); (1, 1); (0, 1); (1, 1)] bit_encoder_new = Ok (true, e) /\
    be_nof_bits e = 43 /\ zlen (be_bytes e) = 6 /\
    bd_unpack_fields 64 [1; 3; 4; 32; 1; 1; 1] (bit_decoder_new (be_bytes e)) = Ok (Some [0; 0; 0; 5; 1; 0; 1], d) /\
    forall n, 8 <= n <= 64 -> exists val d', bd_unpack 64 n d = Ok (false, val, d').
Proof.
  apply (bit_stream_roundtrip 6 [(0, 1); (0, 3); (0, 4); (5, 32); (1, 1); (0, 1); (1, 1)]); [|by vm_compute].
  repeat constructor; by vm_compute.
Defined.
