(* ===== verification/SecurityEngine.v ===== *)
(** * Security engine

    Models [security_engine_impl] of [src/lib/security/security_engine_impl.cpp] and
    the integrity and ciphering engines it is made of
    ([src/lib/security/integrity_engine_generic.cpp],
    [src/lib/security/integrity_engine_nia2_cmac.cpp],
    [src/lib/security/ciphering_engine_nea1.cpp] to [ciphering_engine_nea3.cpp]): what
    is protected, the order of the two layers, and the errors.  The functions
    that compute a MAC and a key stream are parameters with their laws. *)
From stdpp Require Import base numbers list.
From Stdlib Require Import ZArith Lia.
From S2P Require Import Prelude.

Set Default Goal Selector "!".
Open Scope Z_scope.
Open Scope ran_scope.

(** ** Data *)

Inductive security_error : Type :=
| buffer_failure | engine_failure | integrity_failure | ciphering_failure.
Inductive integrity_algorithm : Type := nia0 | nia1 | nia2 | nia3.
Inductive ciphering_algorithm : Type := nea0 | nea1 | nea2 | nea3.
Inductive sec_domain : Type := sec_domain_rrc | sec_domain_up.
Inductive security_direction : Type := direction_uplink | direction_downlink.

#[export] Instance security_error_eq_dec : EqDecision security_error.
Proof. solve_decision. Defined.
#[export] Instance integrity_algorithm_eq_dec : EqDecision integrity_algorithm.
Proof. solve_decision. Defined.
#[export] Instance ciphering_algorithm_eq_dec : EqDecision ciphering_algorithm.
Proof. solve_decision. Defined.
#[export] Instance sec_domain_eq_dec : EqDecision sec_domain.
Proof. solve_decision. Defined.

Record security_result := mk_security_result {
  sr_buf : list Z + security_error;
  sr_count : Z;
}.

Record sec_128_as_config := mk_sec_128_as_config {
  sec_config_domain : sec_domain;
  k_128_int : option (list Z);
  k_128_enc : list Z;
  integ_algo : option integrity_algorithm;
  cipher_algo : ciphering_algorithm;
}.

Definition sec_mac_len : Z := 4.

(** The algorithms, by key, COUNT, bearer, direction and message: a MAC, or the
    error of the library that computes it; the message combined with the key stream,
    or [None] when the library fails. *)
Class SecurityAlgorithms : Type := {
  nia : integrity_algorithm -> list Z -> Z -> Z -> security_direction -> list Z ->
        list Z + security_error;
  nea : ciphering_algorithm -> list Z -> Z -> Z -> security_direction -> list Z ->
        option (list Z);
}.

(** A MAC has four bytes; combining with the key stream again restores the message. *)
Class SecurityLaws `{SecurityAlgorithms} : Prop := {
  nia_length algo key count bearer direction msg mac :
    nia algo key count bearer direction msg = inl mac -> zlen mac = sec_mac_len;
  nea_involutive algo key count bearer direction msg msg' :
    nea algo key count bearer direction msg = Some msg' ->
    zlen msg' = zlen msg /\ nea algo key count bearer direction msg' = Some msg;
}.

(** ** Engines *)

Record integrity_engine := mk_integrity_engine {
  ie_algo : integrity_algorithm;
  ie_key : list Z;
  ie_bearer : Z;
  ie_direction : security_direction;
}.
Record ciphering_engine := mk_ciphering_engine {
  ce_algo : ciphering_algorithm;
  ce_key : list Z;
  ce_bearer : Z;
  ce_direction : security_direction;
}.
Record security_engine := mk_security_engine {
  integ_eng : option integrity_engine;
  cipher_eng : option ciphering_engine;
}.

Section security_engine.
Context `{SecurityAlgorithms}.

(** The MAC of NIA0 is zero. *)
Definition compute_mac (eng : integrity_engine) (msg : list Z) (count : Z) : list Z + security_error :=
  match ie_algo eng with
  | nia0 => inl [0; 0; 0; 0]
  | algo => nia algo (ie_key eng) count (ie_bearer eng) (ie_direction eng) msg
  end.

(** [append] tells whether the buffer takes the MAC; when it does not, the error
    result is logged as if it were a buffer. *)
Definition protect_integrity (append : bool) (eng : integrity_engine) (buf : list Z) (count : Z) :
    checked security_result :=
  match compute_mac eng buf count with
  | inr err => Ok (mk_security_result (inr err) count)
  | inl mac => if append then Ok (mk_security_result (inl (buf ++ mac)) count) else Panic
  end.

Definition verify_integrity (eng : integrity_engine) (buf : list Z) (count : Z) : security_result :=
  if zlen buf <=? sec_mac_len then mk_security_result (inr integrity_failure) count else
  let len := Z.to_nat (zlen buf - sec_mac_len) in
  match compute_mac eng (take len buf) count with
  | inr err => mk_security_result (inr err) count
  | inl mac =>
      if bool_decide (mac = drop len buf) then mk_security_result (inl (take len buf)) count
      else mk_security_result (inr integrity_failure) count
  end.

(** The header in front of [offset] stays in clear. *)
Definition apply_ciphering (eng : ciphering_engine) (buf : list Z) (offset count : Z) :
    security_result :=
  let o := Z.to_nat offset in
  match nea (ce_algo eng) (ce_key eng) count (ce_bearer eng) (ce_direction eng) (drop o buf) with
  | Some msg => mk_security_result (inl (take o buf ++ msg)) count
  | None => mk_security_result (inr ciphering_failure) count
  end.

(** The constructor of [security_engine_impl]: the key and the algorithm of the
    integrity protection must be present when it is enabled. *)
Definition security_engine_impl (sec_cfg : sec_128_as_config) (bearer_id : Z)
    (direction : security_direction) (integrity_enabled ciphering_enabled : bool) :
    checked security_engine :=
  let? integ :=
    (if integrity_enabled then
       match integ_algo sec_cfg, k_128_int sec_cfg with
       | Some algo, Some key => Ok (Some (mk_integrity_engine algo key bearer_id direction))
       | _, _ => Panic
       end
     else Ok None) in
  let cipher :=
    if ciphering_enabled then
      match cipher_algo sec_cfg with
      | nea0 => None
      | algo => Some (mk_ciphering_engine algo (k_128_enc sec_cfg) bearer_id direction)
      end
    else None in
  Ok (mk_security_engine integ cipher).

Definition encrypt_and_protect_integrity (append : bool) (eng : security_engine) (buf : list Z)
    (offset count : Z) : checked security_result :=
  let? result :=
    (match integ_eng eng with
     | Some integ => protect_integrity append integ buf count
     | None => Ok (mk_security_result (inl buf) count)
     end) in
  match sr_buf result, cipher_eng eng with
  | inl buf, Some cipher => Ok (apply_ciphering cipher buf offset (sr_count result))
  | _, _ => Ok result
  end.

Definition decrypt_and_verify_integrity (eng : security_engine) (buf : list Z) (offset count : Z) :
    security_result :=
  let result :=
    match cipher_eng eng with
    | Some cipher => apply_ciphering cipher buf offset count
    | None => mk_security_result (inl buf) count
    end in
  match sr_buf result, integ_eng eng with
  | inl buf, Some integ => verify_integrity integ buf (sr_count result)
  | _, _ => result
  end.

(** ** Properties *)

Lemma compute_mac_length `{!SecurityLaws} eng msg count mac :
  compute_mac eng msg count = inl mac -> zlen mac = sec_mac_len.
Proof. unfold compute_mac. destruct (ie_algo eng); [by intros [= <-]|by intros ?%nia_length..]. Qed.

Lemma split_at_tail {A} (l l' : list A) :
  let n := Z.to_nat (zlen (l ++ l') - zlen l') in take n (l ++ l') = l /\ drop n (l ++ l') = l'.
Proof.
  intros n. assert (n = length l) as -> by (unfold n; rewrite zlen_app; unfold zlen; lia).
  by rewrite take_app_length, drop_app_length.
Qed.

Lemma verify_protected `{!SecurityLaws} eng buf count mac :
  buf <> [] -> compute_mac eng buf count = inl mac ->
  verify_integrity eng (buf ++ mac) count = mk_security_result (inl buf) count.
Proof.
  intros Hbuf Hmac. pose proof (compute_mac_length _ _ _ _ Hmac) as Hl.
  unfold verify_integrity. rewrite zlen_app, Hl.
  rewrite (proj2 (Z.leb_gt _ _)) by (destruct buf; [done|rewrite zlen_cons; pose proof (zlen_nonneg buf); lia]).
  destruct (split_at_tail buf mac) as [Ht Hd]. rewrite zlen_app, Hl in Ht, Hd. rewrite Ht, Hd, Hmac.
  by rewrite bool_decide_eq_true_2.
Qed.

Lemma cipher_restores `{!SecurityLaws} eng buf offset count buf' :
  0 <= offset <= zlen buf -> sr_buf (apply_ciphering eng buf offset count) = inl buf' ->
  zlen buf' = zlen buf /\ take (Z.to_nat offset) buf' = take (Z.to_nat offset) buf /\
  apply_ciphering eng buf' offset count = mk_security_result (inl buf) count.
Proof.
  intros Ho. unfold apply_ciphering. destruct (nea _ _ _ _ _ _) as [msg|] eqn:E; [|done]. cbn [sr_buf].
  intros [= <-]. apply nea_involutive in E as [El E].
  assert (length (take (Z.to_nat offset) buf) = Z.to_nat offset) as Hl.
  { rewrite length_take. unfold zlen in Ho. lia. }
  split_and!.
  - rewrite zlen_app, El, zlen_drop by done. unfold zlen in *. rewrite Hl. lia.
  - by rewrite take_app_length'.
  - rewrite drop_app_length', take_app_length' by done. by rewrite E, take_drop.
Qed.

(** The ciphering of both directions of a bearer, as one relation. *)
Definition ciphered (eng : security_engine) (offset count : Z) (buf pdu : list Z) : Prop :=
  match cipher_eng eng with
  | Some cipher => sr_buf (apply_ciphering cipher buf offset count) = inl pdu
  | None => buf = pdu
  end.

Lemma ciphered_sym `{!SecurityLaws} eng offset count buf pdu :
  0 <= offset <= zlen buf -> ciphered eng offset count buf pdu ->
  zlen pdu = zlen buf /\ take (Z.to_nat offset) pdu = take (Z.to_nat offset) buf /\
  ciphered eng offset count pdu buf.
Proof.
  unfold ciphered. intros Ho. destruct (cipher_eng eng) as [c|]; [|by intros ->].
  intros (Hl & Ht & E)%cipher_restores; [|done]. by rewrite E.
Qed.

Lemma encrypt_spec `{!SecurityLaws} eng buf offset count pdu :
  encrypt_and_protect_integrity true eng buf offset count = Ok (mk_security_result (inl pdu) count) <->
  match integ_eng eng with
  | Some integ => exists mac, compute_mac integ buf count = inl mac /\ ciphered eng offset count (buf ++ mac) pdu
  | None => ciphered eng offset count buf pdu
  end.
Proof.
  unfold encrypt_and_protect_integrity, protect_integrity, ciphered.
  assert (forall b, match cipher_eng eng with
    | Some cipher => Ok (apply_ciphering cipher b offset count) | None => Ok (mk_security_result (inl b) count) end =
      Ok (mk_security_result (inl pdu) count) <->
    match cipher_eng eng with
    | Some cipher => sr_buf (apply_ciphering cipher b offset count) = inl pdu | None => b = pdu end) as Hc.
  { intros b. destruct (cipher_eng eng) as [c|]; [|split; [by intros [= ->]|by intros ->]].
    unfold apply_ciphering. destruct (nea _ _ _ _ _ _); cbn; split; congruence. }
  destruct (integ_eng eng) as [integ|]; [|apply Hc].
  destruct (compute_mac integ buf count) as [mac|err] eqn:E; cbn.
  - rewrite Hc. split; [by exists mac|by intros (? & [= <-] & ?)].
  - split; [done|by intros (? & ? & _)].
Qed.

Lemma verify_spec `{!SecurityLaws} eng d count buf :
  verify_integrity eng d count = mk_security_result (inl buf) count <->
  buf <> [] /\ exists mac, compute_mac eng buf count = inl mac /\ d = buf ++ mac.
Proof.
  split.
  - unfold verify_integrity. destruct (zlen d <=? sec_mac_len) eqn:E; [done|]. zbool.
    destruct (compute_mac _ _ _) as [mac|] eqn:Em; [|done]. case_bool_decide as Ed; [|done].
    intros [= <-]. split.
    + intros Hnil. apply (f_equal length) in Hnil. rewrite length_take in Hnil.
      unfold zlen, sec_mac_len in E. cbn in Hnil. unfold zlen, sec_mac_len in Hnil. lia.
    + exists mac. rewrite Em, Ed. by rewrite take_drop.
  - intros (Hbuf & mac & Hm & ->). by apply verify_protected.
Qed.

Lemma decrypt_spec `{!SecurityLaws} eng pdu offset count buf :
  decrypt_and_verify_integrity eng pdu offset count = mk_security_result (inl buf) count <->
  match integ_eng eng with
  | Some integ => exists d, ciphered eng offset count pdu d /\
      verify_integrity integ d count = mk_security_result (inl buf) count
  | None => ciphered eng offset count pdu buf
  end.
Proof.
  unfold decrypt_and_verify_integrity, ciphered. destruct (cipher_eng eng) as [c|]; cbn.
  - unfold apply_ciphering. destruct (nea _ _ _ _ _ _) as [msg|]; cbn.
    + destruct (integ_eng eng) as [i|]; [|split; [by intros [= ->]|by intros [= ->]]].
      split; [by eexists|by intros (d & [= <-] & ?)].
    + destruct (integ_eng eng) as [i|]; [|split; congruence]. split; [congruence|by intros (? & ? & _)].
  - destruct (integ_eng eng) as [i|]; [|split; [by intros [= ->]|by intros ->]].
    split; [by eexists|by intros (d & <- & ?)].
Qed.

(** What is opened is shorter than the PDU by the MAC. *)
Lemma decrypt_length `{!SecurityLaws} eng pdu offset count msg :
  0 <= offset <= zlen pdu ->
  sr_buf (decrypt_and_verify_integrity eng pdu offset count) = inl msg ->
  zlen pdu = zlen msg + match integ_eng eng with Some _ => sec_mac_len | None => 0 end.
Proof.
  intros Ho. unfold decrypt_and_verify_integrity.
  assert (exists d, match cipher_eng eng with
    | Some cipher => apply_ciphering cipher pdu offset count | None => mk_security_result (inl pdu) count end =
    mk_security_result d count /\ (forall b, d = inl b -> zlen b = zlen pdu)) as (d & -> & Hd).
  { destruct (cipher_eng eng) as [c|]; [|exists (inl pdu); split; [done|by intros b [= <-]]].
    unfold apply_ciphering. destruct (nea _ _ _ _ _ _) as [m|] eqn:E; [|eexists; split; done].
    eexists. split; [done|]. intros b [= <-]. apply nea_involutive in E as [El _].
    rewrite zlen_app, El, <- zlen_app. by rewrite take_drop. }
  cbn [sr_buf sr_count]. destruct d as [b|err]; cbn [sr_buf]; [|done]. specialize (Hd b eq_refl).
  destruct (integ_eng eng) as [integ|]; cbn [sr_buf]; [|intros [= <-]; lia].
  unfold verify_integrity. destruct (zlen b <=? sec_mac_len) eqn:E; [done|]. zbool.
  destruct (compute_mac _ _ _); [|done]. case_bool_decide; [|done]. cbn [sr_buf]. intros [= <-].
  unfold zlen, sec_mac_len in *. rewrite length_take. lia.
Qed.

Lemma verify_count eng buf count : sr_count (verify_integrity eng buf count) = count.
Proof.
  unfold verify_integrity. destruct (_ <=? _); [done|]. destruct (compute_mac _ _ _); [|done]. by case_bool_decide.
Qed.
Lemma decrypt_count eng pdu offset count :
  sr_count (decrypt_and_verify_integrity eng pdu offset count) = count.
Proof.
  assert (forall c, sr_count (apply_ciphering c pdu offset count) = count) as Hc.
  { intros c. unfold apply_ciphering. by destruct (nea _ _ _ _ _ _). }
  unfold decrypt_and_verify_integrity. destruct (cipher_eng eng) as [c|].
  - destruct (sr_buf _), (integ_eng eng); rewrite ?verify_count; apply Hc.
  - cbn. destruct (integ_eng eng); [apply verify_count|done].
Qed.

Lemma decrypt_result eng pdu offset count msg :
  sr_buf (decrypt_and_verify_integrity eng pdu offset count) = inl msg ->
  decrypt_and_verify_integrity eng pdu offset count = mk_security_result (inl msg) count.
Proof.
  intros Hb. pose proof (decrypt_count eng pdu offset count) as Hc.
  destruct (decrypt_and_verify_integrity _ _ _ _). cbn in Hb, Hc. by subst.
Qed.

(** The PDU and its message have the lengths that the engines give them. *)
Lemma ciphered_length `{!SecurityLaws} eng offset count b pdu :
  ciphered eng offset count b pdu -> zlen b = zlen pdu.
Proof.
  unfold ciphered. destruct (cipher_eng eng) as [c|]; [|by intros ->]. unfold apply_ciphering.
  destruct (nea _ _ _ _ _ _) as [msg|] eqn:E; [|done]. intros [= <-]. apply nea_involutive in E as [El _].
  rewrite zlen_app, El, <- zlen_app. by rewrite take_drop.
Qed.

Lemma ciphered_comm `{!SecurityLaws} eng offset count b pdu :
  0 <= offset <= zlen pdu -> ciphered eng offset count b pdu <-> ciphered eng offset count pdu b.
Proof.
  intros Ho. split; intros Hc; pose proof (ciphered_length _ _ _ _ _ Hc); apply ciphered_sym in Hc as (_ & _ & ?); done || lia.
Qed.

Lemma security_iff `{!SecurityLaws} eng buf pdu offset count :
  buf <> [] -> 0 <= offset <= zlen pdu ->
  encrypt_and_protect_integrity true eng buf offset count = Ok (mk_security_result (inl pdu) count) <->
  decrypt_and_verify_integrity eng pdu offset count = mk_security_result (inl buf) count.
Proof.
  intros Hbuf Ho. rewrite encrypt_spec, decrypt_spec. destruct (integ_eng eng) as [integ|]; [|by apply ciphered_comm].
  split.
  - intros (mac & Hm & Hc). exists (buf ++ mac). split; [by apply (ciphered_comm eng offset count (buf ++ mac) pdu Ho)|].
    by apply verify_spec; split; [|exists mac].
  - intros (d & Hc & (_ & mac & Hm & ->)%verify_spec). exists mac. split; [done|]. by apply (ciphered_comm eng offset count (buf ++ mac) pdu Ho).
Qed.

(** The bytes in front of the offset are in clear. *)
Lemma security_clear `{!SecurityLaws} eng buf pdu offset count :
  0 <= offset <= zlen pdu -> decrypt_and_verify_integrity eng pdu offset count = mk_security_result (inl buf) count ->
  offset <= zlen buf -> take (Z.to_nat offset) pdu = take (Z.to_nat offset) buf.
Proof.
  intros Ho Hd Hob. apply decrypt_spec in Hd. destruct (integ_eng eng) as [integ|].
  - destruct Hd as (d & Hc & (_ & mac & Hm & ->)%verify_spec).
    apply ciphered_sym in Hc as (El & Et & _); [|done]. rewrite take_app_le in Et by (unfold zlen in Hob; lia). done.
  - apply ciphered_sym in Hd as (_ & Et & _); done.
Qed.

(** C12. The two directions of a security engine are inverse to each other: for
    every COUNT, a receiver with the keys of the sender accepts a PDU as the message
    [buf] exactly when the sender turns [buf] into that PDU.  So what was sent is
    restored, and with integrity protection nothing else is accepted; the bytes in
    front of the offset, the PDCP header, travel in clear, and the PDU is longer than
    the message by the MAC. *)
Theorem security_exact `{!SecurityLaws} eng buf pdu offset count :
  buf <> [] -> 0 <= offset <= zlen pdu ->
  (encrypt_and_protect_integrity true eng buf offset count = Ok (mk_security_result (inl pdu) count) <->
   decrypt_and_verify_integrity eng pdu offset count = mk_security_result (inl buf) count) /\
  (decrypt_and_verify_integrity eng pdu offset count = mk_security_result (inl buf) count ->
   offset <= zlen buf -> take (Z.to_nat offset) pdu = take (Z.to_nat offset) buf /\
   zlen pdu = zlen buf + match integ_eng eng with Some _ => sec_mac_len | None => 0 end).
Proof.
  intros Hbuf Ho. split; [by apply security_iff|]. intros Hd Hob. split; [by apply (security_clear eng buf pdu offset count)|].
  by apply (decrypt_length _ _ offset count); [|rewrite Hd].
Qed.
End security_engine.

(** ** A concrete instance

    Algorithms simple enough to evaluate, which have the laws. *)
Definition sum_mac (key : list Z) (count : Z) (msg : list Z) : list Z :=
  [foldl Z.lxor 0 key; count mod 256; foldl Z.lxor 0 msg; zlen msg mod 256].

Definition xor_algorithms : SecurityAlgorithms := {|
  nia algo key count bearer direction msg := inl (sum_mac key count msg);
  nea algo key count bearer direction msg :=
    Some (map (fun b => Z.lxor b (Z.lxor (count mod 256) (foldl Z.lxor 0 key))) msg);
|}.

Lemma xor_laws : @SecurityLaws xor_algorithms.
Proof.
  split.
  - intros ? key count ? ? msg mac [= <-]. done.
  - intros ? key count ? ? msg msg' [= <-]. split; [unfold zlen; by rewrite length_map|].
    cbn. f_equal. rewrite map_map. rewrite <- (map_id msg) at 2. apply map_ext. intros b.
    by rewrite Z.lxor_assoc, Z.lxor_nilpotent, Z.lxor_0_r.
Qed.

Definition xor_engine : security_engine :=
  mk_security_engine (Some (mk_integrity_engine nia2 [1; 2] 0 direction_uplink))
    (Some (mk_ciphering_engine nea2 [7; 9] 0 direction_uplink)).

Lemma security_exact_witness :
  @decrypt_and_verify_integrity xor_algorithms xor_engine [128; 5; 33; 8; 14; 164; 8] 2 5 =
    mk_security_result (inl [128; 5; 42]) 5.
Proof.
  apply (@security_exact xor_algorithms xor_laws xor_engine [128; 5; 42] [128; 5; 33; 8; 14; 164; 8] 2 5);
    [done|by vm_compute|by vm_compute].
Defined.
