(* ===== verification/PdcpPdu.v ===== *)
(** * PDCP: counts and PDU headers

    Models [src/lib/pdcp/pdcp_sn.h], the header fields of [src/lib/pdcp/pdcp_pdu.h],
    the sizes of [src/lib/pdcp/pdcp_entity_tx_rx_base.h] and the header helpers of the
    two entities: the split of a COUNT into HFN and SN, its estimation from an SN,
    and the data PDU header, written, read back, and read by the RLC. *)
From stdpp Require Import base numbers list.
From Stdlib Require Import ZArith Lia.
From S2P Require Import Prelude.
From S2P Require Import PdcpSn.

Set Default Goal Selector "!".
Open Scope Z_scope.
Open Scope ran_scope.

(** ** Configuration types *)

Inductive pdcp_rb_type : Type := rb_srb | rb_drb.
Inductive pdcp_rlc_mode : Type := rlc_mode_um | rlc_mode_am.
#[export] Instance pdcp_rb_type_eq_dec : EqDecision pdcp_rb_type.
Proof. solve_decision. Defined.
#[export] Instance pdcp_rlc_mode_eq_dec : EqDecision pdcp_rlc_mode.
Proof. solve_decision. Defined.

(** ** COUNT, HFN and SN *)

Definition pdcp_compute_sn (count : Z) (sn_size : pdcp_sn_size) : Z :=
  Z.land count (Z.shiftr 0xffffffff (32 - pdcp_to_number sn_size)).
Definition pdcp_compute_hfn (count : Z) (sn_size : pdcp_sn_size) : Z :=
  Z.shiftr count (pdcp_to_number sn_size).
Definition pdcp_compute_count (hfn sn : Z) (sn_size : pdcp_sn_size) : Z :=
  Z.lor (u32 (Z.shiftl hfn (pdcp_to_number sn_size))) sn.
Definition pdcp_sn_cardinality (sn_size : pdcp_sn_size) : Z :=
  Z.shiftl 1 (pdcp_to_number sn_size).

Definition pdcp_window_size (sn_size : pdcp_sn_size) : Z :=
  match sn_size with
  | pdcp_size12bits => 2048
  | pdcp_size18bits => 131072
  | pdcp_size_invalid => 2048
  end.
Definition pdcp_data_pdu_header_size (sn_size : pdcp_sn_size) : Z :=
  match sn_size with
  | pdcp_size12bits => 2
  | pdcp_size18bits => 3
  | pdcp_size_invalid => 2
  end.

(** The COUNT of an SN near [base]: the estimation that the receiving entity makes
    from RX_DELIV, and the transmitting one from the lower edge of its window. *)
Definition pdcp_estimate_count (sn_size : pdcp_sn_size) (base sn : Z) : Z :=
  let base_sn := pdcp_compute_sn base sn_size in
  let base_hfn := pdcp_compute_hfn base sn_size in
  let hfn := if sn <? base_sn - pdcp_window_size sn_size then u32 (base_hfn + 1)
             else if u32 (base_sn + pdcp_window_size sn_size) <=? sn then u32 (base_hfn - 1)
             else base_hfn in
  pdcp_compute_count hfn sn sn_size.

(** ** Header fields *)

Definition pdcp_dc_control : Z := 0.
Definition pdcp_dc_data : Z := 1.
Definition pdcp_pdu_get_dc (first_byte : Z) : Z := Z.land (Z.shiftr first_byte 7) 0x01.

Definition pdcp_control_status_report : Z := 0.
Definition pdcp_control_pdu_get_cpt (first_byte : Z) : Z := Z.land (Z.shiftr first_byte 4) 0x07.

Definition pdcp_control_pdu_max_size : Z := 9000.

(** The bytes written in front of the SDU. *)
Definition pdcp_write_data_pdu_header (is_srb : bool) (sn_size : pdcp_sn_size) (sn : Z) :
    checked (list Z) :=
  assert? negb (is_srb && bool_decide (sn_size = pdcp_size18bits));
  let dc := if is_srb then 0x00 else 0x80 in
  match sn_size with
  | pdcp_size12bits =>
      Ok [Z.lor dc (Z.shiftr (Z.land sn 0xf00) 8); Z.land sn 0xff]
  | pdcp_size18bits =>
      Ok [Z.lor dc (Z.shiftr (Z.land sn 0x30000) 16); Z.shiftr (Z.land sn 0xff00) 8; Z.land sn 0xff]
  | pdcp_size_invalid => Ok []
  end.

(** [None]: the function returns false. *)
Definition pdcp_read_data_pdu_header (sn_size : pdcp_sn_size) (buf : list Z) : option Z :=
  if zlen buf <=? pdcp_data_pdu_header_size sn_size then None else
  match sn_size, buf with
  | pdcp_size12bits, b0 :: b1 :: _ => Some (Z.lor (Z.shiftl (Z.land b0 0x0f) 8) (Z.land b1 0xff))
  | pdcp_size18bits, b0 :: b1 :: b2 :: _ =>
      Some (Z.lor (Z.lor (Z.shiftl (Z.land b0 0x03) 16) (Z.shiftl (Z.land b1 0xff) 8)) (Z.land b2 0xff))
  | _, _ => None
  end.

(** ** Properties *)

(** A configured length of sequence numbers. *)
Definition sn_size_ok (sn_size : pdcp_sn_size) : Prop := sn_size <> pdcp_size_invalid.

Lemma pdcp_sizes sn_size :
  sn_size_ok sn_size ->
  12 <= pdcp_to_number sn_size <= 18 /\
  2 ^ pdcp_to_number sn_size = 2 * pdcp_window_size sn_size /\
  2048 <= pdcp_window_size sn_size <= 131072.
Proof.
  unfold sn_size_ok, pdcp_to_number, pdcp_window_size. intros Hsz. destruct sn_size; [..|done]; (split; [lia|split; lia]).
Qed.

Lemma compute_sn_spec count sn_size :
  sn_size_ok sn_size -> pdcp_compute_sn count sn_size = count mod 2 ^ pdcp_to_number sn_size.
Proof.
  intros Hsz. unfold pdcp_compute_sn.
  assert (Z.shiftr 0xffffffff (32 - pdcp_to_number sn_size) = Z.ones (pdcp_to_number sn_size)) as ->
    by (by destruct sn_size).
  apply Z.land_ones. destruct (pdcp_sizes sn_size Hsz). lia.
Qed.

Lemma compute_hfn_spec count sn_size :
  sn_size_ok sn_size -> pdcp_compute_hfn count sn_size = count / 2 ^ pdcp_to_number sn_size.
Proof. intros Hsz. apply Z.shiftr_div_pow2. destruct (pdcp_sizes sn_size Hsz). lia. Qed.

Lemma compute_count_spec hfn sn sn_size :
  sn_size_ok sn_size -> 0 <= sn < 2 ^ pdcp_to_number sn_size ->
  pdcp_compute_count hfn sn sn_size = u32 (hfn * 2 ^ pdcp_to_number sn_size) + sn.
Proof.
  intros Hsz Hsn. destruct (pdcp_sizes sn_size Hsz) as (Hn & _). unfold pdcp_compute_count.
  rewrite Z.shiftl_mul_pow2 by lia. set (n := pdcp_to_number sn_size) in *.
  assert (u32 (hfn * 2 ^ n) = (hfn mod 2 ^ (32 - n)) * 2 ^ n) as ->.
  { unfold wrap. replace 32 with ((32 - n) + n) at 1 by lia. rewrite Z.pow_add_r by lia.
    by rewrite Z.mul_mod_distr_r by lia. }
  rewrite (lor_disjoint n); [done|lia|apply Z.mod_mul; lia|done].
Qed.

(** The COUNT is recovered from its SN within a window of the base; an SN that would
    lie below zero gives a COUNT at the top of the range. *)
Lemma estimate_count_spec sn_size base count :
  sn_size_ok sn_size -> is_u32 base -> is_u32 count ->
  base - pdcp_window_size sn_size <= count < base + pdcp_window_size sn_size ->
  pdcp_estimate_count sn_size base (pdcp_compute_sn count sn_size) = count.
Proof.
  intros Hsz Hb Hc Hwin. destruct (pdcp_sizes sn_size Hsz) as (Hn & Hw & Hw').
  unfold pdcp_estimate_count. rewrite !compute_sn_spec, !compute_hfn_spec by done.
  set (n := pdcp_to_number sn_size) in *. set (w := pdcp_window_size sn_size) in *.
  assert (0 < 2 ^ n) as Hpos by lia.
  pose proof (Z.mod_pos_bound base (2 ^ n) Hpos). pose proof (Z.mod_pos_bound count (2 ^ n) Hpos).
  pose proof (Z.div_mod base (2 ^ n) ltac:(lia)) as Eb. pose proof (Z.div_mod count (2 ^ n) ltac:(lia)) as Ec.
  set (hb := base / 2 ^ n) in *. set (hc := count / 2 ^ n) in *.
  set (sb := base mod 2 ^ n) in *. set (sc := count mod 2 ^ n) in *.
  unfold in_range in *. rewrite (wrap_small 32 (sb + w)) by (unfold in_range; lia).
  set (p := 2 ^ n) in *. assert ((hc - hb) * p = count - base - (sc - sb)) as Ed by lia.
  assert (0 <= hb) as H1 by (apply Z.div_pos; lia). assert (0 <= hc) as H2 by (apply Z.div_pos; lia).
  assert (hc < 2 ^ 32) as H3 by (apply Z.div_lt_upper_bound; lia).
  assert (hc * p <= count) as H4 by lia. assert (0 <= hc * p) as H5 by (apply Z.mul_nonneg_nonneg; lia).
  assert (forall k, (k - 1) * p < (hc - hb) * p < (k + 1) * p -> hc = hb + k) as Hk.
  { intros k [K1%Z.mul_lt_mono_pos_r K2%Z.mul_lt_mono_pos_r]; lia. }
  assert (forall h, h = hc -> pdcp_compute_count h sc sn_size = count) as Hfin.
  { intros h ->. rewrite compute_count_spec by done. fold n. fold p. rewrite wrap_small by (unfold in_range; lia). lia. }
  destruct (sc <? sb - w) eqn:E1; zbool.
  - assert (hc = hb + 1) by (apply Hk; lia). apply Hfin. rewrite wrap_small by (unfold in_range; lia). lia.
  - destruct (sb + w <=? sc) eqn:E2; zbool.
    + assert (hc = hb + -1) by (apply Hk; lia). apply Hfin. rewrite wrap_small by (unfold in_range; lia). lia.
    + assert (hc = hb + 0) by (apply Hk; lia). rewrite Z.add_0_r in *. by apply Hfin.
Qed.

(** Whatever the SN, its estimated COUNT has that SN, and does not lie a window or more
    above the base, unless it is at the top of the range. *)
Lemma estimate_count_bound sn_size base sn :
  sn_size_ok sn_size -> is_u32 base -> 0 <= sn < 2 ^ pdcp_to_number sn_size ->
  let count := pdcp_estimate_count sn_size base sn in
  is_u32 count /\ pdcp_compute_sn count sn_size = sn /\
  (count < base + pdcp_window_size sn_size \/ 2 ^ 32 - pdcp_window_size sn_size <= count).
Proof.
  intros Hsz Hb Hsn count. destruct (pdcp_sizes sn_size Hsz) as (Hn & Hw & Hw').
  unfold count, pdcp_estimate_count. clear count. rewrite !compute_sn_spec, !compute_hfn_spec by done.
  set (n := pdcp_to_number sn_size) in *. set (w := pdcp_window_size sn_size) in *.
  assert (2 ^ 32 = 2 ^ (32 - n) * 2 ^ n) as E32 by (rewrite <- Z.pow_add_r by lia; f_equal; lia).
  assert (0 < 2 ^ (32 - n)) as Hk by (apply Z.pow_pos_nonneg; lia).
  pose proof (Z.mod_pos_bound base (2 ^ n) ltac:(lia)). pose proof (Z.div_mod base (2 ^ n) ltac:(lia)) as Eb.
  set (hb := base / 2 ^ n) in *. set (sb := base mod 2 ^ n) in *. set (p := 2 ^ n) in *. set (k := 2 ^ (32 - n)) in *.
  unfold in_range in *. rewrite (wrap_small 32 (sb + w)) by (unfold in_range; lia).
  assert (0 <= hb < k) as Hhb by (split; [apply Z.div_pos; lia|apply Z.div_lt_upper_bound; lia]).
  assert (forall h, 0 <= h < k -> pdcp_compute_count h sn sn_size = h * p + sn /\ 0 <= h * p /\ h * p + p <= 2 ^ 32 /\
    (h * p + sn) mod p = sn) as Hc.
  { intros h Hh. assert (0 <= h * p) as H1 by nia. assert (h * p + p <= 2 ^ 32) as H2 by nia.
    split; [|split_and!; [lia|lia|by rewrite Z.add_comm, Z_mod_plus_full, Z.mod_small by lia]].
    rewrite compute_count_spec by done. fold n. fold p. by rewrite wrap_small by (unfold in_range; lia). }
  assert (forall h, h mod k = 0 -> pdcp_compute_count h sn sn_size = sn) as Hc0.
  { intros h Hh. rewrite compute_count_spec by done. fold n. fold p. unfold wrap. rewrite E32.
    rewrite Z.mul_mod_distr_r by lia. rewrite Hh. lia. }
  destruct (sn <? sb - w) eqn:E1; zbool; [|destruct (sb + w <=? sn) eqn:E2; zbool].
  - destruct (decide (hb + 1 = k)) as [Hk1|].
    + rewrite Hc0; [|rewrite wrap_small by (unfold in_range; nia); rewrite Hk1; apply Z_mod_same_full].
      rewrite Z.mod_small by lia. split_and!; lia || (left; nia).
    + rewrite wrap_small by (unfold in_range; nia). destruct (Hc (hb + 1)) as (-> & ? & ? & Em); [lia|].
      rewrite Em. split_and!; [lia..|left; nia].
  - destruct (decide (hb = 0)) as [Hz|].
    + assert (pdcp_compute_count (u32 (hb - 1)) sn sn_size = 2 ^ 32 - p + sn) as ->.
      { rewrite compute_count_spec by done. fold n. fold p. rewrite Hz. change (u32 (0 - 1)) with (2 ^ 32 - 1).
        replace ((2 ^ 32 - 1) * p) with (2 ^ 32 - p + (p - 1) * 2 ^ 32) by lia.
        unfold wrap. rewrite Z_mod_plus_full, Z.mod_small by nia. done. }
      assert ((2 ^ 32 - p + sn) mod p = sn) as ->.
      { replace (2 ^ 32 - p + sn) with (sn + (k - 1) * p) by lia. by rewrite Z_mod_plus_full, Z.mod_small by lia. }
      split_and!; [nia|nia|done|right; lia].
    + rewrite wrap_small by (unfold in_range; nia). destruct (Hc (hb - 1)) as (-> & ? & ? & Em); [lia|].
      rewrite Em. split_and!; [lia..|left; nia].
  - destruct (Hc hb) as (-> & ? & ? & Em); [lia|]. rewrite Em.
    split_and!; [lia..|left; lia].
Qed.

(** ** The data PDU header *)

(** The header of a configured bearer. *)
Definition pdcp_header (is_srb : bool) (sn_size : pdcp_sn_size) (sn : Z) : list Z :=
  match pdcp_write_data_pdu_header is_srb sn_size sn with Ok h => h | Panic => [] end.

Definition bearer_ok (is_srb : bool) (sn_size : pdcp_sn_size) : Prop :=
  sn_size_ok sn_size /\ (is_srb = true -> sn_size = pdcp_size12bits).

(** Equality of lists of bytes, byte by byte. *)
Ltac bytes_eq := repeat match goal with |- ?a :: _ = ?b :: _ => replace a with b by dlia; apply f_equal end; done.

Lemma sn_mask_12 x : Z.land x 0xf00 = (x / 256) mod 16 * 256.
Proof. apply (land_field x 8 4); lia. Qed.
Lemma sn_mask_18 x : Z.land x 0x30000 = (x / 65536) mod 4 * 65536.
Proof. apply (land_field x 16 2); lia. Qed.
Lemma sn_mask_mid x : Z.land x 0xff00 = (x / 256) mod 256 * 256.
Proof. apply (land_field x 8 8); lia. Qed.

Lemma lor_low dc x : dc = 0 \/ dc = 128 -> 0 <= x < 128 -> Z.lor dc x = dc + x.
Proof. intros [-> | ->] Hx; [by rewrite Z.lor_0_l|]. by rewrite (lor_disjoint 7) by (done || lia). Qed.

Lemma pdcp_header_bytes is_srb sn_size sn :
  bearer_ok is_srb sn_size -> 0 <= sn < 2 ^ pdcp_to_number sn_size ->
  let dc := if is_srb then 0 else 128 in
  pdcp_write_data_pdu_header is_srb sn_size sn = Ok (pdcp_header is_srb sn_size sn) /\
  pdcp_header is_srb sn_size sn =
    match sn_size with
    | pdcp_size12bits => [dc + sn / 256; sn mod 256]
    | _ => [dc + sn / 65536; sn / 256 mod 256; sn mod 256]
    end.
Proof.
  intros [Hsz Hsrb] Hsn dc. unfold pdcp_header, pdcp_write_data_pdu_header.
  assert (negb (is_srb && bool_decide (sn_size = pdcp_size18bits)) = true) as ->.
  { destruct is_srb; [|done]. by rewrite (Hsrb eq_refl). }
  assert ((if is_srb then 0x00 else 0x80) = dc) as -> by (by destruct is_srb).
  assert (dc = 0 \/ dc = 128) as Hdc by (unfold dc; destruct is_srb; auto).
  destruct sn_size; [..|done]; (split; [done|]); unfold pdcp_to_number in Hsn;
    cbn [checked_bind]; cbv iota; rewrite ?sn_mask_12, ?sn_mask_18, ?sn_mask_mid; bits.
  - rewrite (lor_low dc) by (try apply Hdc; dlia). bytes_eq.
  - rewrite (lor_low dc) by (try apply Hdc; dlia). bytes_eq.
Qed.

(** The first byte: the D/C bit and the bits of the SN below it. *)
Lemma pdcp_first_byte dc x k :
  dc = 0 \/ dc = 128 -> 0 <= x < 2 ^ k -> 2 <= k <= 4 ->
  pdcp_pdu_get_dc (dc + x) = dc / 128 /\ (dc + x) mod 2 ^ k = x /\ 0 <= dc + x < 256 /\
  (dc + x) / 2 ^ k mod 2 ^ (7 - k) = 0.
Proof.
  intros Hdc Hx Hk. unfold pdcp_pdu_get_dc. bits.
  assert (k = 2 \/ k = 3 \/ k = 4) as [->|[->| ->]] by lia; destruct Hdc as [-> | ->]; dlia.
Qed.

Lemma mask_31 x : Z.land x 31 = x mod 32.
Proof. apply (Z.land_ones x 5); lia. Qed.

(** The SN of the two formats, from its bytes. *)
Lemma pdcp_sn_bytes_12 b0 b1 :
  is_u8 b1 -> Z.lor (Z.shiftl (Z.land b0 0x0f) 8) (Z.land b1 0xff) = b0 mod 16 * 256 + b1.
Proof.
  unfold in_range. intros Hb. bits. rewrite (lor_disjoint 8) by dlia. dlia.
Qed.
Lemma pdcp_sn_bytes_18 b0 b1 b2 :
  is_u8 b1 -> is_u8 b2 ->
  Z.lor (Z.lor (Z.shiftl (Z.land b0 0x03) 16) (Z.shiftl (Z.land b1 0xff) 8)) (Z.land b2 0xff) =
    b0 mod 4 * 65536 + b1 * 256 + b2.
Proof.
  unfold in_range. intros Hb1 Hb2. bits. rewrite (Z.mod_small b1), (Z.mod_small b2) by lia.
  rewrite (lor_disjoint 16 _ (b1 * 256)); [|lia|apply Z.mod_mul; lia|lia].
  rewrite (lor_disjoint 8); [lia|lia| |lia].
  replace (b0 mod 4 * 65536 + b1 * 256) with ((b0 mod 4 * 256 + b1) * 2 ^ 8) by lia. apply Z.mod_mul. lia.
Qed.

Lemma read_sn_range sn_size buf sn :
  pdcp_read_data_pdu_header sn_size buf = Some sn -> 0 <= sn < 2 ^ pdcp_to_number sn_size.
Proof.
  assert (forall a b, Z.lor (Z.shiftl (Z.land a 15) 8) (Z.land b 255) = a mod 16 * 256 + b mod 256) as H12.
  { intros a b. replace (Z.land b 255) with (Z.land (b mod 256) 255) by (bits; by rewrite Zmod_mod).
    apply pdcp_sn_bytes_12. unfold in_range. dlia. }
  assert (forall a b c, Z.lor (Z.lor (Z.shiftl (Z.land a 3) 16) (Z.shiftl (Z.land b 255) 8)) (Z.land c 255) =
    a mod 4 * 65536 + b mod 256 * 256 + c mod 256) as H18.
  { intros a b c. replace (Z.land b 255) with (Z.land (b mod 256) 255) by (bits; by rewrite Zmod_mod).
    replace (Z.land c 255) with (Z.land (c mod 256) 255) by (bits; by rewrite Zmod_mod).
    apply pdcp_sn_bytes_18; unfold in_range; dlia. }
  unfold pdcp_read_data_pdu_header. destruct (_ <=? _); [done|]. intros Hr.
  destruct sn_size, buf as [|b0 [|b1 [|b2 l]]]; try done; injection Hr as <-; rewrite ?H12, ?H18;
    unfold pdcp_to_number; dlia.
Qed.

Lemma pdcp_header_read is_srb sn_size sn sdu :
  bearer_ok is_srb sn_size -> 0 <= sn < 2 ^ pdcp_to_number sn_size -> sdu <> [] ->
  let header := pdcp_header is_srb sn_size sn in
  zlen header = pdcp_data_pdu_header_size sn_size /\ Forall is_u8 header /\
  pdcp_read_data_pdu_header sn_size (header ++ sdu) = Some sn /\
  pdcp_pdu_get_dc (default 0 (head header)) = (if is_srb then 0 else pdcp_dc_data) /\
  get_pdcp_sn (header ++ sdu) sn_size is_srb = Some sn.
Proof.
  intros Hb Hsn Hsdu header. pose proof Hb as [Hsz Hsrb].
  destruct (pdcp_header_bytes is_srb sn_size sn Hb Hsn) as [_ Hh]. fold header in Hh. cbn zeta in Hh.
  set (dc := if is_srb then 0 else 128) in *.
  assert (dc = 0 \/ dc = 128) as Hdc by (unfold dc; destruct is_srb; auto).
  assert (dc / 128 = (if is_srb then 0 else pdcp_dc_data)) as Edc by (unfold dc; by destruct is_srb).
  assert (0 < zlen sdu) as Hl by (destruct sdu; [done|unfold zlen; cbn; lia]).
  rewrite Hh. unfold pdcp_read_data_pdu_header, get_pdcp_sn.
  destruct sn_size; [| |done]; unfold pdcp_to_number in Hsn.
  - destruct (pdcp_first_byte dc (sn / 256) 4 Hdc) as (F1 & F2 & F3 & F4); [dlia|lia|].
    unfold pdcp_pdu_get_dc in *. cbn [app head default] in *. rewrite F1, Edc. split; [done|]. split.
    { repeat apply Forall_cons_2; [done|unfold in_range; dlia|apply Forall_nil_2]. }
    rewrite !zlen_cons. rewrite (proj2 (Z.leb_gt _ _)) by (cbn; lia).
    rewrite pdcp_sn_bytes_12 by (unfold in_range; dlia).
    change (2 ^ 4) with 16 in *. rewrite F2. split; [f_equal; dlia|]. split; [unfold id; by rewrite F1, Edc|].
    assert ((Z.land (Z.shiftr (dc + sn / 256) 4) 7 =? 0) = true) as Er.
    { bits. change (2 ^ (7 - 4)) with 8 in F4. by rewrite F4. }
    destruct is_srb; cbn [andb negb]; cbn [mbind option_bind]; rewrite Er; cbn [negb]; f_equal; dlia.
  - assert (is_srb = false) as -> by (destruct is_srb; [by discriminate (Hsrb eq_refl)|done]).
    destruct (pdcp_first_byte dc (sn / 65536) 2 Hdc) as (F1 & F2 & F3 & F4); [dlia|lia|].
    unfold pdcp_pdu_get_dc in *. cbn [app head default] in *. rewrite F1, Edc. split; [done|]. split.
    { repeat apply Forall_cons_2; [done|unfold in_range; dlia|unfold in_range; dlia|apply Forall_nil_2]. }
    rewrite !zlen_cons. rewrite (proj2 (Z.leb_gt _ _)) by (cbn; lia).
    rewrite pdcp_sn_bytes_18 by (unfold in_range; dlia).
    change (2 ^ 2) with 4 in *. rewrite F2. split; [f_equal; dlia|]. split; [unfold id; by rewrite F1, Edc|].
    assert ((Z.land (Z.shiftr (dc + sn / 65536) 2) 0x1f =? 0) = true) as Er.
    { rewrite mask_31. bits. change (2 ^ (7 - 2)) with 32 in F4. by rewrite F4. }
    cbn [andb negb]; cbn [mbind option_bind]; rewrite Er; cbn [negb]; f_equal; dlia.
Qed.

(** The header of a data PDU serves all its readers: whatever the length of the
    sequence numbers and the type of bearer, the receiving entity reads back the SN,
    the D/C bit says data on a data bearer, and the RLC finds the SN it
    discards and reports by. *)
Theorem pdcp_header_roundtrip is_srb sn_size sn sdu :
  bearer_ok is_srb sn_size -> 0 <= sn < 2 ^ pdcp_to_number sn_size -> sdu <> [] ->
  exists header, pdcp_write_data_pdu_header is_srb sn_size sn = Ok header /\
    zlen header = pdcp_data_pdu_header_size sn_size /\ Forall is_u8 header /\
    pdcp_read_data_pdu_header sn_size (header ++ sdu) = Some sn /\
    pdcp_pdu_get_dc (default 0 (head header)) = (if is_srb then 0 else pdcp_dc_data) /\
    get_pdcp_sn (header ++ sdu) sn_size is_srb = Some sn.
Proof.
  intros Hb Hsn Hsdu. destruct (pdcp_header_bytes is_srb sn_size sn Hb Hsn) as [Hw Hh].
  exists (pdcp_header is_srb sn_size sn). split; [done|]. by apply pdcp_header_read.
Qed.
