(* ===== verification/PdcpCryptoToken.v ===== *)
(** * PDCP crypto tokens

    Models [pdcp_crypto_token_manager] of [src/lib/pdcp/pdcp_crypto_token.h], which
    counts the PDUs in the executors of an entity and tells when processing has
    stopped and the last one is done. *)
From stdpp Require Import base numbers list.
From Stdlib Require Import ZArith Lia.
From S2P Require Import Prelude.

Set Default Goal Selector "!".
Open Scope Z_scope.
Open Scope ran_scope.

(** [pending_crypto] is the event flag awaited by the control procedures. *)
Record pdcp_crypto_token_manager := mk_pdcp_crypto_token_manager {
  tm_tokens : Z;
  tm_pending_crypto : bool;
}.
#[export] Instance pdcp_crypto_token_manager_eta : RecordEta pdcp_crypto_token_manager := fun r =>
  mk_pdcp_crypto_token_manager (tm_tokens r) (tm_pending_crypto r).

Definition token_manager_init : pdcp_crypto_token_manager := mk_pdcp_crypto_token_manager 0 false.

(** Construction of a token. *)
Definition increment_token (m : pdcp_crypto_token_manager) : pdcp_crypto_token_manager :=
  m <| tm_tokens ::= fun n => u32 (n + 1) |>.

(** Destruction of a token that was not moved from. *)
Definition return_token (m : pdcp_crypto_token_manager) : checked pdcp_crypto_token_manager :=
  let prev_token := tm_tokens m in
  let m := m <| tm_tokens := u32 (prev_token - 1) |> in
  assert? negb (prev_token =? 2 ^ 32 - 1);
  Ok (if prev_token =? 0 then m <| tm_pending_crypto := true |> else m).

Definition token_manager_start (m : pdcp_crypto_token_manager) : pdcp_crypto_token_manager :=
  increment_token (m <| tm_pending_crypto := false |>).
Definition token_manager_stop (m : pdcp_crypto_token_manager) : checked pdcp_crypto_token_manager :=
  return_token m.

(** ** Counting

    [n] PDUs are in flight, and processing is stopped or not.  No PDU is taken in while
    it is stopped; then the flag is set exactly when processing was stopped and
    the last PDU is done. *)
Definition token_count (n : Z) (stopped : bool) (m : pdcp_crypto_token_manager) : Prop :=
  0 <= n < 2 ^ 32 - 1 /\ tm_tokens m = u32 (n - if stopped then 1 else 0) /\
  tm_pending_crypto m = stopped && (n =? 0).

Lemma token_count_init : token_count 0 false token_manager_init.
Proof. unfold token_count, token_manager_init. cbn. split_and!; done || lia. Qed.

Lemma token_count_increment n m :
  token_count n false m -> n + 1 < 2 ^ 32 - 1 -> token_count (n + 1) false (increment_token m).
Proof.
  intros (Hn & Ht & Hf) Hb. unfold token_count, increment_token, field_update. cbn.
  split_and!; [lia|lia| |done]. rewrite Ht, wrap_add_l by lia. apply (f_equal (wrap 32)). lia.
Qed.

Lemma token_count_tokens n (stopped : bool) m :
  token_count n stopped m -> (0 < n \/ stopped = false) -> tm_tokens m = n - if stopped then 1 else 0.
Proof. intros (Hn & Ht & Hf) Hp. rewrite Ht. apply wrap_small. unfold in_range. destruct stopped, Hp; lia || done. Qed.

Lemma token_count_return n stopped m :
  token_count n stopped m -> 0 < n -> exists m', return_token m = Ok m' /\ token_count (n - 1) stopped m'.
Proof.
  intros Hc Hp. pose proof (token_count_tokens _ _ _ Hc (or_introl Hp)) as Ht. destruct Hc as (Hn & _ & Hf).
  unfold return_token, token_count.
  rewrite (proj2 (Z.eqb_neq _ _)) by (rewrite Ht; destruct stopped; lia). cbn [negb].
  eexists. split; [done|]. unfold field_update. destruct (tm_tokens m =? 0) eqn:E; zbool; cbn.
  - assert (n = 1 /\ stopped = true) as [-> ->] by (destruct stopped; lia).
    split_and!; [lia|lia|apply (f_equal (wrap 32)); lia|done].
  - split_and!; [lia|lia|apply (f_equal (wrap 32)); lia|]. rewrite Hf. destruct stopped; [|done]. cbn.
    rewrite !(proj2 (Z.eqb_neq _ _)) by lia. done.
Qed.

Lemma token_count_stop n m :
  token_count n false m -> exists m', token_manager_stop m = Ok m' /\ token_count n true m'.
Proof.
  intros Hc. pose proof (token_count_tokens _ _ _ Hc (or_intror eq_refl)) as Ht. destruct Hc as (Hn & _ & Hf).
  rewrite Z.sub_0_r in Ht. unfold token_manager_stop, return_token, token_count.
  rewrite (proj2 (Z.eqb_neq _ _)) by lia. cbn [negb]. eexists. split; [done|].
  unfold field_update. destruct (tm_tokens m =? 0) eqn:E; zbool; cbn; rewrite Ht; split_and!; try done || lia.
  by rewrite Hf, (proj2 (Z.eqb_neq n 0)) by lia.
Qed.

Lemma token_count_start n m :
  token_count n true m -> token_count n false (token_manager_start m).
Proof.
  intros (Hn & Ht & Hf). unfold token_count, token_manager_start, increment_token, field_update. cbn.
  split_and!; [lia|lia| |done]. rewrite Ht, wrap_add_l by lia. apply (f_equal (wrap 32)). lia.
Qed.
