(* ===== verification/PdcpRx.v ===== *)
(** * PDCP: receiving entity

    Models [pdcp_entity_rx] of [src/lib/pdcp/pdcp_entity_rx.h] and
    [src/lib/pdcp/pdcp_entity_rx.cpp].  A PDU passes three executors: its COUNT is
    estimated where it arrives, security is applied on a pool of workers, in any
    order, and the reordering runs on the executor of the UE: the tasks in between are
    part of the state. *)
From stdpp Require Import base numbers list.
From Stdlib Require Import ZArith Lia.
From S2P Require Import Prelude.
From S2P Require Import SduWindow.
From S2P Require Import BitEncoding.
From S2P Require Import SecurityEngine.
From S2P Require Import PdcpSn.
From S2P Require Import PdcpPdu.
From S2P Require Import PdcpCryptoToken.

Set Default Goal Selector "!".
Open Scope Z_scope.
Open Scope ran_scope.

(** ** Data *)

(** [t_reordering] is -1 for infinity; the maximum COUNTs are those of
    [custom.max_count]. *)
Record pdcp_rx_config := mk_pdcp_rx_config {
  prx_rb_type : pdcp_rb_type;
  prx_rlc_mode : pdcp_rlc_mode;
  prx_sn_size : pdcp_sn_size;
  prx_direction : security_direction;
  prx_t_reordering : Z;
  prx_max_count_notify : Z;
  prx_max_count_hard : Z;
  prx_bearer_id : Z;
  prx_max_nof_crypto_workers : Z;
}.

(** The limits a configuration has unless it sets them, for both directions. *)
Definition pdcp_tx_default_max_count_notify : Z := 0xc0000000.
Definition pdcp_tx_default_max_count_hard : Z := 2 ^ 32 - 1 - 1.

(** A PDU on its way to the window, and an SDU in the window. *)
Record pdcp_rx_pdu_info := mk_pdcp_rx_pdu_info {
  rpi_buf : list Z;
  rpi_count : Z;
}.
Record pdcp_rx_sdu_info := mk_pdcp_rx_sdu_info {
  rsi_buf : list Z;
  rsi_count : Z;
}.

(** The tasks of the UE executor. *)
Inductive pdcp_rx_task : Type :=
| ApplyReordering (info : pdcp_rx_pdu_info)
| HandleFailure (err : security_error) (count : Z).

(** Notifications to the upper layers and to the transmitting entity, and metrics;
    an SDU is shown with the COUNT that is logged with it. *)
Inductive pdcp_rx_output : Type :=
| PdcpRxSdu (count : Z) (sdu : list Z)
| PdcpRxStatusReport (pdu : list Z)
| PdcpRxMaxCountReached
| PdcpRxProtocolFailure
| PdcpRxIntegrityFailure
| PdcpRxMetricPdus (pdus bytes : Z)
| PdcpRxMetricDataPdus (pdus bytes : Z)
| PdcpRxMetricDroppedPdus (pdus : Z)
| PdcpRxMetricSdus (sdus bytes : Z)
| PdcpRxMetricIntegrityVerified (pdus : Z)
| PdcpRxMetricIntegrityFailed (pdus : Z)
| PdcpRxMetricReorderingTimeouts (timeouts : Z).
#[export] Instance pdcp_rx_output_eq_dec : EqDecision pdcp_rx_output.
Proof. solve_decision. Defined.

Record pdcp_rx_entity (W : Type -> Type) := mk_pdcp_rx_entity {
  prx_next : Z;
  prx_deliv : Z;
  prx_reord : Z;
  prx_window : W pdcp_rx_sdu_info;
  prx_reordering_timer : bool;
  prx_stopped : bool;
  prx_buffering : bool;
  prx_pdu_buffer : list (list Z);
  prx_max_count_notified : bool;
  prx_max_count_overflow : bool;
  prx_integrity_enabled : bool;
  prx_ciphering_enabled : bool;
  prx_sec_engine_pool : list (option security_engine);
  prx_token_mngr : pdcp_crypto_token_manager;
  prx_crypto_tasks : list pdcp_rx_pdu_info;
  prx_ue_tasks : list pdcp_rx_task;
}.
Arguments mk_pdcp_rx_entity {W}.
Arguments prx_next {W}.
Arguments prx_deliv {W}.
Arguments prx_reord {W}.
Arguments prx_window {W}.
Arguments prx_reordering_timer {W}.
Arguments prx_stopped {W}.
Arguments prx_buffering {W}.
Arguments prx_pdu_buffer {W}.
Arguments prx_max_count_notified {W}.
Arguments prx_max_count_overflow {W}.
Arguments prx_integrity_enabled {W}.
Arguments prx_ciphering_enabled {W}.
Arguments prx_sec_engine_pool {W}.
Arguments prx_token_mngr {W}.
Arguments prx_crypto_tasks {W}.
Arguments prx_ue_tasks {W}.
#[export] Instance pdcp_rx_entity_eta W : RecordEta (pdcp_rx_entity W) := fun r =>
  mk_pdcp_rx_entity (prx_next r) (prx_deliv r) (prx_reord r) (prx_window r)
    (prx_reordering_timer r) (prx_stopped r) (prx_buffering r) (prx_pdu_buffer r)
    (prx_max_count_notified r) (prx_max_count_overflow r) (prx_integrity_enabled r)
    (prx_ciphering_enabled r) (prx_sec_engine_pool r) (prx_token_mngr r)
    (prx_crypto_tasks r) (prx_ue_tasks r).

(** What the environment of [handle_pdu] decides: whether the copy of the PDU is
    allocated, and whether the crypto executor takes the task. *)
Record pdcp_rx_env := mk_pdcp_rx_env {
  prx_copy_ok : bool;
  prx_exec_ok : bool;
}.

Section pdcp_rx.
Context {W : Type -> Type} `{SduWindow W} `{SecurityAlgorithms}.
Variable cfg : pdcp_rx_config.
Implicit Types s : pdcp_rx_entity W.
Implicit Types w : W pdcp_rx_sdu_info.

Definition prx_is_srb : bool := bool_decide (prx_rb_type cfg = rb_srb).
Definition prx_is_um : bool := bool_decide (prx_rlc_mode cfg = rlc_mode_um).
Definition prx_window_size : Z := pdcp_window_size (prx_sn_size cfg).
Definition prx_hdr_len_bytes : Z := pdcp_data_pdu_header_size (prx_sn_size cfg).

Definition prx_init : checked (pdcp_rx_entity W) :=
  let? window := win_make prx_window_size in
  Ok {| prx_next := 0; prx_deliv := 0; prx_reord := 0; prx_window := window;
        prx_reordering_timer := false; prx_stopped := false; prx_buffering := false;
        prx_pdu_buffer := []; prx_max_count_notified := false; prx_max_count_overflow := false;
        prx_integrity_enabled := false; prx_ciphering_enabled := false;
        prx_sec_engine_pool := replicate (Z.to_nat (prx_max_nof_crypto_workers cfg)) None;
        prx_token_mngr := token_manager_init; prx_crypto_tasks := []; prx_ue_tasks := [] |}.

(** The timer has a duration unless t-Reordering is zero or infinity. *)
Definition prx_run_reordering_timer s : checked (pdcp_rx_entity W) :=
  assert? 0 <? prx_t_reordering cfg; Ok (s <| prx_reordering_timer := true |>).

Definition prx_return_token s : checked (pdcp_rx_entity W) :=
  let? m := return_token (prx_token_mngr s) in Ok (s <| prx_token_mngr := m |>).

(** ** Delivery

    A loop that counts up from [start] until it meets [stop] takes this many
    turns at most. *)
Definition count_turns (start stop : Z) : nat := Z.to_nat (u32 (stop - start)).

Definition prx_deliver (count : Z) (info : pdcp_rx_sdu_info) : list pdcp_rx_output :=
  [PdcpRxMetricSdus 1 (zlen (rsi_buf info)); PdcpRxSdu count (rsi_buf info)].

(** Delivery and removal of one COUNT, if it is in the window. *)
Definition prx_take (count : Z) w : checked (W pdcp_rx_sdu_info * list pdcp_rx_output) :=
  if has_sn w count then
    let? info := win_at w count in
    let? w := remove_sn count w in
    Ok (w, prx_deliver count info)
  else Ok (w, []).

Fixpoint deliver_consecutive (turns : nat) (next deliv : Z) w :
    checked (Z * W pdcp_rx_sdu_info * list pdcp_rx_output) :=
  if negb (deliv =? next) && has_sn w deliv then
    match turns with
    | O => Panic
    | S turns =>
        emit? w := prx_take deliv w in
        deliver_consecutive turns next (u32 (deliv + 1)) w
    end
  else Ok (deliv, w, []).

(** Deliver all consecutively associated COUNTs. *)
Definition deliver_all_consecutive_counts s : checked (pdcp_rx_entity W * list pdcp_rx_output) :=
  let? (deliv, w, out) :=
    deliver_consecutive (count_turns (prx_deliv s) (prx_next s)) (prx_next s) (prx_deliv s) (prx_window s) in
  Ok (s <| prx_deliv := deliv |> <| prx_window := w |>, out).

Fixpoint deliver_until (turns : nat) (stop deliv : Z) w :
    checked (Z * W pdcp_rx_sdu_info * list pdcp_rx_output) :=
  if deliv =? stop then Ok (deliv, w, []) else
  match turns with
  | O => Panic
  | S turns =>
      emit? w := prx_take deliv w in
      deliver_until turns stop (u32 (deliv + 1)) w
  end.

(** [deliver_all_sdus]: every SDU in order; RX_DELIV stays. *)
Fixpoint deliver_all (turns : nat) (next count : Z) w :
    checked (W pdcp_rx_sdu_info * list pdcp_rx_output) :=
  if count <? next then
    match turns with
    | O => Panic
    | S turns =>
        emit? w := prx_take count w in
        deliver_all turns next (u32 (count + 1)) w
    end
  else Ok (w, []).

Definition deliver_all_sdus s : checked (pdcp_rx_entity W * list pdcp_rx_output) :=
  let? (w, out) :=
    deliver_all (count_turns (prx_deliv s) (prx_next s)) (prx_next s) (prx_deliv s) (prx_window s) in
  Ok (s <| prx_window := w |>, out).

Fixpoint discard_all (turns : nat) (next deliv : Z) w : checked (Z * W pdcp_rx_sdu_info) :=
  if deliv =? next then Ok (deliv, w) else
  match turns with
  | O => Panic
  | S turns =>
      let? w := (if has_sn w deliv then remove_sn deliv w else Ok w) in
      discard_all turns next (u32 (deliv + 1)) w
  end.

Definition discard_all_sdus s : checked (pdcp_rx_entity W) :=
  let? (deliv, w) :=
    discard_all (count_turns (prx_deliv s) (prx_next s)) (prx_next s) (prx_deliv s) (prx_window s) in
  Ok (s <| prx_deliv := deliv |> <| prx_window := w |>).

(** ** t-Reordering *)

Definition handle_t_reordering_expire s : checked (pdcp_rx_entity W * list pdcp_rx_output) :=
  let? (deliv, w, out) :=
    deliver_until (count_turns (prx_deliv s) (prx_reord s)) (prx_reord s) (prx_deliv s) (prx_window s) in
  let s := s <| prx_deliv := deliv |> <| prx_window := w |> in
  let? (s, out') := deliver_all_consecutive_counts s in
  let? s :=
    (if prx_deliv s <? prx_next s then
       if prx_t_reordering cfg =? 0 then Ok s
       else prx_run_reordering_timer (s <| prx_reord := prx_next s |>)
     else Ok s) in
  Ok (s, PdcpRxMetricReorderingTimeouts 1 :: out ++ out').

(** The callback of the timer. *)
Definition reordering_callback s : checked (pdcp_rx_entity W * list pdcp_rx_output) :=
  if prx_stopped s then Ok (s, []) else handle_t_reordering_expire s.

(** ** Reordering *)

Definition prx_store (info : pdcp_rx_pdu_info) w : checked (W pdcp_rx_sdu_info) :=
  add_sn (mk_pdcp_rx_sdu_info (rpi_buf info) (rpi_count info)) (rpi_count info) w.

(** The timers after an SDU was stored. *)
Definition prx_handle_timers s : checked (pdcp_rx_entity W * list pdcp_rx_output) :=
  let s := if prx_reordering_timer s && (prx_reord s <=? prx_deliv s)
           then s <| prx_reordering_timer := false |> else s in
  if prx_t_reordering cfg =? -1 then Ok (s, []) else
  if prx_t_reordering cfg =? 0 then
    handle_t_reordering_expire (s <| prx_reord := prx_next s |>)
  else if negb (prx_reordering_timer s) && (prx_deliv s <? prx_next s) then
    let? s := prx_run_reordering_timer (s <| prx_reord := prx_next s |>) in Ok (s, [])
  else Ok (s, []).

Definition apply_reordering (info : pdcp_rx_pdu_info) s :
    checked (pdcp_rx_entity W * list pdcp_rx_output) :=
  let rcvd_count := rpi_count info in
  if rcvd_count <? prx_deliv s then Ok (s, []) else
  let? (dup, w) :=
    (if has_sn (prx_window s) rcvd_count then
       let? old := win_at (prx_window s) rcvd_count in
       if rsi_count old =? rcvd_count then Ok (true, prx_window s)
       else let? w := remove_sn rcvd_count (prx_window s) in Ok (false, w)
     else Ok (false, prx_window s)) in
  if dup then Ok (s, []) else
  let? w := prx_store info w in
  let s := s <| prx_window := w |> in
  let s := if prx_next s <=? rcvd_count then s <| prx_next := u32 (rcvd_count + 1) |> else s in
  emit? s := (if rcvd_count =? prx_deliv s then deliver_all_consecutive_counts s else Ok (s, [])) in
  prx_handle_timers s.

(** ** Security *)

(** Without an engine the PDU passes, but for the zero MAC of a signalling bearer. *)
Definition apply_deciphering_and_integrity_check (worker_idx : Z) (buf : list Z) (count : Z) s :
    checked security_result :=
  if prx_max_nof_crypto_workers cfg <=? worker_idx then Panic else
  match prx_sec_engine_pool s !! Z.to_nat worker_idx with
  | None => Panic
  | Some None =>
      if prx_is_srb then
        if zlen buf <=? sec_mac_len then Ok (mk_security_result (inr buffer_failure) count)
        else Ok (mk_security_result (inl (take (Z.to_nat (zlen buf - sec_mac_len)) buf)) count)
      else Ok (mk_security_result (inl buf) count)
  | Some (Some sec_engine) =>
      let hdr_size := if bool_decide (prx_sn_size cfg = pdcp_size12bits) then 2 else 3 in
      Ok (decrypt_and_verify_integrity sec_engine buf hdr_size count)
  end.

(** [accepted]: the UE executor takes the task; otherwise the task is destroyed, and
    its token returned. *)
Definition prx_execute_ue (accepted : bool) (task : pdcp_rx_task) s : checked (pdcp_rx_entity W) :=
  if accepted then Ok (s <| prx_ue_tasks ::= fun l => l ++ [task] |>) else prx_return_token s.

Definition apply_security (worker_idx : Z) (accepted : bool) (info : pdcp_rx_pdu_info) s :
    checked (pdcp_rx_entity W) :=
  let? result := apply_deciphering_and_integrity_check worker_idx (rpi_buf info) (rpi_count info) s in
  match sr_buf result with
  | inr err => prx_execute_ue accepted (HandleFailure err (sr_count result)) s
  | inl buf =>
      let hdr_size := if bool_decide (prx_sn_size cfg = pdcp_size12bits) then 2 else 3 in
      assert? hdr_size <=? zlen buf;
      let buf := drop (Z.to_nat hdr_size) buf in
      prx_execute_ue accepted (ApplyReordering (mk_pdcp_rx_pdu_info buf (rpi_count info))) s
  end.

(** A worker runs the [i]-th waiting task. *)
Definition prx_run_crypto (i : nat) (worker_idx : Z) (accepted : bool) s : checked (pdcp_rx_entity W) :=
  match prx_crypto_tasks s !! i with
  | None => Ok s
  | Some info => apply_security worker_idx accepted info (s <| prx_crypto_tasks ::= delete i |>)
  end.

Definition handle_failure (err : security_error) : list pdcp_rx_output :=
  match err with
  | integrity_failure => [PdcpRxMetricIntegrityFailed 1; PdcpRxIntegrityFailure]
  | ciphering_failure | buffer_failure | engine_failure => [PdcpRxProtocolFailure]
  end.

(** The UE executor runs its first task, with which the token is returned. *)
Definition prx_run_ue s : checked (pdcp_rx_entity W * list pdcp_rx_output) :=
  match prx_ue_tasks s with
  | [] => Ok (s, [])
  | task :: tasks =>
      let s := s <| prx_ue_tasks := tasks |> in
      let? (s, out) :=
        (match task with
         | ApplyReordering info =>
             let? (s, out) := apply_reordering info s in
             Ok (s, PdcpRxMetricIntegrityVerified 1 :: out)
         | HandleFailure err _ => Ok (s, handle_failure err)
         end) in
      let? s := prx_return_token s in
      Ok (s, out)
  end.

(** ** Reception *)

(** The notifications when [rcvd_count] approaches the maximum, and whether it is
    refused. *)
Definition check_max_count (rcvd_count : Z) s : bool * pdcp_rx_entity W * list pdcp_rx_output :=
  let '(s, out) :=
    if (prx_max_count_notify cfg <? rcvd_count) && negb (prx_max_count_notified s)
    then (s <| prx_max_count_notified := true |>, [PdcpRxMaxCountReached]) else (s, []) in
  if prx_max_count_hard cfg <=? rcvd_count then
    if negb (prx_max_count_overflow s)
    then (true, s <| prx_max_count_overflow := true |>, out ++ [PdcpRxProtocolFailure])
    else (true, s, out)
  else (false, s, out).

(** A token is taken for the PDU; it is returned when the executor refuses. *)
Definition prx_execute_crypto (accepted : bool) (info : pdcp_rx_pdu_info) s : checked (pdcp_rx_entity W) :=
  let s := s <| prx_token_mngr ::= increment_token |> in
  if accepted then Ok (s <| prx_crypto_tasks ::= fun l => l ++ [info] |>) else prx_return_token s.

Definition handle_data_pdu (exec_ok : bool) (pdu : list Z) s :
    checked (pdcp_rx_entity W * list pdcp_rx_output) :=
  let metric := PdcpRxMetricDataPdus 1 (zlen pdu) in
  if zlen pdu <=? prx_hdr_len_bytes then Ok (s, [metric; PdcpRxMetricDroppedPdus 1]) else
  match pdcp_read_data_pdu_header (prx_sn_size cfg) pdu with
  | None => Ok (s, [metric; PdcpRxMetricDroppedPdus 1])
  | Some sn =>
      let rcvd_count := pdcp_estimate_count (prx_sn_size cfg) (prx_deliv s) sn in
      let '(refused, s, out) := check_max_count rcvd_count s in
      if refused then Ok (s, metric :: out) else
      let? s := prx_execute_crypto exec_ok (mk_pdcp_rx_pdu_info pdu rcvd_count) s in
      Ok (s, metric :: out)
  end.

Definition handle_control_pdu (pdu : list Z) : checked (list pdcp_rx_output) :=
  match pdu with
  | [] => Panic
  | hdr_byte :: _ =>
      assert? pdcp_pdu_get_dc hdr_byte =? pdcp_dc_control;
      Ok (if pdcp_control_pdu_get_cpt hdr_byte =? pdcp_control_status_report
          then [PdcpRxStatusReport pdu] else [])
  end.

Definition pdu_buffer_capacity : Z := 2048.

Definition prx_handle_pdu (env : pdcp_rx_env) (buf : list Z) s :
    checked (pdcp_rx_entity W * list pdcp_rx_output) :=
  if prx_stopped s then Ok (s, []) else
  if prx_buffering s then
    if zlen (prx_pdu_buffer s) =? pdu_buffer_capacity then Ok (s, [])
    else Ok (s <| prx_pdu_buffer ::= fun l => l ++ [buf] |>, [])
  else
  let? (s, out) :=
    (match buf with
     | [] => Ok (s, [PdcpRxMetricDroppedPdus 1])
     | first :: _ =>
         if negb (prx_copy_ok env) then Ok (s, [PdcpRxMetricDroppedPdus 1])
         else if prx_is_srb || (pdcp_pdu_get_dc first =? pdcp_dc_data)
         then handle_data_pdu (prx_exec_ok env) buf s
         else let? out := handle_control_pdu buf in Ok (s, out)
     end) in
  Ok (s, PdcpRxMetricPdus 1 (zlen buf) :: out).

(** ** Control *)

Definition prx_stop s : checked (pdcp_rx_entity W) :=
  if prx_stopped s then Ok s else
  let? m := token_manager_stop (prx_token_mngr s) in
  Ok (s <| prx_stopped := true |> <| prx_reordering_timer := false |> <| prx_token_mngr := m |>).

Definition notify_pdu_processing_stopped s : checked (pdcp_rx_entity W) :=
  if prx_stopped s then Ok s else
  let? m := token_manager_stop (prx_token_mngr s) in Ok (s <| prx_token_mngr := m |>).

Definition restart_pdu_processing s : pdcp_rx_entity W :=
  if prx_stopped s then s else s <| prx_token_mngr ::= token_manager_start |>.

Definition begin_buffering s : pdcp_rx_entity W := s <| prx_buffering := true |>.

(** The buffered PDUs are handled in their order; [envs] decides for each of them. *)
Fixpoint flush_pdu_buffer (pdus : list (list Z)) (envs : list pdcp_rx_env) s :
    checked (pdcp_rx_entity W * list pdcp_rx_output) :=
  match pdus with
  | [] => Ok (s, [])
  | buf :: pdus =>
      let s := s <| prx_pdu_buffer := pdus |> in
      emit? s := prx_handle_pdu (default (mk_pdcp_rx_env true true) (head envs)) buf s in
      flush_pdu_buffer pdus (tail envs) s
  end.

Definition end_buffering (envs : list pdcp_rx_env) s : checked (pdcp_rx_entity W * list pdcp_rx_output) :=
  flush_pdu_buffer (prx_pdu_buffer s) envs (s <| prx_buffering := false |>).

Fixpoint make_engines (workers : nat) (sec_cfg : sec_128_as_config) (integrity ciphering : bool) :
    checked (list (option security_engine)) :=
  match workers with
  | O => Ok []
  | S workers =>
      let? eng := security_engine_impl sec_cfg (prx_bearer_id cfg) (prx_direction cfg) integrity ciphering in
      let? pool := make_engines workers sec_cfg integrity ciphering in
      Ok (Some eng :: pool)
  end.

Definition configure_security (sec_cfg : sec_128_as_config) (integrity ciphering : bool) s :
    checked (pdcp_rx_entity W) :=
  assert? bool_decide (sec_config_domain sec_cfg = if prx_is_srb then sec_domain_rrc else sec_domain_up);
  let missing := bool_decide (k_128_int sec_cfg = None) || bool_decide (integ_algo sec_cfg = None) in
  if integrity && missing then Ok s else
  assert? integrity || negb prx_is_srb;
  let? pool := make_engines (Z.to_nat (prx_max_nof_crypto_workers cfg)) sec_cfg integrity ciphering in
  Ok (s <| prx_integrity_enabled := integrity |> <| prx_ciphering_enabled := ciphering |>
        <| prx_sec_engine_pool := pool |>).

Definition reestablish (sec_cfg : sec_128_as_config) s :
    checked (pdcp_rx_entity W * list pdcp_rx_output) :=
  let? s := (if prx_is_srb then discard_all_sdus s else Ok s) in
  let? (s, out) :=
    (if prx_is_srb || prx_is_um then
       let s := s <| prx_reordering_timer := false |> in
       if prx_is_um then deliver_all_sdus s else Ok (s, [])
     else Ok (s, [])) in
  let s := if prx_is_srb || prx_is_um
           then s <| prx_next := 0 |> <| prx_deliv := 0 |> <| prx_reord := 0 |> else s in
  let? s := configure_security sec_cfg (prx_integrity_enabled s) (prx_ciphering_enabled s) s in
  Ok (s, out).

(** Status transfer: the numbers of the count and the state are set; the window is
    not touched. *)
Definition set_count (hfn sn : Z) s : pdcp_rx_entity W :=
  let count := pdcp_compute_count hfn sn (prx_sn_size cfg) in
  s <| prx_next := count |> <| prx_deliv := count |> <| prx_reord := count |>.

Definition get_count s : Z * Z :=
  (pdcp_compute_hfn (prx_deliv s) (prx_sn_size cfg), pdcp_compute_sn (prx_deliv s) (prx_sn_size cfg)).

(** ** Status reports

    The results of [pack] are not looked at; [room] bounds the buffer. *)
Fixpoint pack_bitmap (turns : nat) (room count stop : Z) w (enc : bit_encoder) : checked bit_encoder :=
  if count <? stop then
    match turns with
    | O => Panic
    | S turns =>
        let? (_, enc) := be_pack room (if has_sn w count then 1 else 0) 1 enc in
        pack_bitmap turns room (u32 (count + 1)) stop w enc
    end
  else Ok enc.

Definition status_bitmap_end (deliv next : Z) : Z :=
  let max_bits := (pdcp_control_pdu_max_size - 5) * 8 in
  let bitmap_begin := u32 (deliv + 1) in
  if (bitmap_begin <? next) && (max_bits <? next - bitmap_begin) then bitmap_begin + max_bits else next.

Definition compile_status_report (room : Z) s : checked (list Z) :=
  let? (_, enc) := be_pack room pdcp_dc_control 1 bit_encoder_new in
  let? (_, enc) := be_pack room pdcp_control_status_report 3 enc in
  let? (_, enc) := be_pack room 0 4 enc in
  let? (_, enc) := be_pack room (prx_deliv s) 32 enc in
  let bitmap_begin := u32 (prx_deliv s + 1) in
  let bitmap_end := status_bitmap_end (prx_deliv s) (prx_next s) in
  let? enc := pack_bitmap (Z.to_nat (bitmap_end - bitmap_begin)) room bitmap_begin bitmap_end
                (prx_window s) enc in
  Ok (be_bytes enc).

(** ** Events *)

Inductive pdcp_rx_op : Type :=
| PdcpRxPdu (env : pdcp_rx_env) (buf : list Z)
| PdcpRxCrypto (i : nat) (worker_idx : Z) (accepted : bool)
| PdcpRxUeTask
| PdcpRxReorderingExpired
| PdcpRxConfigureSecurity (sec_cfg : sec_128_as_config) (integrity ciphering : bool)
| PdcpRxReestablish (sec_cfg : sec_128_as_config)
| PdcpRxBeginBuffering
| PdcpRxEndBuffering (envs : list pdcp_rx_env)
| PdcpRxNotifyStopped
| PdcpRxRestart
| PdcpRxSetCount (hfn sn : Z)
| PdcpRxStop.

Definition pdcp_rx_step (op : pdcp_rx_op) s : checked (pdcp_rx_entity W * list pdcp_rx_output) :=
  match op with
  | PdcpRxPdu env buf => prx_handle_pdu env buf s
  | PdcpRxCrypto i worker_idx accepted =>
      let? s := prx_run_crypto i worker_idx accepted s in Ok (s, [])
  | PdcpRxUeTask => prx_run_ue s
  | PdcpRxReorderingExpired =>
      if prx_reordering_timer s then reordering_callback (s <| prx_reordering_timer := false |>)
      else Ok (s, [])
  | PdcpRxConfigureSecurity sec_cfg integrity ciphering =>
      let? s := configure_security sec_cfg integrity ciphering s in Ok (s, [])
  | PdcpRxReestablish sec_cfg => reestablish sec_cfg s
  | PdcpRxBeginBuffering => Ok (begin_buffering s, [])
  | PdcpRxEndBuffering envs => end_buffering envs s
  | PdcpRxNotifyStopped => let? s := notify_pdu_processing_stopped s in Ok (s, [])
  | PdcpRxRestart => Ok (restart_pdu_processing s, [])
  | PdcpRxSetCount hfn sn => Ok (set_count hfn sn s, [])
  | PdcpRxStop => let? s := prx_stop s in Ok (s, [])
  end.

Fixpoint pdcp_rx_run (ops : list pdcp_rx_op) s : checked (pdcp_rx_entity W * list pdcp_rx_output) :=
  match ops with
  | [] => Ok (s, [])
  | op :: ops => emit? s := pdcp_rx_step op s in pdcp_rx_run ops s
  end.
End pdcp_rx.
