(* ===== verification/PdcpRxProps.v ===== *)
(** * PDCP receiving entity: invariant

    The loops over the window, the invariant of [PdcpRx], and that every operation
    of the code preserves it without failing. *)
From stdpp Require Import base numbers list sorting.
From Stdlib Require Import ZArith Lia.
From S2P Require Import Prelude.
From S2P Require Import SduWindow.
From S2P Require Import SecurityEngine.
From S2P Require Import PdcpSn.
From S2P Require Import PdcpPdu.
From S2P Require Import PdcpCryptoToken.
From S2P Require Import PdcpRx.

Set Default Goal Selector "!".
Open Scope Z_scope.
Open Scope ran_scope.

Section loops.
Context {W : Type -> Type} `{!SduWindow W} `{!SduWindowLaws W}.
Implicit Types w : W pdcp_rx_sdu_info.

(** What the delivery of the counts from [a] up to [b] emits. *)
Definition delivered w (a b : Z) : list pdcp_rx_output :=
  flat_map (fun c => match win_view w c with Some info => prx_deliver c info | None => [] end)
    (seqZ a (b - a)).

(** [w'] is [w] without the counts from [a] up to [b]. *)
Definition cleared (a b : Z) w w' : Prop :=
  win_wf w' /\ win_cap w' = win_cap w /\
  forall c, win_view w' c = if decide (a <= c < b) then None else win_view w c.

Lemma cleared_refl a w : win_wf w -> cleared a a w w.
Proof. intros Hw. split_and!; [done..|]. intros c. rewrite decide_False by lia. done. Qed.

Lemma cleared_trans a b c w1 w2 w3 :
  a <= b <= c -> cleared a b w1 w2 -> cleared b c w2 w3 -> cleared a c w1 w3.
Proof.
  intros Ho (_ & C1 & V1) (W2 & C2 & V2). split_and!; [done|congruence|].
  intros x. rewrite V2, V1. repeat case_decide; done || lia.
Qed.

Lemma delivered_nil w a : delivered w a a = [].
Proof. unfold delivered. by rewrite Z.sub_diag. Qed.

(** The first count, after which the window is used without it. *)
Lemma delivered_cons w w' a b :
  a < b -> cleared a (a + 1) w w' ->
  delivered w a b =
    match win_view w a with Some info => prx_deliver a info | None => [] end ++ delivered w' (a + 1) b.
Proof.
  intros Hab (_ & _ & V). unfold delivered. rewrite seqZ_cons by lia. cbn [flat_map]. f_equal.
  replace (Z.pred (b - a)) with (b - (a + 1)) by lia. apply flat_map_ext_elem.
  intros c Hc%elem_of_seqZ. rewrite V. by rewrite decide_False by lia.
Qed.

Lemma delivered_app w a b c :
  a <= b <= c -> delivered w a c = delivered w a b ++ delivered w b c.
Proof.
  intros Ho. unfold delivered. replace (c - a) with ((b - a) + (c - b)) by lia.
  rewrite seqZ_app by lia. rewrite flat_map_app. do 3 f_equal. lia.
Qed.

Lemma prx_take_spec c w :
  win_wf w -> exists w',
    prx_take c w = Ok (w', match win_view w c with Some info => prx_deliver c info | None => [] end) /\
    cleared c (c + 1) w w'.
Proof.
  intros Hw. unfold prx_take. rewrite has_sn_view. destruct (win_view w c) as [info|] eqn:E.
  - rewrite (win_at_view _ _ _ E). cbn [checked_bind].
    destruct (remove_sn_spec w c Hw) as (w' & -> & Hw' & Hc & Hv & Ho); [by eexists|].
    exists w'. split; [done|]. split_and!; [done..|]. intros c'. destruct (decide (c' = c)) as [->|Hne].
    + by rewrite decide_True by lia.
    + rewrite decide_False by lia. by apply Ho.
  - exists w. split; [done|]. split_and!; [done..|]. intros c'. case_decide; [|done].
    by replace c' with c by lia.
Qed.

Lemma count_turns_spec a b : 0 <= a <= b -> b < 2 ^ 32 -> Z.of_nat (count_turns a b) = b - a.
Proof. intros Ha Hb. unfold count_turns. rewrite wrap_small by (unfold in_range; lia). lia. Qed.

Lemma deliver_until_spec turns stop deliv w :
  win_wf w -> 0 <= deliv <= stop -> stop < 2 ^ 32 -> Z.of_nat turns = stop - deliv -> exists w',
    deliver_until turns stop deliv w = Ok (stop, w', delivered w deliv stop) /\ cleared deliv stop w w'.
Proof.
  revert deliv w. induction turns as [|turns IH]; intros deliv w Hw Hd Hs Ht; cbn [deliver_until].
  - assert (deliv = stop) as -> by lia. rewrite Z.eqb_refl, delivered_nil. exists w.
    split; [done|by apply cleared_refl].
  - rewrite (proj2 (Z.eqb_neq _ _)) by lia. destruct (prx_take_spec deliv w Hw) as (w1 & -> & Hc1).
    unfold emit_bind. cbn [checked_bind]. rewrite wrap_small by (unfold in_range; lia).
    destruct (IH (deliv + 1) w1) as (w2 & -> & Hc2); [apply Hc1|lia|lia|lia|].
    exists w2. cbn [checked_bind]. rewrite (delivered_cons w w1) by (done || lia).
    split; [done|]. apply (cleared_trans _ (deliv + 1) _ _ w1); [lia|done|done].
Qed.

Lemma deliver_consecutive_spec turns next deliv w :
  win_wf w -> 0 <= deliv <= next -> next < 2 ^ 32 -> Z.of_nat turns = next - deliv -> exists deliv' w',
    deliver_consecutive turns next deliv w = Ok (deliv', w', delivered w deliv deliv') /\
    cleared deliv deliv' w w' /\ deliv <= deliv' <= next /\
    (forall c, deliv <= c < deliv' -> is_Some (win_view w c)) /\
    (deliv' < next -> win_view w deliv' = None).
Proof.
  revert deliv w. induction turns as [|turns IH]; intros deliv w Hw Hd Hs Ht; cbn [deliver_consecutive].
  - assert (deliv = next) as -> by lia. rewrite Z.eqb_refl. cbn. exists next, w.
    rewrite delivered_nil. split_and!; [done|by apply cleared_refl|lia|lia| |]; lia.
  - rewrite (proj2 (Z.eqb_neq _ _)) by lia. cbn [negb andb]. rewrite has_sn_view.
    destruct (win_view w deliv) as [info|] eqn:E.
    + destruct (prx_take_spec deliv w Hw) as (w1 & -> & Hc1). unfold emit_bind. cbn [checked_bind].
      rewrite wrap_small by (unfold in_range; lia).
      destruct (IH (deliv + 1) w1) as (d' & w2 & -> & Hc2 & Hd' & Hall & Hend); [apply Hc1|lia|lia|lia|].
      exists d', w2. cbn [checked_bind]. rewrite (delivered_cons w w1) by (done || lia).
      destruct Hc1 as (Hw1 & Hcap1 & Hv1). split_and!; [done| |lia|lia| |].
      * by apply (cleared_trans _ (deliv + 1) _ _ w1); [lia|split_and!|].
      * intros c Hc. destruct (decide (c = deliv)) as [->|]; [by eexists|].
        specialize (Hall c ltac:(lia)). rewrite Hv1, decide_False in Hall by lia. done.
      * intros Hn. specialize (Hend Hn). rewrite Hv1, decide_False in Hend by lia. done.
    + exists deliv, w. rewrite delivered_nil. split_and!; [done|by apply cleared_refl|lia|lia|lia|done].
Qed.

Lemma deliver_all_spec turns next count w :
  win_wf w -> 0 <= count <= next -> next < 2 ^ 32 -> Z.of_nat turns = next - count -> exists w',
    deliver_all turns next count w = Ok (w', delivered w count next) /\ cleared count next w w'.
Proof.
  revert count w. induction turns as [|turns IH]; intros count w Hw Hd Hs Ht; cbn [deliver_all].
  - assert (count = next) as -> by lia. rewrite Z.ltb_irrefl, delivered_nil. exists w.
    split; [done|by apply cleared_refl].
  - rewrite (proj2 (Z.ltb_lt _ _)) by lia. destruct (prx_take_spec count w Hw) as (w1 & -> & Hc1).
    unfold emit_bind. cbn [checked_bind]. rewrite wrap_small by (unfold in_range; lia).
    destruct (IH (count + 1) w1) as (w2 & -> & Hc2); [apply Hc1|lia|lia|lia|].
    exists w2. cbn [checked_bind]. rewrite (delivered_cons w w1) by (done || lia).
    split; [done|]. apply (cleared_trans _ (count + 1) _ _ w1); [lia|done|done].
Qed.

Lemma discard_all_spec turns next deliv w :
  win_wf w -> 0 <= deliv <= next -> next < 2 ^ 32 -> Z.of_nat turns = next - deliv -> exists w',
    discard_all turns next deliv w = Ok (next, w') /\ cleared deliv next w w'.
Proof.
  revert deliv w. induction turns as [|turns IH]; intros deliv w Hw Hd Hs Ht; cbn [discard_all].
  - assert (deliv = next) as -> by lia. rewrite Z.eqb_refl. exists w. split; [done|by apply cleared_refl].
  - rewrite (proj2 (Z.eqb_neq _ _)) by lia. destruct (prx_take_spec deliv w Hw) as (w1 & Ht1 & Hc1).
    assert ((if has_sn w deliv then remove_sn deliv w else Ok w) = Ok w1) as ->.
    { unfold prx_take in Ht1. destruct (has_sn w deliv); [|congruence].
      destruct (win_at w deliv); [|done]. destruct (remove_sn deliv w); cbn in *; congruence. }
    cbn [checked_bind]. rewrite wrap_small by (unfold in_range; lia).
    destruct (IH (deliv + 1) w1) as (w2 & -> & Hc2); [apply Hc1|lia|lia|lia|].
    exists w2. split; [done|]. apply (cleared_trans _ (deliv + 1) _ _ w1); [lia|done|done].
Qed.
End loops.

(** ** SDUs delivered *)

(** The counts and SDUs that the upper layers get. *)
Definition sdus_of (out : list pdcp_rx_output) : list (Z * list Z) :=
  omap (fun o => match o with PdcpRxSdu count sdu => Some (count, sdu) | _ => None end) out.

Lemma sdus_of_app out out' : sdus_of (out ++ out') = sdus_of out ++ sdus_of out'.
Proof. apply omap_app. Qed.

Section inv.
Context {W : Type -> Type} `{!SduWindow W} `{!SduWindowLaws W} `{SecurityAlgorithms}.
Variable cfg : pdcp_rx_config.
Implicit Types s : pdcp_rx_entity W.
Implicit Types w : W pdcp_rx_sdu_info.

(** A configured bearer: a hard maximum that keeps the counts a window away from
    2^32, and a t-Reordering that is a duration or infinity. *)
Definition prx_cfg_ok : Prop :=
  sn_size_ok (prx_sn_size cfg) /\ prx_max_count_hard cfg <= 2 ^ 32 - prx_window_size cfg /\
  (prx_t_reordering cfg = -1 \/ 0 <= prx_t_reordering cfg) /\ 0 <= prx_max_nof_crypto_workers cfg.

(** The SDUs of the window from [a] up to [b], in order. *)
Definition held w (a b : Z) : list (Z * list Z) :=
  omap (fun c => (fun info => (c, rsi_buf info)) <$> win_view w c) (seqZ a (b - a)).

Lemma sdus_of_delivered w a b : sdus_of (delivered w a b) = held w a b.
Proof.
  unfold delivered, held. induction (seqZ a (b - a)) as [|c l IH]; [done|].
  cbn [flat_map]. rewrite sdus_of_app, IH. cbn [omap list_omap].
  by destruct (win_view w c).
Qed.

Lemma held_app w a b c : a <= b <= c -> held w a c = held w a b ++ held w b c.
Proof. intros Ho. by rewrite <- !sdus_of_delivered, (delivered_app w a b c), sdus_of_app. Qed.

Lemma held_cleared w w' a b c :
  a <= b <= c -> cleared a b w w' -> held w' b c = held w b c.
Proof.
  intros Ho (_ & _ & V). unfold held. apply list_omap_ext. apply Forall2_same_length_lookup. split; [done|].
  intros i x y Hx Hy. rewrite Hx in Hy. injection Hy as <-.
  apply list_elem_of_lookup_2, elem_of_seqZ in Hx. rewrite V, decide_False by lia. done.
Qed.

Lemma elem_of_held w a b c sdu :
  (c, sdu) ∈ held w a b <-> a <= c < b /\ exists info, win_view w c = Some info /\ sdu = rsi_buf info.
Proof.
  unfold held. rewrite list_elem_of_omap. split.
  - intros (c' & Hc%elem_of_seqZ & (info & Hi & Ei)%fmap_Some). injection Ei as -> ->.
    split; [lia|]. by exists info.
  - intros (Hc & info & Hv & ->). exists c. rewrite elem_of_seqZ, Hv. split; [lia|done].
Qed.

Lemma held_counts w a b : StronglySorted Z.lt (held w a b).*1 /\ Forall (fun c => a <= c < b) (held w a b).*1.
Proof.
  split.
  - unfold held. pose proof (StronglySorted_seqZ a (b - a)) as HS. induction HS as [|c l HS IH HF]; [constructor|].
    cbn [omap list_omap]. destruct (win_view w c); cbn; [|done]. constructor; [done|].
    rewrite Forall_forall in HF |- *. intros x ([x' v] & -> & (c' & Hin & (i & Hi & Ei)%fmap_Some)%list_elem_of_omap)%list_elem_of_fmap.
    injection Ei as -> ->. by apply HF.
  - apply Forall_forall. intros x ([c v] & -> & [Hc _]%elem_of_held)%list_elem_of_fmap. done.
Qed.

(** ** Invariant *)

(** The window holds counts between RX_DELIV and RX_NEXT that do not collide. *)
Record prx_held_ok s : Prop := mk_prx_held_ok {
  prx_window_wf : win_wf (prx_window s);
  prx_window_cap : win_cap (prx_window s) = prx_window_size cfg;
  prx_counts : 0 <= prx_deliv s <= prx_next s;
  prx_next_u32 : prx_next s < 2 ^ 32;
  prx_stored c info : win_view (prx_window s) c = Some info ->
    prx_deliv s <= c < prx_next s /\ c < prx_deliv s + prx_window_size cfg /\ rsi_count info = c;
}.

(** What an operation on the window leaves as it is. *)
Record prx_frame s s' : Prop := mk_prx_frame {
  frame_stopped : prx_stopped s' = prx_stopped s;
  frame_buffering : prx_buffering s' = prx_buffering s;
  frame_pdu_buffer : prx_pdu_buffer s' = prx_pdu_buffer s;
  frame_pool : prx_sec_engine_pool s' = prx_sec_engine_pool s;
  frame_tokens : prx_token_mngr s' = prx_token_mngr s;
  frame_crypto : prx_crypto_tasks s' = prx_crypto_tasks s;
  frame_ue : prx_ue_tasks s' = prx_ue_tasks s;
  frame_integrity : prx_integrity_enabled s' = prx_integrity_enabled s;
}.

Lemma prx_frame_refl s : prx_frame s s.
Proof. by constructor. Qed.
Lemma prx_frame_trans s1 s2 s3 : prx_frame s1 s2 -> prx_frame s2 s3 -> prx_frame s1 s3.
Proof. intros [] []. constructor; congruence. Qed.

(** RX_DELIV moves on, and what it passes is delivered. *)
Record prx_advance s s' (out : list pdcp_rx_output) : Prop := mk_prx_advance {
  adv_frame : prx_frame s s';
  adv_next : prx_next s' = prx_next s;
  adv_deliv : prx_deliv s <= prx_deliv s' <= prx_next s;
  adv_cleared : cleared (prx_deliv s) (prx_deliv s') (prx_window s) (prx_window s');
  adv_sdus : sdus_of out = held (prx_window s) (prx_deliv s) (prx_deliv s');
}.

Lemma prx_advance_trans s1 s2 s3 out1 out2 :
  prx_advance s1 s2 out1 -> prx_advance s2 s3 out2 -> prx_advance s1 s3 (out1 ++ out2).
Proof.
  intros [F1 N1 D1 C1 S1] [F2 N2 D2 C2 S2]. constructor.
  - by eapply prx_frame_trans.
  - congruence.
  - lia.
  - apply (cleared_trans _ (prx_deliv s2) _ _ (prx_window s2)); [lia|done|done].
  - rewrite sdus_of_app, S1, S2. rewrite (held_app _ (prx_deliv s1) (prx_deliv s2) (prx_deliv s3)) by lia. f_equal.
    apply (held_cleared _ _ (prx_deliv s1)); [lia|done].
Qed.

Lemma prx_held_ok_advance s s' out :
  prx_held_ok s -> prx_advance s s' out -> prx_held_ok s'.
Proof.
  intros [Hw Hc Hn Hu Hs] [F N D (Cw & Cc & V) S]. constructor; [done|congruence|lia|lia|].
  intros c info. rewrite V. case_decide; [done|]. intros Hv. destruct (Hs c info Hv) as (? & ? & ?). lia.
Qed.

Lemma prx_held_ok_ext s s' :
  prx_window s' = prx_window s -> prx_deliv s' = prx_deliv s -> prx_next s' = prx_next s ->
  prx_held_ok s -> prx_held_ok s'.
Proof. intros Ew Ed En [Hw Hc Hn Hu Hs]. constructor; rewrite ?Ew, ?Ed, ?En; done. Qed.

(** ** The operations on the window *)

Lemma deliver_all_consecutive_spec s :
  prx_held_ok s -> exists s' out, deliver_all_consecutive_counts s = Ok (s', out) /\
    prx_advance s s' out /\ prx_reord s' = prx_reord s /\
    prx_reordering_timer s' = prx_reordering_timer s /\
    win_view (prx_window s') (prx_deliv s') = None /\
    (forall c, prx_deliv s <= c < prx_deliv s' -> is_Some (win_view (prx_window s) c)).
Proof.
  intros [Hw Hc Hn Hu Hs]. unfold deliver_all_consecutive_counts.
  destruct (deliver_consecutive_spec (count_turns (prx_deliv s) (prx_next s)) (prx_next s) (prx_deliv s) (prx_window s))
    as (d & w' & -> & Hcl & Hd & Hall & Hend); [done|done|done|by apply count_turns_spec|].
  cbn [checked_bind]. eexists _, _. split; [done|]. unfold field_update. cbn. split; [constructor; cbn|].
  - by constructor.
  - done.
  - lia.
  - done.
  - apply sdus_of_delivered.
  - split_and!; [done..| |done]. destruct Hcl as (_ & _ & V). rewrite V, decide_False by lia.
    destruct (decide (d < prx_next s)); [by apply Hend|]. destruct (win_view (prx_window s) d) eqn:E; [|done].
    apply Hs in E. lia.
Qed.

(** The state after the timers were looked at. *)
Definition prx_settled s : Prop :=
  win_view (prx_window s) (prx_deliv s) = None /\
  (prx_reordering_timer s = true -> prx_deliv s < prx_reord s <= prx_next s /\ 0 < prx_t_reordering cfg) /\
  (prx_reordering_timer s = false -> prx_t_reordering cfg <> -1 -> prx_deliv s = prx_next s).

Lemma handle_t_reordering_expire_spec s :
  prx_cfg_ok -> prx_held_ok s -> prx_deliv s <= prx_reord s <= prx_next s ->
  0 <= prx_t_reordering cfg -> prx_reordering_timer s = false ->
  (prx_t_reordering cfg = 0 -> prx_reord s = prx_next s) ->
  exists s' out, handle_t_reordering_expire cfg s = Ok (s', out) /\
    prx_advance s s' out /\ prx_settled s' /\ prx_reord s <= prx_deliv s' /\
    (prx_deliv s' < prx_next s -> prx_reord s' = prx_next s).
Proof.
  intros Hcfg Hok Hr Ht Htm Hzero. pose proof Hok as [Hw Hc Hn Hu Hs]. unfold handle_t_reordering_expire.
  destruct (deliver_until_spec (count_turns (prx_deliv s) (prx_reord s)) (prx_reord s) (prx_deliv s) (prx_window s))
    as (w1 & -> & Hc1); [done|lia|lia|apply count_turns_spec; lia|]. cbn [checked_bind].
  set (s1 := s <| prx_deliv := prx_reord s |> <| prx_window := w1 |>).
  assert (prx_advance s s1 (delivered (prx_window s) (prx_deliv s) (prx_reord s))) as A1.
  { constructor; unfold s1, field_update; cbn; [by constructor|done|lia|done|apply sdus_of_delivered]. }
  destruct (deliver_all_consecutive_spec s1) as (s2 & out2 & -> & A2 & R2 & T2 & V2 & _).
  { by eapply prx_held_ok_advance. }
  cbn [checked_bind]. pose proof (prx_advance_trans _ _ _ _ _ A1 A2) as A12. pose proof A12 as [F12 N12 D12 C12 S12].
  pose proof (adv_deliv _ _ _ A2) as D2. unfold s1, field_update in D2, R2, T2. cbn in D2, R2, T2.
  assert (forall s' : pdcp_rx_entity W, s' = s2 \/ s' = s2 <| prx_reord := prx_next s2 |> <| prx_reordering_timer := true |> ->
    prx_advance s s' (PdcpRxMetricReorderingTimeouts 1 :: delivered (prx_window s) (prx_deliv s) (prx_reord s) ++ out2)) as Hadv.
  { intros s' [-> | ->]; [by constructor|]. destruct F12. by constructor. }
  rewrite N12 in *. destruct (prx_deliv s2 <? prx_next s) eqn:E; zbool.
  - assert (prx_t_reordering cfg <> 0) as Hne by (intros E0; specialize (Hzero E0); lia).
    rewrite (proj2 (Z.eqb_neq _ _)) by done. unfold prx_run_reordering_timer. rewrite (proj2 (Z.ltb_lt _ _)) by lia.
    cbn [checked_bind]. eexists _, _. split; [done|]. rewrite <- N12 in *. split; [apply Hadv; right; done|].
    unfold prx_settled, field_update. cbn. split_and!; [done|lia|done|lia|lia].
  - eexists _, _. split; [done|]. split; [apply Hadv; by left|]. unfold prx_settled.  
    split_and!; [done|congruence|rewrite N12; lia|lia|lia].
Qed.

(** RX_DELIV is the first count still waited for, and the timer runs for a reason. *)
Definition prx_timed s : Prop :=
  win_view (prx_window s) (prx_deliv s) = None /\
  (prx_reordering_timer s = true -> prx_deliv s < prx_reord s <= prx_next s /\ 0 < prx_t_reordering cfg).

Lemma prx_handle_timers_spec s :
  prx_cfg_ok -> prx_held_ok s -> win_view (prx_window s) (prx_deliv s) = None ->
  (prx_reordering_timer s = true -> prx_reord s <= prx_next s /\ 0 < prx_t_reordering cfg) ->
  exists s' out, prx_handle_timers cfg s = Ok (s', out) /\ prx_advance s s' out /\ prx_settled s' /\
    (prx_t_reordering cfg = -1 -> prx_deliv s' = prx_deliv s).
Proof.
  intros Hcfg Hok Hv Htm. pose proof Hok as [Hw Hc Hn Hu Hs]. unfold prx_handle_timers.
  set (s1 := if prx_reordering_timer s && (prx_reord s <=? prx_deliv s) then _ else s).
  assert (prx_advance s s1 []) as A1.
  { unfold s1. destruct (_ && _); constructor; unfold field_update; cbn; rewrite ?sdus_of_delivered;
      try (by apply cleared_refl) || lia || by constructor. all: unfold held; by rewrite Z.sub_diag. }
  assert (prx_deliv s1 = prx_deliv s /\ prx_reord s1 = prx_reord s /\ prx_window s1 = prx_window s /\ prx_next s1 = prx_next s)
    as (Ed & Er & Ew & En) by (unfold s1; by destruct (_ && _)).
  assert (prx_reordering_timer s1 = true -> prx_deliv s < prx_reord s /\ prx_reordering_timer s = true) as Ht1.
  { unfold s1. destruct (prx_reordering_timer s) eqn:E; cbn [andb]; [|by rewrite E].
    destruct (prx_reord s <=? prx_deliv s) eqn:E2; cbn; [done|]. zbool. split; [lia|done]. }
  destruct (prx_t_reordering cfg =? -1) eqn:E1; zbool.
  { exists s1, []. split; [done|]. split; [done|]. unfold prx_settled. rewrite Ed, Er, Ew, En.
    split_and!; [done| |done|done]. intros [? ?]%Ht1. destruct Htm; [done|]. lia. }
  pose proof Hcfg as (_ & _ & [?|Ht] & _); [done|].
  destruct (prx_t_reordering cfg =? 0) eqn:E0; zbool.
  - assert (prx_reordering_timer s1 = false) as Hoff.
    { destruct (prx_reordering_timer s1); [|done]. destruct Ht1 as [_ ?]; [done|]. destruct Htm; [done|]. lia. }
    destruct (handle_t_reordering_expire_spec (s1 <| prx_reord := prx_next s1 |>)) as (s' & out & -> & A & Hset & _);
      unfold field_update; cbn; rewrite ?Ed, ?En; try done || lia.
    { by apply (prx_held_ok_ext s). }
    exists s', out. split; [done|]. split; [|split; [done|lia]].
    change out with ([] ++ out). eapply prx_advance_trans; [exact A1|]. destruct A as [[] ? ? ? ?]. by constructor.
  - rewrite Ed, En. destruct (prx_reordering_timer s1) eqn:Et; cbn [negb andb].
    + exists s1, []. split; [done|]. split; [done|]. unfold prx_settled. rewrite Ed, Er, Ew, En, Et.
      split_and!; [done| |done|done]. intros _. destruct Ht1 as [? ?]; [done|]. destruct Htm; [done|]. lia.
    + destruct (prx_deliv s <? prx_next s) eqn:E2; zbool.
      * unfold prx_run_reordering_timer. rewrite (proj2 (Z.ltb_lt _ _)) by lia. cbn [checked_bind].
        eexists _, _. split; [done|]. split; [|split].
        -- destruct A1 as [[] ? ? ? ?]. by constructor.
        -- unfold prx_settled, field_update. cbn. rewrite Ed, Ew. split_and!; [done|lia|done].
        -- lia.
      * exists s1, []. split; [done|]. split; [done|]. unfold prx_settled. rewrite Ed, Er, Ew, En, Et.
        split_and!; [done|done|lia|done].
Qed.

(** [s1] is [s] with the SDU of [info] in the window. *)
Record prx_stored_in (info : pdcp_rx_pdu_info) s s1 : Prop := mk_prx_stored_in {
  stored_frame : prx_frame s s1;
  stored_deliv : prx_deliv s1 = prx_deliv s;
  stored_next : prx_next s1 = Z.max (prx_next s) (rpi_count info + 1);
  stored_view c : win_view (prx_window s1) c =
    if decide (c = rpi_count info) then Some (mk_pdcp_rx_sdu_info (rpi_buf info) (rpi_count info))
    else win_view (prx_window s) c;
}.

(** A count that the estimation gives and the hard maximum lets pass. *)
Definition prx_count_ok s (count : Z) : Prop :=
  0 <= count < prx_deliv s + prx_window_size cfg /\ count < prx_max_count_hard cfg.

Lemma window_mod_inj (a b d size : Z) :
  0 < size -> d <= a < d + size -> d <= b < d + size -> a mod size = b mod size -> a = b.
Proof.
  intros Hw Ha Hb E. pose proof (Z.div_mod a size ltac:(lia)). pose proof (Z.div_mod b size ltac:(lia)).
  assert (size * (a / size - b / size) = a - b) by lia. assert (a / size - b / size = 0) by nia. lia.
Qed.

(** A new SDU finds its place: no count of the window shares it. *)
Lemma prx_store_spec info s :
  prx_cfg_ok -> prx_held_ok s -> prx_count_ok s (rpi_count info) -> prx_deliv s <= rpi_count info ->
  win_view (prx_window s) (rpi_count info) = None ->
  exists w', prx_store info (prx_window s) = Ok w' /\
    let s1 := if prx_next s <=? rpi_count info
              then s <| prx_window := w' |> <| prx_next := u32 (rpi_count info + 1) |>
              else s <| prx_window := w' |> in
    prx_stored_in info s s1 /\ prx_held_ok s1 /\ prx_reord s1 = prx_reord s /\
    prx_reordering_timer s1 = prx_reordering_timer s.
Proof.
  intros (Hsz & Hhard & _) [Hw Hc Hn Hu Hs] [Hb Hh] Hd Hv. unfold prx_store.
  pose proof (pdcp_sizes _ Hsz) as (_ & _ & HW). fold (prx_window_size cfg) in HW.
  destruct (add_sn_spec (prx_window s) (rpi_count info) (mk_pdcp_rx_sdu_info (rpi_buf info) (rpi_count info)))
    as (w' & -> & Hw' & Hcap & Hvc & Hvo); [done|done|].
  exists w'. split; [done|]. set (s1 := if prx_next s <=? rpi_count info then _ else _).
  assert (prx_deliv s1 = prx_deliv s /\ prx_window s1 = w' /\ prx_reord s1 = prx_reord s /\
    prx_reordering_timer s1 = prx_reordering_timer s /\ prx_frame s s1 /\
    prx_next s1 = Z.max (prx_next s) (rpi_count info + 1)) as (Ed & Ew & Er & Et & Hf & En).
  { unfold s1. destruct (prx_next s <=? rpi_count info) eqn:E; zbool; unfold field_update; cbn;
      rewrite ?wrap_small by (unfold in_range; lia); split_and!; done || lia || by constructor. }
  clearbody s1.
  assert (forall c, win_view w' c = if decide (c = rpi_count info)
    then Some (mk_pdcp_rx_sdu_info (rpi_buf info) (rpi_count info)) else win_view (prx_window s) c) as V.
  { intros c. case_decide as Hd'; [by subst|]. rewrite (Hvo c Hd'). case_decide as Hm; [|done].
    destruct (win_view (prx_window s) c) as [i|] eqn:E; [|done]. destruct (Hs c i E) as (? & ? & ?).
    rewrite Hc in Hm. exfalso. apply Hd'. by apply (window_mod_inj _ _ (prx_deliv s) (prx_window_size cfg)); [lia..|]. }
  split; [constructor; try done; by rewrite Ew|]. split; [|done]. constructor; rewrite ?Ew, ?Ed, ?En.
  - done.
  - congruence.
  - lia.
  - lia.
  - intros c i. rewrite V. case_decide as Hd'.
    + intros [= <-]. subst c. cbn. split_and!; lia || done.
    + intros E%Hs. lia.
Qed.

Lemma apply_reordering_spec info s :
  prx_cfg_ok -> prx_held_ok s -> prx_timed s -> prx_count_ok s (rpi_count info) ->
  exists s' out, apply_reordering cfg info s = Ok (s', out) /\
    ((s' = s /\ out = [] /\ (rpi_count info < prx_deliv s \/ is_Some (win_view (prx_window s) (rpi_count info)))) \/
     (prx_deliv s <= rpi_count info /\ win_view (prx_window s) (rpi_count info) = None /\
      exists s1, prx_stored_in info s s1 /\ prx_held_ok s1 /\ prx_advance s1 s' out /\ prx_settled s' /\
        (prx_t_reordering cfg = -1 ->
         forall c, prx_deliv s1 <= c < prx_deliv s' -> is_Some (win_view (prx_window s1) c)))).
Proof.
  intros Hcfg Hok [Hv Htm] Hcount. pose proof Hok as [Hw Hc Hn Hu Hs]. unfold apply_reordering.
  set (c := rpi_count info) in *. destruct (c <? prx_deliv s) eqn:E1; zbool.
  { exists s, []. split; [done|]. left. split_and!; [done..|by left]. }
  rewrite has_sn_view. destruct (win_view (prx_window s) c) as [old|] eqn:Ec.
  { rewrite (win_at_view _ _ _ Ec). cbn [checked_bind]. destruct (Hs c old Ec) as (_ & _ & ->). rewrite Z.eqb_refl.
    cbn [checked_bind]. exists s, []. split; [done|]. left. split_and!; [done..|by right; eexists]. }
  cbn [checked_bind]. destruct (prx_store_spec info s Hcfg Hok Hcount E1 Ec) as (w' & -> & Hst & Hok1 & Er & Et).
  cbn [checked_bind]. cbn zeta in Hst, Hok1, Er, Et. fold c in Hst, Hok1, Er, Et.
  change (prx_next (s <| prx_window := w' |>)) with (prx_next s).
  set (s1 := if prx_next s <=? c then _ else _) in *. clearbody s1.
  assert (exists s2 out1, (if c =? prx_deliv s1 then deliver_all_consecutive_counts s1 else Ok (s1, [])) = Ok (s2, out1) /\
    prx_advance s1 s2 out1 /\ prx_reord s2 = prx_reord s1 /\ prx_reordering_timer s2 = prx_reordering_timer s1 /\
    win_view (prx_window s2) (prx_deliv s2) = None /\
    (forall c, prx_deliv s1 <= c < prx_deliv s2 -> is_Some (win_view (prx_window s1) c))) as (s2 & out1 & -> & A1 & R1 & T1 & V1 & All1).
  { destruct Hst as [F D N V]. destruct (c =? prx_deliv s1) eqn:E2; zbool.
    - destruct (deliver_all_consecutive_spec s1 Hok1) as (s2 & out & ? & ? & ? & ? & ? & ?). exists s2, out. done.
    - exists s1, []. destruct Hok1 as [? ? ? ? ?]. split; [done|]. split.
      { constructor; [apply prx_frame_refl|done|lia|by apply cleared_refl|]. unfold held. by rewrite Z.sub_diag. }
      split_and!; [done|done| |lia]. rewrite V, decide_False by done. by rewrite D. }
  destruct (prx_handle_timers_spec s2 Hcfg) as (s3 & out2 & E3 & A2 & Hset & Hinf).
  - by eapply prx_held_ok_advance.
  - done.
  - rewrite T1, Et, R1, Er. intros Hr. destruct (Htm Hr) as [[? ?] ?]. split; [|done].
    rewrite (adv_next _ _ _ A1), (stored_next _ _ _ Hst). lia.
  - unfold emit_bind. cbn [checked_bind]. rewrite E3. cbn [checked_bind]. eexists _, _. split; [done|]. right.
    split; [done|]. split; [done|]. exists s1. split; [done|]. split; [done|]. split; [by eapply prx_advance_trans|].
    split; [done|]. intros Hi. rewrite (Hinf Hi). done.
Qed.

End inv.
