(* ===== verification/PdcpRxSteps.v ===== *)
(** * PDCP receiving entity: every operation

    The invariant of the whole entity with its executors, where the SDUs of the window
    come from, and for every event that it succeeds, preserves both, and
    delivers in order. *)
From stdpp Require Import base numbers list sorting sets.
From Stdlib Require Import ZArith Lia.
From S2P Require Import Prelude.
From S2P Require Import SduWindow.
From S2P Require Import SecurityEngine.
From S2P Require Import PdcpSn.
From S2P Require Import PdcpPdu.
From S2P Require Import PdcpCryptoToken.
From S2P Require Import PdcpRx.
From S2P Require Import PdcpRxProps.

Set Default Goal Selector "!".
Open Scope Z_scope.
Open Scope ran_scope.

Section steps.
Context {W : Type -> Type} `{!SduWindow W} `{!SduWindowLaws W} `{!SecurityAlgorithms} `{!SecurityLaws}.
Variable cfg : pdcp_rx_config.
Implicit Types s : pdcp_rx_entity W.
Implicit Types w : W pdcp_rx_sdu_info.

(** ** Invariant of the entity *)

Definition task_info (task : pdcp_rx_task) : option pdcp_rx_pdu_info :=
  match task with ApplyReordering info => Some info | HandleFailure _ _ => None end.

(** The PDUs between the executors. *)
Definition prx_pending s : list pdcp_rx_pdu_info := prx_crypto_tasks s ++ omap task_info (prx_ue_tasks s).
Definition prx_in_flight s : Z := zlen (prx_crypto_tasks s) + zlen (prx_ue_tasks s).

Record prx_inv (halted : bool) s : Prop := mk_prx_inv {
  inv_held : prx_held_ok cfg s;
  inv_timed : prx_timed cfg s;
  inv_idle : prx_stopped s = false -> prx_reordering_timer s = false ->
    prx_t_reordering cfg <> -1 -> prx_deliv s = prx_next s;
  inv_pending : Forall (fun info => prx_count_ok cfg s (rpi_count info)) (prx_pending s);
  inv_long : Forall (fun info => prx_hdr_len_bytes cfg < zlen (rpi_buf info)) (prx_crypto_tasks s);
  inv_pool : zlen (prx_sec_engine_pool s) = prx_max_nof_crypto_workers cfg;
  inv_tokens : token_count (prx_in_flight s) halted (prx_token_mngr s);
  inv_halted : halted = true -> prx_buffering s = true \/ prx_stopped s = true;
}.

(** ** Where SDUs come from

    PDUs [received] while RX_DELIV had some value are in the executors, with the COUNT
    estimated from it, or in the buffer, to be received at any value;
    what is opened has its origin in one of them. *)
Section origin.
Variable received : Z -> list Z -> Prop.
Variable origin : Z -> list Z -> Prop.

Definition admitted (info : pdcp_rx_pdu_info) : Prop :=
  let sn := pdcp_compute_sn (rpi_count info) (prx_sn_size cfg) in
  pdcp_read_data_pdu_header (prx_sn_size cfg) (rpi_buf info) = Some sn /\
  exists deliv, received deliv (rpi_buf info) /\ rpi_count info = pdcp_estimate_count (prx_sn_size cfg) deliv sn.

Definition received_later (buf : list Z) : Prop := forall deliv, received deliv buf.

(** A PDU that arrives in a state. *)
Definition arrives s (buf : list Z) : Prop :=
  prx_stopped s = false -> if prx_buffering s then received_later buf else received (prx_deliv s) buf.

Record prx_tracks s : Prop := mk_prx_tracks {
  tracks_buffer : Forall received_later (prx_pdu_buffer s);
  tracks_crypto : Forall admitted (prx_crypto_tasks s);
  tracks_ue : Forall (fun info => origin (rpi_count info) (rpi_buf info)) (omap task_info (prx_ue_tasks s));
  tracks_window c info : win_view (prx_window s) c = Some info -> origin c (rsi_buf info);
}.

(** The security engines open nothing else. *)
Definition opens s : Prop := forall info worker result msg,
  admitted info ->
  apply_deciphering_and_integrity_check cfg worker (rpi_buf info) (rpi_count info) s = Ok result ->
  sr_buf result = inl msg -> prx_hdr_len_bytes cfg <= zlen msg ->
  origin (rpi_count info) (drop (Z.to_nat (prx_hdr_len_bytes cfg)) msg).

(** ** What an event delivers *)

Record prx_effect s s' (out : list pdcp_rx_output) : Prop := mk_prx_effect {
  effect_deliv : prx_deliv s <= prx_deliv s';
  effect_sorted : StronglySorted Z.lt (sdus_of out).*1;
  effect_range : Forall (fun c => prx_deliv s <= c < prx_deliv s') (sdus_of out).*1;
  effect_origin : prx_tracks s -> opens s -> Forall (fun x => origin x.1 x.2) (sdus_of out);
  effect_tracks : prx_tracks s -> opens s -> prx_tracks s';
  effect_lossless : prx_t_reordering cfg = -1 ->
    (sdus_of out).*1 = seqZ (prx_deliv s) (prx_deliv s' - prx_deliv s);
  effect_pool : prx_sec_engine_pool s' = prx_sec_engine_pool s;
}.

(** An event that leaves the window alone and delivers nothing. *)
Lemma prx_effect_quiet s s' out :
  sdus_of out = [] -> prx_deliv s' = prx_deliv s -> (prx_tracks s -> opens s -> prx_tracks s') ->
  prx_sec_engine_pool s' = prx_sec_engine_pool s -> prx_effect s s' out.
Proof.
  intros Ho Ed Ht Hp. constructor; rewrite ?Ho, ?Ed; [lia|constructor|constructor|by constructor|done| |done].
  intros _. by rewrite Z.sub_diag.
Qed.

Lemma opens_pool s s' : prx_sec_engine_pool s' = prx_sec_engine_pool s -> opens s -> opens s'.
Proof. intros Ep Ho info worker result msg Hi Ha. apply (Ho _ worker result); [done|].
  unfold apply_deciphering_and_integrity_check in *. by rewrite Ep in Ha. Qed.

Lemma StronglySorted_app_range (l l' : list Z) a b c :
  StronglySorted Z.lt l -> StronglySorted Z.lt l' ->
  Forall (fun x => a <= x < b) l -> Forall (fun x => b <= x < c) l' -> StronglySorted Z.lt (l ++ l').
Proof.
  intros Hl Hl' Hr Hr'. induction Hl as [|x l Hl IH HF]; cbn; [done|].
  apply Forall_cons in Hr as [Hx Hr]. constructor; [by apply IH|]. apply Forall_app. split; [done|].
  eapply Forall_impl; [exact Hr'|]. cbn. lia.
Qed.

Lemma prx_effect_trans s1 s2 s3 out1 out2 :
  prx_effect s1 s2 out1 -> prx_effect s2 s3 out2 -> prx_effect s1 s3 (out1 ++ out2).
Proof.
  intros [D1 S1 R1 O1 T1 L1 P1] [D2 S2 R2 O2 T2 L2 P2].
  assert (opens s1 -> opens s2) as Hop by (apply opens_pool; done).
  constructor; rewrite ?sdus_of_app, ?fmap_app.
  - lia.
  - by eapply StronglySorted_app_range.
  - apply Forall_app. split; (eapply Forall_impl; [eassumption|]); cbn; lia.
  - intros Ht Ho. apply Forall_app. split; [by apply O1|]. apply O2; [by apply T1|by apply Hop].
  - intros Ht Ho. apply T2; [by apply T1|by apply Hop].
  - intros Hi. rewrite L1, L2 by done.
    replace (prx_deliv s3 - prx_deliv s1) with ((prx_deliv s2 - prx_deliv s1) + (prx_deliv s3 - prx_deliv s2)) by lia.
    rewrite seqZ_app by lia. do 2 f_equal. lia.
  - congruence.
Qed.

(** An advance of RX_DELIV over the window. *)
Lemma prx_advance_effect s s' out :
  prx_held_ok cfg s -> prx_advance s s' out ->
  (prx_t_reordering cfg = -1 ->
   forall c, prx_deliv s <= c < prx_deliv s' -> is_Some (win_view (prx_window s) c)) ->
  prx_effect s s' out.
Proof.
  intros Hok [F N D (Cw & Cc & V) S] Hinf. destruct (held_counts (prx_window s) (prx_deliv s) (prx_deliv s')) as [Hs Hr].
  constructor; rewrite ?S; [lia|done|done| | | |by apply F].
  - intros [_ _ _ Ho] _. apply Forall_forall. intros [c sdu] (_ & info & Hv & ->)%elem_of_held. by apply Ho.
  - intros [Hb Hc Hu Ho] _. destruct F. constructor; [congruence|congruence|congruence|].
    intros c info. rewrite V. case_decide; [done|]. apply Ho.
  - intros Hi. specialize (Hinf Hi). unfold held.
    assert (forall c, c ∈ seqZ (prx_deliv s) (prx_deliv s' - prx_deliv s) -> is_Some (win_view (prx_window s) c)) as Hall.
    { intros c Hc%elem_of_seqZ. apply Hinf. lia. }
    induction (seqZ _ _) as [|c l IH]; [done|]. cbn [omap list_omap].
    destruct (Hall c) as [info ->]; [set_solver|]. cbn. f_equal. apply IH. set_solver.
Qed.

(** ** The UE executor *)

Lemma prx_return_token_spec n halted s :
  token_count n halted (prx_token_mngr s) -> 0 < n -> exists m,
    prx_return_token s = Ok (s <| prx_token_mngr := m |>) /\ token_count (n - 1) halted m.
Proof.
  intros Ht Hn. unfold prx_return_token. destruct (token_count_return _ _ _ Ht Hn) as (m & -> & Hm).
  by exists m.
Qed.

Lemma sdus_of_failure err : sdus_of (handle_failure err) = [].
Proof. by destruct err. Qed.

(** The counts in flight stay below a window that moves on. *)
Lemma prx_count_ok_mono s s' c : prx_deliv s <= prx_deliv s' -> prx_count_ok cfg s c -> prx_count_ok cfg s' c.
Proof. unfold prx_count_ok. lia. Qed.

Lemma prx_inv_apply halted s s' task tasks :
  prx_inv halted s -> prx_ue_tasks s = task :: tasks ->
  prx_frame (s <| prx_ue_tasks := tasks |>) s' -> prx_deliv s <= prx_deliv s' ->
  prx_held_ok cfg s' -> prx_timed cfg s' ->
  (prx_stopped s = false -> prx_reordering_timer s' = false -> prx_t_reordering cfg <> -1 -> prx_deliv s' = prx_next s') ->
  exists m, prx_return_token s' = Ok (s' <| prx_token_mngr := m |>) /\ prx_inv halted (s' <| prx_token_mngr := m |>).
Proof.
  intros [Hh Ht Hi Hp Hl Hpool Htok Hhalt] Eu [Fs Fb Fp Fpool Ftok Fc Fu Fi] Hd Hh' Ht' Hi'.
  unfold field_update in Fs, Fb, Fp, Fpool, Ftok, Fc, Fu, Fi. cbn in Fs, Fb, Fp, Fpool, Ftok, Fc, Fu, Fi.
  assert (prx_in_flight s = prx_in_flight s' + 1) as En.
  { unfold prx_in_flight. rewrite Fc, Fu, Eu, zlen_cons. lia. }
  rewrite <- Ftok in Htok. destruct (prx_return_token_spec _ _ _ Htok) as (m & -> & Hm).
  { rewrite En. unfold prx_in_flight. pose proof (zlen_nonneg (prx_crypto_tasks s')). pose proof (zlen_nonneg (prx_ue_tasks s')). lia. }
  exists m. split; [done|]. constructor.
  - by apply (prx_held_ok_ext cfg s').
  - done.
  - unfold field_update. cbn. rewrite Fs. done.
  - unfold prx_pending, field_update in *. cbn. rewrite Fc, Fu. rewrite Eu in Hp. apply Forall_app in Hp as [Hp1 Hp2].
    assert (forall info, prx_count_ok cfg s (rpi_count info) -> prx_count_ok cfg s' (rpi_count info)) as Hm' by
      (intros info; by apply prx_count_ok_mono).
    apply Forall_app. split; (eapply Forall_impl; [|exact Hm']); [done|].
    cbn in Hp2. destruct (task_info task); [by apply Forall_cons in Hp2 as [_ ?]|done].
  - unfold field_update. cbn. by rewrite Fc.
  - unfold field_update. cbn. by rewrite Fpool.
  - by replace (prx_in_flight (s' <| prx_token_mngr := m |>)) with (prx_in_flight s - 1) by (rewrite En; unfold prx_in_flight, field_update; cbn; lia).
  - unfold field_update. cbn. by rewrite Fb, Fs.
Qed.
(** An event that succeeds. *)
Definition prx_succeeds (r : checked (pdcp_rx_entity W * list pdcp_rx_output)) (halted : bool) s : Prop :=
  exists s' out, r = Ok (s', out) /\ prx_inv halted s' /\ prx_effect s s' out.

Hypothesis Hcfg : prx_cfg_ok cfg.

Lemma prx_run_ue_spec halted s : prx_inv halted s -> prx_succeeds (prx_run_ue cfg s) halted s.
Proof.
  intros Hinv. pose proof Hinv as [Hh Ht Hi Hp Hl Hpool Htok Hhalt]. unfold prx_run_ue, prx_succeeds.
  destruct (prx_ue_tasks s) as [|task tasks] eqn:Eu.
  { exists s, []. split; [done|]. split; [done|]. by apply prx_effect_quiet. }
  set (s0 := s <| prx_ue_tasks := tasks |>).
  assert (prx_held_ok cfg s0 /\ prx_timed cfg s0) as [Hh0 Ht0] by (split; [by apply (prx_held_ok_ext cfg s)|done]).
  assert (omap task_info (prx_ue_tasks s) = omap task_info [task] ++ omap task_info tasks) as Eo
    by (by rewrite Eu, <- omap_app).
  destruct task as [info|err count].
  - assert (prx_count_ok cfg s0 (rpi_count info)) as Hcount.
    { apply Forall_app in Hp as [_ Hp]. rewrite Eu in Hp. by apply Forall_cons in Hp as [? _]. }
    destruct (apply_reordering_spec cfg info s0 Hcfg Hh0 Ht0 Hcount) as (s' & out & -> & Hcase).
    cbn [checked_bind].
    destruct Hcase as [(-> & -> & _)|(Hd & Hv & s1 & Hst & Hok1 & Hadv & Hset & Hinf)].
    + destruct (prx_inv_apply halted s s0 (ApplyReordering info) tasks) as (m & -> & Hm);
        [done|done|apply prx_frame_refl|unfold s0, field_update; cbn; lia|done|done|done|].
      eexists _, _. split; [done|]. split; [done|]. apply prx_effect_quiet; [done|done| |done].
      intros [Tb Tc Tu Tw] _. rewrite Eo in Tu. apply Forall_app in Tu as [_ Tu]. by constructor.
    + pose proof Hst as [F D N V]. pose proof Hadv as [F' N' D' C' S'].
      destruct (prx_inv_apply halted s s' (ApplyReordering info) tasks) as (m & -> & Hm); [done|done| |rewrite D in D'; unfold s0, field_update in D'; cbn in D'; lia| | | |].
      * by apply (prx_frame_trans _ s1).
      * by apply (prx_held_ok_advance cfg s1 s' out).
      * by destruct Hset as (? & ? & _).
      * by destruct Hset as (_ & _ & ?).
      * eexists _, _. split; [done|]. split; [done|].
        change (PdcpRxMetricIntegrityVerified 1 :: out) with ([PdcpRxMetricIntegrityVerified 1] ++ out).
        apply (prx_effect_trans s s1).
        { apply prx_effect_quiet; [done|done| |by apply F]. intros [Tb Tc Tu Tw] _. rewrite Eo in Tu.
          apply Forall_app in Tu as [[Ho _]%Forall_cons Tu]. destruct F as [_ _ Fb _ _ Fc Fu _].
          constructor; rewrite ?Fb, ?Fc, ?Fu; [done|done|done|]. intros c i. rewrite V. case_decide; [|apply Tw].
          intros [= <-]. by subst. }
        rewrite <- (app_nil_r out). apply (prx_effect_trans s1 s'); [by apply (prx_advance_effect s1 s')|].
        apply prx_effect_quiet; [done|done| |done]. intros [Tb Tc Tu Tw] _. by constructor.
  - cbn [checked_bind]. destruct (prx_inv_apply halted s s0 (HandleFailure err count) tasks) as (m & -> & Hm);
      [done|done|apply prx_frame_refl|unfold s0, field_update; cbn; lia|done|done|done|].
    eexists _, _. split; [done|]. split; [done|]. apply prx_effect_quiet; [apply sdus_of_failure|done| |done].
    intros [Tb Tc Tu Tw] _. rewrite Eo in Tu. apply Forall_app in Tu as [_ Tu]. by constructor.
Qed.

(** ** t-Reordering *)

Lemma prx_expired_spec halted s :
  prx_inv halted s -> prx_reordering_timer s = true ->
  prx_succeeds (reordering_callback cfg (s <| prx_reordering_timer := false |>)) halted s.
Proof.
  intros Hinv Et. pose proof Hinv as [Hh [Hv Ht] Hi Hp Hl Hpool Htok Hhalt]. destruct (Ht Et) as [Hr Hpos].
  unfold reordering_callback, prx_succeeds. set (s0 := s <| prx_reordering_timer := false |>).
  assert (prx_held_ok cfg s0) as Hh0 by (by apply (prx_held_ok_ext cfg s)).
  destruct (prx_stopped s0) eqn:Es.
  - exists s0, []. split; [done|]. split; [|by apply prx_effect_quiet; try done; intros []; constructor].
    unfold s0, field_update in Es. cbn in Es. constructor; try done.
    intros Es'. change (prx_stopped s = false) in Es'. congruence.
  - destruct (handle_t_reordering_expire_spec cfg s0 Hcfg Hh0) as (s' & out & -> & Hadv & Hset & Hre & _);
      unfold s0, field_update; cbn; [lia|lia|done|lia|]. pose proof Hadv as [F N D C S].
    exists s', out. split; [done|]. split.
    + destruct F as [Fs Fb Fp Fpool Ftok Fc Fu Fi]. destruct Hset as (Hv' & Ht' & Hi').
      assert (prx_in_flight s' = prx_in_flight s) as En by (unfold prx_in_flight; by rewrite Fc, Fu).
      constructor; rewrite ?En, ?Fc, ?Fpool, ?Ftok, ?Fb, ?Fs; try done.
      * by apply (prx_held_ok_advance cfg s0 s' out).
      * unfold prx_pending. rewrite Fc, Fu. eapply Forall_impl; [exact Hp|]. intros i. apply prx_count_ok_mono.
        unfold s0, field_update in D. cbn in D. lia.
    + change out with ([] ++ out). apply (prx_effect_trans s s0).
      * apply prx_effect_quiet; [done|done| |done]. intros []. by constructor.
      * apply (prx_advance_effect s0 s'); [done|done|]. intros Hm. lia.
Qed.
(** ** The crypto executor *)

(** The security of a worker takes a MAC off. *)
Definition trims_mac s (worker_idx : Z) : bool :=
  match prx_sec_engine_pool s !! Z.to_nat worker_idx with
  | Some (Some eng) => match integ_eng eng with Some _ => true | None => false end
  | _ => prx_is_srb cfg
  end.

(** A worker of the pool, and a PDU that has room for the MAC. *)
Definition crypto_ok s (i : nat) (worker_idx : Z) : Prop :=
  0 <= worker_idx < prx_max_nof_crypto_workers cfg /\
  forall info, prx_crypto_tasks s !! i = Some info -> trims_mac s worker_idx = true ->
    prx_hdr_len_bytes cfg + sec_mac_len <= zlen (rpi_buf info).

Lemma prx_hdr_size : (if bool_decide (prx_sn_size cfg = pdcp_size12bits) then 2 else 3) = prx_hdr_len_bytes cfg.
Proof. unfold prx_hdr_len_bytes. destruct Hcfg as [Hsz _]. unfold sn_size_ok in Hsz. by destruct (prx_sn_size cfg). Qed.

Lemma prx_hdr_len_range : 2 <= prx_hdr_len_bytes cfg <= 3.
Proof. unfold prx_hdr_len_bytes. destruct (prx_sn_size cfg); cbn; lia. Qed.

Lemma apply_deciphering_spec s worker_idx buf count :
  zlen (prx_sec_engine_pool s) = prx_max_nof_crypto_workers cfg ->
  0 <= worker_idx < prx_max_nof_crypto_workers cfg -> prx_hdr_len_bytes cfg < zlen buf ->
  (trims_mac s worker_idx = true -> prx_hdr_len_bytes cfg + sec_mac_len <= zlen buf) ->
  exists result, apply_deciphering_and_integrity_check cfg worker_idx buf count s = Ok result /\
    forall msg, sr_buf result = inl msg -> prx_hdr_len_bytes cfg <= zlen msg.
Proof.
  intros Hpool Hw Hlen Htrim. pose proof prx_hdr_len_range. unfold apply_deciphering_and_integrity_check, trims_mac in *.
  rewrite (proj2 (Z.leb_gt _ _)) by lia.
  destruct (lookup_lt_is_Some_2 (prx_sec_engine_pool s) (Z.to_nat worker_idx)) as [e E]; [unfold zlen in Hpool; lia|].
  rewrite E in *. destruct e as [eng|].
  - eexists. split; [done|]. intros msg Hm. rewrite prx_hdr_size in Hm. apply decrypt_length in Hm; [|lia].
    destruct (integ_eng eng); [specialize (Htrim eq_refl)|]; lia.
  - destruct (prx_is_srb cfg).
    + specialize (Htrim eq_refl). unfold sec_mac_len in *. rewrite (proj2 (Z.leb_gt _ _)) by lia.
      eexists. split; [done|]. cbn [sr_buf]. intros msg [= <-]. unfold zlen in *. rewrite length_take. lia.
    + eexists. split; [done|]. cbn [sr_buf]. intros msg [= <-]. lia.
Qed.

(** The task that follows, or its refusal. *)
Lemma prx_execute_ue_spec halted s i info accepted task :
  prx_inv halted s -> prx_crypto_tasks s !! i = Some info ->
  (forall info', task_info task = Some info' -> rpi_count info' = rpi_count info) ->
  let s0 := s <| prx_crypto_tasks ::= delete i |> in
  exists s', prx_execute_ue accepted task s0 = Ok s' /\ prx_inv halted s' /\
    ((prx_tracks s -> opens s -> forall info', task_info task = Some info' -> origin (rpi_count info') (rpi_buf info')) ->
     prx_effect s s' []).
Proof.
  intros Hinv Ei Hcount s0. pose proof Hinv as [Hh Ht Hi Hp Hl Hpool Htok Hhalt].
  assert (zlen (delete i (prx_crypto_tasks s)) = zlen (prx_crypto_tasks s) - 1) as Elen.
  { unfold zlen. rewrite length_delete by done. apply lookup_lt_Some in Ei. lia. }
  unfold prx_pending in Hp. apply Forall_app in Hp as [Hp1 Hp2].
  assert (Forall (fun info => prx_count_ok cfg s (rpi_count info)) (delete i (prx_crypto_tasks s) ++ omap task_info (prx_ue_tasks s))) as Hp'.
  { apply Forall_app. split; [by apply Forall_delete|done]. }
  unfold prx_execute_ue. destruct accepted.
  - eexists. split; [done|]. split.
    + constructor; try done.
      * by apply (prx_held_ok_ext cfg s).
      * unfold prx_pending, s0, field_update. cbn. rewrite omap_app, app_assoc. apply Forall_app. split; [done|].
        cbn. destruct (task_info task) as [info'|] eqn:E; [|done]. apply Forall_singleton. rewrite (Hcount info' eq_refl).
        eapply Forall_lookup_1 in Hp1; [|exact Ei]. done.
      * unfold s0, field_update. cbn. by apply Forall_delete.
      * replace (prx_in_flight _) with (prx_in_flight s); [done|]. unfold prx_in_flight, s0, field_update. cbn.
        rewrite Elen, zlen_app. unfold zlen. cbn [length]. lia.
    + intros Ho. apply prx_effect_quiet; [done|done| |done]. intros Htr Hop. specialize (Ho Htr Hop).
      destruct Htr as [Tb Tc Tu Tw]. constructor; unfold s0, field_update; cbn; [done|by apply Forall_delete| |done].
      rewrite omap_app. apply Forall_app. split; [done|]. cbn. destruct (task_info task) as [info'|]; [|done].
      apply Forall_singleton. by apply Ho.
  - assert (0 < prx_in_flight s) as Hpos.
    { unfold prx_in_flight. apply lookup_lt_Some in Ei. unfold zlen. lia. }
    destruct (prx_return_token_spec (prx_in_flight s) halted s0 Htok Hpos) as (m & -> & Hm).
    eexists. split; [done|]. split.
    + constructor; try done.
      * by apply (prx_held_ok_ext cfg s).
      * unfold s0, field_update. cbn. by apply Forall_delete.
      * replace (prx_in_flight _) with (prx_in_flight s - 1); [done|]. unfold prx_in_flight, s0, field_update. cbn. lia.
    + intros _. apply prx_effect_quiet; [done|done| |done]. intros [Tb Tc Tu Tw] _.
      constructor; unfold s0, field_update; cbn; [done|by apply Forall_delete|done|done].
Qed.

Lemma prx_run_crypto_spec halted s i worker_idx accepted :
  prx_inv halted s -> crypto_ok s i worker_idx ->
  prx_succeeds (let? s' := prx_run_crypto cfg i worker_idx accepted s in Ok (s', [])) halted s.
Proof.
  intros Hinv [Hw Hlong]. pose proof Hinv as [Hh Ht Hi Hp Hl Hpool Htok Hhalt]. unfold prx_run_crypto, prx_succeeds.
  destruct (prx_crypto_tasks s !! i) as [info|] eqn:Ei.
  2: { exists s, []. split; [done|]. split; [done|]. by apply prx_effect_quiet. }
  unfold apply_security. set (s0 := s <| prx_crypto_tasks ::= delete i |>).
  destruct (apply_deciphering_spec s worker_idx (rpi_buf info) (rpi_count info) Hpool Hw) as (result & Hr & Hmsg).
  { eapply Forall_lookup_1 in Hl; [|exact Ei]. done. }
  { by apply Hlong. }
  change (apply_deciphering_and_integrity_check cfg worker_idx (rpi_buf info) (rpi_count info) s0) with
    (apply_deciphering_and_integrity_check cfg worker_idx (rpi_buf info) (rpi_count info) s).
  rewrite Hr. cbn [checked_bind]. destruct (sr_buf result) as [msg|err] eqn:Er.
  - rewrite prx_hdr_size. rewrite (proj2 (Z.leb_le _ _)) by (by apply Hmsg).
    edestruct (prx_execute_ue_spec halted s i info accepted) as (s' & -> & Hinv' & Heff); [done|done| |].
    2: { exists s', []. split; [done|]. split; [exact Hinv'|]. apply Heff. intros Htr Hop info' [= <-]. cbn.
         apply (Hop _ worker_idx result); [|done|done|by apply Hmsg]. eapply Forall_lookup_1; [apply tracks_crypto|]; done. }
    by intros info' [= <-].
  - subst s0. edestruct (prx_execute_ue_spec halted s i info accepted (HandleFailure err (sr_count result))) as (s' & -> & Hinv' & Heff); [done|done|done|].
    exists s', []. split; [done|]. split; [done|]. by apply Heff.
Qed.
(** ** Reception *)

(** Changes that neither the window nor the executors see. *)
Lemma prx_inv_ext halted s s' :
  prx_frame s s' -> prx_window s' = prx_window s -> prx_deliv s' = prx_deliv s ->
  prx_next s' = prx_next s -> prx_reord s' = prx_reord s -> prx_reordering_timer s' = prx_reordering_timer s ->
  prx_inv halted s -> prx_inv halted s'.
Proof.
  intros [Fs Fb Fp Fpool Ftok Fc Fu Fi] Ew Ed En Er Et [Hh Ht Hi Hp Hl Hpool Htok Hhalt].
  assert (prx_in_flight s' = prx_in_flight s) as Ef by (unfold prx_in_flight; by rewrite Fc, Fu).
  constructor; unfold prx_timed, prx_pending, prx_count_ok in *;
    rewrite ?Ef, ?Fs, ?Fb, ?Fc, ?Fu, ?Fpool, ?Ftok, ?Ew, ?Ed, ?En, ?Er, ?Et; try done.
  by apply (prx_held_ok_ext cfg s).
Qed.

Lemma check_max_count_spec count s :
  exists b1 b2 out, check_max_count cfg count s =
    (prx_max_count_hard cfg <=? count,
     s <| prx_max_count_notified := b1 |> <| prx_max_count_overflow := b2 |>, out) /\ sdus_of out = [].
Proof.
  destruct s. unfold check_max_count, field_update. cbn.
  destruct (_ && _), (_ <=? _); [destruct (negb _)|..|destruct (negb _)|];
    eexists _, _, _; (split; [reflexivity|reflexivity]).
Qed.

Lemma prx_execute_crypto_spec s accepted info :
  prx_inv false s -> prx_in_flight s + 1 < 2 ^ 32 - 1 -> prx_count_ok cfg s (rpi_count info) ->
  prx_hdr_len_bytes cfg < zlen (rpi_buf info) -> admitted info ->
  exists s', prx_execute_crypto accepted info s = Ok s' /\ prx_inv false s' /\ prx_effect s s' [] /\
    prx_in_flight s' <= prx_in_flight s + 1 /\ prx_buffering s' = prx_buffering s /\ prx_pdu_buffer s' = prx_pdu_buffer s.
Proof.
  intros Hinv Hn Hcount Hlen Hadm. pose proof Hinv as [Hh Ht Hi Hp Hl Hpool Htok Hhalt]. unfold prx_execute_crypto.
  pose proof (token_count_increment _ _ Htok Hn) as Htok1. set (s0 := s <| prx_token_mngr ::= increment_token |>).
  assert (0 <= prx_in_flight s) as Hpos by (unfold prx_in_flight, zlen; lia).
  destruct accepted.
  - assert (prx_in_flight (s0 <| prx_crypto_tasks ::= fun l => l ++ [info] |>) = prx_in_flight s + 1) as En.
    { unfold prx_in_flight, s0, field_update. cbn. rewrite zlen_app. unfold zlen. cbn [length]. lia. }
    eexists. split; [done|]. split; [|split; [|split; [lia|done]]].
    + constructor; try done.
      * by apply (prx_held_ok_ext cfg s).
      * unfold prx_pending, s0, field_update in *. cbn. apply Forall_app in Hp as [Hp1 Hp2].
        apply Forall_app. split; [|done]. apply Forall_app. split; [done|]. by apply Forall_singleton.
      * unfold s0, field_update. cbn. apply Forall_app. split; [done|]. by apply Forall_singleton.
      * rewrite En. done.
    + apply prx_effect_quiet; [done|done| |done]. intros [Tb Tc Tu Tw] _. constructor; unfold s0, field_update; cbn; try done.
      apply Forall_app. split; [done|]. by apply Forall_singleton.
  - assert (0 < prx_in_flight s + 1) as Hp1 by lia.
    destruct (prx_return_token_spec _ _ s0 Htok1 Hp1) as (m & -> & Hm).
    eexists. split; [done|]. rewrite Z.add_simpl_r in Hm. split; [|split; [|split; [|done]]].
    + constructor; try done. by apply (prx_held_ok_ext cfg s).
    + apply prx_effect_quiet; [done|done| |done]. intros []. by constructor.
    + unfold prx_in_flight, s0, field_update. cbn. lia.
Qed.

(** A PDU in: one more PDU in flight at most. *)
Definition prx_takes_in (r : checked (pdcp_rx_entity W * list pdcp_rx_output)) (halted : bool) s : Prop :=
  exists s' out, r = Ok (s', out) /\ prx_inv halted s' /\ prx_effect s s' out /\
    prx_in_flight s' <= prx_in_flight s + 1 /\ prx_buffering s' = prx_buffering s /\
    (prx_buffering s = false -> prx_pdu_buffer s' = prx_pdu_buffer s).

Lemma prx_takes_in_quiet halted s out :
  prx_inv halted s -> sdus_of out = [] -> prx_takes_in (Ok (s, out)) halted s.
Proof. intros Hinv Ho. eexists _, _. split; [done|]. split_and!; try done || lia. by apply prx_effect_quiet. Qed.

Lemma prx_handle_data_pdu_spec exec_ok pdu s :
  prx_inv false s -> prx_in_flight s + 1 < 2 ^ 32 - 1 -> received (prx_deliv s) pdu ->
  prx_takes_in (handle_data_pdu cfg exec_ok pdu s) false s.
Proof.
  intros Hinv Hn Hrec. unfold handle_data_pdu.
  destruct (zlen pdu <=? prx_hdr_len_bytes cfg) eqn:El; zbool; [by apply prx_takes_in_quiet|].
  destruct (pdcp_read_data_pdu_header (prx_sn_size cfg) pdu) as [sn|] eqn:Er; [|by apply prx_takes_in_quiet].
  set (count := pdcp_estimate_count _ _ _). destruct (check_max_count_spec count s) as (b1 & b2 & out & -> & Hout).
  set (s1 := s <| prx_max_count_notified := b1 |> <| prx_max_count_overflow := b2 |>).
  assert (prx_inv false s1) as Hinv1 by (apply (prx_inv_ext _ s); done || by constructor).
  assert (prx_effect s s1 (PdcpRxMetricDataPdus 1 (zlen pdu) :: out)) as Heff1.
  { apply prx_effect_quiet; [done|done| |done]. intros []. by constructor. }
  destruct (prx_max_count_hard cfg <=? count) eqn:Eh; zbool.
  { eexists _, _. split; [done|]. split_and!; try done. unfold prx_in_flight, s1, field_update. cbn. lia. }
  pose proof Hinv as [[_ _ Hc Hu _] _ _ _ _ _ _ _]. pose proof Hcfg as (Hsz & Hhard & _).
  destruct (estimate_count_bound (prx_sn_size cfg) (prx_deliv s) sn Hsz) as (Hr & Esn & Hb);
    [unfold in_range; lia|by eapply read_sn_range|]. fold count in Hr, Esn, Hb. fold (prx_window_size cfg) in Hb.
  unfold in_range in Hr.
  edestruct (prx_execute_crypto_spec s1 exec_ok (mk_pdcp_rx_pdu_info pdu count))
    as (s2 & -> & Hinv2 & Heff2 & Hn2 & Eb & Ep); [done|exact Hn| |done| |].
  { unfold prx_count_ok, s1, field_update. cbn. lia. }
  { unfold admitted. cbn [rpi_buf rpi_count]. rewrite Esn. split; [done|]. by exists (prx_deliv s). }
  eexists _, _. split; [done|]. split_and!; try done.
  rewrite <- (app_nil_r (_ :: out)). by apply (prx_effect_trans s s1).
Qed.

Lemma pdcp_dc_cases b : pdcp_pdu_get_dc b = 0 \/ pdcp_pdu_get_dc b = 1.
Proof. unfold pdcp_pdu_get_dc. bits. dlia. Qed.

Lemma prx_handle_pdu_spec halted env buf s :
  prx_inv halted s -> prx_in_flight s + 1 < 2 ^ 32 - 1 -> arrives s buf ->
  prx_takes_in (prx_handle_pdu cfg env buf s) halted s.
Proof.
  intros Hinv Hn Hrec. unfold prx_handle_pdu.
  destruct (prx_stopped s) eqn:Es; [by apply prx_takes_in_quiet|].
  specialize (Hrec Es). destruct (prx_buffering s) eqn:Eb.
  { destruct (_ =? _); [by apply prx_takes_in_quiet|]. eexists _, _. split; [done|]. split_and!; try done.
    - pose proof Hinv as []. constructor; try done. by apply (prx_held_ok_ext cfg s).
    - apply prx_effect_quiet; [done|done| |done]. intros [Tb Tc Tu Tw] _. constructor; try done.
      unfold field_update. cbn. apply Forall_app. split; [done|]. by apply Forall_singleton.
    - unfold prx_in_flight, field_update. cbn. lia.
    - unfold field_update. cbn. congruence. }
  assert (halted = false) as ->.
  { destruct halted; [|done]. destruct (inv_halted _ _ Hinv eq_refl); congruence. }
  destruct buf as [|first buf']; [by apply prx_takes_in_quiet|].
  destruct (negb (prx_copy_ok env)); [by apply prx_takes_in_quiet|].
  set (buf := first :: buf') in *.
  destruct (prx_is_srb cfg || (pdcp_pdu_get_dc first =? pdcp_dc_data)) eqn:Ed.
  - destruct (prx_handle_data_pdu_spec (prx_exec_ok env) buf s Hinv Hn Hrec) as (s' & out & -> & Hinv' & Heff & Hn' & Eb' & Ep).
    eexists _, _. split; [done|]. split_and!; try done.
    change (PdcpRxMetricPdus 1 (zlen buf) :: out) with ([PdcpRxMetricPdus 1 (zlen buf)] ++ out).
    apply (prx_effect_trans s s); [by apply prx_effect_quiet|done].
  - apply orb_false_iff in Ed as [_ Ed]. zbool. unfold pdcp_dc_data in Ed. destruct (pdcp_dc_cases first) as [E0|]; [|done].
    unfold handle_control_pdu, buf. rewrite E0. change (0 =? pdcp_dc_control) with true. cbn [checked_bind].
    apply prx_takes_in_quiet; [done|]. by destruct (_ =? _).
Qed.

Lemma flush_pdu_buffer_spec halted pdus envs s :
  prx_inv halted s -> halted = false \/ prx_stopped s = true -> prx_buffering s = false -> prx_pdu_buffer s = pdus ->
  prx_in_flight s + zlen pdus < 2 ^ 32 - 1 -> Forall received_later pdus ->
  prx_succeeds (flush_pdu_buffer cfg pdus envs s) halted s.
Proof.
  revert envs s. induction pdus as [|buf pdus IH]; intros envs s Hinv Hhalt Hb Ep Hn Hrec; cbn [flush_pdu_buffer].
  { exists s, []. split; [done|]. split; [done|]. by apply prx_effect_quiet. }
  apply Forall_cons in Hrec as [Hbuf Hrec]. rewrite zlen_cons in Hn. pose proof (zlen_nonneg pdus).
  set (s0 := s <| prx_pdu_buffer := pdus |>).
  assert (prx_inv halted s0) as Hinv0 by (destruct Hinv; constructor; try done; by apply (prx_held_ok_ext cfg s)).
  assert (prx_effect s s0 []) as Heff0.
  { apply prx_effect_quiet; [done|done| |done]. intros [Tb Tc Tu Tw] _. rewrite Ep in Tb.
    apply Forall_cons in Tb as [_ Tb]. by constructor. }
  destruct (prx_handle_pdu_spec halted (default (mk_pdcp_rx_env true true) (head envs)) buf s0 Hinv0)
    as (s1 & out1 & E1 & Hinv1 & Heff1 & Hn1 & Eb1 & Ep1);
    [change (prx_in_flight s + 1 < 2 ^ 32 - 1); lia| |].
  { intros _. change (prx_buffering s0) with (prx_buffering s). rewrite Hb. apply Hbuf. }
  rewrite E1. unfold emit_bind. cbn [checked_bind].
  destruct (IH (tail envs) s1) as (s2 & out2 & -> & Hinv2 & Heff2).
  - done.
  - destruct Hhalt as [|Hs]; [by left|]. right.
    unfold prx_handle_pdu in E1. change (prx_stopped s0) with (prx_stopped s) in E1. rewrite Hs in E1.
    injection E1 as <- <-. done.
  - by rewrite Eb1.
  - by apply Ep1.
  - change (prx_in_flight s1 <= prx_in_flight s + 1) in Hn1. lia.
  - done.
  - cbn [checked_bind]. eexists _, _. split; [done|]. split; [done|].
    change (out1 ++ out2) with ([] ++ (out1 ++ out2)). apply (prx_effect_trans s s0); [done|].
    by apply (prx_effect_trans s0 s1).
Qed.
(** ** Control of the processing *)

(** What the callers of the entity keep to: processing is stopped and restarted in turns,
    only while PDUs are buffered; the counts and keys are replaced when no PDU is in
    flight; and the number of PDUs in flight does not come near 2^32.
    [halted] tells that processing is stopped. *)
Definition sec_cfg_ok (sec_cfg : sec_128_as_config) (integrity : bool) : Prop :=
  sec_config_domain sec_cfg = (if prx_is_srb cfg then sec_domain_rrc else sec_domain_up) /\
  (prx_is_srb cfg = true -> integrity = true).

Definition prx_op_ok (halted : bool) s (op : pdcp_rx_op) : Prop :=
  match op with
  | PdcpRxPdu _ _ => prx_in_flight s + 1 < 2 ^ 32 - 1
  | PdcpRxCrypto i worker_idx _ => crypto_ok s i worker_idx
  | PdcpRxUeTask | PdcpRxReorderingExpired | PdcpRxBeginBuffering => True
  | PdcpRxEndBuffering _ =>
      (halted = false \/ prx_stopped s = true) /\ prx_in_flight s + zlen (prx_pdu_buffer s) < 2 ^ 32 - 1
  | PdcpRxConfigureSecurity sec_cfg integrity _ => sec_cfg_ok sec_cfg integrity
  | PdcpRxReestablish sec_cfg => sec_cfg_ok sec_cfg (prx_integrity_enabled s) /\ prx_in_flight s = 0
  | PdcpRxNotifyStopped => prx_stopped s = false -> halted = false /\ prx_buffering s = true
  | PdcpRxRestart => prx_stopped s = false -> halted = true
  | PdcpRxSetCount hfn sn => is_u32 sn /\ prx_next s = 0 /\ prx_reord s = 0
  | PdcpRxStop => prx_stopped s = false -> halted = false
  end.

Definition prx_halted_after (halted : bool) s (op : pdcp_rx_op) : bool :=
  match op with
  | PdcpRxNotifyStopped | PdcpRxStop => if prx_stopped s then halted else true
  | PdcpRxRestart => if prx_stopped s then halted else false
  | _ => halted
  end.

(** The events that keep the counts and the keys. *)
Definition prx_keeps (op : pdcp_rx_op) : bool :=
  match op with
  | PdcpRxConfigureSecurity _ _ _ | PdcpRxReestablish _ | PdcpRxSetCount _ _ => false
  | _ => true
  end.

Lemma pdcp_rx_step_spec halted s op :
  prx_inv halted s -> prx_op_ok halted s op -> prx_keeps op = true ->
  (forall env buf, op = PdcpRxPdu env buf -> arrives s buf) -> Forall received_later (prx_pdu_buffer s) ->
  prx_succeeds (pdcp_rx_step cfg op s) (prx_halted_after halted s op) s.
Proof.
  intros Hinv Hop Hk Hrec Hbuf. pose proof Hinv as [Hh Ht Hi Hp Hl Hpool Htok Hhalt].
  assert (prx_succeeds (Ok (s, [])) halted s) as Hsame.
  { exists s, []. split; [done|]. split; [done|]. by apply prx_effect_quiet. }
  assert (forall s', prx_deliv s' = prx_deliv s -> prx_sec_engine_pool s' = prx_sec_engine_pool s ->
    (prx_tracks s -> prx_tracks s') -> prx_effect s s' []) as Hquiet.
  { intros s' Ed Ep Htr. apply prx_effect_quiet; [done|done|by intros ? _; apply Htr|done]. }
  destruct op as [env buf|i worker acc| | | | | |envs| | | |]; try done; cbn [pdcp_rx_step prx_halted_after prx_op_ok] in *.
  - destruct (prx_handle_pdu_spec halted env buf s Hinv Hop) as (s' & out & ? & ? & ? & _); [by eapply Hrec|].
    by exists s', out.
  - by apply prx_run_crypto_spec.
  - by apply prx_run_ue_spec.
  - destruct (prx_reordering_timer s) eqn:E; [|done]. by apply prx_expired_spec.
  - eexists _, _. split; [done|]. split.
    + constructor; try done; [by apply (prx_held_ok_ext cfg s)|by left].
    + apply Hquiet; [done|done|]. intros []. by constructor.
  - destruct Hop as [Hop Hn]. unfold end_buffering. set (s0 := s <| prx_buffering := false |>).
    destruct (flush_pdu_buffer_spec halted (prx_pdu_buffer s) envs s0) as (s' & out & -> & Hinv' & Heff); try done.
    + constructor; try done; [by apply (prx_held_ok_ext cfg s)|]. intros ->. destruct Hop as [|Hop]; [done|by right].
    + exists s', out. split; [done|]. split; [done|]. change out with ([] ++ out).
      apply (prx_effect_trans s s0); [|done]. apply Hquiet; [done|done|]. intros []. by constructor.
  - unfold notify_pdu_processing_stopped. destruct (prx_stopped s) eqn:E; [done|].
    destruct (Hop eq_refl) as [-> Hb]. destruct (token_count_stop _ _ Htok) as (m & -> & Hm). cbn [checked_bind].
    eexists _, _. split; [done|]. split.
    + constructor; try done; [by apply (prx_held_ok_ext cfg s)|by intros _; apply Hi|by left].
    + apply Hquiet; [done|done|]. intros []. by constructor.
  - unfold restart_pdu_processing. destruct (prx_stopped s) eqn:E; [done|]. rewrite (Hop eq_refl) in Htok.
    eexists _, _. split; [done|]. split.
    + constructor; try done; [by apply (prx_held_ok_ext cfg s)|by intros _; apply Hi|by apply token_count_start].
    + apply Hquiet; [done|done|]. intros []. by constructor.
  - unfold prx_stop. destruct (prx_stopped s) eqn:E; [done|].
    rewrite (Hop eq_refl) in Htok. destruct (token_count_stop _ _ Htok) as (m & -> & Hm). cbn [checked_bind].
    eexists _, _. split; [done|]. split.
    + constructor; try done; [by apply (prx_held_ok_ext cfg s)|by destruct Ht as [? _]|by right].
    + apply Hquiet; [done|done|]. intros []. by constructor.
Qed.
End origin.

(** ** Keys and counts *)

Lemma make_engines_spec n sec_cfg integrity ciphering :
  (integrity = true -> is_Some (k_128_int sec_cfg) /\ is_Some (integ_algo sec_cfg)) ->
  exists eng, make_engines cfg n sec_cfg integrity ciphering = Ok (replicate n (Some eng)).
Proof.
  intros Hi. assert (exists eng, security_engine_impl sec_cfg (prx_bearer_id cfg) (prx_direction cfg) integrity ciphering = Ok eng)
    as (eng & E).
  { unfold security_engine_impl. destruct integrity; [|by eexists]. destruct Hi as [[k ->] [a ->]]; [done|by eexists]. }
  exists eng. induction n as [|n IH]; cbn [make_engines replicate]; [done|]. by rewrite E, IH.
Qed.

Lemma configure_security_spec sec_cfg integrity ciphering s :
  zlen (prx_sec_engine_pool s) = prx_max_nof_crypto_workers cfg -> sec_cfg_ok sec_cfg integrity ->
  exists i c pool, configure_security cfg sec_cfg integrity ciphering s =
    Ok (s <| prx_integrity_enabled := i |> <| prx_ciphering_enabled := c |> <| prx_sec_engine_pool := pool |>) /\
    zlen pool = prx_max_nof_crypto_workers cfg.
Proof.
  intros Hpool [Hd Hsrb]. unfold configure_security. rewrite bool_decide_eq_true_2 by done.
  destruct (integrity && _) eqn:Em.
  { exists (prx_integrity_enabled s), (prx_ciphering_enabled s), (prx_sec_engine_pool s). split; [by destruct s|done]. }
  assert (integrity || negb (prx_is_srb cfg) = true) as -> by (destruct (prx_is_srb cfg); [by rewrite Hsrb|by destruct integrity]).
  destruct (make_engines_spec (Z.to_nat (prx_max_nof_crypto_workers cfg)) sec_cfg integrity ciphering) as (eng & ->).
  { intros ->. cbn in Em. apply orb_false_iff in Em as [E1%bool_decide_eq_false E2%bool_decide_eq_false].
    split; by apply not_eq_None_Some. }
  cbn [checked_bind]. eexists _, _, _. split; [done|]. unfold zlen. rewrite length_replicate.
  unfold zlen in Hpool. lia.
Qed.

Lemma prx_inv_keys halted s i c pool :
  prx_inv halted s -> zlen pool = prx_max_nof_crypto_workers cfg ->
  prx_inv halted (s <| prx_integrity_enabled := i |> <| prx_ciphering_enabled := c |> <| prx_sec_engine_pool := pool |>).
Proof. intros [] Hpool. constructor; try done. by apply (prx_held_ok_ext cfg s). Qed.
End steps.
