(* ===== verification/PdcpRxRuns.v ===== *)
(** * PDCP receiving entity: executions

    Re-establishment and status transfer, then the theorems about whole
    executions: no failed assertion, in-order authentic delivery, t-Reordering, status
    reports, and what a stray PDU does. *)
From stdpp Require Import base numbers list sorting sets.
From Stdlib Require Import ZArith Lia.
From S2P Require Import Prelude.
From S2P Require Import SduWindow.
From S2P Require Import BitEncoding.
From S2P Require Import SecurityEngine.
From S2P Require Import PdcpSn.
From S2P Require Import PdcpPdu.
From S2P Require Import PdcpCryptoToken.
From S2P Require Import PdcpRx.
From S2P Require Import PdcpRxProps.
From S2P Require Import PdcpRxSteps.

Set Default Goal Selector "!".
Open Scope Z_scope.
Open Scope ran_scope.

Section runs.
Context {W : Type -> Type} `{!SduWindow W} `{!SduWindowLaws W} `{!SecurityAlgorithms} `{!SecurityLaws}.
Variable cfg : pdcp_rx_config.
Implicit Types s : pdcp_rx_entity W.
Implicit Types w : W pdcp_rx_sdu_info.

(** ** Re-establishment *)

Lemma nothing_in_flight s : prx_in_flight s = 0 -> prx_crypto_tasks s = [] /\ prx_ue_tasks s = [].
Proof. unfold prx_in_flight, zlen. intros Hn. split; apply length_zero_iff_nil; lia. Qed.

Lemma cleared_all s w' :
  prx_held_ok cfg s -> cleared (prx_deliv s) (prx_next s) (prx_window s) w' -> forall c, win_view w' c = None.
Proof.
  intros [Hw Hc Hn Hu Hs] (_ & _ & V) c. rewrite V. case_decide; [done|].
  destruct (win_view (prx_window s) c) eqn:E; [|done]. apply Hs in E. lia.
Qed.

(** An entity with an empty window and its counts at zero. *)
Lemma prx_inv_reset halted s s' :
  prx_cfg_ok cfg -> prx_inv cfg halted s -> prx_in_flight s = 0 -> prx_frame s s' ->
  win_wf (prx_window s') -> win_cap (prx_window s') = win_cap (prx_window s) ->
  (forall c, win_view (prx_window s') c = None) ->
  prx_next s' = 0 -> prx_deliv s' = 0 -> prx_reordering_timer s' = false -> prx_inv cfg halted s'.
Proof.
  intros (Hsz & _) [Hh Ht Hi Hp Hl Hpool Htok Hhalt] Hn [Fs Fb Fp Fpool Ftok Fc Fu Fi] Hw Hcap Hv En Ed Et.
  pose proof (nothing_in_flight s Hn) as [Ec Eu].
  assert (prx_in_flight s' = prx_in_flight s) as Ef by (unfold prx_in_flight; by rewrite Fc, Fu).
  constructor; unfold prx_timed, prx_pending; rewrite ?Ef, ?Fs, ?Fb, ?Fc, ?Fu, ?Fpool, ?Ftok, ?Et, ?Ec, ?Eu; try done.
  - constructor; rewrite ?En, ?Ed; [done| |lia|lia|].
    + rewrite Hcap. apply Hh.
    + intros c info. by rewrite Hv.
  - intros _ _ _. congruence.
Qed.

Lemma discard_all_sdus_spec s :
  prx_held_ok cfg s -> exists w',
    discard_all_sdus s = Ok (s <| prx_deliv := prx_next s |> <| prx_window := w' |>) /\
    cleared (prx_deliv s) (prx_next s) (prx_window s) w'.
Proof.
  intros [Hw Hc Hn Hu Hs]. unfold discard_all_sdus.
  edestruct (discard_all_spec (count_turns (prx_deliv s) (prx_next s))) as (w' & -> & Hcl);
    [exact Hw|exact Hn|exact Hu|by apply count_turns_spec|]. by exists w'.
Qed.

Lemma deliver_all_sdus_spec s :
  prx_held_ok cfg s -> exists w',
    deliver_all_sdus s = Ok (s <| prx_window := w' |>, delivered (prx_window s) (prx_deliv s) (prx_next s)) /\
    cleared (prx_deliv s) (prx_next s) (prx_window s) w'.
Proof.
  intros [Hw Hc Hn Hu Hs]. unfold deliver_all_sdus.
  edestruct (deliver_all_spec (count_turns (prx_deliv s) (prx_next s))) as (w' & -> & Hcl);
    [exact Hw|exact Hn|exact Hu|by apply count_turns_spec|]. by exists w'.
Qed.

(** The counts and the window of a re-established bearer. *)
Definition prx_reset s : Prop :=
  prx_next s = 0 /\ prx_deliv s = 0 /\ prx_reord s = 0 /\ prx_reordering_timer s = false /\
  forall c, win_view (prx_window s) c = None.

(** The first part of the re-establishment of a bearer that does not keep its SDUs. *)
Lemma drain_spec s :
  prx_held_ok cfg s -> prx_is_srb cfg || prx_is_um cfg = true ->
  exists s1 s2 w' out, (if prx_is_srb cfg then discard_all_sdus s else Ok s) = Ok s1 /\
    (let s1 := s1 <| prx_reordering_timer := false |> in
     if prx_is_um cfg then deliver_all_sdus s1 else Ok (s1, [])) = Ok (s2, out) /\
    prx_frame s s2 /\ prx_window s2 = w' /\ win_wf w' /\ win_cap w' = win_cap (prx_window s) /\
    (forall c, win_view w' c = None) /\ prx_reordering_timer s2 = false /\
    sdus_of out = (if negb (prx_is_srb cfg) && prx_is_um cfg
                   then held (prx_window s) (prx_deliv s) (prx_next s) else []).
Proof.
  intros Hok Hsu. destruct (prx_is_srb cfg).
  - destruct (discard_all_sdus_spec s Hok) as (w1 & -> & Hcl). pose proof (cleared_all s w1 Hok Hcl) as Hv1.
    pose proof Hcl as (Hw1 & Hc1 & _). set (s1 := s <| prx_deliv := prx_next s |> <| prx_window := w1 |>).
    set (s1' := s1 <| prx_reordering_timer := false |>).
    destruct (prx_is_um cfg); cbn [negb andb].
    + assert (prx_held_ok cfg s1') as Hok1.
      { destruct Hok as [Hw Hc Hn Hu Hs]. unfold s1', s1, field_update. constructor; cbn; [done|congruence|lia|lia|].
        intros c info. by rewrite Hv1. }
      destruct (deliver_all_sdus_spec s1' Hok1) as (w2 & E2 & Hcl2). pose proof (cleared_all s1' w2 Hok1 Hcl2) as Hv2.
      destruct Hcl2 as (Hw2 & Hc2 & _). eexists _, _, _, _. split; [done|]. split; [exact E2|].
      split_and!; try done; [etransitivity; [exact Hc2|exact Hc1]|].
      rewrite sdus_of_delivered. unfold held, s1', s1, field_update. cbn. by rewrite Z.sub_diag.
    + eexists _, _, _, _. split; [done|]. split; [done|]. by split_and!.
  - cbn in Hsu. rewrite Hsu. cbn [negb andb].
    destruct (deliver_all_sdus_spec (s <| prx_reordering_timer := false |>)) as (w2 & E2 & Hcl2);
      [by apply (prx_held_ok_ext cfg s)|].
    pose proof (cleared_all s w2 Hok Hcl2) as Hv2. destruct Hcl2 as (Hw2 & Hc2 & _).
    eexists _, _, _, _. split; [done|]. split; [exact E2|]. split_and!; try done. by rewrite sdus_of_delivered.
Qed.

Lemma zeroed_spec halted s s2 :
  prx_cfg_ok cfg -> prx_inv cfg halted s -> prx_in_flight s = 0 -> prx_frame s s2 ->
  win_wf (prx_window s2) -> win_cap (prx_window s2) = win_cap (prx_window s) ->
  (forall c, win_view (prx_window s2) c = None) -> prx_reordering_timer s2 = false ->
  let s3 := s2 <| prx_next := 0 |> <| prx_deliv := 0 |> <| prx_reord := 0 |> in
  prx_inv cfg halted s3 /\ prx_reset s3 /\ prx_integrity_enabled s3 = prx_integrity_enabled s.
Proof.
  intros Hcfg Hinv Hn F Hw Hc Hv Et s3. split; [|split].
  - apply (prx_inv_reset halted s); try done. destruct F. by constructor.
  - by split_and!.
  - apply F.
Qed.

Lemma reestablish_spec halted s sec_cfg :
  prx_cfg_ok cfg -> prx_inv cfg halted s -> sec_cfg_ok cfg sec_cfg (prx_integrity_enabled s) -> prx_in_flight s = 0 ->
  exists s' out, reestablish cfg sec_cfg s = Ok (s', out) /\ prx_inv cfg halted s' /\
    sdus_of out = (if negb (prx_is_srb cfg) && prx_is_um cfg
                   then held (prx_window s) (prx_deliv s) (prx_next s) else []) /\
    (if prx_is_srb cfg || prx_is_um cfg then prx_reset s'
     else prx_window s' = prx_window s /\ prx_deliv s' = prx_deliv s /\ prx_next s' = prx_next s /\
          prx_reord s' = prx_reord s /\ prx_reordering_timer s' = prx_reordering_timer s).
Proof.
  intros Hcfg Hinv Hsec Hn. pose proof Hinv as [Hh Ht Hi Hp Hl Hpool Htok Hhalt]. unfold reestablish.
  destruct (prx_is_srb cfg || prx_is_um cfg) eqn:Esu.
  - destruct (drain_spec s Hh Esu) as (s1 & s2 & w' & out & -> & E2 & F & Ew & Hw' & Hc' & Hv' & Et & Hout).
    cbn [checked_bind]. cbv zeta in E2. rewrite E2. clear E2. cbn [checked_bind].
    destruct (zeroed_spec halted s s2 Hcfg Hinv Hn F) as (Hinv3 & Hreset & Ei); try (by rewrite Ew); [done|].
    cbv zeta. set (s3 := s2 <| prx_next := 0 |> <| prx_deliv := 0 |> <| prx_reord := 0 |>) in *. clearbody s3.
    destruct (configure_security_spec cfg sec_cfg (prx_integrity_enabled s3) (prx_ciphering_enabled s3) s3)
      as (i & c & pool & -> & Epool); [by apply (inv_pool _ halted)|by rewrite Ei|].
    cbn [checked_bind]. eexists _, _. split; [reflexivity|]. split; [by apply prx_inv_keys|]. by split.
  - apply orb_false_iff in Esu as [-> ->]. cbn [checked_bind negb andb].
    destruct (configure_security_spec cfg sec_cfg (prx_integrity_enabled s) (prx_ciphering_enabled s) s)
      as (i & c & pool & -> & Epool); [done|done|].
    cbn [checked_bind]. eexists _, _. split; [done|]. split; [|split; [done|]]; [by apply prx_inv_keys|by split_and!].
Qed.

(** ** Every event *)

Lemma set_count_inv halted s hfn sn :
  prx_cfg_ok cfg -> prx_inv cfg halted s -> is_u32 sn -> prx_next s = 0 -> prx_inv cfg halted (set_count cfg hfn sn s).
Proof.
  intros (Hsz & _) [Hh Ht Hi Hp Hl Hpool Htok Hhalt] Hsn E0. unfold set_count.
  set (count := pdcp_compute_count hfn sn (prx_sn_size cfg)).
  assert (0 <= count < 2 ^ 32) as Hc by (apply lor_range; [lia|apply wrap_range; lia|done]).
  pose proof Hh as [Hw Hcap Hcn Hu Hs].
  assert (forall c, win_view (prx_window s) c = None) as Hv.
  { intros c. destruct (win_view (prx_window s) c) eqn:E; [|done]. apply Hs in E. lia. }
  constructor; unfold field_update; cbn; try done.
  - constructor; cbn; [done|done|lia|lia|]. intros c info. by rewrite Hv.
  - split; cbn; [by rewrite Hv|]. intros Et. destruct Ht as [_ Ht]. specialize (Ht Et). lia.
  - unfold prx_pending, prx_count_ok in *. cbn. eapply Forall_impl; [exact Hp|]. cbn. lia.
Qed.

Lemma pdcp_rx_step_inv halted s op :
  prx_cfg_ok cfg -> prx_inv cfg halted s -> prx_op_ok cfg halted s op ->
  exists s' out, pdcp_rx_step cfg op s = Ok (s', out) /\ prx_inv cfg (prx_halted_after halted s op) s'.
Proof.
  intros Hcfg Hinv Hop. destruct (prx_keeps op) eqn:Ek.
  - destruct (pdcp_rx_step_spec cfg (fun _ _ => True) (fun _ _ => True) Hcfg halted s op) as (s' & out & ? & ? & _); try done.
    { intros env buf _ _. by destruct (prx_buffering s). } { by apply Forall_true. }
    by exists s', out.
  - destruct op; try done; cbn [pdcp_rx_step prx_halted_after prx_op_ok] in *.
    + destruct (configure_security_spec cfg sec_cfg integrity ciphering s (inv_pool _ _ _ Hinv) Hop) as (i & c & pool & -> & Ep).
      cbn [checked_bind]. eexists _, _. split; [done|]. by apply prx_inv_keys.
    + destruct Hop as [Hsec Hn]. destruct (reestablish_spec halted s sec_cfg) as (s' & out & -> & ? & _); try done. by exists s', out.
    + destruct Hop as (Hsn & E0 & _). eexists _, _. split; [done|]. by apply set_count_inv.
Qed.

Lemma pdcp_rx_init_inv :
  prx_cfg_ok cfg -> exists s, prx_init cfg = Ok s /\ prx_inv cfg false s /\ prx_deliv s = 0 /\
    prx_pdu_buffer s = [] /\ prx_crypto_tasks s = [] /\ prx_ue_tasks s = [] /\
    (forall c, win_view (prx_window s) c = None) /\
    prx_sec_engine_pool s = replicate (Z.to_nat (prx_max_nof_crypto_workers cfg)) None.
Proof.
  intros (Hsz & Hhard & Ht & Hwk). unfold prx_init.
  assert (exists n, 0 <= n /\ prx_window_size cfg = 2 ^ n) as (n & Hn & En).
  { unfold prx_window_size. destruct (prx_sn_size cfg); [exists 11|exists 17|done]; done. }
  rewrite En. destruct (win_make_spec (T := pdcp_rx_sdu_info) n Hn) as (w & -> & Hw & Hcap & _ & Hv).
  cbn [checked_bind]. eexists. split; [done|]. split; [|done]. constructor; cbn; try done.
  - constructor; cbn; [done|congruence|lia|lia|]. intros c info. by rewrite Hv.
  - unfold zlen. rewrite length_replicate. lia.
Qed.

(** ** Executions *)

(** A sequence of events that the callers may cause, with what it emits; the booleans
    tell whether processing is stopped before and after. *)
Inductive prx_exec (halted : bool) s : list pdcp_rx_op -> list pdcp_rx_output -> bool -> pdcp_rx_entity W -> Prop :=
| prx_exec_nil : prx_exec halted s [] [] halted s
| prx_exec_cons op ops s1 out1 out2 halted2 s2 :
    prx_op_ok cfg halted s op -> pdcp_rx_step cfg op s = Ok (s1, out1) ->
    prx_exec (prx_halted_after halted s op) s1 ops out2 halted2 s2 ->
    prx_exec halted s (op :: ops) (out1 ++ out2) halted2 s2.

Definition prx_reachable (halted : bool) s : Prop :=
  exists s0 ops out, prx_init cfg = Ok s0 /\ prx_exec false s0 ops out halted s.

Lemma prx_exec_inv halted s ops out halted' s' :
  prx_cfg_ok cfg -> prx_exec halted s ops out halted' s' -> prx_inv cfg halted s -> prx_inv cfg halted' s'.
Proof.
  intros Hcfg He. induction He as [|h s op ops s1 out1 out2 h2 s2 Hop Hstep He IH]; [done|]. intros Hinv.
  apply IH. destruct (pdcp_rx_step_inv h s op Hcfg Hinv Hop) as (s1' & out & E & Hinv').
  rewrite Hstep in E. by injection E as <- <-.
Qed.

Lemma prx_reachable_inv halted s : prx_cfg_ok cfg -> prx_reachable halted s -> prx_inv cfg halted s.
Proof.
  intros Hcfg (s0 & ops & out & E & He). destruct (pdcp_rx_init_inv Hcfg) as (s0' & E' & Hinv & _).
  rewrite E in E'. injection E' as <-.
  by apply (prx_exec_inv _ _ _ _ _ _ Hcfg He).
Qed.

(** [P] holds of every PDU that arrives, in the state that it meets. *)
Fixpoint prx_arrivals (P : pdcp_rx_entity W -> list Z -> Prop) (ops : list pdcp_rx_op) s : Prop :=
  match ops with
  | [] => True
  | op :: ops =>
      match op with PdcpRxPdu _ buf => P s buf | _ => True end /\
      match pdcp_rx_step cfg op s with Ok (s', _) => prx_arrivals P ops s' | Panic => True end
  end.

Lemma prx_arrivals_all (P : pdcp_rx_entity W -> list Z -> Prop) ops s :
  (forall env buf s, PdcpRxPdu env buf ∈ ops -> P s buf) -> prx_arrivals P ops s.
Proof.
  revert s. induction ops as [|op ops IH]; intros s HP; cbn [prx_arrivals]; [done|]. split.
  - destruct op; try done. eapply HP. apply list_elem_of_here.
  - destruct (pdcp_rx_step cfg op s) as [[s' ?]|]; [|done]. apply IH. intros env buf s2 Hin. eapply HP.
    by apply list_elem_of_further.
Qed.

(** What an execution without a change of keys and counts delivers. *)
Lemma prx_exec_effect received origin halted s ops out halted' s' :
  prx_cfg_ok cfg -> prx_exec halted s ops out halted' s' -> prx_inv cfg halted s ->
  forallb prx_keeps ops = true -> prx_arrivals (arrives received) ops s ->
  prx_tracks cfg received origin s -> opens cfg received origin s ->
  prx_effect cfg received origin s s' out.
Proof.
  intros Hcfg He. induction He as [|h s op ops s1 out1 out2 h2 s2 Hop Hstep He IH]; intros Hinv Hk Harr Htr Hopen.
  { by apply prx_effect_quiet. }
  destruct Harr as [Hrec1 Hrec].
  cbn in Hk. apply andb_true_iff in Hk as [Hk1 Hk2].
  destruct (pdcp_rx_step_spec cfg received origin Hcfg h s op Hinv Hop Hk1) as (s1' & out1' & E & Hinv1 & Heff).
  { by intros env buf ->. }
  { by apply Htr. }
  rewrite Hstep in E, Hrec. injection E as <- <-. apply (prx_effect_trans _ _ _ s s1); [done|]. apply IH; [done|done|done| |].
  - by apply Heff.
  - eapply opens_pool; [apply Heff|done].
Qed.


(** The event that the control procedures await before they replace keys: it is set
    exactly when processing was stopped and no PDU is left in the crypto executor or
    in the executor of the UE. *)
Theorem crypto_awaitable_exact halted s :
  prx_cfg_ok cfg -> prx_reachable halted s ->
  (tm_pending_crypto (prx_token_mngr s) = true <->
   halted = true /\ prx_crypto_tasks s = [] /\ prx_ue_tasks s = []).
Proof.
  intros Hcfg Hr. destruct (prx_reachable_inv _ _ Hcfg Hr) as [_ _ _ _ _ _ (_ & _ & ->) _].
  rewrite andb_true_iff, Z.eqb_eq. split.
  - intros [-> Hn]. split; [done|]. by apply nothing_in_flight.
  - intros (-> & Ec & Eu). unfold prx_in_flight. by rewrite Ec, Eu.
Qed.

(** An entity that holds nothing: new, or re-established. *)
Definition prx_fresh s : Prop :=
  prx_in_flight s = 0 /\ prx_pdu_buffer s = [] /\ forall c, win_view (prx_window s) c = None.

Lemma prx_fresh_tracks received origin s : prx_fresh s -> prx_tracks cfg received origin s.
Proof.
  intros (Hn & Hb & Hv). destruct (nothing_in_flight s Hn) as [Ec Eu].
  constructor; rewrite ?Ec, ?Eu, ?Hb; [constructor|constructor|constructor|]. intros c info. by rewrite Hv.
Qed.

(** The SDU of [pdu] as its sender protected it for [count]. *)
Definition protected_as (eng : security_engine) (pdu : list Z) (count : Z) (sdu : list Z) : Prop :=
  exists header, zlen header = prx_hdr_len_bytes cfg /\
    pdcp_read_data_pdu_header (prx_sn_size cfg) pdu = Some (pdcp_compute_sn count (prx_sn_size cfg)) /\
    encrypt_and_protect_integrity true eng (header ++ sdu) (prx_hdr_len_bytes cfg) count =
      Ok (mk_security_result (inl pdu) count).

Lemma apply_deciphering_engine s eng worker buf count result msg :
  prx_cfg_ok cfg ->
  prx_sec_engine_pool s = replicate (Z.to_nat (prx_max_nof_crypto_workers cfg)) (Some eng) ->
  apply_deciphering_and_integrity_check cfg worker buf count s = Ok result -> sr_buf result = inl msg ->
  decrypt_and_verify_integrity eng buf (prx_hdr_len_bytes cfg) count = mk_security_result (inl msg) count.
Proof.
  intros Hcfg Epool Ha Em. unfold apply_deciphering_and_integrity_check in Ha. rewrite Epool in Ha.
  destruct (_ <=? _); [done|]. destruct (_ !! _) as [e|] eqn:El; [|done].
  apply lookup_replicate in El as [-> _]. rewrite (prx_hdr_size cfg Hcfg) in Ha. injection Ha as <-.
  by apply decrypt_result.
Qed.

(** What an engine opens was protected, for a COUNT estimated from its SN. *)
Definition opened_from (received : Z -> list Z -> Prop) (eng : security_engine) (count : Z) (sdu : list Z) : Prop :=
  exists deliv pdu, received deliv pdu /\
    count = pdcp_estimate_count (prx_sn_size cfg) deliv (pdcp_compute_sn count (prx_sn_size cfg)) /\
    protected_as eng pdu count sdu.

Lemma engine_opens received eng s :
  prx_cfg_ok cfg ->
  prx_sec_engine_pool s = replicate (Z.to_nat (prx_max_nof_crypto_workers cfg)) (Some eng) ->
  opens cfg received (opened_from received eng) s.
Proof.
  intros Hcfg Epool info worker result msg (Hsn & deliv & Hrec & Ec) Ha Em Hlen. pose proof (prx_hdr_len_range cfg).
  pose proof (apply_deciphering_engine _ _ _ _ _ _ _ Hcfg Epool Ha Em) as Hd.
  exists deliv, (rpi_buf info). split; [done|]. split; [done|]. exists (take (Z.to_nat (prx_hdr_len_bytes cfg)) msg).
  split; [unfold zlen in *; rewrite length_take; lia|]. split; [done|]. rewrite take_drop.
  assert (prx_hdr_len_bytes cfg <= zlen (rpi_buf info)) as Hl.
  { unfold pdcp_read_data_pdu_header in Hsn. destruct (_ <=? _) eqn:E; [done|]. zbool. unfold prx_hdr_len_bytes. lia. }
  apply (security_iff eng msg (rpi_buf info) (prx_hdr_len_bytes cfg) (rpi_count info)); [|lia|done].
  intros ->. change (zlen (@nil Z)) with 0 in Hlen. lia.
Qed.

(** C11. In-order, authentic delivery, without duplicates: an entity that starts empty
    and keeps its keys delivers SDUs in strictly increasing order of COUNT, from
    RX_DELIV on; each one comes from a received PDU that a sender with the same keys
    makes out of that SDU for that very COUNT, and with the SN of that COUNT.  When
    t-Reordering is infinite no COUNT is left out. *)
Theorem pdcp_rx_in_order halted s0 ops out halted' s eng :
  prx_cfg_ok cfg -> prx_reachable halted s0 -> prx_fresh s0 ->
  prx_sec_engine_pool s0 = replicate (Z.to_nat (prx_max_nof_crypto_workers cfg)) (Some eng) ->
  prx_exec halted s0 ops out halted' s -> forallb prx_keeps ops = true ->
  StronglySorted Z.lt (sdus_of out).*1 /\
  Forall (fun c => prx_deliv s0 <= c < prx_deliv s) (sdus_of out).*1 /\
  Forall (fun x => exists env pdu, PdcpRxPdu env pdu ∈ ops /\ protected_as eng pdu x.1 x.2) (sdus_of out) /\
  (prx_t_reordering cfg = -1 -> (sdus_of out).*1 = seqZ (prx_deliv s0) (prx_deliv s - prx_deliv s0)).
Proof.
  intros Hcfg Hr Hf Epool He Hk.
  set (received := fun (_ : Z) pdu => exists env, PdcpRxPdu env pdu ∈ ops).
  pose proof (engine_opens received eng s0 Hcfg Epool) as Hopen.
  pose proof (prx_fresh_tracks received (opened_from received eng) s0 Hf) as Htr.
  assert (prx_arrivals (arrives received) ops s0) as Harr.
  { apply prx_arrivals_all. intros env buf s1 Hin _. destruct (prx_buffering s1); [intros deliv|]; by exists env. }
  destruct (prx_exec_effect _ _ _ _ _ _ _ _ Hcfg He (prx_reachable_inv _ _ Hcfg Hr) Hk Harr Htr Hopen) as [Hd Hs Hrg Ho _ Hl _].
  split_and!; [done|done| |done]. eapply Forall_impl; [by apply Ho|].
  intros x (deliv & pdu & [env Hin] & _ & Hp). by exists env, pdu.
Qed.

(** ** t-Reordering *)

Lemma expiry_spec halted s :
  prx_cfg_ok cfg -> prx_inv cfg halted s -> prx_stopped s = false -> prx_reordering_timer s = true ->
  exists s' out, pdcp_rx_step cfg PdcpRxReorderingExpired s = Ok (s', out) /\ prx_inv cfg halted s' /\
    prx_stopped s' = false /\ prx_next s' = prx_next s /\ prx_deliv s <= prx_deliv s' <= prx_next s /\
    cleared (prx_deliv s) (prx_deliv s') (prx_window s) (prx_window s') /\
    sdus_of out = held (prx_window s) (prx_deliv s) (prx_deliv s') /\ prx_reord s <= prx_deliv s' /\
    (prx_deliv s' < prx_next s -> prx_reord s' = prx_next s /\ prx_reordering_timer s' = true).
Proof.
  intros Hcfg Hinv Es Et. pose proof Hinv as [Hh [Hv Ht] Hi Hp Hl Hpool Htok Hhalt]. destruct (Ht Et) as [Hr Hpos].
  destruct (pdcp_rx_step_inv halted s PdcpRxReorderingExpired Hcfg Hinv I) as (s' & out & E & Hinv').
  cbn [prx_halted_after] in Hinv'. pose proof E as E'. cbn [pdcp_rx_step] in E. rewrite Et in E.
  set (s0 := s <| prx_reordering_timer := false |>) in *. unfold reordering_callback in E.
  change (prx_stopped s0) with (prx_stopped s) in E. rewrite Es in E.
  destruct (handle_t_reordering_expire_spec cfg s0 Hcfg) as (s1 & out1 & E1 & [F N D C S] & Hset & Hre & Hlast);
    try done; try (unfold s0, field_update; cbn; lia); [by apply (prx_held_ok_ext cfg s)|].
  rewrite E1 in E. injection E as <- <-. exists s1, out1. split; [done|]. split; [done|].
  destruct F as [Fs _ _ _ _ _ _ _]. split; [etransitivity; [exact Fs|exact Es]|]. split; [done|]. split; [done|].
  split; [done|]. split; [done|]. split; [done|]. intros Hlt. split; [by apply Hlast|].
  destruct (prx_reordering_timer s1) eqn:E2; [done|]. destruct Hset as (_ & _ & Hidle).
  specialize (Hidle E2 ltac:(lia)). change (prx_next s1 = prx_next s) in N. lia.
Qed.

(** C35. t-Reordering bounds the wait for a missing SDU: while an SDU is held back the
    timer runs; when it expires, every SDU below RX_REORD is delivered in order, and
    the timer is started again for what is left; after a second expiry all SDUs that
    were held are delivered and nothing is waited for. *)
Theorem pdcp_reordering_expiry halted s :
  prx_cfg_ok cfg -> prx_reachable halted s -> prx_stopped s = false -> prx_t_reordering cfg <> -1 ->
  (forall c, is_Some (win_view (prx_window s) c) -> prx_reordering_timer s = true) /\
  (exists s1 out, pdcp_rx_step cfg PdcpRxReorderingExpired s = Ok (s1, out) /\
     sdus_of out = held (prx_window s) (prx_deliv s) (prx_deliv s1) /\
     (prx_reordering_timer s = true -> prx_reord s <= prx_deliv s1)) /\
  (exists s2 out, pdcp_rx_run cfg [PdcpRxReorderingExpired; PdcpRxReorderingExpired] s = Ok (s2, out) /\
     sdus_of out = held (prx_window s) (prx_deliv s) (prx_next s) /\
     prx_deliv s2 = prx_next s /\ prx_next s2 = prx_next s /\ forall c, win_view (prx_window s2) c = None).
Proof.
  intros Hcfg Hr Es Hinf. pose proof (prx_reachable_inv _ _ Hcfg Hr) as Hinv.
  pose proof (inv_idle _ _ _ Hinv Es) as Hidle.
  assert (forall a, held (prx_window s) a a = []) as Hnil by (intros; unfold held; by rewrite Z.sub_diag).
  assert (forall h s', prx_inv cfg h s' -> prx_deliv s' = prx_next s' -> forall c, win_view (prx_window s') c = None) as Hempty.
  { intros h s' [[Hw Hc Hn Hu Hs] _ _ _ _ _ _ _] Ed c. destruct (win_view _ c) eqn:E; [|done]. apply Hs in E. lia. }
  split; [|destruct (prx_reordering_timer s) eqn:Et].
  - intros c Hc. destruct (prx_reordering_timer s) eqn:Et; [done|]. rewrite (Hempty _ _ Hinv) in Hc; [by destruct Hc|by apply Hidle].
  - destruct (expiry_spec halted s Hcfg Hinv Es Et) as (s1 & out1 & E1 & Hinv1 & Es1 & N1 & D1 & C1 & S1 & R1 & L1).
    split; [by exists s1, out1|]. unfold pdcp_rx_run. rewrite E1. unfold emit_bind. cbn [checked_bind].
    destruct (decide (prx_deliv s1 = prx_next s)) as [Ed|Hne].
    + assert (prx_reordering_timer s1 = false) as Et1.
      { destruct (prx_reordering_timer s1) eqn:E; [|done]. destruct (inv_timed _ _ _ Hinv1) as [_ Ht]. specialize (Ht E). lia. }
      cbn [pdcp_rx_step]. rewrite Et1. cbn [checked_bind]. eexists _, _. split; [done|].
      rewrite !app_nil_r, S1, Ed. split_and!; try done. apply (Hempty _ _ Hinv1). congruence.
    + destruct (L1 ltac:(lia)) as [R1' Et1].
      destruct (expiry_spec halted s1 Hcfg Hinv1 Es1 Et1) as (s2 & out2 & -> & Hinv2 & Es2 & N2 & D2 & C2 & S2 & R2 & L2).
      cbn [checked_bind]. assert (prx_deliv s2 = prx_next s) as Ed by lia. eexists _, _. split; [done|].
      rewrite !app_nil_r, sdus_of_app, S1, S2, Ed. split_and!; [|done|congruence|apply (Hempty _ _ Hinv2); congruence].
      rewrite (held_app _ (prx_deliv s) (prx_deliv s1) (prx_next s)) by lia. f_equal.
      apply (held_cleared _ _ (prx_deliv s)); [lia|done].
  - specialize (Hidle eq_refl Hinf). split.
    + exists s, []. cbn [pdcp_rx_step]. rewrite Et. split; [done|]. by rewrite Hnil.
    + unfold pdcp_rx_run. cbn [pdcp_rx_step]. rewrite Et. unfold emit_bind. cbn [checked_bind]. rewrite Et.
      eexists _, _. split; [done|]. rewrite Hidle, Hnil. split_and!; try done. by apply (Hempty _ _ Hinv).
Qed.

(** ** Status reports *)

(** The bit of a COUNT. *)
Definition status_bit w (count : Z) : Z := if has_sn w count then 1 else 0.

Definition bitmap_fields w (start stop : Z) : list (Z * Z) :=
  (fun c => (status_bit w c, 1)) <$> seqZ start (stop - start).

Lemma pack_bitmap_spec turns room count stop w enc bs :
  encodes enc bs -> 0 <= count -> stop < 2 ^ 32 -> turns = Z.to_nat (stop - count) ->
  zlen bs + Z.of_nat turns <= 8 * room ->
  exists enc', pack_bitmap turns room count stop w enc = Ok enc' /\
    encodes enc' (bs ++ fields_bits (bitmap_fields w count stop)).
Proof.
  revert count enc bs. induction turns as [|turns IH]; intros count enc bs He Hc Hs Ht Hr; cbn [pack_bitmap].
  - rewrite (proj2 (Z.ltb_ge _ _)) by lia. exists enc. split; [done|]. unfold bitmap_fields.
    rewrite seqZ_nil by lia. by rewrite app_nil_r.
  - rewrite (proj2 (Z.ltb_lt _ _)) by lia. fold (status_bit w count).
    assert (0 <= status_bit w count < 2) as Hb by (unfold status_bit; destruct (has_sn w count); lia).
    destruct (be_pack_spec room (status_bit w count) 1 enc bs He) as (e' & -> & He'); [lia|unfold in_range; lia|lia|].
    cbn [checked_bind]. rewrite wrap_small by (unfold in_range; lia).
    destruct (IH (count + 1) e' _ He') as (e2 & -> & He2); [lia|lia|lia|rewrite zlen_app; unfold zlen at 2; rewrite length_bits_of; lia|].
    exists e2. split; [done|]. unfold bitmap_fields. rewrite seqZ_cons by lia. cbn [fmap list_fmap fields_bits flat_map].
    rewrite <- app_assoc in He2. unfold bitmap_fields in He2. by replace (Z.pred (stop - count)) with (stop - (count + 1)) by lia.
Qed.

Lemma status_bitmap_end_range deliv next :
  0 <= deliv <= next -> next < 2 ^ 32 -> deliv < 2 ^ 32 - 1 ->
  status_bitmap_end deliv next <= next /\ status_bitmap_end deliv next - (deliv + 1) <= 71960 /\
  (next - (deliv + 1) <= 71960 -> status_bitmap_end deliv next = next).
Proof.
  intros Hd Hn Hb. unfold status_bitmap_end, pdcp_control_pdu_max_size. rewrite wrap_small by (unfold in_range; lia).
  destruct ((deliv + 1 <? next) && _) eqn:E; zbool; [lia|]. apply andb_false_iff in E as [E|E]; zbool; lia.
Qed.

(** The fields of a report. *)
Definition report_fields s (stop : Z) : list (Z * Z) :=
  [(pdcp_dc_control, 1); (pdcp_control_status_report, 3); (0, 4); (prx_deliv s, 32)] ++
  bitmap_fields (prx_window s) (prx_deliv s + 1) stop.

Lemma report_header_ok deliv :
  0 <= deliv < 2 ^ 32 ->
  Forall (field_ok 64) [(pdcp_dc_control, 1); (pdcp_control_status_report, 3); (0, 4); (deliv, 32)].
Proof.
  intros Hd. repeat apply Forall_cons_2; [..|by apply Forall_nil_2];
    unfold field_ok, pdcp_dc_control, pdcp_control_status_report; cbn [fst snd]; lia.
Qed.

Lemma bitmap_fields_ok w start stop : Forall (field_ok 64) (bitmap_fields w start stop).
Proof.
  apply Forall_fmap, Forall_forall. intros c _. unfold field_ok, status_bit. cbn. destruct (has_sn w c); lia.
Qed.

Lemma zlen_report_bits s stop :
  zlen (fields_bits (report_fields s stop)) = 40 + Z.max 0 (stop - (prx_deliv s + 1)).
Proof.
  unfold report_fields, fields_bits, bitmap_fields. rewrite flat_map_app, zlen_app. f_equal.
  rewrite <- (Z2Nat.id (Z.max _ _)) by lia.
  replace (Z.to_nat (Z.max 0 (stop - (prx_deliv s + 1)))) with (length (seqZ (prx_deliv s + 1) (stop - (prx_deliv s + 1))))
    by (rewrite length_seqZ; lia).
  induction (seqZ _ _) as [|c l IH]; [done|]. cbn [fmap list_fmap flat_map]. rewrite zlen_app, IH. unfold zlen.
  rewrite length_bits_of. cbn [length]. lia.
Qed.

Lemma compile_status_report_spec room s :
  0 <= prx_deliv s <= prx_next s -> prx_next s < 2 ^ 32 -> prx_deliv s < 2 ^ 32 - 1 ->
  pdcp_control_pdu_max_size <= room ->
  exists e, compile_status_report room s = Ok (be_bytes e) /\
    encodes e (fields_bits (report_fields s (status_bitmap_end (prx_deliv s) (prx_next s)))).
Proof.
  intros Hc Hu Hd Hroom.
  destruct (status_bitmap_end_range (prx_deliv s) (prx_next s) Hc Hu Hd) as (Hstop & Hbits & Hfull).
  set (stop := status_bitmap_end (prx_deliv s) (prx_next s)) in *.
  unfold pdcp_control_pdu_max_size in *. unfold compile_status_report. fold stop.
  rewrite (wrap_small 32 (prx_deliv s + 1)) by (unfold in_range; lia).
  destruct (be_pack_fields_spec room _ _ _ encodes_new (report_header_ok (prx_deliv s) ltac:(lia))) as (e & Ep & He).
  { unfold zlen. cbn [fields_bits flat_map]. rewrite !length_app, !length_bits_of. cbn [length]. lia. }
  cbn [app] in He.
  apply be_pack_fields_cons in Ep as (e1 & -> & Ep). cbn [checked_bind].
  apply be_pack_fields_cons in Ep as (e2 & -> & Ep). cbn [checked_bind].
  apply be_pack_fields_cons in Ep as (e3 & -> & Ep). cbn [checked_bind].
  apply be_pack_fields_cons in Ep as (e4 & -> & Ep). cbn [checked_bind]. injection Ep as ->.
  edestruct (pack_bitmap_spec (Z.to_nat (stop - (prx_deliv s + 1))) room (prx_deliv s + 1) stop (prx_window s) e)
    as (e' & -> & He'); [exact He|lia|lia|done| |].
  { unfold zlen. cbn [fields_bits flat_map]. rewrite !length_app, !length_bits_of. cbn [length]. lia. }
  cbn [checked_bind]. exists e'. split; [done|]. unfold report_fields, fields_bits. by rewrite flat_map_app.
Qed.

(** C36. The status report is exact: it is a control PDU of the maximum size at most that
    reads back as the type, as the first missing COUNT, which is RX_DELIV, and one bit
    for each COUNT after it up to RX_NEXT, set exactly for the SDUs that are in the
    window; reports of more than 71960 COUNTs are cut. *)
Theorem pdcp_status_report_exact halted s room :
  prx_cfg_ok cfg -> prx_reachable halted s -> prx_deliv s < 2 ^ 32 - 1 -> pdcp_control_pdu_max_size <= room ->
  let stop := status_bitmap_end (prx_deliv s) (prx_next s) in
  let counts := seqZ (prx_deliv s + 1) (stop - (prx_deliv s + 1)) in
  exists pdu d, compile_status_report room s = Ok pdu /\ zlen pdu <= pdcp_control_pdu_max_size /\
    win_view (prx_window s) (prx_deliv s) = None /\
    bd_unpack_fields 64 ([1; 3; 4; 32] ++ replicate (length counts) 1) (bit_decoder_new pdu) =
      Ok (Some ([pdcp_dc_control; pdcp_control_status_report; 0; prx_deliv s] ++
                ((fun c => if has_sn (prx_window s) c then 1 else 0) <$> counts)), d) /\
    (prx_next s - (prx_deliv s + 1) <= 71960 -> stop = prx_next s).
Proof.
  intros Hcfg Hr Hd Hroom stop counts. pose proof (prx_reachable_inv _ _ Hcfg Hr) as [[Hw Hcap Hc Hu Hs] [Hv _] _ _ _ _ _ _].
  destruct (status_bitmap_end_range (prx_deliv s) (prx_next s) Hc Hu Hd) as (Hstop & Hbits & Hfull). fold stop in Hstop, Hbits, Hfull.
  destruct (compile_status_report_spec room s Hc Hu Hd Hroom) as (e & -> & He). fold stop in He.
  destruct (encodes_decodes e _ He) as (pad & Hdec & Hpad).
  destruct (bd_unpack_fields_spec 64 (report_fields s stop) _ _ Hdec) as (d & Hun & _); [lia| |].
  { apply Forall_app. split; [apply report_header_ok; lia|apply bitmap_fields_ok]. }
  exists (be_bytes e), d. split; [done|]. split; [|split; [done|split; [|done]]].
  - destruct (encodes_nof_bits e _ He) as [Hn Ho]. rewrite zlen_report_bits in Hn. unfold be_nof_bits in Hn.
    unfold pdcp_control_pdu_max_size. destruct (be_offset e =? 0) eqn:E; zbool; lia.
  - unfold report_fields, bitmap_fields in Hun. rewrite !fmap_app in Hun. cbn [fmap list_fmap fst snd] in Hun.
    fold counts in Hun. rewrite <- !list_fmap_compose in Hun.
    replace (replicate (length counts) 1) with ((snd ∘ (fun c => (status_bit (prx_window s) c, 1))) <$> counts); [exact Hun|].
    clear. induction counts as [|c l IH]; [done|]. cbn. by f_equal.
Qed.
End runs.
