(* ===== verification/PdcpRxExamples.v ===== *)
(** * PDCP receiving entity: executions and departures

    Concrete executions of a data bearer to which the theorems of PdcpRxRuns apply, and
    what the model shows where the code departs from its intent. *)
From stdpp Require Import base numbers list sorting.
From Stdlib Require Import ZArith Lia.
From S2P Require Import Prelude.
From S2P Require Import SduWindow.
From S2P Require Import BitEncoding.
From S2P Require Import SecurityEngine.
From S2P Require Import PdcpSn.
From S2P Require Import PdcpPdu.
From S2P Require Import PdcpCryptoToken.
From S2P Require Import PdcpRx.
From S2P Require Import PdcpRxProps.
From S2P Require Import PdcpRxSteps.
From S2P Require Import PdcpRxRuns.

Set Default Goal Selector "!".
Open Scope Z_scope.
Open Scope ran_scope.

#[local] Existing Instance xor_algorithms.
#[local] Existing Instance xor_laws.

Lemma pdcp_header_roundtrip_witness :
  exists header, pdcp_write_data_pdu_header false pdcp_size18bits 70000 = Ok header /\
    zlen header = 3 /\ Forall is_u8 header /\
    pdcp_read_data_pdu_header pdcp_size18bits (header ++ [42]) = Some 70000 /\
    pdcp_pdu_get_dc (default 0 (head header)) = pdcp_dc_data /\
    get_pdcp_sn (header ++ [42]) pdcp_size18bits false = Some 70000.
Proof. apply (pdcp_header_roundtrip false pdcp_size18bits 70000 [42]); [by split|by vm_compute|done]. Defined.

(** ** A data bearer *)

Definition ex_prx_cfg : pdcp_rx_config := {|
  prx_rb_type := rb_drb; prx_rlc_mode := rlc_mode_am; prx_sn_size := pdcp_size12bits;
  prx_direction := direction_uplink; prx_t_reordering := 10;
  prx_max_count_notify := 0xc0000000; prx_max_count_hard := 0xd0000000; prx_bearer_id := 0;
  prx_max_nof_crypto_workers := 1 |}.

Definition ex_sec_cfg : sec_128_as_config := {|
  sec_config_domain := sec_domain_up; k_128_int := Some [1; 2]; k_128_enc := [7; 9];
  integ_algo := Some nia2; cipher_algo := nea2 |}.

Definition ex_prx_secure : list pdcp_rx_op := [PdcpRxConfigureSecurity ex_sec_cfg true true].

(** The PDU of a sender with the same keys. *)
Definition ex_prx_pdu (count : Z) (sdu : list Z) : list Z :=
  match encrypt_and_protect_integrity true xor_engine ([128; count] ++ sdu) 2 count with
  | Ok r => match sr_buf r with inl pdu => pdu | inr _ => [] end
  | Panic => []
  end.

(** PDU 1 is handled while PDU 0 is missing. *)
Definition ex_prx_pdu_op (count : Z) (sdu : list Z) : pdcp_rx_op :=
  PdcpRxPdu (mk_pdcp_rx_env true true) (ex_prx_pdu count sdu).
Definition ex_prx_gap : list pdcp_rx_op :=
  [ex_prx_pdu_op 1 [11]; PdcpRxCrypto 0 0 true; PdcpRxUeTask].
(** Two PDUs in the wrong order. *)
Definition ex_prx_swapped : list pdcp_rx_op :=
  [ex_prx_pdu_op 1 [11]; ex_prx_pdu_op 0 [10]; PdcpRxCrypto 0 0 true; PdcpRxCrypto 0 0 true;
   PdcpRxUeTask; PdcpRxUeTask].

(** The value of a computation that succeeds. *)
Definition ok_value {A : Type} (r : checked A) : match r return Type with Ok _ => A | Panic => unit end :=
  match r with Ok a => a | Panic => tt end.

Definition ex_prx_init : pdcp_rx_entity circular_map := ok_value (prx_init (W := circular_map) ex_prx_cfg).
Definition ex_prx_configured : pdcp_rx_entity circular_map :=
  (ok_value (pdcp_rx_run (W := circular_map) ex_prx_cfg ex_prx_secure ex_prx_init)).1.
Definition ex_prx_waiting : pdcp_rx_entity circular_map :=
  (ok_value (pdcp_rx_run (W := circular_map) ex_prx_cfg ex_prx_gap ex_prx_configured)).1.
Definition ex_prx_swapped_result : pdcp_rx_entity circular_map * list pdcp_rx_output :=
  ok_value (pdcp_rx_run (W := circular_map) ex_prx_cfg ex_prx_swapped ex_prx_configured).

Lemma ex_prx_cfg_ok : prx_cfg_ok ex_prx_cfg.
Proof. split; [done|]. split; [by vm_compute|]. split; [right; by vm_compute|by vm_compute]. Qed.

(** The conditions of the events, evaluated. *)
Ltac prx_op_ok_eval :=
  lazymatch goal with
  | |- prx_op_ok _ _ _ (PdcpRxPdu _ _) => by vm_compute
  | |- prx_op_ok _ _ _ (PdcpRxCrypto _ _ _) =>
      split; [split; by vm_compute|]; intros info E _; vm_compute in E; injection E as <-; by vm_compute
  | |- prx_op_ok _ _ _ (PdcpRxConfigureSecurity _ _ _) => split; by vm_compute
  | |- _ => exact I
  end.

(** An execution, evaluated. *)
Ltac prx_exec_eval :=
  unfold ex_prx_secure, ex_prx_gap, ex_prx_swapped, ex_prx_pdu_op; cbn [app];
  repeat (eapply prx_exec_cons; [prx_op_ok_eval|vm_compute; reflexivity|]); apply prx_exec_nil.

Lemma ex_prx_configured_reachable : prx_reachable ex_prx_cfg false ex_prx_configured.
Proof. exists ex_prx_init, ex_prx_secure. eexists. split; [by vm_compute|]. prx_exec_eval. Qed.

Lemma ex_prx_fresh : prx_fresh ex_prx_configured.
Proof.
  split; [done|]. split; [done|]. intros c. change (win_view (prx_window ex_prx_init) c = None).
  destruct (pdcp_rx_init_inv (W := circular_map) ex_prx_cfg ex_prx_cfg_ok) as (s & E & _ & _ & _ & _ & _ & Hv & _).
  assert (s = ex_prx_init) as <-; [|apply Hv]. vm_compute in E. by injection E as <-.
Qed.

Lemma ex_prx_waiting_reachable : prx_reachable ex_prx_cfg false ex_prx_waiting.
Proof. exists ex_prx_init, (ex_prx_secure ++ ex_prx_gap). eexists. split; [by vm_compute|]. prx_exec_eval. Qed.

Lemma ex_prx_swapped_exec :
  prx_exec ex_prx_cfg false ex_prx_configured ex_prx_swapped ex_prx_swapped_result.2 false ex_prx_swapped_result.1.
Proof.
  assert (exists out, out = ex_prx_swapped_result.2 /\
    prx_exec ex_prx_cfg false ex_prx_configured ex_prx_swapped out false ex_prx_swapped_result.1) as (out & <- & H); [|done].
  eexists. split; [|prx_exec_eval]. by vm_compute.
Qed.


Lemma crypto_awaitable_exact_witness :
  tm_pending_crypto (prx_token_mngr ex_prx_waiting) = true <->
  false = true /\ prx_crypto_tasks ex_prx_waiting = [] /\ prx_ue_tasks ex_prx_waiting = [].
Proof. apply (crypto_awaitable_exact ex_prx_cfg); [apply ex_prx_cfg_ok|apply ex_prx_waiting_reachable]. Defined.

Lemma pdcp_rx_in_order_witness :
  sdus_of ex_prx_swapped_result.2 = [(0, [10]); (1, [11])] /\
  StronglySorted Z.lt (sdus_of ex_prx_swapped_result.2).*1.
Proof.
  split; [by vm_compute|].
  apply (pdcp_rx_in_order ex_prx_cfg false ex_prx_configured ex_prx_swapped _ false ex_prx_swapped_result.1 xor_engine);
    [apply ex_prx_cfg_ok|apply ex_prx_configured_reachable|apply ex_prx_fresh|by vm_compute|apply ex_prx_swapped_exec|done].
Defined.

Lemma pdcp_reordering_expiry_witness :
  exists s2 out, pdcp_rx_run ex_prx_cfg [PdcpRxReorderingExpired; PdcpRxReorderingExpired] ex_prx_waiting = Ok (s2, out) /\
    sdus_of out = held (prx_window ex_prx_waiting) (prx_deliv ex_prx_waiting) (prx_next ex_prx_waiting) /\
    prx_deliv s2 = prx_next ex_prx_waiting /\ prx_next s2 = prx_next ex_prx_waiting /\
    forall c, win_view (prx_window s2) c = None.
Proof.
  apply (pdcp_reordering_expiry ex_prx_cfg false ex_prx_waiting ex_prx_cfg_ok ex_prx_waiting_reachable); by vm_compute.
Defined.

Lemma pdcp_status_report_exact_witness :
  compile_status_report 9000 ex_prx_waiting = Ok [0; 0; 0; 0; 0; 128] /\
  win_view (prx_window ex_prx_waiting) (prx_deliv ex_prx_waiting) = None.
Proof.
  split; [by vm_compute|].
  destruct (pdcp_status_report_exact ex_prx_cfg false ex_prx_waiting 9000 ex_prx_cfg_ok ex_prx_waiting_reachable)
    as (pdu & d & _ & _ & H & _); [by vm_compute|by vm_compute|exact H].
Defined.

(** ** Departures from the intent *)

Section departures.
Context {W : Type -> Type} `{!SduWindow W} `{!SduWindowLaws W} `{!SecurityAlgorithms} `{!SecurityLaws}.
Variable cfg : pdcp_rx_config.

(** A PDU of a signalling bearer that is too short for its MAC fails an assertion
    in the worker while security is not configured yet: 5 bytes are more
    than the header, so the PDU is admitted, and more than the MAC, so 4 bytes are taken
    off; then the header of 2 bytes is removed from the byte that is left. *)
Theorem short_srb_pdu_panics (s : pdcp_rx_entity W) pdu sn worker accepted :
  prx_is_srb cfg = true -> prx_sn_size cfg = pdcp_size12bits ->
  prx_stopped s = false -> prx_buffering s = false ->
  prx_sec_engine_pool s = replicate (Z.to_nat (prx_max_nof_crypto_workers cfg)) None ->
  0 <= worker < prx_max_nof_crypto_workers cfg ->
  zlen pdu = 5 -> pdcp_read_data_pdu_header (prx_sn_size cfg) pdu = Some sn ->
  pdcp_estimate_count (prx_sn_size cfg) (prx_deliv s) sn < prx_max_count_hard cfg ->
  exists s' out, pdcp_rx_step cfg (PdcpRxPdu (mk_pdcp_rx_env true true) pdu) s = Ok (s', out) /\
    pdcp_rx_step cfg (PdcpRxCrypto (length (prx_crypto_tasks s)) worker accepted) s' = Panic.
Proof.
  intros Hsrb Hsz Es Eb Epool Hw Hlen Hsn Hcount. cbn [pdcp_rx_step]. unfold prx_handle_pdu. rewrite Es, Eb.
  destruct pdu as [|b l] eqn:Epdu; [done|]. rewrite <- Epdu in *. cbn [prx_copy_ok prx_exec_ok negb]. rewrite Hsrb. cbn [orb].
  unfold handle_data_pdu. rewrite Hsn. unfold prx_hdr_len_bytes. rewrite Hsz, Hlen in *.
  change (5 <=? pdcp_data_pdu_header_size pdcp_size12bits) with false. cbn [pdcp_data_pdu_header_size].
  destruct (check_max_count_spec cfg (pdcp_estimate_count pdcp_size12bits (prx_deliv s) sn) s) as (b1 & b2 & out & E & _).
  rewrite E. rewrite (proj2 (Z.leb_gt _ _)) by done. unfold prx_execute_crypto. cbn [checked_bind].
  eexists _, _. split; [done|]. unfold prx_run_crypto, field_update. cbn.
  rewrite lookup_app_r, Nat.sub_diag by lia. cbn.
  unfold apply_security, apply_deciphering_and_integrity_check. cbn. rewrite (proj2 (Z.leb_gt _ _)) by lia.
  rewrite Epool, lookup_replicate_2 by lia. rewrite Hsrb, Hlen. cbn. rewrite Hsz. cbn.
  rewrite bool_decide_eq_true_2 by done. rewrite (proj2 (Z.leb_gt _ _)); [done|]. unfold sec_mac_len, zlen in *. rewrite length_take. lia.
Qed.
End departures.

Definition ex_prx_srb_cfg : pdcp_rx_config := {|
  prx_rb_type := rb_srb; prx_rlc_mode := rlc_mode_am; prx_sn_size := pdcp_size12bits;
  prx_direction := direction_uplink; prx_t_reordering := -1;
  prx_max_count_notify := 0xc0000000; prx_max_count_hard := 0xd0000000; prx_bearer_id := 1;
  prx_max_nof_crypto_workers := 1 |}.

Definition ex_prx_srb_init : pdcp_rx_entity circular_map :=
  ok_value (prx_init (W := circular_map) ex_prx_srb_cfg).

Lemma short_srb_pdu_panics_witness :
  exists s' out,
    pdcp_rx_step ex_prx_srb_cfg (PdcpRxPdu (mk_pdcp_rx_env true true) [0; 0; 1; 2; 3]) ex_prx_srb_init = Ok (s', out) /\
    pdcp_rx_step ex_prx_srb_cfg (PdcpRxCrypto (length (prx_crypto_tasks ex_prx_srb_init)) 0 true) s' = Panic.
Proof.
  apply (short_srb_pdu_panics ex_prx_srb_cfg ex_prx_srb_init [0; 0; 1; 2; 3] 0 0 true); by vm_compute.
Defined.

(** The bearer with the limits of the default configuration. *)
Definition ex_prx_default_cfg : pdcp_rx_config := {|
  prx_rb_type := rb_drb; prx_rlc_mode := rlc_mode_am; prx_sn_size := pdcp_size12bits;
  prx_direction := direction_uplink; prx_t_reordering := 10;
  prx_max_count_notify := pdcp_tx_default_max_count_notify;
  prx_max_count_hard := pdcp_tx_default_max_count_hard; prx_bearer_id := 0;
  prx_max_nof_crypto_workers := 1 |}.

(** With the limits that a configuration has by default, those of the transmitter, one
    unprotected PDU with the SN 2049 on a new bearer is taken for the COUNT
    2^32 - 2047: RX_NEXT jumps there, the timer starts for all that is before it, and no
    PDU after it can be in order; the limit meant for the receiver refuses the PDU. *)
Theorem stray_pdu_jumps :
  let ops := [PdcpRxPdu (mk_pdcp_rx_env true true) [136; 1; 7]; PdcpRxCrypto 0 0 true; PdcpRxUeTask] in
  match prx_init (W := circular_map) ex_prx_default_cfg with
  | Ok s0 =>
      match pdcp_rx_run ex_prx_default_cfg ops s0 with
      | Ok (s, out) => prx_next s = 2 ^ 32 - 2046 /\ prx_reord s = 2 ^ 32 - 2046 /\ prx_deliv s = 0 /\
          prx_reordering_timer s = true /\ sdus_of out = []
      | Panic => False
      end /\
      match pdcp_rx_run ex_prx_cfg ops s0 with
      | Ok (s, out) => prx_next s = 0 /\ PdcpRxProtocolFailure ∈ out
      | Panic => False
      end
  | Panic => False
  end.
Proof. vm_compute. split_and!; try done. repeat (apply list_elem_of_here || apply list_elem_of_further). Qed.
