(* ===== verification/PdcpTxWindow.v ===== *)
(** * PDCP: window of the transmitting entity

    Models [pdcp_tx_window] of [src/lib/pdcp/pdcp_tx_window.h] and
    [src/lib/pdcp/pdcp_tx_window.cpp]: the SDUs that were numbered and not yet
    discarded or delivered, with the account of their bytes by which the entity
    decides about early drops; and that this account is right. *)
From stdpp Require Import base numbers list.
From Stdlib Require Import ZArith Lia.
From S2P Require Import Prelude.
From S2P Require Import SduWindow.
From S2P Require Import PdcpSn.
From S2P Require Import PdcpPdu.

Set Default Goal Selector "!".
Open Scope Z_scope.
Open Scope ran_scope.

(** [tsi_tick_point_of_arrival] is set for a finite discard timer. *)
Record pdcp_tx_window_sdu_info := mk_pdcp_tx_window_sdu_info {
  tsi_sdu : list Z;
  tsi_count : Z;
  tsi_tick_point_of_arrival : option Z;
}.

(** [twe_pdu] holds the protected PDU until it is submitted in order. *)
Record pdcp_tx_window_element := mk_pdcp_tx_window_element {
  twe_sdu_info : pdcp_tx_window_sdu_info;
  twe_pdu : list Z;
  twe_sdu_length : Z;
}.
#[export] Instance pdcp_tx_window_element_eta : RecordEta pdcp_tx_window_element := fun r =>
  mk_pdcp_tx_window_element (twe_sdu_info r) (twe_pdu r) (twe_sdu_length r).

Record pdcp_tx_window (W : Type -> Type) := mk_pdcp_tx_window {
  ptw_window : W pdcp_tx_window_element;
  ptw_sdu_bytes : Z;
  ptw_nof_sdus : Z;
}.
Arguments mk_pdcp_tx_window {W}.
Arguments ptw_window {W}.
Arguments ptw_sdu_bytes {W}.
Arguments ptw_nof_sdus {W}.
#[export] Instance pdcp_tx_window_eta W : RecordEta (pdcp_tx_window W) := fun r =>
  mk_pdcp_tx_window (ptw_window r) (ptw_sdu_bytes r) (ptw_nof_sdus r).

(** Sizes of [pdcp_config.h]. *)
Definition pdcp_data_header_size (sn_size : pdcp_sn_size) : Z :=
  if bool_decide (sn_size = pdcp_size12bits) then 2 else 3.
Definition pdcp_data_trailer_size (rb_type : pdcp_rb_type) (integrity_enabled : bool) : Z :=
  match rb_type with rb_srb => 4 | rb_drb => if integrity_enabled then 4 else 0 end.

Lemma omap_ext_elem {A B} (f g : A -> option B) (l : list A) : (forall x, x ∈ l -> f x = g x) -> omap f l = omap g l.
Proof.
  induction l as [|x l IH]; intros H; cbn; [done|]. rewrite H, IH; [done| |apply list_elem_of_here].
  intros y Hy. by apply H, list_elem_of_further.
Qed.

Section tx_window.
Context {W : Type -> Type} `{!SduWindow W}.
Implicit Types w : pdcp_tx_window W.

Definition ptw_new (sn_size : pdcp_sn_size) : checked (pdcp_tx_window W) :=
  let? window := win_make (pdcp_window_size sn_size) in Ok (mk_pdcp_tx_window window 0 0).

Definition ptw_has_sn w (count : Z) : bool := has_sn (ptw_window w) count.
Definition ptw_at w (count : Z) : checked pdcp_tx_window_element := win_at (ptw_window w) count.

Definition ptw_add_sdu (sdu_info : pdcp_tx_window_sdu_info) (sdu_length : Z) w :
    checked (pdcp_tx_window W) :=
  let? window :=
    add_sn (mk_pdcp_tx_window_element sdu_info [] sdu_length) (tsi_count sdu_info) (ptw_window w) in
  Ok (w <| ptw_window := window |> <| ptw_sdu_bytes ::= fun n => u32 (n + sdu_length) |>
        <| ptw_nof_sdus ::= fun n => u32 (n + 1) |>).

Definition ptw_remove_sdu (count : Z) w : checked (pdcp_tx_window W) :=
  if ptw_has_sn w count then
    let? elem := ptw_at w count in
    let? window := remove_sn count (ptw_window w) in
    Ok (w <| ptw_window := window |> <| ptw_sdu_bytes ::= fun n => u32 (n - twe_sdu_length elem) |>
          <| ptw_nof_sdus ::= fun n => u32 (n - 1) |>)
  else Ok w.

(** Assignment to the PDU of an element. *)
Definition ptw_set_pdu (count : Z) (pdu : list Z) w : checked (pdcp_tx_window W) :=
  let? elem := ptw_at w count in
  let? window := win_write count (elem <| twe_pdu := pdu |>) (ptw_window w) in
  Ok (w <| ptw_window := window |>).

Definition ptw_clear w : pdcp_tx_window W := mk_pdcp_tx_window (win_clear (ptw_window w)) 0 0.

Definition ptw_get_pdu_bytes (rb_type : pdcp_rb_type) (sn_size : pdcp_sn_size) (integrity : bool) w : Z :=
  u32 (ptw_sdu_bytes w +
       u32 (ptw_nof_sdus w * u32 (pdcp_data_header_size sn_size + pdcp_data_trailer_size rb_type integrity))).

(** ** The account of the bytes *)

Definition ptw_view w (count : Z) : option pdcp_tx_window_element := win_view (ptw_window w) count.

(** The lengths of the SDUs from [lo] up to [hi]. *)
Definition ptw_lengths w (lo hi : Z) : list Z :=
  omap (fun c => twe_sdu_length <$> ptw_view w c) (seqZ lo (hi - lo)).
Definition sum_lengths (lengths : list Z) : Z := foldr Z.add 0 lengths.

Lemma sum_lengths_app l l' : sum_lengths (l ++ l') = sum_lengths l + sum_lengths l'.
Proof. unfold sum_lengths. induction l as [|x l IH]; cbn; lia. Qed.

Lemma ptw_lengths_app w lo mid hi :
  lo <= mid <= hi -> ptw_lengths w lo hi = ptw_lengths w lo mid ++ ptw_lengths w mid hi.
Proof.
  intros Hm. unfold ptw_lengths. rewrite <- omap_app. f_equal.
  replace (hi - lo) with ((mid - lo) + (hi - mid)) by lia. rewrite seqZ_app by lia. by replace (lo + (mid - lo)) with mid by lia.
Qed.

Lemma ptw_lengths_one w c :
  ptw_lengths w c (c + 1) = match ptw_view w c with Some e => [twe_sdu_length e] | None => [] end.
Proof.
  unfold ptw_lengths. replace (c + 1 - c) with 1 by lia. rewrite seqZ_cons, seqZ_nil by lia.
  cbn. by destruct (ptw_view w c).
Qed.

Lemma ptw_lengths_ext w w' lo hi :
  (forall c, lo <= c < hi -> twe_sdu_length <$> ptw_view w c = twe_sdu_length <$> ptw_view w' c) ->
  ptw_lengths w lo hi = ptw_lengths w' lo hi.
Proof.
  intros He. unfold ptw_lengths. apply omap_ext_elem. intros c Hc%elem_of_seqZ. apply He. lia.
Qed.

Lemma ptw_lengths_none w lo hi :
  (forall c, lo <= c < hi -> ptw_view w c = None) -> ptw_lengths w lo hi = [].
Proof.
  intros Hn. unfold ptw_lengths. rewrite (omap_ext_elem _ (fun _ => None)); [by induction (seqZ _ _)|].
  intros c Hc%elem_of_seqZ. by rewrite Hn by lia.
Qed.

Context `{!SduWindowLaws W}.

Record ptw_ok (cap lo hi : Z) w : Prop := mk_ptw_ok {
  pok_wf : win_wf (ptw_window w);
  pok_cap : win_cap (ptw_window w) = cap;
  pok_range c e : ptw_view w c = Some e -> lo <= c < hi /\ tsi_count (twe_sdu_info e) = c;
  pok_nof : ptw_nof_sdus w = zlen (ptw_lengths w lo hi);
  pok_bytes : ptw_sdu_bytes w = u32 (sum_lengths (ptw_lengths w lo hi));
}.

Lemma ptw_has_view w c : ptw_has_sn w c = match ptw_view w c with Some _ => true | None => false end.
Proof. apply has_sn_view. Qed.
Lemma ptw_at_view w c e : ptw_view w c = Some e -> ptw_at w c = Ok e.
Proof. apply win_at_view. Qed.

(** A change of one count, and what it does to the account. *)
Lemma ptw_change_ok cap lo hi hi' w w' count e' :
  ptw_ok cap lo hi w -> lo <= count < hi' -> hi <= hi' -> (forall c, hi <= c < hi' -> c = count) ->
  win_wf (ptw_window w') -> win_cap (ptw_window w') = cap ->
  (forall c, ptw_view w' c = if decide (c = count) then e' else ptw_view w c) ->
  (forall e, e' = Some e -> tsi_count (twe_sdu_info e) = count) ->
  let len e := match e with Some e => twe_sdu_length e | None => 0 end in
  let one (e : option pdcp_tx_window_element) := match e with Some _ => 1 | None => 0 end in
  ptw_nof_sdus w' = ptw_nof_sdus w - one (ptw_view w count) + one e' ->
  ptw_sdu_bytes w' = u32 (ptw_sdu_bytes w - len (ptw_view w count) + len e') ->
  ptw_ok cap lo hi' w'.
Proof.
  intros [Hwf Hcap Hr Hn Hb] Hc Hh Hnew Hwf' Hcap' Hv He' len one Hn' Hb'.
  assert (forall v a b, a <= count < b -> ptw_lengths v a b =
    ptw_lengths v a count ++ match ptw_view v count with Some e => [twe_sdu_length e] | None => [] end ++
    ptw_lengths v (count + 1) b) as Hsplit.
  { intros v a b Hab. rewrite (ptw_lengths_app v a count b), (ptw_lengths_app v count (count + 1) b) by lia.
    by rewrite ptw_lengths_one. }
  assert (ptw_lengths w lo hi = ptw_lengths w lo hi') as Hwiden.
  { destruct (decide (lo <= hi)).
    - rewrite (ptw_lengths_app w lo hi hi'), (ptw_lengths_none w hi hi'), app_nil_r; [done| |lia].
      intros c Hc'. destruct (ptw_view w c) eqn:E; [|done]. apply Hr in E. lia.
    - rewrite !ptw_lengths_none; [done|..]; intros c Hc'; destruct (ptw_view w c) eqn:E; try done; apply Hr in E; lia. }
  rewrite Hwiden in Hn, Hb. clear Hwiden.
  assert (forall a b, b <= count \/ count < a -> ptw_lengths w' a b = ptw_lengths w a b) as Hsame.
  { intros a b Hab. apply ptw_lengths_ext. intros c Hc'. rewrite Hv, decide_False by lia. done. }
  rewrite (Hsplit w) in Hn, Hb by lia. constructor; [done|done| | |].
  - intros c e. rewrite Hv. case_decide as E; [intros ->; subst c; split; [lia|by apply He']|].
    intros H. apply Hr in H. lia.
  - rewrite (Hsplit w'), !Hsame by lia. rewrite Hn', Hn, Hv, decide_True by done. rewrite !zlen_app. unfold one, zlen.
    destruct (ptw_view w count), e'; cbn [length]; lia.
  - rewrite (Hsplit w'), !Hsame by lia. rewrite Hb', Hb, Hv, decide_True by done. rewrite !sum_lengths_app. unfold len.
    rewrite <- Z.add_sub_swap, <- Z.add_sub_assoc, wrap_add_l by lia. f_equal.
    destruct (ptw_view w count), e'; unfold sum_lengths; cbn [foldr]; lia.
Qed.

Lemma mod_inj_range cap lo a b : 0 < cap -> lo <= a < lo + cap -> lo <= b < lo + cap -> a mod cap = b mod cap -> a = b.
Proof.
  intros Hc Ha Hb He. pose proof (Z.div_mod a cap ltac:(lia)) as Ea. pose proof (Z.div_mod b cap ltac:(lia)) as Eb.
  rewrite He in Ea. assert (a - b = cap * (a / cap - b / cap)) by lia. assert (a / cap - b / cap = 0) by nia. nia.
Qed.

Lemma ptw_new_ok cap lo sn_size n :
  0 <= n -> pdcp_window_size sn_size = 2 ^ n -> cap = 2 ^ n ->
  exists w, ptw_new sn_size = Ok w /\ ptw_ok cap lo lo w /\ forall c, ptw_view w c = None.
Proof.
  intros Hn En ->. unfold ptw_new. rewrite En.
  destruct (win_make_spec (T := pdcp_tx_window_element) n Hn) as (v & -> & Hw & Hcap & _ & Hv).
  cbn [checked_bind]. eexists. split; [done|]. split; [|done]. constructor; cbn; try done.
  - intros c e. unfold ptw_view. cbn. by rewrite Hv.
  - rewrite ptw_lengths_none; [done|]. intros c _. apply Hv.
  - rewrite ptw_lengths_none; [done|]. intros c _. apply Hv.
Qed.

Lemma ptw_clear_ok cap lo hi lo' hi' w :
  ptw_ok cap lo hi w -> ptw_ok cap lo' hi' (ptw_clear w) /\ forall c, ptw_view (ptw_clear w) c = None.
Proof.
  intros [Hwf Hcap _ _ _]. destruct (win_clear_spec (ptw_window w) Hwf) as (Hw & Hc & Hv).
  assert (forall c, ptw_view (ptw_clear w) c = None) as Hn by apply Hv.
  split; [|done]. constructor; cbn; [done|congruence| | |].
  - intros c e. by rewrite Hn.
  - rewrite ptw_lengths_none; [done|]. intros c _. apply Hn.
  - rewrite ptw_lengths_none; [done|]. intros c _. apply Hn.
Qed.

Lemma ptw_len_bounds w lo hi : 0 <= zlen (ptw_lengths w lo hi) <= Z.max 0 (hi - lo).
Proof.
  pose proof (zlen_nonneg (ptw_lengths w lo hi)). split; [done|].
  destruct (decide (lo <= hi)); [|rewrite ptw_lengths_none; [unfold zlen; cbn; lia|intros; lia]].
  unfold ptw_lengths. rewrite <- (Z2Nat.id (hi - lo)) at 2 by lia. rewrite <- (length_seqZ lo (hi - lo)).
  unfold zlen. generalize (seqZ lo (hi - lo)). intros xs. induction xs as [|x xs IH]; cbn; [lia|].
  destruct (ptw_view w x); cbn; lia.
Qed.

(** A new SDU at the upper edge; nothing is evicted while the window is not full. *)
Lemma ptw_add_ok cap lo hi w info len :
  ptw_ok cap lo hi w -> lo <= hi < lo + cap -> cap <= 2 ^ 31 -> tsi_count info = hi ->
  exists w', ptw_add_sdu info len w = Ok w' /\ ptw_ok cap lo (hi + 1) w' /\
    forall c, ptw_view w' c =
      if decide (c = hi) then Some (mk_pdcp_tx_window_element info [] len) else ptw_view w c.
Proof.
  intros Hok Hlo Hcap31 Hi. pose proof Hok as [Hwf Hcap Hr Hn Hb].
  assert (ptw_view w hi = None) as Hnone by (destruct (ptw_view w hi) eqn:E; [apply Hr in E; lia|done]).
  unfold ptw_add_sdu. rewrite Hi.
  destruct (add_sn_spec (ptw_window w) hi (mk_pdcp_tx_window_element info [] len) Hwf Hnone)
    as (v & -> & Hwf' & Hcap' & Hv & Hother).
  cbn [checked_bind]. eexists. split; [done|].
  match goal with |- ptw_ok _ _ _ ?x /\ _ => set (w' := x) end.
  assert (forall c, ptw_view w' c =
      if decide (c = hi) then Some (mk_pdcp_tx_window_element info [] len) else ptw_view w c) as Hview.
  { intros c. unfold ptw_view, w', field_update. cbn. case_decide as E; [by subst|]. rewrite Hother by done.
    rewrite Hcap. case_decide as Em; [|done]. destruct (win_view (ptw_window w) c) eqn:Ev; [|done].
    apply Hr in Ev. destruct E. apply (mod_inj_range cap lo); lia. }
  split; [|done].
  apply (ptw_change_ok cap lo hi (hi + 1) w w' hi (Some (mk_pdcp_tx_window_element info [] len))); try done.
  - lia.
  - lia.
  - intros c. lia.
  - unfold w', field_update. cbn. congruence.
  - by intros e [= <-].
  - rewrite Hnone. unfold w', field_update. cbn. rewrite Hn.
    pose proof (ptw_len_bounds w lo hi).
    rewrite wrap_small; [lia|]. unfold in_range. lia.
  - rewrite Hnone. unfold w', field_update. cbn. f_equal. lia.
Qed.

Lemma ptw_lengths_present w lo hi count e :
  ptw_view w count = Some e -> lo <= count < hi -> 0 < zlen (ptw_lengths w lo hi).
Proof.
  intros Hv Hc. rewrite (ptw_lengths_app w lo count hi), (ptw_lengths_app w count (count + 1) hi) by lia.
  rewrite ptw_lengths_one, Hv, !zlen_app. unfold zlen. cbn [length]. lia.
Qed.

Lemma ptw_remove_ok cap lo hi w count :
  ptw_ok cap lo hi w -> hi - lo < 2 ^ 31 ->
  exists w', ptw_remove_sdu count w = Ok w' /\ ptw_ok cap lo hi w' /\
    forall c, ptw_view w' c = if decide (c = count) then None else ptw_view w c.
Proof.
  intros Hok H31. pose proof Hok as [Hwf Hcap Hr Hn Hb]. unfold ptw_remove_sdu. rewrite ptw_has_view.
  destruct (ptw_view w count) as [e|] eqn:Ev.
  - rewrite (ptw_at_view _ _ _ Ev). cbn [checked_bind]. destruct (Hr _ _ Ev) as [Hc _].
    destruct (remove_sn_spec (ptw_window w) count Hwf) as (v & -> & Hwf' & Hcap' & Hv & Hother);
      [by exists e|]. cbn [checked_bind]. eexists. split; [done|].
    match goal with |- ptw_ok _ _ _ ?x /\ _ => set (w' := x) end.
    assert (forall c, ptw_view w' c = if decide (c = count) then None else ptw_view w c) as Hview.
    { intros c. unfold ptw_view, w', field_update. cbn. case_decide; [by subst|]. by rewrite Hother. }
    split; [|done]. apply (ptw_change_ok cap lo hi hi w w' count None); try done.
    + lia.
    + unfold w', field_update. cbn. congruence.
    + rewrite Ev. unfold w', field_update. cbn. pose proof (ptw_lengths_present w lo hi count e Ev Hc).
      pose proof (ptw_len_bounds w lo hi). rewrite Hn, wrap_small by (unfold in_range; lia). lia.
    + rewrite Ev. unfold w', field_update. cbn. f_equal. lia.
  - exists w. split; [done|]. split; [done|]. intros c. case_decide; [by subst|done].
Qed.

Lemma ptw_set_ok cap lo hi w count pdu e :
  ptw_ok cap lo hi w -> ptw_view w count = Some e ->
  exists w', ptw_set_pdu count pdu w = Ok w' /\ ptw_ok cap lo hi w' /\
    forall c, ptw_view w' c = if decide (c = count) then Some (e <| twe_pdu := pdu |>) else ptw_view w c.
Proof.
  intros Hok Ev. pose proof Hok as [Hwf Hcap Hr Hn Hb]. unfold ptw_set_pdu.
  rewrite (ptw_at_view _ _ _ Ev). cbn [checked_bind]. destruct (Hr _ _ Ev) as [Hc Ec].
  destruct (win_write_spec (ptw_window w) count (e <| twe_pdu := pdu |>) Hwf) as (v & -> & Hwf' & Hcap' & Hv & Hother);
    [by exists e|]. cbn [checked_bind]. eexists. split; [done|].
  match goal with |- ptw_ok _ _ _ ?x /\ _ => set (w' := x) end.
  assert (forall c, ptw_view w' c = if decide (c = count) then Some (e <| twe_pdu := pdu |>) else ptw_view w c) as Hview.
  { intros c. unfold ptw_view, w', field_update. cbn. case_decide; [by subst|]. by rewrite Hother. }
  split; [|done]. apply (ptw_change_ok cap lo hi hi w w' count (Some (e <| twe_pdu := pdu |>))); try done.
  - lia.
  - unfold w', field_update. cbn. congruence.
  - by intros e' [= <-].
  - rewrite Ev. unfold w', field_update. cbn. lia.
  - rewrite Ev. unfold w', field_update. cbn. rewrite Hb. rewrite Z.sub_add. symmetry. apply wrap_wrap. lia.
Qed.

(** The lower edge moves over counts that are not in the window. *)
Lemma ptw_raise_ok cap lo lo' hi w :
  ptw_ok cap lo hi w -> lo <= lo' -> (forall c, lo <= c < lo' -> ptw_view w c = None) -> ptw_ok cap lo' hi w.
Proof.
  intros [Hwf Hcap Hr Hn Hb] Hl Hv.
  assert (ptw_lengths w lo hi = ptw_lengths w lo' hi) as He.
  { destruct (decide (lo' <= hi)).
    - rewrite (ptw_lengths_app w lo lo' hi), (ptw_lengths_none w lo lo'); [done|done|lia].
    - rewrite !ptw_lengths_none; [done|intros; lia|]. intros c Hc. apply Hv. lia. }
  constructor; [done|done| |by rewrite <- He|by rewrite <- He].
  intros c e Ev. pose proof (Hr _ _ Ev). split; [|by apply Hr]. split; [|lia].
  destruct (decide (c < lo')); [|lia]. rewrite Hv in Ev; [done|lia].
Qed.

(** An empty window can be moved. *)
Lemma ptw_empty_ok cap lo hi lo' hi' w :
  ptw_ok cap lo hi w -> (forall c, ptw_view w c = None) -> ptw_ok cap lo' hi' w.
Proof.
  intros [Hwf Hcap Hr Hn Hb] Hv. rewrite ptw_lengths_none in Hn, Hb by (intros; apply Hv).
  constructor; rewrite ?ptw_lengths_none by (intros; apply Hv); try done.
  intros c e. by rewrite Hv.
Qed.

End tx_window.
