(* ===== verification/PdcpTx.v ===== *)
(** * PDCP: transmitting entity

    Models [pdcp_entity_tx] of [src/lib/pdcp/pdcp_entity_tx.h] and
    [src/lib/pdcp/pdcp_entity_tx.cpp].  An SDU is numbered and kept in the window where it
    arrives, protected by a pool of workers in any order, and submitted to the lower
    layers in order on the executor of the UE; notifications of the lower layers,
    status reports of the peer and the discard timer take it out of the window. *)
From stdpp Require Import base numbers list.
From Stdlib Require Import ZArith Lia.
From S2P Require Import Prelude.
From S2P Require Import SduWindow.
From S2P Require Import BitEncoding.
From S2P Require Import SecurityEngine.
From S2P Require Import PdcpSn.
From S2P Require Import PdcpPdu.
From S2P Require Import PdcpCryptoToken.
From S2P Require Import PdcpTxWindow.

Set Default Goal Selector "!".
Open Scope Z_scope.
Open Scope ran_scope.

(** ** Data *)

(** [ptx_discard_timer] is -1 for infinity. *)
Record pdcp_tx_config := mk_pdcp_tx_config {
  ptx_rb_type : pdcp_rb_type;
  ptx_rlc_mode : pdcp_rlc_mode;
  ptx_sn_size : pdcp_sn_size;
  ptx_direction : security_direction;
  ptx_discard_timer : option Z;
  ptx_status_report_required : bool;
  ptx_max_count_notify : Z;
  ptx_max_count_hard : Z;
  ptx_test_mode : bool;
  ptx_bearer_id : Z;
  ptx_max_nof_crypto_workers : Z;
}.

(** A PDU, or an SDU with its header, on its way through the executors. *)
Record pdcp_tx_buffer_info := mk_pdcp_tx_buffer_info {
  tbi_is_retx : bool;
  tbi_retx_id : Z;
  tbi_count : Z;
  tbi_buf : list Z;
}.

(** The tasks of the UE executor. *)
Inductive pdcp_tx_task : Type :=
| TxApplyReordering (info : pdcp_tx_buffer_info)
| TxHandleFailure (err : security_error).

(** Calls to the lower and upper layers and metrics.  [PdcpTxNumbered] is the log entry of
    an SDU added to the window; a PDU is shown with the COUNT logged with it. *)
Inductive pdcp_tx_output : Type :=
| PdcpTxNumbered (count : Z) (sdu : list Z)
| PdcpTxPdu (count : Z) (is_retx : bool) (pdu : list Z)
| PdcpTxControlPdu (pdu : list Z)
| PdcpTxDiscard (sn : Z)
| PdcpTxMaxCountReached
| PdcpTxProtocolFailure
| PdcpTxMetricSdus (sdus bytes : Z)
| PdcpTxMetricLostSdus (sdus : Z)
| PdcpTxMetricPdus (pdus bytes : Z)
| PdcpTxMetricDiscardTimeouts (timeouts : Z).
#[export] Instance pdcp_tx_output_eq_dec : EqDecision pdcp_tx_output.
Proof. solve_decision. Defined.

(** [ptx_discard_expiry] is the tick at which a running discard timer expires. *)
Record pdcp_tx_entity (W : Type -> Type) := mk_pdcp_tx_entity {
  ptx_next : Z;
  ptx_trans_crypto : Z;
  ptx_reord_crypto : Z;
  ptx_trans : Z;
  ptx_next_ack : Z;
  ptx_window : pdcp_tx_window W;
  ptx_discard_expiry : option Z;
  ptx_crypto_reordering_timer : bool;
  ptx_stopped : bool;
  ptx_buffering : bool;
  ptx_sdu_buffer : list (list Z);
  ptx_desired_buffer_size : Z;
  ptx_retransmit_id : Z;
  ptx_max_count_notified : bool;
  ptx_max_count_overflow : bool;
  ptx_integrity_enabled : bool;
  ptx_ciphering_enabled : bool;
  ptx_sec_engine_pool : list (option security_engine);
  ptx_token_mngr : pdcp_crypto_token_manager;
  ptx_crypto_tasks : list pdcp_tx_buffer_info;
  ptx_ue_tasks : list pdcp_tx_task;
}.
Arguments mk_pdcp_tx_entity {W}.
Arguments ptx_next {W}.
Arguments ptx_trans_crypto {W}.
Arguments ptx_reord_crypto {W}.
Arguments ptx_trans {W}.
Arguments ptx_next_ack {W}.
Arguments ptx_window {W}.
Arguments ptx_discard_expiry {W}.
Arguments ptx_crypto_reordering_timer {W}.
Arguments ptx_stopped {W}.
Arguments ptx_buffering {W}.
Arguments ptx_sdu_buffer {W}.
Arguments ptx_desired_buffer_size {W}.
Arguments ptx_retransmit_id {W}.
Arguments ptx_max_count_notified {W}.
Arguments ptx_max_count_overflow {W}.
Arguments ptx_integrity_enabled {W}.
Arguments ptx_ciphering_enabled {W}.
Arguments ptx_sec_engine_pool {W}.
Arguments ptx_token_mngr {W}.
Arguments ptx_crypto_tasks {W}.
Arguments ptx_ue_tasks {W}.
#[export] Instance pdcp_tx_entity_eta W : RecordEta (pdcp_tx_entity W) := fun r =>
  mk_pdcp_tx_entity (ptx_next r) (ptx_trans_crypto r) (ptx_reord_crypto r) (ptx_trans r)
    (ptx_next_ack r) (ptx_window r) (ptx_discard_expiry r) (ptx_crypto_reordering_timer r)
    (ptx_stopped r) (ptx_buffering r) (ptx_sdu_buffer r) (ptx_desired_buffer_size r)
    (ptx_retransmit_id r) (ptx_max_count_notified r) (ptx_max_count_overflow r)
    (ptx_integrity_enabled r) (ptx_ciphering_enabled r) (ptx_sec_engine_pool r)
    (ptx_token_mngr r) (ptx_crypto_tasks r) (ptx_ue_tasks r).

(** What the environment of [handle_sdu] decides: the tick of its clock, whether the copy
    of the SDU and the room for the header are allocated, and whether the crypto
    executor takes the task. *)
Record pdcp_tx_env := mk_pdcp_tx_env {
  ptx_now : Z;
  ptx_copy_ok : bool;
  ptx_hdr_ok : bool;
  ptx_exec_ok : bool;
}.

Section pdcp_tx.
Context {W : Type -> Type} `{!SduWindow W} `{!SecurityAlgorithms}.
Variable cfg : pdcp_tx_config.
Implicit Types s : pdcp_tx_entity W.

Definition ptx_is_srb : bool := bool_decide (ptx_rb_type cfg = rb_srb).
Definition ptx_is_um : bool := bool_decide (ptx_rlc_mode cfg = rlc_mode_um).
Definition ptx_is_am : bool := bool_decide (ptx_rlc_mode cfg = rlc_mode_am).
Definition ptx_window_size : Z := pdcp_window_size (ptx_sn_size cfg).
Definition ptx_SN (count : Z) : Z := pdcp_compute_sn count (ptx_sn_size cfg).
Definition ptx_has_discard_timer : bool :=
  match ptx_discard_timer cfg with Some _ => true | None => false end.

(** The constructor reports an error for a signalling bearer with 18-bit sequence
    numbers or unacknowledged mode. *)
Definition ptx_init : checked (pdcp_tx_entity W) :=
  assert? negb (ptx_is_srb && (negb (bool_decide (ptx_sn_size cfg = pdcp_size12bits)) || ptx_is_um));
  let? window := ptw_new (ptx_sn_size cfg) in
  Ok {| ptx_next := 0; ptx_trans_crypto := 0; ptx_reord_crypto := 0; ptx_trans := 0; ptx_next_ack := 0;
        ptx_window := window; ptx_discard_expiry := None; ptx_crypto_reordering_timer := false;
        ptx_stopped := false; ptx_buffering := false; ptx_sdu_buffer := [];
        ptx_desired_buffer_size := 0; ptx_retransmit_id := 0;
        ptx_max_count_notified := false; ptx_max_count_overflow := false;
        ptx_integrity_enabled := false; ptx_ciphering_enabled := false;
        ptx_sec_engine_pool := replicate (Z.to_nat (ptx_max_nof_crypto_workers cfg)) None;
        ptx_token_mngr := token_manager_init; ptx_crypto_tasks := []; ptx_ue_tasks := [] |}.

Definition ptx_return_token s : checked (pdcp_tx_entity W) :=
  let? m := return_token (ptx_token_mngr s) in Ok (s <| ptx_token_mngr := m |>).

(** A token is taken for the PDU; it is returned when the executor refuses. *)
Definition ptx_execute_crypto (accepted : bool) (info : pdcp_tx_buffer_info) s : checked (pdcp_tx_entity W) :=
  let s := s <| ptx_token_mngr ::= increment_token |> in
  if accepted then Ok (s <| ptx_crypto_tasks ::= fun l => l ++ [info] |>) else ptx_return_token s.

(** ** The window and the discard timer *)

(** [discard_timer.set(timeout)] and [run()]. *)
Definition ptx_run_discard_timer (now timeout : Z) s : pdcp_tx_entity W :=
  s <| ptx_discard_expiry := Some (u32 (now + timeout)) |>.

Definition ptx_remove (count : Z) s : checked (pdcp_tx_entity W) :=
  let? w := ptw_remove_sdu count (ptx_window s) in Ok (s <| ptx_window := w |>).

(** Removal of the SDUs from TX_NEXT_ACK up to [highest_count]. *)
Fixpoint ptx_ack_until (turns : nat) (highest_count : Z) s : checked (pdcp_tx_entity W) :=
  if ptx_next_ack s <=? highest_count then
    match turns with
    | O => Panic
    | S turns =>
        let? s := ptx_remove (ptx_next_ack s) s in
        ptx_ack_until turns highest_count (s <| ptx_next_ack ::= fun c => u32 (c + 1) |>)
    end
  else Ok s.

(** The tick of an SDU that is held under a finite discard timer. *)
Definition ptx_tick (count : Z) s : checked Z :=
  let? elem := ptw_at (ptx_window s) count in
  match tsi_tick_point_of_arrival (twe_sdu_info elem) with Some tick => Ok tick | None => Panic end.

Definition ptx_raise_trans s : pdcp_tx_entity W :=
  s <| ptx_trans := Z.max (ptx_trans s) (ptx_next_ack s) |>.

Definition stop_discard_timer (now highest_count : Z) s : checked (pdcp_tx_entity W) :=
  match ptx_discard_timer cfg with
  | None => Ok s
  | Some duration =>
      if (highest_count <? ptx_next_ack s) || (ptx_next s <=? highest_count) then Ok s else
      if negb (ptw_has_sn (ptx_window s) (ptx_next_ack s)) then Ok s else
      let s := s <| ptx_discard_expiry := None |> in
      let? s := ptx_ack_until (Z.to_nat (highest_count + 1 - ptx_next_ack s)) highest_count s in
      let s := ptx_raise_trans s in
      if duration =? -1 then Ok s else
      if negb (ptx_next_ack s =? ptx_next s) then
        let? tick := ptx_tick (ptx_next_ack s) s in
        Ok (ptx_run_discard_timer now (u32 (tick + duration - now)) s)
      else Ok s
  end.

(** TX_NEXT_ACK moves to the oldest SDU. *)
Fixpoint ptx_skip_absent (turns : nat) s : checked (pdcp_tx_entity W) :=
  if (ptx_next_ack s <? ptx_next s) && negb (ptw_has_sn (ptx_window s) (ptx_next_ack s)) then
    match turns with
    | O => Panic
    | S turns => ptx_skip_absent turns (s <| ptx_next_ack ::= fun c => u32 (c + 1) |>)
    end
  else Ok s.

Definition discard_pdu (count : Z) s : checked (pdcp_tx_entity W * list pdcp_tx_output) :=
  if negb ptx_has_discard_timer then Ok (s, []) else
  if (count <? ptx_next_ack s) || (ptx_next s <=? count) then Ok (s, []) else
  if negb (ptw_has_sn (ptx_window s) count) then Ok (s, []) else
  let? s := ptx_remove count s in
  let? s := ptx_skip_absent (Z.to_nat (ptx_next s - ptx_next_ack s)) s in
  Ok (ptx_raise_trans s, [PdcpTxDiscard (ptx_SN count)]).

(** The SDUs that arrived in the tick of the oldest one are discarded. *)
Fixpoint ptx_discard_oldest (turns : nat) (now oldest_timepoint : Z) s :
    checked (pdcp_tx_entity W * list pdcp_tx_output) :=
  match turns with
  | O => Panic
  | S turns =>
      emit? s := discard_pdu (ptx_next_ack s) s in
      if negb (ptw_has_sn (ptx_window s) (ptx_next_ack s)) then Ok (s, []) else
      let? tick := ptx_tick (ptx_next_ack s) s in
      if negb (tick =? oldest_timepoint)
      then Ok (ptx_run_discard_timer now (u32 (tick - oldest_timepoint)) s, [])
      else if negb (ptx_next_ack s =? ptx_next s) then ptx_discard_oldest turns now oldest_timepoint s
      else Ok (s, [])
  end.

Definition discard_callback (now : Z) s : checked (pdcp_tx_entity W * list pdcp_tx_output) :=
  if ptx_stopped s then Ok (s, []) else
  let metric := PdcpTxMetricDiscardTimeouts 1 in
  if negb (ptw_has_sn (ptx_window s) (ptx_next_ack s)) then Ok (s, [metric]) else
  let? oldest_timepoint := ptx_tick (ptx_next_ack s) s in
  let? (s, out) :=
    ptx_discard_oldest (Z.to_nat (ptx_next s - ptx_next_ack s)) now oldest_timepoint s in
  Ok (s, metric :: out).

(** ** Notifications of the lower layers *)

(** The lower edge is TX_TRANS when no discard timer is configured. *)
Definition notification_count_estimation (notification_sn : Z) s : Z :=
  let tx_lower := if ptx_has_discard_timer then ptx_next_ack s else ptx_trans s in
  pdcp_estimate_count (ptx_sn_size cfg) tx_lower notification_sn.

Definition handle_transmit_notification_impl (now notif_sn : Z) s : checked (pdcp_tx_entity W) :=
  if pdcp_sn_cardinality (ptx_sn_size cfg) <=? notif_sn then Ok s else
  let notif_count := notification_count_estimation notif_sn s in
  if ptx_trans_crypto s <=? notif_count then Ok s else
  if notif_count <? ptx_trans s then Ok s else
  if ptx_next s <=? notif_count then Ok s else
  let s := s <| ptx_trans := u32 (notif_count + 1) |> in
  if negb ptx_has_discard_timer then Ok s else
  if ptx_is_um then stop_discard_timer now notif_count s else Ok s.

Definition handle_transmit_notification (now notif_sn : Z) s : checked (pdcp_tx_entity W) :=
  if ptx_stopped s then Ok s else handle_transmit_notification_impl now notif_sn s.

Definition handle_delivery_notification_impl (now notif_sn : Z) s : checked (pdcp_tx_entity W) :=
  if pdcp_sn_cardinality (ptx_sn_size cfg) <=? notif_sn then Ok s else
  let notif_count := notification_count_estimation notif_sn s in
  if ptx_next s <=? notif_count then Ok s else
  if negb ptx_has_discard_timer then Ok s else
  if ptx_is_am then stop_discard_timer now notif_count s else Ok s.

Definition handle_delivery_notification (now notif_sn : Z) s : checked (pdcp_tx_entity W) :=
  if ptx_stopped s then Ok s else handle_delivery_notification_impl now notif_sn s.

Definition handle_retransmit_notification (now notif_sn : Z) s : checked (pdcp_tx_entity W) :=
  if ptx_stopped s || ptx_is_srb || ptx_is_um then Ok s
  else handle_transmit_notification_impl now notif_sn s.

Definition handle_delivery_retransmitted_notification (now notif_sn : Z) s : checked (pdcp_tx_entity W) :=
  if ptx_stopped s || ptx_is_srb || ptx_is_um then Ok s
  else handle_delivery_notification_impl now notif_sn s.

Definition handle_desired_buffer_size_notification (desired_bs : Z) s : pdcp_tx_entity W :=
  if ptx_stopped s then s else s <| ptx_desired_buffer_size := desired_bs |>.

(** ** Reordering of protected PDUs *)

(** The PDU of an element goes to the lower layers. *)
Definition ptx_submit (is_retx : bool) (count : Z) s : checked (pdcp_tx_entity W * list pdcp_tx_output) :=
  let? elem := ptw_at (ptx_window s) count in
  let? w := ptw_set_pdu count [] (ptx_window s) in
  Ok (s <| ptx_window := w |>,
      [PdcpTxMetricPdus 1 (zlen (twe_pdu elem)); PdcpTxPdu count is_retx (twe_pdu elem)]).

(** Submission in order, up to a missing PDU. *)
Fixpoint ptx_submit_consecutive (turns : nat) (now : Z) (is_retx : bool) (count : Z) s :
    checked (pdcp_tx_entity W * list pdcp_tx_output) :=
  if count <? ptx_next s then
    let? elem := ptw_at (ptx_window s) count in
    if bool_decide (twe_pdu elem = []) then Ok (s, []) else
    match turns with
    | O => Panic
    | S turns =>
        emit? s := ptx_submit is_retx count s in
        let s := s <| ptx_trans_crypto := u32 (count + 1) |> in
        let? s := (if ptx_test_mode cfg then handle_transmit_notification now (ptx_SN count) s else Ok s) in
        ptx_submit_consecutive turns now is_retx (u32 (count + 1)) s
    end
  else Ok (s, []).

Definition ptx_submit_all (now : Z) (is_retx : bool) s : checked (pdcp_tx_entity W * list pdcp_tx_output) :=
  ptx_submit_consecutive (Z.to_nat (ptx_next s - ptx_trans_crypto s)) now is_retx (ptx_trans_crypto s) s.

Definition ptx_handle_timers s : pdcp_tx_entity W :=
  let s := if ptx_crypto_reordering_timer s && (ptx_reord_crypto s <=? ptx_trans_crypto s)
           then s <| ptx_crypto_reordering_timer := false |> else s in
  if negb (ptx_crypto_reordering_timer s) && (ptx_trans_crypto s <? ptx_next s)
  then s <| ptx_reord_crypto := ptx_next s |> <| ptx_crypto_reordering_timer := true |> else s.

Definition ptx_apply_reordering (now : Z) (info : pdcp_tx_buffer_info) s :
    checked (pdcp_tx_entity W * list pdcp_tx_output) :=
  if ptx_stopped s then Ok (s, []) else
  if negb (tbi_retx_id info =? ptx_retransmit_id s) then Ok (s, []) else
  if tbi_count info <? ptx_next_ack s then Ok (s, []) else
  if tbi_count info <? ptx_trans s then Ok (s, []) else
  if negb (ptw_has_sn (ptx_window s) (tbi_count info)) then Ok (s, []) else
  let? w := ptw_set_pdu (tbi_count info) (tbi_buf info) (ptx_window s) in
  let? (s, out) := ptx_submit_all now (tbi_is_retx info) (s <| ptx_window := w |>) in
  Ok (ptx_handle_timers s, out).

(** Up to TX_REORD_CRYPTO, what is not protected yet is passed over. *)
Fixpoint ptx_pass_over (turns : nat) s : checked (pdcp_tx_entity W * list pdcp_tx_output) :=
  if ptx_trans_crypto s =? ptx_reord_crypto s then Ok (s, []) else
  match turns with
  | O => Panic
  | S turns =>
      emit? s :=
        (if ptw_has_sn (ptx_window s) (ptx_trans_crypto s) then
           let? elem := ptw_at (ptx_window s) (ptx_trans_crypto s) in
           if bool_decide (twe_pdu elem = []) then Ok (s, [])
           else ptx_submit false (ptx_trans_crypto s) s
         else Ok (s, [])) in
      ptx_pass_over turns (s <| ptx_trans_crypto ::= fun c => u32 (c + 1) |>)
  end.

Definition crypto_reordering_timeout (now : Z) s : checked (pdcp_tx_entity W * list pdcp_tx_output) :=
  if ptx_stopped s then Ok (s, []) else
  emit? s := ptx_pass_over (Z.to_nat (u32 (ptx_reord_crypto s - ptx_trans_crypto s))) s in
  emit? s := ptx_submit_all now false s in
  Ok (if ptx_trans_crypto s <? ptx_next s
      then s <| ptx_reord_crypto := ptx_next s |> <| ptx_crypto_reordering_timer := true |> else s, []).

(** ** Security *)

(** Without an engine a signalling bearer appends a zero MAC, a data bearer fails.  The
    result of the engine is taken without a look at its error. *)
Definition apply_ciphering_and_integrity_protection (worker_idx : Z) (append : bool) (buf : list Z)
    (count : Z) s : checked security_result :=
  if ptx_max_nof_crypto_workers cfg <=? worker_idx then Panic else
  match ptx_sec_engine_pool s !! Z.to_nat worker_idx with
  | None => Panic
  | Some None =>
      Ok (if ptx_is_srb then
            if append then mk_security_result (inl (buf ++ [0; 0; 0; 0])) count
            else mk_security_result (inr buffer_failure) count
          else mk_security_result (inr engine_failure) count)
  | Some (Some sec_engine) =>
      let hdr_size := if bool_decide (ptx_sn_size cfg = pdcp_size12bits) then 2 else 3 in
      let? result := encrypt_and_protect_integrity append sec_engine buf hdr_size count in
      match sr_buf result with
      | inl pdu => Ok (mk_security_result (inl pdu) 0)
      | inr _ => Panic
      end
  end.

(** [accepted]: the UE executor takes the task.  The token goes with a PDU, but not
    with a failure. *)
Definition ptx_apply_security (worker_idx : Z) (append accepted : bool) (info : pdcp_tx_buffer_info) s :
    checked (pdcp_tx_entity W) :=
  let? result :=
    apply_ciphering_and_integrity_protection worker_idx append (tbi_buf info) (tbi_count info) s in
  match sr_buf result with
  | inr err =>
      ptx_return_token
        (if accepted then s <| ptx_ue_tasks ::= fun l => l ++ [TxHandleFailure err] |> else s)
  | inl pdu =>
      let info := mk_pdcp_tx_buffer_info (tbi_is_retx info) (tbi_retx_id info) (tbi_count info) pdu in
      if accepted then Ok (s <| ptx_ue_tasks ::= fun l => l ++ [TxApplyReordering info] |>)
      else ptx_return_token s
  end.

(** A worker runs the [i]-th waiting task. *)
Definition ptx_run_crypto (i : nat) (worker_idx : Z) (append accepted : bool) s :
    checked (pdcp_tx_entity W) :=
  match ptx_crypto_tasks s !! i with
  | None => Ok s
  | Some info =>
      ptx_apply_security worker_idx append accepted info (s <| ptx_crypto_tasks ::= delete i |>)
  end.

(** The UE executor runs its first task. *)
Definition ptx_run_ue (now : Z) s : checked (pdcp_tx_entity W * list pdcp_tx_output) :=
  match ptx_ue_tasks s with
  | [] => Ok (s, [])
  | task :: tasks =>
      let s := s <| ptx_ue_tasks := tasks |> in
      match task with
      | TxApplyReordering info =>
          let? (s, out) := ptx_apply_reordering now info s in
          let? s := ptx_return_token s in
          Ok (s, out)
      | TxHandleFailure _ => Ok (s, [PdcpTxProtocolFailure])
      end
  end.

(** ** SDUs *)

Definition get_pdu_size (sdu : list Z) s : Z :=
  u32 (pdcp_data_header_size (ptx_sn_size cfg) + zlen sdu + if ptx_integrity_enabled s then 4 else 0).

(** Whether an SDU is dropped: for no room in the queue of the RLC, or in the window. *)
Definition check_early_drop (buf : list Z) s : bool :=
  if ptx_desired_buffer_size s =? 0 then true else
  let pdu_size := get_pdu_size buf s in
  let updated_buffer_size :=
    u32 (ptw_get_pdu_bytes (ptx_rb_type cfg) (ptx_sn_size cfg) (ptx_integrity_enabled s) (ptx_window s) +
         pdu_size) in
  if ptx_desired_buffer_size s <? updated_buffer_size then true else
  ptx_window_size - 1 <=? u32 (ptx_next s - ptx_next_ack s).

(** The SDU with its header, or [None] when there is no room for it. *)
Definition ptx_prepare (hdr_ok : bool) (count : Z) (sdu : list Z) : checked (option (list Z)) :=
  let? header := pdcp_write_data_pdu_header ptx_is_srb (ptx_sn_size cfg) (ptx_SN count) in
  Ok (if hdr_ok && negb (bool_decide (header = [])) then Some (header ++ sdu) else None).

(** The SDU is numbered, kept, and handed to the crypto executor. *)
Definition ptx_admit (env : pdcp_tx_env) (buf : list Z) s :
    checked (pdcp_tx_entity W * list pdcp_tx_output) :=
  let lost := PdcpTxMetricLostSdus 1 in
  let tick := match ptx_discard_timer cfg with
              | Some duration => if duration =? -1 then None else Some (ptx_now env)
              | None => None
              end in
  let s := match ptx_discard_timer cfg, tick, ptx_discard_expiry s with
           | Some duration, Some _, None => ptx_run_discard_timer (ptx_now env) duration s
           | _, _, _ => s
           end in
  let stores := ptx_has_discard_timer && ptx_is_am in
  if stores && negb (ptx_copy_ok env) then Ok (s, [lost; PdcpTxProtocolFailure]) else
  let count := ptx_next s in
  let sdu_info := mk_pdcp_tx_window_sdu_info (if stores then buf else []) count tick in
  let? w := ptw_add_sdu sdu_info (u32 (zlen buf)) (ptx_window s) in
  let s := s <| ptx_window := w |> in
  let numbered := PdcpTxNumbered count buf in
  let? pdu := ptx_prepare (ptx_hdr_ok env) count buf in
  match pdu with
  | None => Ok (s, [numbered; lost; PdcpTxProtocolFailure])
  | Some pdu =>
      let info := mk_pdcp_tx_buffer_info false (ptx_retransmit_id s) count pdu in
      let? s := ptx_execute_crypto (ptx_exec_ok env) info (s <| ptx_next := u32 (count + 1) |>) in
      Ok (s, numbered :: if ptx_exec_ok env then [] else [lost])
  end.

Definition sdu_buffer_capacity : Z := 2048.

(** The refusal at the maximum COUNT. *)
Definition ptx_refuse s : pdcp_tx_entity W * list pdcp_tx_output :=
  if ptx_max_count_overflow s then (s, [])
  else (s <| ptx_max_count_overflow := true |>, [PdcpTxMetricLostSdus 1; PdcpTxProtocolFailure]).

Definition ptx_notify_max_count s : pdcp_tx_entity W * list pdcp_tx_output :=
  if (ptx_max_count_notify cfg <=? ptx_next s) && negb (ptx_max_count_notified s)
  then (s <| ptx_max_count_notified := true |>, [PdcpTxMaxCountReached]) else (s, []).

Definition ptx_handle_sdu (env : pdcp_tx_env) (buf : list Z) s :
    checked (pdcp_tx_entity W * list pdcp_tx_output) :=
  let metric := PdcpTxMetricSdus 1 (zlen buf) in
  if ptx_stopped s then Ok (s, [metric; PdcpTxMetricLostSdus 1]) else
  if ptx_buffering s then
    if zlen (ptx_sdu_buffer s) =? sdu_buffer_capacity then Ok (s, [metric])
    else Ok (s <| ptx_sdu_buffer ::= fun l => l ++ [buf] |>, [metric])
  else if negb ptx_is_srb && check_early_drop buf s then Ok (s, [metric; PdcpTxMetricLostSdus 1]) else
  if ptx_max_count_hard cfg <=? ptx_next s then
    let '(s, out) := ptx_refuse s in Ok (s, metric :: out)
  else
    let '(s, out) := ptx_notify_max_count s in
    let? (s, out') := ptx_admit env buf s in
    Ok (s, metric :: out ++ out').

(** ** Status reports *)

(** The SDUs from [count] up to the first missing COUNT. *)
Fixpoint ptx_discard_until (turns : nat) (fmc count : Z) s : checked (pdcp_tx_entity W * list pdcp_tx_output) :=
  if count <? fmc then
    match turns with
    | O => Panic
    | S turns => emit? s := discard_pdu count s in ptx_discard_until turns fmc (u32 (count + 1)) s
    end
  else Ok (s, []).

(** The SDUs whose bit is set. *)
Fixpoint ptx_discard_bits (turns : nat) (fmc : Z) (dec : bit_decoder) s :
    checked (pdcp_tx_entity W * list pdcp_tx_output) :=
  let? (more, bit, dec) := bd_unpack 32 1 dec in
  if negb more then Ok (s, []) else
  match turns with
  | O => Panic
  | S turns =>
      let fmc := u32 (fmc + 1) in
      emit? s := (if bit =? 1 then discard_pdu fmc s else Ok (s, [])) in
      ptx_discard_bits turns fmc dec s
  end.

(** The results of [unpack] are not looked at in the header; [copy_ok]: the copy of the
    report is allocated. *)
Definition handle_status_report (copy_ok : bool) (status : list Z) s :
    checked (pdcp_tx_entity W * list pdcp_tx_output) :=
  if negb copy_ok then Ok (s, []) else
  let? (_, dc, dec) := bd_unpack 32 1 (bit_decoder_new status) in
  if negb (dc =? pdcp_dc_control) then Ok (s, []) else
  let? (_, cpt, dec) := bd_unpack 32 3 dec in
  if negb (cpt =? pdcp_control_status_report) then Ok (s, []) else
  let? (_, reserved, dec) := bd_unpack 32 4 dec in
  if negb (reserved =? 0) then Ok (s, []) else
  let? (_, fmc, dec) := bd_unpack 32 32 dec in
  emit? s := ptx_discard_until (Z.to_nat (fmc - ptx_next_ack s)) fmc (ptx_next_ack s) s in
  ptx_discard_bits (8 * length status) fmc dec s.

(** [report] is what the receiving entity compiles. *)
Definition send_status_report (report : list Z) : list pdcp_tx_output :=
  if ptx_status_report_required cfg
  then [PdcpTxMetricPdus 1 (zlen report); PdcpTxControlPdu report] else [].

(** ** Retransmission *)

(** [envs] decides for each SDU that is in the window. *)
Fixpoint ptx_retransmit (turns : nat) (envs : list pdcp_tx_env) (count : Z) s :
    checked (pdcp_tx_entity W * list pdcp_tx_output) :=
  if count <? ptx_next s then
    match turns with
    | O => Panic
    | S turns =>
        if ptw_has_sn (ptx_window s) count then
          let env := default (mk_pdcp_tx_env 0 true true true) (head envs) in
          if negb (ptx_copy_ok env) then Ok (s, [PdcpTxProtocolFailure]) else
          let? elem := ptw_at (ptx_window s) count in
          let? pdu := ptx_prepare (ptx_hdr_ok env) count (tsi_sdu (twe_sdu_info elem)) in
          match pdu with
          | None => Ok (s, [PdcpTxProtocolFailure])
          | Some pdu =>
              let info := mk_pdcp_tx_buffer_info true (ptx_retransmit_id s) count pdu in
              let? s := ptx_execute_crypto (ptx_exec_ok env) info s in
              ptx_retransmit turns (tail envs) (u32 (count + 1)) s
          end
        else ptx_retransmit turns envs (u32 (count + 1)) s
    end
  else Ok (s, []).

Definition retransmit_all_pdus (envs : list pdcp_tx_env) s :
    checked (pdcp_tx_entity W * list pdcp_tx_output) :=
  if negb ptx_has_discard_timer then Ok (s, []) else
  if negb ptx_is_am then Ok (s, []) else
  let s := s <| ptx_trans := ptx_next_ack s |> <| ptx_trans_crypto := ptx_next_ack s |>
             <| ptx_retransmit_id ::= fun id => u16 (id + 1) |> in
  ptx_retransmit (Z.to_nat (ptx_next s - ptx_next_ack s)) envs (ptx_next_ack s) s.

Definition data_recovery (report : list Z) (envs : list pdcp_tx_env) s :
    checked (pdcp_tx_entity W * list pdcp_tx_output) :=
  assert? negb ptx_is_srb && ptx_is_am;
  let? (s, out) := retransmit_all_pdus envs s in
  Ok (s, send_status_report report ++ out).

(** ** Control *)

(** The timers keep running. *)
Definition ptx_reset s : pdcp_tx_entity W :=
  s <| ptx_next := 0 |> <| ptx_trans_crypto := 0 |> <| ptx_reord_crypto := 0 |> <| ptx_trans := 0 |>
    <| ptx_next_ack := 0 |> <| ptx_window ::= ptw_clear |>.

Definition ptx_stop s : checked (pdcp_tx_entity W) :=
  if ptx_stopped s then Ok s else
  let? m := token_manager_stop (ptx_token_mngr s) in
  let s := if ptx_has_discard_timer then s <| ptx_discard_expiry := None |> else s in
  Ok (s <| ptx_stopped := true |> <| ptx_window ::= ptw_clear |>
        <| ptx_crypto_reordering_timer := false |> <| ptx_token_mngr := m |>).

Definition ptx_notify_pdu_processing_stopped s : checked (pdcp_tx_entity W) :=
  if ptx_stopped s then Ok s else
  let? m := token_manager_stop (ptx_token_mngr s) in Ok (s <| ptx_token_mngr := m |>).

Definition ptx_restart_pdu_processing s : pdcp_tx_entity W :=
  if ptx_stopped s then s else s <| ptx_token_mngr ::= token_manager_start |>.

Definition ptx_begin_buffering s : pdcp_tx_entity W := s <| ptx_buffering := true |>.

(** The buffered SDUs are handled in their order; [envs] decides for each of them. *)
Fixpoint flush_sdu_buffer (sdus : list (list Z)) (envs : list pdcp_tx_env) s :
    checked (pdcp_tx_entity W * list pdcp_tx_output) :=
  match sdus with
  | [] => Ok (s, [])
  | buf :: sdus =>
      let s := s <| ptx_sdu_buffer := sdus |> in
      emit? s := ptx_handle_sdu (default (mk_pdcp_tx_env 0 true true true) (head envs)) buf s in
      flush_sdu_buffer sdus (tail envs) s
  end.

Definition ptx_end_buffering (envs : list pdcp_tx_env) s : checked (pdcp_tx_entity W * list pdcp_tx_output) :=
  flush_sdu_buffer (ptx_sdu_buffer s) envs (s <| ptx_buffering := false |>).

Fixpoint ptx_make_engines (workers : nat) (sec_cfg : sec_128_as_config) (integrity ciphering : bool) :
    checked (list (option security_engine)) :=
  match workers with
  | O => Ok []
  | S workers =>
      let? eng := security_engine_impl sec_cfg (ptx_bearer_id cfg) (ptx_direction cfg) integrity ciphering in
      let? pool := ptx_make_engines workers sec_cfg integrity ciphering in
      Ok (Some eng :: pool)
  end.

Definition ptx_configure_security (sec_cfg : sec_128_as_config) (integrity ciphering : bool) s :
    checked (pdcp_tx_entity W) :=
  assert? bool_decide (sec_config_domain sec_cfg = if ptx_is_srb then sec_domain_rrc else sec_domain_up);
  let missing := bool_decide (k_128_int sec_cfg = None) || bool_decide (integ_algo sec_cfg = None) in
  if integrity && missing then Ok s else
  assert? integrity || negb ptx_is_srb;
  let? pool := ptx_make_engines (Z.to_nat (ptx_max_nof_crypto_workers cfg)) sec_cfg integrity ciphering in
  Ok (s <| ptx_integrity_enabled := integrity |> <| ptx_ciphering_enabled := ciphering |>
        <| ptx_sec_engine_pool := pool |>).

Definition ptx_reestablish (sec_cfg : sec_128_as_config) (envs : list pdcp_tx_env) s :
    checked (pdcp_tx_entity W * list pdcp_tx_output) :=
  let s := if ptx_is_srb || ptx_is_um then ptx_reset s else s in
  let? s := ptx_configure_security sec_cfg (ptx_integrity_enabled s) (ptx_ciphering_enabled s) s in
  if ptx_is_am then retransmit_all_pdus envs s else Ok (s, []).

(** Status transfer: the window is not touched. *)
Definition ptx_set_count (hfn sn : Z) s : pdcp_tx_entity W :=
  let count := pdcp_compute_count hfn sn (ptx_sn_size cfg) in
  s <| ptx_next := count |> <| ptx_trans_crypto := count |> <| ptx_reord_crypto := count |>
    <| ptx_trans := count |> <| ptx_next_ack := count |>.

Definition ptx_get_count s : Z * Z :=
  (pdcp_compute_hfn (ptx_next s) (ptx_sn_size cfg), pdcp_compute_sn (ptx_next s) (ptx_sn_size cfg)).

(** ** Events *)

Inductive pdcp_tx_op : Type :=
| PdcpTxSdu (env : pdcp_tx_env) (buf : list Z)
| PdcpTxCrypto (i : nat) (worker_idx : Z) (append accepted : bool)
| PdcpTxUeTask (now : Z)
| PdcpTxTransmitted (now sn : Z)
| PdcpTxDelivered (now sn : Z)
| PdcpTxRetransmitted (now sn : Z)
| PdcpTxDeliveredRetransmitted (now sn : Z)
| PdcpTxDesiredBufferSize (bytes : Z)
| PdcpTxStatusReport (copy_ok : bool) (report : list Z)
| PdcpTxDiscardExpired (now : Z)
| PdcpTxReorderingExpired (now : Z)
| PdcpTxDataRecovery (report : list Z) (envs : list pdcp_tx_env)
| PdcpTxConfigureSecurity (sec_cfg : sec_128_as_config) (integrity ciphering : bool)
| PdcpTxReestablish (sec_cfg : sec_128_as_config) (envs : list pdcp_tx_env)
| PdcpTxBeginBuffering
| PdcpTxEndBuffering (envs : list pdcp_tx_env)
| PdcpTxNotifyStopped
| PdcpTxRestart
| PdcpTxSetCount (hfn sn : Z)
| PdcpTxStop.

Definition quietly (m : checked (pdcp_tx_entity W)) : checked (pdcp_tx_entity W * list pdcp_tx_output) :=
  let? s := m in Ok (s, []).

Definition pdcp_tx_step (op : pdcp_tx_op) s : checked (pdcp_tx_entity W * list pdcp_tx_output) :=
  match op with
  | PdcpTxSdu env buf => ptx_handle_sdu env buf s
  | PdcpTxCrypto i worker_idx append accepted => quietly (ptx_run_crypto i worker_idx append accepted s)
  | PdcpTxUeTask now => ptx_run_ue now s
  | PdcpTxTransmitted now sn => quietly (handle_transmit_notification now sn s)
  | PdcpTxDelivered now sn => quietly (handle_delivery_notification now sn s)
  | PdcpTxRetransmitted now sn => quietly (handle_retransmit_notification now sn s)
  | PdcpTxDeliveredRetransmitted now sn => quietly (handle_delivery_retransmitted_notification now sn s)
  | PdcpTxDesiredBufferSize bytes => Ok (handle_desired_buffer_size_notification bytes s, [])
  | PdcpTxStatusReport copy_ok report => handle_status_report copy_ok report s
  | PdcpTxDiscardExpired now =>
      match ptx_discard_expiry s with
      | Some _ => discard_callback now (s <| ptx_discard_expiry := None |>)
      | None => Ok (s, [])
      end
  | PdcpTxReorderingExpired now =>
      if ptx_crypto_reordering_timer s
      then crypto_reordering_timeout now (s <| ptx_crypto_reordering_timer := false |>)
      else Ok (s, [])
  | PdcpTxDataRecovery report envs => data_recovery report envs s
  | PdcpTxConfigureSecurity sec_cfg integrity ciphering =>
      quietly (ptx_configure_security sec_cfg integrity ciphering s)
  | PdcpTxReestablish sec_cfg envs => ptx_reestablish sec_cfg envs s
  | PdcpTxBeginBuffering => Ok (ptx_begin_buffering s, [])
  | PdcpTxEndBuffering envs => ptx_end_buffering envs s
  | PdcpTxNotifyStopped => quietly (ptx_notify_pdu_processing_stopped s)
  | PdcpTxRestart => Ok (ptx_restart_pdu_processing s, [])
  | PdcpTxSetCount hfn sn => Ok (ptx_set_count hfn sn s, [])
  | PdcpTxStop => quietly (ptx_stop s)
  end.

Fixpoint pdcp_tx_run (ops : list pdcp_tx_op) s : checked (pdcp_tx_entity W * list pdcp_tx_output) :=
  match ops with
  | [] => Ok (s, [])
  | op :: ops => emit? s := pdcp_tx_step op s in pdcp_tx_run ops s
  end.

End pdcp_tx.
