(* ===== verification/PdcpTxProps.v ===== *)
(** * PDCP transmitting entity: window and timers

    The invariant of the window of [PdcpTx], and that every operation on it (removal by
    notifications, by status reports and by the discard timer, submission in order)
    succeeds and preserves it as long as no SDU is removed before its PDU was
    submitted. *)
From stdpp Require Import base numbers list sorting sets.
From Stdlib Require Import ZArith Lia.
From S2P Require Import Prelude.
From S2P Require Import SduWindow.
From S2P Require Import BitEncoding.
From S2P Require Import SecurityEngine.
From S2P Require Import PdcpSn.
From S2P Require Import PdcpPdu.
From S2P Require Import PdcpCryptoToken.
From S2P Require Import PdcpTxWindow.
From S2P Require Import PdcpTx.

Set Default Goal Selector "!".
Open Scope Z_scope.
Open Scope ran_scope.

(** ** Outputs *)

(** The SDUs numbered and the PDUs submitted, with their COUNTs, and the discards. *)
Definition nums_of (out : list pdcp_tx_output) : list (Z * list Z) :=
  omap (fun o => match o with PdcpTxNumbered count sdu => Some (count, sdu) | _ => None end) out.
Definition pdus_of (out : list pdcp_tx_output) : list (Z * list Z) :=
  omap (fun o => match o with PdcpTxPdu count _ pdu => Some (count, pdu) | _ => None end) out.
Definition discards_of (out : list pdcp_tx_output) : list Z :=
  omap (fun o => match o with PdcpTxDiscard sn => Some sn | _ => None end) out.

Lemma nums_of_app out out' : nums_of (out ++ out') = nums_of out ++ nums_of out'.
Proof. apply omap_app. Qed.
Lemma pdus_of_app out out' : pdus_of (out ++ out') = pdus_of out ++ pdus_of out'.
Proof. apply omap_app. Qed.
Lemma discards_of_app out out' : discards_of (out ++ out') = discards_of out ++ discards_of out'.
Proof. apply omap_app. Qed.

Section tx_props.
Context {W : Type -> Type} `{!SduWindow W} `{!SduWindowLaws W} `{!SecurityAlgorithms}.
Variable cfg : pdcp_tx_config.
Implicit Types s : pdcp_tx_entity W.

Definition ptx_view s (count : Z) : option pdcp_tx_window_element := ptw_view (ptx_window s) count.

(** A finite discard timer. *)
Definition ptx_finite : Prop := exists d, ptx_discard_timer cfg = Some d /\ d <> -1.

(** Sequence numbers of 12 or 18 bits, 12 for signalling bearers, which use acknowledged
    mode; COUNTs below 2^32 - 1; durations that are positive, or infinity. *)
Definition ptx_cfg_ok : Prop :=
  bearer_ok (ptx_is_srb cfg) (ptx_sn_size cfg) /\
  (ptx_is_srb cfg = true -> ptx_is_um cfg = false) /\
  ptx_max_count_hard cfg <= 2 ^ 32 - 1 /\ 0 <= ptx_max_nof_crypto_workers cfg /\
  exists d, ptx_discard_timer cfg = Some d /\ (d = -1 \/ 0 < d).

(** ** Invariant of the window *)

Record ptx_live s : Prop := mk_ptx_live {
  lv_order : 0 <= ptx_next_ack s <= ptx_trans_crypto s /\ ptx_trans_crypto s <= ptx_next s < 2 ^ 32;
  lv_trans : 0 <= ptx_trans s <= ptx_trans_crypto s;
  lv_window : ptw_ok (ptx_window_size cfg) (ptx_next_ack s) (ptx_next s) (ptx_window s);
  lv_size : ptx_next s - ptx_next_ack s <= ptx_window_size cfg;
  lv_pending c : ptx_trans_crypto s <= c < ptx_next s -> is_Some (ptx_view s c);
  lv_oldest : ptx_next_ack s < ptx_next s -> is_Some (ptx_view s (ptx_next_ack s));
  lv_ticks : ptx_finite -> forall c e, ptx_view s c = Some e ->
    is_Some (tsi_tick_point_of_arrival (twe_sdu_info e));
}.

(** Held SDUs wait no longer than the discard timer, which runs when it is finite only. *)
Definition ptx_timed s : Prop :=
  (ptx_finite -> ptx_next_ack s < ptx_next s -> is_Some (ptx_discard_expiry s)) /\
  (is_Some (ptx_discard_expiry s) -> ptx_finite).

(** The fields that the operations on the window leave alone. *)
Definition ptx_core s :=
  (ptx_next s, ptx_stopped s, ptx_buffering s, ptx_sdu_buffer s, ptx_desired_buffer_size s,
   ptx_retransmit_id s, ptx_sec_engine_pool s, ptx_token_mngr s, ptx_crypto_tasks s, ptx_ue_tasks s).

Lemma ptx_core_fields s s' : ptx_core s' = ptx_core s ->
  ptx_next s' = ptx_next s /\ ptx_stopped s' = ptx_stopped s /\ ptx_buffering s' = ptx_buffering s /\
  ptx_sdu_buffer s' = ptx_sdu_buffer s /\ ptx_retransmit_id s' = ptx_retransmit_id s /\
  ptx_sec_engine_pool s' = ptx_sec_engine_pool s /\ ptx_token_mngr s' = ptx_token_mngr s /\
  ptx_crypto_tasks s' = ptx_crypto_tasks s /\ ptx_ue_tasks s' = ptx_ue_tasks s.
Proof. unfold ptx_core. by intros [= -> -> -> -> ? -> -> -> -> ->]. Qed.

(** Nothing but removal from the window. *)
Record ptx_trims s s' : Prop := mk_ptx_trims {
  tr_core : ptx_core s' = ptx_core s;
  tr_crypto : ptx_trans_crypto s' = ptx_trans_crypto s;
  tr_reord : ptx_reord_crypto s' = ptx_reord_crypto s;
  tr_timer : ptx_crypto_reordering_timer s' = ptx_crypto_reordering_timer s;
  tr_ack : ptx_next_ack s <= ptx_next_ack s';
  tr_view c : ptx_view s' c = None \/ ptx_view s' c = ptx_view s c;
}.

Lemma ptx_trims_refl s : ptx_trims s s.
Proof. constructor; try done. by right. Qed.
Lemma ptx_trims_trans s1 s2 s3 : ptx_trims s1 s2 -> ptx_trims s2 s3 -> ptx_trims s1 s3.
Proof.
  intros [C1 T1 R1 M1 A1 V1] [C2 T2 R2 M2 A2 V2]. constructor; [congruence..|lia|].
  intros c. destruct (V2 c) as [?| ->]; [by left|apply V1].
Qed.

(** ** Walks over the window *)

Lemma ptx_ack_until_spec turns h s :
  ptw_ok (ptx_window_size cfg) (ptx_next_ack s) (ptx_next s) (ptx_window s) ->
  0 <= ptx_next_ack s <= h + 1 -> h < ptx_next s < 2 ^ 32 -> ptx_next s - ptx_next_ack s < 2 ^ 31 ->
  turns = Z.to_nat (h + 1 - ptx_next_ack s) ->
  exists w, ptx_ack_until turns h s = Ok (s <| ptx_window := w |> <| ptx_next_ack := h + 1 |>) /\
    ptw_ok (ptx_window_size cfg) (h + 1) (ptx_next s) w /\
    forall c, ptw_view w c = if decide (c <= h) then None else ptx_view s c.
Proof.
  revert s. induction turns as [|turns IH]; intros s Hw Hh Hn Hsz Ht; cbn [ptx_ack_until].
  - rewrite (proj2 (Z.leb_gt _ _)) by lia. assert (h + 1 = ptx_next_ack s) as Eh by lia.
    exists (ptx_window s). split; [|split].
    + rewrite Eh. by destruct s.
    + by rewrite Eh.
    + intros c. case_decide; [|done]. destruct (ptw_view (ptx_window s) c) eqn:E; [|done].
      apply (pok_range _ _ _ _ Hw) in E. lia.
  - rewrite (proj2 (Z.leb_le _ _)) by lia. unfold ptx_remove.
    destruct (ptw_remove_ok _ _ _ _ (ptx_next_ack s) Hw Hsz) as (w & -> & Hw' & Hv). cbn [checked_bind].
    set (s1 := s <| ptx_window := w |> <| ptx_next_ack ::= fun c => u32 (c + 1) |>).
    assert (ptx_next_ack s1 = ptx_next_ack s + 1) as Ea.
    { unfold s1, field_update. cbn. apply wrap_small. unfold in_range. lia. }
    assert (ptx_next s1 = ptx_next s) as En by done.
    destruct (IH s1) as (w2 & -> & Hw2 & Hv2); rewrite ?Ea, ?En; try lia.
    { apply (ptw_raise_ok _ (ptx_next_ack s)); [exact Hw'|lia|]. intros c Hc. rewrite Hv. by rewrite decide_True by lia. }
    exists w2. split; [by destruct s|]. split; [done|]. intros c. rewrite Hv2. case_decide; [done|].
    unfold ptx_view, s1, field_update. cbn. rewrite Hv. rewrite decide_False by lia. done.
Qed.

Lemma ptx_skip_absent_spec turns s :
  ptw_ok (ptx_window_size cfg) (ptx_next_ack s) (ptx_next s) (ptx_window s) ->
  0 <= ptx_next_ack s <= ptx_next s -> ptx_next s < 2 ^ 32 -> turns = Z.to_nat (ptx_next s - ptx_next_ack s) ->
  exists n, ptx_skip_absent turns s = Ok (s <| ptx_next_ack := n |>) /\
    ptx_next_ack s <= n <= ptx_next s /\ (forall c, ptx_next_ack s <= c < n -> ptx_view s c = None) /\
    (n < ptx_next s -> is_Some (ptx_view s n)) /\
    ptw_ok (ptx_window_size cfg) n (ptx_next s) (ptx_window s).
Proof.
  revert s. induction turns as [|turns IH]; intros s Hw Hn Hb Ht; cbn [ptx_skip_absent].
  - rewrite (proj2 (Z.ltb_ge _ _)) by lia. exists (ptx_next_ack s). split; [by destruct s|].
    split; [lia|]. split; [intros; lia|]. split; [intros; lia|done].
  - rewrite (proj2 (Z.ltb_lt _ _)), ptw_has_view by lia. cbn [andb].
    destruct (ptw_view (ptx_window s) (ptx_next_ack s)) as [e|] eqn:E; cbn [negb].
    + exists (ptx_next_ack s). split; [by destruct s|]. split; [lia|]. split; [intros; lia|]. split; [intros _; by exists e|done].
    + set (s1 := s <| ptx_next_ack ::= fun c => u32 (c + 1) |>).
      assert (ptx_next_ack s1 = ptx_next_ack s + 1) as Ea.
      { unfold s1, field_update. cbn. apply wrap_small. unfold in_range. lia. }
      destruct (IH s1) as (n & -> & Hr & Hv & Hp & Hok); rewrite ?Ea; try done.
      * apply (ptw_raise_ok _ (ptx_next_ack s)); [done|lia|]. intros c Hc. by replace c with (ptx_next_ack s) by lia.
      * change (ptx_next s1) with (ptx_next s). lia.
      * change (ptx_next s1) with (ptx_next s). lia.
      * rewrite Ea in Hr, Hv. change (ptx_next s1) with (ptx_next s) in *. exists n. split; [by destruct s|].
        split; [lia|]. split; [|by split]. intros c Hc. destruct (decide (c = ptx_next_ack s)) as [->|]; [done|].
        apply Hv. lia.
Qed.

Lemma ptx_window_size_range : sn_size_ok (ptx_sn_size cfg) -> 0 < ptx_window_size cfg <= 2 ^ 17.
Proof. unfold sn_size_ok, ptx_window_size. by destruct (ptx_sn_size cfg). Qed.

(** The tick of a held SDU. *)
Definition ptx_arrived s (count : Z) : option Z :=
  e ← ptx_view s count; tsi_tick_point_of_arrival (twe_sdu_info e).

Lemma ptx_tick_arrived s c t : ptx_arrived s c = Some t -> ptx_tick c s = Ok t.
Proof.
  unfold ptx_arrived, ptx_tick. intros (e & Ev & Et)%bind_Some. unfold ptx_view in Ev.
  rewrite (ptw_at_view _ _ _ Ev). cbn [checked_bind]. by rewrite Et.
Qed.

Lemma ptx_arrived_finite s c :
  ptx_live s -> ptx_finite -> is_Some (ptx_view s c) -> is_Some (ptx_arrived s c).
Proof. intros Hl Hf [e He]. unfold ptx_arrived. rewrite He. cbn. by eapply lv_ticks. Qed.

(** An SDU may be acknowledged with those before it, when it was submitted and the
    next one is still there. *)
Definition ptx_ack_ok s (count : Z) : Prop :=
  ptx_next_ack s <= count < ptx_next s ->
  count < ptx_trans_crypto s /\ (count + 1 < ptx_next s -> is_Some (ptx_view s (count + 1))).

(** What remains of a live window after its lower part was removed. *)
Lemma ptx_live_trim s s' :
  ptx_live s -> ptx_trims s s' ->
  ptw_ok (ptx_window_size cfg) (ptx_next_ack s') (ptx_next s) (ptx_window s') ->
  ptx_next_ack s' <= ptx_trans_crypto s -> 0 <= ptx_trans s' <= ptx_trans_crypto s ->
  (forall c, ptx_trans_crypto s <= c < ptx_next s -> ptx_view s' c = ptx_view s c) ->
  (ptx_next_ack s' < ptx_next s -> is_Some (ptx_view s' (ptx_next_ack s'))) ->
  ptx_live s'.
Proof.
  intros [Ho Ht Hw Hs Hp Hold Htick] [C T R M A V] Hw' Ha Htr Hv Hold'.
  destruct (ptx_core_fields _ _ C) as (En & _).
  constructor; rewrite ?En, ?T; [lia|lia|done|lia| |done|].
  - intros c Hc. rewrite Hv by done. by apply Hp.
  - intros Hf c e Hc. destruct (V c) as [E|E]; [by rewrite E in Hc|]. rewrite E in Hc. by eapply Htick.
Qed.

Lemma ptx_ack_ok_next s c : ptx_live s -> ptx_ack_ok s c -> ptx_next_ack s <= c < ptx_next s -> c < ptx_trans_crypto s.
Proof. intros _ Ha Hc. by apply Ha. Qed.

(** The discard timer is no part of the window. *)
Lemma ptx_trims_expiry s s' x : ptx_trims s s' -> ptx_trims s (s' <| ptx_discard_expiry := x |>).
Proof. intros []. by constructor. Qed.
Lemma ptx_live_expiry s x : ptx_live s -> ptx_live (s <| ptx_discard_expiry := x |>).
Proof. intros []. by constructor. Qed.

(** The state after the SDUs up to [h] were removed. *)
Lemma ptx_acked_spec h s :
  sn_size_ok (ptx_sn_size cfg) -> ptx_live s -> ptx_ack_ok s h -> ptx_next_ack s <= h < ptx_next s ->
  exists s1, ptx_ack_until (Z.to_nat (h + 1 - ptx_next_ack s)) h s = Ok s1 /\
    ptx_trims s (ptx_raise_trans s1) /\ ptx_live (ptx_raise_trans s1) /\
    ptx_next_ack (ptx_raise_trans s1) = h + 1 /\ ptx_next (ptx_raise_trans s1) = ptx_next s /\
    ptx_discard_expiry (ptx_raise_trans s1) = ptx_discard_expiry s /\
    forall c, ptx_view (ptx_raise_trans s1) c = if decide (c <= h) then None else ptx_view s c.
Proof.
  intros Hsz Hl Hack Hr. pose proof Hl as [Ho Ht Hw Hs Hp Hold Htick]. pose proof (ptx_window_size_range Hsz) as Hws.
  destruct (Hack Hr) as [Hh Hnext].
  destruct (ptx_ack_until_spec (Z.to_nat (h + 1 - ptx_next_ack s)) h s) as (w & -> & Hw' & Hv); [done|lia|lia|lia|done|].
  eexists. split; [done|].
  assert (ptx_trims s (ptx_raise_trans (s <| ptx_window := w |> <| ptx_next_ack := h + 1 |>))) as Htrims.
  { constructor; unfold ptx_raise_trans, field_update; cbn; try done; [lia|].
    intros c. unfold ptx_view. cbn. rewrite Hv. case_decide; [by left|by right]. }
  split; [done|]. split; [|by split_and!].
  apply (ptx_live_trim s); unfold ptx_raise_trans, ptx_view, field_update; cbn; [done|done|done|lia|lia| |].
  - intros c Hc. by rewrite Hv, decide_False by lia.
  - intros Hlt. rewrite Hv, decide_False by lia. by apply Hnext.
Qed.

Lemma stop_discard_timer_spec now h s :
  sn_size_ok (ptx_sn_size cfg) -> ptx_live s -> ptx_ack_ok s h ->
  exists s', stop_discard_timer cfg now h s = Ok s' /\ ptx_trims s s' /\ ptx_live s' /\
    (ptx_timed s -> ptx_timed s') /\
    (ptx_discard_timer cfg <> None -> ptx_next_ack s <= h < ptx_next s ->
     ptx_next_ack s' = h + 1 /\ (forall c, ptx_view s' c = if decide (c <= h) then None else ptx_view s c) /\
     forall d, ptx_discard_timer cfg = Some d -> d <> -1 -> h + 1 < ptx_next s ->
       exists t, ptx_arrived s (h + 1) = Some t /\ ptx_discard_expiry s' = Some (u32 (t + d))).
Proof.
  intros Hsz Hl Hack. unfold stop_discard_timer. destruct (ptx_discard_timer cfg) as [d|] eqn:Ed.
  2:{ exists s. split; [done|]. split; [apply ptx_trims_refl|]. by split_and!. }
  destruct ((h <? ptx_next_ack s) || (ptx_next s <=? h)) eqn:Er.
  { exists s. split; [done|]. split; [apply ptx_trims_refl|]. split_and!; try done.
    intros _ Hr. apply orb_true_iff in Er as [Er|Er]; zbool; lia. }
  apply orb_false_iff in Er as [Er1 Er2]. zbool.
  rewrite ptw_has_view. destruct (lv_oldest _ Hl) as [e Ee]; [lia|]. unfold ptx_view in Ee. rewrite Ee. cbn [negb]. clear e Ee.
  set (s0 := s <| ptx_discard_expiry := None |>).
  destruct (ptx_acked_spec h s0) as (s1 & E1 & Htr & Hlv & Ea & En & Ex & Hv); [done|by apply ptx_live_expiry|done|done|].
  change (ptx_next_ack s0) with (ptx_next_ack s) in E1. change (ptx_next_ack s0) with (ptx_next_ack s). rewrite E1. cbn [checked_bind].
  assert (ptx_trims s (ptx_raise_trans s1)) as Htrims.
  { apply (ptx_trims_trans _ s0); [by apply ptx_trims_expiry, ptx_trims_refl|done]. }
  change (ptx_next s0) with (ptx_next s) in En. change (forall c, ptx_view (ptx_raise_trans s1) c = if decide (c <= h) then None else ptx_view s c) in Hv.
  assert (ptx_discard_expiry (ptx_raise_trans s1) = None) as Hoff by (by rewrite Ex). clear Ex.
  generalize dependent (ptx_raise_trans s1). intros s2 Htr2 Hlv2 Ea2 En2 Hv2 Ht2 Hoff. clear Htr2 E1 s1. clearbody s0. clear s0.
  assert (forall x, ptx_trims s (s2 <| ptx_discard_expiry := x |>) /\ ptx_live (s2 <| ptx_discard_expiry := x |>)) as Hx.
  { intros x. split; [by apply ptx_trims_expiry|by apply ptx_live_expiry]. }
  destruct (d =? -1) eqn:Em; zbool.
  { exists s2. split; [done|]. split; [done|]. split; [done|].
    split; [|intros _ _; split; [done|]; split; [done|]; intros d' [= <-]; done].
    intros _. split; [intros (d' & Hd' & Hne); congruence|]. rewrite Hoff. by intros [? ?]. }
  assert (ptx_finite) as Hf by (by exists d). rewrite En2.
  destruct (ptx_next_ack s2 =? ptx_next s) eqn:En; zbool; cbn [negb].
  { exists s2. split; [done|]. split; [done|]. split; [done|].
    split; [|intros _ _; split; [done|]; split; [done|]; intros; lia].
    intros _. split; [lia|done]. }
  destruct (ptx_arrived_finite s2 (ptx_next_ack s2)) as [tick Htick]; [done|done|apply (lv_oldest _ Hlv2); lia|].
  rewrite (ptx_tick_arrived _ _ _ Htick).
  cbn [checked_bind]. unfold ptx_run_discard_timer.
  eexists. split; [done|]. split; [apply Hx|]. split; [apply Hx|]. split.
  { intros _. split; [|done]. intros _ _. by eexists. }
  intros _ _. split; [done|]. split; [done|]. intros d' [= <-] _ _. exists tick. split.
  - unfold ptx_arrived in *. by rewrite Hv2, decide_False, Ea2 in Htick by lia.
  - unfold field_update. cbn. rewrite wrap_add_r by lia. do 2 f_equal. lia.
Qed.

(** ** Discarding *)

(** Removal that neither submits nor numbers. *)
Definition silent (out : list pdcp_tx_output) : Prop := nums_of out = [] /\ pdus_of out = [].

Lemma silent_nil : silent [].
Proof. done. Qed.
Lemma silent_app out out' : silent out -> silent out' -> silent (out ++ out').
Proof. intros [N P] [N' P']. split; [by rewrite nums_of_app, N, N'|by rewrite pdus_of_app, P, P']. Qed.

(** The COUNTs in the window, from [lo] up to [hi]. *)
Definition present s (lo hi : Z) : list Z :=
  filter (fun c => is_Some (ptx_view s c)) (seqZ lo (hi - lo)).

Lemma present_app s lo mid hi : lo <= mid <= hi -> present s lo hi = present s lo mid ++ present s mid hi.
Proof.
  intros Hm. unfold present. rewrite <- filter_app. f_equal.
  replace (hi - lo) with ((mid - lo) + (hi - mid)) by lia. rewrite seqZ_app by lia. by replace (lo + (mid - lo)) with mid by lia.
Qed.

Lemma filter_ext_elem {A} (P Q : A -> Prop) `{forall x, Decision (P x)} `{forall x, Decision (Q x)} (l : list A) :
  (forall x, x ∈ l -> (P x <-> Q x)) -> filter P l = filter Q l.
Proof.
  induction l as [|x l IH]; intros HPQ; [done|]. rewrite !filter_cons.
  rewrite IH by (intros y Hy; apply HPQ; by apply list_elem_of_further).
  pose proof (HPQ x (list_elem_of_here _ _)). repeat case_decide; tauto || done.
Qed.

Lemma present_ext s s' lo hi :
  (forall c, lo <= c < hi -> ptx_view s' c = ptx_view s c) -> present s' lo hi = present s lo hi.
Proof. intros He. apply filter_ext_elem. intros c Hc%elem_of_seqZ. by rewrite He by lia. Qed.

Lemma present_absent s lo hi : (forall c, lo <= c < hi -> ptx_view s c = None) -> present s lo hi = [].
Proof.
  intros Hn. unfold present. rewrite (filter_ext_elem _ (fun _ => False)).
  - induction (seqZ _ _) as [|x l IH]; [done|]. rewrite filter_cons. by case_decide.
  - intros c Hc%elem_of_seqZ. rewrite Hn by lia. by rewrite is_Some_alt.
Qed.

Lemma present_cons s lo hi : lo < hi -> is_Some (ptx_view s lo) -> present s lo hi = lo :: present s (lo + 1) hi.
Proof.
  intros Hlt Hs. unfold present. rewrite seqZ_cons by lia. rewrite filter_cons. case_decide; [|done].
  by replace (Z.pred (hi - lo)) with (hi - (lo + 1)) by lia.
Qed.

(** An SDU outside the window, or one that was submitted, can be discarded. *)
Lemma discard_pdu_spec count s :
  ptx_has_discard_timer cfg = true -> sn_size_ok (ptx_sn_size cfg) -> ptx_live s ->
  (is_Some (ptx_view s count) -> count < ptx_trans_crypto s) ->
  exists s' out, discard_pdu cfg count s = Ok (s', out) /\ ptx_trims s s' /\ ptx_live s' /\
    ptx_discard_expiry s' = ptx_discard_expiry s /\ silent out /\
    discards_of out = (if ptx_view s count is Some _ then [ptx_SN cfg count] else []) /\
    (forall c, ptx_view s' c = if decide (c = count) then None else ptx_view s c) /\
    (forall c, ptx_next_ack s <= c < ptx_next_ack s' -> ptx_view s' c = None) /\
    (is_Some (ptx_view s count) -> ptx_next_ack s' = ptx_next_ack s -> count <> ptx_next_ack s).
Proof.
  intros Htm Hsz Hl Hc. pose proof Hl as [Ho Ht Hw Hs Hp Hold Htick]. pose proof (ptx_window_size_range Hsz) as Hws.
  unfold discard_pdu. rewrite Htm. cbn [negb].
  assert (forall o : option pdcp_tx_window_element, o = None -> o = ptx_view s count -> forall c,
    ptx_view s c = if decide (c = count) then None else ptx_view s c) as Hnone.
  { intros o -> E c. case_decide; [by subst|done]. }
  destruct ((count <? ptx_next_ack s) || (ptx_next s <=? count)) eqn:Er.
  { assert (ptx_view s count = None) as E.
    { destruct (ptx_view s count) eqn:E; [|done]. apply (pok_range _ _ _ _ Hw) in E.
      apply orb_true_iff in Er as [Er|Er]; zbool; lia. }
    exists s, []. rewrite E. split; [done|]. split; [apply ptx_trims_refl|]. split_and!; try done; [by apply (Hnone None)|intros; lia]. }
  rewrite ptw_has_view. fold (ptx_view s count). destruct (ptx_view s count) as [e|] eqn:E; cbn [negb].
  2:{ exists s, []. split; [done|]. split; [apply ptx_trims_refl|]. split_and!; try done; [by apply (Hnone None)|intros; lia]. }
  specialize (Hc ltac:(by eexists)). destruct (pok_range _ _ _ _ Hw _ _ E) as [Hr _].
  unfold ptx_remove. destruct (ptw_remove_ok _ _ _ _ count Hw) as (w & -> & Hw' & Hv); [lia|]. cbn [checked_bind].
  set (s1 := s <| ptx_window := w |>).
  destruct (ptx_skip_absent_spec (Z.to_nat (ptx_next s - ptx_next_ack s)) s1 Hw') as (n & E1 & Hn & Hna & Hnp & Hok);
    [change (ptx_next_ack s1) with (ptx_next_ack s); change (ptx_next s1) with (ptx_next s); lia..|done|].
  change (ptx_next s1) with (ptx_next s) in *. change (ptx_next_ack s1) with (ptx_next_ack s) in *. rewrite E1. cbn [checked_bind].
  assert (forall c, ptx_view s1 c = if decide (c = count) then None else ptx_view s c) as Hv1 by exact Hv.
  assert (n <= ptx_trans_crypto s) as Hnc.
  { destruct (decide (n <= ptx_trans_crypto s)); [done|]. specialize (Hna (ptx_trans_crypto s) ltac:(lia)).
    rewrite Hv1, decide_False in Hna by lia. destruct (Hp (ptx_trans_crypto s)) as [? ?]; [lia|congruence]. }
  eexists _, _. split; [done|]. set (s2 := ptx_raise_trans (s1 <| ptx_next_ack := n |>)).
  assert (ptx_next_ack s2 = n /\ ptx_trans s2 = Z.max (ptx_trans s) n /\ (forall c, ptx_view s2 c = ptx_view s1 c) /\
    ptx_discard_expiry s2 = ptx_discard_expiry s /\ ptx_window s2 = w) as (Ea & Et & Hv2 & Ex & Ew) by done.
  assert (ptx_trims s s2) as Htr.
  { constructor; try done; [rewrite Ea; lia|]. intros c. rewrite Hv2, Hv1. case_decide; [by left|by right]. }
  clearbody s2. split; [done|]. split; [|split_and!; try done].
  - apply (ptx_live_trim s s2); try done; rewrite ?Ea, ?Et, ?Ew; [done|lia|lia| |].
    + intros c Hc'. rewrite Hv2, Hv1, decide_False by lia. done.
    + intros Hlt. rewrite Hv2. by apply Hnp.
  - intros c. by rewrite Hv2.
  - intros c Hc'. rewrite Hv2. apply Hna. lia.
  - intros _ En ->. rewrite Ea in En. subst n. specialize (Hnp ltac:(lia)). rewrite Hv1, decide_True in Hnp by done. by destruct Hnp.
Qed.

(** What the expiry of the discard timer leaves of the window. *)
Record ptx_expired (now t : Z) s s' (out : list pdcp_tx_output) : Prop := mk_ptx_expired {
  ex_ack : ptx_next_ack s < ptx_next_ack s' <= ptx_next s;
  ex_view c : ptx_view s' c = if decide (c < ptx_next_ack s') then None else ptx_view s c;
  ex_ticks c : ptx_next_ack s <= c < ptx_next_ack s' -> is_Some (ptx_view s c) -> ptx_arrived s c = Some t;
  ex_out : discards_of out = ptx_SN cfg <$> present s (ptx_next_ack s) (ptx_next_ack s');
  ex_rest : ptx_next_ack s' < ptx_next s ->
    exists t', ptx_arrived s (ptx_next_ack s') = Some t' /\ t' <> t /\
      ptx_discard_expiry s' = Some (u32 (now + u32 (t' - t)));
  ex_none : ptx_next_ack s' = ptx_next s -> ptx_discard_expiry s' = ptx_discard_expiry s;
}.

Lemma ptx_discard_oldest_spec turns now t s :
  ptx_has_discard_timer cfg = true -> sn_size_ok (ptx_sn_size cfg) -> ptx_finite -> ptx_live s ->
  ptx_next_ack s < ptx_next s -> ptx_arrived s (ptx_next_ack s) = Some t ->
  (forall c, ptx_arrived s c = Some t -> c < ptx_trans_crypto s) ->
  (Z.to_nat (ptx_next s - ptx_next_ack s) <= turns)%nat ->
  exists s' out, ptx_discard_oldest cfg turns now t s = Ok (s', out) /\ ptx_trims s s' /\ ptx_live s' /\
    silent out /\ ptx_expired now t s s' out.
Proof.
  intros Htm Hsz Hf. revert s. induction turns as [|turns IH]; intros s Hl Hlt Hold Hsub Ht; [lia|].
  cbn [ptx_discard_oldest].
  assert (is_Some (ptx_view s (ptx_next_ack s))) as Hpres by (by apply (lv_oldest _ Hl)).
  destruct (discard_pdu_spec (ptx_next_ack s) s Htm Hsz Hl ltac:(intros _; by apply Hsub))
    as (s1 & out1 & -> & Htr & Hl1 & Ex1 & Hsil & Hdis & Hv1 & Habs & Hne).
  unfold emit_bind. cbn [checked_bind].
  destruct (ptx_core_fields _ _ (tr_core _ _ Htr)) as (En & _). pose proof (tr_ack _ _ Htr) as Ha.
  pose proof (lv_order _ Hl1) as [Ho1 Ho1']. rewrite En in Ho1'.
  assert (ptx_next_ack s < ptx_next_ack s1) as Ha'.
  { destruct (decide (ptx_next_ack s1 = ptx_next_ack s)) as [E|]; [|lia]. by destruct (Hne Hpres E). }
  destruct Hpres as [e0 He0]. rewrite He0 in Hdis.
  assert (forall c, ptx_view s1 c = if decide (c < ptx_next_ack s1) then None else ptx_view s c) as Hview.
  { intros c. case_decide as Hc.
    - destruct (decide (ptx_next_ack s <= c)); [apply Habs; lia|]. destruct (ptx_view s1 c) eqn:E; [|done].
      apply (pok_range _ _ _ _ (lv_window _ Hl1)) in E. lia.
    - rewrite Hv1, decide_False by lia. done. }
  assert (present s (ptx_next_ack s) (ptx_next_ack s1) = [ptx_next_ack s]) as Hp1.
  { rewrite present_cons by (lia || by eexists). f_equal. apply present_absent. intros c Hc.
    specialize (Habs c ltac:(lia)). rewrite Hv1, decide_False in Habs by lia. done. }
  assert (forall c, ptx_next_ack s <= c < ptx_next_ack s1 -> is_Some (ptx_view s c) -> ptx_arrived s c = Some t) as Htk.
  { intros c Hc Hsome. destruct (decide (c = ptx_next_ack s)) as [->|]; [done|].
    specialize (Habs c Hc). rewrite Hv1, decide_False in Habs by lia. rewrite Habs in Hsome. by destruct Hsome. }
  rewrite ptw_has_view. fold (ptx_view s1 (ptx_next_ack s1)).
  destruct (ptx_view s1 (ptx_next_ack s1)) as [e|] eqn:E1; cbn [negb].
  2:{ cbn [checked_bind]. rewrite app_nil_r. eexists _, _. split; [done|]. split; [done|]. split; [done|]. split; [done|].
      assert (ptx_next_ack s1 = ptx_next s) as Ean.
      { destruct (decide (ptx_next_ack s1 = ptx_next s)); [done|]. destruct (lv_oldest _ Hl1) as [? ?]; [lia|congruence]. }
      constructor; [lia|done|done|by rewrite Hdis, Hp1|lia|done]. }
  destruct (ptx_arrived_finite s1 (ptx_next_ack s1) Hl1 Hf) as [t' Ht']; [by eexists|].
  rewrite (ptx_tick_arrived _ _ _ Ht'). cbn [checked_bind].
  assert (forall c, ptx_next_ack s1 <= c -> ptx_arrived s1 c = ptx_arrived s c) as Harr.
  { intros c Hc. unfold ptx_arrived. by rewrite Hview, decide_False by lia. }
  assert (ptx_next_ack s1 < ptx_next s) as Hlt1 by (apply (pok_range _ _ _ _ (lv_window _ Hl1)) in E1; lia).
  destruct (t' =? t) eqn:Ett; zbool; cbn [negb].
  - rewrite En, (proj2 (Z.eqb_neq _ _)) by lia. cbn [negb].
    destruct (IH s1) as (s2 & out2 & -> & Htr2 & Hl2 & Hsil2 & [X1 X2 X3 X4 X5 X6]);
      [done|lia|congruence| |lia|].
    { intros c Hc. rewrite (tr_crypto _ _ Htr). apply Hsub. rewrite <- Harr; [done|].
      unfold ptx_arrived in Hc. apply bind_Some in Hc as (e' & Hc & _).
      apply (pok_range _ _ _ _ (lv_window _ Hl1)) in Hc. lia. }
    cbn [checked_bind]. eexists _, _. split; [done|]. split; [by apply (ptx_trims_trans _ s1)|]. split; [done|].
    split; [by apply silent_app|]. rewrite En in *. constructor.
    + lia.
    + intros c. rewrite X2. case_decide; [done|]. by rewrite Hview, decide_False by lia.
    + intros c Hc Hsome. destruct (decide (c < ptx_next_ack s1)); [apply Htk; done || lia|].
      rewrite <- Harr by lia. apply X3; [lia|]. by rewrite Hview, decide_False by lia.
    + rewrite discards_of_app, Hdis, X4, (present_app s _ (ptx_next_ack s1)), Hp1 by lia. cbn. f_equal. f_equal.
      apply present_ext. intros c Hc. by rewrite Hview, decide_False by lia.
    + intros Hlt2. destruct (X5 Hlt2) as (t2 & Ht2 & ?). exists t2. by rewrite <- Harr by lia.
    + intros Heq. by rewrite X6.
  - cbn [checked_bind]. rewrite app_nil_r. eexists _, _. split; [done|]. unfold ptx_run_discard_timer.
    split; [by apply ptx_trims_expiry|]. split; [by apply ptx_live_expiry|]. split; [done|].
    constructor; [unfold field_update; cbn; lia|done|done| | |unfold field_update; cbn; lia].
    { change (discards_of out1 = ptx_SN cfg <$> present s (ptx_next_ack s) (ptx_next_ack s1)). by rewrite Hdis, Hp1. }
    intros _. exists t'. split; [|done]. change (ptx_arrived s (ptx_next_ack s1) = Some t'). by rewrite <- Harr by lia.
Qed.

(** The SDUs that wait as long as the oldest one were submitted. *)
Definition ptx_expiry_ok s : Prop :=
  forall c, ptx_arrived s (ptx_next_ack s) <> None -> ptx_arrived s c = ptx_arrived s (ptx_next_ack s) ->
    c < ptx_trans_crypto s.

Lemma discard_callback_spec now s :
  ptx_has_discard_timer cfg = true -> sn_size_ok (ptx_sn_size cfg) -> ptx_finite -> ptx_live s ->
  ptx_stopped s = false -> ptx_expiry_ok s -> ptx_discard_expiry s = None ->
  exists s' out, discard_callback cfg now s = Ok (s', PdcpTxMetricDiscardTimeouts 1 :: out) /\ ptx_trims s s' /\ ptx_live s' /\
    ptx_timed s' /\ silent out /\
    ((s' = s /\ out = [] /\ ptx_next_ack s = ptx_next s) \/
     exists t, ptx_arrived s (ptx_next_ack s) = Some t /\ ptx_expired now t s s' out).
Proof.
  intros Htm Hsz Hf Hl Hst Hok Hexp. unfold discard_callback. rewrite Hst, ptw_has_view. fold (ptx_view s (ptx_next_ack s)).
  destruct (ptx_view s (ptx_next_ack s)) as [e|] eqn:E; cbn [negb].
  - pose proof (pok_range _ _ _ _ (lv_window _ Hl) _ _ E) as [Hr _].
    destruct (ptx_arrived_finite s (ptx_next_ack s) Hl Hf) as [t Ht]; [by eexists|].
    rewrite (ptx_tick_arrived _ _ _ Ht). cbn [checked_bind].
    destruct (ptx_discard_oldest_spec (Z.to_nat (ptx_next s - ptx_next_ack s)) now t s) as (s' & out & -> & Htr & Hl' & Hsil & Hex);
      try done; [lia| |].
    { intros c Hc. apply Hok; congruence. }
    cbn [checked_bind]. exists s', out. split; [done|]. split; [done|]. split; [done|]. split; [|split; [done|right; by exists t]].
    split; [|done]. intros _ Hlt. destruct (ptx_core_fields _ _ (tr_core _ _ Htr)) as (En & _). rewrite En in Hlt.
    destruct (ex_rest _ _ _ _ _ Hex Hlt) as (t' & _ & _ & ->). by eexists.
  - assert (ptx_next_ack s = ptx_next s) as Ean.
    { destruct (lv_order _ Hl). destruct (decide (ptx_next_ack s = ptx_next s)); [done|].
      destruct (lv_oldest _ Hl) as [? ?]; [lia|congruence]. }
    exists s, []. split; [done|]. split; [apply ptx_trims_refl|]. split; [done|]. split; [|split; [done|by left]].
    split; [lia|done].
Qed.

(** ** Notifications *)

Lemma ptx_live_trans s x : ptx_live s -> 0 <= x <= ptx_trans_crypto s -> ptx_live (s <| ptx_trans := x |>).
Proof. intros [] Hx. by constructor. Qed.
Lemma ptx_trims_trans_field s s' x : ptx_trims s s' -> ptx_trims s (s' <| ptx_trans := x |>).
Proof. intros []. by constructor. Qed.

(** A notification may be acted upon. *)
Definition ptx_notif_ok s (sn : Z) : Prop := ptx_ack_ok s (notification_count_estimation cfg sn s).

(** Removal that succeeds. *)
Definition ptx_trims_ok (r : checked (pdcp_tx_entity W)) s : Prop :=
  exists s', r = Ok s' /\ ptx_trims s s' /\ ptx_live s' /\ (ptx_timed s -> ptx_timed s').

Lemma ptx_trims_ok_same s : ptx_live s -> ptx_trims_ok (Ok s) s.
Proof. intros Hl. exists s. split; [done|]. split; [apply ptx_trims_refl|done]. Qed.

Lemma stop_discard_timer_ok now h s :
  sn_size_ok (ptx_sn_size cfg) -> ptx_live s -> ptx_ack_ok s h -> ptx_trims_ok (stop_discard_timer cfg now h s) s.
Proof.
  intros Hsz Hl Hack. destruct (stop_discard_timer_spec now h s Hsz Hl Hack) as (s' & ? & ? & ? & ? & _). by exists s'.
Qed.

Lemma handle_transmit_notification_impl_spec now sn s :
  sn_size_ok (ptx_sn_size cfg) -> ptx_live s -> (ptx_is_um cfg = true -> ptx_notif_ok s sn) ->
  ptx_trims_ok (handle_transmit_notification_impl cfg now sn s) s.
Proof.
  intros Hsz Hl Hok. unfold handle_transmit_notification_impl.
  destruct (_ <=? sn); [by apply ptx_trims_ok_same|]. set (count := notification_count_estimation cfg sn s) in *.
  destruct (ptx_trans_crypto s <=? count) eqn:E1; [by apply ptx_trims_ok_same|].
  destruct (count <? ptx_trans s) eqn:E2; [by apply ptx_trims_ok_same|].
  destruct (ptx_next s <=? count) eqn:E3; [by apply ptx_trims_ok_same|]. zbool.
  destruct (lv_order _ Hl) as [Ho Ho']. pose proof (lv_trans _ Hl) as Htr.
  rewrite wrap_small by (unfold in_range; lia). set (s1 := s <| ptx_trans := count + 1 |>).
  assert (ptx_live s1) as Hl1 by (apply ptx_live_trans; [done|lia]).
  assert (ptx_trims s s1) as Ht1 by (apply ptx_trims_trans_field, ptx_trims_refl).
  assert (ptx_trims_ok (Ok s1) s) as Hs1 by (by exists s1).
  destruct (negb _); [done|]. destruct (ptx_is_um cfg); [|done].
  destruct (stop_discard_timer_ok now count s1 Hsz Hl1 (Hok eq_refl)) as (s2 & -> & Ht2 & Hl2 & Hti).
  exists s2. split; [done|]. split; [by apply (ptx_trims_trans _ s1)|done].
Qed.

Lemma handle_transmit_notification_spec now sn s :
  sn_size_ok (ptx_sn_size cfg) -> ptx_live s -> (ptx_is_um cfg = true -> ptx_notif_ok s sn) ->
  ptx_trims_ok (handle_transmit_notification cfg now sn s) s.
Proof.
  intros Hsz Hl Hok. unfold handle_transmit_notification. destruct (ptx_stopped s); [by apply ptx_trims_ok_same|].
  by apply handle_transmit_notification_impl_spec.
Qed.

Lemma handle_delivery_notification_impl_spec now sn s :
  sn_size_ok (ptx_sn_size cfg) -> ptx_live s -> (ptx_is_am cfg = true -> ptx_notif_ok s sn) ->
  ptx_trims_ok (handle_delivery_notification_impl cfg now sn s) s.
Proof.
  intros Hsz Hl Hok. unfold handle_delivery_notification_impl.
  destruct (_ <=? sn); [by apply ptx_trims_ok_same|].
  destruct (ptx_next s <=? _); [by apply ptx_trims_ok_same|].
  destruct (negb _); [by apply ptx_trims_ok_same|]. destruct (ptx_is_am cfg); [|by apply ptx_trims_ok_same].
  apply stop_discard_timer_ok; [done|done|by apply Hok].
Qed.

(** ** Submission *)

(** What the submission of PDUs does to the entity: nothing is added to the window, and
    the submitted PDUs were there, from TX_TRANS_CRYPTO on. *)
Record ptx_moves s s' (out : list pdcp_tx_output) : Prop := mk_ptx_moves {
  mv_core : ptx_core s' = ptx_core s;
  mv_reord : ptx_reord_crypto s' = ptx_reord_crypto s;
  mv_timer : ptx_crypto_reordering_timer s' = ptx_crypto_reordering_timer s;
  mv_crypto : ptx_trans_crypto s <= ptx_trans_crypto s';
  mv_ack : ptx_next_ack s <= ptx_next_ack s';
  mv_view c e' : ptx_view s' c = Some e' -> exists e, ptx_view s c = Some e /\
    twe_sdu_info e' = twe_sdu_info e /\ twe_sdu_length e' = twe_sdu_length e /\ (twe_pdu e' = twe_pdu e \/ twe_pdu e' = []);
  mv_sorted : StronglySorted Z.lt (pdus_of out).*1;
  mv_range : Forall (fun c => ptx_trans_crypto s <= c < ptx_trans_crypto s') (pdus_of out).*1;
  mv_pdus : Forall (fun x => x.2 <> [] /\ exists e, ptx_view s x.1 = Some e /\ twe_pdu e = x.2) (pdus_of out);
  mv_nums : nums_of out = [];
}.

Lemma ptx_trims_moves s s' out : ptx_trims s s' -> silent out -> ptx_moves s s' out.
Proof.
  intros [C T R M A V] [N P]. constructor; rewrite ?P; try done; try (by constructor); [lia|].
  intros c e' He. destruct (V c) as [E|E]; [congruence|]. exists e'. rewrite <- E. split; [done|]. split; [done|]. split; [done|by left].
Qed.

Lemma sorted_app_range (l l' : list Z) a b c :
  StronglySorted Z.lt l -> StronglySorted Z.lt l' ->
  Forall (fun x => a <= x < b) l -> Forall (fun x => b <= x < c) l' -> StronglySorted Z.lt (l ++ l').
Proof.
  intros Hl Hl' Hr Hr'. induction Hl as [|x l Hl IH HF]; cbn; [done|].
  apply Forall_cons in Hr as [Hx Hr]. constructor; [by apply IH|]. apply Forall_app. split; [done|].
  eapply Forall_impl; [exact Hr'|]. cbn. lia.
Qed.

Lemma ptx_moves_trans s1 s2 s3 out1 out2 :
  ptx_moves s1 s2 out1 -> ptx_moves s2 s3 out2 -> ptx_moves s1 s3 (out1 ++ out2).
Proof.
  intros [C1 X1 M1 T1 A1 V1 S1 R1 P1 N1] [C2 X2 M2 T2 A2 V2 S2 R2 P2 N2].
  constructor; rewrite ?pdus_of_app, ?nums_of_app, ?fmap_app; [congruence|congruence|congruence|lia|lia| | | | |by rewrite N1, N2].
  - intros c e3 (e2 & E2 & I2 & L2 & U2)%V2. apply V1 in E2 as (e1 & E1 & I1 & L1 & U1). exists e1. split; [done|].
    split; [congruence|]. split; [congruence|]. destruct U2 as [U2|U2]; [|by right]. destruct U1 as [U1|U1]; [left|right]; congruence.
  - by eapply sorted_app_range.
  - apply Forall_app. split; (eapply Forall_impl; [eassumption|]); cbn; lia.
  - apply Forall_app. split; [done|]. eapply Forall_impl; [exact P2|]. cbn. intros [c pdu] (Hne & e2 & E2 & Ep).
    cbn in *. apply V2 || apply V1 in E2 as (e1 & E1 & I1 & _ & [U1|U1]); [|congruence]. split; [done|].
    exists e1. split; [done|]. congruence.
Qed.

(** A window whose SDUs are the same. *)
Lemma ptx_live_same s s' :
  ptx_live s -> ptx_next s' = ptx_next s -> ptx_next_ack s' = ptx_next_ack s -> ptx_trans s' = ptx_trans s ->
  ptx_trans_crypto s <= ptx_trans_crypto s' <= ptx_next s ->
  ptw_ok (ptx_window_size cfg) (ptx_next_ack s) (ptx_next s) (ptx_window s') ->
  (forall c, twe_sdu_info <$> ptx_view s' c = twe_sdu_info <$> ptx_view s c) -> ptx_live s'.
Proof.
  intros [Ho Ht Hw Hs Hp Hold Htick] En Ea Etr Hc Hw' Hv.
  assert (forall c, is_Some (ptx_view s c) -> is_Some (ptx_view s' c)) as Hi.
  { intros c Hc'. rewrite <- (fmap_is_Some twe_sdu_info) in *. by rewrite Hv. }
  constructor; rewrite ?En, ?Ea, ?Etr; [lia|lia|done|lia| | |].
  - intros c Hc'. apply Hi, Hp. lia.
  - intros Hlt. by apply Hi, Hold.
  - intros Hf c e He. specialize (Hv c). rewrite He in Hv. destruct (ptx_view s c) as [e1|] eqn:E1; [|done].
    injection Hv as ->. by eapply Htick.
Qed.

(** TX_TRANS_CRYPTO passes over one COUNT. *)
Lemma ptx_pass_spec s :
  ptx_live s -> ptx_trans_crypto s < ptx_next s ->
  let s' := s <| ptx_trans_crypto := ptx_trans_crypto s + 1 |> in
  ptx_live s' /\ ptx_moves s s' [].
Proof.
  intros Hl Hlt s'. destruct (lv_order _ Hl) as [Ho Ho']. split.
  - apply (ptx_live_same s); try done; [unfold s', field_update; cbn; lia|apply Hl].
  - constructor; try done; try (by constructor); [unfold s', field_update; cbn; lia|].
    intros c e' He. exists e'. split; [done|]. split; [done|]. split; [done|by left].
Qed.

Lemma ptx_submit_spec retx s e :
  ptx_live s -> ptx_view s (ptx_trans_crypto s) = Some e -> twe_pdu e <> [] ->
  exists w out, ptx_submit retx (ptx_trans_crypto s) s = Ok (s <| ptx_window := w |>, out) /\
    pdus_of out = [(ptx_trans_crypto s, twe_pdu e)] /\
    let s' := s <| ptx_window := w |> <| ptx_trans_crypto := ptx_trans_crypto s + 1 |> in
    ptx_live s' /\ ptx_moves s s' out.
Proof.
  intros Hl Ev Hne. destruct (lv_order _ Hl) as [Ho Ho'].
  destruct (pok_range _ _ _ _ (lv_window _ Hl) _ _ Ev) as [Hr _]. unfold ptx_submit. unfold ptx_view in Ev.
  rewrite (ptw_at_view _ _ _ Ev). cbn [checked_bind].
  destruct (ptw_set_ok _ _ _ _ (ptx_trans_crypto s) [] e (lv_window _ Hl) Ev) as (w & -> & Hw & Hv). cbn [checked_bind].
  eexists w, _. split; [done|]. split; [done|]. set (s' := s <| ptx_window := w |> <| ptx_trans_crypto := _ |>).
  assert (forall c, ptx_view s' c = if decide (c = ptx_trans_crypto s) then Some (e <| twe_pdu := [] |>) else ptx_view s c)
    as Hv' by exact Hv.
  assert (ptx_trans_crypto s' = ptx_trans_crypto s + 1) as Et by done. cbv zeta. split.
  - apply (ptx_live_same s); try done; [rewrite Et; lia|]. intros c. rewrite Hv'. case_decide; [|done]. subst c.
    unfold ptx_view. by rewrite Ev.
  - constructor; try done; [rewrite Et; lia| | | |].
    + intros c e' He. rewrite Hv' in He. case_decide; [|exists e'; split; [done|]; split; [done|]; split; [done|by left]].
      subst c. exists e. split; [done|]. injection He as <-. split; [done|]. split; [done|by right].
    + repeat constructor.
    + rewrite Et. cbn. apply Forall_singleton. lia.
    + cbn. apply Forall_singleton. cbn. split; [done|]. by exists e.
Qed.

(** In test mode, a PDU is reported when it is submitted. *)
Lemma ptx_notified_spec now s :
  ptx_has_discard_timer cfg = true -> sn_size_ok (ptx_sn_size cfg) -> ptx_live s -> 0 < ptx_trans_crypto s ->
  ptx_next_ack s < ptx_trans_crypto s ->
  ptx_trims_ok (if ptx_test_mode cfg
    then handle_transmit_notification cfg now (ptx_SN cfg (ptx_trans_crypto s - 1)) s else Ok s) s.
Proof.
  intros Htm Hsz Hl Hpos Ha. destruct (ptx_test_mode cfg); [|by apply ptx_trims_ok_same].
  apply handle_transmit_notification_spec; [done|done|]. intros _. unfold ptx_notif_ok, notification_count_estimation.
  destruct (lv_order _ Hl) as [Ho Ho']. pose proof (lv_size _ Hl). rewrite Htm.
  unfold ptx_window_size, ptx_SN in *. rewrite estimate_count_spec; [|done|unfold in_range; lia|unfold in_range; lia|lia].
  intros Hr. split; [lia|]. intros Hlt. rewrite Z.sub_add in *. apply (lv_pending _ Hl). lia.
Qed.

Lemma ptx_submit_consecutive_spec turns now retx s :
  ptx_has_discard_timer cfg = true -> sn_size_ok (ptx_sn_size cfg) -> ptx_live s -> ptx_timed s ->
  (Z.to_nat (ptx_next s - ptx_trans_crypto s) <= turns)%nat ->
  exists s' out, ptx_submit_consecutive cfg turns now retx (ptx_trans_crypto s) s = Ok (s', out) /\
    ptx_moves s s' out /\ ptx_live s' /\ ptx_timed s' /\
    (pdus_of out).*1 = seqZ (ptx_trans_crypto s) (ptx_trans_crypto s' - ptx_trans_crypto s) /\
    (ptx_trans_crypto s' < ptx_next s -> exists e, ptx_view s' (ptx_trans_crypto s') = Some e /\ twe_pdu e = []).
Proof.
  intros Htm Hsz. revert s. induction turns as [|turns IH]; intros s Hl Hti Ht; destruct (lv_order _ Hl) as [Ho Ho'];
    cbn [ptx_submit_consecutive].
  - rewrite (proj2 (Z.ltb_ge _ _)) by lia. exists s, []. split; [done|]. split; [apply ptx_trims_moves, silent_nil; apply ptx_trims_refl|].
    split; [done|]. split; [done|]. split; [by rewrite Z.sub_diag|]. lia.
  - destruct (ptx_trans_crypto s <? ptx_next s) eqn:Elt; zbool.
    2:{ exists s, []. split; [done|]. split; [apply ptx_trims_moves, silent_nil; apply ptx_trims_refl|].
        split; [done|]. split; [done|]. split; [by rewrite Z.sub_diag|]. lia. }
    destruct (lv_pending _ Hl (ptx_trans_crypto s)) as [e Ev]; [lia|]. pose proof Ev as Ev'. unfold ptx_view in Ev'.
    rewrite (ptw_at_view _ _ _ Ev'). clear Ev'. cbn [checked_bind]. case_bool_decide as Epdu.
    { exists s, []. split; [done|]. split; [apply ptx_trims_moves, silent_nil; apply ptx_trims_refl|].
      split; [done|]. split; [done|]. split; [by rewrite Z.sub_diag|]. intros _. by exists e. }
    destruct (ptx_submit_spec retx s e Hl Ev Epdu) as (w & out1 & -> & Hp1 & Hl1 & Hm1). unfold emit_bind. cbn [checked_bind].
    rewrite wrap_small by (unfold in_range; lia).
    set (s1 := s <| ptx_window := w |> <| ptx_trans_crypto := ptx_trans_crypto s + 1 |>) in *. cbv zeta in Hl1, Hm1.
    assert (ptx_trans_crypto s1 = ptx_trans_crypto s + 1 /\ ptx_next_ack s1 = ptx_next_ack s /\ ptx_next s1 = ptx_next s)
      as (Et1 & Ea1 & En1) by done.
    destruct (ptx_notified_spec now s1 Htm Hsz Hl1) as (s2 & E2 & Htr2 & Hl2 & Hti2); [lia|lia|].
    rewrite Et1, Z.add_simpl_r in E2. rewrite E2. cbn [checked_bind].
    destruct (ptx_core_fields _ _ (tr_core _ _ Htr2)) as (En2 & _). pose proof (tr_crypto _ _ Htr2) as Et2.
    destruct (IH s2 Hl2) as (s3 & out3 & E3 & Hm3 & Hl3 & Hti3 & Hp3 & Hstop).
    { by apply Hti2. }
    { lia. }
    rewrite Et2, Et1 in E3. rewrite E3. cbn [checked_bind]. eexists _, _. split; [done|].
    split. { apply (ptx_moves_trans _ s1); [done|]. change out3 with ([] ++ out3). apply (ptx_moves_trans _ s2); [|done].
      apply ptx_trims_moves; [done|apply silent_nil]. }
    split; [done|]. split; [done|]. split; [|intros Hlt; apply Hstop; lia].
    pose proof (mv_crypto _ _ _ Hm3). rewrite pdus_of_app, Hp1, fmap_app, Hp3, Et2, Et1. cbn.
    rewrite (seqZ_cons (ptx_trans_crypto s)) by lia. f_equal. f_equal; lia.
Qed.

Lemma ptx_handle_timers_spec s :
  ptx_live s -> ptx_stopped s = false ->
  (ptx_crypto_reordering_timer s = true -> ptx_reord_crypto s <= ptx_next s) ->
  exists r t, ptx_handle_timers s = s <| ptx_reord_crypto := r |> <| ptx_crypto_reordering_timer := t |> /\
    (t = true -> ptx_trans_crypto s < r <= ptx_next s) /\ (t = false -> ptx_trans_crypto s = ptx_next s).
Proof.
  intros Hl Hst Hr. destruct (lv_order _ Hl) as [Ho Ho']. unfold ptx_handle_timers.
  destruct s as [nx tc rc tr na win de ct st bu sb db ri mn mo ie ce po tm cts uts]. unfold field_update; cbn in *.
  destruct ct; cbn.
  - destruct (rc <=? tc) eqn:E1; cbn; zbool.
    + destruct (tc <? nx) eqn:E2; zbool; eexists _, _; (split; [reflexivity|]); cbn; (split; [|done || lia]); intros; lia || done.
    + eexists _, _; (split; [reflexivity|]); cbn. split; [lia|done].
  - destruct (tc <? nx) eqn:E2; zbool; eexists _, _; (split; [reflexivity|]); cbn; (split; [|done || lia]); intros; lia || done.
Qed.

(** The reordering timer runs for PDUs from TX_TRANS_CRYPTO on. *)
Definition ptx_awaits s : Prop :=
  ptx_crypto_reordering_timer s = true -> ptx_trans_crypto s <= ptx_reord_crypto s <= ptx_next s.

Lemma ptx_submit_all_spec now retx s :
  ptx_has_discard_timer cfg = true -> sn_size_ok (ptx_sn_size cfg) -> ptx_live s -> ptx_timed s ->
  exists s' out, ptx_submit_all cfg now retx s = Ok (s', out) /\
    ptx_moves s s' out /\ ptx_live s' /\ ptx_timed s' /\
    (pdus_of out).*1 = seqZ (ptx_trans_crypto s) (ptx_trans_crypto s' - ptx_trans_crypto s) /\
    (ptx_trans_crypto s' < ptx_next s -> exists e, ptx_view s' (ptx_trans_crypto s') = Some e /\ twe_pdu e = []).
Proof. intros Htm Hsz Hl Hti. by apply ptx_submit_consecutive_spec. Qed.

(** The timer fields are no part of the window. *)
Lemma ptx_live_timers s r t :
  ptx_live s -> ptx_live (s <| ptx_reord_crypto := r |> <| ptx_crypto_reordering_timer := t |>).
Proof. intros []. by constructor. Qed.

(** A protected PDU arrives: it is out of date, or it is stored, and what is in order is
    submitted. *)
Definition ptx_stored s s1 (count : Z) (pdu : list Z) : Prop :=
  exists w e, s1 = s <| ptx_window := w |> /\ ptx_view s count = Some e /\ ptx_live s1 /\
    forall c, ptx_view s1 c = if decide (c = count) then Some (e <| twe_pdu := pdu |>) else ptx_view s c.

Lemma ptx_store_spec s count pdu e :
  ptx_live s -> ptx_view s count = Some e ->
  exists w, ptw_set_pdu count pdu (ptx_window s) = Ok w /\ ptx_stored s (s <| ptx_window := w |>) count pdu.
Proof.
  intros Hl Ev. pose proof Ev as Ev'. unfold ptx_view in Ev'.
  destruct (ptw_set_ok _ _ _ _ count pdu e (lv_window _ Hl) Ev') as (w & -> & Hw & Hv). exists w. split; [done|].
  set (s1 := s <| ptx_window := w |>).
  assert (forall c, ptx_view s1 c = if decide (c = count) then Some (e <| twe_pdu := pdu |>) else ptx_view s c) as Hv1 by exact Hv.
  exists w, e. split; [done|]. split; [done|]. split; [|done].
  destruct (lv_order _ Hl). apply (ptx_live_same s); try done; try (unfold s1, field_update; cbn; lia). intros c. rewrite Hv1. case_decide; [|done]. subst. by rewrite Ev.
Qed.

Lemma ptx_apply_reordering_spec now info s :
  ptx_has_discard_timer cfg = true -> sn_size_ok (ptx_sn_size cfg) ->
  (ptx_stopped s = false -> ptx_live s /\ ptx_timed s /\ ptx_awaits s) ->
  ptx_apply_reordering cfg now info s = Ok (s, []) \/
  exists s1 s2 s' out, ptx_apply_reordering cfg now info s = Ok (s', out) /\
    ptx_stopped s = false /\ ptx_stored s s1 (tbi_count info) (tbi_buf info) /\
    ptx_moves s1 s2 out /\ ptx_live s2 /\ ptx_timed s2 /\
    (pdus_of out).*1 = seqZ (ptx_trans_crypto s) (ptx_trans_crypto s2 - ptx_trans_crypto s) /\
    exists r t, s' = s2 <| ptx_reord_crypto := r |> <| ptx_crypto_reordering_timer := t |> /\ ptx_live s' /\ ptx_timed s' /\
      ptx_awaits s' /\ (t = false -> ptx_trans_crypto s' = ptx_next s').
Proof.
  intros Htm Hsz Hok. unfold ptx_apply_reordering. destruct (ptx_stopped s) eqn:Est; [by left|].
  destruct (Hok eq_refl) as (Hl & Hti & Haw).
  destruct (negb _); [by left|]. destruct (_ <? ptx_next_ack s); [by left|]. destruct (_ <? ptx_trans s); [by left|].
  rewrite ptw_has_view. destruct (ptw_view (ptx_window s) (tbi_count info)) as [e|] eqn:Ev; cbn [negb]; [|by left]. right.
  destruct (ptx_store_spec s (tbi_count info) (tbi_buf info) e Hl Ev) as (w & -> & Hst). cbn [checked_bind].
  set (s1 := s <| ptx_window := w |>) in *. pose proof Hst as (? & ? & _ & _ & Hl1 & _).
  destruct (ptx_submit_all_spec now (tbi_is_retx info) s1 Htm Hsz Hl1 Hti) as (s2 & out & -> & Hm & Hl2 & Hti2 & Hp & _).
  cbn [checked_bind]. destruct (ptx_core_fields _ _ (mv_core _ _ _ Hm)) as (En & Es & _).
  destruct (ptx_handle_timers_spec s2 Hl2) as (r & t & -> & Hrt & Hrf); [by rewrite Es| |].
  { rewrite (mv_timer _ _ _ Hm), (mv_reord _ _ _ Hm), En. by apply Haw. }
  exists s1, s2. eexists _, out. split; [done|]. split; [done|]. split; [done|]. split; [done|]. split; [done|]. split; [done|].
  split; [done|]. exists r, t. split; [done|]. split; [by apply ptx_live_timers|]. split; [done|].
  split; [|done]. intros Ht. specialize (Hrt Ht). unfold field_update; cbn. lia.
Qed.

(** ** Expiry of the reordering timer *)

Lemma ptx_pass_over_spec turns s :
  ptx_live s -> ptx_timed s -> ptx_trans_crypto s <= ptx_reord_crypto s <= ptx_next s ->
  turns = Z.to_nat (ptx_reord_crypto s - ptx_trans_crypto s) ->
  exists s' out, ptx_pass_over turns s = Ok (s', out) /\ ptx_moves s s' out /\ ptx_live s' /\ ptx_timed s' /\
    ptx_trans_crypto s' = ptx_reord_crypto s.
Proof.
  revert s. induction turns as [|turns IH]; intros s Hl Hti Hr Ht; destruct (lv_order _ Hl) as [Ho Ho']; cbn [ptx_pass_over].
  - rewrite (proj2 (Z.eqb_eq _ _)) by lia. exists s, []. split; [done|].
    split; [apply ptx_trims_moves, silent_nil; apply ptx_trims_refl|]. split; [done|]. split; [done|lia].
  - rewrite (proj2 (Z.eqb_neq _ _)) by lia.
    destruct (lv_pending _ Hl (ptx_trans_crypto s)) as [e Ev]; [lia|]. rewrite ptw_has_view. fold (ptx_view s (ptx_trans_crypto s)).
    rewrite Ev. pose proof Ev as Ev'. unfold ptx_view in Ev'. rewrite (ptw_at_view _ _ _ Ev'). clear Ev'. cbn [checked_bind].
    assert (exists w out1, (if bool_decide (twe_pdu e = []) then Ok (s, []) else ptx_submit false (ptx_trans_crypto s) s) =
        Ok (s <| ptx_window := w |>, out1) /\
        let s1 := s <| ptx_window := w |> <| ptx_trans_crypto := ptx_trans_crypto s + 1 |> in
        ptx_live s1 /\ ptx_moves s s1 out1) as (w & out1 & -> & Hl1 & Hm1).
    { case_bool_decide as Ep.
      - destruct (ptx_pass_spec s Hl) as [Hl1 Hm1]; [lia|]. exists (ptx_window s), []. split; [by destruct s|]. by destruct s.
      - destruct (ptx_submit_spec false s e Hl Ev Ep) as (w & out1 & -> & _ & Hl1 & Hm1). by exists w, out1. }
    unfold emit_bind. cbn [checked_bind].
    assert (s <| ptx_window := w |> <| ptx_trans_crypto ::= fun c => u32 (c + 1) |> =
            s <| ptx_window := w |> <| ptx_trans_crypto := ptx_trans_crypto s + 1 |>) as ->.
    { destruct s. unfold field_update in *; cbn in *. by rewrite wrap_small by (unfold in_range; lia). }
    set (s1 := s <| ptx_window := w |> <| ptx_trans_crypto := ptx_trans_crypto s + 1 |>) in *. cbv zeta in Hl1, Hm1.
    assert (ptx_trans_crypto s1 = ptx_trans_crypto s + 1 /\ ptx_reord_crypto s1 = ptx_reord_crypto s /\ ptx_next s1 = ptx_next s)
      as (Et1 & Er1 & En1) by done.
    destruct (IH s1) as (s2 & out2 & -> & Hm2 & Hl2 & Hti2 & Et2); [done|done|lia|lia|]. cbn [checked_bind].
    eexists _, _. split; [done|]. split; [by apply (ptx_moves_trans _ s1)|]. split; [done|]. split; [done|]. by rewrite Et2.
Qed.

Lemma crypto_reordering_timeout_spec now s :
  ptx_has_discard_timer cfg = true -> sn_size_ok (ptx_sn_size cfg) -> ptx_live s -> ptx_timed s -> ptx_stopped s = false ->
  ptx_trans_crypto s <= ptx_reord_crypto s <= ptx_next s -> ptx_crypto_reordering_timer s = false ->
  exists s2 s' out, crypto_reordering_timeout cfg now s = Ok (s', out) /\ ptx_moves s s2 out /\
    ptx_reord_crypto s <= ptx_trans_crypto s2 /\ ptx_live s' /\ ptx_timed s' /\ ptx_awaits s' /\
    exists r t, s' = s2 <| ptx_reord_crypto := r |> <| ptx_crypto_reordering_timer := t |> /\
      (t = false -> ptx_trans_crypto s' = ptx_next s').
Proof.
  intros Htm Hsz Hl Hti Hst Hr Hoff. destruct (lv_order _ Hl) as [Ho Ho']. unfold crypto_reordering_timeout. rewrite Hst.
  rewrite wrap_small by (unfold in_range; lia).
  destruct (ptx_pass_over_spec (Z.to_nat (ptx_reord_crypto s - ptx_trans_crypto s)) s) as (s1 & out1 & -> & Hm1 & Hl1 & Hti1 & Et1);
    try done. unfold emit_bind. cbn [checked_bind].
  destruct (ptx_submit_all_spec now false s1 Htm Hsz Hl1 Hti1) as (s2 & out2 & -> & Hm2 & Hl2 & Hti2 & Hp & _). cbn [checked_bind].
  rewrite app_nil_r. pose proof (mv_crypto _ _ _ Hm2). pose proof (mv_timer _ _ _ (ptx_moves_trans _ _ _ _ _ Hm1 Hm2)) as Etm.
  exists s2. eexists _, _. split; [done|]. split; [by apply (ptx_moves_trans _ s1)|]. split; [lia|].
  destruct (lv_order _ Hl2) as [_ Ho2].
  destruct (ptx_trans_crypto s2 <? ptx_next s2) eqn:E; zbool.
  - split; [by apply ptx_live_timers|]. split; [done|]. split; [intros _; unfold field_update; cbn; lia|].
    eexists _, _. by split.
  - split; [done|]. split; [done|]. split; [intros Hc; congruence|].
    exists (ptx_reord_crypto s2), (ptx_crypto_reordering_timer s2). split; [by destruct s2|]. intros _. lia.
Qed.

End tx_props.
