(* ===== verification/PdcpTxReports.v ===== *)
(** * PDCP transmitting entity: status reports

    What a status report acknowledges, that its application ends for any bytes the
    peer sends, and that it takes exactly the acknowledged SDUs out of the window;
    with the reports of the receiving entity, exactly those that it has received. *)
From stdpp Require Import base numbers list sorting sets.
From Stdlib Require Import ZArith Lia.
From S2P Require Import Prelude.
From S2P Require Import SduWindow.
From S2P Require Import BitEncoding.
From S2P Require Import SecurityEngine.
From S2P Require Import PdcpSn.
From S2P Require Import PdcpPdu.
From S2P Require Import PdcpTxWindow.
From S2P Require Import PdcpTx.
From S2P Require Import PdcpTxProps.

Set Default Goal Selector "!".
Open Scope Z_scope.
Open Scope ran_scope.

(** ** Acknowledged COUNTs *)

(** The COUNTs after [fmc] whose bit is set. *)
Fixpoint bitmap_acks (turns : nat) (fmc : Z) (dec : bit_decoder) : list Z :=
  match bd_unpack 32 1 dec, turns with
  | Ok (true, bit, dec), S turns =>
      let count := u32 (fmc + 1) in
      (if bit =? 1 then [count] else []) ++ bitmap_acks turns count dec
  | _, _ => []
  end.

(** The first missing COUNT and the set bits of a report; [None] for another PDU. *)
Definition report_acks (status : list Z) : option (Z * list Z) :=
  match bd_unpack 32 1 (bit_decoder_new status) with
  | Ok (_, dc, dec) =>
      if negb (dc =? pdcp_dc_control) then None else
      match bd_unpack 32 3 dec with
      | Ok (_, cpt, dec) =>
          if negb (cpt =? pdcp_control_status_report) then None else
          match bd_unpack 32 4 dec with
          | Ok (_, reserved, dec) =>
              if negb (reserved =? 0) then None else
              match bd_unpack 32 32 dec with
              | Ok (_, fmc, dec) => Some (fmc, bitmap_acks (8 * length status) fmc dec)
              | Panic => None
              end
          | Panic => None
          end
      | Panic => None
      end
  | Panic => None
  end.

Definition acknowledged (status : list Z) (count : Z) : Prop :=
  match report_acks status with
  | Some (fmc, acks) => count < fmc \/ count ∈ acks
  | None => False
  end.
#[export] Instance acknowledged_dec status count : Decision (acknowledged status count).
Proof. unfold acknowledged. destruct (report_acks status) as [[fmc acks]|]; apply _. Defined.

Section tx_reports.
Context {W : Type -> Type} `{!SduWindow W} `{!SduWindowLaws W} `{!SecurityAlgorithms}.
Variable cfg : pdcp_tx_config.
Implicit Types s : pdcp_tx_entity W.

Hypothesis Htm : ptx_has_discard_timer cfg = true.
Hypothesis Hsz : sn_size_ok (ptx_sn_size cfg).

(** The window of an entity that runs, or the empty one of an entity that was stopped. *)
Definition ptx_sound s : Prop := ptx_live cfg s \/ forall c, ptx_view s c = None.

(** The SDUs with [gone] were taken out. *)
Record ptx_discards (gone : Z -> Prop) s s' (out : list pdcp_tx_output) : Prop := mk_ptx_discards {
  pd_trims : ptx_trims s s';
  pd_live : ptx_live cfg s -> ptx_live cfg s';
  pd_sound : ptx_sound s';
  pd_expiry : ptx_discard_expiry s' = ptx_discard_expiry s;
  pd_silent : silent out;
  pd_gone c : gone c -> ptx_view s' c = None;
  pd_kept c : ~ gone c -> ptx_view s' c = ptx_view s c;
  pd_empty : (forall c, ptx_view s c = None) -> s' = s;
}.

Lemma ptx_discards_none s (gone : Z -> Prop) :
  ptx_sound s -> (forall c, gone c -> ptx_view s c = None) -> ptx_discards gone s s [].
Proof. intros Hs Hg. constructor; try done. apply ptx_trims_refl. Qed.

Lemma ptx_discards_trans (g1 g2 g : Z -> Prop) s1 s2 s3 out1 out2 :
  ptx_discards g1 s1 s2 out1 -> ptx_discards g2 s2 s3 out2 -> (forall c, g c <-> g1 c \/ g2 c) ->
  (forall c, Decision (g2 c)) -> ptx_discards g s1 s3 (out1 ++ out2).
Proof.
  intros [T1 L1 S1 E1 Q1 G1 K1 M1] [T2 L2 S2 E2 Q2 G2 K2 M2] Hg Hdec.
  constructor; [by eapply ptx_trims_trans|auto|done|congruence|by apply silent_app| | |].
  - intros c [H1|H2]%Hg; [|by apply G2]. destruct (decide (g2 c)); [by apply G2|]. rewrite K2 by done. by apply G1.
  - intros c Hn. rewrite Hg in Hn. rewrite K2, K1; tauto.
  - intros Hv. specialize (M1 Hv). subst s2. by apply M2.
Qed.

(** Removal before submission is what the environment has to avoid. *)
Definition ptx_gone_ok (gone : Z -> Prop) s : Prop :=
  forall c, gone c -> is_Some (ptx_view s c) -> c < ptx_trans_crypto s.

Lemma ptx_gone_ok_trims (gone gone' : Z -> Prop) s s' :
  ptx_gone_ok gone s -> ptx_trims s s' -> (forall c, gone' c -> gone c) -> ptx_gone_ok gone' s'.
Proof.
  intros Hg Htr Hsub c Hc Hv. rewrite (tr_crypto _ _ Htr). apply Hg; [by apply Hsub|].
  destruct (tr_view _ _ Htr c) as [E|E]; rewrite E in Hv; [by destruct Hv|done].
Qed.

Lemma discard_pdu_sound count s :
  ptx_sound s -> (is_Some (ptx_view s count) -> count < ptx_trans_crypto s) ->
  exists s' out, discard_pdu cfg count s = Ok (s', out) /\ ptx_discards (fun c => c = count) s s' out.
Proof.
  intros Hs Hc. destruct (ptx_view s count) as [e|] eqn:E.
  - destruct Hs as [Hl|Hv]; [|congruence].
    destruct (discard_pdu_spec cfg count s Htm Hsz Hl) as (s' & out & -> & Htr & Hl' & Hx & Hsil & _ & Hv & _).
    { intros _. by apply Hc. }
    exists s', out. split; [done|]. constructor; try done; [by left| | |].
    + intros c ->. by rewrite Hv, decide_True.
    + intros c Hne. by rewrite Hv, decide_False.
    + intros Hn. by rewrite Hn in E.
  - exists s, []. split; [|apply ptx_discards_none; [done|by intros c ->]]. unfold discard_pdu. rewrite Htm. cbn [negb].
    destruct (_ || _); [done|]. rewrite ptw_has_view. unfold ptx_view in E. by rewrite E.
Qed.

Lemma ptx_discard_until_spec turns fmc count s :
  ptx_sound s -> 0 <= count -> fmc < 2 ^ 32 -> turns = Z.to_nat (fmc - count) ->
  ptx_gone_ok (fun c => count <= c < fmc) s ->
  exists s' out, ptx_discard_until cfg turns fmc count s = Ok (s', out) /\ ptx_discards (fun c => count <= c < fmc) s s' out.
Proof.
  revert count s. induction turns as [|turns IH]; intros count s Hs Hc Hf Ht Hg; cbn [ptx_discard_until].
  - rewrite (proj2 (Z.ltb_ge _ _)) by lia. exists s, []. split; [done|]. apply ptx_discards_none; [done|lia].
  - rewrite (proj2 (Z.ltb_lt _ _)) by lia.
    destruct (discard_pdu_sound count s Hs) as (s1 & out1 & -> & Hd1); [apply Hg; lia|]. unfold emit_bind. cbn [checked_bind].
    rewrite wrap_small by (unfold in_range; lia).
    destruct (IH (count + 1) s1) as (s2 & out2 & -> & Hd2); [apply Hd1|lia|lia|lia| |].
    { apply (ptx_gone_ok_trims (fun c => count <= c < fmc) _ s); [done|apply Hd1|lia]. }
    cbn [checked_bind]. eexists _, _. split; [done|]. eapply ptx_discards_trans; [done|done|cbn; lia|apply _].
Qed.

Lemma ptx_discard_bits_spec turns fmc dec s :
  ptx_sound s -> 0 <= bd_offset dec < 8 -> bd_bits_left dec <= Z.of_nat turns ->
  ptx_gone_ok (fun c => c ∈ bitmap_acks turns fmc dec) s ->
  exists s' out, ptx_discard_bits cfg turns fmc dec s = Ok (s', out) /\
    ptx_discards (fun c => c ∈ bitmap_acks turns fmc dec) s s' out.
Proof.
  revert fmc dec s. induction turns as [|turns IH]; intros fmc dec s Hs Ho Hb Hg; cbn [ptx_discard_bits bitmap_acks] in *;
    destruct (bd_unpack_total 32 1 dec) as (ok & bit & dec' & E & Hbit & Ho' & Hle & Hlt); try done.
  - destruct dec as [[|b l] o]; unfold bd_bits_left in Hb; cbn in Hb, Ho; [|rewrite zlen_cons in Hb; pose proof (zlen_nonneg l); lia].
    cbn. exists s, []. split; [done|]. apply ptx_discards_none; [done|]. intros c Hc. by apply elem_of_nil in Hc.
  - rewrite E in *. cbn [checked_bind]. destruct ok; cbn [negb].
    2:{ exists s, []. split; [done|]. apply ptx_discards_none; [done|]. intros c Hc. by apply elem_of_nil in Hc. }
    specialize (Hlt eq_refl ltac:(lia)). set (count := u32 (fmc + 1)) in *.
    assert (exists s1 out1, (if bit =? 1 then discard_pdu cfg count s else Ok (s, [])) = Ok (s1, out1) /\
        ptx_discards (fun c => c ∈ if bit =? 1 then [count] else []) s s1 out1) as (s1 & out1 & -> & Hd1).
    { destruct (bit =? 1).
      - destruct (discard_pdu_sound count s Hs) as (s1 & out1 & -> & Hd1); [apply Hg; set_solver|].
        exists s1, out1. split; [done|]. destruct Hd1 as [T L S X Q G K M]. constructor; try done.
        + intros c ->%list_elem_of_singleton. by apply G.
        + intros c Hne. apply K. intros ->. apply Hne. by apply list_elem_of_singleton.
      - exists s, []. split; [done|]. apply ptx_discards_none; [done|]. intros c Hc. by apply elem_of_nil in Hc. }
    unfold emit_bind. cbn [checked_bind].
    destruct (IH count dec' s1) as (s2 & out2 & -> & Hd2); [apply Hd1|done|lia| |].
    { eapply (ptx_gone_ok_trims _ _ s); [exact Hg|apply Hd1|]. intros c Hc. apply elem_of_app. by right. }
    cbn [checked_bind]. eexists _, _. split; [done|]. eapply ptx_discards_trans; [done|done| |apply _].
    intros c. by rewrite elem_of_app.
Qed.

(** The status report takes out what it acknowledges, and ends for any bytes. *)
Lemma handle_status_report_spec copy_ok status s :
  ptx_sound s -> 0 <= ptx_next_ack s -> (copy_ok = true -> ptx_gone_ok (acknowledged status) s) ->
  exists s' out, handle_status_report cfg copy_ok status s = Ok (s', out) /\
    ptx_discards (fun c => copy_ok = true /\ acknowledged status c) s s' out.
Proof.
  intros Hs Ha Hok. unfold handle_status_report. destruct copy_ok; cbn [negb].
  2:{ exists s, []. split; [done|]. apply ptx_discards_none; [done|]. by intros c [? _]. }
  specialize (Hok eq_refl). unfold acknowledged, report_acks in *.
  assert (forall r : checked (pdcp_tx_entity W * list pdcp_tx_output), r = Ok (s, []) ->
    exists s' out, r = Ok (s', out) /\ ptx_discards (fun c => true = true /\ False) s s' out) as Hnone.
  { intros r ->. exists s, []. split; [done|]. apply ptx_discards_none; [done|]. by intros c [_ ?]. }
  destruct (bd_unpack_total 32 1 (bit_decoder_new status)) as (ok1 & dc & d1 & E1 & _ & Ho1 & Hl1 & _);
    [cbn; lia|lia|lia|]. rewrite E1 in *. cbn [checked_bind].
  destruct (negb (dc =? pdcp_dc_control)); [by apply Hnone|].
  destruct (bd_unpack_total 32 3 d1) as (ok2 & cpt & d2 & E2 & _ & Ho2 & Hl2 & _); [done|lia|lia|]. rewrite E2 in *. cbn [checked_bind].
  destruct (negb (cpt =? pdcp_control_status_report)); [by apply Hnone|].
  destruct (bd_unpack_total 32 4 d2) as (ok3 & res & d3 & E3 & _ & Ho3 & Hl3 & _); [done|lia|lia|]. rewrite E3 in *. cbn [checked_bind].
  destruct (negb (res =? 0)); [by apply Hnone|].
  destruct (bd_unpack_total 32 32 d3) as (ok4 & fmc & d4 & E4 & Hf & Ho4 & Hl4 & _); [done|lia|lia|]. rewrite E4 in *. cbn [checked_bind].
  unfold in_range in Hf. set (acks := bitmap_acks _ _ _) in *.
  destruct (ptx_discard_until_spec (Z.to_nat (fmc - ptx_next_ack s)) fmc (ptx_next_ack s) s) as (s1 & out1 & -> & Hd1);
    [done|done|lia|done| |].
  { intros c Hc. apply Hok. left. lia. }
  unfold emit_bind. cbn [checked_bind].
  destruct (ptx_discard_bits_spec (8 * length status) fmc d4 s1) as (s2 & out2 & -> & Hd2); [apply Hd1|done| | |].
  { unfold bd_bits_left, bit_decoder_new in *. cbn in Hl1. unfold zlen in *. lia. }
  { eapply (ptx_gone_ok_trims _ _ s); [exact Hok|apply Hd1|]. intros c Hc. by right. }
  cbn [checked_bind]. eexists _, _. split; [done|].
  assert (ptx_discards (fun c => ptx_next_ack s <= c < fmc \/ c ∈ acks) s s2 (out1 ++ out2)) as [T L S X Q G K M].
  { eapply ptx_discards_trans; [done|done|done|apply _]. }
  assert (forall c, c < ptx_next_ack s -> ptx_view s c = None) as Hlow.
  { intros c Hc. destruct Hs as [Hl|Hv]; [|done]. destruct (ptx_view s c) eqn:E; [|done].
    apply (pok_range _ _ _ _ (lv_window _ _ Hl)) in E. lia. }
  constructor; try done.
  - intros c [_ Hc]. destruct (decide (ptx_next_ack s <= c)); [apply G; destruct Hc; [left; lia|by right]|].
    destruct (tr_view _ _ T c) as [E|E]; [done|]. rewrite E. apply Hlow. lia.
  - intros c Hn. apply K. intros Hc. apply Hn. split; [done|]. destruct Hc; [left; lia|by right].
Qed.

(** ** Reports as bits *)

(** The COUNTs after [fmc] whose bit is set, over the bits. *)
Fixpoint acks_of (fmc : Z) (bits : list bool) : list Z :=
  match bits with
  | [] => []
  | b :: bits => (if b then [u32 (fmc + 1)] else []) ++ acks_of (u32 (fmc + 1)) bits
  end.

Lemma bitmap_acks_spec turns fmc d bs :
  decodes d bs -> (length bs <= turns)%nat -> bitmap_acks turns fmc d = acks_of fmc bs.
Proof.
  revert fmc d bs. induction turns as [|turns IH]; intros fmc d bs Hd Hl; cbn [bitmap_acks].
  - destruct bs; [|cbn in Hl; lia]. destruct (bd_unpack_short 32 1 d []) as (v & d' & ->); [done|by vm_compute|lia|done].
  - destruct bs as [|b bs].
    { destruct (bd_unpack_short 32 1 d []) as (v & d' & ->); [done|by vm_compute|lia|done]. }
    assert (b :: bs = bits_of (Z.to_nat 1) (if b then 1 else 0) ++ bs) as Eb by (by destruct b). rewrite Eb in Hd.
    destruct (bd_unpack_spec 32 (if b then 1 else 0) 1 d bs Hd) as (d' & -> & Hd'); [lia|lia|destruct b; lia|].
    cbn [acks_of]. rewrite (IH _ _ _ Hd') by (cbn in Hl; lia). by destruct b.
Qed.

Lemma acks_of_app fmc l l' : acks_of fmc (l ++ l') = acks_of fmc l ++ acks_of (foldl (fun c _ => u32 (c + 1)) fmc l) l'.
Proof. revert fmc. induction l as [|b l IH]; intros fmc; cbn [app acks_of foldl]; [done|]. by rewrite IH, app_assoc. Qed.

Lemma acks_of_false fmc n : acks_of fmc (replicate n false) = [].
Proof. revert fmc. induction n as [|n IH]; intros fmc; cbn; [done|]. apply IH. Qed.

(** The bits of the COUNTs from [start] on. *)
Lemma acks_of_counts (p : Z -> bool) start n :
  0 < start -> start + n <= 2 ^ 32 ->
  acks_of (start - 1) (p <$> seqZ start n) = filter (fun c => p c = true) (seqZ start n).
Proof.
  intros Hs Hn. destruct (decide (n <= 0)); [by rewrite !seqZ_nil by lia|].
  rewrite <- (Z2Nat.id n) in * by lia. clear n0. revert start Hs Hn. induction (Z.to_nat n) as [|k IH]; intros start Hs Hn.
  - by rewrite !seqZ_nil by lia.
  - rewrite seqZ_cons by lia. replace (Z.pred (Z.of_nat (S k))) with (Z.of_nat k) by lia. cbn [fmap list_fmap acks_of].
    rewrite Z.sub_add, (wrap_small 32 start) by (unfold in_range; lia). rewrite filter_cons.
    rewrite <- (IH (Z.succ start)) by lia. replace (Z.succ start - 1) with start by lia.
    destruct (p start); by case_decide.
Qed.

Lemma report_acks_spec status fmc bits :
  decodes (bit_decoder_new status)
    (fields_bits [(pdcp_dc_control, 1); (pdcp_control_status_report, 3); (0, 4); (fmc, 32)] ++ bits) ->
  0 <= fmc < 2 ^ 32 -> report_acks status = Some (fmc, acks_of fmc bits).
Proof.
  intros Hd Hf. unfold report_acks. cbn [fields_bits flat_map] in Hd. rewrite app_nil_r, <- !app_assoc in Hd.
  assert (length bits <= 8 * length status)%nat as Hlen.
  { destruct Hd as (_ & _ & _ & Hb). cbn [bit_decoder_new bd_offset bd_bytes] in Hb.
    rewrite <- length_byte_bits. change (byte_bits status) with (drop (Z.to_nat 0) (byte_bits status)). rewrite <- Hb, !length_app. lia. }
  destruct (bd_unpack_spec 32 pdcp_dc_control 1 _ _ Hd) as (d1 & -> & Hd1); [lia|lia|by vm_compute|].
  destruct (bd_unpack_spec 32 pdcp_control_status_report 3 _ _ Hd1) as (d2 & -> & Hd2); [lia|lia|by vm_compute|].
  destruct (bd_unpack_spec 32 0 4 _ _ Hd2) as (d3 & -> & Hd3); [lia|lia|by vm_compute|].
  destruct (bd_unpack_spec 32 fmc 32 _ _ Hd3) as (d4 & -> & Hd4); [lia|lia|done|].
  cbn. do 2 f_equal. by apply bitmap_acks_spec.
Qed.

End tx_reports.
