(* ===== verification/PdcpTxSteps.v ===== *)
(** * PDCP transmitting entity: every operation

    The invariant of the whole entity with its executors, where the PDUs of the window
    come from, and for every event that it succeeds, preserves both, numbers SDUs in
    the order of their arrival, and submits PDUs in the order of their numbers. *)
From stdpp Require Import base numbers list sorting sets.
From Stdlib Require Import ZArith Lia.
From S2P Require Import Prelude.
From S2P Require Import SduWindow.
From S2P Require Import BitEncoding.
From S2P Require Import SecurityEngine.
From S2P Require Import PdcpSn.
From S2P Require Import PdcpPdu.
From S2P Require Import PdcpCryptoToken.
From S2P Require Import PdcpTxWindow.
From S2P Require Import PdcpTx.
From S2P Require Import PdcpTxProps.

Set Default Goal Selector "!".
Open Scope Z_scope.
Open Scope ran_scope.

(** ** Tokens

    [n] tokens are out, and processing is stopped or not.  PDUs of a re-establishment are
    taken in while it is stopped. *)
Definition token_balance (n : Z) (stopped : bool) (m : pdcp_crypto_token_manager) : Prop :=
  0 <= n < 2 ^ 32 - 1 /\ tm_tokens m = u32 (n - if stopped then 1 else 0).

Lemma token_balance_increment n stopped m :
  token_balance n stopped m -> n + 1 < 2 ^ 32 - 1 -> token_balance (n + 1) stopped (increment_token m).
Proof.
  intros (Hn & Ht) Hb. split; [lia|]. unfold increment_token, field_update. cbn. rewrite Ht, wrap_add_l by lia.
  apply (f_equal (wrap 32)). lia.
Qed.

Lemma token_balance_return n stopped m :
  token_balance n stopped m -> 0 < n \/ stopped = false ->
  exists m', return_token m = Ok m' /\ tm_tokens m' = u32 (n - 1 - if stopped then 1 else 0).
Proof.
  intros (Hn & Ht) Hp. rewrite wrap_small in Ht by (unfold in_range; destruct stopped, Hp; lia || done).
  unfold return_token. rewrite (proj2 (Z.eqb_neq _ _)) by (rewrite Ht; destruct stopped; lia). cbn [negb].
  eexists. split; [done|]. unfold field_update. destruct (tm_tokens m =? 0); cbn; rewrite Ht; apply (f_equal (wrap 32)); lia.
Qed.

Lemma token_balance_taken n stopped m :
  token_balance n stopped m -> 0 < n -> exists m', return_token m = Ok m' /\ token_balance (n - 1) stopped m'.
Proof.
  intros Hb Hn. destruct (token_balance_return n stopped m Hb (or_introl Hn)) as (m' & -> & Ht). destruct Hb.
  exists m'. split; [done|]. by split; [lia|].
Qed.

Lemma token_balance_stop n m :
  token_balance n false m -> exists m', token_manager_stop m = Ok m' /\ token_balance n true m'.
Proof.
  intros Hb. destruct (token_balance_return n false m Hb (or_intror eq_refl)) as (m' & E & Ht). destruct Hb.
  exists m'. split; [done|]. split; [lia|]. rewrite Ht. apply (f_equal (wrap 32)). lia.
Qed.

Lemma token_balance_start n m : token_balance n true m -> token_balance n false (token_manager_start m).
Proof.
  intros (Hn & Ht). split; [done|]. unfold token_manager_start, increment_token, field_update. cbn.
  rewrite Ht, wrap_add_l by lia. apply (f_equal (wrap 32)). lia.
Qed.

Section tx_steps.
Context {W : Type -> Type} `{!SduWindow W} `{!SduWindowLaws W} `{!SecurityAlgorithms}.
Variable cfg : pdcp_tx_config.
Implicit Types s : pdcp_tx_entity W.

(** ** Invariant of the entity *)

Definition tx_task_info (task : pdcp_tx_task) : option pdcp_tx_buffer_info :=
  match task with TxApplyReordering info => Some info | TxHandleFailure _ => None end.

(** The PDUs with a token. *)
Definition ptx_in_flight s : Z := zlen (ptx_crypto_tasks s) + zlen (omap tx_task_info (ptx_ue_tasks s)).

Record ptx_base s : Prop := mk_ptx_base {
  tb_live : ptx_stopped s = false -> ptx_live cfg s /\ ptx_timed cfg s /\ ptx_awaits s;
  tb_dead : ptx_stopped s = true -> win_wf (ptw_window (ptx_window s)) /\ (forall c, ptx_view s c = None) /\
    ptx_discard_expiry s = None /\ ptx_crypto_reordering_timer s = false;
  tb_counts : 0 <= ptx_next_ack s /\ 0 <= ptx_next s < 2 ^ 32;
  tb_pool : zlen (ptx_sec_engine_pool s) = ptx_max_nof_crypto_workers cfg;
}.

Definition ptx_tokens (n : Z) (halted : bool) s : Prop := token_balance n halted (ptx_token_mngr s).

Definition ptx_inv (halted : bool) s : Prop := ptx_base s /\ ptx_tokens (ptx_in_flight s) halted s.

Lemma ptx_return_token_spec n halted s :
  ptx_tokens n halted s -> 0 < n -> exists m,
    ptx_return_token s = Ok (s <| ptx_token_mngr := m |>) /\ ptx_tokens (n - 1) halted (s <| ptx_token_mngr := m |>).
Proof.
  intros Ht Hn. unfold ptx_return_token. destruct (token_balance_taken _ _ _ Ht Hn) as (m & -> & Hm). by exists m.
Qed.

(** The fields that the invariant does not see. *)
Lemma ptx_base_ext s s' :
  ptx_base s -> ptx_window s' = ptx_window s -> ptx_next s' = ptx_next s -> ptx_next_ack s' = ptx_next_ack s ->
  ptx_trans s' = ptx_trans s -> ptx_trans_crypto s' = ptx_trans_crypto s -> ptx_reord_crypto s' = ptx_reord_crypto s ->
  ptx_stopped s' = ptx_stopped s -> ptx_discard_expiry s' = ptx_discard_expiry s ->
  ptx_crypto_reordering_timer s' = ptx_crypto_reordering_timer s ->
  zlen (ptx_sec_engine_pool s') = ptx_max_nof_crypto_workers cfg -> ptx_base s'.
Proof.
  intros [Hl Hd Hc Hp] Ew En Ea Et Ec Er Es Ee Em Hp'. constructor; unfold ptx_view; rewrite ?Es, ?Ew, ?En, ?Ea, ?Ee, ?Em; try done.
  intros Hs. destruct (Hl Hs) as ([Ho Htr Hw Hsz Hpe Hold Htk] & Hti & Haw).
  split; [|split; [by unfold ptx_timed; rewrite Ee, En, Ea|by unfold ptx_awaits; rewrite Em, Ec, Er, En]].
  constructor; unfold ptx_view; rewrite ?Ew, ?En, ?Ea, ?Et, ?Ec; done.
Qed.

(** ** Where PDUs come from

    [hist] are the SDUs numbered so far; what the engines make of a buffer for a COUNT
    is [seals]. *)
Section sealed.
Variable seals : list Z -> Z -> list Z -> Prop.

Definition sealing s : Prop := forall worker append buf count result pdu,
  apply_ciphering_and_integrity_protection cfg worker append buf count s = Ok result ->
  sr_buf result = inl pdu -> seals buf count pdu.

(** The SDU with its header. *)
Definition framed (count : Z) (sdu : list Z) : list Z :=
  pdcp_header (ptx_is_srb cfg) (ptx_sn_size cfg) (ptx_SN cfg count) ++ sdu.

Definition sealed (hist : list (Z * list Z)) (count : Z) (pdu : list Z) : Prop :=
  exists sdu, (count, sdu) ∈ hist /\ seals (framed count sdu) count pdu.

Record ptx_tracks (hist : list (Z * list Z)) s : Prop := mk_ptx_tracks {
  tt_crypto : Forall (fun info => exists sdu, (tbi_count info, sdu) ∈ hist /\ tbi_buf info = framed (tbi_count info) sdu)
    (ptx_crypto_tasks s);
  tt_ue : Forall (fun info => sealed hist (tbi_count info) (tbi_buf info)) (omap tx_task_info (ptx_ue_tasks s));
  tt_window c e : ptx_view s c = Some e -> twe_pdu e = [] \/ sealed hist c (twe_pdu e);
  tt_numbered c e : ptx_view s c = Some e -> exists sdu, (c, sdu) ∈ hist /\ twe_sdu_length e = u32 (zlen sdu);
}.

Lemma sealed_mono hist hist' c pdu : sealed hist c pdu -> sealed (hist ++ hist') c pdu.
Proof. intros (sdu & Hin & Hs). exists sdu. split; [|done]. apply elem_of_app. by left. Qed.

Lemma ptx_tracks_mono hist hist' s : ptx_tracks hist s -> ptx_tracks (hist ++ hist') s.
Proof.
  intros [Tc Tu Tw Tn]. constructor.
  - eapply Forall_impl; [exact Tc|]. intros info (sdu & Hin & Hb). exists sdu. split; [|done]. apply elem_of_app. by left.
  - eapply Forall_impl; [exact Tu|]. intros info. apply sealed_mono.
  - intros c e He. destruct (Tw c e He) as [?|?]; [by left|right; by apply sealed_mono].
  - intros c e He. destruct (Tn c e He) as (sdu & Hin & Hlen). exists sdu. split; [|done]. apply elem_of_app. by left.
Qed.

(** ** What an event does

    SDUs buffered for later are numbered later; [gapless] events submit every PDU that
    TX_TRANS_CRYPTO passes. *)
Definition ptx_drained s : Prop := ptx_buffering s = false -> ptx_sdu_buffer s = [].

Record ptx_acts (gapless : bool) s s' (out : list pdcp_tx_output) : Prop := mk_ptx_acts {
  fe_next : ptx_next s <= ptx_next s';
  fe_nums : (nums_of out).*1 = seqZ (ptx_next s) (ptx_next s' - ptx_next s);
  fe_crypto : ptx_trans_crypto s <= ptx_trans_crypto s';
  fe_sorted : StronglySorted Z.lt (pdus_of out).*1;
  fe_range : Forall (fun c => ptx_trans_crypto s <= c < ptx_trans_crypto s') (pdus_of out).*1;
  fe_gapless : gapless = true ->
    (pdus_of out).*1 = seqZ (ptx_trans_crypto s) (ptx_trans_crypto s' - ptx_trans_crypto s);
  fe_pdus hist : ptx_tracks hist s -> sealing s -> Forall (fun x => sealed (hist ++ nums_of out) x.1 x.2) (pdus_of out);
  fe_tracks hist : ptx_tracks hist s -> sealing s -> ptx_tracks (hist ++ nums_of out) s';
  fe_pool : ptx_sec_engine_pool s' = ptx_sec_engine_pool s;
}.

(** With the SDUs that were [offered]: they are numbered in their order, if at all. *)
Definition ptx_effect (gapless : bool) s s' (offered : list (list Z)) (out : list pdcp_tx_output) : Prop :=
  ptx_acts gapless s s' out /\
  (ptx_drained s -> ptx_drained s' /\
    (nums_of out).*2 ++ ptx_sdu_buffer s' `sublist_of` ptx_sdu_buffer s ++ offered).

Lemma sealing_pool s s' : ptx_sec_engine_pool s' = ptx_sec_engine_pool s -> sealing s -> sealing s'.
Proof.
  intros Ep Hs worker append buf count result pdu Ha. apply (Hs worker append). 
  unfold apply_ciphering_and_integrity_protection in *. by rewrite Ep in Ha.
Qed.

Lemma ptx_acts_trans g s1 s2 s3 out1 out2 :
  ptx_acts g s1 s2 out1 -> ptx_acts g s2 s3 out2 -> ptx_acts g s1 s3 (out1 ++ out2).
Proof.
  intros [N1 M1 C1 S1 R1 G1 P1 T1 E1] [N2 M2 C2 S2 R2 G2 P2 T2 E2].
  assert (sealing s1 -> sealing s2) as Hse by (by apply sealing_pool).
  assert (forall a b c, a <= b <= c -> seqZ a (b - a) ++ seqZ b (c - b) = seqZ a (c - a)) as Hseq.
  { intros a b c Habc. replace (c - a) with ((b - a) + (c - b)) by lia. rewrite seqZ_app by lia. by replace (a + (b - a)) with b by lia. }
  constructor; rewrite ?nums_of_app, ?pdus_of_app, ?fmap_app; try lia.
  - by rewrite M1, M2, Hseq by lia.
  - by eapply sorted_app_range.
  - apply Forall_app. split; (eapply Forall_impl; [eassumption|]); cbn; lia.
  - intros Hg. by rewrite G1, G2, Hseq by (done || lia).
  - intros hist Ht Hs. rewrite app_assoc. apply Forall_app. split.
    + eapply Forall_impl; [by apply P1|]. intros x. apply sealed_mono.
    + apply P2; [by apply T1|by apply Hse].
  - intros hist Ht Hs. rewrite app_assoc. apply T2; [by apply T1|by apply Hse].
  - congruence.
Qed.

Lemma ptx_effect_trans g s1 s2 s3 off1 off2 out1 out2 :
  ptx_effect g s1 s2 off1 out1 -> ptx_effect g s2 s3 off2 out2 -> ptx_effect g s1 s3 (off1 ++ off2) (out1 ++ out2).
Proof.
  intros [A1 O1] [A2 O2]. split; [by eapply ptx_acts_trans|].
  intros Hd. destruct (O1 Hd) as [Hd1 Ho1]. destruct (O2 Hd1) as [Hd2 Ho2]. split; [done|].
  rewrite nums_of_app, fmap_app, <- app_assoc.
  transitivity ((nums_of out1).*2 ++ ptx_sdu_buffer s2 ++ off2); [by apply sublist_app|].
  rewrite !app_assoc. by apply sublist_app.
Qed.

Lemma ptx_effect_then g s1 s2 s3 off out :
  ptx_effect g s1 s2 [] [] -> ptx_effect g s2 s3 off out -> ptx_effect g s1 s3 off out.
Proof. apply (ptx_effect_trans g s1 s2 s3 [] off [] out). Qed.
Lemma ptx_effect_after g s1 s2 s3 off out :
  ptx_effect g s1 s2 off out -> ptx_effect g s2 s3 [] [] -> ptx_effect g s1 s3 off out.
Proof. intros H1 H2. rewrite <- (app_nil_r off), <- (app_nil_r out). by apply (ptx_effect_trans g s1 s2 s3). Qed.

(** An event that neither numbers nor submits. *)
Lemma ptx_acts_quiet g s s' out :
  silent out -> ptx_next s' = ptx_next s -> ptx_trans_crypto s' = ptx_trans_crypto s ->
  ptx_sec_engine_pool s' = ptx_sec_engine_pool s ->
  (forall hist, ptx_tracks hist s -> sealing s -> ptx_tracks hist s') -> ptx_acts g s s' out.
Proof.
  intros [Hn Hp] En Et Ep Htr. constructor; rewrite ?Hn, ?Hp, ?En, ?Et, ?Z.sub_diag; try done || lia; try by constructor.
  intros hist Hh Hs. rewrite app_nil_r. by apply Htr.
Qed.

Lemma ptx_effect_quiet g s s' out :
  silent out -> ptx_next s' = ptx_next s -> ptx_trans_crypto s' = ptx_trans_crypto s ->
  ptx_sec_engine_pool s' = ptx_sec_engine_pool s -> ptx_sdu_buffer s' = ptx_sdu_buffer s ->
  (ptx_buffering s' = false -> ptx_buffering s = false) ->
  (forall hist, ptx_tracks hist s -> sealing s -> ptx_tracks hist s') -> ptx_effect g s s' [] out.
Proof.
  intros Hsil En Et Ep Eb Hb Htr. split; [by apply ptx_acts_quiet|].
  - destruct Hsil as [Hn _]. intros Hd. rewrite Hn, Eb, app_nil_r. split; [|done]. intros Hf. rewrite Eb. by auto.
Qed.

(** Submission out of the window. *)
Lemma ptx_moves_effect g s s' out :
  ptx_moves s s' out ->
  (g = true -> (pdus_of out).*1 = seqZ (ptx_trans_crypto s) (ptx_trans_crypto s' - ptx_trans_crypto s)) ->
  ptx_effect g s s' [] out.
Proof.
  intros [C X M T A V S R P N] Hg. destruct (ptx_core_fields _ _ C) as (En & Es & Eb & Ebuf & _ & Ep & _ & Ec & Eu).
  split; [constructor; rewrite ?N, ?En, ?Z.sub_diag; try done || lia|].
  - intros hist [Tc Tu Tw Tn] _. eapply Forall_impl; [exact P|]. intros [c pdu] (Hne & e & Ev & Ee). cbn in *.
    rewrite <- Ee in *. destruct (Tw c e Ev) as [?|?]; [done|by apply sealed_mono].
  - intros hist [Tc Tu Tw Tn] _. rewrite app_nil_r. constructor; rewrite ?Ec, ?Eu; [done|done| |].
    + intros c e' He. destruct (V c e' He) as (e & Ev & _ & _ & [-> | ->]); [by eapply Tw|by left].
    + intros c e' He. destruct (V c e' He) as (e & Ev & _ & -> & _). by eapply Tn.
  - unfold ptx_drained. rewrite Eb, Ebuf, N, app_nil_r. by intros Hd.
Qed.

Lemma ptx_moves_base s s' out :
  ptx_base s -> ptx_moves s s' out -> ptx_stopped s = false ->
  ptx_live cfg s' -> ptx_timed cfg s' -> ptx_awaits s' -> ptx_base s'.
Proof.
  intros [Hl Hd Hc Hp] Hm Hst Hl' Hti' Haw'. destruct (ptx_core_fields _ _ (mv_core _ _ _ Hm)) as (En & Es & Eb & Ebuf & _ & Ep & Etk & Ec & Eu).
  destruct (lv_order _ _ Hl'). constructor; rewrite ?Ep, ?Es, ?En; try done; [by rewrite Hst|lia].
Qed.

Lemma ptx_moves_tokens s s' out n halted :
  ptx_moves s s' out -> ptx_tokens n halted s -> ptx_tokens n halted s' /\ ptx_in_flight s' = ptx_in_flight s.
Proof.
  intros Hm. destruct (ptx_core_fields _ _ (mv_core _ _ _ Hm)) as (En & Es & Eb & Ebuf & _ & Ep & Etk & Ec & Eu).
  unfold ptx_tokens, ptx_in_flight. by rewrite Etk, Ec, Eu.
Qed.

(** An event that succeeds. *)
Definition ptx_succeeds (g : bool) (r : checked (pdcp_tx_entity W * list pdcp_tx_output)) (offered : list (list Z))
    (halted : bool) s : Prop :=
  exists s' out, r = Ok (s', out) /\ ptx_inv halted s' /\ ptx_effect g s s' offered out.

Lemma ptx_succeeds_same g halted s out : ptx_inv halted s -> silent out -> ptx_succeeds g (Ok (s, out)) [] halted s.
Proof. intros Hinv Ho. exists s, out. split; [done|]. split; [done|]. by apply ptx_effect_quiet. Qed.

(** ** The UE executor *)

Hypothesis Hcfg : ptx_cfg_ok cfg.

Lemma ptx_cfg_facts : ptx_has_discard_timer cfg = true /\ sn_size_ok (ptx_sn_size cfg).
Proof.
  destruct Hcfg as ([Hsz _] & _ & _ & _ & d & Hd & _). split; [|done]. unfold ptx_has_discard_timer. by rewrite Hd.
Qed.

(** The timer of the reordering is set. *)
Lemma ptx_timers_effect g s r t :
  ptx_effect g s (s <| ptx_reord_crypto := r |> <| ptx_crypto_reordering_timer := t |>) [] [].
Proof. apply ptx_effect_quiet; try done. intros hist []. by constructor. Qed.

(** A protected PDU in its place. *)
Lemma ptx_stored_tracks hist s s1 count pdu :
  ptx_stored cfg s s1 count pdu -> ptx_tracks hist s -> sealed hist count pdu -> ptx_tracks hist s1.
Proof.
  intros (w & e & -> & Ev & _ & Hv) [Tc Tu Tw Tn] Hse. constructor; [done|done| |].
  - intros c e'. rewrite Hv. case_decide; [|apply Tw]. intros [= <-]. subst c. by right.
  - intros c e'. rewrite Hv. case_decide; [|apply Tn]. intros [= <-]. subst c. destruct (Tn _ _ Ev) as (sdu & ? & ?). by exists sdu.
Qed.

Lemma ptx_run_ue_spec halted now s : ptx_inv halted s -> ptx_succeeds true (ptx_run_ue cfg now s) [] halted s.
Proof.
  intros [Hb Ht]. destruct ptx_cfg_facts as [Htm Hsz]. unfold ptx_run_ue.
  destruct (ptx_ue_tasks s) as [|task tasks] eqn:Eu; [by apply ptx_succeeds_same|].
  set (s0 := s <| ptx_ue_tasks := tasks |>).
  assert (ptx_base s0) as Hb0 by (apply (ptx_base_ext s); done || apply Hb).
  assert (forall hist, ptx_tracks hist s -> ptx_tracks hist s0 /\
    forall info, tx_task_info task = Some info -> sealed hist (tbi_count info) (tbi_buf info)) as Htr.
  { intros hist [Tc Tu Tw Tn]. rewrite Eu in Tu. change (task :: tasks) with ([task] ++ tasks) in Tu.
    rewrite omap_app in Tu. apply Forall_app in Tu as [Tu1 Tu2]. split; [by constructor|].
    intros info Ei. cbn [omap list_omap] in Tu1. rewrite Ei in Tu1. by apply Forall_cons in Tu1 as [? _]. }
  assert (ptx_effect true s s0 [] []) as He0.
  { apply ptx_effect_quiet; try done. intros hist Hh _. by apply Htr. }
  destruct task as [info|err].
  2:{ exists s0. eexists. split; [done|]. split; [split; [done|]|].
      - change (ptx_tokens (ptx_in_flight s) halted s) in Ht. unfold ptx_in_flight in *. rewrite Eu in Ht. done.
      - apply ptx_effect_quiet; try done. intros hist Hh _. by apply Htr. }
  assert (ptx_in_flight s = ptx_in_flight s0 + 1) as Ein.
  { unfold ptx_in_flight, s0, field_update. cbn. rewrite Eu. cbn. rewrite zlen_cons. lia. }
  assert (0 <= ptx_in_flight s0) as Hpos by (unfold ptx_in_flight, zlen; lia). rewrite Ein in Ht.
  destruct (ptx_apply_reordering_spec cfg now info s0 Htm Hsz) as [-> |(s1 & s2 & s' & out & -> & Hst & Hsto & Hm & Hl2 & Hti2 & Hp & r & t & -> & Hl' & Hti' & Haw' & _)];
    [apply Hb0| |].
  - cbn [checked_bind]. destruct (ptx_return_token_spec _ halted s0 Ht) as (m & -> & Hm); [lia|]. cbn [checked_bind].
    eexists _, _. split; [done|]. rewrite Z.add_simpl_r in Hm. split; [split; [|done]|].
    + apply (ptx_base_ext s0); done || apply Hb0.
    + apply (ptx_effect_then _ s s0); [done|]. apply ptx_effect_quiet; try done. intros hist [] _. by constructor.
  - cbn [checked_bind]. set (s' := s2 <| ptx_reord_crypto := r |> <| ptx_crypto_reordering_timer := t |>) in *.
    pose proof Hsto as (w & e & Es1 & _ & Hl1 & _).
    assert (ptx_base s1) as Hb1.
    { destruct Hb0 as [L D C P]. constructor; subst s1; try done.
      - intros Hs. split; [done|]. destruct (L Hs) as (_ & ? & ?). by split.
      - intros Hs. change (ptx_stopped s0 = true) in Hs. congruence. }
    assert (ptx_tokens (ptx_in_flight s0 + 1) halted s1 /\ ptx_in_flight s1 = ptx_in_flight s0) as [Ht1 Ei1] by (by subst s1).
    destruct (ptx_moves_tokens _ _ _ _ _ Hm Ht1) as [Ht2 Ei2].
    assert (ptx_base s') as Hb'.
    { pose proof (mv_core _ _ _ Hm) as C. destruct (ptx_core_fields _ _ C) as (En & Es & _ & _ & _ & Ep & _).
      assert (ptx_stopped s2 = false) as Hs2 by (rewrite Es; by subst s1).
      destruct (lv_order _ _ Hl'). constructor.
      - done.
      - intros Hs. change (ptx_stopped s2 = true) in Hs. congruence.
      - lia.
      - change (zlen (ptx_sec_engine_pool s2) = ptx_max_nof_crypto_workers cfg). rewrite Ep. apply Hb1. }
    destruct (ptx_return_token_spec (ptx_in_flight s0 + 1) halted s' Ht2) as (m & -> & Hm'); [lia|]. cbn [checked_bind].
    eexists _, _. split; [done|]. rewrite Z.add_simpl_r in Hm'. split; [split|].
    + apply (ptx_base_ext s'); done || apply Hb'.
    + change (ptx_tokens (ptx_in_flight s2) halted (s' <| ptx_token_mngr := m |>)). by rewrite Ei2, Ei1.
    + apply (ptx_effect_then _ s s1).
      { apply ptx_effect_quiet; try done; try (by subst s1). intros hist Hh _. destruct (Htr hist Hh) as [Hh0 Hse].
        apply (ptx_stored_tracks hist s0 s1 (tbi_count info) (tbi_buf info)); [done|done|by apply Hse]. }
      apply (ptx_effect_after _ s1 s2). { apply ptx_moves_effect; [done|]. intros _. by subst s1. }
      apply (ptx_effect_then _ s2 s'); [apply ptx_timers_effect|].
      apply ptx_effect_quiet; try done. intros hist [] _. by constructor.
Qed.

(** ** The crypto executor *)

(** A worker of the pool, and an engine that succeeds. *)
Definition ptx_crypto_ok s (i : nat) (worker_idx : Z) (append : bool) : Prop :=
  0 <= worker_idx < ptx_max_nof_crypto_workers cfg /\
  forall info eng, ptx_crypto_tasks s !! i = Some info ->
    ptx_sec_engine_pool s !! Z.to_nat worker_idx = Some (Some eng) ->
    exists result pdu, encrypt_and_protect_integrity append eng (tbi_buf info) (pdcp_data_pdu_header_size (ptx_sn_size cfg))
      (tbi_count info) = Ok result /\ sr_buf result = inl pdu.

Lemma ptx_hdr_size : (if bool_decide (ptx_sn_size cfg = pdcp_size12bits) then 2 else 3) = pdcp_data_pdu_header_size (ptx_sn_size cfg).
Proof. destruct ptx_cfg_facts as [_ Hsz]. unfold sn_size_ok in Hsz. by destruct (ptx_sn_size cfg). Qed.

Lemma apply_ciphering_spec s i worker_idx append info :
  zlen (ptx_sec_engine_pool s) = ptx_max_nof_crypto_workers cfg -> ptx_crypto_ok s i worker_idx append ->
  ptx_crypto_tasks s !! i = Some info ->
  exists result, apply_ciphering_and_integrity_protection cfg worker_idx append (tbi_buf info) (tbi_count info) s = Ok result.
Proof.
  intros Hpool [Hw Heng] Ei. unfold apply_ciphering_and_integrity_protection. rewrite (proj2 (Z.leb_gt _ _)) by lia.
  destruct (lookup_lt_is_Some_2 (ptx_sec_engine_pool s) (Z.to_nat worker_idx)) as [e E]; [unfold zlen in Hpool; lia|].
  rewrite E. destruct e as [eng|]; [|by eexists]. rewrite ptx_hdr_size.
  destruct (Heng info eng Ei E) as (result & pdu & -> & Hr). cbn [checked_bind]. rewrite Hr. by eexists.
Qed.

(** A task of a worker is done. *)
Lemma ptx_crypto_taken halted s i info :
  ptx_inv halted s -> ptx_crypto_tasks s !! i = Some info ->
  let s0 := s <| ptx_crypto_tasks ::= delete i |> in
  ptx_base s0 /\ ptx_tokens (ptx_in_flight s0 + 1) halted s0 /\ 0 <= ptx_in_flight s0 /\
  forall hist, ptx_tracks hist s -> ptx_tracks hist s0 /\
    exists sdu, (tbi_count info, sdu) ∈ hist /\ tbi_buf info = framed (tbi_count info) sdu.
Proof.
  intros [Hb Ht] Ei s0.
  assert (zlen (delete i (ptx_crypto_tasks s)) = zlen (ptx_crypto_tasks s) - 1) as Elen.
  { unfold zlen. rewrite length_delete by done. apply lookup_lt_Some in Ei. lia. }
  split; [apply (ptx_base_ext s); done || apply Hb|]. split; [|split].
  - unfold ptx_in_flight in *. change (ptx_ue_tasks s0) with (ptx_ue_tasks s).
    change (ptx_crypto_tasks s0) with (delete i (ptx_crypto_tasks s)). rewrite Elen.
    change (ptx_tokens (zlen (ptx_crypto_tasks s) - 1 + zlen (omap tx_task_info (ptx_ue_tasks s)) + 1) halted s).
    by replace (zlen (ptx_crypto_tasks s) - 1 + zlen (omap tx_task_info (ptx_ue_tasks s)) + 1) with
      (zlen (ptx_crypto_tasks s) + zlen (omap tx_task_info (ptx_ue_tasks s))) by lia.
  - unfold ptx_in_flight, zlen. lia.
  - intros hist [Tc Tu Tw Tn]. split; [constructor; [by apply Forall_delete|done..]|].
    by eapply Forall_lookup_1 in Tc; [|exact Ei].
Qed.

(** The task that follows in the UE executor. *)
Lemma ptx_to_ue_base s l :
  ptx_base s -> ptx_base (s <| ptx_ue_tasks := l |>).
Proof. intros Hb. apply (ptx_base_ext s); done || apply Hb. Qed.

Lemma ptx_returned g halted s :
  ptx_base s -> ptx_tokens (ptx_in_flight s + 1) halted s -> 0 <= ptx_in_flight s ->
  exists s', ptx_return_token s = Ok s' /\ ptx_inv halted s' /\ ptx_effect g s s' [] [].
Proof.
  intros Hb Ht Hn. destruct (ptx_return_token_spec _ halted s Ht) as (m & -> & Hm); [lia|]. rewrite Z.add_simpl_r in Hm.
  eexists. split; [done|]. split; [split; [|done]|].
  - apply (ptx_base_ext s); done || apply Hb.
  - apply ptx_effect_quiet; try done. intros hist [] _. by constructor.
Qed.

Lemma ptx_run_crypto_spec halted s i worker_idx append accepted :
  ptx_inv halted s -> ptx_crypto_ok s i worker_idx append ->
  ptx_succeeds true (quietly (ptx_run_crypto cfg i worker_idx append accepted s)) [] halted s.
Proof.
  intros Hinv Hok. unfold ptx_run_crypto. destruct (ptx_crypto_tasks s !! i) as [info|] eqn:Ei; [|by apply ptx_succeeds_same].
  destruct (ptx_crypto_taken halted s i info Hinv Ei) as (Hb0 & Ht0 & Hn0 & Htr). set (s0 := s <| ptx_crypto_tasks ::= delete i |>) in *.
  destruct (apply_ciphering_spec s i worker_idx append info) as (result & Hr); [apply Hinv|done|done|].
  unfold ptx_apply_security. change (apply_ciphering_and_integrity_protection cfg worker_idx append (tbi_buf info) (tbi_count info) s0)
    with (apply_ciphering_and_integrity_protection cfg worker_idx append (tbi_buf info) (tbi_count info) s).
  rewrite Hr. cbn [checked_bind].
  assert (ptx_effect true s s0 [] []) as He0.
  { apply ptx_effect_quiet; try done. intros hist Hh _. by apply Htr. }
  destruct (sr_buf result) as [pdu|err] eqn:Er.
  - destruct accepted; cbn [checked_bind].
    + set (info' := mk_pdcp_tx_buffer_info _ _ _ pdu). unfold quietly. cbn [checked_bind]. eexists _, _. split; [done|].
      split; [split; [by apply ptx_to_ue_base|]|].
      * unfold ptx_in_flight, field_update in *. cbn. rewrite omap_app. cbn. rewrite zlen_app.
        change (zlen [info']) with 1. rewrite Z.add_assoc. exact Ht0.
      * apply ptx_effect_quiet; try done. intros hist Hh Hs. destruct (Htr hist Hh) as [[Tc Tu Tw Tn] (sdu & Hin & Eb)].
        constructor; unfold field_update; cbn; [done| |done|done]. rewrite omap_app. apply Forall_app. split; [done|].
        cbn. apply Forall_cons_2; [|done]. exists sdu. split; [done|]. cbn. rewrite <- Eb. by eapply Hs.
    + destruct (ptx_returned true halted s0 Hb0 Ht0 Hn0) as (s' & -> & Hinv' & He'). unfold quietly. cbn [checked_bind].
      eexists _, _. split; [done|]. split; [done|]. by apply (ptx_effect_then _ s s0).
  - set (s1 := if accepted then s0 <| ptx_ue_tasks ::= fun l => l ++ [TxHandleFailure err] |> else s0).
    assert (ptx_base s1 /\ ptx_tokens (ptx_in_flight s1 + 1) halted s1 /\ 0 <= ptx_in_flight s1 /\ ptx_effect true s0 s1 [] [])
      as (Hb1 & Ht1 & Hn1 & He1).
    { unfold s1. destruct accepted; [|split_and!; try done; by apply ptx_effect_quiet].
      assert (ptx_in_flight (s0 <| ptx_ue_tasks ::= fun l => l ++ [TxHandleFailure err] |>) = ptx_in_flight s0) as Ef.
      { unfold ptx_in_flight, field_update. cbn. rewrite omap_app. cbn. by rewrite app_nil_r. }
      rewrite Ef. split_and!; try done; [by apply ptx_to_ue_base|]. apply ptx_effect_quiet; try done.
      intros hist [Tc Tu Tw Tn] _. constructor; unfold field_update; cbn; [done| |done|done]. rewrite omap_app. cbn. by rewrite app_nil_r. }
    destruct (ptx_returned true halted s1 Hb1 Ht1 Hn1) as (s' & -> & Hinv' & He'). unfold quietly. cbn [checked_bind].
    eexists _, _. split; [done|]. split; [done|]. apply (ptx_effect_then _ s s0); [done|]. by apply (ptx_effect_then _ s0 s1).
Qed.

(** ** Timers and notifications *)

(** Removal from the window. *)
Lemma ptx_trims_succeeds g halted s s' out :
  ptx_inv halted s -> ptx_stopped s = false -> ptx_trims s s' -> ptx_live cfg s' -> ptx_timed cfg s' -> silent out ->
  ptx_inv halted s' /\ ptx_effect g s s' [] out.
Proof.
  intros [Hb Ht] Hst Htr Hl' Hti' Hsil. pose proof (ptx_trims_moves s s' out Htr Hsil) as Hm.
  destruct (ptx_moves_tokens _ _ _ _ _ Hm Ht) as [Ht' Ef]. destruct (tb_live _ Hb Hst) as (Hl & Hti & Haw).
  destruct (ptx_core_fields _ _ (tr_core _ _ Htr)) as (En & _). split.
  - split; [|by rewrite Ef]. apply (ptx_moves_base s s' out); try done. unfold ptx_awaits.
    by rewrite (tr_timer _ _ Htr), (tr_crypto _ _ Htr), (tr_reord _ _ Htr), En.
  - apply ptx_moves_effect; [done|]. intros _. destruct Hsil as [_ ->]. by rewrite (tr_crypto _ _ Htr), Z.sub_diag.
Qed.

Lemma ptx_trims_ok_succeeds g halted s r :
  ptx_inv halted s -> ptx_stopped s = false -> ptx_trims_ok cfg r s -> ptx_succeeds g (quietly r) [] halted s.
Proof.
  intros Hinv Hst (s' & -> & Htr & Hl' & Hti'). destruct (tb_live _ (proj1 Hinv) Hst) as (Hl & Hti & Haw).
  unfold quietly. cbn [checked_bind]. exists s', []. split; [done|].
  apply ptx_trims_succeeds; try done. by apply Hti'.
Qed.

Lemma ptx_expired_spec halted now s :
  ptx_inv halted s -> is_Some (ptx_discard_expiry s) -> ptx_expiry_ok s ->
  ptx_succeeds true (discard_callback cfg now (s <| ptx_discard_expiry := None |>)) [] halted s.
Proof.
  intros [Hb Ht] Hexp Hok. destruct ptx_cfg_facts as [Htm Hsz].
  destruct (ptx_stopped s) eqn:Hst; [destruct (tb_dead _ Hb Hst) as (_ & _ & E & _); rewrite E in Hexp; by destruct Hexp|].
  destruct (tb_live _ Hb Hst) as (Hl & [Hti Hfin] & Haw). set (s0 := s <| ptx_discard_expiry := None |>).
  destruct (discard_callback_spec cfg now s0 Htm Hsz) as (s' & out & -> & Htr & Hl' & Hti' & Hsil & _); try done.
  { by apply Hfin. } { by apply ptx_live_expiry. }
  eexists _, _. split; [done|]. apply ptx_trims_succeeds; try done.
  apply (ptx_trims_trans _ s0); [by apply ptx_trims_expiry, ptx_trims_refl|done].
Qed.

Lemma ptx_reordering_expired_spec halted now s :
  ptx_inv halted s -> ptx_crypto_reordering_timer s = true ->
  ptx_succeeds false (crypto_reordering_timeout cfg now (s <| ptx_crypto_reordering_timer := false |>)) [] halted s.
Proof.
  intros [Hb Ht] Hon. destruct ptx_cfg_facts as [Htm Hsz].
  destruct (ptx_stopped s) eqn:Hst; [destruct (tb_dead _ Hb Hst) as (_ & _ & _ & E); congruence|].
  destruct (tb_live _ Hb Hst) as (Hl & Hti & Haw). set (s0 := s <| ptx_crypto_reordering_timer := false |>).
  assert (ptx_live cfg s0) as Hl0 by (destruct Hl; by constructor).
  destruct (crypto_reordering_timeout_spec cfg now s0 Htm Hsz Hl0) as (s2 & s' & out & -> & Hm & _ & Hl' & Hti' & Haw' & r & t & -> & _);
    try done. { by apply Haw. }
  set (s' := s2 <| ptx_reord_crypto := r |> <| ptx_crypto_reordering_timer := t |>) in *.
  eexists _, _. split; [done|]. assert (ptx_tokens (ptx_in_flight s0) halted s0) as Ht0 by done.
  destruct (ptx_moves_tokens _ _ _ _ _ Hm Ht0) as [Ht2 Ef].
  destruct (ptx_core_fields _ _ (mv_core _ _ _ Hm)) as (En & Es & _ & _ & _ & Ep & _). split; [split|].
  - destruct (lv_order _ _ Hl'). constructor; [done| |lia|].
    + intros Hs. change (ptx_stopped s2 = true) in Hs. rewrite Es in Hs. change (ptx_stopped s = true) in Hs. congruence.
    + change (zlen (ptx_sec_engine_pool s2) = ptx_max_nof_crypto_workers cfg). rewrite Ep. apply Hb.
  - change (ptx_tokens (ptx_in_flight s2) halted s2). by rewrite Ef.
  - apply (ptx_effect_then _ s s0). { apply ptx_effect_quiet; try done. intros hist [] _. by constructor. }
    apply (ptx_effect_after _ s0 s2); [by apply ptx_moves_effect|apply ptx_timers_effect].
Qed.

(** ** SDUs *)

Lemma ptx_prepare_spec count sdu :
  ptx_prepare cfg true count sdu = Ok (Some (framed count sdu)).
Proof.
  destruct Hcfg as (Hb & _). pose proof Hb as [Hsz _].
  assert (0 <= ptx_SN cfg count < 2 ^ pdcp_to_number (ptx_sn_size cfg)) as Hsn.
  { unfold ptx_SN. rewrite compute_sn_spec by done. apply Z.mod_pos_bound. apply Z.pow_pos_nonneg; [lia|].
    destruct (pdcp_sizes _ Hsz). lia. }
  destruct (pdcp_header_bytes (ptx_is_srb cfg) (ptx_sn_size cfg) (ptx_SN cfg count) Hb Hsn) as [Hw Hh].
  unfold ptx_prepare, framed. rewrite Hw. cbn [checked_bind]. rewrite bool_decide_eq_false_2; [done|].
  rewrite Hh. unfold sn_size_ok in Hsz. by destruct (ptx_sn_size cfg).
Qed.

(** A new SDU in the window. *)
Lemma ptx_added_live s info len :
  ptx_live cfg s -> ptx_next s < 2 ^ 32 - 1 -> ptx_next s - ptx_next_ack s < ptx_window_size cfg ->
  tsi_count info = ptx_next s -> (ptx_finite cfg -> is_Some (tsi_tick_point_of_arrival info)) ->
  exists w, ptw_add_sdu info len (ptx_window s) = Ok w /\
    let s' := s <| ptx_window := w |> <| ptx_next := u32 (ptx_next s + 1) |> in
    ptx_live cfg s' /\ ptx_next s' = ptx_next s + 1 /\
    forall c, ptx_view s' c = if decide (c = ptx_next s) then Some (mk_pdcp_tx_window_element info [] len) else ptx_view s c.
Proof.
  intros Hl Hn Hw Hi Ht. destruct (lv_order _ _ Hl) as [Ho Ho']. destruct ptx_cfg_facts as [_ Hsz].
  pose proof (ptx_window_size_range cfg Hsz) as Hws.
  destruct (ptw_add_ok _ _ _ _ info len (lv_window _ _ Hl)) as (w & -> & Hok & Hv); [lia|lia|done|].
  exists w. split; [done|]. rewrite wrap_small by (unfold in_range; lia). cbv zeta.
  set (s' := s <| ptx_window := w |> <| ptx_next := ptx_next s + 1 |>).
  assert (forall c, ptx_view s' c = if decide (c = ptx_next s) then Some (mk_pdcp_tx_window_element info [] len) else ptx_view s c)
    as Hv' by exact Hv.
  assert (ptx_next s' = ptx_next s + 1 /\ ptx_next_ack s' = ptx_next_ack s /\ ptx_trans s' = ptx_trans s /\
    ptx_trans_crypto s' = ptx_trans_crypto s) as (En & Ea & Et & Ec) by done.
  split; [|by split]. constructor; rewrite ?En, ?Ea, ?Et, ?Ec; [lia|apply Hl|done|lia| | |].
  - intros c Hc. rewrite Hv'. case_decide; [by eexists|]. apply (lv_pending _ _ Hl). lia.
  - intros Hlt. rewrite Hv'. case_decide; [by eexists|]. apply (lv_oldest _ _ Hl). lia.
  - intros Hf c e. rewrite Hv'. case_decide; [intros [= <-]; by apply Ht|by apply (lv_ticks _ _ Hl Hf)].
Qed.

(** A PDU for the crypto executor. *)
Lemma ptx_execute_crypto_spec halted s accepted info :
  ptx_inv halted s -> ptx_in_flight s + 1 < 2 ^ 32 - 1 ->
  exists s' l m, ptx_execute_crypto accepted info s = Ok s' /\
    s' = s <| ptx_crypto_tasks := l |> <| ptx_token_mngr := m |> /\
    (l = ptx_crypto_tasks s \/ l = ptx_crypto_tasks s ++ [info]) /\
    ptx_inv halted s' /\ ptx_in_flight s' <= ptx_in_flight s + 1 /\
    forall hist, ptx_tracks hist s ->
      (exists sdu, (tbi_count info, sdu) ∈ hist /\ tbi_buf info = framed (tbi_count info) sdu) -> ptx_tracks hist s'.
Proof.
  intros [Hb Ht] Hn. unfold ptx_execute_crypto.
  assert (ptx_tokens (ptx_in_flight s + 1) halted (s <| ptx_token_mngr ::= increment_token |>)) as Ht1
    by (by apply token_balance_increment).
  assert (0 <= ptx_in_flight s) as Hpos by (unfold ptx_in_flight, zlen; lia).
  destruct accepted.
  - exists (s <| ptx_token_mngr ::= increment_token |> <| ptx_crypto_tasks ::= fun l => l ++ [info] |>).
    exists (ptx_crypto_tasks s ++ [info]), (increment_token (ptx_token_mngr s)).
    split; [done|]. split; [by destruct s|]. split; [by right|].
    assert (ptx_in_flight (s <| ptx_token_mngr ::= increment_token |> <| ptx_crypto_tasks ::= fun l => l ++ [info] |>)
      = ptx_in_flight s + 1) as Ef.
    { unfold ptx_in_flight, field_update. cbn. rewrite zlen_app. change (zlen [info]) with 1. lia. }
    split; [split; [apply (ptx_base_ext s); done || apply Hb|by rewrite Ef]|]. split; [by rewrite Ef|].
    intros hist [Tc Tu Tw Tn] Hinfo. constructor; unfold field_update; cbn; [|done..].
    apply Forall_app. split; [done|]. by apply Forall_cons_2.
  - destruct (ptx_return_token_spec _ halted _ Ht1) as (m & -> & Hm); [lia|].
    exists (s <| ptx_token_mngr := m |>), (ptx_crypto_tasks s), m.
    split; [by destruct s|]. split; [by destruct s|]. split; [by left|]. rewrite Z.add_simpl_r in Hm.
    split; [split; [apply (ptx_base_ext s); done || apply Hb|done]|]. split; [change (ptx_in_flight s <= ptx_in_flight s + 1); lia|].
    intros hist [] _. by constructor.
Qed.

(** The environment of an SDU: there is room for its header, and in the window. *)
Definition ptx_room s (n : Z) : Prop :=
  ptx_in_flight s + n < 2 ^ 32 - 1 /\ (ptx_is_srb cfg = true -> ptx_next s - ptx_next_ack s + n <= ptx_window_size cfg).

(** What the handling of one SDU does. *)
Record ptx_takes_in (g : bool) (halted : bool) s s' (buf : list Z) (out : list pdcp_tx_output) : Prop := mk_ptx_takes_in {
  ki_inv : ptx_inv halted s';
  ki_acts : ptx_acts g s s' out;
  ki_nums : (nums_of out).*2 `sublist_of` [buf];
  ki_buffer : ptx_sdu_buffer s' = ptx_sdu_buffer s;
  ki_buffering : ptx_buffering s' = ptx_buffering s;
  ki_stopped : ptx_stopped s' = ptx_stopped s;
  ki_room n : ptx_room s (n + 1) -> ptx_room s' n;
}.

Lemma ptx_takes_in_quiet g halted s s' buf out :
  ptx_inv halted s' -> silent out -> ptx_next s' = ptx_next s -> ptx_next_ack s' = ptx_next_ack s ->
  ptx_trans_crypto s' = ptx_trans_crypto s ->
  ptx_sec_engine_pool s' = ptx_sec_engine_pool s -> ptx_sdu_buffer s' = ptx_sdu_buffer s ->
  ptx_buffering s' = ptx_buffering s -> ptx_stopped s' = ptx_stopped s ->
  ptx_in_flight s' = ptx_in_flight s ->
  (forall hist, ptx_tracks hist s -> ptx_tracks hist s') -> ptx_takes_in g halted s s' buf out.
Proof.
  intros Hinv Hsil En Ea Et Ep Ebuf Eb Es Ef Htr. constructor; try done.
  - apply ptx_acts_quiet; try done. intros hist Hh _. by apply Htr.
  - destruct Hsil as [-> _]. cbn. apply sublist_nil_l.
  - intros n [H1 H2]. unfold ptx_room. rewrite Ef, En, Ea. split; [lia|]. intros Hs. specialize (H2 Hs). lia.
Qed.

(** The discard timer is started with the first SDU. *)
Lemma ptx_started_live s x halted :
  ptx_inv halted s -> ptx_stopped s = false -> (ptx_finite cfg -> is_Some x) -> (is_Some x -> ptx_finite cfg) ->
  let s' := s <| ptx_discard_expiry := x |> in
  ptx_inv halted s' /\ ptx_live cfg s' /\ forall s2, ptx_discard_expiry s2 = x -> ptx_timed cfg s2.
Proof.
  intros [Hb Ht] Hst H1 H2 s'. destruct (tb_live _ Hb Hst) as (Hl & Hti & Haw).
  assert (forall s2, ptx_discard_expiry s2 = x -> ptx_timed cfg s2) as Hx by (intros s2 E; unfold ptx_timed; rewrite E; split; [intros ? _; by apply H1|done]).
  split; [split; [|done]|split; [by apply ptx_live_expiry|done]].
  constructor; try apply Hb.
  - intros _. split; [by apply ptx_live_expiry|]. split; [by apply Hx|done].
  - intros Hs. change (ptx_stopped s = true) in Hs. congruence.
Qed.

Lemma ptx_admit_spec halted env buf s :
  ptx_inv halted s -> ptx_stopped s = false -> ptx_hdr_ok env = true -> ptx_room s 1 ->
  ptx_next s < 2 ^ 32 - 1 -> ptx_next s - ptx_next_ack s < ptx_window_size cfg ->
  exists s' out, ptx_admit cfg env buf s = Ok (s', out) /\ ptx_takes_in true halted s s' buf out.
Proof.
  intros Hinv Hst Hhdr Hroom Hn Hw. destruct (tb_live _ (proj1 Hinv) Hst) as (Hl & [Hti Hfin] & Haw). unfold ptx_admit.
  destruct Hcfg as (_ & _ & _ & _ & d & Hd & _). rewrite Hd.
  set (tick := if d =? -1 then None else Some (ptx_now env)).
  assert (ptx_finite cfg <-> d <> -1) as Hf.
  { split; [intros (d' & Hd' & Hne); congruence|intros Hne; by exists d]. }
  assert (ptx_finite cfg -> is_Some tick) as Htick.
  { intros Hne%Hf. unfold tick. rewrite (proj2 (Z.eqb_neq _ _)) by done. by eexists. }
  assert (exists x, match tick, ptx_discard_expiry s with
    | Some _, None => ptx_run_discard_timer (ptx_now env) d s | _, _ => s end = s <| ptx_discard_expiry := x |> /\
    (ptx_finite cfg -> is_Some x) /\ (is_Some x -> ptx_finite cfg)) as (x & -> & Hx1 & Hx2).
  { destruct tick as [t|] eqn:Et.
    - assert (ptx_finite cfg) as Hfi. { apply Hf. intros ->. done. }
      destruct (ptx_discard_expiry s) as [e|] eqn:Ee.
      + exists (Some e). split; [by destruct s; cbn in *; subst|by split; [eexists|]].
      + eexists. split; [done|]. by split; [eexists|].
    - exists (ptx_discard_expiry s). split; [destruct (ptx_discard_expiry s) eqn:Ee; destruct s; cbn in Ee; by subst|].
      split; [intros Hfi; by destruct (Htick Hfi)|done]. }
  destruct (ptx_started_live s x halted Hinv Hst Hx1 Hx2) as (Hinv0 & Hl0 & Hx). set (s0 := s <| ptx_discard_expiry := x |>) in *.
  set (stores := ptx_has_discard_timer cfg && ptx_is_am cfg).
  destruct (stores && negb (ptx_copy_ok env)).
  { eexists _, _. split; [done|]. apply ptx_takes_in_quiet; try done. intros hist []. by constructor. }
  set (info := mk_pdcp_tx_window_sdu_info _ (ptx_next s0) tick).
  destruct (ptx_added_live s0 info (u32 (zlen buf)) Hl0 Hn Hw eq_refl Htick) as (w & -> & Hl2 & En2 & Hv2). cbn [checked_bind].
  rewrite Hhdr, ptx_prepare_spec. cbn [checked_bind]. cbv zeta in Hl2, En2, Hv2.
  change (ptx_next s0) with (ptx_next s) in *.
  set (s2 := s0 <| ptx_window := w |> <| ptx_next := u32 (ptx_next s + 1) |>) in *.
  assert (ptx_inv halted s2) as Hinv2.
  { split; [|apply Hinv]. constructor; try apply Hinv.
    - intros _. split; [done|]. split; [by apply Hx|]. intros Hc. specialize (Haw Hc).
      change (ptx_trans_crypto s <= ptx_reord_crypto s <= ptx_next s2). lia.
    - intros Hs. change (ptx_stopped s = true) in Hs. congruence.
    - destruct (lv_order _ _ Hl2). lia. }
  destruct Hroom as [Hr1 Hr2].
  destruct (ptx_execute_crypto_spec halted s2 (ptx_exec_ok env)
    (mk_pdcp_tx_buffer_info false (ptx_retransmit_id s) (ptx_next s) (framed (ptx_next s) buf)) Hinv2 Hr1)
    as (s3 & l & m & E3 & -> & Hlist & Hinv3 & Hfl & Htr3).
  change (ptx_retransmit_id (s0 <| ptx_window := w |>)) with (ptx_retransmit_id s). rewrite E3. cbn [checked_bind].
  set (s3 := s2 <| ptx_crypto_tasks := l |> <| ptx_token_mngr := m |>) in *.
  set (out := PdcpTxNumbered (ptx_next s) buf :: _). exists s3, out. split; [done|].
  assert (nums_of out = [(ptx_next s, buf)] /\ pdus_of out = []) as [Enums Epdus] by (unfold out; by destruct (ptx_exec_ok env)).
  constructor; try done; rewrite ?Enums.
  - assert (ptx_next s3 = ptx_next s + 1 /\ ptx_trans_crypto s3 = ptx_trans_crypto s) as [En3 Ec3] by done.
    constructor; rewrite ?Enums, ?Epdus, ?En3, ?Ec3, ?Z.sub_diag; try done || lia; try by constructor.
    + replace (ptx_next s + 1 - ptx_next s) with 1 by lia. rewrite seqZ_cons, seqZ_nil by lia. done.
    + intros hist Hh _. apply (ptx_tracks_mono _ [(ptx_next s, buf)]) in Hh. apply Htr3.
      * destruct Hh as [Tc Tu Tw Tn]. constructor; [done|done| |].
        -- intros c e. rewrite Hv2. case_decide; [|apply Tw]. intros [= <-]. by left.
        -- intros c e. rewrite Hv2. case_decide; [|apply Tn]. intros [= <-]. subst c. exists buf. split; [|done].
           apply elem_of_app. right. by apply list_elem_of_singleton.
      * exists buf. split; [|done]. apply elem_of_app. right. by apply list_elem_of_singleton.
  - done.
  - intros n [Hn1 Hn2]. change (ptx_in_flight s2) with (ptx_in_flight s) in *. split; [lia|]. intros Hs. specialize (Hn2 Hs).
    change (ptx_next s2 - ptx_next_ack s + n <= ptx_window_size cfg). lia.
Qed.

(** Changes that nothing of the invariant sees. *)
Lemma ptx_flags_inv halted s b1 b2 :
  ptx_inv halted s -> ptx_inv halted (s <| ptx_max_count_notified := b1 |> <| ptx_max_count_overflow := b2 |>).
Proof. intros [Hb Ht]. split; [|done]. apply (ptx_base_ext s); done || apply Hb. Qed.

(** Outputs and flags in front. *)
Lemma ptx_takes_in_flags g halted s s' buf b1 b2 out1 out2 :
  silent out1 -> let s1 := s <| ptx_max_count_notified := b1 |> <| ptx_max_count_overflow := b2 |> in
  ptx_takes_in g halted s1 s' buf out2 -> ptx_takes_in g halted s s' buf (out1 ++ out2).
Proof.
  intros Hsil s1 [I A N B F S R]. constructor; try done.
  - apply (ptx_acts_trans g s s1 s' out1 out2); [|done]. apply ptx_acts_quiet; try done. intros hist [] _. by constructor.
  - destruct Hsil as [E _]. by rewrite nums_of_app, E.
Qed.

Lemma ptx_handle_sdu_spec halted env buf s :
  ptx_inv halted s -> ptx_stopped s = true \/ ptx_buffering s = false -> ptx_hdr_ok env = true -> ptx_room s 1 ->
  exists s' out, ptx_handle_sdu cfg env buf s = Ok (s', out) /\ ptx_takes_in true halted s s' buf out.
Proof.
  intros Hinv Hbuf Hhdr Hroom. unfold ptx_handle_sdu.
  assert (forall out, silent out -> ptx_takes_in true halted s s buf out) as Hq by (intros out Ho; by apply ptx_takes_in_quiet).
  destruct (ptx_stopped s) eqn:Hst; [eexists _, _; split; [done|]; by apply Hq|].
  destruct (ptx_buffering s) eqn:Eb; [by destruct Hbuf|].
  destruct (negb (ptx_is_srb cfg) && check_early_drop cfg buf s) eqn:Ed; [eexists _, _; split; [done|]; by apply Hq|].
  assert (forall b1 b2 s2 out1 out2, silent out1 ->
    ptx_takes_in true halted (s <| ptx_max_count_notified := b1 |> <| ptx_max_count_overflow := b2 |>) s2 buf out2 ->
    ptx_takes_in true halted s s2 buf (PdcpTxMetricSdus 1 (zlen buf) :: out1 ++ out2)) as Hflags.
  { intros b1 b2 s2 out1 out2 Ho Hk. apply (ptx_takes_in_flags true halted s s2 buf b1 b2 (_ :: out1) out2); [|done].
    by destruct Ho. }
  assert (exists b1 b2 out1, ptx_notify_max_count cfg s =
    (s <| ptx_max_count_notified := b1 |> <| ptx_max_count_overflow := b2 |>, out1) /\ silent out1) as (b1 & b2 & out1 & En & Ho1).
  { unfold ptx_notify_max_count. clear Ed. destruct ((_ <=? _) && _);
      [exists true, (ptx_max_count_overflow s)|exists (ptx_max_count_notified s), (ptx_max_count_overflow s)];
      eexists; (split; [by destruct s|done]). }
  destruct (ptx_max_count_hard cfg <=? ptx_next s) eqn:Eh; zbool.
  - assert (exists c1 c2 out2, ptx_refuse s =
      (s <| ptx_max_count_notified := c1 |> <| ptx_max_count_overflow := c2 |>, out2) /\ silent out2) as (c1 & c2 & out2 & -> & Ho2).
    { unfold ptx_refuse. destruct (ptx_max_count_overflow s) eqn:Eo;
        [exists (ptx_max_count_notified s), true|exists (ptx_max_count_notified s), true];
        eexists; (split; [destruct s; cbn in Eo; by subst|done]). }
    eexists _, _. split; [done|]. rewrite <- (app_nil_r out2). apply (Hflags c1 c2); [done|].
    apply ptx_takes_in_quiet; try done. by apply ptx_flags_inv.
  - rewrite En. destruct (tb_live _ (proj1 Hinv) Hst) as (Hl & _). destruct (lv_order _ _ Hl) as [Ho Ho'].
    destruct ptx_cfg_facts as [_ Hsz]. pose proof (ptx_window_size_range cfg Hsz) as Hws. pose proof (lv_size _ _ Hl).
    assert (ptx_max_count_hard cfg <= 2 ^ 32 - 1) as Hhard by apply Hcfg.
    assert (ptx_next s - ptx_next_ack s < ptx_window_size cfg) as Hw.
    { destruct (ptx_is_srb cfg) eqn:Esrb; [destruct Hroom as [_ Hr]; specialize (Hr Esrb); lia|]. cbn [negb andb] in Ed.
      unfold check_early_drop in Ed. destruct (_ =? 0); [done|]. destruct (_ <? _); [done|]. zbool.
      rewrite wrap_small in Ed by (unfold in_range; lia). lia. }
    destruct (ptx_admit_spec halted env buf (s <| ptx_max_count_notified := b1 |> <| ptx_max_count_overflow := b2 |>))
      as (s' & out & E & Hk); try done; [by apply ptx_flags_inv|change (ptx_next s < 2 ^ 32 - 1); lia|].
    rewrite E. cbn [checked_bind]. eexists _, _. split; [done|]. by apply (Hflags b1 b2).
Qed.

(** The buffered SDUs in their order. *)
Lemma ptx_flush_spec halted sdus envs s :
  ptx_inv halted s -> ptx_stopped s = true \/ ptx_buffering s = false -> ptx_sdu_buffer s = sdus ->
  Forall (fun env => ptx_hdr_ok env = true) envs -> ptx_room s (zlen sdus) ->
  exists s' out, flush_sdu_buffer cfg sdus envs s = Ok (s', out) /\ ptx_inv halted s' /\ ptx_acts true s s' out /\
    ptx_sdu_buffer s' = [] /\ (nums_of out).*2 `sublist_of` sdus.
Proof.
  revert envs s. induction sdus as [|buf sdus IH]; intros envs s Hinv Hst Ebuf Henv Hroom; cbn [flush_sdu_buffer].
  { exists s, []. split; [done|]. split; [done|]. split; [by apply (ptx_effect_quiet true)|done]. }
  set (s0 := s <| ptx_sdu_buffer := sdus |>). rewrite zlen_cons in Hroom. pose proof (zlen_nonneg sdus).
  assert (ptx_inv halted s0) as Hinv0.
  { destruct Hinv as [Hb Ht]. split; [|done]. apply (ptx_base_ext s); done || apply Hb. }
  assert (ptx_acts true s s0 []) as Ha0.
  { apply ptx_acts_quiet; try done. intros hist [] _. by constructor. }
  destruct (ptx_handle_sdu_spec halted (default (mk_pdcp_tx_env 0 true true true) (head envs)) buf s0)
    as (s1 & out1 & -> & [I1 A1 N1 B1 F1 S1 R1]); [done|done| | |].
  { destruct envs as [|env envs]; [done|]. by apply Forall_cons in Henv as [? _]. }
  { destruct Hroom as [H1 H2]. split; [change (ptx_in_flight s + 1 < 2 ^ 32 - 1); lia|].
    intros Hs. specialize (H2 Hs). change (ptx_next s - ptx_next_ack s + 1 <= ptx_window_size cfg). lia. }
  unfold emit_bind. cbn [checked_bind].
  destruct (IH (tail envs) s1) as (s2 & out2 & -> & I2 & A2 & B2 & N2).
  - done.
  - by rewrite S1, F1.
  - by rewrite B1.
  - destruct envs as [|env envs]; [done|]. by apply Forall_cons in Henv as [_ ?].
  - by apply R1.
  - cbn [checked_bind]. eexists _, _. split; [done|]. split; [done|]. split; [|split; [done|]].
    + apply (ptx_acts_trans true s s0 s2 [] _); [done|]. by apply (ptx_acts_trans true s0 s1).
    + rewrite nums_of_app, fmap_app. change (buf :: sdus) with ([buf] ++ sdus). by apply sublist_app.
Qed.
End sealed.

(** ** Retransmission *)

Hypothesis Hcfg : ptx_cfg_ok cfg.

Lemma ptx_prepare_total ok count sdu : exists r, ptx_prepare cfg ok count sdu = Ok r.
Proof.
  destruct ok; [rewrite (ptx_prepare_spec Hcfg); by eexists|]. unfold ptx_prepare.
  pose proof (ptx_prepare_spec Hcfg count sdu) as E. unfold ptx_prepare in E.
  destruct (pdcp_write_data_pdu_header _ _ _); [|done]. by eexists.
Qed.

(** What the retransmission and the new keys leave alone. *)
Definition ptx_kept s :=
  (ptx_next s, ptx_next_ack s, ptx_trans_crypto s, ptx_window s, ptx_stopped s, ptx_sec_engine_pool s, ptx_buffering s, ptx_sdu_buffer s).

Lemma ptx_retransmit_spec halted turns envs count s :
  ptx_inv halted s -> 0 <= count -> turns = Z.to_nat (ptx_next s - count) -> ptx_in_flight s + Z.of_nat turns < 2 ^ 32 - 1 ->
  exists s' out, ptx_retransmit cfg turns envs count s = Ok (s', out) /\ ptx_inv halted s' /\ silent out /\ ptx_kept s' = ptx_kept s.
Proof.
  revert envs count s. induction turns as [|turns IH]; intros envs count s Hinv Hc Ht Hn; cbn [ptx_retransmit];
    pose proof (tb_counts _ (proj1 Hinv)) as [Ha Hnx].
  { rewrite (proj2 (Z.ltb_ge _ _)) by lia. by exists s, []. }
  rewrite (proj2 (Z.ltb_lt _ _)) by lia. rewrite wrap_small by (unfold in_range; lia). rewrite ptw_has_view.
  destruct (ptw_view (ptx_window s) count) as [e|] eqn:Ev; [|apply IH; done || lia].
  destruct (negb _); [by exists s, [PdcpTxProtocolFailure]|].
  rewrite (ptw_at_view _ _ _ Ev). cbn [checked_bind]. set (sdu := tsi_sdu (twe_sdu_info e)).
  destruct (ptx_prepare_total (ptx_hdr_ok (default (mk_pdcp_tx_env 0 true true true) (head envs))) count sdu) as (r & ->).
  cbn [checked_bind]. destruct r as [pdu|]; [|by exists s, [PdcpTxProtocolFailure]].
  destruct (ptx_execute_crypto_spec (fun _ _ _ => True) halted s (ptx_exec_ok (default (mk_pdcp_tx_env 0 true true true) (head envs)))
    (mk_pdcp_tx_buffer_info true (ptx_retransmit_id s) count pdu) Hinv) as (s1 & l & m & -> & -> & _ & Hinv1 & Hf1 & _); [lia|].
  cbn [checked_bind]. destruct (IH (tail envs) (count + 1) (s <| ptx_crypto_tasks := l |> <| ptx_token_mngr := m |>))
    as (s2 & out & -> & Hinv2 & Hsil & Hk); [done|lia|change (turns = Z.to_nat (ptx_next s - (count + 1))); lia|lia|].
  by exists s2, out.
Qed.

(** The window has no holes: every SDU from TX_NEXT_ACK on is there. *)
Definition ptx_whole s : Prop := forall c, ptx_next_ack s <= c < ptx_next s -> is_Some (ptx_view s c).

Definition ptx_retransmit_ok s : Prop :=
  (ptx_stopped s = false -> ptx_whole s) /\ ptx_in_flight s + (ptx_next s - ptx_next_ack s) < 2 ^ 32 - 1.

Lemma retransmit_all_pdus_spec halted envs s :
  ptx_inv halted s -> (ptx_is_am cfg = true -> ptx_retransmit_ok s) ->
  exists s' out, retransmit_all_pdus cfg envs s = Ok (s', out) /\ ptx_inv halted s' /\ silent out /\
    (ptx_is_am cfg = true -> ptx_trans_crypto s' = ptx_next_ack s) /\
    ptx_next s' = ptx_next s /\ ptx_next_ack s' = ptx_next_ack s /\ ptx_window s' = ptx_window s.
Proof.
  intros Hinv Hok. unfold retransmit_all_pdus. destruct (ptx_cfg_facts Hcfg) as [-> Hsz]. cbn [negb].
  destruct (ptx_is_am cfg); cbn [negb]; [|exists s, []; by split_and!]. destruct (Hok eq_refl) as [Hw Hn].
  pose proof (tb_counts _ (proj1 Hinv)) as [Ha Hnx].
  set (s1 := s <| ptx_trans := ptx_next_ack s |> <| ptx_trans_crypto := ptx_next_ack s |> <| ptx_retransmit_id ::= _ |>).
  assert (ptx_inv halted s1) as Hinv1.
  { destruct Hinv as [[L D C P] Ht]. split; [|done]. constructor; [|done|done|done].
    intros Hs. change (ptx_stopped s = false) in Hs. destruct (L Hs) as ([Ho Htr Hwin Hs' Hp Hold Htk] & Hti & Haw).
    split; [|split; [done|]].
    - assert (ptx_next s1 = ptx_next s /\ ptx_next_ack s1 = ptx_next_ack s /\ ptx_trans s1 = ptx_next_ack s /\
        ptx_trans_crypto s1 = ptx_next_ack s) as (En & Ea & Et & Ec) by done.
      constructor; rewrite ?En, ?Ea, ?Et, ?Ec; [lia|lia|done|lia|by apply Hw|done|done].
    - intros Hc. specialize (Haw Hc). change (ptx_next_ack s <= ptx_reord_crypto s <= ptx_next s). lia. }
  destruct (decide (ptx_next_ack s <= ptx_next s)).
  - destruct (ptx_retransmit_spec halted (Z.to_nat (ptx_next s - ptx_next_ack s)) envs (ptx_next_ack s) s1)
      as (s2 & out & E & Hinv2 & Hsil & Hk); [done|done|done|change (ptx_in_flight s1) with (ptx_in_flight s); lia|].
    exists s2, out. split; [exact E|]. split; [done|]. split; [done|].
    unfold ptx_kept in Hk. injection Hk as -> -> -> -> _ _ _ _. by split_and!.
  - destruct (ptx_retransmit_spec halted 0 envs (ptx_next_ack s) s1) as (s2 & out & E & Hinv2 & Hsil & Hk);
      [done|done|change (0%nat = Z.to_nat (ptx_next s - ptx_next_ack s)); lia|change (ptx_in_flight s1) with (ptx_in_flight s)|].
    { destruct Hinv as [_ [? _]]. lia. }
    exists s2, out. split; [|].
    { replace 0%nat with (Z.to_nat (ptx_next s - ptx_next_ack s)) in E by lia. exact E. }
    split; [done|]. split; [done|]. unfold ptx_kept in Hk. injection Hk as -> -> -> -> _ _ _ _. by split_and!.
Qed.

(** ** Keys and counts *)

Definition ptx_sec_cfg_ok (sec_cfg : sec_128_as_config) (integrity : bool) : Prop :=
  sec_config_domain sec_cfg = (if ptx_is_srb cfg then sec_domain_rrc else sec_domain_up) /\
  (ptx_is_srb cfg = true -> integrity = true).

Lemma ptx_make_engines_spec n sec_cfg integrity ciphering :
  (integrity = true -> is_Some (k_128_int sec_cfg) /\ is_Some (integ_algo sec_cfg)) ->
  exists eng, security_engine_impl sec_cfg (ptx_bearer_id cfg) (ptx_direction cfg) integrity ciphering = Ok eng /\
    ptx_make_engines cfg n sec_cfg integrity ciphering = Ok (replicate n (Some eng)).
Proof.
  intros Hi. assert (exists eng, security_engine_impl sec_cfg (ptx_bearer_id cfg) (ptx_direction cfg) integrity ciphering = Ok eng)
    as (eng & E).
  { unfold security_engine_impl. destruct integrity; [|by eexists]. destruct Hi as [[k ->] [a ->]]; [done|by eexists]. }
  exists eng. split; [done|]. induction n as [|n IH]; cbn [ptx_make_engines replicate]; [done|]. by rewrite E, IH.
Qed.

Lemma ptx_configure_security_spec halted sec_cfg integrity ciphering s :
  ptx_inv halted s -> ptx_sec_cfg_ok sec_cfg integrity ->
  exists i c pool, ptx_configure_security cfg sec_cfg integrity ciphering s =
    Ok (s <| ptx_integrity_enabled := i |> <| ptx_ciphering_enabled := c |> <| ptx_sec_engine_pool := pool |>) /\
    ptx_inv halted (s <| ptx_integrity_enabled := i |> <| ptx_ciphering_enabled := c |> <| ptx_sec_engine_pool := pool |>).
Proof.
  intros [Hb Ht] [Hd Hsrb]. pose proof (tb_pool _ Hb) as Hpool.
  assert (forall i c pool, zlen pool = ptx_max_nof_crypto_workers cfg ->
    ptx_inv halted (s <| ptx_integrity_enabled := i |> <| ptx_ciphering_enabled := c |> <| ptx_sec_engine_pool := pool |>)) as Hinv.
  { intros i c pool Hp. split; [|done]. apply (ptx_base_ext s); done. }
  unfold ptx_configure_security. rewrite bool_decide_eq_true_2 by done.
  destruct (integrity && _) eqn:Em.
  { exists (ptx_integrity_enabled s), (ptx_ciphering_enabled s), (ptx_sec_engine_pool s). split; [by destruct s|by apply Hinv]. }
  assert (integrity || negb (ptx_is_srb cfg) = true) as -> by (destruct (ptx_is_srb cfg); [by rewrite Hsrb|by destruct integrity]).
  destruct (ptx_make_engines_spec (Z.to_nat (ptx_max_nof_crypto_workers cfg)) sec_cfg integrity ciphering) as (eng & _ & ->).
  { intros ->. cbn in Em. apply orb_false_iff in Em as [E1%bool_decide_eq_false E2%bool_decide_eq_false].
    split; by apply not_eq_None_Some. }
  cbn [checked_bind]. eexists _, _, _. split; [done|]. apply Hinv. unfold zlen. rewrite length_replicate.
  unfold zlen in Hpool. lia.
Qed.

(** The counts of a window that holds nothing. *)
Lemma ptx_recount_live s s' count :
  ptx_live cfg s -> (forall c, ptw_view (ptx_window s') c = None) ->
  ptw_ok (ptx_window_size cfg) count count (ptx_window s') -> 0 <= count < 2 ^ 32 ->
  ptx_next s' = count -> ptx_next_ack s' = count -> ptx_trans s' = count -> ptx_trans_crypto s' = count -> ptx_live cfg s'.
Proof.
  intros Hl Hv Hw Hc En Ea Et Ec. destruct (ptx_cfg_facts Hcfg) as [_ Hsz]. pose proof (ptx_window_size_range cfg Hsz).
  constructor; rewrite ?En, ?Ea, ?Et, ?Ec; [lia|lia|done|lia|lia|lia|]. intros _ c e He. unfold ptx_view in He. by rewrite Hv in He.
Qed.

Lemma ptx_reset_spec halted s : ptx_inv halted s -> ptx_inv halted (ptx_reset s) /\ ptx_in_flight (ptx_reset s) = ptx_in_flight s.
Proof.
  intros [[L D C P] Ht]. split; [|done]. split; [|done]. constructor; try done.
  - intros Hs. change (ptx_stopped s = false) in Hs. destruct (L Hs) as (Hl & [_ Hti] & Haw).
    destruct (ptw_clear_ok _ _ _ 0 0 _ (lv_window _ _ Hl)) as [Hw Hv]. split; [|split].
    + apply (ptx_recount_live s _ 0); [exact Hl|exact Hv|exact Hw|lia|reflexivity..].
    + split; [intros _; change (0 < 0 -> is_Some (ptx_discard_expiry s)); lia|exact Hti].
    + intros _. change (0 <= 0 <= 0). lia.
  - intros Hs. change (ptx_stopped s = true) in Hs. destruct (D Hs) as (Hwf & Hv & Hx).
    destruct (win_clear_spec _ Hwf) as (Hw' & _ & Hv'). split; [done|]. split; [|done]. intros c. apply Hv'.
Qed.

Lemma ptx_reestablish_spec halted sec_cfg envs s :
  ptx_inv halted s -> ptx_sec_cfg_ok sec_cfg (ptx_integrity_enabled s) -> ptx_retransmit_ok s ->
  exists s' out, ptx_reestablish cfg sec_cfg envs s = Ok (s', out) /\ ptx_inv halted s' /\ silent out /\
    (if ptx_is_srb cfg || ptx_is_um cfg then ptx_next s' = 0 /\ ptx_next_ack s' = 0 /\ forall c, ptx_view s' c = None
     else ptx_next s' = ptx_next s /\ ptx_next_ack s' = ptx_next_ack s /\ ptx_window s' = ptx_window s).
Proof.
  intros Hinv Hsec Hok. unfold ptx_reestablish. set (s0 := if _ || _ then ptx_reset s else s).
  assert (ptx_inv halted s0 /\ ptx_integrity_enabled s0 = ptx_integrity_enabled s /\ ptx_retransmit_ok s0) as (Hinv0 & Ei0 & Hok0).
  { unfold s0. destruct (_ || _); [|done]. destruct (ptx_reset_spec halted s Hinv) as [H1 H2]. split; [done|]. split; [done|].
    split; [intros _ c Hc; change (0 <= c < 0) in Hc; lia|]. rewrite H2. destruct Hok as [_ Hok].
    destruct Hinv as [_ [? _]]. change (ptx_in_flight s + (0 - 0) < 2 ^ 32 - 1). lia. }
  destruct (ptx_configure_security_spec halted sec_cfg (ptx_integrity_enabled s0) (ptx_ciphering_enabled s0) s0 Hinv0)
    as (i & c & pool & -> & Hinv1); [by rewrite Ei0|]. cbn [checked_bind].
  set (s1 := s0 <| ptx_integrity_enabled := i |> <| ptx_ciphering_enabled := c |> <| ptx_sec_engine_pool := pool |>) in *.
  assert (exists s' out, (if ptx_is_am cfg then retransmit_all_pdus cfg envs s1 else Ok (s1, [])) = Ok (s', out) /\
    ptx_inv halted s' /\ silent out /\ ptx_next s' = ptx_next s1 /\ ptx_next_ack s' = ptx_next_ack s1 /\ ptx_window s' = ptx_window s1)
    as (s' & out & -> & Hinv' & Hsil & En & Ea & Ew).
  { destruct (ptx_is_am cfg) eqn:Eam; [|exists s1, []; by split_and!].
    destruct (retransmit_all_pdus_spec halted envs s1 Hinv1) as (s' & out & -> & ? & ? & _ & ? & ? & ?); [by intros _|]. by exists s', out. }
  exists s', out. split; [done|]. split; [done|]. split; [done|]. unfold ptx_view. rewrite En, Ea, Ew.
  change (ptx_next s1) with (ptx_next s0). change (ptx_next_ack s1) with (ptx_next_ack s0). change (ptx_window s1) with (ptx_window s0).
  unfold s0. destruct (_ || _); [|by split_and!]. split; [done|]. split; [done|].
  destruct Hinv as [[L D _ _] _]. assert (win_wf (ptw_window (ptx_window s))) as Hwf.
  { destruct (ptx_stopped s); [by apply D|]. destruct (L eq_refl) as ([] & _). by apply lv_window. }
  destruct (win_clear_spec _ Hwf) as (_ & _ & Hv). intros cc. apply Hv.
Qed.

Lemma ptx_set_count_spec halted hfn sn s :
  ptx_inv halted s -> is_u32 sn -> ptx_stopped s = true \/ ptx_next_ack s = ptx_next s -> ptx_inv halted (ptx_set_count cfg hfn sn s).
Proof.
  intros [[L D C P] Ht] Hsn He. unfold ptx_set_count. set (count := pdcp_compute_count hfn sn (ptx_sn_size cfg)).
  assert (0 <= count < 2 ^ 32) as Hc by (apply lor_range; [lia|apply wrap_range; lia|done]).
  split; [|done]. constructor; [|exact D|change (0 <= count /\ 0 <= count < 2 ^ 32); lia|exact P].
  intros Hs. change (ptx_stopped s = false) in Hs. destruct (L Hs) as (Hl & [_ Hti] & Haw).
  assert (ptx_next_ack s = ptx_next s) as En by (destruct He; congruence).
  assert (forall c, ptw_view (ptx_window s) c = None) as Hv.
  { intros c. destruct (ptw_view (ptx_window s) c) eqn:E; [|done]. apply (pok_range _ _ _ _ (lv_window _ _ Hl)) in E. lia. }
  split; [|split].
  - apply (ptx_recount_live s _ count); [exact Hl|exact Hv| |exact Hc|reflexivity..].
    exact (ptw_empty_ok _ _ _ count count _ (lv_window _ _ Hl) Hv).
  - split; [intros _; change (count < count -> is_Some (ptx_discard_expiry s)); lia|exact Hti].
  - intros _. change (count <= count <= count). lia.
Qed.
End tx_steps.
