(* ===== verification/PdcpTxRuns.v ===== *)
(** * PDCP transmitting entity: executions

    What the callers of the entity keep to, that every event then succeeds, and the
    theorems about whole executions: no failed assertion, numbering and submission in
    order, the account of the window, the timers, and notifications. *)
From stdpp Require Import base numbers list sorting sets.
From Stdlib Require Import ZArith Lia.
From S2P Require Import Prelude.
From S2P Require Import SduWindow.
From S2P Require Import BitEncoding.
From S2P Require Import SecurityEngine.
From S2P Require Import PdcpSn.
From S2P Require Import PdcpPdu.
From S2P Require Import PdcpCryptoToken.
From S2P Require Import PdcpTxWindow.
From S2P Require Import PdcpTx.
From S2P Require Import PdcpTxProps.
From S2P Require Import PdcpTxReports.
From S2P Require Import PdcpTxSteps.

Set Default Goal Selector "!".
Open Scope Z_scope.
Open Scope ran_scope.

(** The value of a key that occurs once. *)
Lemma key_unique {K V} (l : list (K * V)) k a b : NoDup l.*1 -> (k, a) ∈ l -> (k, b) ∈ l -> a = b.
Proof.
  induction l as [|[k' v] l IH]; cbn; [intros _ Ha; by apply elem_of_nil in Ha|].
  intros [Hn Hd]%NoDup_cons [[= -> ->]|Ha]%elem_of_cons [[= ->]|Hb]%elem_of_cons; [done| | |by apply IH].
  - destruct Hn. by apply (list_elem_of_fmap_2 fst) in Hb.
  - subst. destruct Hn. by apply (list_elem_of_fmap_2 fst) in Ha.
Qed.

Section tx_runs.
Context {W : Type -> Type} `{!SduWindow W} `{!SduWindowLaws W} `{!SecurityAlgorithms}.
Variable cfg : pdcp_tx_config.
Implicit Types s : pdcp_tx_entity W.

(** ** Events

    What the environment keeps to: an SDU finds room for its header, and on a signalling
    bearer in the window; workers are those of the pool and their engines succeed; no SDU
    leaves the window, by a notification, a status report or the discard timer, before
    its PDU was submitted, and a notification does not leave a hole behind it; nothing
    is retransmitted over a hole; processing is stopped and restarted in turns; and
    the COUNTs are only replaced when nothing is held. *)
Definition ptx_op_ok (halted : bool) s (op : pdcp_tx_op) : Prop :=
  match op with
  | PdcpTxSdu env _ => ptx_hdr_ok env = true /\ ptx_room cfg s 1
  | PdcpTxCrypto i worker_idx append _ => ptx_crypto_ok cfg s i worker_idx append
  | PdcpTxUeTask _ | PdcpTxReorderingExpired _ | PdcpTxDesiredBufferSize _ | PdcpTxBeginBuffering
  | PdcpTxRetransmitted _ _ => True
  | PdcpTxTransmitted _ sn => ptx_stopped s = false -> ptx_is_um cfg = true -> ptx_notif_ok cfg s sn
  | PdcpTxDelivered _ sn | PdcpTxDeliveredRetransmitted _ sn =>
      ptx_stopped s = false -> ptx_is_am cfg = true -> ptx_notif_ok cfg s sn
  | PdcpTxStatusReport copy_ok report => copy_ok = true -> ptx_gone_ok (acknowledged report) s
  | PdcpTxDiscardExpired _ => ptx_discard_expiry s <> None -> ptx_expiry_ok s
  | PdcpTxDataRecovery _ _ => ptx_is_srb cfg = false /\ ptx_is_am cfg = true /\ ptx_retransmit_ok s
  | PdcpTxConfigureSecurity sec_cfg integrity _ => ptx_sec_cfg_ok cfg sec_cfg integrity
  | PdcpTxReestablish sec_cfg _ => ptx_sec_cfg_ok cfg sec_cfg (ptx_integrity_enabled s) /\ ptx_retransmit_ok s
  | PdcpTxEndBuffering envs =>
      Forall (fun env => ptx_hdr_ok env = true) envs /\ ptx_room cfg s (zlen (ptx_sdu_buffer s))
  | PdcpTxNotifyStopped | PdcpTxStop => ptx_stopped s = false -> halted = false
  | PdcpTxRestart => ptx_stopped s = false -> halted = true
  | PdcpTxSetCount _ sn => is_u32 sn /\ (ptx_stopped s = true \/ ptx_next_ack s = ptx_next s)
  end.

Definition ptx_halted_after (halted : bool) s (op : pdcp_tx_op) : bool :=
  match op with
  | PdcpTxNotifyStopped | PdcpTxStop => if ptx_stopped s then halted else true
  | PdcpTxRestart => if ptx_stopped s then halted else false
  | _ => halted
  end.

(** The events that keep the counts and the keys, and those that pass over no PDU. *)
Definition ptx_keeps (op : pdcp_tx_op) : bool :=
  match op with
  | PdcpTxConfigureSecurity _ _ _ | PdcpTxReestablish _ _ | PdcpTxSetCount _ _ | PdcpTxDataRecovery _ _ => false
  | _ => true
  end.
Definition ptx_gapless (op : pdcp_tx_op) : bool :=
  match op with PdcpTxReorderingExpired _ => false | _ => true end.

Definition ptx_offered (op : pdcp_tx_op) : list (list Z) :=
  match op with PdcpTxSdu _ buf => [buf] | _ => [] end.

Hypothesis Hcfg : ptx_cfg_ok cfg.

Lemma ptx_am_um : ptx_is_am cfg = negb (ptx_is_um cfg).
Proof. unfold ptx_is_am, ptx_is_um. by destruct (ptx_rlc_mode cfg). Qed.

Section sealed.
Variable seals : list Z -> Z -> list Z -> Prop.

(** An event that changes nothing the invariant or the effect see. *)
Lemma ptx_succeeds_ext g halted halted' s s' :
  ptx_inv cfg halted s -> ptx_window s' = ptx_window s -> ptx_next s' = ptx_next s -> ptx_next_ack s' = ptx_next_ack s ->
  ptx_trans s' = ptx_trans s -> ptx_trans_crypto s' = ptx_trans_crypto s -> ptx_reord_crypto s' = ptx_reord_crypto s ->
  ptx_stopped s' = ptx_stopped s -> ptx_discard_expiry s' = ptx_discard_expiry s ->
  ptx_crypto_reordering_timer s' = ptx_crypto_reordering_timer s -> ptx_sec_engine_pool s' = ptx_sec_engine_pool s ->
  ptx_crypto_tasks s' = ptx_crypto_tasks s -> ptx_ue_tasks s' = ptx_ue_tasks s -> ptx_sdu_buffer s' = ptx_sdu_buffer s ->
  (ptx_buffering s' = false -> ptx_buffering s = false) ->
  token_balance (ptx_in_flight s) halted' (ptx_token_mngr s') ->
  ptx_succeeds cfg seals g (Ok (s', [])) [] halted' s.
Proof.
  intros [Hb Ht] Ew En Ea Et Ec Er Es Ee Em Ep Etc Etu Ebuf Eb Ht'. exists s', []. split; [done|]. split; [split|].
  - apply (ptx_base_ext cfg s); try done. rewrite Ep. apply Hb.
  - unfold ptx_tokens, ptx_in_flight in *. by rewrite Etc, Etu.
  - apply ptx_effect_quiet; try done. intros hist [Tc Tu Tw Tn] _. constructor; unfold ptx_view; by rewrite ?Etc, ?Etu, ?Ew.
Qed.

Lemma ptx_sdu_event halted env buf s :
  ptx_inv cfg halted s -> ptx_hdr_ok env = true -> ptx_room cfg s 1 ->
  ptx_succeeds cfg seals true (ptx_handle_sdu cfg env buf s) [buf] halted s.
Proof.
  intros Hinv Hhdr Hroom.
  assert (forall out, silent out -> ptx_succeeds cfg seals true (Ok (s, out)) [buf] halted s) as Hsame.
  { intros out Ho. eexists _, _. split; [done|]. split; [done|]. split; [by apply ptx_acts_quiet|]. intros Hd. split; [done|].
    destruct Ho as [-> _]. by apply sublist_inserts_r. }
  destruct (ptx_stopped s) eqn:Es; [|destruct (ptx_buffering s) eqn:Eb].
  - unfold ptx_handle_sdu. rewrite Es. by apply Hsame.
  - unfold ptx_handle_sdu. rewrite Es, Eb. destruct (_ =? _); [by apply Hsame|].
    eexists _, _. split; [done|]. destruct Hinv as [Hb Ht]. split; [split; [|done]|split].
    + apply (ptx_base_ext cfg s); done || apply Hb.
    + apply ptx_acts_quiet; try done. intros hist [] _. by constructor.
    + intros Hd. split; [|done]. intros Hb'. change (ptx_buffering s = false) in Hb'. congruence.
  - destruct (ptx_handle_sdu_spec cfg seals Hcfg halted env buf s Hinv) as (s' & out & -> & [I A N B F S R]); [auto|done|done|].
    exists s', out. split; [done|]. split; [done|]. split; [done|]. intros Hd. unfold ptx_drained. rewrite F, B.
    split; [done|]. by rewrite (Hd Eb), app_nil_r.
Qed.

Lemma ptx_end_buffering_event halted envs s :
  ptx_inv cfg halted s -> Forall (fun env => ptx_hdr_ok env = true) envs -> ptx_room cfg s (zlen (ptx_sdu_buffer s)) ->
  ptx_succeeds cfg seals true (ptx_end_buffering cfg envs s) [] halted s.
Proof.
  intros Hinv Henvs Hroom. unfold ptx_end_buffering. set (s0 := s <| ptx_buffering := false |>).
  assert (ptx_inv cfg halted s0) as Hinv0.
  { destruct Hinv as [Hb Ht]. split; [|done]. apply (ptx_base_ext cfg s); done || apply Hb. }
  destruct (ptx_flush_spec cfg seals Hcfg halted (ptx_sdu_buffer s) envs s0 Hinv0) as (s' & out & -> & I & A & B & N);
    [by right|done|done|exact Hroom|].
  exists s', out. split; [done|]. split; [done|]. split.
  - apply (ptx_acts_trans cfg seals true s s0 s' [] out); [|done]. apply ptx_acts_quiet; try done. intros hist [] _. by constructor.
  - intros Hd. rewrite B, !app_nil_r. by split; [intros _|].
Qed.

Lemma ptx_report_event halted copy_ok report s :
  ptx_inv cfg halted s -> (copy_ok = true -> ptx_gone_ok (acknowledged report) s) ->
  ptx_succeeds cfg seals true (handle_status_report cfg copy_ok report s) [] halted s.
Proof.
  intros Hinv Hok. destruct (ptx_cfg_facts cfg Hcfg) as [Htm Hsz]. pose proof Hinv as [[L D C P] Ht].
  assert (ptx_sound cfg s) as Hs. { destruct (ptx_stopped s); [right; by apply D|left; by apply L]. }
  destruct (handle_status_report_spec cfg Htm Hsz copy_ok report s Hs) as (s' & out & -> & [T LV S X Q G K M]); [apply C|done|].
  exists s', out. split; [done|]. destruct (ptx_stopped s) eqn:Es.
  - destruct (D eq_refl) as (_ & Hv & _). rewrite (M Hv). split; [done|]. by apply ptx_effect_quiet.
  - destruct (L eq_refl) as (Hl & [Hti Hfin] & _). apply ptx_trims_succeeds; try done; [by apply LV|].
    destruct (ptx_core_fields _ _ (tr_core _ _ T)) as (En & _). pose proof (tr_ack _ _ T).
    split; rewrite X; [|done]. intros Hf Hlt. apply Hti; [done|]. lia.
Qed.

(** The notifications of the lower layers. *)
Lemma ptx_notification_event halted s r :
  ptx_inv cfg halted s -> (ptx_stopped s = false -> ptx_live cfg s -> ptx_trims_ok cfg r s) ->
  ptx_succeeds cfg seals true (quietly (if ptx_stopped s then Ok s else r)) [] halted s.
Proof.
  intros Hinv Hr. destruct (ptx_stopped s) eqn:Es; [by apply ptx_succeeds_same|].
  apply ptx_trims_ok_succeeds; try done. apply Hr; [done|]. by apply (tb_live _ _ (proj1 Hinv)).
Qed.

Lemma pdcp_tx_step_spec halted s op :
  ptx_inv cfg halted s -> ptx_op_ok halted s op -> ptx_keeps op = true ->
  ptx_succeeds cfg seals (ptx_gapless op) (pdcp_tx_step cfg op s) (ptx_offered op) (ptx_halted_after halted s op) s.
Proof.
  intros Hinv Hop Hk. pose proof Hinv as [Hb Ht]. destruct (ptx_cfg_facts cfg Hcfg) as [Htm Hsz].
  assert (forall g, ptx_succeeds cfg seals g (Ok (s, [])) [] halted s) as Hsame by (intros g; by apply ptx_succeeds_same).
  assert (ptx_is_um cfg = true -> ptx_is_am cfg = false) as Hau by (rewrite ptx_am_um; by intros ->).
  destruct op; try done; cbn [pdcp_tx_step ptx_halted_after ptx_op_ok ptx_gapless ptx_offered] in *.
  - destruct Hop. by apply ptx_sdu_event.
  - by apply ptx_run_crypto_spec.
  - by apply ptx_run_ue_spec.
  - unfold handle_transmit_notification. apply ptx_notification_event; [done|]. intros Hs Hl.
    apply handle_transmit_notification_impl_spec; auto.
  - unfold handle_delivery_notification. apply ptx_notification_event; [done|]. intros Hs Hl.
    apply handle_delivery_notification_impl_spec; auto.
  - unfold handle_retransmit_notification. destruct (ptx_is_srb cfg || ptx_is_um cfg) eqn:Eu.
    { replace (ptx_stopped s || ptx_is_srb cfg || ptx_is_um cfg) with true; [apply Hsame|].
      by destruct (ptx_stopped s), (ptx_is_srb cfg). }
    apply orb_false_iff in Eu as [-> Eum]. rewrite Eum, !orb_false_r.
    apply ptx_notification_event; [done|]. intros Hs Hl. apply handle_transmit_notification_impl_spec; congruence || done.
  - unfold handle_delivery_retransmitted_notification. destruct (ptx_is_srb cfg || ptx_is_um cfg) eqn:Eu.
    { replace (ptx_stopped s || ptx_is_srb cfg || ptx_is_um cfg) with true; [apply Hsame|].
      by destruct (ptx_stopped s), (ptx_is_srb cfg). }
    apply orb_false_iff in Eu as [-> Eum]. rewrite Eum, !orb_false_r.
    apply ptx_notification_event; [done|]. intros Hs Hl. apply handle_delivery_notification_impl_spec; auto.
  - unfold handle_desired_buffer_size_notification. destruct (ptx_stopped s) eqn:Es; [done|].
    by apply (ptx_succeeds_ext _ halted).
  - by apply ptx_report_event.
  - destruct (ptx_discard_expiry s) as [x|] eqn:Ex; [|done]. apply ptx_expired_spec; [done|done|rewrite Ex; by eexists|by apply Hop].
  - destruct (ptx_crypto_reordering_timer s) eqn:Et; [|apply Hsame]. by apply ptx_reordering_expired_spec.
  - by apply (ptx_succeeds_ext _ halted).
  - destruct Hop. by apply ptx_end_buffering_event.
  - unfold ptx_notify_pdu_processing_stopped. destruct (ptx_stopped s) eqn:Es; [apply Hsame|].
    rewrite (Hop eq_refl) in *. destruct (token_balance_stop _ _ Ht) as (m & -> & Hm). by apply (ptx_succeeds_ext _ false).
  - unfold ptx_restart_pdu_processing. destruct (ptx_stopped s) eqn:Es; [apply Hsame|].
    rewrite (Hop eq_refl) in *. apply (ptx_succeeds_ext _ true); try done. by apply token_balance_start.
  - unfold ptx_stop. destruct (ptx_stopped s) eqn:Es; [apply Hsame|].
    rewrite (Hop eq_refl) in *. destruct (token_balance_stop _ _ Ht) as (m & -> & Hm). cbn [quietly checked_bind]. rewrite Htm.
    destruct (tb_live _ _ Hb Es) as (Hl & _). destruct (ptw_clear_ok _ _ _ 0 0 _ (lv_window _ _ Hl)) as [Hw Hv].
    eexists _, _. split; [done|]. split; [split; [|done]|].
    + constructor; try done; [|apply Hb|apply Hb]. intros _. split; [apply Hw|]. split; [exact Hv|done].
    + apply ptx_effect_quiet; try done. intros hist [Tc Tu Tw Tn] _. constructor; [done|done|..]; intros c e He;
        unfold ptx_view in He; by rewrite Hv in He.
Qed.
End sealed.

(** Every event succeeds and preserves the invariant. *)
Lemma pdcp_tx_step_inv halted s op :
  ptx_inv cfg halted s -> ptx_op_ok halted s op ->
  exists s' out, pdcp_tx_step cfg op s = Ok (s', out) /\ ptx_inv cfg (ptx_halted_after halted s op) s'.
Proof.
  intros Hinv Hop. destruct (ptx_keeps op) eqn:Ek.
  { destruct (pdcp_tx_step_spec (fun _ _ _ => True) halted s op Hinv Hop Ek) as (s' & out & ? & ? & _). by exists s', out. }
  destruct op; try done; cbn [pdcp_tx_step ptx_halted_after ptx_op_ok] in *.
  - destruct Hop as (Hsrb & Ham & Hre). unfold data_recovery. rewrite Hsrb, Ham. cbn [negb andb].
    destruct (retransmit_all_pdus_spec cfg Hcfg halted envs s Hinv) as (s' & out & -> & Hinv' & _); [done|].
    cbn [checked_bind]. by eexists _, _.
  - destruct (ptx_configure_security_spec cfg halted sec_cfg integrity ciphering s Hinv Hop) as (i & c & pool & -> & Hinv').
    by eexists _, _.
  - destruct Hop as [Hsec Hre]. destruct (ptx_reestablish_spec cfg Hcfg halted sec_cfg envs s Hinv Hsec Hre) as (s' & out & -> & ? & _).
    by exists s', out.
  - destruct Hop as [Hsn He]. eexists _, _. split; [done|]. by apply ptx_set_count_spec.
Qed.

Lemma pdcp_tx_init_inv :
  exists s, ptx_init cfg = Ok s /\ ptx_inv cfg false s /\ ptx_next s = 0 /\ ptx_next_ack s = 0 /\ ptx_trans_crypto s = 0 /\
    ptx_sdu_buffer s = [] /\ ptx_crypto_tasks s = [] /\ ptx_ue_tasks s = [] /\ (forall c, ptx_view s c = None) /\
    ptx_sec_engine_pool s = replicate (Z.to_nat (ptx_max_nof_crypto_workers cfg)) None.
Proof.
  destruct Hcfg as ([Hsz Hsrb] & Hum & Hhard & Hwk & d & Hd & _). unfold ptx_init.
  assert (negb (ptx_is_srb cfg && (negb (bool_decide (ptx_sn_size cfg = pdcp_size12bits)) || ptx_is_um cfg)) = true) as ->.
  { destruct (ptx_is_srb cfg); [|done]. rewrite bool_decide_eq_true_2 by auto. by rewrite Hum. }
  assert (exists n, 0 <= n /\ ptx_window_size cfg = 2 ^ n) as (n & Hn & En).
  { unfold ptx_window_size. destruct (ptx_sn_size cfg); [exists 11|exists 17|done]; done. }
  destruct (ptw_new_ok (W := W) (ptx_window_size cfg) 0 (ptx_sn_size cfg) n Hn En En) as (w & -> & Hw & Hv).
  cbn [checked_bind]. eexists. split; [done|]. split; [|split_and!; try done].
  split; [|split; [done|done]]. constructor; [intros _|done|done|].
  - split; [|split; [split; cbn; [lia|by intros [? ?]]|done]]. pose proof (ptx_window_size_range cfg Hsz).
    constructor; cbn; [lia|lia|done|lia|lia|lia|]. intros _ c e He. unfold ptx_view in He. cbn in He. by rewrite Hv in He.
  - cbn. unfold zlen. rewrite length_replicate. lia.
Qed.

(** ** Executions *)

(** A sequence of events that the environment may cause, with what it emits; the booleans
    tell whether processing is stopped before and after. *)
Inductive ptx_exec (halted : bool) s : list pdcp_tx_op -> list pdcp_tx_output -> bool -> pdcp_tx_entity W -> Prop :=
| ptx_exec_nil : ptx_exec halted s [] [] halted s
| ptx_exec_cons op ops s1 out1 out2 halted2 s2 :
    ptx_op_ok halted s op -> pdcp_tx_step cfg op s = Ok (s1, out1) ->
    ptx_exec (ptx_halted_after halted s op) s1 ops out2 halted2 s2 ->
    ptx_exec halted s (op :: ops) (out1 ++ out2) halted2 s2.

Definition ptx_reachable (halted : bool) s : Prop :=
  exists s0 ops out, ptx_init cfg = Ok s0 /\ ptx_exec false s0 ops out halted s.

Lemma ptx_exec_inv halted s ops out halted' s' :
  ptx_exec halted s ops out halted' s' -> ptx_inv cfg halted s -> ptx_inv cfg halted' s'.
Proof.
  intros He. induction He as [|h s op ops s1 out1 out2 h2 s2 Hop Hstep He IH]; [done|]. intros Hinv.
  apply IH. destruct (pdcp_tx_step_inv h s op Hinv Hop) as (s1' & out1' & E & Hinv').
  rewrite Hstep in E. by injection E as <- <-.
Qed.

Lemma ptx_reachable_inv halted s : ptx_reachable halted s -> ptx_inv cfg halted s.
Proof.
  intros (s0 & ops & out & E & He). destruct pdcp_tx_init_inv as (s0' & E' & Hinv & _).
  rewrite E in E'. injection E' as <-. by apply (ptx_exec_inv _ _ _ _ _ _ He).
Qed.

Lemma ptx_acts_weaken seals g s s' out : ptx_acts cfg seals true s s' out -> ptx_acts cfg seals g s s' out.
Proof. intros []. constructor; auto. Qed.

(** What an execution without a change of keys and counts does. *)
Lemma ptx_exec_effect seals g halted s ops out halted' s' :
  ptx_exec halted s ops out halted' s' -> ptx_inv cfg halted s -> forallb ptx_keeps ops = true ->
  (g = true -> forallb ptx_gapless ops = true) ->
  ptx_effect cfg seals g s s' (flat_map ptx_offered ops) out.
Proof.
  intros He. induction He as [|h s op ops s1 out1 out2 h2 s2 Hop Hstep He IH]; intros Hinv Hk Hg.
  { by apply ptx_effect_quiet. }
  cbn in Hk. apply andb_true_iff in Hk as [Hk1 Hk2].
  destruct (pdcp_tx_step_spec seals h s op Hinv Hop Hk1) as (s1' & out1' & E & Hinv1 & Heff).
  rewrite Hstep in E. injection E as <- <-. cbn [flat_map]. apply (ptx_effect_trans cfg seals g s s1).
  - destruct Heff as [Ha Ho]. split; [|done]. destruct (ptx_gapless op) eqn:Eg; [by apply ptx_acts_weaken|].
    destruct g; [|done]. specialize (Hg eq_refl). cbn in Hg. by rewrite Eg in Hg.
  - apply IH; [done|done|]. intros ->. specialize (Hg eq_refl). cbn in Hg. by apply andb_true_iff in Hg as [_ ?].
Qed.

(** ** Theorems about executions *)

(** C13. No failed assertion. For 12- or 18-bit SNs (12 and AM on signalling bearers), a
    COUNT limit below 2^32 and a discard timer that is not zero, in every state that the
    events below lead to, every one of them succeeds, the state variables stay ordered and
    all loops over the window end: SDUs, with fewer than 2^32 - 1 PDUs on their way, that
    find room for their header, and on a signalling bearer in the window; workers that
    finish a waiting task in any order, their engines succeeding; tasks of the UE executor
    and expiries of the reordering timer; notifications, status reports and expiries of the
    discard timer, as long as no SDU leaves the window before its PDU was submitted and a
    notification leaves no hole behind it; data recovery on an acknowledged data bearer and
    re-establishment when nothing is retransmitted over a hole; valid security
    configurations; stops and restarts of processing in turns, stop() counting as a stop;
    COUNTs restored when nothing is held or after stop(). *)
Theorem pdcp_tx_never_panics halted s op :
  ptx_reachable halted s -> ptx_op_ok halted s op ->
  exists s' out, pdcp_tx_step cfg op s = Ok (s', out) /\
    (ptx_stopped s' = false ->
     0 <= ptx_next_ack s' <= ptx_trans_crypto s' /\ ptx_trans_crypto s' <= ptx_next s' < 2 ^ 32 /\
     ptx_next s' - ptx_next_ack s' <= ptx_window_size cfg).
Proof.
  intros Hr Hop. pose proof (ptx_reachable_inv _ _ Hr) as Hinv.
  destruct (pdcp_tx_step_inv halted s op Hinv Hop) as (s' & out & E & [L _ _ _] & _).
  exists s', out. split; [done|]. intros Hs. destruct (L Hs) as (Hl & _). destruct (lv_order _ _ Hl). by split_and!; try apply Hl.
Qed.

(** An entity that has numbered nothing that is still on its way. *)
Definition ptx_fresh s : Prop :=
  ptx_in_flight s = 0 /\ (forall c, ptx_view s c = None) /\ ptx_drained s.

Lemma ptx_fresh_tracks seals s : ptx_fresh s -> ptx_tracks cfg seals [] s.
Proof.
  intros (Hn & Hv & _). unfold ptx_in_flight in Hn. pose proof (zlen_nonneg (ptx_crypto_tasks s)).
  pose proof (zlen_nonneg (omap tx_task_info (ptx_ue_tasks s))).
  assert (ptx_crypto_tasks s = [] /\ omap tx_task_info (ptx_ue_tasks s) = []) as [Ec Eu].
  { unfold zlen in *. split; apply length_zero_iff_nil; lia. }
  constructor; rewrite ?Ec, ?Eu; try done; intros c e; by rewrite Hv.
Qed.

(** What the engine makes of a buffer, and of an SDU with its header. *)
Definition engine_seals (eng : security_engine) (buf : list Z) (count : Z) (pdu : list Z) : Prop :=
  encrypt_and_protect_integrity true eng buf (pdcp_data_pdu_header_size (ptx_sn_size cfg)) count =
    Ok (mk_security_result (inl pdu) count).
Definition ptx_protects (eng : security_engine) (count : Z) (sdu pdu : list Z) : Prop :=
  engine_seals eng (framed cfg count sdu) count pdu.

Lemma encrypt_result append eng buf offset count result pdu :
  encrypt_and_protect_integrity append eng buf offset count = Ok result -> sr_buf result = inl pdu ->
  encrypt_and_protect_integrity true eng buf offset count = Ok (mk_security_result (inl pdu) count).
Proof.
  unfold encrypt_and_protect_integrity, protect_integrity.
  assert (forall b, Ok match cipher_eng eng with Some cipher => apply_ciphering cipher b offset count
      | None => mk_security_result (inl b) count end = Ok result -> sr_buf result = inl pdu ->
    Ok match cipher_eng eng with Some cipher => apply_ciphering cipher b offset count
      | None => mk_security_result (inl b) count end = Ok (mk_security_result (inl pdu) count)) as Hc.
  { intros b [= <-]. unfold apply_ciphering. destruct (cipher_eng eng) as [c|]; [|by intros [= ->]].
    destruct (nea _ _ _ _ _ _); [by intros [= ->]|done]. }
  destruct (integ_eng eng) as [i|]; [destruct (compute_mac i buf count) as [mac|]; [destruct append|]|]; cbn;
    try done; destruct (cipher_eng eng) as [c|]; try (by apply (Hc buf)); try (by apply (Hc (buf ++ mac))); by intros [= <-].
Qed.

Lemma engine_sealing eng s :
  ptx_sec_engine_pool s = replicate (Z.to_nat (ptx_max_nof_crypto_workers cfg)) (Some eng) ->
  sealing cfg (engine_seals eng) s.
Proof.
  intros Ep worker append buf count result pdu Ha Er. unfold apply_ciphering_and_integrity_protection in Ha.
  rewrite Ep in Ha. destruct (_ <=? worker); [done|]. destruct (_ !! _) as [e|] eqn:El; [|done].
  apply lookup_replicate in El as [-> _]. rewrite (ptx_hdr_size cfg Hcfg) in Ha.
  apply checked_bind_ok in Ha as (r & Hr & Ha). destruct (sr_buf r) as [p|] eqn:Erp; [|done]. injection Ha as <-.
  cbn in Er. injection Er as ->. by apply (encrypt_result append eng buf _ count r pdu).
Qed.

(** C10. In-order transmission. Take an entity (configured as pdcp_tx_never_panics says)
    with nothing on its way, all of whose workers have the same engine, and an execution in
    which no security is configured, the entity is not re-established, no data recovery is
    asked for and no COUNTs are restored; SDUs find room for their headers, and on a
    signalling bearer in the window, fewer than 2^32 - 1 PDUs are on their way, the engines
    succeed, no SDU leaves the window before its PDU was submitted, no notification leaves a
    hole behind it, and stops and restarts alternate. The entity numbers, in the order of
    their arrival, SDUs that were offered to it, with consecutive COUNTs from TX_NEXT on,
    and submits PDUs in strictly increasing order of COUNT, however the workers reorder
    them; each PDU is what the engine makes of the SDU with that very number and its header.
    Unless the reordering timer expires no COUNT that TX_TRANS_CRYPTO passes is left out. *)
Theorem pdcp_tx_in_order halted s0 ops out halted' s eng :
  ptx_reachable halted s0 -> ptx_fresh s0 ->
  ptx_sec_engine_pool s0 = replicate (Z.to_nat (ptx_max_nof_crypto_workers cfg)) (Some eng) ->
  ptx_exec halted s0 ops out halted' s -> forallb ptx_keeps ops = true ->
  (nums_of out).*1 = seqZ (ptx_next s0) (ptx_next s - ptx_next s0) /\
  (nums_of out).*2 `sublist_of` ptx_sdu_buffer s0 ++ flat_map ptx_offered ops /\
  StronglySorted Z.lt (pdus_of out).*1 /\
  Forall (fun x => exists sdu, (x.1, sdu) ∈ nums_of out /\ ptx_protects eng x.1 sdu x.2) (pdus_of out) /\
  (forallb ptx_gapless ops = true ->
   (pdus_of out).*1 = seqZ (ptx_trans_crypto s0) (ptx_trans_crypto s - ptx_trans_crypto s0)).
Proof.
  intros Hr Hf Ep He Hk. pose proof (ptx_reachable_inv _ _ Hr) as Hinv. pose proof (engine_sealing eng s0 Ep) as Hseal.
  pose proof (ptx_fresh_tracks (engine_seals eng) s0 Hf) as Htr.
  destruct (ptx_exec_effect (engine_seals eng) (forallb ptx_gapless ops) _ _ _ _ _ _ He Hinv Hk (fun E => E)) as [[N M C S R G P T E] O].
  destruct Hf as (_ & _ & Hd). split_and!; try done.
  - destruct (O Hd) as [_ Hsub]. etransitivity; [|exact Hsub]. by apply sublist_inserts_r.
  - specialize (P [] Htr Hseal). eapply Forall_impl; [exact P|]. intros x (sdu & Hin & Hs). by exists sdu.
Qed.

(** ** The account of the window *)

Definition sum_of {A} (f : A -> Z) (l : list A) : Z := foldr (fun x n => f x + n) 0 l.

Lemma sum_of_wrap {A} (f : A -> Z) (l : list A) :
  u32 (sum_lengths ((fun x => u32 (f x)) <$> l)) = u32 (sum_of f l).
Proof.
  induction l as [|x l IH]; [done|]. unfold sum_lengths, sum_of in *. cbn [fmap list_fmap foldr].
  rewrite wrap_add_l, <- wrap_add_r, IH, wrap_add_r by lia. done.
Qed.

(** The lengths in the window are those of the numbered SDUs that are held. *)
Lemma ptx_lengths_held s (hist : list (Z * list Z)) lo hi :
  hist.*1 = seqZ lo (hi - lo) ->
  (forall c e, ptx_view s c = Some e -> exists sdu, (c, sdu) ∈ hist /\ twe_sdu_length e = u32 (zlen sdu)) ->
  ptw_lengths (ptx_window s) lo hi =
    (fun x => u32 (zlen x.2)) <$> filter (fun x : Z * list Z => is_Some (ptx_view s x.1)) hist.
Proof.
  intros Hseq Hh. unfold ptw_lengths. rewrite <- Hseq.
  assert (NoDup hist.*1) as Hnd by (rewrite Hseq; apply NoDup_seqZ).
  assert (forall c a b, (c, a) ∈ hist -> (c, b) ∈ hist -> a = b) as Huniq.
  { intros c a b. by apply key_unique. }
  assert (forall x, x ∈ hist -> x ∈ hist) as Hsub by done. revert Hsub.
  generalize hist at 1 3 4. intros l Hsub. induction l as [|[c sdu] l IH]; [done|]. cbn [fmap list_fmap omap list_omap fst].
  rewrite filter_cons. unfold ptx_view in *. cbn [fst].
  rewrite IH by (intros x Hx; apply Hsub; by apply list_elem_of_further).
  destruct (ptw_view (ptx_window s) c) as [e|] eqn:E; cbn; case_decide as Hd; try done; [|destruct Hd; by eexists].
  destruct (Hh c e E) as (sdu' & Hin & ->). cbn. by rewrite (Huniq c sdu sdu' (Hsub _ (list_elem_of_here _ _)) Hin).
Qed.

Lemma sum_of_add {A} (f : A -> Z) k (l : list A) : sum_of (fun x => f x + k) l = sum_of f l + zlen l * k.
Proof. unfold sum_of. induction l as [|x l IH]; cbn [foldr]; [done|]. rewrite IH, zlen_cons. lia. Qed.

(** The account of the window is exact: after an execution that keeps its counts and
    keys, the number of SDUs in the window is the number of those numbered that were
    neither acknowledged nor discarded, it is at most the window size, and the bytes
    that an SDU of a data bearer is dropped by are, modulo 2^32, those of the PDUs
    of these SDUs, with their headers and MACs. *)
Theorem pdcp_tx_window_account halted s0 ops out halted' s integrity :
  ptx_reachable halted s0 -> ptx_fresh s0 -> ptx_exec halted s0 ops out halted' s -> forallb ptx_keeps ops = true ->
  ptx_stopped s = false ->
  let held := filter (fun x : Z * list Z => is_Some (ptx_view s x.1)) (nums_of out) in
  let overhead := pdcp_data_header_size (ptx_sn_size cfg) + pdcp_data_trailer_size (ptx_rb_type cfg) integrity in
  ptw_nof_sdus (ptx_window s) = zlen held /\ zlen held <= ptx_window_size cfg /\
  ptw_sdu_bytes (ptx_window s) = u32 (sum_of (fun x => zlen x.2) held) /\
  ptw_get_pdu_bytes (ptx_rb_type cfg) (ptx_sn_size cfg) integrity (ptx_window s) =
    u32 (sum_of (fun x => zlen x.2 + overhead) held).
Proof.
  intros Hr Hf He Hk Hst held overhead. pose proof (ptx_reachable_inv _ _ Hr) as Hinv.
  pose proof (ptx_fresh_tracks (fun _ _ _ => True) s0 Hf) as Htr.
  destruct (ptx_exec_effect (fun _ _ _ => True) false _ _ _ _ _ _ He Hinv Hk) as [[N M _ _ _ _ _ T _] _]; [done|].
  destruct (T [] Htr) as [_ _ _ Tn]; [done|]. cbn [app] in Tn.
  destruct (tb_live _ _ (proj1 (ptx_exec_inv _ _ _ _ _ _ He Hinv)) Hst) as (Hl & _). pose proof (lv_size _ _ Hl) as Hsz.
  destruct (lv_order _ _ Hl) as [Ho Ho']. pose proof (lv_window _ _ Hl) as Hw. destruct (ptx_cfg_facts cfg Hcfg) as [_ Hs].
  assert (ptw_lengths (ptx_window s) (ptx_next_ack s) (ptx_next s) = (fun x => u32 (zlen x.2)) <$> held) as El.
  { unfold held. rewrite <- (ptx_lengths_held s (nums_of out) (ptx_next s0) (ptx_next s)) by done.
    assert (forall c, ptx_next_ack s <= c < ptx_next s0 \/ ptx_next s0 <= c < ptx_next_ack s -> ptw_view (ptx_window s) c = None) as Hout.
    { intros c Hc. destruct (ptw_view (ptx_window s) c) as [e|] eqn:E; [|done]. pose proof (pok_range _ _ _ _ Hw _ _ E).
      destruct (Tn c e E) as (sdu & Hin & _). apply (list_elem_of_fmap_2 fst) in Hin. rewrite M in Hin.
      apply elem_of_seqZ in Hin. cbn in Hin. lia. }
    destruct (decide (ptx_next_ack s <= ptx_next s0)).
    - rewrite (ptw_lengths_app _ (ptx_next_ack s) (ptx_next s0)), (ptw_lengths_none _ (ptx_next_ack s) (ptx_next s0)) by (lia || (intros; apply Hout; lia)).
      done.
    - rewrite (ptw_lengths_app _ (ptx_next s0) (ptx_next_ack s)), (ptw_lengths_none _ (ptx_next s0) (ptx_next_ack s)) by (lia || (intros; apply Hout; lia)).
      done. }
  pose proof (pok_nof _ _ _ _ Hw) as Hn. pose proof (pok_bytes _ _ _ _ Hw) as Hb.
  pose proof (ptw_len_bounds (ptx_window s) (ptx_next_ack s) (ptx_next s)) as Hlen. rewrite El in Hn, Hb, Hlen.
  assert (zlen ((fun x : Z * list Z => u32 (zlen x.2)) <$> held) = zlen held) as Ez by (unfold zlen; by rewrite length_fmap).
  rewrite Ez in Hn, Hlen. rewrite (sum_of_wrap (fun x : Z * list Z => zlen x.2)) in Hb.
  split; [done|]. split; [lia|]. split; [done|].
  unfold ptw_get_pdu_bytes. fold overhead. rewrite (wrap_small 32 overhead); [by rewrite Hb, Hn, wrap_add_l, wrap_add_r, sum_of_add by lia|].
  unfold in_range, overhead, pdcp_data_header_size, pdcp_data_trailer_size.
  case_bool_decide; destruct (ptx_rb_type cfg), integrity; lia.
Qed.

(** ** Acknowledgements *)

(** The lower layers report by sequence number; its COUNT is found again. *)
Lemma notification_exact s count :
  ptx_live cfg s -> ptx_next_ack s <= count < ptx_next s ->
  notification_count_estimation cfg (ptx_SN cfg count) s = count /\
  (pdcp_sn_cardinality (ptx_sn_size cfg) <=? ptx_SN cfg count) = false.
Proof.
  intros Hl Hc. destruct (lv_order _ _ Hl) as [Ho Ho']. pose proof (lv_size _ _ Hl) as Hsize.
  destruct (ptx_cfg_facts cfg Hcfg) as [Htm Hsz]. split.
  - unfold notification_count_estimation, ptx_SN, ptx_window_size in *. rewrite Htm.
    apply estimate_count_spec; [done|unfold in_range; lia|unfold in_range; lia|lia].
  - apply Z.leb_gt. unfold ptx_SN, pdcp_sn_cardinality. destruct (pdcp_sizes _ Hsz) as (Hn & _).
    rewrite compute_sn_spec, Z.shiftl_1_l by done. apply Z.mod_pos_bound. apply Z.pow_pos_nonneg; lia.
Qed.

(** C37. A notification acts on exactly what it reports. Let the entity be reachable and not
    stopped, and the PDU of the COUNT reported already submitted (below TX_TRANS_CRYPTO) and
    the SDU not yet acknowledged, in unacknowledged mode not yet reported either; and let
    the SDU after it, if one was numbered, still be in the window (otherwise the code may
    abort, see acknowledged_hole_panics). Then the delivery of the SDU with a SN in
    acknowledged mode, or its transmission in unacknowledged mode, takes it and those before
    it out of the window and nothing else, and the discard timer, when it is finite, then
    expires when the oldest SDU that is left has waited for its duration. *)
Theorem pdcp_tx_notified halted s op now count :
  ptx_reachable halted s -> ptx_stopped s = false -> ptx_next_ack s <= count < ptx_trans_crypto s ->
  (count + 1 < ptx_next s -> is_Some (ptx_view s (count + 1))) ->
  op = PdcpTxDelivered now (ptx_SN cfg count) /\ ptx_is_am cfg = true \/
  op = PdcpTxTransmitted now (ptx_SN cfg count) /\ ptx_is_um cfg = true /\ ptx_trans s <= count ->
  exists s', pdcp_tx_step cfg op s = Ok (s', []) /\ ptx_next_ack s' = count + 1 /\
    (forall c, ptx_view s' c = if decide (c <= count) then None else ptx_view s c) /\
    (forall d, ptx_discard_timer cfg = Some d -> d <> -1 -> count + 1 < ptx_next s ->
     exists t, ptx_arrived s (count + 1) = Some t /\ ptx_discard_expiry s' = Some (u32 (t + d))).
Proof.
  intros Hr Hst Hc Hnext Hop. pose proof (ptx_reachable_inv _ _ Hr) as [Hb _]. destruct (tb_live _ _ Hb Hst) as (Hl & Hti & _).
  destruct (lv_order _ _ Hl) as [Ho Ho']. pose proof (lv_size _ _ Hl) as Hsize. destruct (ptx_cfg_facts cfg Hcfg) as [Htm Hsz].
  destruct (notification_exact s count Hl) as [Ecount Ecard]; [lia|].
  assert (ptx_discard_timer cfg <> None) as Hd. { destruct Hcfg as (_ & _ & _ & _ & d & Hd & _). congruence. }
  assert (forall x, let s1 := s <| ptx_trans := x |> in ptx_live cfg s1 ->
    exists s', stop_discard_timer cfg now count s1 = Ok s' /\ ptx_next_ack s' = count + 1 /\
    (forall c, ptx_view s' c = if decide (c <= count) then None else ptx_view s c) /\
    (forall d, ptx_discard_timer cfg = Some d -> d <> -1 -> count + 1 < ptx_next s ->
     exists t, ptx_arrived s (count + 1) = Some t /\ ptx_discard_expiry s' = Some (u32 (t + d)))) as Hstop.
  { intros x s1 Hl1. destruct (stop_discard_timer_spec cfg now count s1 Hsz Hl1) as (s' & -> & _ & _ & _ & Hs').
    - intros _. split; [|exact Hnext]. change (count < ptx_trans_crypto s). lia.
    - exists s'. split; [done|]. apply Hs'; [done|]. change (ptx_next_ack s <= count < ptx_next s). lia. }
  destruct Hop as [[-> Ham]|(-> & Hum & Htr)]; cbn [pdcp_tx_step]; unfold quietly.
  - unfold handle_delivery_notification, handle_delivery_notification_impl. rewrite Hst, Ecard, Ecount, Htm, Ham. cbn [negb].
    rewrite (proj2 (Z.leb_gt _ _)) by lia. destruct (Hstop (ptx_trans s)) as (s' & E & Hs'); [by destruct s|].
    replace (s <| ptx_trans := ptx_trans s |>) with s in E by (by destruct s). rewrite E. by exists s'.
  - unfold handle_transmit_notification, handle_transmit_notification_impl. rewrite Hst, Ecard, Ecount, Htm, Hum. cbn [negb].
    rewrite !(proj2 (Z.leb_gt _ _)), (proj2 (Z.ltb_ge _ _)) by lia. rewrite wrap_small by (unfold in_range; lia).
    destruct (Hstop (count + 1)) as (s' & E & Hs'); [apply ptx_live_trans; [done|lia]|]. rewrite E. by exists s'.
Qed.

(** ** The discard timer *)

Lemma ptx_expiry_submitted s : ptx_live cfg s -> ptx_trans_crypto s = ptx_next s -> ptx_expiry_ok s.
Proof.
  intros Hl Ec c Hold E. rewrite Ec. unfold ptx_arrived in *. destruct (ptx_view s c) as [e|] eqn:Ev; [|rewrite <- E in Hold; by destruct Hold].
  apply (pok_range _ _ _ _ (lv_window _ _ Hl)) in Ev. lia.
Qed.

Lemma ptx_discard_expired_spec halted now s :
  ptx_inv cfg halted s -> ptx_stopped s = false -> ptx_finite cfg -> ptx_trans_crypto s = ptx_next s -> ptx_next_ack s < ptx_next s ->
  exists s' out, pdcp_tx_step cfg (PdcpTxDiscardExpired now) s = Ok (s', out) /\ ptx_inv cfg halted s' /\
    ptx_stopped s' = false /\ ptx_trans_crypto s' = ptx_next s' /\ ptx_next s' = ptx_next s /\
    exists t out', ptx_arrived s (ptx_next_ack s) = Some t /\ out = PdcpTxMetricDiscardTimeouts 1 :: out' /\
      ptx_expired cfg now t (s <| ptx_discard_expiry := None |>) s' out'.
Proof.
  intros Hinv Hst Hf Ec Hlt. destruct (ptx_cfg_facts cfg Hcfg) as [Htm Hsz].
  destruct (tb_live _ _ (proj1 Hinv) Hst) as (Hl & [Hti _] & _). destruct (Hti Hf Hlt) as [x Ex].
  destruct (pdcp_tx_step_inv halted s (PdcpTxDiscardExpired now) Hinv) as (s' & out & E & Hinv').
  { intros _. by apply ptx_expiry_submitted. }
  exists s', out. pose proof E as E'. cbn [pdcp_tx_step] in E'. rewrite Ex in E'. split; [done|]. split; [done|].
  set (s0 := s <| ptx_discard_expiry := None |>) in *.
  destruct (discard_callback_spec cfg now s0 Htm Hsz Hf) as (s1 & out1 & E1 & Htr & Hl1 & _ & _ & Hcase); try done.
  { by apply ptx_live_expiry. } { by apply (ptx_expiry_submitted s). }
  rewrite E1 in E'. injection E' as <- <-. destruct (ptx_core_fields _ _ (tr_core _ _ Htr)) as (En & Es & _).
  split; [by rewrite Es|]. split; [by rewrite (tr_crypto _ _ Htr), En|]. split; [done|].
  destruct Hcase as [(_ & _ & Ea)|(t & Ht & Hx)]; [change (ptx_next_ack s = ptx_next s) in Ea; lia|]. exists t, out1. by split_and!.
Qed.

Lemma ptx_discards_run nows halted s :
  ptx_inv cfg halted s -> ptx_stopped s = false -> ptx_finite cfg -> ptx_trans_crypto s = ptx_next s ->
  ptx_next s - ptx_next_ack s <= zlen nows ->
  exists s' out, pdcp_tx_run cfg (PdcpTxDiscardExpired <$> nows) s = Ok (s', out) /\
    (forall c, ptx_view s' c = None) /\ ptx_next_ack s' = ptx_next s' /\
    discards_of out = ptx_SN cfg <$> present s (ptx_next_ack s) (ptx_next s).
Proof.
  revert s. induction nows as [|now nows IH]; intros s Hinv Hst Hf Ec Hlen; destruct (tb_live _ _ (proj1 Hinv) Hst) as (Hl & [_ Hti] & _);
    destruct (lv_order _ _ Hl) as [Ho Ho']; cbn [fmap list_fmap pdcp_tx_run].
  - change (zlen (@nil Z)) with 0 in Hlen. assert (ptx_next_ack s = ptx_next s) as En by lia. exists s, []. split; [done|].
    split; [|split; [done|by rewrite En; unfold present; rewrite Z.sub_diag]].
    intros c. destruct (ptx_view s c) eqn:E; [|done]. apply (pok_range _ _ _ _ (lv_window _ _ Hl)) in E. lia.
  - destruct (decide (ptx_next_ack s < ptx_next s)) as [Hlt|Hge].
    + destruct (ptx_discard_expired_spec halted now s Hinv Hst Hf Ec Hlt) as (s1 & out1 & E1 & Hinv1 & Hst1 & Ec1 & En1 & t & out1' & _ & -> & [X1 X2 _ X4 _ _]).
      change (fmap PdcpTxDiscardExpired nows) with (PdcpTxDiscardExpired <$> nows). rewrite E1. unfold emit_bind. cbn [checked_bind].
      change (ptx_next_ack (s <| ptx_discard_expiry := None |>)) with (ptx_next_ack s) in *.
      change (ptx_next (s <| ptx_discard_expiry := None |>)) with (ptx_next s) in *.
      rewrite zlen_cons in Hlen. destruct (IH s1) as (s2 & out2 & -> & Hv & Ea & Hd); [done|done|done|done|lia|].
      cbn [checked_bind]. eexists _, _. split; [done|]. split; [done|]. split; [done|].
      change (PdcpTxMetricDiscardTimeouts 1 :: out1') with ([PdcpTxMetricDiscardTimeouts 1] ++ out1').
      rewrite !discards_of_app, Hd, X4, (present_app s _ (ptx_next_ack s1)), fmap_app, En1 by lia. cbn [discards_of omap list_omap app].
      f_equal. f_equal. apply present_ext. intros c Hc. rewrite X2, decide_False by lia. done.
    + assert (ptx_next_ack s = ptx_next s) as En by lia.
      change (fmap PdcpTxDiscardExpired nows) with (PdcpTxDiscardExpired <$> nows).
      assert (exists s1 out1, pdcp_tx_step cfg (PdcpTxDiscardExpired now) s = Ok (s1, out1) /\ discards_of out1 = [] /\
        ptx_core s1 = ptx_core s /\ ptx_trans_crypto s1 = ptx_trans_crypto s /\ ptx_next_ack s1 = ptx_next_ack s) as
        (s1 & out1 & E1 & Hd1 & C1 & Ec1 & Ea1).
      { cbn [pdcp_tx_step]. destruct (ptx_discard_expiry s) as [x|]; [|by exists s, []]. unfold discard_callback.
        change (ptx_stopped (s <| ptx_discard_expiry := None |>)) with (ptx_stopped s). rewrite Hst, ptw_has_view.
        change (ptw_view (ptx_window (s <| ptx_discard_expiry := None |>)) (ptx_next_ack (s <| ptx_discard_expiry := None |>)))
          with (ptx_view s (ptx_next_ack s)).
        destruct (ptx_view s (ptx_next_ack s)) eqn:E; [apply (pok_range _ _ _ _ (lv_window _ _ Hl)) in E; lia|]. by eexists _, _. }
      destruct (pdcp_tx_step_inv halted s (PdcpTxDiscardExpired now) Hinv) as (s1' & out1' & E1' & Hinv1).
      { intros _. by apply ptx_expiry_submitted. }
      rewrite E1 in E1' |- *. injection E1' as <- <-. destruct (ptx_core_fields _ _ C1) as (En1 & Es1 & _).
      unfold emit_bind. cbn [checked_bind]. pose proof (zlen_nonneg nows).
      destruct (IH s1) as (s2 & out2 & -> & Hv & Ea & Hd); [done|congruence|done|congruence|rewrite En1, Ea1; lia|].
      cbn [checked_bind]. eexists _, _. split; [done|]. split; [done|]. split; [done|].
      rewrite discards_of_app, Hd1, Hd, En1, Ea1, En. unfold present. by rewrite Z.sub_diag.
Qed.

(** The discard timer bounds the stay of an SDU in the window: when it expires, exactly the
    SDUs that arrived with the oldest one are discarded, in order, the lower layers are
    told their SNs, and the timer is started again for the time by which the next SDU
    is younger; so once all PDUs were submitted, as many expiries as there are SDUs
    at most empty the window. *)
Theorem pdcp_tx_discard_expiry halted s nows :
  ptx_reachable halted s -> ptx_stopped s = false -> ptx_finite cfg -> ptx_trans_crypto s = ptx_next s ->
  (forall now, ptx_next_ack s < ptx_next s ->
   exists s' out t, pdcp_tx_step cfg (PdcpTxDiscardExpired now) s = Ok (s', out) /\
     ptx_arrived s (ptx_next_ack s) = Some t /\ ptx_next_ack s < ptx_next_ack s' /\
     (forall c, ptx_view s' c = if decide (c < ptx_next_ack s') then None else ptx_view s c) /\
     (forall c, c < ptx_next_ack s' -> is_Some (ptx_view s c) -> ptx_arrived s c = Some t) /\
     discards_of out = ptx_SN cfg <$> present s (ptx_next_ack s) (ptx_next_ack s') /\
     (ptx_next_ack s' < ptx_next s -> exists t', ptx_arrived s (ptx_next_ack s') = Some t' /\ t' <> t /\
        ptx_discard_expiry s' = Some (u32 (now + u32 (t' - t))))) /\
  (ptx_next s - ptx_next_ack s <= zlen nows ->
   exists s' out, pdcp_tx_run cfg (PdcpTxDiscardExpired <$> nows) s = Ok (s', out) /\
     (forall c, ptx_view s' c = None) /\ ptx_next_ack s' = ptx_next s' /\
     discards_of out = ptx_SN cfg <$> present s (ptx_next_ack s) (ptx_next s)).
Proof.
  intros Hr Hst Hf Ec. pose proof (ptx_reachable_inv _ _ Hr) as Hinv. destruct (tb_live _ _ (proj1 Hinv) Hst) as (Hl & _). split.
  - intros now Hlt.
    destruct (ptx_discard_expired_spec halted now s Hinv Hst Hf Ec Hlt) as (s1 & out1 & E1 & _ & _ & _ & _ & t & out1' & Ht & -> & [X1 X2 X3 X4 X5 _]).
    exists s1, (PdcpTxMetricDiscardTimeouts 1 :: out1'), t. split; [done|]. split; [done|]. split; [apply X1|]. split; [done|]. split; [|split; [done|done]].
    intros c Hc Hs. apply X3; [|done]. destruct Hs as [e He]. apply (pok_range _ _ _ _ (lv_window _ _ Hl)) in He.
    change (ptx_next_ack s <= c < ptx_next_ack s1). lia.
  - intros Hlen. by apply (ptx_discards_run nows halted).
Qed.

End tx_runs.
