(* ===== verification/PdcpLink.v ===== *)
(** * PDCP: both ends of a bearer

    A transmitting and a receiving entity with the same keys and length of sequence
    numbers: what is delivered is what was numbered, in its order, and the status
    reports of the receiver take out of the window of the transmitter exactly what
    was received. *)
From stdpp Require Import base numbers list sorting sets.
From Stdlib Require Import ZArith Lia.
From S2P Require Import Prelude.
From S2P Require Import SduWindow.
From S2P Require Import BitEncoding.
From S2P Require Import SecurityEngine.
From S2P Require Import PdcpSn.
From S2P Require Import PdcpPdu.
From S2P Require Import PdcpCryptoToken.
From S2P Require Import PdcpRx.
From S2P Require Import PdcpRxProps.
From S2P Require Import PdcpRxSteps.
From S2P Require Import PdcpRxRuns.
From S2P Require Import PdcpTxWindow.
From S2P Require Import PdcpTx.
From S2P Require Import PdcpTxProps.
From S2P Require Import PdcpTxReports.
From S2P Require Import PdcpTxSteps.
From S2P Require Import PdcpTxRuns.

Set Default Goal Selector "!".
Open Scope Z_scope.
Open Scope ran_scope.

(** ** Numbered lists *)

(** Numbered items of a numbered list, in its order. *)
Lemma numbered_sublist {A} (l l' : list (Z * A)) :
  StronglySorted Z.lt l.*1 -> StronglySorted Z.lt l'.*1 -> (forall x, x ∈ l -> x ∈ l') -> l `sublist_of` l'.
Proof.
  revert l. induction l' as [|[k v] l' IH]; intros l Hs Hs' Hin.
  { destruct l as [|x l]; [done|]. specialize (Hin x (list_elem_of_here _ _)). by apply elem_of_nil in Hin. }
  cbn in Hs'. apply StronglySorted_inv in Hs' as [Hs' Hlt].
  destruct l as [|[k1 v1] l]; [apply sublist_nil_l|].
  pose proof Hs as Hs0. cbn in Hs. apply StronglySorted_inv in Hs as [Hs Hlt1].
  assert (forall x, x ∈ l' -> k < x.1) as Hgt.
  { intros x Hx. rewrite Forall_forall in Hlt. apply Hlt. by apply list_elem_of_fmap_2. }
  pose proof (Hin (k1, v1) (list_elem_of_here _ _)) as H1. apply elem_of_cons in H1 as [[= -> ->]|H1].
  - apply sublist_skip. apply IH; [done|done|]. intros x Hx. pose proof (Hin x (list_elem_of_further _ _ _ Hx)) as H2.
    apply elem_of_cons in H2 as [->|]; [|done]. rewrite Forall_forall in Hlt1. exfalso.
    assert (k < k) by (apply Hlt1; by apply (list_elem_of_fmap_2 fst) in Hx). lia.
  - apply sublist_cons. apply IH; [done|done|]. intros x Hx. pose proof (Hin x Hx) as H2.
    apply elem_of_cons in H2 as [->|]; [|done]. exfalso. apply Hgt in H1. cbn in H1.
    apply elem_of_cons in Hx as [[= -> ->]|Hx]; [lia|]. rewrite Forall_forall in Hlt1.
    assert (k1 < k) by (apply Hlt1; by apply (list_elem_of_fmap_2 fst) in Hx). lia.
Qed.

Lemma numbered_prefix {A} (l l' : list (Z * A)) a n m :
  l.*1 = seqZ a n -> l'.*1 = seqZ a m -> (forall x, x ∈ l -> x ∈ l') -> l `prefix_of` l'.
Proof.
  revert l' a n m. induction l as [|[k v] l IH]; intros l' a n m Hn Hm Hin; [apply prefix_nil|].
  assert (0 < n) as Hpos by (destruct (decide (0 < n)); [done|]; by rewrite seqZ_nil in Hn by lia).
  rewrite seqZ_cons in Hn by lia. cbn in Hn. injection Hn as -> Hn.
  pose proof (Hin (a, v) (list_elem_of_here _ _)) as H1.
  destruct l' as [|[k' v'] l']; [by apply elem_of_nil in H1|].
  assert (0 < m) as Hposm by (destruct (decide (0 < m)); [done|]; by rewrite seqZ_nil in Hm by lia).
  pose proof (NoDup_seqZ a m) as Hnd. rewrite <- Hm in Hnd. rewrite seqZ_cons in Hm by lia. cbn in Hm. injection Hm as -> Hm.
  assert (v' = v) as -> by (by apply (key_unique ((a, v') :: l') a); [|apply list_elem_of_here|]).
  apply prefix_cons. apply (IH l' (Z.succ a) (Z.pred n) (Z.pred m)); [done|done|].
  intros x Hx. pose proof (Hin x (list_elem_of_further _ _ _ Hx)) as H2. apply elem_of_cons in H2 as [->|]; [|done].
  exfalso. apply (list_elem_of_fmap_2 fst) in Hx. change (list_fmap _ _ fst l) with l.*1 in Hx. rewrite Hn in Hx.
  apply elem_of_seqZ in Hx. cbn in Hx. lia.
Qed.

Section link.
Context {W : Type -> Type} `{!SduWindow W} `{!SduWindowLaws W} `{!SecurityAlgorithms} `{!SecurityLaws}.
Variable tcfg : pdcp_tx_config.
Variable rcfg : pdcp_rx_config.

Hypothesis Htcfg : ptx_cfg_ok tcfg.
Hypothesis Hrcfg : prx_cfg_ok rcfg.
Hypothesis Hsize : ptx_sn_size tcfg = prx_sn_size rcfg.

(** ** Authenticity *)

(** The header of a protected PDU is in clear. *)
Lemma protected_header eng count sdu pdu sn :
  ptx_protects tcfg eng count sdu pdu -> pdcp_read_data_pdu_header (ptx_sn_size tcfg) pdu = Some sn ->
  sn = ptx_SN tcfg count /\
  decrypt_and_verify_integrity eng pdu (pdcp_data_pdu_header_size (ptx_sn_size tcfg)) count =
    mk_security_result (inl (framed tcfg count sdu)) count.
Proof.
  intros Hp Hr. destruct Htcfg as (Hb & _). pose proof Hb as [Hsz _]. set (h := pdcp_data_pdu_header_size (ptx_sn_size tcfg)).
  assert (0 <= ptx_SN tcfg count < 2 ^ pdcp_to_number (ptx_sn_size tcfg)) as Hsn.
  { unfold ptx_SN. rewrite compute_sn_spec by done. apply Z.mod_pos_bound, Z.pow_pos_nonneg; [lia|].
    destruct (pdcp_sizes _ Hsz). lia. }
  assert (h < zlen pdu) as Hl.
  { unfold pdcp_read_data_pdu_header in Hr. destruct (_ <=? _) eqn:E; [done|]. zbool. done. }
  assert (0 <= h) as Hh by (unfold h; destruct (ptx_sn_size tcfg); cbn; lia).
  assert (forall rest, rest <> [] -> pdcp_read_data_pdu_header (ptx_sn_size tcfg)
      (pdcp_header (ptx_is_srb tcfg) (ptx_sn_size tcfg) (ptx_SN tcfg count) ++ rest) = Some (ptx_SN tcfg count) /\
    zlen (pdcp_header (ptx_is_srb tcfg) (ptx_sn_size tcfg) (ptx_SN tcfg count)) = h) as Hread.
  { intros rest Hne. by destruct (pdcp_header_read (ptx_is_srb tcfg) _ _ rest Hb Hsn Hne) as (? & _ & ? & _). }
  destruct (Hread [0] ltac:(done)) as [_ Hlen].
  assert (framed tcfg count sdu <> []) as Hne.
  { intros E. apply (f_equal length) in E. unfold framed in E. rewrite length_app in E. cbn in E. unfold zlen in Hlen.
    assert (0 < h) by (unfold h; by destruct (ptx_sn_size tcfg)). lia. }
  assert (decrypt_and_verify_integrity eng pdu h count = mk_security_result (inl (framed tcfg count sdu)) count) as Hd.
  { apply (security_iff eng (framed tcfg count sdu) pdu h count); [done|lia|exact Hp]. }
  split; [|done].
  assert (take (Z.to_nat h) pdu = take (Z.to_nat h) (framed tcfg count sdu)) as Ht.
  { apply (security_clear eng _ pdu h count); [lia|done|]. unfold framed. rewrite zlen_app. pose proof (zlen_nonneg sdu). lia. }
  unfold framed in Ht. rewrite take_app_length' in Ht by (unfold zlen in Hlen; lia).
  rewrite <- (take_drop (Z.to_nat h) pdu), Ht in Hr.
  destruct (Hread (drop (Z.to_nat h) pdu)) as [E _]; [|congruence].
  intros E. apply (f_equal length) in E. rewrite length_drop in E. cbn in E. unfold zlen in Hl. lia.
Qed.
(** What the receiver opens is what was numbered: a PDU that a sender with the same keys
    made for a COUNT within a window of the one expected. *)
Definition crossed (pdus : list (Z * list Z)) (deliv : Z) (pdu : list Z) : Prop :=
  is_u32 deliv /\ exists count, (count, pdu) ∈ pdus /\
    deliv - prx_window_size rcfg <= count < deliv + prx_window_size rcfg.

Lemma opened_numbered eng (nums pdus : list (Z * list Z)) count sdu :
  Forall (fun x => is_u32 x.1 /\ exists sdu, (x.1, sdu) ∈ nums /\ ptx_protects tcfg eng x.1 sdu x.2) pdus ->
  opened_from rcfg (crossed pdus) eng count sdu -> (count, sdu) ∈ nums.
Proof.
  intros Hpdus (deliv & pdu & (Hd & count' & Hin & Hwin) & Hest & header & Hlen & Hread & Henc).
  rewrite Forall_forall in Hpdus. destruct (Hpdus _ Hin) as (Hc & sdu' & Hnum & Hp). cbn in Hc, Hnum, Hp.
  unfold prx_hdr_len_bytes, prx_window_size in *. rewrite <- Hsize in *. pose proof Htcfg as ([Hsz _] & _).
  destruct (protected_header eng count' sdu' pdu _ Hp Hread) as [Hsn Hdec]. unfold ptx_SN in Hsn.
  assert (count = count') as ->.
  { rewrite Hest, Hsn. by apply estimate_count_spec. }
  set (h := pdcp_data_pdu_header_size (ptx_sn_size tcfg)) in *.
  assert (0 < h < zlen pdu) as Hh.
  { split; [unfold h; by destruct (ptx_sn_size tcfg)|]. unfold pdcp_read_data_pdu_header in Hread.
    destruct (_ <=? _) eqn:E; [done|]. by zbool. }
  apply security_iff in Henc; [|intros E; apply (f_equal length) in E; rewrite length_app in E; cbn in E; unfold zlen in Hlen; lia|lia].
  rewrite Hdec in Henc. injection Henc as E. unfold framed in E.
  apply app_inj_1 in E as [_ <-]; [done|].
  assert (zlen (pdcp_header (ptx_is_srb tcfg) (ptx_sn_size tcfg) (ptx_SN tcfg count')) = h) as Hl.
  { destruct (pdcp_header_read (ptx_is_srb tcfg) (ptx_sn_size tcfg) (ptx_SN tcfg count') [0]) as (? & _); [apply Htcfg| |done|done].
    unfold ptx_SN. rewrite compute_sn_spec by done. apply Z.mod_pos_bound, Z.pow_pos_nonneg; [lia|]. destruct (pdcp_sizes _ Hsz). lia. }
  unfold zlen in *. lia.
Qed.

(** RX_DELIV is a 32-bit COUNT whenever a PDU arrives. *)
Lemma prx_arrivals_u32 (P : pdcp_rx_entity W -> list Z -> Prop) halted s ops out halted' s' :
  prx_exec rcfg halted s ops out halted' s' -> prx_inv rcfg halted s -> prx_arrivals rcfg P ops s ->
  prx_arrivals rcfg (fun s buf => P s buf /\ is_u32 (prx_deliv s)) ops s.
Proof.
  intros He. induction He as [|h s op ops s1 out1 out2 h2 s2 Hop Hstep He IH]; intros Hinv; [done|].
  cbn [prx_arrivals]. intros [Hp Hr]. split.
  - destruct op; try done. split; [done|]. destruct (inv_held _ _ _ Hinv). unfold in_range. lia.
  - rewrite Hstep in *. apply IH; [|done]. destruct (pdcp_rx_step_inv rcfg h s op Hrcfg Hinv Hop) as (s1' & out1' & E & Hinv').
    rewrite Hstep in E. by injection E as <- <-.
Qed.

Lemma prx_arrivals_impl (P Q : pdcp_rx_entity W -> list Z -> Prop) ops s :
  (forall s buf, P s buf -> Q s buf) -> prx_arrivals rcfg P ops s -> prx_arrivals rcfg Q ops s.
Proof.
  intros HPQ. revert s. induction ops as [|op ops IH]; intros s; [done|]. cbn [prx_arrivals]. intros [Hp Hr]. split.
  - destruct op; auto.
  - destruct (pdcp_rx_step rcfg op s) as [[s1 ?]|]; auto.
Qed.

(** ** End to end *)

(** C2. End to end: let an entity transmit, and let what it submits reach, in any order, with
    losses and repetitions, a receiving entity with the same keys and length of
    sequence numbers that expects a COUNT less than a window away; then what the receiver
    delivers is a subsequence of what the transmitter numbered, SDU by SDU and COUNT by
    COUNT, and when t-Reordering is infinite and both start at the same COUNT, a prefix
    of it: nothing is altered, doubled or overtaken, and nothing is left out. *)
Theorem pdcp_end_to_end thalted t0 tops tout thalted' t rhalted r0 rops rout rhalted' r eng :
  ptx_reachable tcfg thalted t0 -> ptx_fresh t0 ->
  ptx_sec_engine_pool t0 = replicate (Z.to_nat (ptx_max_nof_crypto_workers tcfg)) (Some eng) ->
  ptx_exec tcfg thalted t0 tops tout thalted' t -> forallb ptx_keeps tops = true ->
  prx_reachable rcfg rhalted r0 -> prx_fresh r0 ->
  prx_sec_engine_pool r0 = replicate (Z.to_nat (prx_max_nof_crypto_workers rcfg)) (Some eng) ->
  prx_exec rcfg rhalted r0 rops rout rhalted' r -> forallb prx_keeps rops = true ->
  prx_arrivals rcfg (fun s pdu => prx_stopped s = false -> prx_buffering s = false /\
    exists count, (count, pdu) ∈ pdus_of tout /\
      prx_deliv s - prx_window_size rcfg <= count < prx_deliv s + prx_window_size rcfg) rops r0 ->
  sdus_of rout `sublist_of` nums_of tout /\
  (prx_t_reordering rcfg = -1 -> prx_deliv r0 = ptx_next t0 -> sdus_of rout `prefix_of` nums_of tout).
Proof.
  intros Htr Htf Htp Hte Htk Hrr Hrf Hrp Hre Hrk Harr.
  pose proof (ptx_reachable_inv tcfg Htcfg _ _ Htr) as Htinv. pose proof (prx_reachable_inv rcfg _ _ Hrcfg Hrr) as Hrinv.
  destruct (ptx_exec_effect tcfg Htcfg (engine_seals tcfg eng) false _ _ _ _ _ _ Hte Htinv Htk) as [[N M _ _ _ _ P _ _] _]; [done|].
  specialize (P [] (ptx_fresh_tracks tcfg _ t0 Htf) (engine_sealing tcfg Htcfg eng t0 Htp)). cbn [app] in P.
  pose proof (tb_counts _ _ (proj1 Htinv)) as [_ Hn0].
  pose proof (tb_counts _ _ (proj1 (ptx_exec_inv tcfg Htcfg _ _ _ _ _ _ Hte Htinv))) as [_ Hn].
  assert (Forall (fun x => is_u32 x.1 /\ exists sdu, (x.1, sdu) ∈ nums_of tout /\ ptx_protects tcfg eng x.1 sdu x.2) (pdus_of tout)) as Hpdus.
  { eapply Forall_impl; [exact P|]. intros [c pdu] (sdu & Hin & Hs). cbn in *. split; [|by exists sdu].
    apply (list_elem_of_fmap_2 fst) in Hin. rewrite M in Hin. apply elem_of_seqZ in Hin. cbn in Hin. unfold in_range. lia. }
  assert (prx_arrivals rcfg (arrives (crossed (pdus_of tout))) rops r0) as Harr'.
  { eapply prx_arrivals_impl; [|by eapply prx_arrivals_u32]. intros s pdu [Hp Hd] Hs.
    destruct (Hp Hs) as [-> (count & Hin & Hw)]. split; [done|]. by exists count. }
  destruct (prx_exec_effect rcfg _ _ _ _ _ _ _ _ Hrcfg Hre Hrinv Hrk Harr' (prx_fresh_tracks rcfg _ _ r0 Hrf)
    (engine_opens rcfg _ eng r0 Hrcfg Hrp)) as [_ S _ O _ L _].
  specialize (O (prx_fresh_tracks rcfg _ _ r0 Hrf) (engine_opens rcfg _ eng r0 Hrcfg Hrp)).
  assert (forall x, x ∈ sdus_of rout -> x ∈ nums_of tout) as Hsub.
  { rewrite Forall_forall in O. intros [c sdu] Hx. by apply (opened_numbered eng _ (pdus_of tout)); [|apply (O (c, sdu))]. }
  split.
  - apply numbered_sublist; [done| |done]. rewrite M. apply StronglySorted_seqZ.
  - intros Hi E0. eapply numbered_prefix; [by apply L|by rewrite M, E0|done].
Qed.
(** ** Status reports *)

(** What the receiver has: everything below RX_DELIV, and what is in its window as far as
    a report reaches. *)
Definition reported (r : pdcp_rx_entity W) (count : Z) : Prop :=
  count < prx_deliv r \/
  count < status_bitmap_end (prx_deliv r) (prx_next r) /\ is_Some (win_view (prx_window r) count).
#[export] Instance reported_dec r count : Decision (reported r count).
Proof. unfold reported. apply _. Defined.

Lemma bitmap_bits w a n :
  fields_bits ((fun c => (status_bit w c, 1)) <$> seqZ a n) = (fun c => has_sn w c) <$> seqZ a n.
Proof.
  induction (seqZ a n) as [|c l IH]; [done|]. cbn [fmap list_fmap fields_bits flat_map] in *. unfold fields_bits in IH. rewrite IH.
  unfold status_bit. by destruct (has_sn w c).
Qed.

(** A report read by the peer. *)
Lemma report_acknowledged halted room r :
  prx_reachable rcfg halted r -> prx_deliv r < 2 ^ 32 - 1 -> pdcp_control_pdu_max_size <= room ->
  exists report, compile_status_report room r = Ok report /\ forall c, acknowledged report c <-> reported r c.
Proof.
  intros Hr Hd Hroom. destruct (prx_reachable_inv rcfg _ _ Hrcfg Hr) as [[Hw _ Hc Hu Hs] [Hv _] _ _ _ _ _ _].
  destruct (compile_status_report_spec room r Hc Hu Hd Hroom) as (e & E & He). exists (be_bytes e). split; [done|].
  destruct (encodes_decodes e _ He) as (pad & Hdec & _). unfold report_fields in Hdec. unfold fields_bits in Hdec.
  rewrite flat_map_app, <- app_assoc in Hdec.
  set (stop := status_bitmap_end (prx_deliv r) (prx_next r)) in *.
  destruct (status_bitmap_end_range (prx_deliv r) (prx_next r) Hc Hu Hd) as (Hstop & _). fold stop in Hstop.
  intros c. unfold acknowledged. erewrite report_acks_spec; [|exact Hdec|lia].
  change (flat_map _ (bitmap_fields (prx_window r) (prx_deliv r + 1) stop)) with
    (fields_bits (bitmap_fields (prx_window r) (prx_deliv r + 1) stop)).
  unfold bitmap_fields. rewrite bitmap_bits, acks_of_app, acks_of_false, app_nil_r.
  replace (prx_deliv r) with (prx_deliv r + 1 - 1) at 2 by lia. rewrite acks_of_counts by lia.
  rewrite list_elem_of_filter, elem_of_seqZ, has_sn_spec. unfold reported. fold stop. split.
  - intros [?|[? ?]]; [by left|right; by split; [lia|]].
  - intros [?|[? Hsome]]; [by left|]. destruct (decide (c < prx_deliv r)); [by left|right]. split; [done|].
    destruct (decide (c = prx_deliv r)) as [->|]; [rewrite Hv in Hsome; by destruct Hsome|]. lia.
Qed.

(** C16. The status report of one end does at the other end what it says: applied to a
    transmitting entity that has submitted the PDUs it is about, the report that a
    receiving entity compiles, in any of its states, takes out of the window exactly the SDUs that the receiver has delivered, skipped or
    holds, and leaves every other SDU, the numbering and the submission as
    they are. *)
Theorem pdcp_status_report_applied thalted t rhalted r room :
  ptx_reachable tcfg thalted t -> ptx_stopped t = false -> prx_reachable rcfg rhalted r ->
  prx_deliv r < 2 ^ 32 - 1 -> pdcp_control_pdu_max_size <= room -> ptx_gone_ok (reported r) t ->
  exists report t' out, compile_status_report room r = Ok report /\
    pdcp_tx_step tcfg (PdcpTxStatusReport true report) t = Ok (t', out) /\
    pdus_of out = [] /\ ptx_next t' = ptx_next t /\ ptx_trans_crypto t' = ptx_trans_crypto t /\
    ptx_next_ack t <= ptx_next_ack t' /\
    forall c, ptx_view t' c = if decide (reported r c) then None else ptx_view t c.
Proof.
  intros Ht Hst Hr Hd Hroom Hgone. destruct (report_acknowledged rhalted room r Hr Hd Hroom) as (report & E & Hack).
  destruct (ptx_reachable_inv tcfg Htcfg _ _ Ht) as [Hb _]. destruct (tb_live _ _ Hb Hst) as (Hl & _).
  destruct (ptx_cfg_facts tcfg Htcfg) as [Htm Hsz].
  destruct (handle_status_report_spec tcfg Htm Hsz true report t) as (t' & out & E' & [T _ _ _ Q G K _]);
    [by left|apply Hl|intros _ c Hc; apply Hgone; by apply Hack|].
  exists report, t', out. split; [done|]. split; [done|]. split; [apply Q|].
  destruct (ptx_core_fields _ _ (tr_core _ _ T)) as (En & _). split; [done|]. split; [apply T|]. split; [apply T|].
  intros c. case_decide as Hc; [by apply G; split; [|apply Hack]|]. apply K. intros [_ Hc']. apply Hc. by apply Hack.
Qed.
End link.
