(* ===== verification/PdcpTxExamples.v ===== *)
(** * PDCP transmitting entity: executions and departures

    Concrete executions of a data bearer, and of both ends of it, to which the theorems of
    PdcpTxRuns and PdcpLink apply, and what the model shows where the code departs from
    its intent. *)
From stdpp Require Import base numbers list sorting.
From Stdlib Require Import ZArith Lia.
From S2P Require Import Prelude.
From S2P Require Import SduWindow.
From S2P Require Import BitEncoding.
From S2P Require Import SecurityEngine.
From S2P Require Import PdcpSn.
From S2P Require Import PdcpPdu.
From S2P Require Import PdcpCryptoToken.
From S2P Require Import PdcpRx.
From S2P Require Import PdcpRxProps.
From S2P Require Import PdcpRxSteps.
From S2P Require Import PdcpRxRuns.
From S2P Require Import PdcpRxExamples.
From S2P Require Import PdcpTxWindow.
From S2P Require Import PdcpTx.
From S2P Require Import PdcpTxProps.
From S2P Require Import PdcpTxReports.
From S2P Require Import PdcpTxSteps.
From S2P Require Import PdcpTxRuns.
From S2P Require Import PdcpLink.

Set Default Goal Selector "!".
Open Scope Z_scope.
Open Scope ran_scope.

#[local] Existing Instance xor_algorithms.
#[local] Existing Instance xor_laws.

(** ** A data bearer *)

Definition ex_ptx_cfg : pdcp_tx_config := {|
  ptx_rb_type := rb_drb; ptx_rlc_mode := rlc_mode_am; ptx_sn_size := pdcp_size12bits;
  ptx_direction := direction_uplink; ptx_discard_timer := Some 100; ptx_status_report_required := true;
  ptx_max_count_notify := 0xc0000000; ptx_max_count_hard := 0xd0000000; ptx_test_mode := false;
  ptx_bearer_id := 0; ptx_max_nof_crypto_workers := 1 |}.

Definition ex_ptx_sdu (now : Z) (sdu : list Z) : pdcp_tx_op := PdcpTxSdu (mk_pdcp_tx_env now true true true) sdu.

Definition ex_ptx_secure : list pdcp_tx_op :=
  [PdcpTxConfigureSecurity ex_sec_cfg true true; PdcpTxDesiredBufferSize 1000].
(** Two SDUs; the worker finishes the second one first. *)
Definition ex_ptx_two : list pdcp_tx_op :=
  [ex_ptx_sdu 5 [10]; ex_ptx_sdu 8 [11; 12]; PdcpTxCrypto 1 0 true true; PdcpTxUeTask 9;
   PdcpTxCrypto 0 0 true true; PdcpTxUeTask 9].

Definition ex_ptx_init : pdcp_tx_entity circular_map := ok_value (ptx_init (W := circular_map) ex_ptx_cfg).
Definition ex_ptx_configured : pdcp_tx_entity circular_map :=
  (ok_value (pdcp_tx_run (W := circular_map) ex_ptx_cfg ex_ptx_secure ex_ptx_init)).1.
Definition ex_ptx_result : pdcp_tx_entity circular_map * list pdcp_tx_output :=
  ok_value (pdcp_tx_run (W := circular_map) ex_ptx_cfg ex_ptx_two ex_ptx_configured).
Definition ex_ptx_sent : pdcp_tx_entity circular_map := ex_ptx_result.1.

Lemma ex_ptx_cfg_ok : ptx_cfg_ok ex_ptx_cfg.
Proof. split; [by split|]. split; [done|]. split; [by vm_compute|]. split; [by vm_compute|]. exists 100. split; [done|by right]. Qed.

(** The conditions of the events, evaluated. *)
Ltac ptx_op_ok_eval :=
  lazymatch goal with
  | |- ptx_op_ok _ _ _ (PdcpTxSdu _ _) => split; [by vm_compute|split; [by vm_compute|done]]
  | |- ptx_op_ok _ _ _ (PdcpTxCrypto _ _ _ _) =>
      split; [split; by vm_compute|]; intros info eng E1 E2; vm_compute in E1, E2;
      injection E1 as <-; injection E2 as <-; eexists _, _; split; vm_compute; reflexivity
  | |- ptx_op_ok _ _ _ (PdcpTxConfigureSecurity _ _ _) => split; by vm_compute
  | |- _ => exact I
  end.

(** An execution, evaluated. *)
Ltac ptx_exec_eval :=
  unfold ex_ptx_secure, ex_ptx_two, ex_ptx_sdu; cbn [app];
  repeat (eapply ptx_exec_cons; [ptx_op_ok_eval|vm_compute; reflexivity|]); apply ptx_exec_nil.

Lemma ex_ptx_configured_reachable : ptx_reachable ex_ptx_cfg false ex_ptx_configured.
Proof. exists ex_ptx_init, ex_ptx_secure. eexists. split; [by vm_compute|]. ptx_exec_eval. Qed.

Lemma ex_ptx_sent_reachable : ptx_reachable ex_ptx_cfg false ex_ptx_sent.
Proof. exists ex_ptx_init, (ex_ptx_secure ++ ex_ptx_two). eexists. split; [by vm_compute|]. ptx_exec_eval. Qed.

Lemma ex_ptx_sent_exec :
  ptx_exec ex_ptx_cfg false ex_ptx_configured ex_ptx_two ex_ptx_result.2 false ex_ptx_sent.
Proof.
  assert (exists out, out = ex_ptx_result.2 /\
    ptx_exec ex_ptx_cfg false ex_ptx_configured ex_ptx_two out false ex_ptx_sent) as (out & <- & H); [|done].
  eexists. split; [|ptx_exec_eval]. by vm_compute.
Qed.

Lemma ex_ptx_fresh : ptx_fresh ex_ptx_configured.
Proof.
  split; [done|]. split; [|done]. intros c. change (ptx_view ex_ptx_init c = None).
  destruct (pdcp_tx_init_inv (W := circular_map) ex_ptx_cfg ex_ptx_cfg_ok) as (s & E & _ & _ & _ & _ & _ & _ & _ & Hv & _).
  assert (s = ex_ptx_init) as <-; [|apply Hv]. vm_compute in E. by injection E as <-.
Qed.

(** What is held was submitted. *)
Lemma ex_held_submitted s :
  ptx_reachable ex_ptx_cfg false s -> ptx_stopped s = false -> ptx_trans_crypto s = ptx_next s ->
  forall c, is_Some (ptx_view s c) -> c < ptx_trans_crypto s.
Proof.
  intros Hr Hs Ec c [e He]. destruct (ptx_reachable_inv ex_ptx_cfg ex_ptx_cfg_ok _ _ Hr) as [Hb _].
  destruct (tb_live _ _ Hb Hs) as (Hl & _). apply (pok_range _ _ _ _ (lv_window _ _ Hl)) in He. lia.
Qed.
Lemma ex_ptx_submitted c : is_Some (ptx_view ex_ptx_sent c) -> c < ptx_trans_crypto ex_ptx_sent.
Proof. apply ex_held_submitted; [apply ex_ptx_sent_reachable|by vm_compute|by vm_compute]. Qed.

Lemma pdcp_tx_never_panics_witness :
  exists s' out, pdcp_tx_step ex_ptx_cfg (PdcpTxDiscardExpired 105) ex_ptx_sent = Ok (s', out) /\
    (ptx_stopped s' = false ->
     0 <= ptx_next_ack s' <= ptx_trans_crypto s' /\ ptx_trans_crypto s' <= ptx_next s' < 2 ^ 32 /\
     ptx_next s' - ptx_next_ack s' <= ptx_window_size ex_ptx_cfg).
Proof.
  apply (pdcp_tx_never_panics ex_ptx_cfg ex_ptx_cfg_ok false); [apply ex_ptx_sent_reachable|].
  intros _ c Hold E. apply ex_ptx_submitted. unfold ptx_arrived in *.
  destruct (ptx_view ex_ptx_sent c); [by eexists|]. rewrite <- E in Hold. by destruct Hold.
Defined.

Lemma pdcp_tx_in_order_witness :
  nums_of ex_ptx_result.2 = [(0, [10]); (1, [11; 12])] /\ (pdus_of ex_ptx_result.2).*1 = [0; 1] /\
  StronglySorted Z.lt (pdus_of ex_ptx_result.2).*1.
Proof.
  split; [by vm_compute|]. split; [by vm_compute|].
  apply (pdcp_tx_in_order ex_ptx_cfg ex_ptx_cfg_ok false ex_ptx_configured ex_ptx_two _ false ex_ptx_sent xor_engine);
    [apply ex_ptx_configured_reachable|apply ex_ptx_fresh|by vm_compute|apply ex_ptx_sent_exec|done].
Defined.

Lemma pdcp_tx_window_account_witness :
  ptw_nof_sdus (ptx_window ex_ptx_sent) = 2 /\
  ptw_get_pdu_bytes rb_drb pdcp_size12bits true (ptx_window ex_ptx_sent) = 15 /\
  ptw_nof_sdus (ptx_window ex_ptx_sent) =
    zlen (filter (fun x : Z * list Z => is_Some (ptx_view ex_ptx_sent x.1)) (nums_of ex_ptx_result.2)).
Proof.
  split; [by vm_compute|]. split; [by vm_compute|].
  apply (pdcp_tx_window_account ex_ptx_cfg ex_ptx_cfg_ok false ex_ptx_configured ex_ptx_two _ false ex_ptx_sent true);
    [apply ex_ptx_configured_reachable|apply ex_ptx_fresh|apply ex_ptx_sent_exec|done|by vm_compute].
Defined.

Lemma pdcp_tx_notified_witness :
  exists s', pdcp_tx_step ex_ptx_cfg (PdcpTxDelivered 50 0) ex_ptx_sent = Ok (s', []) /\ ptx_next_ack s' = 1 /\
    (forall c, ptx_view s' c = if decide (c <= 0) then None else ptx_view ex_ptx_sent c) /\
    (forall d, ptx_discard_timer ex_ptx_cfg = Some d -> d <> -1 -> 1 < ptx_next ex_ptx_sent ->
     exists t, ptx_arrived ex_ptx_sent 1 = Some t /\ ptx_discard_expiry s' = Some (u32 (t + d))).
Proof.
  apply (pdcp_tx_notified ex_ptx_cfg ex_ptx_cfg_ok false ex_ptx_sent (PdcpTxDelivered 50 0) 50 0);
    [apply ex_ptx_sent_reachable|by vm_compute|by vm_compute| |by left].
  intros _. vm_compute. by eexists.
Defined.

Lemma pdcp_tx_discard_expiry_witness :
  exists s' out, pdcp_tx_run ex_ptx_cfg (PdcpTxDiscardExpired <$> [105; 108]) ex_ptx_sent = Ok (s', out) /\
    (forall c, ptx_view s' c = None) /\ ptx_next_ack s' = ptx_next s' /\
    discards_of out = ptx_SN ex_ptx_cfg <$> present ex_ptx_sent (ptx_next_ack ex_ptx_sent) (ptx_next ex_ptx_sent).
Proof.
  refine (proj2 (pdcp_tx_discard_expiry ex_ptx_cfg ex_ptx_cfg_ok false ex_ptx_sent [105; 108]
    ex_ptx_sent_reachable _ _ _) _); [by vm_compute|by exists 100|by vm_compute|by vm_compute].
Defined.

(** ** Both ends *)

(** The value of a computation, if it succeeds. *)
Definition value_or {A : Type} (d : A) (r : checked A) : A := match r with Ok a => a | Panic => d end.

(** The PDUs arrive in the wrong order, and one of them twice. *)
Definition ex_link_pdus : list (Z * list Z) := reverse (pdus_of ex_ptx_result.2) ++ take 1 (pdus_of ex_ptx_result.2).
Definition ex_link_ops : list pdcp_rx_op :=
  map (fun x : Z * list Z => PdcpRxPdu (mk_pdcp_rx_env true true) x.2) ex_link_pdus ++
  [PdcpRxCrypto 0 0 true; PdcpRxCrypto 0 0 true; PdcpRxCrypto 0 0 true; PdcpRxUeTask; PdcpRxUeTask; PdcpRxUeTask].
Definition ex_link_result : pdcp_rx_entity circular_map * list pdcp_rx_output :=
  value_or (ex_prx_configured, []) (pdcp_rx_run (W := circular_map) ex_prx_cfg ex_link_ops ex_prx_configured).

Lemma ex_link_exec :
  prx_exec ex_prx_cfg false ex_prx_configured ex_link_ops ex_link_result.2 false ex_link_result.1.
Proof.
  assert (exists out, out = ex_link_result.2 /\
    prx_exec ex_prx_cfg false ex_prx_configured ex_link_ops out false ex_link_result.1) as (out & <- & H); [|done].
  eexists. split; [|]. 2:{ vm_compute (ex_link_ops). prx_exec_eval. } by vm_compute.
Qed.

(** Every PDU that arrives is one of those submitted, for a COUNT of the window. *)
Ltac ex_arrivals_eval :=
  repeat (cbn [prx_arrivals]; split;
    [first [exact I | intros _; split; [by vm_compute|];
       first [exists 0; split; [apply list_elem_of_here|by vm_compute]
             |exists 1; split; [apply list_elem_of_further, list_elem_of_here|by vm_compute]]]
    |lazymatch goal with |- context [pdcp_rx_step ?cfg ?op ?s] =>
       let r := eval vm_compute in (pdcp_rx_step cfg op s) in
       replace (pdcp_rx_step cfg op s) with r by (vm_compute; reflexivity) end]); cbn [prx_arrivals]; exact I.

Lemma pdcp_end_to_end_witness :
  sdus_of ex_link_result.2 = [(0, [10]); (1, [11; 12])] /\
  sdus_of ex_link_result.2 `sublist_of` nums_of ex_ptx_result.2.
Proof.
  split; [by vm_compute|].
  apply (pdcp_end_to_end ex_ptx_cfg ex_prx_cfg ex_ptx_cfg_ok ex_prx_cfg_ok eq_refl false ex_ptx_configured ex_ptx_two
    ex_ptx_result.2 false ex_ptx_sent false ex_prx_configured ex_link_ops ex_link_result.2 false ex_link_result.1 xor_engine);
    [apply ex_ptx_configured_reachable|apply ex_ptx_fresh|by vm_compute|apply ex_ptx_sent_exec|done
    |apply ex_prx_configured_reachable|apply ex_prx_fresh|by vm_compute|apply ex_link_exec|by vm_compute|].
  vm_compute (ex_link_ops). vm_compute (pdus_of _). ex_arrivals_eval.
Defined.

Lemma pdcp_status_report_applied_witness :
  exists report t' out, compile_status_report 9000 ex_prx_waiting = Ok report /\
    pdcp_tx_step ex_ptx_cfg (PdcpTxStatusReport true report) ex_ptx_sent = Ok (t', out) /\
    pdus_of out = [] /\ ptx_next t' = ptx_next ex_ptx_sent /\ ptx_trans_crypto t' = ptx_trans_crypto ex_ptx_sent /\
    ptx_next_ack ex_ptx_sent <= ptx_next_ack t' /\
    forall c, ptx_view t' c = if decide (reported ex_prx_waiting c) then None else ptx_view ex_ptx_sent c.
Proof.
  apply (pdcp_status_report_applied ex_ptx_cfg ex_prx_cfg ex_ptx_cfg_ok ex_prx_cfg_ok false ex_ptx_sent false ex_prx_waiting 9000);
    [apply ex_ptx_sent_reachable|by vm_compute|apply ex_prx_waiting_reachable|by vm_compute|by vm_compute|].
  intros c _. apply ex_ptx_submitted.
Defined.

(** ** Departures from the intent *)

Section departures.
Context {W : Type -> Type} `{!SduWindow W} `{!SduWindowLaws W} `{!SecurityAlgorithms}.
Variable cfg : pdcp_tx_config.

Lemma ptw_at_absent (w : pdcp_tx_window W) c : ptw_view w c = None -> ptw_at w c = Panic.
Proof. unfold ptw_view, ptw_at, win_view. by destruct (win_at _ c). Qed.

(** An SDU that leaves the window before its PDU was submitted brings the entity down:
    TX_TRANS_CRYPTO then stands at a COUNT that is not in the window, and the next
    protected PDU that is put into the window fails the assertion of the window when
    the loop over the consecutive PDUs looks at that COUNT. *)
Theorem removal_before_submission_panics (s : pdcp_tx_entity W) info tasks now :
  win_wf (ptw_window (ptx_window s)) -> ptx_stopped s = false ->
  ptx_ue_tasks s = TxApplyReordering info :: tasks -> tbi_retx_id info = ptx_retransmit_id s ->
  ptx_next_ack s <= tbi_count info -> ptx_trans s <= tbi_count info ->
  is_Some (ptx_view s (tbi_count info)) ->
  ptx_trans_crypto s < ptx_next s -> ptx_view s (ptx_trans_crypto s) = None ->
  pdcp_tx_step cfg (PdcpTxUeTask now) s = Panic.
Proof.
  intros Hw Hst Eu Er Ha Ht [e He] Hlt Hnone. cbn [pdcp_tx_step]. unfold ptx_run_ue. rewrite Eu.
  set (s0 := s <| ptx_ue_tasks := tasks |>). unfold ptx_apply_reordering.
  change (ptx_stopped s0) with (ptx_stopped s). change (ptx_retransmit_id s0) with (ptx_retransmit_id s).
  change (ptx_next_ack s0) with (ptx_next_ack s). change (ptx_trans s0) with (ptx_trans s).
  change (ptx_window s0) with (ptx_window s). rewrite Hst, Er, Z.eqb_refl, ptw_has_view. cbn [negb].
  rewrite !(proj2 (Z.ltb_ge _ _)) by lia. unfold ptx_view in He, Hnone. rewrite He. cbn [negb].
  unfold ptw_set_pdu. rewrite (ptw_at_view _ _ _ He). cbn [checked_bind].
  destruct (win_write_spec (ptw_window (ptx_window s)) (tbi_count info) (e <| twe_pdu := tbi_buf info |>) Hw)
    as (v & -> & _ & _ & _ & Hother); [by exists e|]. cbn [checked_bind]. unfold ptx_submit_all.
  set (s1 := s0 <| ptx_window := ptx_window s <| ptw_window := v |> |>).
  assert (ptw_at (ptx_window s1) (ptx_trans_crypto s) = Panic) as Hat.
  { apply ptw_at_absent. change (win_view v (ptx_trans_crypto s) = None). rewrite Hother; [done|]. intros E. congruence. }
  assert (forall turns c, c = ptx_trans_crypto s -> ptx_submit_consecutive cfg turns now (tbi_is_retx info) c s1 = Panic) as Hc.
  { intros turns c ->. destruct turns; cbn [ptx_submit_consecutive]; change (ptx_next s1) with (ptx_next s);
      rewrite (proj2 (Z.ltb_lt _ _)) by lia; by rewrite Hat. }
  by rewrite Hc.
Qed.

(** A notification that leaves a hole at the front of the window brings the entity down:
    with a finite discard timer and an SDU missing after the one that is acknowledged,
    as a status report may have taken it out, the restart of the timer looks for the
    time of arrival of that missing SDU. *)
Theorem acknowledged_hole_panics halted s now count :
  ptx_cfg_ok cfg -> ptx_finite cfg -> ptx_is_am cfg = true -> ptx_reachable cfg halted s -> ptx_stopped s = false ->
  ptx_next_ack s <= count < ptx_trans_crypto s -> count + 1 < ptx_next s -> ptx_view s (count + 1) = None ->
  pdcp_tx_step cfg (PdcpTxDelivered now (ptx_SN cfg count)) s = Panic.
Proof.
  intros Hcfg (d & Ed & Hd) Ham Hr Hst Hc Hn Hnone. destruct (ptx_reachable_inv cfg Hcfg _ _ Hr) as [Hb _].
  destruct (tb_live _ _ Hb Hst) as (Hl & _). destruct (lv_order _ _ Hl) as [Ho Ho'].
  destruct (notification_exact cfg Hcfg s count Hl) as [Ecount Ecard]; [lia|].
  destruct (ptx_cfg_facts cfg Hcfg) as [Htm Hsz]. cbn [pdcp_tx_step].
  unfold handle_delivery_notification, handle_delivery_notification_impl. rewrite Hst, Ecard, Ecount, Htm, Ham. cbn [negb].
  rewrite (proj2 (Z.leb_gt _ _)) by lia. unfold stop_discard_timer. rewrite Ed.
  rewrite (proj2 (Z.ltb_ge _ _)), (proj2 (Z.leb_gt _ _)) by lia. cbn [orb]. rewrite ptw_has_view.
  destruct (lv_oldest _ _ Hl) as [e He]; [lia|]. unfold ptx_view in He. rewrite He. cbn [negb].
  set (s0 := s <| ptx_discard_expiry := None |>). pose proof (ptx_window_size_range cfg Hsz). pose proof (lv_size _ _ Hl).
  destruct (ptx_ack_until_spec cfg (Z.to_nat (count + 1 - ptx_next_ack s0)) count s0) as (w & E & _ & Hv);
    [apply Hl|change (ptx_next_ack s0) with (ptx_next_ack s); lia|change (ptx_next s0) with (ptx_next s); lia
    |change (ptx_next s0) with (ptx_next s); change (ptx_next_ack s0) with (ptx_next_ack s); lia|done|].
  change (ptx_next_ack s0) with (ptx_next_ack s) in E. change (ptx_next_ack s0) with (ptx_next_ack s). rewrite E. cbn [checked_bind].
  rewrite (proj2 (Z.eqb_neq _ _)) by done.
  match goal with |- context [ptx_raise_trans ?s1] => set (s2 := ptx_raise_trans s1) end.
  change (ptx_next_ack s2) with (count + 1). change (ptx_next s2) with (ptx_next s).
  rewrite (proj2 (Z.eqb_neq _ _)) by lia. cbn [negb]. unfold ptx_tick. change (ptx_window s2) with w.
  rewrite ptw_at_absent; [done|]. rewrite Hv, decide_False by lia. done.
Qed.
End departures.

(** The first SDU is discarded while it waits for a worker. *)
Definition ex_ptx_late : pdcp_tx_entity circular_map :=
  (value_or (ex_ptx_configured, []) (pdcp_tx_run (W := circular_map) ex_ptx_cfg
    [ex_ptx_sdu 5 [10]; ex_ptx_sdu 8 [11; 12]; PdcpTxDiscardExpired 105; PdcpTxCrypto 1 0 true true] ex_ptx_configured)).1.

Lemma removal_before_submission_panics_witness :
  ptx_trans_crypto ex_ptx_late = 0 /\ ptx_next_ack ex_ptx_late = 1 /\
  pdcp_tx_step ex_ptx_cfg (PdcpTxUeTask 106) ex_ptx_late = Panic.
Proof.
  split; [by vm_compute|]. split; [by vm_compute|].
  apply (removal_before_submission_panics ex_ptx_cfg ex_ptx_late (mk_pdcp_tx_buffer_info false 0 1 [128; 1; 4; 3; 12; 14; 137; 11]) []);
    [|by vm_compute|by vm_compute|by vm_compute|by vm_compute|by vm_compute|by vm_compute; eexists|by vm_compute|by vm_compute].
  constructor; [exists 11; by vm_compute|apply (bool_decide_unpack _); by vm_compute|by vm_compute].
Defined.

(** Three SDUs were submitted and the peer has the second one only. *)
Definition ex_ptx_three : list pdcp_tx_op :=
  ex_ptx_two ++ [ex_ptx_sdu 9 [13]; PdcpTxCrypto 0 0 true true; PdcpTxUeTask 9].
Definition ex_ptx_hole_report : list Z := [0; 0; 0; 0; 0; 128].
Definition ex_ptx_three_sent : pdcp_tx_entity circular_map :=
  (value_or (ex_ptx_configured, []) (pdcp_tx_run (W := circular_map) ex_ptx_cfg ex_ptx_three ex_ptx_configured)).1.
Definition ex_ptx_hole : pdcp_tx_entity circular_map :=
  (value_or (ex_ptx_configured, []) (handle_status_report ex_ptx_cfg true ex_ptx_hole_report ex_ptx_three_sent)).1.

Lemma ex_ptx_three_reachable : ptx_reachable ex_ptx_cfg false ex_ptx_three_sent.
Proof.
  exists ex_ptx_init, (ex_ptx_secure ++ ex_ptx_three). eexists. split; [by vm_compute|]. unfold ex_ptx_three. ptx_exec_eval.
Qed.

Lemma ptx_exec_snoc {W : Type -> Type} `{!SduWindow W} `{!SecurityAlgorithms} cfg h (s : pdcp_tx_entity W) ops out h1 s1 op s2 out2 :
  ptx_exec cfg h s ops out h1 s1 -> ptx_op_ok cfg h1 s1 op -> pdcp_tx_step cfg op s1 = Ok (s2, out2) ->
  exists out', ptx_exec cfg h s (ops ++ [op]) out' (ptx_halted_after h1 s1 op) s2.
Proof.
  intros He. induction He as [|h s op1 ops s1' out1 out1' h2 s2' Hop Hstep He IH]; intros Hok Hst.
  - exists (out2 ++ []). eapply ptx_exec_cons; [done|done|apply ptx_exec_nil].
  - destruct (IH Hok Hst) as [out' He']. exists (out1 ++ out'). by eapply ptx_exec_cons.
Qed.

Lemma ex_ptx_hole_reachable : ptx_reachable ex_ptx_cfg false ex_ptx_hole.
Proof.
  destruct ex_ptx_three_reachable as (s0 & ops & out & E & He).
  destruct (ptx_exec_snoc _ _ _ _ _ _ _ (PdcpTxStatusReport true ex_ptx_hole_report) ex_ptx_hole [PdcpTxDiscard 1] He) as [out' He'].
  - intros _ c _. apply (ex_held_submitted _ ex_ptx_three_reachable); by vm_compute.
  - by vm_compute.
  - by exists s0, (ops ++ [PdcpTxStatusReport true ex_ptx_hole_report]), out'.
Qed.

Lemma acknowledged_hole_panics_witness :
  pdcp_tx_step ex_ptx_cfg (PdcpTxDelivered 50 (ptx_SN ex_ptx_cfg 0)) ex_ptx_hole = Panic.
Proof.
  apply (acknowledged_hole_panics ex_ptx_cfg false); [apply ex_ptx_cfg_ok|by exists 100|done|apply ex_ptx_hole_reachable|..];
    by vm_compute.
Defined.

(** An SDU whose header finds no room stays in the window at TX_NEXT, which is not
    advanced; it was reported as a protocol failure, and the next SDU is then added to
    the window under the same COUNT, which fails an assertion. *)
Theorem header_failure_panics :
  let no_room := PdcpTxSdu (mk_pdcp_tx_env 5 true false true) [10] in
  match pdcp_tx_run ex_ptx_cfg [no_room] ex_ptx_configured with
  | Ok (s, out) =>
      PdcpTxProtocolFailure ∈ out /\ ptx_next s = 0 /\ is_Some (ptx_view s 0) /\
      pdcp_tx_step ex_ptx_cfg (ex_ptx_sdu 6 [11]) s = Panic
  | Panic => False
  end.
Proof. vm_compute. split_and!; try done; [|by eexists]. repeat (apply list_elem_of_here || apply list_elem_of_further). Qed.
