(* ===== verification/BitBytes.v ===== *)
(** * Bit encoding: ranges of bytes

    The operations of [bit_encoder] and [bit_decoder] of
    [src/lib/support/bit_encoding.cpp] on whole bytes, which GTP-U uses for its extension
    headers, and unpacking of any bytes. *)
From stdpp Require Import base numbers list.
From Stdlib Require Import ZArith Lia.
From S2P Require Import Prelude.
From S2P Require Import BitEncoding.

Set Default Goal Selector "!".
Open Scope Z_scope.
Open Scope ran_scope.

(** ** Encoder *)

Fixpoint be_pack_each (room : Z) (bytes : list Z) (e : bit_encoder) : checked (bool * bit_encoder) :=
  match bytes with
  | [] => Ok (true, e)
  | byte :: bytes =>
      let? (ok, e) := be_pack room byte 8 e in
      if ok then be_pack_each room bytes e else Ok (false, e)
  end.

(** An append that fails leaves the writer as it was here; its user drops the buffer. *)
Definition be_pack_bytes (room : Z) (bytes : list Z) (e : bit_encoder) : checked (bool * bit_encoder) :=
  if bool_decide (bytes = []) then Ok (true, e) else
  if be_offset e =? 0 then
    if room <? zlen (be_bytes e) + zlen bytes then Ok (false, e)
    else Ok (true, e <| be_bytes ::= fun l => l ++ bytes |>)
  else be_pack_each room bytes e.

(** ** Decoder *)

Definition bd_align_bytes (d : bit_decoder) : checked bit_decoder :=
  if bd_offset d =? 0 then Ok d else
  match bd_bytes d with
  | [] => Panic
  | _ :: rest => Ok (mk_bit_decoder rest 0)
  end.

(** A view of the next bytes, empty when there are fewer. *)
Definition bd_unpack_aligned_bytes (n_bytes : Z) (d : bit_decoder) : checked (list Z * bit_decoder) :=
  let? d := bd_align_bytes d in
  if n_bytes =? 0 then Ok ([], d) else
  if zlen (bd_bytes d) <? n_bytes then Ok ([], d) else
  let n := Z.to_nat n_bytes in
  Ok (take n (bd_bytes d), mk_bit_decoder (drop n (bd_bytes d)) 0).

(** Bytes read out of [total]. *)
Definition bd_nof_bytes (total : Z) (d : bit_decoder) : Z :=
  total - zlen (bd_bytes d) + (if bd_offset d =? 0 then 0 else 1).

(** The destination must have [n_bytes] bytes; nothing is said of it when the read fails. *)
Fixpoint bd_unpack_each (n : nat) (d : bit_decoder) : checked (option (list Z) * bit_decoder) :=
  match n with
  | O => Ok (Some [], d)
  | S n =>
      let? (ok, byte, d) := bd_unpack 8 8 d in
      if ok then
        let? (bytes, d) := bd_unpack_each n d in Ok (option_map (cons byte) bytes, d)
      else Ok (None, d)
  end.

Definition bd_unpack_bytes (n_bytes : nat) (d : bit_decoder) : checked (option (list Z) * bit_decoder) :=
  if bool_decide (n_bytes = 0%nat) then Ok (Some [], d) else
  if zlen (bd_bytes d) <? Z.of_nat n_bytes then Ok (None, d) else
  if bd_offset d =? 0 then
    Ok (Some (take n_bytes (bd_bytes d)), d <| bd_bytes ::= drop n_bytes |>)
  else bd_unpack_each n_bytes d.

(** The bits between the current position and the one advanced to are not looked at. *)
Definition bd_advance_bits (n_bits : Z) (d : bit_decoder) : bool * bit_decoder :=
  let bits := u32 (bd_offset d + n_bits) in
  let extra_bits := bits mod 8 in
  let bytes_required := u32 (bits + 7) / 8 in
  let bytes_offset := bits / 8 in
  if zlen (bd_bytes d) <? bytes_required then (false, d)
  else (true, mk_bit_decoder (drop (Z.to_nat bytes_offset) (bd_bytes d)) extra_bits).

(** Bits read out of [total] bytes. *)
Definition bd_nof_bits (total : Z) (d : bit_decoder) : Z :=
  bd_offset d + 8 * (total - zlen (bd_bytes d)).

(** ** Sequences of fields

    [pack_ok &= encoder.pack(..)], field after field: every field is packed, whatever
    became of those before it. *)
Fixpoint be_pack_and (room : Z) (fields : list (Z * Z)) (pack_ok : bool) (e : bit_encoder) :
    checked (bool * bit_encoder) :=
  match fields with
  | [] => Ok (pack_ok, e)
  | (val, n_bits) :: fields =>
      let? (ok, e) := be_pack room val n_bits e in be_pack_and room fields (pack_ok && ok) e
  end.

(** A read whose failure ends the caller with [false]. *)
Definition verify_bind {A B} (m : checked (option A)) (k : A -> checked (option B)) : checked (option B) :=
  let? r := m in match r with Some a => k a | None => Ok None end.

Notation "'verify?' x ':=' m 'in' k" := (verify_bind m (fun x => k))
  (at level 10, x pattern, m at level 100, k at level 200) : ran_scope.

Definition bd_read (size n_bits : Z) (d : bit_decoder) : checked (option (Z * bit_decoder)) :=
  let? (ok, val, d) := bd_unpack size n_bits d in Ok (if ok then Some (val, d) else None).

(** A field present under a flag read before. *)
Definition bd_read_if (flag : bool) (size n_bits : Z) (d : bit_decoder) :
    checked (option (option Z * bit_decoder)) :=
  if flag then verify? (val, d) := bd_read size n_bits d in Ok (Some (Some val, d))
  else Ok (Some (None, d)).

Definition bool_field (b : bool) : Z * Z := (if b then 1 else 0, 1).
Definition opt_field (val : option Z) (n_bits : Z) : list (Z * Z) :=
  match val with Some v => [(v, n_bits)] | None => [] end.
Definition has_value {A} (o : option A) : bool := match o with Some _ => true | None => false end.

(** The padding of a container to [4 n - 2] bytes: at most three turns. *)
Fixpoint pad_container (fuel : nat) (room start_len : Z) (out_buf : list Z) : checked (option (list Z)) :=
  if (zlen out_buf - start_len + 2) mod 4 =? 0 then Ok (Some out_buf) else
  match fuel with
  | O => Panic
  | S fuel => if room <=? zlen out_buf then Ok None else pad_container fuel room start_len (out_buf ++ [0])
  end.

(** ** Packing bytes *)

Lemma encodes_aligned e bs : encodes e bs -> be_offset e = 0 -> Forall is_u8 (be_bytes e) /\ bs = byte_bits (be_bytes e).
Proof. intros H E. unfold encodes in H. by rewrite E in H. Qed.

Lemma be_pack_each_spec room bytes e bs :
  encodes e bs -> Forall is_u8 bytes -> zlen bs + 8 * zlen bytes <= 8 * room ->
  exists e', be_pack_each room bytes e = Ok (true, e') /\ encodes e' (bs ++ byte_bits bytes).
Proof.
  revert e bs. induction bytes as [|b bytes IH]; intros e bs He Hb Hr; cbn [be_pack_each byte_bits flat_map].
  { exists e. by rewrite app_nil_r. }
  apply Forall_cons in Hb as [Hb Hbs]. rewrite zlen_cons in Hr. pose proof (zlen_nonneg bytes).
  destruct (be_pack_spec room b 8 e bs He) as (e1 & -> & He1); [lia|unfold in_range in *; lia|lia|]. cbn [checked_bind].
  rewrite app_assoc. apply IH; [done|done|]. rewrite zlen_app. unfold zlen at 2. rewrite length_bits_of. lia.
Qed.

Lemma be_pack_bytes_spec room bytes e bs :
  encodes e bs -> Forall is_u8 bytes -> zlen bs + 8 * zlen bytes <= 8 * room ->
  exists e', be_pack_bytes room bytes e = Ok (true, e') /\ encodes e' (bs ++ byte_bits bytes).
Proof.
  intros He Hb Hr. unfold be_pack_bytes. case_bool_decide as E; [subst; exists e; by rewrite app_nil_r|].
  destruct (be_offset e =? 0) eqn:Eo; zbool; [|by apply be_pack_each_spec].
  destruct (encodes_aligned e bs He Eo) as [Hu ->].
  assert (zlen (byte_bits (be_bytes e)) = 8 * zlen (be_bytes e)) as Hl by (unfold zlen; rewrite length_byte_bits; lia).
  rewrite (proj2 (Z.ltb_ge _ _)) by lia. eexists. split; [done|]. unfold encodes, field_update. cbn.
  rewrite Eo. cbn. split; [by apply Forall_app|by rewrite byte_bits_app].
Qed.

(** What is written is whole bytes when the bits are. *)
Lemma encodes_whole e bytes :
  encodes e (byte_bits bytes) -> Forall is_u8 bytes -> be_bytes e = bytes.
Proof.
  intros He Hu. destruct (encodes_byte_bits e _ He) as (pad & Hb & Hpad).
  pose proof (f_equal length Hb) as Hl. rewrite length_app, length_replicate, !length_byte_bits in Hl.
  assert (pad = 0)%nat as -> by lia. rewrite app_nil_r in Hb. pose proof (encodes_bytes e _ He) as Hu'.
  assert (forall l l', Forall is_u8 l -> Forall is_u8 l' -> length l = length l' -> byte_bits l = byte_bits l' -> l = l') as Hinj.
  { clear. induction l as [|b l IH]; intros [|b' l'] Hl Hl' Hn E; try done.
    apply Forall_cons in Hl as [Hb Hl]. apply Forall_cons in Hl' as [Hb' Hl']. cbn [byte_bits flat_map] in E.
    apply app_inj_1 in E as [E1 E2]; [|by rewrite !length_bits_of]. f_equal.
    - apply (bits_of_inj 8); [unfold in_range in *; cbn; lia..|done].
    - apply IH; [done|done| |done]. cbn in Hn. lia. }
  apply Hinj; [done|done|lia|done].
Qed.

(** ** Unpacking *)

Lemma decodes_bytes d bs : decodes d bs -> bd_offset d = 0 -> bs = byte_bits (bd_bytes d) /\ Forall is_u8 (bd_bytes d).
Proof. intros (_ & Hu & _ & ->) ->. by split. Qed.

Lemma bd_unpack_aligned_spec n bytes d bs :
  decodes d (byte_bits bytes ++ bs) -> bd_offset d = 0 -> zlen bytes = n -> Forall is_u8 bytes ->
  exists d', bd_unpack_aligned_bytes n d = Ok (bytes, d') /\ decodes d' bs /\ bd_offset d' = 0.
Proof.
  intros Hd Ho Hn Hu. unfold bd_unpack_aligned_bytes, bd_align_bytes. rewrite Ho. cbn [Z.eqb checked_bind].
  destruct (decodes_bytes d _ Hd Ho) as [Hb Hud]. destruct (n =? 0) eqn:E0; zbool.
  { destruct bytes; [|rewrite zlen_cons in Hn; pose proof (zlen_nonneg bytes); lia]. by exists d. }
  pose proof (zlen_nonneg bytes). assert (length bytes <= length (bd_bytes d))%nat as Hlen.
  { apply (f_equal length) in Hb. rewrite length_app, !length_byte_bits in Hb. lia. }
  rewrite (proj2 (Z.ltb_ge _ _)) by (unfold zlen in *; lia).
  assert (Z.to_nat n = length bytes) as -> by (unfold zlen in Hn; lia).
  rewrite <- (take_drop (length bytes) (bd_bytes d)), byte_bits_app in Hb.
  apply app_inj_1 in Hb as [Hb1 Hb2]; [|by rewrite !length_byte_bits, length_take_le].
  assert (take (length bytes) (bd_bytes d) = bytes) as ->.
  { assert (encodes (mk_bit_encoder (take (length bytes) (bd_bytes d)) 0) (byte_bits bytes)) as He.
    { split; [by apply Forall_take|done]. }
    by apply encodes_whole in He. }
  eexists. split; [done|]. split; [|done]. rewrite Hb2. apply decodes_new. by apply Forall_drop.
Qed.

(** Some value has these bits. *)
Lemma bits_value (bs : list bool) : exists v, 0 <= v < 2 ^ zlen bs /\ bits_of (length bs) v = bs.
Proof.
  induction bs as [|b bs (v & Hv & E)]; [by exists 0|]. rewrite zlen_cons. rewrite Z.pow_add_r by (pose proof (zlen_nonneg bs); lia).
  exists ((if b then 1 else 0) * 2 ^ Z.of_nat (length bs) + v). fold (zlen bs). split; [destruct b; lia|].
  change (length (b :: bs)) with (1 + length bs)%nat. unfold zlen. rewrite bits_of_cat, E by done. by destruct b.
Qed.

Lemma bd_unpack_loop_end fuel size acc n d bs :
  decodes d bs -> zlen bs < n -> n + bd_offset d <= 8 * Z.of_nat fuel ->
  exists acc', bd_unpack_loop fuel size acc n d = Ok (false, acc', mk_bit_decoder [] 0).
Proof.
  revert acc n d bs. induction fuel as [|fuel IH]; intros acc n [bytes o] bs Hd Hn Hf;
    pose proof (zlen_nonneg bs); cbn [bd_unpack_loop bd_bytes bd_offset] in *; pose proof Hd as (Ho & _); cbn in Ho; [lia|].
  rewrite (proj2 (Z.leb_gt n 0)) by lia. destruct bytes as [|byte rest].
  { destruct Hd as (_ & _ & H0 & _). cbn in H0. rewrite (H0 eq_refl). by eexists. }
  apply decodes_cons in Hd as (_ & _ & Hrest & ->). rewrite zlen_app in Hn. unfold zlen at 1 in Hn.
  rewrite length_bits_of in Hn. pose proof (zlen_nonneg (byte_bits rest)).
  rewrite (proj2 (Z.ltb_ge n _)) by lia. eapply IH; [by apply decodes_new|lia|cbn; lia].
Qed.

(** Unpacking of whatever comes next: it takes its bits, or all that is left. *)
Lemma bd_unpack_any size n d bs :
  decodes d bs -> 0 <= n <= size -> size <= 64 ->
  (exists v d' bs', bd_unpack size n d = Ok (true, v, d') /\ 0 <= v < 2 ^ n /\
     decodes d' bs' /\ bs = bits_of (Z.to_nat n) v ++ bs') \/
  (zlen bs < n /\ exists v, bd_unpack size n d = Ok (false, v, mk_bit_decoder [] 0)).
Proof.
  intros Hd Hn Hs. destruct (decide (n <= zlen bs)) as [Hle|Hgt]; [left|right].
  - destruct (bits_value (take (Z.to_nat n) bs)) as (v & Hv & E).
    assert (length (take (Z.to_nat n) bs) = Z.to_nat n) as Hl by (apply length_take_le; unfold zlen in Hle; lia).
    unfold zlen in Hv. rewrite Hl in E, Hv. rewrite Z2Nat.id in Hv by lia.
    rewrite <- (take_drop (Z.to_nat n) bs), <- E in Hd.
    destruct (bd_unpack_spec size v n d _ Hd) as (d' & Hu & Hd'); [done|done|done|].
    exists v, d', (drop (Z.to_nat n) bs). split_and!; try done || lia. by rewrite E, take_drop.
  - split; [lia|]. unfold bd_unpack. rewrite (proj2 (Z.leb_le n size)) by lia.
    pose proof Hd as (Ho & _). eapply bd_unpack_loop_end; [done|lia|lia].
Qed.

(** The first field of those that come next. *)
Lemma bd_unpack_field size v n fields d bs :
  decodes d (fields_bits ((v, n) :: fields) ++ bs) -> field_ok size (v, n) -> size <= 64 ->
  exists d', bd_unpack size n d = Ok (true, v, d') /\ decodes d' (fields_bits fields ++ bs).
Proof.
  intros Hd [Hn Hv] Hs. cbn [fields_bits flat_map] in Hd. rewrite <- app_assoc in Hd.
  by apply (bd_unpack_spec size v n d).
Qed.

Lemma fields_bits_app l l' : fields_bits (l ++ l') = fields_bits l ++ fields_bits l'.
Proof. apply flat_map_app. Qed.

(** Reads the next field of a decoder in the goal. *)
Ltac bd_field :=
  lazymatch goal with
  | H : decodes ?d (fields_bits ((?v, ?n) :: _) ++ _) |- context [bd_unpack ?size ?m ?d] =>
      let d' := fresh "d" in let H' := fresh "Hd" in
      destruct (bd_unpack_field size v n _ d _ H) as (d' & -> & H'); [split; cbn [fst snd]; try lia; try done|lia|];
      cbn [checked_bind]; clear H
  end.

Lemma decodes_zero d bs : decodes d bs -> zlen bs mod 8 = 0 -> bd_offset d = 0.
Proof.
  intros (Ho & _ & H0 & ->) Hm. destruct (bd_bytes d) as [|b l] eqn:E; [by apply H0|].
  unfold zlen in Hm. rewrite length_drop, length_byte_bits in Hm. cbn [length] in Hm. dlia.
Qed.

(** ** Fields *)

Lemma be_pack_and_spec room fields ok e bs :
  encodes e bs -> Forall (field_ok 64) fields -> zlen bs + zlen (fields_bits fields) <= 8 * room ->
  exists e', be_pack_and room fields ok e = Ok (ok, e') /\ encodes e' (bs ++ fields_bits fields).
Proof.
  revert ok e bs. induction fields as [|[v n] fields IH]; intros ok e bs He Hf Hr; cbn [be_pack_and fields_bits flat_map].
  { exists e. by rewrite app_nil_r. }
  apply Forall_cons in Hf as [[Hn Hv] Hf]. cbn in Hn, Hv. cbn [fields_bits flat_map] in Hr.
  fold (fields_bits fields) in *. rewrite zlen_app in Hr. pose proof (zlen_nonneg (fields_bits fields)).
  assert (zlen (bits_of (Z.to_nat n) v) = n) as Hlen by (unfold zlen; rewrite length_bits_of; lia).
  assert (2 ^ n <= 2 ^ 64) by (apply Z.pow_le_mono_r; lia).
  destruct (be_pack_spec room v n e bs He) as (e' & -> & He'); [lia|unfold in_range; lia|lia|].
  cbn [checked_bind]. rewrite andb_true_r, app_assoc. apply IH; [done|done|]. rewrite zlen_app. lia.
Qed.

(** Packing ends whatever the values and the room, and adds [n] bits when it succeeds. *)
Definition packed (ok : bool) (n : Z) (e e' : bit_encoder) : Prop :=
  0 <= be_offset e' < 8 /\ (ok = true -> be_nof_bits e' = be_nof_bits e + n).

Lemma be_pack_loop_total fuel room val n e :
  0 <= be_offset e < 8 -> 0 <= n <= 8 * Z.of_nat fuel - be_offset e \/ n = 0 ->
  exists ok e', be_pack_loop fuel room val n e = Ok (ok, e') /\ packed ok n e e'.
Proof.
  revert val n e. induction fuel as [|fuel IH]; intros val n e Ho Hn; cbn [be_pack_loop].
  { rewrite (proj2 (Z.leb_le n 0)) by lia. eexists _, _. split; [done|]. split; [done|lia]. }
  destruct (n <=? 0) eqn:En; [eexists _, _; split; [done|]; zbool; split; [done|lia]|]. zbool.
  destruct ((be_offset e =? 0) && _); [by eexists _, _|].
  set (e1 := if be_offset e =? 0 then _ else e).
  assert (be_offset e1 = be_offset e) as Eo by (unfold e1; by destruct (be_offset e =? 0)).
  assert (8 * (zlen (be_bytes e1) - 1) = be_nof_bits e - be_offset e) as El.
  { unfold e1, be_nof_bits. destruct (be_offset e =? 0) eqn:E0; zbool; unfold field_update; cbn [be_bytes]; [rewrite zlen_app; change (zlen [0]) with 1|]; lia. }
  assert (forall v, zlen (add_to_back v (be_bytes e1)) = zlen (be_bytes e1)) as Ha.
  { intros v. unfold add_to_back, zlen. by rewrite length_alter. }
  rewrite Eo. destruct (n <? 8 - be_offset e) eqn:E; zbool.
  - eexists _, _. split; [done|]. unfold packed, be_nof_bits at 1, field_update. cbn [be_offset be_bytes]. rewrite Eo, Ha.
    rewrite (proj2 (Z.eqb_neq _ _)) by lia. lia.
  - lazymatch goal with |- context [be_pack_loop fuel room ?v ?n ?e2] =>
      destruct (IH v n e2) as (ok & e' & -> & Ho' & Hn'); [unfold field_update; cbn [be_offset]; lia..|] end.
    eexists _, _. split; [done|]. split; [done|]. intros Hok. rewrite (Hn' Hok).
    unfold be_nof_bits at 1, field_update. cbn [be_offset be_bytes Z.eqb]. rewrite Ha. lia.
Qed.

Lemma be_pack_total room val n e :
  0 <= be_offset e < 8 -> 0 <= n <= 64 -> exists ok e', be_pack room val n e = Ok (ok, e') /\ packed ok n e e'.
Proof.
  intros Ho Hn. unfold be_pack. rewrite (proj2 (Z.leb_le n 64)) by lia.
  apply be_pack_loop_total; [done|unfold be_pack_fuel; lia].
Qed.

(** The bits of the fields together. *)
Definition fields_size (fields : list (Z * Z)) : Z := foldr (fun f n => f.2 + n) 0 fields.

Lemma be_pack_and_total room fields ok e :
  0 <= be_offset e < 8 -> Forall (fun f => 0 <= f.2 <= 64) fields ->
  exists ok' e', be_pack_and room fields ok e = Ok (ok', e') /\ packed ok' (fields_size fields) e e'.
Proof.
  assert (forall fields e, 0 <= be_offset e < 8 -> Forall (fun f => 0 <= f.2 <= 64) fields ->
    exists e', be_pack_and room fields false e = Ok (false, e') /\ 0 <= be_offset e' < 8) as Hfalse.
  { clear. induction fields as [|[v n] fields IH]; intros e Ho Hf; cbn [be_pack_and]; [by eexists|].
    apply Forall_cons in Hf as [Hn Hf]. destruct (be_pack_total room v n e Ho Hn) as (ok' & e' & -> & Ho' & _).
    cbn [checked_bind andb]. by apply IH. }
  revert ok e. induction fields as [|[v n] fields IH]; intros ok e Ho Hf; cbn [be_pack_and fields_size foldr].
  { eexists _, _. split; [done|]. split; [done|lia]. }
  apply Forall_cons in Hf as [Hn Hf]. cbn [snd] in *. destruct (be_pack_total room v n e Ho Hn) as (ok' & e' & -> & Ho' & Hb').
  cbn [checked_bind]. destruct (ok && ok') eqn:Eok.
  - apply andb_prop in Eok as [-> ->]. destruct (IH true e' Ho' Hf) as (ok2 & e2 & -> & Ho2 & Hb2).
    eexists _, _. split; [done|]. split; [done|]. intros Hok. rewrite (Hb2 Hok), Hb' by done. unfold fields_size. lia.
  - destruct (Hfalse fields e' Ho' Hf) as (e2 & -> & Ho2). by eexists _, _.
Qed.

Lemma be_pack_bytes_total room bytes e :
  0 <= be_offset e < 8 -> exists ok e', be_pack_bytes room bytes e = Ok (ok, e') /\ 0 <= be_offset e' < 8.
Proof.
  intros Ho. unfold be_pack_bytes. destruct bytes as [|b bytes]; [by eexists _, _|].
  rewrite bool_decide_eq_false_2 by done. case_match; [case_match; by eexists _, _|].
  clear H. revert e Ho. generalize (b :: bytes). intros l. induction l as [|x l IH]; intros e Ho; cbn [be_pack_each]; [by eexists _, _|].
  destruct (be_pack_total room x 8 e Ho) as (ok & e' & -> & Ho' & _); [lia|]. cbn [checked_bind].
  destruct ok; [by apply IH|by eexists _, _].
Qed.

(** A decoder in a state it can reach. *)
Definition decoding (d : bit_decoder) : Prop := exists bs, decodes d bs.

Lemma decoding_new bytes : Forall is_u8 bytes -> decoding (bit_decoder_new bytes).
Proof. intros Hb. eexists. by apply decodes_new. Qed.
Lemma decoding_end : decoding (mk_bit_decoder [] 0).
Proof. by apply decoding_new. Qed.
Lemma decoding_offset d : decoding d -> 0 <= bd_offset d < 8.
Proof. by intros (bs & ? & _). Qed.

Lemma bd_unpack_loop_suffix fuel size acc n d ok v d' :
  bd_unpack_loop fuel size acc n d = Ok (ok, v, d') -> exists k, bd_bytes d' = drop k (bd_bytes d).
Proof.
  revert acc n d. induction fuel as [|fuel IH]; intros acc n [bytes o]; cbn [bd_unpack_loop bd_bytes bd_offset];
    (destruct (n <=? 0); [intros [= <- <- <-]; by exists 0%nat|]); [done|].
  destruct bytes as [|byte rest]; [intros [= <- <- <-]; by exists 0%nat|].
  destruct (n <? 8 - o); [intros [= <- <- <-]; by exists 0%nat|].
  intros (k & Hk)%IH. by exists (S k).
Qed.

(** Unpacking moves on in the bytes, and never fails the process. *)
Lemma bd_unpack_moves size n d :
  decoding d -> 0 <= n <= size -> size <= 64 ->
  exists ok v d', bd_unpack size n d = Ok (ok, v, d') /\ in_range size v /\ decoding d' /\
    (exists k, bd_bytes d' = drop k (bd_bytes d)) /\ (ok = true -> in_range n v).
Proof.
  intros Hd Hn Hs. pose proof (decoding_offset d Hd) as Ho. destruct Hd as (bs & Hd).
  destruct (bd_unpack_total size n d Ho Hn Hs) as (ok & v & d' & E & Hv & _).
  exists ok, v, d'. split; [done|]. split; [done|].
  assert (exists k, bd_bytes d' = drop k (bd_bytes d)) as Hk.
  { unfold bd_unpack in E. destruct (n <=? size); [|done]. by eapply bd_unpack_loop_suffix. }
  destruct (bd_unpack_any size n d bs Hd Hn Hs) as [(v1 & d1 & bs1 & E1 & Hv1 & Hd1 & _)|(_ & v1 & E1)];
    rewrite E in E1; injection E1 as -> -> ->.
  - split; [by exists bs1|]. by split.
  - split; [apply decoding_end|]. by split.
Qed.

(** The view of the next bytes: those bytes, or none when there are fewer. *)
Lemma bd_unpack_aligned_moves n d :
  decoding d -> 0 <= n ->
  exists bytes d', bd_unpack_aligned_bytes n d = Ok (bytes, d') /\ decoding d' /\
    (exists k, bd_bytes d' = drop k (bd_bytes d)) /\ (exists k, bytes = take (length bytes) (drop k (bd_bytes d))) /\
    (bytes = [] \/ zlen bytes = n).
Proof.
  intros (bs & Hd) Hn. unfold bd_unpack_aligned_bytes.
  assert (exists d1 k, bd_align_bytes d = Ok d1 /\ bd_bytes d1 = drop k (bd_bytes d) /\ bd_offset d1 = 0 /\ Forall is_u8 (bd_bytes d1))
    as (d1 & k & -> & Hk & Ho1 & Hu).
  { unfold bd_align_bytes. destruct Hd as (Ho & Hu & H0 & _). destruct (bd_offset d =? 0) eqn:E; zbool; [by exists d, 0%nat|].
    destruct (bd_bytes d) as [|b rest]; [by rewrite H0 in E|]. exists (mk_bit_decoder rest 0), 1%nat.
    split_and!; try done. by apply Forall_cons in Hu as [_ ?]. }
  cbn [checked_bind]. assert (forall bytes, Forall is_u8 bytes -> decoding (mk_bit_decoder bytes 0)) as Hnew by apply decoding_new.
  destruct d1 as [l o]. cbn [bd_bytes bd_offset] in *. subst o.
  destruct (n =? 0) eqn:E0; [exists [], (mk_bit_decoder l 0); split_and!; [done|by apply Hnew|by exists k|by exists 0%nat|by left]|].
  destruct (zlen l <? n) eqn:E1; zbool; [exists [], (mk_bit_decoder l 0); split_and!; [done|by apply Hnew|by exists k|by exists 0%nat|by left]|].
  eexists _, _. split; [done|]. split; [by apply Hnew, Forall_drop|]. split; [|split].
  - exists (k + Z.to_nat n)%nat. by rewrite <- drop_drop, Hk.
  - exists k. rewrite <- Hk. by rewrite length_take_le by (unfold zlen in E1; lia).
  - right. unfold zlen. rewrite length_take_le by (unfold zlen in E1; lia). lia.
Qed.

Lemma bd_nof_bytes_bound total d :
  decoding d -> zlen (bd_bytes d) <= total -> 0 <= bd_nof_bytes total d <= total.
Proof.
  intros (bs & _ & _ & H0 & _) Hl. unfold bd_nof_bytes. pose proof (zlen_nonneg (bd_bytes d)).
  destruct (bd_offset d =? 0) eqn:E; zbool; [lia|]. destruct (bd_bytes d); [by rewrite H0 in E|].
  rewrite zlen_cons in *. pose proof (zlen_nonneg l). lia.
Qed.

Lemma byte_bits_drop k bytes : (k <= length bytes)%nat -> byte_bits (drop k bytes) = drop (8 * k) (byte_bits bytes).
Proof.
  intros Hk. rewrite <- (take_drop k bytes) at 2. rewrite byte_bits_app, drop_app_length'; [done|].
  rewrite length_byte_bits, length_take. lia.
Qed.

(** Advancing is reading without the value: it goes past [n_bits] bits when they are there,
    and otherwise leaves the decoder where it is. *)
Lemma bd_advance_bits_spec n_bits d bs :
  decodes d bs -> 0 <= n_bits -> bd_offset d + n_bits + 7 < 2 ^ 32 ->
  if zlen bs <? n_bits then bd_advance_bits n_bits d = (false, d)
  else exists d', bd_advance_bits n_bits d = (true, d') /\ decodes d' (drop (Z.to_nat n_bits) bs) /\
         (forall total, bd_nof_bits total d' = bd_nof_bits total d + n_bits).
Proof.
  intros (Ho & Hu & H0 & ->) Hn Hb. unfold bd_advance_bits, bd_nof_bits, u32, wrap.
  set (len := zlen (bd_bytes d)). assert (zlen (drop (Z.to_nat (bd_offset d)) (byte_bits (bd_bytes d))) = 8 * len - bd_offset d) as ->.
  { unfold len, zlen. rewrite length_drop, length_byte_bits.
    destruct (bd_bytes d) as [|b l]; [rewrite H0 by done; done|cbn [length]; lia]. }
  rewrite (Z.mod_small (bd_offset d + n_bits)), Z.mod_small by lia. set (bits := bd_offset d + n_bits) in *.
  assert ((len <? (bits + 7) / 8) = (8 * len - bd_offset d <? n_bits)) as -> 
    by (destruct (Z.ltb_spec len ((bits + 7) / 8)), (Z.ltb_spec (8 * len - bd_offset d) n_bits); [done| | |done]; unfold bits in *; dlia).
  destruct (8 * len - bd_offset d <? n_bits) eqn:E; zbool; [done|].
  assert (0 <= bits / 8 <= len) as Hk by (unfold bits; dlia).
  eexists. split; [done|]. cbn [bd_bytes bd_offset]. split; [split_and!|].
  - by apply Z.mod_pos_bound.
  - by apply Z.mod_pos_bound.
  - by apply Forall_drop.
  - cbn [bd_bytes bd_offset]. intros Hnil. assert (len - bits / 8 = 0) as Hz by (unfold len; rewrite <- zlen_drop by done; by rewrite Hnil).
    clear - Hz E Hn Ho. unfold bits in *. dlia.
  - cbn [bd_bytes bd_offset]. rewrite byte_bits_drop by (unfold len, zlen in *; lia). rewrite !drop_drop. f_equal. clear - Ho Hn. unfold bits. dlia.
  - intros total. rewrite zlen_drop by done. fold len. clear - Ho Hn. unfold bits. dlia.
Qed.

(** Reading the fields packed. *)
Lemma bd_read_field size v n fields d bs :
  decodes d (fields_bits ((v, n) :: fields) ++ bs) -> field_ok size (v, n) -> size <= 64 ->
  exists d', bd_read size n d = Ok (Some (v, d')) /\ decodes d' (fields_bits fields ++ bs).
Proof.
  intros Hd Hf Hs. destruct (bd_unpack_field size v n fields d bs Hd Hf Hs) as (d' & E & Hd').
  exists d'. unfold bd_read. by rewrite E.
Qed.

Lemma bd_read_opt_field size v n fields d bs :
  decodes d (fields_bits (opt_field v n ++ fields) ++ bs) ->
  (forall x, v = Some x -> field_ok size (x, n)) -> size <= 64 ->
  exists d', bd_read_if (has_value v) size n d = Ok (Some (v, d')) /\ decodes d' (fields_bits fields ++ bs).
Proof.
  intros Hd Hf Hs. unfold bd_read_if. destruct v as [x|]; cbn [has_value]; [|by exists d].
  destruct (bd_read_field size x n fields d bs Hd (Hf x eq_refl) Hs) as (d' & -> & Hd'). by exists d'.
Qed.

Lemma bool_field_ok size b : 1 <= size -> field_ok size (bool_field b).
Proof. intros Hs. unfold field_ok. destruct b; cbn; lia. Qed.

Lemma bool_flag (b : bool) : negb ((if b then 1 else 0) =? 0) = b.
Proof. by destruct b. Qed.

Lemma fields_bits_bool b fields : fields_bits (bool_field b :: fields) = fields_bits (((if b then 1 else 0), 1) :: fields).
Proof. done. Qed.

Lemma bd_read_total size n d :
  decoding d -> 0 <= n <= size -> size <= 64 ->
  exists r, bd_read size n d = Ok r /\
    match r with Some (v, d') => in_range n v /\ decoding d' | None => True end.
Proof.
  intros Hd Hn Hs. destruct (bd_unpack_moves size n d Hd Hn Hs) as (ok & v & d' & E & _ & Hd' & _ & Hv).
  unfold bd_read. rewrite E. cbn [checked_bind]. eexists. split; [done|]. destruct ok; [|done]. split; [by apply Hv|done].
Qed.

Lemma bd_read_if_total flag size n d :
  decoding d -> 0 <= n <= size -> size <= 64 ->
  exists r, bd_read_if flag size n d = Ok r /\
    match r with Some (v, d') => (forall x, v = Some x -> in_range n x) /\ has_value v = flag /\ decoding d' | None => True end.
Proof.
  intros Hd Hn Hs. unfold bd_read_if. destruct flag; [|by eexists].
  destruct (bd_read_total size n d Hd Hn Hs) as ([[v d']|] & -> & Hr); [|by eexists].
  eexists. split; [done|]. cbn in *. destruct Hr. by split_and!; [intros x [= <-]| |].
Qed.

(** ** Padding *)

Lemma pad_container_spec fuel room start out :
  (3 <= fuel)%nat -> zlen out + 3 <= room ->
  exists pad, pad_container fuel room start out = Ok (Some (out ++ replicate pad 0)) /\
    (zlen out + Z.of_nat pad - start + 2) mod 4 = 0 /\ (pad <= 3)%nat.
Proof.
  intros Hf Hr. destruct fuel as [|[|[|fuel]]]; [lia..|].
  assert (forall m, (m <= 3)%nat -> zlen (out ++ replicate m 0) = zlen out + Z.of_nat m) as Hl.
  { intros m _. unfold zlen. rewrite length_app, length_replicate. lia. }
  set (x := zlen out - start + 2). pose proof (Z.mod_pos_bound x 4 ltac:(lia)).
  assert (exists pad : nat, (pad <= 3)%nat /\ (x + Z.of_nat pad) mod 4 = 0 /\ forall m : nat, (m < pad)%nat -> (x + Z.of_nat m) mod 4 <> 0)
    as (pad & Hp & Hz & Hmin).
  { exists (Z.to_nat ((- x) mod 4)). pose proof (Z.mod_pos_bound (- x) 4 ltac:(lia)). split_and!; [lia|dlia|intros; dlia]. }
  exists pad. split; [|split; [|lia]]; [|rewrite <- Hz; f_equal; unfold x; lia].
  assert (forall k m : nat, (m + k = pad)%nat -> (k <= 3)%nat -> forall f, (k <= f)%nat ->
    pad_container f room start (out ++ replicate m 0) = Ok (Some (out ++ replicate pad 0))) as H'.
  { induction k as [|k IH]; intros m Em Hk f Hkf.
    - assert (m = pad) as -> by lia. destruct f; cbn [pad_container]; rewrite Hl by lia;
        replace (zlen out + Z.of_nat pad - start + 2) with (x + Z.of_nat pad) by (unfold x; lia); by rewrite Hz.
    - destruct f as [|f]; [lia|]. cbn [pad_container]. rewrite Hl by lia.
      replace (zlen out + Z.of_nat m - start + 2) with (x + Z.of_nat m) by (unfold x; lia).
      rewrite (proj2 (Z.eqb_neq _ _)) by (apply Hmin; lia). rewrite (proj2 (Z.leb_gt _ _)) by lia.
      rewrite <- app_assoc. change [0] with (replicate 1 0). rewrite <- replicate_add. apply IH; lia. }
  specialize (H' pad 0%nat ltac:(lia) ltac:(lia) (S (S (S fuel))) ltac:(lia)). cbn [replicate] in H'. by rewrite app_nil_r in H'.
Qed.

Lemma pad_container_total fuel room start out :
  (3 <= fuel)%nat -> exists r, pad_container fuel room start out = Ok r.
Proof.
  intros Hf.
  assert (forall f out, (- (zlen out - start + 2)) mod 4 <= Z.of_nat f -> exists r, pad_container f room start out = Ok r) as H.
  { clear. induction f as [|f IH]; intros out Hf; cbn [pad_container]; destruct (_ =? 0) eqn:E; zbool; try by eexists.
    - exfalso. dlia.
    - destruct (room <=? zlen out); [by eexists|]. apply IH. rewrite zlen_app. change (zlen [0]) with 1. dlia. }
  apply H. pose proof (Z.mod_pos_bound (- (zlen out - start + 2)) 4 ltac:(lia)). lia.
Qed.

(** A container: the bytes of its fields, padded. *)
Lemma container_written room fields e n :
  encodes e (fields_bits fields) -> zlen (fields_bits fields) = 8 * n -> n + 3 <= room ->
  exists container, pad_container 3 room 0 (be_bytes e) = Ok (Some container) /\
    Forall is_u8 container /\ n <= zlen container <= n + 3 /\ (zlen container + 2) mod 4 = 0 /\
    exists bs, decodes (bit_decoder_new container) (fields_bits fields ++ bs).
Proof.
  intros He Hn Hr. destruct (encodes_byte_bits e _ He) as (k & Hb & Hk).
  assert (forall l, zlen (byte_bits l) = 8 * zlen l) as Hz by (intros l; unfold zlen; rewrite length_byte_bits; lia).
  pose proof (f_equal zlen Hb) as Hl. rewrite zlen_app, Hz, Hn in Hl. unfold zlen at 2 in Hl. rewrite length_replicate in Hl.
  assert (k = 0)%nat as -> by lia. cbn [replicate] in Hb. rewrite app_nil_r in Hb.
  destruct (pad_container_spec 3 room 0 (be_bytes e)) as (pad & E & Hm & Hp); [lia|lia|].
  pose proof (encodes_bytes e _ He) as Hu. assert (Forall is_u8 (be_bytes e ++ replicate pad 0)) as Hc.
  { apply Forall_app. split; [done|]. apply Forall_replicate. unfold in_range. lia. }
  assert (zlen (be_bytes e ++ replicate pad 0) = n + Z.of_nat pad) as Hlen.
  { rewrite zlen_app. unfold zlen at 2. rewrite length_replicate. lia. }
  eexists. split; [done|]. split; [done|]. rewrite Hlen. split; [lia|]. split; [rewrite <- Hm; f_equal; lia|].
  exists (byte_bits (replicate pad 0)). pose proof (decodes_new _ Hc) as Hd. by rewrite byte_bits_app, Hb in Hd.
Qed.
