(* ===== verification/GtpuPdu.v ===== *)
(** * GTP-U PDUs

    Models [src/lib/gtpu/gtpu_pdu.h] and [src/lib/gtpu/gtpu_pdu.cpp]: the GTP-U header
    with its chain of extension headers, written in front of a message, dissected out of
    a received PDU, and the information elements. *)
From stdpp Require Import base numbers list.
From Stdlib Require Import ZArith Lia.
From S2P Require Import Prelude.
From S2P Require Import BitEncoding.
From S2P Require Import BitBytes.

Set Default Goal Selector "!".
Open Scope Z_scope.
Open Scope ran_scope.

(** ** Constants *)

Definition GTPU_BASE_HEADER_LEN : Z := 8.
Definition GTPU_EXTENDED_HEADER_LEN : Z := 12.
Definition GTPU_FLAGS_VERSION_V1 : Z := 1.
Definition GTPU_FLAGS_GTP_PROTOCOL : Z := 1.
Definition GTPU_MSG_ECHO_REQUEST : Z := 1.
Definition GTPU_MSG_ECHO_RESPONSE : Z := 2.
Definition GTPU_MSG_ERROR_INDICATION : Z := 26.
Definition GTPU_MSG_END_MARKER : Z := 254.
Definition GTPU_MSG_DATA_PDU : Z := 255.
Definition GTPU_MAX_NUM_HEADER_EXTENSIONS : Z := 10.

(** An extension header type is any byte: [gtpu_extension_header_type] names these. *)
Definition no_more_extension_headers : Z := 0x00.
Definition reserved_0 : Z := 0x01.
Definition reserved_1 : Z := 0x02.
Definition nr_ran_container : Z := 0x84.
Definition pdu_session_container : Z := 0x85.
Definition pdcp_pdu_number : Z := 0xc0.
Definition reserved_2 : Z := 0xc1.
Definition reserved_3 : Z := 0xc2.

(** ** Header *)

Record gtpu_flags := mk_gtpu_flags {
  gf_version : Z;
  gf_protocol_type : Z;
  gf_ext_hdr : bool;
  gf_seq_number : bool;
  gf_n_pdu : bool;
}.
#[export] Instance gtpu_flags_eta : RecordEta gtpu_flags := fun r =>
  mk_gtpu_flags (gf_version r) (gf_protocol_type r) (gf_ext_hdr r) (gf_seq_number r) (gf_n_pdu r).

(** [gtpu_extension_header]: the container is a view of bytes. *)
Record gtpu_extension_header := mk_gtpu_extension_header {
  extension_header_type : Z;
  ext_container : list Z;
}.

Record gtpu_header := mk_gtpu_header {
  gh_flags : gtpu_flags;
  gh_message_type : Z;
  gh_length : Z;
  gh_teid : Z;
  gh_seq_number : Z;
  gh_n_pdu : Z;
  gh_next_ext_hdr_type : Z;
  gh_ext_list : list gtpu_extension_header;
}.
#[export] Instance gtpu_header_eta : RecordEta gtpu_header := fun r =>
  mk_gtpu_header (gh_flags r) (gh_message_type r) (gh_length r) (gh_teid r) (gh_seq_number r)
    (gh_n_pdu r) (gh_next_ext_hdr_type r) (gh_ext_list r).

Definition gtpu_header_default : gtpu_header :=
  mk_gtpu_header (mk_gtpu_flags 1 0 false false false) 0 0 0 0 0 no_more_extension_headers [].

Record gtpu_dissected_pdu := mk_gtpu_dissected_pdu {
  gd_buf : list Z;
  gd_hdr : gtpu_header;
  gd_hdr_len : Z;
  gd_test_mode : bool;
}.

(** ** Checks *)

Definition gtpu_supported_flags_check (header : gtpu_header) : bool :=
  if negb (gf_version (gh_flags header) =? GTPU_FLAGS_VERSION_V1) then false else
  if negb (gf_protocol_type (gh_flags header) =? GTPU_FLAGS_GTP_PROTOCOL) then false else
  if gf_n_pdu (gh_flags header) then false else true.

Definition gtpu_supported_msg_type_check (header : gtpu_header) : bool :=
  let t := gh_message_type header in
  if negb (t =? GTPU_MSG_DATA_PDU) && negb (t =? GTPU_MSG_ECHO_REQUEST) &&
     negb (t =? GTPU_MSG_ECHO_RESPONSE) && negb (t =? GTPU_MSG_ERROR_INDICATION) &&
     negb (t =? GTPU_MSG_END_MARKER) then false else true.

Definition gtpu_extension_header_comprehension_check (type : Z) : bool :=
  if type =? no_more_extension_headers then true else
  if (type =? nr_ran_container) || (type =? pdu_session_container) then true else
  if type =? pdcp_pdu_number then true else
  if (type =? reserved_0) || (type =? reserved_1) || (type =? reserved_2) || (type =? reserved_3) then false else
  let comp := Z.shiftr type 6 in
  negb ((comp =? 2) || (comp =? 3)).

(** ** Writing *)

Definition gtpu_optional_fields (header : gtpu_header) : bool :=
  negb (bool_decide (gh_ext_list header = [])) || gf_seq_number (gh_flags header) ||
  gf_n_pdu (gh_flags header).

Definition gtpu_get_length (header : gtpu_header) (sdu : list Z) : Z :=
  let len := u16 (zlen sdu) in
  let len := if gtpu_optional_fields header then u16 (len + 4) else len in
  foldl (fun len ext => u16 (u16 (len + 2) + zlen (ext_container ext))) len (gh_ext_list header).

(** [room]: the bytes the pool gives to the buffer of the header. *)
Definition gtpu_write_ext_header (room : Z) (ext : gtpu_extension_header)
    (next_extension_header_type : Z) (encoder : bit_encoder) : checked (bool * bit_encoder) :=
  let payload := u8 (1 + zlen (ext_container ext) + 1) in
  assert? payload mod 4 =? 0;
  let length := payload / 4 in
  let? (ok1, encoder) := be_pack room length 8 encoder in
  let? (ok2, encoder) := be_pack_bytes room (ext_container ext) encoder in
  let? (ok3, encoder) := be_pack room next_extension_header_type 8 encoder in
  Ok (ok1 && ok2 && ok3, encoder).

Fixpoint gtpu_write_ext_list (room : Z) (exts : list gtpu_extension_header) (encoder : bit_encoder) :
    checked (bool * bit_encoder) :=
  match exts with
  | [] => Ok (true, encoder)
  | ext :: exts =>
      let next := match exts with [] => no_more_extension_headers | e :: _ => extension_header_type e end in
      let? (pack_ok, encoder) := gtpu_write_ext_header room ext next encoder in
      if pack_ok then gtpu_write_ext_list room exts encoder else Ok (false, encoder)
  end.

(** [prepend_ok]: whether the buffer of the PDU takes the header. [None]: the function
    returns false. *)
Definition gtpu_write_header (room : Z) (prepend_ok : bool) (pdu : list Z) (header : gtpu_header) :
    checked (option (list Z)) :=
  if negb (gtpu_supported_flags_check header) then Ok None else
  if negb (gtpu_supported_msg_type_check header) then Ok None else
  let no_ext := bool_decide (gh_ext_list header = []) in
  let? (pack_ok, encoder) := be_pack_and room
    [ (gf_version (gh_flags header), 3); (gf_protocol_type (gh_flags header), 1); (0, 1);
      bool_field (negb no_ext); bool_field (gf_seq_number (gh_flags header)); bool_field (gf_n_pdu (gh_flags header));
      (gh_message_type header, 8); (gtpu_get_length header pdu, 16); (gh_teid header, 32) ] true bit_encoder_new in
  let? (pack_ok, encoder) :=
    if gtpu_optional_fields header then
      be_pack_and room
        [ (gh_seq_number header, 16); (gh_n_pdu header, 8);
          (match gh_ext_list header with [] => no_more_extension_headers | e :: _ => extension_header_type e end, 8) ]
        pack_ok encoder
    else Ok (pack_ok, encoder) in
  if negb pack_ok then Ok None else
  let? (pack_ok, encoder) := gtpu_write_ext_list room (gh_ext_list header) encoder in
  if negb pack_ok then Ok None else
  if negb prepend_ok then Ok None else Ok (Some (be_bytes encoder ++ pdu)).

(** ** Reading *)

Definition gtpu_read_teid (pdu : list Z) : option Z :=
  if zlen pdu <? GTPU_BASE_HEADER_LEN then None else
  Some (foldl (fun teid '(i, byte) => Z.lor teid (u32 (Z.shiftl byte (i * 8)))) 0
          (zip [3; 2; 1; 0] (take 4 (drop 4 pdu)))).

(** The results of the reads are not checked: a failing one leaves what it read. *)
Definition gtpu_unpack_ext_header_type (decoder : bit_decoder) : checked (Z * bit_decoder) :=
  let? (_, tmp, decoder) := bd_unpack 8 8 decoder in Ok (tmp, decoder).

(** The container, and the type of the next extension header. *)
Definition gtpu_read_ext_header (decoder : bit_decoder) : checked (list Z * Z * bit_decoder) :=
  let? (_, length, decoder) := bd_unpack 8 8 decoder in
  let payload := u16 (length * 4 - 2) in
  let? (container, decoder) := bd_unpack_aligned_bytes payload decoder in
  let? (next_extension_header_type, decoder) := gtpu_unpack_ext_header_type decoder in
  Ok (container, next_extension_header_type, decoder).

(** The loop over the extension headers: [None] when the PDU is refused. *)
Fixpoint gtpu_dissect_ext_list (fuel : nat) (next_extension_header_type : Z)
    (ext_list : list gtpu_extension_header) (decoder : bit_decoder) :
    checked (option (list gtpu_extension_header * bit_decoder)) :=
  match fuel with
  | O => Panic
  | S fuel =>
      let type := next_extension_header_type in
      if negb (gtpu_extension_header_comprehension_check type) then Ok None else
      let? (container, next_extension_header_type, decoder) := gtpu_read_ext_header decoder in
      if zlen ext_list <? GTPU_MAX_NUM_HEADER_EXTENSIONS then
        let ext_list := ext_list ++ [mk_gtpu_extension_header type container] in
        if next_extension_header_type =? no_more_extension_headers then Ok (Some (ext_list, decoder))
        else gtpu_dissect_ext_list fuel next_extension_header_type ext_list decoder
      else Ok None
  end.

(** The eleventh turn ends with the list full. *)
Definition gtpu_ext_fuel : nat := 11.

(** The optional header fields. *)
Definition gtpu_dissect_options (pdu_len : Z) (hdr : gtpu_header) (decoder : bit_decoder) :
    checked (option (gtpu_header * bit_decoder)) :=
  if gf_ext_hdr (gh_flags hdr) || gf_seq_number (gh_flags hdr) || gf_n_pdu (gh_flags hdr) then
    if pdu_len <? GTPU_EXTENDED_HEADER_LEN then Ok None else
    let? (_, seq_number, decoder) := bd_unpack 16 16 decoder in
    let? (_, n_pdu, decoder) := bd_unpack 8 8 decoder in
    let? (next_ext_hdr_type, decoder) := gtpu_unpack_ext_header_type decoder in
    if negb (gtpu_extension_header_comprehension_check next_ext_hdr_type) then Ok None else
    Ok (Some (hdr <| gh_seq_number := seq_number |> <| gh_n_pdu := n_pdu |>
                  <| gh_next_ext_hdr_type := next_ext_hdr_type |>, decoder))
  else Ok (Some (hdr, decoder)).

(** The header extensions. *)
Definition gtpu_dissect_exts (hdr : gtpu_header) (decoder : bit_decoder) :
    checked (option (gtpu_header * bit_decoder)) :=
  if gf_ext_hdr (gh_flags hdr) then
    if gh_next_ext_hdr_type hdr =? no_more_extension_headers then Ok None else
    verify? (ext_list, decoder) :=
      gtpu_dissect_ext_list gtpu_ext_fuel (gh_next_ext_hdr_type hdr) (gh_ext_list hdr) decoder in
    Ok (Some (hdr <| gh_ext_list := ext_list |>, decoder))
  else Ok (Some (hdr, decoder)).

Definition gtpu_dissect_pdu (raw_pdu : list Z) : checked (option gtpu_dissected_pdu) :=
  if zlen raw_pdu <? GTPU_BASE_HEADER_LEN then Ok None else
  let hdr := gtpu_header_default in
  let decoder := bit_decoder_new raw_pdu in
  let? (_, version, decoder) := bd_unpack 8 3 decoder in
  let? (_, protocol_type, decoder) := bd_unpack 8 1 decoder in
  let? (_, spare, decoder) := bd_unpack 8 1 decoder in
  let? (_, ext_hdr, decoder) := bd_unpack 8 1 decoder in
  let? (_, seq, decoder) := bd_unpack 8 1 decoder in
  let? (_, npdu, decoder) := bd_unpack 8 1 decoder in
  let hdr := hdr <| gh_flags := mk_gtpu_flags version protocol_type (negb (ext_hdr =? 0))
                                  (negb (seq =? 0)) (negb (npdu =? 0)) |> in
  if negb (gtpu_supported_flags_check hdr) then Ok None else
  let? (_, message_type, decoder) := bd_unpack 8 8 decoder in
  let? (_, length, decoder) := bd_unpack 16 16 decoder in
  let? (_, teid, decoder) := bd_unpack 32 32 decoder in
  let hdr := hdr <| gh_message_type := message_type |> <| gh_length := length |> <| gh_teid := teid |> in
  let expected_length := u16 (zlen raw_pdu - GTPU_BASE_HEADER_LEN) in
  if negb (gh_length hdr =? expected_length) then Ok None else
  verify? (hdr, decoder) := gtpu_dissect_options (zlen raw_pdu) hdr decoder in
  verify? (hdr, decoder) := gtpu_dissect_exts hdr decoder in
  Ok (Some (mk_gtpu_dissected_pdu raw_pdu hdr (bd_nof_bytes (zlen raw_pdu) decoder) false)).

(** [trim_head] asserts that there are as many bytes to trim. *)
Definition gtpu_extract_msg (dissected_pdu : gtpu_dissected_pdu) : checked (list Z) :=
  assert? gd_hdr_len dissected_pdu <=? zlen (gd_buf dissected_pdu);
  Ok (drop (Z.to_nat (gd_hdr_len dissected_pdu)) (gd_buf dissected_pdu)).

(** ** Information elements *)

Definition ie_recovery : Z := 14.
Definition ie_tunnel_endpoint_identifier_data_i : Z := 16.
Definition ie_gsn_address : Z := 133.
Definition ie_private_extension : Z := 255.

(** The encoder goes on after the bytes of the PDU. *)
Definition bit_encoder_on (bytes : list Z) : bit_encoder := mk_bit_encoder bytes 0.

Definition gtpu_write_ie_recovery (room : Z) (pdu : list Z) (restart_counter : Z) : checked (bool * list Z) :=
  let? (pack_ok, enc) := be_pack_and room [(ie_recovery, 8); (restart_counter, 8)] true (bit_encoder_on pdu) in
  Ok (pack_ok, be_bytes enc).

Definition gtpu_write_ie_private_extension (room : Z) (pdu : list Z) (extension_identifier : Z)
    (extension_value : list Z) : checked (bool * list Z) :=
  let? (pack_ok, enc) := be_pack_and room
    ([(ie_private_extension, 8); (u16 (zlen extension_value + 2), 16); (extension_identifier, 16)] ++
     map (fun v => (v, 8)) extension_value) true (bit_encoder_on pdu) in
  Ok (pack_ok, be_bytes enc).

(** [gtpu_ie_gtpu_peer_address] *)
Inductive gtpu_peer_address : Type :=
| ipv4_addr (bytes : list Z)
| ipv6_addr (bytes : list Z).

Record gtpu_msg_error_indication := mk_gtpu_msg_error_indication {
  ei_teid_i : Z;
  ei_gtpu_peer_address : gtpu_peer_address;
}.

Definition gtpu_read_ie_gtpu_peer_address (dec : bit_decoder) :
    checked (option (gtpu_peer_address * bit_decoder)) :=
  verify? (length, dec) := bd_read 16 16 dec in
  if length =? 4 then
    let? (bytes, dec) := bd_unpack_bytes 4 dec in
    Ok (option_map (fun b => (ipv4_addr b, dec)) bytes)
  else if length =? 16 then
    let? (bytes, dec) := bd_unpack_bytes 16 dec in
    Ok (option_map (fun b => (ipv6_addr b, dec)) bytes)
  else Ok None.

(** [read_ok] is false from the first read that fails on; a failing read of the type
    leaves it 0 or with its high bits, which is not checked before the comparison. *)
Definition gtpu_read_msg_error_indication (pdu : list Z) : checked (option gtpu_msg_error_indication) :=
  let decoder := bit_decoder_new pdu in
  let? (ok1, ie_type, decoder) := bd_unpack 8 8 decoder in
  if negb (ie_type =? ie_tunnel_endpoint_identifier_data_i) then Ok None else
  let? (ok2, teid_i, decoder) := bd_unpack 32 32 decoder in
  let? (ok3, ie_type, decoder) := bd_unpack 8 8 decoder in
  if negb (ie_type =? ie_gsn_address) then Ok None else
  verify? (address, decoder) := gtpu_read_ie_gtpu_peer_address decoder in
  Ok (if ok1 && ok2 && ok3 then Some (mk_gtpu_msg_error_indication teid_i address) else None).
