(* ===== verification/GtpuPduProps.v ===== *)
(** * GTP-U PDUs: properties

    The header written in front of a message is the one dissected, and the message is
    extracted unchanged; dissection of any bytes ends, and what it accepts can be
    extracted. *)
From stdpp Require Import base numbers list.
From Stdlib Require Import ZArith Lia.
From S2P Require Import Prelude.
From S2P Require Import BitEncoding.
From S2P Require Import BitBytes.
From S2P Require Import GtpuPdu.

Set Default Goal Selector "!".
Open Scope Z_scope.
Open Scope ran_scope.

(** ** Headers that can be sent *)

Record gtpu_ext_ok (ext : gtpu_extension_header) : Prop := {
  eo_type : 0 < extension_header_type ext < 256;
  eo_comprehended : gtpu_extension_header_comprehension_check (extension_header_type ext) = true;
  eo_bytes : Forall is_u8 (ext_container ext);
  eo_size : (zlen (ext_container ext) + 2) mod 4 = 0;
  eo_len : zlen (ext_container ext) <= 250;
}.

Record gtpu_header_ok (header : gtpu_header) : Prop := {
  ho_version : gf_version (gh_flags header) = GTPU_FLAGS_VERSION_V1;
  ho_protocol : gf_protocol_type (gh_flags header) = GTPU_FLAGS_GTP_PROTOCOL;
  ho_n_pdu_flag : gf_n_pdu (gh_flags header) = false;
  ho_msg_type : gtpu_supported_msg_type_check header = true;
  ho_teid : is_u32 (gh_teid header);
  ho_seq : is_u16 (gh_seq_number header);
  ho_n_pdu : is_u8 (gh_n_pdu header);
  ho_exts : Forall gtpu_ext_ok (gh_ext_list header);
  ho_nof_exts : zlen (gh_ext_list header) <= GTPU_MAX_NUM_HEADER_EXTENSIONS;
}.

Definition next_ext_type (exts : list gtpu_extension_header) : Z :=
  match exts with [] => no_more_extension_headers | e :: _ => extension_header_type e end.

Fixpoint gtpu_ext_list_len (exts : list gtpu_extension_header) : Z :=
  match exts with [] => 0 | ext :: exts => 2 + zlen (ext_container ext) + gtpu_ext_list_len exts end.

Definition gtpu_hdr_len (header : gtpu_header) : Z :=
  8 + (if gtpu_optional_fields header then 4 else 0) + gtpu_ext_list_len (gh_ext_list header).

(** The header that the receiver of the PDU reads. *)
Definition gtpu_header_read (header : gtpu_header) (pdu : list Z) : gtpu_header :=
  let optional := gtpu_optional_fields header in
  header <| gh_flags ::= fun f => f <| gf_ext_hdr := negb (bool_decide (gh_ext_list header = [])) |> |>
         <| gh_length := gtpu_hdr_len header - 8 + zlen pdu |>
         <| gh_seq_number ::= fun n => if optional then n else 0 |>
         <| gh_n_pdu ::= fun n => if optional then n else 0 |>
         <| gh_next_ext_hdr_type := next_ext_type (gh_ext_list header) |>.

(** ** The length field *)

Lemma gtpu_ext_list_len_nonneg exts : 0 <= gtpu_ext_list_len exts.
Proof. induction exts as [|e exts IH]; cbn; [done|]. pose proof (zlen_nonneg (ext_container e)). lia. Qed.

Lemma gtpu_get_length_spec header pdu :
  gtpu_get_length header pdu = u16 (gtpu_hdr_len header - 8 + zlen pdu).
Proof.
  unfold gtpu_get_length, gtpu_hdr_len.
  assert (forall exts x, foldl (fun len ext => u16 (u16 (len + 2) + zlen (ext_container ext))) (u16 x) exts =
    u16 (x + gtpu_ext_list_len exts)) as Hf.
  { induction exts as [|e exts IH]; intros x; cbn; [by rewrite Z.add_0_r|].
    rewrite (wrap_add_l 16 x 2) by lia. rewrite wrap_add_l by lia. rewrite IH. f_equal. lia. }
  destruct (gtpu_optional_fields header).
  - rewrite wrap_add_l by lia. rewrite Hf. f_equal. lia.
  - rewrite Hf. f_equal. lia.
Qed.

(** ** The bytes of the extension headers *)

Fixpoint gtpu_ext_list_bytes (exts : list gtpu_extension_header) : list Z :=
  match exts with
  | [] => []
  | ext :: exts =>
      ((zlen (ext_container ext) + 2) / 4 :: ext_container ext) ++ [next_ext_type exts] ++ gtpu_ext_list_bytes exts
  end.

Lemma zlen_ext_list_bytes exts : zlen (gtpu_ext_list_bytes exts) = gtpu_ext_list_len exts.
Proof.
  induction exts as [|e exts IH]; [done|]. cbn [gtpu_ext_list_bytes gtpu_ext_list_len].
  rewrite zlen_app, zlen_cons. cbn [app]. rewrite zlen_cons, IH. lia.
Qed.

Lemma next_ext_type_u8 exts : Forall gtpu_ext_ok exts -> is_u8 (next_ext_type exts).
Proof.
  intros He. destruct exts as [|e exts]; cbn; [unfold in_range, no_more_extension_headers; lia|].
  apply Forall_cons in He as [[Ht _ _ _ _] _]. unfold in_range. lia.
Qed.

Lemma gtpu_ext_size ext :
  gtpu_ext_ok ext ->
  u8 (1 + zlen (ext_container ext) + 1) = zlen (ext_container ext) + 2 /\
  (zlen (ext_container ext) + 2) / 4 * 4 = zlen (ext_container ext) + 2 /\ 0 <= (zlen (ext_container ext) + 2) / 4 < 64.
Proof.
  intros [_ _ _ Hs Hl]. pose proof (zlen_nonneg (ext_container ext)).
  rewrite wrap_small by (unfold in_range; lia). split_and!; dlia.
Qed.

Lemma ext_list_bytes_u8 exts : Forall gtpu_ext_ok exts -> Forall is_u8 (gtpu_ext_list_bytes exts).
Proof.
  induction exts as [|e exts IH]; intros He; [apply Forall_nil_2|]. cbn [gtpu_ext_list_bytes].
  pose proof He as [Hok Hr]%Forall_cons. apply Forall_app. split.
  - apply Forall_cons. split; [destruct (gtpu_ext_size e Hok) as (_ & _ & ?); unfold in_range; lia|apply Hok].
  - apply Forall_app. split; [apply Forall_singleton; by apply next_ext_type_u8|by apply IH].
Qed.

Lemma byte_bits_one b : byte_bits [b] = bits_of 8 b.
Proof. unfold byte_bits. cbn [flat_map]. apply app_nil_r. Qed.
Lemma byte_bits_cons b l : byte_bits (b :: l) = bits_of 8 b ++ byte_bits l.
Proof. done. Qed.
Lemma zlen_one {A} (x : A) : zlen [x] = 1.
Proof. done. Qed.
Lemma zlen_byte_bits l : zlen (byte_bits l) = 8 * zlen l.
Proof. unfold zlen. rewrite length_byte_bits. lia. Qed.

Lemma be_pack_byte room b e bs :
  encodes e bs -> is_u8 b -> zlen bs + 8 <= 8 * room ->
  exists e', be_pack room b 8 e = Ok (true, e') /\ encodes e' (bs ++ byte_bits [b]).
Proof.
  intros He Hb Hr. rewrite byte_bits_one. change 8%nat with (Z.to_nat 8).
  apply be_pack_spec; [done|lia|unfold in_range in *; lia|lia].
Qed.

Lemma gtpu_write_ext_header_spec room ext next e bs :
  encodes e bs -> gtpu_ext_ok ext -> is_u8 next -> zlen bs + 8 * (zlen (ext_container ext) + 2) <= 8 * room ->
  exists e', gtpu_write_ext_header room ext next e = Ok (true, e') /\
    encodes e' (bs ++ byte_bits (((zlen (ext_container ext) + 2) / 4 :: ext_container ext) ++ [next])).
Proof.
  intros He Hok Hn Hr. destruct (gtpu_ext_size ext Hok) as (Hu & Hd & Hl). pose proof (eo_size _ Hok) as Hs.
  pose proof (zlen_nonneg (ext_container ext)) as H0.
  unfold gtpu_write_ext_header. rewrite Hu, (proj2 (Z.eqb_eq _ _)) by done.
  destruct (be_pack_byte room ((zlen (ext_container ext) + 2) / 4) e bs) as (e1 & -> & He1); [done|unfold in_range; lia|lia|].
  cbn [checked_bind].
  destruct (be_pack_bytes_spec room (ext_container ext) e1 _ He1) as (e2 & -> & He2); [apply Hok|rewrite zlen_app, zlen_byte_bits, zlen_one; lia|].
  cbn [checked_bind].
  destruct (be_pack_byte room next e2 _ He2) as (e3 & -> & He3); [done|rewrite !zlen_app, !zlen_byte_bits, zlen_one; lia|].
  cbn [checked_bind]. eexists. split; [done|]. by rewrite <- !app_assoc, <- !byte_bits_app in He3.
Qed.

Lemma gtpu_write_ext_list_spec room exts e bs :
  encodes e bs -> Forall gtpu_ext_ok exts -> zlen bs + 8 * gtpu_ext_list_len exts <= 8 * room ->
  exists e', gtpu_write_ext_list room exts e = Ok (true, e') /\ encodes e' (bs ++ byte_bits (gtpu_ext_list_bytes exts)).
Proof.
  revert e bs. induction exts as [|ext exts IH]; intros e bs He Hok Hr.
  { exists e. split; [done|]. cbn. by rewrite app_nil_r. }
  cbn [gtpu_ext_list_len] in Hr. pose proof Hok as [Hext Hexts]%Forall_cons. pose proof (gtpu_ext_list_len_nonneg exts).
  destruct (gtpu_write_ext_header_spec room ext (next_ext_type exts) e bs He Hext) as (e1 & Ew & He1);
    [by apply next_ext_type_u8|lia|].
  change (gtpu_write_ext_list room (ext :: exts) e) with
    (let? (pack_ok, encoder) := gtpu_write_ext_header room ext (next_ext_type exts) e in
     if pack_ok then gtpu_write_ext_list room exts encoder else Ok (false, encoder)).
  rewrite Ew. cbn [checked_bind]. destruct (IH e1 _ He1 Hexts) as (e' & -> & He').
  { rewrite zlen_app, zlen_byte_bits, zlen_app, zlen_cons. change (zlen [next_ext_type exts]) with 1. lia. }
  eexists. split; [done|]. rewrite <- app_assoc, <- byte_bits_app in He'. cbn [gtpu_ext_list_bytes].
  by rewrite app_assoc.
Qed.

(** ** Writing *)

Definition gtpu_base_fields (header : gtpu_header) (pdu : list Z) : list (Z * Z) :=
  [ (gf_version (gh_flags header), 3); (gf_protocol_type (gh_flags header), 1); (0, 1);
    bool_field (negb (bool_decide (gh_ext_list header = []))); bool_field (gf_seq_number (gh_flags header));
    bool_field (gf_n_pdu (gh_flags header));
    (gh_message_type header, 8); (gtpu_get_length header pdu, 16); (gh_teid header, 32) ].
Definition gtpu_option_fields (header : gtpu_header) : list (Z * Z) :=
  if gtpu_optional_fields header then
    [ (gh_seq_number header, 16); (gh_n_pdu header, 8); (next_ext_type (gh_ext_list header), 8) ]
  else [].

Lemma msg_type_u8 header : gtpu_supported_msg_type_check header = true -> is_u8 (gh_message_type header).
Proof.
  unfold gtpu_supported_msg_type_check. intros H. unfold in_range.
  destruct (gh_message_type header =? GTPU_MSG_DATA_PDU) eqn:E1; zbool; [rewrite E1; vm_compute; split; congruence|].
  destruct (gh_message_type header =? GTPU_MSG_ECHO_REQUEST) eqn:E2; zbool; [rewrite E2; vm_compute; split; congruence|].
  destruct (gh_message_type header =? GTPU_MSG_ECHO_RESPONSE) eqn:E3; zbool; [rewrite E3; vm_compute; split; congruence|].
  destruct (gh_message_type header =? GTPU_MSG_ERROR_INDICATION) eqn:E4; zbool; [rewrite E4; vm_compute; split; congruence|].
  destruct (gh_message_type header =? GTPU_MSG_END_MARKER) eqn:E5; zbool; [rewrite E5; vm_compute; split; congruence|done].
Qed.

Lemma gtpu_base_fields_ok header pdu :
  gtpu_header_ok header ->
  Forall (field_ok 64) (gtpu_base_fields header pdu) /\ zlen (fields_bits (gtpu_base_fields header pdu)) = 64.
Proof.
  intros [Hv Hp _ Hm Ht _ _ _ _]. pose proof (msg_type_u8 _ Hm). split; [|done].
  unfold gtpu_base_fields. rewrite gtpu_get_length_spec, Hv, Hp. pose proof (wrap_range 16 (gtpu_hdr_len header - 8 + zlen pdu)) as Hl.
  unfold in_range in *. specialize (Hl ltac:(lia)).
  repeat (apply Forall_cons_2; [first [apply bool_field_ok; lia | split; cbn [fst snd]; try done; try lia]|]). apply Forall_nil_2.
Qed.

Lemma gtpu_option_fields_ok header :
  gtpu_header_ok header ->
  Forall (field_ok 64) (gtpu_option_fields header) /\
  zlen (fields_bits (gtpu_option_fields header)) = (if gtpu_optional_fields header then 32 else 0).
Proof.
  intros [_ _ _ _ _ Hs Hn He _]. pose proof (next_ext_type_u8 _ He). unfold gtpu_option_fields, in_range in *.
  destruct (gtpu_optional_fields header); [|done]. split; [|done].
  repeat (apply Forall_cons_2; [split; cbn [fst snd]; lia|]). apply Forall_nil_2.
Qed.

(** The bits of the header. *)
Definition gtpu_header_bits (header : gtpu_header) (pdu : list Z) : list bool :=
  fields_bits (gtpu_base_fields header pdu) ++ fields_bits (gtpu_option_fields header) ++
  byte_bits (gtpu_ext_list_bytes (gh_ext_list header)).

Lemma zlen_gtpu_header_bits header pdu :
  gtpu_header_ok header -> zlen (gtpu_header_bits header pdu) = 8 * gtpu_hdr_len header.
Proof.
  intros Hok. unfold gtpu_header_bits, gtpu_hdr_len. rewrite !zlen_app, zlen_byte_bits, zlen_ext_list_bytes.
  destruct (gtpu_base_fields_ok header pdu Hok) as [_ ->]. destruct (gtpu_option_fields_ok header Hok) as [_ ->].
  destruct (gtpu_optional_fields header); lia.
Qed.

Lemma gtpu_write_header_spec room pdu header :
  gtpu_header_ok header -> gtpu_hdr_len header <= room ->
  exists bytes, gtpu_write_header room true pdu header = Ok (Some (bytes ++ pdu)) /\ Forall is_u8 bytes /\
    byte_bits bytes = gtpu_header_bits header pdu /\ zlen bytes = gtpu_hdr_len header.
Proof.
  intros Hok Hr. unfold gtpu_write_header.
  assert (gtpu_supported_flags_check header = true) as ->.
  { unfold gtpu_supported_flags_check. by rewrite (ho_version _ Hok), (ho_protocol _ Hok), (ho_n_pdu_flag _ Hok). }
  rewrite (ho_msg_type _ Hok). cbn [negb]. fold (gtpu_base_fields header pdu).
  destruct (gtpu_base_fields_ok header pdu Hok) as [Hf1 Hl1]. destruct (gtpu_option_fields_ok header Hok) as [Hf2 Hl2].
  pose proof (gtpu_ext_list_len_nonneg (gh_ext_list header)) as Hel. unfold gtpu_hdr_len in Hr.
  destruct (be_pack_and_spec room _ true _ [] encodes_new Hf1) as (e1 & -> & He1); [rewrite Hl1; change (zlen (@nil bool)) with 0; destruct (gtpu_optional_fields header); lia|].
  cbn [checked_bind]. cbn [app] in He1.
  assert (exists e2, (if gtpu_optional_fields header then
        be_pack_and room
          [ (gh_seq_number header, 16); (gh_n_pdu header, 8);
            (match gh_ext_list header with [] => no_more_extension_headers | e :: _ => extension_header_type e end, 8) ]
          true e1
      else Ok (true, e1)) = Ok (true, e2) /\
    encodes e2 (fields_bits (gtpu_base_fields header pdu) ++ fields_bits (gtpu_option_fields header))) as (e2 & -> & He2).
  { destruct (be_pack_and_spec room _ true _ _ He1 Hf2) as (e2 & E & He2).
    { rewrite Hl1, Hl2. destruct (gtpu_optional_fields header); lia. }
    exists e2. split; [|done]. revert E. unfold gtpu_option_fields. by destruct (gtpu_optional_fields header). }
  cbn [checked_bind negb].
  destruct (gtpu_write_ext_list_spec room (gh_ext_list header) e2 _ He2) as (e3 & -> & He3);
    [apply Hok|rewrite zlen_app, Hl1, Hl2; destruct (gtpu_optional_fields header); lia|].
  cbn [checked_bind negb]. rewrite <- app_assoc in He3. fold (gtpu_header_bits header pdu) in He3.
  exists (be_bytes e3). split; [done|]. split; [by apply encodes_bytes in He3|].
  destruct (encodes_byte_bits e3 _ He3) as (pad & Hb & Hpad).
  pose proof (f_equal zlen Hb) as Hl. rewrite zlen_app, zlen_byte_bits, zlen_gtpu_header_bits in Hl by done.
  unfold zlen at 2 in Hl. rewrite length_replicate in Hl. assert (pad = 0)%nat as -> by lia.
  rewrite app_nil_r in Hb. split; [done|]. lia.
Qed.

(** ** Reading what was written *)

(** Whole bytes are left: the decoder is at a byte. *)
Lemma decodes_aligned d bytes bs :
  decodes d (byte_bits bytes ++ bs) -> zlen bs mod 8 = 0 -> bd_offset d = 0.
Proof. intros Hd Hm. eapply decodes_zero; [done|]. rewrite zlen_app, zlen_byte_bits. dlia. Qed.

Lemma bd_unpack_byte b d bs :
  decodes d (byte_bits [b] ++ bs) -> is_u8 b -> exists d', bd_unpack 8 8 d = Ok (true, b, d') /\ decodes d' bs.
Proof.
  intros Hd Hb. rewrite byte_bits_one in Hd. change 8%nat with (Z.to_nat 8) in Hd.
  apply bd_unpack_spec; try done; unfold in_range in *; lia.
Qed.

Lemma gtpu_read_ext_header_spec ext next d bs :
  gtpu_ext_ok ext -> is_u8 next -> zlen bs mod 8 = 0 ->
  decodes d (byte_bits (((zlen (ext_container ext) + 2) / 4 :: ext_container ext) ++ [next]) ++ bs) ->
  exists d', gtpu_read_ext_header d = Ok (ext_container ext, next, d') /\ decodes d' bs.
Proof.
  intros Hok Hn Hm Hd. destruct (gtpu_ext_size ext Hok) as (_ & Hsz & Hl). pose proof (eo_size _ Hok) as Hs.
  pose proof (zlen_nonneg (ext_container ext)). pose proof (eo_len _ Hok).
  rewrite <- app_comm_cons, byte_bits_cons, byte_bits_app, <- !app_assoc, <- byte_bits_one in Hd.
  unfold gtpu_read_ext_header, gtpu_unpack_ext_header_type.
  destruct (bd_unpack_byte _ d _ Hd ltac:(unfold in_range; lia)) as (d1 & -> & Hd1). cbn [checked_bind].
  rewrite wrap_small by (unfold in_range; lia).
  destruct (bd_unpack_aligned_spec ((zlen (ext_container ext) + 2) / 4 * 4 - 2) (ext_container ext) d1 _ Hd1) as (d2 & -> & Hd2 & _);
    [eapply decodes_aligned; [done|]; rewrite zlen_app, zlen_byte_bits, zlen_one; dlia|lia|apply Hok|].
  cbn [checked_bind]. destruct (bd_unpack_byte _ d2 _ Hd2 Hn) as (d3 & -> & Hd3). by exists d3.
Qed.

Lemma gtpu_dissect_ext_list_spec fuel e exts acc d bs :
  Forall gtpu_ext_ok (e :: exts) -> zlen bs mod 8 = 0 -> (length exts < fuel)%nat ->
  zlen acc + zlen (e :: exts) <= GTPU_MAX_NUM_HEADER_EXTENSIONS ->
  decodes d (byte_bits (gtpu_ext_list_bytes (e :: exts)) ++ bs) ->
  exists d', gtpu_dissect_ext_list fuel (extension_header_type e) acc d = Ok (Some (acc ++ e :: exts, d')) /\ decodes d' bs.
Proof.
  intros Hok Hm. revert e acc d fuel Hok. induction exts as [|e' exts IH]; intros e acc d fuel Hok Hf Hl Hd;
    (destruct fuel as [|fuel]; [lia|]); apply Forall_cons in Hok as [He Hok]; cbn [gtpu_dissect_ext_list];
    rewrite (eo_comprehended _ He); cbn [negb]; cbn [gtpu_ext_list_bytes] in Hd; rewrite app_assoc, byte_bits_app, <- app_assoc in Hd.
  all: rewrite (proj2 (Z.ltb_lt (zlen acc) _)) by (unfold zlen in *; cbn [length] in Hl; lia).
  all: assert (mk_gtpu_extension_header (extension_header_type e) (ext_container e) = e) as Ee by (by destruct e).
  - destruct (gtpu_read_ext_header_spec e (next_ext_type []) d (byte_bits [] ++ bs) He (next_ext_type_u8 _ Hok)) as (d1 & -> & Hd1); [done|exact Hd|].
    cbn [checked_bind next_ext_type]. rewrite Z.eqb_refl, Ee. by exists d1.
  - destruct (gtpu_read_ext_header_spec e (next_ext_type (e' :: exts)) d (byte_bits (gtpu_ext_list_bytes (e' :: exts)) ++ bs) He
      (next_ext_type_u8 _ Hok)) as (d1 & -> & Hd1); [|exact Hd|].
    { rewrite zlen_app, zlen_byte_bits. dlia. }
    cbn [checked_bind next_ext_type]. pose proof Hok as [He' _]%Forall_cons. pose proof (eo_type _ He').
    rewrite (proj2 (Z.eqb_neq _ _)) by (unfold no_more_extension_headers; lia).
    destruct (IH e' (acc ++ [e]) d1 fuel Hok) as (d' & E & Hd'); [cbn in Hf; lia|rewrite zlen_app, zlen_one; rewrite zlen_cons in Hl; lia|done|].
    rewrite Ee, E. exists d'. by rewrite <- app_assoc.
Qed.

(** [bd_field] for reads into integers of their own width. *)
Ltac gtpu_field :=
  lazymatch goal with
  | H : decodes ?d (fields_bits (bool_field ?b :: ?l) ++ ?bs) |- context [bd_unpack ?size 1 ?d] =>
      let d' := fresh "d" in let H' := fresh "Hd" in
      destruct (bd_unpack_field size (if b then 1 else 0) 1 l d bs H) as (d' & -> & H');
        [apply (bool_field_ok size b); lia|lia|];
      cbn [checked_bind]; clear H
  | _ => bd_field
  end.

Lemma gtpu_optional_flags header :
  negb (bool_decide (gh_ext_list header = [])) || gf_seq_number (gh_flags header) || gf_n_pdu (gh_flags header) =
    gtpu_optional_fields header.
Proof. done. Qed.

(** The header after its base fields were read. *)
Definition gtpu_base_read (header : gtpu_header) (pdu : list Z) : gtpu_header :=
  mk_gtpu_header (mk_gtpu_flags 1 1 (negb (bool_decide (gh_ext_list header = [])))
      (gf_seq_number (gh_flags header)) (gf_n_pdu (gh_flags header)))
    (gh_message_type header) (gtpu_hdr_len header - 8 + zlen pdu) (gh_teid header) 0 0 no_more_extension_headers [].

Lemma gtpu_dissect_options_spec header pdu pdu_len d bs :
  gtpu_header_ok header -> gtpu_hdr_len header <= pdu_len ->
  decodes d (fields_bits (gtpu_option_fields header) ++ bs) ->
  let optional := gtpu_optional_fields header in
  exists d', gtpu_dissect_options pdu_len (gtpu_base_read header pdu) d =
    Ok (Some (gtpu_base_read header pdu
      <| gh_seq_number := if optional then gh_seq_number header else 0 |>
      <| gh_n_pdu := if optional then gh_n_pdu header else 0 |>
      <| gh_next_ext_hdr_type := next_ext_type (gh_ext_list header) |>, d')) /\ decodes d' bs.
Proof.
  intros Hok Hl Hd optional. unfold gtpu_dissect_options. cbn [gh_flags gf_ext_hdr gf_seq_number gf_n_pdu gtpu_base_read].
  rewrite gtpu_optional_flags. fold optional. unfold gtpu_option_fields in Hd. unfold gtpu_hdr_len in Hl. fold optional in Hd, Hl.
  pose proof (gtpu_ext_list_len_nonneg (gh_ext_list header)). destruct optional eqn:Eo.
  - rewrite (proj2 (Z.ltb_ge _ _)) by (unfold GTPU_EXTENDED_HEADER_LEN; lia).
    pose proof (ho_seq _ Hok) as Hs. pose proof (ho_n_pdu _ Hok) as Hn. pose proof (next_ext_type_u8 _ (ho_exts _ Hok)) as Ht.
    unfold in_range in *. unfold gtpu_unpack_ext_header_type. do 3 bd_field.
    assert (gtpu_extension_header_comprehension_check (next_ext_type (gh_ext_list header)) = true) as ->.
    { pose proof (ho_exts _ Hok) as He. destruct (gh_ext_list header); [done|]. apply Forall_cons in He as [He _]. apply He. }
    cbn [negb]. eexists. split; [done|]. assumption.
  - exists d. split; [|done]. assert (gh_ext_list header = []) as ->; [|done].
    unfold optional, gtpu_optional_fields in Eo. apply orb_false_iff in Eo as [Eo _]. apply orb_false_iff in Eo as [Eo _].
    apply negb_false_iff, bool_decide_eq_true in Eo. done.
Qed.

Lemma gtpu_dissect_exts_spec hdr exts d bs :
  Forall gtpu_ext_ok exts -> zlen exts <= GTPU_MAX_NUM_HEADER_EXTENSIONS -> zlen bs mod 8 = 0 ->
  gf_ext_hdr (gh_flags hdr) = negb (bool_decide (exts = [])) -> gh_next_ext_hdr_type hdr = next_ext_type exts ->
  gh_ext_list hdr = [] -> decodes d (byte_bits (gtpu_ext_list_bytes exts) ++ bs) ->
  exists d', gtpu_dissect_exts hdr d = Ok (Some (hdr <| gh_ext_list := exts |>, d')) /\ decodes d' bs.
Proof.
  intros Hok Hn Hm Hf Ht Hl Hd. unfold gtpu_dissect_exts. rewrite Hf, Ht, Hl. destruct exts as [|e exts].
  { exists d. split; [|done]. destruct hdr; cbn in *; by subst. }
  rewrite bool_decide_eq_false_2 by done. cbn [negb next_ext_type]. pose proof Hok as [He _]%Forall_cons.
  pose proof (eo_type _ He). rewrite (proj2 (Z.eqb_neq _ _)) by (unfold no_more_extension_headers; lia).
  destruct (gtpu_dissect_ext_list_spec gtpu_ext_fuel e exts [] d bs Hok) as (d' & -> & Hd'); [done| | |done|].
  - unfold gtpu_ext_fuel. unfold zlen, GTPU_MAX_NUM_HEADER_EXTENSIONS in Hn. cbn [length] in Hn. lia.
  - change (zlen (@nil gtpu_extension_header)) with 0. lia.
  - by exists d'.
Qed.

Lemma gtpu_dissect_written raw header pdu bytes :
  gtpu_header_ok header -> Forall is_u8 pdu -> raw = bytes ++ pdu -> Forall is_u8 bytes ->
  byte_bits bytes = gtpu_header_bits header pdu -> gtpu_hdr_len header - 8 + zlen pdu < 65536 ->
  gtpu_dissect_pdu raw =
    Ok (Some (mk_gtpu_dissected_pdu raw (gtpu_header_read header pdu) (gtpu_hdr_len header) false)).
Proof.
  intros Hok Hpdu Er Hb Hbits Hlen. pose proof (zlen_gtpu_header_bits header pdu Hok) as Hzb. rewrite <- Hbits, zlen_byte_bits in Hzb.
  assert (zlen raw = gtpu_hdr_len header + zlen pdu) as Hraw by (rewrite Er, zlen_app; lia).
  assert (decodes (bit_decoder_new raw) (fields_bits (gtpu_base_fields header pdu) ++ fields_bits (gtpu_option_fields header) ++
    byte_bits (gtpu_ext_list_bytes (gh_ext_list header)) ++ byte_bits pdu)) as Hd.
  { rewrite Er. pose proof (decodes_new (bytes ++ pdu)) as H. rewrite byte_bits_app, Hbits in H. unfold gtpu_header_bits in H.
    rewrite <- !app_assoc in H. apply H. by apply Forall_app. }
  pose proof (gtpu_ext_list_len_nonneg (gh_ext_list header)) as Hel. pose proof (zlen_nonneg pdu) as Hpl.
  assert (8 <= gtpu_hdr_len header) as H8 by (unfold gtpu_hdr_len; destruct (gtpu_optional_fields header); lia).
  unfold gtpu_dissect_pdu. cbv zeta. rewrite (proj2 (Z.ltb_ge _ _)) by (unfold GTPU_BASE_HEADER_LEN; lia).
  destruct (gtpu_base_fields_ok header pdu Hok) as [_ _].
  assert (gtpu_get_length header pdu = gtpu_hdr_len header - 8 + zlen pdu) as El.
  { rewrite gtpu_get_length_spec. apply wrap_small. unfold in_range. lia. }
  unfold gtpu_base_fields in Hd. rewrite El in Hd.
  pose proof (msg_type_u8 _ (ho_msg_type _ Hok)) as Hmt. pose proof (ho_teid _ Hok) as Ht. unfold in_range in Hmt, Ht.
  rewrite (ho_version _ Hok), (ho_protocol _ Hok) in Hd.
  do 6 gtpu_field. rewrite !bool_flag.
  match goal with |- context [gtpu_supported_flags_check ?h] => assert (gtpu_supported_flags_check h = true) as -> end.
  { unfold gtpu_supported_flags_check, field_update. cbn [gh_flags gf_version gf_protocol_type gf_n_pdu]. by rewrite (ho_n_pdu_flag _ Hok). }
  cbn [negb]. do 3 gtpu_field.
  match goal with |- context [gtpu_dissect_options _ ?h _] => change h with (gtpu_base_read header pdu) end.
  match goal with |- context [gh_length ?h] => change (gh_length h) with (gtpu_hdr_len header - 8 + zlen pdu) end.
  rewrite Hraw, wrap_small by (unfold in_range, GTPU_BASE_HEADER_LEN; lia).
  rewrite (proj2 (Z.eqb_eq _ _)) by (unfold GTPU_BASE_HEADER_LEN; lia). cbn [negb].
  destruct (gtpu_dissect_options_spec header pdu (gtpu_hdr_len header + zlen pdu) d7 _ Hok ltac:(lia) Hd0) as (d1' & -> & Hd1).
  cbn [verify_bind checked_bind].
  lazymatch goal with |- context [gtpu_dissect_exts ?h d1'] =>
    destruct (gtpu_dissect_exts_spec h (gh_ext_list header) d1' (byte_bits pdu) (ho_exts _ Hok) (ho_nof_exts _ Hok)) as (d2' & -> & Hd2);
    [rewrite zlen_byte_bits; dlia|done|done|done|done|] end.
  cbn [verify_bind checked_bind].
  assert (bd_nof_bytes (gtpu_hdr_len header + zlen pdu) d2' = gtpu_hdr_len header) as ->.
  { pose proof (decodes_aligned d2' pdu [] ) as Ho. rewrite app_nil_r in Ho. specialize (Ho Hd2 eq_refl).
    destruct (decodes_bytes d2' _ Hd2 Ho) as [Hbb _]. apply (f_equal zlen) in Hbb. rewrite !zlen_byte_bits in Hbb.
    unfold bd_nof_bytes. rewrite Ho. cbn. lia. }
  repeat f_equal. destruct header as [[] ? ? ? ? ? ? ?], Hok. unfold gtpu_base_read, gtpu_header_read, field_update in *. cbn in *. by subst.
Qed.

(** C27. A GTP-U header is read back as it was written. For every header with the
    supported flags and message type, fields in their widths and up to ten extension
    headers of comprehended types whose containers take 4 n - 2 bytes, at most 250, and
    for every message that fits the 16 bits of the length field: the header is written;
    the PDU is longer than the message by exactly the header; its dissection gives the
    flags, type, TEID, sequence number and the whole chain of extensions with their
    containers, with the length field set, whatever it was before; and the message is
    extracted unchanged. *)
Theorem gtpu_header_roundtrip room pdu header :
  gtpu_header_ok header -> Forall is_u8 pdu -> gtpu_hdr_len header <= room ->
  gtpu_hdr_len header - 8 + zlen pdu < 65536 ->
  exists raw d, gtpu_write_header room true pdu header = Ok (Some raw) /\
    zlen raw = gtpu_hdr_len header + zlen pdu /\ Forall is_u8 raw /\
    gtpu_dissect_pdu raw = Ok (Some d) /\ gd_hdr d = gtpu_header_read header pdu /\
    gtpu_extract_msg d = Ok pdu.
Proof.
  intros Hok Hpdu Hr Hl. destruct (gtpu_write_header_spec room pdu header Hok Hr) as (bytes & Hw & Hb & Hbits & Hlen).
  exists (bytes ++ pdu), (mk_gtpu_dissected_pdu (bytes ++ pdu) (gtpu_header_read header pdu) (gtpu_hdr_len header) false).
  split; [done|]. split; [rewrite zlen_app; lia|]. split; [by apply Forall_app|].
  split; [by eapply gtpu_dissect_written|]. split; [done|].
  unfold gtpu_extract_msg. cbn [gd_hdr_len gd_buf]. pose proof (zlen_nonneg pdu).
  rewrite (proj2 (Z.leb_le _ _)) by (rewrite zlen_app; lia). f_equal. rewrite <- Hlen. unfold zlen.
  rewrite Nat2Z.id. apply drop_app_length.
Qed.

(** Writing ends, whatever the fields and the room, when the sizes of the containers pass
    the assertion. *)
Lemma gtpu_write_ext_list_total room exts e :
  0 <= be_offset e < 8 -> Forall (fun ext => u8 (1 + zlen (ext_container ext) + 1) mod 4 = 0) exts ->
  exists r, gtpu_write_ext_list room exts e = Ok r.
Proof.
  revert e. induction exts as [|ext exts IH]; intros e Ho Hx; cbn [gtpu_write_ext_list]; [by eexists|].
  apply Forall_cons in Hx as [Hx Hr]. unfold gtpu_write_ext_header. cbv zeta.
  rewrite (proj2 (Z.eqb_eq _ _) Hx). cbn [checked_bind].
  destruct (be_pack_total room (u8 (1 + zlen (ext_container ext) + 1) / 4) 8 e Ho) as (ok1 & e1 & -> & Ho1 & _); [lia|]. cbn [checked_bind].
  destruct (be_pack_bytes_total room (ext_container ext) e1 Ho1) as (ok2 & e2 & -> & Ho2). cbn [checked_bind].
  lazymatch goal with |- context [be_pack room ?v 8 e2] =>
    destruct (be_pack_total room v 8 e2 Ho2) as (ok3 & e3 & -> & Ho3 & _); [lia|] end. cbn [checked_bind].
  destruct (ok1 && ok2 && ok3); [by apply IH|by eexists].
Qed.

Lemma gtpu_write_header_total room prepend_ok pdu header :
  Forall (fun ext => u8 (1 + zlen (ext_container ext) + 1) mod 4 = 0) (gh_ext_list header) ->
  exists r, gtpu_write_header room prepend_ok pdu header = Ok r.
Proof.
  intros Hx. unfold gtpu_write_header. destruct (negb _); [by eexists|]. destruct (negb _); [by eexists|]. cbv zeta.
  lazymatch goal with |- context [be_pack_and room ?f true bit_encoder_new] =>
    destruct (be_pack_and_total room f true bit_encoder_new) as (ok1 & e1 & -> & Ho1 & _); [cbn; lia|repeat constructor; cbn; lia|] end.
  cbn [checked_bind].
  assert (exists ok2 e2, (if gtpu_optional_fields header then
      be_pack_and room
        [ (gh_seq_number header, 16); (gh_n_pdu header, 8);
          (match gh_ext_list header with [] => no_more_extension_headers | e :: _ => extension_header_type e end, 8) ]
        ok1 e1
    else Ok (ok1, e1)) = Ok (ok2, e2) /\ 0 <= be_offset e2 < 8) as (ok2 & e2 & -> & Ho2).
  { destruct (gtpu_optional_fields header); [|by eexists _, _].
    lazymatch goal with |- context [be_pack_and room ?f ok1 e1] =>
      destruct (be_pack_and_total room f ok1 e1) as (ok2 & e2 & -> & Ho2 & _); [done|repeat constructor; cbn; lia|] end.
    by eexists _, _. }
  cbn [checked_bind]. destruct (negb ok2); [by eexists|].
  destruct (gtpu_write_ext_list_total room (gh_ext_list header) e2 Ho2 Hx) as ([ok3 e3] & ->). cbn [checked_bind].
  destruct (negb ok3), (negb prepend_ok); by eexists.
Qed.

(** ** Dissecting any bytes *)

(** The decoder is somewhere in [raw]. *)
Definition reads (raw : list Z) (d : bit_decoder) : Prop := decoding d /\ exists k, bd_bytes d = drop k raw.
Definition slice_of (raw bytes : list Z) : Prop := exists k, bytes = take (length bytes) (drop k raw).

Lemma slice_u8 raw bytes : Forall is_u8 raw -> slice_of raw bytes -> Forall is_u8 bytes.
Proof. intros Hu [k ->]. by apply Forall_take, Forall_drop. Qed.

Lemma reads_new raw : Forall is_u8 raw -> reads raw (bit_decoder_new raw).
Proof. intros Hu. split; [by apply decoding_new|by exists 0%nat]. Qed.

Lemma reads_unpack raw size n d :
  reads raw d -> 0 <= n <= size -> size <= 64 ->
  exists ok v d', bd_unpack size n d = Ok (ok, v, d') /\ in_range size v /\ reads raw d'.
Proof.
  intros [Hd (k & Hk)] Hn Hs. destruct (bd_unpack_moves size n d Hd Hn Hs) as (ok & v & d' & E & Hv & Hd' & (k' & Hk') & _).
  exists ok, v, d'. split; [done|]. split; [done|]. split; [done|]. exists (k + k')%nat. by rewrite Hk', Hk, drop_drop.
Qed.

Lemma reads_ext_header raw d :
  reads raw d ->
  exists container next d', gtpu_read_ext_header d = Ok (container, next, d') /\ reads raw d' /\ slice_of raw container.
Proof.
  intros Hd. unfold gtpu_read_ext_header, gtpu_unpack_ext_header_type.
  destruct (reads_unpack raw 8 8 d Hd) as (ok & len & d1 & -> & Hl & [Hd1 (k1 & Hk1)]); [lia|lia|]. cbn [checked_bind].
  destruct (bd_unpack_aligned_moves (u16 (len * 4 - 2)) d1 Hd1) as (c & d2 & -> & Hd2 & (k2 & Hk2) & (k3 & Hk3) & _);
    [apply wrap_range; lia|]. cbn [checked_bind].
  destruct (reads_unpack raw 8 8 d2) as (ok3 & next & d3 & -> & _ & Hd3); [|lia|lia|].
  { split; [done|]. exists (k1 + k2)%nat. by rewrite Hk2, Hk1, drop_drop. }
  exists c, next, d3. split; [done|]. split; [done|]. exists (k1 + k3)%nat. by rewrite <- drop_drop, <- Hk1.
Qed.

Definition ext_read_ok (raw : list Z) (ext : gtpu_extension_header) : Prop :=
  gtpu_extension_header_comprehension_check (extension_header_type ext) = true /\ slice_of raw (ext_container ext).

Lemma reads_ext_list raw fuel type acc d :
  reads raw d -> Forall (ext_read_ok raw) acc ->
  zlen acc <= GTPU_MAX_NUM_HEADER_EXTENSIONS -> GTPU_MAX_NUM_HEADER_EXTENSIONS - zlen acc < Z.of_nat fuel ->
  exists r, gtpu_dissect_ext_list fuel type acc d = Ok r /\
    match r with
    | Some (exts, d') => reads raw d' /\ Forall (ext_read_ok raw) exts /\ 0 < zlen exts <= GTPU_MAX_NUM_HEADER_EXTENSIONS
    | None => True
    end.
Proof.
  revert type acc d. induction fuel as [|fuel IH]; intros type acc d Hd Ha Hl Hf; cbn [gtpu_dissect_ext_list]; [lia|].
  destruct (gtpu_extension_header_comprehension_check type) eqn:Ec; cbn [negb]; [|by eexists].
  destruct (reads_ext_header raw d Hd) as (c & next & d1 & -> & Hd1 & Hc). cbn [checked_bind].
  destruct (zlen acc <? GTPU_MAX_NUM_HEADER_EXTENSIONS) eqn:El; zbool; [|by eexists].
  assert (Forall (ext_read_ok raw) (acc ++ [mk_gtpu_extension_header type c])) as Ha'.
  { apply Forall_app. split; [done|]. apply Forall_singleton. by split. }
  assert (zlen (acc ++ [mk_gtpu_extension_header type c]) = zlen acc + 1) as El' by (by rewrite zlen_app, zlen_one).
  pose proof (zlen_nonneg acc). destruct (next =? no_more_extension_headers).
  - eexists. split; [done|]. cbn. split_and!; [done|done|lia|lia].
  - apply IH; [done|done|lia|lia].
Qed.

(** ** The TEID read for the demultiplexer *)

Lemma unpack_part size n b l o :
  0 < n -> o + n < 8 -> n <= size -> exists v, bd_unpack size n (mk_bit_decoder (b :: l) o) = Ok (true, v, mk_bit_decoder (b :: l) (n + o)).
Proof.
  intros Hn Ho Hs. unfold bd_unpack. rewrite (proj2 (Z.leb_le n size)) by lia. cbn [bd_unpack_loop bd_bytes bd_offset].
  rewrite (proj2 (Z.leb_gt n 0)) by lia. rewrite (proj2 (Z.ltb_lt n _)) by lia. by eexists.
Qed.
Lemma unpack_rest size n b l o :
  0 < n -> o + n = 8 -> n <= size -> exists v, bd_unpack size n (mk_bit_decoder (b :: l) o) = Ok (true, v, mk_bit_decoder l 0).
Proof.
  intros Hn Ho Hs. unfold bd_unpack. rewrite (proj2 (Z.leb_le n size)) by lia. cbn [bd_unpack_loop bd_bytes bd_offset].
  rewrite (proj2 (Z.leb_gt n 0)) by lia. rewrite (proj2 (Z.ltb_ge n _)) by lia.
  replace (n - (8 - o)) with 0 by lia. by eexists.
Qed.

(** Big-endian values of four bytes. *)
Definition be32 (b3 b2 b1 b0 : Z) : Z := b3 * 2 ^ 24 + b2 * 2 ^ 16 + b1 * 2 ^ 8 + b0.

Lemma bits_be32 b3 b2 b1 b0 :
  is_u8 b2 -> is_u8 b1 -> is_u8 b0 -> bits_of 32 (be32 b3 b2 b1 b0) = byte_bits [b3; b2; b1; b0].
Proof.
  unfold in_range. intros H2 H1 H0.
  replace (be32 b3 b2 b1 b0) with (b3 * 2 ^ Z.of_nat 24 + (b2 * 2 ^ Z.of_nat 16 + (b1 * 2 ^ Z.of_nat 8 + b0))) by (unfold be32; cbn; lia).
  change 32%nat with (8 + 24)%nat. rewrite bits_of_cat by lia. change 24%nat with (8 + 16)%nat. rewrite bits_of_cat by lia.
  change 16%nat with (8 + 8)%nat. rewrite bits_of_cat by lia. cbn [byte_bits flat_map]. by rewrite app_nil_r.
Qed.

Lemma unpack_be32 b3 b2 b1 b0 l :
  Forall is_u8 (b3 :: b2 :: b1 :: b0 :: l) ->
  exists d', bd_unpack 32 32 (mk_bit_decoder (b3 :: b2 :: b1 :: b0 :: l) 0) = Ok (true, be32 b3 b2 b1 b0, d').
Proof.
  intros Hu. pose proof (decodes_new _ Hu) as Hd. unfold bit_decoder_new in Hd.
  repeat match goal with H : Forall is_u8 (_ :: _) |- _ => apply Forall_cons in H as [? H] end.
  change (byte_bits (b3 :: b2 :: b1 :: b0 :: l)) with (byte_bits [b3; b2; b1; b0] ++ byte_bits l) in Hd.
  rewrite <- bits_be32 in Hd by done. change 32%nat with (Z.to_nat 32) in Hd.
  destruct (bd_unpack_spec 32 (be32 b3 b2 b1 b0) 32 _ _ Hd) as (d' & E & _); [lia|lia| |by exists d'].
  unfold be32, in_range in *. lia.
Qed.

Lemma read_teid_be32 b0 b1 b2 b3 b4 b5 b6 b7 l :
  Forall is_u8 [b4; b5; b6; b7] ->
  gtpu_read_teid (b0 :: b1 :: b2 :: b3 :: b4 :: b5 :: b6 :: b7 :: l) = Some (be32 b4 b5 b6 b7).
Proof.
  intros Hu. repeat match goal with H : Forall is_u8 (_ :: _) |- _ => apply Forall_cons in H as [? H] end. unfold in_range in *.
  unfold gtpu_read_teid. rewrite !zlen_cons. rewrite (proj2 (Z.ltb_ge _ _)) by (unfold GTPU_BASE_HEADER_LEN; pose proof (zlen_nonneg l); lia).
  cbn [take drop zip zip_with foldl]. f_equal. unfold be32. change (3 * 8) with 24. change (2 * 8) with 16. change (1 * 8) with 8. change (0 * 8) with 0.
  rewrite !Z.shiftl_mul_pow2 by lia. rewrite !wrap_small by (unfold in_range; lia). rewrite Z.lor_0_l.
  rewrite (lor_disjoint 24 (b4 * 2 ^ 24)); [|lia|apply Z.mod_mul; lia|lia].
  rewrite (lor_disjoint 16 _ (b6 * 2 ^ 8)); [|lia| |lia].
  2: { replace (b4 * 2 ^ 24 + b5 * 2 ^ 16) with ((b4 * 2 ^ 8 + b5) * 2 ^ 16) by lia. apply Z.mod_mul. lia. }
  rewrite (lor_disjoint 8 _ (b7 * 2 ^ 0)); [lia|lia| |lia].
  replace (b4 * 2 ^ 24 + b5 * 2 ^ 16 + b6 * 2 ^ 8) with ((b4 * 2 ^ 16 + b5 * 2 ^ 8 + b6) * 2 ^ 8) by lia. apply Z.mod_mul. lia.
Qed.

Lemma unpack_16 b1 b0 l :
  exists v, bd_unpack 16 16 (mk_bit_decoder (b1 :: b0 :: l) 0) = Ok (true, v, mk_bit_decoder l 0).
Proof. by eexists. Qed.

Lemma verify_bind_some {A B} (m : checked (option A)) (k : A -> checked (option B)) b :
  verify_bind m k = Ok (Some b) -> exists a, m = Ok (Some a) /\ k a = Ok (Some b).
Proof. destruct m as [[a|]|]; cbn; [by exists a|done|done]. Qed.

Lemma dissect_options_teid pdu_len hdr d hdr' d' :
  gtpu_dissect_options pdu_len hdr d = Ok (Some (hdr', d')) -> gh_teid hdr' = gh_teid hdr.
Proof.
  unfold gtpu_dissect_options. destruct (_ || _); [|by intros [= <- _]]. destruct (_ <? _); [done|].
  destruct (bd_unpack 16 16 d) as [[[? ?] d1]|]; [|done]. cbn [checked_bind].
  destruct (bd_unpack 8 8 d1) as [[[? ?] d2]|]; [|done]. cbn [checked_bind].
  destruct (gtpu_unpack_ext_header_type d2) as [[? d3]|]; [|done]. cbn [checked_bind]. destruct (negb _); [done|].
  by intros [= <- _].
Qed.
Lemma dissect_exts_teid hdr d hdr' d' :
  gtpu_dissect_exts hdr d = Ok (Some (hdr', d')) -> gh_teid hdr' = gh_teid hdr.
Proof.
  unfold gtpu_dissect_exts. destruct (gf_ext_hdr _); [|by intros [= <- _]]. destruct (_ =? _); [done|].
  by intros ([exts d1] & _ & [= <- _])%verify_bind_some.
Qed.

Lemma gtpu_dissect_teid raw d :
  Forall is_u8 raw -> gtpu_dissect_pdu raw = Ok (Some d) -> gtpu_read_teid raw = Some (gh_teid (gd_hdr d)).
Proof.
  intros Hu Hd. assert (8 <= length raw)%nat as Hlen.
  { unfold gtpu_dissect_pdu in Hd. destruct (zlen raw <? GTPU_BASE_HEADER_LEN) eqn:E; [done|].
    unfold GTPU_BASE_HEADER_LEN, zlen in E. zbool. lia. }
  destruct raw as [|b0 [|b1 [|b2 [|b3 [|b4 [|b5 [|b6 [|b7 l]]]]]]]]; try (cbn [length] in Hlen; lia). clear Hlen.
  rewrite read_teid_be32.
  2: { repeat match goal with H : Forall is_u8 (_ :: _) |- _ => apply Forall_cons in H as [? H] end. repeat (apply Forall_cons_2; [assumption|]); apply Forall_nil_2. }
  f_equal. revert Hd. unfold gtpu_dissect_pdu, bit_decoder_new. cbv zeta. destruct (_ <? _); [done|].
  destruct (unpack_part 8 3 b0 (b1 :: b2 :: b3 :: b4 :: b5 :: b6 :: b7 :: l) 0) as (v1 & ->); [lia..|]. cbn [checked_bind].
  do 4 (edestruct unpack_part as (? & ->); [| | |cbn [checked_bind]]; [lia..|]).
  edestruct unpack_rest as (? & ->); [| | |cbn [checked_bind]]; [lia..|].
  destruct (negb _); [done|].
  edestruct (unpack_rest 8 8) as (? & ->); [| | |cbn [checked_bind]]; [lia..|].
  destruct (unpack_16 b2 b3 (b4 :: b5 :: b6 :: b7 :: l)) as (? & ->). cbn [checked_bind].
  destruct (unpack_be32 b4 b5 b6 b7 l) as (d1 & ->).
  { repeat match goal with H : Forall is_u8 (_ :: _) |- _ => apply Forall_cons in H as [? H] end. repeat (apply Forall_cons_2; [assumption|]); assumption. }
  cbn [checked_bind]. destruct (negb _); [done|].
  intros ([hdr1 d2] & E1%dissect_options_teid & ([hdr2 d3] & E2%dissect_exts_teid & [= <-])%verify_bind_some)%verify_bind_some.
  cbn [gd_hdr]. by rewrite E2, E1.
Qed.

Record gtpu_dissected_ok (raw : list Z) (d : gtpu_dissected_pdu) : Prop := {
  do_buf : gd_buf d = raw;
  do_hdr_len : 0 <= gd_hdr_len d <= zlen raw;
  do_flags : gtpu_supported_flags_check (gd_hdr d) = true;
  do_length : gh_length (gd_hdr d) = u16 (zlen raw - 8);
  do_teid : is_u32 (gh_teid (gd_hdr d));
  do_seq : is_u16 (gh_seq_number (gd_hdr d));
  do_exts : Forall (ext_read_ok raw) (gh_ext_list (gd_hdr d));
  do_nof_exts : zlen (gh_ext_list (gd_hdr d)) <= GTPU_MAX_NUM_HEADER_EXTENSIONS;
  do_ext_flag : gf_ext_hdr (gh_flags (gd_hdr d)) = negb (bool_decide (gh_ext_list (gd_hdr d) = []));
}.

Lemma reads_options raw hdr d :
  reads raw d -> is_u16 (gh_seq_number hdr) ->
  exists r, gtpu_dissect_options (zlen raw) hdr d = Ok r /\
    match r with
    | Some (hdr', d') => reads raw d' /\ is_u16 (gh_seq_number hdr') /\ gh_flags hdr' = gh_flags hdr /\
        gh_length hdr' = gh_length hdr /\ gh_teid hdr' = gh_teid hdr /\ gh_ext_list hdr' = gh_ext_list hdr
    | None => True
    end.
Proof.
  intros Hd Hs. unfold gtpu_dissect_options. destruct (_ || _); [|eexists; split; [done|]; by split_and!].
  destruct (zlen raw <? _); [by eexists|]. unfold gtpu_unpack_ext_header_type.
  destruct (reads_unpack raw 16 16 d Hd) as (ok1 & seq & d1 & -> & Hv1 & Hd1); [lia|lia|]. cbn [checked_bind].
  destruct (reads_unpack raw 8 8 d1 Hd1) as (ok2 & npdu & d2 & -> & Hv2 & Hd2); [lia|lia|]. cbn [checked_bind].
  destruct (reads_unpack raw 8 8 d2 Hd2) as (ok3 & ty & d3 & -> & Hv3 & Hd3); [lia|lia|]. cbn [checked_bind].
  destruct (negb _); [by eexists|]. eexists. split; [done|]. by split_and!.
Qed.

Lemma reads_exts raw hdr d :
  reads raw d -> gh_ext_list hdr = [] ->
  exists r, gtpu_dissect_exts hdr d = Ok r /\
    match r with
    | Some (hdr', d') => reads raw d' /\ (exists exts, hdr' = hdr <| gh_ext_list := exts |>) /\
        Forall (ext_read_ok raw) (gh_ext_list hdr') /\ zlen (gh_ext_list hdr') <= GTPU_MAX_NUM_HEADER_EXTENSIONS /\
        gf_ext_hdr (gh_flags hdr) = negb (bool_decide (gh_ext_list hdr' = []))
    | None => True
    end.
Proof.
  intros Hd Hl. unfold gtpu_dissect_exts. rewrite Hl. destruct (gf_ext_hdr (gh_flags hdr)) eqn:Ee.
  - destruct (_ =? _); [by eexists|].
    destruct (reads_ext_list raw gtpu_ext_fuel (gh_next_ext_hdr_type hdr) [] d Hd) as ([[exts d']|] & -> & Hr);
      [apply Forall_nil_2|done|done| |by eexists].
    cbn [verify_bind checked_bind]. eexists. split; [done|]. destruct Hr as (Hd' & Hx & Hn). split; [done|].
    split; [by eexists|]. unfold field_update. cbn [gh_ext_list]. split; [done|]. split; [lia|].
    destruct exts; [by destruct Hn|done].
  - eexists. split; [done|]. split; [done|]. rewrite ?Hl. split; [exists []; destruct hdr; cbn in *; by subst|].
    by split_and!.
Qed.

(** The next read of a decoder in [raw]. *)
Ltac reads_step raw :=
  lazymatch goal with
  | Hd : reads raw ?d |- context [bd_unpack ?s ?n ?d] =>
      let v := fresh "v" in let d' := fresh "d" in let Hv := fresh "Hv" in let Hd' := fresh "Hd" in
      destruct (reads_unpack raw s n d Hd) as (? & v & d' & -> & Hv & Hd'); [lia|lia|];
      cbn [checked_bind]; clear Hd
  end.

Lemma gtpu_dissect_safe_cases raw :
  Forall is_u8 raw ->
  gtpu_dissect_pdu raw = Ok None \/
  exists d, gtpu_dissect_pdu raw = Ok (Some d) /\ gtpu_dissected_ok raw d /\
    gtpu_extract_msg d = Ok (drop (Z.to_nat (gd_hdr_len d)) raw) /\ gd_test_mode d = false.
Proof.
  intros Hu. unfold gtpu_dissect_pdu. cbv zeta. destruct (zlen raw <? GTPU_BASE_HEADER_LEN); [by left|].
  pose proof (reads_new raw Hu) as Hd.
  do 6 reads_step raw.
  destruct (gtpu_supported_flags_check _) eqn:Ef; cbn [negb]; [|by left].
  do 3 reads_step raw.
  match goal with |- context [gtpu_dissect_options _ ?h _] => set (hdr := h) end.
  destruct (gh_length hdr =? u16 (zlen raw - GTPU_BASE_HEADER_LEN)) eqn:El; cbn [negb]; [|by left]. zbool.
  lazymatch goal with Hd : reads raw ?d |- _ =>
    destruct (reads_options raw hdr d Hd) as ([[hdr1 d1']|] & -> & Ho); [done| |by left] end.
  destruct Ho as (Hd1 & Hs1 & Efl & Elen & Etd & Eex). cbn [verify_bind checked_bind].
  destruct (reads_exts raw hdr1 d1' Hd1) as ([[hdr2 d2']|] & -> & He); [by rewrite Eex| |by left].
  destruct He as ([Hd2 (k & Hk)] & (exts & ->) & Hx & Hn & Hflag). cbn [verify_bind checked_bind]. right.
  eexists. split; [done|].
  assert (0 <= bd_nof_bytes (zlen raw) d2' <= zlen raw) as Hb.
  { apply bd_nof_bytes_bound; [done|]. rewrite Hk. unfold zlen. rewrite length_drop. lia. }
  split.
  - unfold field_update in *. split; cbn [gd_buf gd_hdr gd_hdr_len gh_length gh_teid gh_seq_number gh_flags gh_ext_list] in *; try done.
    + unfold gtpu_supported_flags_check in *. cbn [gh_flags]. by rewrite Efl.
    + by rewrite Elen.
    + by rewrite Etd.
  - unfold gtpu_extract_msg. cbn [gd_hdr_len gd_buf]. by rewrite (proj2 (Z.leb_le _ _)) by lia.
Qed.

(** C28. Dissection is safe on any bytes. Whatever the buffer received, [gtpu_dissect_pdu]
    ends (its loop stops within the ten extension headers that the list can hold) and
    never aborts; a PDU it accepts has supported flags, a length field that agrees with
    its bytes modulo 2^16, at most ten extensions, each of a comprehended type and with a
    container that is a range of the bytes received, present exactly when the E flag is
    set; and the header length lies within the buffer, so that [gtpu_extract_msg] never
    fails its assertion and gives the bytes after the header. The TEID that
    [gtpu_read_teid] gives the demultiplexer is the one dissected. *)
Theorem gtpu_dissect_safe raw :
  Forall is_u8 raw ->
  gtpu_dissect_pdu raw = Ok None \/
  exists d, gtpu_dissect_pdu raw = Ok (Some d) /\ gtpu_dissected_ok raw d /\
    gtpu_read_teid raw = Some (gh_teid (gd_hdr d)) /\
    gtpu_extract_msg d = Ok (drop (Z.to_nat (gd_hdr_len d)) raw).
Proof.
  intros Hu. destruct (gtpu_dissect_safe_cases raw Hu) as [?|(d & Hd & Hok & Hx & _)]; [by left|right].
  exists d. split_and!; try done. by apply gtpu_dissect_teid.
Qed.

(** ** Examples *)

Definition gtpu_header_example : gtpu_header :=
  mk_gtpu_header (mk_gtpu_flags 1 1 false true false) GTPU_MSG_DATA_PDU 0 0x01020304 7 0 0
    [mk_gtpu_extension_header pdu_session_container [0x00; 0x09];
     mk_gtpu_extension_header pdcp_pdu_number [0x12; 0x34]].

Lemma gtpu_header_roundtrip_witness :
  exists raw d, gtpu_write_header 64 true [0xaa; 0xbb] gtpu_header_example = Ok (Some raw) /\
    zlen raw = 22 /\ Forall is_u8 raw /\ gtpu_dissect_pdu raw = Ok (Some d) /\
    gd_hdr d = gtpu_header_read gtpu_header_example [0xaa; 0xbb] /\ gtpu_extract_msg d = Ok [0xaa; 0xbb].
Proof.
  apply (gtpu_header_roundtrip 64 [0xaa; 0xbb] gtpu_header_example).
  - split; try reflexivity; try (unfold in_range; vm_compute; split; congruence).
    + repeat constructor; try (vm_compute; congruence).
    + vm_compute. congruence.
  - repeat constructor; unfold in_range; lia.
  - vm_compute. congruence.
  - vm_compute. reflexivity.
Defined.

Lemma gtpu_dissect_safe_witness :
  let raw := [0x30; 255; 0; 2; 0; 0; 0; 1; 0xaa; 0xbb] in
  gtpu_dissect_pdu raw = Ok None \/
  exists d, gtpu_dissect_pdu raw = Ok (Some d) /\ gtpu_dissected_ok raw d /\
    gtpu_read_teid raw = Some (gh_teid (gd_hdr d)) /\
    gtpu_extract_msg d = Ok (drop (Z.to_nat (gd_hdr_len d)) raw).
Proof.
  apply (gtpu_dissect_safe [0x30; 255; 0; 2; 0; 0; 0; 1; 0xaa; 0xbb]). repeat constructor; unfold in_range; lia.
Defined.

(** A truncated extension header is accepted. The reads of [gtpu_read_ext_header] are
    not checked: a G-PDU that ends right after announcing a PDU session container is
    dissected with that container empty; and a container of 254 bytes passes the assertion
    of [gtpu_write_ext_header], because the sum is taken in 8 bits, and is written with the
    length octet 0, with which the PDU does not read back. *)
Theorem gtpu_truncated_extension_accepted :
  (exists d, gtpu_dissect_pdu [0x34; 255; 0; 4; 0; 0; 0; 1; 0; 0; 0; 0x85] = Ok (Some d) /\
     gh_ext_list (gd_hdr d) = [mk_gtpu_extension_header pdu_session_container []] /\ gtpu_extract_msg d = Ok []) /\
  let header := gtpu_header_example <| gh_ext_list := [mk_gtpu_extension_header pdu_session_container (replicate 254 0xff)] |> in
  exists raw, gtpu_write_header 512 true [] header = Ok (Some raw) /\
    match gtpu_dissect_pdu raw with
    | Ok (Some d) => gh_ext_list (gd_hdr d) <> gh_ext_list header
    | _ => True
    end.
Proof.
  split.
  - eexists. split; [vm_compute; reflexivity|]. split; vm_compute; reflexivity.
  - cbv zeta. eexists. split; [vm_compute; reflexivity|]. vm_compute. tauto || discriminate.
Qed.
