(* ===== verification/PsupPacking.v ===== *)
(** * PDU session user plane: packing

    Models [src/lib/psup/psup_packing.cpp] and the message of
    [src/include/srsran/psup/psup_message.h]: the DL PDU SESSION INFORMATION frame that
    the UPF puts in the PDU session container of a GTP-U PDU. *)
From stdpp Require Import base numbers list.
From Stdlib Require Import ZArith Lia.
From S2P Require Import Prelude.
From S2P Require Import BitEncoding.
From S2P Require Import BitBytes.

Set Default Goal Selector "!".
Open Scope Z_scope.
Open Scope ran_scope.

Definition psup_type_dl_pdu_session_information : Z := 0.
Definition qos_flow_id_invalid : Z := 64.

Record psup_dl_pdu_session_information := mk_psup_dl_pdu_session_information {
  psup_rqi : bool;
  psup_qos_flow_id : Z;
  psup_ppi : option Z;
  psup_dl_sending_time_stamp : option Z;
  psup_dl_qfi_sn : option Z;
}.
#[export] Instance psup_dl_eta : RecordEta psup_dl_pdu_session_information := fun r =>
  mk_psup_dl_pdu_session_information (psup_rqi r) (psup_qos_flow_id r) (psup_ppi r)
    (psup_dl_sending_time_stamp r) (psup_dl_qfi_sn r).

Definition psup_dl_default : psup_dl_pdu_session_information :=
  mk_psup_dl_pdu_session_information false qos_flow_id_invalid None None None.

(** The results of the reads are not checked; [None] is a wrong PDU type. *)
Definition psup_unpack (info : psup_dl_pdu_session_information) (container : list Z) :
    checked (option psup_dl_pdu_session_information) :=
  let decoder := bit_decoder_new container in
  let? (_, pdu_type, decoder) := bd_unpack 8 4 decoder in
  if negb (pdu_type =? psup_type_dl_pdu_session_information) then Ok None else
  let? (_, qmp, decoder) := bd_unpack 8 1 decoder in
  let? (_, snp, decoder) := bd_unpack 8 1 decoder in
  let? (_, _, decoder) := bd_unpack 8 2 decoder in
  let? (_, ppp, decoder) := bd_unpack 8 1 decoder in
  let? (_, rqi, decoder) := bd_unpack 8 1 decoder in
  let? (_, qos_flow_id, decoder) := bd_unpack 8 6 decoder in
  let info := info <| psup_rqi := negb (rqi =? 0) |> <| psup_qos_flow_id := qos_flow_id |> in
  let? (info, decoder) :=
    if negb (ppp =? 0) then
      let? (_, ppi, decoder) := bd_unpack 8 3 decoder in
      let? (_, _, decoder) := bd_unpack 8 5 decoder in
      Ok (info <| psup_ppi := Some ppi |>, decoder)
    else Ok (info, decoder) in
  let? (info, decoder) :=
    if negb (qmp =? 0) then
      let? (_, stamp, decoder) := bd_unpack 64 64 decoder in
      Ok (info <| psup_dl_sending_time_stamp := Some stamp |>, decoder)
    else Ok (info, decoder) in
  let? (info, decoder) :=
    if negb (snp =? 0) then
      let? (_, sn, decoder) := bd_unpack 32 24 decoder in
      Ok (info <| psup_dl_qfi_sn := Some sn |>, decoder)
    else Ok (info, decoder) in
  Ok (Some info).

Definition psup_fields (info : psup_dl_pdu_session_information) : list (Z * Z) :=
  [ (psup_type_dl_pdu_session_information, 4); bool_field (has_value (psup_dl_sending_time_stamp info));
    bool_field (has_value (psup_dl_qfi_sn info)); (0, 2); bool_field (has_value (psup_ppi info));
    bool_field (psup_rqi info); (psup_qos_flow_id info, 6) ] ++
  match psup_ppi info with Some ppi => [(ppi, 3); (0, 5)] | None => [] end ++
  opt_field (psup_dl_sending_time_stamp info) 64 ++ opt_field (psup_dl_qfi_sn info) 24.

(** The results of the writes are not checked, but for the padding. *)
Definition psup_pack (room : Z) (out_buf : list Z) (info : psup_dl_pdu_session_information) :
    checked (option (list Z)) :=
  let start_len := zlen out_buf in
  let? (_, encoder) := be_pack_and room (psup_fields info) true (mk_bit_encoder out_buf 0) in
  pad_container 3 room start_len (be_bytes encoder).

(** ** Properties *)

Record psup_ok (info : psup_dl_pdu_session_information) : Prop := {
  po_qfi : 0 <= psup_qos_flow_id info < 64;
  po_ppi : forall x, psup_ppi info = Some x -> 0 <= x < 8;
  po_stamp : forall x, psup_dl_sending_time_stamp info = Some x -> is_u64 x;
  po_sn : forall x, psup_dl_qfi_sn info = Some x -> 0 <= x < 2 ^ 24;
}.

Definition psup_len (info : psup_dl_pdu_session_information) : Z :=
  2 + (if has_value (psup_ppi info) then 1 else 0) + (if has_value (psup_dl_sending_time_stamp info) then 8 else 0) +
  (if has_value (psup_dl_qfi_sn info) then 3 else 0).

Lemma opt_field_ok size v n :
  0 <= n <= size -> (forall x, v = Some x -> 0 <= x < 2 ^ n) -> Forall (field_ok size) (opt_field v n).
Proof.
  intros Hn Hv. destruct v as [x|]; [|apply Forall_nil_2]. apply Forall_singleton. split; [done|]. by apply Hv.
Qed.

Lemma psup_fields_ok info :
  psup_ok info -> Forall (field_ok 64) (psup_fields info) /\ zlen (fields_bits (psup_fields info)) = 8 * psup_len info.
Proof.
  intros [Hq Hp Ht Hs]. split.
  - unfold psup_fields. repeat (apply Forall_cons_2; [first [apply bool_field_ok; lia|split; cbn [fst snd]; unfold psup_type_dl_pdu_session_information; lia]|]).
    apply Forall_app. split; [|apply Forall_app; split; apply opt_field_ok; done || lia].
    destruct (psup_ppi info) as [p|]; [|apply Forall_nil_2]. specialize (Hp p eq_refl).
    repeat (apply Forall_cons_2; [split; cbn [fst snd]; lia|]). apply Forall_nil_2.
  - unfold psup_fields, psup_len. by destruct (psup_ppi info), (psup_dl_sending_time_stamp info), (psup_dl_qfi_sn info).
Qed.

(** The next field of a decoder in the goal, flags included. *)
Ltac flag_field :=
  lazymatch goal with
  | H : decodes ?d (fields_bits (bool_field ?b :: ?l) ++ ?bs) |- context [bd_unpack ?size 1 ?d] =>
      let d' := fresh "d" in let H' := fresh "Hd" in
      destruct (bd_unpack_field size (if b then 1 else 0) 1 l d bs H) as (d' & -> & H');
        [apply (bool_field_ok size b); lia|lia|];
      cbn [checked_bind]; clear H
  | _ => bd_field
  end.

(** The PDU session information is read as it was packed. For every frame with its
    fields in their widths, whichever of the paging policy, the time stamp and the sequence
    number it has, the container is packed, takes 4 n - 2 bytes, as a GTP-U extension must,
    and unpacks to the frame. *)
Theorem psup_roundtrip room info :
  psup_ok info -> psup_len info + 3 <= room ->
  exists container, psup_pack room [] info = Ok (Some container) /\ Forall is_u8 container /\
    (zlen container + 2) mod 4 = 0 /\ zlen container <= psup_len info + 3 /\
    psup_unpack psup_dl_default container = Ok (Some info).
Proof.
  intros Hok Hr. destruct (psup_fields_ok info Hok) as [Hf Hl].
  destruct (be_pack_and_spec room (psup_fields info) true (mk_bit_encoder [] 0) [] encodes_new Hf) as (e & He & Hen).
  { rewrite Hl. change (zlen (@nil bool)) with 0. lia. }
  destruct (container_written room (psup_fields info) e (psup_len info)) as (c & Hc & Hu & Hlen & Hm & bs & Hd); [done|done|lia|].
  exists c. unfold psup_pack. rewrite He. cbn [checked_bind]. split; [done|]. split; [done|]. split; [done|]. split; [lia|].
  destruct Hok as [Hq Hp Ht Hs]. unfold psup_fields in Hd. cbn [app] in Hd. unfold psup_unpack. cbv zeta.
  flag_field. cbn [negb Z.eqb psup_type_dl_pdu_session_information].
  do 6 flag_field. rewrite !bool_flag.
  clear - Hq Hp Ht Hs Hd0. destruct info as [rqi qfi ppi stamp sn]. cbn [psup_rqi psup_qos_flow_id psup_ppi psup_dl_sending_time_stamp psup_dl_qfi_sn] in *.
  unfold in_range in Ht. destruct ppi as [p|]; [specialize (Hp p eq_refl)|]; (destruct stamp as [t|]; [specialize (Ht t eq_refl)|]);
    (destruct sn as [n|]; [specialize (Hs n eq_refl)|]); cbn [has_value opt_field app checked_bind] in *; repeat bd_field; reflexivity.
Qed.

Lemma psup_roundtrip_witness :
  let info := mk_psup_dl_pdu_session_information true 9 (Some 5) None (Some 0x010203) in
  exists container, psup_pack 16 [] info = Ok (Some container) /\ Forall is_u8 container /\
    (zlen container + 2) mod 4 = 0 /\ zlen container <= 9 /\ psup_unpack psup_dl_default container = Ok (Some info).
Proof.
  apply (psup_roundtrip 16 (mk_psup_dl_pdu_session_information true 9 (Some 5) None (Some 0x010203))).
  - split; cbn; try lia; intros x [= <-]; lia.
  - vm_compute. congruence.
Defined.

Ltac unpacks Hun :=
    lazymatch goal with Hd : decoding ?d |- context [bd_unpack ?s ?n ?d] =>
      let d' := fresh "d" in let Hd' := fresh "Hd" in let v := fresh "v" in let Hv := fresh "Hv" in
      destruct (Hun s n d Hd) as (? & v & d' & -> & Hv & Hd'); [lia|lia|]; cbn [checked_bind]; clear Hd end.

(** Unpacking of any bytes ends and never aborts; the QoS flow fits its byte. *)
Lemma psup_unpack_total info container :
  Forall is_u8 container ->
  exists r, psup_unpack info container = Ok r /\
    match r with Some info' => is_u8 (psup_qos_flow_id info') | None => True end.
Proof.
  intros Hu. unfold psup_unpack. cbv zeta. pose proof (decoding_new _ Hu) as Hd.
  assert (forall size n d, decoding d -> 0 <= n <= size -> size <= 64 -> exists ok v d',
    bd_unpack size n d = Ok (ok, v, d') /\ in_range size v /\ decoding d') as Hun.
  { intros size n d H1 H2 H3. destruct (bd_unpack_moves size n d H1 H2 H3) as (ok & v & d' & E & Hv & Hd' & _). by exists ok, v, d'. }
  unpacks Hun. destruct (negb _); [by eexists|]. do 6 unpacks Hun.
  destruct (negb (v3 =? 0)); [do 2 unpacks Hun|cbn [checked_bind]];
    (destruct (negb (v0 =? 0)); [unpacks Hun|cbn [checked_bind]]);
    (destruct (negb (v1 =? 0)); [unpacks Hun|cbn [checked_bind]]); eexists; by split.
Qed.
