(* ===== verification/GtpuNguRx.v ===== *)
(** * GTP-U: receiving tunnel at NG-U

    Models [gtpu_tunnel_ngu_rx_impl] of [src/lib/gtpu/gtpu_tunnel_ngu_rx_impl.h] and the
    reception of [src/lib/gtpu/gtpu_tunnel_base_rx.h]: dissection, the session container,
    the reordering of numbered SDUs under t-Reordering, and delivery, which reports every
    SDU to the EdgeRIC agent. *)
From stdpp Require Import base numbers list.
From Stdlib Require Import ZArith Lia.
From S2P Require Import Prelude.
From S2P Require Import Edgeric.
From S2P Require Import SduWindow.
From S2P Require Import BitEncoding.
From S2P Require Import BitBytes.
From S2P Require Import GtpuPdu.
From S2P Require Import PsupPacking.

Set Default Goal Selector "!".
Open Scope Z_scope.
Open Scope ran_scope.

Definition gtpu_sn_mod : Z := 65536.
Definition gtpu_rx_window_size : Z := 32768.

(** ** Data *)

Record gtpu_rx_state := mk_gtpu_rx_state {
  rx_next : Z;
  rx_deliv : Z;
  rx_reord : Z;
}.
#[export] Instance gtpu_rx_state_eta : RecordEta gtpu_rx_state := fun r =>
  mk_gtpu_rx_state (rx_next r) (rx_deliv r) (rx_reord r).

Record gtpu_rx_sdu_info := mk_gtpu_rx_sdu_info {
  gsi_sdu : list Z;
  gsi_qos_flow_id : Z;
  gsi_sn : option Z;
}.

(** [gtpu_tunnel_ngu_rx_config]: [t_reordering] in milliseconds. *)
Record gtpu_ngu_rx_config := mk_gtpu_ngu_rx_config {
  ngr_t_reordering : Z;
  ngr_ignore_ue_ambr : bool;
  ngr_test_mode : bool;
  ngr_ue_idx : Z;
}.

(** The report to EdgeRIC, and the SDU handed to the lower layer. *)
Inductive gtpu_ngu_rx_output : Type :=
| NguReportGtpDl (ue_idx pdu_len : Z)
| NguNewSdu (sdu : list Z) (qos_flow_id : Z).

Record gtpu_ngu_rx (W : Type -> Type) := mk_gtpu_ngu_rx {
  ngr_st : gtpu_rx_state;
  ngr_window : W gtpu_rx_sdu_info;
  ngr_reordering_timer : bool;
  ngr_stopped : bool;
}.
Arguments mk_gtpu_ngu_rx {W}.
Arguments ngr_st {W}.
Arguments ngr_window {W}.
Arguments ngr_reordering_timer {W}.
Arguments ngr_stopped {W}.
#[export] Instance gtpu_ngu_rx_eta W : RecordEta (gtpu_ngu_rx W) := fun r =>
  mk_gtpu_ngu_rx (ngr_st r) (ngr_window r) (ngr_reordering_timer r) (ngr_stopped r).

(** Distance from the lower edge of the window. *)
Definition gtpu_rx_mod_base (st : gtpu_rx_state) (sn : Z) : Z :=
  u16 (u32 (sn - rx_deliv st) mod gtpu_sn_mod).

Definition gtpu_inside_rx_window (st : gtpu_rx_state) (sn : Z) : bool :=
  gtpu_rx_mod_base st sn <? gtpu_rx_window_size.

Section ngu_rx.
Context {W : Type -> Type} `{SduWindow W}.
Variable cfg : gtpu_ngu_rx_config.
Implicit Types s : gtpu_ngu_rx W.
Implicit Types w : W gtpu_rx_sdu_info.

Definition ngu_rx_init : checked (gtpu_ngu_rx W) :=
  let? window := win_make gtpu_rx_window_size in
  Ok (mk_gtpu_ngu_rx (mk_gtpu_rx_state 0 0 0) window false false).

Definition ngu_rx_stop s : gtpu_ngu_rx W :=
  if ngr_stopped s then s else s <| ngr_reordering_timer := false |> <| ngr_stopped := true |>.

(** ** Delivery *)

Definition ngu_deliver_sdu (info : gtpu_rx_sdu_info) : list gtpu_ngu_rx_output :=
  [NguReportGtpDl (ngr_ue_idx cfg) (zlen (gsi_sdu info)); NguNewSdu (gsi_sdu info) (gsi_qos_flow_id info)].

(** A loop over the numbers from [start] to [stop] takes this many turns at most. *)
Definition ngu_turns (start stop : Z) : nat := Z.to_nat (u16 (stop - start)).

(** Delivery and removal of an SDU of the window. *)
Definition ngu_take (sn : Z) w : checked (W gtpu_rx_sdu_info * list gtpu_ngu_rx_output) :=
  let? info := win_at w sn in
  let? w := remove_sn sn w in
  Ok (w, ngu_deliver_sdu info).

Fixpoint ngu_deliver_consecutive (turns : nat) (next deliv : Z) w :
    checked (Z * W gtpu_rx_sdu_info * list gtpu_ngu_rx_output) :=
  if negb (deliv =? next) && has_sn w deliv then
    match turns with
    | O => Panic
    | S turns =>
        emit? w := ngu_take deliv w in
        ngu_deliver_consecutive turns next (u16 (deliv + 1)) w
    end
  else Ok (deliv, w, []).

Definition ngu_deliver_all_consecutive_sdus s : checked (gtpu_ngu_rx W * list gtpu_ngu_rx_output) :=
  let st := ngr_st s in
  let? (deliv, w, out) :=
    ngu_deliver_consecutive (ngu_turns (rx_deliv st) (rx_next st)) (rx_next st) (rx_deliv st) (ngr_window s) in
  Ok (s <| ngr_st := st <| rx_deliv := deliv |> |> <| ngr_window := w |>, out).

(** The loop of the expiry. *)
Fixpoint ngu_deliver_until (turns : nat) (stop deliv : Z) w :
    checked (Z * W gtpu_rx_sdu_info * list gtpu_ngu_rx_output) :=
  if deliv =? stop then Ok (deliv, w, []) else
  match turns with
  | O => Panic
  | S turns =>
      emit? w := (if has_sn w deliv then ngu_take deliv w else Ok (w, [])) in
      ngu_deliver_until turns stop (u16 (deliv + 1)) w
  end.

(** ** t-Reordering *)

(** The timer was set up unless t-Reordering is zero. *)
Definition ngu_run_reordering_timer s : checked (gtpu_ngu_rx W) :=
  assert? negb (ngr_t_reordering cfg =? 0); Ok (s <| ngr_reordering_timer := true |>).

Definition ngu_handle_t_reordering_expire s : checked (gtpu_ngu_rx W * list gtpu_ngu_rx_output) :=
  let st := ngr_st s in
  if ngr_reordering_timer s then Ok (s, []) else
  if negb (gtpu_inside_rx_window st (rx_reord st)) then Ok (s, []) else
  let? (deliv, w, out) :=
    ngu_deliver_until (ngu_turns (rx_deliv st) (rx_reord st)) (rx_reord st) (rx_deliv st) (ngr_window s) in
  let s := s <| ngr_st := st <| rx_deliv := deliv |> |> <| ngr_window := w |> in
  let? (s, out') := ngu_deliver_all_consecutive_sdus s in
  let st := ngr_st s in
  if gtpu_rx_mod_base st (rx_deliv st) <? gtpu_rx_mod_base st (rx_next st) then
    if ngr_t_reordering cfg =? 0 then Ok (s, out ++ out') else
    let? s := ngu_run_reordering_timer (s <| ngr_st := st <| rx_reord := rx_next st |> |>) in
    Ok (s, out ++ out')
  else Ok (s, out ++ out').

(** ** Reception *)

(** The timer after an SDU was stored. *)
Definition ngu_handle_timer s : checked (gtpu_ngu_rx W * list gtpu_ngu_rx_output) :=
  let st := ngr_st s in
  let s := if ngr_reordering_timer s && negb (gtpu_inside_rx_window st (rx_reord st))
           then s <| ngr_reordering_timer := false |> else s in
  if ngr_t_reordering cfg =? 0 then
    ngu_handle_t_reordering_expire (s <| ngr_st := st <| rx_reord := rx_next st |> |>)
  else if negb (ngr_reordering_timer s) &&
          (gtpu_rx_mod_base st (rx_deliv st) <? gtpu_rx_mod_base st (rx_next st)) then
    let? s := ngu_run_reordering_timer (s <| ngr_st := st <| rx_reord := rx_next st |> |>) in Ok (s, [])
  else Ok (s, []).

(** A numbered SDU. *)
Definition ngu_handle_sn (sn : Z) (sdu : list Z) (qos_flow_id : Z) s :
    checked (gtpu_ngu_rx W * list gtpu_ngu_rx_output) :=
  let st := ngr_st s in
  let info := mk_gtpu_rx_sdu_info sdu qos_flow_id (Some sn) in
  if negb (gtpu_inside_rx_window st sn) then Ok (s, ngu_deliver_sdu info) else
  if gtpu_rx_mod_base st sn <? gtpu_rx_mod_base st (rx_deliv st) then Ok (s, ngu_deliver_sdu info) else
  if has_sn (ngr_window s) sn then Ok (s, []) else
  let? w := add_sn info sn (ngr_window s) in
  let s := s <| ngr_window := w |> in
  let st := if gtpu_rx_mod_base st (rx_next st) <=? gtpu_rx_mod_base st sn
            then st <| rx_next := u16 (sn + 1) |> else st in
  let s := s <| ngr_st := st |> in
  emit? s := (if gtpu_rx_mod_base st sn =? gtpu_rx_mod_base st (rx_deliv st)
              then ngu_deliver_all_consecutive_sdus s else Ok (s, [])) in
  ngu_handle_timer s.

(** The session information: the first session container that unpacks. *)
Fixpoint ngu_session_info (exts : list gtpu_extension_header) (have : bool)
    (info : psup_dl_pdu_session_information) : checked (bool * psup_dl_pdu_session_information) :=
  match exts with
  | [] => Ok (have, info)
  | ext :: exts =>
      if (extension_header_type ext =? pdu_session_container) && negb have then
        let? r := psup_unpack info (ext_container ext) in
        match r with
        | Some info => ngu_session_info exts true info
        | None => ngu_session_info exts false info
        end
      else ngu_session_info exts have info
  end.

Definition ngu_test_qfi : Z := 1.

(** [ambr_ok]: the answer of the token bucket of the UE. *)
Definition ngu_handle_dissected (ambr_ok : bool) (pdu : gtpu_dissected_pdu) s :
    checked (gtpu_ngu_rx W * list gtpu_ngu_rx_output) :=
  if ngr_stopped s then Ok (s, []) else
  if negb (ngr_ignore_ue_ambr cfg) && negb ambr_ok then Ok (s, []) else
  if gd_test_mode pdu then Ok (s, ngu_deliver_sdu (mk_gtpu_rx_sdu_info (gd_buf pdu) ngu_test_qfi None)) else
  let? (have, info) := ngu_session_info (gh_ext_list (gd_hdr pdu)) false psup_dl_default in
  if negb have then Ok (s, []) else
  if negb (gf_seq_number (gh_flags (gd_hdr pdu))) || (ngr_t_reordering cfg =? 0) then
    let? rx_sdu := gtpu_extract_msg pdu in
    Ok (s, ngu_deliver_sdu (mk_gtpu_rx_sdu_info rx_sdu (psup_qos_flow_id info) None))
  else
    let? rx_sdu := gtpu_extract_msg pdu in
    ngu_handle_sn (gh_seq_number (gd_hdr pdu)) rx_sdu (psup_qos_flow_id info) s.

(** [gtpu_tunnel_base_rx::handle_pdu] *)
Definition ngu_handle_pdu (ambr_ok : bool) (buf : list Z) s :
    checked (gtpu_ngu_rx W * list gtpu_ngu_rx_output) :=
  if ngr_test_mode cfg then
    ngu_handle_dissected ambr_ok (mk_gtpu_dissected_pdu buf gtpu_header_default 0 true) s
  else
    let? d := gtpu_dissect_pdu buf in
    match d with
    | None => Ok (s, [])
    | Some pdu => ngu_handle_dissected ambr_ok pdu s
    end.

(** ** Events *)

Inductive gtpu_ngu_rx_op : Type :=
| NguRxPdu (ambr_ok : bool) (buf : list Z)
| NguRxReorderingExpired
| NguRxStop.

Definition ngu_rx_step (op : gtpu_ngu_rx_op) s : checked (gtpu_ngu_rx W * list gtpu_ngu_rx_output) :=
  match op with
  | NguRxPdu ambr_ok buf => ngu_handle_pdu ambr_ok buf s
  | NguRxReorderingExpired =>
      if ngr_reordering_timer s then
        ngu_handle_t_reordering_expire (s <| ngr_reordering_timer := false |>)
      else Ok (s, [])
  | NguRxStop => Ok (ngu_rx_stop s, [])
  end.

Fixpoint ngu_rx_run (ops : list gtpu_ngu_rx_op) s : checked (gtpu_ngu_rx W * list gtpu_ngu_rx_output) :=
  match ops with
  | [] => Ok (s, [])
  | op :: ops => emit? s := ngu_rx_step op s in ngu_rx_run ops s
  end.
End ngu_rx.

(** The calls to EdgeRIC. *)
Definition ngu_report (out : gtpu_ngu_rx_output) (e : er_state) : er_state :=
  match out with
  | NguReportGtpDl ue_idx pdu_len => report_gtp_dl_pkt ue_idx pdu_len e
  | NguNewSdu _ _ => e
  end.
