(* ===== verification/GtpuReorder.v ===== *)
(** * Reordering, abstractly

    What the reordering of [GtpuNguRx] promises, without sequence numbers that wrap, a
    window of slots or a timer that runs: a queue of places from the first SDU waited for,
    whose number never wraps, some of them filled, and the distance to the end of the gap
    being timed. *)
From stdpp Require Import base numbers list sorting.
From Stdlib Require Import ZArith Lia.
From S2P Require Import Prelude.

Set Default Goal Selector "!".
Open Scope Z_scope.
Open Scope ran_scope.

Section reorder.
Context {A : Type}.
Implicit Types (slots : list (option A)) (x : A).

Record reorderer := mk_reorderer {
  ro_base : Z;
  ro_slots : list (option A);
  ro_timer : option Z;
}.

(** The filled places up to the first gap, and the places from it on. *)
Fixpoint ro_release slots : list A * list (option A) :=
  match slots with
  | Some x :: slots => let r := ro_release slots in (x :: r.1, r.2)
  | _ => ([], slots)
  end.

(** The item put at a place, with gaps up to it. *)
Definition ro_put (i : nat) x slots : list (option A) :=
  if decide (i < length slots)%nat then <[i := Some x]> slots
  else slots ++ replicate (i - length slots) None ++ [Some x].

(** A timer that is not running is started at the end of the queue, if it waits for
    anything. *)
Definition ro_rearm (timer : option Z) slots : option Z :=
  match timer with
  | Some t => Some t
  | None => if decide (slots = []) then None else Some (zlen slots)
  end.

(** The timer after [k] places were left: the gap it times is passed, or still ahead. *)
Definition ro_advance (window k : Z) (timer : option Z) : option Z :=
  match timer with
  | Some t => if (0 <=? t - k) && (t - k <? window) then Some (t - k) else None
  | None => None
  end.

(** The item at distance [i] arrives. *)
Definition ro_receive (window i : Z) x (r : reorderer) : reorderer * list A :=
  if window <=? i then (r, [x]) else
  match ro_slots r !! Z.to_nat i with
  | Some (Some _) => (r, [])
  | _ =>
      let (out, slots) := ro_release (ro_put (Z.to_nat i) x (ro_slots r)) in
      (mk_reorderer (ro_base r + zlen out) slots (ro_rearm (ro_advance window (zlen out) (ro_timer r)) slots), out)
  end.

(** The timer expires: the gap is given up. *)
Definition ro_expire (window : Z) (r : reorderer) : reorderer * list A :=
  match ro_timer r with
  | None => (r, [])
  | Some t =>
      if window <=? t then (mk_reorderer (ro_base r) (ro_slots r) None, []) else
      let (out, slots) := ro_release (drop (Z.to_nat t) (ro_slots r)) in
      (mk_reorderer (ro_base r + t + zlen out) slots (ro_rearm None slots), omap id (take (Z.to_nat t) (ro_slots r)) ++ out)
  end.

(** ** Facts *)

Definition ro_held slots : list A := omap id slots.

Lemma ro_release_spec slots :
  slots = (Some <$> (ro_release slots).1) ++ (ro_release slots).2 /\
  forall x, head (ro_release slots).2 <> Some (Some x).
Proof.
  induction slots as [|[y|] slots [IH1 IH2]]; cbn; [done| |done]. split; [by f_equal|done].
Qed.

Lemma ro_held_app l l' : ro_held (l ++ l') = ro_held l ++ ro_held l'.
Proof. apply omap_app. Qed.
Lemma ro_held_some (l : list A) : ro_held (Some <$> l) = l.
Proof. induction l as [|y l IH]; [done|]. cbn. by rewrite <- IH at 2. Qed.

Lemma ro_release_held slots : ro_held slots = (ro_release slots).1 ++ ro_held (ro_release slots).2.
Proof. destruct (ro_release_spec slots) as [E _]. rewrite E at 1. by rewrite ro_held_app, ro_held_some. Qed.

Lemma ro_release_length slots : length slots = (length (ro_release slots).1 + length (ro_release slots).2)%nat.
Proof. destruct (ro_release_spec slots) as [E _]. rewrite E at 1. by rewrite length_app, length_fmap. Qed.

Lemma length_ro_put i x slots : length (ro_put i x slots) = Nat.max (length slots) (S i).
Proof.
  unfold ro_put. case_decide; [rewrite length_insert; lia|]. rewrite !length_app, length_replicate. cbn. lia.
Qed.

Lemma lookup_ro_put i x slots j :
  ro_put i x slots !! j =
    if decide (j = i) then Some (Some x)
    else if decide (j < length slots)%nat then slots !! j
    else if decide (j < i)%nat then Some None else None.
Proof.
  unfold ro_put. case_decide as Hi.
  - case_decide as Hj; [subst; by apply list_lookup_insert_eq|]. rewrite list_lookup_insert_ne by done.
    case_decide; [done|]. rewrite decide_False by lia. apply lookup_ge_None_2. lia.
  - destruct (decide (j < length slots)%nat) as [Hj|Hj].
    { rewrite lookup_app_l by done. by rewrite decide_False by lia. }
    rewrite lookup_app_r by lia. destruct (decide (j < i)%nat) as [Hji|Hji].
    { rewrite lookup_app_l by (rewrite length_replicate; lia). rewrite decide_False by lia.
      apply lookup_replicate_2. lia. }
    rewrite lookup_app_r by (rewrite length_replicate; lia). rewrite length_replicate.
    destruct (decide (j = i)) as [->|]; [by rewrite Nat.sub_diag|].
    apply lookup_ge_None_2. cbn. lia.
Qed.

Lemma ro_release_stuck slots : (forall x, head slots <> Some (Some x)) -> ro_release slots = ([], slots).
Proof. destruct slots as [|[x|] slots]; intros Hh; [done|by destruct (Hh x)|done]. Qed.

Lemma head_ro_put i x slots :
  i <> 0%nat -> (forall y, head slots <> Some (Some y)) -> forall y, head (ro_put i x slots) <> Some (Some y).
Proof.
  intros Hi Hh y. rewrite head_lookup, lookup_ro_put, decide_False by done. specialize (Hh y). rewrite head_lookup in Hh.
  repeat case_decide; done.
Qed.

(** What is held after an item is put at a free place. *)
Lemma ro_put_held i x slots :
  (forall y, slots !! i <> Some (Some y)) -> ro_held (ro_put i x slots) ≡ₚ x :: ro_held slots.
Proof.
  intros Hf. unfold ro_put. case_decide as Hi.
  - rewrite insert_take_drop by done. rewrite <- (take_drop_middle slots i None) at 3.
    + rewrite !ro_held_app. cbn. by rewrite Permutation_middle.
    + destruct (lookup_lt_is_Some_2 slots i Hi) as [[y|] E]; [by destruct (Hf y)|done].
  - rewrite !ro_held_app. cbn. assert (ro_held (replicate (i - length slots) None) = []) as ->.
    { clear. induction (i - length slots)%nat as [|n IH]; [done|]. cbn. apply IH. }
    cbn. by rewrite <- Permutation_cons_append.
Qed.

(** Nothing is lost, and nothing is invented: what arrives is delivered, held, or a
    repetition of an item that is held. *)
Lemma ro_receive_conserves window i x r r' out :
  ro_receive window i x r = (r', out) ->
  (out ++ ro_held (ro_slots r') ≡ₚ x :: ro_held (ro_slots r)) \/
  (r' = r /\ out = [] /\ i < window /\ exists y, ro_slots r !! Z.to_nat i = Some (Some y)).
Proof.
  unfold ro_receive. destruct (window <=? i) eqn:Ew; [intros [= <- <-]; by left|]. zbool.
  destruct (ro_slots r !! Z.to_nat i) as [[y|]|] eqn:E.
  { intros [= <- <-]. right. split_and!; [done|done|done|by exists y]. }
  all: destruct (ro_release _) as [o l] eqn:Er; intros [= <- <-]; left; cbn [ro_slots];
    pose proof (ro_release_held (ro_put (Z.to_nat i) x (ro_slots r))) as Hh; rewrite Er in Hh; cbn [fst snd] in Hh;
    rewrite <- Hh; apply ro_put_held; by intros y; rewrite E.
Qed.

Lemma ro_expire_conserves window r r' out :
  ro_expire window r = (r', out) -> out ++ ro_held (ro_slots r') = ro_held (ro_slots r).
Proof.
  unfold ro_expire. destruct (ro_timer r) as [t|]; [|by intros [= <- <-]].
  destruct (window <=? t); [by intros [= <- <-]|]. destruct (ro_release _) as [o l] eqn:Er. intros [= <- <-]. cbn [ro_slots].
  pose proof (ro_release_held (drop (Z.to_nat t) (ro_slots r))) as Hh. rewrite Er in Hh. cbn [fst snd] in Hh.
  rewrite <- app_assoc, <- Hh. change (omap id (take (Z.to_nat t) (ro_slots r))) with (ro_held (take (Z.to_nat t) (ro_slots r))).
  by rewrite <- ro_held_app, take_drop.
Qed.

(** ** Order

    Every item has a number, and is put at its number. *)
Variable tag : A -> Z.

Definition ro_tagged (r : reorderer) : Prop :=
  forall i x, ro_slots r !! i = Some (Some x) -> tag x = ro_base r + Z.of_nat i.

Lemma ro_release_tagged base slots :
  (forall i x, slots !! i = Some (Some x) -> tag x = base + Z.of_nat i) ->
  let r := ro_release slots in
  tag <$> r.1 = seqZ base (zlen r.1) /\
  (forall i x, r.2 !! i = Some (Some x) -> tag x = base + zlen r.1 + Z.of_nat i).
Proof.
  revert base. induction slots as [|[y|] slots IH]; intros base Ht; cbn; [done| |].
  - destruct (IH (base + 1)) as [IH1 IH2].
    { intros i x Hi. rewrite (Ht (S i) x Hi). lia. }
    rewrite zlen_cons, seqZ_cons by (pose proof (zlen_nonneg (ro_release slots).1); lia).
    split.
    + rewrite (Ht 0%nat y eq_refl), IH1. f_equal; [lia|]. f_equal; lia.
    + intros i x Hi. rewrite (IH2 i x Hi). lia.
  - change (zlen []) with 0. split; [done|]. intros i x Hi. rewrite (Ht i x Hi). lia.
Qed.

Lemma ro_receive_tagged window i x r r' out :
  ro_tagged r -> 0 <= i < window -> tag x = ro_base r + i -> ro_receive window i x r = (r', out) ->
  ro_tagged r' /\ tag <$> out = seqZ (ro_base r) (zlen out) /\ ro_base r' = ro_base r + zlen out.
Proof.
  intros Hr Hi Hx. unfold ro_receive. rewrite (proj2 (Z.leb_gt _ _)) by lia.
  assert (forall j y, ro_put (Z.to_nat i) x (ro_slots r) !! j = Some (Some y) -> tag y = ro_base r + Z.of_nat j) as Hput.
  { intros j y. rewrite lookup_ro_put. repeat case_decide; try done.
    - intros [= <-]. subst j. rewrite Hx. lia.
    - apply Hr. }
  pose proof (ro_release_tagged (ro_base r) _ Hput) as [H1 H2].
  destruct (ro_slots r !! Z.to_nat i) as [[y|]|].
  { intros [= <- <-]. change (zlen []) with 0. by rewrite Z.add_0_r. }
  all: destruct (ro_release _) as [o l] eqn:Er; cbn [fst snd] in *; intros [= <- <-]; by split_and!.
Qed.

(** The numbers delivered rise, and lie before the first place that is left. *)
Definition rises (a b : Z) (l : list Z) : Prop :=
  a <= b /\ StronglySorted Z.lt l /\ Forall (fun n => a <= n < b) l.

Lemma rises_nil a b : a <= b -> rises a b [].
Proof. intros Hab. split_and!; [done|constructor|apply Forall_nil_2]. Qed.

Lemma rises_app a b c l l' : rises a b l -> rises b c l' -> rises a c (l ++ l').
Proof.
  intros (Hab & S1 & F1) (Hbc & S2 & F2). split_and!; [lia| |].
  - induction S1 as [|x l S1 IH F]; [done|]. apply Forall_cons in F1 as [Hx F1]. cbn. constructor; [by apply IH|].
    apply Forall_app. split; [done|]. eapply Forall_impl; [exact F2|]. cbn. lia.
  - apply Forall_app. split; [eapply Forall_impl; [exact F1|]|eapply Forall_impl; [exact F2|]]; cbn; lia.
Qed.

Lemma rises_seqZ a n : 0 <= n -> rises a (a + n) (seqZ a n).
Proof.
  intros Hn. split_and!; [lia|apply StronglySorted_seqZ|]. apply Forall_forall. intros x Hx%elem_of_seqZ. lia.
Qed.

Lemma ro_take_rises base slots :
  (forall i x, slots !! i = Some (Some x) -> tag x = base + Z.of_nat i) ->
  rises base (base + zlen slots) (tag <$> ro_held slots).
Proof.
  revert base. induction slots as [|o slots IH]; intros base Ht; [by apply rises_nil; rewrite Z.add_0_r|].
  assert (rises (base + 1) (base + zlen (o :: slots)) (tag <$> ro_held slots)) as Hr.
  { rewrite zlen_cons. replace (base + (zlen slots + 1)) with (base + 1 + zlen slots) by lia. apply IH.
    intros i x Hi. rewrite (Ht (S i) x Hi). lia. }
  destruct o as [x|].
  - change (tag <$> ro_held (Some x :: slots)) with ([tag x] ++ (tag <$> ro_held slots)). apply (rises_app base (base + 1)); [|done].
    rewrite (Ht 0%nat x eq_refl). rewrite Z.add_0_r. apply (rises_seqZ base 1). lia.
  - destruct Hr as (H1 & H2 & H3). split_and!; [lia|done|]. eapply Forall_impl; [exact H3|]. cbn. lia.
Qed.

Lemma ro_expire_tagged window r r' out :
  ro_tagged r -> (forall t, ro_timer r = Some t -> 0 <= t <= zlen (ro_slots r)) -> ro_expire window r = (r', out) ->
  ro_tagged r' /\ rises (ro_base r) (ro_base r') (tag <$> out).
Proof.
  intros Hr Ht. unfold ro_expire. destruct (ro_timer r) as [t|]; [|intros [= <- <-]; split; [done|by apply rises_nil]].
  specialize (Ht t eq_refl). destruct (window <=? t); [intros [= <- <-]; split; [done|by apply rises_nil]|].
  assert (forall j y, drop (Z.to_nat t) (ro_slots r) !! j = Some (Some y) -> tag y = ro_base r + t + Z.of_nat j) as Hd.
  { intros j y. rewrite lookup_drop. intros Hj%Hr. lia. }
  assert (forall j y, take (Z.to_nat t) (ro_slots r) !! j = Some (Some y) -> tag y = ro_base r + Z.of_nat j) as Htk.
  { intros j y. rewrite lookup_take_Some. intros [Hj _]. by apply Hr. }
  apply ro_take_rises in Htk. apply ro_release_tagged in Hd as [H1 H2].
  destruct (ro_release _) as [o l]; cbn [fst snd] in *. intros [= <- <-]. split; [done|]. cbn [ro_base].
  rewrite fmap_app. apply (rises_app _ (ro_base r + t)).
  - unfold zlen in Htk. rewrite length_take_le in Htk by (unfold zlen in Ht; lia). by rewrite Z2Nat.id in Htk by lia.
  - rewrite H1. apply rises_seqZ, zlen_nonneg.
Qed.
End reorder.
Arguments reorderer : clear implicits.
