(* ===== verification/GtpuNguRxProps.v ===== *)
(** * GTP-U at NG-U: the reordering refines its specification

    The window and the wrapping numbers of [GtpuNguRx] implement the queue of
    [GtpuReorder]: every operation of the tunnel is the operation of the queue. *)
From stdpp Require Import base numbers list.
From Stdlib Require Import ZArith Lia.
From S2P Require Import Prelude.
From S2P Require Import Edgeric.
From S2P Require Import SduWindow.
From S2P Require Import BitEncoding.
From S2P Require Import BitBytes.
From S2P Require Import GtpuPdu.
From S2P Require Import GtpuPduProps.
From S2P Require Import PsupPacking.
From S2P Require Import GtpuNguRx.
From S2P Require Import GtpuReorder.

Set Default Goal Selector "!".
Open Scope Z_scope.
Open Scope ran_scope.

(** ** Numbers around the window *)

Lemma u16_add_inj b i j : 0 <= i < 65536 -> 0 <= j < 65536 -> u16 (b + i) = u16 (b + j) -> i = j.
Proof.
  unfold wrap. change (2 ^ 16) with 65536. intros Hi Hj E.
  pose proof (Z.div_mod (b + i) 65536 ltac:(lia)). pose proof (Z.div_mod (b + j) 65536 ltac:(lia)). rewrite E in *.
  assert ((b + i) / 65536 = (b + j) / 65536) by lia. lia.
Qed.

Lemma ngu_base_spec st sn : gtpu_rx_mod_base st sn = (sn - rx_deliv st) mod 65536.
Proof.
  unfold gtpu_rx_mod_base, wrap, gtpu_sn_mod. change (2 ^ 16) with 65536. change (2 ^ 32) with (65536 * 65536).
  rewrite Z.mod_mod by lia. rewrite Z.rem_mul_r by lia. rewrite Z.mul_comm, Z_mod_plus_full. by rewrite Z.mod_mod by lia.
Qed.

Lemma mod_base_at st base i :
  rx_deliv st = u16 base -> gtpu_rx_mod_base st (u16 (base + i)) = i mod 65536.
Proof.
  intros E. rewrite ngu_base_spec, E. unfold wrap. change (2 ^ 16) with 65536.
  rewrite Zminus_mod_idemp_l, Zminus_mod_idemp_r. f_equal. lia.
Qed.

Lemma mod_base_sn st base sn :
  rx_deliv st = u16 base -> is_u16 sn -> sn = u16 (base + gtpu_rx_mod_base st sn).
Proof.
  intros E Hs. rewrite ngu_base_spec, E. unfold wrap, in_range in *. change (2 ^ 16) with 65536 in *.
  rewrite Z.add_mod_idemp_r by lia. rewrite Z.add_sub_assoc, Zminus_mod_idemp_r.
  replace (base + sn - base) with sn by lia. by rewrite Z.mod_small by lia.
Qed.

Section ngu_rx_props.
Context {W : Type -> Type} `{!SduWindow W} `{!SduWindowLaws W}.
Variable cfg : gtpu_ngu_rx_config.
Context {A : Type} (content : A -> list Z * Z).
Implicit Types s : gtpu_ngu_rx W.
Implicit Types w : W gtpu_rx_sdu_info.
Implicit Types slots : list (option A).

Definition ngu_emit (a : A) : list gtpu_ngu_rx_output :=
  [NguReportGtpDl (ngr_ue_idx cfg) (zlen (content a).1); NguNewSdu (content a).1 (content a).2].

Definition ngu_item (info : gtpu_rx_sdu_info) : list Z * Z := (gsi_sdu info, gsi_qos_flow_id info).

Lemma ngu_deliver_emit info a : ngu_item info = content a -> ngu_deliver_sdu cfg info = ngu_emit a.
Proof. unfold ngu_emit, ngu_deliver_sdu. by intros <-. Qed.

(** The window holds the places from the number [base] on, and nothing else. *)
Record ngu_holds w (base : Z) slots : Prop := {
  nh_wf : win_wf w;
  nh_cap : win_cap w = gtpu_rx_window_size;
  nh_len : zlen slots <= gtpu_rx_window_size;
  nh_at : forall i, 0 <= i < 65536 -> ngu_item <$> win_view w (u16 (base + i)) = content <$> mjoin (slots !! Z.to_nat i);
  nh_sn : forall sn, is_Some (win_view w sn) -> is_u16 sn;
}.

Lemma ngu_holds_first w base slots :
  ngu_holds w base slots -> ngu_item <$> win_view w (u16 base) = content <$> mjoin (head slots).
Proof. intros H. pose proof (nh_at _ _ _ H 0 ltac:(lia)) as E. rewrite Z.add_0_r in E. rewrite E. by destruct slots. Qed.

(** The first place, when it is empty, is left. *)
Lemma ngu_holds_shift w base slots :
  ngu_holds w base slots -> win_view w (u16 base) = None -> ngu_holds w (base + 1) (tail slots).
Proof.
  intros [Hw Hc Hl Ha Hs] Hn. split; [done|done| |intros i Hi|done].
  - destruct slots; [done|]. rewrite zlen_cons in Hl. cbn [tail]. lia.
  - rewrite lookup_tail. replace (base + 1 + i) with (base + (i + 1)) by lia. destruct (decide (i + 1 < 65536)).
    + rewrite Ha by lia. do 2 f_equal. by replace (Z.to_nat (i + 1)) with (S (Z.to_nat i)) by lia.
    + assert (i = 65535) as -> by lia. replace (u16 (base + (65535 + 1))) with (u16 base).
      2: { unfold wrap. change (2 ^ 16) with 65536. rewrite <- (Z_mod_plus_full base 1). f_equal; lia. }
      rewrite Hn. rewrite lookup_ge_None_2; [done|]. unfold zlen, gtpu_rx_window_size in Hl. lia.
Qed.

(** The first place, when it is filled, is delivered. *)
Lemma ngu_take_spec w base a slots :
  ngu_holds w base (Some a :: slots) -> exists w',
    has_sn w (u16 base) = true /\ ngu_take cfg (u16 base) w = Ok (w', ngu_emit a) /\ ngu_holds w' (base + 1) slots.
Proof.
  intros Hh. pose proof (ngu_holds_first _ _ _ Hh) as Hf. cbn in Hf.
  destruct (win_view w (u16 base)) as [info|] eqn:E; [|done]. cbn in Hf. injection Hf as Hf.
  destruct (remove_sn_spec w (u16 base) (nh_wf _ _ _ Hh)) as (w' & Er & Hw' & Hc' & Hv & Ho); [by rewrite E|].
  exists w'. split; [by rewrite has_sn_view, E|]. split.
  - unfold ngu_take. rewrite (win_at_view _ _ _ E). cbn [checked_bind]. rewrite Er. cbn [checked_bind].
    by rewrite (ngu_deliver_emit info a).
  - apply (ngu_holds_shift _ _ (None :: slots)); [|done]. destruct Hh as [_ Hc Hl Ha Hs].
    split; [done|congruence|by rewrite zlen_cons in *|intros i Hi|].
    + destruct (decide (i = 0)) as [->|Hne]; [by rewrite Z.add_0_r, Hv|].
      rewrite Ho; [|intros Ei; apply Hne; rewrite <- (Z.add_0_r base) in Ei at 2; by apply (u16_add_inj base)].
      rewrite Ha by done. by replace (Z.to_nat i) with (S (Z.to_nat (i - 1))) by lia.
    + intros sn [v Hsn]. destruct (decide (sn = u16 base)) as [->|Hne]; [by rewrite Hv in Hsn|].
      rewrite Ho in Hsn by done. apply Hs. by eexists.
Qed.

Lemma u16_succ b : u16 (u16 b + 1) = u16 (b + 1).
Proof. apply wrap_add_l. lia. Qed.

Lemma ngu_holds_gap w base o slots :
  ngu_holds w base (o :: slots) -> (forall a, o <> Some a) -> has_sn w (u16 base) = false /\ ngu_holds w (base + 1) slots.
Proof.
  intros Hh Ho. pose proof (ngu_holds_first _ _ _ Hh) as Hf. cbn in Hf.
  destruct o as [a|]; [by destruct (Ho a)|]. cbn in Hf. destruct (win_view w (u16 base)) eqn:E; [done|].
  split; [by rewrite has_sn_view, E|]. by apply (ngu_holds_shift _ _ (None :: slots)).
Qed.

Lemma ngu_deliver_consecutive_spec turns w base slots :
  ngu_holds w base slots -> turns = length slots -> exists w',
    let r := ro_release slots in
    ngu_deliver_consecutive cfg turns (u16 (base + zlen slots)) (u16 base) w =
      Ok (u16 (base + zlen r.1), w', flat_map ngu_emit r.1) /\ ngu_holds w' (base + zlen r.1) r.2.
Proof.
  revert turns w base. induction slots as [|o slots IH]; intros turns w base Hh ->; cbn zeta.
  - exists w. change (zlen []) with 0. rewrite !Z.add_0_r. cbn [length ngu_deliver_consecutive].
    rewrite Z.eqb_refl. by cbn.
  - cbn [length]. assert (u16 base <> u16 (base + zlen (o :: slots))) as Hne.
    { pose proof (nh_len _ _ _ Hh) as Hl. rewrite zlen_cons in *. pose proof (zlen_nonneg slots). unfold gtpu_rx_window_size in Hl.
      intros E. rewrite <- (Z.add_0_r base) in E at 1. apply u16_add_inj in E; lia. }
    destruct o as [a|]; cbn [ro_release ngu_deliver_consecutive]; rewrite (proj2 (Z.eqb_neq _ _)) by done; cbn [negb andb].
    + destruct (ngu_take_spec w base a slots Hh) as (w1 & -> & Et & Hh1). rewrite Et. unfold emit_bind. cbn [checked_bind].
      destruct (IH (length slots) w1 (base + 1) Hh1 eq_refl) as (w' & E & Hw'). cbn zeta in E.
      exists w'. cbn [fst snd]. rewrite u16_succ. rewrite zlen_cons.
      replace (base + (zlen slots + 1)) with (base + 1 + zlen slots) by lia. rewrite E. cbn [checked_bind].
      rewrite zlen_cons. replace (base + (zlen (ro_release slots).1 + 1)) with (base + 1 + zlen (ro_release slots).1) by lia. done.
    + destruct (ngu_holds_gap w base None slots Hh) as [-> _]; [done|]. cbn [fst snd]. exists w.
      change (zlen []) with 0. by rewrite Z.add_0_r.
Qed.

Lemma ngu_deliver_until_spec t w base slots :
  ngu_holds w base slots -> (t <= length slots)%nat -> exists w',
    ngu_deliver_until cfg t (u16 (base + Z.of_nat t)) (u16 base) w =
      Ok (u16 (base + Z.of_nat t), w', flat_map ngu_emit (ro_held (take t slots))) /\
    ngu_holds w' (base + Z.of_nat t) (drop t slots).
Proof.
  revert w base slots. induction t as [|t IH]; intros w base slots Hh Ht.
  - exists w. cbn [ngu_deliver_until Z.of_nat]. rewrite Z.add_0_r, Z.eqb_refl. by rewrite drop_0.
  - destruct slots as [|o slots]; [cbn in Ht; lia|]. cbn [length] in Ht. pose proof (nh_len _ _ _ Hh) as Hl.
    unfold zlen, gtpu_rx_window_size in Hl. cbn [length] in Hl. cbn [ngu_deliver_until].
    rewrite (proj2 (Z.eqb_neq _ _)).
    2: { intros E. rewrite <- (Z.add_0_r base) in E at 1. apply u16_add_inj in E; lia. }
    replace (base + Z.of_nat (S t)) with (base + 1 + Z.of_nat t) by lia.
    assert (exists w1 out, (if has_sn w (u16 base) then ngu_take cfg (u16 base) w else Ok (w, [])) = Ok (w1, out) /\
      ngu_holds w1 (base + 1) slots /\ out = match o with Some a => ngu_emit a | None => [] end) as (w1 & out & -> & Hh1 & ->).
    { destruct o as [a|].
      - destruct (ngu_take_spec w base a slots Hh) as (w1 & -> & Et & Hh1). by exists w1, (ngu_emit a).
      - destruct (ngu_holds_gap w base None slots Hh) as [-> Hh1]; [done|]. by exists w, []. }
    unfold emit_bind. cbn [checked_bind]. rewrite u16_succ.
    destruct (IH w1 (base + 1) slots Hh1 ltac:(lia)) as (w' & -> & Hw'). cbn [checked_bind]. exists w'.
    cbn [take drop]. split; [|done]. by destruct o.
Qed.

(** ** The simulation relation *)

Record ngu_rel s (r : reorderer A) : Prop := {
  nr_holds : ngu_holds (ngr_window s) (ro_base r) (ro_slots r);
  nr_deliv : rx_deliv (ngr_st s) = u16 (ro_base r);
  nr_next : rx_next (ngr_st s) = u16 (ro_base r + zlen (ro_slots r));
  nr_head : forall a, head (ro_slots r) <> Some (Some a);
  nr_timer : ngr_reordering_timer s = has_value (ro_timer r);
  nr_reord : forall t, ro_timer r = Some t ->
    0 <= t <= zlen (ro_slots r) /\ rx_reord (ngr_st s) = u16 (ro_base r + t);
}.

Lemma ngu_init_rel s : ngu_rx_init = Ok s -> ngu_rel s (mk_reorderer 0 [] None) /\ ngr_stopped s = false.
Proof.
  unfold ngu_rx_init. destruct (win_make_spec (W := W) (T := gtpu_rx_sdu_info) 15) as (w & E & Hw & Hc & _ & Hv); [lia|].
  change (2 ^ 15) with gtpu_rx_window_size in *. rewrite E. intros [= <-]. split; [|done].
  split; cbn; try done. split; [done|done|done|intros i Hi; by rewrite Hv|].
  intros sn [v Hsn]. by rewrite Hv in Hsn.
Qed.

Lemma mod_base_inside st base t :
  rx_deliv st = u16 base -> rx_reord st = u16 (base + t) -> - gtpu_rx_window_size <= t <= gtpu_rx_window_size ->
  gtpu_inside_rx_window st (rx_reord st) = (0 <=? t) && (t <? gtpu_rx_window_size).
Proof.
  intros Hd Hr Ht. unfold gtpu_inside_rx_window. rewrite Hr, (mod_base_at st base) by done.
  unfold gtpu_rx_window_size in *. destruct (0 <=? t) eqn:E; zbool; cbn [andb].
  - by rewrite Z.mod_small by lia.
  - apply Z.ltb_ge. dlia.
Qed.

Lemma mod_base_deliv st : gtpu_rx_mod_base st (rx_deliv st) = 0.
Proof. by rewrite ngu_base_spec, Z.sub_diag. Qed.

Lemma mod_base_next st base (n : Z) :
  rx_deliv st = u16 base -> rx_next st = u16 (base + n) -> 0 <= n < 65536 -> gtpu_rx_mod_base st (rx_next st) = n.
Proof. intros Hd Hn Hl. rewrite Hn, (mod_base_at st base) by done. by apply Z.mod_small. Qed.

(** The timer is started for the gap ahead, if there is one. *)
Lemma ngu_rearm_spec s base slots :
  ngr_t_reordering cfg <> 0 ->
  ngu_holds (ngr_window s) base slots -> rx_deliv (ngr_st s) = u16 base -> rx_next (ngr_st s) = u16 (base + zlen slots) ->
  (forall a, head slots <> Some (Some a)) -> ngr_reordering_timer s = false ->
  exists s', (if gtpu_rx_mod_base (ngr_st s) (rx_deliv (ngr_st s)) <? gtpu_rx_mod_base (ngr_st s) (rx_next (ngr_st s))
     then ngu_run_reordering_timer cfg (s <| ngr_st := ngr_st s <| rx_reord := rx_next (ngr_st s) |> |>)
     else Ok s) = Ok s' /\ ngu_rel s' (mk_reorderer base slots (ro_rearm None slots)) /\ ngr_stopped s' = ngr_stopped s.
Proof.
  intros Ht Hh Hd Hn Hhd Hoff. pose proof (nh_len _ _ _ Hh) as Hl. pose proof (zlen_nonneg slots). unfold gtpu_rx_window_size in Hl.
  rewrite mod_base_deliv, (mod_base_next _ base (zlen slots)) by (done || lia). unfold ngu_run_reordering_timer, ro_rearm.
  rewrite (proj2 (Z.eqb_neq _ _)) by done. cbn [negb]. destruct slots as [|o l].
  - rewrite decide_True by done. exists s. split; [done|]. split; [|done].
    split; cbn [ro_base ro_slots ro_timer]; try done.
  - rewrite decide_False by done. rewrite zlen_cons in *. pose proof (zlen_nonneg l).
    rewrite (proj2 (Z.ltb_lt _ _)) by lia. eexists. split; [done|]. split; [|done].
    unfold field_update. split; cbn [ro_base ro_slots ro_timer ngr_window ngr_st rx_deliv rx_next rx_reord ngr_reordering_timer];
      rewrite ?zlen_cons; try done. intros t [= <-]. rewrite ?zlen_cons. split; [lia|done].
Qed.

(** The timer after the window moved: [t] is where the gap timed lies now. *)
Lemma ngu_handle_timer_spec s base slots timer :
  ngr_t_reordering cfg <> 0 ->
  ngu_holds (ngr_window s) base slots -> rx_deliv (ngr_st s) = u16 base -> rx_next (ngr_st s) = u16 (base + zlen slots) ->
  (forall a, head slots <> Some (Some a)) -> ngr_reordering_timer s = has_value timer ->
  (forall t, timer = Some t -> - gtpu_rx_window_size <= t <= zlen slots /\ rx_reord (ngr_st s) = u16 (base + t)) ->
  exists s', ngu_handle_timer cfg s = Ok (s', []) /\ ngr_stopped s' = ngr_stopped s /\
    ngu_rel s' (mk_reorderer base slots (ro_rearm (ro_advance gtpu_rx_window_size 0 timer) slots)).
Proof.
  intros Ht Hh Hd Hn Hhd Hon Htm. pose proof (nh_len _ _ _ Hh) as Hl. unfold ngu_handle_timer. cbv zeta.
  rewrite (proj2 (Z.eqb_neq (ngr_t_reordering cfg) 0)) by done. rewrite Hon. destruct timer as [t|]; cbn [has_value ro_advance andb].
  - destruct (Htm t eq_refl) as [Hb Hr]. rewrite (mod_base_inside _ base t) by (done || lia). rewrite !Z.sub_0_r.
    destruct ((0 <=? t) && (t <? gtpu_rx_window_size)) eqn:E; cbn [negb].
    + exists s. rewrite Hon. cbn [has_value negb andb]. split; [done|]. split; [done|]. apply andb_true_iff in E as [E1 E2]. zbool.
      split; cbn [ro_base ro_slots ro_timer ro_rearm]; try done. intros t' [= <-]. split; [lia|done].
    + set (s1 := s <| ngr_reordering_timer := false |>). change (ngr_reordering_timer s1) with false. cbn [negb andb].
      destruct (ngu_rearm_spec s1 base slots Ht Hh Hd Hn Hhd eq_refl) as (s' & Es & Hs' & Hst).
      change (ngr_st s1) with (ngr_st s) in Es.
      exists s'. split; [|by split]. revert Es. lazymatch goal with |- context [if ?c then _ else _] => destruct c end; intros Es; [by rewrite Es|]. by injection Es as ->.
  - rewrite Hon. cbn [has_value negb andb].
    destruct (ngu_rearm_spec s base slots Ht Hh Hd Hn Hhd Hon) as (s' & Es & Hs' & Hst).
    exists s'. split; [|by split]. revert Es. lazymatch goal with |- context [if ?c then _ else _] => destruct c end; intros Es; [by rewrite Es|]. by injection Es as ->.
Qed.
(** ** A numbered SDU *)

Lemma ngu_holds_add w base slots (i : nat) a info :
  ngu_holds w base slots -> Z.of_nat i < gtpu_rx_window_size -> mjoin (slots !! i) = None -> ngu_item info = content a ->
  exists w', add_sn info (u16 (base + Z.of_nat i)) w = Ok w' /\ ngu_holds w' base (ro_put i a slots).
Proof.
  intros [Hw Hc Hl Ha Hs] Hi Hf Hinfo. unfold gtpu_rx_window_size in *.
  assert (win_view w (u16 (base + Z.of_nat i)) = None) as Hn.
  { pose proof (Ha (Z.of_nat i) ltac:(lia)) as E. rewrite Nat2Z.id, Hf in E. revert E. by destruct (win_view w (u16 (base + Z.of_nat i))). }
  destruct (add_sn_spec w _ info Hw Hn) as (w' & E & Hw' & Hc' & Hv & Ho). exists w'. split; [done|].
  split; [done|unfold gtpu_rx_window_size; congruence| |intros j Hj|].
  - unfold zlen in *. rewrite length_ro_put. unfold gtpu_rx_window_size. lia.
  - rewrite lookup_ro_put. destruct (decide (Z.to_nat j = i)) as [<-|Hne].
    { rewrite Z2Nat.id in Hv by lia. rewrite Hv. cbn. by f_equal. }
    assert (win_view w (u16 (base + j)) = None -> mjoin (if decide (Z.to_nat j < length slots)%nat then slots !! Z.to_nat j
      else if decide (Z.to_nat j < i)%nat then Some None else None) = @None A) as Hnone.
    { intros Hnj. case_decide; [|by case_decide]. pose proof (Ha j Hj) as Ej. rewrite Hnj in Ej. revert Ej. by destruct (mjoin (slots !! Z.to_nat j)). }
    rewrite Ho by (intros Ej%u16_add_inj; lia). lazymatch goal with |- context [decide (_ mod _ = _ mod _)] => destruct (decide (u16 (base + j) mod win_cap w = u16 (base + Z.of_nat i) mod win_cap w)) as [Em|_] end.
    + rewrite Hnone; [done|]. pose proof (Ha j Hj) as Ej. rewrite (lookup_ge_None_2 slots) in Ej; [revert Ej; by destruct (win_view w (u16 (base + j)))|].
      rewrite Hc in Em. unfold wrap in Em. change (2 ^ 16) with (32768 * 2) in Em. rewrite !Z.rem_mul_r in Em by lia.
      rewrite !(Z.mul_comm 32768), !Z_mod_plus_full, !Z.mod_mod in Em by lia. unfold zlen in Hl.
      assert (j mod 32768 = Z.of_nat i).
      { rewrite <- (Z.mod_small (Z.of_nat i) 32768) by lia.
        replace j with (base + j - base) by lia. replace (Z.of_nat i) with (base + Z.of_nat i - base) by lia.
        rewrite Zminus_mod, Em, <- Zminus_mod. done. }
      dlia.
    + rewrite Ha by done. case_decide; [done|]. rewrite (lookup_ge_None_2 slots) by lia. by case_decide.
  - intros sn [v Hsn]. destruct (decide (sn = u16 (base + Z.of_nat i))) as [->|Hne]; [apply wrap_range; lia|].
    rewrite Ho in Hsn by done. case_decide; [done|]. apply Hs. by eexists.
Qed.

Lemma ngu_turns_spec base n : 0 <= n < 65536 -> ngu_turns (u16 base) (u16 (base + n)) = Z.to_nat n.
Proof.
  intros Hn. unfold ngu_turns, wrap. change (2 ^ 16) with 65536. rewrite Zminus_mod_idemp_l, Zminus_mod_idemp_r.
  replace (base + n - base) with n by lia. by rewrite Z.mod_small.
Qed.

(** Delivery of what is filled from the first place on. *)
Lemma ngu_consecutive_step s base slots :
  ngu_holds (ngr_window s) base slots -> rx_deliv (ngr_st s) = u16 base -> rx_next (ngr_st s) = u16 (base + zlen slots) ->
  let r := ro_release slots in
  exists w', ngu_deliver_all_consecutive_sdus cfg s =
    Ok (s <| ngr_st := ngr_st s <| rx_deliv := u16 (base + zlen r.1) |> |> <| ngr_window := w' |>, flat_map ngu_emit r.1) /\
    ngu_holds w' (base + zlen r.1) r.2.
Proof.
  intros Hh Hd Hn r. pose proof (nh_len _ _ _ Hh) as Hl. unfold gtpu_rx_window_size in Hl. pose proof (zlen_nonneg slots).
  unfold ngu_deliver_all_consecutive_sdus. rewrite Hd, Hn, ngu_turns_spec by lia.
  destruct (ngu_deliver_consecutive_spec (Z.to_nat (zlen slots)) _ base slots Hh) as (w' & E & Hw'); [unfold zlen; lia|].
  exists w'. cbn zeta in E. rewrite E. by split.
Qed.

Lemma ro_release_zlen slots : zlen slots = zlen (ro_release slots).1 + zlen (ro_release slots).2.
Proof. unfold zlen. pose proof (ro_release_length slots). lia. Qed.

Lemma ro_advance_shift window k (timer : option Z) :
  ro_advance window k timer = ro_advance window 0 ((fun t => t - k) <$> timer).
Proof. destruct timer as [t|]; cbn; [|done]. by rewrite Z.sub_0_r. Qed.

Lemma ngu_stored_spec s s1 r a (i : nat) :
  ngr_t_reordering cfg <> 0 -> ngu_rel s r -> Z.of_nat i < gtpu_rx_window_size -> mjoin (ro_slots r !! i) = None ->
  ngu_holds (ngr_window s1) (ro_base r) (ro_put i a (ro_slots r)) ->
  rx_deliv (ngr_st s1) = u16 (ro_base r) -> rx_next (ngr_st s1) = u16 (ro_base r + zlen (ro_put i a (ro_slots r))) ->
  rx_reord (ngr_st s1) = rx_reord (ngr_st s) -> ngr_reordering_timer s1 = ngr_reordering_timer s ->
  exists s', (emit? s := (if Z.of_nat i =? 0 then ngu_deliver_all_consecutive_sdus cfg s1 else Ok (s1, [])) in
              ngu_handle_timer cfg s) =
    Ok (s', flat_map ngu_emit (ro_receive gtpu_rx_window_size (Z.of_nat i) a r).2) /\
    ngu_rel s' (ro_receive gtpu_rx_window_size (Z.of_nat i) a r).1 /\ ngr_stopped s' = ngr_stopped s1.
Proof.
  intros Ht Hr Hi Hf Hh Hd Hn Hro Hrun. set (slots := ro_put i a (ro_slots r)) in *.
  assert (ro_receive gtpu_rx_window_size (Z.of_nat i) a r =
    (mk_reorderer (ro_base r + zlen (ro_release slots).1) (ro_release slots).2
       (ro_rearm (ro_advance gtpu_rx_window_size (zlen (ro_release slots).1) (ro_timer r)) (ro_release slots).2),
     (ro_release slots).1)) as ->.
  { unfold ro_receive. rewrite (proj2 (Z.leb_gt _ _)) by done. rewrite Nat2Z.id. fold slots.
    destruct (ro_slots r !! i) as [[y|]|]; [done|..]; by destruct (ro_release slots). }
  cbn [fst snd]. pose proof (ro_release_zlen slots) as Hz. destruct (ro_release_spec slots) as [_ Hhead].
  pose proof (nh_len _ _ _ Hh) as Hl. pose proof (zlen_nonneg (ro_release slots).1). pose proof (zlen_nonneg (ro_release slots).2).
  assert (zlen (ro_slots r) <= zlen slots) as Hmono by (unfold slots, zlen; rewrite length_ro_put; lia).
  assert (exists w', (if Z.of_nat i =? 0 then ngu_deliver_all_consecutive_sdus cfg s1 else Ok (s1, [])) =
    Ok (s1 <| ngr_st := ngr_st s1 <| rx_deliv := u16 (ro_base r + zlen (ro_release slots).1) |> |> <| ngr_window := w' |>,
        flat_map ngu_emit (ro_release slots).1) /\
    ngu_holds w' (ro_base r + zlen (ro_release slots).1) (ro_release slots).2) as (w' & -> & Hw').
  { destruct (Z.of_nat i =? 0) eqn:E0; zbool; [by apply ngu_consecutive_step|].
    rewrite (ro_release_stuck slots) by (apply head_ro_put; [lia|apply Hr]). cbn [fst snd flat_map].
    change (zlen (@nil A)) with 0. rewrite Z.add_0_r. exists (ngr_window s1). split; [|done]. rewrite <- Hd.
    by destruct s1 as [[]]. }
  unfold emit_bind. cbn [checked_bind]. rewrite ro_advance_shift.
  set (s2 := s1 <| ngr_st := _ |> <| ngr_window := w' |>).
  destruct (ngu_handle_timer_spec s2 (ro_base r + zlen (ro_release slots).1) (ro_release slots).2
    ((fun t => t - zlen (ro_release slots).1) <$> ro_timer r)) as (s' & E & Hst & Hs'); try done.
  - change (rx_next (ngr_st s2)) with (rx_next (ngr_st s1)). rewrite Hn, Hz. f_equal. lia.
  - change (ngr_reordering_timer s2) with (ngr_reordering_timer s1). rewrite Hrun, (nr_timer _ _ Hr). by destruct (ro_timer r).
  - intros t (t0 & Et & ->)%fmap_Some. destruct (nr_reord _ _ Hr t0) as [Hb Hro0]; [done|].
    change (rx_reord (ngr_st s2)) with (rx_reord (ngr_st s1)). rewrite Hro, Hro0. split; [lia|]. f_equal. lia.
  - exists s'. rewrite E. cbn [checked_bind]. rewrite app_nil_r. by split_and!.
Qed.

Lemma ngu_base_range st sn : 0 <= gtpu_rx_mod_base st sn < 65536.
Proof. rewrite ngu_base_spec. apply Z.mod_pos_bound. lia. Qed.

(** A numbered SDU is received at its distance from RX_DELIV. *)
Lemma ngu_handle_sn_spec s r sn sdu qfi a :
  ngr_t_reordering cfg <> 0 -> ngu_rel s r -> is_u16 sn -> content a = (sdu, qfi) ->
  let res := ro_receive gtpu_rx_window_size ((sn - ro_base r) mod 65536) a r in
  exists s', ngu_handle_sn cfg sn sdu qfi s = Ok (s', flat_map ngu_emit res.2) /\
    ngu_rel s' res.1 /\ ngr_stopped s' = ngr_stopped s.
Proof.
  intros Ht Hr Hsn Ha res. pose proof (nr_deliv _ _ Hr) as Hd.
  assert ((sn - ro_base r) mod 65536 = gtpu_rx_mod_base (ngr_st s) sn) as Ei.
  { rewrite ngu_base_spec, Hd. unfold wrap. change (2 ^ 16) with 65536. by rewrite Zminus_mod_idemp_r. }
  pose proof (ngu_base_range (ngr_st s) sn) as Hi. pose proof (mod_base_sn _ _ _ Hd Hsn) as Esn.
  unfold res. rewrite Ei. clear res Ei. unfold ngu_handle_sn. cbv zeta. unfold gtpu_inside_rx_window.
  rewrite mod_base_deliv, (mod_base_next _ (ro_base r) (zlen (ro_slots r))); [|done|apply Hr|].
  2: { pose proof (nh_len _ _ _ (nr_holds _ _ Hr)) as Hl. unfold gtpu_rx_window_size in Hl. pose proof (zlen_nonneg (ro_slots r)). lia. }
  set (i := gtpu_rx_mod_base (ngr_st s) sn) in *.
  assert (forall o, ngu_deliver_sdu cfg (mk_gtpu_rx_sdu_info sdu qfi o) = ngu_emit a) as Hem.
  { intros o. apply ngu_deliver_emit. by rewrite Ha. }
  destruct (i <? gtpu_rx_window_size) eqn:Ew; cbn [negb]; zbool.
  2: { exists s. unfold ro_receive. rewrite (proj2 (Z.leb_le _ _)) by lia. cbn [fst snd flat_map]. by rewrite app_nil_r, Hem. }
  rewrite (proj2 (Z.ltb_ge i 0)) by lia.
  pose proof (nh_at _ _ _ (nr_holds _ _ Hr) i Hi) as Hat. rewrite <- Esn in Hat. rewrite has_sn_view.
  destruct (mjoin (ro_slots r !! Z.to_nat i)) as [y|] eqn:Ej.
  { destruct (win_view (ngr_window s) sn); [|done]. exists s. unfold ro_receive. rewrite (proj2 (Z.leb_gt _ _)) by lia.
    destruct (ro_slots r !! Z.to_nat i) as [[z|]|]; [|done|done]. by split_and!. }
  destruct (win_view (ngr_window s) sn) eqn:Ev; [done|].
  destruct (ngu_holds_add _ _ _ (Z.to_nat i) a (mk_gtpu_rx_sdu_info sdu qfi (Some sn)) (nr_holds _ _ Hr)) as (w' & Ea & Hw'); [lia|done|by rewrite Ha|].
  rewrite Z2Nat.id, <- Esn in Ea by lia. rewrite Ea. cbn [checked_bind].
  set (st1 := if zlen (ro_slots r) <=? i then _ else _).
  set (s1 := s <| ngr_window := w' |> <| ngr_st := st1 |>).
  assert (rx_deliv st1 = rx_deliv (ngr_st s) /\ rx_reord st1 = rx_reord (ngr_st s)) as [Ed1 Er1] by (unfold st1; by destruct (_ <=? _)).
  assert (gtpu_rx_mod_base st1 sn = i) as -> by (by rewrite ngu_base_spec, Ed1, <- ngu_base_spec).
  rewrite mod_base_deliv. destruct (ngu_stored_spec s s1 r a (Z.to_nat i)) as (s' & E & Hs'); try done.
  - lia.
  - change (ngr_st s1) with st1. by rewrite Ed1.
  - change (ngr_st s1) with st1. unfold st1, zlen. rewrite length_ro_put. destruct (_ <=? _) eqn:El; zbool; unfold zlen in El.
    + unfold field_update. cbn [rx_next]. rewrite Esn, u16_succ. f_equal. lia.
    + rewrite (nr_next _ _ Hr). f_equal. unfold zlen. lia.
  - rewrite Z2Nat.id in E by lia. exists s'. rewrite Z2Nat.id in Hs' by lia. by split.
Qed.

(** ** Expiry *)

Lemma ngu_expire_spec s r :
  ngr_t_reordering cfg <> 0 -> ngu_rel s r ->
  let res := ro_expire gtpu_rx_window_size r in
  exists s', (if ngr_reordering_timer s then
      ngu_handle_t_reordering_expire cfg (s <| ngr_reordering_timer := false |>) else Ok (s, [])) =
      Ok (s', flat_map ngu_emit res.2) /\
    ngu_rel s' res.1 /\ ngr_stopped s' = ngr_stopped s.
Proof.
  intros Ht Hr res. unfold res, ro_expire. clear res. rewrite (nr_timer _ _ Hr). destruct (ro_timer r) as [t|] eqn:Et; cbn [has_value]; [|by exists s].
  destruct (nr_reord _ _ Hr t Et) as [Hb Hro]. pose proof (nr_holds _ _ Hr) as Hh. pose proof (nh_len _ _ _ Hh) as Hl.
  set (s1 := s <| ngr_reordering_timer := false |>). unfold ngu_handle_t_reordering_expire. cbv zeta.
  change (ngr_reordering_timer s1) with false. cbv iota. change (ngr_st s1) with (ngr_st s). change (ngr_window s1) with (ngr_window s).
  rewrite (mod_base_inside _ (ro_base r) t) by (try apply Hr; done || lia). rewrite (proj2 (Z.leb_le 0 t)) by lia. cbn [andb].
  destruct (t <? gtpu_rx_window_size) eqn:Ew; cbn [negb]; zbool.
  2: { rewrite (proj2 (Z.leb_le _ _)) by lia. exists s1. split; [done|]. split; [|done].
       destruct Hr. split; cbn [ro_base ro_slots ro_timer fst]; done. }
  rewrite (proj2 (Z.leb_gt _ _)) by lia. rewrite Hro, (nr_deliv _ _ Hr), ngu_turns_spec by (unfold gtpu_rx_window_size in *; lia).
  destruct (ngu_deliver_until_spec (Z.to_nat t) _ (ro_base r) (ro_slots r) Hh) as (w1 & E1 & Hh1); [unfold zlen in Hb; lia|].
  rewrite Z2Nat.id in E1, Hh1 by lia. rewrite E1. cbn [checked_bind].
  set (s2 := s1 <| ngr_st := ngr_st s <| rx_deliv := u16 (ro_base r + t) |> |> <| ngr_window := w1 |>).
  set (slots := drop (Z.to_nat t) (ro_slots r)) in *.
  assert (zlen slots = zlen (ro_slots r) - t) as Hzl by (unfold slots; by apply zlen_drop).
  destruct (ngu_consecutive_step s2 (ro_base r + t) slots) as (w2 & E2 & Hh2); [done|done| |].
  { change (rx_next (ngr_st s2)) with (rx_next (ngr_st s)). rewrite (nr_next _ _ Hr). f_equal. lia. }
  cbv zeta in E2. rewrite E2. cbn [checked_bind]. destruct (ro_release_spec slots) as [_ Hhead]. pose proof (ro_release_zlen slots) as Hz.
  set (s3 := s2 <| ngr_st := _ |> <| ngr_window := w2 |>).
  destruct (ngu_rearm_spec s3 (ro_base r + t + zlen (ro_release slots).1) (ro_release slots).2) as (s' & E3 & Hs' & Hst); try done.
  { change (rx_next (ngr_st s3)) with (rx_next (ngr_st s)). rewrite (nr_next _ _ Hr). f_equal. lia. }
  exists s'. destruct (ro_release slots) as [o l] eqn:Er. cbn [fst snd] in *. rewrite flat_map_app. split; [|by split].
  rewrite (proj2 (Z.eqb_neq (ngr_t_reordering cfg) 0)) by done.
  revert E3. lazymatch goal with |- context [if ?c then _ else _] => destruct c end; intros E3; [by rewrite E3|]. by injection E3 as ->.
Qed.

End ngu_rx_props.
