(* ===== verification/GtpuNguRxRuns.v ===== *)
(** * GTP-U at NG-U: runs of the receiving tunnel

    Every sequence of PDUs and expiries of the tunnel is one of the queue of
    [GtpuReorder], from which conservation, order and the telemetry follow. *)
From stdpp Require Import base numbers gmap list sorting.
From Stdlib Require Import ZArith Lia.
From S2P Require Import Prelude.
From S2P Require Import Edgeric.
From S2P Require Import SduWindow.
From S2P Require Import BitEncoding.
From S2P Require Import BitBytes.
From S2P Require Import GtpuPdu.
From S2P Require Import GtpuPduProps.
From S2P Require Import PsupPacking.
From S2P Require Import GtpuNguRx.
From S2P Require Import GtpuReorder.
From S2P Require Import GtpuNguRxProps.

Set Default Goal Selector "!".
Open Scope Z_scope.
Open Scope ran_scope.

Section ngu_rx_runs.
Context {W : Type -> Type} `{!SduWindow W} `{!SduWindowLaws W}.
Variable cfg : gtpu_ngu_rx_config.
Implicit Types s : gtpu_ngu_rx W.

(** ** What a PDU brings

    [None]: nothing; otherwise its SDU and QoS flow, with the sequence number when it is
    to be reordered. *)
Definition ngu_pdu_event (ambr_ok : bool) (buf : list Z) : option (option Z * (list Z * Z)) :=
  if negb (ngr_ignore_ue_ambr cfg) && negb ambr_ok then None else
  if ngr_test_mode cfg then Some (None, (buf, ngu_test_qfi)) else
  match gtpu_dissect_pdu buf with
  | Ok (Some d) =>
      match ngu_session_info (gh_ext_list (gd_hdr d)) false psup_dl_default with
      | Ok (true, info) =>
          Some (if gf_seq_number (gh_flags (gd_hdr d)) && negb (ngr_t_reordering cfg =? 0)
                then Some (gh_seq_number (gd_hdr d)) else None,
                (drop (Z.to_nat (gd_hdr_len d)) buf, psup_qos_flow_id info))
      | _ => None
      end
  | _ => None
  end.

Lemma ngu_session_info_total raw exts have info :
  Forall is_u8 raw -> Forall (ext_read_ok raw) exts ->
  exists r, ngu_session_info exts have info = Ok r.
Proof.
  intros Hu. revert have info. induction exts as [|e exts IH]; intros have info He; cbn [ngu_session_info]; [by eexists|].
  apply Forall_cons in He as [[_ Hs] He]. destruct (_ && _); [|by apply IH].
  destruct (psup_unpack_total info (ext_container e)) as (r & -> & _); [by eapply slice_u8|]. cbn [checked_bind].
  destruct r; by apply IH.
Qed.

(** The handler does what the event says. *)
Lemma ngu_handle_pdu_event ambr_ok buf s :
  Forall is_u8 buf -> ngr_stopped s = false ->
  match ngu_pdu_event ambr_ok buf with
  | None => ngu_handle_pdu cfg ambr_ok buf s = Ok (s, [])
  | Some (None, (sdu, qfi)) => ngu_handle_pdu cfg ambr_ok buf s =
      Ok (s, ngu_deliver_sdu cfg (mk_gtpu_rx_sdu_info sdu qfi None))
  | Some (Some sn, (sdu, qfi)) =>
      is_u16 sn /\ ngr_t_reordering cfg <> 0 /\
      ngu_handle_pdu cfg ambr_ok buf s = ngu_handle_sn cfg sn sdu qfi s
  end.
Proof.
  intros Hu Hs. unfold ngu_pdu_event, ngu_handle_pdu, ngu_handle_dissected. rewrite Hs.
  destruct (negb (ngr_ignore_ue_ambr cfg) && negb ambr_ok) eqn:Ea.
  { destruct (ngr_test_mode cfg); [done|]. destruct (gtpu_dissect_safe_cases buf Hu) as [-> |(d & -> & _)]; done. }
  destruct (ngr_test_mode cfg); [done|].
  destruct (gtpu_dissect_safe_cases buf Hu) as [-> |(d & -> & Hok & Hx & Htm)]; [done|]. cbn [checked_bind].
  rewrite Htm, Hx. destruct (ngu_session_info_total buf (gh_ext_list (gd_hdr d)) false psup_dl_default Hu) as ([have info] & ->);
    [apply Hok|]. cbn [checked_bind]. destruct have; cbn [negb]; [|done].
  destruct (gf_seq_number _); cbn [negb orb andb]; [|done].
  destruct (ngr_t_reordering cfg =? 0) eqn:E0; cbn [negb]; [done|]. zbool. split; [apply Hok|]. by split.
Qed.

(** ** The specification of a run *)

Section annotated.
Context {A : Type} (content : A -> list Z * Z).
Implicit Types r : reorderer A.

(** An operation, and what stands for its SDU. *)
Definition ngu_op_ok (oa : gtpu_ngu_rx_op * A) : Prop :=
  match oa.1 with
  | NguRxPdu ambr_ok buf =>
      Forall is_u8 buf /\ forall o x, ngu_pdu_event ambr_ok buf = Some (o, x) -> content oa.2 = x
  | _ => True
  end.

(** The tunnel was stopped or not, and its queue. *)
Definition ngu_spec_step (oa : gtpu_ngu_rx_op * A) (st : bool * reorderer A) : (bool * reorderer A) * list A :=
  match oa.1 with
  | NguRxPdu ambr_ok buf =>
      if st.1 then (st, []) else
      match ngu_pdu_event ambr_ok buf with
      | None => (st, [])
      | Some (None, _) => (st, [oa.2])
      | Some (Some sn, _) =>
          let res := ro_receive gtpu_rx_window_size ((sn - ro_base st.2) mod 65536) oa.2 st.2 in
          ((st.1, res.1), res.2)
      end
  | NguRxReorderingExpired => let res := ro_expire gtpu_rx_window_size st.2 in ((st.1, res.1), res.2)
  | NguRxStop => (if st.1 then st else (true, mk_reorderer (ro_base st.2) (ro_slots st.2) None), [])
  end.

Fixpoint ngu_spec_run (ops : list (gtpu_ngu_rx_op * A)) (st : bool * reorderer A) : (bool * reorderer A) * list A :=
  match ops with
  | [] => (st, [])
  | oa :: ops =>
      let res := ngu_spec_step oa st in
      let res' := ngu_spec_run ops res.1 in (res'.1, res.2 ++ res'.2)
  end.

Definition ngu_spec_init : bool * reorderer A := (false, mk_reorderer 0 [] None).

(** The tunnel is in the state of the specification. *)
Definition ngu_sim s (st : bool * reorderer A) : Prop :=
  ngu_rel content s st.2 /\ ngr_stopped s = st.1 /\ (ngr_t_reordering cfg = 0 -> ro_timer st.2 = None).

Lemma ngu_step_sim s st oa :
  ngu_sim s st -> ngu_op_ok oa ->
  exists s', ngu_rx_step cfg oa.1 s = Ok (s', flat_map (ngu_emit cfg content) (ngu_spec_step oa st).2) /\
    ngu_sim s' (ngu_spec_step oa st).1.
Proof.
  destruct st as [stopped r], oa as [op a]. intros (Hr & Hst & Ht) Hok. unfold ngu_op_ok in Hok. unfold ngu_spec_step.
  cbn [fst snd] in *. destruct op as [ambr_ok buf| |]; cbn [ngu_rx_step].
  - destruct Hok as [Hu Hc]. destruct stopped.
    { exists s. split; [|by split_and!]. unfold ngu_handle_pdu, ngu_handle_dissected. rewrite Hst.
      destruct (ngr_test_mode cfg); [done|]. destruct (gtpu_dissect_safe_cases buf Hu) as [-> |(d & -> & _)]; done. }
    pose proof (ngu_handle_pdu_event ambr_ok buf s Hu Hst) as He.
    destruct (ngu_pdu_event ambr_ok buf) as [[[sn|] [sdu qfi]]|] eqn:Ee; [|..|by exists s].
    + destruct He as (Hsn & Hnz & ->). destruct (ngu_handle_sn_spec cfg content s r sn sdu qfi a Hnz Hr Hsn) as (s' & E & Hr' & Es');
        [by eapply Hc|]. exists s'. split; [done|]. split_and!; [done|by rewrite Es', Hst|by intros ?].
    + exists s. rewrite He. cbn [flat_map fst snd]. rewrite app_nil_r. split; [|by split_and!].
      rewrite (ngu_deliver_emit cfg content _ a); [done|]. unfold ngu_item. cbn. symmetry. by eapply Hc.
  - destruct (decide (ngr_t_reordering cfg = 0)) as [Hz|Hnz].
    + rewrite (nr_timer _ _ _ Hr). unfold ro_expire. rewrite (Ht Hz). exists s. split; [done|]. split_and!; done.
    + destruct (ngu_expire_spec cfg content s r Hnz Hr) as (s' & E & Hr' & Es'). exists s'. split; [done|].
      split_and!; [done|by rewrite Es'|done].
  - exists (ngu_rx_stop s). split; [done|]. unfold ngu_rx_stop. rewrite Hst. destruct stopped.
    + by split_and!.
    + split_and!; [|done|done]. destruct Hr. split; cbn [ro_base ro_slots ro_timer snd fst]; done.
Qed.

Lemma ngu_run_sim ops s st :
  ngu_sim s st -> Forall ngu_op_ok ops ->
  exists s', ngu_rx_run cfg ops.*1 s = Ok (s', flat_map (ngu_emit cfg content) (ngu_spec_run ops st).2) /\
    ngu_sim s' (ngu_spec_run ops st).1.
Proof.
  revert s st. induction ops as [|oa ops IH]; intros s st Hs Hok; [by exists s|].
  apply Forall_cons in Hok as [Ho Hok]. destruct (ngu_step_sim s st oa Hs Ho) as (s1 & E1 & Hs1).
  destruct (IH s1 _ Hs1 Hok) as (s2 & E2 & Hs2). exists s2. split; [|done].
  change (oa :: ops).*1 with (oa.1 :: ops.*1). cbn [ngu_rx_run ngu_spec_run]. cbv zeta. rewrite E1. unfold emit_bind. cbn [checked_bind].
  rewrite E2. cbn [checked_bind snd]. by rewrite flat_map_app.
Qed.

Lemma ngu_init_sim s : ngu_rx_init = Ok s -> ngu_sim s ngu_spec_init.
Proof. intros H. destruct (ngu_init_rel content s H). by split_and!. Qed.

(** C3. The receiving tunnel refines the reordering queue. For every sequence of PDUs of
    any bytes, expiries and a stop, from the initial state: the tunnel never aborts; what
    it delivers, and reports to EdgeRIC, is what the queue of the specification delivers,
    in the same order; and its window of 16-bit numbers holds the places of the queue, with
    RX_DELIV at the first and RX_NEXT after the last, and its timer runs exactly when that
    of the queue does, with RX_REORD at the end of the gap timed. *)
Theorem ngu_rx_refines (ops : list (gtpu_ngu_rx_op * A)) s0 :
  ngu_rx_init = Ok s0 -> Forall ngu_op_ok ops ->
  let '((stopped, r), delivered) := ngu_spec_run ops ngu_spec_init in
  exists s, ngu_rx_run cfg ops.*1 s0 = Ok (s, flat_map (ngu_emit cfg content) delivered) /\
    ngu_rel content s r /\ ngr_stopped s = stopped.
Proof.
  intros Hi Hok. destruct (ngu_run_sim ops s0 _ (ngu_init_sim s0 Hi) Hok) as (s & E & Hr & Hst & _).
  destruct (ngu_spec_run ops ngu_spec_init) as [[stopped r] delivered]. exists s. by split_and!.
Qed.
End annotated.
End ngu_rx_runs.
