(* ===== verification/GtpuNguRxSdus.v ===== *)
(** * GTP-U at NG-U: the SDUs delivered

    What the refinement of [GtpuNguRxRuns] gives of the tunnel itself: no SDU is lost but
    for repetitions, SDUs come out in the order of their numbers, EdgeRIC counts exactly
    what is delivered; and the edge of the window at which the reordering stalls. *)
From stdpp Require Import base numbers gmap list sorting.
From Stdlib Require Import ZArith Lia.
From S2P Require Import Prelude.
From S2P Require Import Edgeric.
From S2P Require Import SduWindow.
From S2P Require Import BitEncoding.
From S2P Require Import BitBytes.
From S2P Require Import GtpuPdu.
From S2P Require Import PsupPacking.
From S2P Require Import GtpuNguRx.
From S2P Require Import GtpuReorder.
From S2P Require Import GtpuNguRxProps.
From S2P Require Import GtpuNguRxRuns.

Set Default Goal Selector "!".
Open Scope Z_scope.
Open Scope ran_scope.

(** The SDUs of the outputs, with their QoS flows. *)
Definition ngu_sdus (out : list gtpu_ngu_rx_output) : list (list Z * Z) :=
  omap (fun o => match o with NguNewSdu sdu qfi => Some (sdu, qfi) | _ => None end) out.

Section ngu_rx_sdus.
Context {W : Type -> Type} `{!SduWindow W} `{!SduWindowLaws W}.
Variable cfg : gtpu_ngu_rx_config.
Implicit Types s : gtpu_ngu_rx W.

Lemma ngu_sdus_emit {A} (content : A -> list Z * Z) l :
  ngu_sdus (flat_map (ngu_emit cfg content) l) = content <$> l.
Proof.
  induction l as [|a l IH]; [done|]. cbn [flat_map]. unfold ngu_sdus in *. rewrite omap_app, IH. cbn.
  by destruct (content a).
Qed.

(** The SDUs of the window, in order. *)
Definition ngu_window_sdus s : list (list Z * Z) :=
  let st := ngr_st s in
  omap (fun i => ngu_item <$> win_view (ngr_window s) (u16 (rx_deliv st + i)))
    (seqZ 0 (gtpu_rx_mod_base st (rx_next st))).

Lemma omap_slots {A} (content : A -> list Z * Z) (f : Z -> option (list Z * Z)) (slots : list (option A)) k :
  (forall j, (j < length slots)%nat -> f (k + Z.of_nat j) = content <$> mjoin (slots !! j)) ->
  omap f (seqZ k (zlen slots)) = content <$> ro_held slots.
Proof.
  revert k. induction slots as [|o slots IH]; intros k Hf; [done|].
  rewrite zlen_cons, seqZ_cons by (pose proof (zlen_nonneg slots); lia). replace (Z.pred (zlen slots + 1)) with (zlen slots) by lia.
  pose proof (Hf 0%nat ltac:(cbn; lia)) as H0. rewrite Z.add_0_r in H0. cbn in H0. cbn [omap list_omap].
  rewrite H0. rewrite IH; [by destruct o|]. intros j Hj.
  replace (Z.succ k + Z.of_nat j) with (k + Z.of_nat (S j)) by lia. apply (Hf (S j)). cbn. lia.
Qed.

Lemma ngu_window_sdus_held {A} (content : A -> list Z * Z) s r :
  ngu_rel content s r -> ngu_window_sdus s = content <$> ro_held (ro_slots r).
Proof.
  intros Hr. pose proof (nr_holds _ _ _ Hr) as [_ _ Hl Ha _]. unfold gtpu_rx_window_size in Hl. pose proof (zlen_nonneg (ro_slots r)).
  unfold ngu_window_sdus. rewrite (mod_base_next _ (ro_base r) (zlen (ro_slots r))); [|apply Hr|apply Hr|lia].
  apply omap_slots. intros j Hj. rewrite (nr_deliv _ _ _ Hr), Z.add_0_l. rewrite wrap_add_l by lia.
  rewrite Ha by (unfold zlen in Hl; lia). by rewrite Nat2Z.id.
Qed.

(** ** Conservation *)

(** What the PDUs bring until the tunnel is stopped. *)
Fixpoint ngu_events (ops : list gtpu_ngu_rx_op) : list (option Z * (list Z * Z)) :=
  match ops with
  | [] => []
  | NguRxPdu ambr_ok buf :: ops =>
      match ngu_pdu_event cfg ambr_ok buf with Some e => [e] | None => [] end ++ ngu_events ops
  | NguRxReorderingExpired :: ops => ngu_events ops
  | NguRxStop :: _ => []
  end.

Definition ngu_bytes_ok (op : gtpu_ngu_rx_op) : Prop :=
  match op with NguRxPdu _ buf => Forall is_u8 buf | _ => True end.

(** Every operation with the SDU it brings. *)
Definition ngu_annotate (op : gtpu_ngu_rx_op) : gtpu_ngu_rx_op * (list Z * Z) :=
  (op, match op with
       | NguRxPdu ambr_ok buf => match ngu_pdu_event cfg ambr_ok buf with Some (_, x) => x | None => ([], 0) end
       | _ => ([], 0)
       end).

Lemma ngu_annotate_ok ops : Forall ngu_bytes_ok ops -> Forall (ngu_op_ok cfg id) (ngu_annotate <$> ops).
Proof.
  intros Hok. apply Forall_fmap. eapply Forall_impl; [exact Hok|]. intros [ambr_ok buf| |] Ho; cbn; try done.
  unfold ngu_op_ok. cbn. split; [done|]. intros o x E. by rewrite E.
Qed.
Lemma ngu_annotate_fst ops : (ngu_annotate <$> ops).*1 = ops.
Proof. induction ops as [|op ops IH]; [done|]. cbn. by f_equal. Qed.

Lemma ngu_spec_stopped {A} (ops : list (gtpu_ngu_rx_op * A)) st :
  st.1 = true -> ro_timer st.2 = None -> ngu_spec_run cfg ops st = (st, []).
Proof.
  destruct st as [stopped r]. cbn [fst snd]. intros -> Ht. induction ops as [|[op a] ops IH]; [done|]. cbn [ngu_spec_run]. cbv zeta.
  assert (ngu_spec_step cfg (op, a) (true, r) = ((true, r), [])) as ->.
  { unfold ngu_spec_step. cbn [fst snd]. destruct op; [done| |done]. unfold ro_expire. by rewrite Ht. }
  cbn [fst snd]. by rewrite IH.
Qed.

Lemma ngu_step_conserves op (r : reorderer (list Z * Z)) :
  op <> NguRxStop ->
  let res := ngu_spec_step cfg (ngu_annotate op) (false, r) in
  res.1.1 = false /\
  exists dups, res.2 ++ ro_held (ro_slots res.1.2) ++ dups ≡ₚ ro_held (ro_slots r) ++ (ngu_events [op]).*2 /\
    Forall (fun x => exists sn, (Some sn, x) ∈ ngu_events [op]) dups.
Proof.
  intros Hop. destruct op as [ambr_ok buf| |]; unfold ngu_spec_step; cbn; [| |done].
  - destruct (ngu_pdu_event cfg ambr_ok buf) as [[[sn|] x]|]; cbn.
    + split; [done|]. destruct (ro_receive _ _ x r) as [r' out] eqn:E. cbn.
      destruct (ro_receive_conserves _ _ _ _ _ _ E) as [Hp|(-> & -> & _)].
      * exists []. rewrite app_nil_r, Hp. split; [|apply Forall_nil_2]. by rewrite <- Permutation_cons_append.
      * exists [x]. split; [done|]. apply Forall_singleton. exists sn. by apply list_elem_of_here.
    + split; [done|]. exists []. rewrite app_nil_r. split; [|apply Forall_nil_2]. by rewrite <- Permutation_cons_append.
    + split; [done|]. exists []. split; [done|apply Forall_nil_2].
  - split; [done|]. exists []. rewrite !app_nil_r. split; [|apply Forall_nil_2].
    destruct (ro_expire _ r) as [r' out] eqn:E. cbn. by rewrite (ro_expire_conserves _ _ _ _ E).
Qed.

Lemma ngu_events_cons op ops : op <> NguRxStop -> ngu_events (op :: ops) = ngu_events [op] ++ ngu_events ops.
Proof. intros Hop. destruct op; [|done|done]. cbn [ngu_events]. by rewrite app_nil_r. Qed.

Lemma ngu_spec_conserves ops (r : reorderer (list Z * Z)) :
  let res := ngu_spec_run cfg (ngu_annotate <$> ops) (false, r) in
  exists dups, res.2 ++ ro_held (ro_slots res.1.2) ++ dups ≡ₚ ro_held (ro_slots r) ++ (ngu_events ops).*2 /\
    Forall (fun x => exists sn, (Some sn, x) ∈ ngu_events ops) dups.
Proof.
  revert r. induction ops as [|op ops IH]; intros r; cbv zeta.
  { exists []. cbn. by rewrite !app_nil_r. }
  change (ngu_annotate <$> op :: ops) with (ngu_annotate op :: (ngu_annotate <$> ops)). cbn [ngu_spec_run]. cbv zeta.
  assert (op = NguRxStop \/ op <> NguRxStop) as [->|Hop] by (destruct op; [by right|by right|by left]).
  { cbn [ngu_annotate ngu_spec_step fst snd]. rewrite ngu_spec_stopped by done. exists []. cbn. by rewrite !app_nil_r. }
  destruct (ngu_step_conserves op r Hop) as (Hst & d1 & P1 & F1). rewrite ngu_events_cons by done.
  destruct (ngu_spec_step cfg (ngu_annotate op) (false, r)) as [[stopped r1] out1]. cbn [fst snd] in *. subst stopped.
  destruct (IH r1) as (d2 & P2 & F2). cbv zeta in P2. exists (d1 ++ d2). split.
  - rewrite fmap_app. rewrite (app_assoc (ro_held (ro_slots r))), <- P1.
    transitivity (out1 ++ d1 ++ (ro_held (ro_slots r1) ++ (ngu_events ops).*2)); [rewrite <- P2|]; solve_Permutation.
  - apply Forall_app. split; (eapply Forall_impl; [eassumption|]); intros x [sn Hx]; exists sn; apply elem_of_app; auto.
Qed.

(** No SDU is lost at NG-U. Whatever the PDUs and expiries up to a stop, from the
    initial state: what was delivered, what the window holds and some repetitions are, as
    multisets, exactly the SDUs of the PDUs that passed the AMBR limit and the dissection,
    each with its QoS flow; and a repetition is an SDU that came with a sequence number:
    SDUs without one, in test mode or without t-Reordering are never dropped. *)
Theorem ngu_rx_conserves ops s0 :
  ngu_rx_init = Ok s0 -> Forall ngu_bytes_ok ops ->
  exists s out dups, ngu_rx_run cfg ops s0 = Ok (s, out) /\
    ngu_sdus out ++ ngu_window_sdus s ++ dups ≡ₚ (ngu_events ops).*2 /\
    Forall (fun x => exists sn, (Some sn, x) ∈ ngu_events ops) dups.
Proof.
  intros Hi Hok. destruct (ngu_run_sim cfg id (ngu_annotate <$> ops) s0 _ (ngu_init_sim cfg id s0 Hi)) as (s & E & Hr & _);
    [by apply ngu_annotate_ok|]. rewrite ngu_annotate_fst in E.
  destruct (ngu_spec_conserves ops (mk_reorderer 0 [] None)) as (dups & Hp & Hd). cbv zeta in Hp.
  eexists s, _, dups. split; [exact E|]. split; [|done].
  rewrite ngu_sdus_emit, (ngu_window_sdus_held id _ _ Hr), !list_fmap_id. exact Hp.
Qed.

(** ** Order *)

Section order.
Context {A : Type} (content : A -> list Z * Z) (tag : A -> Z).
Implicit Types r : reorderer A.

(** The peer numbers its SDUs: each comes with the low bits of its number, which lies in
    the window of the tunnel when it arrives. *)
Fixpoint ngu_in_window (ops : list (gtpu_ngu_rx_op * A)) (st : bool * reorderer A) : Prop :=
  match ops with
  | [] => True
  | oa :: ops =>
      match oa.1 with
      | NguRxPdu ambr_ok buf =>
          match ngu_pdu_event cfg ambr_ok buf with
          | Some (Some sn, _) => sn = u16 (tag oa.2) /\ ro_base st.2 <= tag oa.2 < ro_base st.2 + gtpu_rx_window_size
          | Some (None, _) => False
          | None => True
          end
      | _ => True
      end /\ ngu_in_window ops (ngu_spec_step cfg oa st).1
  end.

Lemma ngu_step_tagged s st oa :
  ngu_sim cfg content s st -> ro_tagged tag st.2 -> ngu_in_window [oa] st ->
  let res := ngu_spec_step cfg oa st in
  ro_tagged tag res.1.2 /\ rises (ro_base st.2) (ro_base res.1.2) (tag <$> res.2).
Proof.
  destruct st as [stopped r], oa as [op a]. intros (Hr & _ & _) Ht [Hin _]. unfold ngu_spec_step. cbn [fst snd] in *.
  assert (rises (ro_base r) (ro_base r) (tag <$> @nil A)) as Hnil by (by apply rises_nil).
  destruct op as [ambr_ok buf| |]; cbn [fst snd].
  - destruct stopped; [by split|]. destruct (ngu_pdu_event cfg ambr_ok buf) as [[[sn|] x]|]; [|done|by split].
    destruct Hin as [-> Hin]. cbn [fst snd].
    assert ((u16 (tag a) - ro_base r) mod 65536 = tag a - ro_base r) as ->.
    { unfold wrap. change (2 ^ 16) with 65536. rewrite Zminus_mod_idemp_l. unfold gtpu_rx_window_size in Hin. by rewrite Z.mod_small by lia. }
    destruct (ro_receive _ _ a r) as [r' out] eqn:E.
    destruct (ro_receive_tagged tag gtpu_rx_window_size (tag a - ro_base r) a r r' out Ht ltac:(lia) ltac:(lia) E) as (Ht' & Ho & Hb).
    cbn [fst snd]. split; [done|]. rewrite Ho, Hb. apply rises_seqZ, zlen_nonneg.
  - destruct (ro_expire _ r) as [r' out] eqn:E. apply (ro_expire_tagged tag _ _ _ _ Ht) in E; [done|].
    intros t Et. by destruct (nr_reord _ _ _ Hr t Et).
  - destruct stopped; by split.
Qed.

Lemma ngu_run_tagged ops s st :
  ngu_sim cfg content s st -> Forall (ngu_op_ok cfg content) ops -> ro_tagged tag st.2 -> ngu_in_window ops st ->
  let res := ngu_spec_run cfg ops st in
  ro_tagged tag res.1.2 /\ rises (ro_base st.2) (ro_base res.1.2) (tag <$> res.2).
Proof.
  revert s st. induction ops as [|oa ops IH]; intros s st Hs Hok Ht Hin; cbv zeta; [split; [done|by apply rises_nil]|].
  apply Forall_cons in Hok as [Ho Hok]. destruct Hin as [Hin Hins]. cbn [ngu_spec_run]. cbv zeta. cbn [fst snd].
  destruct (ngu_step_sim cfg content s st oa Hs Ho) as (s1 & _ & Hs1).
  destruct (ngu_step_tagged s st oa Hs Ht ltac:(by split)) as [Ht1 Hr1].
  destruct (IH s1 _ Hs1 Hok Ht1 Hins) as [Ht2 Hr2]. split; [done|]. rewrite fmap_app. by apply (rises_app _ (ro_base (ngu_spec_step cfg oa st).1.2)).
Qed.

(** C22. SDUs leave NG-U in the order of their numbers. When the peer numbers its SDUs and
    each arrives within the window of 32768, in any order, repeated or lost, with expiries
    in between: the SDUs delivered have strictly rising numbers, so that none is delivered
    twice; those held are the later ones, within the window; and RX_DELIV is, modulo
    65536, the number between them. *)
Theorem ngu_rx_in_order (ops : list (gtpu_ngu_rx_op * A)) s0 :
  ngu_rx_init = Ok s0 -> Forall (ngu_op_ok cfg content) ops -> ngu_in_window ops ngu_spec_init ->
  exists s out items held base, ngu_rx_run cfg ops.*1 s0 = Ok (s, out) /\
    ngu_sdus out = content <$> items /\ rises 0 base (tag <$> items) /\
    ngu_window_sdus s = content <$> held /\ rises base (base + gtpu_rx_window_size) (tag <$> held) /\
    rx_deliv (ngr_st s) = u16 base.
Proof.
  intros Hi Hok Hin. pose proof (ngu_init_sim cfg content s0 Hi) as Hs0.
  destruct (ngu_run_sim cfg content ops s0 _ Hs0 Hok) as (s & E & Hr & _).
  destruct (ngu_run_tagged ops s0 _ Hs0 Hok ltac:(by intros i x) Hin) as [Ht Hrise].
  destruct (ngu_spec_run cfg ops ngu_spec_init) as [[stopped r] items]. cbn [fst snd] in *.
  exists s, (flat_map (ngu_emit cfg content) items), items, (ro_held (ro_slots r)), (ro_base r). split; [exact E|]. split; [apply ngu_sdus_emit|]. split; [done|].
  split; [by apply ngu_window_sdus_held|]. split; [|apply Hr].
  destruct (ro_take_rises tag (ro_base r) (ro_slots r) Ht) as (H1 & H2 & H3). pose proof (nh_len _ _ _ _ (nr_holds _ _ _ Hr)) as Hl.
  unfold gtpu_rx_window_size in *. split_and!; [lia|done|]. eapply Forall_impl; [exact H3|]. cbn. lia.
Qed.
End order.

(** ** Telemetry *)

Definition ngu_sdu_bytes (sdus : list (list Z * Z)) : Z := foldr (fun x n => zlen x.1 + n) 0 sdus.

(** The calls to EdgeRIC, in their order. *)
Definition ngu_reports (out : list gtpu_ngu_rx_output) (e : er_state) : er_state :=
  foldl (fun e o => ngu_report o e) e out.

Definition ngu_ue_metrics (e : er_state) (idx : Z) : gtp_ue_metrics := default gtp_ue_metrics_default (gtp_ue e !! idx).

(** [n] packets of [bytes] bytes are counted for the UE, and nothing else changes. *)
Definition ngu_counted (n bytes : Z) (e e' : er_state) : Prop :=
  let m := ngu_ue_metrics e (ngr_ue_idx cfg) in let m' := ngu_ue_metrics e' (ngr_ue_idx cfg) in
  u64 (gu_dl_pkts m') = u64 (gu_dl_pkts m + n) /\ u64 (gu_dl_bytes m') = u64 (gu_dl_bytes m + bytes) /\
  gu_ul_pkts m' = gu_ul_pkts m /\ gu_ul_bytes m' = gu_ul_bytes m /\
  (forall idx, idx <> ngr_ue_idx cfg -> gtp_ue e' !! idx = gtp_ue e !! idx) /\
  e' <| gtp_ue := gtp_ue e |> = e.

Lemma ngu_counted_refl e : ngu_counted 0 0 e e.
Proof. unfold ngu_counted. rewrite !Z.add_0_r. split_and!; try done. by destruct e. Qed.

Lemma ngu_counted_report len e : ngu_counted 1 len e (report_gtp_dl_pkt (ngr_ue_idx cfg) len e).
Proof.
  unfold ngu_counted, ngu_ue_metrics, report_gtp_dl_pkt, field_update. cbn [gtp_ue]. rewrite lookup_map_at. cbn [default].
  set (m := default gtp_ue_metrics_default (gtp_ue e !! ngr_ue_idx cfg)). cbn [gu_dl_pkts gu_dl_bytes gu_ul_pkts gu_ul_bytes].
  split_and!; try done.
  - unfold id, wrap. cbn [gu_dl_pkts]. by rewrite Z.mod_mod by lia.
  - unfold id, wrap. cbn [gu_dl_bytes]. by rewrite Z.mod_mod by lia.
  - intros idx Hne. by rewrite lookup_map_at_ne.
  - by destruct e.
Qed.

Lemma ngu_counted_trans n1 b1 n2 b2 e1 e2 e3 :
  ngu_counted n1 b1 e1 e2 -> ngu_counted n2 b2 e2 e3 -> ngu_counted (n1 + n2) (b1 + b2) e1 e3.
Proof.
  intros (P1 & B1 & U1 & V1 & O1 & R1) (P2 & B2 & U2 & V2 & O2 & R2). unfold ngu_counted. split_and!; try congruence.
  - rewrite P2, <- (wrap_add_l 64) by lia. rewrite P1, wrap_add_l by lia. f_equal. lia.
  - rewrite B2, <- (wrap_add_l 64) by lia. rewrite B1, wrap_add_l by lia. f_equal. lia.
  - intros idx Hne. by rewrite O2, O1.
  - etransitivity; [|exact R1]. rewrite <- R2. by destruct e3.
Qed.

Lemma ngu_counted_emit {A} (content : A -> list Z * Z) l e :
  ngu_counted (zlen l) (ngu_sdu_bytes (content <$> l)) e (ngu_reports (flat_map (ngu_emit cfg content) l) e).
Proof.
  revert e. induction l as [|a l IH]; intros e; [apply ngu_counted_refl|]. rewrite zlen_cons, Z.add_comm.
  cbn [fmap list_fmap ngu_sdu_bytes foldr flat_map]. unfold ngu_reports. rewrite foldl_app. cbn [ngu_emit foldl ngu_report].
  eapply ngu_counted_trans; [apply ngu_counted_report|]. apply IH.
Qed.

(** C29. EdgeRIC counts what NG-U delivers. After any run of the receiving tunnel, the
    downlink packets and bytes that the EdgeRIC agent holds for the UE have grown, modulo
    2^64, by the number of the SDUs handed over and by their bytes: SDUs held, dropped or
    refused are not counted. The uplink counters, the other UEs and the rest of the agent
    are unchanged. *)
Theorem ngu_telemetry ops s0 e :
  ngu_rx_init = Ok s0 -> Forall ngu_bytes_ok ops ->
  exists s out, ngu_rx_run cfg ops s0 = Ok (s, out) /\
    ngu_counted (zlen (ngu_sdus out)) (ngu_sdu_bytes (ngu_sdus out)) e (ngu_reports out e).
Proof.
  intros Hi Hok. destruct (ngu_run_sim cfg id (ngu_annotate <$> ops) s0 _ (ngu_init_sim cfg id s0 Hi)) as (s & E & _);
    [by apply ngu_annotate_ok|]. rewrite ngu_annotate_fst in E. exists s. eexists. split; [exact E|].
  rewrite ngu_sdus_emit. pose proof (ngu_counted_emit id (ngu_spec_run cfg (ngu_annotate <$> ops) ngu_spec_init).2 e) as Hc.
  unfold zlen at 1. rewrite length_fmap. exact Hc.
Qed.
End ngu_rx_sdus.
