(* ===== verification/GtpuNguExamples.v ===== *)
(** * GTP-U at NG-U: examples

    The theorems on the receiving tunnel at concrete runs, and the edge of its window. *)
From stdpp Require Import base numbers gmap list sorting.
From Stdlib Require Import ZArith Lia.
From S2P Require Import Prelude.
From S2P Require Import Edgeric.
From S2P Require Import SduWindow.
From S2P Require Import BitEncoding.
From S2P Require Import BitBytes.
From S2P Require Import GtpuPdu.
From S2P Require Import PsupPacking.
From S2P Require Import GtpuNguRx.
From S2P Require Import GtpuReorder.
From S2P Require Import GtpuNguRxProps.
From S2P Require Import GtpuNguRxRuns.
From S2P Require Import GtpuNguRxSdus.

Set Default Goal Selector "!".
Open Scope Z_scope.
Open Scope ran_scope.

Definition ngu_example_cfg : gtpu_ngu_rx_config := mk_gtpu_ngu_rx_config 100 false false 3.
Definition ngu_example_init : gtpu_ngu_rx circular_map :=
  mk_gtpu_ngu_rx (mk_gtpu_rx_state 0 0 0) (mk_circular_map gtpu_rx_window_size ∅ 0) false false.

(** A numbered G-PDU with a session container for QoS flow 9 and an SDU of one byte. *)
Definition ngu_example_pdu (sn payload : Z) : list Z :=
  [0x36; 255; 0; 9; 0; 0; 0; 1; sn / 256; sn mod 256; 0; 0x85; 1; 0; 9; 0; payload].

Definition ngu_example_ops : list gtpu_ngu_rx_op :=
  [NguRxPdu true (ngu_example_pdu 1 0xb); NguRxPdu true (ngu_example_pdu 1 0xb); NguRxPdu true (ngu_example_pdu 0 0xa);
   NguRxPdu false (ngu_example_pdu 2 0xc); NguRxPdu true (ngu_example_pdu 4 0xe); NguRxReorderingExpired; NguRxReorderingExpired;
   NguRxPdu true (ngu_example_pdu 6 0x10)].

Lemma ngu_example_bytes : Forall ngu_bytes_ok ngu_example_ops.
Proof.
  repeat (apply Forall_cons_2; [cbn [ngu_bytes_ok]; try exact I;
    repeat (apply Forall_cons_2; [unfold in_range; vm_compute; split; congruence|]); apply Forall_nil_2|]). apply Forall_nil_2.
Defined.

(** The SDU of a PDU is its last byte, which is also its number plus ten. *)
Definition ngu_example_annotated : list (gtpu_ngu_rx_op * (list Z * Z)) := ngu_annotate ngu_example_cfg <$> ngu_example_ops.

Lemma ngu_rx_refines_witness :
  ngu_rx_init = Ok ngu_example_init /\
  let '((stopped, r), delivered) := ngu_spec_run ngu_example_cfg ngu_example_annotated ngu_spec_init in
  exists s, ngu_rx_run ngu_example_cfg ngu_example_annotated.*1 ngu_example_init =
      Ok (s, flat_map (ngu_emit ngu_example_cfg id) delivered) /\
    ngu_rel id s r /\ ngr_stopped s = stopped.
Proof.
  split; [reflexivity|]. apply (ngu_rx_refines ngu_example_cfg id ngu_example_annotated ngu_example_init); [reflexivity|].
  apply (ngu_annotate_ok ngu_example_cfg ngu_example_ops). exact ngu_example_bytes.
Defined.

Lemma ngu_rx_conserves_witness :
  exists s out dups, ngu_rx_run ngu_example_cfg ngu_example_ops ngu_example_init = Ok (s, out) /\
    ngu_sdus out ++ ngu_window_sdus s ++ dups ≡ₚ (ngu_events ngu_example_cfg ngu_example_ops).*2 /\
    Forall (fun x => exists sn, (Some sn, x) ∈ ngu_events ngu_example_cfg ngu_example_ops) dups.
Proof.
  apply (ngu_rx_conserves ngu_example_cfg ngu_example_ops ngu_example_init); [reflexivity|exact ngu_example_bytes].
Defined.

Definition ngu_example_tag (x : list Z * Z) : Z := default 0 (head x.1) - 0xa.

Lemma ngu_rx_in_order_witness :
  exists s out items held base,
    ngu_rx_run ngu_example_cfg ngu_example_annotated.*1 ngu_example_init = Ok (s, out) /\
    ngu_sdus out = id <$> items /\ rises 0 base (ngu_example_tag <$> items) /\
    ngu_window_sdus s = id <$> held /\ rises base (base + gtpu_rx_window_size) (ngu_example_tag <$> held) /\
    rx_deliv (ngr_st s) = u16 base.
Proof.
  apply (ngu_rx_in_order ngu_example_cfg id ngu_example_tag ngu_example_annotated ngu_example_init); [reflexivity| |].
  - apply (ngu_annotate_ok ngu_example_cfg ngu_example_ops). exact ngu_example_bytes.
  - vm_compute. repeat split; congruence.
Defined.

Lemma ngu_telemetry_witness :
  exists s out, ngu_rx_run ngu_example_cfg ngu_example_ops ngu_example_init = Ok (s, out) /\
    ngu_counted ngu_example_cfg (zlen (ngu_sdus out)) (ngu_sdu_bytes (ngu_sdus out)) er_state_init (ngu_reports out er_state_init).
Proof.
  apply (ngu_telemetry ngu_example_cfg ngu_example_ops ngu_example_init er_state_init); [reflexivity|exact ngu_example_bytes].
Defined.

(** The timer started for the first gap is still running, with RX_REORD = RX_DELIV, when
    the gap is closed; it first expires without effect. The second expiry delivers what
    followed the gap. *)
Example ngu_example_run :
  match ngu_rx_run ngu_example_cfg ngu_example_ops ngu_example_init with
  | Ok (s, out) => ngu_sdus out = [([0xa], 9); ([0xb], 9); ([0xe], 9)] /\ ngu_window_sdus s = [([0x10], 9)] /\
      ngr_reordering_timer s = true
  | Panic => False
  end.
Proof. vm_compute. tauto. Qed.

Lemma ngu_expired_idle n (s : gtpu_ngu_rx circular_map) :
  ngr_reordering_timer s = false -> ngu_rx_run ngu_example_cfg (replicate n NguRxReorderingExpired) s = Ok (s, []).
Proof.
  intros Ht. induction n as [|n IH]; [done|]. cbn [replicate ngu_rx_run ngu_rx_step]. rewrite Ht. unfold emit_bind. cbn [checked_bind].
  by rewrite IH.
Qed.

(** At the edge of the window the reordering stalls. An SDU numbered RX_DELIV + 32767
    is inside the window and starts t-Reordering with RX_REORD = RX_DELIV + 32768, which is
    outside: when the timer expires the handler takes it for an outdated event, delivers
    nothing and does not start the timer again, so that no later expiry delivers the SDU. *)
Theorem window_edge_stalls n :
  let held := mk_gtpu_rx_sdu_info [7] 9 (Some 32767) in
  exists s1 s2,
    ngu_rx_run ngu_example_cfg [NguRxPdu true (ngu_example_pdu 32767 7)] ngu_example_init = Ok (s1, []) /\
    ngr_reordering_timer s1 = true /\ win_view (ngr_window s1) 32767 = Some held /\
    ngu_rx_run ngu_example_cfg (replicate (S n) NguRxReorderingExpired) s1 = Ok (s2, []) /\
    ngr_reordering_timer s2 = false /\ win_view (ngr_window s2) 32767 = Some held.
Proof.
  eexists. eexists. split; [vm_compute; reflexivity|]. split; [reflexivity|]. split; [vm_compute; reflexivity|].
  split.
  - cbn [replicate ngu_rx_run]. unfold emit_bind.
    lazymatch goal with |- (let? _ := ngu_rx_step ?c ?o ?s in _) = _ =>
      let v := eval vm_compute in (ngu_rx_step c o s) in change (ngu_rx_step c o s) with v end.
    cbn [checked_bind]. rewrite ngu_expired_idle by reflexivity. reflexivity.
  - split; [reflexivity|vm_compute; reflexivity].
Qed.
