(* ===== verification/GtpuNguTx.v ===== *)
(** * GTP-U: transmitting tunnel at NG-U

    Models [gtpu_tunnel_ngu_tx_impl] of [src/lib/gtpu/gtpu_tunnel_ngu_tx_impl.h]: every
    uplink SDU is reported to EdgeRIC, gets a PDU session container with its QoS flow and
    a GTP-U header, and is sent.  [gtpu_tunnel_ngu] is the tunnel of both directions
    ([gtpu_tunnel_impl_ngu.h]). *)
From stdpp Require Import base numbers list.
From Stdlib Require Import ZArith Lia.
From S2P Require Import Prelude.
From S2P Require Import Edgeric.
From S2P Require Import SduWindow.
From S2P Require Import BitEncoding.
From S2P Require Import BitBytes.
From S2P Require Import GtpuPdu.
From S2P Require Import GtpuPduProps.
From S2P Require Import PsupPacking.
From S2P Require Import GtpuNguRx.

Set Default Goal Selector "!".
Open Scope Z_scope.
Open Scope ran_scope.

(** ** Data *)

Record gtpu_ngu_tx_config := mk_gtpu_ngu_tx_config {
  ngt_peer_teid : Z;
  ngt_ue_idx : Z;
}.

(** The report to EdgeRIC, and the PDU handed to the gateway. *)
Inductive gtpu_ngu_tx_output : Type :=
| NguReportGtpUl (ue_idx pdu_len : Z)
| NguNewPdu (pdu : list Z).

(** What the memory pool answers: the room of the two buffers, and whether the header
    could be put before the SDU. *)
Record gtpu_ngu_tx_env := mk_gtpu_ngu_tx_env {
  nge_ext_room : Z;
  nge_hdr_room : Z;
  nge_prepend_ok : bool;
}.

(** ** Transmission *)

Section ngu_tx.
Variable cfg : gtpu_ngu_tx_config.

Definition ngu_tx_header (buf : list Z) : gtpu_header :=
  gtpu_header_default
    <| gh_flags := mk_gtpu_flags GTPU_FLAGS_VERSION_V1 GTPU_FLAGS_GTP_PROTOCOL true false false |>
    <| gh_message_type := GTPU_MSG_DATA_PDU |>
    <| gh_length := u16 (zlen buf + 4 + 4) |>
    <| gh_teid := ngt_peer_teid cfg |>
    <| gh_next_ext_hdr_type := pdu_session_container |>.

(** The uplink PDU session information. *)
Definition ngu_tx_container_fields (qfi : Z) : list (Z * Z) := [(1, 4); (0, 4); (0, 1); (qfi, 7)].

Definition ngu_tx_handle_sdu (env : gtpu_ngu_tx_env) (buf : list Z) (qfi : Z) (stopped : bool) :
    checked (list gtpu_ngu_tx_output) :=
  if stopped then Ok [] else
  let report := NguReportGtpUl (ngt_ue_idx cfg) (zlen buf) in
  let hdr := ngu_tx_header buf in
  let? (pack_ok, encoder) := be_pack_and (nge_ext_room env) (ngu_tx_container_fields qfi) true bit_encoder_new in
  if negb pack_ok then Ok [report] else
  let ext := mk_gtpu_extension_header pdu_session_container (be_bytes encoder) in
  let hdr := hdr <| gh_ext_list ::= fun l => l ++ [ext] |> in
  let? written := gtpu_write_header (nge_hdr_room env) (nge_prepend_ok env) buf hdr in
  match written with
  | None => Ok [report]
  | Some pdu => Ok [report; NguNewPdu pdu]
  end.
End ngu_tx.

(** The calls to EdgeRIC. *)
Definition ngu_tx_report (out : gtpu_ngu_tx_output) (e : er_state) : er_state :=
  match out with
  | NguReportGtpUl ue_idx pdu_len => report_gtp_ul_pkt ue_idx pdu_len e
  | NguNewPdu _ => e
  end.

(** ** The tunnel *)

Record gtpu_tunnel_ngu (W : Type -> Type) := mk_gtpu_tunnel_ngu {
  ngt_rx : gtpu_ngu_rx W;
  ngt_tx_stopped : bool;
}.
Arguments mk_gtpu_tunnel_ngu {W}.
Arguments ngt_rx {W}.
Arguments ngt_tx_stopped {W}.

Definition ngu_stop {W} (t : gtpu_tunnel_ngu W) : gtpu_tunnel_ngu W :=
  mk_gtpu_tunnel_ngu (ngu_rx_stop (ngt_rx t)) true.

(** ** What is sent *)

(** The octets of the container. *)
Definition ngu_tx_container (qfi : Z) : list Z := [0x10; qfi].

Lemma ngu_tx_fields_ok qfi :
  0 <= qfi < 128 ->
  Forall (field_ok 64) (ngu_tx_container_fields qfi) /\
  fields_bits (ngu_tx_container_fields qfi) = byte_bits (ngu_tx_container qfi).
Proof.
  intros Hq. unfold ngu_tx_container_fields, ngu_tx_container. split; [repeat constructor; cbn; lia|].
  rewrite !byte_bits_cons. cbn [fields_bits flat_map]. rewrite (app_assoc (bits_of _ 1)). f_equal.
  change (byte_bits []) with (@nil bool). rewrite !app_nil_r. change (Z.to_nat 1) with 1%nat. change (Z.to_nat 7) with 7%nat.
  rewrite <- (bits_of_cat 1 7 0 qfi) by (cbn; lia). done.
Qed.

Section ngu_tx_props.
Variable cfg : gtpu_ngu_tx_config.
Implicit Types env : gtpu_ngu_tx_env.

(** The header of the PDU of an SDU. *)
Definition ngu_tx_written (buf : list Z) (qfi : Z) : gtpu_header :=
  ngu_tx_header cfg buf
    <| gh_ext_list := [mk_gtpu_extension_header pdu_session_container (ngu_tx_container qfi)] |>.

Lemma ngu_tx_header_ok buf qfi :
  is_u32 (ngt_peer_teid cfg) -> 0 <= qfi < 128 -> gtpu_header_ok (ngu_tx_written buf qfi).
Proof.
  intros Ht Hq. split; try done; cbn.
  apply Forall_singleton. split; try done. cbn. repeat (apply Forall_cons; split; [unfold in_range; lia|]). apply Forall_nil_2.
Qed.

(** An uplink SDU leaves NG-U as a G-PDU. When there is memory, the tunnel reports the
    SDU to EdgeRIC and sends one PDU, 16 bytes longer, which dissects to the TEID of the
    peer, the type G-PDU and exactly one extension, the uplink session container with the
    QoS flow, and from which the SDU is extracted unchanged; a receiving tunnel at NG-U
    refuses its container, because it is not a downlink one. *)
Theorem ngu_tx_sends env buf qfi :
  is_u32 (ngt_peer_teid cfg) -> 0 <= qfi < 128 -> Forall is_u8 buf -> zlen buf + 8 < 65536 ->
  2 <= nge_ext_room env -> 16 <= nge_hdr_room env -> nge_prepend_ok env = true ->
  exists pdu d,
    ngu_tx_handle_sdu cfg env buf qfi false = Ok [NguReportGtpUl (ngt_ue_idx cfg) (zlen buf); NguNewPdu pdu] /\
    zlen pdu = zlen buf + 16 /\ gtpu_dissect_pdu pdu = Ok (Some d) /\
    gh_teid (gd_hdr d) = ngt_peer_teid cfg /\ gh_message_type (gd_hdr d) = GTPU_MSG_DATA_PDU /\
    gh_ext_list (gd_hdr d) = [mk_gtpu_extension_header pdu_session_container [0x10; qfi]] /\
    gtpu_extract_msg d = Ok buf /\
    ngu_session_info (gh_ext_list (gd_hdr d)) false psup_dl_default = Ok (false, psup_dl_default).
Proof.
  intros Ht Hq Hb Hl Hr1 Hr2 Hp. destruct (ngu_tx_fields_ok qfi Hq) as [Hf Hbits].
  destruct (be_pack_and_spec (nge_ext_room env) (ngu_tx_container_fields qfi) true bit_encoder_new [] encodes_new Hf)
    as (e & He & Hen); [rewrite Hbits, zlen_byte_bits; change (zlen (ngu_tx_container qfi)) with 2; change (zlen (@nil bool)) with 0; lia|].
  assert (be_bytes e = ngu_tx_container qfi) as Hc.
  { apply encodes_whole; [by rewrite <- Hbits|]. repeat (apply Forall_cons; split; [unfold in_range; lia|]). apply Forall_nil_2. }
  pose proof (ngu_tx_header_ok buf qfi Ht Hq) as Hok.
  destruct (gtpu_write_header_spec (nge_hdr_room env) buf _ Hok) as (bytes & Hw & Hbb & Hwb & Hwl); [done|].
  change (gtpu_hdr_len (ngu_tx_written buf qfi)) with 16 in Hwl.
  eexists (bytes ++ buf), _. split; [|split; [rewrite zlen_app; lia|split; [apply (gtpu_dissect_written _ (ngu_tx_written buf qfi) buf bytes); try done; change (gtpu_hdr_len (ngu_tx_written buf qfi)) with 16; lia|]]].
  - unfold ngu_tx_handle_sdu. rewrite He. cbn [checked_bind negb]. rewrite Hc, Hp.
    change (ngu_tx_header cfg buf <| gh_ext_list ::= _ |>) with (ngu_tx_written buf qfi). by rewrite Hw.
  - split; [done|]. split; [done|]. split; [done|]. split; [|reflexivity].
    unfold gtpu_extract_msg. cbn [gd_hdr_len gd_buf]. change (gtpu_hdr_len (ngu_tx_written buf qfi)) with 16.
    pose proof (zlen_nonneg buf). rewrite (proj2 (Z.leb_le _ _)) by (rewrite zlen_app; lia). f_equal. rewrite <- Hwl.
    unfold zlen. rewrite Nat2Z.id. apply drop_app_length.
Qed.

(** Whatever the memory, the SDU is counted once, before anything that can drop it. *)
Lemma ngu_tx_counts env buf qfi :
  exists sent, ngu_tx_handle_sdu cfg env buf qfi false = Ok (NguReportGtpUl (ngt_ue_idx cfg) (zlen buf) :: sent) /\
    (sent = [] \/ exists pdu, sent = [NguNewPdu pdu]).
Proof.
  unfold ngu_tx_handle_sdu.
  destruct (be_pack_and_total (nge_ext_room env) (ngu_tx_container_fields qfi) true bit_encoder_new) as (ok & e & He & Ho & Hn);
    [cbn; lia|repeat constructor; cbn; lia|]. rewrite He. cbn [checked_bind].
  destruct ok; [|by exists []; split; [|left]]. cbn [negb].
  assert (zlen (be_bytes e) = 2) as Hl by (assert (be_nof_bits e = 16) as Hs by (by rewrite Hn); unfold be_nof_bits in Hs;
    destruct (be_offset e =? 0) eqn:E; zbool; lia).
  lazymatch goal with |- context [gtpu_write_header ?r ?p ?b ?h] =>
    destruct (gtpu_write_header_total r p b h) as ([pdu|] & ->) end.
  - cbn. apply Forall_singleton. cbn [ext_container]. by rewrite Hl.
  - exists [NguNewPdu pdu]. split; [done|]. right. by eexists.
  - exists []. split; [done|]. by left.
Qed.
End ngu_tx_props.

(** ** Example *)

Lemma ngu_tx_sends_witness :
  let cfg := mk_gtpu_ngu_tx_config 0x01020304 3 in
  exists pdu d,
    ngu_tx_handle_sdu cfg (mk_gtpu_ngu_tx_env 2 16 true) [1; 2; 3] 9 false = Ok [NguReportGtpUl 3 3; NguNewPdu pdu] /\
    zlen pdu = 3 + 16 /\ gtpu_dissect_pdu pdu = Ok (Some d) /\
    gh_teid (gd_hdr d) = 0x01020304 /\ gh_message_type (gd_hdr d) = GTPU_MSG_DATA_PDU /\
    gh_ext_list (gd_hdr d) = [mk_gtpu_extension_header pdu_session_container [0x10; 9]] /\
    gtpu_extract_msg d = Ok [1; 2; 3] /\
    ngu_session_info (gh_ext_list (gd_hdr d)) false psup_dl_default = Ok (false, psup_dl_default).
Proof.
  apply (ngu_tx_sends (mk_gtpu_ngu_tx_config 0x01020304 3) (mk_gtpu_ngu_tx_env 2 16 true) [1; 2; 3] 9); cbn; try done || lia.
  repeat (apply Forall_cons; split; [done|]). apply Forall_nil_2.
Defined.
