(* ===== verification/GtpuEcho.v ===== *)
(** * GTP-U: path management

    Models the echo procedure: [gtpu_echo_tx] and [gtpu_echo_rx] of
    [src/lib/gtpu/gtpu_echo_tx_impl.h] and [src/lib/gtpu/gtpu_echo_rx_impl.h], joined as
    in [gtpu_echo_impl.h].  The state is the next sequence number of the requests. *)
From stdpp Require Import base numbers list.
From Stdlib Require Import ZArith Lia.
From S2P Require Import Prelude.
From S2P Require Import BitEncoding.
From S2P Require Import BitBytes.
From S2P Require Import GtpuPdu.
From S2P Require Import GtpuPduProps.

Set Default Goal Selector "!".
Open Scope Z_scope.
Open Scope ran_scope.

Definition GTPU_PATH_MANAGEMENT_TEID : Z := 0.

(** What the memory pool answers: the room of the buffers of the message and of the
    header, and whether the header could be put before the message. *)
Record gtpu_echo_env := mk_gtpu_echo_env {
  ece_msg_room : Z;
  ece_hdr_room : Z;
  ece_prepend_ok : bool;
}.

(** A PDU for an address. *)
Inductive gtpu_echo_output (Addr : Type) : Type :=
| EchoNewPdu (dst_addr : Addr) (pdu : list Z).
Arguments EchoNewPdu {Addr}.

Section echo.
Context {Addr : Type}.
Variable env : gtpu_echo_env.
Implicit Types sn_next : Z.

(** ** Transmission *)

Definition echo_header (message_type sn : Z) : gtpu_header :=
  gtpu_header_default
    <| gh_flags := mk_gtpu_flags GTPU_FLAGS_VERSION_V1 GTPU_FLAGS_GTP_PROTOCOL false true false |>
    <| gh_message_type := message_type |>
    <| gh_length := 0 |>
    <| gh_teid := GTPU_PATH_MANAGEMENT_TEID |>
    <| gh_seq_number := u16 sn |>.

(** [sn_next] has 32 bits, the sequence number of the header 16. *)
Definition send_echo_request (dst_addr : Addr) sn_next : checked (Z * list (gtpu_echo_output Addr)) :=
  let? written := gtpu_write_header (ece_hdr_room env) (ece_prepend_ok env) [] (echo_header GTPU_MSG_ECHO_REQUEST sn_next) in
  match written with
  | None => Ok (sn_next, [])
  | Some buf => Ok (u32 (sn_next + 1), [EchoNewPdu dst_addr buf])
  end.

Definition send_echo_response (dst_addr : Addr) (sn : Z) : checked (list (gtpu_echo_output Addr)) :=
  let? (write_ok, buf) := gtpu_write_ie_recovery (ece_msg_room env) [] 0 in
  if negb write_ok then Ok [] else
  let? written := gtpu_write_header (ece_hdr_room env) (ece_prepend_ok env) buf (echo_header GTPU_MSG_ECHO_RESPONSE sn) in
  match written with
  | None => Ok []
  | Some buf => Ok [EchoNewPdu dst_addr buf]
  end.

(** ** Reception *)

(** The message types without an action, the end marker and unknown types among them,
    are discarded; an error indication is read for the log. *)
Definition echo_handle_dissected (src_addr : Addr) (pdu : gtpu_dissected_pdu) :
    checked (list (gtpu_echo_output Addr)) :=
  let hdr := gd_hdr pdu in
  if negb (gh_teid hdr =? GTPU_PATH_MANAGEMENT_TEID) then Ok [] else
  if negb (gf_seq_number (gh_flags hdr)) then Ok [] else
  if gh_message_type hdr =? GTPU_MSG_ECHO_REQUEST then send_echo_response src_addr (gh_seq_number hdr)
  else if gh_message_type hdr =? GTPU_MSG_ERROR_INDICATION then
    let? msg := gtpu_extract_msg pdu in
    let? _ := gtpu_read_msg_error_indication msg in
    Ok []
  else Ok [].

Definition echo_handle_pdu (src_addr : Addr) (buf : list Z) : checked (list (gtpu_echo_output Addr)) :=
  let? d := gtpu_dissect_pdu buf in
  match d with
  | None => Ok []
  | Some pdu => echo_handle_dissected src_addr pdu
  end.
End echo.

(** ** What is sent *)

Lemma echo_header_ok type sn :
  type = GTPU_MSG_ECHO_REQUEST \/ type = GTPU_MSG_ECHO_RESPONSE -> gtpu_header_ok (echo_header type sn).
Proof.
  intros Ht. split; try done.
  - by destruct Ht as [-> | ->].
  - cbn. apply wrap_range. lia.
Qed.

(** A message under its header: what the peer dissects. *)
Lemma echo_written room buf type sn :
  type = GTPU_MSG_ECHO_REQUEST \/ type = GTPU_MSG_ECHO_RESPONSE -> Forall is_u8 buf -> zlen buf <= 100 -> 12 <= room ->
  exists raw d, gtpu_write_header room true buf (echo_header type sn) = Ok (Some raw) /\
    gtpu_dissect_pdu raw = Ok (Some d) /\ gd_hdr d = gtpu_header_read (echo_header type sn) buf /\
    gtpu_extract_msg d = Ok buf.
Proof.
  intros Ht Hb Hl Hr. pose proof (echo_header_ok type sn Ht) as Hok.
  destruct (gtpu_write_header_spec room buf _ Hok) as (bytes & Hw & Hbb & Hwb & Hwl); [done|].
  eexists _, _. split; [exact Hw|]. split; [|split].
  - apply (gtpu_dissect_written _ (echo_header type sn) buf bytes); try done.
    change (gtpu_hdr_len (echo_header type sn)) with 12. lia.
  - done.
  - unfold gtpu_extract_msg. cbn [gd_hdr_len gd_buf]. rewrite <- Hwl. pose proof (zlen_nonneg buf).
    rewrite (proj2 (Z.leb_le _ _)) by (rewrite zlen_app; lia). unfold zlen. by rewrite Nat2Z.id, drop_app_length.
Qed.

Lemma ie_recovery_written room :
  2 <= room -> gtpu_write_ie_recovery room [] 0 = Ok (true, [14; 0]).
Proof.
  intros Hr. unfold gtpu_write_ie_recovery.
  destruct (be_pack_and_spec room [(ie_recovery, 8); (0, 8)] true (bit_encoder_on []) []) as (e & -> & He);
    [apply encodes_new|repeat (apply Forall_cons_2; [split; cbn; unfold ie_recovery; lia|]); apply Forall_nil_2|change (zlen (@nil bool)) with 0; change (zlen (fields_bits _)) with 16; lia|].
  cbn [checked_bind]. rewrite (encodes_whole e [14; 0]); [done|exact He|].
  repeat (apply Forall_cons; split; [done|]). apply Forall_nil_2.
Qed.

(** ** The procedure *)

Section echo_props.
Context {Addr : Type}.
Implicit Types env : gtpu_echo_env.
Implicit Types addr : Addr.

(** An echo request is answered. The request that one path management entity sends makes
    the other send one response to the source of the request: with the same sequence
    number, the low 16 bits of the counter of the first, and the recovery element as its
    message; and the response ends the exchange. *)
Theorem echo_answered env env' sn_next addr addr' :
  ece_prepend_ok env = true -> ece_prepend_ok env' = true -> 12 <= ece_hdr_room env -> 12 <= ece_hdr_room env' ->
  2 <= ece_msg_room env' ->
  exists request response d,
    send_echo_request env addr sn_next = Ok (u32 (sn_next + 1), [EchoNewPdu addr request]) /\
    echo_handle_pdu env' addr' request = Ok [EchoNewPdu addr' response] /\
    gtpu_dissect_pdu response = Ok (Some d) /\ gh_message_type (gd_hdr d) = GTPU_MSG_ECHO_RESPONSE /\
    gh_seq_number (gd_hdr d) = u16 sn_next /\ gtpu_extract_msg d = Ok [14; 0] /\
    echo_handle_pdu env addr response = Ok [].
Proof.
  intros Hp Hp' Hr Hr' Hm.
  destruct (echo_written (ece_hdr_room env) [] GTPU_MSG_ECHO_REQUEST sn_next) as (req & d1 & Hw1 & Hd1 & Hh1 & _);
    [by left|apply Forall_nil_2|done|done|].
  destruct (echo_written (ece_hdr_room env') [14; 0] GTPU_MSG_ECHO_RESPONSE (u16 sn_next)) as (res & d2 & Hw2 & Hd2 & Hh2 & Hx2);
    [by right|repeat (apply Forall_cons; split; [done|]); apply Forall_nil_2|done|done|].
  exists req, res, d2. unfold send_echo_request. rewrite Hp, Hw1. split; [done|].
  split; [|split; [done|rewrite Hh2; split; [done|split; [|split; [done|]]]]].
  - unfold echo_handle_pdu. rewrite Hd1. cbn [checked_bind]. unfold echo_handle_dissected. rewrite Hh1. cbn.
    unfold send_echo_response. rewrite ie_recovery_written by done. cbn [checked_bind negb]. rewrite Hp'.
    change (gh_seq_number (gtpu_header_read (echo_header GTPU_MSG_ECHO_REQUEST sn_next) [])) with (u16 sn_next). by rewrite Hw2.
  - cbn. unfold wrap. by rewrite Z.mod_mod.
  - unfold echo_handle_pdu. rewrite Hd2. cbn [checked_bind]. unfold echo_handle_dissected. by rewrite Hh2.
Qed.

Lemma bd_unpack_bytes_total n d :
  decoding d -> exists r d', bd_unpack_bytes n d = Ok (r, d') /\ decoding d'.
Proof.
  intros Hd. unfold bd_unpack_bytes. destruct (bool_decide _); [by eexists _, _|]. destruct (_ <? _); [by eexists _, _|].
  destruct (bd_offset d =? 0) eqn:E; zbool.
  - eexists _, _. split; [done|]. destruct Hd as (bs & _ & Hu & _). destruct d as [l o]. unfold field_update. cbn in *. subst o.
    by apply decoding_new, Forall_drop.
  - clear E. revert d Hd. induction n as [|n IH]; intros d Hd; cbn [bd_unpack_each]; [by eexists _, _|].
    destruct (bd_unpack_moves 8 8 d Hd) as (ok & v & d' & -> & _ & Hd' & _); [lia|lia|]. cbn [checked_bind].
    destruct ok; [|by eexists _, _]. destruct (IH d' Hd') as (r & d2 & -> & Hd2). by eexists _, _.
Qed.

Lemma read_msg_error_indication_total msg :
  Forall is_u8 msg -> exists r, gtpu_read_msg_error_indication msg = Ok r.
Proof.
  intros Hu. unfold gtpu_read_msg_error_indication. pose proof (reads_new msg Hu) as Hd.
  reads_step msg. destruct (negb _); [by eexists|]. do 2 reads_step msg. destruct (negb _); [by eexists|].
  unfold gtpu_read_ie_gtpu_peer_address, bd_read. reads_step msg.
  lazymatch goal with |- context [Ok (if ?x then Some (?v, ?d) else None)] => destruct x; [|by eexists] end.
  cbn [verify_bind checked_bind]. destruct (_ =? 4); [|destruct (_ =? 16); [|by eexists]];
    (lazymatch goal with |- context [bd_unpack_bytes ?n ?d] =>
       destruct (bd_unpack_bytes_total n d) as ([l|] & d' & -> & _); [by destruct Hd| |] end); by eexists.
Qed.

(** Reception is safe on any bytes. The path management entity never aborts, and it sends
    nothing unless the bytes are an echo request: a PDU that is dissected, with TEID 0, the
    S flag and the type of a request; what it sends is one response, to the source. *)
Theorem echo_rx_safe env addr buf :
  Forall is_u8 buf ->
  exists out, echo_handle_pdu env addr buf = Ok out /\
    (out = [] \/ exists d response, gtpu_dissect_pdu buf = Ok (Some d) /\ out = [EchoNewPdu addr response] /\
       gh_teid (gd_hdr d) = 0 /\ gf_seq_number (gh_flags (gd_hdr d)) = true /\
       gh_message_type (gd_hdr d) = GTPU_MSG_ECHO_REQUEST).
Proof.
  intros Hu. unfold echo_handle_pdu. destruct (gtpu_dissect_safe_cases buf Hu) as [->|(d & Hd & Hok & Hx & _)];
    [exists []; split; [done|by left]|]. rewrite Hd. cbn [checked_bind]. unfold echo_handle_dissected. cbv zeta.
  destruct (gh_teid (gd_hdr d) =? GTPU_PATH_MANAGEMENT_TEID) eqn:Et; cbn [negb]; [|exists []; split; [done|by left]].
  destruct (gf_seq_number (gh_flags (gd_hdr d))) eqn:Es; cbn [negb]; [|exists []; split; [done|by left]].
  destruct (gh_message_type (gd_hdr d) =? GTPU_MSG_ECHO_REQUEST) eqn:Em; zbool.
  - unfold send_echo_response, gtpu_write_ie_recovery.
    destruct (be_pack_and_total (ece_msg_room env) [(ie_recovery, 8); (0, 8)] true (bit_encoder_on [])) as (ok & e & -> & _);
      [cbn; lia|repeat constructor; cbn; lia|]. cbn [checked_bind]. destruct ok; cbn [negb]; [|exists []; split; [done|by left]].
    lazymatch goal with |- context [gtpu_write_header ?r ?p ?b ?h] =>
      destruct (gtpu_write_header_total r p b h) as ([pdu|] & ->) end; [apply Forall_nil_2| |exists []; split; [done|by left]].
    exists [EchoNewPdu addr pdu]. split; [done|]. right. by exists d, pdu.
  - destruct (gh_message_type (gd_hdr d) =? GTPU_MSG_ERROR_INDICATION); [|exists []; split; [done|by left]].
    rewrite Hx. cbn [checked_bind]. destruct (read_msg_error_indication_total (drop (Z.to_nat (gd_hdr_len d)) buf)) as (r & ->);
      [by apply Forall_drop|]. exists []. split; [done|by left].
Qed.
End echo_props.

Lemma echo_answered_witness :
  let env := mk_gtpu_echo_env 2 12 true in
  exists request response d,
    send_echo_request env 7 65537 = Ok (u32 (65537 + 1), [EchoNewPdu 7 request]) /\
    echo_handle_pdu env 8 request = Ok [EchoNewPdu 8 response] /\
    gtpu_dissect_pdu response = Ok (Some d) /\ gh_message_type (gd_hdr d) = GTPU_MSG_ECHO_RESPONSE /\
    gh_seq_number (gd_hdr d) = u16 65537 /\ gtpu_extract_msg d = Ok [14; 0] /\
    echo_handle_pdu env 7 response = Ok [].
Proof. by apply (echo_answered (mk_gtpu_echo_env 2 12 true) (mk_gtpu_echo_env 2 12 true) 65537 7 8). Defined.
