(* ===== verification/Sdap.v ===== *)
(** * SDAP

    Models [sdap_entity_impl] of [src/lib/sdap/sdap_entity_impl.h] with the entities of a
    mapping, [sdap_entity_tx_impl.h] and [sdap_entity_rx_impl.h]: QoS flows are mapped to
    data radio bearers, and the SDUs and PDUs pass through without a header.  One entity
    serves one PDU session. *)
From stdpp Require Import base numbers list gmap.
From Stdlib Require Import ZArith Lia.
From S2P Require Import Prelude.

Set Default Goal Selector "!".
Open Scope Z_scope.
Open Scope ran_scope.

(** ** Data *)

(** [sdap_entity_tx_impl]: its notifier is the PDCP entity of the bearer, here by name. *)
Record sdap_entity_tx := mk_sdap_entity_tx {
  sdt_qfi : Z;
  sdt_drb_id : Z;
  sdt_pdu_notifier : Z;
}.
#[export] Instance sdap_entity_tx_eq_dec : EqDecision sdap_entity_tx.
Proof. solve_decision. Defined.

(** [sdap_entity_rx_impl]: its notifier is that of the session. *)
Record sdap_entity_rx := mk_sdap_entity_rx {
  sdr_qfi : Z;
  sdr_drb_id : Z;
}.
#[export] Instance sdap_entity_rx_eq_dec : EqDecision sdap_entity_rx.
Proof. solve_decision. Defined.

Record sdap_entity := mk_sdap_entity {
  sda_tx_map : gmap Z sdap_entity_tx;
  sda_rx_map : gmap Z sdap_entity_rx;
}.
#[export] Instance sdap_entity_eta : RecordEta sdap_entity := fun r =>
  mk_sdap_entity (sda_tx_map r) (sda_rx_map r).

Definition sdap_new : sdap_entity := mk_sdap_entity ∅ ∅.

(** A PDU for the lower layer, an SDU for the upper one. *)
Inductive sdap_output : Type :=
| SdapNewPdu (notifier : Z) (pdu : list Z)
| SdapNewSdu (sdu : list Z) (qfi : Z).

(** ** Operations *)

Implicit Types s : sdap_entity.

Definition sdap_tx_handle_sdu (tx : sdap_entity_tx) (sdu : list Z) : list sdap_output :=
  [SdapNewPdu (sdt_pdu_notifier tx) sdu].
Definition sdap_rx_handle_pdu (rx : sdap_entity_rx) (pdu : list Z) : list sdap_output :=
  [SdapNewSdu pdu (sdr_qfi rx)].

(** The handler is handed out as a reference: it is valid until the mapping is removed. *)
Definition get_sdap_rx_pdu_handler (drb_id : Z) s : checked sdap_entity_rx :=
  match sda_rx_map s !! drb_id with Some rx => Ok rx | None => Panic end.

Definition sdap_handle_sdu (sdu : list Z) (qos_flow_id : Z) s : list sdap_output :=
  match sda_tx_map s !! qos_flow_id with
  | None => []
  | Some tx => sdap_tx_handle_sdu tx sdu
  end.

Definition sdap_is_mapped (qfi : Z) s : bool := bool_decide (is_Some (sda_tx_map s !! qfi)).

Definition sdap_add_mapping (qfi drb_id tx_pdu_notifier : Z) s : sdap_entity :=
  if sdap_is_mapped qfi s then s else
  if bool_decide (is_Some (sda_rx_map s !! drb_id)) then s else
  s <| sda_tx_map ::= <[qfi := mk_sdap_entity_tx qfi drb_id tx_pdu_notifier]> |>
    <| sda_rx_map ::= <[drb_id := mk_sdap_entity_rx qfi drb_id]> |>.

(** The loop erases every transmitting entity of the bearer. *)
Definition sdap_remove_mapping (drb_id : Z) s : sdap_entity :=
  s <| sda_tx_map ::= filter (fun '(_, tx) => sdt_drb_id tx <> drb_id) |>
    <| sda_rx_map ::= delete drb_id |>.

(** ** Runs *)

Inductive sdap_op : Type :=
| SdapAdd (qfi drb_id tx_pdu_notifier : Z)
| SdapRemove (drb_id : Z).

Definition sdap_step (op : sdap_op) s : sdap_entity :=
  match op with
  | SdapAdd qfi drb_id n => sdap_add_mapping qfi drb_id n s
  | SdapRemove drb_id => sdap_remove_mapping drb_id s
  end.

Definition sdap_run (ops : list sdap_op) s : sdap_entity := foldl (fun s op => sdap_step op s) s ops.

(** ** The specification

    The mappings of the session, as triples of flow, bearer and notifier: a mapping is
    added when neither its flow nor its bearer has one, and removed with its bearer. *)
Definition sdap_free (qfi drb : Z) (l : list (Z * Z * Z)) : Prop :=
  Forall (fun '(q, d, _) => q <> qfi /\ d <> drb) l.
#[export] Instance sdap_free_dec qfi drb l : Decision (sdap_free qfi drb l).
Proof. apply Forall_dec. intros [[q d] n]. apply _. Defined.

Definition sdap_spec_step (op : sdap_op) (l : list (Z * Z * Z)) : list (Z * Z * Z) :=
  match op with
  | SdapAdd qfi drb n => if decide (sdap_free qfi drb l) then l ++ [(qfi, drb, n)] else l
  | SdapRemove drb => filter (fun '(_, d, _) => d <> drb) l
  end.

Definition sdap_spec_run (ops : list sdap_op) (l : list (Z * Z * Z)) : list (Z * Z * Z) :=
  foldl (fun l op => sdap_spec_step op l) l ops.

(** The two maps are the triples, read from either side. *)
Record sdap_rel s (l : list (Z * Z * Z)) : Prop := {
  sr_tx qfi tx : sda_tx_map s !! qfi = Some tx <->
    exists d n, (qfi, d, n) ∈ l /\ tx = mk_sdap_entity_tx qfi d n;
  sr_rx drb rx : sda_rx_map s !! drb = Some rx <->
    exists q n, (q, drb, n) ∈ l /\ rx = mk_sdap_entity_rx q drb;
}.

Lemma sdap_rel_new : sdap_rel sdap_new [].
Proof.
  split; unfold sdap_new; cbn; intros ? ?; rewrite lookup_empty; split; [done| |done|];
    by intros (? & ? & ?%elem_of_nil & _).
Qed.

Lemma sdap_rel_free qfi drb s l :
  sdap_rel s l -> sdap_free qfi drb l <-> sda_tx_map s !! qfi = None /\ sda_rx_map s !! drb = None.
Proof.
  intros [Ht Hr]. unfold sdap_free. rewrite Forall_forall. split.
  - intros Hf. split; apply eq_None_not_Some; intros [x Hx].
    + apply Ht in Hx as (d & n & Hin & _). by destruct (Hf _ Hin).
    + apply Hr in Hx as (q & n & Hin & _). by destruct (Hf _ Hin).
  - intros [E1 E2] [[q d] n] Hin. split; intros ->.
    + assert (sda_tx_map s !! qfi = Some (mk_sdap_entity_tx qfi d n)) as E by (apply Ht; by exists d, n). congruence.
    + assert (sda_rx_map s !! drb = Some (mk_sdap_entity_rx q drb)) as E by (apply Hr; by exists q, n). congruence.
Qed.

Lemma sdap_add_spec qfi drb n s l :
  sdap_rel s l ->
  sdap_add_mapping qfi drb n s =
    if decide (sdap_free qfi drb l) then
      mk_sdap_entity (<[qfi := mk_sdap_entity_tx qfi drb n]> (sda_tx_map s)) (<[drb := mk_sdap_entity_rx qfi drb]> (sda_rx_map s))
    else s.
Proof.
  intros Hrel. unfold sdap_add_mapping, sdap_is_mapped. pose proof (sdap_rel_free qfi drb s l Hrel) as Hf.
  destruct (decide (sdap_free qfi drb l)) as [[E1 E2]%Hf|Hn].
  - by rewrite E1, E2, !bool_decide_eq_false_2 by (by intros [? ?]).
  - destruct (sda_tx_map s !! qfi) eqn:E1; [by rewrite bool_decide_eq_true_2|]. rewrite bool_decide_eq_false_2 by (by intros [? ?]).
    destruct (sda_rx_map s !! drb) eqn:E2; [by rewrite bool_decide_eq_true_2|]. by destruct Hn; apply Hf.
Qed.

Lemma sdap_rel_step op s l : sdap_rel s l -> sdap_rel (sdap_step op s) (sdap_spec_step op l).
Proof.
  intros Hrel. pose proof Hrel as [Ht Hr]. destruct op as [qfi drb n|drb]; cbn [sdap_step sdap_spec_step].
  - rewrite (sdap_add_spec _ _ _ _ _ Hrel). destruct (decide _) as [Hf|]; [|done].
    unfold sdap_free in Hf. rewrite Forall_forall in Hf. split; cbn [sda_tx_map sda_rx_map].
    + intros q tx. setoid_rewrite elem_of_app. setoid_rewrite list_elem_of_singleton. destruct (decide (q = qfi)) as [->|Hne].
      * rewrite lookup_insert_eq. split; [intros [= <-]; exists drb, n; auto|].
        intros (d & m & [Hin|[= -> ->]] & ->); [by destruct (Hf _ Hin)|done].
      * rewrite lookup_insert_ne, Ht by done. split; intros (d & m & Hin & ->); exists d, m; [by auto|].
        destruct Hin as [Hin|[=]]; done.
    + intros d rx. setoid_rewrite elem_of_app. setoid_rewrite list_elem_of_singleton. destruct (decide (d = drb)) as [->|Hne].
      * rewrite lookup_insert_eq. split; [intros [= <-]; exists qfi, n; auto|].
        intros (q & m & [Hin|[= -> ->]] & ->); [by destruct (Hf _ Hin)|done].
      * rewrite lookup_insert_ne, Hr by done. split; intros (q & m & Hin & ->); exists q, m; [by auto|].
        destruct Hin as [Hin|[=]]; done.
  - unfold sdap_remove_mapping, field_update. split; cbn [sda_tx_map sda_rx_map].
    + intros q tx. rewrite map_lookup_filter_Some, Ht. setoid_rewrite list_elem_of_filter. split.
      * intros [(d & m & Hin & ->) Hne]. by exists d, m.
      * intros (d & m & [Hne Hin] & ->). split; [by exists d, m|done].
    + intros d rx. rewrite lookup_delete_Some, Hr. setoid_rewrite list_elem_of_filter. split.
      * intros [Hne (q & m & Hin & ->)]. by exists q, m.
      * intros (q & m & [Hne Hin] & ->). split; [done|by exists q, m].
Qed.

Lemma sdap_rel_run ops s l : sdap_rel s l -> sdap_rel (sdap_run ops s) (sdap_spec_run ops l).
Proof. revert s l. induction ops as [|op ops IH]; intros s l Hs; [done|]. by apply IH, sdap_rel_step. Qed.

(** No flow and no bearer occurs twice. *)
Definition sdap_bijective (l : list (Z * Z * Z)) : Prop :=
  NoDup ((fun x => x.1.1) <$> l) /\ NoDup ((fun x => x.1.2) <$> l).

Lemma sdap_spec_bijective ops l : sdap_bijective l -> sdap_bijective (sdap_spec_run ops l).
Proof.
  revert l. induction ops as [|op ops IH]; intros l Hb; [done|]. apply IH. destruct Hb as [H1 H2].
  destruct op as [qfi drb n|drb]; cbn [sdap_spec_step].
  - destruct (decide _) as [Hf|]; [|done]. unfold sdap_free in Hf. rewrite Forall_forall in Hf.
    unfold sdap_bijective. rewrite !fmap_app. split; apply NoDup_app; split_and!; try done; try apply NoDup_singleton;
      cbn; intros x ([[q d] m] & -> & Hin)%list_elem_of_fmap Hx%list_elem_of_singleton; cbn in Hx; subst; by destruct (Hf _ Hin).
  - assert (forall (g : Z * Z * Z -> Z), NoDup (g <$> l) -> NoDup (g <$> filter (fun '(_, d, _) => d <> drb) l)) as Hfil.
    { intros g Hg. eapply sublist_NoDup; [exact Hg|]. apply (fmap_sublist g), sublist_filter. }
    split; by apply Hfil.
Qed.

(** ** What the entity promises *)

(** C30. The SDAP entity is a partial bijection between QoS flows and bearers. After any
    sequence of added and removed mappings, of which those that would map a flow or a
    bearer a second time change nothing: the mappings of the specification have no flow
    and no bearer twice; an SDU goes down to the notifier of the bearer of its flow, or
    nowhere when the flow is not mapped; a PDU of a bearer comes up with its flow; and the
    handler of a bearer without a mapping is not given out, the request aborts. *)
Theorem sdap_refines_bijection ops :
  let s := sdap_run ops sdap_new in let l := sdap_spec_run ops [] in
  sdap_bijective l /\
  (forall qfi d n sdu, (qfi, d, n) ∈ l ->
     sdap_is_mapped qfi s = true /\ sdap_handle_sdu sdu qfi s = [SdapNewPdu n sdu] /\
     exists rx, get_sdap_rx_pdu_handler d s = Ok rx /\ sdap_rx_handle_pdu rx sdu = [SdapNewSdu sdu qfi]) /\
  (forall qfi sdu, qfi ∉ (fun x => x.1.1) <$> l -> sdap_is_mapped qfi s = false /\ sdap_handle_sdu sdu qfi s = []) /\
  (forall d, d ∉ (fun x => x.1.2) <$> l -> get_sdap_rx_pdu_handler d s = Panic).
Proof.
  cbv zeta. pose proof (sdap_rel_run ops _ _ sdap_rel_new) as [Ht Hr]. set (s := sdap_run ops sdap_new) in *.
  split; [apply sdap_spec_bijective; split; apply NoDup_nil_2|]. split; [|split].
  - intros qfi d n sdu Hin. unfold sdap_is_mapped, sdap_handle_sdu, get_sdap_rx_pdu_handler.
    assert (sda_tx_map s !! qfi = Some (mk_sdap_entity_tx qfi d n)) as -> by (apply Ht; by exists d, n).
    assert (sda_rx_map s !! d = Some (mk_sdap_entity_rx qfi d)) as -> by (apply Hr; by exists qfi, n).
    split; [by apply bool_decide_eq_true_2|]. split; [done|]. by eexists.
  - intros qfi sdu Hn. unfold sdap_is_mapped, sdap_handle_sdu.
    destruct (sda_tx_map s !! qfi) as [tx|] eqn:E; [|by split; [apply bool_decide_eq_false_2; intros [? ?]|]].
    apply Ht in E as (d & n & Hin & _). destruct Hn. apply list_elem_of_fmap. by exists (qfi, d, n).
  - intros d Hn. unfold get_sdap_rx_pdu_handler. destruct (sda_rx_map s !! d) as [rx|] eqn:E; [|done].
    apply Hr in E as (q & n & Hin & _). destruct Hn. apply list_elem_of_fmap. by exists (q, d, n).
Qed.

(** A flow that is refused stays without a bearer, also when the mapping that was in its
    way is removed: two flows cannot share a bearer. *)
Example sdap_second_flow_dropped sdu :
  let s := sdap_run [SdapAdd 1 4 10; SdapAdd 2 4 10] sdap_new in
  sdap_handle_sdu sdu 1 s = [SdapNewPdu 10 sdu] /\ sdap_handle_sdu sdu 2 s = [] /\
  sdap_handle_sdu sdu 2 (sdap_remove_mapping 4 s) = [].
Proof. by split_and!. Qed.
