(* ===== verification/DispatchQueue.v ===== *)
(** * The batched dispatch queue

    Models [batched_dispatch_queue] of [src/include/srsran/adt/batched_dispatch_queue.h],
    through which every receiving GTP-U tunnel gets its PDUs: any number of producers push
    values into a bounded lock-free queue, and the one that finds the counter [job_count]
    at zero defers a task that pops and hands on the values in batches.

    The steps are the accesses to shared memory of each thread, in any interleaving: the
    push into the queue, the changes of the counter, the calls of the executor, every pop.
    The bounded queue itself is a list, a push or a pop of it one step; a pop that finds it
    empty is the one that the code gives up after a millisecond. *)
From stdpp Require Import base numbers list.
From Stdlib Require Import ZArith Lia.
From S2P Require Import Prelude.

Set Default Goal Selector "!".
Open Scope Z_scope.
Open Scope ran_scope.

Section dispatch_queue.
Context {V : Type}.
Variable capacity : Z.
Variable batch_max_size : Z.
Implicit Types v : V.

(** ** State *)

(** A thread in [drain_queue]: before it reads the counter, or in its loop. *)
Inductive dq_drain : Type :=
| DrainLoad
| DrainLoop (queue_size run_count : Z).

(** The consumer: between tasks; in [handle_enqueued_values] before it reads the counter,
    at the head of the loop, popping, after it lowered the counter and before the callback;
    about to defer the next task; in [drain_queue]. *)
Inductive dq_consumer : Type :=
| ConsIdle
| ConsStart
| ConsLoop (queue_size max_pops : Z)
| ConsPop (run_count max_count max_pops : Z) (batched_values : list V)
| ConsCallback (queue_size run_count max_pops : Z) (batched_values : list V)
| ConsDispatch
| ConsDrain (d : dq_drain).

(** [dq_counting]: producers that have pushed and not yet counted their value;
    [dq_dispatching]: producers about to defer a task; [dq_draining]: producers whose task
    was refused; [dq_tasks]: tasks in the executor. *)
Record dispatch_queue := mk_dispatch_queue {
  dq_queue : list V;
  dq_job_count : Z;
  dq_stopped : bool;
  dq_tasks : nat;
  dq_counting : nat;
  dq_dispatching : nat;
  dq_draining : list dq_drain;
  dq_cons : dq_consumer;
}.
#[export] Instance dispatch_queue_eta : RecordEta dispatch_queue := fun r =>
  mk_dispatch_queue (dq_queue r) (dq_job_count r) (dq_stopped r) (dq_tasks r) (dq_counting r)
    (dq_dispatching r) (dq_draining r) (dq_cons r).
Implicit Types s : dispatch_queue.

Definition dq_new : dispatch_queue := mk_dispatch_queue [] 0 false 0 0 0 [] ConsIdle.

Inductive dq_event : Type :=
| DqPushed v
| DqRefused v
| DqCallback (values : list V)
| DqDropped v.

(** ** Steps *)

(** [try_push]: the part before the counter. *)
Definition dq_push v s : dispatch_queue * list dq_event :=
  if capacity <=? zlen (dq_queue s) then (s, [DqRefused v])
  else (s <| dq_queue ::= fun q => q ++ [v] |> <| dq_counting ::= S |>, [DqPushed v]).

(** The counter, and the edge that makes this producer dispatch. *)
Definition dq_count s : option (dispatch_queue * list dq_event) :=
  match dq_counting s with
  | O => None
  | S n =>
      let s := s <| dq_counting := n |> in
      let edge_trigger := dq_job_count s =? 0 in
      let s := s <| dq_job_count ::= fun c => u32 (c + 1) |> in
      Some (if edge_trigger then s <| dq_dispatching ::= S |> else s, [])
  end.

(** [dispatch_value_dequeue_task] of a producer. *)
Definition dq_dispatch (deferred : bool) s : option (dispatch_queue * list dq_event) :=
  match dq_dispatching s with
  | O => None
  | S n =>
      let s := s <| dq_dispatching := n |> in
      Some (if deferred then s <| dq_tasks ::= S |> else s <| dq_draining ::= fun l => l ++ [DrainLoad] |>, [])
  end.

(** One step of [drain_queue]; the thread leaves when it has no next state. *)
Definition dq_drain_step (d : dq_drain) s : option dq_drain * dispatch_queue * list dq_event :=
  match d with
  | DrainLoad => (Some (DrainLoop (dq_job_count s) 0), s, [])
  | DrainLoop queue_size run_count =>
      if queue_size =? 0 then (None, s, [])
      else if run_count =? queue_size then
        let queue_size := u32 (dq_job_count s - run_count) in
        (Some (DrainLoop queue_size 0), s <| dq_job_count := queue_size |>, [])
      else match dq_queue s with
           | v :: q => (Some (DrainLoop queue_size (run_count + 1)), s <| dq_queue := q |>, [DqDropped v])
           | [] => (Some (DrainLoop queue_size queue_size), s, [])
           end
  end.

Definition dq_drain_producer (i : nat) s : option (dispatch_queue * list dq_event) :=
  match dq_draining s !! i with
  | None => None
  | Some d =>
      let '(d, s, ev) := dq_drain_step d s in
      Some (match d with
            | Some d => s <| dq_draining ::= <[i := d]> |>
            | None => s <| dq_draining ::= delete i |>
            end, ev)
  end.

(** The executor runs a task. *)
Definition dq_task s : option (dispatch_queue * list dq_event) :=
  match dq_cons s, dq_tasks s with
  | ConsIdle, S n =>
      let s := s <| dq_tasks := n |> in
      Some (if dq_stopped s then s else s <| dq_cons := ConsStart |>, [])
  | _, _ => None
  end.

(** One step of the consumer, [deferred] being the answer of the executor. *)
Definition dq_consume (deferred : bool) s : option (dispatch_queue * list dq_event) :=
  match dq_cons s with
  | ConsIdle => None
  | ConsStart => Some (s <| dq_cons := ConsLoop (dq_job_count s) batch_max_size |>, [])
  | ConsLoop queue_size max_pops =>
      Some (s <| dq_cons := if 0 <? queue_size then ConsPop 0 (Z.min queue_size max_pops) max_pops [] else ConsIdle |>, [])
  | ConsPop run_count max_count max_pops batched_values =>
      if run_count =? max_count then
        let queue_size := u32 (dq_job_count s - run_count) in
        Some (s <| dq_job_count := queue_size |>
                <| dq_cons := ConsCallback queue_size run_count max_pops batched_values |>, [])
      else match dq_queue s with
           | v :: q => Some (s <| dq_queue := q |>
                               <| dq_cons := ConsPop (run_count + 1) max_count max_pops (batched_values ++ [v]) |>, [])
           | [] => Some (s <| dq_cons := ConsPop max_count max_count max_pops batched_values |>, [])
           end
  | ConsCallback queue_size run_count max_pops batched_values =>
      let max_pops := u32 (max_pops - run_count) in
      Some (s <| dq_cons := if (0 <? queue_size) && (max_pops =? 0) then ConsDispatch
                            else ConsLoop queue_size max_pops |>, [DqCallback batched_values])
  | ConsDispatch =>
      Some (if deferred then s <| dq_tasks ::= S |> <| dq_cons := ConsIdle |>
            else s <| dq_cons := ConsDrain DrainLoad |>, [])
  | ConsDrain d =>
      let '(d, s, ev) := dq_drain_step d s in
      Some (s <| dq_cons := match d with Some d => ConsDrain d | None => ConsIdle end |>, ev)
  end.

(** [stop], in the context of the consumer. *)
Definition dq_stop s : option (dispatch_queue * list dq_event) :=
  match dq_cons s with
  | ConsIdle =>
      Some (if dq_stopped s then s else s <| dq_stopped := true |> <| dq_cons := ConsDrain DrainLoad |>, [])
  | _ => None
  end.

Inductive dq_action : Type :=
| DqPush v
| DqCount
| DqDispatch (deferred : bool)
| DqDrain (i : nat)
| DqTask
| DqConsume (deferred : bool)
| DqStop.

(** [None]: no thread is there to make the step.  Pushing into a stopped queue is ruled
    out by an assertion. *)
Definition dq_act (a : dq_action) s : option (dispatch_queue * list dq_event) :=
  match a with
  | DqPush v => if dq_stopped s then None else Some (dq_push v s)
  | DqCount => dq_count s
  | DqDispatch deferred => dq_dispatch deferred s
  | DqDrain i => dq_drain_producer i s
  | DqTask => dq_task s
  | DqConsume deferred => dq_consume deferred s
  | DqStop => dq_stop s
  end.

(** ** Executions *)

Inductive dq_exec : dispatch_queue -> list dq_action -> list dq_event -> dispatch_queue -> Prop :=
| dq_exec_nil s : dq_exec s [] [] s
| dq_exec_step s1 acts ev1 s2 a ev2 s3 :
    dq_exec s1 acts ev1 s2 -> dq_act a s2 = Some (s3, ev2) ->
    dq_exec s1 (acts ++ [a]) (ev1 ++ ev2) s3.

(** The same as a function, for examples. *)
Fixpoint dq_run (acts : list dq_action) s : option (dispatch_queue * list dq_event) :=
  match acts with
  | [] => Some (s, [])
  | a :: acts =>
      match dq_act a s with
      | None => None
      | Some (s, ev) =>
          match dq_run acts s with
          | None => None
          | Some (s, ev') => Some (s, ev ++ ev')
          end
      end
  end.
End dispatch_queue.
Arguments dispatch_queue : clear implicits.
Arguments dq_consumer : clear implicits.
Arguments dq_event : clear implicits.
Arguments dq_action : clear implicits.
