(* ===== verification/DispatchQueueProps.v ===== *)
(** * The batched dispatch queue: invariant

    The counter accounts for the values of the queue; and while it is above zero exactly
    one thread, or one task of the executor, is responsible for emptying the queue. *)
From stdpp Require Import base numbers list.
From Stdlib Require Import ZArith Lia.
From S2P Require Import Prelude.
From S2P Require Import DispatchQueue.

Set Default Goal Selector "!".
Open Scope Z_scope.
Open Scope ran_scope.

(** ** Sums over lists *)

Fixpoint sum_by {A} (f : A -> Z) (l : list A) : Z :=
  match l with [] => 0 | x :: l => f x + sum_by f l end.

Lemma sum_by_app {A} (f : A -> Z) l l' : sum_by f (l ++ l') = sum_by f l + sum_by f l'.
Proof. induction l as [|x l IH]; cbn in *; [done|]. lia. Qed.

Lemma sum_by_insert {A} (f : A -> Z) l i x y :
  l !! i = Some x -> sum_by f (<[i := y]> l) = sum_by f l - f x + f y.
Proof.
  revert i. induction l as [|z l IH]; intros [|i] E; try done.
  - injection E as ->. cbn. lia.
  - change (<[S i := y]> (z :: l)) with (z :: <[i := y]> l). cbn [sum_by]. rewrite (IH i E). lia.
Qed.

Lemma sum_by_delete {A} (f : A -> Z) l i x :
  l !! i = Some x -> sum_by f (delete i l) = sum_by f l - f x.
Proof.
  revert i. induction l as [|z l IH]; intros [|i] E; try done.
  - injection E as ->. cbn. lia.
  - change (delete (S i) (z :: l)) with (z :: delete i l). cbn [sum_by]. rewrite (IH i E). lia.
Qed.

Lemma sum_by_bound {A} (f g : A -> Z) c l :
  Forall (fun x => 0 <= f x <= c * g x) l -> 0 <= sum_by f l <= c * sum_by g l.
Proof. induction 1 as [|x l Hx _ IH]; cbn in *; lia. Qed.

Lemma Forall_delete_at {A} (P : A -> Prop) l i : Forall P l -> Forall P (delete i l).
Proof. intros H. rewrite delete_take_drop. apply Forall_app. split; [by apply Forall_take|by apply Forall_drop]. Qed.

Section dispatch_queue.
Context {V : Type}.
Variable capacity : Z.
Variable batch_max_size : Z.
Implicit Types s : dispatch_queue V.
Implicit Types c : dq_consumer V.
Implicit Types d : dq_drain.

Record dq_cfg_ok : Prop := {
  dc_capacity : 0 <= 2 * capacity < 2 ^ 32;
  dc_batch : 0 < batch_max_size < 2 ^ 32;
}.

(** ** The invariant *)

(** Values popped and still counted. *)
Definition drain_popped d : Z := match d with DrainLoad => 0 | DrainLoop _ run_count => run_count end.
Definition cons_popped c : Z :=
  match c with ConsPop run_count _ _ _ => run_count | ConsDrain d => drain_popped d | _ => 0 end.

(** Whether the thread has to go on until the counter is at zero. *)
Definition drain_token d : Z :=
  match d with DrainLoad => 1 | DrainLoop queue_size _ => if queue_size =? 0 then 0 else 1 end.
Definition cons_token c : Z :=
  match c with
  | ConsIdle => 0
  | ConsLoop queue_size _ | ConsCallback queue_size _ _ _ => if queue_size =? 0 then 0 else 1
  | ConsStart | ConsPop _ _ _ _ | ConsDispatch => 1
  | ConsDrain d => drain_token d
  end.

Definition dq_popped s : Z := cons_popped (dq_cons s) + sum_by drain_popped (dq_draining s).
Definition dq_tokens s : Z :=
  Z.of_nat (dq_tasks s) + Z.of_nat (dq_dispatching s) + cons_token (dq_cons s) + sum_by drain_token (dq_draining s).

(** What a thread knows of the counter. *)
Definition drain_ok (job_count : Z) d : Prop :=
  match d with
  | DrainLoad => True
  | DrainLoop queue_size run_count => 0 <= run_count <= queue_size /\ queue_size <= job_count /\ queue_size <= capacity
  end.
Definition cons_ok (job_count : Z) c : Prop :=
  match c with
  | ConsIdle | ConsStart | ConsDispatch => True
  | ConsLoop queue_size max_pops =>
      0 <= queue_size <= job_count /\ queue_size <= capacity /\ 0 <= max_pops < 2 ^ 32 /\ (0 < queue_size -> 0 < max_pops)
  | ConsPop run_count max_count max_pops batched_values =>
      run_count = zlen batched_values /\ 0 <= run_count <= max_count /\ 0 < max_count <= max_pops /\
      max_pops < 2 ^ 32 /\ max_count <= job_count /\ max_count <= capacity
  | ConsCallback queue_size run_count max_pops batched_values =>
      run_count = zlen batched_values /\ 0 < run_count <= max_pops /\ max_pops < 2 ^ 32 /\
      0 <= queue_size <= job_count /\ queue_size <= capacity
  | ConsDrain d => drain_ok job_count d
  end.

Record dq_inv s : Prop := {
  di_account : dq_job_count s = zlen (dq_queue s) + dq_popped s - Z.of_nat (dq_counting s);
  di_positive : 0 <= dq_job_count s;
  di_queue : zlen (dq_queue s) <= capacity;
  di_token : dq_tokens s = if dq_job_count s =? 0 then 0 else 1;
  di_cons : cons_ok (dq_job_count s) (dq_cons s);
  di_draining : Forall (drain_ok (dq_job_count s)) (dq_draining s);
}.

Hypothesis Hcfg : dq_cfg_ok.

Lemma dq_new_inv : dq_inv (@dq_new V).
Proof. destruct Hcfg. split; cbn; try done; change (zlen (@nil V)) with 0; lia. Qed.

Lemma drain_token_range d : 0 <= drain_token d <= 1.
Proof. destruct d; cbn; [lia|]. case_if; lia. Qed.
Lemma cons_token_range c : 0 <= cons_token c <= 1.
Proof. destruct c; cbn; try apply drain_token_range; try case_if; lia. Qed.

Lemma drain_popped_bound jc d : drain_ok jc d -> 0 <= drain_popped d <= capacity * drain_token d.
Proof. destruct Hcfg. destruct d; cbn; [lia|]. intros. case_if; lia. Qed.
Lemma cons_popped_bound jc c : cons_ok jc c -> 0 <= cons_popped c <= capacity * cons_token c.
Proof.
  destruct Hcfg. destruct c; cbn; try (case_if; lia); try lia. apply drain_popped_bound.
Qed.

(** A thread without a token knows nothing that a lower counter could break. *)
Lemma drain_ok_lower jc jc' d : drain_ok jc d -> 0 <= jc' -> drain_token d = 0 -> drain_ok jc' d.
Proof. destruct d; cbn; [done|]. case_if; lia. Qed.
Lemma cons_ok_lower jc jc' c : cons_ok jc c -> 0 <= jc' -> cons_token c = 0 -> cons_ok jc' c.
Proof. destruct c; cbn; try done; try (case_if; lia); try lia. apply drain_ok_lower. Qed.
Lemma drain_ok_higher jc jc' d : drain_ok jc d -> jc <= jc' -> drain_ok jc' d.
Proof. destruct d; cbn; lia. Qed.
Lemma cons_ok_higher jc jc' c : cons_ok jc c -> jc <= jc' -> cons_ok jc' c.
Proof. destruct c; cbn; try lia. apply drain_ok_higher. Qed.

Lemma draining_popped s : dq_inv s -> 0 <= sum_by drain_popped (dq_draining s) <= capacity * sum_by drain_token (dq_draining s).
Proof.
  intros Hi. apply sum_by_bound. eapply Forall_impl; [apply (di_draining _ Hi)|]. intros d. apply drain_popped_bound.
Qed.

Lemma draining_tokens l : 0 <= sum_by drain_token l.
Proof. induction l as [|d l IH]; cbn in *; [done|]. pose proof (drain_token_range d). lia. Qed.

(** The counter does not wrap. *)
Lemma dq_job_count_bound s : dq_inv s -> dq_job_count s + Z.of_nat (dq_counting s) <= 2 * capacity.
Proof.
  intros Hi. destruct Hcfg. pose proof (di_account _ Hi). pose proof (di_queue _ Hi). pose proof (di_token _ Hi) as Ht.
  pose proof (cons_popped_bound _ _ (di_cons _ Hi)). pose proof (draining_popped s Hi). unfold dq_popped, dq_tokens in *.
  pose proof (cons_token_range (dq_cons s)). pose proof (draining_tokens (dq_draining s)).
  assert (cons_token (dq_cons s) + sum_by drain_token (dq_draining s) <= 1) by (destruct (_ =? 0); lia). nia.
Qed.

(** ** Draining *)

(** What a step of a draining thread does to the account and the tokens, given those of
    the other threads. *)
Definition drain_rel (jc : Z) (q : list V) (counting popped tokens : Z) (token own : Z) : Prop :=
  jc = zlen q + (own + popped) - counting /\ 0 <= jc /\ token + tokens = (if jc =? 0 then 0 else 1).

Lemma dq_drain_step_ok d s popped tokens :
  drain_rel (dq_job_count s) (dq_queue s) (Z.of_nat (dq_counting s)) popped tokens (drain_token d) (drain_popped d) ->
  0 <= popped <= capacity * tokens -> 0 <= tokens -> zlen (dq_queue s) <= capacity -> drain_ok (dq_job_count s) d ->
  exists r s' ev, dq_drain_step d s = (r, s', ev) /\
    s' = s <| dq_queue := dq_queue s' |> <| dq_job_count := dq_job_count s' |> /\
    drain_rel (dq_job_count s') (dq_queue s') (Z.of_nat (dq_counting s)) popped tokens
      (match r with Some d' => drain_token d' | None => 0 end) (match r with Some d' => drain_popped d' | None => 0 end) /\
    (forall d2, r = Some d2 -> drain_ok (dq_job_count s') d2) /\ zlen (dq_queue s') <= capacity /\
    dq_job_count s' <= dq_job_count s /\ (dq_job_count s' < dq_job_count s -> tokens = 0).
Proof.
  intros (Ha & H0 & Ht) Hp Htk Hq Hd. destruct Hcfg. destruct s as [q jc st tk cn dp dr co]. cbn in Ha, H0, Ht, Hq, Hd |- *.
  destruct d as [|qs run]; cbn in *.
  - eexists _, _, _. split; [done|]. cbn. assert (jc <> 0 /\ tokens = 0) as [Hn ->] by (destruct (jc =? 0) eqn:E; zbool; lia).
    unfold drain_rel. cbn. destruct (jc =? 0) eqn:E; zbool; [done|]. split_and!; try done; try lia. intros d2 [= <-]. cbn. lia.
  - destruct (qs =? 0) eqn:Eq; zbool.
    + eexists _, _, _. split; [done|]. cbn. unfold drain_rel. assert (run = 0) as -> by lia. split_and!; try done; lia.
    + assert (jc <> 0 /\ tokens = 0) as [Hn ->] by (destruct (jc =? 0) eqn:E; zbool; lia).
      destruct (run =? qs) eqn:Er; zbool.
      * eexists _, _, _. split; [done|]. cbn. unfold wrap. rewrite Z.mod_small by lia. unfold drain_rel.
        rewrite (proj2 (Z.eqb_neq jc 0) Hn) in Ht. split_and!; try done; try lia.
        intros d2 [= <-]. cbn. lia.
      * destruct q as [|v q]; [change (zlen (@nil V)) with 0 in *; lia|]. rewrite zlen_cons in *.
        eexists _, _, _. split; [done|]. cbn. unfold drain_rel. rewrite (proj2 (Z.eqb_neq jc 0) Hn), (proj2 (Z.eqb_neq qs 0) Eq) in *. cbn.
        split_and!; try done; try lia. intros d2 [= <-]. cbn. lia.
Qed.

(** ** Every step but the stop *)

Lemma draining_lower jc jc' l :
  Forall (drain_ok jc) l -> 0 <= jc' <= jc -> (jc' < jc -> sum_by drain_token l = 0) -> Forall (drain_ok jc') l.
Proof.
  intros Hl Hj Ht. destruct (decide (jc' = jc)) as [->|Hne]; [done|]. specialize (Ht ltac:(lia)).
  induction Hl as [|d l Hd _ IH]; [apply Forall_nil_2|]. cbn in Ht. pose proof (drain_token_range d). pose proof (draining_tokens l).
  apply Forall_cons. split; [by apply (drain_ok_lower jc); [|lia|lia]|]. apply IH. lia.
Qed.

Lemma cons_lower jc jc' c :
  cons_ok jc c -> 0 <= jc' <= jc -> (jc' < jc -> cons_token c = 0) -> cons_ok jc' c.
Proof.
  intros Hc Hj Ht. destruct (decide (jc' = jc)) as [->|Hne]; [done|]. apply (cons_ok_lower jc); [done|lia|]. apply Ht. lia.
Qed.

Lemma draining_higher jc jc' l : Forall (drain_ok jc) l -> jc <= jc' -> Forall (drain_ok jc') l.
Proof. intros Hl Hj. eapply Forall_impl; [exact Hl|]. intros d Hd. by apply (drain_ok_higher jc). Qed.

Lemma dq_push_inv v s s' ev : dq_inv s -> dq_push capacity v s = (s', ev) -> dq_inv s' /\ dq_stopped s' = dq_stopped s.
Proof.
  intros [Ha H0 Hq Ht Hc Hd] E. unfold dq_push in E. destruct s as [q jc st tk cn dp dr co]. cbn in *.
  destruct (capacity <=? zlen q) eqn:El; zbool; injection E as <- <-; [by split|]. split; [|done].
  split; unfold dq_tokens, dq_popped in *; cbn in *; try done; rewrite ?zlen_app; change (zlen [v]) with 1; lia.
Qed.

Lemma dq_count_inv s s' ev : dq_inv s -> dq_count s = Some (s', ev) -> dq_inv s' /\ dq_stopped s' = dq_stopped s.
Proof.
  intros Hi E. pose proof (dq_job_count_bound s Hi) as Hb. destruct Hi as [Ha H0 Hq Ht Hc Hd]. destruct Hcfg.
  unfold dq_count in E. destruct s as [q jc st tk cn dp dr co]. unfold dq_tokens, dq_popped in *. cbn in *.
  destruct cn as [|cn]; [done|]. unfold field_update in E. cbn in E. unfold wrap in E.
  rewrite Z.mod_small in E by lia. injection E as <- <-. split; [|by destruct (jc =? 0)].
  assert (cons_ok (jc + 1) co) as Hc' by (apply (cons_ok_higher jc); [done|lia]).
  assert (Forall (drain_ok (jc + 1)) dr) as Hd' by (apply (draining_higher jc); [done|lia]).
  destruct (jc =? 0) eqn:Ej; zbool; split; unfold dq_tokens, dq_popped; cbn; try done; try lia;
    rewrite (proj2 (Z.eqb_neq (jc + 1) 0)) by lia; lia.
Qed.

Lemma dq_dispatch_inv b s s' ev : dq_inv s -> dq_dispatch b s = Some (s', ev) -> dq_inv s' /\ dq_stopped s' = dq_stopped s.
Proof.
  intros [Ha H0 Hq Ht Hc Hd] E. unfold dq_dispatch in E. destruct s as [q jc st tk cn dp dr co]. unfold dq_tokens, dq_popped in *. cbn in *.
  destruct dp as [|dp]; [done|]. injection E as <- <-. split; [|by destruct b].
  destruct b; split; unfold dq_tokens, dq_popped; cbn; rewrite ?sum_by_app; cbn; try done; try lia.
  apply Forall_app. split; [done|by apply Forall_singleton].
Qed.

Lemma dq_drain_producer_inv i s s' ev :
  dq_inv s -> dq_drain_producer i s = Some (s', ev) -> dq_inv s' /\ dq_stopped s' = dq_stopped s.
Proof.
  intros [Ha H0 Hq Ht Hc Hd] E. unfold dq_drain_producer in E. destruct (dq_draining s !! i) as [d|] eqn:Ei; [|done].
  apply list_elem_of_split_length in Ei as (l1 & l2 & El & ->).
  unfold dq_tokens, dq_popped in *. rewrite El, !sum_by_app in *. cbn [sum_by] in *.
  apply Forall_app in Hd as [Hd1 [Hd Hd2]%Forall_cons].
  pose proof (draining_tokens l1). pose proof (draining_tokens l2). pose proof (cons_token_range (dq_cons s)).
  assert (forall l, Forall (drain_ok (dq_job_count s)) l -> 0 <= sum_by drain_popped l <= capacity * sum_by drain_token l) as Hb.
  { intros l Hl. apply sum_by_bound. eapply Forall_impl; [exact Hl|]. intros x. apply drain_popped_bound. }
  pose proof (Hb l1 Hd1). pose proof (Hb l2 Hd2). pose proof (cons_popped_bound _ _ Hc).
  assert (0 <= capacity * (Z.of_nat (dq_tasks s) + Z.of_nat (dq_dispatching s))) by (destruct Hcfg; apply Z.mul_nonneg_nonneg; lia).
  destruct (dq_drain_step_ok d s (cons_popped (dq_cons s) + sum_by drain_popped l1 + sum_by drain_popped l2)
    (Z.of_nat (dq_tasks s) + Z.of_nat (dq_dispatching s) + cons_token (dq_cons s) + sum_by drain_token l1 + sum_by drain_token l2))
    as (r & s1 & ev1 & Es & Es1 & (Ha' & H0' & Ht') & Hr & Hq' & Hj & Hj0);
    [unfold drain_rel; split; [lia|split; [done|rewrite <- Ht; ring]]|rewrite !Z.mul_add_distr_l in *; lia|lia|done|done|].
  rewrite Es in E. rewrite Es1 in E. destruct s as [q jc st tk cn dp dr co]. unfold field_update in E. cbn in *. subst dr.
  assert (cons_ok (dq_job_count s1) co) as Hc' by (apply (cons_lower jc); [done|lia|lia]).
  assert (Forall (drain_ok (dq_job_count s1)) l1) as Hd1' by (apply (draining_lower jc); [done|lia|lia]).
  assert (Forall (drain_ok (dq_job_count s1)) l2) as Hd2' by (apply (draining_lower jc); [done|lia|lia]).
  injection E as <- <-. split; [|by destruct r].
  destruct r as [d'|]; cbn in *.
  - rewrite insert_app_r_alt, Nat.sub_diag by lia. cbn.
    split; unfold dq_tokens, dq_popped; cbn; rewrite ?sum_by_app; cbn; try done; try lia.
    apply Forall_app. split; [done|]. apply Forall_cons. split; [by apply Hr|done].
  - rewrite delete_middle. split; unfold dq_tokens, dq_popped; cbn; rewrite ?sum_by_app; try done; try lia.
    by apply Forall_app.
Qed.

Lemma dq_task_inv s s' ev : dq_inv s -> dq_task s = Some (s', ev) -> dq_stopped s = false -> dq_inv s' /\ dq_stopped s' = false.
Proof.
  intros [Ha H0 Hq Ht Hc Hd] E Hst. unfold dq_task in E. destruct s as [q jc st tk cn dp dr co]. unfold dq_tokens, dq_popped in *. cbn in *.
  destruct co; try done. destruct tk as [|tk]; [done|]. injection E as <- <-. rewrite Hst. split; [|done].
  cbn in *. split; unfold dq_tokens, dq_popped; cbn; try done; lia.
Qed.

Lemma dq_consume_inv b s s' ev : dq_inv s -> dq_consume batch_max_size b s = Some (s', ev) -> dq_inv s' /\ dq_stopped s' = dq_stopped s.
Proof.
  intros Hi E. destruct Hcfg as [Hcap Hbatch]. pose proof (draining_popped s Hi) as Hdp. destruct Hi as [Ha H0 Hq Ht Hc Hd].
  pose proof (draining_tokens (dq_draining s)) as Hdt.
  assert (forall jc', 0 <= jc' <= dq_job_count s -> (jc' < dq_job_count s -> sum_by drain_token (dq_draining s) = 0) ->
    Forall (drain_ok jc') (dq_draining s)) as Hlow by (intros jc' ? ?; by apply (draining_lower (dq_job_count s))).
  unfold dq_consume in E. destruct s as [q jc st tk cn dp dr co]. unfold dq_tokens, dq_popped in *. cbn in *.
  destruct co as [| |qs mp|run mc mp batch|qs run mp batch| |d]; [done| | | | | |]; cbn in Ha, Ht, Hc.
  - (* the start of a task *)
    assert (jc <> 0) as Hn by (intros ->; cbn in Ht; lia). rewrite (proj2 (Z.eqb_neq jc 0) Hn) in Ht.
    assert (sum_by drain_token dr = 0) as Hz by lia. rewrite Hz in Hdp.
    injection E as <- <-. split; [|done]. split; unfold dq_tokens, dq_popped; cbn; try done; lia.
  - (* the head of the loop *)
    destruct (0 <? qs) eqn:Eq; zbool; injection E as <- <-; (split; [|done]).
    + rewrite (proj2 (Z.eqb_neq qs 0)) in Ht by lia. split; unfold dq_tokens, dq_popped; cbn; try done; try lia.
      change (zlen (@nil V)) with 0. lia.
    + assert (qs = 0) as -> by lia. cbn in Ht. split; unfold dq_tokens, dq_popped; cbn; try done; lia.
  - assert (jc <> 0 /\ sum_by drain_token dr = 0 /\ tk = 0%nat /\ dp = 0%nat) as (Hn & Hz & -> & ->) by (destruct (jc =? 0) eqn:E0; zbool; lia).
    rewrite (proj2 (Z.eqb_neq jc 0) Hn) in Ht. rewrite Hz in Hdp. destruct (run =? mc) eqn:Er; zbool.
    + (* the counter is lowered *)
      unfold wrap in E. rewrite Z.mod_small in E by lia. injection E as <- <-. split; [|done].
      split; unfold dq_tokens, dq_popped; cbn; try lia; try (rewrite Hz; destruct (jc - run =? 0); lia).
      apply Hlow; lia.
    + (* a value is popped *)
      destruct q as [|v q]; [change (zlen (@nil V)) with 0 in *; lia|]. rewrite zlen_cons in *.
      injection E as <- <-. split; [|done].
      split; unfold dq_tokens, dq_popped; cbn; rewrite ?zlen_app; try done; try lia; try (rewrite (proj2 (Z.eqb_neq jc 0) Hn); lia).
      change (zlen [v]) with 1. lia.
  - (* after the callback *)
    unfold wrap in E. rewrite (Z.mod_small (mp - run)) in E by lia.
    destruct ((0 <? qs) && (mp - run =? 0)) eqn:Eq; zbool; injection E as <- <-; (split; [|done]).
    + rewrite (proj2 (Z.eqb_neq qs 0)) in Ht by lia. split; unfold dq_tokens, dq_popped; cbn; try done; lia.
    + split; unfold dq_tokens, dq_popped; cbn; try done; lia.
  - destruct b; injection E as <- <-; (split; [|done]); split; unfold dq_tokens, dq_popped; cbn; try done; lia.
  - destruct (dq_drain_step_ok d (mk_dispatch_queue q jc st tk cn dp dr (ConsDrain d)) (sum_by drain_popped dr)
      (Z.of_nat tk + Z.of_nat dp + sum_by drain_token dr))
      as (r & s1 & ev1 & Es & Es1 & (Ha' & H0' & Ht') & Hr & Hq' & Hj & Hj0);
      [unfold drain_rel; split; [done|split; [done|cbn [dq_job_count]; rewrite <- Ht; ring]]| |lia|done|done|].
    { assert (0 <= capacity * (Z.of_nat tk + Z.of_nat dp)) by (apply Z.mul_nonneg_nonneg; lia).
      rewrite !Z.mul_add_distr_l in *. lia. }
    rewrite Es in E. injection E as <- <-. rewrite Es1. cbn in *. split; [|done].
    assert (Forall (drain_ok (dq_job_count s1)) dr) as Hd' by (apply Hlow; lia).
    destruct r as [d'|]; split; unfold dq_tokens, dq_popped; cbn in *; try done; try (rewrite <- Ht'; ring); try lia.
    by apply Hr.
Qed.

Lemma dq_act_inv a s s' ev :
  dq_inv s -> dq_stopped s = false -> a <> DqStop -> dq_act capacity batch_max_size a s = Some (s', ev) ->
  dq_inv s' /\ dq_stopped s' = false.
Proof.
  intros Hi Hst Ha E. destruct a as [v| |b|i| |b|]; cbn [dq_act] in E; [| | | | | |done].
  - rewrite Hst in E. injection E as E. rewrite <- Hst. by apply (dq_push_inv v s s' ev).
  - rewrite <- Hst. by apply (dq_count_inv s s' ev).
  - rewrite <- Hst. by apply (dq_dispatch_inv b s s' ev).
  - rewrite <- Hst. by apply (dq_drain_producer_inv i s s' ev).
  - by apply (dq_task_inv s s' ev).
  - rewrite <- Hst. by apply (dq_consume_inv b s s' ev).
Qed.

Lemma dq_exec_inv s acts ev s' :
  dq_exec capacity batch_max_size s acts ev s' -> dq_inv s -> dq_stopped s = false -> DqStop ∉ acts -> dq_inv s' /\ dq_stopped s' = false.
Proof.
  induction 1 as [s|s1 acts ev1 s2 a ev2 s3 _ IH E]; intros Hi Hst Hn; [done|].
  destruct (IH Hi Hst) as [Hi2 Hst2]; [intros Hin; apply Hn, elem_of_app; by left|].
  apply (dq_act_inv a s2 s3 ev2); try done. intros ->. apply Hn, elem_of_app. right. by apply list_elem_of_singleton.
Qed.
End dispatch_queue.
