(* ===== verification/DispatchQueueRuns.v ===== *)
(** * The batched dispatch queue: executions

    No wake-up is lost, values are handed on once and in order, and when the executor
    takes the tasks every value is handed on. *)
From stdpp Require Import base numbers list.
From Stdlib Require Import ZArith Lia.
From S2P Require Import Prelude.
From S2P Require Import DispatchQueue.
From S2P Require Import DispatchQueueProps.

Set Default Goal Selector "!".
Open Scope Z_scope.
Open Scope ran_scope.

Section dispatch_queue.
Context {V : Type}.
Variable capacity : Z.
Variable batch_max_size : Z.
Implicit Types s : dispatch_queue V.
Implicit Types v : V.
Implicit Types ev : list (dq_event V).
Implicit Types a : dq_action V.

(** ** What happened to the values *)

Definition dq_pushed ev : list V := omap (fun e => match e with DqPushed v => Some v | _ => None end) ev.
Definition dq_dropped ev : list V := omap (fun e => match e with DqDropped v => Some v | _ => None end) ev.
Definition dq_delivered ev : list V := flat_map (fun e => match e with DqCallback values => values | _ => [] end) ev.

(** The values popped and not yet handed on. *)
Definition dq_held s : list V :=
  match dq_cons s with
  | ConsPop _ _ _ batched_values | ConsCallback _ _ _ batched_values => batched_values
  | _ => []
  end.

Lemma dq_pushed_app ev ev' : dq_pushed (ev ++ ev') = dq_pushed ev ++ dq_pushed ev'.
Proof. apply omap_app. Qed.
Lemma dq_dropped_app ev ev' : dq_dropped (ev ++ ev') = dq_dropped ev ++ dq_dropped ev'.
Proof. apply omap_app. Qed.
Lemma dq_delivered_app ev ev' : dq_delivered (ev ++ ev') = dq_delivered ev ++ dq_delivered ev'.
Proof. apply flat_map_app. Qed.

(** One step: nothing is lost, and the values not dropped keep their order. *)
Definition dq_moves s ev s' : Prop :=
  dq_held s ++ dq_queue s ++ dq_pushed ev ≡ₚ dq_delivered ev ++ dq_dropped ev ++ dq_held s' ++ dq_queue s' /\
  dq_delivered ev ++ dq_held s' ++ dq_queue s' `sublist_of` dq_held s ++ dq_queue s ++ dq_pushed ev.

Lemma dq_moves_same s s' :
  dq_held s' = dq_held s -> dq_queue s' = dq_queue s -> dq_moves s [] s'.
Proof. intros E1 E2. unfold dq_moves. cbn. rewrite E1, E2, !app_nil_r. by split. Qed.

Lemma dq_moves_drop s s' d r ev :
  dq_drain_step d s = (r, s', ev) -> dq_held s' = dq_held s ->
  dq_moves s ev s'.
Proof.
  intros E Eh. unfold dq_drain_step in E. destruct d as [|qs run]; [injection E as <- <- <-; by apply dq_moves_same|].
  destruct (qs =? 0); [injection E as <- <- <-; by apply dq_moves_same|].
  destruct (run =? qs); [injection E as <- <- <-; by apply dq_moves_same|].
  destruct (dq_queue s) as [|v q] eqn:Eq; injection E as <- <- <-; [by apply dq_moves_same; cbn; rewrite ?Eq|].
  unfold dq_moves. rewrite Eh, Eq. cbn. rewrite app_nil_r. split; [solve_Permutation|].
  apply sublist_app; [done|]. by apply sublist_cons.
Qed.

Lemma dq_moves_frame s s1 s' ev :
  dq_moves s ev s1 -> dq_held s' = dq_held s1 -> dq_queue s' = dq_queue s1 -> dq_moves s ev s'.
Proof. unfold dq_moves. by intros H -> ->. Qed.

Lemma dq_drain_step_cons d s r s' ev : dq_drain_step d s = (r, s', ev) -> dq_cons s' = dq_cons s.
Proof.
  unfold dq_drain_step. intros E. destruct d as [|qs run]; [by injection E as <- <- <-|].
  destruct (qs =? 0); [by injection E as <- <- <-|]. destruct (run =? qs); [by injection E as <- <- <-|].
  destruct (dq_queue s); by injection E as <- <- <-.
Qed.

Lemma dq_act_moves a s s' ev : dq_act capacity batch_max_size a s = Some (s', ev) -> dq_moves s ev s'.
Proof.
  destruct a as [v| |b|i| |b|]; cbn [dq_act]; intros E.
  - destruct (dq_stopped s); [done|]. unfold dq_push in E. destruct (_ <=? _); injection E as <- <-; [by apply dq_moves_same|].
    unfold dq_moves. cbn. by rewrite !app_assoc.
  - unfold dq_count in E. destruct (dq_counting s); [done|]. injection E as <- <-. destruct (_ =? 0); by apply dq_moves_same.
  - unfold dq_dispatch in E. destruct (dq_dispatching s); [done|]. injection E as <- <-. destruct b; by apply dq_moves_same.
  - unfold dq_drain_producer in E. destruct (_ !! _) as [d|]; [|done]. destruct (dq_drain_step d s) as [[r s1] ev1] eqn:Ed.
    injection E as <- <-. pose proof (dq_drain_step_cons _ _ _ _ _ Ed) as Ec. assert (dq_held s1 = dq_held s) as Eh by (unfold dq_held; by rewrite Ec).
    eapply dq_moves_frame; [by eapply dq_moves_drop|by destruct r|by destruct r].
  - unfold dq_task in E. destruct (dq_cons s) eqn:Ec; try done. destruct (dq_tasks s); [done|]. injection E as <- <-.
    destruct (dq_stopped s); apply dq_moves_same; try done; unfold dq_held; cbn; by rewrite Ec.
  - unfold dq_consume in E. destruct (dq_cons s) as [| |qs mp|run mc mp batch|qs run mp batch| |d] eqn:Ec; [done| | | | | |].
    + injection E as <- <-. apply dq_moves_same; [|done]. unfold dq_held. cbn. by rewrite Ec.
    + injection E as <- <-. apply dq_moves_same; [|done]. unfold dq_held. cbn. rewrite Ec. by destruct (0 <? qs).
    + destruct (run =? mc); [injection E as <- <-; apply dq_moves_same; [|done]; unfold dq_held; cbn; by rewrite Ec|].
      destruct (dq_queue s) as [|v q] eqn:Eq; injection E as <- <-.
      * apply dq_moves_same; [|by cbn; rewrite Eq]. unfold dq_held; cbn; by rewrite Ec.
      * unfold dq_moves, dq_held. rewrite Ec, Eq. cbn. rewrite !app_nil_r, <- app_assoc. by cbn.
    + injection E as <- <-. unfold dq_moves, dq_held. rewrite Ec. cbn. rewrite !app_nil_r. destruct (_ && _); cbn; by split.
    + injection E as <- <-. apply dq_moves_same; unfold dq_held; rewrite ?Ec; by destruct b.
    + destruct (dq_drain_step d s) as [[r s1] ev1] eqn:Ed. injection E as <- <-. pose proof (dq_drain_step_cons _ _ _ _ _ Ed) as Ec1.
      assert (dq_held s1 = dq_held s) as Eh by (unfold dq_held; by rewrite Ec1).
      eapply dq_moves_frame; [by eapply dq_moves_drop| |done]. rewrite Eh. unfold dq_held. rewrite Ec. by destruct r.
  - unfold dq_stop in E. destruct (dq_cons s) eqn:Ec; try done. injection E as <- <-.
    destruct (dq_stopped s); apply dq_moves_same; try done; unfold dq_held; cbn; by rewrite Ec.
Qed.

(** Only the pushes push. *)
Lemma dq_act_pushed a s s' ev :
  (forall v, a <> DqPush v) -> dq_act capacity batch_max_size a s = Some (s', ev) -> dq_pushed ev = [].
Proof.
  assert (forall d s1 r s2 ev1, dq_drain_step d s1 = (r, s2, ev1) -> dq_pushed ev1 = []) as Hdrain.
  { intros d s1 r s2 ev1 E. unfold dq_drain_step in E. destruct d as [|qs run]; [by injection E as <- <- <-|].
    destruct (qs =? 0); [by injection E as <- <- <-|]. destruct (run =? qs); [by injection E as <- <- <-|].
    destruct (dq_queue s1); by injection E as <- <- <-. }
  intros Hn E. destruct a as [v| |b|i| |b|]; cbn [dq_act] in E; [by destruct (Hn v)| | | | | |].
  - unfold dq_count in E. destruct (dq_counting s); [done|]. by injection E as <- <-.
  - unfold dq_dispatch in E. destruct (dq_dispatching s); [done|]. by injection E as <- <-.
  - unfold dq_drain_producer in E. destruct (_ !! _) as [d|]; [|done]. destruct (dq_drain_step d s) as [[r s1] ev1] eqn:Ed.
    injection E as <- <-. by eapply Hdrain.
  - unfold dq_task in E. destruct (dq_cons s), (dq_tasks s); try done; by injection E as <- <-.
  - unfold dq_consume in E. destruct (dq_cons s) as [| |qs mp|run mc mp batch|qs run mp batch| |d]; [done| | | | | |].
    + by injection E as <- <-.
    + by injection E as <- <-.
    + destruct (run =? mc); [by injection E as <- <-|]. destruct (dq_queue s); by injection E as <- <-.
    + by injection E as <- <-.
    + by injection E as <- <-.
    + destruct (dq_drain_step d s) as [[r s1] ev1] eqn:Ed. injection E as <- <-. by eapply Hdrain.
  - unfold dq_stop in E. destruct (dq_cons s); try done. by injection E as <- <-.
Qed.

Lemma dq_exec_moves acts ev s :
  dq_exec capacity batch_max_size dq_new acts ev s ->
  dq_pushed ev ≡ₚ dq_delivered ev ++ dq_dropped ev ++ dq_held s ++ dq_queue s /\
  dq_delivered ev ++ dq_held s ++ dq_queue s `sublist_of` dq_pushed ev.
Proof.
  remember dq_new as s0 eqn:E0. induction 1 as [s|s1 acts ev1 s2 a ev2 s3 _ IH E]; subst; [done|].
  destruct (IH eq_refl) as [IHp IHs]. destruct (dq_act_moves _ _ _ _ E) as [Hp Hs].
  rewrite dq_pushed_app, dq_dropped_app, dq_delivered_app. split.
  - rewrite IHp. rewrite <- !app_assoc. apply Permutation_app_head.
    transitivity (dq_dropped ev1 ++ (dq_held s2 ++ dq_queue s2 ++ dq_pushed ev2)); [done|]. rewrite Hp. solve_Permutation.
  - etransitivity; [|by apply sublist_app]. rewrite <- !app_assoc. by apply sublist_app.
Qed.

(** ** When the executor takes every task *)

Definition dq_calm a : bool :=
  match a with DqDispatch deferred | DqConsume deferred => deferred | DqStop => false | _ => true end.

(** The steps that are already under way: all but new pushes. *)
Definition dq_internal a : bool := match a with DqPush _ => false | _ => dq_calm a end.

Record dq_calm_inv s : Prop := {
  ci_draining : dq_draining s = [];
  ci_cons : forall d, dq_cons s <> ConsDrain d;
}.

Lemma dq_calm_step a s s' ev :
  dq_calm_inv s -> dq_calm a = true -> dq_act capacity batch_max_size a s = Some (s', ev) ->
  dq_calm_inv s' /\ dq_dropped ev = [].
Proof.
  intros [Hd Hc] Ha E. destruct s as [q jc st tk cn dp dr co]. cbn in *. subst dr.
  destruct a as [v| |b|i| |b|]; cbn in *; try (subst b); try done.
  - destruct st; [done|]. unfold dq_push in E. cbn in E. destruct (_ <=? _); injection E as <- <-; by split.
  - unfold dq_count in E. cbn in E. destruct cn; [done|]. injection E as <- <-. unfold field_update. cbn. destruct (jc =? 0); by split.
  - unfold dq_dispatch in E. cbn in E. destruct dp; [done|]. injection E as <- <-. by split.
  - unfold dq_task in E. cbn in E. destruct co; try done. destruct tk; [done|]. injection E as <- <-. destruct st; by split.
  - unfold dq_consume in E. cbn in E. destruct co as [| |qs mp|run mc mp batch|qs run mp batch| |d]; try done.
    + injection E as <- <-. by split.
    + injection E as <- <-. destruct (0 <? qs); by split.
    + destruct (run =? mc); [injection E as <- <-; by split|]. destruct q; injection E as <- <-; by split.
    + injection E as <- <-. destruct (_ && _); by split.
    + injection E as <- <-. by split.
    + by destruct (Hc d).
Qed.

Lemma dq_calm_exec s acts ev s' :
  dq_exec capacity batch_max_size s acts ev s' -> dq_calm_inv s -> Forall (fun a => dq_calm a = true) acts ->
  dq_calm_inv s' /\ dq_dropped ev = [].
Proof.
  induction 1 as [s|s1 acts ev1 s2 a ev2 s3 _ IH E]; intros Hi Ha; [done|].
  apply Forall_app in Ha as [Ha1 [Ha2 _]%Forall_cons]. destruct (IH Hi Ha1) as [Hi2 Hd1].
  destruct (dq_calm_step a s2 s3 ev2 Hi2 Ha2 E) as [Hi3 Hd2]. split; [done|]. by rewrite dq_dropped_app, Hd1, Hd2.
Qed.

(** ** Progress *)

(** How many steps are left at most. *)
Definition dq_measure s : Z :=
  7 * Z.of_nat (dq_counting s) + 20 * zlen (dq_queue s) + 6 * Z.of_nat (dq_dispatching s) + 5 * Z.of_nat (dq_tasks s) +
  match dq_cons s with
  | ConsIdle => 0
  | ConsStart => 4
  | ConsLoop _ _ => 3
  | ConsPop _ _ _ [] => 2
  | ConsPop _ _ _ _ => 10
  | ConsCallback _ _ _ _ => 8
  | ConsDispatch => 6
  | ConsDrain _ => 0
  end.

Lemma dq_measure_nonneg s : 0 <= dq_measure s.
Proof. unfold dq_measure. pose proof (zlen_nonneg (dq_queue s)). destruct (dq_cons s); try case_match; lia. Qed.

Lemma dq_measure_step a s s' ev :
  dq_inv capacity s -> dq_stopped s = false -> dq_calm_inv s -> dq_internal a = true ->
  dq_act capacity batch_max_size a s = Some (s', ev) -> dq_measure s' < dq_measure s.
Proof.
  intros Hi Hst [Hd Hc] Ha E. pose proof (di_cons _ _ Hi) as Hco. pose proof (di_account _ _ Hi) as Hac. unfold dq_popped in Hac. destruct s as [q jc st tk cn dp dr co]. unfold dq_measure. cbn in *. subst dr st.
  destruct a as [v| |b|i| |b|]; cbn in *; try (subst b); try done.
  - unfold dq_count in E. cbn in E. destruct cn; [done|]. injection E as <- <-. unfold field_update. cbn [dq_job_count].
    destruct (jc =? 0); cbn [dq_counting dq_queue dq_dispatching dq_tasks dq_cons]; lia.
  - unfold dq_dispatch in E. cbn in E. destruct dp; [done|]. injection E as <- <-.
    unfold field_update. cbn [dq_counting dq_queue dq_dispatching dq_tasks dq_cons]. lia.
  - unfold dq_task in E. cbn in E. destruct co; try done. destruct tk; [done|]. injection E as <- <-.
    unfold field_update. cbn [dq_counting dq_queue dq_dispatching dq_tasks dq_cons]. lia.
  - unfold dq_consume in E. cbn in E. destruct co as [| |qs mp|run mc mp batch|qs run mp batch| |d]; try done.
    + injection E as <- <-. unfold field_update. cbn [dq_counting dq_queue dq_dispatching dq_tasks dq_cons]. lia.
    + injection E as <- <-. unfold field_update. cbn [dq_counting dq_queue dq_dispatching dq_tasks dq_cons]. destruct (0 <? qs); lia.
    + cbn in Hco. destruct (run =? mc) eqn:Er; zbool.
      * injection E as <- <-. unfold field_update. cbn [dq_counting dq_queue dq_dispatching dq_tasks dq_cons].
        destruct batch; [change (zlen (@nil V)) with 0 in *; lia|lia].
      * destruct q as [|v q]; injection E as <- <-; unfold field_update; cbn [dq_counting dq_queue dq_dispatching dq_tasks dq_cons].
        { cbn in Hac. change (zlen (@nil V)) with 0 in *. lia. }
        rewrite zlen_cons. assert (match batch ++ [v] with [] => 2 | _ :: _ => 10 end = 10) as -> by by destruct batch.
        destruct batch; lia.
    + injection E as <- <-. unfold field_update. cbn [dq_counting dq_queue dq_dispatching dq_tasks dq_cons]. destruct (_ && _); lia.
    + injection E as <- <-. unfold field_update. cbn [dq_counting dq_queue dq_dispatching dq_tasks dq_cons]. lia.
    + by destruct (Hc d).
Qed.

Lemma sublist_whole {A} (l l' : list A) : l `sublist_of` l' -> length l = length l' -> l = l'.
Proof.
  induction 1 as [|x l l' Hs IH|x l l' Hs IH]; cbn; intros E; [done| |].
  - f_equal. apply IH. lia.
  - apply sublist_length in Hs. lia.
Qed.

Lemma elem_of_sublist {A} (l l' : list A) x : l `sublist_of` l' -> x ∈ l -> x ∈ l'.
Proof.
  induction 1 as [|y l l' _ IH|y l l' _ IH]; intros Hin; [done| |apply elem_of_cons; right; by apply IH].
  apply elem_of_cons in Hin as [->|Hin]; apply elem_of_cons; [by left|]. right. by apply IH.
Qed.

(** With nothing to do, everything was done. *)
Lemma dq_quiescent s :
  dq_inv capacity s -> dq_stopped s = false -> dq_calm_inv s ->
  (forall a, dq_internal a = true -> dq_act capacity batch_max_size a s = None) ->
  dq_queue s = [] /\ dq_held s = [] /\ dq_job_count s = 0.
Proof.
  intros Hi Hst [Hd Hc] Hn. pose proof (di_account _ _ Hi) as Ha. pose proof (di_token _ _ Hi) as Ht. unfold dq_popped, dq_tokens, dq_held in *.
  pose proof (Hn DqCount eq_refl) as Hcount. pose proof (Hn (DqDispatch true) eq_refl) as Hdis.
  pose proof (Hn (DqConsume true) eq_refl) as Hcons. pose proof (Hn DqTask eq_refl) as Htask. cbn [dq_act] in *.
  destruct s as [q jc st tk cn dp dr co]. cbn in *. subst dr.
  unfold dq_count in Hcount. cbn in Hcount. destruct cn; [|done]. unfold dq_dispatch in Hdis. cbn in Hdis. destruct dp; [|done].
  unfold dq_consume in Hcons. cbn in Hcons. destruct co as [| |qs mp|run mc mp batch|qs run mp batch| |d]; try done.
  - unfold dq_task in Htask. cbn in Htask. destruct tk; [|done]. cbn in *.
    assert (jc = 0) as -> by (destruct (jc =? 0) eqn:E; zbool; done). destruct q; [done|].
    rewrite zlen_cons in Ha. pose proof (zlen_nonneg q). lia.
  - destruct (run =? mc); [done|]. by destruct q.
  - by destruct (Hc d).
Qed.

Hypothesis Hcfg : dq_cfg_ok capacity batch_max_size.

Lemma dq_calm_no_stop acts : Forall (fun a => dq_calm a = true) acts -> DqStop ∉ acts.
Proof. intros Ha Hin. rewrite Forall_forall in Ha. by specialize (Ha _ Hin). Qed.

Lemma dq_internal_calm acts : Forall (fun a => dq_internal a = true) acts -> Forall (fun a => dq_calm a = true) acts.
Proof. intros Ha. eapply Forall_impl; [exact Ha|]. by intros []. Qed.

Lemma dq_exec_app s1 acts1 ev1 s2 acts2 ev2 s3 :
  dq_exec capacity batch_max_size s1 acts1 ev1 s2 -> dq_exec capacity batch_max_size s2 acts2 ev2 s3 ->
  dq_exec capacity batch_max_size s1 (acts1 ++ acts2) (ev1 ++ ev2) s3.
Proof.
  intros H1 H2. revert H1. induction H2 as [s|s2 acts ev s a ev' s' H2 IH E]; intros H1; [by rewrite !app_nil_r|].
  rewrite !app_assoc. econstructor; [by apply IH|done].
Qed.

(** C6. No wake-up is lost. In every reachable state of a queue that was not stopped,
    whatever the interleaving of the producers, the consumer and the executor and whatever
    tasks the executor refuses: the counter is the number of values pushed and counted
    that no thread has taken off it, does not wrap, and while it is above zero exactly one
    party has to empty the queue - a task that waits in the executor, the consumer, a
    producer about to defer a task, or a producer that drains; at zero there is none. So a
    value whose producer has returned is never left in the queue with nobody to fetch it,
    and two threads never pop at the same time. *)
Theorem dq_no_lost_wakeup acts ev s :
  dq_exec capacity batch_max_size dq_new acts ev s -> DqStop ∉ acts ->
  dq_job_count s = zlen (dq_queue s) + dq_popped s - Z.of_nat (dq_counting s) /\
  0 <= dq_job_count s <= 2 * capacity /\ zlen (dq_queue s) <= capacity /\
  dq_tokens s = (if dq_job_count s =? 0 then 0 else 1) /\
  (dq_counting s = 0%nat -> dq_queue s <> [] -> dq_tokens s = 1).
Proof.
  intros He Hns. destruct (dq_exec_inv _ _ Hcfg _ _ _ _ He (dq_new_inv _ _ Hcfg) eq_refl Hns) as [Hi _].
  pose proof (dq_job_count_bound _ _ Hcfg s Hi). pose proof (di_positive _ _ Hi). split; [apply Hi|]. split; [lia|]. split; [apply Hi|].
  split; [apply Hi|]. intros Hcn Hq. rewrite (di_token _ _ Hi). destruct (dq_job_count s =? 0) eqn:E; [|done]. zbool. exfalso.
  pose proof (di_account _ _ Hi) as Ha. pose proof (cons_popped_bound _ _ Hcfg _ _ (di_cons _ _ Hi)).
  pose proof (draining_popped _ _ Hcfg s Hi). unfold dq_popped in Ha.
  destruct (dq_queue s); [done|]. rewrite zlen_cons in Ha. pose proof (zlen_nonneg l). lia.
Qed.

(** Values are handed on at most once and in order. In every execution, with refused
    tasks and a stop at any point: the values pushed are, as a multiset, those handed to the
    callback, those dropped, those popped and those in the queue; and what was handed on,
    what is popped and what is in the queue is a subsequence of what was pushed. *)
Theorem dq_once_in_order acts ev s :
  dq_exec capacity batch_max_size dq_new acts ev s ->
  dq_pushed ev ≡ₚ dq_delivered ev ++ dq_dropped ev ++ dq_held s ++ dq_queue s /\
  dq_delivered ev ++ dq_held s ++ dq_queue s `sublist_of` dq_pushed ev.
Proof. apply dq_exec_moves. Qed.

(** C24. Everything pushed is handed on. When the executor takes every task and the queue
    is not stopped: from any reachable state, an execution without new pushes has at most
    [dq_measure] steps; and when no thread can make a step, the values handed to the
    callback are exactly the values pushed, in their order. *)
Theorem dq_drains acts ev s acts' ev' s' :
  dq_exec capacity batch_max_size dq_new acts ev s -> Forall (fun a => dq_calm a = true) acts ->
  dq_exec capacity batch_max_size s acts' ev' s' -> Forall (fun a => dq_internal a = true) acts' ->
  zlen acts' + dq_measure s' <= dq_measure s /\
  ((forall a, dq_internal a = true -> dq_act capacity batch_max_size a s' = None) ->
   dq_delivered (ev ++ ev') = dq_pushed (ev ++ ev') /\ dq_job_count s' = 0).
Proof.
  intros H1 Hc1 H2 Hc2. pose proof (dq_internal_calm _ Hc2) as Hc2'.
  assert (dq_calm_inv (@dq_new V)) as Hnew by by split.
  destruct (dq_exec_inv _ _ Hcfg _ _ _ _ H1 (dq_new_inv _ _ Hcfg) eq_refl (dq_calm_no_stop _ Hc1)) as [Hi1 Hst1].
  destruct (dq_calm_exec _ _ _ _ H1 Hnew Hc1) as [Hcalm1 Hd1]. destruct (dq_calm_exec _ _ _ _ H2 Hcalm1 Hc2') as [Hcalm2 Hd2].
  destruct (dq_exec_inv _ _ Hcfg _ _ _ _ H2 Hi1 Hst1 (dq_calm_no_stop _ Hc2')) as [Hi2 Hst2]. split.
  - clear Hd1 Hd2 Hi2 Hst2 Hcalm2 H1 Hc1. induction H2 as [s|s acts1 ev1 s2 a ev2 s3 H2 IH E]; [change (zlen (@nil (dq_action V))) with 0; lia|].
    apply Forall_app in Hc2 as [Hca [Hcb _]%Forall_cons]. apply Forall_app in Hc2' as [Hca' _].
    destruct (dq_exec_inv _ _ Hcfg _ _ _ _ H2 Hi1 Hst1 (dq_calm_no_stop _ Hca')) as [Hi2 Hst2].
    destruct (dq_calm_exec _ _ _ _ H2 Hcalm1 Hca') as [Hcalm2 _]. specialize (IH Hca Hca' Hi1 Hst1 Hcalm1).
    pose proof (dq_measure_step a s2 s3 ev2 Hi2 Hst2 Hcalm2 Hcb E). rewrite zlen_app. change (zlen [a]) with 1. lia.
  - intros Hn. destruct (dq_quiescent s' Hi2 Hst2 Hcalm2 Hn) as (Eq & Eh & Ej). split; [|done].
    destruct (dq_exec_moves _ _ _ (dq_exec_app _ _ _ _ _ _ _ H1 H2)) as [Hp Hs].
    rewrite Eq, Eh, dq_dropped_app, Hd1, Hd2, !app_nil_r in *. apply sublist_whole; [done|by rewrite Hp].
Qed.
End dispatch_queue.

(** ** Examples *)

Lemma dq_run_exec {V} capacity batch_max_size acts (s : dispatch_queue V) s' ev :
  dq_run capacity batch_max_size acts s = Some (s', ev) -> dq_exec capacity batch_max_size s acts ev s'.
Proof.
  assert (forall acts0 ev0 s0 s, dq_exec capacity batch_max_size s0 acts0 ev0 s -> forall s' ev,
    dq_run capacity batch_max_size acts s = Some (s', ev) -> dq_exec capacity batch_max_size s0 (acts0 ++ acts) (ev0 ++ ev) s') as H.
  { induction acts as [|a acts IH]; cbn; intros acts0 ev0 s0 s1 H0 s2 ev2 E; [injection E as <- <-; by rewrite !app_nil_r|].
    destruct (dq_act capacity batch_max_size a s1) as [[s3 ev3]|] eqn:Ea; [|done].
    destruct (dq_run capacity batch_max_size acts s3) as [[s4 ev4]|] eqn:Er; [|done]. injection E as <- <-.
    rewrite (app_assoc ev0). change (a :: acts) with ([a] ++ acts). rewrite (app_assoc acts0). eapply IH; [|done].
    by econstructor. }
  intros E. apply (H [] [] s s (dq_exec_nil _ _ s) s' ev E).
Qed.

(** Two producers push before either counts; the batch of one value makes the consumer
    defer a second task; a third value comes while the callback runs. *)
Definition dq_example_acts : list (dq_action Z) :=
  [DqPush 1; DqPush 2; DqCount; DqDispatch true; DqCount; DqTask; DqConsume true; DqConsume true; DqConsume true;
   DqConsume true; DqPush 3].
Definition dq_example_rest : list (dq_action Z) :=
  [DqConsume true; DqCount; DqConsume true; DqTask; DqConsume true; DqConsume true; DqConsume true; DqConsume true;
   DqConsume true; DqConsume true; DqTask; DqConsume true; DqConsume true; DqConsume true; DqConsume true; DqConsume true;
   DqConsume true].
Definition dq_example (acts : list (dq_action Z)) (s : dispatch_queue Z) : dispatch_queue Z * list (dq_event Z) :=
  default (s, []) (dq_run 8 1 acts s).

Example dq_example_delivers :
  let '(s, ev) := dq_example dq_example_acts dq_new in
  let '(s', ev') := dq_example dq_example_rest s in
  dq_delivered (ev ++ ev') = [1; 2; 3] /\ dq_job_count s' = 0 /\ dq_cons s' = ConsIdle.
Proof. by vm_compute. Qed.

Lemma dq_cfg_example : dq_cfg_ok 8 1.
Proof. by split. Qed.

Definition dq_example_s : dispatch_queue Z := Eval vm_compute in (dq_example dq_example_acts dq_new).1.
Definition dq_example_ev : list (dq_event Z) := Eval vm_compute in (dq_example dq_example_acts dq_new).2.
Definition dq_example_s' : dispatch_queue Z := Eval vm_compute in (dq_example dq_example_rest dq_example_s).1.
Definition dq_example_ev' : list (dq_event Z) := Eval vm_compute in (dq_example dq_example_rest dq_example_s).2.

Lemma dq_example_exec : dq_exec 8 1 dq_new dq_example_acts dq_example_ev dq_example_s.
Proof. apply dq_run_exec. by vm_compute. Qed.
Lemma dq_example_exec' : dq_exec 8 1 dq_example_s dq_example_rest dq_example_ev' dq_example_s'.
Proof. apply dq_run_exec. by vm_compute. Qed.

Lemma dq_no_lost_wakeup_witness :
  let s := dq_example_s in
  dq_job_count s = zlen (dq_queue s) + dq_popped s - Z.of_nat (dq_counting s) /\
  0 <= dq_job_count s <= 2 * 8 /\ zlen (dq_queue s) <= 8 /\
  dq_tokens s = (if dq_job_count s =? 0 then 0 else 1) /\
  (dq_counting s = 0%nat -> dq_queue s <> [] -> dq_tokens s = 1).
Proof.
  apply (dq_no_lost_wakeup 8 1 dq_cfg_example dq_example_acts dq_example_ev dq_example_s dq_example_exec).
  by repeat (apply not_elem_of_cons; split; [done|]); apply not_elem_of_nil.
Defined.

Lemma dq_once_in_order_witness :
  dq_pushed dq_example_ev ≡ₚ dq_delivered dq_example_ev ++ dq_dropped dq_example_ev ++ dq_held dq_example_s ++ dq_queue dq_example_s /\
  dq_delivered dq_example_ev ++ dq_held dq_example_s ++ dq_queue dq_example_s `sublist_of` dq_pushed dq_example_ev.
Proof. apply (dq_once_in_order 8 1 dq_example_acts dq_example_ev dq_example_s dq_example_exec). Defined.

Lemma dq_drains_witness :
  zlen dq_example_rest + dq_measure dq_example_s' <= dq_measure dq_example_s /\
  ((forall a, dq_internal a = true -> dq_act 8 1 a dq_example_s' = None) ->
   dq_delivered (dq_example_ev ++ dq_example_ev') = dq_pushed (dq_example_ev ++ dq_example_ev') /\ dq_job_count dq_example_s' = 0).
Proof.
  apply (dq_drains 8 1 dq_cfg_example dq_example_acts dq_example_ev dq_example_s dq_example_rest dq_example_ev' dq_example_s'
    dq_example_exec); [by repeat constructor|apply dq_example_exec'|by repeat constructor].
Defined.
