(* ===== verification/GtpuDemux.v ===== *)
(** * GTP-U: demultiplexer

    Models [gtpu_demux_impl] of [src/lib/gtpu/gtpu_demux_impl.cpp]: PDUs are pushed into the
    dispatch queue of the tunnel their TEID names, and its consumer hands them to the
    tunnel.

    The threads of the queues take their steps in any order between the operations of the
    demultiplexer, which the mutex of the map makes atomic.  Queues and tunnels have names:
    a queue belongs to the caller of [add_tunnel], the map holds a reference to it; the
    queues are numbered as they are made. *)
From stdpp Require Import base numbers list gmap.
From Stdlib Require Import ZArith Lia.
From S2P Require Import Prelude.
From S2P Require Import BitEncoding.
From S2P Require Import BitBytes.
From S2P Require Import GtpuPdu.
From S2P Require Import GtpuPduProps.
From S2P Require Import DispatchQueue.
From S2P Require Import DispatchQueueRuns.

Set Default Goal Selector "!".
Open Scope Z_scope.
Open Scope ran_scope.

(** ** Data *)

Record gtpu_demux_cfg := mk_gtpu_demux_cfg {
  dxc_test_mode : bool;
  dxc_queue_size : Z;
  dxc_batch_size : Z;
}.

(** [gtpu_demux_tunnel_ctx_t]: the queue and the tunnel. *)
Record gtpu_demux_tunnel_ctx := mk_gtpu_demux_tunnel_ctx {
  dxt_batched_queue : Z;
  dxt_tunnel : Z;
}.

(** A queue with the TEID its callback was made for. *)
Record gtpu_demux_queue := mk_gtpu_demux_queue {
  dxq_teid : Z;
  dxq_queue : dispatch_queue (list Z);
}.

Record gtpu_demux := mk_gtpu_demux {
  dx_stopped : bool;
  dx_teid_to_tunnel : gmap Z gtpu_demux_tunnel_ctx;
  dx_test_teid : Z;
  dx_queues : gmap Z gtpu_demux_queue;
  dx_nof_queues : Z;
}.
#[export] Instance gtpu_demux_eta : RecordEta gtpu_demux := fun r =>
  mk_gtpu_demux (dx_stopped r) (dx_teid_to_tunnel r) (dx_test_teid r) (dx_queues r) (dx_nof_queues r).

(** A PDU that a queue takes, and one that the callback of a queue hands to a tunnel. *)
Inductive gtpu_demux_output : Type :=
| DxQueued (queue : Z) (pdu : list Z)
| DxForward (queue tunnel : Z) (pdu : list Z).

Section demux.
Variable cfg : gtpu_demux_cfg.
Implicit Types s : gtpu_demux.

Definition dx_new : gtpu_demux := mk_gtpu_demux false ∅ 1 ∅ 0.

(** ** Control *)

Definition dx_stop s : gtpu_demux := s <| dx_stopped := true |>.

(** The queue is made first; when the TEID is taken it is destroyed again, unused. *)
Definition dx_add_tunnel (teid tunnel : Z) s : bool * gtpu_demux :=
  match dx_teid_to_tunnel s !! teid with
  | Some _ => (false, s)
  | None =>
      let queue := dx_nof_queues s in
      (true, s <| dx_teid_to_tunnel ::= <[teid := mk_gtpu_demux_tunnel_ctx queue tunnel]> |>
               <| dx_queues ::= <[queue := mk_gtpu_demux_queue teid dq_new]> |>
               <| dx_nof_queues := queue + 1 |>)
  end.

Definition dx_remove_tunnel (teid : Z) s : bool * gtpu_demux :=
  match dx_teid_to_tunnel s !! teid with
  | None => (false, s)
  | Some _ => (true, s <| dx_teid_to_tunnel ::= delete teid |>)
  end.

Definition dx_apply_test_teid (teid : Z) s : gtpu_demux := s <| dx_test_teid := teid |>.

(** ** PDUs *)

(** The TEID that selects the tunnel. *)
Definition dx_select_teid (pdu : list Z) s : option Z :=
  if dxc_test_mode cfg then Some (dx_test_teid s) else gtpu_read_teid pdu.

(** Up to the push into the queue; the rest of [try_push] are steps of the queue. A push into
    a queue that was destroyed is undefined, into a stopped one fails an assertion. *)
Definition dx_handle_pdu (pdu : list Z) s : checked (gtpu_demux * list gtpu_demux_output) :=
  if dx_stopped s then Ok (s, []) else
  match dx_select_teid pdu s with
  | None => Ok (s, [])
  | Some teid =>
      match dx_teid_to_tunnel s !! teid with
      | None => Ok (s, [])
      | Some ctx =>
          match dx_queues s !! dxt_batched_queue ctx with
          | None => Panic
          | Some q =>
              assert? negb (dq_stopped (dxq_queue q));
              let '(dq, ev) := dq_push (dxc_queue_size cfg) pdu (dxq_queue q) in
              Ok (s <| dx_queues ::= <[dxt_batched_queue ctx := mk_gtpu_demux_queue (dxq_teid q) dq]> |>,
                  map (DxQueued (dxt_batched_queue ctx)) (dq_pushed ev))
          end
      end
  end.

(** Called for every PDU of a batch; the tunnel is looked up again. *)
Definition dx_handle_pdu_impl (queue teid : Z) s (pdu : list Z) : list gtpu_demux_output :=
  if dx_stopped s then [] else
  match dx_teid_to_tunnel s !! teid with
  | None => []
  | Some ctx => [DxForward queue (dxt_tunnel ctx) pdu]
  end.

(** A thread of a queue makes a step. *)
Definition dx_queue_act (queue : Z) (a : dq_action (list Z)) s : option (gtpu_demux * list gtpu_demux_output) :=
  match dx_queues s !! queue with
  | None => None
  | Some q =>
      match dq_act (dxc_queue_size cfg) (dxc_batch_size cfg) a (dxq_queue q) with
      | None => None
      | Some (dq, ev) =>
          Some (s <| dx_queues ::= <[queue := mk_gtpu_demux_queue (dxq_teid q) dq]> |>,
                flat_map (dx_handle_pdu_impl queue (dxq_teid q) s) (dq_delivered ev))
      end
  end.

(** The owner of a queue destroys it: the tasks that are left find the stop flag. *)
Definition dx_destroy_queue (queue : Z) s : gtpu_demux := s <| dx_queues ::= delete queue |>.

(** ** Executions *)

Inductive gtpu_demux_op : Type :=
| DxHandlePdu (pdu : list Z)
| DxQueueAct (queue : Z) (a : dq_action (list Z))
| DxAddTunnel (teid tunnel : Z)
| DxRemoveTunnel (teid : Z)
| DxApplyTestTeid (teid : Z)
| DxDestroyQueue (queue : Z)
| DxStop.

(** [None]: the thread of the queue is not there. *)
Definition dx_step (op : gtpu_demux_op) s : option (checked (gtpu_demux * list gtpu_demux_output)) :=
  match op with
  | DxHandlePdu pdu => Some (dx_handle_pdu pdu s)
  | DxQueueAct queue (DqPush _) => None
  | DxQueueAct queue a => option_map Ok (dx_queue_act queue a s)
  | DxAddTunnel teid tunnel => Some (Ok ((dx_add_tunnel teid tunnel s).2, []))
  | DxRemoveTunnel teid => Some (Ok ((dx_remove_tunnel teid s).2, []))
  | DxApplyTestTeid teid => Some (Ok (dx_apply_test_teid teid s, []))
  | DxDestroyQueue queue => Some (Ok (dx_destroy_queue queue s, []))
  | DxStop => Some (Ok (dx_stop s, []))
  end.

Inductive dx_exec : gtpu_demux -> list gtpu_demux_op -> list gtpu_demux_output -> gtpu_demux -> Prop :=
| dx_exec_nil s : dx_exec s [] [] s
| dx_exec_step s1 ops out1 s2 op out2 s3 :
    dx_exec s1 ops out1 s2 -> dx_step op s2 = Some (Ok (s3, out2)) ->
    dx_exec s1 (ops ++ [op]) (out1 ++ out2) s3.
End demux.

(** ** Histories *)

Definition dx_queued (queue : Z) (out : list gtpu_demux_output) : list (list Z) :=
  omap (fun o => match o with DxQueued q pdu => if decide (q = queue) then Some pdu else None | _ => None end) out.
Definition dx_forwarded (queue : Z) (out : list gtpu_demux_output) : list (list Z) :=
  omap (fun o => match o with DxForward q _ pdu => if decide (q = queue) then Some pdu else None | _ => None end) out.

(** The PDUs that arrive with a TEID. *)
Definition dx_arrivals (teid : Z) (ops : list gtpu_demux_op) : list (list Z) :=
  omap (fun op => match op with
                  | DxHandlePdu pdu => if decide (gtpu_read_teid pdu = Some teid) then Some pdu else None
                  | _ => None
                  end) ops.

Lemma dx_queued_app q out out' : dx_queued q (out ++ out') = dx_queued q out ++ dx_queued q out'.
Proof. apply omap_app. Qed.
Lemma dx_forwarded_app q out out' : dx_forwarded q (out ++ out') = dx_forwarded q out ++ dx_forwarded q out'.
Proof. apply omap_app. Qed.
Lemma dx_arrivals_app teid ops ops' : dx_arrivals teid (ops ++ ops') = dx_arrivals teid ops ++ dx_arrivals teid ops'.
Proof. apply omap_app. Qed.

Section demux_props.
Variable cfg : gtpu_demux_cfg.
Hypothesis Hmode : dxc_test_mode cfg = false.
Implicit Types s : gtpu_demux.
Let capacity := dxc_queue_size cfg.
Let batch := dxc_batch_size cfg.

(** What is known of a queue: it was made for a TEID; its execution; what it took and what
    its callback handed on. *)
Record dx_history (ops : list gtpu_demux_op) (out : list gtpu_demux_output) s (queue : Z) (teid : Z)
    (ev : list (dq_event (list Z))) : Prop := {
  dh_queue q : dx_queues s !! queue = Some q ->
    dxq_teid q = teid /\ exists acts, dq_exec capacity batch dq_new acts ev (dxq_queue q);
  dh_sound : exists acts dq, dq_exec capacity batch dq_new acts ev dq;
  dh_queued : dx_queued queue out = dq_pushed ev;
  dh_arrived : dx_queued queue out `sublist_of` dx_arrivals teid ops;
  dh_forwarded : dx_forwarded queue out `sublist_of` dq_delivered ev;
  dh_tunnel tunnel pdu : DxForward queue tunnel pdu ∈ out -> DxAddTunnel teid tunnel ∈ ops;
}.

Record dx_inv (ops : list gtpu_demux_op) (out : list gtpu_demux_output) s : Prop := {
  dv_nof : 0 <= dx_nof_queues s;
  dv_map teid ctx : dx_teid_to_tunnel s !! teid = Some ctx ->
    DxAddTunnel teid (dxt_tunnel ctx) ∈ ops /\ 0 <= dxt_batched_queue ctx < dx_nof_queues s /\
    (forall q, dx_queues s !! dxt_batched_queue ctx = Some q -> dxq_teid q = teid);
  dv_queue queue : 0 <= queue < dx_nof_queues s -> exists teid ev, dx_history ops out s queue teid ev;
  dv_none queue : ~ 0 <= queue < dx_nof_queues s ->
    dx_queues s !! queue = None /\ dx_queued queue out = [] /\ dx_forwarded queue out = [];
}.

Lemma dx_queued_map q q' l : dx_queued q (map (DxQueued q') l) = if decide (q' = q) then l else [].
Proof. induction l as [|x l IH]; cbn; [by case_decide|]. fold (dx_queued q (map (DxQueued q') l)). rewrite IH. by case_decide. Qed.
Lemma dx_forwarded_map q q' l : dx_forwarded q (map (DxQueued q') l) = [].
Proof. by induction l as [|x l IH]. Qed.

Lemma dx_impl_cases q teid s l :
  flat_map (dx_handle_pdu_impl q teid s) l = [] \/
  exists ctx, dx_teid_to_tunnel s !! teid = Some ctx /\
    flat_map (dx_handle_pdu_impl q teid s) l = map (DxForward q (dxt_tunnel ctx)) l.
Proof.
  unfold dx_handle_pdu_impl. destruct (dx_stopped s); [left; by induction l|].
  destruct (dx_teid_to_tunnel s !! teid) as [ctx|]; [|left; by induction l]. right. exists ctx. split; [done|].
  induction l as [|x l IH]; [done|]. cbn. by rewrite IH.
Qed.

Lemma dx_queued_forward q q' tunnel l : dx_queued q (map (DxForward q' tunnel) l) = [].
Proof. by induction l as [|x l IH]. Qed.
Lemma dx_forwarded_forward q q' tunnel l : dx_forwarded q (map (DxForward q' tunnel) l) = if decide (q' = q) then l else [].
Proof.
  induction l as [|x l IH]; cbn; [by case_decide|]. fold (dx_forwarded q (map (DxForward q' tunnel) l)). rewrite IH. by case_decide.
Qed.

(** A step that does not touch the queue. *)
Lemma dx_history_keep ops out s queue teid ev op s' out' :
  dx_history ops out s queue teid ev ->
  (forall q, dx_queues s' !! queue = Some q -> dx_queues s !! queue = Some q) ->
  dx_queued queue out' = [] -> dx_forwarded queue out' = [] -> (forall tunnel pdu, DxForward queue tunnel pdu ∉ out') ->
  dx_history (ops ++ [op]) (out ++ out') s' queue teid ev.
Proof.
  intros [H1 H2 H3 H4 H5 H6] Hq E1 E2 Hn. split.
  - intros q Hl. by apply H1, Hq.
  - done.
  - by rewrite dx_queued_app, E1, app_nil_r.
  - rewrite dx_queued_app, E1, app_nil_r, dx_arrivals_app. etransitivity; [exact H4|]. by apply sublist_inserts_r.
  - by rewrite dx_forwarded_app, E2, app_nil_r.
  - intros tunnel pdu [Hin|Hin]%elem_of_app; [|by destruct (Hn tunnel pdu)]. apply elem_of_app. left. by eapply H6.
Qed.

Lemma dx_inv_new : dx_inv [] [] dx_new.
Proof.
  split; cbn; [done| |lia|].
  - intros teid ctx E. by rewrite lookup_empty in E.
  - intros queue _. by rewrite lookup_empty.
Qed.

(** An operation on the map: queues are only taken away. *)
Lemma dx_inv_control ops out s op s' :
  dx_inv ops out s ->
  (forall teid ctx, dx_teid_to_tunnel s' !! teid = Some ctx -> dx_teid_to_tunnel s !! teid = Some ctx) ->
  (forall queue q, dx_queues s' !! queue = Some q -> dx_queues s !! queue = Some q) ->
  dx_nof_queues s' = dx_nof_queues s -> dx_inv (ops ++ [op]) (out ++ []) s'.
Proof.
  intros [H1 H2 H3 H4] Hm Hq En. split; rewrite ?En.
  - done.
  - intros teid ctx E. destruct (H2 teid ctx (Hm _ _ E)) as (Ha & Hb & Hc). split; [apply elem_of_app; by left|]. split; [done|].
    intros q Hl. by apply Hc, Hq.
  - intros queue Hr. destruct (H3 queue Hr) as (teid & ev & Hh). exists teid, ev. apply dx_history_keep with s; try done.
    + apply Hq.
    + intros tunnel pdu. apply not_elem_of_nil.
  - intros queue Hr. destruct (H4 queue Hr) as (Ha & Hb & Hc). rewrite app_nil_r. split; [|done].
    destruct (dx_queues s' !! queue) as [q|] eqn:E; [|done]. by rewrite (Hq _ _ E) in Ha.
Qed.

Lemma dx_inv_add ops out s teid tunnel :
  dx_inv ops out s -> dx_inv (ops ++ [DxAddTunnel teid tunnel]) (out ++ []) (dx_add_tunnel teid tunnel s).2.
Proof.
  intros Hi. unfold dx_add_tunnel. destruct (dx_teid_to_tunnel s !! teid) as [ctx|] eqn:E; [by apply dx_inv_control with s|].
  destruct Hi as [H1 H2 H3 H4]. cbn [snd]. set (n := dx_nof_queues s) in *.
  destruct (H4 n) as (Hq0 & Hq1 & Hq2); [lia|].
  split; unfold field_update; cbn [dx_nof_queues dx_teid_to_tunnel dx_queues].
  - lia.
  - intros teid' ctx [[<- <-]|[Hne Hl]]%lookup_insert_Some; cbn.
    + split; [apply elem_of_app; right; by apply list_elem_of_singleton|]. split; [lia|].
      intros q. rewrite lookup_insert_eq. by intros [= <-].
    + destruct (H2 teid' ctx Hl) as (Ha & Hb & Hc). split; [apply elem_of_app; by left|]. split; [lia|].
      intros q. rewrite lookup_insert_ne by lia. apply Hc.
  - intros queue Hr. destruct (decide (queue = n)) as [->|Hne].
    + exists teid, []. split; rewrite ?app_nil_r.
      * intros q. cbn. rewrite lookup_insert_eq. intros [= <-]. split; [done|]. exists []. constructor.
      * exists [], dq_new. constructor.
      * done.
      * rewrite Hq1. apply sublist_nil_l.
      * by rewrite Hq2.
      * intros tunnel' pdu Hin. exfalso. apply (not_elem_of_nil pdu). rewrite <- Hq2. unfold dx_forwarded.
        apply list_elem_of_omap. exists (DxForward n tunnel' pdu). split; [done|]. by rewrite decide_True.
    + destruct (H3 queue) as (t & ev & Hh); [lia|]. exists t, ev. apply dx_history_keep with s; try done.
      * intros q. cbn. by rewrite lookup_insert_ne by done.
      * intros ? ?. apply not_elem_of_nil.
  - intros queue Hr. rewrite app_nil_r. destruct (H4 queue) as (Ha & Hb & Hc); [lia|]. split; [|done].
    by rewrite lookup_insert_ne by lia.
Qed.

Lemma dx_inv_handle ops out s pdu s' out' :
  dx_inv ops out s -> dx_handle_pdu cfg pdu s = Ok (s', out') -> dx_inv (ops ++ [DxHandlePdu pdu]) (out ++ out') s'.
Proof.
  intros Hi E. unfold dx_handle_pdu, dx_select_teid in E. rewrite Hmode in E.
  destruct (dx_stopped s); [injection E as <- <-; by apply dx_inv_control with s|].
  destruct (gtpu_read_teid pdu) as [teid|] eqn:Et; [|injection E as <- <-; by apply dx_inv_control with s].
  destruct (dx_teid_to_tunnel s !! teid) as [ctx|] eqn:Em; [|injection E as <- <-; by apply dx_inv_control with s].
  destruct (dx_queues s !! dxt_batched_queue ctx) as [q|] eqn:Eq; [|done].
  destruct (dq_stopped (dxq_queue q)) eqn:Est; cbn [negb checked_bind] in E; [done|].
  destruct (dq_push (dxc_queue_size cfg) pdu (dxq_queue q)) as [dq ev2] eqn:Ep. injection E as <- <-.
  destruct Hi as [H1 H2 H3 H4]. set (n := dxt_batched_queue ctx) in *. destruct (H2 _ _ Em) as (_ & Hn & Hteid).
  split; unfold field_update; cbn [dx_nof_queues dx_teid_to_tunnel dx_queues].
  - done.
  - intros teid' ctx' Hl. destruct (H2 teid' ctx' Hl) as (Ha & Hb & Hc). split; [apply elem_of_app; by left|]. split; [done|].
    intros q' [[E <-]|[Hne Hl']]%lookup_insert_Some; cbn; [|by apply Hc]. apply Hc. by rewrite <- E.
  - intros queue Hr. destruct (H3 queue Hr) as (t & ev & Hh). destruct (decide (queue = n)) as [->|Hne].
    + destruct (dh_queue _ _ _ _ _ _ Hh q Eq) as (Ht & acts & Hex). rewrite (Hteid q Eq) in Ht. subst t.
      assert (dq_exec capacity batch dq_new (acts ++ [DqPush pdu]) (ev ++ ev2) dq) as Hex2.
      { econstructor; [exact Hex|]. cbn. rewrite Est. unfold capacity. by rewrite Ep. }
      assert (dq_pushed ev2 = [] \/ dq_pushed ev2 = [pdu]) as Hpush.
      { unfold dq_push in Ep. destruct (_ <=? _); injection Ep as <- <-; [by left|by right]. }
      assert (dq_delivered ev2 = []) as Hdel.
      { unfold dq_push in Ep. by destruct (_ <=? _); injection Ep as <- <-. }
      exists teid, (ev ++ ev2). split.
      * intros q'. cbn. rewrite lookup_insert_eq. intros [= <-]. cbn. split; [by apply Hteid|]. by eexists.
      * by eexists _, _.
      * rewrite dx_queued_app, dx_queued_map, decide_True by done. by rewrite (dh_queued _ _ _ _ _ _ Hh), dq_pushed_app.
      * rewrite dx_queued_app, dx_queued_map, decide_True, dx_arrivals_app by done. apply sublist_app; [apply Hh|].
        cbn. rewrite decide_True by done. destruct Hpush as [-> | ->]; [apply sublist_nil_l|done].
      * rewrite dx_forwarded_app, dx_forwarded_map, app_nil_r, dq_delivered_app, Hdel, app_nil_r. apply Hh.
      * intros tunnel p [Hin|Hin]%elem_of_app; [apply elem_of_app; left; by eapply (dh_tunnel _ _ _ _ _ _ Hh)|].
        apply list_elem_of_In, in_map_iff in Hin as (x & Hx & _). done.
    + exists t, ev. apply dx_history_keep with s; try done.
      * intros q'. cbn. by rewrite lookup_insert_ne by done.
      * rewrite dx_queued_map. by rewrite decide_False by done.
      * apply dx_forwarded_map.
      * intros tunnel p Hin. apply list_elem_of_In, in_map_iff in Hin as (x & Hx & _). done.
  - intros queue Hr. assert (n <> queue) as Hne by (intros <-; lia). destruct (H4 queue Hr) as (Ha & Hb & Hc).
    rewrite lookup_insert_ne, dx_queued_app, dx_forwarded_app, dx_queued_map, dx_forwarded_map, Hb, Hc, decide_False by done. by rewrite Ha.
Qed.

Lemma dx_inv_queue_act ops out s n a s' out' :
  dx_inv ops out s -> dx_queue_act cfg n a s = Some (s', out') -> (forall v, a <> DqPush v) ->
  dx_inv (ops ++ [DxQueueAct n a]) (out ++ out') s'.
Proof.
  intros Hi E Hna. unfold dx_queue_act in E. destruct (dx_queues s !! n) as [q|] eqn:Eq; [|done].
  destruct (dq_act _ _ a (dxq_queue q)) as [[dq ev2]|] eqn:Ea; [|done]. injection E as <- <-.
  destruct Hi as [H1 H2 H3 H4].
  assert (0 <= n < dx_nof_queues s) as Hn.
  { destruct (decide (0 <= n < dx_nof_queues s)) as [?|Hx]; [done|]. destruct (H4 n Hx) as [Hnone _]. by rewrite Hnone in Eq. }
  pose proof (dq_act_pushed _ _ _ _ _ _ Hna Ea) as Hpush.
  set (out2 := flat_map _ _).
  assert (forall q', dx_queued q' out2 = []) as Hq2.
  { intros q'. unfold out2. destruct (dx_impl_cases n (dxq_teid q) s (dq_delivered ev2)) as [->|(ctx & _ & ->)]; [done|]. apply dx_queued_forward. }
  assert (forall q', q' <> n -> dx_forwarded q' out2 = [] /\ forall tunnel p, DxForward q' tunnel p ∉ out2) as Hf2.
  { intros q' Hne. unfold out2. destruct (dx_impl_cases n (dxq_teid q) s (dq_delivered ev2)) as [->|(ctx & _ & ->)].
    - split; [done|]. intros ? ?. apply not_elem_of_nil.
    - rewrite dx_forwarded_forward, decide_False by done. split; [done|].
      intros tunnel p Hin. apply list_elem_of_In, in_map_iff in Hin as (x & [= <- _ _] & _). done. }
  split; unfold field_update; cbn [dx_nof_queues dx_teid_to_tunnel dx_queues].
  - done.
  - intros teid' ctx' Hl. destruct (H2 teid' ctx' Hl) as (Ha & Hb & Hc). split; [apply elem_of_app; by left|]. split; [done|].
    intros q' [[E <-]|[Hne Hl']]%lookup_insert_Some; cbn; [|by apply Hc]. apply Hc. by rewrite <- E.
  - intros queue Hr. destruct (H3 queue Hr) as (t & ev & Hh). destruct (decide (queue = n)) as [->|Hne].
    + destruct (dh_queue _ _ _ _ _ _ Hh q Eq) as (Ht & acts & Hex).
      assert (dq_exec capacity batch dq_new (acts ++ [a]) (ev ++ ev2) dq) as Hex2 by (by econstructor).
      exists t, (ev ++ ev2). split.
      * intros q'. cbn. rewrite lookup_insert_eq. intros [= <-]. cbn. split; [done|]. by eexists.
      * by eexists _, _.
      * rewrite dx_queued_app, Hq2, app_nil_r, dq_pushed_app, Hpush, app_nil_r. apply Hh.
      * rewrite dx_queued_app, Hq2, app_nil_r, dx_arrivals_app. apply sublist_inserts_r, Hh.
      * rewrite dx_forwarded_app, dq_delivered_app. apply sublist_app; [apply Hh|]. unfold out2.
        destruct (dx_impl_cases n (dxq_teid q) s (dq_delivered ev2)) as [->|(ctx & _ & ->)]; [apply sublist_nil_l|].
        by rewrite dx_forwarded_forward, decide_True by done.
      * intros tunnel p [Hin|Hin]%elem_of_app; [apply elem_of_app; left; by eapply (dh_tunnel _ _ _ _ _ _ Hh)|].
        unfold out2 in Hin. destruct (dx_impl_cases n (dxq_teid q) s (dq_delivered ev2)) as [Ex|(ctx & Em & Ex)]; rewrite Ex in Hin;
          [by apply not_elem_of_nil in Hin|].
        apply list_elem_of_In, in_map_iff in Hin as (x & [= <- _] & _). apply elem_of_app. left. rewrite <- Ht. by apply H2.
    + exists t, ev. apply dx_history_keep with s; try done; try by apply Hf2.
      intros q'. cbn. by rewrite lookup_insert_ne by done.
  - intros queue Hr. assert (queue <> n) as Hne by (intros ->; lia). destruct (H4 queue Hr) as (Ha & Hb & Hc).
    rewrite lookup_insert_ne, dx_queued_app, dx_forwarded_app, Hq2, Hb, Hc by done. destruct (Hf2 queue Hne) as [-> _]. by rewrite Ha.
Qed.

Lemma dx_exec_inv ops out s : dx_exec cfg dx_new ops out s -> dx_inv ops out s.
Proof.
  remember dx_new as s0 eqn:E0. induction 1 as [s|s1 ops out1 s2 op out2 s3 _ IH E]; subst; [apply dx_inv_new|].
  specialize (IH eq_refl). destruct op as [pdu|n a|teid tunnel|teid|teid|n|]; cbn [dx_step] in E.
  - injection E as E. by apply dx_inv_handle with s2.
  - destruct a as [v| |b|i| |b|]; [done| | | | | |];
      (lazymatch type of E with option_map _ (dx_queue_act _ _ ?a _) = _ =>
         destruct (dx_queue_act cfg n a s2) as [[s' out']|] eqn:Ea; [|done]; injection E as <- <-;
         by apply (dx_inv_queue_act _ _ s2 n a) end).
  - injection E as <- <-. by apply dx_inv_add.
  - injection E as <- <-. apply dx_inv_control with s2; try done; unfold dx_remove_tunnel; destruct (_ !! teid); try done.
    cbn. intros teid' ctx Hl. by apply lookup_delete_Some in Hl as [_ Hl].
  - injection E as <- <-. by apply dx_inv_control with s2.
  - injection E as <- <-. apply dx_inv_control with s2; try done. cbn. intros queue q Hl. by apply lookup_delete_Some in Hl as [_ Hl].
  - injection E as <- <-. by apply dx_inv_control with s2.
Qed.

(** C25. PDUs reach the tunnel of their TEID, in order. In every execution of the
    demultiplexer with any PDUs, tunnels added and removed, and any interleaving of the
    threads of its queues: every queue has one TEID; what its callback hands to tunnels is a
    subsequence of the PDUs received with that TEID; every tunnel it hands a PDU to was
    added under that TEID; and where such a PDU dissects, the TEID of its header is that
    one. *)
Theorem dx_routes ops out s queue :
  dx_exec cfg dx_new ops out s ->
  exists teid, dx_forwarded queue out `sublist_of` dx_arrivals teid ops /\
    forall tunnel pdu, DxForward queue tunnel pdu ∈ out ->
      DxAddTunnel teid tunnel ∈ ops /\
      (forall d, Forall is_u8 pdu -> gtpu_dissect_pdu pdu = Ok (Some d) -> gh_teid (gd_hdr d) = teid).
Proof.
  intros He. pose proof (dx_exec_inv _ _ _ He) as Hi.
  destruct (decide (0 <= queue < dx_nof_queues s)) as [Hr|Hr].
  - destruct (dv_queue _ _ _ Hi queue Hr) as (teid & ev & Hh). exists teid.
    assert (dx_forwarded queue out `sublist_of` dx_arrivals teid ops) as Hsub.
    { destruct (dh_sound _ _ _ _ _ _ Hh) as (acts & dq & Hex). destruct (dq_exec_moves _ _ _ _ _ Hex) as [_ Hs].
      etransitivity; [apply Hh|]. etransitivity; [|apply (dh_arrived _ _ _ _ _ _ Hh)].
      rewrite (dh_queued _ _ _ _ _ _ Hh). etransitivity; [|exact Hs]. by apply sublist_inserts_r. }
    split; [done|]. intros tunnel pdu Hin. split; [by eapply (dh_tunnel _ _ _ _ _ _ Hh)|].
    intros d Hu Hd. pose proof (gtpu_dissect_teid pdu d Hu Hd) as Ht.
    assert (pdu ∈ dx_arrivals teid ops) as Ha.
    { eapply elem_of_sublist; [exact Hsub|]. unfold dx_forwarded. apply list_elem_of_omap. eexists. split; [exact Hin|]. cbn. by rewrite decide_True. }
    unfold dx_arrivals in Ha. apply list_elem_of_omap in Ha as ([p|n a|t' t2|t'|t'|n|] & _ & Ep); try done.
    case_decide as Eq; [|done]. injection Ep as ->. rewrite Ht in Eq. by injection Eq.
  - destruct (dv_none _ _ _ Hi queue Hr) as (_ & _ & Hf). exists 0. rewrite Hf. split; [apply sublist_nil_l|].
    intros tunnel pdu Hin. exfalso. apply (not_elem_of_nil pdu). rewrite <- Hf. unfold dx_forwarded.
    apply list_elem_of_omap. exists (DxForward queue tunnel pdu). split; [done|]. by rewrite decide_True.
Qed.

(** ** Queues that live as long as their tunnel *)

(** The owner of a queue removes the tunnel before it stops or destroys the queue. *)
Definition dx_op_ok (op : gtpu_demux_op) s : Prop :=
  match op with
  | DxQueueAct queue DqStop | DxDestroyQueue queue =>
      forall teid ctx, dx_teid_to_tunnel s !! teid = Some ctx -> dxt_batched_queue ctx <> queue
  | _ => True
  end.

Definition dx_live s : Prop :=
  forall teid ctx, dx_teid_to_tunnel s !! teid = Some ctx ->
    0 <= dxt_batched_queue ctx < dx_nof_queues s /\
    exists q, dx_queues s !! dxt_batched_queue ctx = Some q /\ dq_stopped (dxq_queue q) = false.
End demux_props.

Inductive dx_reach (cfg : gtpu_demux_cfg) : gtpu_demux -> Prop :=
| dx_reach_new : dx_reach cfg dx_new
| dx_reach_step s op s' out :
    dx_reach cfg s -> dx_op_ok op s -> dx_step cfg op s = Some (Ok (s', out)) -> dx_reach cfg s'.

Lemma dq_act_stopped {V} capacity batch (a : dq_action V) s s' ev :
  a <> DqStop -> dq_act capacity batch a s = Some (s', ev) -> dq_stopped s' = dq_stopped s.
Proof.
  assert (forall d s1 r s2 ev1, dq_drain_step (V := V) d s1 = (r, s2, ev1) -> dq_stopped s2 = dq_stopped s1) as Hdrain.
  { intros d s1 r s2 ev1 E. unfold dq_drain_step in E. destruct d as [|qs run]; [by injection E as <- <- <-|].
    destruct (qs =? 0); [by injection E as <- <- <-|]. destruct (run =? qs); [by injection E as <- <- <-|].
    destruct (dq_queue s1); by injection E as <- <- <-. }
  intros Hn E. destruct a as [v| |b|i| |b|]; cbn [dq_act] in E; [| | | | | |done].
  - destruct (dq_stopped s) eqn:E1; [done|]. unfold dq_push in E. by destruct (_ <=? _); injection E as <- <-.
  - unfold dq_count in E. destruct (dq_counting s); [done|]. injection E as <- <-. by destruct (_ =? 0).
  - unfold dq_dispatch in E. destruct (dq_dispatching s); [done|]. injection E as <- <-. by destruct b.
  - unfold dq_drain_producer in E. destruct (_ !! _) as [d|]; [|done]. destruct (dq_drain_step d s) as [[r s1] ev1] eqn:Ed.
    injection E as <- <-. apply Hdrain in Ed. by destruct r.
  - unfold dq_task in E. destruct (dq_cons s), (dq_tasks s); try done; injection E as <- <-. cbn. by destruct (dq_stopped s) eqn:E1; cbn.
  - unfold dq_consume in E. destruct (dq_cons s) as [| |qs mp|run mc mp batch1|qs run mp batch1| |d]; [done| | | | | |].
    + by injection E as <- <-.
    + by injection E as <- <-.
    + destruct (run =? mc); [by injection E as <- <-|]. destruct (dq_queue s); by injection E as <- <-.
    + by injection E as <- <-.
    + injection E as <- <-. by destruct b.
    + destruct (dq_drain_step d s) as [[r s1] ev1] eqn:Ed. injection E as <- <-. by apply Hdrain in Ed.
Qed.

Lemma dx_live_step cfg op s s' out :
  dx_live s -> 0 <= dx_nof_queues s -> dx_op_ok op s -> dx_step cfg op s = Some (Ok (s', out)) ->
  dx_live s' /\ 0 <= dx_nof_queues s'.
Proof.
  intros Hl Hn Hok E. destruct op as [pdu|n a|teid tunnel|teid|teid|n|]; cbn [dx_step] in E.
  - injection E as E. unfold dx_handle_pdu in E. destruct (dx_stopped s); [by injection E as <- <-|].
    destruct (dx_select_teid cfg pdu s); [|by injection E as <- <-]. destruct (_ !! _) as [ctx|] eqn:Em; [|by injection E as <- <-].
    destruct (dx_queues s !! _) as [q|] eqn:Eq; [|done]. destruct (dq_stopped (dxq_queue q)) eqn:Est; cbn [negb checked_bind] in E; [done|].
    destruct (dq_push _ _ _) as [dq ev] eqn:Ep. injection E as <- <-. split; [|done]. intros t c Hc. cbn in *.
    destruct (Hl t c Hc) as (Hr & q' & Hq' & Hs'). split; [done|].
    destruct (decide (dxt_batched_queue c = dxt_batched_queue ctx)) as [->|Hne].
    + rewrite lookup_insert_eq. eexists. split; [done|]. cbn. unfold dq_push in Ep. by destruct (_ <=? _); injection Ep as <- _.
    + rewrite lookup_insert_ne by done. by exists q'.
  - assert (option_map Ok (dx_queue_act cfg n a s) = Some (Ok (s', out))) as E' by (by destruct a).
    destruct (dx_queue_act cfg n a s) as [[s1 out1]|] eqn:Ea; [|done]. injection E' as <- <-. unfold dx_queue_act in Ea.
    destruct (dx_queues s !! n) as [q|] eqn:Eq; [|done]. destruct (dq_act _ _ a (dxq_queue q)) as [[dq ev]|] eqn:Eact; [|done].
    injection Ea as <- <-. split; [|done]. intros t c Hc. cbn in *. destruct (Hl t c Hc) as (Hr & q' & Hq' & Hs'). split; [done|].
    destruct (decide (dxt_batched_queue c = n)) as [<-|Hne]; [|rewrite lookup_insert_ne by done; by exists q'].
    rewrite lookup_insert_eq. eexists. split; [done|]. cbn. rewrite Eq in Hq'. injection Hq' as <-.
    rewrite <- Hs'. eapply dq_act_stopped; [|exact Eact]. intros ->. by apply (Hok t c).
  - injection E as <- <-. unfold dx_add_tunnel. destruct (_ !! teid) as [ctx|] eqn:Em; [done|]. unfold dx_live, field_update.
    cbn [snd dx_teid_to_tunnel dx_queues dx_nof_queues]. split; [|lia].
    intros t c [[<- <-]|[Hne Hc]]%lookup_insert_Some; cbn in *.
    + split; [lia|]. rewrite lookup_insert_eq. by eexists.
    + destruct (Hl t c Hc) as (Hr & q' & Hq' & Hs'). split; [lia|]. rewrite lookup_insert_ne by lia. by exists q'.
  - injection E as <- <-. unfold dx_remove_tunnel. destruct (_ !! teid) as [ctx|] eqn:Em; [|done]. split; [|done].
    intros t c Hc. cbn in *. apply lookup_delete_Some in Hc as [_ Hc]. by apply Hl in Hc.
  - by injection E as <- <-.
  - injection E as <- <-. split; [|done]. intros t c Hc. cbn in *. destruct (Hl t c Hc) as (Hr & q' & Hq' & Hs'). split; [done|].
    rewrite lookup_delete_ne; [by exists q'|]. intros ->. by apply (Hok t c).
  - by injection E as <- <-.
Qed.

(** C26. The demultiplexer never touches a dead queue. When the owner of every queue removes
    its tunnel before it stops or destroys the queue, then in every reachable state, for
    any PDU, the push goes to a queue that exists and is not stopped: no PDU aborts the
    process. *)
Theorem dx_never_panics cfg s pdu : dx_reach cfg s -> exists r, dx_handle_pdu cfg pdu s = Ok r.
Proof.
  intros Hr. assert (dx_live s /\ 0 <= dx_nof_queues s) as [Hl _].
  { induction Hr as [|s op s' out Hr [IHl IHn] Hok E]; [|by apply (dx_live_step cfg op s s' out)].
    split; [|done]. intros t c Hc. unfold dx_new in Hc. cbn in Hc. by rewrite lookup_empty in Hc. }
  unfold dx_handle_pdu. destruct (dx_stopped s); [by eexists|]. destruct (dx_select_teid cfg pdu s) as [teid|]; [|by eexists].
  destruct (dx_teid_to_tunnel s !! teid) as [ctx|] eqn:Em; [|by eexists]. destruct (Hl teid ctx Em) as (_ & q & -> & ->).
  cbn [negb checked_bind]. destruct (dq_push _ _ _). by eexists.
Qed.

(** ** Example *)

Fixpoint dx_run (cfg : gtpu_demux_cfg) (ops : list gtpu_demux_op) (s : gtpu_demux) :
    option (gtpu_demux * list gtpu_demux_output) :=
  match ops with
  | [] => Some (s, [])
  | op :: ops =>
      match dx_step cfg op s with
      | Some (Ok (s, out)) => match dx_run cfg ops s with Some (s, out') => Some (s, out ++ out') | None => None end
      | _ => None
      end
  end.

Lemma dx_run_exec cfg ops s s' out : dx_run cfg ops s = Some (s', out) -> dx_exec cfg s ops out s'.
Proof.
  assert (forall ops0 out0 s0 s, dx_exec cfg s0 ops0 out0 s -> forall s' out,
    dx_run cfg ops s = Some (s', out) -> dx_exec cfg s0 (ops0 ++ ops) (out0 ++ out) s') as H.
  { induction ops as [|op ops IH]; cbn; intros ops0 out0 s0 s1 H0 s2 out2 E; [injection E as <- <-; by rewrite !app_nil_r|].
    destruct (dx_step cfg op s1) as [[[s3 out3]|]|] eqn:Ea; [|done|done].
    destruct (dx_run cfg ops s3) as [[s4 out4]|] eqn:Er; [|done]. injection E as <- <-.
    rewrite (app_assoc out0). change (op :: ops) with ([op] ++ ops). rewrite (app_assoc ops0). eapply IH; [|done].
    by econstructor. }
  intros E. apply (H [] [] s s (dx_exec_nil _ s) s' out E).
Qed.

Definition dx_example_cfg : gtpu_demux_cfg := mk_gtpu_demux_cfg false 8 2.
Definition dx_example_pdu (teid : Z) : list Z := [48; 255; 0; 0; 0; 0; 0; teid].

(** Two tunnels; their PDUs arrive mixed; that of the second tunnel, removed in the
    meantime, is dropped by its callback. *)
Definition dx_example_ops : list gtpu_demux_op :=
  [DxAddTunnel 1 7; DxAddTunnel 2 8; DxHandlePdu (dx_example_pdu 1); DxHandlePdu (dx_example_pdu 2);
   DxQueueAct 0 DqCount; DxQueueAct 1 DqCount; DxQueueAct 0 (DqDispatch true); DxQueueAct 1 (DqDispatch true);
   DxHandlePdu (dx_example_pdu 3); DxRemoveTunnel 2] ++
  flat_map (fun q => DxQueueAct q DqTask :: replicate 6 (DxQueueAct q (DqConsume true))) [1; 0].
Definition dx_example_result : gtpu_demux * list gtpu_demux_output :=
  default (dx_new, []) (dx_run dx_example_cfg dx_example_ops dx_new).

Definition dx_example_out : list gtpu_demux_output :=
  [DxQueued 0 (dx_example_pdu 1); DxQueued 1 (dx_example_pdu 2); DxForward 0 7 (dx_example_pdu 1)].

Lemma dx_example_runs : exists s, dx_exec dx_example_cfg dx_new dx_example_ops dx_example_out s.
Proof. eexists. apply dx_run_exec. vm_compute. reflexivity. Qed.

Lemma dx_routes_witness :
  exists s, dx_exec dx_example_cfg dx_new dx_example_ops dx_example_out s /\
  exists teid, dx_forwarded 0 dx_example_out `sublist_of` dx_arrivals teid dx_example_ops /\
    forall tunnel pdu, DxForward 0 tunnel pdu ∈ dx_example_out ->
      DxAddTunnel teid tunnel ∈ dx_example_ops /\
      (forall d, Forall is_u8 pdu -> gtpu_dissect_pdu pdu = Ok (Some d) -> gh_teid (gd_hdr d) = teid).
Proof.
  destruct dx_example_runs as [s He]. exists s. split; [exact He|].
  apply (dx_routes dx_example_cfg eq_refl dx_example_ops dx_example_out s 0 He).
Defined.

Lemma dx_never_panics_witness :
  exists r, dx_handle_pdu dx_example_cfg (dx_example_pdu 1) (dx_add_tunnel 1 7 dx_new).2 = Ok r.
Proof.
  apply (dx_never_panics dx_example_cfg (dx_add_tunnel 1 7 dx_new).2).
  by apply (dx_reach_step _ dx_new (DxAddTunnel 1 7) _ []); [constructor| |].
Defined.
