(* ===== verification/GtpuTeidPool.v ===== *)
(** * GTP-U: TEID pool

    Models [gtpu_teid_pool_impl] of [src/lib/gtpu/gtpu_teid_pool_impl.h]: the TEIDs that are
    free wait in a concurrent queue of a library outside the modelled code.  The queue is an
    interface: a container that gives back what was put in, in any order. *)
From stdpp Require Import base numbers list.
From Stdlib Require Import ZArith Lia.
From S2P Require Import Prelude.

Set Default Goal Selector "!".
Open Scope Z_scope.
Open Scope ran_scope.

(** [moodycamel::ConcurrentQueue] behind [concurrent_queue]: no order is promised, a push
    can fail for want of memory, and a pop of a queue that is not empty can fail. *)
Class TeidQueue (Q : Type) := {
  tq_new : Q;
  tq_try_push : Z -> Q -> bool * Q;
  tq_try_pop : Q -> option (Z * Q);
  tq_elements : Q -> list Z;
}.

Class TeidQueueLaws (Q : Type) `{TeidQueue Q} := {
  tq_new_elements : tq_elements tq_new = [];
  tq_push_elements t q : tq_elements (tq_try_push t q).2 ≡ₚ if (tq_try_push t q).1 then t :: tq_elements q else tq_elements q;
  tq_pop_elements t q q' : tq_try_pop q = Some (t, q') -> tq_elements q ≡ₚ t :: tq_elements q';
}.

Definition GTPU_TEID_MIN : Z := 1.

Section teid_pool.
Context {Q : Type} `{TeidQueue Q}.
Implicit Types q : Q.

(** The loop of the constructor, over the 32-bit TEIDs from [t]. *)
Fixpoint teid_fill (turns : nat) (t stop : Z) q : Q :=
  match turns with
  | O => q
  | S turns => if t <? stop then teid_fill turns (u32 (t + 1)) stop (tq_try_push t q).2 else q
  end.

Definition teid_pool_new (max_nof_teids : Z) : Q :=
  teid_fill (Z.to_nat max_nof_teids) GTPU_TEID_MIN (u32 (GTPU_TEID_MIN + max_nof_teids)) tq_new.

Definition request_teid q : option Z * Q :=
  match tq_try_pop q with
  | Some (t, q) => (Some t, q)
  | None => (None, q)
  end.

Definition release_teid (teid : Z) q : bool * Q := tq_try_push teid q.

(** ** Runs, with the TEIDs that are out *)

Inductive teid_op : Type :=
| TeidRequest
| TeidRelease (teid : Z).

(** The state with what the users hold: a user gives back a TEID it holds. *)
Definition teid_step (op : teid_op) (s : list Z * Q) : option (list Z * Q) :=
  let '(held, q) := s in
  match op with
  | TeidRequest =>
      let '(r, q) := request_teid q in
      Some (match r with Some t => t :: held | None => held end, q)
  | TeidRelease teid =>
      if decide (teid ∈ held) then Some (filter (fun t => t <> teid) held, (release_teid teid q).2)
      else None
  end.

Fixpoint teid_run (ops : list teid_op) (s : list Z * Q) : option (list Z * Q) :=
  match ops with
  | [] => Some s
  | op :: ops => match teid_step op s with Some s => teid_run ops s | None => None end
  end.

Context `{!TeidQueueLaws Q}.

Lemma teid_fill_elements turns t stop q :
  0 <= t -> stop < 2 ^ 32 ->
  NoDup (tq_elements q) -> Forall (fun x => GTPU_TEID_MIN <= x < t) (tq_elements q) -> GTPU_TEID_MIN <= t ->
  NoDup (tq_elements (teid_fill turns t stop q)) /\
  Forall (fun x => GTPU_TEID_MIN <= x < Z.max t stop) (tq_elements (teid_fill turns t stop q)).
Proof.
  revert t q. induction turns as [|turns IH]; intros t q H0 Hs Hd Hf Hm; cbn [teid_fill].
  { split; [done|]. eapply Forall_impl; [exact Hf|]. cbn. lia. }
  destruct (t <? stop) eqn:E; zbool; [|split; [done|]; eapply Forall_impl; [exact Hf|]; cbn; lia].
  unfold wrap. rewrite Z.mod_small by lia. pose proof (tq_push_elements t q) as Hp.
  destruct (IH (t + 1) (tq_try_push t q).2) as [IH1 IH2]; [lia|done| | |lia|].
  - rewrite Hp. destruct (tq_try_push t q).1; [|done]. apply NoDup_cons. split; [|done].
    intros Hin. rewrite Forall_forall in Hf. specialize (Hf t Hin). lia.
  - rewrite Hp. assert (Forall (fun x => GTPU_TEID_MIN <= x < t + 1) (tq_elements q)) as Hf'.
    { eapply Forall_impl; [exact Hf|]. cbn. lia. }
    destruct (tq_try_push t q).1; [|done]. apply Forall_cons. split; [lia|done].
  - split; [done|]. eapply Forall_impl; [exact IH2|]. cbn. lia.
Qed.

Definition teid_inv (max_nof_teids : Z) (s : list Z * Q) : Prop :=
  NoDup (s.1 ++ tq_elements s.2) /\ Forall (fun x => GTPU_TEID_MIN <= x <= max_nof_teids) (s.1 ++ tq_elements s.2).

Lemma teid_new_inv max_nof_teids :
  0 <= max_nof_teids < 2 ^ 32 -> teid_inv max_nof_teids ([], teid_pool_new max_nof_teids).
Proof.
  intros Hm. unfold teid_inv, teid_pool_new. cbn [fst snd app].
  destruct (teid_fill_elements (Z.to_nat max_nof_teids) GTPU_TEID_MIN (u32 (GTPU_TEID_MIN + max_nof_teids)) tq_new) as [Hd Hf];
    [done|apply wrap_range; lia|rewrite tq_new_elements; apply NoDup_nil_2|rewrite tq_new_elements; apply Forall_nil_2|done|].
  split; [done|]. eapply Forall_impl; [exact Hf|]. cbn. unfold GTPU_TEID_MIN, wrap in *. intros x Hx.
  destruct (decide (max_nof_teids = 2 ^ 32 - 1)) as [->|Hne]; [change ((1 + (2 ^ 32 - 1)) mod 2 ^ 32) with 0 in Hx; lia|]. rewrite Z.mod_small in Hx by lia.
  destruct (decide (max_nof_teids = 0)) as [->|]; lia.
Qed.

Lemma teid_step_inv max_nof_teids op s s' : teid_inv max_nof_teids s -> teid_step op s = Some s' -> teid_inv max_nof_teids s'.
Proof.
  destruct s as [held q]. unfold teid_inv. cbn [fst snd]. intros [Hd Hf] E. destruct op as [|teid]; cbn [teid_step] in E.
  - unfold request_teid in E. destruct (tq_try_pop q) as [[t q']|] eqn:Ep; injection E as <-; cbn [fst snd]; [|done].
    pose proof (tq_pop_elements _ _ _ Ep) as Hp. assert ((t :: held) ++ tq_elements q' ≡ₚ held ++ tq_elements q) as Hp'.
    { rewrite Hp. cbn. solve_Permutation. }
    by rewrite Hp'.
  - destruct (decide (teid ∈ held)) as [Hin|]; [|done]. injection E as <-. cbn [fst snd]. unfold release_teid.
    pose proof (tq_push_elements teid q) as Hp. apply NoDup_app in Hd as (Hd1 & Hd2 & Hd3). apply Forall_app in Hf as [Hf1 Hf2].
    assert (forall x, x ∈ filter (fun t => t <> teid) held <-> x <> teid /\ x ∈ held) as Hrem by (intros x; by rewrite list_elem_of_filter).
    split.
    + apply NoDup_app. split; [by apply NoDup_filter|]. split.
      * intros x [Hne Hx]%Hrem. rewrite Hp. destruct (tq_try_push teid q).1; [|by apply Hd2].
        intros [->|Hx']%elem_of_cons; [done|]. by apply (Hd2 x).
      * rewrite Hp. destruct (tq_try_push teid q).1; [|done]. apply NoDup_cons. split; [by apply Hd2|done].
    + rewrite Forall_forall in Hf1. apply Forall_app. split; [apply Forall_forall; intros x [_ Hx]%Hrem; by apply Hf1|].
      rewrite Hp. destruct (tq_try_push teid q).1; [|done]. apply Forall_cons. split; [by apply Hf1|done].
Qed.

(** C31. TEIDs are unique. After any requests and releases, in which every TEID released
    was held: the TEIDs held by the users and those free are all different, lie between 1
    and the size of the pool, so that none is the TEID of path management, and a request
    never gives a TEID that is held. *)
Theorem teid_unique max_nof_teids ops held q :
  0 <= max_nof_teids < 2 ^ 32 -> teid_run ops ([], teid_pool_new max_nof_teids) = Some (held, q) ->
  NoDup held /\ Forall (fun t => 1 <= t <= max_nof_teids) held /\
  (forall t q', request_teid q = (Some t, q') -> (t ∉ held) /\ 1 <= t <= max_nof_teids).
Proof.
  intros Hm. pose proof (teid_new_inv max_nof_teids Hm) as Hi. revert Hi. generalize (@nil Z, teid_pool_new max_nof_teids).
  induction ops as [|op ops IH]; intros s Hi E; cbn [teid_run] in E.
  - injection E as ->. destruct Hi as [Hd Hf]. cbn [fst snd] in *. apply NoDup_app in Hd as (Hd1 & Hd2 & Hd3).
    apply Forall_app in Hf as [Hf1 Hf2]. split; [done|]. split; [done|]. intros t q' Er. unfold request_teid in Er.
    destruct (tq_try_pop q) as [[t' q1]|] eqn:Ep; [|done]. injection Er as -> <-. pose proof (tq_pop_elements _ _ _ Ep) as Hp.
    assert (t ∈ tq_elements q) as Hin by (rewrite Hp; apply list_elem_of_here). split; [intros Hh; by apply (Hd2 t)|].
    rewrite Forall_forall in Hf2. by apply Hf2.
  - destruct (teid_step op s) as [s1|] eqn:Es; [|done]. by apply (IH s1); [apply (teid_step_inv max_nof_teids op s)|].
Qed.
End teid_pool.

(** ** An instance, and what the pool does not check *)

#[export] Instance list_teid_queue : TeidQueue (list Z) := {|
  tq_new := [];
  tq_try_push t q := (true, q ++ [t]);
  tq_try_pop q := match q with [] => None | t :: q => Some (t, q) end;
  tq_elements q := q;
|}.
#[export] Instance list_teid_queue_laws : TeidQueueLaws (list Z).
Proof.
  split; cbn; [done| |].
  - intros t q. by rewrite <- Permutation_cons_append.
  - intros t [|x q] q'; [done|]. by intros [= -> ->].
Qed.

Lemma teid_unique_witness :
  let ops := [TeidRequest; TeidRequest; TeidRelease 1; TeidRequest; TeidRequest] in
  teid_run (Q := list Z) ops ([], teid_pool_new 3) = Some ([1; 3; 2], []) /\
  NoDup [1; 3; 2] /\ Forall (fun t => 1 <= t <= 3) [1; 3; 2] /\
  (forall t (q' : list Z), request_teid [] = (Some t, q') -> (t ∉ [1; 3; 2]) /\ 1 <= t <= 3).
Proof.
  split; [by vm_compute|].
  apply (teid_unique (Q := list Z) 3 [TeidRequest; TeidRequest; TeidRelease 1; TeidRequest; TeidRequest]); [done|by vm_compute].
Defined.

(** A TEID released twice is given to two users: releases are not checked. *)
Example teid_double_release :
  let '(a, q) := request_teid (teid_pool_new (Q := list Z) 1) in
  let q := (release_teid 1 (release_teid 1 q).2).2 in
  let '(b, q) := request_teid q in let '(c, q) := request_teid q in
  (a, b, c) = (Some 1, Some 1, Some 1).
Proof. reflexivity. Qed.

(** The bound of the loop wraps for the largest size: the pool is then empty. *)
Example teid_pool_wraps : u32 (GTPU_TEID_MIN + (2 ^ 32 - 1)) = 0.
Proof. reflexivity. Qed.
