(* ===== verification/NruPacking.v ===== *)
(** * NR user plane: packing

    Models [src/lib/nru/nru_packing.cpp] and the messages of
    [src/include/srsran/nru/nru_message.h]: the DL USER DATA and DL DATA DELIVERY STATUS
    frames that CU-UP and DU put in the NR RAN container of a GTP-U PDU. *)
From stdpp Require Import base numbers list.
From Stdlib Require Import ZArith Lia.
From S2P Require Import Prelude.
From S2P Require Import BitEncoding.
From S2P Require Import BitBytes.

Set Default Goal Selector "!".
Open Scope Z_scope.
Open Scope ran_scope.

(** ** Messages *)

Definition nru_max_nof_pdcp_sn_discard_blocks : Z := 16.
Definition nru_max_nof_lost_nru_sn_ranges : Z := 2.

(** [nru_pdu_type]; a value of four bits without a name is reserved. *)
Definition nru_type_dl_user_data : Z := 0.
Definition nru_type_dl_data_delivery_status : Z := 1.

Record nru_pdcp_sn_discard_block := mk_nru_pdcp_sn_discard_block {
  nrb_pdcp_sn_start : Z;
  nrb_block_size : Z;
}.

Record nru_lost_nru_sn_range := mk_nru_lost_nru_sn_range {
  nrl_nru_sn_start : Z;
  nrl_nru_sn_end : Z;
}.

Record nru_dl_user_data := mk_nru_dl_user_data {
  nud_report_polling : bool;
  nud_request_out_of_seq_report : bool;
  nud_report_delivered : bool;
  nud_user_data_existence_flag : bool;
  nud_assist_info_report_polling_flag : bool;
  nud_retransmission_flag : bool;
  nud_nru_sn : Z;
  nud_dl_discard_pdcp_sn : option Z;
  nud_discard_blocks : option (list nru_pdcp_sn_discard_block);
  nud_dl_report_pdcp_sn : Z;
}.
#[export] Instance nru_dl_user_data_eta : RecordEta nru_dl_user_data := fun r =>
  mk_nru_dl_user_data (nud_report_polling r) (nud_request_out_of_seq_report r) (nud_report_delivered r)
    (nud_user_data_existence_flag r) (nud_assist_info_report_polling_flag r) (nud_retransmission_flag r)
    (nud_nru_sn r) (nud_dl_discard_pdcp_sn r) (nud_discard_blocks r) (nud_dl_report_pdcp_sn r).

Definition nru_dl_user_data_default : nru_dl_user_data :=
  mk_nru_dl_user_data false false false false false false 0 None None 0.

Record nru_dl_data_delivery_status := mk_nru_dl_data_delivery_status {
  nds_final_frame_ind : bool;
  nds_desired_buffer_size_for_drb : Z;
  nds_desired_data_rate : option Z;
  nds_lost_nru_sn_ranges : option (list nru_lost_nru_sn_range);
  nds_highest_delivered_pdcp_sn : option Z;
  nds_highest_transmitted_pdcp_sn : option Z;
  nds_cause_value : option Z;
  nds_highest_delivered_retransmitted_pdcp_sn : option Z;
  nds_highest_retransmitted_pdcp_sn : option Z;
}.
#[export] Instance nru_dl_data_delivery_status_eta : RecordEta nru_dl_data_delivery_status := fun r =>
  mk_nru_dl_data_delivery_status (nds_final_frame_ind r) (nds_desired_buffer_size_for_drb r)
    (nds_desired_data_rate r) (nds_lost_nru_sn_ranges r) (nds_highest_delivered_pdcp_sn r)
    (nds_highest_transmitted_pdcp_sn r) (nds_cause_value r) (nds_highest_delivered_retransmitted_pdcp_sn r)
    (nds_highest_retransmitted_pdcp_sn r).

Definition nru_dl_data_delivery_status_default : nru_dl_data_delivery_status :=
  mk_nru_dl_data_delivery_status false 0 None None None None None None None.

(** ** Reading *)

Definition bd_read_bool (d : bit_decoder) : checked (option (bool * bit_decoder)) :=
  verify? (val, d) := bd_read 8 1 d in Ok (Some (negb (val =? 0), d)).

(** Reads the elements of a list of pairs, the first of 24 bits. *)
Fixpoint nru_read_pairs {A} (mk : Z -> Z -> A) (size n_bits : Z) (n : nat) (acc : list A) (d : bit_decoder) :
    checked (option (list A * bit_decoder)) :=
  match n with
  | O => Ok (Some (acc, d))
  | S n =>
      verify? (x, d) := bd_read 32 24 d in
      verify? (y, d) := bd_read size n_bits d in
      nru_read_pairs mk size n_bits n (acc ++ [mk x y]) d
  end.

Definition nru_read_discard_blocks (d : bit_decoder) : checked (option (list nru_pdcp_sn_discard_block * bit_decoder)) :=
  verify? (nof_discard_blocks, d) := bd_read 8 8 d in
  if nru_max_nof_pdcp_sn_discard_blocks <? nof_discard_blocks then Ok None else
  nru_read_pairs mk_nru_pdcp_sn_discard_block 8 8 (Z.to_nat nof_discard_blocks) [] d.

Definition nru_read_lost_ranges (d : bit_decoder) : checked (option (list nru_lost_nru_sn_range * bit_decoder)) :=
  verify? (nof_lost_sn_ranges, d) := bd_read 8 8 d in
  if nru_max_nof_lost_nru_sn_ranges <? nof_lost_sn_ranges then Ok None else
  nru_read_pairs mk_nru_lost_nru_sn_range 32 24 (Z.to_nat nof_lost_sn_ranges) [] d.

(** A list present under a flag read before. *)
Definition nru_read_if {A} (flag : bool) (read : bit_decoder -> checked (option (A * bit_decoder))) (d : bit_decoder) :
    checked (option (option A * bit_decoder)) :=
  if flag then verify? (val, d) := read d in Ok (Some (Some val, d)) else Ok (Some (None, d)).

(** [None]: the function returns false. The message read into is a fresh one, as its
    callers pass. The four flags in the middle of the second octet are read without a
    check of the result. *)
Definition nru_unpack_dl_user_data (container : list Z) : checked (option nru_dl_user_data) :=
  if bool_decide (container = []) then Ok None else
  if negb ((zlen container + 2) mod 4 =? 0) then Ok None else
  let d := bit_decoder_new container in
  verify? (pdu_type, d) := bd_read 8 4 d in
  if negb (pdu_type =? nru_type_dl_user_data) then Ok None else
  verify? (spare, d) := bd_read 8 1 d in
  if negb (spare =? 0) then Ok None else
  verify? (dl_discard_blocks, d) := bd_read_bool d in
  verify? (dl_flush, d) := bd_read_bool d in
  verify? (report_polling, d) := bd_read_bool d in
  verify? (spare, d) := bd_read 8 3 d in
  if negb (spare =? 0) then Ok None else
  let? (_, request_out_of_seq_report, d) := bd_unpack 8 1 d in
  let? (_, report_delivered, d) := bd_unpack 8 1 d in
  let? (_, user_data_existence_flag, d) := bd_unpack 8 1 d in
  let? (_, assist_info_report_polling_flag, d) := bd_unpack 8 1 d in
  let report_delivered := negb (report_delivered =? 0) in
  verify? (retransmission_flag, d) := bd_read_bool d in
  verify? (nru_sn, d) := bd_read 32 24 d in
  verify? (dl_discard_pdcp_sn, d) := bd_read_if dl_flush 32 24 d in
  verify? (discard_blocks, d) := nru_read_if dl_discard_blocks nru_read_discard_blocks d in
  verify? (dl_report_pdcp_sn, d) := bd_read_if report_delivered 32 24 d in
  Ok (Some (mk_nru_dl_user_data report_polling (negb (request_out_of_seq_report =? 0)) report_delivered
    (negb (user_data_existence_flag =? 0)) (negb (assist_info_report_polling_flag =? 0)) retransmission_flag
    nru_sn dl_discard_pdcp_sn discard_blocks (default 0 dl_report_pdcp_sn))).

(** The cause is read as a 32-bit number and kept in eight bits. *)
Definition nru_unpack_dl_data_delivery_status (container : list Z) : checked (option nru_dl_data_delivery_status) :=
  if bool_decide (container = []) then Ok None else
  if negb ((zlen container + 2) mod 4 =? 0) then Ok None else
  let d := bit_decoder_new container in
  verify? (pdu_type, d) := bd_read 8 4 d in
  if negb (pdu_type =? nru_type_dl_data_delivery_status) then Ok None else
  verify? (highest_transmitted_ind, d) := bd_read_bool d in
  verify? (highest_delivered_ind, d) := bd_read_bool d in
  verify? (final_frame_ind, d) := bd_read_bool d in
  verify? (lost_packet_report, d) := bd_read_bool d in
  verify? (spare, d) := bd_read 8 4 d in
  if negb (spare =? 0) then Ok None else
  verify? (data_rate_indication, d) := bd_read_bool d in
  verify? (highest_retransmitted_ind, d) := bd_read_bool d in
  verify? (highest_delivered_retransmitted_ind, d) := bd_read_bool d in
  verify? (cause_report, d) := bd_read_bool d in
  verify? (desired_buffer_size_for_drb, d) := bd_read 32 32 d in
  verify? (desired_data_rate, d) := bd_read_if data_rate_indication 32 32 d in
  verify? (lost_nru_sn_ranges, d) := nru_read_if lost_packet_report nru_read_lost_ranges d in
  verify? (highest_delivered, d) := bd_read_if highest_delivered_ind 32 24 d in
  verify? (highest_transmitted, d) := bd_read_if highest_transmitted_ind 32 24 d in
  verify? (cause_value, d) := bd_read_if cause_report 32 8 d in
  verify? (highest_delivered_retransmitted, d) := bd_read_if highest_delivered_retransmitted_ind 32 24 d in
  verify? (highest_retransmitted, d) := bd_read_if highest_retransmitted_ind 32 24 d in
  Ok (Some (mk_nru_dl_data_delivery_status final_frame_ind desired_buffer_size_for_drb desired_data_rate
    lost_nru_sn_ranges highest_delivered highest_transmitted (option_map u8 cause_value)
    highest_delivered_retransmitted highest_retransmitted)).

(** ** Writing *)

Definition nru_has_discard_blocks (data : nru_dl_user_data) : bool :=
  match nud_discard_blocks data with Some blocks => negb (bool_decide (blocks = [])) | None => false end.

Definition nru_block_fields (blocks : list nru_pdcp_sn_discard_block) : list (Z * Z) :=
  (zlen blocks, 8) :: flat_map (fun b => [(nrb_pdcp_sn_start b, 24); (nrb_block_size b, 8)]) blocks.

Definition nru_range_fields (ranges : list nru_lost_nru_sn_range) : list (Z * Z) :=
  (zlen ranges, 8) :: flat_map (fun r => [(nrl_nru_sn_start r, 24); (nrl_nru_sn_end r, 24)]) ranges.

Definition nru_dl_user_data_fields (data : nru_dl_user_data) : list (Z * Z) :=
  [ (nru_type_dl_user_data, 4); (0, 1); bool_field (nru_has_discard_blocks data);
    bool_field (has_value (nud_dl_discard_pdcp_sn data)); bool_field (nud_report_polling data); (0, 3);
    bool_field (nud_request_out_of_seq_report data); bool_field (nud_report_delivered data);
    bool_field (nud_user_data_existence_flag data); bool_field (nud_assist_info_report_polling_flag data);
    bool_field (nud_retransmission_flag data); (nud_nru_sn data, 24) ] ++
  opt_field (nud_dl_discard_pdcp_sn data) 24 ++
  (if nru_has_discard_blocks data then
     match nud_discard_blocks data with Some blocks => nru_block_fields blocks | None => [] end else []) ++
  (if nud_report_delivered data then [(nud_dl_report_pdcp_sn data, 24)] else []).

Definition nru_status_fields (status : nru_dl_data_delivery_status) : list (Z * Z) :=
  [ (nru_type_dl_data_delivery_status, 4); bool_field (has_value (nds_highest_transmitted_pdcp_sn status));
    bool_field (has_value (nds_highest_delivered_pdcp_sn status)); bool_field (nds_final_frame_ind status);
    bool_field (has_value (nds_lost_nru_sn_ranges status)); (0, 4);
    bool_field (has_value (nds_desired_data_rate status));
    bool_field (has_value (nds_highest_retransmitted_pdcp_sn status));
    bool_field (has_value (nds_highest_delivered_retransmitted_pdcp_sn status));
    bool_field (has_value (nds_cause_value status)); (nds_desired_buffer_size_for_drb status, 32) ] ++
  opt_field (nds_desired_data_rate status) 32 ++
  match nds_lost_nru_sn_ranges status with Some ranges => nru_range_fields ranges | None => [] end ++
  opt_field (nds_highest_delivered_pdcp_sn status) 24 ++ opt_field (nds_highest_transmitted_pdcp_sn status) 24 ++
  opt_field (nds_cause_value status) 8 ++ opt_field (nds_highest_delivered_retransmitted_pdcp_sn status) 24 ++
  opt_field (nds_highest_retransmitted_pdcp_sn status) 24.

(** The writing ends at the first field that fails. *)
Definition nru_pack_fields (room : Z) (out_buf : list Z) (fields : list (Z * Z)) : checked (option (list Z)) :=
  let start_len := zlen out_buf in
  let? (ok, encoder) := be_pack_fields room fields (mk_bit_encoder out_buf 0) in
  if negb ok then Ok None else pad_container 3 room start_len (be_bytes encoder).

Definition nru_pack_dl_user_data (room : Z) (out_buf : list Z) (data : nru_dl_user_data) : checked (option (list Z)) :=
  nru_pack_fields room out_buf (nru_dl_user_data_fields data).

Definition nru_pack_dl_data_delivery_status (room : Z) (out_buf : list Z) (status : nru_dl_data_delivery_status) :
    checked (option (list Z)) :=
  nru_pack_fields room out_buf (nru_status_fields status).

(** ** Properties *)

Definition nru_list_ok {A} (max : Z) (ok : A -> Prop) (o : option (list A)) : Prop :=
  match o with Some l => zlen l <= max /\ Forall ok l | None => True end.
Definition nru_block_ok (b : nru_pdcp_sn_discard_block) : Prop := in_range 24 (nrb_pdcp_sn_start b) /\ is_u8 (nrb_block_size b).
Definition nru_range_ok (r : nru_lost_nru_sn_range) : Prop := in_range 24 (nrl_nru_sn_start r) /\ in_range 24 (nrl_nru_sn_end r).
Definition opt_in_range (n : Z) (o : option Z) : Prop := forall x, o = Some x -> in_range n x.

(** Messages with their fields in the widths of the frames and their lists in the bounds of
    the code. *)
Record nru_dl_user_data_ok (data : nru_dl_user_data) : Prop := {
  nuo_sn : in_range 24 (nud_nru_sn data);
  nuo_discard : opt_in_range 24 (nud_dl_discard_pdcp_sn data);
  nuo_blocks : nru_list_ok nru_max_nof_pdcp_sn_discard_blocks nru_block_ok (nud_discard_blocks data);
  nuo_report : in_range 24 (nud_dl_report_pdcp_sn data);
}.

Record nru_status_ok (status : nru_dl_data_delivery_status) : Prop := {
  nso_size : is_u32 (nds_desired_buffer_size_for_drb status);
  nso_rate : opt_in_range 32 (nds_desired_data_rate status);
  nso_ranges : nru_list_ok nru_max_nof_lost_nru_sn_ranges nru_range_ok (nds_lost_nru_sn_ranges status);
  nso_delivered : opt_in_range 24 (nds_highest_delivered_pdcp_sn status);
  nso_transmitted : opt_in_range 24 (nds_highest_transmitted_pdcp_sn status);
  nso_cause : opt_in_range 8 (nds_cause_value status);
  nso_delivered_retx : opt_in_range 24 (nds_highest_delivered_retransmitted_pdcp_sn status);
  nso_retx : opt_in_range 24 (nds_highest_retransmitted_pdcp_sn status);
}.

(** What the frame carries: an empty list of discard blocks is no list, and the SN to
    report is there with its flag. *)
Definition nru_carried (data : nru_dl_user_data) : nru_dl_user_data :=
  data <| nud_discard_blocks ::= fun b => if nru_has_discard_blocks data then b else None |>
       <| nud_dl_report_pdcp_sn ::= fun sn => if nud_report_delivered data then sn else 0 |>.

Lemma bd_read_bool_field b fields d bs :
  decodes d (fields_bits (bool_field b :: fields) ++ bs) ->
  exists d', bd_read_bool d = Ok (Some (b, d')) /\ decodes d' (fields_bits fields ++ bs).
Proof.
  intros Hd. destruct (bd_read_field 8 (if b then 1 else 0) 1 fields d bs Hd) as (d' & E & Hd'); [by apply (bool_field_ok 8 b)|done|].
  exists d'. unfold bd_read_bool. rewrite E. cbn. by destruct b.
Qed.

Section pairs.
Context {A : Type}.
Variable mk : A -> Z * Z.
Variable build : Z -> Z -> A.
Hypothesis Hbuild : forall x, build (mk x).1 (mk x).2 = x.
Variables size n : Z.
Hypothesis Hsize : 0 <= n <= size /\ size <= 64.

Definition pair_fields (l : list A) : list (Z * Z) := flat_map (fun x => [((mk x).1, 24); ((mk x).2, n)]) l.
Definition pair_ok (x : A) : Prop := in_range 24 (mk x).1 /\ in_range n (mk x).2.

Lemma nru_read_pairs_spec l acc fields d bs :
  decodes d (fields_bits (pair_fields l ++ fields) ++ bs) -> Forall pair_ok l ->
  exists d', nru_read_pairs build size n (length l) acc d = Ok (Some (acc ++ l, d')) /\ decodes d' (fields_bits fields ++ bs).
Proof.
  revert acc d. induction l as [|x l IH]; intros acc d Hd Hl; cbn [nru_read_pairs length].
  { exists d. by rewrite app_nil_r. }
  apply Forall_cons in Hl as [[H1 H2] Hl]. cbn [pair_fields flat_map app] in Hd.
  destruct (bd_read_field 32 _ _ _ _ _ Hd) as (d1 & -> & Hd1); [split; [cbn; lia|done]|lia|]. cbn [verify_bind checked_bind].
  destruct (bd_read_field size _ _ _ _ _ Hd1) as (d2 & -> & Hd2); [split; [cbn; lia|done]|lia|]. cbn [verify_bind checked_bind].
  destruct (IH (acc ++ [build (mk x).1 (mk x).2]) d2 Hd2 Hl) as (d' & -> & Hd'). exists d'. by rewrite Hbuild, <- app_assoc.
Qed.

Lemma pair_fields_ok l : Forall pair_ok l -> Forall (field_ok 64) (pair_fields l) /\
  zlen (fields_bits (pair_fields l)) = (24 + n) * zlen l.
Proof.
  induction 1 as [|x l [H1 H2] Hl [IH1 IH2]]; [split; [apply Forall_nil_2|change (zlen (@nil A)) with 0; rewrite Z.mul_0_r; done]|].
  change (pair_fields (x :: l)) with (((mk x).1, 24) :: ((mk x).2, n) :: pair_fields l). split.
  - repeat (apply Forall_cons_2; [split; cbn [fst snd]; [lia|done]|]). done.
  - unfold fields_bits. cbn [flat_map]. fold (fields_bits (pair_fields l)). rewrite zlen_cons, !zlen_app, IH2.
    unfold zlen at 1 2. rewrite !length_bits_of. lia.
Qed.
End pairs.

Lemma nru_read_discard_blocks_spec blocks fields d bs :
  decodes d (fields_bits (nru_block_fields blocks ++ fields) ++ bs) ->
  nru_list_ok nru_max_nof_pdcp_sn_discard_blocks nru_block_ok (Some blocks) ->
  exists d', nru_read_discard_blocks d = Ok (Some (blocks, d')) /\ decodes d' (fields_bits fields ++ bs).
Proof.
  intros Hd [Hm Hl]. unfold nru_read_discard_blocks, nru_max_nof_pdcp_sn_discard_blocks in *. pose proof (zlen_nonneg blocks).
  destruct (bd_read_field 8 _ _ _ _ _ Hd) as (d1 & -> & Hd1); [split; cbn [fst snd]; lia|lia|]. cbn [verify_bind checked_bind].
  rewrite (proj2 (Z.ltb_ge _ _)) by lia. unfold zlen. rewrite Nat2Z.id.
  apply (nru_read_pairs_spec (fun b => (nrb_pdcp_sn_start b, nrb_block_size b)) mk_nru_pdcp_sn_discard_block
    (fun b => match b with mk_nru_pdcp_sn_discard_block _ _ => eq_refl end) 8 8 ltac:(lia) blocks [] fields d1 bs Hd1 Hl).
Qed.

Lemma nru_read_lost_ranges_spec ranges fields d bs :
  decodes d (fields_bits (nru_range_fields ranges ++ fields) ++ bs) ->
  nru_list_ok nru_max_nof_lost_nru_sn_ranges nru_range_ok (Some ranges) ->
  exists d', nru_read_lost_ranges d = Ok (Some (ranges, d')) /\ decodes d' (fields_bits fields ++ bs).
Proof.
  intros Hd [Hm Hl]. unfold nru_read_lost_ranges, nru_max_nof_lost_nru_sn_ranges in *. pose proof (zlen_nonneg ranges).
  destruct (bd_read_field 8 _ _ _ _ _ Hd) as (d1 & -> & Hd1); [split; cbn [fst snd]; lia|lia|]. cbn [verify_bind checked_bind].
  rewrite (proj2 (Z.ltb_ge _ _)) by lia. unfold zlen. rewrite Nat2Z.id.
  apply (nru_read_pairs_spec (fun r => (nrl_nru_sn_start r, nrl_nru_sn_end r)) mk_nru_lost_nru_sn_range
    (fun r => match r with mk_nru_lost_nru_sn_range _ _ => eq_refl end) 32 24 ltac:(lia) ranges [] fields d1 bs Hd1 Hl).
Qed.

(** The bytes that a list takes with its counter. *)
Definition nru_list_len {A} (n : Z) (o : option (list A)) : Z :=
  match o with Some l => 1 + n * zlen l | None => 0 end.
Definition opt_len {A} (n : Z) (o : option A) : Z := if has_value o then n else 0.

Definition nru_blocks_written (data : nru_dl_user_data) : option (list nru_pdcp_sn_discard_block) :=
  if nru_has_discard_blocks data then nud_discard_blocks data else None.
Definition nru_block_list_fields (blocks : option (list nru_pdcp_sn_discard_block)) : list (Z * Z) :=
  match blocks with Some blocks => nru_block_fields blocks | None => [] end.
Definition nru_range_list_fields (ranges : option (list nru_lost_nru_sn_range)) : list (Z * Z) :=
  match ranges with Some ranges => nru_range_fields ranges | None => [] end.
Definition nru_report_written (data : nru_dl_user_data) : option Z :=
  if nud_report_delivered data then Some (nud_dl_report_pdcp_sn data) else None.

Lemma nru_dl_fields_tail data :
  (if nru_has_discard_blocks data then
     match nud_discard_blocks data with Some blocks => nru_block_fields blocks | None => [] end else []) ++
  (if nud_report_delivered data then [(nud_dl_report_pdcp_sn data, 24)] else []) =
  nru_block_list_fields (nru_blocks_written data) ++ opt_field (nru_report_written data) 24.
Proof. unfold nru_blocks_written, nru_report_written. by destruct (nru_has_discard_blocks data), (nud_report_delivered data). Qed.

Lemma nru_written_flag data : has_value (nru_blocks_written data) = nru_has_discard_blocks data.
Proof.
  unfold nru_blocks_written. destruct (nru_has_discard_blocks data) eqn:E; [|done]. unfold nru_has_discard_blocks in E.
  by destruct (nud_discard_blocks data).
Qed.

Lemma nru_blocks_written_ok data :
  nru_dl_user_data_ok data -> nru_list_ok nru_max_nof_pdcp_sn_discard_blocks nru_block_ok (nru_blocks_written data).
Proof. intros [_ _ Hb _]. unfold nru_blocks_written. by destruct (nru_has_discard_blocks data). Qed.

Definition nru_dl_len (data : nru_dl_user_data) : Z :=
  5 + opt_len 3 (nud_dl_discard_pdcp_sn data) + nru_list_len 4 (nru_blocks_written data) + opt_len 3 (nru_report_written data).
Definition nru_status_len (status : nru_dl_data_delivery_status) : Z :=
  6 + opt_len 4 (nds_desired_data_rate status) + nru_list_len 6 (nds_lost_nru_sn_ranges status) +
  opt_len 3 (nds_highest_delivered_pdcp_sn status) + opt_len 3 (nds_highest_transmitted_pdcp_sn status) +
  opt_len 1 (nds_cause_value status) + opt_len 3 (nds_highest_delivered_retransmitted_pdcp_sn status) +
  opt_len 3 (nds_highest_retransmitted_pdcp_sn status).

Lemma nru_dl_len_bound data : nru_dl_user_data_ok data -> 5 <= nru_dl_len data <= 76.
Proof.
  intros Hok. pose proof (nru_blocks_written_ok _ Hok) as Hbw. unfold nru_dl_len, opt_len.
  destruct (nru_blocks_written data) as [l|]; cbn [nru_list_len]; [|destruct (has_value _), (has_value _); lia].
  destruct Hbw as [Hb _]. unfold nru_max_nof_pdcp_sn_discard_blocks in Hb. pose proof (zlen_nonneg l).
  destruct (has_value _), (has_value _); lia.
Qed.

Lemma nru_status_len_bound status : nru_status_ok status -> 6 <= nru_status_len status <= 36.
Proof.
  intros [_ _ H3 _ _ _ _ _]. unfold nru_status_len, opt_len.
  destruct (nds_lost_nru_sn_ranges status) as [l|]; cbn [nru_list_len]; [|repeat case_match; lia].
  destruct H3 as [Hb _]. unfold nru_max_nof_lost_nru_sn_ranges in Hb. pose proof (zlen_nonneg l). repeat case_match; lia.
Qed.

(** Fields of a width that fills [k] bytes, all in range. *)
Definition fields_fill (fields : list (Z * Z)) (k : Z) : Prop :=
  Forall (field_ok 64) fields /\ zlen (fields_bits fields) = 8 * k.

Lemma fields_fill_app l l' k k' : fields_fill l k -> fields_fill l' k' -> fields_fill (l ++ l') (k + k').
Proof. intros [H1 H2] [H3 H4]. split; [by apply Forall_app|]. rewrite fields_bits_app, zlen_app. lia. Qed.

Lemma opt_field_fill o n k : 0 <= n <= 64 -> n = 8 * k -> opt_in_range n o -> fields_fill (opt_field o n) (opt_len k o).
Proof.
  intros Hn Hk Ho. destruct o as [x|]; [|by split; [apply Forall_nil_2|]]. split.
  - apply Forall_singleton. split; [done|]. by apply Ho.
  - cbn. rewrite app_nil_r. unfold zlen, opt_len. rewrite length_bits_of. cbn. lia.
Qed.

Lemma block_list_fill o :
  nru_list_ok nru_max_nof_pdcp_sn_discard_blocks nru_block_ok o -> fields_fill (nru_block_list_fields o) (nru_list_len 4 o).
Proof.
  destruct o as [l|]; [|by split; [apply Forall_nil_2|]]. intros [Hm Hl]. unfold nru_max_nof_pdcp_sn_discard_blocks in *.
  pose proof (zlen_nonneg l). cbn [nru_block_list_fields nru_list_len].
  destruct (pair_fields_ok (fun b => (nrb_pdcp_sn_start b, nrb_block_size b)) 8 8 ltac:(lia) l Hl) as [Hf Hz].
  apply (fields_fill_app [(zlen l, 8)]).
  - split; [apply Forall_singleton; split; cbn [fst snd]; lia|done].
  - split; [exact Hf|]. change (zlen (fields_bits (pair_fields (fun b => (nrb_pdcp_sn_start b, nrb_block_size b)) 8 l)) = 8 * (4 * zlen l)). lia.
Qed.

Lemma range_list_fill o :
  nru_list_ok nru_max_nof_lost_nru_sn_ranges nru_range_ok o -> fields_fill (nru_range_list_fields o) (nru_list_len 6 o).
Proof.
  destruct o as [l|]; [|by split; [apply Forall_nil_2|]]. intros [Hm Hl]. unfold nru_max_nof_lost_nru_sn_ranges in *.
  pose proof (zlen_nonneg l). cbn [nru_range_list_fields nru_list_len].
  destruct (pair_fields_ok (fun r => (nrl_nru_sn_start r, nrl_nru_sn_end r)) 24 24 ltac:(lia) l Hl) as [Hf Hz].
  apply (fields_fill_app [(zlen l, 8)]).
  - split; [apply Forall_singleton; split; cbn [fst snd]; lia|done].
  - split; [exact Hf|]. change (zlen (fields_bits (pair_fields (fun r => (nrl_nru_sn_start r, nrl_nru_sn_end r)) 24 l)) = 8 * (6 * zlen l)). lia.
Qed.

Ltac fixed_fields :=
  split; [repeat (apply Forall_cons_2; [first [apply bool_field_ok; lia | split; cbn [fst snd]; unfold in_range in *; done || lia]|]);
          apply Forall_nil_2 | done].

Lemma nru_dl_fields_fill data : nru_dl_user_data_ok data -> fields_fill (nru_dl_user_data_fields data) (nru_dl_len data).
Proof.
  intros Hok. pose proof (nru_blocks_written_ok _ Hok). destruct Hok as [Hs Hd Hb Hr].
  unfold nru_dl_user_data_fields. rewrite nru_dl_fields_tail. unfold nru_dl_len. rewrite <- !Z.add_assoc.
  apply fields_fill_app; [fixed_fields|]. apply fields_fill_app; [by apply opt_field_fill|].
  apply fields_fill_app; [by apply block_list_fill|]. apply opt_field_fill; [done|done|].
  intros x. unfold nru_report_written. destruct (nud_report_delivered data); [|done]. by intros [= <-].
Qed.

Lemma nru_status_fields_fill status : nru_status_ok status -> fields_fill (nru_status_fields status) (nru_status_len status).
Proof.
  intros [H1 H2 H3 H4 H5 H6 H7 H8]. unfold nru_status_fields, nru_status_len. fold (nru_range_list_fields (nds_lost_nru_sn_ranges status)).
  rewrite <- !Z.add_assoc. apply fields_fill_app; [fixed_fields|]. apply fields_fill_app; [by apply opt_field_fill|].
  apply fields_fill_app; [by apply range_list_fill|]. repeat (apply fields_fill_app; [by apply opt_field_fill|]). by apply opt_field_fill.
Qed.

Lemma nru_pack_fields_spec room fields n :
  fields_fill fields n -> 0 < n -> n + 3 <= room ->
  exists container, nru_pack_fields room [] fields = Ok (Some container) /\ Forall is_u8 container /\ container <> [] /\
    (zlen container + 2) mod 4 = 0 /\ zlen container <= n + 3 /\
    exists bs, decodes (bit_decoder_new container) (fields_bits fields ++ bs).
Proof.
  intros [Hf Hl] Hn Hr. unfold nru_pack_fields.
  destruct (be_pack_fields_spec room fields (mk_bit_encoder [] 0) [] encodes_new Hf) as (e & -> & He).
  { rewrite Hl. change (zlen (@nil bool)) with 0. lia. }
  cbn [checked_bind negb]. change (zlen []) with 0. destruct (container_written room fields e n) as (c & Hc & Hu & Hlen & Hm & Hd); [done|done|done|].
  exists c. repeat (split; [done|]). split; [intros ->; change (zlen []) with 0 in Hlen; lia|]. split; [done|]. split; [lia|done].
Qed.

Ltac nru_field :=
  lazymatch goal with
  | H : decodes ?d (fields_bits (bool_field ?b :: ?l) ++ ?bs) |- context [bd_read_bool ?d] =>
      let d' := fresh "d" in let H' := fresh "Hd" in
      destruct (bd_read_bool_field b l d bs H) as (d' & -> & H'); clear H
  | H : decodes ?d (fields_bits (bool_field ?b :: ?l) ++ ?bs) |- context [bd_unpack 8 1 ?d] =>
      let d' := fresh "d" in let H' := fresh "Hd" in
      destruct (bd_unpack_field 8 (if b then 1 else 0) 1 l d bs H) as (d' & -> & H'); [by apply (bool_field_ok 8 b)|done|]; clear H
  | H : decodes ?d (fields_bits ((?v, ?n) :: ?l) ++ ?bs) |- context [bd_read ?size ?n ?d] =>
      let d' := fresh "d" in let H' := fresh "Hd" in
      destruct (bd_read_field size v n l d bs H) as (d' & -> & H'); [split; cbn [fst snd]; unfold in_range in *; done || lia|done|]; clear H
  | H : decodes ?d (fields_bits (opt_field ?v ?n ++ ?l) ++ ?bs) |- context [bd_read_if _ ?size ?n ?d] =>
      let d' := fresh "d" in let H' := fresh "Hd" in
      destruct (bd_read_opt_field size v n l d bs H) as (d' & -> & H'); [intros ? ?; split; [cbn; lia|by match goal with Ho : opt_in_range n v |- _ => apply Ho end]|done|]; clear H
  end; cbn [verify_bind checked_bind negb Z.eqb nru_type_dl_user_data nru_type_dl_data_delivery_status].

Lemma nru_read_blocks_if o fields d bs :
  decodes d (fields_bits (nru_block_list_fields o ++ fields) ++ bs) ->
  nru_list_ok nru_max_nof_pdcp_sn_discard_blocks nru_block_ok o ->
  exists d', nru_read_if (has_value o) nru_read_discard_blocks d = Ok (Some (o, d')) /\ decodes d' (fields_bits fields ++ bs).
Proof.
  intros Hd Hok. unfold nru_read_if. destruct o as [l|]; [|by exists d]. cbn [has_value].
  destruct (nru_read_discard_blocks_spec l fields d bs Hd Hok) as (d' & -> & Hd'). by exists d'.
Qed.

Lemma nru_read_ranges_if o fields d bs :
  decodes d (fields_bits (nru_range_list_fields o ++ fields) ++ bs) ->
  nru_list_ok nru_max_nof_lost_nru_sn_ranges nru_range_ok o ->
  exists d', nru_read_if (has_value o) nru_read_lost_ranges d = Ok (Some (o, d')) /\ decodes d' (fields_bits fields ++ bs).
Proof.
  intros Hd Hok. unfold nru_read_if. destruct o as [l|]; [|by exists d]. cbn [has_value].
  destruct (nru_read_lost_ranges_spec l fields d bs Hd Hok) as (d' & -> & Hd'). by exists d'.
Qed.

Lemma nru_carried_eq data :
  mk_nru_dl_user_data (nud_report_polling data) (nud_request_out_of_seq_report data) (nud_report_delivered data)
    (nud_user_data_existence_flag data) (nud_assist_info_report_polling_flag data) (nud_retransmission_flag data)
    (nud_nru_sn data) (nud_dl_discard_pdcp_sn data) (nru_blocks_written data) (default 0 (nru_report_written data)) = nru_carried data.
Proof.
  unfold nru_carried, nru_report_written. destruct data as [? ? [] ? ? ? ? ? ? ?]; cbn; unfold nru_blocks_written; cbn; reflexivity.
Qed.

(** DL user data is read as it was packed. For every message with its fields in their
    widths and at most 16 discard blocks, the frame is packed, takes 4 n - 2 bytes, as a
    GTP-U extension must, fits one, and unpacks to the message, but for an empty list of
    blocks, which is read as none, and an SN to report without its flag, which is not
    sent. *)
Lemma nru_dl_roundtrip room data :
  nru_dl_user_data_ok data -> nru_dl_len data + 3 <= room ->
  exists container, nru_pack_dl_user_data room [] data = Ok (Some container) /\ Forall is_u8 container /\
    (zlen container + 2) mod 4 = 0 /\ zlen container <= 79 /\
    nru_unpack_dl_user_data container = Ok (Some (nru_carried data)).
Proof.
  intros Hok Hr. pose proof (nru_dl_fields_fill data Hok) as Hfill. pose proof (nru_blocks_written_ok _ Hok) as Hbw.
  pose proof (nru_dl_len_bound data Hok) as Hlen.
  destruct (nru_pack_fields_spec room _ _ Hfill) as (c & Hc & Hu & Hne & Hm & Hl & bs & Hd); [lia|done|].
  exists c. split; [done|]. split; [done|]. split; [done|]. split; [lia|].
  unfold nru_dl_user_data_fields in Hd. rewrite nru_dl_fields_tail, <- nru_written_flag in Hd. destruct Hok as [Hs Hdi Hb Hre].
  unfold nru_unpack_dl_user_data. rewrite bool_decide_eq_false_2, (proj2 (Z.eqb_eq _ _)) by done. cbn [negb]. cbv zeta.
  cbn [app] in Hd. do 12 nru_field. rewrite !bool_flag. nru_field.
  destruct (nru_read_blocks_if _ _ _ _ Hd0 Hbw) as (d' & -> & Hd'). cbn [verify_bind checked_bind].
  assert (nud_report_delivered data = has_value (nru_report_written data)) as E
    by (unfold nru_report_written; by destruct (nud_report_delivered data)).
  rewrite <- (app_nil_r (opt_field (nru_report_written data) 24)) in Hd'.
  destruct (bd_read_opt_field 32 (nru_report_written data) 24 [] d' bs Hd') as (d'' & E2 & _); [|done|].
  { intros x. unfold nru_report_written. destruct (nud_report_delivered data); [|done]. intros [= <-]. split; [cbn; lia|done]. }
  rewrite E at 1. rewrite E2. cbn [verify_bind checked_bind]. by rewrite nru_carried_eq.
Qed.

(** The delivery status is read as it was packed. *)
Lemma nru_status_roundtrip room status :
  nru_status_ok status -> nru_status_len status + 3 <= room ->
  exists container, nru_pack_dl_data_delivery_status room [] status = Ok (Some container) /\ Forall is_u8 container /\
    (zlen container + 2) mod 4 = 0 /\ zlen container <= 39 /\
    nru_unpack_dl_data_delivery_status container = Ok (Some status).
Proof.
  intros Hok Hr. pose proof (nru_status_fields_fill status Hok) as Hfill. pose proof (nru_status_len_bound status Hok) as Hlen. destruct Hok as [H1 H2 H3 H4 H5 H6 H7 H8].
  destruct (nru_pack_fields_spec room _ _ Hfill) as (c & Hc & Hu & Hne & Hm & Hl & bs & Hd); [lia|done|].
  exists c. split; [done|]. split; [done|]. split; [done|]. split; [lia|]. clear Hc Hfill Hl Hlen Hr.
  unfold nru_status_fields in Hd. fold (nru_range_list_fields (nds_lost_nru_sn_ranges status)) in Hd.
  rewrite <- (app_nil_r (opt_field (nds_highest_retransmitted_pdcp_sn status) 24)) in Hd.
  unfold nru_unpack_dl_data_delivery_status. rewrite bool_decide_eq_false_2, (proj2 (Z.eqb_eq _ _)) by done. cbn [negb]. cbv zeta.
  cbn [app] in Hd. do 11 nru_field. nru_field.
  lazymatch goal with H : decodes ?d (fields_bits (nru_range_list_fields _ ++ _) ++ _) |- _ =>
    destruct (nru_read_ranges_if _ _ _ _ H H3) as (d' & -> & Hd'); clear H end. cbn [verify_bind checked_bind].
  do 5 nru_field. do 2 f_equal. destruct status as [? ? ? ? ? ? cause ? ?]; cbn in *. f_equal.
  destruct cause as [x|]; [|done]. cbn. f_equal. unfold wrap. rewrite Z.mod_small; [done|by apply H6].
Qed.

(** ** Unpacking any bytes *)

Lemma bd_read_bool_total d : decoding d -> exists r, bd_read_bool d = Ok r /\ match r with Some (_, d') => decoding d' | None => True end.
Proof.
  intros Hd. unfold bd_read_bool. destruct (bd_read_total 8 1 d Hd) as ([[v d']|] & -> & Hr); [lia|lia| |by eexists].
  eexists. split; [done|]. apply Hr.
Qed.

Lemma nru_read_pairs_total {A} (build : Z -> Z -> A) size n turns acc d :
  decoding d -> 0 <= n <= size -> size <= 64 ->
  exists r, nru_read_pairs build size n turns acc d = Ok r /\
    match r with
    | Some (l, d') => decoding d' /\ length l = (length acc + turns)%nat /\
        exists l', l = acc ++ l' /\ Forall (fun x => exists a b, x = build a b /\ in_range 24 a /\ in_range n b) l'
    | None => True
    end.
Proof.
  intros Hd Hn Hs. revert acc d Hd. induction turns as [|turns IH]; intros acc d Hd; cbn [nru_read_pairs].
  { eexists. split; [done|]. split; [done|]. split; [lia|]. exists []. by rewrite app_nil_r. }
  destruct (bd_read_total 32 24 d Hd) as ([[x d1]|] & -> & Hx); [lia|lia| |by eexists]. destruct Hx as [Hx Hd1]. cbn [verify_bind checked_bind].
  destruct (bd_read_total size n d1 Hd1 Hn Hs) as ([[y d2]|] & -> & Hy); [|by eexists]. destruct Hy as [Hy Hd2]. cbn [verify_bind checked_bind].
  destruct (IH (acc ++ [build x y]) d2 Hd2) as (r & -> & Hr). eexists. split; [done|]. destruct r as [[l d']|]; [|done].
  destruct Hr as (Hd' & Hl & l' & -> & Hf). split; [done|]. rewrite Hl, length_app. cbn [length]. split; [lia|].
  exists (build x y :: l'). rewrite <- app_assoc. split; [done|]. apply Forall_cons_2; [by exists x, y|done].
Qed.

Lemma nru_read_list_total {A} (build : Z -> Z -> A) (ok : A -> Prop) size n max flag d :
  decoding d -> 0 <= n <= size -> size <= 64 -> 0 <= max ->
  (forall a b, in_range 24 a -> in_range n b -> ok (build a b)) ->
  exists r, nru_read_if flag (fun d => verify? (nof, d) := bd_read 8 8 d in
    if max <? nof then Ok None else nru_read_pairs build size n (Z.to_nat nof) [] d) d = Ok r /\
    match r with Some (l, d') => nru_list_ok max ok l /\ decoding d' | None => True end.
Proof.
  intros Hd Hn Hs Hm Hok. unfold nru_read_if. destruct flag; [|eexists; by split].
  destruct (bd_read_total 8 8 d Hd) as ([[nof d1]|] & -> & Hnof); [lia|lia| |by eexists]. destruct Hnof as [Hnof Hd1]. cbn [verify_bind checked_bind].
  destruct (max <? nof) eqn:E; [by eexists|]. zbool.
  destruct (nru_read_pairs_total build size n (Z.to_nat nof) [] d1 Hd1 Hn Hs) as ([[l d']|] & -> & Hr); [|by eexists].
  destruct Hr as (Hd' & Hl & l' & -> & Hf). cbn [verify_bind checked_bind]. eexists. split; [done|]. split; [|done]. cbn [app length] in *. split.
  - unfold zlen, in_range in *. rewrite Hl. lia.
  - eapply Forall_impl; [exact Hf|]. intros x (a & b & -> & Ha & Hb). by apply Hok.
Qed.

Ltac nru_total :=
  lazymatch goal with
  | |- exists r, (if ?b then Ok None else _) = Ok r /\ _ => destruct b; [by eexists|]
  | H : decoding ?d |- context [bd_read_bool ?d] =>
      let Hr := fresh "Hr" in destruct (bd_read_bool_total d H) as ([[? ?]|] & -> & Hr); [|by eexists]; clear H
  | H : decoding ?d |- context [bd_read ?size ?n ?d] =>
      let Hr := fresh "Hr" in destruct (bd_read_total size n d H) as ([[? ?]|] & -> & Hr); [lia|lia|destruct Hr as [? Hr]|by eexists]; clear H
  | H : decoding ?d |- context [bd_read_if ?flag ?size ?n ?d] =>
      let Hr := fresh "Hr" in destruct (bd_read_if_total flag size n d H) as ([[? ?]|] & -> & Hr); [lia|lia|destruct Hr as (? & ? & Hr)|by eexists]; clear H
  | H : decoding ?d |- context [bd_unpack ?size ?n ?d] =>
      let Hr := fresh "Hr" in destruct (bd_unpack_moves size n d H) as (? & ? & ? & -> & _ & Hr & _); [lia|lia|]; clear H
  | H : decoding ?d |- context [nru_read_if ?flag nru_read_discard_blocks ?d] =>
      let Hr := fresh "Hr" in let E := fresh "E" in let r := fresh "r" in
      destruct (nru_read_list_total mk_nru_pdcp_sn_discard_block nru_block_ok 8 8 nru_max_nof_pdcp_sn_discard_blocks flag d H)
        as (r & E & Hr); [lia|lia|done|done|]; change (nru_read_if flag nru_read_discard_blocks d = Ok r) in E; rewrite E; clear E H;
      destruct r as [[? ?]|]; [destruct Hr as [? Hr]|by eexists]
  | H : decoding ?d |- context [nru_read_if ?flag nru_read_lost_ranges ?d] =>
      let Hr := fresh "Hr" in let E := fresh "E" in let r := fresh "r" in
      destruct (nru_read_list_total mk_nru_lost_nru_sn_range nru_range_ok 32 24 nru_max_nof_lost_nru_sn_ranges flag d H)
        as (r & E & Hr); [lia|lia|done|done|]; change (nru_read_if flag nru_read_lost_ranges d = Ok r) in E; rewrite E; clear E H;
      destruct r as [[? ?]|]; [destruct Hr as [? Hr]|by eexists]
  end; cbn [verify_bind checked_bind].

(** Whatever the bytes, unpacking ends and never aborts, and what it accepts is a message
    in its widths and bounds. *)
Lemma nru_unpack_dl_total container :
  Forall is_u8 container ->
  exists r, nru_unpack_dl_user_data container = Ok r /\ match r with Some data => nru_dl_user_data_ok data | None => True end.
Proof.
  intros Hu. unfold nru_unpack_dl_user_data. case_bool_decide; [by eexists|]. destruct (negb _); [by eexists|]. cbv zeta.
  pose proof (decoding_new _ Hu) as Hd. repeat nru_total. eexists. split; [done|].
  split; cbn; try done. lazymatch goal with |- in_range 24 (default 0 ?o) => destruct o; cbn; [eauto|by split] end.
Qed.

Lemma nru_unpack_status_total container :
  Forall is_u8 container ->
  exists r, nru_unpack_dl_data_delivery_status container = Ok r /\ match r with Some status => nru_status_ok status | None => True end.
Proof.
  intros Hu. unfold nru_unpack_dl_data_delivery_status. case_bool_decide; [by eexists|]. destruct (negb _); [by eexists|]. cbv zeta.
  pose proof (decoding_new _ Hu) as Hd. repeat nru_total. eexists. split; [done|].
  split; cbn; try done. intros x Hx. lazymatch type of Hx with option_map u8 ?o = _ => destruct o; [|done] end. injection Hx as <-.
  apply wrap_range. lia.
Qed.
