(* ===== verification/GtpuNru.v ===== *)
(** * GTP-U: the NR-U tunnels

    Models [gtpu_tunnel_nru_tx_impl] and [gtpu_tunnel_nru_rx_impl] of
    [src/lib/gtpu/gtpu_tunnel_nru_tx_impl.h] and [src/lib/gtpu/gtpu_tunnel_nru_rx_impl.h],
    between the CU-UP and the DU (F1-U): NR-U messages in the NR RAN container of G-PDUs.
    Neither keeps a state. *)
From stdpp Require Import base numbers list.
From Stdlib Require Import ZArith Lia.
From S2P Require Import Prelude.
From S2P Require Import BitEncoding.
From S2P Require Import BitBytes.
From S2P Require Import GtpuPdu.
From S2P Require Import GtpuPduProps.
From S2P Require Import NruPacking.

Set Default Goal Selector "!".
Open Scope Z_scope.
Open Scope ran_scope.

(** ** Data *)

Inductive nru_node : Type := NodeDu | NodeCuUp | NodeInvalid.

Record nru_dl_message := mk_nru_dl_message {
  ndm_t_pdu : list Z;
  ndm_dl_user_data : nru_dl_user_data;
}.

(** The assistance information is not implemented and left out. *)
Record nru_ul_message := mk_nru_ul_message {
  num_t_pdu : option (list Z);
  num_data_delivery_status : option nru_dl_data_delivery_status;
}.

(** The PDU handed to the gateway. *)
Inductive gtpu_nru_tx_output : Type :=
| NruNewPdu (pdu : list Z).

(** The SDU handed to the lower layer. *)
Inductive gtpu_nru_rx_output : Type :=
| NruNewDlSdu (dl_message : nru_dl_message)
| NruNewUlSdu (ul_message : nru_ul_message).

(** What the memory pool answers: the room of the buffers of the container and of the
    header, whether the header could be put before the PDU, the PDU copied, and a chain
    created for it. *)
Record gtpu_nru_env := mk_gtpu_nru_env {
  nre_ext_room : Z;
  nre_hdr_room : Z;
  nre_prepend_ok : bool;
  nre_copy_ok : bool;
  nre_chain_ok : bool;
}.

(** ** Transmission *)

Section nru_tx.
Variable peer_teid : Z.
Variable env : gtpu_nru_env.

Definition nru_tx_header (next_ext_hdr_type : Z) : gtpu_header :=
  gtpu_header_default
    <| gh_flags := mk_gtpu_flags GTPU_FLAGS_VERSION_V1 GTPU_FLAGS_GTP_PROTOCOL true false false |>
    <| gh_message_type := GTPU_MSG_DATA_PDU |>
    <| gh_length := 0 |>
    <| gh_teid := peer_teid |>
    <| gh_next_ext_hdr_type := next_ext_hdr_type |>.

Definition nru_add_container (ext_buf : list Z) (hdr : gtpu_header) : gtpu_header :=
  hdr <| gh_ext_list ::= fun l => l ++ [mk_gtpu_extension_header nr_ran_container ext_buf] |>.

Definition nru_send (buf : list Z) (hdr : gtpu_header) : checked (list gtpu_nru_tx_output) :=
  let? written := gtpu_write_header (nre_hdr_room env) (nre_prepend_ok env) buf hdr in
  match written with
  | None => Ok []
  | Some pdu => Ok [NruNewPdu pdu]
  end.

Definition nru_handle_dl_sdu (dl_message : nru_dl_message) : checked (list gtpu_nru_tx_output) :=
  let hdr := nru_tx_header nr_ran_container in
  let? packed := nru_pack_dl_user_data (nre_ext_room env) [] (ndm_dl_user_data dl_message) in
  match packed with
  | None => Ok []
  | Some ext_buf => nru_send (ndm_t_pdu dl_message) (nru_add_container ext_buf hdr)
  end.

Definition nru_handle_ul_sdu (ul_message : nru_ul_message) : checked (list gtpu_nru_tx_output) :=
  let? hdr :=
    match num_data_delivery_status ul_message with
    | None => Ok (Some (nru_tx_header no_more_extension_headers))
    | Some status =>
        let? packed := nru_pack_dl_data_delivery_status (nre_ext_room env) [] status in
        Ok (option_map (fun ext_buf => nru_add_container ext_buf (nru_tx_header nr_ran_container)) packed)
    end in
  match hdr with
  | None => Ok []
  | Some hdr =>
      match num_t_pdu ul_message with
      | Some t_pdu => if nre_copy_ok env then nru_send t_pdu hdr else Ok []
      | None => nru_send [] hdr
      end
  end.
End nru_tx.

(** ** Reception *)

(** The first NR RAN container; the others and other extensions are ignored. *)
Fixpoint nru_find_container (exts : list gtpu_extension_header) (container : option (list Z)) : option (list Z) :=
  match exts with
  | [] => container
  | ext :: exts =>
      nru_find_container exts
        (if (extension_header_type ext =? nr_ran_container) && negb (has_value container)
         then Some (ext_container ext) else container)
  end.

Definition nru_handle_dissected (node : nru_node) (env : gtpu_nru_env) (pdu : gtpu_dissected_pdu) :
    checked (list gtpu_nru_rx_output) :=
  let container := nru_find_container (gh_ext_list (gd_hdr pdu)) None in
  match node with
  | NodeDu =>
      match container with
      | None => Ok []
      | Some container =>
          let? dud := nru_unpack_dl_user_data container in
          match dud with
          | None => Ok []
          | Some dud => let? t_pdu := gtpu_extract_msg pdu in Ok [NruNewDlSdu (mk_nru_dl_message t_pdu dud)]
          end
      end
  | NodeCuUp =>
      let? ddds :=
        match container with
        | None => Ok (Some None)
        | Some container => let? r := nru_unpack_dl_data_delivery_status container in Ok (option_map Some r)
        end in
      match ddds with
      | None => Ok []
      | Some ddds =>
          let? msg := gtpu_extract_msg pdu in
          if negb (nre_chain_ok env) then Ok [] else
          Ok [NruNewUlSdu (mk_nru_ul_message (if bool_decide (msg = []) then None else Some msg) ddds)]
      end
  | NodeInvalid => Ok []
  end.

(** Through [gtpu_tunnel_base_rx::handle_pdu]. *)
Definition nru_handle_pdu (node : nru_node) (env : gtpu_nru_env) (buf : list Z) : checked (list gtpu_nru_rx_output) :=
  let? d := gtpu_dissect_pdu buf in
  match d with
  | None => Ok []
  | Some pdu => nru_handle_dissected node env pdu
  end.

(** ** Messages that cross *)

(** A message over a tunnel: what the header holds. *)
Definition nru_header_of (peer_teid : Z) (container : option (list Z)) : gtpu_header :=
  match container with
  | Some c => nru_add_container c (nru_tx_header peer_teid nr_ran_container)
  | None => nru_tx_header peer_teid no_more_extension_headers
  end.

Definition nru_container_ok (c : list Z) : Prop := Forall is_u8 c /\ (zlen c + 2) mod 4 = 0 /\ zlen c <= 79.

Lemma nru_header_ok peer_teid container :
  is_u32 peer_teid -> (forall c, container = Some c -> nru_container_ok c) -> gtpu_header_ok (nru_header_of peer_teid container).
Proof.
  intros Ht Hc. destruct container as [c|]; [|by split; [..|apply Forall_nil_2|]]. destruct (Hc c eq_refl) as (Hu & Hm & Hl).
  split; try done. cbn. apply Forall_singleton. split; try done. cbn. lia.
Qed.

(** What is sent arrives: the PDU dissects to the container and the payload. *)
Lemma nru_send_spec env peer_teid container pdu :
  is_u32 peer_teid -> (forall c, container = Some c -> nru_container_ok c) -> Forall is_u8 pdu -> zlen pdu <= 65000 ->
  96 <= nre_hdr_room env -> nre_prepend_ok env = true ->
  exists raw d, nru_send env pdu (nru_header_of peer_teid container) = Ok [NruNewPdu raw] /\ Forall is_u8 raw /\
    gtpu_dissect_pdu raw = Ok (Some d) /\ gh_teid (gd_hdr d) = peer_teid /\ gtpu_read_teid raw = Some peer_teid /\
    nru_find_container (gh_ext_list (gd_hdr d)) None = container /\ gtpu_extract_msg d = Ok pdu.
Proof.
  intros Ht Hc Hp Hl Hr Hpre. pose proof (nru_header_ok peer_teid container Ht Hc) as Hok.
  assert (8 <= gtpu_hdr_len (nru_header_of peer_teid container) <= 93) as Hlen.
  { unfold gtpu_hdr_len. destruct container as [c|]; [|cbn; lia]. destruct (Hc c eq_refl) as (_ & _ & Hz). pose proof (zlen_nonneg c).
    cbn. lia. }
  destruct (gtpu_write_header_spec (nre_hdr_room env) pdu _ Hok) as (bytes & Hw & Hbb & Hwb & Hwl); [lia|].
  set (h := nru_header_of peer_teid container) in *.
  exists (bytes ++ pdu), (mk_gtpu_dissected_pdu (bytes ++ pdu) (gtpu_header_read h pdu) (gtpu_hdr_len h) false).
  assert (Forall is_u8 (bytes ++ pdu)) as Hu by (by apply Forall_app).
  assert (gtpu_dissect_pdu (bytes ++ pdu) = Ok (Some (mk_gtpu_dissected_pdu (bytes ++ pdu) (gtpu_header_read h pdu) (gtpu_hdr_len h) false))) as Hd
    by (apply (gtpu_dissect_written _ h pdu bytes); try done; lia).
  assert (gh_teid (gtpu_header_read h pdu) = peer_teid) as Htd by (by destruct container).
  split; [unfold nru_send; by rewrite Hpre, Hw|]. split; [done|]. split; [done|]. split; [done|].
  split; [rewrite <- Htd; exact (gtpu_dissect_teid _ _ Hu Hd)|]. split; [by destruct container|].
  unfold gtpu_extract_msg. cbn [gd_hdr_len gd_buf]. rewrite (proj2 (Z.leb_le _ _)) by (rewrite zlen_app; pose proof (zlen_nonneg pdu); lia).
  cbv iota. f_equal. rewrite <- Hwl. unfold zlen. rewrite Nat2Z.id. apply drop_app_length.
Qed.

(** The environment has the memory for any message. *)
Record nru_env_ok (env : gtpu_nru_env) : Prop := {
  neo_ext : 79 <= nre_ext_room env;
  neo_hdr : 96 <= nre_hdr_room env;
  neo_prepend : nre_prepend_ok env = true;
  neo_copy : nre_copy_ok env = true;
  neo_chain : nre_chain_ok env = true;
}.

Record nru_payload_ok (pdu : list Z) : Prop := {
  npo_bytes : Forall is_u8 pdu;
  npo_len : zlen pdu <= 65000;
}.

Lemma nru_dl_crosses env env' peer_teid m :
  nru_env_ok env -> is_u32 peer_teid -> nru_payload_ok (ndm_t_pdu m) -> nru_dl_user_data_ok (ndm_dl_user_data m) ->
  exists raw, nru_handle_dl_sdu peer_teid env m = Ok [NruNewPdu raw] /\ gtpu_read_teid raw = Some peer_teid /\
    nru_handle_pdu NodeDu env' raw = Ok [NruNewDlSdu (mk_nru_dl_message (ndm_t_pdu m) (nru_carried (ndm_dl_user_data m)))].
Proof.
  intros He Ht [Hb Hl] Hok. destruct He as [He1 He2 He3 He4 He5].
  pose proof (nru_dl_len_bound _ Hok). destruct (nru_dl_roundtrip (nre_ext_room env) (ndm_dl_user_data m) Hok) as (c & Hp & Hu & Hm & Hlen & Hun); [lia|].
  destruct (nru_send_spec env peer_teid (Some c) (ndm_t_pdu m) Ht) as (raw & d & Hs & Hraw & Hd & Hteid & Hrt & Hf & Hx); try done.
  { by intros c' [= <-]. }
  exists raw. split; [|split; [done|]].
  - unfold nru_handle_dl_sdu. by rewrite Hp.
  - unfold nru_handle_pdu, nru_handle_dissected. rewrite Hd. cbn [checked_bind]. rewrite Hf. cbv zeta iota. rewrite Hun.
    cbn [checked_bind]. by rewrite Hx.
Qed.

(** A payload that is there but empty is no payload at the other end. *)
Definition nru_ul_carried (m : nru_ul_message) : nru_ul_message :=
  mk_nru_ul_message (match num_t_pdu m with Some [] => None | t => t end) (num_data_delivery_status m).

Lemma nru_ul_crosses env env' peer_teid m :
  nru_env_ok env -> nru_env_ok env' -> is_u32 peer_teid -> nru_payload_ok (default [] (num_t_pdu m)) ->
  (forall status, num_data_delivery_status m = Some status -> nru_status_ok status) ->
  exists raw, nru_handle_ul_sdu peer_teid env m = Ok [NruNewPdu raw] /\ gtpu_read_teid raw = Some peer_teid /\
    nru_handle_pdu NodeCuUp env' raw = Ok [NruNewUlSdu (nru_ul_carried m)].
Proof.
  intros [He1 He2 He3 He4 _] [_ _ _ _ He5] Ht [Hb Hl] Hok. destruct m as [t_pdu ddds]. cbn [num_t_pdu num_data_delivery_status] in *.
  assert (exists container, (forall c, container = Some c -> nru_container_ok c) /\
    nru_handle_ul_sdu peer_teid env (mk_nru_ul_message t_pdu ddds) = nru_send env (default [] t_pdu) (nru_header_of peer_teid container) /\
    match container with None => ddds = None | Some c => nru_unpack_dl_data_delivery_status c = Ok ddds /\ ddds <> None end) as (container & Hc & Hs & Hr).
  { unfold nru_handle_ul_sdu. cbn [num_t_pdu num_data_delivery_status]. destruct ddds as [status|].
    - specialize (Hok status eq_refl). pose proof (nru_status_len_bound _ Hok).
      destruct (nru_status_roundtrip (nre_ext_room env) status Hok) as (c & -> & Hu & Hm & Hlen & Hun); [lia|].
      exists (Some c). split; [intros c' [= <-]; split_and!; [done..|lia]|]. cbn [checked_bind option_map]. rewrite He4. split; [|done].
      by destruct t_pdu.
    - exists None. split; [done|]. cbn [checked_bind]. rewrite He4. split; [|done]. by destruct t_pdu. }
  destruct (nru_send_spec env peer_teid container (default [] t_pdu) Ht Hc) as (raw & d & Hsend & Hraw & Hd & Hteid & Hrt & Hf & Hx); try done.
  exists raw. rewrite Hs. split; [done|]. split; [done|]. unfold nru_handle_pdu, nru_handle_dissected. rewrite Hd.
  cbn [checked_bind]. rewrite Hf, Hx, He5. cbv zeta iota. unfold nru_ul_carried. cbn [num_t_pdu num_data_delivery_status negb].
  destruct container as [c|]; [destruct Hr as [-> Hne]; destruct ddds; [|done]|rewrite Hr];
    cbn [checked_bind option_map]; by destruct t_pdu as [[|]|].
Qed.

Lemma nru_find_u8 raw exts container :
  Forall is_u8 raw -> Forall (ext_read_ok raw) exts -> (forall c, container = Some c -> Forall is_u8 c) ->
  forall c, nru_find_container exts container = Some c -> Forall is_u8 c.
Proof.
  intros Hu. revert container. induction exts as [|e exts IH]; intros container He Hc; cbn [nru_find_container]; [done|].
  apply Forall_cons in He as [[_ He] Hes]. apply IH; [done|]. intros c. case_match; [|apply Hc]. intros [= <-]. by apply (slice_u8 raw).
Qed.

(** ** Any PDU *)

Definition nru_output_ok (out : gtpu_nru_rx_output) : Prop :=
  match out with
  | NruNewDlSdu m => nru_dl_user_data_ok (ndm_dl_user_data m)
  | NruNewUlSdu m => forall status, num_data_delivery_status m = Some status -> nru_status_ok status
  end.

Lemma nru_rx_safe node env raw :
  Forall is_u8 raw ->
  exists out, nru_handle_pdu node env raw = Ok out /\ (length out <= 1)%nat /\ Forall nru_output_ok out.
Proof.
  intros Hu. unfold nru_handle_pdu. destruct (gtpu_dissect_safe_cases raw Hu) as [->|(d & -> & Hok & Hx & _)];
    [exists []; split; [done|]; by split; [cbn; lia|]|]. cbn [checked_bind]. unfold nru_handle_dissected. cbv zeta. rewrite Hx.
  pose proof (nru_find_u8 raw _ None Hu (do_exts _ _ Hok) ltac:(done)) as Hc.
  assert (exists out : list gtpu_nru_rx_output, Ok [] = Ok out /\ (length out <= 1)%nat /\ Forall nru_output_ok out) as Hnone
    by (exists []; split; [done|]; by split; [cbn; lia|]).
  destruct node; [| |exact Hnone].
  - destruct (nru_find_container _ _) as [c|]; [|exact Hnone].
    destruct (nru_unpack_dl_total c (Hc c eq_refl)) as ([data|] & -> & Hr); [|exact Hnone]. cbn [checked_bind].
    eexists. split; [done|]. split; [cbn; lia|]. by apply Forall_singleton.
  - destruct (nru_find_container _ _) as [c|]; cbn [checked_bind].
    + destruct (nru_unpack_status_total c (Hc c eq_refl)) as ([status|] & -> & Hr); cbn [checked_bind option_map]; [|exact Hnone].
      destruct (negb _); [exact Hnone|]. eexists. split; [done|]. split; [cbn; lia|]. apply Forall_singleton. cbn. by intros ? [= <-].
    + destruct (negb _); [exact Hnone|]. eexists. split; [done|]. split; [cbn; lia|]. by apply Forall_singleton.
Qed.
