(* ===== verification/F1uDu.v ===== *)
(** * F1-U: the bearer of the DU

    Models [srs_du::f1u_bearer_impl] of [src/lib/f1u/du/f1u_bearer_impl.cpp]: between the
    RLC entity of a bearer and the NR-U tunnel to the CU-UP.  Downlink PDUs and discards go
    to the RLC entity; what it reports as transmitted and delivered goes back in delivery
    status messages, with the uplink SDUs or when the notification timer expires.

    The reports of the RLC entity are single stores to atomic variables from another
    executor: between any two loads of the bearer any stores can land. *)
From stdpp Require Import base numbers list.
From Stdlib Require Import ZArith Lia.
From S2P Require Import Prelude.
From S2P Require Import NruPacking.
From S2P Require Import GtpuNru.

Set Default Goal Selector "!".
Open Scope Z_scope.
Open Scope ran_scope.

(** ** State *)

Definition unset_pdcp_sn : Z := 2 ^ 32 - 1.

Record f1u_du_config := mk_f1u_du_config {
  fdc_rlc_queue_bytes_limit : Z;
  fdc_buffer_ul_on_startup : bool;
  fdc_ul_buffer_size : Z;
}.

(** The atomic variables, written by the RLC entity. *)
Record f1u_du_atomics := mk_f1u_du_atomics {
  fda_desired_buffer_size : Z;
  fda_highest_transmitted : Z;
  fda_highest_delivered : Z;
  fda_highest_retransmitted : Z;
  fda_highest_delivered_retransmitted : Z;
}.
#[export] Instance f1u_du_atomics_eta : RecordEta f1u_du_atomics := fun r =>
  mk_f1u_du_atomics (fda_desired_buffer_size r) (fda_highest_transmitted r) (fda_highest_delivered r)
    (fda_highest_retransmitted r) (fda_highest_delivered_retransmitted r).

(** [fdu_notif]: the values last written to a status ([notif_..]). *)
Record f1u_du := mk_f1u_du {
  fdu_stopped : bool;
  fdu_buffering : bool;
  fdu_ul_buffer : list nru_ul_message;
  fdu_ul_notif_timer : bool;
  fdu_cur : f1u_du_atomics;
  fdu_notif : f1u_du_atomics;
  fdu_tasks : list nru_dl_message;
}.
#[export] Instance f1u_du_eta : RecordEta f1u_du := fun r =>
  mk_f1u_du (fdu_stopped r) (fdu_buffering r) (fdu_ul_buffer r) (fdu_ul_notif_timer r) (fdu_cur r)
    (fdu_notif r) (fdu_tasks r).

(** To the RLC entity: an SDU, the discard of an SDU; to the tunnel: a message. *)
Inductive f1u_du_output : Type :=
| FduNewSdu (sdu : list Z) (is_retx : bool)
| FduDiscardSdu (pdcp_sn : Z)
| FduNewPdu (msg : nru_ul_message).

(** ** Reports of the RLC entity *)

Inductive f1u_du_store : Type :=
| StoreBufferSize (desired_buf_size : Z)
| StoreTransmitted (highest_pdcp_sn : Z)
| StoreDelivered (highest_pdcp_sn : Z)
| StoreRetransmitted (highest_pdcp_sn : Z)
| StoreDeliveredRetransmitted (highest_pdcp_sn : Z).

Definition fdu_store (st : f1u_du_store) (a : f1u_du_atomics) : f1u_du_atomics :=
  match st with
  | StoreBufferSize v => a <| fda_desired_buffer_size := v |>
  | StoreTransmitted v => a <| fda_highest_transmitted := v |>
  | StoreDelivered v => a <| fda_highest_delivered := v |>
  | StoreRetransmitted v => a <| fda_highest_retransmitted := v |>
  | StoreDeliveredRetransmitted v => a <| fda_highest_delivered_retransmitted := v |>
  end.

Definition fdu_stores (l : list f1u_du_store) (a : f1u_du_atomics) : f1u_du_atomics :=
  foldl (fun a st => fdu_store st a) a l.

(** The stores of each report, in their order. *)
Definition fdu_handle_transmit_notification (highest_pdcp_sn desired_buf_size : Z) : list f1u_du_store :=
  [StoreTransmitted highest_pdcp_sn; StoreBufferSize desired_buf_size].
Definition fdu_handle_delivery_notification (highest_pdcp_sn : Z) : list f1u_du_store :=
  [StoreDelivered highest_pdcp_sn].
Definition fdu_handle_retransmit_notification (highest_pdcp_sn : Z) : list f1u_du_store :=
  [StoreRetransmitted highest_pdcp_sn].
Definition fdu_handle_delivery_retransmitted_notification (highest_pdcp_sn : Z) : list f1u_du_store :=
  [StoreDeliveredRetransmitted highest_pdcp_sn].

(** ** Delivery status *)

Section f1u_du.
Variable cfg : f1u_du_config.
Implicit Types s : f1u_du.
Implicit Types status : nru_dl_data_delivery_status.

Definition fdu_fill_desired_buffer_size status s : bool * nru_dl_data_delivery_status * f1u_du :=
  let cur := fda_desired_buffer_size (fdu_cur s) in
  let status := status <| nds_desired_buffer_size_for_drb := cur |> in
  if negb (cur =? fda_desired_buffer_size (fdu_notif s)) then
    (true, status, s <| fdu_notif ::= fun n => n <| fda_desired_buffer_size := cur |> |>)
  else (false, status, s).

Definition fdu_fill_highest_transmitted status s : bool * nru_dl_data_delivery_status * f1u_du :=
  let cur := fda_highest_transmitted (fdu_cur s) in
  if cur =? unset_pdcp_sn then (false, status, s) else
  let status := status <| nds_highest_transmitted_pdcp_sn := Some cur |> in
  if negb (cur =? fda_highest_transmitted (fdu_notif s)) then
    (true, status, s <| fdu_notif ::= fun n => n <| fda_highest_transmitted := cur |> |>)
  else (false, status, s).

Definition fdu_fill_highest_delivered status s : bool * nru_dl_data_delivery_status * f1u_du :=
  let cur := fda_highest_delivered (fdu_cur s) in
  if cur =? unset_pdcp_sn then (false, status, s) else
  let status := status <| nds_highest_delivered_pdcp_sn := Some cur |> in
  if negb (cur =? fda_highest_delivered (fdu_notif s)) then
    (true, status, s <| fdu_notif ::= fun n => n <| fda_highest_delivered := cur |> |>)
  else (false, status, s).

Definition fdu_fill_highest_retransmitted status s : bool * nru_dl_data_delivery_status * f1u_du :=
  let cur := fda_highest_retransmitted (fdu_cur s) in
  if negb (cur =? fda_highest_retransmitted (fdu_notif s)) then
    (true, status <| nds_highest_retransmitted_pdcp_sn := Some cur |>,
     s <| fdu_notif ::= fun n => n <| fda_highest_retransmitted := cur |> |>)
  else (false, status, s).

Definition fdu_fill_highest_delivered_retransmitted status s : bool * nru_dl_data_delivery_status * f1u_du :=
  let cur := fda_highest_delivered_retransmitted (fdu_cur s) in
  if negb (cur =? fda_highest_delivered_retransmitted (fdu_notif s)) then
    (true, status <| nds_highest_delivered_retransmitted_pdcp_sn := Some cur |>,
     s <| fdu_notif ::= fun n => n <| fda_highest_delivered_retransmitted := cur |> |>)
  else (false, status, s).

(** The stores that land before each of the five loads. *)
Record f1u_du_races := mk_f1u_du_races {
  fdr_1 : list f1u_du_store;
  fdr_2 : list f1u_du_store;
  fdr_3 : list f1u_du_store;
  fdr_4 : list f1u_du_store;
  fdr_5 : list f1u_du_store;
}.

Definition fdu_race (l : list f1u_du_store) s : f1u_du := s <| fdu_cur ::= fdu_stores l |>.

Definition fdu_fill_data_delivery_status (races : f1u_du_races) (msg : nru_ul_message) s :
    bool * nru_ul_message * f1u_du :=
  let status := nru_dl_data_delivery_status_default in
  let '(fresh1, status, s) := fdu_fill_desired_buffer_size status (fdu_race (fdr_1 races) s) in
  let '(fresh2, status, s) := fdu_fill_highest_transmitted status (fdu_race (fdr_2 races) s) in
  let '(fresh3, status, s) := fdu_fill_highest_delivered status (fdu_race (fdr_3 races) s) in
  let '(fresh4, status, s) := fdu_fill_highest_retransmitted status (fdu_race (fdr_4 races) s) in
  let '(fresh5, status, s) := fdu_fill_highest_delivered_retransmitted status (fdu_race (fdr_5 races) s) in
  (fresh1 || fresh2 || fresh3 || fresh4 || fresh5,
   mk_nru_ul_message (num_t_pdu msg) (Some status), s <| fdu_ul_notif_timer := true |>).

Definition fdu_send_data_delivery_status (races : f1u_du_races) (force : bool) s : bool * f1u_du * list f1u_du_output :=
  let '(fresh_values, msg, s) := fdu_fill_data_delivery_status races (mk_nru_ul_message None None) s in
  if negb fresh_values && negb force then (false, s, []) else (true, s, [FduNewPdu msg]).

(** ** Operations *)

Definition fdu_new : f1u_du :=
  let unset := mk_f1u_du_atomics 0 unset_pdcp_sn unset_pdcp_sn unset_pdcp_sn unset_pdcp_sn in
  mk_f1u_du false (fdc_buffer_ul_on_startup cfg) [] true
    (unset <| fda_desired_buffer_size := fdc_rlc_queue_bytes_limit cfg |>) unset [].

Definition fdu_handle_sdu (races : f1u_du_races) (sdu : list Z) s : f1u_du * list f1u_du_output :=
  let '(_, msg, s) := fdu_fill_data_delivery_status races (mk_nru_ul_message (Some sdu) None) s in
  if fdu_buffering s then
    if zlen (fdu_ul_buffer s) <? fdc_ul_buffer_size cfg then (s <| fdu_ul_buffer ::= fun l => l ++ [msg] |>, [])
    else (s, [])
  else (s, [FduNewPdu msg]).

(** [accepted]: the answer of the UE executor. *)
Definition fdu_handle_pdu (accepted : bool) (msg : nru_dl_message) s : f1u_du :=
  if accepted then s <| fdu_tasks ::= fun l => l ++ [msg] |> else s.

(** The SNs of the inner loop over a block. *)
Definition nru_block_sns (block : nru_pdcp_sn_discard_block) : list Z :=
  let pdcp_sn_end := u32 (nrb_pdcp_sn_start block + nrb_block_size block) in
  seqZ (nrb_pdcp_sn_start block) (pdcp_sn_end - nrb_pdcp_sn_start block).

Definition fdu_handle_pdu_impl (races : f1u_du_races) (msg : nru_dl_message) s : f1u_du * list f1u_du_output :=
  let out1 := if bool_decide (ndm_t_pdu msg = []) then []
              else [FduNewSdu (ndm_t_pdu msg) (nud_retransmission_flag (ndm_dl_user_data msg))] in
  let '(_, s, out2) :=
    if nud_report_polling (ndm_dl_user_data msg) then fdu_send_data_delivery_status races true s
    else (false, s, []) in
  let out3 := match nud_discard_blocks (ndm_dl_user_data msg) with
              | Some blocks => map FduDiscardSdu (flat_map nru_block_sns blocks)
              | None => []
              end in
  (s, out1 ++ out2 ++ out3).

(** The executor runs the next task. *)
Definition fdu_run_task (races : f1u_du_races) s : option (f1u_du * list f1u_du_output) :=
  match fdu_tasks s with
  | [] => None
  | msg :: tasks => Some (fdu_handle_pdu_impl races msg (s <| fdu_tasks := tasks |>))
  end.

Definition fdu_flush_ul_buffer s : f1u_du * list f1u_du_output :=
  if negb (fdu_buffering s) then (s, []) else
  (s <| fdu_ul_buffer := [] |> <| fdu_buffering := false |>, map FduNewPdu (fdu_ul_buffer s)).

Definition fdu_stop s : f1u_du :=
  (if fdu_stopped s then s else s <| fdu_ul_notif_timer := false |>) <| fdu_stopped := true |>.

(** The timer expires, which it does when it runs. *)
Definition fdu_on_expired_ul_notif_timer (races : f1u_du_races) s : option (f1u_du * list f1u_du_output) :=
  if fdu_ul_notif_timer s then
    let '(_, s, out) := fdu_send_data_delivery_status races false (s <| fdu_ul_notif_timer := false |>) in
    Some (s, out)
  else None.

(** ** Executions *)

Inductive f1u_du_op : Type :=
| FduHandleSdu (races : f1u_du_races) (sdu : list Z)
| FduHandlePdu (accepted : bool) (msg : nru_dl_message)
| FduRunTask (races : f1u_du_races)
| FduFlushUlBuffer
| FduStore (st : f1u_du_store)
| FduTimer (races : f1u_du_races)
| FduStop.

Definition fdu_step (op : f1u_du_op) s : option (f1u_du * list f1u_du_output) :=
  match op with
  | FduHandleSdu races sdu => Some (fdu_handle_sdu races sdu s)
  | FduHandlePdu accepted msg => Some (fdu_handle_pdu accepted msg s, [])
  | FduRunTask races => fdu_run_task races s
  | FduFlushUlBuffer => Some (fdu_flush_ul_buffer s)
  | FduStore st => Some (fdu_race [st] s, [])
  | FduTimer races => fdu_on_expired_ul_notif_timer races s
  | FduStop => Some (fdu_stop s, [])
  end.

Inductive fdu_exec : f1u_du -> list f1u_du_op -> list f1u_du_output -> f1u_du -> Prop :=
| fdu_exec_nil s : fdu_exec s [] [] s
| fdu_exec_step s1 ops out1 s2 op out2 s3 :
    fdu_exec s1 ops out1 s2 -> fdu_step op s2 = Some (s3, out2) ->
    fdu_exec s1 (ops ++ [op]) (out1 ++ out2) s3.
End f1u_du.
