(* ===== verification/F1uCuUp.v ===== *)
(** * F1-U: the bearer of the CU-UP

    Models [srs_cu_up::f1u_bearer_impl] of [src/lib/f1u/cu_up/f1u_bearer_impl.cpp]: between
    the PDCP entity of a bearer and the NR-U tunnel to the DU.  SDUs take along the blocks
    of sequence numbers that PDCP discarded; the delivery status of the DU becomes
    notifications of PDCP, deferred to an executor.  Messages arrive through a batched
    dispatch queue. *)
From stdpp Require Import base numbers list.
From Stdlib Require Import ZArith Lia.
From S2P Require Import Prelude.
From S2P Require Import BitBytes.
From S2P Require Import NruPacking.
From S2P Require Import GtpuNru.
From S2P Require Import DispatchQueue.
From S2P Require Import DispatchQueueRuns.
From S2P Require Import F1uDu.

Set Default Goal Selector "!".
Open Scope Z_scope.
Open Scope ran_scope.

(** ** State *)

Record f1u_cu_config := mk_f1u_cu_config {
  fcc_queue_size : Z;
  fcc_batch_size : Z;
}.

(** What is deferred for PDCP. *)
Inductive f1u_cu_notification : Type :=
| CuDesiredBufferSize (desired_buffer_size : Z)
| CuTransmit (pdcp_sn : Z)
| CuDelivery (pdcp_sn : Z)
| CuRetransmit (pdcp_sn : Z)
| CuDeliveryRetransmitted (pdcp_sn : Z).

(** [fcu_tasks]: the notifications that wait in the executor. *)
Record f1u_cu := mk_f1u_cu {
  fcu_queue : dispatch_queue nru_ul_message;
  fcu_stopped : bool;
  fcu_dl_notif_timer : bool;
  fcu_notif_highest_transmitted : Z;
  fcu_notif_highest_delivered : Z;
  fcu_discard_blocks : list nru_pdcp_sn_discard_block;
  fcu_tasks : list f1u_cu_notification;
}.
#[export] Instance f1u_cu_eta : RecordEta f1u_cu := fun r =>
  mk_f1u_cu (fcu_queue r) (fcu_stopped r) (fcu_dl_notif_timer r) (fcu_notif_highest_transmitted r)
    (fcu_notif_highest_delivered r) (fcu_discard_blocks r) (fcu_tasks r).

(** A message for the tunnel; an SDU for PDCP; a start of the inactivity timer of the UE; a
    notification that reaches PDCP. *)
Inductive f1u_cu_output : Type :=
| FcuNewPdu (msg : nru_dl_message)
| FcuNewSdu (sdu : list Z)
| FcuRunInactivityTimer
| FcuNotify (n : f1u_cu_notification).

Definition fcu_new : f1u_cu := mk_f1u_cu dq_new false false unset_pdcp_sn unset_pdcp_sn [] [].

(** ** Uplink *)

Implicit Types s : f1u_cu.

Section uplink.
(** Which tasks the executor takes. *)
Variable deferred : f1u_cu_notification -> bool.

Definition fcu_defer (n : f1u_cu_notification) s : f1u_cu :=
  if deferred n then s <| fcu_tasks ::= fun l => l ++ [n] |> else s.

(** The SN is remembered before the task is deferred, taken or not. *)
Definition fcu_on_highest_transmitted (o : option Z) s : f1u_cu * list f1u_cu_output :=
  match o with
  | None => (s, [])
  | Some pdcp_sn =>
      if negb (pdcp_sn =? fcu_notif_highest_transmitted s) then
        (fcu_defer (CuTransmit pdcp_sn) (s <| fcu_notif_highest_transmitted := pdcp_sn |>), [FcuRunInactivityTimer])
      else (s, [])
  end.

Definition fcu_on_highest_delivered (o : option Z) s : f1u_cu :=
  match o with
  | None => s
  | Some pdcp_sn =>
      if negb (pdcp_sn =? fcu_notif_highest_delivered s) then
        fcu_defer (CuDelivery pdcp_sn) (s <| fcu_notif_highest_delivered := pdcp_sn |>)
      else s
  end.

Definition fcu_on_status (status : nru_dl_data_delivery_status) s : f1u_cu * list f1u_cu_output :=
  let s := fcu_defer (CuDesiredBufferSize (nds_desired_buffer_size_for_drb status)) s in
  let '(s, out) := fcu_on_highest_transmitted (nds_highest_transmitted_pdcp_sn status) s in
  let s := fcu_on_highest_delivered (nds_highest_delivered_pdcp_sn status) s in
  let s := match nds_highest_retransmitted_pdcp_sn status with
           | Some pdcp_sn => fcu_defer (CuRetransmit pdcp_sn) s | None => s end in
  let s := match nds_highest_delivered_retransmitted_pdcp_sn status with
           | Some pdcp_sn => fcu_defer (CuDeliveryRetransmitted pdcp_sn) s | None => s end in
  (s, out).

Definition fcu_handle_pdu_impl (msg : nru_ul_message) s : f1u_cu * list f1u_cu_output :=
  if fcu_stopped s then (s, []) else
  let out1 := match num_t_pdu msg with
              | Some t_pdu => if bool_decide (t_pdu = []) then [] else [FcuRunInactivityTimer; FcuNewSdu t_pdu]
              | None => []
              end in
  match num_data_delivery_status msg with
  | None => (s, out1)
  | Some status => let '(s, out2) := fcu_on_status status s in (s, out1 ++ out2)
  end.

(** The callback of the queue. *)
Fixpoint fcu_handle_batch (msgs : list nru_ul_message) s : f1u_cu * list f1u_cu_output :=
  match msgs with
  | [] => (s, [])
  | msg :: msgs =>
      let '(s, out1) := fcu_handle_pdu_impl msg s in
      let '(s, out2) := fcu_handle_batch msgs s in
      (s, out1 ++ out2)
  end.

(** A thread of the queue makes a step; [DqPush] is [handle_pdu]. *)
Definition fcu_queue_act (cfg : f1u_cu_config) (a : dq_action nru_ul_message) s : option (f1u_cu * list f1u_cu_output) :=
  match dq_act (fcc_queue_size cfg) (fcc_batch_size cfg) a (fcu_queue s) with
  | None => None
  | Some (dq, ev) => Some (fcu_handle_batch (dq_delivered ev) (s <| fcu_queue := dq |>))
  end.
End uplink.

(** The executor runs the next notification. *)
Definition fcu_run_task s : option (f1u_cu * list f1u_cu_output) :=
  match fcu_tasks s with
  | [] => None
  | n :: tasks => Some (s <| fcu_tasks := tasks |>, [FcuNotify n])
  end.

(** ** Downlink *)

Definition fcu_fill_discard_blocks (data : nru_dl_user_data) s : nru_dl_user_data * f1u_cu :=
  if bool_decide (fcu_discard_blocks s = []) then (data, s) else
  (data <| nud_discard_blocks := Some (fcu_discard_blocks s) |>, s <| fcu_discard_blocks := [] |>).

Definition fcu_handle_sdu (sdu : list Z) (is_retx : bool) s : f1u_cu * list f1u_cu_output :=
  if fcu_stopped s then (s, []) else
  let data := nru_dl_user_data_default <| nud_retransmission_flag := is_retx |> in
  let '(data, s) := fcu_fill_discard_blocks data s in
  (s <| fcu_dl_notif_timer := false |>, [FcuNewPdu (mk_nru_dl_message sdu data)]).

Definition fcu_flush_discard_blocks s : f1u_cu * list f1u_cu_output :=
  let '(data, s) := fcu_fill_discard_blocks nru_dl_user_data_default s in
  let s := s <| fcu_dl_notif_timer := false |> in
  if has_value (nud_discard_blocks data) then (s, [FcuNewPdu (mk_nru_dl_message [] data)]) else (s, []).

(** [static_vector::push_back] asserts that there is room. *)
Definition fcu_push_block (pdcp_sn : Z) s : checked f1u_cu :=
  assert? zlen (fcu_discard_blocks s) <? nru_max_nof_pdcp_sn_discard_blocks;
  Ok (s <| fcu_discard_blocks ::= fun l => l ++ [mk_nru_pdcp_sn_discard_block pdcp_sn 1] |>).

Definition fcu_discard_sdu (pdcp_sn : Z) s : checked (f1u_cu * list f1u_cu_output) :=
  let s := s <| fcu_dl_notif_timer := true |> in
  match last (fcu_discard_blocks s) with
  | None => let? s := fcu_push_block pdcp_sn s in Ok (s, [])
  | Some last_block =>
      if u32 (nrb_pdcp_sn_start last_block + nrb_block_size last_block) =? pdcp_sn then
        let block := mk_nru_pdcp_sn_discard_block (nrb_pdcp_sn_start last_block) (u8 (nrb_block_size last_block + 1)) in
        Ok (s <| fcu_discard_blocks ::= fun l => removelast l ++ [block] |>, [])
      else
        let? s := fcu_push_block pdcp_sn s in
        if zlen (fcu_discard_blocks s) =? nru_max_nof_pdcp_sn_discard_blocks then Ok (fcu_flush_discard_blocks s)
        else Ok (s, [])
  end.

(** The timer expires, which it does when it runs. *)
Definition fcu_on_expired_dl_notif_timer s : option (f1u_cu * list f1u_cu_output) :=
  if fcu_dl_notif_timer s then
    let s := s <| fcu_dl_notif_timer := false |> in
    Some (if fcu_stopped s then (s, []) else fcu_flush_discard_blocks s)
  else None.

Definition fcu_stop s : f1u_cu :=
  if fcu_stopped s then s else s <| fcu_stopped := true |> <| fcu_dl_notif_timer := false |>.

(** ** Executions *)

Inductive f1u_cu_op : Type :=
| FcuHandleSdu (sdu : list Z) (is_retx : bool)
| FcuDiscardSdu (pdcp_sn : Z)
| FcuTimer
| FcuQueueAct (deferred : f1u_cu_notification -> bool) (a : dq_action nru_ul_message)
| FcuRunTask
| FcuStop.

Definition fcu_step (cfg : f1u_cu_config) (op : f1u_cu_op) s : option (checked (f1u_cu * list f1u_cu_output)) :=
  match op with
  | FcuHandleSdu sdu is_retx => Some (Ok (fcu_handle_sdu sdu is_retx s))
  | FcuDiscardSdu pdcp_sn => Some (fcu_discard_sdu pdcp_sn s)
  | FcuTimer => option_map Ok (fcu_on_expired_dl_notif_timer s)
  | FcuQueueAct deferred a => option_map Ok (fcu_queue_act deferred cfg a s)
  | FcuRunTask => option_map Ok (fcu_run_task s)
  | FcuStop => Some (Ok (fcu_stop s, []))
  end.

Inductive fcu_exec (cfg : f1u_cu_config) : f1u_cu -> list f1u_cu_op -> list f1u_cu_output -> f1u_cu -> Prop :=
| fcu_exec_nil s : fcu_exec cfg s [] [] s
| fcu_exec_step s1 ops out1 s2 op out2 s3 :
    fcu_exec cfg s1 ops out1 s2 -> fcu_step cfg op s2 = Some (Ok (s3, out2)) ->
    fcu_exec cfg s1 (ops ++ [op]) (out1 ++ out2) s3.
