(* ===== verification/F1uLink.v ===== *)
(** * F1-U: the two bearers and the tunnel between them

    What PDCP hands down and discards at the CU-UP is what the RLC entity gets at the DU;
    what the RLC entity reports at the DU is what PDCP is notified of at the CU-UP. *)
From stdpp Require Import base numbers list.
From Stdlib Require Import ZArith Lia.
From S2P Require Import Prelude.
From S2P Require Import BitBytes.
From S2P Require Import GtpuPdu.
From S2P Require Import NruPacking.
From S2P Require Import GtpuNru.
From S2P Require Import DispatchQueue.
From S2P Require Import DispatchQueueRuns.
From S2P Require Import F1uDu.
From S2P Require Import F1uCuUp.

Set Default Goal Selector "!".
Open Scope Z_scope.
Open Scope ran_scope.

(** ** Downlink: what goes in and what comes out *)

Definition fcu_pdus (out : list f1u_cu_output) : list nru_dl_message :=
  omap (fun o => match o with FcuNewPdu m => Some m | _ => None end) out.
Definition fcu_op_sdus (ops : list f1u_cu_op) : list (list Z * bool) :=
  omap (fun op => match op with FcuHandleSdu sdu is_retx => Some (sdu, is_retx) | _ => None end) ops.
Definition fcu_op_discards (ops : list f1u_cu_op) : list Z :=
  omap (fun op => match op with FcuDiscardSdu sn => Some sn | _ => None end) ops.
Definition fdu_sdus (out : list f1u_du_output) : list (list Z * bool) :=
  omap (fun o => match o with FduNewSdu sdu is_retx => Some (sdu, is_retx) | _ => None end) out.
Definition fdu_discards (out : list f1u_du_output) : list Z :=
  omap (fun o => match o with FduDiscardSdu sn => Some sn | _ => None end) out.

(** What a message brings. *)
Definition nru_msg_sdus (m : nru_dl_message) : list (list Z * bool) :=
  if bool_decide (ndm_t_pdu m = []) then [] else [(ndm_t_pdu m, nud_retransmission_flag (ndm_dl_user_data m))].
Definition nru_msg_discards (m : nru_dl_message) : list Z :=
  flat_map nru_block_sns (default [] (nud_discard_blocks (ndm_dl_user_data m))).

(** The DU handles messages one after the other, whatever the RLC entity stores meanwhile. *)
Fixpoint fdu_handle_all (races : list f1u_du_races) (msgs : list nru_dl_message) (s : f1u_du) :
    f1u_du * list f1u_du_output :=
  match races, msgs with
  | r :: races, m :: msgs =>
      let '(s, out1) := fdu_handle_pdu_impl r m s in
      let '(s, out2) := fdu_handle_all races msgs s in
      (s, out1 ++ out2)
  | _, _ => (s, [])
  end.

Lemma fcu_pdus_app l l' : fcu_pdus (l ++ l') = fcu_pdus l ++ fcu_pdus l'.
Proof. apply omap_app. Qed.
Lemma fcu_op_sdus_app l l' : fcu_op_sdus (l ++ l') = fcu_op_sdus l ++ fcu_op_sdus l'.
Proof. apply omap_app. Qed.
Lemma fcu_op_discards_app l l' : fcu_op_discards (l ++ l') = fcu_op_discards l ++ fcu_op_discards l'.
Proof. apply omap_app. Qed.
Lemma fdu_sdus_app l l' : fdu_sdus (l ++ l') = fdu_sdus l ++ fdu_sdus l'.
Proof. apply omap_app. Qed.
Lemma fdu_discards_app l l' : fdu_discards (l ++ l') = fdu_discards l ++ fdu_discards l'.
Proof. apply omap_app. Qed.

Lemma fdu_sdus_discard l : fdu_sdus (map FduDiscardSdu l) = [].
Proof. by induction l. Qed.
Lemma fdu_discards_discard l : fdu_discards (map FduDiscardSdu l) = l.
Proof. induction l as [|x l IH]; [done|]. cbn. f_equal. exact IH. Qed.

Lemma fdu_handle_pdu_spec races m s s' out :
  nud_report_polling (ndm_dl_user_data m) = false -> fdu_handle_pdu_impl races m s = (s', out) ->
  fdu_sdus out = nru_msg_sdus m /\ fdu_discards out = nru_msg_discards m.
Proof.
  intros Hp E. unfold fdu_handle_pdu_impl in E. rewrite Hp in E. injection E as <- <-. unfold nru_msg_sdus, nru_msg_discards.
  rewrite fdu_sdus_app, fdu_discards_app. cbn [app].
  destruct (nud_discard_blocks (ndm_dl_user_data m)) as [l|]; cbn [default];
    rewrite ?fdu_sdus_discard, ?fdu_discards_discard; by case_bool_decide.
Qed.

Lemma fdu_handle_all_spec races msgs s s' out :
  length races = length msgs -> Forall (fun m => nud_report_polling (ndm_dl_user_data m) = false) msgs ->
  fdu_handle_all races msgs s = (s', out) ->
  fdu_sdus out = flat_map nru_msg_sdus msgs /\ fdu_discards out = flat_map nru_msg_discards msgs.
Proof.
  revert races s s' out. induction msgs as [|m msgs IH]; intros [|r races] s s' out Hl Hp E; try done; cbn [fdu_handle_all] in E.
  { by injection E as <- <-. }
  apply Forall_cons in Hp as [Hp Hps]. destruct (fdu_handle_pdu_impl r m s) as [s1 out1] eqn:E1.
  destruct (fdu_handle_all races msgs s1) as [s2 out2] eqn:E2. injection E as <- <-.
  destruct (fdu_handle_pdu_spec r m s s1 out1 Hp E1) as [H1 H2]. destruct (IH races s1 s2 out2 ltac:(cbn in Hl; lia) Hps E2) as [H3 H4].
  rewrite fdu_sdus_app, fdu_discards_app, H1, H2, H3, H4. done.
Qed.

(** ** The discard blocks *)

(** A block as the CU-UP keeps it: not empty, and inside the 24 bits. *)
Definition f1u_block_ok (b : nru_pdcp_sn_discard_block) : Prop :=
  0 <= nrb_pdcp_sn_start b /\ 1 <= nrb_block_size b <= 255 /\ nrb_pdcp_sn_start b + nrb_block_size b <= 2 ^ 24.

Lemma f1u_block_nru b : f1u_block_ok b -> nru_block_ok b.
Proof. unfold f1u_block_ok, nru_block_ok, in_range. lia. Qed.

Lemma nru_block_sns_spec b : f1u_block_ok b -> nru_block_sns b = seqZ (nrb_pdcp_sn_start b) (nrb_block_size b).
Proof.
  intros (H1 & H2 & H3). unfold nru_block_sns, wrap. rewrite Z.mod_small by lia. f_equal. lia.
Qed.

Lemma nru_block_sns_one sn : in_range 24 sn -> nru_block_sns (mk_nru_pdcp_sn_discard_block sn 1) = [sn].
Proof.
  intros Hs. unfold in_range in Hs. rewrite nru_block_sns_spec by (unfold f1u_block_ok; cbn; lia). done.
Qed.

Lemma nru_block_sns_grow start size :
  f1u_block_ok (mk_nru_pdcp_sn_discard_block start size) -> size < 255 -> start + size < 2 ^ 24 ->
  nru_block_sns (mk_nru_pdcp_sn_discard_block start (u8 (size + 1))) =
    nru_block_sns (mk_nru_pdcp_sn_discard_block start size) ++ [start + size].
Proof.
  intros Hok Hs Hr. pose proof Hok as (H1 & H2 & H3). cbn in *. unfold wrap. rewrite (Z.mod_small (size + 1)) by lia.
  rewrite !nru_block_sns_spec; [|done|unfold f1u_block_ok; cbn; lia]. cbn. rewrite seqZ_app by lia. f_equal.
Qed.

(** A discard that keeps to what the code can count: its SN has 24 bits, and it does not
    make a block of 256. *)
Definition fcu_discard_ok (sn : Z) (s : f1u_cu) : Prop :=
  in_range 24 sn /\
  forall b, last (fcu_discard_blocks s) = Some b -> nrb_pdcp_sn_start b + nrb_block_size b = sn -> nrb_block_size b < 255.

Definition fcu_dl_op_ok (op : f1u_cu_op) (s : f1u_cu) : Prop :=
  match op with
  | FcuHandleSdu sdu _ => nru_payload_ok sdu /\ sdu <> []
  | FcuDiscardSdu sn => fcu_discard_ok sn s
  | FcuStop => False
  | _ => True
  end.

(** Executions of the bearer before it is stopped. *)
Inductive fcu_dl_exec (cfg : f1u_cu_config) : list f1u_cu_op -> list f1u_cu_output -> f1u_cu -> Prop :=
| fcu_dl_exec_nil : fcu_dl_exec cfg [] [] fcu_new
| fcu_dl_exec_step ops out1 s op out2 s' :
    fcu_dl_exec cfg ops out1 s -> fcu_dl_op_ok op s -> fcu_step cfg op s = Some (Ok (s', out2)) ->
    fcu_dl_exec cfg (ops ++ [op]) (out1 ++ out2) s'.

Definition f1u_msg_ok (m : nru_dl_message) : Prop :=
  nru_payload_ok (ndm_t_pdu m) /\ nru_dl_user_data_ok (ndm_dl_user_data m) /\
  nud_report_polling (ndm_dl_user_data m) = false /\ nru_carried (ndm_dl_user_data m) = ndm_dl_user_data m.

Record fcu_dl_inv (ops : list f1u_cu_op) (out : list f1u_cu_output) (s : f1u_cu) : Prop := {
  fi_stopped : fcu_stopped s = false;
  fi_nof_blocks : zlen (fcu_discard_blocks s) < nru_max_nof_pdcp_sn_discard_blocks;
  fi_blocks : Forall f1u_block_ok (fcu_discard_blocks s);
  fi_timer : fcu_discard_blocks s <> [] -> fcu_dl_notif_timer s = true;
  fi_discards : flat_map nru_msg_discards (fcu_pdus out) ++ flat_map nru_block_sns (fcu_discard_blocks s) = fcu_op_discards ops;
  fi_sdus : flat_map nru_msg_sdus (fcu_pdus out) = fcu_op_sdus ops;
  fi_msgs : Forall f1u_msg_ok (fcu_pdus out);
}.

Lemma nru_payload_nil : nru_payload_ok [].
Proof. split; [apply Forall_nil_2|done]. Qed.

(** The blocks that a message takes along. *)
Lemma fcu_fill_spec is_retx s :
  Forall f1u_block_ok (fcu_discard_blocks s) -> zlen (fcu_discard_blocks s) <= nru_max_nof_pdcp_sn_discard_blocks ->
  exists data, fcu_fill_discard_blocks (nru_dl_user_data_default <| nud_retransmission_flag := is_retx |>) s =
      (data, s <| fcu_discard_blocks := [] |>) /\
    nud_discard_blocks data = (if bool_decide (fcu_discard_blocks s = []) then None else Some (fcu_discard_blocks s)) /\
    nud_retransmission_flag data = is_retx /\ nru_dl_user_data_ok data /\ nud_report_polling data = false /\ nru_carried data = data.
Proof.
  intros Hb Hl. unfold fcu_fill_discard_blocks. case_bool_decide as E.
  - eexists. split; [f_equal; destruct s; cbn in E; by subst|]. split_and!; try done.
  - eexists. split; [done|]. split_and!; try done.
    + split; try done. cbn. split; [done|]. eapply Forall_impl; [exact Hb|]. apply f1u_block_nru.
    + unfold nru_carried, nru_has_discard_blocks. cbn. by rewrite bool_decide_eq_false_2.
Qed.

(** ** The invariant of the downlink *)

Lemma fcu_message_inv ops out s sdu is_retx data s1 sdus :
  fcu_stopped s = false -> zlen (fcu_discard_blocks s) <= nru_max_nof_pdcp_sn_discard_blocks ->
  Forall f1u_block_ok (fcu_discard_blocks s) -> nru_payload_ok sdu ->
  flat_map nru_msg_discards (fcu_pdus out) ++ flat_map nru_block_sns (fcu_discard_blocks s) = fcu_op_discards ops ->
  flat_map nru_msg_sdus (fcu_pdus out) = sdus ->
  fcu_op_sdus ops = sdus ++ (if bool_decide (sdu = []) then [] else [(sdu, is_retx)]) -> Forall f1u_msg_ok (fcu_pdus out) ->
  fcu_fill_discard_blocks (nru_dl_user_data_default <| nud_retransmission_flag := is_retx |>) s = (data, s1) ->
  fcu_dl_inv ops (out ++ [FcuNewPdu (mk_nru_dl_message sdu data)]) (s1 <| fcu_dl_notif_timer := false |>).
Proof.
  intros Hst Hn Hb Hp Hd Hs Hs' Hm E. destruct (fcu_fill_spec is_retx s Hb Hn) as (data' & E' & Hbl & Hre & Hok & Hpoll & Hcar).
  rewrite E in E'. injection E' as -> ->. split; unfold field_update; cbn; try done.
  - rewrite fcu_pdus_app, flat_map_app, app_nil_r, <- Hd. f_equal. cbn. rewrite app_nil_r. unfold nru_msg_discards. cbn. rewrite Hbl.
    case_bool_decide as Eb; [by rewrite Eb|done].
  - rewrite fcu_pdus_app, flat_map_app, Hs, Hs'. f_equal. cbn. rewrite app_nil_r. unfold nru_msg_sdus. cbn. by rewrite Hre.
  - rewrite fcu_pdus_app. apply Forall_app. split; [done|]. apply Forall_singleton. by split_and!.
Qed.

Lemma fcu_flush_inv ops out s :
  fcu_stopped s = false -> zlen (fcu_discard_blocks s) <= nru_max_nof_pdcp_sn_discard_blocks ->
  Forall f1u_block_ok (fcu_discard_blocks s) ->
  flat_map nru_msg_discards (fcu_pdus out) ++ flat_map nru_block_sns (fcu_discard_blocks s) = fcu_op_discards ops ->
  flat_map nru_msg_sdus (fcu_pdus out) = fcu_op_sdus ops -> Forall f1u_msg_ok (fcu_pdus out) ->
  fcu_dl_inv ops (out ++ (fcu_flush_discard_blocks s).2) (fcu_flush_discard_blocks s).1 /\
  fcu_discard_blocks (fcu_flush_discard_blocks s).1 = [].
Proof.
  intros Hst Hn Hb Hd Hs Hm. unfold fcu_flush_discard_blocks. destruct (fcu_fill_discard_blocks nru_dl_user_data_default s) as [data s1] eqn:E.
  destruct (fcu_fill_spec false s Hb Hn) as (data' & E' & Hbl & _). pose proof E as E1.
  change nru_dl_user_data_default with (nru_dl_user_data_default <| nud_retransmission_flag := false |>) in E.
  rewrite E in E'. injection E' as -> ->. case_bool_decide as Eb.
  - rewrite Hbl. cbn [has_value fst snd]. rewrite app_nil_r. split; [|done]. split; unfold field_update; cbn; try done.
    rewrite Eb in Hd. exact Hd.
  - rewrite Hbl. cbn [has_value fst snd]. split; [|done].
    apply (fcu_message_inv ops out s [] false data' _ (fcu_op_sdus ops)); try done.
    by rewrite bool_decide_eq_true_2, app_nil_r.
Qed.

Lemma fcu_dl_inv_keep ops out s op s' out' :
  fcu_dl_inv ops out s -> fcu_op_sdus [op] = [] -> fcu_op_discards [op] = [] -> fcu_pdus out' = [] ->
  fcu_stopped s' = fcu_stopped s -> fcu_discard_blocks s' = fcu_discard_blocks s ->
  fcu_dl_notif_timer s' = fcu_dl_notif_timer s -> fcu_dl_inv (ops ++ [op]) (out ++ out') s'.
Proof.
  intros [H1 H2 H3 H4 H5 H6 H7] E1 E2 E3 E4 E5 E6.
  split; rewrite ?fcu_pdus_app, ?fcu_op_sdus_app, ?fcu_op_discards_app, ?E1, ?E2, ?E3, ?E4, ?E5, ?E6, ?app_nil_r; done.
Qed.

(** The uplink leaves the downlink alone. *)
Definition fcu_keeps (s s' : f1u_cu) : Prop :=
  fcu_stopped s' = fcu_stopped s /\ fcu_discard_blocks s' = fcu_discard_blocks s /\
  fcu_dl_notif_timer s' = fcu_dl_notif_timer s.
#[export] Instance fcu_keeps_preorder : PreOrder fcu_keeps.
Proof. split; [by intros s|]. intros s1 s2 s3 (H1 & H2 & H3) (H4 & H5 & H6). split_and!; congruence. Qed.

Definition fcu_same_dl (s : f1u_cu) (r : f1u_cu * list f1u_cu_output) : Prop :=
  fcu_keeps s r.1 /\ fcu_pdus r.2 = [].

Lemma fcu_defer_keeps deferred n s : fcu_keeps s (fcu_defer deferred n s).
Proof. unfold fcu_defer. by destruct (deferred n). Qed.

Lemma fcu_transmitted_same deferred o s : fcu_same_dl s (fcu_on_highest_transmitted deferred o s).
Proof.
  unfold fcu_on_highest_transmitted. destruct o as [sn|]; [|done]. destruct (negb _); [|done]. split; [|done].
  etransitivity; [|apply fcu_defer_keeps]. done.
Qed.

Lemma fcu_delivered_keeps deferred o s : fcu_keeps s (fcu_on_highest_delivered deferred o s).
Proof.
  unfold fcu_on_highest_delivered. destruct o as [sn|]; [|done]. destruct (negb _); [|done].
  etransitivity; [|apply fcu_defer_keeps]. done.
Qed.

Lemma fcu_status_same deferred status s : fcu_same_dl s (fcu_on_status deferred status s).
Proof.
  unfold fcu_on_status. pose proof (fcu_defer_keeps deferred (CuDesiredBufferSize (nds_desired_buffer_size_for_drb status)) s) as H1.
  destruct (fcu_transmitted_same deferred (nds_highest_transmitted_pdcp_sn status) (fcu_defer deferred (CuDesiredBufferSize (nds_desired_buffer_size_for_drb status)) s)) as [H2 H3].
  destruct (fcu_on_highest_transmitted _ _ _) as [s2 out]. cbn [fst snd] in *. split; cbn [fst snd]; [|done].
  etransitivity; [exact H1|]. etransitivity; [exact H2|].
  etransitivity; [apply (fcu_delivered_keeps deferred (nds_highest_delivered_pdcp_sn status))|].
  etransitivity; [|destruct (nds_highest_delivered_retransmitted_pdcp_sn status); [apply fcu_defer_keeps|reflexivity]].
  destruct (nds_highest_retransmitted_pdcp_sn status); [apply fcu_defer_keeps|reflexivity].
Qed.

Lemma fcu_handle_same deferred msg s : fcu_same_dl s (fcu_handle_pdu_impl deferred msg s).
Proof.
  unfold fcu_handle_pdu_impl. destruct (fcu_stopped s) eqn:Est; [done|].
  assert (fcu_pdus (match num_t_pdu msg with
                    | Some t_pdu => if bool_decide (t_pdu = []) then [] else [FcuRunInactivityTimer; FcuNewSdu t_pdu]
                    | None => [] end) = []) as E by (destruct (num_t_pdu msg); [by case_bool_decide|done]).
  destruct (num_data_delivery_status msg) as [status|]; [|done].
  destruct (fcu_status_same deferred status s) as [H1 H2].
  destruct (fcu_on_status deferred status s) as [s' out']. split; [exact H1|]. cbn [snd] in *. by rewrite fcu_pdus_app, E, H2.
Qed.

Lemma fcu_batch_same deferred msgs s : fcu_same_dl s (fcu_handle_batch deferred msgs s).
Proof.
  revert s. induction msgs as [|msg msgs IH]; intros s; cbn [fcu_handle_batch]; [done|].
  destruct (fcu_handle_same deferred msg s) as [H1 H2]. destruct (fcu_handle_pdu_impl deferred msg s) as [s1 out1].
  destruct (IH s1) as [H3 H4]. destruct (fcu_handle_batch deferred msgs s1) as [s2 out2]. cbn [fst snd] in *.
  split; [by transitivity s1|]. cbn [snd]. by rewrite fcu_pdus_app, H2, H4.
Qed.

Lemma last_removelast {A} (l : list A) x : last l = Some x -> l = removelast l ++ [x].
Proof.
  intros (l' & ->)%last_Some. by rewrite removelast_last.
Qed.

Lemma fcu_push_inv ops out s sn :
  fcu_dl_inv ops out s -> in_range 24 sn ->
  exists s', fcu_push_block sn (s <| fcu_dl_notif_timer := true |>) = Ok s' /\ fcu_dl_notif_timer s' = true /\
    fcu_stopped s' = false /\ fcu_discard_blocks s' = fcu_discard_blocks s ++ [mk_nru_pdcp_sn_discard_block sn 1] /\
    Forall f1u_block_ok (fcu_discard_blocks s') /\
    flat_map nru_msg_discards (fcu_pdus out) ++ flat_map nru_block_sns (fcu_discard_blocks s') =
      fcu_op_discards (ops ++ [FcuDiscardSdu sn]).
Proof.
  intros [H1 H2 H3 H4 H5 H6 H7] Hsn. unfold fcu_push_block. unfold field_update at 1. cbn [fcu_discard_blocks].
  rewrite (proj2 (Z.ltb_lt _ _)) by done. eexists. split; [done|]. unfold field_update. cbn. split_and!; try done.
  - apply Forall_app. split; [done|]. apply Forall_singleton. unfold in_range in Hsn. unfold f1u_block_ok. cbn. lia.
  - rewrite fcu_op_discards_app, flat_map_app, app_assoc, H5. f_equal. cbn. by rewrite app_nil_r, nru_block_sns_one.
Qed.

(** A discard never aborts, and the blocks stand for the SNs discarded. *)
Lemma fcu_discard_inv ops out s sn :
  fcu_dl_inv ops out s -> fcu_discard_ok sn s ->
  exists s' out', fcu_discard_sdu sn s = Ok (s', out') /\ fcu_dl_inv (ops ++ [FcuDiscardSdu sn]) (out ++ out') s'.
Proof.
  intros Hi [Hsn Hfull]. destruct (fcu_push_inv ops out s sn Hi Hsn) as (s1 & Epush & Ht & Hst & Hbl & Hok & Hd).
  destruct Hi as [H1 H2 H3 H4 H5 H6 H7]. unfold nru_max_nof_pdcp_sn_discard_blocks in *.
  assert (fcu_op_sdus (ops ++ [FcuDiscardSdu sn]) = fcu_op_sdus ops) as Hs by (by rewrite fcu_op_sdus_app, app_nil_r).
  pose proof (zlen_nonneg (fcu_discard_blocks s)).
  assert (zlen (fcu_discard_blocks s1) = zlen (fcu_discard_blocks s) + 1) as Hlen by (by rewrite Hbl, zlen_app).
  unfold fcu_discard_sdu. change (fcu_discard_blocks (s <| fcu_dl_notif_timer := true |>)) with (fcu_discard_blocks s).
  destruct (last (fcu_discard_blocks s)) as [b|] eqn:El; cbv zeta; rewrite Epush; cbn [checked_bind].
  - pose proof (last_removelast _ _ El) as Er. assert (f1u_block_ok b) as Hb by (rewrite Er in H3; apply Forall_app in H3 as [_ H3]; exact (proj1 (Forall_singleton _ _) H3)).
    pose proof Hb as (Hb1 & Hb2 & Hb3). unfold wrap at 1. rewrite Z.mod_small by lia.
    destruct (nrb_pdcp_sn_start b + nrb_block_size b =? sn) eqn:E; zbool.
    + specialize (Hfull b eq_refl E). destruct b as [start size]. cbn in *. unfold in_range in Hsn.
      eexists _, []. split; [done|]. rewrite app_nil_r. split; unfold field_update; cbn; try done.
      * rewrite Er in H2. rewrite zlen_app in *. done.
      * rewrite Er in H3. apply Forall_app in H3 as [H3 _]. apply Forall_app. split; [done|]. apply Forall_singleton.
        unfold f1u_block_ok, wrap. cbn. rewrite Z.mod_small by lia. lia.
      * rewrite fcu_op_discards_app, <- H5. rewrite Er at 2. rewrite !flat_map_app, <- !app_assoc. do 2 f_equal.
        cbn [flat_map]. rewrite !app_nil_r, nru_block_sns_grow by (done || lia). by rewrite E.
      * by rewrite Hs.
    + unfold nru_max_nof_pdcp_sn_discard_blocks. destruct (zlen (fcu_discard_blocks s1) =? 16) eqn:E16; zbool.
      * destruct (fcu_flush_inv (ops ++ [FcuDiscardSdu sn]) out s1) as [Hf _]; try done; [unfold nru_max_nof_pdcp_sn_discard_blocks; lia|by rewrite Hs|].
        destruct (fcu_flush_discard_blocks s1) as [s' out']. by exists s', out'.
      * exists s1, []. split; [done|]. rewrite app_nil_r. split; try done; [unfold nru_max_nof_pdcp_sn_discard_blocks; lia|by rewrite Hs].
  - exists s1, []. split; [done|]. rewrite app_nil_r. apply last_None in El. rewrite El in Hlen. change (zlen []) with 0 in Hlen.
    split; try done; [unfold nru_max_nof_pdcp_sn_discard_blocks; lia|by rewrite Hs].
Qed.

Lemma fcu_dl_inv_step cfg ops out s op s' out' :
  fcu_dl_inv ops out s -> fcu_dl_op_ok op s -> fcu_step cfg op s = Some (Ok (s', out')) ->
  fcu_dl_inv (ops ++ [op]) (out ++ out') s'.
Proof.
  intros Hi Hop E. destruct op as [sdu is_retx|sn| |deferred a| |]; cbn [fcu_step fcu_dl_op_ok] in *.
  - injection E as E. destruct Hop as [Hp Hne]. unfold fcu_handle_sdu in E. rewrite (fi_stopped _ _ _ Hi) in E.
    destruct (fcu_fill_discard_blocks _ s) as [data s1] eqn:Ef in E. injection E as <- <-. destruct Hi as [H1 H2 H3 H4 H5 H6 H7].
    apply (fcu_message_inv _ out s sdu is_retx data s1 (fcu_op_sdus ops)); try done; [lia| |].
    + by rewrite fcu_op_discards_app, app_nil_r.
    + rewrite fcu_op_sdus_app, bool_decide_eq_false_2 by done. done.
  - injection E as E. destruct (fcu_discard_inv ops out s sn Hi Hop) as (s1 & out1 & E1 & H1). by rewrite E in E1; injection E1 as -> ->.
  - unfold fcu_on_expired_dl_notif_timer in E. destruct (fcu_dl_notif_timer s) eqn:Et; [|done]. injection E as E.
    change (fcu_stopped (s <| fcu_dl_notif_timer := false |>)) with (fcu_stopped s) in E. rewrite (fi_stopped _ _ _ Hi) in E.
    destruct Hi as [H1 H2 H3 H4 H5 H6 H7].
    destruct (fcu_flush_inv (ops ++ [FcuTimer]) out (s <| fcu_dl_notif_timer := false |>)) as [Hf _]; try done.
    + unfold field_update. cbn. lia.
    + rewrite fcu_op_discards_app, app_nil_r. exact H5.
    + by rewrite fcu_op_sdus_app, app_nil_r.
    + rewrite E in Hf. exact Hf.
  - unfold fcu_queue_act in E. destruct (dq_act _ _ a (fcu_queue s)) as [[dq ev]|]; [|done]. injection E as E.
    destruct (fcu_batch_same deferred (dq_delivered ev) (s <| fcu_queue := dq |>)) as [(K1 & K2 & K3) K4]. rewrite E in *.
    by apply fcu_dl_inv_keep with s.
  - unfold fcu_run_task in E. destruct (fcu_tasks s) as [|n tasks]; [done|]. injection E as <- <-. by apply fcu_dl_inv_keep with s.
  - done.
Qed.

Lemma fcu_dl_exec_inv cfg ops out s : fcu_dl_exec cfg ops out s -> fcu_dl_inv ops out s.
Proof.
  induction 1 as [|ops out1 s op out2 s' H IH Hop E]; [by split|]. by apply (fcu_dl_inv_step cfg _ _ s).
Qed.

(** ** Downlink *)

Lemma f1u_msgs_cross env env' peer_teid msgs :
  nru_env_ok env -> is_u32 peer_teid -> Forall f1u_msg_ok msgs ->
  exists raws, Forall2 (fun m raw => nru_handle_dl_sdu peer_teid env m = Ok [NruNewPdu raw]) msgs raws /\
    Forall2 (fun raw m => nru_handle_pdu NodeDu env' raw = Ok [NruNewDlSdu m]) raws msgs.
Proof.
  intros He Ht. induction 1 as [|m msgs Hm Hms (raws & H1 & H2)]; [by exists []|]. destruct Hm as (Hp & Hok & _ & Hc).
  destruct (nru_dl_crosses env env' peer_teid m He Ht Hp Hok) as (raw & Hs & _ & Hr). rewrite Hc in Hr.
  exists (raw :: raws). split; constructor; try done. by destruct m.
Qed.

(** C4. Downlink over F1-U. For every execution of the bearer of the CU-UP before it is
    stopped, with any uplink, in which no 256 consecutive SNs are discarded between two
    messages: every message is packed into one GTP-U PDU, each of which the tunnel of the
    DU turns back into the message; and the bearer of the DU, handling them in order with
    any reports of RLC in between, hands down exactly the SDUs of PDCP in their order with
    their retransmission flags, and exactly the SNs that were discarded, in their order,
    but for those that wait for the timer, which then runs, and whose expiry sends them. *)
Theorem f1u_downlink_exact cfg env env' peer_teid ops out s :
  nru_env_ok env -> is_u32 peer_teid -> fcu_dl_exec cfg ops out s ->
  exists raws msgs,
    Forall2 (fun m raw => nru_handle_dl_sdu peer_teid env m = Ok [NruNewPdu raw]) (fcu_pdus out) raws /\
    Forall2 (fun raw m => nru_handle_pdu NodeDu env' raw = Ok [NruNewDlSdu m]) raws msgs /\
    (forall races du du' dout, length races = length msgs -> fdu_handle_all races msgs du = (du', dout) ->
      fdu_sdus dout = fcu_op_sdus ops /\
      fdu_discards dout ++ flat_map nru_block_sns (fcu_discard_blocks s) = fcu_op_discards ops) /\
    (fcu_discard_blocks s <> [] -> exists s' out',
      fcu_step cfg FcuTimer s = Some (Ok (s', out')) /\ fcu_discard_blocks s' = [] /\
      flat_map nru_msg_discards (fcu_pdus out') = flat_map nru_block_sns (fcu_discard_blocks s)).
Proof.
  intros He Ht Hx. pose proof (fcu_dl_exec_inv _ _ _ _ Hx) as [H1 H2 H3 H4 H5 H6 H7].
  destruct (f1u_msgs_cross env env' peer_teid (fcu_pdus out) He Ht H7) as (raws & Hs & Hr).
  exists raws, (fcu_pdus out). split; [done|]. split; [done|]. split.
  - intros races du du' dout Hl E. destruct (fdu_handle_all_spec races (fcu_pdus out) du du' dout Hl) as [Es Ed]; [|done|].
    + eapply Forall_impl; [exact H7|]. by intros m (_ & _ & Hp & _).
    + by rewrite Es, Ed, H6, H5.
  - intros Hne. specialize (H4 Hne). set (s1 := s <| fcu_dl_notif_timer := false |>).
    destruct (fcu_fill_spec false s1 H3 ltac:(unfold s1, field_update; cbn; lia)) as (data & E & Hbl & _).
    change (nru_dl_user_data_default <| nud_retransmission_flag := false |>) with nru_dl_user_data_default in E.
    cbn [fcu_step]. unfold fcu_on_expired_dl_notif_timer. rewrite H4. fold s1. cbv zeta.
    change (fcu_stopped s1) with (fcu_stopped s). rewrite H1. unfold fcu_flush_discard_blocks. rewrite E, Hbl.
    change (fcu_discard_blocks s1) with (fcu_discard_blocks s). rewrite bool_decide_eq_false_2 by done. cbn [has_value option_map].
    eexists _, _. split; [done|]. split; [done|]. cbn. rewrite app_nil_r. unfold nru_msg_discards. cbn. by rewrite Hbl, bool_decide_eq_false_2.
Qed.

(** What is wrong with 256: the size of the block wraps to zero, and the DU discards
    nothing. *)
Definition fcu_discard_all (sns : list Z) (s : f1u_cu) : checked (f1u_cu * list f1u_cu_output) :=
  foldl (fun r sn => let? (s, out1) := r in let? (s, out2) := fcu_discard_sdu sn s in Ok (s, out1 ++ out2)) (Ok (s, [])) sns.

Example discards_256_lost :
  let s := fcu_new <| fcu_dl_notif_timer := true |> <| fcu_discard_blocks := [mk_nru_pdcp_sn_discard_block 0 0] |> in
  let msg := mk_nru_dl_message [] (nru_dl_user_data_default <| nud_discard_blocks := Some [mk_nru_pdcp_sn_discard_block 0 0] |>) in
  fcu_discard_all (seqZ 0 256) fcu_new = Ok (s, []) /\
  fcu_on_expired_dl_notif_timer s = Some (fcu_new, [FcuNewPdu msg]) /\ nru_msg_discards msg = [].
Proof. split; [by vm_compute|]. split; by vm_compute. Qed.
