(* ===== verification/F1uReports.v ===== *)
(** * F1-U: uplink SDUs and reports

    What the bearer of the DU sends, handled by the bearer of the CU-UP: the SDUs arrive in
    order, and PDCP gets to know what the RLC entity reported. *)
From stdpp Require Import base numbers list sets.
From Stdlib Require Import ZArith Lia.
From S2P Require Import Prelude.
From S2P Require Import BitBytes.
From S2P Require Import GtpuPdu.
From S2P Require Import NruPacking.
From S2P Require Import GtpuNru.
From S2P Require Import DispatchQueue.
From S2P Require Import F1uDu.
From S2P Require Import F1uCuUp.
From S2P Require Import F1uLink.

Set Default Goal Selector "!".
Open Scope Z_scope.
Open Scope ran_scope.

(** ** What PDCP knows

    The last value it was notified of, of each kind. *)
Definition atomics_unset : f1u_du_atomics := mk_f1u_du_atomics 0 unset_pdcp_sn unset_pdcp_sn unset_pdcp_sn unset_pdcp_sn.

Definition fcu_notification_store (n : f1u_cu_notification) : f1u_du_store :=
  match n with
  | CuDesiredBufferSize v => StoreBufferSize v
  | CuTransmit v => StoreTransmitted v
  | CuDelivery v => StoreDelivered v
  | CuRetransmit v => StoreRetransmitted v
  | CuDeliveryRetransmitted v => StoreDeliveredRetransmitted v
  end.

Definition fcu_view (l : list f1u_cu_notification) : f1u_du_atomics :=
  fdu_stores (map fcu_notification_store l) atomics_unset.

#[local] Arguments fcu_view : simpl never.

Lemma fcu_view_snoc l n : fcu_view (l ++ [n]) = fdu_store (fcu_notification_store n) (fcu_view l).
Proof. unfold fcu_view, fdu_stores. by rewrite map_app, foldl_app. Qed.

(** ** One status *)

(** The values reported before and after a status. *)
Record status_between (before : f1u_du_atomics) (status : nru_dl_data_delivery_status) (after : f1u_du_atomics) : Prop := {
  sb_size : fda_desired_buffer_size after = nds_desired_buffer_size_for_drb status;
  sb_transmitted : fda_highest_transmitted after = default (fda_highest_transmitted before) (nds_highest_transmitted_pdcp_sn status);
  sb_delivered : fda_highest_delivered after = default (fda_highest_delivered before) (nds_highest_delivered_pdcp_sn status);
  sb_retransmitted : fda_highest_retransmitted after = default (fda_highest_retransmitted before) (nds_highest_retransmitted_pdcp_sn status);
  sb_delivered_retransmitted : fda_highest_delivered_retransmitted after =
    default (fda_highest_delivered_retransmitted before) (nds_highest_delivered_retransmitted_pdcp_sn status);
}.

Lemma atomics_eq a b :
  fda_desired_buffer_size a = fda_desired_buffer_size b -> fda_highest_transmitted a = fda_highest_transmitted b ->
  fda_highest_delivered a = fda_highest_delivered b -> fda_highest_retransmitted a = fda_highest_retransmitted b ->
  fda_highest_delivered_retransmitted a = fda_highest_delivered_retransmitted b -> a = b.
Proof. destruct a, b; cbn. congruence. Qed.

(** What the CU-UP keeps of the reports agrees with what it told PDCP. *)
Record fcu_knows (s : f1u_cu) (known : f1u_du_atomics) : Prop := {
  fk_stopped : fcu_stopped s = false;
  fk_view : fcu_view (fcu_tasks s) = known;
  fk_transmitted : fcu_notif_highest_transmitted s = fda_highest_transmitted known;
  fk_delivered : fcu_notif_highest_delivered s = fda_highest_delivered known;
}.

(** The statuses of a notification. *)
Definition status_says (status : nru_dl_data_delivery_status) (n : f1u_cu_notification) : Prop :=
  match n with
  | CuDesiredBufferSize v => nds_desired_buffer_size_for_drb status = v
  | CuTransmit v => nds_highest_transmitted_pdcp_sn status = Some v
  | CuDelivery v => nds_highest_delivered_pdcp_sn status = Some v
  | CuRetransmit v => nds_highest_retransmitted_pdcp_sn status = Some v
  | CuDeliveryRetransmitted v => nds_highest_delivered_retransmitted_pdcp_sn status = Some v
  end.

Definition always (n : f1u_cu_notification) : bool := true.

Lemma fcu_defer_knows n s known :
  fcu_knows s known ->
  (match n with CuTransmit _ | CuDelivery _ => False | _ => True end) ->
  fcu_knows (fcu_defer always n s) (fdu_store (fcu_notification_store n) known).
Proof.
  intros [H1 H2 H3 H4] Hn. split; unfold fcu_defer, always, field_update; cbn; [done| | |].
  - by rewrite fcu_view_snoc, H2.
  - by destruct n.
  - by destruct n.
Qed.

Lemma fcu_transmitted_knows o s known :
  fcu_knows s known ->
  fcu_knows (fcu_on_highest_transmitted always o s).1
    (match o with Some v => fdu_store (StoreTransmitted v) known | None => known end) /\
  exists added, fcu_tasks (fcu_on_highest_transmitted always o s).1 = fcu_tasks s ++ added /\
    forall n, n ∈ added -> exists v, n = CuTransmit v /\ o = Some v.
Proof.
  intros [H1 H2 H3 H4]. unfold fcu_on_highest_transmitted. destruct o as [v|].
  - destruct (v =? fcu_notif_highest_transmitted s) eqn:E; zbool; cbn [negb fst].
    + split; [|exists []; rewrite app_nil_r; split; [done|]; by intros n ?%elem_of_nil].
      split; try done. rewrite H2. apply atomics_eq; try done. cbn. congruence.
    + unfold fcu_defer, always, field_update. cbn. split.
      * split; cbn; try done. by rewrite fcu_view_snoc, H2.
      * eexists. split; [done|]. intros n ->%list_elem_of_singleton. by eexists.
  - split; [done|]. exists []. rewrite app_nil_r. split; [done|]. by intros n ?%elem_of_nil.
Qed.

Lemma fcu_delivered_knows o s known :
  fcu_knows s known ->
  fcu_knows (fcu_on_highest_delivered always o s)
    (match o with Some v => fdu_store (StoreDelivered v) known | None => known end) /\
  exists added, fcu_tasks (fcu_on_highest_delivered always o s) = fcu_tasks s ++ added /\
    forall n, n ∈ added -> exists v, n = CuDelivery v /\ o = Some v.
Proof.
  intros [H1 H2 H3 H4]. unfold fcu_on_highest_delivered. destruct o as [v|].
  - destruct (v =? fcu_notif_highest_delivered s) eqn:E; zbool; cbn [negb fst].
    + split; [|exists []; rewrite app_nil_r; split; [done|]; by intros n ?%elem_of_nil].
      split; try done. rewrite H2. apply atomics_eq; try done. cbn. congruence.
    + unfold fcu_defer, always, field_update. cbn. split.
      * split; cbn; try done. by rewrite fcu_view_snoc, H2.
      * eexists. split; [done|]. intros n ->%list_elem_of_singleton. by eexists.
  - split; [done|]. exists []. rewrite app_nil_r. split; [done|]. by intros n ?%elem_of_nil.
Qed.

Lemma fcu_status_knows status s before after :
  fcu_knows s before -> status_between before status after ->
  fcu_knows (fcu_on_status always status s).1 after /\
  exists added, fcu_tasks (fcu_on_status always status s).1 = fcu_tasks s ++ added /\ Forall (status_says status) added.
Proof.
  intros Hk Hb. unfold fcu_on_status. set (n0 := CuDesiredBufferSize (nds_desired_buffer_size_for_drb status)).
  pose proof (fcu_defer_knows n0 s before Hk I) as K0. set (s0 := fcu_defer always n0 s) in *.
  destruct (fcu_transmitted_knows (nds_highest_transmitted_pdcp_sn status) s0 _ K0) as (K1 & a1 & E1 & A1).
  destruct (fcu_on_highest_transmitted always (nds_highest_transmitted_pdcp_sn status) s0) as [s1 out]. cbn [fst] in *.
  destruct (fcu_delivered_knows (nds_highest_delivered_pdcp_sn status) s1 _ K1) as (K2 & a2 & E2 & A2).
  set (s2 := fcu_on_highest_delivered always (nds_highest_delivered_pdcp_sn status) s1) in *.
  assert (E0 : fcu_tasks s2 = fcu_tasks s ++ [n0] ++ a1 ++ a2) by (rewrite E2, E1, !app_assoc; done).
  assert (A0 : Forall (status_says status) ([n0] ++ a1 ++ a2)).
  { apply Forall_cons. split; [done|]. apply Forall_app. split; apply Forall_forall; intros n Hn.
    - by destruct (A1 n Hn) as (v & -> & ?).
    - by destruct (A2 n Hn) as (v & -> & ?). }
  clearbody s0 s2. clear A1 A2 E1 E2 K0 K1.
  destruct Hb as [B1 B2 B3 B4 B5]. destruct status as [ff size rate lost deliv trans cause dretx retx]. cbn in B1, B2, B3, B4, B5, K2 |- *.
  destruct retx as [r|]; [apply (fcu_defer_knows (CuRetransmit r)) in K2; [|done]|];
    (destruct dretx as [r'|]; [apply (fcu_defer_knows (CuDeliveryRetransmitted r')) in K2; [|done]|]);
    (split; [lazymatch type of K2 with fcu_knows _ ?k => replace after with k; [exact K2|] end;
             apply atomics_eq; destruct trans, deliv; cbn in *; congruence|]); clear K2;
    unfold fcu_defer, always, field_update; cbn [fcu_tasks]; rewrite E0, <- ?app_assoc.
  - exists (([n0] ++ a1 ++ a2) ++ [CuRetransmit r; CuDeliveryRetransmitted r']). rewrite <- !app_assoc. split; [done|].
    rewrite !app_assoc, <- (app_assoc [n0]). apply Forall_app. split; [done|]. by repeat constructor.
  - exists (([n0] ++ a1 ++ a2) ++ [CuRetransmit r]). rewrite <- !app_assoc. split; [done|].
    rewrite !app_assoc, <- (app_assoc [n0]). apply Forall_app. split; [done|]. by repeat constructor.
  - exists (([n0] ++ a1 ++ a2) ++ [CuDeliveryRetransmitted r']). rewrite <- !app_assoc. split; [done|].
    rewrite !app_assoc, <- (app_assoc [n0]). apply Forall_app. split; [done|]. by repeat constructor.
  - by exists ([n0] ++ a1 ++ a2).
Qed.

(** ** What the DU writes *)

(** What the five loads find, the first of them after the stores of [fdr_1]. *)
Definition fdu_loaded (races : f1u_du_races) (cur : f1u_du_atomics) : f1u_du_atomics :=
  let c1 := fdu_stores (fdr_1 races) cur in
  let c2 := fdu_stores (fdr_2 races) c1 in
  let c3 := fdu_stores (fdr_3 races) c2 in
  let c4 := fdu_stores (fdr_4 races) c3 in
  let c5 := fdu_stores (fdr_5 races) c4 in
  mk_f1u_du_atomics (fda_desired_buffer_size c1) (fda_highest_transmitted c2) (fda_highest_delivered c3)
    (fda_highest_retransmitted c4) (fda_highest_delivered_retransmitted c5).

Definition fdu_races_all (races : f1u_du_races) : list f1u_du_store :=
  fdr_1 races ++ fdr_2 races ++ fdr_3 races ++ fdr_4 races ++ fdr_5 races.

(** In terms of the values [n] last reported and those loaded, [l]. *)
Definition set_sn (v : Z) : option Z := if v =? unset_pdcp_sn then None else Some v.
Definition new_sn (old v : Z) : option Z := if v =? old then None else Some v.

Definition fdu_status_of (n l : f1u_du_atomics) : nru_dl_data_delivery_status :=
  mk_nru_dl_data_delivery_status false (fda_desired_buffer_size l) None None
    (set_sn (fda_highest_delivered l)) (set_sn (fda_highest_transmitted l)) None
    (new_sn (fda_highest_delivered_retransmitted n) (fda_highest_delivered_retransmitted l))
    (new_sn (fda_highest_retransmitted n) (fda_highest_retransmitted l)).

Definition fdu_notif_of (n l : f1u_du_atomics) : f1u_du_atomics :=
  mk_f1u_du_atomics (fda_desired_buffer_size l)
    (default (fda_highest_transmitted n) (set_sn (fda_highest_transmitted l)))
    (default (fda_highest_delivered n) (set_sn (fda_highest_delivered l)))
    (fda_highest_retransmitted l) (fda_highest_delivered_retransmitted l).

Lemma fdu_stores_app l l' a : fdu_stores (l ++ l') a = fdu_stores l' (fdu_stores l a).
Proof. unfold fdu_stores. by rewrite foldl_app. Qed.

(** The fills one by one: the state with its two records of values apart. *)
Section fills.
Variables (st bu ti : bool) (ub : list nru_ul_message) (ta : list nru_dl_message).
Let state (cur n : f1u_du_atomics) : f1u_du := mk_f1u_du st bu ub ti cur n ta.
Implicit Types cur n : f1u_du_atomics.

Lemma fdu_race_eq l cur n : fdu_race l (state cur n) = state (fdu_stores l cur) n.
Proof. done. Qed.

Lemma fdu_fill_size_eq status cur n :
  exists fresh, fdu_fill_desired_buffer_size status (state cur n) =
    (fresh, status <| nds_desired_buffer_size_for_drb := fda_desired_buffer_size cur |>,
     state cur (n <| fda_desired_buffer_size := fda_desired_buffer_size cur |>)) /\
    (fresh = false -> fda_desired_buffer_size cur = fda_desired_buffer_size n).
Proof.
  unfold fdu_fill_desired_buffer_size. cbn [fdu_cur fdu_notif state]. destruct (_ =? _) eqn:E; cbn [negb]; [|by exists true]. zbool.
  exists false. split; [|done]. rewrite E. by destruct n.
Qed.

Lemma fdu_fill_transmitted_eq status cur n :
  nds_highest_transmitted_pdcp_sn status = None ->
  let v := set_sn (fda_highest_transmitted cur) in
  exists fresh, fdu_fill_highest_transmitted status (state cur n) =
    (fresh, status <| nds_highest_transmitted_pdcp_sn := v |>,
     state cur (n <| fda_highest_transmitted := default (fda_highest_transmitted n) v |>)) /\
    (fresh = false -> default (fda_highest_transmitted n) v = fda_highest_transmitted n).
Proof.
  intros Hn. unfold fdu_fill_highest_transmitted, set_sn. cbn [fdu_cur fdu_notif state].
  destruct (fda_highest_transmitted cur =? unset_pdcp_sn).
  - exists false. split; [|done]. destruct status, n. cbn in *. by subst.
  - cbv zeta. destruct (_ =? _) eqn:E; cbn [negb]; [|by exists true]. zbool. exists false. split; [|done].
    cbn [default]. rewrite E. by destruct n.
Qed.

Lemma fdu_fill_delivered_eq status cur n :
  nds_highest_delivered_pdcp_sn status = None ->
  let v := set_sn (fda_highest_delivered cur) in
  exists fresh, fdu_fill_highest_delivered status (state cur n) =
    (fresh, status <| nds_highest_delivered_pdcp_sn := v |>,
     state cur (n <| fda_highest_delivered := default (fda_highest_delivered n) v |>)) /\
    (fresh = false -> default (fda_highest_delivered n) v = fda_highest_delivered n).
Proof.
  intros Hn. unfold fdu_fill_highest_delivered, set_sn. cbn [fdu_cur fdu_notif state].
  destruct (fda_highest_delivered cur =? unset_pdcp_sn).
  - exists false. split; [|done]. destruct status, n. cbn in *. by subst.
  - cbv zeta. destruct (_ =? _) eqn:E; cbn [negb]; [|by exists true]. zbool. exists false. split; [|done].
    cbn [default]. rewrite E. by destruct n.
Qed.

Lemma fdu_fill_retransmitted_eq status cur n :
  nds_highest_retransmitted_pdcp_sn status = None ->
  exists fresh, fdu_fill_highest_retransmitted status (state cur n) =
    (fresh, status <| nds_highest_retransmitted_pdcp_sn := new_sn (fda_highest_retransmitted n) (fda_highest_retransmitted cur) |>,
     state cur (n <| fda_highest_retransmitted := fda_highest_retransmitted cur |>)) /\
    (fresh = false -> fda_highest_retransmitted cur = fda_highest_retransmitted n).
Proof.
  intros Hn. unfold fdu_fill_highest_retransmitted, new_sn. cbn [fdu_cur fdu_notif state].
  destruct (_ =? _) eqn:E; cbn [negb]; [|by exists true]. zbool.
  exists false. split; [|done]. rewrite E. destruct status, n. cbn in *. by subst.
Qed.

Lemma fdu_fill_delivered_retransmitted_eq status cur n :
  nds_highest_delivered_retransmitted_pdcp_sn status = None ->
  exists fresh, fdu_fill_highest_delivered_retransmitted status (state cur n) =
    (fresh, status <| nds_highest_delivered_retransmitted_pdcp_sn :=
       new_sn (fda_highest_delivered_retransmitted n) (fda_highest_delivered_retransmitted cur) |>,
     state cur (n <| fda_highest_delivered_retransmitted := fda_highest_delivered_retransmitted cur |>)) /\
    (fresh = false -> fda_highest_delivered_retransmitted cur = fda_highest_delivered_retransmitted n).
Proof.
  intros Hn. unfold fdu_fill_highest_delivered_retransmitted, new_sn. cbn [fdu_cur fdu_notif state].
  destruct (_ =? _) eqn:E; cbn [negb]; [|by exists true]. zbool.
  exists false. split; [|done]. rewrite E. destruct status, n. cbn in *. by subst.
Qed.

(** The status, the values that count as reported after it, and that nothing changed when
    no value is fresh. *)
Lemma fdu_fill_state races msg cur n :
  let l := fdu_loaded races cur in
  exists fresh, fdu_fill_data_delivery_status races msg (state cur n) =
    (fresh, mk_nru_ul_message (num_t_pdu msg) (Some (fdu_status_of n l)),
     state (fdu_stores (fdu_races_all races) cur) (fdu_notif_of n l) <| fdu_ul_notif_timer := true |>) /\
    (fresh = false -> fdu_notif_of n l = n).
Proof.
  cbv zeta. unfold fdu_fill_data_delivery_status, fdu_loaded, fdu_races_all. rewrite !fdu_stores_app.
  rewrite fdu_race_eq. generalize (fdu_stores (fdr_1 races) cur). intros c1.
  destruct (fdu_fill_size_eq nru_dl_data_delivery_status_default c1 n) as (f1 & -> & F1).
  rewrite fdu_race_eq. generalize (fdu_stores (fdr_2 races) c1). intros c2.
  lazymatch goal with |- context [fdu_fill_highest_transmitted ?st (state ?c ?n)] =>
    destruct (fdu_fill_transmitted_eq st c n) as (f2 & -> & F2); [done|] end.
  rewrite fdu_race_eq. generalize (fdu_stores (fdr_3 races) c2). intros c3.
  lazymatch goal with |- context [fdu_fill_highest_delivered ?st (state ?c ?n)] =>
    destruct (fdu_fill_delivered_eq st c n) as (f3 & -> & F3); [done|] end.
  rewrite fdu_race_eq. generalize (fdu_stores (fdr_4 races) c3). intros c4.
  lazymatch goal with |- context [fdu_fill_highest_retransmitted ?st (state ?c ?n)] =>
    destruct (fdu_fill_retransmitted_eq st c n) as (f4 & -> & F4); [done|] end.
  rewrite fdu_race_eq. generalize (fdu_stores (fdr_5 races) c4). intros c5.
  lazymatch goal with |- context [fdu_fill_highest_delivered_retransmitted ?st (state ?c ?n)] =>
    destruct (fdu_fill_delivered_retransmitted_eq st c n) as (f5 & -> & F5); [done|] end.
  exists (f1 || f2 || f3 || f4 || f5). destruct n as [n1 n2 n3 n4 n5]. split; [reflexivity|]. intros Hf.
  destruct f1, f2, f3, f4, f5; try done. specialize (F1 eq_refl). specialize (F2 eq_refl). specialize (F3 eq_refl).
  specialize (F4 eq_refl). specialize (F5 eq_refl). cbn in F1, F2, F3, F4, F5. apply atomics_eq; cbn; congruence.
Qed.
End fills.

Lemma fdu_fill_eq races msg s :
  let n := fdu_notif s in
  let l := fdu_loaded races (fdu_cur s) in
  exists fresh, fdu_fill_data_delivery_status races msg s =
    (fresh, mk_nru_ul_message (num_t_pdu msg) (Some (fdu_status_of n l)),
     s <| fdu_cur ::= fdu_stores (fdu_races_all races) |> <| fdu_notif := fdu_notif_of n l |> <| fdu_ul_notif_timer := true |>) /\
    (fresh = false -> fdu_notif_of n l = n).
Proof. destruct s as [st bu ub ti cur n ta]. apply fdu_fill_state. Qed.

Lemma fdu_status_between n l : status_between n (fdu_status_of n l) (fdu_notif_of n l).
Proof.
  split; cbn; try done; unfold new_sn; destruct (_ =? _) eqn:E; zbool; cbn; congruence.
Qed.

(** ** Where the values come from *)

Definition store_ok (st : f1u_du_store) : Prop :=
  match st with StoreBufferSize v => is_u32 v | StoreTransmitted v | StoreDelivered v | StoreRetransmitted v
    | StoreDeliveredRetransmitted v => in_range 24 v end.

Section sources.
Variable limit : Z.
Implicit Types l : list f1u_du_store.
Implicit Types a b : f1u_du_atomics.

(** Every value is the first one or was stored. *)
Record atomics_from l a : Prop := {
  af_size : fda_desired_buffer_size a = limit \/ StoreBufferSize (fda_desired_buffer_size a) ∈ l;
  af_transmitted : fda_highest_transmitted a = unset_pdcp_sn \/ StoreTransmitted (fda_highest_transmitted a) ∈ l;
  af_delivered : fda_highest_delivered a = unset_pdcp_sn \/ StoreDelivered (fda_highest_delivered a) ∈ l;
  af_retransmitted : fda_highest_retransmitted a = unset_pdcp_sn \/ StoreRetransmitted (fda_highest_retransmitted a) ∈ l;
  af_delivered_retransmitted : fda_highest_delivered_retransmitted a = unset_pdcp_sn \/
    StoreDeliveredRetransmitted (fda_highest_delivered_retransmitted a) ∈ l;
}.

(** What is set in [a] is set in [b]. *)
Record atomics_below a b : Prop := {
  ab_transmitted : fda_highest_transmitted a = unset_pdcp_sn \/ fda_highest_transmitted b <> unset_pdcp_sn;
  ab_delivered : fda_highest_delivered a = unset_pdcp_sn \/ fda_highest_delivered b <> unset_pdcp_sn;
  ab_retransmitted : fda_highest_retransmitted a = unset_pdcp_sn \/ fda_highest_retransmitted b <> unset_pdcp_sn;
  ab_delivered_retransmitted : fda_highest_delivered_retransmitted a = unset_pdcp_sn \/
    fda_highest_delivered_retransmitted b <> unset_pdcp_sn;
}.

#[export] Instance atomics_below_preorder : PreOrder atomics_below.
Proof.
  split; [intros a; split; lia|]. intros a b c [A1 A2 A3 A4] [B1 B2 B3 B4].
  split; [clear - A1 B1|clear - A2 B2|clear - A3 B3|clear - A4 B4]; lia.
Qed.

Lemma atomics_from_mono l l' a : l ⊆ l' -> atomics_from l a -> atomics_from l' a.
Proof. intros Hl [H1 H2 H3 H4 H5]. split; [destruct H1|destruct H2|destruct H3|destruct H4|destruct H5]; auto. Qed.

Lemma fdu_store_from l st a : st ∈ l -> atomics_from l a -> atomics_from l (fdu_store st a).
Proof. intros Hin [H1 H2 H3 H4 H5]. by destruct st; split; auto. Qed.

Lemma fdu_stores_from l l' a : l' ⊆ l -> atomics_from l a -> atomics_from l (fdu_stores l' a).
Proof.
  revert a. induction l' as [|st l' IH]; intros a Hl Ha; [done|]. apply IH; [set_solver|]. apply fdu_store_from; [set_solver|done].
Qed.

Lemma fdu_store_below st a : store_ok st -> atomics_below a (fdu_store st a).
Proof.
  intros Hok. assert (forall v, in_range 24 v -> v <> unset_pdcp_sn) as Hv by (unfold in_range, unset_pdcp_sn; lia).
  destruct st; split; cbn; try lia; right; by apply Hv.
Qed.

Lemma fdu_stores_below l a : Forall store_ok l -> atomics_below a (fdu_stores l a).
Proof.
  intros Hl. revert a. induction Hl as [|st l Hst Hl IH]; intros a; [reflexivity|].
  etransitivity; [by apply (fdu_store_below st)|]. apply IH.
Qed.

Lemma fdu_loaded_from l races cur :
  fdu_races_all races ⊆ l -> atomics_from l cur -> atomics_from l (fdu_loaded races cur).
Proof.
  intros Hr H0. unfold fdu_races_all in Hr.
  pose proof (fdu_stores_from l (fdr_1 races) _ ltac:(set_solver) H0) as H1. pose proof (fdu_stores_from l (fdr_2 races) _ ltac:(set_solver) H1) as H2.
  pose proof (fdu_stores_from l (fdr_3 races) _ ltac:(set_solver) H2) as H3. pose proof (fdu_stores_from l (fdr_4 races) _ ltac:(set_solver) H3) as H4.
  pose proof (fdu_stores_from l (fdr_5 races) _ ltac:(set_solver) H4) as H5.
  split; [apply H1|apply H2|apply H3|apply H4|apply H5].
Qed.

Lemma fdu_loaded_below races cur :
  Forall store_ok (fdu_races_all races) ->
  atomics_below cur (fdu_loaded races cur) /\ atomics_below (fdu_loaded races cur) (fdu_stores (fdu_races_all races) cur).
Proof.
  unfold fdu_races_all. rewrite !fdu_stores_app, !Forall_app. intros (H1 & H2 & H3 & H4 & H5).
  pose proof (fdu_stores_below _ cur H1) as B1. unfold fdu_loaded. cbv zeta. set (c1 := fdu_stores (fdr_1 races) cur) in *.
  pose proof (fdu_stores_below _ c1 H2) as B2. set (c2 := fdu_stores (fdr_2 races) c1) in *.
  pose proof (fdu_stores_below _ c2 H3) as B3. set (c3 := fdu_stores (fdr_3 races) c2) in *.
  pose proof (fdu_stores_below _ c3 H4) as B4. set (c4 := fdu_stores (fdr_4 races) c3) in *.
  pose proof (fdu_stores_below _ c4 H5) as B5. set (c5 := fdu_stores (fdr_5 races) c4) in *.
  clearbody c1 c2 c3 c4 c5. pose proof (transitivity B1 B2) as C2. pose proof (transitivity C2 B3) as C3.
  pose proof (transitivity C3 B4) as C4. pose proof (transitivity C4 B5) as C5.
  pose proof (transitivity B4 B5) as D3. pose proof (transitivity B3 D3) as D2.
  split; split; cbn; [apply C2|apply C3|apply C4|apply C5|apply D2|apply D3|apply B5|clear; lia].
Qed.

(** A notification of a value that was reported, or of the first size. *)
Definition f1u_reported l (n : f1u_cu_notification) : Prop :=
  n = CuDesiredBufferSize limit \/ fcu_notification_store n ∈ l.

Lemma f1u_reported_mono l l' n : l ⊆ l' -> f1u_reported l n -> f1u_reported l' n.
Proof. intros Hl [?|?]; [by left|right; by apply Hl]. Qed.

Lemma fdu_status_reported l n v :
  atomics_from l v -> atomics_below n v -> forall x, status_says (fdu_status_of n v) x -> f1u_reported l x.
Proof.
  intros [F1 F2 F3 F4 F5] [_ _ B3 B4] x Hx. destruct x as [y|y|y|y|y]; cbn in Hx; unfold set_sn, new_sn in Hx; unfold f1u_reported; cbn.
  - subst y. destruct F1 as [->|?]; auto.
  - case_match; zbool; simplify_eq. destruct F2; [done|auto].
  - case_match; zbool; simplify_eq. destruct F3; [done|auto].
  - case_match; zbool; simplify_eq. destruct F4 as [E|?]; [|auto]. destruct B3; congruence.
  - case_match; zbool; simplify_eq. destruct F5 as [E|?]; [|auto]. destruct B4; congruence.
Qed.

Lemma fdu_status_ok l n v :
  is_u32 limit -> Forall store_ok l -> atomics_from l v -> atomics_below n v -> nru_status_ok (fdu_status_of n v).
Proof.
  intros Hl Hs Hf Hb. pose proof (fdu_status_reported l n v Hf Hb) as Hr. rewrite Forall_forall in Hs.
  assert (forall x, status_says (fdu_status_of n v) x -> x <> CuDesiredBufferSize limit -> store_ok (fcu_notification_store x)) as Hx
    by (intros x H1 H2; destruct (Hr x H1) as [?|?]; [done|by apply Hs]).
  split; try done.
  - destruct (Hr (CuDesiredBufferSize (fda_desired_buffer_size v)) eq_refl) as [[= E]|E]; [cbn; by rewrite E|exact (Hs _ E)].
  - intros x E. by apply (Hx (CuDelivery x)).
  - intros x E. by apply (Hx (CuTransmit x)).
  - intros x E. by apply (Hx (CuDeliveryRetransmitted x)).
  - intros x E. by apply (Hx (CuRetransmit x)).
Qed.

Lemma fdu_notif_below n cur v : atomics_below n cur -> atomics_below cur v -> atomics_below (fdu_notif_of n v) v.
Proof.
  intros [A1 A2 A3 A4] [B1 B2 B3 B4]. unfold fdu_notif_of, set_sn. split; cbn; [clear - A1 B1|clear - A2 B2|clear; lia|clear; lia]; case_match; zbool; cbn; lia.
Qed.
End sources.

(** ** Executions *)

Definition fdu_pdus (out : list f1u_du_output) : list nru_ul_message :=
  omap (fun o => match o with FduNewPdu m => Some m | _ => None end) out.
Definition fdu_op_sdus (ops : list f1u_du_op) : list (list Z) :=
  omap (fun op => match op with FduHandleSdu _ sdu => Some sdu | _ => None end) ops.
Definition fcu_sdus (out : list f1u_cu_output) : list (list Z) :=
  omap (fun o => match o with FcuNewSdu sdu => Some sdu | _ => None end) out.

(** The stores during an operation. *)
Definition fdu_op_stores (op : f1u_du_op) : list f1u_du_store :=
  match op with
  | FduHandleSdu races _ | FduRunTask races | FduTimer races => fdu_races_all races
  | FduStore st => [st]
  | _ => []
  end.

Lemma fdu_pdus_app l l' : fdu_pdus (l ++ l') = fdu_pdus l ++ fdu_pdus l'.
Proof. apply omap_app. Qed.
Lemma fdu_op_sdus_app l l' : fdu_op_sdus (l ++ l') = fdu_op_sdus l ++ fdu_op_sdus l'.
Proof. apply omap_app. Qed.
Lemma fcu_sdus_app l l' : fcu_sdus (l ++ l') = fcu_sdus l ++ fcu_sdus l'.
Proof. apply omap_app. Qed.
Lemma fdu_pdus_discard l : fdu_pdus (map FduDiscardSdu l) = [].
Proof. by induction l. Qed.

(** SNs of 24 bits, SDUs that are not empty; the bearer is not stopped. *)
Definition fdu_up_op_ok (op : f1u_du_op) : Prop :=
  Forall store_ok (fdu_op_stores op) /\
  match op with FduHandleSdu _ sdu => nru_payload_ok sdu /\ sdu <> [] | FduStop => False | _ => True end.

Definition f1u_ul_msg_ok (m : nru_ul_message) : Prop :=
  nru_payload_ok (default [] (num_t_pdu m)) /\ nru_ul_carried m = m /\
  forall status, num_data_delivery_status m = Some status -> nru_status_ok status.

(** The bearer of the CU-UP handles the messages, and its executor takes every task. *)
Definition fcu_receive (msgs : list nru_ul_message) : f1u_cu * list f1u_cu_output := fcu_handle_batch always msgs fcu_new.

Lemma fcu_handle_batch_snoc d msgs m s :
  fcu_handle_batch d (msgs ++ [m]) s =
    let '(s1, out1) := fcu_handle_batch d msgs s in
    let '(s2, out2) := fcu_handle_pdu_impl d m s1 in (s2, out1 ++ out2).
Proof.
  revert s. induction msgs as [|m' msgs IH]; intros s; cbn [fcu_handle_batch app].
  - destruct (fcu_handle_pdu_impl d m s) as [s1 out]. by rewrite app_nil_r.
  - destruct (fcu_handle_pdu_impl d m' s) as [s1 out1]. rewrite IH. destruct (fcu_handle_batch d msgs s1) as [s2 out2].
    destruct (fcu_handle_pdu_impl d m s2) as [s3 out3]. by rewrite app_assoc.
Qed.

Record f1u_up_inv (limit : Z) (ops : list f1u_du_op) (out : list f1u_du_output) (s : f1u_du) : Prop := {
  fu_buffering : fdu_buffering s = false;
  fu_timer : fdu_ul_notif_timer s = true;
  fu_stores : Forall store_ok (flat_map fdu_op_stores ops);
  fu_from : atomics_from limit (flat_map fdu_op_stores ops) (fdu_cur s);
  fu_below : atomics_below (fdu_notif s) (fdu_cur s);
  fu_msgs : Forall f1u_ul_msg_ok (fdu_pdus out);
  fu_knows : fcu_knows (fcu_receive (fdu_pdus out)).1 (fdu_notif s);
  fu_reported : Forall (f1u_reported limit (flat_map fdu_op_stores ops)) (fcu_tasks (fcu_receive (fdu_pdus out)).1);
  fu_sdus : fcu_sdus (fcu_receive (fdu_pdus out)).2 = fdu_op_sdus ops;
}.

Lemma f1u_up_inv_new cfg : fdc_buffer_ul_on_startup cfg = false -> f1u_up_inv (fdc_rlc_queue_bytes_limit cfg) [] [] (fdu_new cfg).
Proof.
  intros Hb. split; cbn; try done.
  - split; by left.
  - split; by left.
Qed.

(** A step that sends nothing and leaves the reported values. *)
Lemma f1u_up_inv_silent limit ops out s op s' out' :
  f1u_up_inv limit ops out s -> fdu_up_op_ok op -> fdu_op_sdus [op] = [] -> fdu_pdus out' = [] ->
  (exists l, l ⊆ fdu_op_stores op /\ Forall store_ok l /\ fdu_cur s' = fdu_stores l (fdu_cur s)) -> fdu_notif s' = fdu_notif s ->
  fdu_buffering s' = false -> fdu_ul_notif_timer s' = true -> f1u_up_inv limit (ops ++ [op]) (out ++ out') s'.
Proof.
  intros [H1 H2 H3 H4 H5 H6 H7 H8 H9] [Hop _] E1 E2 (l & Hl & Hlok & Ec) En Eb Et.
  assert (Es : flat_map fdu_op_stores (ops ++ [op]) = flat_map fdu_op_stores ops ++ fdu_op_stores op)
    by (rewrite flat_map_app; cbn; by rewrite app_nil_r).
  assert (flat_map fdu_op_stores ops ⊆ flat_map fdu_op_stores ops ++ fdu_op_stores op) as Hsub by set_solver.
  split; rewrite ?Es, ?fdu_pdus_app, ?fdu_op_sdus_app, ?E1, ?E2, ?En, ?app_nil_r; try done.
  - by apply Forall_app.
  - rewrite Ec. apply fdu_stores_from; [set_solver|]. by eapply atomics_from_mono.
  - rewrite Ec. etransitivity; [exact H5|]. by apply fdu_stores_below.
  - eapply Forall_impl; [exact H8|]. intros n. by apply f1u_reported_mono.
Qed.

(** A step that fills a status and sends it with a payload, if any. *)
Lemma f1u_up_inv_sent limit ops out s op t_pdu races s' out1 out2 :
  is_u32 limit -> f1u_up_inv limit ops out s -> fdu_up_op_ok op -> fdu_op_stores op = fdu_races_all races ->
  nru_payload_ok (default [] t_pdu) -> t_pdu <> Some [] ->
  fdu_op_sdus [op] = (match t_pdu with Some sdu => [sdu] | None => [] end) ->
  let n := fdu_notif s in
  let l := fdu_loaded races (fdu_cur s) in
  fdu_cur s' = fdu_stores (fdu_races_all races) (fdu_cur s) -> fdu_notif s' = fdu_notif_of n l ->
  fdu_buffering s' = false -> fdu_ul_notif_timer s' = true -> fdu_pdus out1 = [] -> fdu_pdus out2 = [] ->
  f1u_up_inv limit (ops ++ [op]) (out ++ out1 ++ [FduNewPdu (mk_nru_ul_message t_pdu (Some (fdu_status_of n l)))] ++ out2) s'.
Proof.
  intros Hlim [H1 H2 H3 H4 H5 H6 H7 H8 H9] [Hop _] Eop Hp Hne E1 n l Ec En Eb Et Eo1 Eo2. rewrite Eop in Hop.
  destruct (fdu_loaded_below races (fdu_cur s) Hop) as [Hb1 Hb2]. fold l in Hb1, Hb2.
  assert (Es : flat_map fdu_op_stores (ops ++ [op]) = flat_map fdu_op_stores ops ++ fdu_races_all races)
    by (rewrite flat_map_app; cbn; by rewrite app_nil_r, Eop).
  set (S := flat_map fdu_op_stores ops ++ fdu_races_all races) in *.
  assert (flat_map fdu_op_stores ops ⊆ S) as Hsub by set_solver. assert (fdu_races_all races ⊆ S) as Hsub' by set_solver.
  assert (Forall store_ok S) as HS by (by apply Forall_app).
  pose proof (atomics_from_mono _ _ _ _ Hsub H4) as Hfrom. pose proof (fdu_loaded_from limit S races _ Hsub' Hfrom) as Hlf. fold l in Hlf.
  pose proof (transitivity H5 Hb1) as Hnl. fold n in Hnl.
  assert (Ep : fdu_pdus (out ++ out1 ++ [FduNewPdu (mk_nru_ul_message t_pdu (Some (fdu_status_of n l)))] ++ out2) =
    fdu_pdus out ++ [mk_nru_ul_message t_pdu (Some (fdu_status_of n l))]) by (by rewrite !fdu_pdus_app, Eo1, Eo2).
  destruct (fcu_receive (fdu_pdus out)) as [cu cout] eqn:Ecu. cbn [fst snd] in *.
  destruct (fcu_status_knows (fdu_status_of n l) cu n (fdu_notif_of n l) H7 (fdu_status_between n l)) as (Hk & added & Ea & Ha).
  assert (Er : exists cout', fcu_receive (fdu_pdus out ++ [mk_nru_ul_message t_pdu (Some (fdu_status_of n l))]) =
    ((fcu_on_status always (fdu_status_of n l) cu).1, cout') /\ fcu_sdus cout' = fcu_sdus cout ++ match t_pdu with Some sdu => [sdu] | None => [] end).
  { unfold fcu_receive in *. rewrite fcu_handle_batch_snoc, Ecu. unfold fcu_handle_pdu_impl. rewrite (fk_stopped _ _ H7).
    cbn [num_t_pdu num_data_delivery_status]. unfold fcu_on_status.
    destruct (fcu_on_highest_transmitted always (nds_highest_transmitted_pdcp_sn (fdu_status_of n l)) _) as [s2 out3] eqn:Et2.
    assert (fcu_sdus out3 = []) as Eo3.
    { unfold fcu_on_highest_transmitted in Et2. destruct (nds_highest_transmitted_pdcp_sn _); [|by injection Et2 as <- <-].
      destruct (negb _); by injection Et2 as <- <-. }
    eexists. split; [done|]. rewrite !fcu_sdus_app, Eo3, app_nil_r. f_equal. destruct t_pdu as [sdu|]; [|done].
    by rewrite bool_decide_eq_false_2 by congruence. }
  destruct Er as (cout' & Er & Esd).
  split; rewrite ?Es, ?Ep, ?fdu_op_sdus_app, ?E1, ?Er, ?En; cbn [fst snd]; try done.
  - rewrite Ec. by apply fdu_stores_from.
  - rewrite Ec. etransitivity; [|exact Hb2]. apply (fdu_notif_below n (fdu_cur s)); done.
  - apply Forall_app. split; [done|]. apply Forall_singleton. split; [done|]. split.
    + unfold nru_ul_carried. cbn. by destruct t_pdu as [[|]|].
    + intros status [= <-]. by apply (fdu_status_ok limit S).
  - rewrite Ea. apply Forall_app. split.
    + eapply Forall_impl; [exact H8|]. intros x. by apply f1u_reported_mono.
    + eapply Forall_impl; [exact Ha|]. intros x. by apply fdu_status_reported.
  - by rewrite Esd, H9.
Qed.

(** A status sent on its own, or not sent for want of fresh values. *)
Lemma f1u_up_inv_send limit ops out s0 s op races force b s' out1 sent out2 :
  is_u32 limit -> f1u_up_inv limit ops out s0 -> fdu_up_op_ok op -> fdu_op_stores op = fdu_races_all races -> fdu_op_sdus [op] = [] ->
  fdu_cur s = fdu_cur s0 -> fdu_notif s = fdu_notif s0 -> fdu_buffering s = fdu_buffering s0 ->
  fdu_send_data_delivery_status races force s = (b, s', sent) -> fdu_pdus out1 = [] -> fdu_pdus out2 = [] ->
  f1u_up_inv limit (ops ++ [op]) (out ++ out1 ++ sent ++ out2) s' /\
  (fdu_races_all races = [] -> fdu_notif s' = fdu_notif_of (fdu_notif s0) (fdu_loaded races (fdu_cur s0)) /\ fdu_cur s' = fdu_cur s0).
Proof.
  intros Hlim Hi Hop Eop E1 Ec En Eb E Eo1 Eo2. unfold fdu_send_data_delivery_status in E.
  destruct (fdu_fill_eq races (mk_nru_ul_message None None) s) as (fresh & Ef & Hfr). rewrite Ef in E. rewrite Ec, En in *.
  cbn [num_t_pdu] in E. set (l := fdu_loaded races (fdu_cur s0)) in *.
  assert (fdu_races_all races = [] -> fdu_stores (fdu_races_all races) (fdu_cur s0) = fdu_cur s0) as Hnil by (by intros ->).
  destruct (negb fresh && negb force) eqn:Eq; injection E as <- <- <-.
  - assert (fresh = false) as -> by (by destruct fresh). specialize (Hfr eq_refl). split.
    + apply (f1u_up_inv_silent limit ops out s0); try done; unfold field_update; cbn.
      * by rewrite !fdu_pdus_app, Eo1, Eo2.
      * exists (fdu_races_all races). rewrite Eop, Ec. split; [done|]. split; [|done]. destruct Hop as [Hop _]. by rewrite Eop in Hop.
      * by rewrite Eb; apply Hi.
    + intros Er. unfold field_update. cbn. rewrite Ec. by rewrite Hnil.
  - split.
    + apply (f1u_up_inv_sent limit ops out s0 op None races); try done; unfold field_update; cbn; [by rewrite Ec|by rewrite Eb; apply Hi].
    + intros Er. unfold field_update. cbn. rewrite Ec. by rewrite Hnil.
Qed.

Lemma fdu_out1_pdus m :
  fdu_pdus (if bool_decide (ndm_t_pdu m = []) then []
            else [FduNewSdu (ndm_t_pdu m) (nud_retransmission_flag (ndm_dl_user_data m))]) = [].
Proof. by case_bool_decide. Qed.
Lemma fdu_out3_pdus m :
  fdu_pdus (match nud_discard_blocks (ndm_dl_user_data m) with
            | Some blocks => map FduDiscardSdu (flat_map nru_block_sns blocks) | None => [] end) = [].
Proof. destruct (nud_discard_blocks _); [|done]. apply fdu_pdus_discard. Qed.

Lemma f1u_up_inv_step cfg limit ops out s op s' out' :
  is_u32 limit -> f1u_up_inv limit ops out s -> fdu_up_op_ok op -> fdu_step cfg op s = Some (s', out') ->
  f1u_up_inv limit (ops ++ [op]) (out ++ out') s'.
Proof.
  intros Hlim Hi Hop E. destruct op as [races sdu|accepted msg|races| |st|races|]; cbn [fdu_step] in E.
  - injection E as E. unfold fdu_handle_sdu in E. destruct (fdu_fill_eq races (mk_nru_ul_message (Some sdu) None) s) as (fresh & Ef & _).
    rewrite Ef in E. unfold field_update in E at 1 2 3. cbn [fdu_buffering fdu_cur fdu_notif] in E. rewrite (fu_buffering _ _ _ _ Hi) in E.
    injection E as <- <-. destruct Hop as [Hst [Hp Hne]].
    apply (f1u_up_inv_sent limit ops out s _ (Some sdu) races _ [] []); try done; [congruence|]. apply Hi.
  - injection E as <- <-. apply (f1u_up_inv_silent limit ops out s); try done; unfold fdu_handle_pdu.
    + exists []. split; [set_solver|]. split; [done|]. by destruct accepted.
    + by destruct accepted.
    + destruct accepted; apply Hi.
    + destruct accepted; apply Hi.
  - unfold fdu_run_task in E. destruct (fdu_tasks s) as [|m tasks] eqn:Et; [done|]. injection E as E. unfold fdu_handle_pdu_impl in E.
    pose proof (fdu_out1_pdus m) as Eo1. pose proof (fdu_out3_pdus m) as Eo3.
    destruct (nud_report_polling (ndm_dl_user_data m)).
    + destruct (fdu_send_data_delivery_status races true (s <| fdu_tasks := tasks |>)) as [[b s1] sent] eqn:Es. injection E as <- <-.
      by eapply (f1u_up_inv_send limit ops out s (s <| fdu_tasks := tasks |>)).
    + injection E as <- <-. apply (f1u_up_inv_silent limit ops out s); try done; [by rewrite !fdu_pdus_app, Eo1, Eo3| |apply Hi|apply Hi].
      exists []. split; [set_solver|by split].
  - injection E as E. unfold fdu_flush_ul_buffer in E. rewrite (fu_buffering _ _ _ _ Hi) in E. injection E as <- <-.
    apply (f1u_up_inv_silent limit ops out s); try done; [|apply Hi|apply Hi]. exists []. split; [set_solver|by split].
  - injection E as <- <-. destruct Hop as [Hst ?].
    apply (f1u_up_inv_silent limit ops out s); try done; [|apply Hi|apply Hi]. exists [st]. by split.
  - unfold fdu_on_expired_ul_notif_timer in E. rewrite (fu_timer _ _ _ _ Hi) in E.
    destruct (fdu_send_data_delivery_status races false (s <| fdu_ul_notif_timer := false |>)) as [[b s1] sent] eqn:Es. injection E as <- <-.
    destruct (f1u_up_inv_send limit ops out s (s <| fdu_ul_notif_timer := false |>) (FduTimer races) races false b s1 [] sent []) as [H _]; try done.
    by rewrite app_nil_r in H.
  - by destruct Hop.
Qed.

Lemma f1u_up_exec_inv cfg ops out s :
  fdc_buffer_ul_on_startup cfg = false -> is_u32 (fdc_rlc_queue_bytes_limit cfg) -> Forall fdu_up_op_ok ops ->
  fdu_exec cfg (fdu_new cfg) ops out s -> f1u_up_inv (fdc_rlc_queue_bytes_limit cfg) ops out s.
Proof.
  intros Hb Hl Hops He. remember (fdu_new cfg) as s0 eqn:E0. induction He as [|s1 ops out1 s2 op out2 s3 He IH E]; subst.
  - by apply f1u_up_inv_new.
  - apply Forall_app in Hops as [Hops Hop]. apply (proj1 (Forall_singleton _ _)) in Hop. apply (f1u_up_inv_step cfg _ ops out1 s2); [done|by apply IH|done|done].
Qed.

Lemma f1u_ul_msgs_cross env env' peer_teid msgs :
  nru_env_ok env -> nru_env_ok env' -> is_u32 peer_teid -> Forall f1u_ul_msg_ok msgs ->
  exists raws, Forall2 (fun m raw => nru_handle_ul_sdu peer_teid env m = Ok [NruNewPdu raw]) msgs raws /\
    Forall2 (fun raw m => nru_handle_pdu NodeCuUp env' raw = Ok [NruNewUlSdu m]) raws msgs.
Proof.
  intros He He' Ht. induction 1 as [|m msgs (Hp & Hc & Hst) Hms (raws & H1 & H2)]; [by exists []|].
  destruct (nru_ul_crosses env env' peer_teid m He He' Ht Hp Hst) as (raw & Hs & _ & Hr). rewrite Hc in Hr.
  exists (raw :: raws). by split; constructor.
Qed.

Section uplink.
Variable cfg : f1u_du_config.
Hypothesis Hbuffer : fdc_buffer_ul_on_startup cfg = false.
Hypothesis Hlimit : is_u32 (fdc_rlc_queue_bytes_limit cfg).

(** C5. Uplink over F1-U. For every execution of the bearer of the DU that does not buffer
    and is not stopped, with reports of the RLC entity stored at any point, also between
    the loads of a status: every message crosses the tunnel in one GTP-U PDU; and the
    bearer of the CU-UP, handling them in order with an executor that takes its tasks,
    hands up exactly the SDUs of RLC in their order; every notification of PDCP is a value
    that RLC reported, or the first size of its queue; and what PDCP was last notified of
    is what the DU counts as reported. *)
Theorem f1u_uplink_exact env env' peer_teid ops out s :
  nru_env_ok env -> nru_env_ok env' -> is_u32 peer_teid -> Forall fdu_up_op_ok ops -> fdu_exec cfg (fdu_new cfg) ops out s ->
  exists raws cu cout,
    Forall2 (fun m raw => nru_handle_ul_sdu peer_teid env m = Ok [NruNewPdu raw]) (fdu_pdus out) raws /\
    Forall2 (fun raw m => nru_handle_pdu NodeCuUp env' raw = Ok [NruNewUlSdu m]) raws (fdu_pdus out) /\
    fcu_handle_batch always (fdu_pdus out) fcu_new = (cu, cout) /\
    fcu_sdus cout = fdu_op_sdus ops /\
    Forall (fun n => n = CuDesiredBufferSize (fdc_rlc_queue_bytes_limit cfg) \/
                     fcu_notification_store n ∈ flat_map fdu_op_stores ops) (fcu_tasks cu) /\
    fcu_view (fcu_tasks cu) = fdu_notif s.
Proof.
  intros He He' Ht Hops Hx. destruct (f1u_up_exec_inv cfg ops out s Hbuffer Hlimit Hops Hx) as [_ _ _ _ _ H6 H7 H8 H9].
  destruct (f1u_ul_msgs_cross env env' peer_teid _ He He' Ht H6) as (raws & Hs & Hr). unfold fcu_receive in *.
  destruct (fcu_handle_batch always (fdu_pdus out) fcu_new) as [cu cout]. exists raws, cu, cout. split_and!; try done. apply H7.
Qed.

(** C23. Reports reach PDCP. In every state of the bearer of the DU that was not stopped and
    does not buffer, the notification timer runs; and after its next expiry, with no report
    during it, PDCP has last been notified, once the messages are handled at the CU-UP, of
    exactly the latest values that RLC reported, of each of the five kinds. *)
Theorem f1u_reports_arrive ops out s :
  Forall fdu_up_op_ok ops -> fdu_exec cfg (fdu_new cfg) ops out s ->
  exists s' out', fdu_step cfg (FduTimer (mk_f1u_du_races [] [] [] [] [])) s = Some (s', out') /\
    fdu_cur s' = fdu_cur s /\ fdu_ul_notif_timer s' = true /\
    fcu_view (fcu_tasks (fcu_handle_batch always (fdu_pdus (out ++ out')) fcu_new).1) = fdu_cur s.
Proof.
  intros Hops Hx. pose proof (f1u_up_exec_inv cfg ops out s Hbuffer Hlimit Hops Hx) as Hi. set (races := mk_f1u_du_races [] [] [] [] []).
  cbn [fdu_step]. unfold fdu_on_expired_ul_notif_timer. rewrite (fu_timer _ _ _ _ Hi).
  destruct (fdu_send_data_delivery_status races false (s <| fdu_ul_notif_timer := false |>)) as [[b s1] sent] eqn:Es.
  destruct (f1u_up_inv_send _ ops out s (s <| fdu_ul_notif_timer := false |>) (FduTimer races) races false b s1 [] sent [] Hlimit Hi)
    as [H Hn]; try done. destruct (Hn eq_refl) as [En Ec]. exists s1, sent. split; [done|]. split; [done|]. split; [apply H|].
  rewrite app_nil_r in H. cbn [app] in H. fold (fcu_receive (fdu_pdus (out ++ sent))). rewrite (fk_view _ _ (fu_knows _ _ _ _ H)), En. destruct (fu_below _ _ _ _ Hi) as [B1 B2 _ _].
  change (fdu_loaded races (fdu_cur s)) with (mk_f1u_du_atomics (fda_desired_buffer_size (fdu_cur s)) (fda_highest_transmitted (fdu_cur s))
    (fda_highest_delivered (fdu_cur s)) (fda_highest_retransmitted (fdu_cur s)) (fda_highest_delivered_retransmitted (fdu_cur s))).
  apply atomics_eq; cbn; try done; unfold set_sn; case_match; zbool; cbn; [|done| |done]; clear - B1 B2 H0; lia.
Qed.
End uplink.
