(* ===== verification/F1uExamples.v ===== *)
(** * F1-U: examples

    The theorems on the bearers at concrete executions, and executions that show what the
    bearers do not do. *)
From stdpp Require Import base numbers list.
From Stdlib Require Import ZArith Lia.
From S2P Require Import Prelude.
From S2P Require Import BitBytes.
From S2P Require Import GtpuPdu.
From S2P Require Import NruPacking.
From S2P Require Import GtpuNru.
From S2P Require Import DispatchQueue.
From S2P Require Import F1uDu.
From S2P Require Import F1uCuUp.
From S2P Require Import F1uLink.
From S2P Require Import F1uReports.

Set Default Goal Selector "!".
Open Scope Z_scope.
Open Scope ran_scope.

Definition ex_nru_env : gtpu_nru_env := mk_gtpu_nru_env 128 128 true true true.

Lemma ex_nru_env_ok : nru_env_ok ex_nru_env.
Proof. split; cbn; lia || done. Qed.

Lemma ex_payload_ok l : Forall (fun b => (0 <=? b) && (b <? 256) = true) l -> zlen l <= 65000 -> nru_payload_ok l.
Proof.
  intros Hl Hz. split; [|done]. eapply Forall_impl; [exact Hl|]. cbn. intros b Hb. apply andb_true_iff in Hb as [H1 H2]. zbool.
  unfold in_range. lia.
Qed.

Ltac payload := apply ex_payload_ok; [repeat constructor|vm_compute; congruence].

(** ** Downlink *)

Definition ex_cu_cfg : f1u_cu_config := mk_f1u_cu_config 16 4.

Definition ex_dl_ops : list f1u_cu_op :=
  [FcuHandleSdu [1; 2] false; FcuDiscardSdu 5; FcuDiscardSdu 6; FcuHandleSdu [3] true; FcuDiscardSdu 9].
Definition ex_block (start size : Z) : nru_pdcp_sn_discard_block := mk_nru_pdcp_sn_discard_block start size.
Definition ex_dl_out : list f1u_cu_output :=
  [FcuNewPdu (mk_nru_dl_message [1; 2] nru_dl_user_data_default);
   FcuNewPdu (mk_nru_dl_message [3]
     (nru_dl_user_data_default <| nud_retransmission_flag := true |> <| nud_discard_blocks := Some [ex_block 5 2] |>))].
Definition ex_dl_state : f1u_cu :=
  fcu_new <| fcu_dl_notif_timer := true |> <| fcu_discard_blocks := [ex_block 9 1] |>.

Lemma ex_dl_exec : fcu_dl_exec ex_cu_cfg ex_dl_ops ex_dl_out ex_dl_state.
Proof.
  assert (forall sn s, in_range 24 sn -> (forall b, last (fcu_discard_blocks s) = Some b -> nrb_block_size b < 255) -> fcu_discard_ok sn s) as Hd
    by (intros sn s H1 H2; split; [done|]; intros b Hb _; by apply H2).
  apply (fcu_dl_exec_step _ (take 4 ex_dl_ops) ex_dl_out fcu_new (FcuDiscardSdu 9) []).
  2: { apply Hd; [by split|]. by intros b [=]. }
  2: { reflexivity. }
  apply (fcu_dl_exec_step _ (take 3 ex_dl_ops) (take 1 ex_dl_out)
    (fcu_new <| fcu_dl_notif_timer := true |> <| fcu_discard_blocks := [ex_block 5 2] |>) (FcuHandleSdu [3] true) (drop 1 ex_dl_out)).
  2: { split; [payload|done]. }
  2: { reflexivity. }
  apply (fcu_dl_exec_step _ (take 2 ex_dl_ops) (take 1 ex_dl_out)
    (fcu_new <| fcu_dl_notif_timer := true |> <| fcu_discard_blocks := [ex_block 5 1] |>) (FcuDiscardSdu 6) []).
  2: { apply Hd; [by split|]. by intros b [= <-]. }
  2: { reflexivity. }
  apply (fcu_dl_exec_step _ (take 1 ex_dl_ops) (take 1 ex_dl_out) fcu_new (FcuDiscardSdu 5) []).
  2: { apply Hd; [by split|]. by intros b [=]. }
  2: { reflexivity. }
  apply (fcu_dl_exec_step _ [] [] fcu_new (FcuHandleSdu [1; 2] false) (take 1 ex_dl_out)); [constructor|split; [payload|done]|reflexivity].
Qed.

Lemma f1u_downlink_exact_witness :
  exists raws msgs,
    Forall2 (fun m raw => nru_handle_dl_sdu 7 ex_nru_env m = Ok [NruNewPdu raw]) (fcu_pdus ex_dl_out) raws /\
    Forall2 (fun raw m => nru_handle_pdu NodeDu ex_nru_env raw = Ok [NruNewDlSdu m]) raws msgs /\
    (forall races du du' dout, length races = length msgs -> fdu_handle_all races msgs du = (du', dout) ->
      fdu_sdus dout = [([1; 2], false); ([3], true)] /\
      fdu_discards dout ++ [9] = [5; 6; 9]) /\
    (fcu_discard_blocks ex_dl_state <> [] -> exists s' out',
      fcu_step ex_cu_cfg FcuTimer ex_dl_state = Some (Ok (s', out')) /\ fcu_discard_blocks s' = [] /\
      flat_map nru_msg_discards (fcu_pdus out') = [9]).
Proof.
  apply (f1u_downlink_exact ex_cu_cfg ex_nru_env ex_nru_env 7 ex_dl_ops ex_dl_out ex_dl_state ex_nru_env_ok); [by split|exact ex_dl_exec].
Defined.

(** ** Uplink *)

Definition fdu_run_list (cfg : f1u_du_config) (ops : list f1u_du_op) (s : f1u_du) : option (f1u_du * list f1u_du_output) :=
  foldl (fun r op => match r with
    | None => None
    | Some (s, out) => match fdu_step cfg op s with None => None | Some (s, out') => Some (s, out ++ out') end end) (Some (s, [])) ops.

Lemma fdu_run_list_exec cfg ops s s' out : fdu_run_list cfg ops s = Some (s', out) -> fdu_exec cfg s ops out s'.
Proof.
  revert s' out. induction ops as [|op ops IH] using rev_ind; intros s' out E.
  - injection E as <- <-. constructor.
  - unfold fdu_run_list in E. rewrite foldl_app in E. cbn [foldl] in E. fold (fdu_run_list cfg ops s) in E.
    destruct (fdu_run_list cfg ops s) as [[s1 out1]|] eqn:E1; [|done]. destruct (fdu_step cfg op s1) as [[s2 out2]|] eqn:E2; [|done].
    injection E as <- <-. by eapply fdu_exec_step; [apply IH|].
Qed.

Definition ex_du_cfg (buffer : bool) : f1u_du_config := mk_f1u_du_config 4096 buffer 16.
Definition no_races : f1u_du_races := mk_f1u_du_races [] [] [] [] [].

Definition ex_ul_ops : list f1u_du_op :=
  [FduHandleSdu no_races [1; 2]; FduStore (StoreTransmitted 5); FduStore (StoreBufferSize 4000);
   FduTimer (mk_f1u_du_races [] [] [StoreDelivered 3] [] [StoreTransmitted 6]); FduHandleSdu no_races [3]; FduStore (StoreDelivered 4)].
Definition ex_ul_state : f1u_du :=
  fdu_new (ex_du_cfg false) <| fdu_cur := mk_f1u_du_atomics 4000 6 4 unset_pdcp_sn unset_pdcp_sn |>
    <| fdu_notif := mk_f1u_du_atomics 4000 6 3 unset_pdcp_sn unset_pdcp_sn |>.
Definition ex_status (size : Z) (transmitted delivered : option Z) : nru_dl_data_delivery_status :=
  nru_dl_data_delivery_status_default <| nds_desired_buffer_size_for_drb := size |>
    <| nds_highest_transmitted_pdcp_sn := transmitted |> <| nds_highest_delivered_pdcp_sn := delivered |>.
Definition ex_ul_out : list f1u_du_output :=
  [FduNewPdu (mk_nru_ul_message (Some [1; 2]) (Some (ex_status 4096 None None)));
   FduNewPdu (mk_nru_ul_message None (Some (ex_status 4000 (Some 5) (Some 3))));
   FduNewPdu (mk_nru_ul_message (Some [3]) (Some (ex_status 4000 (Some 6) (Some 3))))].

Lemma ex_ul_exec : fdu_exec (ex_du_cfg false) (fdu_new (ex_du_cfg false)) ex_ul_ops ex_ul_out ex_ul_state.
Proof. apply fdu_run_list_exec. by vm_compute. Qed.

Lemma ex_ul_ops_ok : Forall fdu_up_op_ok ex_ul_ops.
Proof. repeat (apply Forall_cons_2; [split; [repeat (apply Forall_cons_2; [cbn; unfold in_range; lia|]); apply Forall_nil_2|first [done|split; [payload|done]]]|]). apply Forall_nil_2. Qed.

Lemma f1u_uplink_exact_witness :
  exists raws cu cout,
    Forall2 (fun m raw => nru_handle_ul_sdu 9 ex_nru_env m = Ok [NruNewPdu raw]) (fdu_pdus ex_ul_out) raws /\
    Forall2 (fun raw m => nru_handle_pdu NodeCuUp ex_nru_env raw = Ok [NruNewUlSdu m]) raws (fdu_pdus ex_ul_out) /\
    fcu_handle_batch always (fdu_pdus ex_ul_out) fcu_new = (cu, cout) /\
    fcu_sdus cout = [[1; 2]; [3]] /\
    Forall (fun n => n = CuDesiredBufferSize 4096 \/
                     fcu_notification_store n ∈ flat_map fdu_op_stores ex_ul_ops) (fcu_tasks cu) /\
    fcu_view (fcu_tasks cu) = mk_f1u_du_atomics 4000 6 3 unset_pdcp_sn unset_pdcp_sn.
Proof.
  apply (f1u_uplink_exact (ex_du_cfg false) eq_refl ltac:(by split) ex_nru_env ex_nru_env 9 ex_ul_ops ex_ul_out ex_ul_state
    ex_nru_env_ok ex_nru_env_ok); [by split|exact ex_ul_ops_ok|exact ex_ul_exec].
Defined.

Lemma f1u_reports_arrive_witness :
  exists s' out', fdu_step (ex_du_cfg false) (FduTimer no_races) ex_ul_state = Some (s', out') /\
    fdu_cur s' = fdu_cur ex_ul_state /\ fdu_ul_notif_timer s' = true /\
    fcu_view (fcu_tasks (fcu_handle_batch always (fdu_pdus (ex_ul_out ++ out')) fcu_new).1) = fdu_cur ex_ul_state.
Proof.
  apply (f1u_reports_arrive (ex_du_cfg false) eq_refl ltac:(by split) ex_ul_ops ex_ul_out ex_ul_state); [exact ex_ul_ops_ok|exact ex_ul_exec].
Defined.

(** ** What the bearers do not do *)

(** A status that is buffered with an SDU is sent after newer ones: PDCP is told that less
    was transmitted than before, and the next expiry of the timer does not correct it. *)
Example buffered_status_goes_back :
  let ops := [FduStore (StoreTransmitted 5); FduHandleSdu no_races [1]; FduStore (StoreTransmitted 9); FduTimer no_races;
              FduFlushUlBuffer; FduTimer no_races] in
  exists s out, fdu_run_list (ex_du_cfg true) ops (fdu_new (ex_du_cfg true)) = Some (s, out) /\
    fda_highest_transmitted (fdu_cur s) = 9 /\
    omap (fun n => match n with CuTransmit v => Some v | _ => None end)
      (fcu_tasks (fcu_handle_batch always (fdu_pdus out) fcu_new).1) = [9; 5].
Proof.
  lazymatch goal with |- let ops := ?o in _ =>
    let r := eval vm_compute in (fdu_run_list (ex_du_cfg true) o (fdu_new (ex_du_cfg true))) in
    lazymatch r with Some (?s, ?out) => exists s, out end end.
  split; [by vm_compute|]. split; by vm_compute.
Qed.

(** The timer of a stopped bearer runs again with the next uplink SDU. *)
Example stopped_timer_runs :
  fdu_ul_notif_timer (fdu_handle_sdu (ex_du_cfg false) no_races [1] (fdu_stop (fdu_new (ex_du_cfg false)))).1 = true.
Proof. reflexivity. Qed.

(** A notification that the executor refuses is not repeated: the SN is remembered. *)
Example refused_notification_lost :
  let m := mk_nru_ul_message None (Some (ex_status 0 (Some 5) None)) in
  let '(s1, _) := fcu_handle_pdu_impl (fun _ => false) m fcu_new in
  let '(s2, _) := fcu_handle_pdu_impl always m s1 in fcu_tasks s2 = [CuDesiredBufferSize 0].
Proof. reflexivity. Qed.
